(* ===== verification/_CoqProject ===== *)
-Q . S2P
Prelude.v
KList.v
Pidmap.v
Layout.v
Buddy.v
BuddyProofs.v
Paging.v
PagingProofs.v
Vma.v
VmaProofs.v
Pipe.v
Files.v
FilesProofs.v
Sched.v
SchedProofs.v
Fault.v
FaultProofs.v
Fork.v
ForkProofs.v
Slab.v
Boot.v
Exec.v
Process.v
ExitAreas.v
ExitProofs.v
ProcessProofs.v
Str.v
SysLib.v
Syscall.v
SyscallProofs.v
ExecMem.v
ExecProofs.v
ExecArgs.v
ExecveProofs.v
TaskExit.v
HList.v
SlabProofs.v
SlabInv.v
SlabSafety.v
SlabClients.v
BootDetect.v
BootTables.v
BootProofs.v
StrProofs.v
Console.v
ConsoleProofs.v
Keyboard.v
KeyboardProofs.v
Printfmt.v
PrintfmtProofs.v
Malloc.v
MallocProofs.v
PipeProofs.v
Vfs.v
VfsProofs.v
Shell.v
ShellProofs.v
UserLib.v
UserLibProofs.v
FsInit.v
FsInitProofs.v
Ide.v
IdeProofs.v
PartitionProofs.v
DiskFs.v
DiskFsProofs.v
Desc.v
