(* ===== verification/Prelude.v ===== *)
(** * A verification development for fuckOS

    fuckOS is a small teaching kernel for 32-bit x86 with PAE paging, its C library
    and its user programs.  This library models the kernel's own logic as executable
    definitions and proves what makes each part correct.

    ** The program and the files that model it

    - Prelude: machine integers, the state monad [M] of code that can stop (by
      [panic], by touching memory it does not have, or by running out of the fuel of
      a loop), tactics, generic lemmas.
    - KList, HList: the linked lists and hash chains of include/fuckOS/list.h on a
      heap of cells, as sequences.  The free lists, the run queue and the heap of
      [malloc] use KList.
    - Pidmap: the bitmap of process ids of kernel/pidmap.c, as a set of live ids.
    - Layout, Buddy, BuddyProofs: page descriptors and address arithmetic of
      include/mm/pages.h, the zones and free lists of kernel/mm/zone.c.
    - Paging, PagingProofs: kernel/mm/page.c and the table entries of pages.h.  The
      contents of the frames are words of 64 bits; an address space is the function
      [mapped] that three levels of tables describe.
    - Boot, BootDetect, BootTables, BootProofs: kernel/mm/bootmm.c, which reads the
      memory map of the boot loader, builds the page tables of the kernel and the
      page descriptors, and hands over to Buddy and Paging.
    - Slab, SlabProofs, SlabInv, SlabSafety, SlabClients: kernel/mm/slab.c, its
      invariant, and programs that allocate and free.
    - Vma, VmaProofs: the tree and list of areas of kernel/mm/mm.c and
      kernel/rbtree.c, and kernel/syscall/brk.c.
    - Fault, FaultProofs: kernel/trap/page_fault.c (demand paging and copy on write),
      [user_mem_check] of kernel/trap/syscall.c and [region_alloc] of kernel/task.c,
      over Paging and Vma.
    - Fork, ForkProofs, ExitAreas, ExitProofs: how kernel/syscall/fork.c copies an
      address space and kernel/syscall/exit.c releases it, over Paging, Vma and Fault.
    - Exec, ExecMem, ExecProofs, ExecArgs: [load_icode] of kernel/task.c for ELF
      images and the page of arguments that kernel/syscall/execve.c builds, over
      Paging, Vma and Fault.
    - Files, FilesProofs, Pipe, PipeProofs: fs/file.c, the system calls on
      descriptors, [copy_files] and [exit_files], and the pipes of fs/pipefs.
    - Sched, SchedProofs: kernel/sched.c, the timer interrupt, wait and exit, over
      KList.
    - Process, ProcessProofs, ExecveProofs, TaskExit: [do_fork], [task_create],
      [execve] and [exit] as a whole, over Sched, Pidmap, Fork, Exec and Files.
    - SysLib, Syscall, SyscallProofs: the stubs of lib/syscall.c, and the way from a
      trap through kernel/trap/trap.c and kernel/trap/syscall.c to the handlers, over
      Process.
    - Desc: the descriptor tables of kernel/init/main.c and kernel/trap/trap.c, and the
      theorem about them; its stacks are those of Boot.
    - Vfs, VfsProofs: fs/namei.c, fs/dcache.c, fs/vfsmount.c, fs/inode.c, the
      directory operations of fs/libfs.c and fs/ramfs, create and mkdir.
    - FsInit, FsInitProofs: [filesystem_init] of fs/file_system.c with fs/super.c and
      the file systems of fs/rootfs, fs/ramfs, fs/ttyfs and fs/pipefs; the addresses of
      the images are a parameter.
    - Ide, IdeProofs, PartitionProofs: kernel/block/ide.c over the ports of a drive,
      whose laws are the class [ata].
    - DiskFs, DiskFsProofs: fs/buffer.c, kernel/block/rw_block.c and fs/minix1fs, over
      Ide.
    - Console, Keyboard, Printfmt and their proofs: kernel/char, kernel/printk.c,
      lib/printfmt.c, lib/printf.c.
    - Str, StrProofs, Malloc, MallocProofs: lib/string.c, lib/malloc.c, lib/brk.c.
    - Shell, ShellProofs: user/sh.c, its tokenizer, its parser and the system calls
      it makes.
    - UserLib, UserLibProofs: lib/args.c, lib/readline.c and [main] of user/sh.c.

    A file X.v holds definitions translated from the source, with the names of the
    source; the other files named with it hold the abstract description, the
    invariants and the theorems.

    ** What the theorems show

    - Memory: the boot code hands over descriptors and tables that establish the
      invariants of the allocators (BootProofs); no page is handed out twice and
      allocation fails only when no aligned run is left (BuddyProofs); mapping,
      unmapping and lookup are updates of one function from addresses to entries, with
      exact reference counts (PagingProofs); no object of a slab cache is handed out
      twice, no two overlap, and a cache gives an object unless memory has run out
      (SlabSafety, SlabClients); areas stay disjoint and ordered (VmaProofs).
    - Address spaces: a fork shares every page of the parent, a write fault makes a
      private copy, and together the two isolate parent and child (ForkProofs,
      FaultProofs); the release of an address space whose areas can be taken down frees
      exactly what only it used (ExitProofs); a loaded program has the bytes of its image and a stack with its
      arguments (ExecProofs, ExecArgs); a user pointer outside the first page to a
      range that does not wrap is accepted exactly when the user may use it
      (FaultProofs).
    - Tasks: the scheduler is round-robin with exact bounds and exit wakes the parent
      (SchedProofs); ids are a set (Pidmap); [do_fork], [execve] and [exit] join
      memory, files, ids and the run queue, with what every error leaves behind
      (ProcessProofs, ExecveProofs, TaskExit); a call of the library, [close] apart,
      reaches the function of the kernel with its arguments and gets its answer, and
      [fork] returns twice (SyscallProofs); the system call is the
      only vector a program may ask for (Desc).
    - Files: the count of an open file is the number of its descriptors over every
      sequence of system calls that stays inside the table and in which no [pipe] fails
      (FilesProofs); a pipe answers as a queue of 4096 bytes (PipeProofs);
      path lookup is the walk over the components of the path and finds what was
      created (VfsProofs); after [filesystem_init] every program of the image and the
      terminal are found by their paths (FsInitProofs).
    - Disks: what is written to sound sectors of a drive is read back, whatever the time
      the drive takes, and a defective sector ends the command with an error
      (IdeProofs); the scan finds every partition (PartitionProofs); reading a file
      gives the bytes of its zones up to the first block the drive cannot read, through
      a cache that stays coherent (DiskFsProofs).
    - Input and output: the screen is a window of a roll of paper, what is read is what
      a US keyboard types, printing stays in its buffer and can be read back.
    - Programs: [memmove], [strcmp] and the other functions of string.h, the heap of
      [malloc] and [free] as a gapless row of chunks; the shell makes the system calls
      of a reference interpreter of the tokens of its line (ShellProofs); flags are
      parsed and lines are edited as on lists (UserLibProofs).
    - Where the code does not do what it means to, the theorem says what it does;
      these are the theorems named as witnesses of a defect (for example
      [rbtree_delete_two_children_loops], [brk_overlaps_next_area],
      [alloc_pidmap_no_wraparound], [user_mem_check_wraps], [exit_gap_faults],
      [close_call_waits], [created_file_hides_directory], [sixteen_words_fault]).

    ** Interfaces

    Where one component uses another only through what it promises, the promise is a
    class: [LinkedLists] (Sched over the lists of KList), [NewNodes] (Process over the
    memory of new list nodes), [Break] (Malloc over the end of the data of a task), [ata]
    (Ide over the drive).
    The functions that syscall.c calls are the record [kernel] of Syscall.

    ** Conventions

    A C pointer is a number and 0 is NULL; integers are kept at their width with the
    wrap-around written out ([u8], [u32], [i32], [u64]).  Loops whose bound is in the
    data take fuel; every theorem about such a loop assumes fuel above an explicit
    measure (the height of a tree, the number of areas or segments, the pages of a
    range, the length of a line or of the arguments) and proves that the run returns.
    Code outside these sources, and code of other components a function only calls,
    appears as an argument: what [kmalloc] returns, the byte a port delivers, the
    operations of a file system, the answers of the system calls of a user program.
    Locks are not modelled: the kernel runs with interrupts off on one processor, so
    every operation is one step.

    ** Not modelled

    - kernel/pci.c, kernel/block/sata.c, kernel/trap/lapic.c and
      kernel/trap/pic_8259A.c, the assembly of kernel/init and trapentry.S:
      registers of devices and of the processor.
    - kernel/123: an old copy of the file system that is not built.
    - The copy of [fs_struct] (working directory and root) in fork and execve.
    - The test programs of user/, and the wrappers of lib/ that pass their arguments
      on to a stub.
    - The functions that only print. *)

From stdpp Require Export base gmap list sets fin_maps numbers.
From stdpp Require Export list_numbers.

Local Open Scope Z_scope.

(** ** Machine integers

    A [w]-bit unsigned integer is a [Z] in [0, 2^w); the C conversions and
    the arithmetic on them reduce modulo [2^w].  Signed integers are two's
    complement, as [gcc -m32] implements them. *)

Definition u8 (x : Z) : Z := x mod 2 ^ 8.
Definition u16 (x : Z) : Z := x mod 2 ^ 16.
Definition u32 (x : Z) : Z := x mod 2 ^ 32.
Definition u64 (x : Z) : Z := x mod 2 ^ 64.
Definition i8 (x : Z) : Z := (x + 2 ^ 7) mod 2 ^ 8 - 2 ^ 7.
Definition i32 (x : Z) : Z := (x + 2 ^ 31) mod 2 ^ 32 - 2 ^ 31.
Definition i64 (x : Z) : Z := (x + 2 ^ 63) mod 2 ^ 64 - 2 ^ 63.

Declare Scope mach_scope.
Delimit Scope mach_scope with mach.
Notation "x +32 y" := (u32 (x + y)) (at level 50, left associativity) : mach_scope.
Notation "x -32 y" := (u32 (x - y)) (at level 50, left associativity) : mach_scope.

(** ** Why a run can stop

    [Panicked]: the code called [panic] (a failed [assert] does);
    [Faulted]: the code touched memory the model does not give it (a C
    undefined behaviour: a dangling pointer, an index out of an array);
    [OutOfFuel]: the bound given to a loop was too small. *)

Inductive stop := Panicked | Faulted | OutOfFuel.

Inductive outcome (A : Type) :=
  | Ok (a : A)
  | Stop (w : stop).
Arguments Ok {A} a.
Arguments Stop {A} w.

#[global] Instance stop_eq_dec : EqDecision stop.
Proof. solve_decision. Defined.

#[global] Instance outcome_ret : MRet outcome := @Ok.
#[global] Instance outcome_bind : MBind outcome := λ A B f m,
  match m with Ok a => f a | Stop w => Stop w end.

(** State-passing code that can stop. *)
Definition M (S A : Type) : Type := S → outcome (A * S).

#[global] Instance M_ret S : MRet (M S) := λ A a s, Ok (a, s).
#[global] Instance M_bind S : MBind (M S) := λ A B f m s,
  match m s with Ok (a, s') => f a s' | Stop w => Stop w end.

Definition get {S} : M S S := λ s, Ok (s, s).
Definition put {S} (s : S) : M S unit := λ _, Ok (tt, s).
Definition gets {S A} (f : S → A) : M S A := λ s, Ok (f s, s).
Definition modify {S} (f : S → S) : M S unit := λ s, Ok (tt, f s).
Definition stop_with {S A} (w : stop) : M S A := λ _, Stop w.
Definition panic {S A} : M S A := stop_with Panicked.
Definition fault {S A} : M S A := stop_with Faulted.

(** [assert(x)] of include/fuckOS/assert.h: panics when [x] is false. *)
Definition assert {S} (b : bool) : M S unit := if b then mret tt else panic.

(** The value of a memory access; outside the memory the run faults. *)
Definition of_option {S A} (o : option A) : M S A :=
  match o with Some a => mret a | None => fault end.

(** A computation that has no state, run in the middle of one that has. *)
Definition lift {S A} (o : outcome A) : M S A := λ s,
  match o with Ok a => Ok (a, s) | Stop w => Stop w end.

Section monad_laws.
Context {S : Type}.

Lemma bind_Ok {A B} (m : M S A) (f : A → M S B) s a s' :
  m s = Ok (a, s') → (m ≫= f) s = f a s'.
Proof. intros H. unfold mbind, M_bind. by rewrite H. Qed.

Lemma bind_Stop {A B} (m : M S A) (f : A → M S B) s w :
  m s = Stop w → (m ≫= f) s = Stop w.
Proof. intros H. unfold mbind, M_bind. by rewrite H. Qed.

Lemma bind_Ok_inv {A B} (m : M S A) (f : A → M S B) s r :
  (m ≫= f) s = Ok r → ∃ a s', m s = Ok (a, s') ∧ f a s' = Ok r.
Proof.
  unfold mbind, M_bind. destruct (m s) as [[a s']|w] eqn:E; [|done]. eauto.
Qed.

Lemma bind_assoc {A B C} (m : M S A) (f : A → M S B) (g : B → M S C) s :
  ((m ≫= f) ≫= g) s = (m ≫= (λ a, f a ≫= g)) s.
Proof. unfold mbind, M_bind. by destruct (m s) as [[]|]. Qed.

Lemma of_option_Some {A} (o : option A) a (s : S) :
  o = Some a → of_option o s = Ok (a, s).
Proof. by intros ->. Qed.

Lemma lift_Ok {A} (o : outcome A) a (s : S) : o = Ok a → lift o s = Ok (a, s).
Proof. by intros ->. Qed.

Lemma assert_true (b : bool) (s : S) : b = true → assert b s = Ok (tt, s).
Proof. by intros ->. Qed.
End monad_laws.

(** Step through a bind whose first computation is known. *)
Ltac run_step :=
  match goal with
  | |- context [(?m ≫= ?f) ?s] =>
      first [ rewrite (bind_Ok m f s _ _ eq_refl)
            | match goal with H : m s = Ok _ |- _ => rewrite (bind_Ok m f s _ _ H) end ]
  end; cbv beta.

(** Decompose hypotheses [(m ≫= f) s = Ok r]. *)
Ltac inv_bind :=
  repeat match goal with
  | H : (_ ≫= _) _ = Ok _ |- _ =>
      apply bind_Ok_inv in H; destruct H as (? & ? & ? & H); cbv beta in H
  | H : mret _ _ = Ok _ |- _ => injection H as ? ?; subst
  | H : Ok _ = Ok _ |- _ => injection H as ? ?; subst
  end.

(** Two runs of the same computation have the same outcome. *)
Ltac same_run :=
  repeat match goal with
  | H : ?m = Ok _, H' : ?m = Ok _ |- _ =>
      rewrite H in H'; injection H' as; subst
  end.

(** ** Arithmetic on machine integers *)

Lemma u32_small x : 0 ≤ x < 2 ^ 32 → u32 x = x.
Proof. apply Z.mod_small. Qed.
Lemma u32_range x : 0 ≤ u32 x < 2 ^ 32.
Proof. apply Z.mod_pos_bound. lia. Qed.
Lemma u64_small x : 0 ≤ x < 2 ^ 64 → u64 x = x.
Proof. apply Z.mod_small. Qed.
Lemma u8_small x : 0 ≤ x < 2 ^ 8 → u8 x = x.
Proof. apply Z.mod_small. Qed.
Lemma u8_range x : 0 ≤ u8 x < 2 ^ 8.
Proof. apply Z.mod_pos_bound. lia. Qed.
Lemma i32_small x : - 2 ^ 31 ≤ x < 2 ^ 31 → i32 x = x.
Proof. intros. unfold i32. rewrite Z.mod_small; lia. Qed.
Lemma i32_range x : - 2 ^ 31 ≤ i32 x < 2 ^ 31.
Proof. unfold i32. pose proof (Z.mod_pos_bound (x + 2 ^ 31) (2 ^ 32)). lia. Qed.
Lemma u32_i32 x : u32 (i32 x) = u32 x.
Proof.
  unfold u32, i32. rewrite Zminus_mod_idemp_l.
  f_equal. lia.
Qed.

(** [i32] reduces modulo [2^32]. *)
Lemma i32_eqm x : ∃ k, i32 x = x + k * 2 ^ 32.
Proof.
  exists (- ((x + 2 ^ 31) / 2 ^ 32)). unfold i32. rewrite Z.mod_eq by lia. lia.
Qed.
Lemma i32_add_mul x k : i32 (x + k * 2 ^ 32) = i32 x.
Proof.
  unfold i32. replace (x + k * 2 ^ 32 + 2 ^ 31) with (x + 2 ^ 31 + k * 2 ^ 32) by lia.
  by rewrite Z.mod_add by lia.
Qed.
Lemma i32_add_l x y : i32 (i32 x + y) = i32 (x + y).
Proof.
  destruct (i32_eqm x) as [k ->].
  replace (x + k * 2 ^ 32 + y) with (x + y + k * 2 ^ 32) by lia. apply i32_add_mul.
Qed.
Lemma i32_mul_l x y : i32 (i32 x * y) = i32 (x * y).
Proof.
  destruct (i32_eqm x) as [k ->].
  replace ((x + k * 2 ^ 32) * y) with (x * y + (k * y) * 2 ^ 32) by lia. apply i32_add_mul.
Qed.
Lemma i32_opp x : i32 (- i32 x) = i32 (- x).
Proof.
  destruct (i32_eqm x) as [k ->].
  replace (- (x + k * 2 ^ 32)) with (- x + (- k) * 2 ^ 32) by lia. apply i32_add_mul.
Qed.
Lemma i32_u32 x : i32 (u32 x) = i32 x.
Proof.
  unfold u32. rewrite Z.mod_eq by lia.
  replace (x - 2 ^ 32 * (x / 2 ^ 32)) with (x + - (x / 2 ^ 32) * 2 ^ 32) by lia. apply i32_add_mul.
Qed.

Lemma pow2_pos k : 0 ≤ k → 0 < 2 ^ k.
Proof. intros. apply Z.pow_pos_nonneg; lia. Qed.

Lemma pow2_S k : 0 ≤ k → 2 ^ (k + 1) = 2 * 2 ^ k.
Proof. intros. rewrite Z.pow_add_r by lia. lia. Qed.

Lemma pow2_le j k : 0 ≤ j ≤ k → 2 ^ j ≤ 2 ^ k.
Proof. intros. apply Z.pow_le_mono_r; lia. Qed.

Lemma pow2_divide j k : 0 ≤ j ≤ k → (2 ^ j | 2 ^ k).
Proof.
  intros. exists (2 ^ (k - j)). rewrite <- Z.pow_add_r by lia. f_equal. lia.
Qed.

Create HintDb mach.
Create HintDb slab.
#[export] Hint Resolve u32_small u64_small u8_small i32_small u32_range : mach.
#[export] Hint Resolve pow2_pos pow2_le pow2_divide : mach.

(** Rounding of include/mm/pages.h is in Paging; the fact it rests on. *)
Lemma mod_sub_divide a n : 0 < n → (n | a - a mod n).
Proof.
  intros Hn. exists (a / n). rewrite Z.mod_eq by lia. ring.
Qed.

Lemma divide_le_next n a b : 0 < n → (n | a) → (n | b) → a < b → a + n ≤ b.
Proof. intros Hn [x ->] [y ->] H%Z.mul_lt_mono_pos_r; nia. Qed.

(** ** Lists *)

Section lists.
Context {A : Type}.
Implicit Types (l : list A).

Lemma insert_lookup_cases l i j x y :
  <[i:=x]> l !! j = Some y →
  (i = j ∧ y = x) ∨ (i ≠ j ∧ l !! j = Some y).
Proof.
  intros H. destruct (decide (i = j)) as [->|Hne].
  - left. split; [done|].
    pose proof (lookup_lt_Some _ _ _ H) as Hl. rewrite length_insert in Hl.
    rewrite list_lookup_insert_eq in H by done. congruence.
  - right. rewrite list_lookup_insert_ne in H by done. done.
Qed.
End lists.

(** Sum of a list of integers. *)
Fixpoint zsum (l : list Z) : Z :=
  match l with [] => 0 | x :: l' => x + zsum l' end.

Lemma zsum_app l1 l2 : zsum (l1 ++ l2) = zsum l1 + zsum l2.
Proof. induction l1; simpl; lia. Qed.

Lemma zsum_insert l i x y :
  l !! i = Some x → zsum (<[i:=y]> l) = zsum l - x + y.
Proof.
  revert i. induction l as [|z l IH]; intros [|i] H; simplify_eq/=; [lia|].
  rewrite (IH i) by done. lia.
Qed.

Lemma zsum_nonneg l : Forall (λ x, 0 ≤ x) l → 0 ≤ zsum l.
Proof. induction 1; simpl; lia. Qed.

(** Counting the elements of a list that satisfy a boolean test. *)
Fixpoint countb {A} (f : A → bool) (l : list A) : Z :=
  match l with [] => 0 | x :: l' => (if f x then 1 else 0) + countb f l' end.

Lemma countb_ext {A} (f g : A → bool) l :
  (∀ x, x ∈ l → f x = g x) → countb f l = countb g l.
Proof.
  induction l as [|x l IH]; intros H; simpl; [done|].
  rewrite (H x) by left. rewrite IH; [done|]. intros y Hy. apply H. by right.
Qed.

Lemma countb_flip {A} (f g : A → bool) l i :
  NoDup l → i ∈ l → (∀ x, x ∈ l → x ≠ i → f x = g x) → f i = false → g i = true →
  countb g l = countb f l + 1.
Proof.
  induction 1 as [|x l Hx ND IH]; intros Hi Hfg Hf Hg; simpl; [by apply elem_of_nil in Hi|].
  apply elem_of_cons in Hi as [->|Hi].
  - rewrite Hf, Hg, (countb_ext f g); [lia|].
    intros y Hy. apply Hfg; [by right|]. intros ->. done.
  - rewrite (Hfg x); [|by left|by intros ->].
    rewrite IH; [lia|done| |done..]. intros y Hy. apply Hfg. by right.
Qed.

Lemma countb_bounds {A} (f : A → bool) l : 0 ≤ countb f l ≤ Z.of_nat (length l).
Proof. induction l as [|x l IH]; simpl; [lia|]. destruct (f x); lia. Qed.

Lemma countb_pos {A} (f : A → bool) l i : i ∈ l → f i = true → 0 < countb f l.
Proof.
  induction l as [|x l IH]; intros Hi Hf; simpl; [by apply elem_of_nil in Hi|].
  pose proof (countb_bounds f l).
  apply elem_of_cons in Hi as [<-|Hi]; [rewrite Hf; lia|].
  specialize (IH Hi Hf). destruct (f x); lia.
Qed.

Lemma countb_false {A} (l : list A) : countb (λ _, false) l = 0.
Proof. induction l; simpl; lia. Qed.

Lemma countb_all {A} (f : A → bool) l :
  countb f l = Z.of_nat (length l) → ∀ x, x ∈ l → f x = true.
Proof.
  induction l as [|y l IH]; intros H x Hx; [by apply elem_of_nil in Hx|].
  simpl in H. pose proof (countb_bounds f l).
  destruct (f y) eqn:E; [|lia].
  apply elem_of_cons in Hx as [->|Hx]; [done|]. apply IH; [lia|done].
Qed.

(** ** Single bits of a word *)

Lemma land_bit_nonzero w k : 0 ≤ k →
  bool_decide (Z.land w (Z.shiftl 1 k) ≠ 0) = Z.testbit w k.
Proof.
  intros Hk. assert (E : Z.land w (Z.shiftl 1 k) = if Z.testbit w k then 2 ^ k else 0).
  { apply Z.bits_inj'. intros n Hn. rewrite Z.land_spec, Z.shiftl_1_l, Z.pow2_bits_eqb by done.
    destruct (Z.eqb_spec k n) as [<-|Hne].
    - destruct (Z.testbit w k); simpl; [by rewrite Z.pow2_bits_true|by rewrite Z.bits_0].
    - rewrite andb_false_r. destruct (Z.testbit w k); [|by rewrite Z.bits_0].
      by rewrite Z.pow2_bits_false. }
  rewrite E. pose proof (pow2_pos k Hk).
  destruct (Z.testbit w k); [apply bool_decide_eq_true_2|apply bool_decide_eq_false_2]; lia.
Qed.

Lemma lor_bit_testbit w k j : 0 ≤ k → 0 ≤ j →
  Z.testbit (Z.lor w (Z.shiftl 1 k)) j = (Z.eqb k j || Z.testbit w j).
Proof.
  intros. rewrite Z.lor_spec, Z.shiftl_1_l, Z.pow2_bits_eqb by done. apply orb_comm.
Qed.

Lemma ldiff_bit_testbit w k j : 0 ≤ k → 0 ≤ j →
  Z.testbit (Z.land w (Z.lnot (Z.shiftl 1 k))) j = (negb (Z.eqb k j) && Z.testbit w j).
Proof.
  intros. rewrite Z.land_spec, Z.lnot_spec, Z.shiftl_1_l, Z.pow2_bits_eqb by done.
  apply andb_comm.
Qed.

Lemma bits_below w n : 0 ≤ n → (∀ k, n ≤ k → Z.testbit w k = false) → 0 ≤ w → w < 2 ^ n.
Proof.
  intros Hn Hb Hw. destruct (Z.eq_dec w 0) as [->|Hne]; [by apply pow2_pos|].
  apply Z.log2_lt_pow2; [lia|]. destruct (Z.lt_ge_cases (Z.log2 w) n) as [?|Hge]; [done|].
  pose proof (Z.bit_log2 w ltac:(lia)) as Hbit. rewrite Hb in Hbit by done. done.
Qed.

Lemma lor_u32 a b : 0 ≤ a < 2 ^ 32 → 0 ≤ b < 2 ^ 32 → 0 ≤ Z.lor a b < 2 ^ 32.
Proof.
  intros Ha Hb. assert (0 ≤ Z.lor a b) by (apply Z.lor_nonneg; lia). split; [done|].
  apply bits_below; [lia| |done]. intros k Hk. rewrite Z.lor_spec.
  rewrite !(Z.bits_above_log2 _ k); [done|lia| |lia|];
    (eapply Z.le_lt_trans; [apply Z.log2_le_mono with (b := 2 ^ 32 - 1); lia|];
     change (Z.log2 (2 ^ 32 - 1)) with 31; lia).
Qed.

Lemma land_u32 a b : 0 ≤ a < 2 ^ 32 → 0 ≤ Z.land a b < 2 ^ 32.
Proof.
  intros Ha. assert (0 ≤ Z.land a b) by (apply Z.land_nonneg; lia). split; [done|].
  apply bits_below; [lia| |done]. intros k Hk. rewrite Z.land_spec.
  rewrite (Z.bits_above_log2 a k); [done|lia|].
  eapply Z.le_lt_trans; [apply Z.log2_le_mono with (b := 2 ^ 32 - 1); lia|].
  change (Z.log2 (2 ^ 32 - 1)) with 31. lia.
Qed.

(** A sum over distinct indices when one summand changes. *)
Lemma zsum_update {A} (f g : A → Z) (l : list A) (i : A) :
  NoDup l → i ∈ l → (∀ x, x ∈ l → x ≠ i → f x = g x) →
  zsum (g <$> l) = zsum (f <$> l) - f i + g i.
Proof.
  induction 1 as [|x l Hx ND IH]; intros Hi Hfg; [by apply elem_of_nil in Hi|].
  rewrite !fmap_cons. cbn [zsum].
  apply elem_of_cons in Hi as [->|Hi].
  - rewrite (list_fmap_ext g f l); [lia|].
    intros k y Hy%list_elem_of_lookup_2. symmetry. apply Hfg; [by right|].
    intros ->. done.
  - rewrite (Hfg x); [|by left|by intros ->].
    rewrite IH; [lia|done|]. intros y Hy. apply Hfg. by right.
Qed.

Lemma zsum_le_elem {A} (f : A → Z) (l : list A) (i : A) :
  i ∈ l → (∀ x, x ∈ l → 0 ≤ f x) → f i ≤ zsum (f <$> l).
Proof.
  induction l as [|x l IH]; intros Hi Hn; [by apply elem_of_nil in Hi|].
  rewrite fmap_cons. cbn [zsum].
  assert (0 ≤ zsum (f <$> l)).
  { apply zsum_nonneg, Forall_fmap, Forall_forall. intros y Hy. apply Hn. by right. }
  apply elem_of_cons in Hi as [->|Hi]; [lia|].
  specialize (IH Hi (λ y Hy, Hn y (list_elem_of_further _ _ _ Hy))). 
  specialize (Hn x ltac:(left)). lia.
Qed.

Lemma join_cons {A} (x : list A) ls : mjoin (x :: ls) = x ++ mjoin ls.
Proof. done. Qed.

(** Disjoint intervals inside a range have at most its length in sum. *)
Lemma disjoint_intervals_le (l : list (Z * Z)) (b n : Z) :
  0 ≤ n →
  (∀ p len, (p, len) ∈ l → b ≤ p ∧ 0 < len ∧ p + len ≤ b + n) →
  NoDup l →
  (∀ p len q len' i, (p, len) ∈ l → (q, len') ∈ l →
     p ≤ i < p + len → q ≤ i < q + len' → (p, len) = (q, len')) →
  zsum (snd <$> l) ≤ n.
Proof.
  intros Hn Hin ND Hd.
  set (c := mjoin ((λ x : Z * Z, seqZ x.1 x.2) <$> l)).
  assert (Hlen : Z.of_nat (length c) = zsum (snd <$> l)).
  { subst c. clear Hd ND. induction l as [|[p len] l IH]; [done|].
    rewrite !fmap_cons, join_cons. cbn [zsum fst snd].
    rewrite length_app, length_seqZ, Nat2Z.inj_add, IH by (intros; apply Hin; by right).
    destruct (Hin p len) as (_ & ? & _); [by left|]. lia. }
  assert (Hel : ∀ i, i ∈ c → ∃ p len, (p, len) ∈ l ∧ p ≤ i < p + len).
  { subst c. intros i Hi. apply list_elem_of_join in Hi as (s & Hi & Hs).
    apply list_elem_of_fmap in Hs as ([p len] & -> & Hl). apply elem_of_seqZ in Hi. eauto. }
  assert (NDc : NoDup c).
  { subst c. clear Hlen Hel Hin. induction ND as [|[p len] l Hx ND IH]; [constructor|].
    rewrite fmap_cons, join_cons.
    apply NoDup_app. split_and!; [apply NoDup_seqZ| |].
    - intros i Hi Hi'. apply elem_of_seqZ in Hi. simpl in Hi.
      apply list_elem_of_join in Hi' as (s & Hi' & Hs).
      apply list_elem_of_fmap in Hs as ([q len'] & -> & Hl). apply elem_of_seqZ in Hi'.
      simpl in Hi'.
      assert ((p, len) = (q, len')) as [= -> ->]; [|done].
      apply (Hd _ _ _ _ i); [by left|by right|lia|lia].
    - apply IH. intros p' len1 q len2 i H1 H2. apply Hd; by right. }
  rewrite <- Hlen. rewrite <- (Z2Nat.id n), <- (length_seqZ b n) by done.
  apply Nat2Z.inj_le. apply submseteq_length. apply NoDup_submseteq; [done|].
  intros i (p & len & Hl & Hi)%Hel. apply elem_of_seqZ.
  destruct (Hin p len Hl). lia.
Qed.
