(* ===== verification/KList.v ===== *)
(** * The intrusive doubly linked lists of include/fuckOS/list.h

    A [struct list_head] is a cell of a heap [gmap Z list_head], addressed by
    its pointer; an access to a pointer outside the heap faults.  The
    operations are the ones of the header, statement by statement.

    [is_list h hd xs] says that the circular list whose head is [hd] holds the
    nodes [xs] in order, and [lists_rep h L] that the heap represents the whole
    family [L] of lists ([hd ↦ members]), pairwise disjoint.  The class
    [LinkedLists] is the interface the other components use; the heap of this
    file is its instance. *)

From S2P Require Import Prelude.

Local Open Scope Z_scope.

(** ** Data and operations *)

Record list_head := mk_list_head { next : Z; prev : Z }.

Abbreviation lheap := (gmap Z list_head).

Definition set_next (p v : Z) : M lheap unit := λ h,
  match h !! p with
  | Some c => Ok (tt, <[p := mk_list_head v (prev c)]> h)
  | None => Stop Faulted
  end.

Definition set_prev (p v : Z) : M lheap unit := λ h,
  match h !! p with
  | Some c => Ok (tt, <[p := mk_list_head (next c) v]> h)
  | None => Stop Faulted
  end.

Definition load (p : Z) : M lheap list_head := λ h,
  match h !! p with Some c => Ok (c, h) | None => Stop Faulted end.

Definition INIT_LIST_HEAD (list : Z) : M lheap unit :=
  set_next list list ;; set_prev list list.

Definition __list_add (new prev next : Z) : M lheap unit :=
  set_prev next new ;;
  set_next new next ;;
  set_prev new prev ;;
  set_next prev new.

Definition list_add (new head : Z) : M lheap unit :=
  c ← load head; __list_add new head (next c).

Definition list_add_tail (new head : Z) : M lheap unit :=
  c ← load head; __list_add new (prev c) head.

Definition __list_del (prev next : Z) : M lheap unit :=
  set_prev next prev ;;
  set_next prev next.

Definition list_del (entry : Z) : M lheap unit :=
  c ← load entry;
  __list_del (prev c) (next c) ;;
  set_next entry entry ;;
  set_prev entry entry.

Definition list_empty (head : Z) : M lheap bool :=
  c ← load head; mret (bool_decide (next c = head)).

Definition list_is_last (list head : Z) : M lheap bool :=
  c ← load list; mret (bool_decide (next c = head)).

Definition list_is_first (list head : Z) : M lheap bool :=
  c ← load list; mret (bool_decide (prev c = head)).

(** [list_for_each_entry] and [list_for_each_entry_reverse], collecting the
    nodes the loop visits; [pos] is the loop cursor. *)
Fixpoint walk (step : list_head → Z) (fuel : nat) (pos head : Z) : M lheap (list Z) :=
  match fuel with
  | O => stop_with OutOfFuel
  | S fuel =>
      if bool_decide (pos = head) then mret []
      else c ← load pos; l ← walk step fuel (step c) head; mret (pos :: l)
  end.

Definition list_for_each_entry (fuel : nat) (head : Z) : M lheap (list Z) :=
  c ← load head; walk next fuel (next c) head.

Definition list_for_each_entry_reverse (fuel : nat) (head : Z) : M lheap (list Z) :=
  c ← load head; walk prev fuel (prev c) head.

(** ** The shape of a list *)

Definition nxt (h : lheap) (x : Z) : option Z := next <$> h !! x.
Definition prv (h : lheap) (x : Z) : option Z := prev <$> h !! x.
Definition link (h : lheap) (a b : Z) : Prop := nxt h a = Some b ∧ prv h b = Some a.

Fixpoint path (h : lheap) (l : list Z) : Prop :=
  match l with
  | a :: ((b :: _) as l') => link h a b ∧ path h l'
  | _ => True
  end.

Definition is_list (h : lheap) (hd : Z) (xs : list Z) : Prop :=
  NoDup (hd :: xs) ∧ path h (hd :: xs ++ [hd]).

Lemma path_app h l1 p n l2 :
  path h (l1 ++ p :: n :: l2) ↔ (path h (l1 ++ [p]) ∧ link h p n ∧ path h (n :: l2)).
Proof.
  induction l1 as [|a [|b l1] IH]; simpl in *; tauto.
Qed.

(** Only the [next] of all nodes but the last and the [prev] of all nodes but
    the first matter. *)
Lemma path_ext h h' l :
  (∀ x, x ∈ removelast l → nxt h' x = nxt h x) →
  (∀ x, x ∈ tail l → prv h' x = prv h x) →
  path h l → path h' l.
Proof.
  induction l as [|a [|b l] IH]; [done..|]. intros Hn Hp [[H1 H2] H3].
  split; [split|].
  - rewrite Hn; [done|]. simpl. left.
  - rewrite Hp; [done|]. simpl. left.
  - apply IH; [| |done].
    + intros x Hx. apply Hn. simpl in *. by right.
    + intros x Hx. apply Hp. simpl in *. by right.
Qed.

Lemma removelast_split (l1 : list Z) p n l2 :
  removelast (l1 ++ p :: n :: l2) = l1 ++ p :: removelast (n :: l2).
Proof.
  rewrite removelast_app by done. done.
Qed.

Lemma removelast_snoc (l : list Z) x : removelast (l ++ [x]) = l.
Proof. apply removelast_last. Qed.

Lemma tail_split (l1 : list Z) p n l2 :
  tail (l1 ++ p :: n :: l2) = tail (l1 ++ [p]) ++ n :: l2.
Proof. destruct l1; simpl; [done|]. by rewrite <- (assoc_L app). Qed.

(** What the field updates do to [nxt] and [prv]. *)
Lemma nxt_insert h p c x : nxt (<[p := c]> h) x = if decide (p = x) then Some (next c) else nxt h x.
Proof. unfold nxt. rewrite lookup_insert. by case_decide. Qed.
Lemma prv_insert h p c x : prv (<[p := c]> h) x = if decide (p = x) then Some (prev c) else prv h x.
Proof. unfold prv. rewrite lookup_insert. by case_decide. Qed.

Lemma set_next_ok h p v :
  is_Some (h !! p) → ∃ h', set_next p v h = Ok (tt, h') ∧
    (∀ x, nxt h' x = if decide (p = x) then Some v else nxt h x) ∧
    (∀ x, prv h' x = prv h x) ∧ (∀ x, is_Some (h' !! x) ↔ is_Some (h !! x)) ∧
    (∀ x, x ≠ p → h' !! x = h !! x).
Proof.
  intros [c Hc]. unfold set_next. rewrite Hc. eexists; split; [done|].
  repeat split.
  - intros x. rewrite nxt_insert. done.
  - intros x. rewrite prv_insert. case_decide; [subst|done].
    unfold prv. by rewrite Hc.
  - rewrite lookup_insert. case_decide; subst; eauto.
  - rewrite lookup_insert. case_decide; subst; eauto.
  - intros x Hx. by rewrite lookup_insert_ne.
Qed.

Lemma set_prev_ok h p v :
  is_Some (h !! p) → ∃ h', set_prev p v h = Ok (tt, h') ∧
    (∀ x, prv h' x = if decide (p = x) then Some v else prv h x) ∧
    (∀ x, nxt h' x = nxt h x) ∧ (∀ x, is_Some (h' !! x) ↔ is_Some (h !! x)) ∧
    (∀ x, x ≠ p → h' !! x = h !! x).
Proof.
  intros [c Hc]. unfold set_prev. rewrite Hc. eexists; split; [done|].
  repeat split.
  - intros x. rewrite prv_insert. done.
  - intros x. rewrite nxt_insert. case_decide; [subst|done].
    unfold nxt. by rewrite Hc.
  - rewrite lookup_insert. case_decide; subst; eauto.
  - rewrite lookup_insert. case_decide; subst; eauto.
  - intros x Hx. by rewrite lookup_insert_ne.
Qed.

Lemma load_ok h p c : h !! p = Some c → load p h = Ok (c, h).
Proof. intros H. unfold load. by rewrite H. Qed.

Lemma nxt_Some h p v : nxt h p = Some v → ∃ c, h !! p = Some c ∧ next c = v.
Proof. unfold nxt. intros (c & -> & H)%fmap_Some. eauto. Qed.
Lemma prv_Some h p v : prv h p = Some v → ∃ c, h !! p = Some c ∧ prev c = v.
Proof. unfold prv. intros (c & -> & H)%fmap_Some. eauto. Qed.
Lemma nxt_alloc h p v : nxt h p = Some v → is_Some (h !! p).
Proof. intros (c & ? & _)%nxt_Some. eauto. Qed.
Lemma prv_alloc h p v : prv h p = Some v → is_Some (h !! p).
Proof. intros (c & ? & _)%prv_Some. eauto. Qed.

(** The heap after [__list_add], described by its links. *)
Lemma __list_add_links h new p n :
  is_Some (h !! new) → is_Some (h !! p) → is_Some (h !! n) → new ≠ p → new ≠ n →
  ∃ h', __list_add new p n h = Ok (tt, h') ∧
    (∀ x, nxt h' x = if decide (p = x) then Some new
                     else if decide (new = x) then Some n else nxt h x) ∧
    (∀ x, prv h' x = if decide (new = x) then Some p
                     else if decide (n = x) then Some new else prv h x) ∧
    (∀ x, is_Some (h' !! x) ↔ is_Some (h !! x)) ∧
    (∀ x, x ≠ new → x ≠ p → x ≠ n → h' !! x = h !! x).
Proof.
  intros Hnew Hp Hn N1 N2. unfold __list_add.
  destruct (set_prev_ok h n new Hn) as (h1 & E1 & P1 & Q1 & A1 & F1).
  destruct (set_next_ok h1 new n) as (h2 & E2 & Q2 & P2 & A2 & F2); [by rewrite A1|].
  destruct (set_prev_ok h2 new p) as (h3 & E3 & P3 & Q3 & A3 & F3); [by rewrite A2, A1|].
  destruct (set_next_ok h3 p new) as (h4 & E4 & Q4 & P4 & A4 & F4); [by rewrite A3, A2, A1|].
  exists h4. split; [by do 3 run_step|].
  split; [|split; [|split]].
  - intros x. rewrite Q4, Q3, Q2, Q1. done.
  - intros x. rewrite P4, P3, P2, P1. done.
  - intros x. by rewrite A4, A3, A2, A1.
  - intros x ???. rewrite F4, F3, F2, F1; done.
Qed.

Lemma __list_del_links h p n :
  is_Some (h !! p) → is_Some (h !! n) →
  ∃ h', __list_del p n h = Ok (tt, h') ∧
    (∀ x, nxt h' x = if decide (p = x) then Some n else nxt h x) ∧
    (∀ x, prv h' x = if decide (n = x) then Some p else prv h x) ∧
    (∀ x, is_Some (h' !! x) ↔ is_Some (h !! x)) ∧
    (∀ x, x ≠ p → x ≠ n → h' !! x = h !! x).
Proof.
  intros Hp Hn. unfold __list_del.
  destruct (set_prev_ok h n p Hn) as (h1 & E1 & P1 & Q1 & A1 & F1).
  destruct (set_next_ok h1 p n) as (h2 & E2 & Q2 & P2 & A2 & F2); [by rewrite A1|].
  exists h2. split; [by run_step|]. split; [|split; [|split]].
  - intros x. by rewrite Q2, Q1.
  - intros x. by rewrite P2, P1.
  - intros x. by rewrite A2, A1.
  - intros x ??. rewrite F2, F1; done.
Qed.

(** ** Insertion and deletion inside a path *)

(** The facts about the position of [p] and [n] in a ring that both proofs use. *)
Lemma ring_split_fresh (l1 : list Z) p n l2 :
  NoDup (removelast (l1 ++ p :: n :: l2)) → NoDup (tail (l1 ++ p :: n :: l2)) →
  p ∉ l1 ∧ p ∉ removelast (n :: l2) ∧ n ∉ tail (l1 ++ [p]) ∧ n ∉ l2.
Proof.
  rewrite removelast_split, tail_split.
  intros (_ & H1 & H2)%NoDup_app (_ & H3 & H4)%NoDup_app.
  apply NoDup_cons in H2 as [H2 _]. apply NoDup_cons in H4 as [H4 _].
  split_and!; [|done| |done]; intros Hin.
  - by apply (H1 p Hin); left.
  - by apply (H3 n Hin); left.
Qed.

Lemma elem_of_removelast (x : Z) l : x ∈ removelast l → x ∈ l.
Proof.
  induction l as [|a [|b l] IH]; simpl in *; [done|by intros ?%elem_of_nil|].
  rewrite (elem_of_cons (removelast (b :: l))), (elem_of_cons (b :: l)). naive_solver.
Qed.

Lemma elem_of_tail (x : Z) l : x ∈ tail l → x ∈ l.
Proof. destruct l; [done|]. by right. Qed.

Lemma path_insert h h' l1 p n l2 new :
  path h (l1 ++ p :: n :: l2) →
  NoDup (removelast (l1 ++ p :: n :: l2)) → NoDup (tail (l1 ++ p :: n :: l2)) →
  new ∉ l1 ++ p :: n :: l2 →
  (∀ x, nxt h' x = if decide (p = x) then Some new
                   else if decide (new = x) then Some n else nxt h x) →
  (∀ x, prv h' x = if decide (new = x) then Some p
                   else if decide (n = x) then Some new else prv h x) →
  path h' (l1 ++ p :: new :: n :: l2).
Proof.
  intros Hpath ND1 ND2 Hnew HN HP.
  destruct (ring_split_fresh _ _ _ _ ND1 ND2) as (Hp1 & Hp2 & Hn1 & Hn2).
  apply path_app in Hpath as (H1 & [L1 L2] & H2).
  rewrite elem_of_app, !elem_of_cons in Hnew.
  apply path_app. split; [|split].
  - eapply path_ext; [| |exact H1]; intros x Hx.
    + rewrite removelast_snoc in Hx. rewrite HN.
      repeat case_decide; subst; naive_solver.
    + rewrite HP. pose proof (elem_of_tail _ _ Hx) as Hx'.
      apply elem_of_app in Hx' as [?|?%list_elem_of_singleton];
        repeat case_decide; subst; naive_solver.
  - split; [rewrite HN|rewrite HP]; by rewrite decide_True.
  - split; [split|].
    + rewrite HN, decide_False, decide_True; naive_solver.
    + rewrite HP, decide_False, decide_True; naive_solver.
    + eapply path_ext; [| |exact H2]; intros x Hx.
      * pose proof (elem_of_removelast _ _ Hx) as Hx'. apply elem_of_cons in Hx'.
        rewrite HN. repeat case_decide; subst; naive_solver.
      * simpl in Hx. rewrite HP. repeat case_decide; subst; naive_solver.
Qed.

Lemma path_delete h h' l1 p y n l2 :
  path h (l1 ++ p :: y :: n :: l2) →
  NoDup (removelast (l1 ++ p :: n :: l2)) → NoDup (tail (l1 ++ p :: n :: l2)) →
  y ∉ l1 ++ p :: n :: l2 →
  (∀ x, x ≠ y → nxt h' x = if decide (p = x) then Some n else nxt h x) →
  (∀ x, x ≠ y → prv h' x = if decide (n = x) then Some p else prv h x) →
  path h' (l1 ++ p :: n :: l2).
Proof.
  intros Hpath ND1 ND2 Hy HN HP.
  destruct (ring_split_fresh _ _ _ _ ND1 ND2) as (Hp1 & Hp2 & Hn1 & Hn2).
  apply path_app in Hpath as (H1 & L & H2). destruct H2 as [L' H2].
  rewrite elem_of_app, !elem_of_cons in Hy.
  apply path_app. split; [|split; [split|]].
  - eapply path_ext; [| |exact H1]; intros x Hx.
    + rewrite removelast_snoc in Hx. rewrite HN by naive_solver.
      case_decide; subst; naive_solver.
    + pose proof (elem_of_tail _ _ Hx) as Hx'.
      apply elem_of_app in Hx' as [?|?%list_elem_of_singleton]; rewrite HP by naive_solver;
        case_decide; subst; naive_solver.
  - rewrite HN by naive_solver. by rewrite decide_True.
  - rewrite HP by naive_solver. by rewrite decide_True.
  - eapply path_ext; [| |exact H2]; intros x Hx.
    + pose proof (elem_of_removelast _ _ Hx) as Hx'. apply elem_of_cons in Hx'.
      rewrite HN by naive_solver. case_decide; subst; naive_solver.
    + simpl in Hx. rewrite HP by naive_solver. case_decide; subst; naive_solver.
Qed.

(** ** The operations on one list *)

Lemma ring_view (hd : Z) ys zs p n :
  last (hd :: ys) = Some p → head (zs ++ [hd]) = Some n →
  ∃ l1 l2, hd :: ys = l1 ++ [p] ∧ zs ++ [hd] = n :: l2.
Proof.
  intros [l1 ->]%last_Some Hh. destruct (zs ++ [hd]) as [|? l2]; simplify_eq/=. eauto.
Qed.

Lemma ring_eq (hd : Z) ys zs p n l1 l2 :
  hd :: ys = l1 ++ [p] → zs ++ [hd] = n :: l2 →
  hd :: (ys ++ zs) ++ [hd] = l1 ++ p :: n :: l2.
Proof.
  intros E1 E2. rewrite <- (assoc_L app), app_comm_cons, E1, E2.
  by rewrite <- (assoc_L app).
Qed.

Lemma ring_NoDup (hd : Z) xs :
  NoDup (hd :: xs) →
  NoDup (removelast (hd :: xs ++ [hd])) ∧ NoDup (tail (hd :: xs ++ [hd])).
Proof.
  intros H. rewrite app_comm_cons, removelast_snoc. split; [done|]. simpl.
  rewrite <- Permutation_cons_append. done.
Qed.

Lemma ring_elem (hd x : Z) xs : x ∈ hd :: xs ++ [hd] ↔ x ∈ hd :: xs.
Proof. set_solver. Qed.

Lemma is_list_link h hd ys zs p n :
  is_list h hd (ys ++ zs) → last (hd :: ys) = Some p → head (zs ++ [hd]) = Some n →
  link h p n.
Proof.
  intros [_ Hp] Hl Hh. destruct (ring_view _ _ _ _ _ Hl Hh) as (l1 & l2 & E1 & E2).
  rewrite (ring_eq _ _ _ _ _ _ _ E1 E2) in Hp. by apply path_app in Hp as (_ & ? & _).
Qed.

Lemma __list_add_spec h hd ys zs p n new :
  is_list h hd (ys ++ zs) → last (hd :: ys) = Some p → head (zs ++ [hd]) = Some n →
  new ∉ hd :: ys ++ zs → is_Some (h !! new) →
  ∃ h', __list_add new p n h = Ok (tt, h') ∧ is_list h' hd (ys ++ new :: zs) ∧
    (∀ x, x ∉ hd :: ys ++ zs → x ≠ new → h' !! x = h !! x) ∧
    (∀ x, is_Some (h' !! x) ↔ is_Some (h !! x)).
Proof.
  intros Hl Hlast Hhead Hnew Halloc.
  pose proof (is_list_link _ _ _ _ _ _ Hl Hlast Hhead) as [L1 L2].
  destruct Hl as [ND Hp].
  destruct (ring_view _ _ _ _ _ Hlast Hhead) as (l1 & l2 & E1 & E2).
  destruct (ring_NoDup _ _ ND) as [ND1 ND2].
  assert (Hnew' : new ∉ hd :: (ys ++ zs) ++ [hd]) by (by rewrite ring_elem).
  assert (Hsub : ∀ x, x ∉ hd :: ys ++ zs → x ∉ l1 ++ p :: n :: l2).
  { intros x Hx. rewrite <- (ring_eq _ _ _ _ _ _ _ E1 E2). by rewrite ring_elem. }
  rewrite (ring_eq _ _ _ _ _ _ _ E1 E2) in Hp, ND1, ND2, Hnew'.
  destruct (__list_add_links h new p n) as (h' & E & HN & HP & HA & HF);
    [done|eapply nxt_alloc; done|eapply prv_alloc; done|set_solver|set_solver|].
  exists h'. split_and!; [done| | |done].
  - split.
    + rewrite <- Permutation_middle, Permutation_swap.
      apply NoDup_cons. split; [done|exact ND].
    + replace (hd :: (ys ++ new :: zs) ++ [hd]) with (l1 ++ p :: new :: n :: l2).
      { by eapply path_insert. }
      rewrite <- (assoc_L app), app_comm_cons, E1. simpl. rewrite E2.
      by rewrite <- (assoc_L app).
  - intros x Hx Hx'. pose proof (Hsub x Hx). apply HF; [done|set_solver..].
Qed.

Lemma list_add_spec h hd ys zs p new :
  is_list h hd (ys ++ zs) → last (hd :: ys) = Some p →
  new ∉ hd :: ys ++ zs → is_Some (h !! new) →
  ∃ h', list_add new p h = Ok (tt, h') ∧ is_list h' hd (ys ++ new :: zs) ∧
    (∀ x, x ∉ hd :: ys ++ zs → x ≠ new → h' !! x = h !! x) ∧
    (∀ x, is_Some (h' !! x) ↔ is_Some (h !! x)).
Proof.
  intros Hl Hlast Hnew Halloc.
  assert (∃ n, head (zs ++ [hd]) = Some n) as [n Hn] by (destruct zs; eauto).
  destruct (is_list_link _ _ _ _ _ _ Hl Hlast Hn) as [(c & Hc & <-)%nxt_Some _].
  destruct (__list_add_spec _ _ _ _ _ _ new Hl Hlast Hn) as (h' & E & R); [done..|].
  exists h'. split; [|done]. unfold list_add.
  rewrite (bind_Ok _ _ _ _ _ (load_ok _ _ _ Hc)). exact E.
Qed.

Lemma list_add_tail_spec h hd ys zs n new :
  is_list h hd (ys ++ zs) → head (zs ++ [hd]) = Some n →
  new ∉ hd :: ys ++ zs → is_Some (h !! new) →
  ∃ h', list_add_tail new n h = Ok (tt, h') ∧ is_list h' hd (ys ++ new :: zs) ∧
    (∀ x, x ∉ hd :: ys ++ zs → x ≠ new → h' !! x = h !! x) ∧
    (∀ x, is_Some (h' !! x) ↔ is_Some (h !! x)).
Proof.
  intros Hl Hn Hnew Halloc.
  assert (∃ p, last (hd :: ys) = Some p) as [p Hp].
  { apply not_eq_None_Some. by rewrite last_None. }
  destruct (is_list_link _ _ _ _ _ _ Hl Hp Hn) as [_ (c & Hc & <-)%prv_Some].
  destruct (__list_add_spec _ _ _ _ _ _ new Hl Hp Hn) as (h' & E & R); [done..|].
  exists h'. split; [|done]. unfold list_add_tail.
  rewrite (bind_Ok _ _ _ _ _ (load_ok _ _ _ Hc)). exact E.
Qed.

Lemma list_del_spec h hd ys zs y :
  is_list h hd (ys ++ y :: zs) →
  ∃ h', list_del y h = Ok (tt, h') ∧ is_list h' hd (ys ++ zs) ∧ is_list h' y [] ∧
    (∀ x, x ∉ hd :: ys ++ y :: zs → h' !! x = h !! x) ∧
    (∀ x, is_Some (h' !! x) ↔ is_Some (h !! x)).
Proof.
  intros Hl.
  assert (∃ p, last (hd :: ys) = Some p) as [p Hlast].
  { apply not_eq_None_Some. by rewrite last_None. }
  assert (∃ n, head (zs ++ [hd]) = Some n) as [n Hhead] by (destruct zs; eauto).
  destruct (ring_view _ _ _ _ _ Hlast Hhead) as (l1 & l2 & E1 & E2).
  destruct Hl as [ND Hp].
  assert (NDy : y ∉ hd :: ys ++ zs ∧ NoDup (hd :: ys ++ zs)).
  { apply NoDup_cons. by rewrite Permutation_swap, Permutation_middle. }
  destruct NDy as [Hy ND'].
  destruct (ring_NoDup _ _ ND') as [ND1 ND2].
  assert (Hy' : y ∉ hd :: (ys ++ zs) ++ [hd]) by (by rewrite ring_elem).
  assert (Hsub : ∀ x, x ∉ hd :: ys ++ y :: zs → x ∉ l1 ++ p :: n :: l2 ∧ x ≠ y).
  { intros x Hx. rewrite <- (ring_eq _ _ _ _ _ _ _ E1 E2), ring_elem. set_solver. }
  rewrite (ring_eq _ _ _ _ _ _ _ E1 E2) in ND1, ND2, Hy'.
  replace (hd :: (ys ++ y :: zs) ++ [hd]) with (l1 ++ p :: y :: n :: l2) in Hp.
  2:{ rewrite <- (assoc_L app), app_comm_cons, E1. simpl. rewrite E2.
      by rewrite <- (assoc_L app). }
  assert (Hl : link h p y ∧ link h y n).
  { apply path_app in Hp as (_ & ? & Hp). by destruct Hp. }
  destruct Hl as [[A1 A2] [B1 B2]].
  destruct (nxt_Some _ _ _ B1) as (c & Hc & Ec). destruct (prv_Some _ _ _ A2) as (c' & Hc' & Ec').
  simplify_eq.
  destruct (__list_del_links h (prev c) (next c)) as (h1 & X1 & N1 & P1 & AL1 & F1);
    [by eapply nxt_alloc|by eapply prv_alloc|].
  destruct (set_next_ok h1 y y) as (h2 & X2 & N2 & P2 & AL2 & F2); [rewrite AL1; eauto|].
  destruct (set_prev_ok h2 y y) as (h3 & X3 & P3 & N3 & AL3 & F3); [rewrite AL2, AL1; eauto|].
  exists h3. split_and!.
  - unfold list_del. rewrite (bind_Ok _ _ _ _ _ (load_ok _ _ _ Hc)).
    by do 2 run_step.
  - split; [done|]. rewrite (ring_eq _ _ _ _ _ _ _ E1 E2).
    eapply path_delete; [exact Hp|done|done|done| |].
    + intros x Hx. rewrite N3, N2, decide_False by done. apply N1.
    + intros x Hx. rewrite P3, decide_False by done. rewrite P2. apply P1.
  - split; [apply NoDup_singleton|]. simpl. split; [|done]. split.
    + by rewrite N3, N2, decide_True.
    + by rewrite P3, decide_True.
  - intros x [Hx1 Hx2]%Hsub. rewrite F3, F2 by done. apply F1; set_solver.
  - intros x. by rewrite AL3, AL2, AL1.
Qed.

Lemma INIT_LIST_HEAD_spec h p :
  is_Some (h !! p) →
  ∃ h', INIT_LIST_HEAD p h = Ok (tt, h') ∧ is_list h' p [] ∧
    (∀ x, x ≠ p → h' !! x = h !! x) ∧ (∀ x, is_Some (h' !! x) ↔ is_Some (h !! x)).
Proof.
  intros Hp.
  destruct (set_next_ok h p p Hp) as (h1 & E1 & N1 & P1 & A1 & F1).
  destruct (set_prev_ok h1 p p) as (h2 & E2 & P2 & N2 & A2 & F2); [by rewrite A1|].
  exists h2. split_and!.
  - unfold INIT_LIST_HEAD. by run_step.
  - split; [apply NoDup_singleton|]. simpl. split; [|done].
    split; [rewrite N2, N1|rewrite P2]; by rewrite decide_True.
  - intros x Hx. by rewrite F2, F1.
  - intros x. by rewrite A2, A1.
Qed.

Lemma list_empty_spec h hd xs :
  is_list h hd xs → list_empty hd h = Ok (bool_decide (xs = []), h).
Proof.
  intros Hl. assert (∃ n, head (xs ++ [hd]) = Some n) as [n Hn] by (destruct xs; eauto).
  destruct (is_list_link h hd [] xs hd n Hl eq_refl Hn) as [(c & Hc & <-)%nxt_Some _].
  unfold list_empty. rewrite (bind_Ok _ _ _ _ _ (load_ok _ _ _ Hc)).
  unfold mret, M_ret. do 3 f_equal.
  destruct xs as [|x xs]; simplify_eq/=; [by rewrite bool_decide_true|].
  apply bool_decide_eq_false_2. destruct Hl as [ND _].
  apply NoDup_cons in ND as [ND _]. set_solver.
Qed.

Lemma is_list_frame h h' hd xs :
  is_list h hd xs → (∀ x, x ∈ hd :: xs → h' !! x = h !! x) → is_list h' hd xs.
Proof.
  intros [ND Hp] Hf. split; [done|].
  eapply path_ext; [| |exact Hp]; intros x Hx; unfold nxt, prv; rewrite Hf; [done| |done|].
  - apply elem_of_removelast in Hx. by apply ring_elem.
  - apply elem_of_tail in Hx. by apply ring_elem.
Qed.

(** ** Traversal *)

Lemma walk_next_spec h xs hd a fuel :
  path h (a :: xs ++ [hd]) → hd ∉ xs → (length xs < fuel)%nat →
  ∃ n, nxt h a = Some n ∧ walk next fuel n hd h = Ok (xs, h).
Proof.
  revert a fuel. induction xs as [|x xs IH]; intros a fuel [[Hn _] Hp] Hx Hf;
    (destruct fuel as [|fuel]; [lia|]).
  - exists hd. split; [done|]. simpl. by rewrite bool_decide_true.
  - apply not_elem_of_cons in Hx as [Hx Hxs].
    exists x. split; [done|]. simpl. rewrite bool_decide_false by done.
    destruct (IH x fuel) as (n & (c & Hc & <-)%nxt_Some & Hw); [done|done|simpl in *; lia|].
    rewrite (bind_Ok _ _ _ _ _ (load_ok _ _ _ Hc)).
    rewrite (bind_Ok _ _ _ _ _ Hw). done.
Qed.

Lemma walk_prev_spec h xs hd b fuel :
  path h (hd :: xs ++ [b]) → hd ∉ xs → (length xs < fuel)%nat →
  ∃ n, prv h b = Some n ∧ walk prev fuel n hd h = Ok (rev xs, h).
Proof.
  revert b fuel. induction xs as [|x xs IH] using rev_ind; intros b fuel Hp Hx Hf;
    (destruct fuel as [|fuel]; [lia|]).
  - destruct Hp as [[_ ?] _]. exists hd. split; [done|]. simpl. by rewrite bool_decide_true.
  - apply not_elem_of_app in Hx as [Hxs Hx]. rewrite length_app in Hf. simpl in Hf.
    rewrite <- (assoc_L app), app_comm_cons in Hp. simpl in Hp.
    apply (path_app h (hd :: xs) x b []) in Hp as (Hp & [_ Hb] & _).
    exists x. split; [done|]. simpl. rewrite bool_decide_false by set_solver.
    destruct (IH x fuel) as (n & (c & Hc & <-)%prv_Some & Hw); [done|done|lia|].
    rewrite (bind_Ok _ _ _ _ _ (load_ok _ _ _ Hc)).
    rewrite (bind_Ok _ _ _ _ _ Hw). by rewrite rev_unit.
Qed.

Lemma list_for_each_entry_spec h hd xs fuel :
  is_list h hd xs → (length xs < fuel)%nat →
  list_for_each_entry fuel hd h = Ok (xs, h).
Proof.
  intros [ND Hp] Hf. apply NoDup_cons in ND as [Hhd _].
  destruct (walk_next_spec h xs hd hd fuel Hp Hhd Hf) as (n & (c & Hc & <-)%nxt_Some & Hw).
  unfold list_for_each_entry. by rewrite (bind_Ok _ _ _ _ _ (load_ok _ _ _ Hc)).
Qed.

Lemma list_for_each_entry_reverse_spec h hd xs fuel :
  is_list h hd xs → (length xs < fuel)%nat →
  list_for_each_entry_reverse fuel hd h = Ok (rev xs, h).
Proof.
  intros [ND Hp] Hf. apply NoDup_cons in ND as [Hhd _].
  destruct (walk_prev_spec h xs hd hd fuel Hp Hhd Hf) as (n & (c & Hc & <-)%prv_Some & Hw).
  unfold list_for_each_entry_reverse. by rewrite (bind_Ok _ _ _ _ _ (load_ok _ _ _ Hc)).
Qed.

(** ** Families of lists: the interface to the other components

    The abstract state is a finite map from list heads to their members; a
    node that is on no list is the head of an empty list of its own, the way
    [INIT_LIST_HEAD] and [list_del] leave it. *)

Class LinkedLists (H : Type) := {
  ll_rep : H → gmap Z (list Z) → Prop;
  ll_add : Z → Z → M H unit;
  ll_add_tail : Z → Z → M H unit;
  ll_del : Z → M H unit;
  ll_empty : Z → M H bool;
  ll_first : Z → M H Z;
  ll_add_law h L new hd xs :
    ll_rep h L → L !! new = Some [] → L !! hd = Some xs → new ≠ hd →
    ∃ h', ll_add new hd h = Ok (tt, h') ∧ ll_rep h' (<[hd := new :: xs]> (delete new L));
  ll_add_tail_law h L new hd xs :
    ll_rep h L → L !! new = Some [] → L !! hd = Some xs → new ≠ hd →
    ∃ h', ll_add_tail new hd h = Ok (tt, h') ∧
          ll_rep h' (<[hd := xs ++ [new]]> (delete new L));
  ll_del_law h L hd ys y zs :
    ll_rep h L → L !! hd = Some (ys ++ y :: zs) →
    ∃ h', ll_del y h = Ok (tt, h') ∧ ll_rep h' (<[y := []]> (<[hd := ys ++ zs]> L));
  ll_empty_law h L hd xs :
    ll_rep h L → L !! hd = Some xs → ll_empty hd h = Ok (bool_decide (xs = []), h);
  ll_first_law h L hd x xs :
    ll_rep h L → L !! hd = Some (x :: xs) → ll_first hd h = Ok (x, h);
  ll_disjoint_law h L hd xs hd' xs' x :
    ll_rep h L → L !! hd = Some xs → L !! hd' = Some xs' → x ∈ xs → x ∈ hd' :: xs' → hd = hd';
  ll_NoDup_law h L hd xs : ll_rep h L → L !! hd = Some xs → NoDup (hd :: xs);
}.

(** [list_entry(head->next, ...)]. *)
Definition list_first (head : Z) : M lheap Z := c ← load head; mret (next c).

Definition lists_rep (h : lheap) (L : gmap Z (list Z)) : Prop :=
  (∀ hd xs, L !! hd = Some xs → is_list h hd xs) ∧
  (∀ hd xs hd' xs' x, L !! hd = Some xs → L !! hd' = Some xs' →
     x ∈ hd :: xs → x ∈ hd' :: xs' → hd = hd').

Lemma is_list_alloc h hd xs : is_list h hd xs → is_Some (h !! hd).
Proof. intros [_ Hp]. by destruct xs; destruct Hp as [[?%nxt_alloc _] _]. Qed.

(** Moving the free node [new] into the list of [hd], whatever the position. *)
Lemma lists_rep_add h h' L new hd xs xs' :
  lists_rep h L → L !! new = Some [] → L !! hd = Some xs → new ≠ hd →
  xs' ≡ₚ new :: xs → is_list h' hd xs' →
  (∀ x, x ∉ hd :: xs → x ≠ new → h' !! x = h !! x) →
  lists_rep h' (<[hd := xs']> (delete new L)).
Proof.
  intros [R1 R2] Hnew Hhd Hne Hperm Hl HF. split.
  - intros hd1 xs1 H. rewrite lookup_insert in H. case_decide; simplify_eq; [done|].
    rewrite lookup_delete in H. case_decide; [done|].
    apply (is_list_frame h); [by apply R1|]. intros x Hx. apply HF.
    + intros Hin. by pose proof (R2 _ _ _ _ _ H Hhd Hx Hin).
    + intros ->. by pose proof (R2 _ _ _ _ _ H Hnew Hx (list_elem_of_here _ _)).
  - assert (D : ∀ hd1 xs1 x, hd1 ≠ hd → delete new L !! hd1 = Some xs1 →
      x ∈ hd1 :: xs1 → x ∈ hd :: xs' → False).
    { intros hd1 xs1 x N H Hx Hin. apply lookup_delete_Some in H as [N' H].
      rewrite Hperm in Hin.
      assert (x = new ∨ x ∈ hd :: xs) as [->|Hin'] by set_solver.
      - by pose proof (R2 _ _ _ _ _ H Hnew Hx (list_elem_of_here _ _)).
      - by pose proof (R2 _ _ _ _ _ H Hhd Hx Hin'). }
    intros hd1 xs1 hd2 xs2 x H1 H2 Hx1 Hx2.
    rewrite lookup_insert in H1. rewrite lookup_insert in H2.
    destruct (decide (hd = hd1)) as [<-|N1], (decide (hd = hd2)) as [<-|N2].
    + done.
    + exfalso. injection H1 as <-. by apply (D hd2 xs2 x (not_eq_sym N2)).
    + exfalso. injection H2 as <-. by apply (D hd1 xs1 x (not_eq_sym N1)).
    + apply lookup_delete_Some in H1 as [_ H1]. apply lookup_delete_Some in H2 as [_ H2].
      by eapply (R2 hd1 xs1).
Qed.

Lemma lists_rep_fresh h L new hd xs :
  lists_rep h L → L !! new = Some [] → L !! hd = Some xs → new ≠ hd →
  new ∉ hd :: xs ∧ is_Some (h !! new).
Proof.
  intros [R1 R2] Hnew Hhd Hne. split.
  - intros Hin. pose proof (R2 _ _ _ _ _ Hnew Hhd (list_elem_of_here _ _) Hin). done.
  - by eapply is_list_alloc, R1.
Qed.

#[global] Program Instance lheap_lists : LinkedLists lheap := {|
  ll_rep := lists_rep;
  ll_add := list_add;
  ll_add_tail := list_add_tail;
  ll_del := list_del;
  ll_empty := list_empty;
  ll_first := list_first;
|}.
Next Obligation.
  intros h L new hd xs R Hnew Hhd Hne.
  destruct (lists_rep_fresh _ _ _ _ _ R Hnew Hhd Hne) as [F1 F2].
  destruct (list_add_spec h hd [] xs hd new) as (h' & E & Hl & HF & _);
    [by apply R|done..|].
  exists h'. split; [done|]. by eapply lists_rep_add.
Qed.
Next Obligation.
  intros h L new hd xs R Hnew Hhd Hne.
  destruct (lists_rep_fresh _ _ _ _ _ R Hnew Hhd Hne) as [F1 F2].
  destruct (list_add_tail_spec h hd xs [] hd new) as (h' & E & Hl & HF & _);
    [rewrite app_nil_r; by apply R|done|by rewrite app_nil_r|done|].
  rewrite app_nil_r in HF. exists h'. split; [done|].
  eapply lists_rep_add; [done..| |done|done]. by rewrite <- Permutation_cons_append.
Qed.
Next Obligation.
  intros h L hd ys y zs [R1 R2] Hhd.
  destruct (list_del_spec h hd ys zs y) as (h' & E & Hl1 & Hl2 & HF & _); [by apply R1|].
  assert (Hy : y ≠ hd).
  { destruct (R1 _ _ Hhd) as [ND _]. apply NoDup_cons in ND as [ND _]. set_solver. }
  assert (D : ∀ hd1 xs1 x, hd1 ≠ hd → L !! hd1 = Some xs1 → x ∈ hd1 :: xs1 →
    x ∉ hd :: ys ++ y :: zs).
  { intros hd1 xs1 x N H Hx Hin. by pose proof (R2 _ _ _ _ _ H Hhd Hx Hin). }
  assert (NDy : y ∉ hd :: ys ++ zs).
  { destruct (R1 _ _ Hhd) as [ND _].
    rewrite <- Permutation_middle, Permutation_swap in ND. by apply NoDup_cons in ND as []. }
  exists h'. split; [done|]. split.
  - intros hd1 xs1 H. rewrite lookup_insert in H. case_decide; simplify_eq; [done|].
    rewrite lookup_insert in H. case_decide; simplify_eq; [done|].
    apply (is_list_frame h); [by apply R1|]. intros x Hx. apply HF.
    eapply D; [|exact H|exact Hx]. congruence.
  - intros hd1 xs1 hd2 xs2 x H1 H2 Hx1 Hx2.
    assert (Hy1 : y ∈ hd :: ys ++ y :: zs) by set_solver.
    assert (Hsub : ∀ z, z ∈ hd :: ys ++ zs → z ∈ hd :: ys ++ y :: zs) by set_solver.
    rewrite !lookup_insert in H1, H2.
    destruct (decide (y = hd1)) as [<-|Y1], (decide (y = hd2)) as [<-|Y2];
      [done|destruct (decide (hd = hd2)) as [<-|N2]|destruct (decide (hd = hd1)) as [<-|N1]|
       destruct (decide (hd = hd1)) as [<-|N1], (decide (hd = hd2)) as [<-|N2]].
    all: try (injection H1 as <-); try (injection H2 as <-);
      try apply list_elem_of_singleton in Hx1 as ->;
      try apply list_elem_of_singleton in Hx2 as ->; try done.
    all: try (by eapply (R2 hd1 xs1)).
    all: exfalso; first
      [ by eapply (D hd2 xs2 _ (not_eq_sym N2)); eauto
      | by eapply (D hd1 xs1 _ (not_eq_sym N1)); eauto ].
Qed.
Next Obligation. intros h L hd xs [R1 _] H. by apply list_empty_spec, R1. Qed.
Next Obligation.
  intros h L hd x xs [R1 _] H.
  destruct (is_list_link h hd [] (x :: xs) hd x (R1 _ _ H) eq_refl eq_refl)
    as [(c & Hc & <-)%nxt_Some _].
  unfold list_first. by rewrite (bind_Ok _ _ _ _ _ (load_ok _ _ _ Hc)).
Qed.
Next Obligation.
  intros h L hd xs hd' xs' x [_ R2] H H' Hx Hx'. eapply R2; [done..| |done]. by right.
Qed.
Next Obligation. intros h L hd xs [R1 _] H. by destruct (R1 _ _ H). Qed.

(** ** The properties *)

(** A ring with head 10 and the members 20 and 30, and a node 40 on its own. *)
Definition demo_ring : lheap :=
  list_to_map [(10, mk_list_head 20 30); (20, mk_list_head 30 10); (30, mk_list_head 10 20); (40, mk_list_head 40 40)].

Lemma demo_ring_ok : is_list demo_ring 10 [20; 30].
Proof. split; [by apply (bool_decide_unpack _); vm_compute|by vm_compute]. Qed.

(** On a well-formed circular list, [list_add] of an unlinked node after the
    head or any member and [list_add_tail] before the head or any member return,
    and the list then has the node at exactly that place with all links forward and
    backward consistent; cells outside the list are untouched. *)
Theorem list_insertion_correct (h : lheap) (hd : Z) (ys zs : list Z) (new : Z) :
  is_list h hd (ys ++ zs) → new ∉ hd :: ys ++ zs → is_Some (h !! new) →
  (∀ p, last (hd :: ys) = Some p →
     ∃ h', list_add new p h = Ok (tt, h') ∧ is_list h' hd (ys ++ new :: zs) ∧
       ∀ x, x ∉ hd :: ys ++ zs → x ≠ new → h' !! x = h !! x) ∧
  (∀ n, head (zs ++ [hd]) = Some n →
     ∃ h', list_add_tail new n h = Ok (tt, h') ∧ is_list h' hd (ys ++ new :: zs) ∧
       ∀ x, x ∉ hd :: ys ++ zs → x ≠ new → h' !! x = h !! x).
Proof.
  intros Hl Hn Ha. split.
  - intros p Hp. destruct (list_add_spec h hd ys zs p new Hl Hp Hn Ha) as (h' & ? & ? & ? & _). eauto.
  - intros n Hn'. destruct (list_add_tail_spec h hd ys zs n new Hl Hn' Hn Ha) as (h' & ? & ? & ? & _).
    eauto.
Qed.

Lemma list_insertion_correct_witness :
  ∃ h', list_add 40 20 demo_ring = Ok (tt, h') ∧ is_list h' 10 [20; 40; 30].
Proof.
  destruct (list_insertion_correct demo_ring 10 [20] [30] 40 demo_ring_ok) as [Hadd _].
  - by apply (bool_decide_unpack _); vm_compute.
  - by eexists.
  - destruct (Hadd 20 eq_refl) as (h' & Hrun & Hl & _). exists h'. split; [exact Hrun|exact Hl].
Defined.

(** [list_del] takes any member off its list, leaves it as an empty list of
    its own and changes no cell outside the list; and [list_for_each_entry] and its
    reverse visit exactly the members, in order and in reverse order, with any fuel
    above their number. *)
Theorem list_deletion_and_traversal_correct (h : lheap) (hd y : Z) (ys zs : list Z) (fuel : nat) :
  is_list h hd (ys ++ y :: zs) → (length (ys ++ y :: zs) < fuel)%nat →
  list_for_each_entry fuel hd h = Ok (ys ++ y :: zs, h) ∧
  list_for_each_entry_reverse fuel hd h = Ok (rev (ys ++ y :: zs), h) ∧
  ∃ h', list_del y h = Ok (tt, h') ∧ is_list h' hd (ys ++ zs) ∧ is_list h' y [] ∧
    (∀ x, x ∉ hd :: ys ++ y :: zs → h' !! x = h !! x) ∧
    list_for_each_entry fuel hd h' = Ok (ys ++ zs, h').
Proof.
  intros Hl Hf. split; [by apply list_for_each_entry_spec|].
  split; [by apply list_for_each_entry_reverse_spec|].
  destruct (list_del_spec h hd ys zs y Hl) as (h' & ? & ? & ? & ? & _). exists h'.
  split_and!; [done..|]. apply list_for_each_entry_spec; [done|].
  rewrite length_app in *. simpl in Hf. lia.
Qed.

Lemma list_deletion_and_traversal_correct_witness :
  ∃ h', list_del 20 demo_ring = Ok (tt, h') ∧ is_list h' 10 [30].
Proof.
  destruct (list_deletion_and_traversal_correct demo_ring 10 20 [] [30] 5 demo_ring_ok)
    as (_ & _ & h' & Hrun & Hl & _); [simpl; lia|].
  exists h'. split; [exact Hrun|exact Hl].
Defined.
