(* ===== verification/Pidmap.v ===== *)
(** * The process-id allocator: kernel/pidmap.c, include/fuckOS/pidmap.h

    The state is [last_pid] and [struct pidmap]: the count of free ids and the
    4096-byte bitmap, which the code only accesses as 1024 32-bit words. *)

From S2P Require Import Prelude.

Local Open Scope Z_scope.

Definition PID_MAX_DEFAULT : Z := 0x8000.
Definition BITS_PER_PAGE : Z := 4096 * 8.
Definition BITS_PER_PAGE_MASK : Z := BITS_PER_PAGE - 1.

Record pidmap := mk_pidmap { last_pid : Z; nr_free : Z; page : list Z }.

(** The state the program starts in. *)
Definition pidmap_init : pidmap := mk_pidmap (-1) PID_MAX_DEFAULT (replicate 1024 0).

Definition bit_mask (offset : Z) : Z := Z.shiftl 1 (Z.land offset 31).
Definition word_of (offset : Z) : nat := Z.to_nat (Z.shiftr offset 5).

Definition test_and_set_bit (offset : Z) (addr : list Z) : outcome (bool * list Z) :=
  match addr !! word_of offset with
  | Some old =>
      Ok (bool_decide (Z.land old (bit_mask offset) ≠ 0),
          <[word_of offset := Z.lor old (bit_mask offset)]> addr)
  | None => Stop Faulted
  end.

Definition clear_bit (offset : Z) (addr : list Z) : outcome (list Z) :=
  match addr !! word_of offset with
  | Some old =>
      Ok (<[word_of offset := Z.land old (Z.lnot (bit_mask offset))]> addr)
  | None => Stop Faulted
  end.

(** The loop runs at most [size - offset] times. *)
Fixpoint find_next_zero_bit_loop (n : nat) (addr : list Z) (size offset : Z) : outcome Z :=
  match n with
  | O => Ok offset
  | S n =>
      if bool_decide (offset < size) then
        match addr !! word_of offset with
        | Some p =>
            if bool_decide (Z.land (Z.lnot p) (bit_mask offset) ≠ 0) then Ok offset
            else find_next_zero_bit_loop n addr size (offset + 1)
        | None => Stop Faulted
        end
      else Ok offset
  end.

Definition find_next_zero_bit (addr : list Z) (size offset : Z) : outcome Z :=
  find_next_zero_bit_loop (Z.to_nat (size - offset)) addr size offset.

Definition alloc_pidmap (st : pidmap) : outcome (Z * pidmap) :=
  let pid := last_pid st + 1 in
  let offset := Z.land pid BITS_PER_PAGE_MASK in
  if bool_decide (nr_free st = 0) then Ok (-1, st)
  else
    offset ← find_next_zero_bit (page st) BITS_PER_PAGE offset;
    if bool_decide (offset = BITS_PER_PAGE) then Ok (-1, st)
    else
      r ← test_and_set_bit offset (page st);
      let '(was_set, page') := r in
      if (was_set : bool) then Ok (-1, mk_pidmap (last_pid st) (nr_free st) page')
      else Ok (offset, mk_pidmap offset (u32 (nr_free st - 1)) page').

Definition free_pidmap (pid : Z) (st : pidmap) : outcome pidmap :=
  let offset := Z.land pid BITS_PER_PAGE_MASK in
  page' ← clear_bit offset (page st);
  Ok (mk_pidmap (last_pid st) (u32 (nr_free st + 1)) page').

(** ** The abstract view: the set of ids in use *)

Definition used (addr : list Z) (i : Z) : bool :=
  Z.testbit (default 0 (addr !! Z.to_nat (i / 32))) (i mod 32).

Definition wf_page (addr : list Z) : Prop :=
  length addr = 1024%nat ∧ Forall (λ w, 0 ≤ w < 2 ^ 32) addr.

Record pid_inv (st : pidmap) : Prop := {
  pi_page : wf_page (page st);
  pi_last : -1 ≤ last_pid st < BITS_PER_PAGE;
  pi_free : nr_free st = BITS_PER_PAGE - countb (used (page st)) (seqZ 0 BITS_PER_PAGE);
}.

Lemma bit_index i : 0 ≤ i → bit_mask i = Z.shiftl 1 (i mod 32) ∧ word_of i = Z.to_nat (i / 32).
Proof.
  intros Hi. unfold bit_mask, word_of. split.
  - change 31 with (Z.ones 5). by rewrite Z.land_ones.
  - by rewrite Z.shiftr_div_pow2.
Qed.

Lemma word_lookup addr i :
  wf_page addr → 0 ≤ i < BITS_PER_PAGE →
  ∃ w, addr !! Z.to_nat (i / 32) = Some w ∧ 0 ≤ w < 2 ^ 32 ∧ used addr i = Z.testbit w (i mod 32).
Proof.
  intros [Hl Hw] Hi. unfold BITS_PER_PAGE in Hi.
  destruct (lookup_lt_is_Some_2 addr (Z.to_nat (i / 32))) as [w E].
  { rewrite Hl. apply Nat2Z.inj_lt. rewrite Z2Nat.id by (apply Z.div_pos; lia).
    apply Z.div_lt_upper_bound; lia. }
  pose proof (Forall_lookup_1 _ _ _ _ Hw E) as Hr. cbv beta in Hr. exists w. split_and!; [done|lia|lia|].
  unfold used. by rewrite E.
Qed.

(** The bit of [i] after the word holding [j] is replaced. *)
Lemma used_insert addr i j w :
  wf_page addr → 0 ≤ i < BITS_PER_PAGE → 0 ≤ j < BITS_PER_PAGE →
  used (<[Z.to_nat (j / 32) := w]> addr) i =
    if decide (i / 32 = j / 32) then Z.testbit w (i mod 32) else used addr i.
Proof.
  intros Hwf Hi Hj. unfold used. case_decide as E.
  - rewrite E, list_lookup_insert_eq; [done|].
    destruct (word_lookup addr j Hwf Hj) as (w' & H & _). by eapply lookup_lt_Some.
  - rewrite list_lookup_insert_ne; [done|]. intros H. apply E.
    apply Z2Nat.inj in H; [done|apply Z.div_pos; lia..].
Qed.

Lemma same_word i j : i / 32 = j / 32 → i mod 32 = j mod 32 → i = j.
Proof. intros. rewrite (Z_div_mod_eq_full i 32), (Z_div_mod_eq_full j 32). congruence. Qed.

Lemma test_and_set_bit_spec addr j :
  wf_page addr → 0 ≤ j < BITS_PER_PAGE →
  ∃ addr', test_and_set_bit j addr = Ok (used addr j, addr') ∧ wf_page addr' ∧
    ∀ i, 0 ≤ i < BITS_PER_PAGE → used addr' i = (Z.eqb j i || used addr i).
Proof.
  intros Hwf Hj. destruct (bit_index j ltac:(lia)) as [Em Ew].
  destruct (word_lookup addr j Hwf Hj) as (w & Hw & Hr & Hu).
  pose proof (Z.mod_pos_bound j 32 ltac:(lia)) as Hm.
  unfold test_and_set_bit. rewrite Ew, Em, Hw. eexists; split; [|split].
  - by rewrite land_bit_nonzero, Hu by lia.
  - destruct Hwf as [Hl Hf]. split; [by rewrite length_insert|].
    apply Forall_insert; [done|]. apply lor_u32; [done|].
    rewrite Z.shiftl_1_l. pose proof (pow2_pos (j mod 32)).
    pose proof (pow2_le (j mod 32) 31). lia.
  - intros i Hi. rewrite used_insert by done. case_decide as E.
    + rewrite lor_bit_testbit by (try apply Z.mod_pos_bound; lia).
      destruct (Z.eqb_spec j i) as [->|Hne]; [by rewrite Z.eqb_refl|].
      destruct (Z.eqb_spec (j mod 32) (i mod 32)) as [E'|_].
      { exfalso. apply Hne. by apply same_word. }
      unfold used. by rewrite E, Hw.
    + destruct (Z.eqb_spec j i) as [->|Hne]; done.
Qed.

Lemma clear_bit_spec addr j :
  wf_page addr → 0 ≤ j < BITS_PER_PAGE →
  ∃ addr', clear_bit j addr = Ok addr' ∧ wf_page addr' ∧
    ∀ i, 0 ≤ i < BITS_PER_PAGE → used addr' i = (negb (Z.eqb j i) && used addr i).
Proof.
  intros Hwf Hj. destruct (bit_index j ltac:(lia)) as [Em Ew].
  destruct (word_lookup addr j Hwf Hj) as (w & Hw & Hr & Hu).
  pose proof (Z.mod_pos_bound j 32 ltac:(lia)) as Hm.
  unfold clear_bit. rewrite Ew, Em, Hw. eexists; split; [done|split].
  - destruct Hwf as [Hl Hf]. split; [by rewrite length_insert|].
    apply Forall_insert; [done|]. by apply land_u32.
  - intros i Hi. rewrite used_insert by done. case_decide as E.
    + rewrite ldiff_bit_testbit by (try apply Z.mod_pos_bound; lia).
      destruct (Z.eqb_spec j i) as [->|Hne]; [by rewrite Z.eqb_refl|].
      destruct (Z.eqb_spec (j mod 32) (i mod 32)) as [E'|_].
      { exfalso. apply Hne. by apply same_word. }
      unfold used. by rewrite E, Hw.
    + destruct (Z.eqb_spec j i) as [->|Hne]; done.
Qed.

Lemma find_next_zero_bit_loop_spec n addr offset :
  wf_page addr → 0 ≤ offset → offset + Z.of_nat n = BITS_PER_PAGE →
  ∃ r, find_next_zero_bit_loop n addr BITS_PER_PAGE offset = Ok r ∧
    offset ≤ r ≤ BITS_PER_PAGE ∧ (∀ i, offset ≤ i < r → used addr i = true) ∧
    (r < BITS_PER_PAGE → used addr r = false).
Proof.
  revert offset. induction n as [|n IH]; intros offset Hwf Ho Hn; simpl.
  - exists offset. split_and!; [done|lia|lia|lia|lia].
  - rewrite bool_decide_true by lia.
    destruct (bit_index offset Ho) as [Em Ew].
    destruct (word_lookup addr offset Hwf) as (w & Hw & Hr & Hu); [lia|].
    pose proof (Z.mod_pos_bound offset 32 ltac:(lia)) as Hm.
    rewrite Ew, Em, Hw, land_bit_nonzero, Z.lnot_spec, <- Hu by lia.
    destruct (used addr offset) eqn:E; simpl.
    + destruct (IH (offset + 1)) as (r & Hr1 & Hr2 & Hr3 & Hr4); [done|lia|lia|].
      exists r. split_and!; [done|lia|lia| |done]. intros i Hi.
      destruct (Z.eq_dec i offset) as [->|]; [done|]. apply Hr3. lia.
    + exists offset. split_and!; [done|lia|lia|lia|done].
Qed.

Lemma find_next_zero_bit_spec addr offset :
  wf_page addr → 0 ≤ offset ≤ BITS_PER_PAGE →
  ∃ r, find_next_zero_bit addr BITS_PER_PAGE offset = Ok r ∧
    offset ≤ r ≤ BITS_PER_PAGE ∧ (∀ i, offset ≤ i < r → used addr i = true) ∧
    (r < BITS_PER_PAGE → used addr r = false).
Proof. intros Hwf Ho. apply find_next_zero_bit_loop_spec; [done|lia|lia]. Qed.

Lemma mask_mod i : Z.land i BITS_PER_PAGE_MASK = i mod BITS_PER_PAGE.
Proof. change BITS_PER_PAGE_MASK with (Z.ones 15). by rewrite Z.land_ones. Qed.

Lemma seqZ_range i : 0 ≤ i < BITS_PER_PAGE → i ∈ seqZ 0 BITS_PER_PAGE.
Proof. intros. apply elem_of_seqZ. lia. Qed.

Lemma nr_free_range st : pid_inv st → 0 ≤ nr_free st ≤ BITS_PER_PAGE.
Proof.
  intros [_ _ ->]. pose proof (countb_bounds (used (page st)) (seqZ 0 BITS_PER_PAGE)) as H.
  rewrite length_seqZ in H. unfold BITS_PER_PAGE in *. lia.
Qed.

Lemma used_init i : used (page pidmap_init) i = false.
Proof.
  unfold used, pidmap_init, page.
  destruct (replicate 1024 0 !! Z.to_nat (i / 32)) as [w|] eqn:E.
  - apply lookup_replicate in E as [-> _]. apply Z.bits_0.
  - apply Z.bits_0.
Qed.

Lemma pid_inv_init : pid_inv pidmap_init.
Proof.
  split.
  - split; [by vm_compute|]. apply Forall_replicate. lia.
  - vm_compute. split; congruence.
  - rewrite (countb_ext _ (λ _, false)) by (intros; apply used_init).
    by rewrite countb_false.
Qed.

(** [alloc_pidmap] on a well-formed map, both outcomes. *)
Lemma alloc_pidmap_ok st :
  pid_inv st →
  ∃ r st', alloc_pidmap st = Ok (r, st') ∧ pid_inv st' ∧
    ((r = -1 ∧ st' = st ∧
      (nr_free st = 0 ∨
       ∀ i, (last_pid st + 1) mod BITS_PER_PAGE ≤ i < BITS_PER_PAGE → used (page st) i = true)) ∨
     (0 ≤ r < BITS_PER_PAGE ∧ used (page st) r = false ∧ last_pid st' = r ∧
      nr_free st' = nr_free st - 1 ∧
      ∀ i, 0 ≤ i < BITS_PER_PAGE → used (page st') i = (Z.eqb r i || used (page st) i))).
Proof.
  intros Hinv. pose proof Hinv as [Hwf Hlast Hfree]. unfold alloc_pidmap.
  case_bool_decide as E0; [exists (-1), st; eauto 8|].
  rewrite mask_mod.
  destruct (find_next_zero_bit_spec (page st) ((last_pid st + 1) mod BITS_PER_PAGE))
    as (r & Hr & Hr1 & Hr2 & Hr3); [done| |].
  { pose proof (Z.mod_pos_bound (last_pid st + 1) BITS_PER_PAGE ltac:(done)). lia. }
  rewrite Hr. simpl. case_bool_decide as E1.
  { exists (-1), st. subst r. eauto 8. }
  pose proof (Z.mod_pos_bound (last_pid st + 1) BITS_PER_PAGE ltac:(done)) as Hm.
  destruct (test_and_set_bit_spec (page st) r) as (a' & Ha & Hwf' & Hu); [done|lia|].
  rewrite Ha. simpl. rewrite Hr3 by lia.
  assert (Hc : countb (used a') (seqZ 0 BITS_PER_PAGE) =
               countb (used (page st)) (seqZ 0 BITS_PER_PAGE) + 1).
  { apply (countb_flip _ _ _ r).
    - apply NoDup_seqZ.
    - apply seqZ_range. lia.
    - intros x Hx Hne. apply elem_of_seqZ in Hx. rewrite Hu by lia.
      by destruct (Z.eqb_spec r x) as [->|_].
    - apply Hr3. lia.
    - rewrite Hu by lia. by rewrite Z.eqb_refl. }
  pose proof (nr_free_range st Hinv) as Hnf.
  assert (Hu32 : u32 (nr_free st - 1) = nr_free st - 1).
  { apply u32_small. unfold BITS_PER_PAGE in *. lia. }
  eexists _, _. split; [done|].
  split; [split; cbn [page nr_free last_pid]|right; cbn [page nr_free last_pid]]; [done|lia| |].
  - rewrite Hu32. lia.
  - split_and!; [lia|lia|apply Hr3; lia|done|done|done].
Qed.

(** [free_pidmap] of an id in use. *)
Lemma free_pidmap_ok st pid :
  pid_inv st → 0 ≤ pid < BITS_PER_PAGE → used (page st) pid = true →
  ∃ st', free_pidmap pid st = Ok st' ∧ pid_inv st' ∧ nr_free st' = nr_free st + 1 ∧
    last_pid st' = last_pid st ∧
    ∀ i, 0 ≤ i < BITS_PER_PAGE → used (page st') i = (negb (Z.eqb pid i) && used (page st) i).
Proof.
  intros Hinv Hpid Hused. pose proof Hinv as [Hwf Hlast Hfree].
  unfold free_pidmap. rewrite mask_mod, Z.mod_small by done.
  destruct (clear_bit_spec (page st) pid) as (a' & Ha & Hwf' & Hu); [done|done|].
  rewrite Ha. simpl.
  assert (Hc : countb (used (page st)) (seqZ 0 BITS_PER_PAGE) =
               countb (used a') (seqZ 0 BITS_PER_PAGE) + 1).
  { apply (countb_flip _ _ _ pid).
    - apply NoDup_seqZ.
    - by apply seqZ_range.
    - intros x Hx Hne. apply elem_of_seqZ in Hx. rewrite Hu by lia.
      by destruct (Z.eqb_spec pid x) as [->|_].
    - rewrite Hu by lia. by rewrite Z.eqb_refl.
    - done. }
  pose proof (countb_bounds (used a') (seqZ 0 BITS_PER_PAGE)) as Hb.
  rewrite length_seqZ in Hb.
  assert (Hu32 : u32 (nr_free st + 1) = nr_free st + 1).
  { apply u32_small. unfold BITS_PER_PAGE in *. lia. }
  eexists. split; [done|].
  split; [split; cbn [page nr_free last_pid]; [done|lia|lia]|]. cbn [page nr_free last_pid]. split_and!; [lia|done|done].
Qed.

(** ** Runs of the allocator

    [pid_run st live]: [st] is reached from the initial map by allocations and
    by frees of ids that are live, and [live] is the set of ids handed out and
    not yet freed. *)

Inductive pid_run : pidmap → gset Z → Prop :=
  | run_init : pid_run pidmap_init ∅
  | run_alloc st live r st' :
      pid_run st live → alloc_pidmap st = Ok (r, st') → 0 ≤ r → pid_run st' ({[r]} ∪ live)
  | run_alloc_fail st live r st' :
      pid_run st live → alloc_pidmap st = Ok (r, st') → r < 0 → pid_run st' live
  | run_free st live pid st' :
      pid_run st live → pid ∈ live → free_pidmap pid st = Ok st' → pid_run st' (live ∖ {[pid]}).

Lemma pid_run_inv st live :
  pid_run st live →
  pid_inv st ∧ (∀ i, i ∈ live → 0 ≤ i < BITS_PER_PAGE) ∧
  (∀ i, 0 ≤ i < BITS_PER_PAGE → used (page st) i = bool_decide (i ∈ live)).
Proof.
  induction 1 as [|st live r st' _ (Hi & Hl & Hu) E Hr
                  |st live r st' _ (Hi & Hl & Hu) E Hr|st live pid st' _ (Hi & Hl & Hu) Hp E].
  - split_and!; [apply pid_inv_init|set_solver|].
    intros i Hi. rewrite bool_decide_false by set_solver. apply used_init.
  - destruct (alloc_pidmap_ok st Hi) as (r' & s' & E' & Hi' & C). same_run.
    destruct C as [(-> & _)|(Hr' & Hf & _ & _ & Hu')]; [lia|].
    split_and!; [done|set_solver|]. intros i Hin. rewrite Hu', Hu by done.
    destruct (Z.eqb_spec r' i) as [->|Hne]; simpl; symmetry.
    + apply bool_decide_eq_true_2. set_solver.
    + apply bool_decide_ext. set_solver.
  - destruct (alloc_pidmap_ok st Hi) as (r' & s' & E' & Hi' & C). same_run.
    destruct C as [(-> & -> & _)|(? & _)]; [done|lia].
  - pose proof (Hl pid Hp) as Hr.
    destruct (free_pidmap_ok st pid Hi Hr) as (s' & E' & Hi' & _ & _ & Hu').
    { rewrite Hu by done. by apply bool_decide_eq_true_2. }
    same_run. split_and!; [done|set_solver|]. intros i Hin. rewrite Hu', Hu by done.
    destruct (Z.eqb_spec pid i) as [->|Hne]; simpl; symmetry.
    + apply bool_decide_eq_false_2. set_solver.
    + apply bool_decide_ext. set_solver.
Qed.

Lemma pid_run_size st live :
  pid_run st live → nr_free st = PID_MAX_DEFAULT - Z.of_nat (size live).
Proof.
  induction 1 as [|st live r st' Hrun IH E Hr|st live r st' Hrun IH E Hr
                  |st live pid st' Hrun IH Hp E]; [done|..].
  all: pose proof (pid_run_inv _ _ Hrun) as (Hi & Hl & Hu).
  - destruct (alloc_pidmap_ok st Hi) as (r' & s' & E' & _ & C). same_run.
    destruct C as [(-> & _)|(Hr' & Hf & _ & -> & _)]; [lia|].
    rewrite Hu in Hf by done. apply bool_decide_eq_false in Hf.
    rewrite size_union, size_singleton by set_solver. unfold PID_MAX_DEFAULT in *. lia.
  - destruct (alloc_pidmap_ok st Hi) as (r' & s' & E' & _ & C). same_run.
    destruct C as [(-> & -> & _)|(? & _)]; [done|lia].
  - destruct (free_pidmap_ok st pid Hi (Hl _ Hp)) as (s' & E' & _ & N & _).
    { rewrite Hu by auto. by apply bool_decide_eq_true_2. }
    same_run. rewrite N.
    rewrite size_difference, size_singleton by set_solver.
    assert (size live ≠ 0%nat). { intros H. apply size_empty_inv in H. set_solver. }
    lia.
Qed.

(** In every run the allocator behaves as a set of live ids: [alloc_pidmap]
    returns, and hands out an id below [PID_MAX_DEFAULT] that is not live and
    becomes live, or returns -1, changes nothing, and every id from
    [last_pid + 1] on is live; [nr_free] counts the ids that are not live. *)
Theorem alloc_pidmap_refines st live :
  pid_run st live →
  nr_free st = PID_MAX_DEFAULT - Z.of_nat (size live) ∧
  ∃ r st', alloc_pidmap st = Ok (r, st') ∧
    ((r = -1 ∧ st' = st ∧
      ∀ i, (last_pid st + 1) mod BITS_PER_PAGE ≤ i < BITS_PER_PAGE → i ∈ live) ∨
     (0 ≤ r < PID_MAX_DEFAULT ∧ r ∉ live ∧ pid_run st' ({[r]} ∪ live))).
Proof.
  intros Hrun. pose proof (pid_run_size _ _ Hrun) as Hsz.
  pose proof (pid_run_inv _ _ Hrun) as (Hi & Hl & Hu). split; [done|].
  destruct (alloc_pidmap_ok st Hi) as (r & st' & E & Hi' & C).
  exists r, st'. split; [done|].
  destruct C as [(-> & -> & Hfull)|(Hr & Hf & _)].
  - left. split_and!; [done..|]. intros i Hr.
    pose proof (Z.mod_pos_bound (last_pid st + 1) BITS_PER_PAGE ltac:(done)) as Hm.
    apply (bool_decide_eq_true (i ∈ live)). rewrite <- Hu by lia.
    destruct Hfull as [H0|Hall]; [|by apply Hall].
    eapply countb_all; [|apply seqZ_range; lia].
    rewrite length_seqZ. pose proof (pi_free st Hi). unfold BITS_PER_PAGE in *. lia.
  - right. rewrite Hu in Hf by done. apply bool_decide_eq_false in Hf.
    split; [exact Hr|]. split; [done|]. eapply run_alloc; [done..|lia].
Qed.

(** Witness: from the start, id 0 is handed out, then id 1. *)
Lemma alloc_pidmap_refines_witness :
  ∃ st st', alloc_pidmap pidmap_init = Ok (0, st) ∧ pid_run st {[0]} ∧
            alloc_pidmap st = Ok (1, st') ∧ nr_free st = 0x7fff.
Proof.
  destruct (alloc_pidmap_refines pidmap_init ∅ run_init) as (_ & r & st & E & C).
  assert (E' := E). vm_compute in E'. injection E' as <- Hst.
  destruct C as [(? & _)|(_ & _ & Hrun)]; [done|].
  exists st. rewrite right_id_L in Hrun by apply _.
  destruct (alloc_pidmap_refines st {[0]} Hrun) as (N & r' & st' & F & _).
  exists st'. split_and!; [exact E|exact Hrun| |rewrite <- Hst; by vm_compute].
  assert (F' := F). rewrite <- Hst in F'. vm_compute in F'. injection F' as <- _. exact F.
Defined.

(** Freeing a live id returns, takes exactly that id out of the live set and
    gives it back to the count. *)
Theorem free_pidmap_refines st live pid :
  pid_run st live → pid ∈ live →
  ∃ st', free_pidmap pid st = Ok st' ∧ pid_run st' (live ∖ {[pid]}) ∧
         nr_free st' = nr_free st + 1 ∧ last_pid st' = last_pid st.
Proof.
  intros Hrun Hp. pose proof (pid_run_inv _ _ Hrun) as (Hi & Hl & Hu).
  destruct (free_pidmap_ok st pid Hi (Hl _ Hp)) as (st' & E & _ & N & L & _).
  { rewrite Hu by auto. by apply bool_decide_eq_true_2. }
  exists st'. split_and!; [done| |done|done]. by eapply run_free.
Qed.

(** Witness: id 0 is handed out and freed again. *)
Lemma free_pidmap_refines_witness :
  ∃ st st', alloc_pidmap pidmap_init = Ok (0, st) ∧ free_pidmap 0 st = Ok st' ∧
            nr_free st' = PID_MAX_DEFAULT.
Proof.
  assert (∃ st, alloc_pidmap pidmap_init = Ok (0, st) ∧ nr_free st = 0x7fff) as (st & E & N).
  { eexists. split; by vm_compute. }
  destruct (free_pidmap_refines st ({[0]} ∪ ∅) 0) as (st' & F & _ & N' & _).
  - eapply run_alloc; [apply run_init|exact E|done].
  - set_solver.
  - exists st, st'. split_and!; [done|done|]. rewrite N', N. done.
Defined.

(** The search does not wrap around: once the last id was handed out at
    [0x7ffe] and [0x7fff] is in use, [alloc_pidmap] fails, however many lower
    ids are free. *)
Theorem alloc_pidmap_no_wraparound st :
  pid_inv st → last_pid st = 0x7ffe → used (page st) 0x7fff = true →
  alloc_pidmap st = Ok (-1, st).
Proof.
  intros Hi Hlast Hu. destruct (alloc_pidmap_ok st Hi) as (r & st' & E & _ & C).
  rewrite E. destruct C as [(-> & -> & _)|(Hr & Hf & _)]; [done|]. exfalso.
  revert E. unfold alloc_pidmap. case_bool_decide as E0; [intros [=]; subst; lia|].
  rewrite mask_mod, Hlast. change ((0x7ffe + 1) mod BITS_PER_PAGE) with 0x7fff.
  destruct (find_next_zero_bit_spec (page st) 0x7fff) as (q & Hq & Hq1 & Hq2 & Hq3);
    [apply Hi|done|].
  rewrite Hq. simpl. case_bool_decide as E1; [intros [=]; subst; lia|].
  assert (q = 0x7fff) by (unfold BITS_PER_PAGE in *; lia). subst q.
  rewrite Hq3 in Hu; [done|]. unfold BITS_PER_PAGE in *. lia.
Qed.

(** A map with only [0x7fff] in use and [last_pid] just below it. *)
Definition wrapped_map : pidmap :=
  mk_pidmap 0x7ffe 0x7fff (replicate 1023 0 ++ [2 ^ 31]).

Lemma used_wrapped i : 0 ≤ i < BITS_PER_PAGE → used (page wrapped_map) i = Z.eqb 0x7fff i.
Proof.
  intros Hi. unfold used, wrapped_map, page, BITS_PER_PAGE in *.
  pose proof (Z.mod_pos_bound i 32 ltac:(lia)) as Hm.
  pose proof (Z_div_mod_eq_full i 32) as Hd.
  destruct (decide (i / 32 = 1023)) as [E|E].
  - rewrite E. change (default 0 _) with (2 ^ 31).
    rewrite Z.pow2_bits_eqb by lia. destruct (Z.eqb_spec 31 (i mod 32)), (Z.eqb_spec 0x7fff i); lia.
  - rewrite lookup_app_l by (rewrite length_replicate; lia).
    rewrite lookup_replicate_2 by lia. change (default 0 (Some 0)) with 0. rewrite Z.bits_0.
    symmetry. apply Z.eqb_neq. lia.
Qed.

Lemma count_wrapped : countb (used (page wrapped_map)) (seqZ 0 BITS_PER_PAGE) = 1.
Proof.
  transitivity (countb (λ _ : Z, false) (seqZ 0 BITS_PER_PAGE) + 1);
    [|by rewrite countb_false].
  apply (countb_flip _ _ _ 0x7fff).
  - apply NoDup_seqZ.
  - apply seqZ_range. by vm_compute.
  - intros x Hx Hne. apply elem_of_seqZ in Hx. rewrite used_wrapped by lia.
    symmetry. apply Z.eqb_neq. lia.
  - reflexivity.
  - rewrite used_wrapped by (by vm_compute). reflexivity.
Qed.

(** Witness: 32767 ids are free and none is found. *)
Lemma alloc_pidmap_no_wraparound_witness :
  nr_free wrapped_map = 0x7fff ∧ alloc_pidmap wrapped_map = Ok (-1, wrapped_map).
Proof.
  split; [reflexivity|]. apply alloc_pidmap_no_wraparound; [|reflexivity|reflexivity].
  split; [|vm_compute; split; congruence|].
  2:{ rewrite count_wrapped. reflexivity. }
  split; [done|]. apply Forall_app. split; [by apply Forall_replicate|].
  repeat constructor; vm_compute; congruence.
Defined.
