(* ===== verification/Layout.v ===== *)
(** * Addresses, page frames and table entries

    include/mm/layout.h, include/mm/pages.h, include/mm/pgtable-3level.h.  The
    kernel is built with [CONFIG_PAE] and [CONFIG_DEBUG] (Makefile, KCFLAGS):
    physical addresses and table entries have 64 bits, virtual addresses 32,
    and the debug checks are part of the code.

    A [struct page *] is the index of the page in [mempage], that is its page
    frame number. *)

From S2P Require Import Prelude.

Local Open Scope Z_scope.

(** ** Constants *)

Definition PAGE_SHIFT : Z := 12.
Definition PMD_SHIFT : Z := 21.
Definition PGDIR_SHIFT : Z := 30.
Definition PAGE_SIZE : Z := 4096.
Definition PTRS_PER_PTE : Z := 512.
Definition PTRS_PER_PMD : Z := 512.
Definition PTRS_PER_PGD : Z := 4.

Definition KERNEL_NORMAL : Z := 0xF0000000.
Definition KERNEL_BASE_ADDR : Z := 0xC0000000.
Definition NORMAL_ADDR : Z := KERNEL_NORMAL - KERNEL_BASE_ADDR.
Definition USER_UNNAME_ZONE : Z := 0x40000000.
Definition USER_STACKTOP : Z := 0xBF800000.
Definition USER_STACKBOTT : Z := 0xBF400000.
Definition USER_TEMPBOTT : Z := 0xBF800000.
Definition USER_STACK_SIZE : Z := 0x400000.

Definition _PAGE_PRESENT : Z := 0x001.
Definition _PAGE_RW : Z := 0x002.
Definition _PAGE_USER : Z := 0x004.

Definition _pg_free : Z := 1.
Definition _pg_reserved : Z := 2.
Definition _pg_slab : Z := 4.
Definition _pg_active : Z := 16.

Definition _GFP_HIGH : Z := 1.
Definition _GFP_ZERO : Z := 2.

Definition ENOMEM : Z := 12.
Definition EFAULT : Z := 14.

(** [struct page], without the list links (a page is a member of a [free_list])
    and the lock; [slab] is the index of its cache. *)
Record page := mk_page {
  nref : Z;
  flags : Z;
  order : Z;
  slab : Z;
  freelist : Z;
  inuse : Z;
}.

Definition set_nref (v : Z) (p : page) : page :=
  mk_page v (flags p) (order p) (slab p) (freelist p) (inuse p).
Definition set_order (v : Z) (p : page) : page :=
  mk_page (nref p) (flags p) v (slab p) (freelist p) (inuse p).

Definition has_flag (w m : Z) : bool := negb (Z.land w m =? 0).

(** ** Rounding *)

(** [a] is a 32-bit value here: the macro casts it to [viraddr_t]. *)
Definition ROUNDDOWN (a n : Z) : Z := a - a mod n.

Definition ROUNDUP (a n : Z) : Z := ROUNDDOWN (u32 (u32 a + n - 1)) n.

(** ** Conversions between addresses *)

(** [pfn_t] has 32 bits. *)
Definition phys_to_pfn (address : Z) : Z := u32 (Z.shiftr address PAGE_SHIFT).

Definition virt_to_phys (address : Z) : outcome Z :=
  if bool_decide (address < KERNEL_BASE_ADDR) then Stop Panicked
  else Ok (u32 (address - KERNEL_BASE_ADDR)).

Definition phys_to_virt (address : Z) : outcome Z :=
  if bool_decide (NORMAL_ADDR ≤ address) then Stop Panicked
  else Ok (u32 (address + KERNEL_BASE_ADDR)).

(** [_page2pfn], [_page2phys] and [_page2virt] check the page against
    [mempage, mempage + max_pfn). *)
Definition page2pfn (max_pfn page : Z) : outcome Z :=
  if bool_decide (0 ≤ page < max_pfn) then Ok page else Stop Panicked.

Definition page2phys (max_pfn page : Z) : outcome Z :=
  pfn ← page2pfn max_pfn page; Ok (u64 (Z.shiftl pfn PAGE_SHIFT)).

Definition page2virt (max_pfn page : Z) : outcome Z :=
  phys ← page2phys max_pfn page; phys_to_virt phys.

Definition pfn2page (max_pfn pfn : Z) : outcome Z :=
  if bool_decide (max_pfn ≤ pfn) then Stop Panicked else Ok pfn.

(** The parameter of [_phys2page] has type [viraddr_t], and the one of
    [_pfn2page] type [int]. *)
Definition phys2page (max_pfn phys : Z) : outcome Z :=
  pfn2page max_pfn (i32 (phys_to_pfn (u32 phys))).

Definition virt2page (max_pfn vir : Z) : outcome Z :=
  phys ← virt_to_phys vir; phys2page max_pfn phys.

(** ** Rounding lemmas *)

Lemma ROUNDDOWN_le a n : 0 < n → ROUNDDOWN a n ≤ a < ROUNDDOWN a n + n.
Proof. intros. unfold ROUNDDOWN. pose proof (Z.mod_pos_bound a n). lia. Qed.

Lemma ROUNDDOWN_divide a n : 0 < n → (n | ROUNDDOWN a n).
Proof. apply mod_sub_divide. Qed.

Lemma ROUNDDOWN_nonneg a n : 0 < n → 0 ≤ a → 0 ≤ ROUNDDOWN a n.
Proof.
  intros Hn Ha. unfold ROUNDDOWN. pose proof (Z.mod_le a n Ha Hn). lia.
Qed.

Lemma ROUNDDOWN_id a n : 0 < n → (n | a) → ROUNDDOWN a n = a.
Proof. intros Hn H. unfold ROUNDDOWN.
  apply Z.mod_divide in H; lia. Qed.

Lemma ROUNDUP_eq a n :
  0 < n → 0 ≤ a → a + n - 1 < 2 ^ 32 → ROUNDUP a n = ROUNDDOWN (a + n - 1) n.
Proof. intros. unfold ROUNDUP. by rewrite !u32_small by (rewrite ?u32_small; lia). Qed.

Lemma ROUNDUP_ge a n :
  0 < n → 0 ≤ a → a + n - 1 < 2 ^ 32 → a ≤ ROUNDUP a n < a + n ∧ (n | ROUNDUP a n).
Proof.
  intros. rewrite ROUNDUP_eq by done.
  pose proof (ROUNDDOWN_le (a + n - 1) n ltac:(done)). split; [lia|by apply ROUNDDOWN_divide].
Qed.

(** ** Pages and addresses *)

Lemma page2phys_ok max_pfn p :
  0 ≤ p < max_pfn → max_pfn ≤ 2 ^ 31 → page2phys max_pfn p = Ok (p * PAGE_SIZE).
Proof.
  intros. unfold page2phys, page2pfn. rewrite bool_decide_true by done. simpl.
  rewrite Z.shiftl_mul_pow2 by (unfold PAGE_SHIFT; lia).
  rewrite u64_small; [done|]. unfold PAGE_SHIFT. lia.
Qed.

Lemma page2virt_ok max_pfn p :
  0 ≤ p < max_pfn → p * PAGE_SIZE < NORMAL_ADDR → max_pfn ≤ 2 ^ 31 →
  page2virt max_pfn p = Ok (p * PAGE_SIZE + KERNEL_BASE_ADDR).
Proof.
  intros. unfold page2virt. rewrite page2phys_ok by done. simpl.
  unfold phys_to_virt. rewrite bool_decide_false by lia.
  rewrite u32_small; [done|]. unfold PAGE_SIZE, NORMAL_ADDR, KERNEL_NORMAL, KERNEL_BASE_ADDR in *. lia.
Qed.

(** The page of any address inside the page. *)
Lemma virt2page_ok max_pfn p r :
  0 ≤ p < max_pfn → p * PAGE_SIZE < NORMAL_ADDR → 0 ≤ r < PAGE_SIZE →
  virt2page max_pfn (p * PAGE_SIZE + KERNEL_BASE_ADDR + r) = Ok p.
Proof.
  unfold PAGE_SIZE, NORMAL_ADDR, KERNEL_NORMAL, KERNEL_BASE_ADDR. intros.
  unfold virt2page, virt_to_phys, KERNEL_BASE_ADDR. rewrite bool_decide_false by lia. simpl.
  unfold phys2page, phys_to_pfn, pfn2page, PAGE_SHIFT.
  rewrite Z.shiftr_div_pow2 by lia. change (2 ^ 12) with 4096.
  replace (u32 (u32 (p * 4096 + 3221225472 + r - 3221225472))) with (p * 4096 + r)
    by (rewrite (u32_small (_ - _)) by lia; rewrite u32_small; lia).
  replace ((p * 4096 + r) / 4096) with p by (apply Z.div_unique with r; lia).
  rewrite u32_small by lia. rewrite i32_small by lia. by rewrite bool_decide_false by lia.
Qed.
