(* ===== verification/Buddy.v ===== *)
(** * The buddy allocator: kernel/mm/zone.c, include/mm/mmzone.h

    A zone is the page range [zone_mempage, zone_mempage + size) with one free
    list per order; a free block of order [k] is the range of [2^k] pages that
    starts at a member of the [k]-th list.  The lists are the abstract lists of
    KList ([list_del] takes a page off the list it is on).  The locks are not
    modelled: every entry point holds the zone lock from beginning to end. *)

From S2P Require Import Prelude Layout.

Local Open Scope Z_scope.

Definition MAXORDER : Z := 11.

Record free_area_struct := mk_area { free_list : list Z; nfree : Z }.

Record zone_struct := mk_zone {
  free_pages : Z;
  zone_mempage : Z;
  size : Z;
  free_area : list free_area_struct;
}.

(** A zone, the pages [mempage] and their number [max_pfn]. *)
Record zstate := mk_zstate { zn : zone_struct; pages : gmap Z page; max_pfn : Z }.

(** ** Access to the state *)

Definition upd_zone (f : zone_struct → zone_struct) : M zstate unit :=
  modify (λ s, mk_zstate (f (zn s)) (pages s) (max_pfn s)).

Definition get_page (i : Z) : M zstate page :=
  s ← get; of_option (pages s !! i).

Definition put_page (i : Z) (pg : page) : M zstate unit :=
  modify (λ s, mk_zstate (zn s) (<[i := pg]> (pages s)) (max_pfn s)).

(** [page->order = v] *)
Definition page_set_order (i v : Z) : M zstate unit :=
  pg ← get_page i; put_page i (set_order v pg).

Definition get_area (k : Z) : M zstate free_area_struct :=
  s ← get; of_option (free_area (zn s) !! Z.to_nat k).

Definition set_areas (f : list free_area_struct → list free_area_struct) : M zstate unit :=
  upd_zone (λ z, mk_zone (free_pages z) (zone_mempage z) (size z) (f (free_area z))).

(** [zone->free_area[k].nfree += d] *)
Definition nfree_add (k d : Z) : M zstate unit :=
  a ← get_area k;
  set_areas (<[Z.to_nat k := mk_area (free_list a) (u32 (nfree a + d))]>).

(** [list_add(&page->list, &zone->free_area[k].free_list)] *)
Definition area_list_add (i k : Z) : M zstate unit :=
  a ← get_area k;
  set_areas (<[Z.to_nat k := mk_area (i :: free_list a) (nfree a)]>).

(** [list_del(&page->list)] *)
Definition area_list_del (i : Z) : M zstate unit :=
  set_areas (fmap (λ a, mk_area (filter (λ x, x ≠ i) (free_list a)) (nfree a))).

Definition free_pages_add (d : Z) : M zstate unit :=
  upd_zone (λ z, mk_zone (u32 (free_pages z + d)) (zone_mempage z) (size z) (free_area z)).

(** ** The code *)

Definition page_is_buddy (pg : page) (ord : Z) : bool :=
  (order pg =? ord) && (nref pg =? 0) && negb (has_flag (flags pg) _pg_reserved).

(** The loop halves the block until its order is [low], [n = high - low] times. *)
Fixpoint __alloc_buddy_loop (n : nat) (low high sz page : Z) : M zstate unit :=
  match n with
  | O => mret tt
  | S n =>
      if bool_decide (low < high) then
        let high := high - 1 in
        let sz := Z.shiftr sz 1 in
        area_list_add (page + sz) high ;;
        nfree_add high 1 ;;
        page_set_order (page + sz) high ;;
        __alloc_buddy_loop n low high sz page
      else mret tt
  end.

Definition __alloc_buddy (low high page : Z) : M zstate Z :=
  __alloc_buddy_loop (Z.to_nat (high - low)) low high (Z.shiftl 1 high) page ;;
  mret page.

(** The loop over [curorder]; [n = MAXORDER - curorder]. *)
Fixpoint _alloc_buddy_loop (n : nat) (ord curorder : Z) : M zstate (option Z) :=
  match n with
  | O => mret None
  | S n =>
      a ← get_area curorder;
      match free_list a with
      | [] => _alloc_buddy_loop n ord (curorder + 1)
      | page :: _ =>
          area_list_del page ;;
          nfree_add curorder (-1) ;;
          free_pages_add (- Z.shiftl 1 ord) ;;
          page_set_order page (-1) ;;
          r ← __alloc_buddy ord curorder page;
          mret (Some r)
      end
  end.

Definition _alloc_buddy (ord : Z) : M zstate (option Z) :=
  assert (bool_decide (ord < MAXORDER)) ;;
  s ← get;
  if bool_decide (size (zn s) = 0) then mret None
  else _alloc_buddy_loop (Z.to_nat (MAXORDER - ord)) ord ord.

Definition alloc_buddy (ord : Z) : M zstate (option Z) := _alloc_buddy ord.

(** The merging loop of [_free_buddy]; it ends with the index and the order of
    the block to put on a free list. *)
Fixpoint _free_buddy_loop (n : nat) (index ord : Z) : M zstate (Z * Z) :=
  match n with
  | O => mret (index, ord)
  | S n =>
      if bool_decide (ord < MAXORDER - 1) then
        s ← get;
        let buddy_index := i32 (Z.lxor index (Z.shiftl 1 ord)) in
        let buddy := zone_mempage (zn s) + buddy_index in
        if bool_decide (zone_mempage (zn s) + size (zn s) ≤ buddy) then mret (index, ord)
        else if bool_decide (buddy < zone_mempage (zn s)) then mret (index, ord)
        else
          pfn ← lift (page2pfn (max_pfn s) buddy);
          assert (bool_decide (pfn mod Z.shiftl 1 ord = 0)) ;;
          pg ← get_page buddy;
          if negb (page_is_buddy pg ord) then mret (index, ord)
          else
            nfree_add ord (-1) ;;
            area_list_del buddy ;;
            page_set_order buddy (-1) ;;
            _free_buddy_loop n (Z.land index (u32 buddy_index)) (ord + 1)
      else mret (index, ord)
  end.

Definition _free_buddy (page ord : Z) : M zstate unit :=
  s ← get;
  let index := u32 (page - zone_mempage (zn s)) in
  assert (bool_decide (ord < MAXORDER)) ;;
  free_pages_add (Z.shiftl 1 ord) ;;
  r ← _free_buddy_loop (Z.to_nat (MAXORDER - 1)) index ord;
  let '(index, ord) := (r : Z * Z) in
  let page := zone_mempage (zn s) + index in
  page_set_order page ord ;;
  area_list_add page ord ;;
  nfree_add ord 1.

Definition free_buddy (page ord : Z) : M zstate unit := _free_buddy page ord.

(** [free_area_init]: [n] pages from index [i] on. *)
Fixpoint free_area_init_loop (n : nat) (i : Z) : M zstate unit :=
  match n with
  | O => mret tt
  | S n =>
      s ← get;
      let p := zone_mempage (zn s) + i in
      pg ← get_page p;
      (if (order pg =? -1) && has_flag (flags pg) _pg_free then free_buddy p 0 else mret tt) ;;
      free_area_init_loop n (i + 1)
  end.

Definition free_area_init : M zstate unit :=
  set_areas (fmap (λ a, mk_area [] (nfree a))) ;;
  s ← get;
  free_area_init_loop (Z.to_nat (size (zn s))) 0.

(** ** Setting the zones up *)

(** The global [zone_struct]s start zeroed. *)
Definition zone_bss (base n : Z) : zone_struct :=
  mk_zone 0 base n (replicate (Z.to_nat MAXORDER) (mk_area [] 0)).

(** [zone_init]: the normal zone is [0, normal_maxpfn), the high zone the rest;
    the pages are shared. *)
Definition zone_init (normal_maxpfn max_pfn : Z) (pgs : gmap Z page)
    : outcome (zone_struct * zone_struct * gmap Z page) :=
  let zone_normal := zone_bss 0 normal_maxpfn in
  let high_size := u32 (max_pfn - normal_maxpfn) in
  let zone_high := zone_bss (if bool_decide (high_size ≠ 0) then normal_maxpfn else 0) high_size in
  r ← free_area_init (mk_zstate zone_normal pgs max_pfn);
  let '(_, s) := (r : unit * zstate) in
  r' ← free_area_init (mk_zstate zone_high (pages s) max_pfn);
  let '(_, s') := (r' : unit * zstate) in
  Ok (zn s, zn s', pages s').
