(* ===== verification/BuddyProofs.v ===== *)
(** * Correctness of the buddy allocator (kernel/mm/zone.c)

    [zone_inv s e] is the invariant of a zone: the free blocks are aligned,
    inside the zone and pairwise disjoint; a page carries an order exactly when
    it heads a free block of that order; no two free buddies are left
    uncoalesced; and the counters agree with the lists up to [e] pages (0
    between operations).  [hole s p k] is an aligned range of [2^k] pages none
    of which is free.  Allocation takes a block off its list, which leaves a
    hole, and gives back the halves it does not need; freeing merges the hole
    with the holes its buddies leave. *)

From S2P Require Import Prelude Layout Buddy.

Local Open Scope Z_scope.

Section views.
Context (s : zstate).

Definition zbase : Z := zone_mempage (zn s).
Definition zend : Z := zone_mempage (zn s) + size (zn s).

(** The free list and the counter of order [k]. *)
Definition fl (k : Z) : list Z :=
  match free_area (zn s) !! Z.to_nat k with Some a => free_list a | None => [] end.
Definition nf (k : Z) : Z :=
  match free_area (zn s) !! Z.to_nat k with Some a => nfree a | None => 0 end.

Definition total : Z :=
  zsum ((λ k, 2 ^ k * Z.of_nat (length (fl k))) <$> seqZ 0 MAXORDER).
End views.

Definition in_blk (p k i : Z) : Prop := p ≤ i < p + 2 ^ k.

#[global] Instance in_blk_dec p k i : Decision (in_blk p k i).
Proof. unfold in_blk. apply _. Defined.

Definition free_page (s : zstate) (i : Z) : Prop :=
  ∃ k p, 0 ≤ k < MAXORDER ∧ p ∈ fl s k ∧ in_blk p k i.

#[global] Instance free_page_dec s i : Decision (free_page s i).
Proof.
  destruct (decide (Exists (λ k, Exists (λ p, in_blk p k i) (fl s k)) (seqZ 0 MAXORDER))) as [H|H].
  - left. apply Exists_exists in H as (k & Hk%elem_of_seqZ & H).
    apply Exists_exists in H as (p & Hp & Hb). exists k, p. split_and!; [lia|lia|done|done].
  - right. intros (k & p & Hk & Hp & Hb). apply H. apply Exists_exists. exists k. split.
    + apply elem_of_seqZ. lia.
    + apply Exists_exists. eauto.
Defined.

(** The buddy of the block at [p]. *)
Definition buddy_of (s : zstate) (p k : Z) : Z := zbase s + Z.lxor (p - zbase s) (2 ^ k).

Definition ready (s : zstate) (i : Z) : Prop :=
  ∃ pg, pages s !! i = Some pg ∧ nref pg = 0 ∧ has_flag (flags pg) _pg_reserved = false.

Definition placed (s : zstate) (p k : Z) : Prop :=
  zbase s ≤ p ∧ p + 2 ^ k ≤ zend s ∧ (2 ^ k | p - zbase s).

Record zone_inv (s : zstate) (e : Z) : Prop := {
  zi_areas : length (free_area (zn s)) = 11%nat;
  zi_size : 0 ≤ size (zn s) ≤ 2 ^ 30;
  zi_base : 0 ≤ zbase s ∧ (2 ^ 10 | zbase s) ∧ zend s ≤ max_pfn s;
  zi_pages : ∀ i, zbase s ≤ i < zend s → is_Some (pages s !! i);
  zi_block : ∀ k p, 0 ≤ k < MAXORDER → p ∈ fl s k → placed s p k;
  zi_nodup : ∀ k, 0 ≤ k < MAXORDER → NoDup (fl s k);
  zi_disj : ∀ k p j q i, 0 ≤ k < MAXORDER → 0 ≤ j < MAXORDER → p ∈ fl s k → q ∈ fl s j →
              in_blk p k i → in_blk q j i → k = j ∧ p = q;
  zi_order : ∀ i pg k, zbase s ≤ i < zend s → pages s !! i = Some pg → 0 ≤ k < MAXORDER →
              (order pg = k ↔ i ∈ fl s k);
  zi_orange : ∀ i pg, zbase s ≤ i < zend s → pages s !! i = Some pg → -1 ≤ order pg < MAXORDER;
  zi_ready : ∀ i, free_page s i → ready s i;
  zi_nfree : ∀ k, 0 ≤ k < MAXORDER → nf s k = u32 (Z.of_nat (length (fl s k)));
  zi_total : free_pages (zn s) = u32 (total s + e);
  zi_coal : ∀ k p, 0 ≤ k < MAXORDER - 1 → p ∈ fl s k → buddy_of s p k ∉ fl s k;
}.

Record hole (s : zstate) (p k : Z) : Prop := {
  ho_placed : placed s p k;
  ho_busy : ∀ i, in_blk p k i → ¬ free_page s i;
  ho_ready : ∀ i, in_blk p k i → ready s i;
}.

(** ** Buddy arithmetic *)

Lemma blk_start p k : 0 ≤ k → in_blk p k p.
Proof. intros. pose proof (pow2_pos k). unfold in_blk. lia. Qed.

Lemma lxor_pow2_even m k :
  0 ≤ k → Z.lxor (m * 2 ^ (k + 1)) (2 ^ k) = m * 2 ^ (k + 1) + 2 ^ k ∧
          Z.land (m * 2 ^ (k + 1)) (m * 2 ^ (k + 1) + 2 ^ k) = m * 2 ^ (k + 1).
Proof.
  intros Hk.
  assert (H0 : Z.land (m * 2 ^ (k + 1)) (2 ^ k) = 0).
  { apply Z.bits_inj'. intros n Hn. rewrite Z.land_spec, Z.bits_0, Z.pow2_bits_eqb by done.
    destruct (Z.eqb_spec k n) as [<-|_]; [|by rewrite andb_false_r].
    by rewrite Z.mul_pow2_bits_low by lia. }
  rewrite <- Z.add_nocarry_lxor by done. split; [done|].
  rewrite (Z.add_nocarry_lxor (m * _)), Z.lxor_lor by done.
  apply Z.bits_inj'. intros n Hn. rewrite Z.land_spec, Z.lor_spec. apply absorption_andb.
Qed.

Lemma lxor_pow2_odd m k :
  0 ≤ k → Z.lxor (m * 2 ^ (k + 1) + 2 ^ k) (2 ^ k) = m * 2 ^ (k + 1) ∧
          Z.land (m * 2 ^ (k + 1) + 2 ^ k) (m * 2 ^ (k + 1)) = m * 2 ^ (k + 1).
Proof.
  intros Hk. destruct (lxor_pow2_even m k Hk) as [E1 E2]. split.
  - rewrite <- E1. by rewrite Z.lxor_assoc, Z.lxor_nilpotent, Z.lxor_0_r.
  - by rewrite Z.land_comm.
Qed.

(** The two ways a block of order [k] lies in its parent. *)
Lemma block_parity x k :
  0 ≤ k → (2 ^ k | x) →
  (∃ m, x = m * 2 ^ (k + 1)) ∨ (∃ m, x = m * 2 ^ (k + 1) + 2 ^ k).
Proof.
  intros Hk [q ->]. rewrite pow2_S by done.
  destruct (Z.Even_or_Odd q) as [[m ->]|[m ->]]; [left|right]; exists m; ring.
Qed.

Lemma buddy_invol s p k : buddy_of s (buddy_of s p k) k = p.
Proof.
  unfold buddy_of. replace (zbase s + Z.lxor (p - zbase s) (2 ^ k) - zbase s)
    with (Z.lxor (p - zbase s) (2 ^ k)) by lia.
  rewrite Z.lxor_assoc, Z.lxor_nilpotent, Z.lxor_0_r. lia.
Qed.

(** The buddy of an aligned block, and the parent both make. *)
Lemma buddy_cases s p k :
  0 ≤ k → (2 ^ k | p - zbase s) →
  (buddy_of s p k = p + 2 ^ k ∧ (2 ^ (k + 1) | p - zbase s) ∧
     Z.land (p - zbase s) (Z.lxor (p - zbase s) (2 ^ k)) = p - zbase s) ∨
  (buddy_of s p k = p - 2 ^ k ∧ (2 ^ (k + 1) | p - 2 ^ k - zbase s) ∧
     Z.land (p - zbase s) (Z.lxor (p - zbase s) (2 ^ k)) = p - 2 ^ k - zbase s).
Proof.
  intros Hk Hd. unfold buddy_of.
  destruct (block_parity _ _ Hk Hd) as [[m E]|[m E]]; [left|right]; rewrite E.
  - destruct (lxor_pow2_even m k Hk) as [-> ->]. split_and!; [lia|by exists m|done].
  - destruct (lxor_pow2_odd m k Hk) as [-> ->]. split_and!; [lia|exists m; lia|lia].
Qed.

(** ** Changing one block *)

Record same_shape (s s' : zstate) : Prop := {
  ss_base : zone_mempage (zn s') = zone_mempage (zn s);
  ss_size : size (zn s') = size (zn s);
  ss_max : max_pfn s' = max_pfn s;
  ss_len : length (free_area (zn s')) = length (free_area (zn s));
}.

Lemma same_shape_placed s s' p k : same_shape s s' → placed s' p k ↔ placed s p k.
Proof. intros [E1 E2 _ _]. unfold placed, zbase, zend. by rewrite E1, E2. Qed.

Lemma same_shape_buddy s s' p k : same_shape s s' → buddy_of s' p k = buddy_of s p k.
Proof. intros [E1 _ _ _]. unfold buddy_of, zbase. by rewrite E1. Qed.

(** Only the order of the page [p] changes. *)
Definition set_order_at (s s' : zstate) (p o : Z) : Prop :=
  ∃ pg, pages s !! p = Some pg ∧ pages s' = <[p := set_order o pg]> (pages s).

Lemma set_order_at_lookup s s' p o i pg' :
  set_order_at s s' p o → pages s' !! i = Some pg' →
  ∃ pg, pages s !! i = Some pg ∧ nref pg' = nref pg ∧ flags pg' = flags pg ∧
        order pg' = if decide (i = p) then o else order pg.
Proof.
  intros (pg & Hp & ->) H. rewrite lookup_insert in H. case_decide as E; simplify_eq.
  - exists pg. by rewrite decide_True.
  - exists pg'. by rewrite decide_False by congruence.
Qed.

Lemma set_order_at_back s s' p o i pg :
  set_order_at s s' p o → pages s !! i = Some pg →
  ∃ pg', pages s' !! i = Some pg' ∧ nref pg' = nref pg ∧ flags pg' = flags pg.
Proof.
  intros (pg0 & Hp & ->) H. rewrite lookup_insert. case_decide; simplify_eq; eauto.
Qed.

Lemma ready_set_order s s' p o i : set_order_at s s' p o → ready s' i ↔ ready s i.
Proof.
  intros Hs. split; intros (pg & Hl & Hn & Hf).
  - destruct (set_order_at_lookup _ _ _ _ _ _ Hs Hl) as (pg' & ? & ? & ? & _).
    exists pg'. split_and!; congruence.
  - destruct (set_order_at_back _ _ _ _ _ _ Hs Hl) as (pg' & ? & ? & ?).
    exists pg'. split_and!; congruence.
Qed.

Lemma filter_ne_id (l : list Z) p : p ∉ l → filter (λ x, x ≠ p) l = l.
Proof.
  intros H. induction l as [|a l IH]; [done|]. rewrite filter_cons, decide_True by set_solver.
  f_equal. apply IH. set_solver.
Qed.

Lemma filter_ne_length (l : list Z) p :
  NoDup l → p ∈ l → Z.of_nat (length (filter (λ x, x ≠ p) l)) = Z.of_nat (length l) - 1.
Proof.
  induction 1 as [|a l Ha ND IH]; intros Hp; [by apply elem_of_nil in Hp|].
  rewrite filter_cons. apply elem_of_cons in Hp as [<-|Hp].
  - rewrite decide_False by (intros H; by apply H). rewrite filter_ne_id by done. simpl. lia.
  - rewrite decide_True by (intros ->; done). simpl. specialize (IH Hp). lia.
Qed.

Lemma fl_elem_unique s e k p j :
  zone_inv s e → 0 ≤ k < MAXORDER → 0 ≤ j < MAXORDER → p ∈ fl s k → p ∈ fl s j → j = k.
Proof.
  intros Hi Hk Hj H1 H2.
  destruct (zi_disj s e Hi k p j p p) as [-> _]; try done; apply blk_start; lia.
Qed.

Lemma order_range k : 0 ≤ k < MAXORDER → k ∈ seqZ 0 MAXORDER.
Proof. intros. apply elem_of_seqZ. lia. Qed.

Lemma u32_add_l a b : u32 (u32 a + b) = u32 (a + b).
Proof. unfold u32. by rewrite Zplus_mod_idemp_l. Qed.

(** Taking the block [p] of order [k] off its list. *)
Record taken (s s' : zstate) (p k d : Z) : Prop := {
  tk_shape : same_shape s s';
  tk_fl : ∀ j, 0 ≤ j < MAXORDER → fl s' j = filter (λ x, x ≠ p) (fl s j);
  tk_nf : ∀ j, 0 ≤ j < MAXORDER → nf s' j = if decide (j = k) then u32 (nf s j - 1) else nf s j;
  tk_order : set_order_at s s' p (-1);
  tk_pages : free_pages (zn s') = u32 (free_pages (zn s) + d);
}.

Lemma taken_fl s s' e p k d j :
  zone_inv s e → 0 ≤ k < MAXORDER → p ∈ fl s k → taken s s' p k d → 0 ≤ j < MAXORDER →
  (∀ q, q ∈ fl s' j ↔ q ∈ fl s j ∧ q ≠ p) ∧ (j ≠ k → fl s' j = fl s j).
Proof.
  intros Hi Hk Hp Ht Hj. rewrite (tk_fl _ _ _ _ _ Ht j Hj). split.
  - intros q. rewrite list_elem_of_filter. tauto.
  - intros Hne. apply filter_ne_id. intros Hin. apply Hne. by eapply fl_elem_unique.
Qed.

Lemma taken_free s s' e p k d i :
  zone_inv s e → 0 ≤ k < MAXORDER → p ∈ fl s k → taken s s' p k d →
  free_page s' i ↔ free_page s i ∧ ¬ in_blk p k i.
Proof.
  intros Hi Hk Hp Ht. split.
  - intros (j & q & Hj & Hq & Hb).
    apply (taken_fl s s' e p k d j Hi Hk Hp Ht Hj) in Hq as [Hq Hne].
    split; [by exists j, q|]. intros Hb'.
    destruct (zi_disj s e Hi j q k p i); congruence.
  - intros [(j & q & Hj & Hq & Hb) Hn]. exists j, q. split_and!; [lia|lia| |done].
    apply (taken_fl s s' e p k d j Hi Hk Hp Ht Hj). split; [done|].
    intros ->. destruct (fl_elem_unique s e k p j Hi Hk Hj Hp Hq). done.
Qed.

Lemma taken_total s s' e p k d :
  zone_inv s e → 0 ≤ k < MAXORDER → p ∈ fl s k → taken s s' p k d →
  total s' = total s - 2 ^ k.
Proof.
  intros Hi Hk Hp Ht. unfold total.
  rewrite (zsum_update (λ j, 2 ^ j * Z.of_nat (length (fl s j))) _ (seqZ 0 MAXORDER) k).
  - rewrite (tk_fl _ _ _ _ _ Ht k Hk), filter_ne_length; [lia|by eapply zi_nodup|done].
  - apply NoDup_seqZ.
  - by apply order_range.
  - intros j Hj%elem_of_seqZ Hne.
    destruct (taken_fl s s' e p k d j Hi Hk Hp Ht) as [_ E]; [lia|]. by rewrite E.
Qed.

Lemma taken_inv s s' e p k d :
  zone_inv s e → 0 ≤ k < MAXORDER → p ∈ fl s k → taken s s' p k d →
  zone_inv s' (e + 2 ^ k + d) ∧ hole s' p k.
Proof.
  intros Hi Hk Hp Ht. pose proof (tk_shape _ _ _ _ _ Ht) as Hs.
  pose proof (λ i, taken_free s s' e p k d i Hi Hk Hp Ht) as Hfree.
  pose proof (taken_total s s' e p k d Hi Hk Hp Ht) as Htot.
  assert (Hfl : ∀ j, 0 ≤ j < MAXORDER → ∀ q, q ∈ fl s' j ↔ q ∈ fl s j ∧ q ≠ p).
  { intros j Hj. by apply (taken_fl s s' e p k d j Hi Hk Hp Ht Hj). }
  pose proof Hs as [E1 E2 E3 E4].
  assert (Eb : zbase s' = zbase s) by (unfold zbase; congruence).
  assert (Ee : zend s' = zend s) by (unfold zend; congruence).
  split; [split|split].
  - rewrite E4. apply Hi.
  - rewrite E2. apply Hi.
  - rewrite Eb, Ee, E3. apply Hi.
  - intros i Hr. rewrite Eb, Ee in Hr. destruct (zi_pages s e Hi i Hr) as [pg Hpg].
    destruct (set_order_at_back _ _ _ _ _ _ (tk_order _ _ _ _ _ Ht) Hpg) as (? & ? & _). eauto.
  - intros j q Hj Hq. rewrite (same_shape_placed s s') by done.
    eapply zi_block; [done..|]. by apply Hfl in Hq as [].
  - intros j Hj. rewrite (tk_fl _ _ _ _ _ Ht j Hj). apply NoDup_filter. by eapply zi_nodup.
  - intros j q j' q' i Hj Hj' Hq Hq' Hb Hb'. apply Hfl in Hq as [Hq _]; [|done].
    apply Hfl in Hq' as [Hq' _]; [|done]. by eapply (zi_disj s e Hi j q j' q' i).
  - intros i pg' j Hr Hpg Hj. rewrite Eb, Ee in Hr. rewrite Hfl by done.
    destruct (set_order_at_lookup _ _ _ _ _ _ (tk_order _ _ _ _ _ Ht) Hpg)
      as (pg & Hpg0 & _ & _ & ->).
    case_decide as E; [split; [lia|naive_solver]|].
    rewrite <- (zi_order s e Hi i pg j) by done. naive_solver.
  - intros i pg' Hr Hpg. rewrite Eb, Ee in Hr.
    destruct (set_order_at_lookup _ _ _ _ _ _ (tk_order _ _ _ _ _ Ht) Hpg)
      as (pg & Hpg0 & _ & _ & ->). pose proof (zi_orange s e Hi i pg Hr Hpg0).
    case_decide; lia.
  - intros i [Hf _]%Hfree. rewrite (ready_set_order s s') by apply Ht. by eapply zi_ready.
  - intros j Hj. rewrite (tk_nf _ _ _ _ _ Ht j Hj), (tk_fl _ _ _ _ _ Ht j Hj).
    case_decide as E; [subst j|].
    + rewrite (zi_nfree s e Hi k Hk), <- Z.add_opp_r, u32_add_l.
      rewrite filter_ne_length; [done|by eapply zi_nodup|done].
    + rewrite (zi_nfree s e Hi j Hj), filter_ne_id; [done|].
      intros Hin. apply E. by eapply fl_elem_unique.
  - rewrite (tk_pages _ _ _ _ _ Ht), (zi_total s e Hi), u32_add_l, Htot. f_equal. lia.
  - intros j q Hj Hq Hb. rewrite (same_shape_buddy s s') in Hb by done.
    apply Hfl in Hq as [Hq _]; [|lia]. apply Hfl in Hb as [Hb _]; [|lia].
    by eapply (zi_coal s e Hi j q).
  - rewrite (same_shape_placed s s') by done. by eapply zi_block.
  - intros i Hb [_ Hn]%Hfree. done.
  - intros i Hb. rewrite (ready_set_order s s') by apply Ht.
    eapply zi_ready; [done|]. by exists k, p.
Qed.

(** Putting the hole [p] of order [k] on its list. *)
Record added (s s' : zstate) (p k d : Z) : Prop := {
  ad_shape : same_shape s s';
  ad_fl : ∀ j, 0 ≤ j < MAXORDER → fl s' j = if decide (j = k) then p :: fl s j else fl s j;
  ad_nf : ∀ j, 0 ≤ j < MAXORDER → nf s' j = if decide (j = k) then u32 (nf s j + 1) else nf s j;
  ad_order : set_order_at s s' p k;
  ad_pages : free_pages (zn s') = u32 (free_pages (zn s) + d);
}.

Lemma added_fl s s' p k d j q :
  added s s' p k d → 0 ≤ j < MAXORDER → q ∈ fl s' j ↔ q ∈ fl s j ∨ j = k ∧ q = p.
Proof.
  intros Ha Hj. rewrite (ad_fl _ _ _ _ _ Ha j Hj). case_decide; set_solver.
Qed.

Lemma added_free s s' p k d i :
  0 ≤ k < MAXORDER → added s s' p k d → free_page s' i ↔ free_page s i ∨ in_blk p k i.
Proof.
  intros Hk Ha. split.
  - intros (j & q & Hj & Hq & Hb). apply (added_fl s s' p k d j q Ha Hj) in Hq as [Hq|[-> ->]].
    + left. by exists j, q.
    + by right.
  - intros [(j & q & Hj & Hq & Hb)|Hb].
    + exists j, q. split_and!; [lia|lia| |done]. apply (added_fl s s' p k d j q Ha Hj). by left.
    + exists k, p. split_and!; [lia|lia| |done]. apply (added_fl s s' p k d k p Ha Hk). by right.
Qed.

Lemma hole_not_listed s p k j :
  0 ≤ k → 0 ≤ j < MAXORDER → hole s p k → p ∉ fl s j.
Proof.
  intros Hk Hj Ho Hin. apply (ho_busy s p k Ho p); [by apply blk_start|].
  exists j, p. split_and!; [lia|lia|done|apply blk_start; lia].
Qed.

Lemma buddy_ne s p k : 0 ≤ k → (2 ^ k | p - zbase s) → buddy_of s p k ≠ p.
Proof.
  intros Hk Hd. pose proof (pow2_pos k Hk).
  destruct (buddy_cases s p k Hk Hd) as [(-> & _)|(-> & _)]; lia.
Qed.

Lemma added_inv s s' e p k d :
  zone_inv s e → 0 ≤ k < MAXORDER → hole s p k →
  (k < MAXORDER - 1 → buddy_of s p k ∉ fl s k) → added s s' p k d →
  zone_inv s' (e - 2 ^ k + d).
Proof.
  intros Hi Hk Ho Hbud Ha. pose proof (ad_shape _ _ _ _ _ Ha) as Hs.
  pose proof (λ i, added_free s s' p k d i Hk Ha) as Hfree.
  pose proof (λ j q, added_fl s s' p k d j q Ha) as Hfl.
  pose proof Hs as [E1 E2 E3 E4].
  assert (Eb : zbase s' = zbase s) by (unfold zbase; congruence).
  assert (Ee : zend s' = zend s) by (unfold zend; congruence).
  assert (Hnl : ∀ j, 0 ≤ j < MAXORDER → p ∉ fl s j).
  { intros j Hj. by apply (hole_not_listed s p k); [lia| |]. }
  split.
  - rewrite E4. apply Hi.
  - rewrite E2. apply Hi.
  - rewrite Eb, Ee, E3. apply Hi.
  - intros i Hr. rewrite Eb, Ee in Hr. destruct (zi_pages s e Hi i Hr) as [pg Hpg].
    destruct (set_order_at_back _ _ _ _ _ _ (ad_order _ _ _ _ _ Ha) Hpg) as (? & ? & _). eauto.
  - intros j q Hj Hq. rewrite (same_shape_placed s s') by done.
    apply Hfl in Hq as [Hq|[-> ->]]; [by eapply zi_block|apply Ho|done].
  - intros j Hj. rewrite (ad_fl _ _ _ _ _ Ha j Hj). pose proof (zi_nodup s e Hi j Hj).
    case_decide; [|done]. apply NoDup_cons. auto.
  - intros j q j' q' i Hj Hj' Hq Hq' Hb Hb'.
    apply Hfl in Hq as [Hq|[-> ->]]; [| |done]; (apply Hfl in Hq' as [Hq'|[-> ->]]; [| |done]).
    + by eapply (zi_disj s e Hi j q j' q' i).
    + exfalso. apply (ho_busy s p k Ho i Hb'). by exists j, q.
    + exfalso. apply (ho_busy s p k Ho i Hb). by exists j', q'.
    + done.
  - intros i pg' j Hr Hpg Hj. rewrite Eb, Ee in Hr. rewrite Hfl by done.
    destruct (set_order_at_lookup _ _ _ _ _ _ (ad_order _ _ _ _ _ Ha) Hpg)
      as (pg & Hpg0 & _ & _ & ->).
    case_decide as E; [subst i; specialize (Hnl j Hj); naive_solver|].
    rewrite <- (zi_order s e Hi i pg j) by done. naive_solver.
  - intros i pg' Hr Hpg. rewrite Eb, Ee in Hr.
    destruct (set_order_at_lookup _ _ _ _ _ _ (ad_order _ _ _ _ _ Ha) Hpg)
      as (pg & Hpg0 & _ & _ & ->). pose proof (zi_orange s e Hi i pg Hr Hpg0).
    case_decide; lia.
  - intros i Hf. rewrite (ready_set_order s s') by apply Ha.
    apply Hfree in Hf as [Hf|Hb]; [by eapply zi_ready|by apply Ho].
  - intros j Hj. rewrite (ad_nf _ _ _ _ _ Ha j Hj), (ad_fl _ _ _ _ _ Ha j Hj).
    rewrite (zi_nfree s e Hi j Hj). case_decide; [|done].
    rewrite u32_add_l. f_equal. simpl length. lia.
  - rewrite (ad_pages _ _ _ _ _ Ha), (zi_total s e Hi), u32_add_l. f_equal. unfold total.
    rewrite (zsum_update (λ j, 2 ^ j * Z.of_nat (length (fl s j)))
      (λ j, 2 ^ j * Z.of_nat (length (fl s' j))) (seqZ 0 MAXORDER) k).
    + rewrite (ad_fl _ _ _ _ _ Ha k Hk), decide_True by done. simpl length. lia.
    + apply NoDup_seqZ.
    + by apply order_range.
    + intros j Hj%elem_of_seqZ Hne. rewrite (ad_fl _ _ _ _ _ Ha j ltac:(lia)).
      by rewrite decide_False.
  - intros j q Hj Hq Hb. rewrite (same_shape_buddy s s') in Hb by done.
    apply Hfl in Hq; [|lia]. apply Hfl in Hb; [|lia].
    destruct Hq as [Hq|[Ej Eq]], Hb as [Hb|[Fj Fq]].
    + by eapply (zi_coal s e Hi j q).
    + subst j. apply Hbud; [lia|]. by rewrite <- Fq, buddy_invol.
    + subst j q. apply Hbud; [lia|done].
    + subst j q. apply (buddy_ne s p k); [lia|apply Ho|done].
Qed.

(** ** Holes *)

Lemma hole_added s s' p k d q j :
  0 ≤ k < MAXORDER → hole s q j → added s s' p k d →
  (∀ i, in_blk q j i → ¬ in_blk p k i) → hole s' q j.
Proof.
  intros Hk [H1 H2 H3] Ha Hd. split.
  - by rewrite (same_shape_placed s s') by apply Ha.
  - intros i Hb [Hf|Hb']%(added_free s s' p k d i Hk Ha); [by eapply H2|by eapply Hd].
  - intros i Hb. rewrite (ready_set_order s s') by apply Ha. by apply H3.
Qed.

Lemma hole_taken s s' e p k d q j :
  zone_inv s e → 0 ≤ k < MAXORDER → p ∈ fl s k → hole s q j → taken s s' p k d → hole s' q j.
Proof.
  intros Hi Hk Hp [H1 H2 H3] Ht. split.
  - by rewrite (same_shape_placed s s') by apply Ht.
  - intros i Hb [Hf _]%(taken_free s s' e p k d i Hi Hk Hp Ht). by eapply H2.
  - intros i Hb. rewrite (ready_set_order s s') by apply Ht. by apply H3.
Qed.

Lemma hole_split s p k : 0 ≤ k → hole s p (k + 1) → hole s p k ∧ hole s (p + 2 ^ k) k.
Proof.
  intros Hk [(P1 & P2 & P3) H2 H3]. rewrite pow2_S in P2 by done. pose proof (pow2_pos k Hk).
  assert (Hd : (2 ^ k | p - zbase s)).
  { etrans; [|exact P3]. apply pow2_divide. lia. }
  assert (Hsub : ∀ i, in_blk p k i ∨ in_blk (p + 2 ^ k) k i → in_blk p (k + 1) i).
  { unfold in_blk. rewrite pow2_S by done. lia. }
  split; split; [|intros i Hb; apply H2|intros i Hb; apply H3
                 | |intros i Hb; apply H2|intros i Hb; apply H3]; try (apply Hsub; by auto).
  - split_and!; [done|lia|done].
  - split_and!; [lia|lia|]. replace (p + 2 ^ k - zbase s) with (p - zbase s + 2 ^ k) by lia.
    apply Z.divide_add_r; [done|apply Z.divide_refl].
Qed.

Lemma hole_merge s p k :
  0 ≤ k → (2 ^ (k + 1) | p - zbase s) → hole s p k → hole s (p + 2 ^ k) k → hole s p (k + 1).
Proof.
  intros Hk Hd [(P1 & P2 & _) H2 H3] [(Q1 & Q2 & _) G2 G3].
  assert (Hsub : ∀ i, in_blk p (k + 1) i → in_blk p k i ∨ in_blk (p + 2 ^ k) k i).
  { unfold in_blk. rewrite pow2_S by done. lia. }
  split.
  - split_and!; [done| |done]. rewrite pow2_S by done. lia.
  - intros i [Hb|Hb]%Hsub; auto.
  - intros i [Hb|Hb]%Hsub; auto.
Qed.

(** ** Running the primitives *)

Definition upd_areas (f : list free_area_struct → list free_area_struct) (s : zstate) : zstate :=
  mk_zstate (mk_zone (free_pages (zn s)) (zone_mempage (zn s)) (size (zn s)) (f (free_area (zn s))))
    (pages s) (max_pfn s).

Definition upd_pages (f : gmap Z page → gmap Z page) (s : zstate) : zstate :=
  mk_zstate (zn s) (f (pages s)) (max_pfn s).

Definition upd_free (d : Z) (s : zstate) : zstate :=
  mk_zstate (mk_zone (u32 (free_pages (zn s) + d)) (zone_mempage (zn s)) (size (zn s))
    (free_area (zn s))) (pages s) (max_pfn s).

Lemma area_lookup s k :
  length (free_area (zn s)) = 11%nat → 0 ≤ k < MAXORDER →
  ∃ a, free_area (zn s) !! Z.to_nat k = Some a ∧ fl s k = free_list a ∧ nf s k = nfree a.
Proof.
  intros Hl Hk. destruct (lookup_lt_is_Some_2 (free_area (zn s)) (Z.to_nat k)) as [a Ha].
  { unfold MAXORDER in Hk. lia. }
  exists a. unfold fl, nf. by rewrite Ha.
Qed.

Lemma get_area_ok s k a :
  free_area (zn s) !! Z.to_nat k = Some a → get_area k s = Ok (a, s).
Proof. intros H. unfold get_area. by rewrite (bind_Ok _ _ _ _ _ eq_refl), H. Qed.

Lemma nfree_add_ok s k d a :
  free_area (zn s) !! Z.to_nat k = Some a →
  nfree_add k d s =
    Ok (tt, upd_areas (<[Z.to_nat k := mk_area (free_list a) (u32 (nfree a + d))]>) s).
Proof. intros H. unfold nfree_add. by rewrite (bind_Ok _ _ _ _ _ (get_area_ok _ _ _ H)). Qed.

Lemma area_list_add_ok s i k a :
  free_area (zn s) !! Z.to_nat k = Some a →
  area_list_add i k s = Ok (tt, upd_areas (<[Z.to_nat k := mk_area (i :: free_list a) (nfree a)]>) s).
Proof. intros H. unfold area_list_add. by rewrite (bind_Ok _ _ _ _ _ (get_area_ok _ _ _ H)). Qed.

Lemma get_page_ok s i pg : pages s !! i = Some pg → get_page i s = Ok (pg, s).
Proof. intros H. unfold get_page. by rewrite (bind_Ok _ _ _ _ _ eq_refl), H. Qed.

Lemma page_set_order_ok s i v pg :
  pages s !! i = Some pg →
  page_set_order i v s = Ok (tt, upd_pages (<[i := set_order v pg]>) s).
Proof.
  intros H. unfold page_set_order. by rewrite (bind_Ok _ _ _ _ _ (get_page_ok _ _ _ H)).
Qed.

Lemma area_insert_lookup s k j a :
  length (free_area (zn s)) = 11%nat → 0 ≤ k < MAXORDER → 0 ≤ j →
  <[Z.to_nat k := a]> (free_area (zn s)) !! Z.to_nat j =
    if decide (j = k) then Some a else free_area (zn s) !! Z.to_nat j.
Proof.
  intros Hl Hk Hj. case_decide as E.
  - subst j. apply list_lookup_insert_eq. unfold MAXORDER in *. lia.
  - apply list_lookup_insert_ne. lia.
Qed.

Lemma zone_inv_u32 s e : zone_inv s e → u32 (free_pages (zn s)) = free_pages (zn s).
Proof. intros Hi. rewrite (zi_total s e Hi). unfold u32. by rewrite Zmod_mod. Qed.

(** The three updates that put a block on a list, in the two orders the code
    uses them, followed by any code [c]. *)
Lemma added_state s e k p pg :
  zone_inv s e → 0 ≤ k < MAXORDER → pages s !! p = Some pg →
  ∃ s', added s s' p k 0 ∧
    (∀ A (c : M zstate A),
       (area_list_add p k ;; nfree_add k 1 ;; page_set_order p k ;; c) s = c s') ∧
    (page_set_order p k ;; area_list_add p k ;; nfree_add k 1) s = Ok (tt, s').
Proof.
  intros Hi Hk Hp. pose proof (zi_areas s e Hi) as Hl.
  destruct (area_lookup s k Hl Hk) as (a & Ha & Hfl & Hnf).
  assert (Hlt : (Z.to_nat k < length (free_area (zn s)))%nat) by (unfold MAXORDER in *; lia).
  set (a' := mk_area (p :: free_list a) (u32 (nfree a + 1))).
  exists (upd_pages (<[p := set_order k pg]>) (upd_areas (<[Z.to_nat k := a']>) s)).
  split_and!.
  - split.
    + split; simpl; [done..|]. by rewrite length_insert.
    + intros j Hj. unfold fl at 1. simpl.
      rewrite area_insert_lookup by (done || lia). case_decide; [subst j|done].
      by rewrite Hfl.
    + intros j Hj. unfold nf at 1. simpl.
      rewrite area_insert_lookup by (done || lia). case_decide; [subst j|done].
      by rewrite Hnf.
    + exists pg. done.
    + simpl. rewrite Z.add_0_r. by rewrite (zone_inv_u32 s e).
  - intros A c. rewrite (bind_Ok _ _ _ _ _ (area_list_add_ok s p k a Ha)).
    erewrite bind_Ok; [|apply nfree_add_ok; simpl; by apply list_lookup_insert_eq].
    erewrite bind_Ok; [|by apply page_set_order_ok].
    unfold upd_areas, upd_pages. simpl. by rewrite list_insert_insert_eq.
  - rewrite (bind_Ok _ _ _ _ _ (page_set_order_ok s p k pg Hp)).
    erewrite bind_Ok; [|by apply area_list_add_ok].
    rewrite (nfree_add_ok _ _ _ (mk_area (p :: free_list a) (nfree a)))
      by (simpl; by apply list_lookup_insert_eq).
    unfold upd_areas, upd_pages. simpl. by rewrite list_insert_insert_eq.
Qed.

Definition drop_block (p : Z) (a : free_area_struct) : free_area_struct :=
  mk_area (filter (λ x, x ≠ p) (free_list a)) (nfree a).

(** The state in which the block [p] of order [k] is off its list. *)
Definition taken_st (s : zstate) (p k d : Z) (a : free_area_struct) (pg : page) : zstate :=
  mk_zstate
    (mk_zone (u32 (free_pages (zn s) + d)) (zone_mempage (zn s)) (size (zn s))
       (<[Z.to_nat k := mk_area (filter (λ x, x ≠ p) (free_list a)) (u32 (nfree a - 1))]>
          (drop_block p <$> free_area (zn s))))
    (<[p := set_order (-1) pg]> (pages s)) (max_pfn s).

Lemma taken_st_taken s e p k d a pg :
  zone_inv s e → 0 ≤ k < MAXORDER → pages s !! p = Some pg →
  free_area (zn s) !! Z.to_nat k = Some a → taken s (taken_st s p k d a pg) p k d.
Proof.
  intros Hi Hk Hp Ha. pose proof (zi_areas s e Hi) as Hl.
  assert (Hlk : ∀ j, 0 ≤ j →
    free_area (zn (taken_st s p k d a pg)) !! Z.to_nat j =
    if decide (j = k) then Some (mk_area (filter (λ x, x ≠ p) (free_list a)) (u32 (nfree a - 1)))
    else drop_block p <$> free_area (zn s) !! Z.to_nat j).
  { intros j Hj. simpl. case_decide as E.
    - subst j. apply list_lookup_insert_eq. rewrite length_fmap. unfold MAXORDER in *. lia.
    - rewrite list_lookup_insert_ne by lia. by rewrite list_lookup_fmap. }
  split.
  - split; simpl; [done..|]. by rewrite length_insert, length_fmap.
  - intros j Hj. unfold fl. rewrite Hlk by lia. case_decide; [subst j; by rewrite Ha|].
    by destruct (free_area (zn s) !! Z.to_nat j).
  - intros j Hj. unfold nf. rewrite Hlk by lia. case_decide; [subst j; by rewrite Ha|].
    by destruct (free_area (zn s) !! Z.to_nat j).
  - by exists pg.
  - done.
Qed.

Lemma taken_st_alloc {A} s e k p d a pg (c : M zstate A) :
  zone_inv s e → 0 ≤ k < MAXORDER → pages s !! p = Some pg →
  free_area (zn s) !! Z.to_nat k = Some a →
  (area_list_del p ;; nfree_add k (-1) ;; free_pages_add d ;; page_set_order p (-1) ;; c) s
    = c (taken_st s p k d a pg).
Proof.
  intros Hi Hk Hp Ha. unfold area_list_del, set_areas, upd_zone.
  rewrite (bind_Ok _ _ _ _ _ eq_refl).
  erewrite bind_Ok; [|apply nfree_add_ok; simpl; by rewrite list_lookup_fmap, Ha].
  unfold free_pages_add, upd_zone. rewrite (bind_Ok _ _ _ _ _ eq_refl).
  erewrite bind_Ok; [|by apply page_set_order_ok]. done.
Qed.

Lemma taken_st_free {A} s e k p a pg (c : M zstate A) :
  zone_inv s e → 0 ≤ k < MAXORDER → pages s !! p = Some pg →
  free_area (zn s) !! Z.to_nat k = Some a →
  (nfree_add k (-1) ;; area_list_del p ;; page_set_order p (-1) ;; c) s
    = c (taken_st s p k 0 a pg).
Proof.
  intros Hi Hk Hp Ha. rewrite (bind_Ok _ _ _ _ _ (nfree_add_ok _ _ _ _ Ha)).
  unfold area_list_del, set_areas, upd_zone.
  rewrite (bind_Ok _ _ _ _ _ eq_refl).
  erewrite bind_Ok; [|by apply page_set_order_ok].
  unfold taken_st, upd_areas, upd_pages. cbn [zn pages max_pfn free_area free_pages zone_mempage size].
  rewrite list_fmap_insert, Z.add_0_r, (zone_inv_u32 s e) by done. done.
Qed.

(** Nothing but the orders of pages and the zone's lists and counters moves. *)
Record only_orders (s s' : zstate) : Prop := {
  oo_shape : same_shape s s';
  oo_pages : ∀ i, set_order 0 <$> pages s' !! i = set_order 0 <$> pages s !! i;
  oo_outside : ∀ i, ¬ (zbase s ≤ i < zend s) → pages s' !! i = pages s !! i;
}.

#[global] Instance only_orders_preorder : PreOrder only_orders.
Proof.
  split.
  - intros s. by repeat split.
  - intros s1 s2 s3 [[] H1 H3] [[] H2 H4]. split; [split; congruence| |].
    + intros i. by rewrite H2, H1.
    + intros i Hi. rewrite H4, H3; [done..|]. unfold zbase, zend in *. congruence.
Qed.

Lemma set_order_at_pages s s' p o i :
  set_order_at s s' p o → set_order 0 <$> pages s' !! i = set_order 0 <$> pages s !! i.
Proof.
  intros (pg & Hp & ->). rewrite lookup_insert. case_decide; [|done]. subst i. by rewrite Hp.
Qed.

Lemma set_order_at_outside s s' p o i :
  set_order_at s s' p o → i ≠ p → pages s' !! i = pages s !! i.
Proof. intros (pg & _ & ->) Hne. by rewrite lookup_insert_ne. Qed.

Lemma placed_start s p k : 0 ≤ k → placed s p k → zbase s ≤ p < zend s.
Proof. intros Hk (H1 & H2 & _). pose proof (pow2_pos k Hk). lia. Qed.

Lemma taken_only s s' p k d : 0 ≤ k → placed s p k → taken s s' p k d → only_orders s s'.
Proof.
  intros Hk Hp []. split; [done| |].
  - intros i. by eapply set_order_at_pages.
  - intros i Hi. eapply set_order_at_outside; [done|]. intros ->.
    by apply Hi, (placed_start s p k).
Qed.

Lemma added_only s s' p k d : 0 ≤ k → placed s p k → added s s' p k d → only_orders s s'.
Proof.
  intros Hk Hp []. split; [done| |].
  - intros i. by eapply set_order_at_pages.
  - intros i Hi. eapply set_order_at_outside; [done|]. intros ->.
    by apply Hi, (placed_start s p k).
Qed.

Lemma hole_page s p k : 0 ≤ k → hole s p k → ∃ pg, pages s !! p = Some pg.
Proof.
  intros Hk Ho. destruct (ho_ready s p k Ho p) as (pg & ? & _); [by apply blk_start|eauto].
Qed.

(** ** Allocation *)

Lemma split_buddy s p k :
  0 ≤ k → (2 ^ (k + 1) | p - zbase s) → buddy_of s (p + 2 ^ k) k = p.
Proof.
  intros Hk Hd. rewrite <- (buddy_invol s p k) at 2. f_equal.
  destruct (buddy_cases s p k Hk) as [(-> & _)|(_ & H & _)]; [|done|].
  { etrans; [|exact Hd]. apply pow2_divide. lia. }
  exfalso. pose proof (pow2_pos k Hk).
  assert (Hk2 : (2 ^ (k + 1) | 2 ^ k)).
  { replace (2 ^ k) with ((p - zbase s) - (p - 2 ^ k - zbase s)) by lia.
    by apply Z.divide_sub_r. }
  apply Z.divide_pos_le in Hk2; [|done]. rewrite pow2_S in Hk2 by done. lia.
Qed.

Lemma __alloc_buddy_loop_ok n : ∀ s e low high p,
  zone_inv s e → 0 ≤ low ≤ high → high < MAXORDER → n = Z.to_nat (high - low) →
  hole s p high →
  ∃ s', __alloc_buddy_loop n low high (2 ^ high) p s = Ok (tt, s') ∧
    zone_inv s' (e - (2 ^ high - 2 ^ low)) ∧ hole s' p low ∧ only_orders s s' ∧
    (∀ i, free_page s' i ↔ free_page s i ∨ in_blk p high i ∧ ¬ in_blk p low i).
Proof.
  induction n as [|n IH]; intros s e low high p Hi Hlh Hh Hn Ho.
  - assert (high = low) as -> by lia. exists s. split_and!; [done| |done|done|].
    + by replace (e - (2 ^ low - 2 ^ low)) with e by lia.
    + intros i. tauto.
  - cbn [__alloc_buddy_loop]. rewrite bool_decide_true by lia. cbv zeta.
    remember (high - 1) as h eqn:Eh. assert (high = h + 1) as -> by lia.
    assert (Hsz : Z.shiftr (2 ^ (h + 1)) 1 = 2 ^ h).
    { rewrite Z.shiftr_div_pow2, pow2_S by lia. change (2 ^ 1) with 2.
      rewrite Z.mul_comm. by apply Z.div_mul. }
    rewrite Hsz. destruct (hole_split s p h ltac:(lia) Ho) as [Hlo Hhi].
    destruct (hole_page s (p + 2 ^ h) h ltac:(lia) Hhi) as [pg Hpg].
    destruct (added_state s e h (p + 2 ^ h) pg Hi ltac:(lia) Hpg) as (s1 & Had & Hrun & _).
    rewrite Hrun. pose proof (pow2_pos h ltac:(lia)) as Hpos.
    pose proof (pow2_S h ltac:(lia)) as HS. pose proof (pow2_le low h ltac:(lia)) as Hle.
    destruct (IH s1 (e - 2 ^ h + 0) low h p) as (s2 & Hr & Hi2 & Ho2 & Hoo & Hf); [|lia..| |].
    + eapply added_inv; [done|lia|done| |done].
      intros _. rewrite split_buddy; [|lia|apply Ho].
      by apply (hole_not_listed s p h); [lia|lia|].
    + eapply hole_added; [|done|done|]; [lia|]. unfold in_blk. lia.
    + exists s2. split_and!; [done| |done| |].
      * replace (e - (2 ^ (h + 1) - 2 ^ low)) with (e - 2 ^ h + 0 - (2 ^ h - 2 ^ low)) by lia.
        done.
      * etrans; [eapply added_only; [|apply Hhi|done]; lia|done].
      * intros i. rewrite Hf, (added_free s s1 (p + 2 ^ h) h 0 i ltac:(lia) Had). unfold in_blk.
        rewrite HS. split; [intros [[?|?]|?]; [by left|right; lia|right; lia]|].
        intros [?|[? ?]]; [by left; left|]. destruct (Z.lt_ge_cases i (p + 2 ^ h)); [right; lia|].
        left; right; lia.
Qed.

(** What a successful allocation of order [ord] from [s] gives. *)
Record allocated (s s' : zstate) (ord p : Z) : Prop := {
  al_hole : hole s' p ord;
  al_was_free : ∀ i, in_blk p ord i → free_page s i;
  al_free : ∀ i, free_page s' i ↔ free_page s i ∧ ¬ in_blk p ord i;
}.

Lemma _alloc_buddy_loop_ok n : ∀ s ord cur,
  zone_inv s 0 → 0 ≤ ord ≤ cur → n = Z.to_nat (MAXORDER - cur) → cur ≤ MAXORDER →
  (∀ k, ord ≤ k < cur → fl s k = []) →
  ∃ r s', _alloc_buddy_loop n ord cur s = Ok (r, s') ∧ zone_inv s' 0 ∧ only_orders s s' ∧
    match r with
    | Some p => allocated s s' ord p
    | None => s' = s ∧ ∀ k, ord ≤ k < MAXORDER → fl s k = []
    end.
Proof.
  induction n as [|n IH]; intros s ord cur Hi Hoc Hn Hc Hem.
  { exists None, s. split_and!; [done..|]. intros k Hk. apply Hem. lia. }
  assert (Hk : 0 ≤ cur < MAXORDER) by lia.
  destruct (area_lookup s cur (zi_areas s 0 Hi) Hk) as (a & Ha & Hfl & _).
  cbn [_alloc_buddy_loop]. rewrite (bind_Ok _ _ _ _ _ (get_area_ok _ _ _ Ha)).
  destruct (free_list a) as [|p l] eqn:El.
  - apply IH; [done|lia|lia|lia|]. intros k Hko. destruct (decide (k = cur)) as [->|]; [done|].
    apply Hem. lia.
  - assert (Hp : p ∈ fl s cur) by (rewrite Hfl; by left).
    destruct (zi_ready s 0 Hi p) as (pg & Hpg & _).
    { exists cur, p. split_and!; [lia|lia|done|by apply blk_start; lia]. }
    rewrite (taken_st_alloc s 0 cur p _ a pg) by done. rewrite Z.shiftl_1_l.
    pose proof (taken_st_taken s 0 p cur (- 2 ^ ord) a pg Hi Hk Hpg Ha) as Ht.
    set (s1 := taken_st _ _ _ _ _ _) in *.
    destruct (taken_inv s s1 0 p cur (- 2 ^ ord) Hi Hk Hp Ht) as [Hi1 Ho1].
    destruct (__alloc_buddy_loop_ok (Z.to_nat (cur - ord)) s1 _ ord cur p Hi1)
      as (s2 & Hr & Hi2 & Ho2 & Hoo & Hf); [lia|lia|done|done|].
    exists (Some p), s2.
    pose proof (pow2_le ord cur ltac:(lia)) as Hle.
    unfold __alloc_buddy. rewrite Z.shiftl_1_l.
    split_and!.
    + rewrite bind_assoc, (bind_Ok _ _ _ _ _ Hr). done.
    + replace 0 with (0 + 2 ^ cur + - 2 ^ ord - (2 ^ cur - 2 ^ ord)) by lia. done.
    + etrans; [|done]. eapply (taken_only s s1 p cur); [lia|by eapply zi_block|done].
    + assert (Hin : ∀ i, in_blk p cur i → free_page s i).
      { intros i Hb. exists cur, p. done. }
      assert (Hsub : ∀ i, in_blk p ord i → in_blk p cur i) by (unfold in_blk; lia).
      split; [done|by auto|]. intros i.
      rewrite Hf, (taken_free s s1 0 p cur _ i Hi Hk Hp Ht).
      split; [naive_solver|]. intros [H1 H2].
      destruct (decide (in_blk p cur i)) as [Hb|Hb]; [right|left]; auto.
Qed.

(** ** An aligned free run is covered by one free block *)

Lemma aligned_nested b p k q j i :
  0 ≤ k ≤ j → (2 ^ k | p - b) → (2 ^ j | q - b) →
  in_blk p k i → in_blk q j i → ∀ x, in_blk p k x → in_blk q j x.
Proof.
  unfold in_blk. intros Hkj [m Hm] Hq Hi Hi' x Hx.
  assert (Hjk : (2 ^ k | q - b)) by (etrans; [by apply pow2_divide|done]).
  destruct Hjk as [m' Hm']. pose proof (pow2_divide k j Hkj) as [c Hc].
  pose proof (pow2_pos k ltac:(lia)). rewrite Hc in *.
  assert (m' ≤ m) by nia. assert (m < m' + c) by nia. nia.
Qed.

Lemma aligned_eq b p q k i :
  0 ≤ k → (2 ^ k | p - b) → (2 ^ k | q - b) → in_blk p k i → in_blk q k i → p = q.
Proof.
  intros Hk Hp Hq Hi Hi'.
  pose proof (aligned_nested b p k q k i ltac:(lia) Hp Hq Hi Hi' p (blk_start p k Hk)).
  pose proof (aligned_nested b q k p k i ltac:(lia) Hq Hp Hi' Hi q (blk_start q k Hk)).
  unfold in_blk in *. lia.
Qed.

Lemma free_run_block s e n : ∀ p k,
  zone_inv s e → k = Z.of_nat n → k < MAXORDER → (2 ^ k | p - zbase s) →
  (∀ i, in_blk p k i → free_page s i) →
  ∃ j q, k ≤ j < MAXORDER ∧ q ∈ fl s j ∧ ∀ i, in_blk p k i → in_blk q j i.
Proof.
  induction n as [|n IH]; intros p k Hi -> Hk Hd Hall.
  { destruct (Hall p) as (j & q & Hj & Hq & Hb); [by apply blk_start|].
    exists j, q. split_and!; [lia|lia|done|]. intros i. unfold in_blk in *. simpl.
    change (2 ^ 0) with 1. intros ?. by replace i with p by lia. }
  set (h := Z.of_nat n) in *. assert (Hh : 0 ≤ h) by lia.
  replace (Z.of_nat (S n)) with (h + 1) in * by lia.
  pose proof (pow2_pos h Hh) as Hpos. pose proof (pow2_S h Hh) as HS.
  assert (Hdh : (2 ^ h | p - zbase s)) by (etrans; [apply pow2_divide|exact Hd]; lia).
  assert (Hsub : ∀ i, in_blk p h i ∨ in_blk (p + 2 ^ h) h i ↔ in_blk p (h + 1) i).
  { unfold in_blk. rewrite HS. lia. }
  destruct (IH p h Hi eq_refl ltac:(lia) Hdh) as (j & q & Hj & Hq & Hc).
  { intros i Hb. apply Hall, Hsub. by left. }
  assert (Hdh' : (2 ^ h | p + 2 ^ h - zbase s)).
  { replace (p + 2 ^ h - zbase s) with (p - zbase s + 2 ^ h) by lia.
    apply Z.divide_add_r; [done|apply Z.divide_refl]. }
  destruct (IH (p + 2 ^ h) h Hi eq_refl ltac:(lia) Hdh') as (j' & q' & Hj' & Hq' & Hc').
  { intros i Hb. apply Hall, Hsub. by right. }
  assert (Hpl : ∀ j q, 0 ≤ j < MAXORDER → q ∈ fl s j → (2 ^ j | q - zbase s)).
  { intros j0 q0 Hj0 Hq0. by apply (zi_block s e Hi j0 q0 Hj0 Hq0). }
  pose proof (blk_start p h Hh) as Hs. pose proof (blk_start (p + 2 ^ h) h Hh) as Hs'.
  destruct (decide (h = j)) as [<-|Hne].
  - destruct (decide (h = j')) as [<-|Hne'].
    + exfalso. apply (zi_coal s e Hi h p); [lia| |].
      * by rewrite (aligned_eq (zbase s) p q h p) by auto with lia.
      * rewrite <- (split_buddy s p h Hh Hd), buddy_invol at 1.
        by rewrite (aligned_eq (zbase s) (p + 2 ^ h) q' h (p + 2 ^ h)) by auto with lia.
    + exists j', q'. split_and!; [lia|lia|done|]. apply (aligned_nested (zbase s) _ _ _ _ (p + 2 ^ h));
        [lia|done|by apply Hpl; [lia|]|apply Hsub; by right|by apply Hc'].
  - exists j, q. split_and!; [lia|lia|done|]. apply (aligned_nested (zbase s) _ _ _ _ p);
      [lia|done|by apply Hpl; [lia|]|apply Hsub; by left|by apply Hc].
Qed.

(** ** Freeing *)

(** Without a listed block of order [k] or more no aligned run of [2^k] pages is free. *)
Lemma no_free_run s e k p :
  zone_inv s e → 0 ≤ k < MAXORDER → (∀ j, k ≤ j < MAXORDER → fl s j = []) → placed s p k →
  ∃ i, in_blk p k i ∧ ¬ free_page s i.
Proof.
  intros Hi Hk Hem Hp.
  destruct (decide (Exists (λ i, ¬ free_page s i) (seqZ p (2 ^ k)))) as [He|He].
  - apply Exists_exists in He as (i & Hb%elem_of_seqZ & Hn). by exists i.
  - exfalso. destruct (free_run_block s e (Z.to_nat k) p k) as (j & q & Hj & Hq & _);
      [done|lia|lia|apply Hp| |].
    + intros i Hb. destruct (free_page_dec s i) as [|Hn]; [done|].
      destruct He. apply Exists_exists. exists i. by rewrite elem_of_seqZ.
    + rewrite Hem in Hq by lia. by apply elem_of_nil in Hq.
Qed.

(** A block is on the list of its order exactly when [page_is_buddy] accepts it. *)
Lemma page_is_buddy_listed s e b k pg :
  zone_inv s e → 0 ≤ k < MAXORDER → zbase s ≤ b < zend s → pages s !! b = Some pg →
  page_is_buddy pg k = true ↔ b ∈ fl s k.
Proof.
  intros Hi Hk Hb Hpg. unfold page_is_buddy. rewrite !andb_true_iff, negb_true_iff, !Z.eqb_eq.
  rewrite (zi_order s e Hi b pg k Hb Hpg Hk). split; [tauto|]. intros Hin.
  destruct (zi_ready s e Hi b) as (pg' & Hpg' & Hn & Hf).
  { exists k, b. split_and!; [lia|lia|done|apply blk_start; lia]. }
  assert (pg' = pg) as -> by congruence. done.
Qed.

(** The index computed for the buddy, and the index of the merged block. *)
Lemma buddy_index_ok s e p k :
  zone_inv s e → 0 ≤ k < MAXORDER - 1 → placed s p k →
  zbase s + i32 (Z.lxor (p - zbase s) (Z.shiftl 1 k)) = buddy_of s p k ∧
  zbase s ≤ buddy_of s p k ∧
  Z.land (p - zbase s) (u32 (i32 (Z.lxor (p - zbase s) (Z.shiftl 1 k)))) =
    Z.min p (buddy_of s p k) - zbase s.
Proof.
  intros Hi Hk (P1 & P2 & P3). rewrite Z.shiftl_1_l.
  pose proof (zi_size s e Hi). unfold zend in P2. fold (zbase s) in *.
  pose proof (pow2_pos k ltac:(lia)). pose proof (pow2_le k 10 ltac:(unfold MAXORDER in *; lia)).
  assert (Hge : zbase s ≤ p - 2 ^ k ∨ p = zbase s).
  { destruct (decide (p = zbase s)) as [|Hne]; [by right|left].
    assert (0 + 2 ^ k ≤ p - zbase s); [|lia].
    apply divide_le_next; [lia|apply Z.divide_0_r|done|lia]. }
  assert (Hsmall : 0 ≤ Z.lxor (p - zbase s) (2 ^ k) < 2 ^ 31).
  { pose proof (buddy_cases s p k ltac:(lia) P3) as HB. unfold buddy_of, zend in *.
    destruct HB as [(E & _)|(E & Hd & _)]; [lia|].
    assert (zbase s ≤ p - 2 ^ k); [|lia]. destruct Hge as [?| ->]; [done|].
    exfalso. destruct Hd as [m Hm]. rewrite pow2_S in Hm by lia.
    assert (Hz : 2 ^ k * (2 * m + 1) = 0) by lia. apply Z.mul_eq_0 in Hz. lia. }
  rewrite i32_small, u32_small by lia. split; [done|].
  destruct (buddy_cases s p k ltac:(lia) P3) as [(E & _ & ->)|(E & Hd & ->)]; rewrite E.
  - split; lia.
  - assert (zbase s ≤ p - 2 ^ k).
    { unfold buddy_of in E. lia. }
    split; lia.
Qed.

Lemma hole_with_buddy s p k :
  0 ≤ k → hole s p k → hole s (buddy_of s p k) k → hole s (Z.min p (buddy_of s p k)) (k + 1).
Proof.
  intros Hk Ho Hb. pose proof (pow2_pos k Hk).
  destruct (buddy_cases s p k Hk (proj2 (proj2 (ho_placed _ _ _ Ho))))
    as [(E & Hd & _)|(E & Hd & _)]; rewrite E in *.
  - rewrite Z.min_l by lia. by apply hole_merge.
  - rewrite Z.min_r by lia. apply hole_merge; [done|done|done|].
    by replace (p - 2 ^ k + 2 ^ k) with p by lia.
Qed.

Lemma blk_with_buddy s p k i :
  0 ≤ k → (2 ^ k | p - zbase s) →
  in_blk (Z.min p (buddy_of s p k)) (k + 1) i ↔ in_blk p k i ∨ in_blk (buddy_of s p k) k i.
Proof.
  intros Hk Hd. pose proof (pow2_pos k Hk). unfold in_blk. rewrite pow2_S by done.
  destruct (buddy_cases s p k Hk Hd) as [(-> & _)|(-> & _)]; lia.
Qed.

Lemma buddy_aligned s p k :
  0 ≤ k → (2 ^ k | p - zbase s) → (2 ^ k | buddy_of s p k - zbase s).
Proof.
  intros Hk Hd. destruct (buddy_cases s p k Hk Hd) as [(-> & _ & _)|(-> & _ & _)].
  - replace (p + 2 ^ k - zbase s) with (p - zbase s + 2 ^ k) by lia.
    apply Z.divide_add_r; [done|apply Z.divide_refl].
  - replace (p - 2 ^ k - zbase s) with (p - zbase s - 2 ^ k) by lia.
    apply Z.divide_sub_r; [done|apply Z.divide_refl].
Qed.

Lemma aligned_pfn s e b k :
  zone_inv s e → 0 ≤ k ≤ 10 → (2 ^ k | b - zbase s) →
  bool_decide (b mod Z.shiftl 1 k = 0) = true.
Proof.
  intros Hi Hk Hd. apply bool_decide_true. rewrite Z.shiftl_1_l.
  apply Z.mod_divide; [pose proof (pow2_pos k); lia|].
  replace b with (b - zbase s + zbase s) by lia. apply Z.divide_add_r; [done|].
  etrans; [by apply pow2_divide|]. apply (zi_base s e Hi).
Qed.

(** What the merging of the hole [p] of order [k] ends with. *)
Record merged (s : zstate) (p k : Z) (s' : zstate) (p' k' : Z) : Prop := {
  mg_inv : zone_inv s' (2 ^ k');
  mg_ord : 0 ≤ k' < MAXORDER;
  mg_hole : hole s' p' k';
  mg_only : only_orders s s';
  mg_buddy : k' < MAXORDER - 1 → buddy_of s' p' k' ∉ fl s' k';
  mg_free : ∀ i, free_page s' i ∨ in_blk p' k' i ↔ free_page s i ∨ in_blk p k i;
}.

Lemma merged_refl s p k :
  zone_inv s (2 ^ k) → 0 ≤ k < MAXORDER → hole s p k →
  (k < MAXORDER - 1 → buddy_of s p k ∉ fl s k) → merged s p k s p k.
Proof. by split. Qed.

(** One round: the buddy is taken off its list and the two holes merge. *)
Lemma merged_step s s1 p k s' p' k' :
  zone_inv s (2 ^ k) → 0 ≤ k < MAXORDER → hole s p k → buddy_of s p k ∈ fl s k →
  taken s s1 (buddy_of s p k) k 0 →
  merged s1 (Z.min p (buddy_of s p k)) (k + 1) s' p' k' → merged s p k s' p' k'.
Proof.
  intros Hi Hk Ho Hin Ht []. set (b := buddy_of s p k) in *. split; [done..| |done|].
  - etrans; [|done]. apply (taken_only s s1 b k 0); [lia|by eapply zi_block|done].
  - intros i. rewrite mg_free0, (taken_free s s1 _ b k 0 i Hi Hk Hin Ht).
    pose proof (blk_with_buddy s p k i ltac:(lia) (proj2 (proj2 (ho_placed _ _ _ Ho)))) as Hbb.
    fold b in Hbb. rewrite Hbb.
    destruct (decide (in_blk b k i)) as [Hbi|Hbi]; [|tauto].
    assert (free_page s i) by (exists k, b; done). tauto.
Qed.

Lemma _free_buddy_loop_ok n : ∀ s p k,
  zone_inv s (2 ^ k) → 0 ≤ k < MAXORDER → hole s p k → MAXORDER - 1 - k ≤ Z.of_nat n →
  ∃ s' p' k', _free_buddy_loop n (p - zbase s) k s = Ok ((p' - zbase s, k'), s') ∧
    merged s p k s' p' k'.
Proof.
  induction n as [|n IH]; intros s p k Hi Hk Ho Hn.
  { exists s, p, k. split; [done|]. apply merged_refl; [done..|lia]. }
  assert (Hstop : (k < MAXORDER - 1 → buddy_of s p k ∉ fl s k) →
    ∃ s' p' k', Ok ((p - zbase s, k), s) = Ok ((p' - zbase s, k'), s') ∧
      merged s p k s' p' k').
  { intros Hb. exists s, p, k. split; [done|by apply merged_refl]. }
  cbn [_free_buddy_loop]. case_bool_decide as Hord; [|apply Hstop; lia].
  rewrite (bind_Ok _ _ _ _ _ eq_refl). cbv zeta.
  pose proof (ho_placed s p k Ho) as Hpl.
  destruct (buddy_index_ok s _ p k Hi ltac:(lia) Hpl) as (Eb & Hlow & Eland).
  fold (zbase s) (zend s). rewrite Eb, Eland. set (b := buddy_of s p k) in *.
  case_bool_decide as Hend.
  { apply Hstop. intros _ Hin. destruct (zi_block s _ Hi k b Hk Hin) as (_ & ? & _).
    pose proof (pow2_pos k ltac:(lia)). unfold zend in *. fold (zbase s) in *. lia. }
  rewrite bool_decide_false by lia.
  assert (Hbr : zbase s ≤ b < zend s) by (unfold zend; fold (zbase s); lia).
  destruct (zi_base s _ Hi) as (Hb0 & _ & Hmax). destruct (zi_pages s _ Hi b Hbr) as [pg Hpg].
  assert (Hdb : (2 ^ k | b - zbase s)) by (apply buddy_aligned; [lia|apply Hpl]).
  erewrite bind_Ok by (unfold page2pfn; rewrite bool_decide_true by lia; done).
  rewrite (bind_Ok _ _ _ _ _ (assert_true _ _
    (aligned_pfn s _ b k Hi ltac:(unfold MAXORDER in *; lia) Hdb))).
  rewrite (bind_Ok _ _ _ _ _ (get_page_ok _ _ _ Hpg)).
  pose proof (page_is_buddy_listed s _ b k pg Hi Hk Hbr Hpg) as Hlisted.
  destruct (page_is_buddy pg k); cbn [negb].
  - assert (Hin : b ∈ fl s k) by (by apply Hlisted).
    destruct (area_lookup s k (zi_areas s _ Hi) Hk) as (a & Ha & _ & _).
    rewrite (taken_st_free s _ k b a pg) by done.
    pose proof (taken_st_taken s _ b k 0 a pg Hi Hk Hpg Ha) as Ht.
    set (s1 := taken_st _ _ _ _ _ _) in *.
    destruct (taken_inv s s1 _ b k 0 Hi Hk Hin Ht) as [Hi1 Hob].
    pose proof (hole_taken s s1 _ b k 0 p k Hi Hk Hin Ho Ht) as Hop.
    change (zbase s) with (zbase s1).
    destruct (IH s1 (Z.min p b) (k + 1)) as (s2 & p2 & k2 & Hr & Hm);
      [|lia|by apply (hole_with_buddy s1 p k); [lia| |]|lia|].
    { rewrite pow2_S by lia. replace (2 * 2 ^ k) with (2 ^ k + 2 ^ k + 0) by lia. done. }
    exists s2, p2, k2. split; [done|]. by eapply merged_step.
  - apply Hstop. intros _ Hin. apply Hlisted in Hin. done.
Qed.

Lemma upd_free_inv s e d : zone_inv s e → zone_inv (upd_free d s) (e + d).
Proof.
  intros []. split; try done. simpl. rewrite zi_total0, u32_add_l. f_equal.
  change (total (upd_free d s)) with (total s). lia.
Qed.

Lemma upd_free_hole s d p k : hole s p k → hole (upd_free d s) p k.
Proof. intros []. by split. Qed.

Lemma free_buddy_ok s p k :
  zone_inv s 0 → 0 ≤ k < MAXORDER → hole s p k →
  ∃ s', free_buddy p k s = Ok (tt, s') ∧ zone_inv s' 0 ∧ only_orders s s' ∧
    (∀ i, free_page s' i ↔ free_page s i ∨ in_blk p k i).
Proof.
  intros Hi Hk Ho. unfold free_buddy, _free_buddy. run_step.
  rewrite (bind_Ok _ _ _ _ _ (assert_true _ s (bool_decide_eq_true_2 _ (proj2 Hk)))).
  rewrite Z.shiftl_1_l. unfold free_pages_add, upd_zone. run_step.
  set (s0 := mk_zstate _ _ _). change s0 with (upd_free (2 ^ k) s). clear s0.
  assert (Hidx : u32 (p - zone_mempage (zn s)) = p - zbase (upd_free (2 ^ k) s)).
  { destruct (ho_placed s p k Ho) as (H1 & H2 & _). pose proof (zi_size s 0 Hi).
    pose proof (pow2_pos k ltac:(lia)). unfold zbase, zend in *. simpl. apply u32_small. lia. }
  rewrite Hidx. set (s0 := upd_free (2 ^ k) s) in *.
  destruct (_free_buddy_loop_ok (Z.to_nat (MAXORDER - 1)) s0 p k) as (s1 & p1 & k1 & Hr & Hm).
  { by apply (upd_free_inv s 0). }
  { done. } { by apply upd_free_hole. } { unfold MAXORDER in *. lia. }
  rewrite (bind_Ok _ _ _ _ _ Hr). destruct Hm as [Hi1 Hk1 Ho1 Hoo Hbud Hf].
  replace (zone_mempage (zn s) + (p1 - zbase s0)) with p1 by (change (zbase s0) with (zbase s); unfold zbase; lia).
  destruct (hole_page s1 p1 k1 ltac:(lia) Ho1) as [pg Hpg].
  destruct (added_state s1 _ k1 p1 pg Hi1 Hk1 Hpg) as (s2 & Had & _ & Hrun).
  exists s2. split_and!; [done| | |].
  - replace 0 with (2 ^ k1 - 2 ^ k1 + 0) by lia. by eapply added_inv.
  - transitivity s1; [|eapply added_only; [|apply Ho1|done]; lia].
    destruct Hoo as [[] ? ?]. by split.
  - intros i. rewrite (added_free s1 s2 p1 k1 0 i Hk1 Had). apply Hf.
Qed.

Lemma alloc_buddy_ok s ord :
  zone_inv s 0 → 0 ≤ ord < MAXORDER →
  ∃ r s', alloc_buddy ord s = Ok (r, s') ∧ zone_inv s' 0 ∧ only_orders s s' ∧
    match r with
    | Some p => allocated s s' ord p
    | None => s' = s ∧ ∀ k, ord ≤ k < MAXORDER → fl s k = []
    end.
Proof.
  intros Hi Ho. unfold alloc_buddy, _alloc_buddy.
  rewrite (bind_Ok _ _ _ _ _ (assert_true _ s (bool_decide_eq_true_2 _ (proj2 Ho)))).
  run_step. case_bool_decide as Hsz.
  - exists None, s. split_and!; [done..|]. intros k Hk.
    destruct (fl s k) as [|p l] eqn:E; [done|exfalso].
    destruct (zi_block s 0 Hi k p) as (H1 & H2 & _); [lia|rewrite E; by left|].
    pose proof (pow2_pos k ltac:(lia)). unfold zend in H2. fold (zbase s) in H2. lia.
  - apply _alloc_buddy_loop_ok; [done|lia|done|lia|lia].
Qed.

(** ** The counter of free pages is exact *)

Definition blocks (s : zstate) : list (Z * Z) :=
  mjoin ((λ k, (λ p, (p, 2 ^ k)) <$> fl s k) <$> seqZ 0 MAXORDER).

Lemma elem_of_blocks s p n :
  (p, n) ∈ blocks s ↔ ∃ k, 0 ≤ k < MAXORDER ∧ n = 2 ^ k ∧ p ∈ fl s k.
Proof.
  unfold blocks. rewrite list_elem_of_join. split.
  - intros (l & Hl & Hk). apply list_elem_of_fmap in Hk as (k & -> & Hk).
    apply list_elem_of_fmap in Hl as (q & [= -> ->] & Hq). apply elem_of_seqZ in Hk.
    exists k. split_and!; [lia|lia|done|done].
  - intros (k & Hk & -> & Hp). eexists. split; [|apply list_elem_of_fmap; exists k; split; [done|]].
    + apply list_elem_of_fmap. eauto.
    + by apply order_range.
Qed.

Lemma blocks_sum s : zsum (snd <$> blocks s) = total s.
Proof.
  unfold blocks, total. generalize (seqZ 0 MAXORDER). intros l.
  induction l as [|k l IH]; [done|]. rewrite !fmap_cons, join_cons, fmap_app, zsum_app, IH.
  cbn [zsum]. f_equal. clear IH. induction (fl s k) as [|p q IH]; [simpl; lia|].
  rewrite !fmap_cons. cbn [zsum snd length]. rewrite IH. lia.
Qed.

Lemma blocks_nodup s e : zone_inv s e → NoDup (blocks s).
Proof.
  intros Hi. unfold blocks. assert (Hr : ∀ k, k ∈ seqZ 0 MAXORDER → 0 ≤ k < MAXORDER).
  { intros k Hk%elem_of_seqZ. lia. }
  revert Hr. generalize (NoDup_seqZ 0 MAXORDER). generalize (seqZ 0 MAXORDER). intros l.
  induction 1 as [|k l Hk ND IH]; intros Hr; [constructor|].
  rewrite fmap_cons, join_cons. apply NoDup_app. split_and!.
  - apply NoDup_fmap; [intros ? ? [= ->]; done|]. eapply zi_nodup; [done|]. apply Hr. by left.
  - intros [p n] Hp Hp'. apply list_elem_of_fmap in Hp as (q & [= -> ->] & Hq).
    apply list_elem_of_join in Hp' as (m & Hm & Hj).
    apply list_elem_of_fmap in Hj as (j & -> & Hj).
    apply list_elem_of_fmap in Hm as (q' & [= <- _] & Hq').
    assert (j = k) as ->; [|done]. eapply fl_elem_unique; [done| | |done|done]; apply Hr.
    + by left.
    + by right.
  - apply IH. intros j Hj. apply Hr. by right.
Qed.

Lemma total_bound s e : zone_inv s e → 0 ≤ total s ≤ size (zn s).
Proof.
  intros Hi. split.
  - apply zsum_nonneg, Forall_fmap, Forall_forall. intros k Hk%elem_of_seqZ. simpl.
    pose proof (pow2_pos k ltac:(lia)). nia.
  - rewrite <- blocks_sum. apply (disjoint_intervals_le _ (zbase s)).
    + apply (zi_size s e Hi).
    + intros p n (k & Hk & -> & Hp)%elem_of_blocks.
      destruct (zi_block s e Hi k p Hk Hp) as (? & ? & _). unfold zend in *. fold (zbase s) in *.
      pose proof (pow2_pos k ltac:(lia)). lia.
    + by eapply blocks_nodup.
    + intros p n q m i (k & Hk & -> & Hp)%elem_of_blocks (j & Hj & -> & Hq)%elem_of_blocks H1 H2.
      destruct (zi_disj s e Hi k p j q i) as [-> ->]; done.
Qed.

Lemma free_pages_exact s : zone_inv s 0 → free_pages (zn s) = total s.
Proof.
  intros Hi. rewrite (zi_total s 0 Hi), Z.add_0_r. pose proof (total_bound s 0 Hi).
  pose proof (zi_size s 0 Hi). apply u32_small. lia.
Qed.

(** ** Initialisation *)

(** A page [bootmm.c] describes: no block starts at it, and if it is marked free
    nobody holds or reserves it. *)
Definition boot_page (pg : page) : Prop :=
  order pg = -1 ∧
  (has_flag (flags pg) _pg_free = true → nref pg = 0 ∧ has_flag (flags pg) _pg_reserved = false).

Definition boot_pages (s : zstate) : Prop :=
  ∀ i, zbase s ≤ i < zend s → ∃ pg, pages s !! i = Some pg ∧ boot_page pg.

Definition marked_free (s : zstate) (i : Z) : Prop :=
  ∃ pg, pages s !! i = Some pg ∧ has_flag (flags pg) _pg_free = true.

Record empty_zone (s : zstate) : Prop := {
  ez_areas : free_area (zn s) = replicate 11 (mk_area [] 0);
  ez_size : 0 ≤ size (zn s) ≤ 2 ^ 30;
  ez_base : 0 ≤ zbase s ∧ (2 ^ 10 | zbase s) ∧ zend s ≤ max_pfn s;
  ez_free : free_pages (zn s) = 0;
}.

Lemma empty_fl s k : empty_zone s → 0 ≤ k < MAXORDER → fl s k = [] ∧ nf s k = 0.
Proof.
  intros He Hk. unfold fl, nf. rewrite (ez_areas s He), lookup_replicate_2; [done|].
  unfold MAXORDER in *. lia.
Qed.

Lemma empty_zone_inv s : empty_zone s → boot_pages s → zone_inv s 0.
Proof.
  intros He Hb. pose proof (λ k, empty_fl s k He) as Hfl.
  assert (Hno : ∀ k p, 0 ≤ k < MAXORDER → p ∉ fl s k).
  { intros k p Hk. rewrite (proj1 (Hfl k Hk)). apply not_elem_of_nil. }
  split.
  - by rewrite (ez_areas s He).
  - apply He.
  - apply He.
  - intros i Hi. destruct (Hb i Hi) as (? & ? & _). eauto.
  - intros k p Hk Hp. by destruct (Hno k p Hk).
  - intros k Hk. rewrite (proj1 (Hfl k Hk)). constructor.
  - intros k p j q i Hk Hj Hp. by destruct (Hno k p Hk).
  - intros i pg k Hi Hpg Hk. destruct (Hb i Hi) as (pg' & ? & Ho & _). simplify_eq.
    split; [lia|]. by intros ?%Hno.
  - intros i pg Hi Hpg. destruct (Hb i Hi) as (pg' & ? & Ho & _). simplify_eq.
    unfold MAXORDER. lia.
  - intros i (k & p & Hk & Hp & _). by destruct (Hno k p Hk).
  - intros k Hk. by destruct (Hfl k Hk) as [-> ->].
  - rewrite (ez_free s He), Z.add_0_r. assert (total s = 0) as ->; [|done].
    rewrite <- blocks_sum. destruct (blocks s) as [|[p n] l] eqn:E; [done|exfalso].
    assert (Hin : (p, n) ∈ blocks s) by (rewrite E; left).
    apply elem_of_blocks in Hin as (k & Hk & _ & Hp). by destruct (Hno k p Hk).
  - intros k p Hk Hp. by destruct (Hno k p ltac:(lia)).
Qed.

Lemma only_orders_page s s' i pg :
  only_orders s s' → pages s !! i = Some pg →
  ∃ pg', pages s' !! i = Some pg' ∧ nref pg' = nref pg ∧ flags pg' = flags pg.
Proof.
  intros Ho Hpg. pose proof (oo_pages _ _ Ho i) as H. rewrite Hpg in H.
  destruct (pages s' !! i) as [pg'|]; [|done]. injection H as. eauto.
Qed.

Lemma only_orders_ready s s' i : only_orders s s' → ready s i → ready s' i.
Proof.
  intros Ho (pg & Hpg & ? & ?).
  destruct (only_orders_page s s' i pg Ho Hpg) as (pg' & ? & ? & ?).
  exists pg'. split_and!; congruence.
Qed.

Lemma only_orders_shape s s' :
  only_orders s s' → zbase s' = zbase s ∧ zend s' = zend s ∧
    zone_mempage (zn s') = zone_mempage (zn s).
Proof. intros [[] _ _]. unfold zbase, zend. split_and!; congruence. Qed.

(** [i] pages have been visited: those marked free among them are free. *)
Record visited (s0 s : zstate) (i : Z) : Prop := {
  vi_inv : zone_inv s 0;
  vi_only : only_orders s0 s;
  vi_free : ∀ j, free_page s j ↔ zbase s0 ≤ j < zbase s0 + i ∧ marked_free s0 j;
}.

Lemma visited_step s0 s i :
  boot_pages s0 → 0 ≤ i → zbase s0 + i < zend s0 → visited s0 s i →
  ∃ s', (pg ← get_page (zbase s0 + i);
         if (order pg =? -1) && has_flag (flags pg) _pg_free
         then free_buddy (zbase s0 + i) 0 else mret tt) s = Ok (tt, s') ∧
    visited s0 s' (i + 1).
Proof.
  intros Hb Hi Hlt [Hinv Hoo Hf]. set (p := zbase s0 + i) in *.
  destruct (Hb p ltac:(lia)) as (pg0 & Hpg0 & Hord & Hrdy).
  destruct (only_orders_page s0 s p pg0 Hoo Hpg0) as (pg & Hpg & Hn & Hfl).
  destruct (only_orders_shape s0 s Hoo) as (Eb & Ee & _).
  rewrite (bind_Ok _ _ _ _ _ (get_page_ok _ _ _ Hpg)).
  assert (Hnf : ¬ free_page s p) by (intros [? _]%Hf; lia).
  assert (Hno : order pg = -1).
  { pose proof (zi_orange s 0 Hinv p pg ltac:(lia) Hpg) as Hr.
    destruct (decide (order pg = -1)) as [|Hne]; [done|exfalso]. apply Hnf.
    exists (order pg), p. split_and!; [lia|lia| |apply blk_start; lia].
    apply (zi_order s 0 Hinv p pg); [lia|done|lia|done]. }
  rewrite Hno, Hfl. change (-1 =? -1) with true. cbn [andb].
  assert (Hmark : marked_free s0 p ↔ has_flag (flags pg0) _pg_free = true).
  { unfold marked_free. rewrite Hpg0. naive_solver. }
  assert (Hone : ∀ j, in_blk p 0 j ↔ j = p) by (unfold in_blk; intros; simpl; lia).
  destruct (has_flag (flags pg0) _pg_free) eqn:Efl.
  - destruct (free_buddy_ok s p 0 Hinv) as (s' & Hrun & Hinv' & Hoo' & Hf').
    { unfold MAXORDER. lia. }
    { split.
      - split_and!; [lia|simpl; lia|apply Z.divide_1_l].
      - intros j ->%Hone. done.
      - intros j ->%Hone. exists pg. rewrite Hn, Hfl. by destruct (Hrdy eq_refl). }
    exists s'. split; [done|]. split; [done|by etrans|].
    intros j. rewrite Hf', Hf, Hone. destruct (decide (j = p)) as [->|]; [|naive_solver lia].
    split; [|tauto]. intros _. split; [lia|]. by apply Hmark.
  - exists s. split; [done|]. split; [done..|]. intros j. rewrite Hf.
    destruct (decide (j = p)) as [->|]; [|naive_solver lia].
    split; [lia|]. intros [_ Hm%Hmark]. done.
Qed.

Lemma free_area_init_loop_ok s0 n : ∀ s i,
  boot_pages s0 → 0 ≤ i → zbase s0 + i + Z.of_nat n = zend s0 → visited s0 s i →
  ∃ s', free_area_init_loop n i s = Ok (tt, s') ∧ visited s0 s' (i + Z.of_nat n).
Proof.
  induction n as [|n IH]; intros s i Hb Hi Hend Hv.
  { exists s. split; [done|]. by rewrite Z.add_0_r. }
  destruct (visited_step s0 s i Hb Hi ltac:(lia) Hv) as (s1 & Hrun & Hv1).
  destruct (IH s1 (i + 1)) as (s2 & Hrun2 & Hv2); [done|lia|lia|done|].
  exists s2. replace (i + Z.of_nat (S n)) with (i + 1 + Z.of_nat n) by lia. split; [|done].
  cbn [free_area_init_loop]. run_step. cbv zeta.
  destruct (only_orders_shape s0 s (vi_only _ _ _ Hv)) as (_ & _ & ->). fold (zbase s0).
  rewrite <- Hrun2. rewrite <- (bind_Ok _ (λ _, free_area_init_loop n (i + 1)) _ _ _ Hrun).
  by rewrite bind_assoc.
Qed.

Lemma free_area_init_ok s :
  empty_zone s → boot_pages s →
  ∃ s', free_area_init s = Ok (tt, s') ∧ zone_inv s' 0 ∧ only_orders s s' ∧
    (∀ i, free_page s' i ↔ zbase s ≤ i < zend s ∧ marked_free s i).
Proof.
  intros He Hb.
  destruct (free_area_init_loop_ok s (Z.to_nat (size (zn s))) s 0) as (s' & Hrun & [H1 H2 H3]).
  - done.
  - lia.
  - unfold zend. fold (zbase s). destruct (ez_size s He). lia.
  - split; [by apply empty_zone_inv|done|]. intros j. split; [|lia].
    intros (k & p & Hk & Hp & _). rewrite (proj1 (empty_fl s k He Hk)) in Hp.
    by apply elem_of_nil in Hp.
  - exists s'. split_and!; [|done|done|].
    + rewrite <- Hrun. unfold free_area_init, set_areas, upd_zone. run_step. run_step.
      cbn [zn size free_area]. destruct s as [[fp zm sz fa] pg mx]. simpl.
      pose proof (ez_areas _ He) as E. simpl in E. by rewrite E.
    + intros i. rewrite H3. unfold zend. fold (zbase s).
      destruct (ez_size s He). by rewrite Z2Nat.id by lia.
Qed.

(** What [zone_inv] says about a zone depends on the pages of the zone only. *)
Lemma zone_inv_pages s s' e :
  zn s' = zn s → max_pfn s' = max_pfn s →
  (∀ i, zbase s ≤ i < zend s → pages s' !! i = pages s !! i) →
  zone_inv s e → zone_inv s' e.
Proof.
  destruct s as [z pgs m], s' as [z' pgs' m']; simpl. intros -> -> Hpg Hi.
  pose proof Hi as []. split; try done.
  - intros i Hr. rewrite Hpg by done. by apply zi_pages0.
  - intros i pg k Hr Hl. apply zi_order0; [done|]. by rewrite <- Hpg.
  - intros i pg Hr Hl. apply (zi_orange0 i); [done|]. by rewrite <- Hpg.
  - intros i Hf. destruct (zi_ready0 i Hf) as (pg & Hl & ?). exists pg. rewrite Hpg; [done|].
    destruct Hf as (k & p & Hk & Hp & Hb). destruct (zi_block0 k p Hk Hp) as (? & ? & _).
    unfold in_blk in Hb. lia.
Qed.

Lemma zone_bss_empty base n mx pgs :
  0 ≤ n ≤ 2 ^ 30 → 0 ≤ base → (2 ^ 10 | base) → base + n ≤ mx →
  empty_zone (mk_zstate (zone_bss base n) pgs mx).
Proof. intros. by split. Qed.

(** [zone_init] turns the boot-time page descriptors (every order -1; a page marked
    [_pg_free] has no reference and is not reserved) into a normal and a high zone
    that satisfy the invariant over the same page array and whose free pages are
    exactly the pages marked free in their range. *)
Lemma zone_init_ok normal_maxpfn mx pgs :
  0 ≤ normal_maxpfn ≤ mx → mx ≤ 2 ^ 30 →
  (normal_maxpfn ≠ mx → (2 ^ 10 | normal_maxpfn)) →
  (∀ i, 0 ≤ i < mx → ∃ pg, pgs !! i = Some pg ∧ boot_page pg) →
  ∃ zone_normal zone_high pgs',
    zone_init normal_maxpfn mx pgs = Ok (zone_normal, zone_high, pgs') ∧
    zone_mempage zone_normal = 0 ∧ size zone_normal = normal_maxpfn ∧
    zone_inv (mk_zstate zone_normal pgs' mx) 0 ∧ zone_inv (mk_zstate zone_high pgs' mx) 0 ∧
    (∀ i, free_page (mk_zstate zone_normal pgs' mx) i ↔
       0 ≤ i < normal_maxpfn ∧ marked_free (mk_zstate zone_normal pgs mx) i) ∧
    (∀ i, free_page (mk_zstate zone_high pgs' mx) i ↔
       normal_maxpfn ≤ i < mx ∧ marked_free (mk_zstate zone_high pgs mx) i).
Proof.
  intros Hn Hmx Hdiv Hpg. unfold zone_init. cbv zeta. rewrite (u32_small (mx - _)) by lia.
  set (base := if bool_decide (mx - normal_maxpfn ≠ 0) then normal_maxpfn else 0).
  assert (Hbase : base = normal_maxpfn ∧ mx ≠ normal_maxpfn ∨ base = 0 ∧ mx = normal_maxpfn).
  { unfold base. case_bool_decide; lia. }
  destruct (free_area_init_ok (mk_zstate (zone_bss 0 normal_maxpfn) pgs mx))
    as (s & Hrun & Hi & Hoo & Hf).
  { apply zone_bss_empty; [lia|lia|apply Z.divide_0_r|lia]. }
  { intros i Hi. apply Hpg. unfold zbase, zend in Hi. simpl in Hi. lia. }
  destruct s as [z pg1 mx1]. pose proof (ss_max _ _ (oo_shape _ _ Hoo)) as Emx.
  simpl in Emx. subst mx1.
  assert (Hout : ∀ i, ¬ 0 ≤ i < normal_maxpfn → pg1 !! i = pgs !! i).
  { intros i Hne. apply (oo_outside _ _ Hoo). by unfold zbase, zend. }
  destruct (free_area_init_ok (mk_zstate (zone_bss base (mx - normal_maxpfn)) pg1 mx))
    as (s' & Hrun' & Hi' & Hoo' & Hf').
  { apply zone_bss_empty; [lia|lia| |lia].
    destruct Hbase as [[-> ?]|[-> _]]; [by apply Hdiv|apply Z.divide_0_r]. }
  { intros i Hr. unfold zbase, zend in Hr. simpl in *. rewrite Hout by lia. apply Hpg. lia. }
  destruct s' as [z' pg2 mx2]. pose proof (ss_max _ _ (oo_shape _ _ Hoo')) as Emx.
  simpl in Emx. subst mx2.
  exists z, z', pg2. split_and!; [| | | |done| |].
  - unfold mbind, outcome_bind. rewrite Hrun. simpl. by rewrite Hrun'.
  - apply (ss_base _ _ (oo_shape _ _ Hoo)).
  - apply (ss_size _ _ (oo_shape _ _ Hoo)).
  - eapply zone_inv_pages; [| | |exact Hi]; [done|done|]. simpl. intros i Hr.
    destruct (only_orders_shape _ _ Hoo) as (Eb & Ee & _). rewrite Eb, Ee in Hr.
    apply (oo_outside _ _ Hoo'). unfold zbase, zend in *. simpl in *. lia.
  - intros i. rewrite <- (Hf i). done.
  - intros i. rewrite (Hf' i). unfold zbase, zend, marked_free. simpl.
    split; intros [Hr (pg & Hl & ?)]; (split; [lia|]); exists pg; split; try done.
    + by rewrite <- Hout by lia.
    + by rewrite Hout by lia.
Qed.

(** ** Clients of a zone

    A client allocates blocks and frees the blocks it holds, in any order. *)

Abbreviation held := (list (Z * Z)).

Inductive client_step : zstate * held → zstate * held → Prop :=
  | client_alloc s h ord r s' :
      0 ≤ ord < MAXORDER → alloc_buddy ord s = Ok (r, s') →
      client_step (s, h) (s', match r with Some p => (p, ord) :: h | None => h end)
  | client_free s h p k h' s' :
      h ≡ₚ (p, k) :: h' → free_buddy p k s = Ok (tt, s') → client_step (s, h) (s', h').

(** The pages a client holds, one entry per block and page. *)
Definition held_pages (h : held) : list Z := h ≫= λ b, seqZ b.1 (2 ^ b.2).

Lemma elem_of_held h i : i ∈ held_pages h ↔ ∃ p k, (p, k) ∈ h ∧ in_blk p k i.
Proof.
  unfold held_pages. rewrite list_elem_of_bind. split.
  - intros ([p k] & Hi & Hin). exists p, k. by apply elem_of_seqZ in Hi.
  - intros (p & k & Hin & Hi). exists (p, k). split; [|done]. by apply elem_of_seqZ.
Qed.

Lemma elem_of_held_cons p k h i : i ∈ held_pages ((p, k) :: h) ↔ in_blk p k i ∨ i ∈ held_pages h.
Proof. unfold held_pages. cbn [mbind list_bind]. by rewrite elem_of_app, elem_of_seqZ. Qed.

Record client_inv (s0 s : zstate) (h : held) : Prop := {
  ci_inv : zone_inv s 0;
  ci_only : only_orders s0 s;
  ci_holes : ∀ p k, (p, k) ∈ h → 0 ≤ k < MAXORDER ∧ hole s p k;
  ci_nodup : NoDup (held_pages h);
  ci_conserve : ∀ i, free_page s0 i ↔ free_page s i ∨ i ∈ held_pages h;
}.

#[global] Instance client_inv_proper s0 s : Proper ((≡ₚ) ==> impl) (client_inv s0 s).
Proof.
  intros h h' Hp []. assert (Hpp : held_pages h ≡ₚ held_pages h') by (by apply bind_Permutation).
  split; [done|done| | |].
  - intros p k Hin. apply ci_holes0. by rewrite Hp.
  - by rewrite <- Hpp.
  - intros i. rewrite ci_conserve0. by rewrite Hpp.
Qed.

Lemma hole_transfer s s' p k :
  only_orders s s' → (∀ i, in_blk p k i → ¬ free_page s' i) → hole s p k → hole s' p k.
Proof.
  intros Hoo Hf []. split.
  - by rewrite (same_shape_placed s s') by apply Hoo.
  - done.
  - intros i Hi. eapply only_orders_ready; [done|auto].
Qed.

Lemma client_alloc_inv s0 s h ord p s' :
  client_inv s0 s h → 0 ≤ ord < MAXORDER → zone_inv s' 0 → only_orders s s' →
  allocated s s' ord p → client_inv s0 s' ((p, ord) :: h).
Proof.
  intros [Hi Hoo Hh Hnd Hc] Ho Hi' Hoo' [Hhole Hwas Hf].
  assert (Hnew : ∀ i, in_blk p ord i → i ∉ held_pages h).
  { intros i Hb (q & j & Hq & Hb')%elem_of_held.
    destruct (Hh q j Hq) as [_ Hq']. apply (ho_busy s q j Hq' i Hb'). auto. }
  split; [done|by etrans| | |].
  - intros q j [[= -> ->]|Hq]%elem_of_cons; [done|]. destruct (Hh q j Hq) as [Hj Hq'].
    split; [done|]. eapply hole_transfer; [done| |done].
    intros i Hb [Hfree _]%Hf. by apply (ho_busy s q j Hq' i Hb).
  - unfold held_pages. cbn [mbind list_bind]. apply NoDup_app. split_and!; [apply NoDup_seqZ| |done].
    intros i Hb%elem_of_seqZ. by apply Hnew.
  - intros i. rewrite Hc, Hf, elem_of_held_cons.
    destruct (decide (in_blk p ord i)) as [Hb|Hb]; [|tauto]. specialize (Hwas i Hb). tauto.
Qed.

Lemma client_free_inv s0 s p k h s' :
  client_inv s0 s ((p, k) :: h) → free_buddy p k s = Ok (tt, s') → client_inv s0 s' h.
Proof.
  intros [Hi Hoo Hh Hnd Hc] Hrun. destruct (Hh p k) as [Hk Hhole]; [by left|].
  destruct (free_buddy_ok s p k Hi Hk Hhole) as (s'' & Hrun' & Hi' & Hoo' & Hf).
  rewrite Hrun in Hrun'. injection Hrun' as ->.
  unfold held_pages in Hnd. cbn [mbind list_bind] in Hnd.
  apply NoDup_app in Hnd as (_ & Hdis & Hnd).
  split; [done|by etrans| |done|].
  - intros q j Hq. destruct (Hh q j) as [Hj Hq']; [by right|]. split; [done|].
    eapply hole_transfer; [done| |done]. intros i Hb [Hfree|Hb']%Hf.
    + by apply (ho_busy s q j Hq' i Hb).
    + apply (Hdis i); [by apply elem_of_seqZ|]. apply elem_of_held. by exists q, j.
  - intros i. rewrite Hc, Hf, elem_of_held_cons. tauto.
Qed.

Lemma client_step_inv s0 c c' :
  client_inv s0 c.1 c.2 → client_step c c' → client_inv s0 c'.1 c'.2.
Proof.
  intros Hc Hst. destruct Hst as [s h ord r s' Ho Hrun|s h p k h' s' Hp Hrun]; simpl in *.
  - destruct (alloc_buddy_ok s ord (ci_inv _ _ _ Hc) Ho) as (r' & s'' & Hrun' & Hi' & Hoo' & Hr).
    rewrite Hrun in Hrun'. injection Hrun' as -> ->. destruct r' as [p|].
    + by eapply client_alloc_inv.
    + by destruct Hr as [-> _].
  - rewrite Hp in Hc. by eapply client_free_inv.
Qed.

Lemma client_start s0 : zone_inv s0 0 → client_inv s0 s0 [].
Proof.
  intros Hi. split; [done|done| |constructor|].
  - intros p k Hin. by apply elem_of_nil in Hin.
  - intros i. split; [by left|]. intros [?|Hin]; [done|]. by apply elem_of_nil in Hin.
Qed.

Lemma client_reach s0 c : zone_inv s0 0 → rtc client_step (s0, []) c → client_inv s0 c.1 c.2.
Proof.
  intros Hi. apply (rtc_ind_r (λ c, client_inv s0 c.1 c.2) (s0, [])).
  - by apply client_start.
  - intros c1 c2 _ Hst Hc. by eapply client_step_inv.
Qed.

(** ** The properties *)

(** A small machine: five frames, the last one reserved, after [free_area_init]. *)
Definition demo_page (i : Z) : page :=
  if bool_decide (i = 4) then mk_page 1 _pg_reserved (-1) 0 0 0 else mk_page 0 _pg_free (-1) 0 0 0.

Definition demo_pages : gmap Z page :=
  list_to_map ((λ i, (i, demo_page i)) <$> [0; 1; 2; 3; 4]).

Definition demo_boot : zstate := mk_zstate (zone_bss 0 5) demo_pages 5.

Definition demo_zone : zstate :=
  match free_area_init demo_boot with Ok (_, s) => s | Stop _ => demo_boot end.

Lemma demo_lookup i : 0 ≤ i < 5 → ∃ pg, demo_pages !! i = Some pg ∧ boot_page pg.
Proof.
  intros Hi. assert (i = 0 ∨ i = 1 ∨ i = 2 ∨ i = 3 ∨ i = 4) as Hc by lia.
  destruct Hc as [->|[->|[->|[->| ->]]]]; (eexists; split; [reflexivity|]); by split.
Qed.

Lemma demo_zone_inv : zone_inv demo_zone 0.
Proof.
  destruct (free_area_init_ok demo_boot) as (s & Hrun & Hi & _).
  - by apply zone_bss_empty; [lia|lia|apply Z.divide_0_r|].
  - intros i Hi. by apply demo_lookup.
  - unfold demo_zone. by rewrite Hrun.
Qed.

Lemma demo_zone_lists :
  (λ k, fl demo_zone k) <$> [0; 1; 2; 3] = [[]; []; [0]; []] ∧ free_pages (zn demo_zone) = 4.
Proof. by vm_compute. Qed.

(** C28: in a zone that satisfies the invariant, [alloc_buddy] of an order below
    [MAXORDER] always returns, keeps the invariant and changes nothing but the
    zone's lists and counters and page orders.  If it returns a page, the
    aligned block of [2^order] pages there was entirely free and its pages, and
    only they, are free no longer; it returns NULL exactly when no aligned run of
    [2^order] free pages is left in the zone. *)
Theorem alloc_buddy_correct (s : zstate) (ord : Z) :
  zone_inv s 0 → 0 ≤ ord < MAXORDER →
  ∃ r s', alloc_buddy ord s = Ok (r, s') ∧ zone_inv s' 0 ∧ only_orders s s' ∧
    match r with
    | Some p =>
        placed s p ord ∧ (∀ i, in_blk p ord i → free_page s i ∧ ready s' i) ∧
        (∀ i, free_page s' i ↔ free_page s i ∧ ¬ in_blk p ord i)
    | None =>
        s' = s ∧ ∀ p, placed s p ord → ∃ i, in_blk p ord i ∧ ¬ free_page s i
    end.
Proof.
  intros Hi Ho. destruct (alloc_buddy_ok s ord Hi Ho) as (r & s' & Hrun & Hi' & Hoo & Hr).
  exists r, s'. split_and!; [done..|]. destruct r as [p|].
  - destruct Hr as [[Hp _ Hrd] Hwas Hf]. split_and!; [|by auto|done].
    by rewrite <- (same_shape_placed s s') by apply Hoo.
  - destruct Hr as [-> Hem]. split; [done|]. intros p Hp. by eapply no_free_run.
Qed.

Lemma alloc_buddy_correct_witness :
  ∃ s' : zstate, alloc_buddy 1 demo_zone = Ok (Some 0, s') ∧ zone_inv s' 0 ∧ fl s' 1 = [2].
Proof.
  destruct (alloc_buddy_correct demo_zone 1 demo_zone_inv) as (r & s' & Hrun & Hi & _);
    [unfold MAXORDER; lia|].
  revert Hi. assert (E : alloc_buddy 1 demo_zone = Ok (r, s')) by exact Hrun.
  vm_compute in Hrun. injection Hrun as <- <-. intros Hi.
  eexists. split_and!; [vm_compute; reflexivity|exact Hi|by vm_compute].
Defined.

(** C29: freeing a block whose pages nobody uses ([hole]: aligned, inside the zone,
    none of its pages free, referenced or reserved) always returns, keeps the
    invariant (so the block has been merged with every free buddy), and makes
    exactly the pages of the block free. *)
Theorem free_buddy_correct (s : zstate) (p k : Z) :
  zone_inv s 0 → 0 ≤ k < MAXORDER → hole s p k →
  ∃ s', free_buddy p k s = Ok (tt, s') ∧ zone_inv s' 0 ∧ only_orders s s' ∧
    (∀ i, free_page s' i ↔ free_page s i ∨ in_blk p k i).
Proof. apply free_buddy_ok. Qed.

(** The zone after the block [0, 2) has been taken. *)
Definition demo_taken : zstate :=
  match alloc_buddy 1 demo_zone with Ok (_, s) => s | Stop _ => demo_zone end.

Lemma demo_taken_ok : zone_inv demo_taken 0 ∧ hole demo_taken 0 1.
Proof.
  destruct (alloc_buddy_ok demo_zone 1 demo_zone_inv) as (r & s & Hrun & Hi & _ & Hr);
    [unfold MAXORDER; lia|].
  unfold demo_taken. rewrite Hrun. split; [done|].
  assert (r = Some 0) as ->; [|by destruct Hr].
  vm_compute in Hrun. by injection Hrun.
Qed.

Lemma free_buddy_correct_witness :
  ∃ s' : zstate, free_buddy 0 1 demo_taken = Ok (tt, s') ∧ zone_inv s' 0 ∧ free_page s' 1.
Proof.
  destruct (free_buddy_correct demo_taken 0 1) as (s' & Hrun & Hi & _ & Hf).
  - apply demo_taken_ok.
  - unfold MAXORDER. lia.
  - apply demo_taken_ok.
  - exists s'. split_and!; [exact Hrun|exact Hi|]. apply Hf. right. unfold in_blk. simpl. lia.
Defined.

(** C6: whatever sequence of allocations and frees of held blocks a client runs
    from a zone that satisfies the invariant, the zone keeps it, no page is held
    twice, held pages are not free, and the pages free at the start are exactly
    those free now or held: pages are neither lost, duplicated nor invented. *)
Theorem buddy_no_double_allocation (s0 s : zstate) (h : held) :
  zone_inv s0 0 → rtc client_step (s0, []) (s, h) →
  zone_inv s 0 ∧ NoDup (held_pages h) ∧
  (∀ i, i ∈ held_pages h → ¬ free_page s i) ∧
  (∀ i, free_page s0 i ↔ free_page s i ∨ i ∈ held_pages h).
Proof.
  intros Hi Hr. destruct (client_reach s0 (s, h) Hi Hr) as [H1 _ H2 H3 H4].
  split_and!; [done|done| |done]. intros i (p & k & Hin & Hb)%elem_of_held.
  destruct (H2 p k Hin) as [_ Hh]. by apply (ho_busy s p k Hh).
Qed.

Lemma buddy_no_double_allocation_witness :
  rtc client_step (demo_zone, []) (demo_taken, [(0, 1)]) ∧
  NoDup (held_pages [(0, 1)]) ∧ ¬ free_page demo_taken 0.
Proof.
  assert (Hr : rtc client_step (demo_zone, []) (demo_taken, [(0, 1)])).
  { apply rtc_once. apply (client_alloc demo_zone [] 1 (Some 0) demo_taken).
    - unfold MAXORDER. lia.
    - by vm_compute. }
  destruct (buddy_no_double_allocation demo_zone demo_taken [(0, 1)] demo_zone_inv Hr)
    as (_ & Hnd & Hf & _).
  split_and!; [exact Hr|exact Hnd|]. apply Hf. apply elem_of_held. exists 0, 1.
  split; [by left|]. unfold in_blk. simpl. lia.
Defined.

(** No step of a client can fault or panic: from every reachable state an
    allocation of any order below [MAXORDER] and a free of any held block run to
    the end. *)
Theorem buddy_client_progress (s0 s : zstate) (h : held) :
  zone_inv s0 0 → rtc client_step (s0, []) (s, h) →
  (∀ ord, 0 ≤ ord < MAXORDER → ∃ r s', alloc_buddy ord s = Ok (r, s')) ∧
  (∀ p k, (p, k) ∈ h → ∃ s', free_buddy p k s = Ok (tt, s')).
Proof.
  intros Hi Hr. destruct (client_reach s0 (s, h) Hi Hr) as [H1 _ H2 _ _]. split.
  - intros ord Ho. destruct (alloc_buddy_ok s ord H1 Ho) as (r & s' & ? & _). eauto.
  - intros p k Hin. destruct (H2 p k Hin) as [Hk Hh].
    destruct (free_buddy_ok s p k H1 Hk Hh) as (s' & ? & _). eauto.
Qed.

Lemma buddy_client_progress_witness : ∃ r s', alloc_buddy 10 demo_zone = Ok (r, s').
Proof.
  apply (buddy_client_progress demo_zone demo_zone [] demo_zone_inv (rtc_refl _ _)).
  unfold MAXORDER. lia.
Defined.

(** The counters are exact: between operations [free_pages] is the number of
    pages on the free lists, never more than the zone has, so the 32-bit counter
    never wraps, and each [nfree] is the length of its list. *)
Theorem buddy_counters_exact (s : zstate) :
  zone_inv s 0 →
  free_pages (zn s) = zsum ((λ k, 2 ^ k * Z.of_nat (length (fl s k))) <$> seqZ 0 MAXORDER) ∧
  0 ≤ free_pages (zn s) ≤ size (zn s) ∧
  (∀ k, 0 ≤ k < MAXORDER → nf s k = Z.of_nat (length (fl s k))).
Proof.
  intros Hi. pose proof (free_pages_exact s Hi) as Hf. pose proof (total_bound s 0 Hi) as Hb.
  split_and!; [done|lia|lia|]. intros k Hk. rewrite (zi_nfree s 0 Hi k Hk). apply u32_small.
  pose proof (zi_size s 0 Hi). pose proof (pow2_pos k ltac:(lia)).
  assert (2 ^ k * Z.of_nat (length (fl s k)) ≤ total s); [|nia].
  unfold total. generalize (order_range k Hk). intros Hin.
  apply (zsum_le_elem (λ k, 2 ^ k * Z.of_nat (length (fl s k)))); [done|].
  intros j Hj%elem_of_seqZ. pose proof (pow2_pos j ltac:(lia)). nia.
Qed.

Lemma buddy_counters_exact_witness : free_pages (zn demo_taken) = 2 ∧ nf demo_taken 1 = 1.
Proof.
  destruct (buddy_counters_exact demo_taken (proj1 demo_taken_ok)) as (E & _ & Hn).
  split; [rewrite E; by vm_compute|]. rewrite (Hn 1) by (unfold MAXORDER; lia). by vm_compute.
Defined.
