(* ===== verification/Paging.v ===== *)
(** * Page frames and page tables: kernel/mm/page.c, include/mm/pages.h

    Physical memory below NORMAL_ADDR is mapped at KERNEL_BASE_ADDR, so that the
    kernel reads and writes table entries through that window.  [mem] holds the
    contents of the frames as 512 words of 64 bits; a [pte_t *] is the virtual
    address of a word.  The TLB is not modelled beyond the log of the addresses
    flushed. *)

From S2P Require Import Prelude Layout Buddy.

Local Open Scope Z_scope.

(** The state of kernel/mm: the two zones, [mempage] and memory. *)
Record mstate := mk_mstate {
  zone_normal : zone_struct;
  zone_high : zone_struct;
  mempage : gmap Z page;
  m_max_pfn : Z;
  mem : gmap Z (list Z);
  tlb : list Z;
}.

Definition zone_view (high : bool) (s : mstate) : zstate :=
  mk_zstate (if high then zone_high s else zone_normal s) (mempage s) (m_max_pfn s).

Definition put_zone (high : bool) (s : mstate) (z : zstate) : mstate :=
  mk_mstate (if high then zone_normal s else zn z) (if high then zn z else zone_high s)
    (pages z) (m_max_pfn s) (mem s) (tlb s).

(** Run code of zone.c on one of the zones. *)
Definition in_zone {A} (high : bool) (m : M zstate A) : M mstate A := λ s,
  match m (zone_view high s) with
  | Ok (a, z) => Ok (a, put_zone high s z)
  | Stop w => Stop w
  end.

Definition upd_page (p : Z) (f : page → page) : M mstate unit :=
  s ← get;
  pg ← of_option (mempage s !! p);
  put (mk_mstate (zone_normal s) (zone_high s) (<[p := f pg]> (mempage s)) (m_max_pfn s)
         (mem s) (tlb s)).

Definition set_mem (f : gmap Z (list Z) → gmap Z (list Z)) : M mstate unit :=
  modify (λ s, mk_mstate (zone_normal s) (zone_high s) (mempage s) (m_max_pfn s)
                 (f (mem s)) (tlb s)).

(** ** Words of memory through the kernel window *)

Definition frame_of (va : Z) : Z := (va - KERNEL_BASE_ADDR) / PAGE_SIZE.
Definition word_of (va : Z) : nat := Z.to_nat ((va - KERNEL_BASE_ADDR) mod PAGE_SIZE / 8).

Definition load64 (va : Z) : M mstate Z :=
  s ← get; of_option (l ← mem s !! frame_of va; l !! word_of va).

Definition store64 (va v : Z) : M mstate unit :=
  load64 va ;; set_mem (alter (<[word_of va := v]>) (frame_of va)).

Definition zero_page : list Z := replicate 512 0.
Arguments zero_page : simpl never.

(** [memset] of the frames of a block to 0. *)
Definition zero_frames (p n : Z) (m : gmap Z (list Z)) : gmap Z (list Z) :=
  foldr (λ f m, <[f := zero_page]> m) m (seqZ p n).

(** ** Reference counts: include/asm/atomic.h *)

Definition atomic_inc_nref (p : Z) : M mstate unit :=
  upd_page p (λ pg, set_nref (i32 (nref pg + 1)) pg).

Definition atomic_dec_and_test_nref (p : Z) : M mstate bool :=
  upd_page p (λ pg, set_nref (i32 (nref pg - 1)) pg) ;;
  s ← get;
  pg ← of_option (mempage s !! p);
  mret (bool_decide (nref pg = 0)).

(** ** Table entries: include/mm/pages.h *)

Definition PAGE_MASK : Z := 2 ^ 64 - PAGE_SIZE.

Definition pgd_index (address : Z) : Z := Z.land (Z.shiftr address PGDIR_SHIFT) (PTRS_PER_PGD - 1).
Definition pmd_index (address : Z) : Z := Z.land (Z.shiftr address PMD_SHIFT) (PTRS_PER_PMD - 1).
Definition pte_index (address : Z) : Z := Z.land (Z.shiftr address PAGE_SHIFT) (PTRS_PER_PTE - 1).

Definition pgd_none (e : Z) : bool := e =? 0.
Definition pmd_none (e : Z) : bool := e =? 0.
Definition pte_none (e : Z) : bool := e =? 0.
Definition pte_present (e : Z) : bool := has_flag e _PAGE_PRESENT.
Definition pte_write (e : Z) : bool := has_flag e _PAGE_RW.

Definition pte_clearwrite (pte : Z) : M mstate unit :=
  e ← load64 pte; store64 pte (Z.land e (Z.lnot _PAGE_RW)).

Definition pte_mkwrite (pte : Z) : M mstate unit :=
  e ← load64 pte; store64 pte (Z.lor e _PAGE_RW).

(** [pgd_page_vaddr], [pmd_page_vaddr] and [pte_page_vaddr] are the same code. *)
Definition entry_page_vaddr (e : Z) : outcome Z := phys_to_virt (Z.land e PAGE_MASK).

(** [pgd_set], [pmd_set] and [pte_set] too. *)
Definition entry_set (pte pa perm : Z) : M mstate unit :=
  if bool_decide (pte = 0) then panic
  else if bool_decide (Z.land pa PAGE_MASK ≠ pa) then panic
  else if bool_decide (Z.land perm 0xFFF ≠ perm) then panic
  else store64 pte (Z.lor pa perm).

Definition pgd_offset (pgd address : Z) : Z := u32 (pgd + 8 * pgd_index address).

Definition pmd_offset (pgd address : Z) : M mstate Z :=
  e ← load64 pgd;
  va ← lift (entry_page_vaddr e);
  mret (u32 (va + 8 * pmd_index address)).

Definition pte_offset (pmd address : Z) : M mstate Z :=
  assert (bool_decide (address ≠ 0)) ;;
  e ← load64 pmd;
  va ← lift (entry_page_vaddr e);
  mret (u32 (va + 8 * pte_index address)).

(** ** Allocation of frames: kernel/mm/page.c *)

Definition _pages_alloc (high : bool) (flage order : Z) : M mstate (option Z) :=
  if has_flag flage _GFP_ZERO && has_flag flage _GFP_HIGH then panic
  else
    page ← in_zone high (alloc_buddy (u8 order));
    match page with
    | None => mret None
    | Some p =>
        (if has_flag flage _GFP_ZERO then
           s ← get;
           lift (page2virt (m_max_pfn s) p) ;;
           set_mem (zero_frames p (2 ^ order))
         else mret tt) ;;
        mret (Some p)
    end.

Definition pages_alloc (flage order : Z) : M mstate (option Z) :=
  assert (bool_decide (order ≤ MAXORDER)) ;;
  if has_flag flage _GFP_ZERO && has_flag flage _GFP_HIGH then mret None
  else if has_flag flage _GFP_HIGH then _pages_alloc true flage order
  else _pages_alloc false flage order.

Definition page_alloc (flage : Z) : M mstate (option Z) := pages_alloc flage 0.

Definition pages_free (page order : Z) : M mstate unit :=
  assert (bool_decide (order ≤ MAXORDER)) ;;
  s ← get;
  pa ← lift (page2phys (m_max_pfn s) page);
  if bool_decide (pa < NORMAL_ADDR) then in_zone false (free_buddy page order)
  else in_zone true (free_buddy page order).

Definition page_free (page : Z) : M mstate unit := pages_free page 0.

Definition page_decref (page : Z) : M mstate unit :=
  z ← atomic_dec_and_test_nref page;
  if (z : bool) then page_free page else mret tt.

Definition refresh_tlb (va : Z) : M mstate unit :=
  modify (λ s, mk_mstate (zone_normal s) (zone_high s) (mempage s) (m_max_pfn s)
                 (mem s) (va :: tlb s)).

(** ** Walking the tables *)

Definition get_pmd (pgd perm : Z) : M mstate bool :=
  page ← pages_alloc _GFP_ZERO 0;
  match page with
  | None => mret false
  | Some p =>
      atomic_inc_nref p ;;
      s ← get;
      pa ← lift (page2phys (m_max_pfn s) p);
      let pe := Z.land perm (Z.lnot (Z.lor _PAGE_RW _PAGE_USER)) in
      entry_set pgd pa pe ;;
      mret true
  end.

Definition get_pte (pmd perm : Z) : M mstate bool :=
  page ← pages_alloc _GFP_ZERO 0;
  match page with
  | None => mret false
  | Some p =>
      atomic_inc_nref p ;;
      s ← get;
      pa ← lift (page2phys (m_max_pfn s) p);
      entry_set pmd pa perm ;;
      mret true
  end.

Definition TABLE_PERM : Z := Z.lor (Z.lor _PAGE_PRESENT _PAGE_RW) _PAGE_USER.

(** The half of the walk below the page directory entry [pgd]. *)
Definition page_walk_pmd (pgd address : Z) (create : bool) : M mstate (option Z) :=
  pmd ← pmd_offset pgd address;
  e ← load64 pmd;
  if pmd_none e then
    if negb create then mret None
    else
      ok ← get_pte pmd TABLE_PERM;
      if negb (ok : bool) then mret None
      else
        pmd ← pmd_offset pgd address;
        pte ← pte_offset pmd address;
        mret (Some pte)
  else
    pte ← pte_offset pmd address;
    mret (Some pte).

Definition page_walk (pgdp address : Z) (create : bool) : M mstate (option Z) :=
  let pgd := pgd_offset pgdp address in
  e ← load64 pgd;
  if pgd_none e then
    if negb create then mret None
    else
      ok ← get_pmd pgd TABLE_PERM;
      if negb (ok : bool) then mret None
      else page_walk_pmd (pgd_offset pgdp address) address create
  else page_walk_pmd pgd address create.

(** [page_lookup] gives the page and the address of its entry. *)
Definition page_lookup (pgd va : Z) : M mstate (option (Z * Z)) :=
  assert (bool_decide (pgd ≠ 0)) ;;
  assert (bool_decide (va ≠ 0)) ;;
  r ← page_walk pgd va false;
  match r with
  | None => mret None
  | Some pte =>
      e ← load64 pte;
      if negb (pte_present e) then mret None
      else
        v ← lift (entry_page_vaddr e);
        s ← get;
        page ← lift (virt2page (m_max_pfn s) v);
        mret (Some (page, pte))
  end.

Definition page_remove (pgd va : Z) : M mstate unit :=
  assert (bool_decide (pgd ≠ 0)) ;;
  assert (bool_decide (va ≠ 0)) ;;
  r ← page_lookup pgd va;
  match r with
  | None => mret tt
  | Some (page, pte_store) =>
      page_decref page ;;
      entry_set pte_store 0 0 ;;
      refresh_tlb va
  end.

Definition page_insert (pgd page va perm : Z) : M mstate Z :=
  assert (bool_decide (pgd ≠ 0)) ;;
  assert (bool_decide (va ≠ 0)) ;;
  r ← page_walk pgd va true;
  match r with
  | None => mret (- ENOMEM)
  | Some pte =>
      atomic_inc_nref page ;;
      e ← load64 pte;
      (if pte_present e then page_remove pgd va else mret tt) ;;
      s ← get;
      pa ← lift (page2phys (m_max_pfn s) page);
      entry_set pte pa perm ;;
      refresh_tlb va ;;
      mret 0
  end.
