(* ===== verification/PagingProofs.v ===== *)
(** * Correctness of the page tables (kernel/mm/page.c)

    The tables of an address space are a tree of frames under the page directory:
    [role_frame] names the frame that holds the page middle directory [i] and the
    page table [(i, j)] of user space.  [tree_wf] says that these frames are
    allocated and play one role each; under it [mapped] is the abstract address
    space, a partial map from addresses to entries, which [page_insert] and
    [page_remove] update at one page and nowhere else. *)

From S2P Require Import Prelude Layout Buddy BuddyProofs Paging.

Local Open Scope Z_scope.

(** ** Entries *)

Lemma bits_high x n k : 0 ≤ x < 2 ^ n → 0 ≤ n ≤ k → Z.testbit x k = false.
Proof.
  intros Hx Hk. destruct (decide (x = 0)) as [->|]; [apply Z.bits_0|].
  apply Z.bits_above_log2; [lia|]. assert (Z.log2 x < n) by (apply Z.log2_lt_pow2; lia). lia.
Qed.

Lemma entry_lor pa perm : (2 ^ 12 | pa) → 0 ≤ perm < 2 ^ 12 → Z.lor pa perm = pa + perm.
Proof.
  intros [q ->] Hp.
  assert (H0 : Z.land (q * 2 ^ 12) perm = 0).
  { apply Z.bits_inj'. intros n Hn. rewrite Z.land_spec, Z.bits_0.
    destruct (Z.lt_ge_cases n 12).
    - by rewrite Z.mul_pow2_bits_low by lia.
    - rewrite (bits_high perm 12 n), andb_false_r by lia. done. }
  rewrite (Z.add_nocarry_lxor (q * 2 ^ 12) perm), Z.lxor_lor by done. done.
Qed.

Lemma land_PAGE_MASK e : 0 ≤ e < 2 ^ 64 → Z.land e PAGE_MASK = e / PAGE_SIZE * PAGE_SIZE.
Proof.
  intros He. change PAGE_MASK with (Z.shiftl (Z.ones 52) 12).
  change PAGE_SIZE with (2 ^ 12). rewrite <- Z.shiftr_div_pow2, <- Z.shiftl_mul_pow2 by lia.
  apply Z.bits_inj'. intros n Hn. rewrite Z.land_spec.
  destruct (Z.lt_ge_cases n 12) as [Hlt|Hge].
  { rewrite !Z.shiftl_spec_low by done. apply andb_false_r. }
  rewrite !Z.shiftl_spec_high, Z.shiftr_spec by lia. replace (n - 12 + 12) with n by lia.
  destruct (Z.lt_ge_cases (n - 12) 52).
  - by rewrite Z.ones_spec_low, andb_true_r by lia.
  - rewrite Z.ones_spec_high, andb_false_r by lia. symmetry.
    apply (bits_high e 64); lia.
Qed.

(** The frame an entry points to. *)
Definition eframe (e : Z) : Z := e / PAGE_SIZE.

Lemma eframe_entry f perm : 0 ≤ perm < PAGE_SIZE → eframe (f * PAGE_SIZE + perm) = f.
Proof. intros. unfold eframe. symmetry. apply Z.div_unique with perm; lia. Qed.

Lemma entry_vaddr_ok e :
  0 ≤ eframe e < 0x30000 → entry_page_vaddr e = Ok (eframe e * PAGE_SIZE + KERNEL_BASE_ADDR).
Proof.
  intros Hf. assert (He : 0 ≤ e < 0x30000 * PAGE_SIZE).
  { unfold eframe, PAGE_SIZE in *. pose proof (Z.div_mod e 4096). pose proof (Z.mod_pos_bound e 4096). lia. }
  unfold entry_page_vaddr. rewrite land_PAGE_MASK by (unfold PAGE_SIZE in *; lia).
  fold (eframe e). unfold phys_to_virt, NORMAL_ADDR, KERNEL_NORMAL, KERNEL_BASE_ADDR, PAGE_SIZE in *.
  rewrite bool_decide_false by lia. rewrite u32_small by lia. done.
Qed.

(** ** Slots: words of frames, as addresses *)

Definition slot (f k : Z) : Z := f * PAGE_SIZE + KERNEL_BASE_ADDR + 8 * k.

Lemma slot_frame f k : 0 ≤ k < 512 → frame_of (slot f k) = f.
Proof.
  intros. unfold frame_of, slot, PAGE_SIZE. symmetry. apply Z.div_unique with (8 * k); lia.
Qed.

Lemma slot_word f k : 0 ≤ k < 512 → word_of (slot f k) = Z.to_nat k.
Proof.
  intros. unfold word_of, slot, PAGE_SIZE. f_equal.
  replace (f * 4096 + KERNEL_BASE_ADDR + 8 * k - KERNEL_BASE_ADDR) with (8 * k + f * 4096) by lia.
  rewrite Z.mod_add, Z.mod_small by lia. rewrite Z.mul_comm. by apply Z.div_mul.
Qed.

Lemma slot_u32 f k j :
  0 ≤ f < 0x30000 → 0 ≤ k → 0 ≤ j → k + j < 512 → u32 (slot f k + 8 * j) = slot f (k + j).
Proof.
  intros. unfold slot, PAGE_SIZE, KERNEL_BASE_ADDR in *. rewrite u32_small by lia. lia.
Qed.

Lemma slot_pos f k : 0 ≤ f → 0 ≤ k → slot f k ≠ 0.
Proof. unfold slot, PAGE_SIZE, KERNEL_BASE_ADDR. lia. Qed.

(** ** Indices *)

Lemma land_mod x n : 0 ≤ n → Z.land x (2 ^ n - 1) = x mod 2 ^ n.
Proof. intros. rewrite <- Z.land_ones by done. f_equal. rewrite Z.ones_equiv. lia. Qed.

Lemma pgd_index_eq va : pgd_index va = va / 2 ^ 30 mod 4.
Proof.
  unfold pgd_index, PGDIR_SHIFT, PTRS_PER_PGD. rewrite Z.shiftr_div_pow2 by lia.
  apply (land_mod _ 2). lia.
Qed.

Lemma pmd_index_eq va : pmd_index va = va / 2 ^ 21 mod 512.
Proof.
  unfold pmd_index, PMD_SHIFT, PTRS_PER_PMD. rewrite Z.shiftr_div_pow2 by lia.
  apply (land_mod _ 9). lia.
Qed.

Lemma pte_index_eq va : pte_index va = va / 2 ^ 12 mod 512.
Proof.
  unfold pte_index, PAGE_SHIFT, PTRS_PER_PTE. rewrite Z.shiftr_div_pow2 by lia.
  apply (land_mod _ 9). lia.
Qed.

Lemma index_ranges va :
  0 ≤ pgd_index va < 4 ∧ 0 ≤ pmd_index va < 512 ∧ 0 ≤ pte_index va < 512.
Proof.
  rewrite pgd_index_eq, pmd_index_eq, pte_index_eq. split_and!; apply Z.mod_pos_bound; lia.
Qed.

Lemma user_pgd_index va : 0 ≤ va < KERNEL_BASE_ADDR → 0 ≤ pgd_index va < 3.
Proof.
  intros H. rewrite pgd_index_eq. unfold KERNEL_BASE_ADDR in H.
  assert (0 ≤ va / 2 ^ 30 < 3) by (split; [apply Z.div_pos; lia|apply Z.div_lt_upper_bound; lia]).
  rewrite Z.mod_small by lia. done.
Qed.

(** The three indices are the page number, digit by digit. *)
Lemma indices_page va :
  0 ≤ va < 2 ^ 32 →
  va / PAGE_SIZE = (pgd_index va * 512 + pmd_index va) * 512 + pte_index va.
Proof.
  intros Hv. rewrite pgd_index_eq, pmd_index_eq, pte_index_eq.
  unfold PAGE_SIZE. change 4096 with (2 ^ 12).
  assert (E21 : va / 2 ^ 21 = va / 2 ^ 12 / 512) by (rewrite Z.div_div by lia; done).
  assert (E30 : va / 2 ^ 30 = va / 2 ^ 12 / 512 / 512) by (rewrite !Z.div_div by lia; done).
  rewrite E21, E30. set (x := va / 2 ^ 12).
  assert (0 ≤ x < 2 ^ 20) by (split; [apply Z.div_pos; lia|apply Z.div_lt_upper_bound; lia]).
  assert (0 ≤ x / 512 / 512 < 4).
  { split; [apply Z.div_pos; [apply Z.div_pos; lia|lia]|].
    apply Z.div_lt_upper_bound; [lia|]. apply Z.div_lt_upper_bound; lia. }
  rewrite (Z.mod_small (x / 512 / 512)) by lia.
  pose proof (Z.div_mod x 512). pose proof (Z.div_mod (x / 512) 512). lia.
Qed.

(** ** The state of the memory manager *)

Abbreviation nz s := (zone_view false s).

(** A frame of the normal zone that is allocated. *)
Definition busy (s : mstate) (f : Z) : Prop := 0 ≤ f < zend (nz s) ∧ ¬ free_page (nz s) f.

Record mm_inv (s : mstate) : Prop := {
  mi_zone : zone_inv (nz s) 0;
  mi_base : zbase (nz s) = 0;
  mi_end : zend (nz s) ≤ 0x30000;
  mi_max : m_max_pfn s ≤ 2 ^ 31;
  mi_mem : ∀ f, 0 ≤ f < zend (nz s) → ∃ l, mem s !! f = Some l ∧ length l = 512%nat;
}.

Definition with_mem (m : gmap Z (list Z)) (s : mstate) : mstate :=
  mk_mstate (zone_normal s) (zone_high s) (mempage s) (m_max_pfn s) m (tlb s).
Definition with_page (p : Z) (pg : page) (s : mstate) : mstate :=
  mk_mstate (zone_normal s) (zone_high s) (<[p := pg]> (mempage s)) (m_max_pfn s) (mem s) (tlb s).
Definition with_tlb (va : Z) (s : mstate) : mstate :=
  mk_mstate (zone_normal s) (zone_high s) (mempage s) (m_max_pfn s) (mem s) (va :: tlb s).

(** Word [k] of frame [f]. *)
Definition ent (s : mstate) (f k : Z) : option Z := l ← mem s !! f; l !! Z.to_nat k.

Definition put_ent (f k v : Z) (s : mstate) : mstate :=
  with_mem (alter (<[Z.to_nat k := v]>) f (mem s)) s.

Lemma ent_total s f k : mm_inv s → 0 ≤ f < zend (nz s) → 0 ≤ k < 512 → ∃ e, ent s f k = Some e.
Proof.
  intros Hi Hf Hk. destruct (mi_mem s Hi f Hf) as (l & Hl & Hlen). unfold ent. rewrite Hl. simpl.
  apply lookup_lt_is_Some_2. lia.
Qed.

Lemma ent_put_eq s f k v e : ent s f k = Some e → ent (put_ent f k v s) f k = Some v.
Proof.
  unfold ent, put_ent. simpl. rewrite lookup_alter_eq. destruct (mem s !! f) as [l|]; [|done].
  simpl. intros H. apply list_lookup_insert_eq. by eapply lookup_lt_Some.
Qed.

Lemma ent_put_ne s f k v f' k' :
  0 ≤ k → 0 ≤ k' → (f', k') ≠ (f, k) → ent (put_ent f k v s) f' k' = ent s f' k'.
Proof.
  intros Hk Hk' Hne. unfold ent, put_ent. simpl.
  destruct (decide (f' = f)) as [->|Hf]; [|by rewrite lookup_alter_ne].
  rewrite lookup_alter_eq. destruct (mem s !! f) as [l|]; [|done]. simpl.
  apply list_lookup_insert_ne. intros E. apply Hne. f_equal. lia.
Qed.

Lemma load64_ok s f k e : 0 ≤ k < 512 → ent s f k = Some e → load64 (slot f k) s = Ok (e, s).
Proof.
  intros Hk He. unfold load64. run_step. rewrite slot_frame, slot_word by done.
  unfold ent in He. by rewrite He.
Qed.

Lemma store64_ok s f k e v :
  0 ≤ k < 512 → ent s f k = Some e → store64 (slot f k) v s = Ok (tt, put_ent f k v s).
Proof.
  intros Hk He. unfold store64. rewrite (bind_Ok _ _ _ _ _ (load64_ok s f k e Hk He)).
  by rewrite slot_frame, slot_word.
Qed.

Lemma entry_set_ok s f k e pa perm :
  0 ≤ f → 0 ≤ k < 512 → ent s f k = Some e → 0 ≤ pa < 2 ^ 64 → (2 ^ 12 | pa) →
  0 ≤ perm < 2 ^ 12 →
  entry_set (slot f k) pa perm s = Ok (tt, put_ent f k (pa + perm) s).
Proof.
  intros Hf Hk He Hpa Hd Hp. unfold entry_set.
  rewrite bool_decide_false by (apply slot_pos; lia).
  rewrite bool_decide_false.
  2: { intros H. apply H. rewrite land_PAGE_MASK by done.
       destruct Hd as [q ->]. unfold PAGE_SIZE. change (2 ^ 12) with 4096. by rewrite Z.div_mul. }
  rewrite bool_decide_false.
  2: { intros H. apply H. change 0xFFF with (2 ^ 12 - 1). rewrite land_mod by lia.
       apply Z.mod_small. lia. }
  rewrite entry_lor by done. by eapply store64_ok.
Qed.

Lemma mm_inv_mem s m :
  mm_inv s → (∀ f, 0 ≤ f < zend (nz s) → ∃ l, m !! f = Some l ∧ length l = 512%nat) →
  mm_inv (with_mem m s).
Proof. intros [] Hm. by split. Qed.

Lemma mm_inv_put s f k v : mm_inv s → mm_inv (put_ent f k v s).
Proof.
  intros Hi. apply mm_inv_mem; [done|]. intros f' Hf'. destruct (mi_mem s Hi f' Hf') as (l & Hl & Hn).
  destruct (decide (f' = f)) as [->|].
  - rewrite lookup_alter_eq, Hl. simpl. eexists. split; [done|]. by rewrite length_insert.
  - rewrite lookup_alter_ne by done. eauto.
Qed.

Lemma mm_inv_tlb s va : mm_inv s → mm_inv (with_tlb va s).
Proof. intros []. by split. Qed.

(** Changing the descriptor of an allocated frame, but not its order. *)
Lemma zone_inv_page s e p pg pg' :
  zone_inv s e → ¬ free_page s p → pages s !! p = Some pg → order pg' = order pg →
  zone_inv (mk_zstate (zn s) (<[p := pg']> (pages s)) (max_pfn s)) e.
Proof.
  intros Hi Hp Hpg Ho. split; try apply Hi.
  - intros i Hr. simpl. rewrite lookup_insert. case_decide; [eauto|]. by apply (zi_pages s e Hi).
  - intros i pg1 k Hr. simpl. rewrite lookup_insert. case_decide as E; [|by apply (zi_order s e Hi)].
    subst i. intros [= <-] Hk. rewrite Ho. by apply (zi_order s e Hi p pg k).
  - intros i pg1 Hr. simpl. rewrite lookup_insert. case_decide as E; [|by apply (zi_orange s e Hi)].
    subst i. intros [= <-]. rewrite Ho. by apply (zi_orange s e Hi p pg).
  - intros i Hf. destruct (zi_ready s e Hi i Hf) as (pg1 & Hl & ?). exists pg1. simpl.
    rewrite lookup_insert_ne; [done|]. intros ->. done.
Qed.

Lemma mm_inv_page s p pg pg' :
  mm_inv s → ¬ free_page (nz s) p → mempage s !! p = Some pg → order pg' = order pg →
  mm_inv (with_page p pg' s).
Proof. intros [] Hb Hpg Ho. split; try done. by apply (zone_inv_page (nz s) 0 p pg pg'). Qed.

Lemma mm_inv_nref s p pg v :
  mm_inv s → busy s p → mempage s !! p = Some pg → mm_inv (with_page p (set_nref v pg) s).
Proof. intros Hi [_ Hb] Hpg. by eapply mm_inv_page. Qed.

Lemma busy_page s p : mm_inv s → busy s p → ∃ pg, mempage s !! p = Some pg.
Proof.
  intros Hi [Hr _]. pose proof (mi_base s Hi). apply (zi_pages (nz s) 0 (mi_zone s Hi) p). lia.
Qed.

Lemma frame_bounds s f : mm_inv s → 0 ≤ f < zend (nz s) → 0 ≤ f < 0x30000 ∧ f < m_max_pfn s.
Proof.
  intros Hi Hf. pose proof (mi_end s Hi).
  destruct (zi_base (nz s) 0 (mi_zone s Hi)) as (_ & _ & ?). simpl in *. lia.
Qed.

Lemma frame_phys s f :
  mm_inv s → 0 ≤ f < zend (nz s) → page2phys (m_max_pfn s) f = Ok (f * PAGE_SIZE).
Proof.
  intros Hi Hf. pose proof (frame_bounds s f Hi Hf). apply page2phys_ok; [lia|apply Hi].
Qed.

(** ** Allocating a zeroed frame *)

(** The page of the address of a frame in the window of the kernel. *)
Lemma frame_virt max f :
  0 ≤ f < 0x30000 → f < max → virt2page max (f * PAGE_SIZE + KERNEL_BASE_ADDR) = Ok f.
Proof.
  intros Hf Hm. rewrite <- (Z.add_0_r (_ + KERNEL_BASE_ADDR)). apply virt2page_ok; [lia| |done].
  unfold PAGE_SIZE, NORMAL_ADDR, KERNEL_NORMAL, KERNEL_BASE_ADDR. lia.
Qed.

Lemma put_zone_view s : put_zone false s (nz s) = s.
Proof. by destruct s. Qed.

(** The frame [p] was free and is now allocated and zeroed; nothing else changes
    but page orders and the zone. *)
Record new_frame (s s' : mstate) (p : Z) : Prop := {
  nf_free : free_page (nz s) p;
  nf_busy : ∀ i, free_page (nz s') i ↔ free_page (nz s) i ∧ i ≠ p;
  nf_mem : mem s' = <[p := zero_page]> (mem s);
  nf_only : only_orders (nz s) (nz s');
  nf_tlb : tlb s' = tlb s;
}.

Lemma zero_frames_lookup p n m f :
  zero_frames p n m !! f = if decide (p ≤ f < p + n) then Some zero_page else m !! f.
Proof.
  unfold zero_frames.
  assert (H : ∀ l : list Z, foldr (λ f m, <[f := zero_page]> m) m l !! f =
    if decide (f ∈ l) then Some zero_page else m !! f).
  { induction l as [|x l IH]; [by rewrite decide_False by apply not_elem_of_nil|]. cbn [foldr].
    rewrite lookup_insert. destruct (decide (x = f)) as [->|E].
    - rewrite decide_True; [done|apply elem_of_cons; by left].
    - rewrite IH. destruct (decide (f ∈ l)); [rewrite decide_True; [done|apply elem_of_cons; by right]|].
      rewrite decide_False; [done|]. intros [->|?]%elem_of_cons; done. }
  rewrite H. destruct (decide (p ≤ f < p + n)) as [Hf|Hf].
  - by rewrite decide_True by (by apply elem_of_seqZ).
  - by rewrite decide_False by (by rewrite elem_of_seqZ).
Qed.

(** After zone code has run, the zone of the state is the one it left. *)
Lemma put_zone_nz s z : only_orders (nz s) z → nz (put_zone false s z) = z.
Proof.
  intros Hoo. unfold zone_view, put_zone. simpl. destruct z. simpl.
  pose proof (ss_max _ _ (oo_shape _ _ Hoo)) as E. simpl in E. by rewrite E.
Qed.

Lemma mm_inv_zone s z :
  mm_inv s → zone_inv z 0 → only_orders (nz s) z → mm_inv (put_zone false s z).
Proof.
  intros Hi Hz Hoo. pose proof (put_zone_nz s z Hoo) as Ez.
  destruct (only_orders_shape _ _ Hoo) as (Eb & Ee & _).
  destruct Hi. split; rewrite ?Ez, ?Eb, ?Ee; done.
Qed.

(** A zeroed block of any order. *)
Lemma alloc_block_ok s ord :
  mm_inv s → 0 ≤ ord < MAXORDER →
  ∃ r s', pages_alloc _GFP_ZERO ord s = Ok (r, s') ∧ mm_inv s' ∧
    match r with
    | Some p => allocated (nz s) (nz s') ord p ∧ only_orders (nz s) (nz s') ∧
        mem s' = zero_frames p (2 ^ ord) (mem s) ∧ tlb s' = tlb s
    | None => s' = s ∧ ∀ k, ord ≤ k < MAXORDER → fl (nz s) k = []
    end.
Proof.
  intros Hi Ho. unfold pages_alloc.
  rewrite (bind_Ok _ _ _ _ _ (assert_true _ s (bool_decide_eq_true_2 (ord ≤ MAXORDER) ltac:(lia)))).
  change (has_flag _GFP_ZERO _GFP_ZERO && has_flag _GFP_ZERO _GFP_HIGH) with false.
  change (has_flag _GFP_ZERO _GFP_HIGH) with false. cbv iota. unfold _pages_alloc.
  change (has_flag _GFP_ZERO _GFP_ZERO && has_flag _GFP_ZERO _GFP_HIGH) with false. cbv iota.
  rewrite u8_small by (unfold MAXORDER in Ho; lia).
  destruct (alloc_buddy_ok (nz s) ord (mi_zone s Hi) Ho) as (r & z & Hrun & Hz & Hoo & Hr).
  erewrite bind_Ok by (unfold in_zone; rewrite Hrun; done).
  destruct r as [p|].
  - pose proof (put_zone_nz s z Hoo) as Ez. pose proof (mm_inv_zone s z Hi Hz Hoo) as Hi1.
    destruct Hr as [Hhole Hwas Hf] eqn:Er. clear Er.
    set (s1 := put_zone false s z) in *.
    assert (Hp : 0 ≤ p < zend (nz s1)).
    { destruct Hhole as [(H1 & H2 & _) _ _]. pose proof (mi_base s1 Hi1) as Hb. rewrite Ez in *.
      pose proof (pow2_pos ord ltac:(lia)). lia. }
    pose proof (frame_bounds s1 p Hi1 Hp) as Hpb.
    change (has_flag _GFP_ZERO _GFP_ZERO) with true. cbv iota.
    rewrite bind_assoc. run_step. rewrite bind_assoc.
    rewrite (bind_Ok _ _ _ _ _ (lift_Ok _ _ _ (page2virt_ok (m_max_pfn s1) p ltac:(lia)
      ltac:(unfold PAGE_SIZE, NORMAL_ADDR, KERNEL_NORMAL, KERNEL_BASE_ADDR; lia) (mi_max _ Hi1)))).
    exists (Some p), (with_mem (zero_frames p (2 ^ ord) (mem s)) s1).
    split_and!; [done| |by rewrite <- Ez in Hr|by rewrite <- Ez in Hoo|done|done].
    apply mm_inv_mem; [done|]. intros f Hfr. rewrite zero_frames_lookup.
    case_decide; [eexists; split; [done|]; apply length_replicate|].
    apply (mi_mem s1 Hi1 f Hfr).
  - destruct Hr as [-> Hem]. exists None, (put_zone false s (nz s)). rewrite put_zone_view. done.
Qed.

(** No frame is free. *)
Definition full (s : mstate) : Prop := ∀ i, ¬ free_page (nz s) i.

(** At most [n] frames are free. *)
Definition scarce (n : nat) (s : mstate) : Prop := ∃ l, (length l ≤ n)%nat ∧ ∀ i, free_page (nz s) i → i ∈ l.

Lemma full_scarce n s : full s → scarce n s.
Proof. intros Hf. exists []. split; [simpl; lia|]. intros i Hi. by destruct (Hf i). Qed.

Lemma scarce_more n s s' p : (∀ q, free_page (nz s) q → q = p ∨ free_page (nz s') q) → scarce n s' → scarce (S n) s.
Proof.
  intros Hq (l & Hl & Hin). exists (p :: l). split; [simpl; lia|]. intros i Hi. apply elem_of_cons.
  destruct (Hq i Hi); [by left|right; auto].
Qed.

Lemma alloc_zeroed_ok s :
  mm_inv s →
  ∃ r s', pages_alloc _GFP_ZERO 0 s = Ok (r, s') ∧ mm_inv s' ∧
    match r with
    | Some p => new_frame s s' p
    | None => s' = s ∧ full s
    end.
Proof.
  intros Hi. destruct (alloc_block_ok s 0 Hi) as (r & s' & Hrun & Hi' & Hr); [unfold MAXORDER; lia|].
  exists r, s'. split_and!; [done..|]. destruct r as [p|].
  - destruct Hr as ([Hhole Hwas Hf] & Hoo & Hm & Ht).
    assert (Hone : ∀ j, in_blk p 0 j ↔ j = p) by (unfold in_blk; intros; simpl; lia).
    split; [by apply Hwas, Hone| |by rewrite Hm|done|done].
    intros i. by rewrite Hf, Hone.
  - destruct Hr as [-> Hem]. split; [done|]. intros i (k & p & Hk & Hp & _).
    rewrite Hem in Hp by lia. by apply elem_of_nil in Hp.
Qed.

(** ** The tree of tables *)

Inductive role := RPmd (i : Z) | RPte (i j : Z).

#[global] Instance role_eq_dec : EqDecision role.
Proof. solve_decision. Defined.

(** Tables of user space: the fourth page directory entry maps the kernel. *)
Definition user_role (r : role) : Prop :=
  match r with RPmd i => 0 ≤ i < 3 | RPte i j => 0 ≤ i < 3 ∧ 0 ≤ j < 512 end.

Definition child (e : Z) : option Z := if decide (e = 0) then None else Some (eframe e).

(** [g] and [o]: the frame and the word of the page directory. *)
Definition role_frame (s : mstate) (g o : Z) (r : role) : option Z :=
  match r with
  | RPmd i => e ← ent s g (o + i); child e
  | RPte i j => m ← (e ← ent s g (o + i); child e); e ← ent s m j; child e
  end.

Record tree_wf (s : mstate) (g o : Z) : Prop := {
  tw_root : busy s g;
  tw_off : 0 ≤ o ∧ o + 4 ≤ 512;
  tw_busy : ∀ r f, user_role r → role_frame s g o r = Some f → busy s f ∧ f ≠ g;
  tw_inj : ∀ r r' f, user_role r → user_role r' → role_frame s g o r = Some f →
             role_frame s g o r' = Some f → r = r';
}.

(** The entry for an address, if its page table exists. *)
Definition entry_at (s : mstate) (g o va : Z) : option Z :=
  f ← role_frame s g o (RPte (pgd_index va) (pmd_index va)); ent s f (pte_index va).

(** The abstract address space. *)
Definition mapped (s : mstate) (g o va : Z) : option Z :=
  e ← entry_at s g o va; if pte_present e then Some e else None.

Definition user_va (va : Z) : Prop := 0 ≤ va < KERNEL_BASE_ADDR.

Lemma user_va_role va :
  user_va va → user_role (RPmd (pgd_index va)) ∧ user_role (RPte (pgd_index va) (pmd_index va)).
Proof.
  intros Hv. pose proof (user_pgd_index va Hv). pose proof (index_ranges va). simpl. lia.
Qed.

Lemma role_frame_pte s g o i j :
  role_frame s g o (RPte i j) = (m ← role_frame s g o (RPmd i); e ← ent s m j; child e).
Proof. done. Qed.

(** The word that points to the table of a role. *)
Definition parent_slot (s : mstate) (g o : Z) (r : role) : option (Z * Z) :=
  match r with
  | RPmd i => Some (g, o + i)
  | RPte i j => m ← role_frame s g o (RPmd i); Some (m, j)
  end.

Lemma parent_not_leaf s g o r f k :
  tree_wf s g o → user_role r → parent_slot s g o r = Some (f, k) →
  0 ≤ k < 512 ∧ busy s f ∧ ∀ i j, user_role (RPte i j) → role_frame s g o (RPte i j) ≠ Some f.
Proof.
  intros Hw Hr Hp. pose proof (tw_off s g o Hw). destruct r as [i|i j]; simpl in Hr.
  - injection Hp as <- <-. split_and!; [lia|lia|apply Hw|]. intros i' j' Hu E.
    by destruct (tw_busy s g o Hw _ _ Hu E).
  - unfold parent_slot in Hp. destruct (role_frame s g o (RPmd i)) as [m|] eqn:Em; [|done].
    simpl in Hp. injection Hp as -> ->.
    assert (Hu : user_role (RPmd i)) by (simpl; lia).
    split_and!; [lia|lia|by apply (tw_busy s g o Hw _ _ Hu Em)|].
    intros i' j' Hu' E. pose proof (tw_inj s g o Hw _ _ _ Hu Hu' Em E). done.
Qed.

(** Writing a word of a frame that holds no directory leaves the tables alone. *)
Lemma role_frame_put_leaf s g o f k v r :
  0 ≤ k → 0 ≤ o → f ≠ g → (∀ i, user_role (RPmd i) → role_frame s g o (RPmd i) ≠ Some f) →
  user_role r → role_frame (put_ent f k v s) g o r = role_frame s g o r.
Proof.
  intros Hk Ho Hg Hm Hr.
  assert (E1 : ∀ i, user_role (RPmd i) →
    role_frame (put_ent f k v s) g o (RPmd i) = role_frame s g o (RPmd i)).
  { intros i Hi. simpl in *. rewrite ent_put_ne by (lia || congruence). done. }
  destruct r as [i|i j]; [by apply E1|]. simpl in Hr. rewrite !role_frame_pte, E1 by (simpl; lia).
  destruct (role_frame s g o (RPmd i)) as [m|] eqn:Em; [|done]. simpl.
  rewrite ent_put_ne; [done|lia|lia|]. intros [= -> _]. apply (Hm i); [simpl; lia|done].
Qed.

(** A frame that is free plays no role. *)
Lemma free_no_role s g o p :
  tree_wf s g o → free_page (nz s) p →
  p ≠ g ∧ ∀ r, user_role r → role_frame s g o r ≠ Some p.
Proof.
  intros Hw Hf. split.
  - intros ->. by destruct (tw_root s g o Hw).
  - intros r Hr E. destruct (tw_busy s g o Hw r p Hr E) as [[_ Hb] _]. done.
Qed.

(** Linking a fresh zeroed frame [p] at the parent of the role [r0]. *)
Definition link (p : Z) (fk : Z * Z) (perm : Z) (s : mstate) : mstate :=
  put_ent fk.1 fk.2 (p * PAGE_SIZE + perm) (with_mem (<[p := zero_page]> (mem s)) s).

Lemma ent_zeroed s p f k :
  0 ≤ k < 512 →
  ent (with_mem (<[p := zero_page]> (mem s)) s) f k =
    if decide (f = p) then Some 0 else ent s f k.
Proof.
  intros Hk. unfold ent. simpl. rewrite lookup_insert. case_decide as E.
  - subst. rewrite decide_True by done. simpl. apply lookup_replicate_2. lia.
  - by rewrite decide_False by congruence.
Qed.

Lemma ent_link s p fk perm f k :
  0 ≤ fk.2 < 512 → 0 ≤ k < 512 → fk.1 ≠ p → is_Some (ent s fk.1 fk.2) →
  ent (link p fk perm s) f k =
    if decide ((f, k) = fk) then Some (p * PAGE_SIZE + perm)
    else if decide (f = p) then Some 0 else ent s f k.
Proof.
  intros H1 Hk Hne [e He]. destruct fk as [f0 k0]; simpl in *. unfold link. cbn [fst snd].
  case_decide as E.
  - injection E as -> ->. eapply ent_put_eq. rewrite ent_zeroed by done.
    rewrite decide_False by done. done.
  - rewrite ent_put_ne by (lia || done). by apply ent_zeroed.
Qed.

Lemma role_frame_link s g o p r0 fk perm r :
  mm_inv s → tree_wf s g o → free_page (nz s) p → 0 ≤ p → 0 < perm < PAGE_SIZE →
  user_role r0 → user_role r → role_frame s g o r0 = None →
  parent_slot s g o r0 = Some fk →
  role_frame (link p fk perm s) g o r = if decide (r = r0) then Some p else role_frame s g o r.
Proof.
  intros Hi Hw Hf Hp Hperm Hr0 Hr Hnone Hpar.
  destruct (free_no_role s g o p Hw Hf) as [Hpg Hpr].
  destruct (parent_not_leaf s g o r0 fk.1 fk.2 Hw Hr0) as (Hk & Hbf & Hnl);
    [by rewrite Hpar; destruct fk|].
  assert (Hfp : fk.1 ≠ p) by (intros E; destruct Hbf as [_ Hb]; by rewrite E in Hb).
  destruct (ent_total s fk.1 fk.2 Hi (proj1 Hbf) Hk) as [e0 He0].
  pose proof (λ f k, λ H, ent_link s p fk perm f k Hk H Hfp (mk_is_Some _ _ He0)) as Hent.
  assert (Hnew : child (p * PAGE_SIZE + perm) = Some p).
  { unfold child. rewrite decide_False by (unfold PAGE_SIZE in *; lia).
    by rewrite eframe_entry by lia. }
  pose proof (tw_off s g o Hw) as Ho.
  (* directories first *)
  assert (Epmd : ∀ i, 0 ≤ i < 3 →
    role_frame (link p fk perm s) g o (RPmd i) =
      if decide (RPmd i = r0) then Some p else role_frame s g o (RPmd i)).
  { intros i Hi3. unfold role_frame. rewrite Hent by lia. rewrite (decide_False (P := g = p)) by done.
    destruct r0 as [i0|i0 j0].
    - simpl in Hpar. injection Hpar as <-. destruct (decide (i = i0)) as [->|Hne].
      + rewrite !decide_True by done. simpl. done.
      + rewrite !decide_False by (intros [=]; lia). done.
    - rewrite (decide_False (P := RPmd i = RPte i0 j0)) by done. simpl in Hr0, Hpar.
      destruct (role_frame s g o (RPmd i0)) as [m|] eqn:Em; [|by simpl in Em; rewrite Em in Hpar].
      simpl in Em. rewrite Em in Hpar. injection Hpar as <-. rewrite decide_False; [done|].
      intros [= Eg _]. destruct (tw_busy s g o Hw (RPmd i0) m ltac:(simpl; lia) Em). congruence. }
  destruct r as [i|i j]; [by apply Epmd|]. simpl in Hr. rewrite role_frame_pte, Epmd by lia.
  destruct r0 as [i0|i0 j0].
  - rewrite (decide_False (P := RPte i j = RPmd i0)) by done.
    simpl in Hpar. injection Hpar as <-. cbn [fst snd] in *.
    destruct (decide (RPmd i = RPmd i0)) as [[= ->]|Hne].
    + simpl. rewrite Hent by lia. rewrite decide_False by (intros [= ? _]; done).
      rewrite decide_True by done. simpl. unfold role_frame in Hnone. by rewrite Hnone.
    + rewrite role_frame_pte. destruct (role_frame s g o (RPmd i)) as [m|] eqn:Em; [|done]. simpl.
      destruct (tw_busy s g o Hw (RPmd i) m ltac:(simpl; lia) Em) as [_ Hmg].
      rewrite Hent by lia. rewrite decide_False by (intros [= ? _]; done).
      rewrite decide_False; [done|]. intros ->. by apply (Hpr (RPmd i)); [simpl; lia|].
  - rewrite (decide_False (P := RPmd i = RPte i0 j0)) by done. rewrite role_frame_pte.
    unfold parent_slot in Hpar.
    destruct (role_frame s g o (RPmd i0)) as [m0|] eqn:Em0; [|done]. injection Hpar as <-.
    cbn [fst snd] in *. simpl in Hr0.
    destruct (role_frame s g o (RPmd i)) as [m|] eqn:Em.
    + simpl. rewrite Hent by lia. rewrite (decide_False (P := m = p)).
      2: { intros ->. by apply (Hpr (RPmd i)); [simpl; lia|]. }
      destruct (decide (RPte i j = RPte i0 j0)) as [[= -> ->]|Hne].
      * rewrite decide_True by congruence. done.
      * rewrite decide_False; [done|]. intros [= -> ->].
        pose proof (tw_inj s g o Hw (RPmd i) (RPmd i0) m0 ltac:(simpl; lia) ltac:(simpl; lia) Em Em0).
        congruence.
    + rewrite decide_False by (intros [= -> _]; congruence). done.
Qed.

(** ** Growing the tree *)

Lemma role_frame_mem s s' g o r : mem s' = mem s → role_frame s' g o r = role_frame s g o r.
Proof. intros E. unfold role_frame, ent. by rewrite E. Qed.

(** The descriptor of a frame without its order. *)
Definition meta (s : mstate) (q : Z) : option page := set_order 0 <$> mempage s !! q.

(** [q] is neither the page directory nor a table. *)
Definition no_table (s : mstate) (g o q : Z) : Prop :=
  q ≠ g ∧ ∀ r, user_role r → role_frame s g o r ≠ Some q.

(** A frame that is not a table of the last level. *)
Definition no_leaf (s : mstate) (g o q : Z) : Prop :=
  ∀ i j, user_role (RPte i j) → role_frame s g o (RPte i j) ≠ Some q.

Lemma no_table_leaf s g o q : no_table s g o q → no_leaf s g o q.
Proof. intros [_ Hn] i j. apply Hn. Qed.

Lemma mem_put_ne s f k v q : q ≠ f → mem (put_ent f k v s) !! q = mem s !! q.
Proof. intros Hne. simpl. by rewrite lookup_alter_ne. Qed.

(** An allocated frame with references that may be given back. *)
Definition referenced (s : mstate) (q : Z) (pg : page) : Prop :=
  busy s q ∧ mempage s !! q = Some pg ∧ 1 ≤ nref pg < 2 ^ 31 ∧
  has_flag (flags pg) _pg_reserved = false.

(** A frame with one reference, not reserved. *)
Definition sole (s : mstate) (q : Z) : Prop := ∃ pg, referenced s q pg ∧ nref pg = 1.

(** Every table has one reference, and every entry for a table is present. *)
Record neat (s : mstate) (g o : Z) : Prop := {
  ne_sole : ∀ r f, user_role r → role_frame s g o r = Some f → sole s f;
  ne_present : ∀ r fk e, user_role r → parent_slot s g o r = Some fk → ent s fk.1 fk.2 = Some e → e ≠ 0 → pte_present e = true }.

(** [s'] is [s] with tables added: the address space is the same, allocated frames
    stay so, and the new tables are frames that were free. *)
Record extends (g o : Z) (s s' : mstate) : Prop := {
  ex_inv : mm_inv s';
  ex_tree : tree_wf s' g o;
  ex_mapped : ∀ va, user_va va → mapped s' g o va = mapped s g o va;
  ex_busy : ∀ q, busy s q → busy s' q ∧ meta s' q = meta s q;
  ex_roles : ∀ r f, user_role r → role_frame s' g o r = Some f →
    role_frame s g o r = Some f ∨ free_page (nz s) f;
  ex_free : ∀ q, free_page (nz s') q → free_page (nz s) q;
  ex_end : zend (nz s') = zend (nz s);
  ex_tlb : tlb s' = tlb s;
  ex_data : ∀ q, busy s q → no_table s g o q → mem s' !! q = mem s !! q;
  ex_neat : neat s g o → neat s' g o;
}.

(** A data frame is no table after the tables have grown. *)
Lemma no_table_extends g o s s' q :
  (∀ r f, user_role r → role_frame s' g o r = Some f → role_frame s g o r = Some f ∨ free_page (nz s) f) →
  busy s q → no_table s g o q → no_table s' g o q.
Proof.
  intros Hx [_ Hb] [Hg Hr]. split; [done|]. intros r Hu E.
  destruct (Hx r q Hu E) as [?|?]; [by apply (Hr r)|done].
Qed.

Lemma extends_refl g o s : mm_inv s → tree_wf s g o → extends g o s s.
Proof. split; auto. Qed.

Lemma extends_trans g o s1 s2 s3 : extends g o s1 s2 → extends g o s2 s3 → extends g o s1 s3.
Proof.
  intros H1 H2. split.
  - apply H2.
  - apply H2.
  - intros va Hv. by rewrite (ex_mapped _ _ _ _ H2 va Hv), (ex_mapped _ _ _ _ H1 va Hv).
  - intros q Hq. destruct (ex_busy _ _ _ _ H1 q Hq) as [Hq2 E1].
    destruct (ex_busy _ _ _ _ H2 q Hq2) as [Hq3 E2]. split; [done|congruence].
  - intros r f Hr Hf. destruct (ex_roles _ _ _ _ H2 r f Hr Hf) as [Hf2|Hf2].
    + by apply (ex_roles _ _ _ _ H1).
    + right. by apply (ex_free _ _ _ _ H1).
  - intros q Hq. by apply (ex_free _ _ _ _ H1), (ex_free _ _ _ _ H2).
  - rewrite (ex_end _ _ _ _ H2). apply H1.
  - rewrite (ex_tlb _ _ _ _ H2). apply H1.
  - intros q Hq Hn. destruct (ex_busy _ _ _ _ H1 q Hq) as [Hq2 _].
    rewrite (ex_data _ _ _ _ H2 q Hq2); [by apply H1|].
    by apply (no_table_extends _ _ s1); [apply H1| |].
  - intros Ht. by apply H2, H1.
Qed.

Lemma sole_same s s' f : busy s' f → meta s' f = meta s f → sole s f → sole s' f.
Proof.
  intros Hb Hm (pg & (_ & Hpg & Hn & Hf) & H1). unfold meta in Hm. rewrite Hpg in Hm.
  destruct (mempage s' !! f) as [pg'|] eqn:Hpg'; [|done]. injection Hm as E1 E2.
  exists pg'. split; [|lia]. split_and!; [done|done|lia|lia|congruence].
Qed.

Lemma present_entry p perm :
  0 ≤ perm < 2 ^ 12 → has_flag perm _PAGE_PRESENT = true →
  pte_present (p * PAGE_SIZE + perm) = true.
Proof.
  intros Hp. unfold pte_present, has_flag, _PAGE_PRESENT.
  change 1 with (2 ^ 1 - 1). rewrite !land_mod by lia. change (2 ^ 1) with 2.
  replace (p * PAGE_SIZE + perm) with (perm + p * 2048 * 2) by (unfold PAGE_SIZE; lia).
  by rewrite Z.mod_add by lia.
Qed.

(** The state after a frame [p] has been allocated, referenced and linked. *)
Record grown (g o : Z) (s s' : mstate) (r0 : role) (fk : Z * Z) (perm p : Z) : Prop := {
  gw_inv : mm_inv s';
  gw_free : free_page (nz s) p;
  gw_mem : mem s' = mem (link p fk perm s);
  gw_busy : ∀ i, free_page (nz s') i ↔ free_page (nz s) i ∧ i ≠ p;
  gw_end : zend (nz s') = zend (nz s);
  gw_meta : ∀ q, q ≠ p → meta s' q = meta s q;
  gw_tlb : tlb s' = tlb s;
  gw_sole : sole s' p;
}.

Lemma free_in_zone s q : mm_inv s → free_page (nz s) q → 0 ≤ q < zend (nz s).
Proof.
  intros Hi (k & p & Hk & Hp & Hb). pose proof (mi_base s Hi).
  destruct (zi_block (nz s) 0 (mi_zone s Hi) k p Hk Hp) as (? & ? & _). unfold in_blk in Hb. lia.
Qed.

Lemma grown_extends g o s s' r0 fk perm p :
  mm_inv s → tree_wf s g o → user_role r0 → role_frame s g o r0 = None →
  parent_slot s g o r0 = Some fk → 0 < perm < PAGE_SIZE → has_flag perm _PAGE_PRESENT = true →
  grown g o s s' r0 fk perm p →
  extends g o s s' ∧ role_frame s' g o r0 = Some p.
Proof.
  intros Hi Hw Hr0 Hnone Hpar Hperm Hpres [Hi' Hfree Hmem Hfr Hend Hmeta Htlb Hsole].
  pose proof (free_in_zone s p Hi Hfree) as Hp.
  destruct (free_no_role s g o p Hw Hfree) as [Hpg Hpr].
  assert (Hrole : ∀ r, user_role r → role_frame s' g o r =
    if decide (r = r0) then Some p else role_frame s g o r).
  { intros r Hr. rewrite (role_frame_mem (link p fk perm s) s') by done.
    by apply role_frame_link; [..|lia| | | | |]. }
  assert (Hb : ∀ q, busy s q → busy s' q).
  { intros q [H1 H2]. split; [by rewrite Hend|]. by intros [? _]%Hfr. }
  assert (Hbp : busy s' p) by (split; [by rewrite Hend|intros [_ ?]%Hfr; done]).
  destruct (parent_not_leaf s g o r0 fk.1 fk.2 Hw Hr0) as (Hk & Hbf & Hnl);
    [by rewrite Hpar; destruct fk|].
  destruct (ent_total s fk.1 fk.2 Hi (proj1 Hbf) Hk) as [e0 He0].
  assert (Hfp : fk.1 ≠ p) by (intros E; destruct Hbf as [_ H]; by rewrite E in H).
  split; [|by rewrite Hrole, decide_True].
  assert (Hent : ∀ f k, 0 ≤ k < 512 → ent s' f k =
    if decide ((f, k) = fk) then Some (p * PAGE_SIZE + perm) else if decide (f = p) then Some 0 else ent s f k).
  { intros f k Hk'. transitivity (ent (link p fk perm s) f k); [unfold ent; by rewrite Hmem|].
    by apply ent_link; [..|eauto]. }
  split; [done| | | | |by intros q [? _]%Hfr|done|done| |].
  6: { intros [Ht1 Ht2]. split.
       - intros r f Hr. rewrite Hrole by done. case_decide; [by intros [= <-]|]. intros Hf.
         destruct (tw_busy s g o Hw r f Hr Hf) as [Hbf' _].
         apply (sole_same s s'); [by apply Hb|apply Hmeta; intros ->; by apply (Hpr r)|by apply (Ht1 r)].
       - intros r fk' e Hr Hp' He Hz.
         assert (Hslot : (fk'.1 = p ∨ parent_slot s g o r = Some fk') ∧ 0 ≤ fk'.2 < 512).
         { destruct r as [i|i j]; simpl in Hp', Hr |- *.
           - injection Hp' as <-. split; [by right|]. simpl. pose proof (tw_off s g o Hw). lia.
           - assert (Hri : role_frame s' g o (RPmd i) = if decide (RPmd i = r0) then Some p else role_frame s g o (RPmd i))
               by (apply Hrole; simpl; lia).
             simpl in Hri. rewrite Hri in Hp'.
             case_decide; [simpl in Hp'; injection Hp' as <-; simpl; split; [by left|lia]|].
             destruct (ent s g (o + i) ≫= child) as [q|]; [|done]. simpl in Hp'. injection Hp' as <-. simpl. split; [by right|lia]. }
         destruct fk' as [f k]. simpl in *. destruct Hslot as [Hslot Hk']. rewrite Hent in He by done. case_decide.
         + injection He as <-. apply present_entry; [unfold PAGE_SIZE in Hperm; lia|done].
         + case_decide; [congruence|]. destruct Hslot as [?|Hslot]; [done|]. by apply (Ht2 r (f, k) e). }
  5: { intros q [_ Hq] [Hqg Hqr]. rewrite Hmem. unfold link. rewrite mem_put_ne.
       - simpl. apply lookup_insert_ne. intros ->. done.
       - intros ->. destruct r0 as [i|i j]; simpl in Hpar; [by injection Hpar as <-|].
         destruct (ent s g (o + i) ≫= child) as [m|] eqn:Hm; [|done]. injection Hpar as <-.
         apply (Hqr (RPmd i)); [simpl in *; lia|done]. }
  - split.
    + apply Hb, Hw.
    + apply Hw.
    + intros r f Hr. rewrite Hrole by done. case_decide; [intros [= <-]; done|].
      intros E. destruct (tw_busy s g o Hw r f Hr E). auto.
    + intros r r' f Hr Hr'. rewrite !Hrole by done. case_decide as E1; case_decide as E2.
      * congruence.
      * intros [= <-] E. by destruct (Hpr r' Hr').
      * intros E [= <-]. by destruct (Hpr r Hr).
      * by apply (tw_inj s g o Hw).
  - intros va Hv. destruct (user_va_role va Hv) as [_ Hr]. unfold mapped, entry_at.
    set (r := RPte (pgd_index va) (pmd_index va)) in *. rewrite Hrole by done.
    pose proof (index_ranges va) as (_ & _ & Hx).
    case_decide as E.
    + rewrite E, Hnone. simpl. rewrite Hent, decide_False by (done || intros <-; done).
      rewrite decide_True by done. done.
    + destruct (role_frame s g o r) as [f|] eqn:Ef; [|done]. simpl. rewrite Hent by done.
      rewrite !decide_False; [done| |].
      * intros ->. by apply (Hpr r).
      * intros <-. by apply (Hnl _ _ Hr).
  - intros q Hq. split; [by apply Hb|]. apply Hmeta. intros ->. by destruct Hq.
  - intros r f Hr. rewrite Hrole by done. case_decide; [|by left]. intros [= <-]. by right.
Qed.

Lemma get_pte_ok g o s r0 fk perm :
  mm_inv s → tree_wf s g o → user_role r0 → role_frame s g o r0 = None →
  parent_slot s g o r0 = Some fk → 0 < perm < PAGE_SIZE → has_flag perm _PAGE_PRESENT = true →
  ∃ b s', get_pte (slot fk.1 fk.2) perm s = Ok (b, s') ∧
    if b : bool then extends g o s s' ∧ is_Some (role_frame s' g o r0) ∧ (full s' → scarce 1 s) else s' = s ∧ full s.
Proof.
  intros Hi Hw Hr0 Hnone Hpar Hperm Hpres.
  destruct (parent_not_leaf s g o r0 fk.1 fk.2 Hw Hr0) as (Hk & Hbf & _);
    [by rewrite Hpar; destruct fk|].
  unfold get_pte. destruct (alloc_zeroed_ok s Hi) as (r & s1 & Hrun & Hi1 & Hr).
  rewrite (bind_Ok _ _ _ _ _ Hrun). destruct r as [p|].
  2: { destruct Hr as [-> Hfull]. by exists false, s. }
  destruct Hr as [Hfree Hbusy Hmem Honly Htlb].
  destruct (only_orders_shape _ _ Honly) as (_ & Ee & _).
  pose proof (free_in_zone s p Hi Hfree) as Hp.
  assert (Hbp : busy s1 p) by (split; [by rewrite Ee|intros [_ ?]%Hbusy; done]).
  destruct (busy_page s1 p Hi1 Hbp) as [pg Hpg].
  set (s2 := with_page p (set_nref (i32 (nref pg + 1)) pg) s1).
  assert (Hi2 : mm_inv s2) by (by apply mm_inv_nref).
  erewrite bind_Ok.
  2: { unfold atomic_inc_nref, upd_page. run_step.
       by rewrite (bind_Ok _ _ _ _ _ (of_option_Some _ _ _ Hpg)). }
  run_step. fold s2.
  rewrite (bind_Ok _ _ _ _ _ (lift_Ok _ _ _ (frame_phys s2 p Hi2 (proj1 Hbp)))).
  destruct (ent_total s2 fk.1 fk.2 Hi2) as [e He]; [|done|].
  { change (zend (nz s2)) with (zend (nz s1)). rewrite Ee. apply Hbf. }
  rewrite (bind_Ok _ _ _ _ _ (entry_set_ok s2 fk.1 fk.2 e (p * PAGE_SIZE) perm
    (proj1 (proj1 Hbf)) Hk He ltac:(pose proof (frame_bounds s p Hi Hp); unfold PAGE_SIZE; lia)
    ltac:(by exists p) ltac:(unfold PAGE_SIZE in *; lia))).
  exists true, (put_ent fk.1 fk.2 (p * PAGE_SIZE + perm) s2). split; [done|].
  destruct (grown_extends g o s (put_ent fk.1 fk.2 (p * PAGE_SIZE + perm) s2) r0 fk perm p)
    as [Hx Hrole]; [done..| |].
  2: { split; [exact Hx|]. split; [by rewrite Hrole; eauto|]. intros Hfull. apply (scarce_more 0 s s1 p); [|by apply full_scarce].
       intros q Hq. destruct (decide (q = p)) as [->|Hne]; [by left|right]. by apply Hbusy. }
  split; [by apply mm_inv_put|done| |done|done| |done|].
  3: { destruct (zi_ready (nz s) 0 (mi_zone s Hi) p Hfree) as (pg0 & Hpg0 & Hn0 & Hf0).
       pose proof (oo_pages _ _ Honly p) as Ho. rewrite Hpg0 in Ho. change (pages (nz s1) !! p) with (mempage s1 !! p) in Ho.
       rewrite Hpg in Ho. injection Ho as Ho1 Ho2. rewrite Hn0 in Ho1.
       exists (set_nref (i32 (nref pg + 1)) pg). assert (E1 : i32 (nref pg + 1) = 1) by (rewrite Ho1; reflexivity).
       split; [|exact E1]. split; [exact Hbp|]. split; [apply lookup_insert_eq|]. cbn [nref flags set_nref]. rewrite E1. split; [lia|]. congruence. }
  - unfold link. simpl. by rewrite Hmem.
  - intros q Hq. unfold meta. simpl. rewrite lookup_insert_ne by done.
    apply (oo_pages _ _ Honly q).
Qed.

Lemma get_pmd_get_pte pgd perm :
  get_pmd pgd perm = get_pte pgd (Z.land perm (Z.lnot (Z.lor _PAGE_RW _PAGE_USER))).
Proof. done. Qed.

(** ** Walking the tables *)

Lemma child_Some e f : child e = Some f → e ≠ 0 ∧ eframe e = f.
Proof. unfold child. case_decide; [done|]. by intros [= <-]. Qed.

Lemma child_None e : child e = None → e = 0.
Proof. unfold child. by case_decide. Qed.

Lemma follow_ok s f k e c idx :
  0 ≤ k < 512 → ent s f k = Some e → child e = Some c → 0 ≤ c < 0x30000 → 0 ≤ idx < 512 →
  (e ← load64 (slot f k); va ← lift (entry_page_vaddr e); mret (u32 (va + 8 * idx))) s
    = Ok (slot c idx, s).
Proof.
  intros Hk He [_ Hc]%child_Some Hcr Hidx.
  rewrite (bind_Ok _ _ _ _ _ (load64_ok s f k e Hk He)).
  rewrite (bind_Ok _ _ _ _ _ (lift_Ok _ _ _ (entry_vaddr_ok e ltac:(lia)))). rewrite Hc.
  replace (c * PAGE_SIZE + KERNEL_BASE_ADDR) with (slot c 0) by (unfold slot; lia).
  by rewrite slot_u32 by lia.
Qed.

Section walks.
Context (s : mstate) (g o va : Z) (Hi : mm_inv s) (Hw : tree_wf s g o).
Context (Hv : user_va va) (Hv0 : va ≠ 0).

Let i := pgd_index va.
Let j := pmd_index va.
Let k := pte_index va.

Lemma walk_role_bound r f : user_role r → role_frame s g o r = Some f → 0 ≤ f < 0x30000.
Proof.
  intros Hr Hf. destruct (tw_busy s g o Hw r f Hr Hf) as [[Hb _] _].
  by apply (frame_bounds s f Hi).
Qed.

Lemma root_bound : 0 ≤ g < 0x30000.
Proof. destruct (tw_root s g o Hw) as [Hb _]. by apply (frame_bounds s g Hi). Qed.

Lemma pgd_offset_ok : pgd_offset (slot g o) va = slot g (o + i).
Proof.
  unfold pgd_offset. pose proof (index_ranges va). pose proof (tw_off s g o Hw).
  pose proof root_bound. apply slot_u32; lia.
Qed.

Lemma pgd_word : 0 ≤ o + i < 512.
Proof. pose proof (index_ranges va). pose proof (tw_off s g o Hw). unfold i. lia. Qed.

Lemma pmd_role_ent m :
  role_frame s g o (RPmd i) = Some m → ∃ e, ent s g (o + i) = Some e ∧ child e = Some m.
Proof. simpl. destruct (ent s g (o + i)) as [e|]; [|done]. eauto. Qed.

Lemma pmd_offset_ok m :
  role_frame s g o (RPmd i) = Some m → pmd_offset (slot g (o + i)) va s = Ok (slot m j, s).
Proof.
  intros Hm. destruct (pmd_role_ent m Hm) as (e & He & Hc).
  eapply follow_ok; [apply pgd_word|done|done| |apply index_ranges].
  eapply walk_role_bound; [|done]. by apply user_va_role.
Qed.

Lemma pte_offset_ok m e f :
  ent s m j = Some e → child e = Some f → 0 ≤ f < 0x30000 →
  pte_offset (slot m j) va s = Ok (slot f k, s).
Proof.
  intros He Hc Hf. unfold pte_offset.
  rewrite (bind_Ok _ _ _ _ _ (assert_true _ s (bool_decide_eq_true_2 _ Hv0))).
  eapply follow_ok; [apply index_ranges|done|done|done|apply index_ranges].
Qed.

Lemma page_walk_pmd_found create f :
  role_frame s g o (RPte i j) = Some f →
  page_walk_pmd (slot g (o + i)) va create s = Ok (Some (slot f k), s).
Proof.
  intros Hf. pose proof Hf as Hf'. rewrite role_frame_pte in Hf.
  destruct (role_frame s g o (RPmd i)) as [m|] eqn:Em; [|done]. simpl in Hf.
  destruct (ent s m j) as [e|] eqn:Ee; [|done]. simpl in Hf.
  unfold page_walk_pmd. rewrite (bind_Ok _ _ _ _ _ (pmd_offset_ok m Em)).
  rewrite (bind_Ok _ _ _ _ _ (load64_ok s m j e (proj1 (proj2 (index_ranges va))) Ee)).
  destruct (child_Some e f Hf) as [Hne _]. unfold pmd_none.
  rewrite (proj2 (Z.eqb_neq _ _) Hne).
  assert (0 ≤ f < 0x30000) by (eapply walk_role_bound; [|done]; by apply user_va_role).
  by rewrite (bind_Ok _ _ _ _ _ (pte_offset_ok m e f Ee Hf ltac:(done))).
Qed.

Lemma page_walk_found create f :
  role_frame s g o (RPte i j) = Some f →
  page_walk (slot g o) va create s = Ok (Some (slot f k), s).
Proof.
  intros Hf. pose proof Hf as Hm. rewrite role_frame_pte in Hm.
  destruct (role_frame s g o (RPmd i)) as [m|] eqn:Em; [|done].
  destruct (pmd_role_ent m Em) as (e1 & He1 & Hc1).
  unfold page_walk. cbv zeta. rewrite pgd_offset_ok.
  rewrite (bind_Ok _ _ _ _ _ (load64_ok s g (o + i) e1 pgd_word He1)).
  destruct (child_Some e1 m Hc1) as [Hne1 _]. unfold pgd_none.
  rewrite (proj2 (Z.eqb_neq _ _) Hne1). by apply page_walk_pmd_found.
Qed.

Lemma page_walk_tail f :
  role_frame s g o (RPte i j) = Some f →
  (pmd ← pmd_offset (slot g (o + i)) va; pte ← pte_offset pmd va; mret (Some pte)) s
    = Ok (Some (slot f k), s).
Proof.
  intros Hf. pose proof Hf as Hf'. rewrite role_frame_pte in Hf.
  destruct (role_frame s g o (RPmd i)) as [m|] eqn:Em; [|done]. simpl in Hf.
  destruct (ent s m j) as [e|] eqn:Ee; [|done]. simpl in Hf.
  rewrite (bind_Ok _ _ _ _ _ (pmd_offset_ok m Em)).
  assert (0 ≤ f < 0x30000) by (eapply walk_role_bound; [|done]; by apply user_va_role).
  by rewrite (bind_Ok _ _ _ _ _ (pte_offset_ok m e f Ee Hf ltac:(done))).
Qed.
End walks.

(** Below an existing page middle directory. *)
Lemma page_walk_pmd_ok s g o va create m :
  mm_inv s → tree_wf s g o → user_va va → va ≠ 0 →
  role_frame s g o (RPmd (pgd_index va)) = Some m →
  role_frame s g o (RPte (pgd_index va) (pmd_index va)) = None →
  ∃ r s', page_walk_pmd (slot g (o + pgd_index va)) va create s = Ok (r, s') ∧
    match r with
    | Some a => create = true ∧ extends g o s s' ∧
        ∃ f, role_frame s' g o (RPte (pgd_index va) (pmd_index va)) = Some f ∧
             a = slot f (pte_index va)
    | None => s' = s ∧ (create = true → full s)
    end.
Proof.
  intros Hi Hw Hv Hv0 Hm Hnone. pose proof (index_ranges va) as (_ & Hj & _).
  destruct (user_va_role va Hv) as [Hu1 Hu2].
  destruct (tw_busy s g o Hw _ _ Hu1 Hm) as [[Hbm _] _].
  destruct (ent_total s m (pmd_index va) Hi Hbm Hj) as [e He].
  assert (e = 0) as ->.
  { apply child_None. rewrite role_frame_pte, Hm in Hnone. simpl in Hnone. by rewrite He in Hnone. }
  unfold page_walk_pmd. rewrite (bind_Ok _ _ _ _ _ (pmd_offset_ok s g o va Hi Hw Hv m Hm)).
  rewrite (bind_Ok _ _ _ _ _ (load64_ok s m _ 0 Hj He)). cbn [pmd_none Z.eqb].
  destruct create; cbn [negb]; [|by exists None, s].
  destruct (get_pte_ok g o s _ (m, pmd_index va) TABLE_PERM Hi Hw Hu2 Hnone) as (b & s' & Hrun & Hb).
  { unfold parent_slot. by rewrite Hm. }
  { by vm_compute. }
  { by vm_compute. }
  cbn [fst snd] in Hrun. rewrite (bind_Ok _ _ _ _ _ Hrun).
  destruct b; cbn [negb]; [|by destruct Hb as [-> Hb]; exists None, s].
  destruct Hb as (Hx & [f Hf] & _). exists (Some (slot f (pte_index va))), s'. split; [|eauto].
  by apply page_walk_tail; [apply Hx|apply Hx| | |].
Qed.

Definition leaf_role (va : Z) : role := RPte (pgd_index va) (pmd_index va).

(** Without [create], a missing table means NULL and no change. *)
Lemma page_walk_absent s g o va :
  mm_inv s → tree_wf s g o → user_va va → va ≠ 0 →
  role_frame s g o (leaf_role va) = None → page_walk (slot g o) va false s = Ok (None, s).
Proof.
  intros Hi Hw Hv Hv0 Hnone. unfold page_walk. cbv zeta. rewrite (pgd_offset_ok s g o va Hi Hw).
  pose proof (pgd_word s g o va Hw) as Hk.
  destruct (ent_total s g (o + pgd_index va) Hi (proj1 (tw_root s g o Hw)) Hk) as [e He].
  rewrite (bind_Ok _ _ _ _ _ (load64_ok s g _ e Hk He)). unfold pgd_none.
  destruct (Z.eqb_spec e 0) as [->|Hne]; [done|].
  destruct (page_walk_pmd_ok s g o va false (eframe e)) as (r & s' & Hrun & Hr); try done.
  { simpl. rewrite He. simpl. unfold child. by rewrite decide_False. }
  rewrite Hrun. destruct r as [a|]; [by destruct Hr|]. by destruct Hr as [-> _].
Qed.

(** The end of a walk that creates: the leaf table, unless memory ran out. *)
Definition walk_end (s : mstate) (g o va : Z) (r : option Z) (s' : mstate) : Prop :=
  extends g o s s' ∧
  (r = None ∧ (full s' ∧ scarce 1 s) ∨ ∃ f, role_frame s' g o (leaf_role va) = Some f ∧ r = Some (slot f (pte_index va))).

Lemma page_walk_pmd_create s s1 g o va :
  extends g o s s1 → (full s1 → scarce 1 s) → user_va va → va ≠ 0 →
  is_Some (role_frame s1 g o (RPmd (pgd_index va))) →
  ∃ r s', page_walk_pmd (slot g (o + pgd_index va)) va true s1 = Ok (r, s') ∧
    walk_end s g o va r s'.
Proof.
  intros Hx1 Hsc Hv Hv0 [m Hm].
  destruct (role_frame s1 g o (leaf_role va)) as [f|] eqn:Hf1.
  - exists (Some (slot f (pte_index va))), s1. split; [|split; [done|right; eauto]].
    by apply page_walk_pmd_found; [apply Hx1|apply Hx1| | |].
  - destruct (page_walk_pmd_ok s1 g o va true m) as (r & s' & Hrun & Hr);
      [apply Hx1|apply Hx1|done..|].
    exists r, s'. split; [done|]. destruct r as [a|].
    + destruct Hr as (_ & Hx & f & Hf' & ->). split; [by eapply extends_trans|]. right. eauto.
    + destruct Hr as [-> Hfull]. specialize (Hfull eq_refl). split; [done|left]. auto.
Qed.

(** With [create], the table is there unless memory ran out; the address space is
    unchanged in both cases. *)
Lemma page_walk_create s g o va :
  mm_inv s → tree_wf s g o → user_va va → va ≠ 0 →
  ∃ r s', page_walk (slot g o) va true s = Ok (r, s') ∧ walk_end s g o va r s'.
Proof.
  intros Hi Hw Hv Hv0. destruct (user_va_role va Hv) as [Hu1 Hu2].
  unfold page_walk. cbv zeta. rewrite (pgd_offset_ok s g o va Hi Hw).
  pose proof (pgd_word s g o va Hw) as Hk.
  destruct (ent_total s g (o + pgd_index va) Hi (proj1 (tw_root s g o Hw)) Hk) as [e He].
  rewrite (bind_Ok _ _ _ _ _ (load64_ok s g _ e Hk He)). unfold pgd_none.
  destruct (Z.eqb_spec e 0) as [->|Hne].
  - cbn [negb]. rewrite get_pmd_get_pte.
    destruct (get_pte_ok g o s (RPmd (pgd_index va)) (g, o + pgd_index va)
      (Z.land TABLE_PERM (Z.lnot (Z.lor _PAGE_RW _PAGE_USER))) Hi Hw Hu1) as (b & s1 & Hrun & Hb).
    { simpl. by rewrite He. }
    { done. }
    { by vm_compute. }
    { by vm_compute. }
    cbn [fst snd] in Hrun. rewrite (bind_Ok _ _ _ _ _ Hrun). destruct b; cbn [negb].
    + destruct Hb as (Hx & Hs & Hsc). by apply page_walk_pmd_create.
    + destruct Hb as [-> Hfull]. exists None, s. split; [done|]. split; [by apply extends_refl|left].
      split; [done|]. split; [done|by apply full_scarce].
  - apply page_walk_pmd_create; [by apply extends_refl|apply full_scarce|done|done|].
    simpl. rewrite He. simpl. unfold child. rewrite decide_False by done. eauto.
Qed.

(** ** Writing a leaf entry *)

Definition same_page (va va' : Z) : Prop := va / PAGE_SIZE = va' / PAGE_SIZE.

#[global] Instance same_page_dec va va' : Decision (same_page va va').
Proof. unfold same_page. apply _. Defined.

Lemma same_page_indices va va' :
  user_va va → user_va va' →
  same_page va va' ↔ leaf_role va = leaf_role va' ∧ pte_index va = pte_index va'.
Proof.
  unfold user_va, KERNEL_BASE_ADDR, same_page, leaf_role. intros Hv Hv'.
  pose proof (index_ranges va). pose proof (index_ranges va').
  rewrite (indices_page va), (indices_page va') by lia. split.
  - intros E. assert (pgd_index va = pgd_index va' ∧ pmd_index va = pmd_index va' ∧
      pte_index va = pte_index va') as (-> & -> & ->) by lia. done.
  - intros [[= -> ->] ->]. done.
Qed.

Lemma tree_wf_transfer s s' g o :
  tree_wf s g o → mem s' = mem s → busy s' g →
  (∀ r f, user_role r → role_frame s g o r = Some f → busy s' f) → tree_wf s' g o.
Proof.
  intros Hw Hm Hg Hb. pose proof (λ r, role_frame_mem s s' g o r Hm) as Hr. split.
  - done.
  - apply Hw.
  - intros r f Hu E. rewrite Hr in E. split; [by eapply Hb|]. by apply (tw_busy s g o Hw r f).
  - intros r r' f Hu Hu'. rewrite !Hr. by apply (tw_inj s g o Hw).
Qed.

Lemma mapped_mem s s' g o va : mem s' = mem s → mapped s' g o va = mapped s g o va.
Proof.
  intros E. unfold mapped, entry_at. rewrite (role_frame_mem s s') by done.
  unfold ent. by rewrite E.
Qed.

Section leaf.
Context (s : mstate) (g o va f : Z) (Hw : tree_wf s g o) (Hv : user_va va).
Context (Hf : role_frame s g o (leaf_role va) = Some f).

Lemma leaf_facts :
  f ≠ g ∧ ∀ i, user_role (RPmd i) → role_frame s g o (RPmd i) ≠ Some f.
Proof.
  destruct (user_va_role va Hv) as [_ Hu]. split; [by apply (tw_busy s g o Hw _ _ Hu Hf)|].
  intros i Hi E. pose proof (tw_inj s g o Hw _ _ _ Hi Hu E Hf). done.
Qed.

Lemma put_leaf_role v r :
  user_role r →
  role_frame (put_ent f (pte_index va) v s) g o r = role_frame s g o r.
Proof.
  intros Hr. destruct leaf_facts. pose proof (index_ranges va). pose proof (tw_off s g o Hw).
  apply role_frame_put_leaf; [lia|lia|done..].
Qed.

Lemma put_leaf_tree v : tree_wf (put_ent f (pte_index va) v s) g o.
Proof.
  split.
  - apply (tw_root s g o Hw).
  - apply Hw.
  - intros r c Hr. rewrite put_leaf_role by done. by apply (tw_busy s g o Hw).
  - intros r r' c Hr Hr'. rewrite !put_leaf_role by done. by apply (tw_inj s g o Hw).
Qed.

Lemma put_leaf_mapped v e va' :
  ent s f (pte_index va) = Some e → user_va va' →
  mapped (put_ent f (pte_index va) v s) g o va' =
    if decide (same_page va va') then (if pte_present v then Some v else None)
    else mapped s g o va'.
Proof.
  intros He Hv'. destruct (user_va_role va' Hv') as [_ Hu'].
  destruct (user_va_role va Hv) as [_ Hu].
  unfold mapped at 1, entry_at. fold (leaf_role va'). rewrite put_leaf_role by done.
  pose proof (same_page_indices va va' Hv Hv') as Hsp.
  destruct (decide (same_page va va')) as [Hs|Hs].
  - apply Hsp in Hs as [<- <-]. rewrite Hf. simpl. by rewrite (ent_put_eq _ _ _ _ e).
  - unfold mapped, entry_at. fold (leaf_role va').
    destruct (role_frame s g o (leaf_role va')) as [f'|] eqn:Ef'; [|done]. simpl.
    rewrite ent_put_ne; [done|apply index_ranges|apply index_ranges|].
    intros [= -> Ek]. apply Hs, Hsp. split; [|done].
    by apply (tw_inj s g o Hw _ _ f Hu Hu').
Qed.
End leaf.

(** ** Dropping a reference *)

Record dropped (s s' : mstate) (q : Z) (pg : page) : Prop := {
  dr_inv : mm_inv s';
  dr_mem : mem s' = mem s;
  dr_tlb : tlb s' = tlb s;
  dr_end : zend (nz s') = zend (nz s);
  dr_free : ∀ i, free_page (nz s') i ↔ free_page (nz s) i ∨ nref pg = 1 ∧ i = q;
  dr_meta : ∀ i, meta s' i =
    if decide (i = q) then Some (set_nref (nref pg - 1) (set_order 0 pg)) else meta s i;
}.

Lemma with_page_meta s q pg v i :
  mempage s !! q = Some pg →
  meta (with_page q (set_nref v pg) s) i =
    if decide (i = q) then Some (set_nref v (set_order 0 pg)) else meta s i.
Proof.
  intros Hq. unfold meta. simpl. rewrite lookup_insert.
  case_decide; [subst; by rewrite decide_True|by rewrite decide_False by congruence].
Qed.

Lemma pages_free_ok s p k :
  mm_inv s → 0 ≤ k < MAXORDER → hole (nz s) p k →
  ∃ s', pages_free p k s = Ok (tt, s') ∧ mm_inv s' ∧ mem s' = mem s ∧ tlb s' = tlb s ∧
    only_orders (nz s) (nz s') ∧
    (∀ i, free_page (nz s') i ↔ free_page (nz s) i ∨ in_blk p k i).
Proof.
  intros Hi Hk Hh. unfold pages_free.
  rewrite (bind_Ok _ _ _ _ _ (assert_true _ s (bool_decide_eq_true_2 (k ≤ MAXORDER) ltac:(lia)))).
  run_step.
  assert (Hr : 0 ≤ p < zend (nz s)).
  { destruct Hh as [(H1 & H2 & _) _ _]. pose proof (mi_base s Hi).
    pose proof (pow2_pos k ltac:(lia)). lia. }
  rewrite (bind_Ok _ _ _ _ _ (lift_Ok _ _ _ (frame_phys s p Hi Hr))).
  pose proof (frame_bounds s p Hi Hr) as Hbd.
  rewrite bool_decide_true by (unfold PAGE_SIZE, NORMAL_ADDR, KERNEL_NORMAL, KERNEL_BASE_ADDR; lia).
  destruct (free_buddy_ok (nz s) p k (mi_zone s Hi) Hk Hh) as (z & Hrun & Hz & Hoo & Hfr).
  unfold in_zone. rewrite Hrun. exists (put_zone false s z). split; [done|].
  pose proof (put_zone_nz s z Hoo) as Ez.
  split_and!; [by apply mm_inv_zone|done|done|by rewrite Ez|]. intros i. by rewrite Ez.
Qed.

Lemma page_free_ok s q pg :
  mm_inv s → busy s q → mempage s !! q = Some pg → nref pg = 0 →
  has_flag (flags pg) _pg_reserved = false →
  ∃ s', page_free q s = Ok (tt, s') ∧ mm_inv s' ∧ mem s' = mem s ∧ tlb s' = tlb s ∧
    only_orders (nz s) (nz s') ∧
    (∀ i, free_page (nz s') i ↔ free_page (nz s) i ∨ i = q).
Proof.
  intros Hi [Hr Hb] Hpg Hn Hf.
  assert (Hone : ∀ j, in_blk q 0 j ↔ j = q) by (unfold in_blk; intros; simpl; lia).
  destruct (pages_free_ok s q 0 Hi) as (s' & Hrun & Hi' & Hm & Ht & Hoo & Hfr).
  { unfold MAXORDER. lia. }
  { split.
    - pose proof (mi_base s Hi). split_and!; [lia|simpl; lia|apply Z.divide_1_l].
    - intros i ->%Hone. done.
    - intros i ->%Hone. exists pg. done. }
  exists s'. split_and!; [done..|]. intros i. by rewrite Hfr, Hone.
Qed.

Lemma page_decref_ok s q pg :
  mm_inv s → referenced s q pg → ∃ s', page_decref q s = Ok (tt, s') ∧ dropped s s' q pg.
Proof.
  intros Hi (Hb & Hpg & Hn & Hf). unfold page_decref, atomic_dec_and_test_nref, upd_page.
  rewrite !bind_assoc. run_step. rewrite bind_assoc.
  rewrite (bind_Ok _ _ _ _ _ (of_option_Some _ _ _ Hpg)). run_step.
  rewrite i32_small by lia. rewrite bind_assoc. run_step. rewrite bind_assoc.
  set (s1 := with_page q (set_nref (nref pg - 1) pg) s).
  assert (Hi1 : mm_inv s1) by (by apply mm_inv_nref).
  assert (Hl : mempage s1 !! q = Some (set_nref (nref pg - 1) pg)) by apply lookup_insert_eq.
  rewrite (bind_Ok _ _ _ _ _ (of_option_Some _ _ _ Hl)). run_step.
  pose proof (with_page_meta s q pg (nref pg - 1)) as Hmeta.
  case_bool_decide as Hz; simpl in Hz.
  - destruct (page_free_ok s1 q _ Hi1 Hb Hl Hz Hf) as (s' & Hrun & Hi' & Hm & Ht & Hoo & Hfr).
    exists s'. split; [done|]. destruct (only_orders_shape _ _ Hoo) as (_ & Ee & _).
    split; [done..| | |].
    + by rewrite Ee.
    + intros i. rewrite Hfr. change (free_page (nz s1) i) with (free_page (nz s) i).
      split; [intros [?| ->]; [by left|right; lia]|intros [?|[_ ?]]; auto].
    + intros i. etrans; [apply (oo_pages _ _ Hoo i)|]. by apply Hmeta.
  - exists s1. split; [done|]. split; [done..| |].
    + intros i. change (free_page (nz s1) i) with (free_page (nz s) i).
      split; [by left|]. intros [?|[? _]]; [done|lia].
    + intros i. by apply Hmeta.
Qed.

(** ** Removing a mapping *)

Lemma mapped_slot s g o va e :
  mapped s g o va = Some e →
  ∃ f, role_frame s g o (leaf_role va) = Some f ∧ ent s f (pte_index va) = Some e ∧
       pte_present e = true.
Proof.
  unfold mapped, entry_at. fold (leaf_role va).
  destruct (role_frame s g o (leaf_role va)) as [f|]; [|done]. simpl.
  destruct (ent s f (pte_index va)) as [e'|] eqn:E; [|done]. simpl.
  destruct (pte_present e') eqn:Ep; [|done]. intros [= <-]. eauto.
Qed.

Lemma dropped_tree s s' g o q pg :
  tree_wf s g o → no_table s g o q → dropped s s' q pg → tree_wf s' g o.
Proof.
  intros Hw [Hqg Hq] []. assert (Hb : ∀ f, f ≠ q → busy s f → busy s' f).
  { intros f Hne [H1 H2]. split; [by rewrite dr_end0|]. intros [?|[_ ?]]%dr_free0; done. }
  apply (tree_wf_transfer s); [done..| |].
  - apply Hb; [done|apply Hw].
  - intros r f Hr E. apply Hb; [intros ->; by apply (Hq r)|]. by apply (tw_busy s g o Hw r f).
Qed.

Record removed (g o : Z) (s s' : mstate) (va q : Z) (pg : page) : Prop := {
  rm_inv : mm_inv s';
  rm_tree : tree_wf s' g o;
  rm_roles : ∀ r, user_role r → role_frame s' g o r = role_frame s g o r;
  rm_mapped : ∀ va', user_va va' → mapped s' g o va' =
    if decide (same_page va va') then None else mapped s g o va';
  rm_free : ∀ i, free_page (nz s') i ↔ free_page (nz s) i ∨ nref pg = 1 ∧ i = q;
  rm_end : zend (nz s') = zend (nz s);
  rm_meta : ∀ i, meta s' i =
    if decide (i = q) then Some (set_nref (nref pg - 1) (set_order 0 pg)) else meta s i;
  rm_tlb : tlb s' = va :: tlb s;
  rm_data : ∀ i, no_leaf s g o i → mem s' !! i = mem s !! i;
}.

Section remove.
Context (s : mstate) (g o va : Z) (Hi : mm_inv s) (Hw : tree_wf s g o).
Context (Hv : user_va va) (Hv0 : va ≠ 0).

Lemma root_pos : slot g o ≠ 0.
Proof.
  destruct (tw_root s g o Hw) as [? _]. pose proof (tw_off s g o Hw). apply slot_pos; lia.
Qed.

Lemma asserts_ok {A} (c : M mstate A) :
  (assert (bool_decide (slot g o ≠ 0)) ;; assert (bool_decide (va ≠ 0)) ;; c) s = c s.
Proof.
  rewrite (bind_Ok _ _ _ _ _ (assert_true _ s (bool_decide_eq_true_2 _ root_pos))).
  by rewrite (bind_Ok _ _ _ _ _ (assert_true _ s (bool_decide_eq_true_2 _ Hv0))).
Qed.

Lemma page_lookup_mapped e :
  mapped s g o va = Some e → busy s (eframe e) →
  ∃ f, role_frame s g o (leaf_role va) = Some f ∧ ent s f (pte_index va) = Some e ∧
    page_lookup (slot g o) va s = Ok (Some (eframe e, slot f (pte_index va)), s).
Proof.
  intros He [Hb _]. destruct (mapped_slot s g o va e He) as (f & Hf & Hent & Hp).
  exists f. split_and!; [done..|]. unfold page_lookup. rewrite asserts_ok.
  rewrite (bind_Ok _ _ _ _ _ (page_walk_found s g o va Hi Hw Hv Hv0 false f Hf)).
  rewrite (bind_Ok _ _ _ _ _ (load64_ok s f _ e (proj2 (proj2 (index_ranges va))) Hent)).
  rewrite Hp. cbn [negb]. pose proof (frame_bounds s _ Hi Hb) as [Hfb Hmx].
  rewrite (bind_Ok _ _ _ _ _ (lift_Ok _ _ _ (entry_vaddr_ok e Hfb))). run_step.
  erewrite bind_Ok; [done|]. by apply lift_Ok, frame_virt.
Qed.

Lemma page_lookup_unmapped :
  mapped s g o va = None → page_lookup (slot g o) va s = Ok (None, s).
Proof.
  intros Hn. unfold page_lookup. rewrite asserts_ok.
  destruct (role_frame s g o (leaf_role va)) as [f|] eqn:Hf.
  - rewrite (bind_Ok _ _ _ _ _ (page_walk_found s g o va Hi Hw Hv Hv0 false f Hf)).
    destruct (user_va_role va Hv) as [_ Hu].
    destruct (tw_busy s g o Hw _ _ Hu Hf) as [[Hb _] _].
    pose proof (proj2 (proj2 (index_ranges va))) as Hk.
    destruct (ent_total s f (pte_index va) Hi Hb Hk) as [e He].
    rewrite (bind_Ok _ _ _ _ _ (load64_ok s f _ e Hk He)).
    unfold mapped, entry_at in Hn. fold (leaf_role va) in Hn. rewrite Hf in Hn. simpl in Hn.
    rewrite He in Hn. simpl in Hn. destruct (pte_present e); done.
  - by rewrite (bind_Ok _ _ _ _ _ (page_walk_absent s g o va Hi Hw Hv Hv0 Hf)).
Qed.

Lemma page_remove_ok e pg :
  mapped s g o va = Some e → referenced s (eframe e) pg → no_table s g o (eframe e) →
  ∃ s', page_remove (slot g o) va s = Ok (tt, s') ∧ removed g o s s' va (eframe e) pg.
Proof.
  intros He Href Hnt. destruct (page_lookup_mapped e He (proj1 Href)) as (f & Hf & Hent & Hrun).
  pose proof (proj2 (proj2 (index_ranges va))) as Hk.
  unfold page_remove. rewrite asserts_ok, (bind_Ok _ _ _ _ _ Hrun).
  destruct (page_decref_ok s (eframe e) pg Hi Href) as (s1 & Hrun1 & Hd).
  rewrite (bind_Ok _ _ _ _ _ Hrun1).
  pose proof (dropped_tree s s1 g o _ pg Hw Hnt Hd) as Hw1. destruct Hd.
  assert (Hf1 : role_frame s1 g o (leaf_role va) = Some f)
    by (by rewrite (role_frame_mem s s1)).
  assert (Hent1 : ent s1 f (pte_index va) = Some e) by (unfold ent; by rewrite dr_mem0).
  destruct (user_va_role va Hv) as [_ Hu].
  destruct (tw_busy s g o Hw _ _ Hu Hf) as [[Hb _] _].
  rewrite (bind_Ok _ _ _ _ _ (entry_set_ok s1 f _ e 0 0 (proj1 Hb) Hk Hent1 ltac:(lia)
    (Z.divide_0_r _) ltac:(lia))).
  exists (with_tlb va (put_ent f (pte_index va) 0 s1)). split; [done|].
  split.
  - by apply mm_inv_tlb, mm_inv_put.
  - eapply (tree_wf_transfer (put_ent f (pte_index va) 0 s1)); [by apply put_leaf_tree|done| |].
    + apply (tw_root s1 g o Hw1).
    + intros r c Hr. rewrite (put_leaf_role s1 g o va f Hw1 Hv Hf1) by done.
      by apply (tw_busy s1 g o Hw1).
  - intros r Hr. rewrite (role_frame_mem (put_ent f (pte_index va) 0 s1)) by done.
    rewrite (put_leaf_role s1 g o va f Hw1 Hv Hf1) by done. by apply role_frame_mem.
  - intros va' Hv'. rewrite (mapped_mem (put_ent f (pte_index va) 0 s1)) by done.
    rewrite (put_leaf_mapped s1 g o va f Hw1 Hv Hf1 0 e va' Hent1 Hv').
    by rewrite (mapped_mem s s1).
  - done.
  - done.
  - done.
  - simpl. by rewrite dr_tlb0.
  - intros i Hn. cbn [with_tlb mem]. rewrite mem_put_ne; [by rewrite dr_mem0|].
    intros ->. by apply (Hn _ _ Hu).
Qed.
End remove.

(** ** Inserting a mapping *)

Definition b2z (P : Prop) `{Decision P} : Z := if decide P then 1 else 0.

Lemma b2z_range (P : Prop) `{Decision P} : 0 ≤ b2z P ≤ 1.
Proof. unfold b2z. case_decide; lia. Qed.

Lemma b2z_true (P : Prop) `{Decision P} : P → b2z P = 1.
Proof. intros. unfold b2z. by rewrite decide_True. Qed.

Lemma b2z_false (P : Prop) `{Decision P} : ¬ P → b2z P = 0.
Proof. intros. unfold b2z. by rewrite decide_False. Qed.

(** The frame mapped at [va]. *)
Definition old_frame (s : mstate) (g o va : Z) : option Z := eframe <$> mapped s g o va.

(** What [page_insert] of the frame [p] did. *)
Record inserted (g o : Z) (s s' : mstate) (va p perm : Z) : Prop := {
  in_inv : mm_inv s';
  in_tree : tree_wf s' g o;
  in_mapped : ∀ va', user_va va' → mapped s' g o va' =
    if decide (same_page va va') then Some (p * PAGE_SIZE + perm) else mapped s g o va';
  in_nref : ∀ i, busy s i → meta s' i =
    (λ pg, set_nref (nref pg + b2z (i = p) - b2z (old_frame s g o va = Some i)) pg) <$> meta s i;
  in_freed : ∀ i pg, busy s i → mempage s !! i = Some pg →
    free_page (nz s') i ↔ old_frame s g o va = Some i ∧ i ≠ p ∧ nref pg = 1;
  in_roles : ∀ r f, user_role r → role_frame s' g o r = Some f →
    role_frame s g o r = Some f ∨ free_page (nz s) f;
  in_end : zend (nz s') = zend (nz s);
  in_flushed : ∃ l, tlb s' = va :: l;
  in_data : ∀ i, busy s i → no_table s g o i → mem s' !! i = mem s !! i;
}.

(** What a frame mapped at [va] must satisfy to be unmapped. *)
Definition old_ok (s : mstate) (g o va : Z) : Prop :=
  ∀ e, mapped s g o va = Some e →
    no_table s g o (eframe e) ∧ ∃ pg, referenced s (eframe e) pg ∧ nref pg < 2 ^ 31 - 1.

Definition new_ok (s : mstate) (p : Z) : Prop :=
  busy s p ∧ ∃ pg, mempage s !! p = Some pg ∧ 0 ≤ nref pg < 2 ^ 31 - 1.

Lemma meta_Some s q pg : meta s q = Some pg → ∃ pg', mempage s !! q = Some pg' ∧
  nref pg' = nref pg ∧ flags pg' = flags pg ∧ set_order 0 pg' = pg.
Proof.
  unfold meta. destruct (mempage s !! q) as [pg'|]; [|done]. intros [= <-]. eauto.
Qed.

Lemma old_ok_extends g o s s' va :
  user_va va → extends g o s s' → old_ok s g o va → old_ok s' g o va.
Proof.
  intros Hv Hx Ho e He. rewrite (ex_mapped _ _ _ _ Hx va Hv) in He.
  destruct (Ho e He) as ([Hg Hr] & pg & (Hb & Hpg & Hn & Hf) & Hlt).
  destruct (ex_busy _ _ _ _ Hx _ Hb) as [Hb' Hm].
  split.
  - split; [done|]. intros r Hu E. destruct (ex_roles _ _ _ _ Hx r _ Hu E) as [E'|Hfree].
    + by apply (Hr r).
    + by destruct Hb.
  - unfold meta in Hm at 2. rewrite Hpg in Hm.
    destruct (meta_Some s' _ _ Hm) as (pg' & Hpg' & En & Ef & _). simpl in En, Ef.
    exists pg'. split; [|lia]. split_and!; [done|done|lia|lia|congruence].
Qed.

(** The state after the new frame has got its reference. *)
Section insert.
Context (s : mstate) (g o va p : Z) (pgp : page).
Context (Hi : mm_inv s) (Hw : tree_wf s g o) (Hv : user_va va) (Hv0 : va ≠ 0).
Context (Hb : busy s p) (Hpg : mempage s !! p = Some pgp).

Let s1 := with_page p (set_nref (nref pgp + 1) pgp) s.

Lemma inc_inv : mm_inv s1.
Proof. by apply mm_inv_nref. Qed.

Lemma inc_tree : tree_wf s1 g o.
Proof.
  apply (tree_wf_transfer s); [done|done|exact (tw_root s g o Hw)|].
  intros r f Hr E. exact (proj1 (tw_busy s g o Hw r f Hr E)).
Qed.

Lemma inc_meta i :
  meta s1 i = (λ pg, set_nref (nref pg + b2z (i = p)) pg) <$> meta s i.
Proof.
  unfold s1. rewrite with_page_meta by done. unfold b2z. case_decide as E.
  - subst i. unfold meta. rewrite Hpg. done.
  - destruct (meta s i) as [pg|]; simpl; [|done]. rewrite Z.add_0_r. by destruct pg.
Qed.

(** The reference that the old frame loses. *)
Lemma drop_old :
  old_ok s g o va →
  ∃ s2, (e ← mret (mapped s g o va);
         if e : option Z then page_remove (slot g o) va else mret tt) s1 = Ok (tt, s2) ∧
    mm_inv s2 ∧ tree_wf s2 g o ∧ zend (nz s2) = zend (nz s) ∧
    (∀ r, user_role r → role_frame s2 g o r = role_frame s g o r) ∧
    (∀ va', user_va va' → mapped s2 g o va' =
      if decide (same_page va va') then None else mapped s g o va') ∧
    (∀ i, meta s2 i = (λ pg, set_nref (nref pg + b2z (i = p) -
       b2z (old_frame s g o va = Some i)) pg) <$> meta s i) ∧
    (∀ i pg, mempage s !! i = Some pg → free_page (nz s2) i ↔
       free_page (nz s) i ∨ old_frame s g o va = Some i ∧ i ≠ p ∧ nref pg = 1) ∧
    (∀ i, no_table s g o i → mem s2 !! i = mem s !! i).
Proof.
  intros Ho. run_step. unfold old_frame. destruct (mapped s g o va) as [e|] eqn:He.
  - destruct (Ho e He) as (Hnt & pg & Href & Hlt). cbn [fmap option_fmap option_map].
    remember (eframe e) as q eqn:Eq.
    destruct Href as (Hbq & Hpgq & Hnq & Hfq).
    assert (Hpgq1 : mempage s1 !! q = Some (set_nref (nref pg + b2z (q = p)) pg)).
    { unfold s1, b2z. simpl. destruct (decide (q = p)) as [->|Hne].
      - rewrite lookup_insert_eq. congruence.
      - rewrite lookup_insert_ne by done. rewrite Hpgq, Z.add_0_r. by destruct pg. }
    destruct (page_remove_ok s1 g o va inc_inv inc_tree Hv Hv0 e
      (set_nref (nref pg + b2z (q = p)) pg)) as (s2 & Hrun & Hrm).
    { by rewrite (mapped_mem s s1). }
    { rewrite <- Eq. split_and!; [done|done| | |done]; cbn [nref set_nref]; pose proof (b2z_range (q = p)); lia. }
    { rewrite <- Eq. destruct Hnt as [? Hr]. split; [done|]. intros r Hu.
      rewrite (role_frame_mem s s1) by done. by apply Hr. }
    rewrite <- Eq in Hrm. destruct Hrm as [R1 R2 R3 R4 R5 R6 R7 R8 R9]. exists s2. split_and!; [done..| | | | |].
    + intros r Hr. rewrite R3 by done. by apply role_frame_mem.
    + intros va' Hv'. rewrite R4 by done. by rewrite (mapped_mem s s1).
    + intros i. rewrite R7. cbn [nref set_nref]. destruct (decide (i = q)) as [->|Hne].
      * unfold meta. rewrite Hpgq. simpl. by rewrite (b2z_true (Some q = Some q)).
      * rewrite inc_meta, (b2z_false (Some q = Some i)) by congruence.
        destruct (meta s i) as [pgi|]; simpl; [|done]. by rewrite Z.sub_0_r.
    + intros i pgi Hpgi. rewrite R5. cbn [nref set_nref].
      change (free_page (nz s1) i) with (free_page (nz s) i).
      split; (intros [?|H]; [by left|right]).
      * destruct H as [H ->]. assert (pgi = pg) as -> by congruence.
        destruct (decide (q = p)) as [E|E]; [rewrite b2z_true in H by done; lia|].
        rewrite b2z_false in H by done. split_and!; [done|done|lia].
      * destruct H as ([= <-] & Hip & Hn1). assert (pgi = pg) as -> by congruence.
        rewrite b2z_false by done. split; [lia|done].
    + intros i [_ Hir]. apply (R9 i). intros a b Hr. rewrite (role_frame_mem s s1) by done. by apply Hir.
  - exists s1. split_and!; [done|apply inc_inv|apply inc_tree|done| | | | |done].
    + intros r Hr. by apply role_frame_mem.
    + intros va' Hv'. rewrite (mapped_mem s s1) by done. case_decide as E; [|done].
      rewrite <- He. unfold mapped, entry_at. fold (leaf_role va') (leaf_role va).
      apply same_page_indices in E as [<- <-]; done.
    + intros i. rewrite inc_meta. destruct (meta s i) as [pg|]; simpl; [|done].
      by rewrite (b2z_false (None = Some i)), Z.sub_0_r.
    + intros i pg _. split; [by left|]. intros [?|[? _]]; done.
Qed.
End insert.

Lemma mapped_at s g o va f e :
  role_frame s g o (leaf_role va) = Some f → ent s f (pte_index va) = Some e →
  mapped s g o va = if pte_present e then Some e else None.
Proof.
  intros Hf He. unfold mapped, entry_at. fold (leaf_role va). rewrite Hf. simpl. by rewrite He.
Qed.

(** The part of [page_insert] after the walk found the entry. *)
Lemma page_insert_at s g o va p perm f :
  mm_inv s → tree_wf s g o → user_va va → va ≠ 0 → new_ok s p → old_ok s g o va →
  0 ≤ perm < 2 ^ 12 → has_flag perm _PAGE_PRESENT = true →
  role_frame s g o (leaf_role va) = Some f →
  ∃ s', (atomic_inc_nref p ;;
         e ← load64 (slot f (pte_index va));
         (if pte_present e then page_remove (slot g o) va else mret tt) ;;
         s ← get;
         pa ← lift (page2phys (m_max_pfn s) p);
         entry_set (slot f (pte_index va)) pa perm ;;
         refresh_tlb va ;;
         mret 0) s = Ok (0, s') ∧ inserted g o s s' va p perm.
Proof.
  intros Hi Hw Hv Hv0 (Hb & pgp & Hpg & Hn) Ho Hperm Hpres Hf.
  pose proof (proj2 (proj2 (index_ranges va))) as Hk. destruct (user_va_role va Hv) as [_ Hu].
  destruct (tw_busy s g o Hw _ _ Hu Hf) as [[Hbf _] _].
  destruct (drop_old s g o va p pgp Hi Hw Hv Hv0 Hb Hpg Ho)
    as (s2 & Hrun & Hi2 & Hw2 & Hend & Hroles & Hmap & Hmeta & Hfree & Hdata).
  destruct (ent_total s f _ Hi Hbf Hk) as [e He].
  erewrite bind_Ok.
  2: { unfold atomic_inc_nref, upd_page. run_step.
       by rewrite (bind_Ok _ _ _ _ _ (of_option_Some _ _ _ Hpg)). }
  rewrite i32_small by lia. set (s1 := mk_mstate _ _ _ _ _ _).
  rewrite (bind_Ok _ _ _ _ _ (load64_ok s1 f _ e Hk He)).
  assert (Hrun2 : (if pte_present e then page_remove (slot g o) va else mret tt) s1 = Ok (tt, s2)).
  { revert Hrun. run_step. rewrite (mapped_at s g o va f e Hf He). by destruct (pte_present e). }
  rewrite (bind_Ok _ _ _ _ _ Hrun2). run_step.
  assert (Hp2 : 0 ≤ p < zend (nz s2)) by (rewrite Hend; apply Hb).
  rewrite (bind_Ok _ _ _ _ _ (lift_Ok _ _ _ (frame_phys s2 p Hi2 Hp2))).
  destruct (ent_total s2 f _ Hi2 ltac:(by rewrite Hend) Hk) as [e2 He2].
  pose proof (frame_bounds s2 p Hi2 Hp2) as [Hpb _].
  rewrite (bind_Ok _ _ _ _ _ (entry_set_ok s2 f _ e2 (p * PAGE_SIZE) perm (proj1 Hbf) Hk He2
    ltac:(unfold PAGE_SIZE; lia) ltac:(by exists p) Hperm)).
  unfold refresh_tlb. run_step.
  set (s3 := put_ent f (pte_index va) (p * PAGE_SIZE + perm) s2).
  assert (Hf2 : role_frame s2 g o (leaf_role va) = Some f) by (by rewrite Hroles).
  exists (with_tlb va s3). split; [done|]. split.
  - by apply mm_inv_tlb, mm_inv_put.
  - apply (tree_wf_transfer s3); [by apply put_leaf_tree|done|exact (tw_root s2 g o Hw2)|].
    intros r c Hr. unfold s3. rewrite (put_leaf_role s2 g o va f Hw2 Hv Hf2) by done.
    by apply (tw_busy s2 g o Hw2).
  - intros va' Hv'. rewrite (mapped_mem s3) by done. unfold s3.
    rewrite (put_leaf_mapped s2 g o va f Hw2 Hv Hf2 _ e2 va' He2 Hv').
    rewrite (present_entry p perm Hperm Hpres), Hmap by done. by case_decide.
  - intros i _. apply Hmeta.
  - intros i pg [_ Hbi] Hpgi. change (free_page (nz s2) i ↔ old_frame s g o va = Some i ∧ i ≠ p ∧ nref pg = 1).
    rewrite (Hfree i pg Hpgi). tauto.
  - intros r c Hr. rewrite (role_frame_mem s3) by done. unfold s3.
    rewrite (put_leaf_role s2 g o va f Hw2 Hv Hf2), Hroles by done. by left.
  - exact Hend.
  - eexists. reflexivity.
  - intros i _ Hnt. cbn [with_tlb mem]. unfold s3. rewrite mem_put_ne; [by apply Hdata|].
    intros ->. by apply (proj2 Hnt _ Hu).
Qed.

Lemma inserted_extends g o s s1 s' va p perm :
  user_va va → extends g o s s1 → inserted g o s1 s' va p perm → inserted g o s s' va p perm.
Proof.
  intros Hv Hx [R1 R2 R3 R4 R5 R6 R7 R8 R9].
  assert (Eo : old_frame s1 g o va = old_frame s g o va).
  { unfold old_frame. by rewrite (ex_mapped _ _ _ _ Hx va Hv). }
  split; [done|done| | | | | |done|].
  6: { intros i Hb Hn. destruct (ex_busy _ _ _ _ Hx i Hb) as [Hb1 _].
       rewrite R9; [by apply Hx|done|]. by apply (no_table_extends _ _ s); [apply Hx| |]. }
  - intros va' Hv'. rewrite R3 by done. by rewrite (ex_mapped _ _ _ _ Hx va' Hv').
  - intros i Hb. destruct (ex_busy _ _ _ _ Hx i Hb) as [Hb1 <-]. rewrite <- Eo. by apply R4.
  - intros i pg Hb Hpg. destruct (ex_busy _ _ _ _ Hx i Hb) as [Hb1 Hm].
    unfold meta in Hm at 2. rewrite Hpg in Hm.
    destruct (meta_Some s1 i _ Hm) as (pg1 & Hpg1 & En & _). simpl in En.
    rewrite (R5 i pg1 Hb1 Hpg1), Eo, En. done.
  - intros r f Hr Hf. destruct (R6 r f Hr Hf) as [Hf1|Hf1].
    + by apply (ex_roles _ _ _ _ Hx).
    + right. by apply (ex_free _ _ _ _ Hx).
  - rewrite R7. apply Hx.
Qed.

Lemma page_insert_ok s g o va p perm :
  mm_inv s → tree_wf s g o → user_va va → va ≠ 0 → new_ok s p → old_ok s g o va →
  0 ≤ perm < 2 ^ 12 → has_flag perm _PAGE_PRESENT = true →
  ∃ r s', page_insert (slot g o) p va perm s = Ok (r, s') ∧
    (r = - ENOMEM ∧ (extends g o s s' ∧ full s' ∧ scarce 1 s) ∨ r = 0 ∧ inserted g o s s' va p perm).
Proof.
  intros Hi Hw Hv Hv0 Hnew Hold Hperm Hpres. unfold page_insert. rewrite (asserts_ok s g o va Hw Hv0).
  destruct (page_walk_create s g o va Hi Hw Hv Hv0) as (r & s1 & Hrun & Hx & Hr).
  rewrite (bind_Ok _ _ _ _ _ Hrun).
  destruct Hr as [[-> Hfull]|(f & Hf & ->)].
  - exists (- ENOMEM), s1. split; [done|]. by left.
  - destruct (page_insert_at s1 g o va p perm f) as (s' & Hrun' & Hins);
      [apply Hx|apply Hx|done|done| |by eapply old_ok_extends|done..|].
    + destruct Hnew as (Hb & pg & Hpg & Hn). destruct (ex_busy _ _ _ _ Hx p Hb) as [Hb1 Hm].
      split; [done|]. unfold meta in Hm at 2. rewrite Hpg in Hm.
      destruct (meta_Some s1 p _ Hm) as (pg1 & Hpg1 & En & _). simpl in En.
      exists pg1. split; [done|lia].
    + exists 0, s'. split; [done|]. right. split; [done|]. by eapply inserted_extends.
Qed.

(** ** The properties *)

(** Five frames: 0 and 1 allocated, 2 and 3 free, 4 holds the page directory. *)
Definition demo_mm : mstate :=
  mk_mstate (zn demo_taken) (zone_bss 0 0) (pages demo_taken) 5
    (list_to_map ((λ f, (f, zero_page)) <$> [0; 1; 2; 3; 4])) [].

Lemma demo_mem f : 0 ≤ f < 5 → mem demo_mm !! f = Some zero_page.
Proof.
  intros Hf. assert (f = 0 ∨ f = 1 ∨ f = 2 ∨ f = 3 ∨ f = 4) as Hc by lia.
  destruct Hc as [->|[->|[->|[->| ->]]]]; reflexivity.
Qed.

Lemma demo_nz : nz demo_mm = demo_taken.
Proof. vm_compute. reflexivity. Qed.

Lemma demo_zend : zend demo_taken = 5 ∧ zbase demo_taken = 0.
Proof. by vm_compute. Qed.

Lemma demo_mm_inv : mm_inv demo_mm.
Proof.
  destruct demo_zend as [Ee Eb]. split; rewrite ?demo_nz.
  - apply demo_taken_ok.
  - done.
  - by rewrite Ee.
  - done.
  - rewrite Ee. intros f Hf. exists zero_page. split; [by apply demo_mem|apply length_replicate].
Qed.

Lemma demo_busy f : f = 0 ∨ f = 4 → busy demo_mm f.
Proof.
  intros Hf. split.
  - rewrite demo_nz, (proj1 demo_zend). lia.
  - rewrite demo_nz. destruct Hf as [->| ->]; apply (bool_decide_unpack _); by vm_compute.
Qed.

Lemma demo_ent f k : 0 ≤ f < 5 → 0 ≤ k < 512 → ent demo_mm f k = Some 0.
Proof.
  intros Hf Hk. unfold ent. rewrite demo_mem by done. cbn [mbind option_bind].
  apply lookup_replicate_2. lia.
Qed.

Lemma demo_no_tables r : user_role r → role_frame demo_mm 4 0 r = None.
Proof.
  assert (H : ∀ i, 0 ≤ i < 3 → role_frame demo_mm 4 0 (RPmd i) = None).
  { intros i Hi. unfold role_frame. by rewrite demo_ent by lia. }
  destruct r as [i|i j]; simpl; intros Hr; [by apply H|]. rewrite <- (H i) by lia.
  unfold role_frame. by rewrite demo_ent by lia.
Qed.

Lemma demo_tree : tree_wf demo_mm 4 0.
Proof.
  split.
  - apply demo_busy. by right.
  - lia.
  - intros r f Hr. by rewrite demo_no_tables.
  - intros r r' f Hr. by rewrite demo_no_tables.
Qed.

Lemma demo_unmapped va : user_va va → mapped demo_mm 4 0 va = None.
Proof.
  intros Hv. unfold mapped, entry_at. rewrite demo_no_tables; [done|]. by apply user_va_role.
Qed.

(** C9: in a memory manager whose normal zone satisfies the buddy invariant and
    whose page directory is a well-formed tree, [page_insert] of an allocated frame
    at a user address always returns.  Either it reports [-ENOMEM], no
    frame is free and the address space is what it was, or it returns 0 and [inserted] holds: the page of [va]
    and no other maps to the frame with the permissions asked for; the frame gains
    one reference and the frame that was mapped there loses one (so mapping the
    same frame again keeps its count), being freed exactly when that was its last;
    the tree stays well-formed and the TLB entry is flushed. *)
Theorem page_insert_correct (s : mstate) (g o va p perm : Z) :
  mm_inv s → tree_wf s g o → user_va va → va ≠ 0 → new_ok s p → old_ok s g o va →
  0 ≤ perm < 2 ^ 12 → has_flag perm _PAGE_PRESENT = true →
  ∃ r s', page_insert (slot g o) p va perm s = Ok (r, s') ∧
    (r = - ENOMEM ∧ mm_inv s' ∧ tree_wf s' g o ∧
       (∀ va', user_va va' → mapped s' g o va' = mapped s g o va') ∧ full s' ∨
     r = 0 ∧ inserted g o s s' va p perm).
Proof.
  intros. destruct (page_insert_ok s g o va p perm) as (r & s' & Hrun & [[-> (Hx & Hfull & _)]|[-> Hin]]);
    try done.
  - exists (- ENOMEM), s'. split; [done|]. left. split_and!; [done|apply Hx..|done].
  - exists 0, s'. split; [done|]. by right.
Qed.

Lemma demo_new : new_ok demo_mm 0.
Proof.
  split; [apply demo_busy; by left|]. eexists. split; [vm_compute; reflexivity|]. simpl. lia.
Qed.

Lemma demo_old va : user_va va → old_ok demo_mm 4 0 va.
Proof. intros Hv e. by rewrite demo_unmapped. Qed.

Lemma page_insert_correct_witness :
  ∃ r s', page_insert (slot 4 0) 0 0x400000 7 demo_mm = Ok (r, s') ∧
    (r = - ENOMEM ∧ mm_inv s' ∧ tree_wf s' 4 0 ∧
       (∀ va', user_va va' → mapped s' 4 0 va' = mapped demo_mm 4 0 va') ∧ full s' ∨
     r = 0 ∧ inserted 4 0 demo_mm s' 0x400000 0 7).
Proof.
  apply (page_insert_correct demo_mm 4 0 0x400000 0 7).
  - apply demo_mm_inv.
  - apply demo_tree.
  - unfold user_va, KERNEL_BASE_ADDR. lia.
  - done.
  - apply demo_new.
  - apply demo_old. unfold user_va, KERNEL_BASE_ADDR. lia.
  - lia.
  - done.
Defined.

(** The address space after that insertion. *)
Definition demo_mapped : mstate :=
  match page_insert (slot 4 0) 0 0x400000 7 demo_mm with Ok (_, s) => s | Stop _ => demo_mm end.

Lemma demo_mapped_ok : inserted 4 0 demo_mm demo_mapped 0x400000 0 7.
Proof.
  destruct (page_insert_ok demo_mm 4 0 0x400000 0 7) as (r & s' & Hrun & Hr).
  - apply demo_mm_inv.
  - apply demo_tree.
  - unfold user_va, KERNEL_BASE_ADDR. lia.
  - done.
  - apply demo_new.
  - apply demo_old. unfold user_va, KERNEL_BASE_ADDR. lia.
  - lia.
  - done.
  - unfold demo_mapped. rewrite Hrun.
    assert (E : match page_insert (slot 4 0) 0 0x400000 7 demo_mm with
                | Ok (r, _) => r | Stop _ => 1 end = 0) by (vm_compute; reflexivity).
    rewrite Hrun in E. subst r. destruct Hr as [[Hr _]|[_ Hr]]; [discriminate Hr|exact Hr].
Qed.

Lemma demo_is_mapped : mapped demo_mapped 4 0 0x400000 = Some 7.
Proof.
  rewrite (in_mapped _ _ _ _ _ _ _ demo_mapped_ok); [done|].
  unfold user_va, KERNEL_BASE_ADDR. lia.
Qed.

Lemma demo_referenced : ∃ pg, referenced demo_mapped 0 pg ∧ nref pg = 1.
Proof.
  pose proof (demo_busy 0 (or_introl eq_refl)) as Hb.
  pose proof (in_nref _ _ _ _ _ _ _ demo_mapped_ok 0 Hb) as Hm.
  assert (Hold : old_frame demo_mm 4 0 0x400000 = None).
  { unfold old_frame. rewrite demo_unmapped; [done|]. unfold user_va, KERNEL_BASE_ADDR. lia. }
  assert (Em : meta demo_mm 0 = Some (mk_page 0 _pg_free 0 0 0 0)) by (vm_compute; reflexivity).
  rewrite Hold, Em in Hm.
  destruct (meta_Some _ _ _ Hm) as (pg & Hpg & En & Ef & _). cbn [nref flags set_nref] in En, Ef.
  change (0 + b2z (0 = 0) - b2z (None = Some 0)) with 1 in En.
  exists pg. split; [|done]. split_and!; [|done|lia|lia|by rewrite Ef].
  split.
  - rewrite (in_end _ _ _ _ _ _ _ demo_mapped_ok). apply Hb.
  - destruct demo_new as (_ & pg0 & Hpg0 & _).
    rewrite (in_freed _ _ _ _ _ _ _ demo_mapped_ok 0 pg0 Hb Hpg0), Hold. by intros [? _].
Qed.

(** C31: [page_remove] of a mapped user page whose frame is referenced and is not a
    table of the address space always returns, and then the page of [va] and no
    other is unmapped, the frame has lost one reference and is free exactly when it
    had one, no table has changed, and the TLB entry is flushed; of an unmapped page
    it changes nothing. *)
Theorem page_remove_correct (s : mstate) (g o va : Z) :
  mm_inv s → tree_wf s g o → user_va va → va ≠ 0 →
  (mapped s g o va = None → page_remove (slot g o) va s = Ok (tt, s)) ∧
  (∀ e pg, mapped s g o va = Some e → referenced s (eframe e) pg → no_table s g o (eframe e) →
     ∃ s', page_remove (slot g o) va s = Ok (tt, s') ∧ removed g o s s' va (eframe e) pg).
Proof.
  intros Hi Hw Hv Hv0. split.
  - intros Hn. unfold page_remove. rewrite (asserts_ok s g o va Hw Hv0).
    by rewrite (bind_Ok _ _ _ _ _ (page_lookup_unmapped s g o va Hi Hw Hv Hv0 Hn)).
  - intros e pg. by apply page_remove_ok.
Qed.

Lemma page_remove_correct_witness :
  ∃ s', page_remove (slot 4 0) 0x400000 demo_mapped = Ok (tt, s') ∧ free_page (nz s') 0.
Proof.
  destruct demo_referenced as (pg & Href & Hn). pose proof demo_mapped_ok as Hin.
  destruct (page_remove_correct demo_mapped 4 0 0x400000) as [_ Hrm].
  - apply Hin.
  - apply Hin.
  - unfold user_va, KERNEL_BASE_ADDR. lia.
  - done.
  - destruct (Hrm 7 pg demo_is_mapped Href) as (s' & Hrun & Hs').
    + split; [done|]. intros r Hr E.
      destruct (in_roles _ _ _ _ _ _ _ Hin r _ Hr E) as [E'|Hf].
      * by rewrite demo_no_tables in E'.
      * by apply (demo_busy 0 (or_introl eq_refl)).
    + exists s'. split; [exact Hrun|]. apply (rm_free _ _ _ _ _ _ _ Hs'). right.
      split; [exact Hn|reflexivity].
Defined.

(** [page_lookup] reads the abstract address space: it returns NULL for an
    unmapped user page and otherwise the frame of its entry, without changing
    anything; in particular, right after a successful [page_insert] it finds the
    frame inserted at every address of that page. *)
Theorem page_lookup_after_insert (s : mstate) (g o va p perm : Z) (s' : mstate) (va' : Z) :
  mm_inv s → tree_wf s g o → user_va va → va ≠ 0 → new_ok s p → old_ok s g o va →
  0 ≤ perm < 2 ^ 12 → has_flag perm _PAGE_PRESENT = true →
  page_insert (slot g o) p va perm s = Ok (0, s') →
  user_va va' → va' ≠ 0 →
  (mapped s g o va' = None → page_lookup (slot g o) va' s = Ok (None, s)) ∧
  (same_page va va' → ∃ pte, page_lookup (slot g o) va' s' = Ok (Some (p, pte), s')) ∧
  (¬ same_page va va' → mapped s g o va' = None → page_lookup (slot g o) va' s' = Ok (None, s')).
Proof.
  intros Hi Hw Hv Hv0 Hnew Hold Hperm Hpres Hrun Hv' Hv0'.
  destruct (page_insert_ok s g o va p perm) as (r & s1 & Hrun' & Hr); try done.
  rewrite Hrun in Hrun'. injection Hrun' as <- <-.
  destruct Hr as [[? _]|[_ Hin]]; [done|]. split_and!.
  - intros Hn. by apply page_lookup_unmapped.
  - intros Hs. assert (Hm : mapped s' g o va' = Some (p * PAGE_SIZE + perm)).
    { rewrite (in_mapped _ _ _ _ _ _ _ Hin va' Hv'). by rewrite decide_True. }
    assert (Ef : eframe (p * PAGE_SIZE + perm) = p) by (apply eframe_entry; unfold PAGE_SIZE; lia).
    destruct (page_lookup_mapped s' g o va' (in_inv _ _ _ _ _ _ _ Hin) (in_tree _ _ _ _ _ _ _ Hin)
      Hv' Hv0' _ Hm) as (f & _ & _ & Hl).
    { rewrite Ef. destruct Hnew as (Hb & pg & Hpg & _).
      split; [|rewrite (in_freed _ _ _ _ _ _ _ Hin p pg Hb Hpg); tauto].
      rewrite (in_end _ _ _ _ _ _ _ Hin). apply Hb. }
    rewrite Ef in Hl. eauto.
  - intros Hs Hn. apply page_lookup_unmapped; [apply Hin|apply Hin|done|done|].
    rewrite (in_mapped _ _ _ _ _ _ _ Hin va' Hv'). by rewrite decide_False.
Qed.

Lemma page_lookup_after_insert_witness :
  ∃ pte, page_lookup (slot 4 0) 0x400123 demo_mapped = Ok (Some (0, pte), demo_mapped).
Proof.
  assert (Hu : ∀ va, 0 ≤ va < 0x500000 → user_va va) by (unfold user_va, KERNEL_BASE_ADDR; lia).
  destruct (page_insert (slot 4 0) 0 0x400000 7 demo_mm) as [[r s']|w] eqn:Hrun.
  - assert (Er : match page_insert (slot 4 0) 0 0x400000 7 demo_mm with
                 | Ok (r, _) => r | Stop _ => 1 end = 0) by (vm_compute; reflexivity).
    assert (Es : demo_mapped = s') by (unfold demo_mapped; rewrite Hrun; reflexivity).
    rewrite Hrun in Er. subst r. rewrite Es.
    eapply (page_lookup_after_insert demo_mm 4 0 0x400000 0 7 s' 0x400123).
    + exact demo_mm_inv.
    + exact demo_tree.
    + apply Hu. lia.
    + lia.
    + exact demo_new.
    + apply demo_old, Hu. lia.
    + lia.
    + reflexivity.
    + exact Hrun.
    + apply Hu. lia.
    + lia.
    + reflexivity.
  - exfalso. assert (Er : match page_insert (slot 4 0) 0 0x400000 7 demo_mm with
                 | Ok (r, _) => r | Stop _ => 1 end = 0) by (vm_compute; reflexivity).
    rewrite Hrun in Er. lia.
Defined.
