(* ===== verification/Vma.v ===== *)
(** * Address spaces: kernel/mm/mm.c, kernel/rbtree.c, kernel/syscall/brk.c

    The areas of an address space are kept in a binary search tree (the rb_node of
    rbtree.h has no colour and nothing rebalances it) and in a list through
    [vm_next].  A [struct vm_area_struct *] and the [struct rb_node *] inside it are
    the same number here; 0 is NULL.  A [struct rb_node **] is the root, or a child
    field of a node. *)

From S2P Require Import Prelude Layout.

Local Open Scope Z_scope.

Record vm_area_struct := mk_vma {
  vm_next : Z;
  rb_parent : Z;
  rb_left : Z;
  rb_right : Z;
  vm_start : Z;
  vm_end : Z;
  vm_flags : Z;
}.

(** [struct mm_struct], the fields mm.c and brk.c use, and the memory of its areas. *)
Record mm_struct := mk_mm {
  mmap : Z;
  mm_rb : Z;
  free_area_cache : Z;
  start_brk : Z;
  end_brk : Z;
  mmap_count : Z;
  areas : gmap Z vm_area_struct;
}.

Inductive rb_slot := rb_root_slot | rb_left_slot (n : Z) | rb_right_slot (n : Z).

#[global] Instance rb_slot_eq_dec : EqDecision rb_slot.
Proof. solve_decision. Defined.

(** ** Access to the state *)

Definition set_areas_mm (f : gmap Z vm_area_struct → gmap Z vm_area_struct) (m : mm_struct) : mm_struct :=
  mk_mm (mmap m) (mm_rb m) (free_area_cache m) (start_brk m) (end_brk m) (mmap_count m) (f (areas m)).
Definition set_mmap (v : Z) (m : mm_struct) : mm_struct :=
  mk_mm v (mm_rb m) (free_area_cache m) (start_brk m) (end_brk m) (mmap_count m) (areas m).
Definition set_root (v : Z) (m : mm_struct) : mm_struct :=
  mk_mm (mmap m) v (free_area_cache m) (start_brk m) (end_brk m) (mmap_count m) (areas m).
Definition set_cache_mm (v : Z) (m : mm_struct) : mm_struct :=
  mk_mm (mmap m) (mm_rb m) v (start_brk m) (end_brk m) (mmap_count m) (areas m).
Definition set_end_brk (v : Z) (m : mm_struct) : mm_struct :=
  mk_mm (mmap m) (mm_rb m) (free_area_cache m) (start_brk m) v (mmap_count m) (areas m).
Definition set_count (v : Z) (m : mm_struct) : mm_struct :=
  mk_mm (mmap m) (mm_rb m) (free_area_cache m) (start_brk m) (end_brk m) v (areas m).

Definition load_vma (n : Z) : M mm_struct vm_area_struct :=
  m ← get; of_option (areas m !! n).

Definition edit_vma (n : Z) (f : vm_area_struct → vm_area_struct) : M mm_struct unit :=
  v ← load_vma n; modify (set_areas_mm (<[n := f v]>)).

Definition with_next (x : Z) (v : vm_area_struct) : vm_area_struct :=
  mk_vma x (rb_parent v) (rb_left v) (rb_right v) (vm_start v) (vm_end v) (vm_flags v).
Definition with_parent (x : Z) (v : vm_area_struct) : vm_area_struct :=
  mk_vma (vm_next v) x (rb_left v) (rb_right v) (vm_start v) (vm_end v) (vm_flags v).
Definition with_left (x : Z) (v : vm_area_struct) : vm_area_struct :=
  mk_vma (vm_next v) (rb_parent v) x (rb_right v) (vm_start v) (vm_end v) (vm_flags v).
Definition with_right (x : Z) (v : vm_area_struct) : vm_area_struct :=
  mk_vma (vm_next v) (rb_parent v) (rb_left v) x (vm_start v) (vm_end v) (vm_flags v).
Definition with_end (x : Z) (v : vm_area_struct) : vm_area_struct :=
  mk_vma (vm_next v) (rb_parent v) (rb_left v) (rb_right v) (vm_start v) x (vm_flags v).

Definition read_rb (s : rb_slot) : M mm_struct Z :=
  match s with
  | rb_root_slot => gets mm_rb
  | rb_left_slot n => v ← load_vma n; mret (rb_left v)
  | rb_right_slot n => v ← load_vma n; mret (rb_right v)
  end.

Definition write_rb (s : rb_slot) (x : Z) : M mm_struct unit :=
  match s with
  | rb_root_slot => modify (set_root x)
  | rb_left_slot n => edit_vma n (with_left x)
  | rb_right_slot n => edit_vma n (with_right x)
  end.

(** ** kernel/rbtree.c *)

Fixpoint rb_mostleft (fuel : nat) (rbnode : Z) : M mm_struct Z :=
  match fuel with
  | O => stop_with OutOfFuel
  | S fuel =>
      if bool_decide (rbnode = 0) then mret 0
      else
        v ← load_vma rbnode;
        if bool_decide (rb_left v ≠ 0) then rb_mostleft fuel (rb_left v) else mret rbnode
  end.

Fixpoint rb_mostright (fuel : nat) (rbnode : Z) : M mm_struct Z :=
  match fuel with
  | O => stop_with OutOfFuel
  | S fuel =>
      if bool_decide (rbnode = 0) then mret 0
      else
        v ← load_vma rbnode;
        if bool_decide (rb_right v ≠ 0) then rb_mostright fuel (rb_right v) else mret rbnode
  end.

(** The names are the code's: [rb_first] is the rightmost node. *)
Definition rb_first (fuel : nat) : M mm_struct Z := r ← gets mm_rb; rb_mostright fuel r.
Definition rb_last (fuel : nat) : M mm_struct Z := r ← gets mm_rb; rb_mostleft fuel r.

Definition rb_link_node (node parent : Z) (rb_link : rb_slot) : M mm_struct unit :=
  write_rb rb_link node ;; edit_vma node (with_parent parent).

(** The slot of the parent that points to [rbnode]. *)
Definition rb_parent_slot (rbnode parent : Z) : M mm_struct rb_slot :=
  if bool_decide (parent = 0) then mret rb_root_slot
  else
    pv ← load_vma parent;
    if bool_decide (rb_left pv = rbnode) then mret (rb_left_slot parent)
    else if bool_decide (rb_right pv = rbnode) then mret (rb_right_slot parent)
    else panic.

Fixpoint rbtree_delete (fuel : nat) (rbnode : Z) : M mm_struct unit :=
  match fuel with
  | O => stop_with OutOfFuel
  | S fuel =>
      v ← load_vma rbnode;
      let left := rb_left v in
      let right := rb_right v in
      let parent := rb_parent v in
      pp ← rb_parent_slot rbnode parent;
      (if bool_decide (left = 0) && bool_decide (right = 0) then write_rb pp 0
       else if bool_decide (left = 0) then
         write_rb pp right ;; edit_vma right (with_parent parent)
       else if bool_decide (right = 0) then
         write_rb pp left ;; edit_vma left (with_parent parent)
       else
         tmp ← rb_mostleft (S fuel) right;
         rbtree_delete fuel tmp ;;
         edit_vma tmp (with_left left) ;;
         edit_vma tmp (with_right right) ;;
         write_rb pp tmp) ;;
      edit_vma rbnode (with_right 0) ;;
      edit_vma rbnode (with_left 0)
  end.

(** ** Searching: kernel/mm/mm.c *)

(** The loop of [find_vma]; [vma] is the best area so far. *)
Fixpoint find_vma_loop (fuel : nat) (rb_node addr vma : Z) : M mm_struct Z :=
  match fuel with
  | O => stop_with OutOfFuel
  | S fuel =>
      if bool_decide (rb_node = 0) then mret vma
      else
        v ← load_vma rb_node;
        if bool_decide (addr < vm_end v) then
          if bool_decide (vm_start v ≤ addr) then mret rb_node
          else find_vma_loop fuel (rb_left v) addr rb_node
        else find_vma_loop fuel (rb_right v) addr vma
  end.

Definition find_vma (fuel : nat) (addr : Z) : M mm_struct Z :=
  r ← gets mm_rb; find_vma_loop fuel r addr 0.

Fixpoint find_vma_prev_loop (fuel : nat) (rb_node addr vma : Z) : M mm_struct Z :=
  match fuel with
  | O => stop_with OutOfFuel
  | S fuel =>
      if bool_decide (rb_node = 0) then mret vma
      else
        v ← load_vma rb_node;
        if bool_decide (vm_end v < addr) then
          if bool_decide (vm_start v ≤ addr) then mret rb_node
          else find_vma_prev_loop fuel (rb_left v) addr rb_node
        else find_vma_prev_loop fuel (rb_right v) addr vma
  end.

Definition find_vma_prev (fuel : nat) (addr : Z) : M mm_struct Z :=
  r ← gets mm_rb; find_vma_prev_loop fuel r addr 0.

(** ** Placing an area *)

(** The loop of [get_unmapped_vma] when no address is asked for. *)
Fixpoint get_unmapped_loop (fuel : nat) (start_addr addr len vma : Z) : M mm_struct Z :=
  match fuel with
  | O => stop_with OutOfFuel
  | S fuel =>
      let place (start_addr addr vma : Z) : M mm_struct Z :=
        nv ← (if bool_decide (vma = 0) then mret None else v ← load_vma vma; mret (Some v));
        match nv with
        | None => modify (set_cache_mm (u32 (addr + len))) ;; mret addr
        | Some v =>
            if bool_decide (u32 (addr + len) ≤ vm_start v) then
              modify (set_cache_mm (u32 (addr + len))) ;; mret addr
            else get_unmapped_loop fuel start_addr (vm_end v) len (vm_next v)
        end in
      if bool_decide (KERNEL_BASE_ADDR < u32 (addr + len)) then
        if bool_decide (start_addr = 0x40000000) then mret 0
        else
          vma ← find_vma fuel 0x40000000;
          place 0x40000000 0x40000000 vma
      else place start_addr addr vma
  end.

Definition get_unmapped_vma (fuel : nat) (addr len : Z) : M mm_struct Z :=
  if bool_decide (KERNEL_BASE_ADDR < len) then mret 0
  else if bool_decide (addr ≠ 0) then
    vma ← find_vma fuel addr;
    nv ← (if bool_decide (vma = 0) then mret None else v ← load_vma vma; mret (Some v));
    if bool_decide (u32 (addr + len) ≤ KERNEL_BASE_ADDR) &&
       match nv with None => true | Some v => bool_decide (u32 (addr + len) ≤ vm_start v) end
    then mret addr else mret 0
  else
    a ← gets free_area_cache;
    vma ← find_vma fuel a;
    get_unmapped_loop fuel a a len vma.

(** The descent of [vm_link] to the place for an area that ends at [addr]. *)
Fixpoint vm_link_descend (fuel : nat) (rb_node : rb_slot) (parent addr : Z)
    : M mm_struct (rb_slot * Z) :=
  match fuel with
  | O => stop_with OutOfFuel
  | S fuel =>
      n ← read_rb rb_node;
      if bool_decide (n = 0) then mret (rb_node, parent)
      else
        v ← load_vma n;
        if bool_decide (addr < vm_end v) then vm_link_descend fuel (rb_left_slot n) n addr
        else vm_link_descend fuel (rb_right_slot n) n addr
  end.

Definition vm_link (fuel : nat) (vmp : Z) : M mm_struct unit :=
  nv ← load_vma vmp;
  let addr := vm_end nv in
  vma ← find_vma_prev fuel (vm_start nv);
  (if bool_decide (vma = 0) then
     h ← gets mmap; edit_vma vmp (with_next h) ;; modify (set_mmap vmp)
   else
     v ← load_vma vma; edit_vma vmp (with_next (vm_next v)) ;; edit_vma vma (with_next vmp)) ;;
  r ← vm_link_descend fuel rb_root_slot 0 addr;
  let '(rb_node, parent) := (r : rb_slot * Z) in
  rb_link_node vmp parent rb_node ;;
  m ← get;
  put (set_count (i32 (mmap_count m + 1)) m).

Definition vm_link_del (fuel : nat) (vmp : Z) : M mm_struct unit :=
  nv ← load_vma vmp;
  vma ← find_vma fuel (vm_start nv);
  if bool_decide (vma ≠ vmp) then mret tt
  else
    tmp ← find_vma_prev fuel (vm_start nv);
    rbtree_delete fuel vmp ;;
    m ← get;
    put (set_count (i32 (mmap_count m - 1)) m) ;;
    nv ← load_vma vmp;
    (if bool_decide (tmp = 0) then modify (set_mmap (vm_next nv))
     else edit_vma tmp (with_next (vm_next nv))) ;;
    edit_vma vmp (with_next 0).

(** [create_vma]; [o] is what [kmalloc] returns and [junk] the contents of the
    children fields of that memory, which nobody initialises. *)
Definition create_vma (fuel : nat) (addr len flags o : Z) (junk : Z * Z) : M mm_struct Z :=
  if bool_decide (ROUNDDOWN addr PAGE_SIZE = 0) then mret 0
  else
    addr ← get_unmapped_vma fuel addr len;
    if bool_decide (addr = 0) then mret 0
    else if bool_decide (o = 0) then mret 0
    else
      let start := ROUNDDOWN addr PAGE_SIZE in
      modify (set_areas_mm (<[o := mk_vma 0 0 junk.1 junk.2 start
                                     (u32 (start + ROUNDUP len PAGE_SIZE)) flags]>)) ;;
      vm_link fuel o ;;
      mret o.

(** ** kernel/syscall/brk.c *)

Definition brk (fuel : nat) (end_data : Z) : M mm_struct Z :=
  e ← gets end_brk;
  if bool_decide (end_data ≤ e) then mret e
  else
    sb ← gets start_brk;
    vma ← find_vma fuel sb;
    if bool_decide (vma = 0) then fault
    else
      v ← load_vma vma;
      if bool_decide (vm_start v ≠ sb) then panic
      else if bool_decide (end_data ≤ vm_start v) then mret (vm_start v)
      else
        nv ← (if bool_decide (vm_next v = 0) then mret None
              else w ← load_vma (vm_next v); mret (Some w));
        if match nv with None => true | Some w => bool_decide (end_data ≤ vm_start w) end then
          modify (set_end_brk end_data) ;;
          edit_vma vma (with_end end_data) ;;
          mret end_data
        else mret 0.
