(* ===== verification/VmaProofs.v ===== *)
(** * Correctness of the area tree (kernel/mm/mm.c, kernel/rbtree.c)

    [rep A root parent t]: the memory [A] holds the tree [t] with root pointer
    [root], parent pointers included.  The tree of an address space is ordered:
    its areas, from left to right, are non-empty and follow one another. *)

From stdpp Require Import sorting.
From S2P Require Import Prelude Layout Vma.

Local Open Scope Z_scope.

(** An area: its address as a structure, and its bounds. *)
Record area := mk_area_of { a_id : Z; a_lo : Z; a_hi : Z }.

Inductive tree := Leaf | Node (l : tree) (a : area) (r : tree).

Fixpoint inorder (t : tree) : list area :=
  match t with Leaf => [] | Node l a r => inorder l ++ a :: inorder r end.

Fixpoint height (t : tree) : nat :=
  match t with Leaf => 0 | Node l _ r => S (Nat.max (height l) (height r)) end.

Definition ids (t : tree) : list Z := a_id <$> inorder t.

Definition holds (A : gmap Z vm_area_struct) (a : area) (parent left right : Z) : Prop :=
  a_id a ≠ 0 ∧ ∃ v, A !! a_id a = Some v ∧ vm_start v = a_lo a ∧ vm_end v = a_hi a ∧
    rb_parent v = parent ∧ rb_left v = left ∧ rb_right v = right.

Fixpoint rep (A : gmap Z vm_area_struct) (root parent : Z) (t : tree) : Prop :=
  match t with
  | Leaf => root = 0
  | Node l a r => root = a_id a ∧ ∃ left right,
      holds A a parent left right ∧ rep A left (a_id a) l ∧ rep A right (a_id a) r
  end.

(** Areas in address order. *)
Definition before (a b : area) : Prop := a_hi a ≤ a_lo b.
Definition ordered (l : list area) : Prop :=
  StronglySorted before l ∧ Forall (λ a, a_lo a < a_hi a) l.

Record mm_ok (m : mm_struct) (t : tree) : Prop := {
  mo_rep : rep (areas m) (mm_rb m) 0 t;
  mo_nodup : NoDup (ids t);
  mo_ordered : ordered (inorder t);
}.

Lemma ids_Node l a r : ids (Node l a r) = ids l ++ a_id a :: ids r.
Proof. unfold ids. simpl. by rewrite fmap_app. Qed.

Lemma holds_load m a parent left right :
  holds (areas m) a parent left right →
  ∃ v, load_vma (a_id a) m = Ok (v, m) ∧ vm_start v = a_lo a ∧ vm_end v = a_hi a ∧
    rb_left v = left ∧ rb_right v = right.
Proof.
  intros (_ & v & Hv & ? & ? & _ & ? & ?). exists v. split_and!; [|done..].
  unfold load_vma. run_step. by rewrite Hv.
Qed.

Lemma ordered_app l1 l2 :
  ordered (l1 ++ l2) ↔ ordered l1 ∧ ordered l2 ∧ ∀ a b, a ∈ l1 → b ∈ l2 → before a b.
Proof.
  unfold ordered. rewrite Forall_app. split.
  - intros [Hs [F1 F2]]. induction l1 as [|x l1 IH]; simpl in *.
    + split_and!; [constructor|done|done|done|]. intros a b Ha. by apply elem_of_nil in Ha.
    + apply StronglySorted_inv in Hs as [Hs Hx]. apply Forall_cons in F1 as [Hx1 F1].
      destruct (IH Hs F1) as ([S1 _] & S2 & Hb). rewrite Forall_app in Hx. destruct Hx as [X1 X2].
      split_and!; [by constructor|by constructor|apply S2|apply S2|].
      intros a b [->|Ha]%elem_of_cons Hb'; [|by apply Hb].
      rewrite Forall_forall in X2. by apply X2.
  - intros ([S1 F1] & [S2 F2] & Hb). split; [|done]. induction S1 as [|x l1 S1 IH Hx]; [done|].
    apply Forall_cons in F1 as [Hx1 F1]. simpl. constructor.
    + apply IH; [done|]. intros a b Ha. apply Hb. by right.
    + rewrite Forall_app. split; [done|]. apply Forall_forall. intros b Hb'. apply Hb; [by left|done].
Qed.

Lemma ordered_cons a l :
  ordered (a :: l) ↔ a_lo a < a_hi a ∧ ordered l ∧ ∀ b, b ∈ l → before a b.
Proof.
  unfold ordered. split.
  - intros [Hs F]. apply StronglySorted_inv in Hs as [Hs Hx]. apply Forall_cons in F as [Ha F].
    split_and!; [done..|]. by apply Forall_forall.
  - intros (Ha & [Hs F] & Hb). split; constructor; try done. by apply Forall_forall.
Qed.

Lemma ordered_Node l a r :
  ordered (inorder (Node l a r)) ↔
    ordered (inorder l) ∧ ordered (inorder r) ∧ a_lo a < a_hi a ∧
    (∀ b, b ∈ inorder l → before b a) ∧ (∀ b, b ∈ inorder r → before a b).
Proof.
  simpl. rewrite ordered_app, ordered_cons. split.
  - intros (H1 & (H2 & H3 & H4) & H5). split_and!; [done..| |done].
    intros b Hb. apply H5; [done|by left].
  - intros (H1 & H2 & H3 & H4 & H5). split_and!; [done..|].
    intros b c Hb [->|Hc]%elem_of_cons; [by apply H4|].
    unfold before in *. specialize (H4 b Hb). specialize (H5 c Hc). lia.
Qed.

(** ** Searching *)

(** The first area that ends after [addr]. *)
Fixpoint find_after (addr : Z) (l : list area) : option area :=
  match l with
  | [] => None
  | a :: l => if decide (addr < a_hi a) then Some a else find_after addr l
  end.

Lemma find_after_app addr l1 l2 :
  find_after addr (l1 ++ l2) =
    match find_after addr l1 with Some a => Some a | None => find_after addr l2 end.
Proof. induction l1 as [|a l1 IH]; simpl; [done|]. by case_decide. Qed.

Lemma find_after_None addr l : (∀ a, a ∈ l → a_hi a ≤ addr) → find_after addr l = None.
Proof.
  induction l as [|a l IH]; intros H; [done|]. simpl.
  rewrite decide_False by (specialize (H a ltac:(left)); lia). apply IH. intros b Hb. apply H. by right.
Qed.

Lemma find_vma_loop_ok t : ∀ fuel m root parent addr vma,
  rep (areas m) root parent t → ordered (inorder t) → (height t < fuel)%nat →
  find_vma_loop fuel root addr vma m =
    Ok (match find_after addr (inorder t) with Some a => a_id a | None => vma end, m).
Proof.
  induction t as [|l IHl a r IHr]; intros fuel m root parent addr vma Hrep Hord Hf;
    (destruct fuel as [|fuel]; [simpl in Hf; lia|]); cbn [find_vma_loop].
  - simpl in Hrep. subst root. by rewrite bool_decide_true.
  - destruct Hrep as (-> & left & right & Hh & Hl & Hr). pose proof (proj1 Hh) as Hne.
    rewrite bool_decide_false by done.
    destruct (holds_load m a parent left right Hh) as (v & Hv & Es & Ee & El & Er).
    rewrite (bind_Ok _ _ _ _ _ Hv). rewrite Es, Ee, El, Er.
    apply ordered_Node in Hord as (Ol & Or & Ha & Hbl & Hbr). simpl in Hf.
    cbn [inorder]. rewrite find_after_app. cbn [find_after].
    case_bool_decide as Hlt.
    + rewrite (decide_True (P := addr < a_hi a)) by done. case_bool_decide as Hs.
      * rewrite (find_after_None addr (inorder l)); [done|]. intros b Hb. specialize (Hbl b Hb). unfold before in Hbl. lia.
      * rewrite (IHl fuel m left (a_id a) addr (a_id a)) by (done || lia).
        by destruct (find_after addr (inorder l)).
    + rewrite (decide_False (P := addr < a_hi a)) by done.
      rewrite (IHr fuel m right (a_id a) addr vma) by (done || lia).
      rewrite (find_after_None addr (inorder l)); [done|]. intros b Hb. specialize (Hbl b Hb). unfold before in Hbl. lia.
Qed.

Lemma find_vma_ok m t fuel addr :
  mm_ok m t → (height t < fuel)%nat →
  find_vma fuel addr m =
    Ok (match find_after addr (inorder t) with Some a => a_id a | None => 0 end, m).
Proof.
  intros [H1 H2 H3] Hf. unfold find_vma, gets. run_step. by eapply find_vma_loop_ok.
Qed.

(** [find_vma_prev] returns NULL or some area of the tree. *)
Lemma find_vma_prev_loop_some t : ∀ fuel m root parent addr vma,
  rep (areas m) root parent t → (height t < fuel)%nat →
  ∃ p, find_vma_prev_loop fuel root addr vma m = Ok (p, m) ∧ (p = vma ∨ p ∈ ids t).
Proof.
  induction t as [|l IHl a r IHr]; intros fuel m root parent addr vma Hrep Hf;
    (destruct fuel as [|fuel]; [simpl in Hf; lia|]); cbn [find_vma_prev_loop].
  - simpl in Hrep. subst root. rewrite bool_decide_true by done. eauto.
  - destruct Hrep as (-> & left & right & Hh & Hl & Hr). pose proof (proj1 Hh) as Hne.
    rewrite bool_decide_false by done.
    destruct (holds_load m a parent left right Hh) as (v & Hv & _ & _ & El & Er).
    rewrite (bind_Ok _ _ _ _ _ Hv). rewrite El, Er, ids_Node. simpl in Hf.
    case_bool_decide; [case_bool_decide|].
    + eexists. split; [done|]. right. set_solver.
    + destruct (IHl fuel m left (a_id a) addr (a_id a) Hl ltac:(lia)) as (p & -> & Hp).
      exists p. split; [done|]. right. set_solver.
    + destruct (IHr fuel m right (a_id a) addr vma Hr ltac:(lia)) as (p & -> & Hp).
      exists p. split; [done|]. set_solver.
Qed.

(** ** Inserting *)

Definition sets_next (A A' : gmap Z vm_area_struct) (t : tree) : Prop :=
  ∀ i, i ∈ ids t → ∀ v, A !! i = Some v →
    ∃ v', A' !! i = Some v' ∧ vm_start v' = vm_start v ∧ vm_end v' = vm_end v ∧
      rb_parent v' = rb_parent v ∧ rb_left v' = rb_left v ∧ rb_right v' = rb_right v.

(** A tree does not depend on [vm_next] nor on other areas. *)
Lemma rep_ext A A' t : ∀ root parent,
  sets_next A A' t → rep A root parent t → rep A' root parent t.
Proof.
  induction t as [|l IHl a r IHr]; intros root parent Hs Hrep; [done|].
  destruct Hrep as (-> & left & right & (Hne & v & Hv & E1 & E2 & E3 & E4 & E5) & Hl & Hr).
  assert (Hin : ∀ i, i ∈ ids l ∨ i = a_id a ∨ i ∈ ids r → i ∈ ids (Node l a r))
    by (intros i; rewrite ids_Node; set_solver).
  destruct (Hs (a_id a) (Hin _ (or_intror (or_introl eq_refl))) v Hv)
    as (v' & Hv' & F1 & F2 & F3 & F4 & F5).
  split; [done|]. exists left, right. split_and!.
  - split; [done|]. exists v'. split_and!; congruence.
  - apply IHl; [|done]. intros i Hi. apply Hs, Hin. by left.
  - apply IHr; [|done]. intros i Hi. apply Hs, Hin. by right; right.
Qed.

Lemma rep_frame A A' t root parent :
  (∀ i, i ∈ ids t → A' !! i = A !! i) → rep A root parent t → rep A' root parent t.
Proof.
  intros Hf. apply rep_ext. intros i Hi v Hv. exists v. rewrite Hf by done. done.
Qed.

Fixpoint tinsert (a : area) (t : tree) : tree :=
  match t with
  | Leaf => Node Leaf a Leaf
  | Node l b r =>
      if decide (a_hi a < a_hi b) then Node (tinsert a l) b r else Node l b (tinsert a r)
  end.

(** Where the descent for an area that ends at [e] stops. *)
Fixpoint where_to (t : tree) (slot : rb_slot) (parent e : Z) : rb_slot * Z :=
  match t with
  | Leaf => (slot, parent)
  | Node l b r =>
      if decide (e < a_hi b) then where_to l (rb_left_slot (a_id b)) (a_id b) e
      else where_to r (rb_right_slot (a_id b)) (a_id b) e
  end.

Lemma read_left m a parent left right :
  holds (areas m) a parent left right →
  read_rb (rb_left_slot (a_id a)) m = Ok (left, m) ∧ read_rb (rb_right_slot (a_id a)) m = Ok (right, m).
Proof.
  intros Hh. destruct (holds_load m a parent left right Hh) as (v & Hv & _ & _ & El & Er).
  unfold read_rb. rewrite !(bind_Ok _ _ _ _ _ Hv), El, Er. done.
Qed.

Lemma vm_link_descend_ok t : ∀ fuel m slot root parent e,
  rep (areas m) root parent t → read_rb slot m = Ok (root, m) → (height t < fuel)%nat →
  vm_link_descend fuel slot parent e m = Ok (where_to t slot parent e, m).
Proof.
  induction t as [|l IHl a r IHr]; intros fuel m slot root parent e Hrep Hread Hf;
    (destruct fuel as [|fuel]; [simpl in Hf; lia|]); cbn [vm_link_descend where_to];
    rewrite (bind_Ok _ _ _ _ _ Hread).
  - simpl in Hrep. subst root. by rewrite bool_decide_true.
  - destruct Hrep as (-> & left & right & Hh & Hl & Hr). pose proof (proj1 Hh) as Hne.
    rewrite bool_decide_false by done.
    destruct (holds_load m a parent left right Hh) as (v & Hv & _ & Ee & _).
    destruct (read_left m a parent left right Hh) as [Rl Rr].
    rewrite (bind_Ok _ _ _ _ _ Hv). rewrite Ee. simpl in Hf.
    case_bool_decide; [rewrite decide_True by done|rewrite decide_False by done].
    + by apply (IHl fuel m _ left); [| |lia].
    + by apply (IHr fuel m _ right); [| |lia].
Qed.

(** The memory after a slot has been made to point to [n]. *)
Definition link_at (slot : rb_slot) (n : Z) (A : gmap Z vm_area_struct) : gmap Z vm_area_struct :=
  match slot with
  | rb_root_slot => A
  | rb_left_slot p => alter (with_left n) p A
  | rb_right_slot p => alter (with_right n) p A
  end.

Definition slot_node (slot : rb_slot) : option Z :=
  match slot with rb_root_slot => None | rb_left_slot p | rb_right_slot p => Some p end.

Lemma link_at_other slot n A i : slot_node slot ≠ Some i → link_at slot n A !! i = A !! i.
Proof. destruct slot; simpl; intros H; [done|..]; apply lookup_alter_ne; congruence. Qed.

Lemma where_to_node t slot parent e :
  slot_node (where_to t slot parent e).1 = slot_node slot ∧ t = Leaf ∨
  ∃ i, slot_node (where_to t slot parent e).1 = Some i ∧ i ∈ ids t.
Proof.
  revert slot parent. induction t as [|l IHl a r IHr]; intros slot parent; simpl; [by left|].
  right. rewrite ids_Node. case_decide.
  - destruct (IHl (rb_left_slot (a_id a)) (a_id a)) as [[-> _]|(i & -> & Hi)]; simpl; set_solver.
  - destruct (IHr (rb_right_slot (a_id a)) (a_id a)) as [[-> _]|(i & -> & Hi)]; simpl; set_solver.
Qed.

Definition new_memory (A : gmap Z vm_area_struct) (sp : rb_slot * Z) (n : Z) : gmap Z vm_area_struct :=
  alter (with_parent sp.2) n (link_at sp.1 n A).

Lemma new_memory_other A sp n i :
  i ≠ n → slot_node sp.1 ≠ Some i → new_memory A sp n !! i = A !! i.
Proof. intros H1 H2. unfold new_memory. rewrite lookup_alter_ne by done. by apply link_at_other. Qed.

Section insert.
Context (A : gmap Z vm_area_struct) (n : area).

(** The new area, with no children. *)
Definition fresh_area : Prop :=
  a_id n ≠ 0 ∧ ∃ v, A !! a_id n = Some v ∧ vm_start v = a_lo n ∧ vm_end v = a_hi n ∧
    rb_left v = 0 ∧ rb_right v = 0.

Lemma fresh_linked sp :
  fresh_area → slot_node sp.1 ≠ Some (a_id n) → holds (new_memory A sp (a_id n)) n sp.2 0 0.
Proof.
  intros (Hn0 & v & Hv & E1 & E2 & E3 & E4) Hs. split; [done|].
  exists (with_parent sp.2 v). split_and!; [|done..].
  unfold new_memory. rewrite lookup_alter_eq, link_at_other, Hv by done. done.
Qed.

Lemma insert_rep t : ∀ slot root parent,
  fresh_area → rep A root parent t → NoDup (ids t) → a_id n ∉ ids t →
  slot_node slot ≠ Some (a_id n) → (∀ i, slot_node slot = Some i → i ∉ ids t) →
  rep (new_memory A (where_to t slot parent (a_hi n)) (a_id n))
    (match t with Leaf => a_id n | _ => root end) parent (tinsert n t).
Proof.
  induction t as [|l IHl a r IHr]; intros slot root parent Hn Hrep Hnd Hni Hsn Hsl.
  { simpl. split; [done|]. exists 0, 0. split_and!; [|done|done]. by apply fresh_linked. }
  destruct Hrep as (-> & left & right & Hh & Hl & Hr).
  rewrite ids_Node in *. apply NoDup_app in Hnd as (Nl & Nd & (Nr1 & Nr)%NoDup_cons).
  assert (Hal : a_id a ∉ ids l) by (intros Hi; apply (Nd _ Hi); by left).
  assert (Hdis : ∀ i, i ∈ ids l → i ∉ ids r) by (intros i Hi Hi'; apply (Nd _ Hi); by right).
  assert (Hna : a_id n ≠ a_id a) by set_solver.
  destruct Hh as (Ha0 & v & Hv & E1 & E2 & E3 & E4 & E5).
  cbn [where_to tinsert]. case_decide as Hlt.
  - set (sp := where_to l (rb_left_slot (a_id a)) (a_id a) (a_hi n)) in *.
    pose proof (where_to_node l (rb_left_slot (a_id a)) (a_id a) (a_hi n)) as Hw. fold sp in Hw.
    specialize (IHl (rb_left_slot (a_id a)) left (a_id a) Hn Hl Nl ltac:(set_solver)
      ltac:(simpl; congruence) ltac:(simpl; intros i [= <-]; done)). fold sp in IHl.
    assert (Hrr : rep (new_memory A sp (a_id n)) right (a_id a) r).
    { apply (rep_frame A); [|done]. intros i Hi. apply new_memory_other; [set_solver|].
      destruct Hw as [[-> _]|(j & -> & Hj)]; simpl; intros [= <-]; [done|by apply (Hdis j)]. }
    split; [done|]. exists (match l with Leaf => a_id n | _ => left end), right.
    split_and!; [|done|done]. split; [done|].
    destruct Hw as [[Hw ->]|(j & Hw & Hj)].
    + exists (with_left (a_id n) v). split_and!; try done.
      unfold new_memory, sp. cbn [where_to fst snd link_at].
      rewrite lookup_alter_ne, lookup_alter_eq by congruence. by rewrite Hv.
    + exists v. split_and!; try done.
      * rewrite new_memory_other; [done|congruence|]. rewrite Hw. intros [= ->]. done.
      * rewrite E4. destruct l; [by apply elem_of_nil in Hj|done].
  - set (sp := where_to r (rb_right_slot (a_id a)) (a_id a) (a_hi n)) in *.
    pose proof (where_to_node r (rb_right_slot (a_id a)) (a_id a) (a_hi n)) as Hw. fold sp in Hw.
    specialize (IHr (rb_right_slot (a_id a)) right (a_id a) Hn Hr Nr ltac:(set_solver)
      ltac:(simpl; congruence) ltac:(simpl; intros i [= <-]; done)). fold sp in IHr.
    assert (Hll : rep (new_memory A sp (a_id n)) left (a_id a) l).
    { apply (rep_frame A); [|done]. intros i Hi. apply new_memory_other; [set_solver|].
      destruct Hw as [[-> _]|(j & -> & Hj)]; simpl; intros [= <-]; [done|by apply (Hdis j)]. }
    split; [done|]. exists left, (match r with Leaf => a_id n | _ => right end).
    split_and!; [|done|done]. split; [done|].
    destruct Hw as [[Hw ->]|(j & Hw & Hj)].
    + exists (with_right (a_id n) v). split_and!; try done.
      unfold new_memory, sp. cbn [where_to fst snd link_at].
      rewrite lookup_alter_ne, lookup_alter_eq by congruence. by rewrite Hv.
    + exists v. split_and!; try done.
      * rewrite new_memory_other; [done|congruence|]. rewrite Hw. intros [= ->]. done.
      * rewrite E5. destruct r; [by apply elem_of_nil in Hj|done].
Qed.
End insert.

Lemma tinsert_perm n t : inorder (tinsert n t) ≡ₚ n :: inorder t.
Proof.
  induction t as [|l IHl b r IHr]; simpl; [done|]. case_decide; simpl.
  - by rewrite IHl.
  - rewrite IHr. rewrite <- !Permutation_middle. rewrite Permutation_swap. done.
Qed.

(** [n] overlaps no area of the tree. *)
Definition apart (n : area) (t : tree) : Prop :=
  ∀ b, b ∈ inorder t → before n b ∨ before b n.

Lemma tinsert_ordered n t :
  a_lo n < a_hi n → apart n t → ordered (inorder t) → ordered (inorder (tinsert n t)).
Proof.
  intros Hn. induction t as [|l IHl b r IHr]; intros Hd Ho.
  { split; repeat constructor. done. }
  pose proof (Hd b ltac:(simpl; set_solver)) as Hb.
  apply ordered_Node in Ho as (Ol & Or & Hb0 & Hl & Hr). unfold before in *.
  cbn [tinsert]. case_decide; apply ordered_Node; unfold before.
  - split_and!; [|done..| |done].
    + apply IHl; [|done]. intros c Hc. apply Hd. simpl. set_solver.
    + intros c. rewrite tinsert_perm. intros [->|Hc]%elem_of_cons; [lia|by apply Hl].
  - split_and!; [done| |done|done|].
    + apply IHr; [|done]. intros c Hc. apply Hd. simpl. set_solver.
    + intros c. rewrite tinsert_perm. intros [->|Hc]%elem_of_cons; [lia|by apply Hr].
Qed.

Lemma tinsert_ids n t : ids (tinsert n t) ≡ₚ a_id n :: ids t.
Proof. unfold ids. by rewrite tinsert_perm. Qed.

Lemma alter_as_insert {B} (f : B → B) (p : Z) (A : gmap Z B) v :
  A !! p = Some v → alter f p A = <[p := f v]> A.
Proof.
  intros Hv. apply map_eq. intros i. destruct (decide (i = p)) as [->|Hne].
  - by rewrite lookup_alter_eq, lookup_insert_eq, Hv.
  - by rewrite lookup_alter_ne, lookup_insert_ne.
Qed.

Lemma edit_vma_ok m p f v :
  areas m !! p = Some v → edit_vma p f m = Ok (tt, set_areas_mm (alter f p) m).
Proof.
  intros Hv. unfold edit_vma, load_vma. rewrite bind_assoc. run_step.
  rewrite (bind_Ok _ _ _ _ _ (of_option_Some _ _ _ Hv)). unfold modify, set_areas_mm.
  by rewrite (alter_as_insert f p _ v).
Qed.

Lemma rep_in A root parent t i : rep A root parent t → i ∈ ids t → ∃ v, A !! i = Some v.
Proof.
  revert root parent. induction t as [|l IHl a r IHr]; intros root parent Hrep Hi;
    [by apply elem_of_nil in Hi|].
  destruct Hrep as (-> & left & right & (_ & v & Hv & _) & Hl & Hr). rewrite ids_Node in Hi.
  apply elem_of_app in Hi as [Hi|[->|Hi]%elem_of_cons]; eauto.
Qed.

(** The link that [vm_link] makes in the list: only [vm_next] fields change. *)
Lemma vm_link_list m t fuel n nv :
  mm_ok m t → (height t < fuel)%nat → areas m !! n = Some nv → n ∉ ids t →
  ∃ m1, (vma ← find_vma_prev fuel (vm_start nv);
         if bool_decide (vma = 0) then
           h ← gets mmap; edit_vma n (with_next h) ;; modify (set_mmap n)
         else
           v ← load_vma vma; edit_vma n (with_next (vm_next v)) ;; edit_vma vma (with_next n)) m
        = Ok (tt, m1) ∧
    mm_rb m1 = mm_rb m ∧ end_brk m1 = end_brk m ∧ start_brk m1 = start_brk m ∧
    mmap_count m1 = mmap_count m ∧ sets_next (areas m) (areas m1) t ∧
    ∃ x, areas m1 !! n = Some (with_next x nv).
Proof.
  intros [Hrep Hnd _] Hf Hnv Hn. unfold find_vma_prev, gets. rewrite bind_assoc. run_step.
  destruct (find_vma_prev_loop_some t fuel m (mm_rb m) 0 (vm_start nv) 0 Hrep Hf) as (p & Hp & Hcase).
  rewrite (bind_Ok _ _ _ _ _ Hp). case_bool_decide as Hp0.
  - run_step. rewrite (bind_Ok _ _ _ _ _ (edit_vma_ok m n _ nv Hnv)).
    eexists. split; [reflexivity|]. split_and!; [done..| |].
    + intros i Hi v Hv. exists v. simpl. rewrite lookup_alter_ne by (intros ->; done). done.
    + eexists. simpl. rewrite lookup_alter_eq, Hnv. done.
  - destruct Hcase as [?|Hin]; [done|]. destruct (rep_in _ _ _ _ p Hrep Hin) as [pv Hpv].
    assert (Hne : p ≠ n) by (intros ->; done).
    erewrite bind_Ok by (unfold load_vma; run_step; by rewrite Hpv).
    rewrite (bind_Ok _ _ _ _ _ (edit_vma_ok m n _ nv Hnv)).
    rewrite (edit_vma_ok _ p _ pv) by (simpl; by rewrite lookup_alter_ne).
    eexists. split; [reflexivity|]. split_and!; [done..| |].
    + intros i Hi v Hv. simpl. destruct (decide (i = p)) as [->|Hip].
      * eexists. rewrite lookup_alter_eq, lookup_alter_ne, Hv by done. done.
      * exists v. rewrite lookup_alter_ne by done.
        rewrite lookup_alter_ne by (intros ->; done). done.
    + eexists. simpl. rewrite lookup_alter_ne, lookup_alter_eq, Hnv by done. done.
Qed.

Lemma vm_link_ok m t fuel n nv :
  mm_ok m t → (height t < fuel)%nat → areas m !! a_id n = Some nv →
  a_id n ≠ 0 → vm_start nv = a_lo n → vm_end nv = a_hi n → rb_left nv = 0 → rb_right nv = 0 →
  a_id n ∉ ids t → a_lo n < a_hi n → apart n t →
  ∃ m', vm_link fuel (a_id n) m = Ok (tt, m') ∧ mm_ok m' (tinsert n t) ∧
    end_brk m' = end_brk m ∧ start_brk m' = start_brk m ∧
    mmap_count m' = i32 (mmap_count m + 1).
Proof.
  intros Hok Hf Hnv Hn0 Es Ee El Er Hn Hlt Hap.
  destruct (vm_link_list m t fuel (a_id n) nv Hok Hf Hnv Hn)
    as (m1 & Hrun & R1 & R2 & R3 & R4 & Hsn & x & Hx).
  unfold vm_link. erewrite bind_Ok by (unfold load_vma; run_step; by rewrite Hnv).
  cbv zeta. rewrite <- (bind_assoc (find_vma_prev fuel (vm_start nv))). rewrite (bind_Ok _ _ _ _ _ Hrun).
  pose proof (rep_ext _ _ t _ _ Hsn (mo_rep _ _ Hok)) as Hrep1.
  assert (Hread : read_rb rb_root_slot m1 = Ok (mm_rb m, m1)) by (simpl; unfold gets; by rewrite R1).
  rewrite (bind_Ok _ _ _ _ _ (vm_link_descend_ok t fuel m1 rb_root_slot (mm_rb m) 0 (vm_end nv)
    Hrep1 Hread Hf)).
  rewrite Ee. pose proof (where_to_node t rb_root_slot 0 (a_hi n)) as Hw.
  assert (Hfresh : fresh_area (areas m1) n).
  { split; [done|]. exists (with_next x nv). done. }
  pose proof (insert_rep (areas m1) n t rb_root_slot (mm_rb m) 0 Hfresh Hrep1 (mo_nodup _ _ Hok) Hn
    ltac:(done) ltac:(done)) as Hins.
  destruct (where_to t rb_root_slot 0 (a_hi n)) as [slot parent] eqn:Ew. cbn [fst] in Hw.
  (* the two writes *)
  assert (Hlink : ∃ m2, rb_link_node (a_id n) parent slot m1 = Ok (tt, m2) ∧
    areas m2 = new_memory (areas m1) (slot, parent) (a_id n) ∧
    mm_rb m2 = (match t with Leaf => a_id n | _ => mm_rb m end) ∧
    end_brk m2 = end_brk m1 ∧ start_brk m2 = start_brk m1 ∧ mmap_count m2 = mmap_count m1).
  { unfold rb_link_node. destruct Hw as [[Hw ->]|(i & Hw & Hi)].
    - destruct slot; simpl in Hw; try done. cbn [write_rb]. unfold modify at 1. run_step.
      rewrite (edit_vma_ok _ _ _ _ (Hx : areas (set_root (a_id n) m1) !! a_id n = _)).
      eexists. split; [reflexivity|]. done.
    - destruct (rep_in _ _ _ _ i Hrep1 Hi) as [iv Hiv].
      assert (Hin : i ≠ a_id n) by (intros ->; done).
      assert (Hroot : mm_rb m = match t with Leaf => a_id n | _ => mm_rb m end)
        by (destruct t; [by apply elem_of_nil in Hi|done]).
      destruct slot as [|j|j]; simpl in Hw; try done; injection Hw as ->; cbn [write_rb];
        rewrite (bind_Ok _ _ _ _ _ (edit_vma_ok m1 i _ iv Hiv));
        (erewrite edit_vma_ok by (simpl; rewrite lookup_alter_ne by done; exact Hx));
        (eexists; split; [reflexivity|]); split_and!; try done; simpl; by rewrite R1. }
  destruct Hlink as (m2 & Hrun2 & A2 & B2 & C2 & D2 & F2). rewrite (bind_Ok _ _ _ _ _ Hrun2).
  run_step. eexists. split; [reflexivity|]. cbn [end_brk start_brk mmap_count set_count].
  split_and!; [|congruence|congruence|congruence].
  split.
  - simpl. rewrite A2, B2. exact Hins.
  - rewrite tinsert_ids. constructor; [done|apply Hok].
  - apply tinsert_ordered; [done|done|apply Hok].
Qed.

(** ** Placing a new area *)

Definition range_free (lo hi : Z) (l : list area) : Prop :=
  ∀ b, b ∈ l → a_hi b ≤ lo ∨ hi ≤ a_lo b.

Lemma find_after_Some addr l a :
  find_after addr l = Some a →
  addr < a_hi a ∧ ∃ l1 l2, l = l1 ++ a :: l2 ∧ ∀ b, b ∈ l1 → a_hi b ≤ addr.
Proof.
  induction l as [|x l IH]; simpl; [done|]. case_decide as Hx.
  - intros [= ->]. split; [done|]. exists [], l. split; [done|]. intros b Hb. by apply elem_of_nil in Hb.
  - intros (Ha & l1 & l2 & -> & Hb)%IH. split; [done|]. exists (x :: l1), l2. split; [done|].
    intros b [->|Hb']%elem_of_cons; [lia|by apply Hb].
Qed.

Lemma find_after_None_inv addr l a : find_after addr l = None → a ∈ l → a_hi a ≤ addr.
Proof.
  induction l as [|x l IH]; simpl; intros Hf Ha; [by apply elem_of_nil in Ha|].
  case_decide; [done|]. apply elem_of_cons in Ha as [->|Ha]; [lia|auto].
Qed.

(** The next area decides whether a range is free. *)
Lemma range_free_next addr hi l :
  ordered l → addr < hi →
  match find_after addr l with None => True | Some a => hi ≤ a_lo a end ↔ range_free addr hi l.
Proof.
  intros Ho Hlt. destruct (find_after addr l) as [a|] eqn:E.
  - destruct (find_after_Some addr l a E) as (Ha & l1 & l2 & -> & Hl1). split.
    + intros Hhi b [Hb|[->|Hb]%elem_of_cons]%elem_of_app; [left; by apply Hl1|by right|].
      right. apply ordered_app in Ho as (_ & (H & _ & Hs)%ordered_cons & _).
      specialize (Hs b Hb). unfold before in Hs. lia.
    + intros Hr. destruct (Hr a ltac:(set_solver)); lia.
  - split; [|done]. intros _ b Hb. left. by eapply find_after_None_inv.
Qed.

Lemma find_after_area m t fuel addr :
  mm_ok m t → (height t < fuel)%nat →
  (vma ← find_vma fuel addr;
   nv ← (if bool_decide (vma = 0) then mret None else v ← load_vma vma; mret (Some v));
   mret (match nv with None => None | Some v => Some (vm_start v) end)) m =
    Ok (a_lo <$> find_after addr (inorder t), m).
Proof.
  intros Hok Hf. rewrite (bind_Ok _ _ _ _ _ (find_vma_ok m t fuel addr Hok Hf)).
  destruct (find_after addr (inorder t)) as [a|] eqn:E; [|by rewrite bool_decide_true].
  destruct (find_after_Some _ _ _ E) as (_ & l1 & l2 & El & _).
  assert (Hh : ∀ t root parent, rep (areas m) root parent t → a ∈ inorder t →
    ∃ p l r, holds (areas m) a p l r).
  { clear. induction t as [|l IHl b r IHr]; intros root parent Hrep Ha; [by apply elem_of_nil in Ha|].
    destruct Hrep as (-> & left & right & Hh & Hl & Hr). simpl in Ha.
    apply elem_of_app in Ha as [Ha|[->|Ha]%elem_of_cons]; eauto. }
  destruct (Hh t (mm_rb m) 0 (mo_rep _ _ Hok)) as (p & l & r & Ha); [rewrite El; set_solver|].
  rewrite bool_decide_false by apply Ha.
  destruct (holds_load m a p l r Ha) as (v & Hv & Es & _). rewrite bind_assoc.
  rewrite (bind_Ok _ _ _ _ _ Hv). run_step. by rewrite Es.
Qed.

Lemma get_unmapped_vma_ok m t fuel addr len :
  mm_ok m t → (height t < fuel)%nat → 0 < addr → 0 < len → addr + len < 2 ^ 32 →
  ∃ r, get_unmapped_vma fuel addr len m = Ok (r, m) ∧
    (r = addr ∧ addr + len ≤ KERNEL_BASE_ADDR ∧ range_free addr (addr + len) (inorder t) ∨
     r = 0 ∧ ¬ (addr + len ≤ KERNEL_BASE_ADDR ∧ range_free addr (addr + len) (inorder t))).
Proof.
  intros Hok Hf Ha Hl Hw. unfold get_unmapped_vma.
  case_bool_decide as Hbig; [exists 0; split; [done|right; split; [done|lia]]|].
  rewrite bool_decide_true by lia. rewrite u32_small by lia.
  pose proof (find_after_area m t fuel addr Hok Hf) as Hrun. apply bind_Ok_inv in Hrun as (vma & m1 & H1 & Hrun).
  apply bind_Ok_inv in Hrun as (nv & m2 & H2 & Hrun). injection Hrun as Hnv ->.
  assert (m1 = m) as -> by (rewrite (find_vma_ok m t fuel addr Hok Hf) in H1; by injection H1).
  rewrite (bind_Ok _ _ _ _ _ H1), (bind_Ok _ _ _ _ _ H2).
  pose proof (range_free_next addr (addr + len) (inorder t) (mo_ordered _ _ Hok) ltac:(lia)) as Hrf.
  assert (Hb : match nv with None => true | Some v => bool_decide (addr + len ≤ vm_start v) end = true
    ↔ range_free addr (addr + len) (inorder t)).
  { rewrite <- Hrf. destruct nv as [v|], (find_after addr (inorder t)) as [a|]; simplify_eq/=; [|done].
    rewrite bool_decide_eq_true. by rewrite Hnv. }
  destruct (bool_decide (addr + len ≤ KERNEL_BASE_ADDR) && _) eqn:E.
  - apply andb_true_iff in E as [E1%bool_decide_eq_true E2]. exists addr. split; [done|]. left.
    split_and!; [done|done|by apply Hb].
  - exists 0. split; [done|]. right. split; [done|]. intros [E1 E2]. apply Hb in E2.
    rewrite E2, andb_true_r in E. by apply bool_decide_eq_false in E.
Qed.

Definition page_aligned (x : Z) : Prop := (PAGE_SIZE | x).

Definition aligned_areas (t : tree) : Prop :=
  ∀ a, a ∈ inorder t → page_aligned (a_lo a) ∧ page_aligned (a_hi a).

(** The area [create_vma] makes for a request. *)
Definition new_area (o addr len : Z) : area :=
  mk_area_of o (ROUNDDOWN addr PAGE_SIZE) (ROUNDDOWN addr PAGE_SIZE + ROUNDUP len PAGE_SIZE).

Lemma new_area_facts o addr len t :
  PAGE_SIZE ≤ addr → 0 < len → addr + len + PAGE_SIZE ≤ 2 ^ 32 →
  aligned_areas t → range_free addr (addr + len) (inorder t) →
  a_lo (new_area o addr len) < a_hi (new_area o addr len) ∧
  a_hi (new_area o addr len) < 2 ^ 32 ∧ apart (new_area o addr len) t ∧
  page_aligned (a_lo (new_area o addr len)) ∧ page_aligned (a_hi (new_area o addr len)).
Proof.
  unfold new_area, page_aligned, PAGE_SIZE. cbn [a_lo a_hi]. intros Ha Hl Hw Hal Hr.
  pose proof (ROUNDDOWN_le addr 4096 ltac:(lia)). pose proof (ROUNDDOWN_divide addr 4096 ltac:(lia)) as Hd.
  destruct (ROUNDUP_ge len 4096) as [Hru Hdu]; [lia..|].
  assert (Hda : (4096 | ROUNDDOWN addr 4096 + ROUNDUP len 4096)) by (by apply Z.divide_add_r).
  split_and!; [lia|lia| |done|done].
  intros b Hb. destruct (Hal b Hb) as [[x Hx] [y Hy]]. destruct Hd as [p Hp], Hdu as [q Hq].
  unfold before, PAGE_SIZE in *. cbn [a_lo a_hi]. destruct (Hr b Hb); [right|left]; lia.
Qed.

Lemma create_vma_ok m t fuel addr len flags o :
  mm_ok m t → aligned_areas t → (height t < fuel)%nat → PAGE_SIZE ≤ addr → 0 < len →
  addr + len + PAGE_SIZE ≤ 2 ^ 32 → o ≠ 0 → o ∉ ids t →
  ∃ r m', create_vma fuel addr len flags o (0, 0) m = Ok (r, m') ∧
    (start_brk m' = start_brk m ∧ end_brk m' = end_brk m) ∧
    (r = o ∧ addr + len ≤ KERNEL_BASE_ADDR ∧ range_free addr (addr + len) (inorder t) ∧
       mm_ok m' (tinsert (new_area o addr len) t) ∧ aligned_areas (tinsert (new_area o addr len) t) ∨
     r = 0 ∧ m' = m ∧
       ¬ (addr + len ≤ KERNEL_BASE_ADDR ∧ range_free addr (addr + len) (inorder t))).
Proof.
  intros Hok Hal Hf Ha Hl Hw Ho0 Ho. unfold create_vma.
  assert (PAGE_SIZE ≤ ROUNDDOWN addr PAGE_SIZE).
  { unfold PAGE_SIZE in *. pose proof (ROUNDDOWN_le addr 4096 ltac:(lia)).
    destruct (ROUNDDOWN_divide addr 4096 ltac:(lia)) as [x Hx]. lia. }
  rewrite bool_decide_false by (unfold PAGE_SIZE in *; lia).
  destruct (get_unmapped_vma_ok m t fuel addr len Hok Hf) as (r & Hrun & Hr);
    [unfold PAGE_SIZE in *; lia..|].
  rewrite (bind_Ok _ _ _ _ _ Hrun). destruct Hr as [(-> & Hk & Hfree)|[-> Hn]].
  2: { exists 0, m. split; [by rewrite bool_decide_true|]. split; [done|by right]. }
  rewrite bool_decide_false by (unfold PAGE_SIZE in *; lia). rewrite bool_decide_false by done.
  destruct (new_area_facts o addr len t Ha Hl Hw Hal Hfree) as (N1 & N2 & N3 & N4 & N5).
  cbv zeta. unfold modify. run_step. cbn [fst snd]. set (m1 := set_areas_mm _ m).
  assert (Hok1 : mm_ok m1 t).
  { destruct Hok as [H1 H2 H3]. split; [|done..]. apply (rep_frame (areas m)); [|done].
    intros i Hi. simpl. rewrite lookup_insert_ne; [done|]. intros ->. done. }
  destruct (vm_link_ok m1 t fuel (new_area o addr len)
    (mk_vma 0 0 0 0 (ROUNDDOWN addr PAGE_SIZE)
      (u32 (ROUNDDOWN addr PAGE_SIZE + ROUNDUP len PAGE_SIZE)) flags))
    as (m' & Hrun' & Hok' & He & Hs & _); try done.
  { apply lookup_insert_eq. }
  { cbn [vm_end a_hi new_area]. apply u32_small. unfold new_area in N1, N2. cbn [a_lo a_hi] in N1, N2.
    unfold PAGE_SIZE in *. lia. }
  change (a_id (new_area o addr len)) with o in Hrun'. rewrite (bind_Ok _ _ _ _ _ Hrun').
  exists o, m'. split; [done|]. split; [done|]. left. split_and!; [done..|].
  intros a. rewrite tinsert_perm. intros [->|Hin]%elem_of_cons; [done|by apply Hal].
Qed.

(** ** Deleting a node with at most one child *)

(** The tree with the node [x] replaced by its only child. *)
Fixpoint tdelete (x : Z) (t : tree) : tree :=
  match t with
  | Leaf => Leaf
  | Node l a r =>
      if decide (a_id a = x) then match l with Leaf => r | _ => l end
      else Node (tdelete x l) a (tdelete x r)
  end.

(** The node [x] of [t] has a missing child. *)
Fixpoint short (x : Z) (t : tree) : Prop :=
  match t with
  | Leaf => True
  | Node l a r => (a_id a = x → l = Leaf ∨ r = Leaf) ∧ short x l ∧ short x r
  end.

Lemma tdelete_absent x t : x ∉ ids t → tdelete x t = t.
Proof.
  induction t as [|l IHl a r IHr]; intros Hx; [done|]. rewrite ids_Node in Hx. simpl.
  rewrite decide_False by set_solver. rewrite IHl, IHr by set_solver. done.
Qed.

Lemma tdelete_inorder x t :
  NoDup (ids t) → short x t → inorder (tdelete x t) = filter (λ a, a_id a ≠ x) (inorder t).
Proof.
  assert (Hid : ∀ t, x ∉ ids t → filter (λ a, a_id a ≠ x) (inorder t) = inorder t).
  { intros t0 Hx. unfold ids in Hx.
    induction (inorder t0) as [|a l IH]; [done|]. rewrite fmap_cons in Hx.
    rewrite filter_cons, decide_True by set_solver. f_equal. apply IH. set_solver. }
  induction t as [|l IHl a r IHr]; intros Hnd Hs; [done|]. rewrite ids_Node in Hnd.
  apply NoDup_app in Hnd as (Nl & Nd & (Nr1 & Nr)%NoDup_cons). simpl in Hs. destruct Hs as (Ha & Sl & Sr).
  cbn [tdelete inorder]. rewrite filter_app, filter_cons. case_decide as E.
  - rewrite decide_False by (intros H; by apply H).
    rewrite !Hid by (subst x; [done|intros Hi; apply (Nd _ Hi); by left] || set_solver).
    destruct (Ha E) as [->| ->]; [done|]. simpl. rewrite app_nil_r. by destruct l.
  - rewrite decide_True by done. cbn [inorder]. by rewrite IHl, IHr.
Qed.

Definition redirect (x c i : Z) : Z := if decide (i = x) then c else i.

(** In [A'] every pointer to [x] is a pointer to [c], whose parent is [P]. *)
Definition unlinked (A A' : gmap Z vm_area_struct) (x c P : Z) (t : tree) : Prop :=
  ∀ i v, i ∈ ids t → i ≠ x → A !! i = Some v →
    ∃ v', A' !! i = Some v' ∧ vm_start v' = vm_start v ∧ vm_end v' = vm_end v ∧
      rb_parent v' = (if decide (i = c) then P else rb_parent v) ∧
      rb_left v' = redirect x c (rb_left v) ∧ rb_right v' = redirect x c (rb_right v).

Definition root_id (t : tree) : Z := match t with Leaf => 0 | Node _ a _ => a_id a end.

Lemma rep_root A root parent t : rep A root parent t → root = root_id t.
Proof. destruct t; [done|]. by intros [-> _]. Qed.

Lemma root_id_in t : root_id t = 0 ∨ root_id t ∈ ids t.
Proof. destruct t as [|l a r]; [by left|]. right. rewrite ids_Node. simpl. set_solver. Qed.

Lemma redirect_other x c i : i ≠ x → redirect x c i = i.
Proof. intros. unfold redirect. by rewrite decide_False. Qed.

Lemma unlinked_sub A A' x c P l a r :
  unlinked A A' x c P (Node l a r) → unlinked A A' x c P l ∧ unlinked A A' x c P r.
Proof.
  intros Hu. split; intros i v Hi; apply Hu; rewrite ids_Node; set_solver.
Qed.

Section delete.
Context (A A' : gmap Z vm_area_struct) (x c P : Z) (Hx0 : x ≠ 0).

Lemma child_not_x root parent t : rep A root parent t → x ∉ ids t → root ≠ x.
Proof.
  intros Hrep Hx E. destruct (root_id_in t) as [E0|Hi]; rewrite <- (rep_root _ _ _ _ Hrep) in *.
  - congruence.
  - by rewrite E in Hi.
Qed.

(** A node's fields in [A'] when it has no pointer to [x]. *)
Lemma holds_unlinked t a parent left right :
  unlinked A A' x c P t → a_id a ∈ ids t → a_id a ≠ x →
  holds A a parent left right → 
  holds A' a (if decide (a_id a = c) then P else parent) (redirect x c left) (redirect x c right).
Proof.
  intros Hu Hin Hne (H0 & v & Hv & E1 & E2 & E3 & E4 & E5).
  destruct (Hu (a_id a) v Hin Hne Hv) as (v' & Hv' & F1 & F2 & F3 & F4 & F5).
  split; [done|]. exists v'. rewrite <- E3, <- E4, <- E5. split_and!; congruence.
Qed.

(** A subtree that contains neither [x] nor [c] is untouched. *)
Lemma rep_untouched t : ∀ root parent,
  unlinked A A' x c P t → rep A root parent t → x ∉ ids t → c ∉ ids t → rep A' root parent t.
Proof.
  induction t as [|l IHl a r IHr]; intros root parent Hu Hrep Hx Hc; [done|].
  destruct (unlinked_sub _ _ _ _ _ _ _ _ Hu) as [Ul Ur].
  destruct Hrep as (-> & left & right & Hh & Hl & Hr). rewrite ids_Node in Hx, Hc.
  assert (Hin : a_id a ∈ ids (Node l a r)) by (rewrite ids_Node; set_solver).
  pose proof (holds_unlinked _ a parent left right Hu Hin ltac:(set_solver) Hh) as Hh'.
  rewrite decide_False in Hh' by set_solver.
  rewrite !redirect_other in Hh' by (eapply child_not_x; [done|set_solver]).
  split; [done|]. exists left, right. split_and!; [done| |].
  - apply IHl; [done|done|set_solver..].
  - apply IHr; [done|done|set_solver..].
Qed.

(** The subtree below [x], with root [c], goes under [P]. *)
Lemma rep_reparent t parent :
  unlinked A A' x c P t → rep A c parent t → NoDup (ids t) → x ∉ ids t → rep A' c P t.
Proof.
  destruct t as [|l a r]; intros Hu Hrep Hnd Hx; [done|].
  destruct (unlinked_sub _ _ _ _ _ _ _ _ Hu) as [Ul Ur].
  destruct Hrep as (Ec & left & right & Hh & Hl & Hr). rewrite ids_Node in Hx, Hnd.
  apply NoDup_app in Hnd as (Nl & Nd & (Nr1 & Nr)%NoDup_cons).
  assert (Hin : a_id a ∈ ids (Node l a r)) by (rewrite ids_Node; set_solver).
  pose proof (holds_unlinked _ a parent left right Hu Hin ltac:(set_solver) Hh) as Hh'.
  rewrite decide_True in Hh' by done.
  rewrite !redirect_other in Hh' by (eapply child_not_x; [done|set_solver]).
  split; [done|]. exists left, right. split_and!; [done| |].
  - apply rep_untouched; [done|done|set_solver|]. rewrite Ec. intros Hi. apply (Nd _ Hi). by left.
  - apply rep_untouched; [done|done|set_solver|by rewrite Ec].
Qed.

Lemma rep_nonzero t : ∀ root parent, rep A root parent t → 0 ∉ ids t.
Proof.
  induction t as [|l IHl b r IHr]; intros root parent Hrep Hi; [by apply elem_of_nil in Hi|].
  destruct Hrep as (_ & ? & ? & [? _] & ? & ?). rewrite ids_Node in Hi.
  apply elem_of_app in Hi as [Hi|[Hi|Hi]%elem_of_cons]; [by eapply IHl|congruence|by eapply IHr].
Qed.

(** The children of [x] are in the same subtree. *)
Lemma child_in t : ∀ root parent vx,
  rep A root parent t → x ∈ ids t → A !! x = Some vx →
  (rb_left vx = 0 ∨ rb_left vx ∈ ids t) ∧ (rb_right vx = 0 ∨ rb_right vx ∈ ids t).
Proof.
  induction t as [|l IHl a r IHr]; intros root parent vx Hrep Hx Hvx; [by apply elem_of_nil in Hx|].
  destruct Hrep as (-> & left & right & (Hne & v & Hv & _ & _ & _ & E4 & E5) & Hl & Hr).
  rewrite ids_Node, !elem_of_app, !elem_of_cons in *.
  destruct Hx as [Hx|[->|Hx]].
  - destruct (IHl left (a_id a) vx Hl Hx Hvx). tauto.
  - rewrite Hvx in Hv. injection Hv as ->. rewrite E4, E5.
    rewrite (rep_root _ _ _ _ Hl), (rep_root _ _ _ _ Hr).
    destruct (root_id_in l), (root_id_in r); tauto.
  - destruct (IHr right (a_id a) vx Hr Hx Hvx). tauto.
Qed.

Definition heir (vx : vm_area_struct) : Z :=
  if decide (rb_left vx = 0) then rb_right vx else rb_left vx.

Lemma heir_in t root parent vx :
  rep A root parent t → x ∈ ids t → A !! x = Some vx → heir vx = 0 ∨ heir vx ∈ ids t.
Proof.
  intros Hrep Hx Hvx. destruct (child_in t root parent vx Hrep Hx Hvx).
  unfold heir. by case_decide.
Qed.

(** Outside the subtree of [x] the heir does not occur. *)
Lemma heir_apart t t' root parent root' parent' vx :
  rep A root parent t → rep A root' parent' t' → x ∈ ids t → A !! x = Some vx → c = heir vx →
  (∀ i, i ∈ ids t → i ∉ ids t') → c ∉ ids t'.
Proof.
  intros H1 H2 Hx Hvx -> Hd. destruct (heir_in t root parent vx H1 Hx Hvx) as [E|Hi].
  - rewrite E. by eapply rep_nonzero.
  - by apply Hd.
Qed.

Lemma delete_rep t : ∀ root parent vx,
  unlinked A A' x c P t → rep A root parent t → NoDup (ids t) → short x t → x ∈ ids t →
  A !! x = Some vx → rb_parent vx = P → c = heir vx →
  rep A' (redirect x c root) parent (tdelete x t).
Proof.
  induction t as [|l IHl a r IHr]; intros root parent vx Hu Hrep Hnd Hs Hx Hvx HP Hc;
    [by apply elem_of_nil in Hx|].
  destruct (unlinked_sub _ _ _ _ _ _ _ _ Hu) as [Ul Ur].
  destruct Hrep as (-> & left & right & Hh & Hl & Hr). simpl in Hs. destruct Hs as (Ha & Sl & Sr).
  rewrite ids_Node in Hx, Hnd. apply NoDup_app in Hnd as (Nl & Nd & (Nr1 & Nr)%NoDup_cons).
  cbn [tdelete]. destruct (decide (a_id a = x)) as [E|E].
  - destruct Hh as (Hne & v & Hv & _ & _ & E3 & E4 & E5).
    rewrite E, Hvx in Hv. injection Hv as ->. unfold redirect. rewrite decide_True by done.
    assert (Hxl : x ∉ ids l) by (rewrite <- E; intros Hi; apply (Nd _ Hi); by left).
    assert (Hxr : x ∉ ids r) by (by rewrite <- E).
    assert (EP : parent = P) by congruence. rewrite EP. unfold heir in Hc.
    destruct l as [|l1 b l2].
    + simpl in Hl. rewrite decide_True in Hc by congruence. rewrite E5 in Hc.
      rewrite <- Hc in Hr. by eapply rep_reparent.
    + destruct (Ha E) as [?| ->]; [done|]. rewrite decide_False in Hc.
      2: { rewrite E4. destruct Hl as (-> & ? & ? & [? _] & _). done. }
      rewrite E4 in Hc. rewrite <- Hc in Hl. by eapply rep_reparent.
  - assert (Hin : a_id a ∈ ids (Node l a r)) by (rewrite ids_Node; set_solver).
    pose proof (holds_unlinked _ a parent left right Hu Hin E Hh) as Hh'.
    rewrite redirect_other by done.
    apply elem_of_app in Hx as [Hx|[Hx|Hx]%elem_of_cons]; [|congruence|].
    + assert (Hxr : x ∉ ids r) by (intros Hi; apply (Nd _ Hx); by right).
      assert (Hcr : c ∉ ids r).
      { eapply (heir_apart l r); [done..|]. intros i Hi Hi'. apply (Nd _ Hi). by right. }
      assert (Hca : a_id a ≠ c).
      { rewrite Hc. destruct (heir_in l _ _ vx Hl Hx Hvx) as [->|Hi]; [apply Hh|].
        intros Ei. rewrite <- Ei in Hi. apply (Nd _ Hi). by left. }
      rewrite decide_False in Hh' by done.
      rewrite (redirect_other _ _ right) in Hh' by (by eapply child_not_x).
      split; [done|]. exists (redirect x c left), right. split_and!; [done|by eapply IHl|].
      rewrite tdelete_absent by done. by apply rep_untouched.
    + assert (Hxl : x ∉ ids l) by (intros Hi; apply (Nd _ Hi); by right).
      assert (Hcl : c ∉ ids l).
      { eapply (heir_apart r l); [done..|]. intros i Hi Hi'. apply (Nd _ Hi'). by right. }
      assert (Hca : a_id a ≠ c).
      { rewrite Hc. destruct (heir_in r _ _ vx Hr Hx Hvx) as [->|Hi]; [apply Hh|].
        intros Ei. by rewrite <- Ei in Hi. }
      rewrite decide_False in Hh' by done.
      rewrite (redirect_other _ _ left) in Hh' by (by eapply child_not_x).
      split; [done|]. exists left, (redirect x c right). split_and!; [done| |by eapply IHr].
      rewrite tdelete_absent by done. by apply rep_untouched.
Qed.
End delete.

(** ** Who points to a node *)

Lemma points_parent A t : ∀ root parent i v x vx,
  rep A root parent t → i ∈ ids t → A !! i = Some v → x ≠ 0 → A !! x = Some vx →
  rb_left v = x ∨ rb_right v = x → rb_parent vx = i.
Proof.
  induction t as [|l IHl a r IHr]; intros root parent i v x vx Hrep Hi Hv Hx0 Hvx Hp;
    [by apply elem_of_nil in Hi|].
  destruct Hrep as (-> & left & right & (Hne & va & Hva & _ & _ & _ & E4 & E5) & Hl & Hr).
  rewrite ids_Node in Hi. apply elem_of_app in Hi as [Hi|[->|Hi]%elem_of_cons];
    [by eapply IHl| |by eapply IHr].
  rewrite Hv in Hva. injection Hva as <-.
  assert (Hsub : ∀ t' c, rep A c (a_id a) t' → c = x → rb_parent vx = a_id a).
  { intros t' c Hc ->. destruct t' as [|l' b r']; [done|].
    destruct Hc as (-> & ? & ? & (_ & w & Hw & _ & _ & E & _) & _). congruence. }
  destruct Hp as [Hp|Hp]; [eapply (Hsub l)|eapply (Hsub r)]; try done; congruence.
Qed.

Lemma parent_points A t : ∀ root parent x vx,
  rep A root parent t → NoDup (ids t) → x ∈ ids t → A !! x = Some vx →
  root = x ∧ rb_parent vx = parent ∨
  ∃ pv, rb_parent vx ∈ ids t ∧ A !! rb_parent vx = Some pv ∧
    (rb_left pv = x ∧ rb_right pv ≠ x ∨ rb_left pv ≠ x ∧ rb_right pv = x).
Proof.
  induction t as [|l IHl a r IHr]; intros root parent x vx Hrep Hnd Hx Hvx;
    [by apply elem_of_nil in Hx|].
  destruct Hrep as (-> & left & right & (Hne & v & Hv & _ & _ & E3 & E4 & E5) & Hl & Hr).
  rewrite ids_Node in Hx, Hnd. apply NoDup_app in Hnd as (Nl & Nd & (Nr1 & Nr)%NoDup_cons).
  pose proof (rep_root _ _ _ _ Hl) as Rl. pose proof (rep_root _ _ _ _ Hr) as Rr.
  assert (Hup : ∀ j, j ∈ ids l ∨ j ∈ ids r ∨ j = a_id a → j ∈ ids (Node l a r))
    by (intros j; rewrite ids_Node; set_solver).
  assert (Hx0 : x ≠ 0).
  { intros ->. apply elem_of_app in Hx as [Hx|[Hx|Hx]%elem_of_cons]; [|congruence|].
    - by eapply (rep_nonzero A l).
    - by eapply (rep_nonzero A r). }
  apply elem_of_app in Hx as [Hx|[->|Hx]%elem_of_cons].
  - right. destruct (IHl left (a_id a) x vx Hl Nl Hx Hvx) as [[El Ep]|(pv & Hp & Hpv & Hc)].
    + exists v. rewrite Ep. split_and!; [by auto|done|]. left. split; [congruence|].
      rewrite E5, Rr. intros Er. destruct (root_id_in r) as [E0|Hi]; [congruence|].
      rewrite Er in Hi. apply (Nd _ Hx). by right.
    + exists pv. by auto.
  - left. rewrite Hvx in Hv. injection Hv as ->. done.
  - right. destruct (IHr right (a_id a) x vx Hr Nr Hx Hvx) as [[El Ep]|(pv & Hp & Hpv & Hc)].
    + exists v. rewrite Ep. split_and!; [by auto|done|]. right. split; [|congruence].
      rewrite E4, Rl. intros Er. destruct (root_id_in l) as [E0|Hi]; [congruence|].
      rewrite Er in Hi. apply (Nd _ Hi). by right.
    + exists pv. by auto.
Qed.

(** The memory [rbtree_delete] leaves when the node has a missing child. *)
Definition deleted_memory (A : gmap Z vm_area_struct) (slot : rb_slot) (x c P : Z)
    : gmap Z vm_area_struct :=
  alter (with_left 0) x (alter (with_right 0) x
    ((if decide (c = 0) then id else alter (with_parent P) c) (link_at slot c A))).

(** The slot that points to [x]. *)
Definition points_to (A : gmap Z vm_area_struct) (root : Z) (slot : rb_slot) (x P : Z) : Prop :=
  match slot with
  | rb_root_slot => P = 0 ∧ root = x
  | rb_left_slot p => p = P ∧ P ≠ 0 ∧ ∃ pv, A !! p = Some pv ∧ rb_left pv = x ∧ rb_right pv ≠ x
  | rb_right_slot p => p = P ∧ P ≠ 0 ∧ ∃ pv, A !! p = Some pv ∧ rb_left pv ≠ x ∧ rb_right pv = x
  end.

Lemma rb_parent_slot_ok m t x vx :
  mm_ok m t → x ∈ ids t → areas m !! x = Some vx →
  ∃ slot, rb_parent_slot x (rb_parent vx) m = Ok (slot, m) ∧
    points_to (areas m) (mm_rb m) slot x (rb_parent vx).
Proof.
  intros [Hrep Hnd _] Hx Hvx. unfold rb_parent_slot.
  destruct (parent_points _ t _ _ x vx Hrep Hnd Hx Hvx) as [[Er Ep]|(pv & Hp & Hpv & Hc)].
  - rewrite Ep. rewrite bool_decide_true by done. by exists rb_root_slot.
  - assert (Hp0 : rb_parent vx ≠ 0).
    { intros E. rewrite E in Hp. by eapply rep_nonzero. }
    rewrite bool_decide_false by done.
    erewrite bind_Ok by (unfold load_vma; run_step; by rewrite Hpv).
    destruct Hc as [[E1 E2]|[E1 E2]].
    + rewrite bool_decide_true by done. exists (rb_left_slot (rb_parent vx)). split; [done|].
      split_and!; [done|done|eauto].
    + rewrite bool_decide_false by done. rewrite bool_decide_true by done.
      exists (rb_right_slot (rb_parent vx)). split; [done|]. split_and!; [done|done|eauto].
Qed.

Lemma link_at_fields A root slot x c P i v :
  points_to A root slot x P → (rb_left v = x ∨ rb_right v = x → P = i) → P ≠ 0 ∨ rb_left v ≠ x ∧ rb_right v ≠ x →
  A !! i = Some v →
  ∃ v', link_at slot c A !! i = Some v' ∧ vm_start v' = vm_start v ∧ vm_end v' = vm_end v ∧
    rb_parent v' = rb_parent v ∧ rb_left v' = redirect x c (rb_left v) ∧
    rb_right v' = redirect x c (rb_right v).
Proof.
  intros Hpt Honly Hroot Hv. unfold redirect.
  destruct slot as [|p|p]; simpl in Hpt |- *.
  - destruct Hpt as [-> _]. destruct Hroot as [?|[? ?]]; [done|]. exists v.
    rewrite !decide_False by done. done.
  - destruct Hpt as (-> & HP & pv & Hpv & E1 & E2). destruct (decide (i = P)) as [->|Hne].
    + rewrite Hpv in Hv. injection Hv as ->. exists (with_left c v).
      rewrite lookup_alter_eq, Hpv, decide_True, decide_False by done. done.
    + exists v. rewrite lookup_alter_ne by done.
      rewrite !decide_False by (intros E; apply Hne; symmetry; apply Honly; auto). done.
  - destruct Hpt as (-> & HP & pv & Hpv & E1 & E2). destruct (decide (i = P)) as [->|Hne].
    + rewrite Hpv in Hv. injection Hv as ->. exists (with_right c v).
      rewrite lookup_alter_eq, Hpv, decide_False, decide_True by done. done.
    + exists v. rewrite lookup_alter_ne by done.
      rewrite !decide_False by (intros E; apply Hne; symmetry; apply Honly; auto). done.
Qed.

Lemma deleted_unlinked m t slot x vx c :
  mm_ok m t → x ∈ ids t → areas m !! x = Some vx →
  points_to (areas m) (mm_rb m) slot x (rb_parent vx) →
  unlinked (areas m) (deleted_memory (areas m) slot x c (rb_parent vx)) x c (rb_parent vx) t.
Proof.
  intros [Hrep Hnd _] Hx Hvx Hpt i v Hi Hne Hv.
  assert (Hx0 : x ≠ 0) by (intros ->; by eapply rep_nonzero).
  assert (Hi0 : i ≠ 0) by (intros ->; by eapply rep_nonzero).
  pose proof (points_parent _ t _ _ i v x vx Hrep Hi Hv Hx0 Hvx) as Honly.
  assert (Hroot : rb_parent vx ≠ 0 ∨ rb_left v ≠ x ∧ rb_right v ≠ x).
  { destruct (decide (rb_parent vx = 0)) as [E|]; [right|by left].
    split; intros Ep; rewrite E in Honly; apply Hi0; symmetry; apply Honly; auto. }
  destruct (link_at_fields _ _ slot x c _ i v Hpt Honly Hroot Hv) as (v1 & Hv1 & F1 & F2 & F3 & F4 & F5).
  unfold deleted_memory. rewrite !(lookup_alter_ne _ _ x i) by done.
  destruct (decide (i = c)) as [->|Hic].
  - rewrite decide_False by done. exists (with_parent (rb_parent vx) v1).
    rewrite lookup_alter_eq, Hv1. split_and!; try done; simpl; congruence.
  - exists v1. destruct (decide (c = 0)); [done|]. rewrite lookup_alter_ne by congruence. done.
Qed.

Lemma short_fields A t : ∀ root parent x vx,
  rep A root parent t → short x t → x ∈ ids t → A !! x = Some vx →
  rb_left vx = 0 ∨ rb_right vx = 0.
Proof.
  induction t as [|l IHl a r IHr]; intros root parent x vx Hrep Hs Hx Hvx;
    [by apply elem_of_nil in Hx|].
  destruct Hrep as (-> & left & right & (Hne & v & Hv & _ & _ & _ & E4 & E5) & Hl & Hr).
  simpl in Hs. destruct Hs as (Ha & Sl & Sr). rewrite ids_Node in Hx.
  apply elem_of_app in Hx as [Hx|[->|Hx]%elem_of_cons]; [by eapply IHl| |by eapply IHr].
  rewrite Hvx in Hv. injection Hv as ->.
  destruct (Ha eq_refl) as [->| ->]; simpl in *; [left|right]; congruence.
Qed.

Lemma write_rb_ok m slot x P c :
  points_to (areas m) (mm_rb m) slot x P →
  ∃ m', write_rb slot c m = Ok (tt, m') ∧ areas m' = link_at slot c (areas m) ∧
    mm_rb m' = (if decide (slot = rb_root_slot) then c else mm_rb m) ∧ mmap_count m' = mmap_count m.
Proof.
  destruct slot as [|p|p]; simpl; intros Hpt.
  - eexists. split; [reflexivity|]. done.
  - destruct Hpt as (-> & _ & pv & Hpv & _). rewrite (edit_vma_ok m P _ pv Hpv).
    eexists. split; [reflexivity|]. done.
  - destruct Hpt as (-> & _ & pv & Hpv & _). rewrite (edit_vma_ok m P _ pv Hpv).
    eexists. split; [reflexivity|]. done.
Qed.

(** Hanging the heir [c] under [P] and clearing the children of [x]. *)
Lemma splice_ok m t slot x vx (c : Z) :
  mm_ok m t → x ∈ ids t → areas m !! x = Some vx → c = 0 ∨ c ∈ ids t ∧ c ≠ x →
  points_to (areas m) (mm_rb m) slot x (rb_parent vx) →
  ∃ m', ((write_rb slot c ;; if decide (c = 0) then mret tt else edit_vma c (with_parent (rb_parent vx))) ;;
         edit_vma x (with_right 0) ;; edit_vma x (with_left 0)) m = Ok (tt, m') ∧
    areas m' = deleted_memory (areas m) slot x c (rb_parent vx) ∧
    mm_rb m' = redirect x c (mm_rb m).
Proof.
  intros Hok Hx Hvx Hc Hpt. destruct (write_rb_ok m slot x _ c Hpt) as (m1 & Hrun & A1 & B1 & _).
  assert (Hfields : ∀ i v, areas m !! i = Some v → is_Some (areas m1 !! i)).
  { intros i v Hv. rewrite A1. destruct slot; simpl; [by eauto|..];
      (destruct (decide (i = n)) as [->|];
       [rewrite lookup_alter_eq, Hv; by eexists|rewrite lookup_alter_ne by done; by eauto]). }
  assert (Hroot : mm_rb m1 = redirect x c (mm_rb m)).
  { rewrite B1. unfold redirect. case_decide as E.
    - subst slot. destruct Hpt as [_ ->]. by rewrite decide_True.
    - rewrite decide_False; [done|]. intros Er. apply E.
      destruct Hok as [Hrep Hnd _].
      destruct t as [|l a r]; [by apply elem_of_nil in Hx|].
      destruct Hrep as (Ea & ? & ? & (_ & v & Hv & _ & _ & Ep & _) & _).
      rewrite <- Ea, Er, Hvx in Hv. injection Hv as ->. destruct slot; simpl in Hpt; [done|..];
        destruct Hpt as (_ & ? & _); congruence. }
  rewrite !bind_assoc, (bind_Ok _ _ _ _ _ Hrun). unfold deleted_memory.
  destruct (Hfields x vx Hvx) as [x1 Hx1].
  destruct (decide (c = 0)) as [E0|E0].
  - run_step. rewrite (bind_Ok _ _ _ _ _ (edit_vma_ok m1 x _ x1 Hx1)).
    erewrite edit_vma_ok by (simpl; by rewrite lookup_alter_eq, Hx1).
    eexists. split; [reflexivity|]. simpl. by rewrite A1, Hroot.
  - destruct Hc as [?|[Hc Hcx]]; [done|]. destruct (rep_in _ _ _ _ c (mo_rep _ _ Hok) Hc) as [cv Hcv].
    destruct (Hfields c cv Hcv) as [c1 Hc1].
    rewrite (bind_Ok _ _ _ _ _ (edit_vma_ok m1 c _ c1 Hc1)).
    erewrite bind_Ok.
    2: { eapply edit_vma_ok. simpl. rewrite lookup_alter_ne by done. exact Hx1. }
    erewrite edit_vma_ok.
    2: { simpl. rewrite lookup_alter_eq, lookup_alter_ne, Hx1 by done. reflexivity. }
    eexists. split; [reflexivity|]. simpl. by rewrite A1, Hroot.
Qed.

Lemma rbtree_delete_run m x vx slot fuel :
  areas m !! x = Some vx → rb_left vx = 0 ∨ rb_right vx = 0 →
  rb_parent_slot x (rb_parent vx) m = Ok (slot, m) →
  rbtree_delete (S fuel) x m =
    ((write_rb slot (heir vx) ;;
      if decide (heir vx = 0) then mret tt else edit_vma (heir vx) (with_parent (rb_parent vx))) ;;
     edit_vma x (with_right 0) ;; edit_vma x (with_left 0)) m.
Proof.
  intros Hvx Hs Hslot. cbn [rbtree_delete].
  erewrite bind_Ok by (unfold load_vma; run_step; by rewrite Hvx). cbv zeta.
  rewrite (bind_Ok _ _ _ _ _ Hslot). unfold heir.
  destruct (decide (rb_left vx = 0)) as [El|El].
  - rewrite (bool_decide_true (rb_left vx = 0)) by done. cbn [andb].
    destruct (decide (rb_right vx = 0)) as [Er|Er].
    + rewrite bool_decide_true by done. rewrite Er. unfold mbind, M_bind.
      by destruct (write_rb slot 0 m) as [[[] ?]|].
    + by rewrite bool_decide_false.
  - destruct Hs as [?|Er]; [done|].
    rewrite (bool_decide_false (rb_left vx = 0)) by done. cbn [andb].
    rewrite bool_decide_true by done. by rewrite decide_False by done.
Qed.

Lemma ordered_filter (P : area → Prop) `{∀ a, Decision (P a)} l : ordered l → ordered (filter P l).
Proof.
  induction l as [|a l IH]; [done|]. rewrite ordered_cons. intros (Ha & Hl & Hb). rewrite filter_cons.
  case_decide; [|by apply IH]. apply ordered_cons. split_and!; [done|by apply IH|].
  intros b [_ Hb']%list_elem_of_filter. by apply Hb.
Qed.

Lemma child_ne A t : ∀ root parent x vx,
  rep A root parent t → NoDup (ids t) → x ∈ ids t → A !! x = Some vx →
  rb_left vx ≠ x ∧ rb_right vx ≠ x.
Proof.
  induction t as [|l IHl a r IHr]; intros root parent x vx Hrep Hnd Hx Hvx;
    [by apply elem_of_nil in Hx|].
  destruct Hrep as (-> & left & right & (Hne & v & Hv & _ & _ & _ & E4 & E5) & Hl & Hr).
  rewrite ids_Node in Hx, Hnd. apply NoDup_app in Hnd as (Nl & Nd & (Nr1 & Nr)%NoDup_cons).
  apply elem_of_app in Hx as [Hx|[->|Hx]%elem_of_cons]; [by eapply IHl| |by eapply IHr].
  rewrite Hvx in Hv. injection Hv as ->. rewrite E4, E5.
  rewrite (rep_root _ _ _ _ Hl), (rep_root _ _ _ _ Hr). split; intros E.
  - destruct (root_id_in l) as [?|Hi]; [congruence|]. rewrite E in Hi. apply (Nd _ Hi). by left.
  - destruct (root_id_in r) as [?|Hi]; [congruence|]. by rewrite E in Hi.
Qed.

Lemma rbtree_delete_ok m t x fuel :
  mm_ok m t → x ∈ ids t → short x t →
  ∃ m', rbtree_delete (S fuel) x m = Ok (tt, m') ∧ mm_ok m' (tdelete x t).
Proof.
  intros Hok Hx Hs. pose proof Hok as [Hrep Hnd Hord].
  destruct (rep_in _ _ _ _ x Hrep Hx) as [vx Hvx].
  assert (Hx0 : x ≠ 0) by (intros ->; by eapply rep_nonzero).
  destruct (rb_parent_slot_ok m t x vx Hok Hx Hvx) as (slot & Hslot & Hpt).
  assert (Hheir : heir vx = 0 ∨ heir vx ∈ ids t ∧ heir vx ≠ x).
  { destruct (heir_in (areas m) x Hx0 t _ _ vx Hrep Hx Hvx) as [?|Hi]; [by left|right].
    split; [done|]. destruct (child_ne _ t _ _ x vx Hrep Hnd Hx Hvx). unfold heir. by case_decide. }
  destruct (splice_ok m t slot x vx (heir vx) Hok Hx Hvx Hheir Hpt) as (m' & Hrun & A' & B').
  exists m'. split.
  - rewrite (rbtree_delete_run m x vx slot fuel Hvx (short_fields _ _ _ _ _ _ Hrep Hs Hx Hvx) Hslot).
    exact Hrun.
  - pose proof (tdelete_inorder x t Hnd Hs) as Hin. split.
    + rewrite A', B'. eapply delete_rep; [done| |done|done|done|done|done|done|done].
      by apply deleted_unlinked.
    + unfold ids. rewrite Hin. eapply sublist_NoDup; [exact Hnd|].
      apply fmap_sublist, sublist_filter.
    + rewrite Hin. by apply ordered_filter.
Qed.

(** ** The properties *)

(** Three areas; the root has two children. *)
Definition demo_tree : tree :=
  Node (Node Leaf (mk_area_of 200 0x2000 0x3000) Leaf) (mk_area_of 100 0x5000 0x6000)
       (Node Leaf (mk_area_of 300 0x8000 0x9000) Leaf).

Definition demo_as : mm_struct :=
  mk_mm 200 100 USER_UNNAME_ZONE 0x2000 0x3000 3
    (list_to_map [(100, mk_vma 300 0 200 300 0x5000 0x6000 0);
                  (200, mk_vma 100 100 0 0 0x2000 0x3000 0);
                  (300, mk_vma 0 100 0 0 0x8000 0x9000 0)]).

Lemma demo_as_ok : mm_ok demo_as demo_tree.
Proof.
  assert (Hleaf : ∀ i lo hi nx, areas demo_as !! i = Some (mk_vma nx 100 0 0 lo hi 0) → i ≠ 0 →
    rep (areas demo_as) i 100 (Node Leaf (mk_area_of i lo hi) Leaf)).
  { intros i lo hi nx Hi Hi0. split; [done|]. exists 0, 0. split_and!; [|done..].
    split; [done|]. exists (mk_vma nx 100 0 0 lo hi 0). by repeat split. }
  split.
  - split; [done|]. exists 200, 300. split_and!.
    + split; [done|]. exists (mk_vma 300 0 200 300 0x5000 0x6000 0). by repeat split.
    + by apply (Hleaf _ _ _ 100).
    + by apply (Hleaf _ _ _ 0).
  - apply (bool_decide_unpack _). by vm_compute.
  - split; repeat constructor; unfold before; simpl; lia.
Qed.

Lemma demo_aligned : aligned_areas demo_tree.
Proof.
  intros a Ha. unfold page_aligned, PAGE_SIZE. simpl in Ha.
  apply elem_of_cons in Ha as [->|Ha]; [by split; [exists 2|exists 3]|].
  apply elem_of_cons in Ha as [->|Ha]; [by split; [exists 5|exists 6]|].
  apply elem_of_cons in Ha as [->|Ha]; [by split; [exists 8|exists 9]|].
  by apply elem_of_nil in Ha.
Qed.

(** On an ordered tree of disjoint areas [find_vma] returns, with fuel above
    the height, the lowest area that ends after the address (so the one that
    contains it, if any), or NULL when every area ends at or before it, and changes
    nothing. *)
Theorem find_vma_correct (m : mm_struct) (t : tree) (fuel : nat) (addr : Z) :
  mm_ok m t → (height t < fuel)%nat →
  ∃ r, find_vma fuel addr m = Ok (r, m) ∧
    ((∃ a, a ∈ inorder t ∧ r = a_id a ∧ addr < a_hi a ∧
        ∀ b, b ∈ inorder t → addr < a_hi b → a_lo a ≤ a_lo b) ∨
     r = 0 ∧ ∀ b, b ∈ inorder t → a_hi b ≤ addr).
Proof.
  intros Hok Hf. rewrite (find_vma_ok m t fuel addr Hok Hf). eexists. split; [reflexivity|].
  destruct (find_after addr (inorder t)) as [a|] eqn:E; [left|right].
  - destruct (find_after_Some _ _ _ E) as (Ha & l1 & l2 & El & Hl1). exists a.
    split_and!; [rewrite El; set_solver|done|done|]. intros b. rewrite El.
    intros [Hb|[->|Hb]%elem_of_cons]%elem_of_app Hlt; [specialize (Hl1 b Hb); lia|done|].
    pose proof (mo_ordered _ _ Hok) as Ho. rewrite El in Ho.
    apply ordered_app in Ho as (_ & (Hne & _ & Hs)%ordered_cons & _).
    specialize (Hs b Hb). unfold before in Hs. lia.
  - split; [done|]. intros b Hb. by eapply find_after_None_inv.
Qed.

Lemma find_vma_correct_witness :
  ∃ r, find_vma 5 0x3000 demo_as = Ok (r, demo_as) ∧ (0 < r).
Proof.
  destruct (find_vma_correct demo_as demo_tree 5 0x3000 demo_as_ok) as (r & Hrun & Hr);
    [simpl; lia|].
  exists r. split; [exact Hrun|]. vm_compute in Hrun. injection Hrun as <-. lia.
Defined.

Lemma create_vma_first_page m fuel addr len flags o junk :
  0 ≤ addr → ¬ PAGE_SIZE ≤ addr → create_vma fuel addr len flags o junk m = Ok (0, m).
Proof.
  intros Ha Hp. unfold create_vma. rewrite bool_decide_true; [done|]. unfold PAGE_SIZE in *.
  pose proof (ROUNDDOWN_le addr 4096 ltac:(lia)). destruct (ROUNDDOWN_divide addr 4096 ltac:(lia)) as [x Hx]. lia.
Qed.

Lemma create_vma_no_memory m t fuel addr len flags junk :
  mm_ok m t → (height t < fuel)%nat → PAGE_SIZE ≤ addr → 0 < len → addr + len + PAGE_SIZE ≤ 2 ^ 32 →
  create_vma fuel addr len flags 0 junk m = Ok (0, m).
Proof.
  intros Hok Hf Ha Hl Hw. unfold create_vma. destruct (bool_decide _); [done|].
  destruct (get_unmapped_vma_ok m t fuel addr len Hok Hf) as (r & Hrun & _); [unfold PAGE_SIZE in *; lia..|].
  rewrite (bind_Ok _ _ _ _ _ Hrun). by destruct (bool_decide (r = 0)).
Qed.

(** C22: [create_vma] for a request of at least one byte that does not wrap around the
    address space (a length near 4 GB would), in a page-aligned, disjoint, ordered
    address space.  It returns.  It succeeds exactly when the range starts above the
    first page, ends below the kernel, meets no area, and [kmalloc] has memory; the
    area, rounded to pages, then joins the tree, which stays ordered, disjoint and
    aligned.  Otherwise it returns NULL and nothing has changed.  The memory of
    [kmalloc] is assumed to hold 0 in the child links, which the code relies on and does
    not write. *)
Theorem create_vma_correct (m : mm_struct) (t : tree) (fuel : nat) (addr len flags o : Z) (junk : Z * Z) :
  mm_ok m t → aligned_areas t → (height t < fuel)%nat → 0 ≤ addr → 0 < len →
  addr + len + PAGE_SIZE ≤ 2 ^ 32 → (o ≠ 0 → o ∉ ids t ∧ junk = (0, 0)) →
  let possible := PAGE_SIZE ≤ addr ∧ addr + len ≤ KERNEL_BASE_ADDR ∧ range_free addr (addr + len) (inorder t) ∧ o ≠ 0 in
  ∃ r m', create_vma fuel addr len flags o junk m = Ok (r, m') ∧
    (possible ∧ r = o ∧ mm_ok m' (tinsert (new_area o addr len) t) ∧ aligned_areas (tinsert (new_area o addr len) t) ∨
     ¬ possible ∧ r = 0 ∧ m' = m).
Proof.
  intros Hok Hal Hf Ha Hl Hw Ho possible. destruct (decide (PAGE_SIZE ≤ addr)) as [Hp|Hp].
  2: { exists 0, m. split; [by apply create_vma_first_page|]. right. unfold possible. tauto. }
  destruct (decide (o = 0)) as [->|Ho0].
  { exists 0, m. split; [by apply (create_vma_no_memory m t)|]. right. unfold possible. tauto. }
  destruct (Ho Ho0) as [Hid ->]. destruct (create_vma_ok m t fuel addr len flags o) as (r & m' & Hrun & _ & Hr); try done.
  exists r, m'. split; [done|]. unfold possible. destruct Hr as [(-> & ? & ? & ? & ?)|(-> & -> & Hn)]; [left|right]; tauto.
Qed.

Lemma create_vma_correct_witness :
  (∃ m', create_vma 5 0x3000 0x1800 0 400 (0, 0) demo_as = Ok (400, m') ∧
    mm_ok m' (tinsert (new_area 400 0x3000 0x1800) demo_tree)) ∧
  create_vma 5 0x800 0x1800 0 400 (0, 0) demo_as = Ok (0, demo_as).
Proof.
  assert (Hid : 400 ∉ ids demo_tree) by (apply (bool_decide_unpack _); by vm_compute). split.
  - destruct (create_vma_correct demo_as demo_tree 5 0x3000 0x1800 0 400 (0, 0)) as (r & m' & Hrun & Hr).
    + exact demo_as_ok.
    + exact demo_aligned.
    + simpl. lia.
    + lia.
    + lia.
    + unfold PAGE_SIZE. lia.
    + intros _. split; [exact Hid|reflexivity].
    + exists m'. assert (E : match create_vma 5 0x3000 0x1800 0 400 (0, 0) demo_as with
        Ok (r, _) => r | Stop _ => 0 end = 400) by (vm_compute; reflexivity).
      rewrite Hrun in E. subst r. destruct Hr as [(_ & _ & Hok & _)|(_ & Hr & _)]; [|discriminate Hr].
      split; [exact Hrun|exact Hok].
  - destruct (create_vma_correct demo_as demo_tree 5 0x800 0x1800 0 400 (0, 0)) as (r & m' & Hrun & Hr).
    + exact demo_as_ok.
    + exact demo_aligned.
    + simpl. lia.
    + lia.
    + lia.
    + unfold PAGE_SIZE. lia.
    + intros _. split; [exact Hid|reflexivity].
    + destruct Hr as [[[Hr _] _]|(_ & -> & ->)]; [unfold PAGE_SIZE in Hr; lia|exact Hrun].
Defined.

(** C34: [rbtree_delete] of a node with at most one child returns, and the tree then
    holds the same areas in the same order without that one; parent links included. *)
Theorem rbtree_delete_correct (m : mm_struct) (t : tree) (x : Z) (fuel : nat) :
  mm_ok m t → x ∈ ids t → short x t →
  ∃ m', rbtree_delete (S fuel) x m = Ok (tt, m') ∧ mm_ok m' (tdelete x t) ∧
    inorder (tdelete x t) = filter (λ a, a_id a ≠ x) (inorder t).
Proof.
  intros Hok Hx Hs. destruct (rbtree_delete_ok m t x fuel Hok Hx Hs) as (m' & Hrun & Hok').
  exists m'. split_and!; [done..|]. apply tdelete_inorder; [apply Hok|done].
Qed.

Lemma rbtree_delete_correct_witness :
  ∃ m', rbtree_delete 1 200 demo_as = Ok (tt, m') ∧ mm_ok m' (tdelete 200 demo_tree).
Proof.
  destruct (rbtree_delete_correct demo_as demo_tree 200 0 demo_as_ok) as (m' & Hrun & Hok & _).
  - apply (bool_decide_unpack _). by vm_compute.
  - simpl. split_and!; [discriminate|by left|done|done|discriminate|done|done].
  - exists m'. split; [exact Hrun|exact Hok].
Defined.

(** A loop in the tree that no address search leaves. *)
Lemma find_vma_self_loop m n addr vma v fuel :
  n ≠ 0 → areas m !! n = Some v → vm_end v ≤ addr → rb_right v = n →
  find_vma_loop fuel n addr vma m = Stop OutOfFuel.
Proof.
  intros Hn Hv He Hr. induction fuel as [|fuel IH]; [done|]. cbn [find_vma_loop].
  rewrite bool_decide_false by done.
  erewrite bind_Ok by (unfold load_vma; run_step; by rewrite Hv).
  rewrite bool_decide_false by lia. by rewrite Hr.
Qed.

Definition demo_broken : mm_struct :=
  match rbtree_delete 5 100 demo_as with Ok (_, m) => m | Stop _ => demo_as end.

(** [rbtree_delete] of a node with two children whose right child has no left
    child returns with that right child as its own right child: the area left of it
    is still found, but from then on no search for an address at or above its end
    terminates, whatever the fuel. *)
Theorem rbtree_delete_two_children_loops (fuel : nat) (addr : Z) :
  rbtree_delete 5 100 demo_as = Ok (tt, demo_broken) ∧
  rb_right <$> areas demo_broken !! 300 = Some 300 ∧
  (0x9000 ≤ addr → find_vma fuel addr demo_broken = Stop OutOfFuel).
Proof.
  split_and!; [by vm_compute|by vm_compute|]. intros Ha. unfold find_vma, gets. run_step.
  destruct (areas demo_broken !! 300) as [v|] eqn:Hv; [|by vm_compute in Hv].
  assert (mm_rb demo_broken = 300) as -> by (by vm_compute).
  assert (Hf : rb_right <$> areas demo_broken !! 300 = Some 300 ∧
               vm_end <$> areas demo_broken !! 300 = Some 0x9000) by (by vm_compute).
  rewrite Hv in Hf. destruct Hf as [[= Hr] [= He]].
  apply (find_vma_self_loop _ _ _ _ v); [done|done|lia|done].
Qed.

Lemma rbtree_delete_two_children_loops_witness :
  find_vma 1000 0xA000 demo_broken = Stop OutOfFuel.
Proof. apply (rbtree_delete_two_children_loops 1000 0xA000). lia. Defined.

(** A heap [0x1000, 0x2000) with an area at 0x3000, and then one at 0x2000. *)
Definition demo_heap : mm_struct :=
  mk_mm 0 0 USER_UNNAME_ZONE 0x1000 0x2000 0 ∅.

Definition demo_adjacent : outcome (Z * mm_struct) :=
  (create_vma 5 0x1000 0x1000 0 100 (0, 0) ;; create_vma 5 0x3000 0x1000 0 300 (0, 0) ;;
   create_vma 5 0x2000 0x1000 0 200 (0, 0)) demo_heap.

(** [find_vma_prev] overlooks an area that ends exactly where the new one
    starts, so that [vm_next] of the heap skips the area right behind it; [brk] then
    grows the heap over that area: the address space ends with two overlapping
    areas. *)
Theorem brk_overlaps_next_area :
  ∃ m m', demo_adjacent = Ok (200, m) ∧ brk 5 0x2800 m = Ok (0x2800, m') ∧
    (λ v, (vm_start v, vm_end v)) <$> areas m' !! 100 = Some (0x1000, 0x2800) ∧
    (λ v, (vm_start v, vm_end v)) <$> areas m' !! 200 = Some (0x2000, 0x3000).
Proof.
  destruct demo_adjacent as [[r m]|] eqn:E; [|by vm_compute in E].
  destruct (brk 5 0x2800 m) as [[r' m']|] eqn:E'.
  - exists m, m'. vm_compute in E. injection E as <- <-. vm_compute in E'. injection E' as <- <-.
    split_and!; by vm_compute.
  - vm_compute in E. injection E as <- <-. by vm_compute in E'.
Qed.
