(* ===== verification/Pipe.v ===== *)
(** * Pipes: fs/pipefs/pipe_inode.c

    A pipe is a page used as a ring, with two positions that are 32-bit counters.
    The caller's buffer is the list of bytes handed over or received. *)

From S2P Require Import Prelude Layout.

Local Open Scope Z_scope.

Record pipe_inode_info := PipeInfo {
  p_page : list Z;
  p_rpos : Z;
  p_wpos : Z;
  p_reader : Z;
  p_writer : Z }.

Definition O_ACCMODE : Z := 3.
Definition O_RDONLY : Z := 0.
Definition O_WRONLY : Z := 1.
Definition O_RDWR : Z := 2.

Definition set_page_pos (pg : list Z) (r w : Z) (p : pipe_inode_info) : pipe_inode_info :=
  PipeInfo pg r w (p_reader p) (p_writer p).

(** The loop of [pipefs_file_write]; the bytes are [buf + i] on.  When the pipe is
    full the code returns [i], whatever [i] is, so that its test of the readers is
    never reached. *)
Fixpoint pipe_write_loop (buf : list Z) (i : Z) (p : pipe_inode_info)
    : outcome (Z * pipe_inode_info) :=
  match buf with
  | [] => Ok (i, p)
  | b :: buf =>
      if bool_decide (u32 (p_rpos p + PAGE_SIZE) ≤ p_wpos p) then Ok (i, p)
      else
        let k := Z.to_nat (p_wpos p mod PAGE_SIZE) in
        match p_page p !! k with
        | None => Stop Faulted
        | Some _ =>
            pipe_write_loop buf (i + 1)
              (set_page_pos (<[k := b]> (p_page p)) (p_rpos p) (u32 (p_wpos p + 1)) p)
        end
  end.

Definition pipefs_file_write (buf : list Z) (p : pipe_inode_info) : outcome (Z * pipe_inode_info) :=
  pipe_write_loop buf 0 p.

(** The loop of [pipefs_file_read]; [n] rounds are left and [got] was read. *)
Fixpoint pipe_read_loop (n : nat) (got : list Z) (p : pipe_inode_info)
    : outcome (list Z * pipe_inode_info) :=
  match n with
  | O => Ok (got, p)
  | S n =>
      if bool_decide (p_rpos p = p_wpos p) && negb (bool_decide (got = [])) then Ok (got, p)
      else if bool_decide (p_rpos p = p_wpos p) && bool_decide (p_writer p = 0) then Ok ([], p)
      else
        match p_page p !! Z.to_nat (p_rpos p mod PAGE_SIZE) with
        | None => Stop Faulted
        | Some b =>
            pipe_read_loop n (got ++ [b])
              (set_page_pos (p_page p) (u32 (p_rpos p + 1)) (p_wpos p) p)
        end
  end.

Definition pipefs_file_read (count : Z) (p : pipe_inode_info) : outcome (list Z * pipe_inode_info) :=
  pipe_read_loop (Z.to_nat count) [] p.

(** [flush], called when a descriptor goes away; a writer that leaves is counted as
    one more. *)
Definition pipefs_file_flush (f_flags : Z) (p : pipe_inode_info) : pipe_inode_info :=
  let mode := Z.land f_flags O_ACCMODE in
  if bool_decide (mode = O_RDONLY) then
    PipeInfo (p_page p) (p_rpos p) (p_wpos p) (i32 (p_reader p - 1)) (p_writer p)
  else if bool_decide (mode = O_WRONLY) then
    PipeInfo (p_page p) (p_rpos p) (p_wpos p) (p_reader p) (i32 (p_writer p + 1))
  else p.

(** [get_pipe_info] of kernel/syscall/pipe.c, on the zeroed page it allocates. *)
Definition get_pipe_info : pipe_inode_info :=
  PipeInfo (replicate (Z.to_nat PAGE_SIZE) 0) 0 0 1 1.
