(* ===== verification/Files.v ===== *)
(** * Open files and descriptors

    fs/file.c, kernel/syscall/dup.c, dev_open.c, dev_read.c, dev_write.c,
    dev_close.c, pipe.c, and the parts of fork.c and exit.c that copy and drop
    descriptor tables.

    A [struct file] is a record at its address; a descriptor table is the array of
    128 file pointers, 0 being NULL; [cur] is the table of the current task.
    [kmalloc] and [page_alloc] hand out the addresses of the list [avail] in turn,
    0 standing for a failure, so that every behaviour of the allocators is a choice
    of that list.  A descriptor outside the array is an access outside it: the code
    does not check. *)

From S2P Require Import Prelude Layout Pipe.

Local Open Scope Z_scope.

Definition MAX_FILE : Z := 128.
Definition EMFILE : Z := 24.
Definition ENFILE : Z := 23.
Definition EBADF : Z := 9.
Definition EACCES : Z := 13.
Definition ENOMEM : Z := 12.
Definition ENOTHING : Z := 36.

(** The operations behind [f_op]: none, those of a pipe, or those of another file
    system, known by a number. *)
Inductive file_operations := no_fop | pipefs_file_op | other_fop (n : Z).

#[global] Instance file_operations_eq_dec : EqDecision file_operations.
Proof. solve_decision. Defined.

Record file := File {
  f_mode : Z; f_flags : Z; f_count : Z; f_inode : Z; f_pos : Z;
  f_op : file_operations; f_dentry : Z; f_vfsmnt : Z }.

Definition null_file : file := File 0 0 0 0 0 no_fop 0 0.

Definition with_count (n : Z) (f : file) : file :=
  File (f_mode f) (f_flags f) n (f_inode f) (f_pos f) (f_op f) (f_dentry f) (f_vfsmnt f).

Record fstate := FState {
  files : gmap Z file;
  tabs : gmap Z (list Z);
  cur : Z;
  pipes : gmap Z pipe_inode_info;
  avail : list Z }.

Definition set_files (m : gmap Z file) (s : fstate) : fstate :=
  FState m (tabs s) (cur s) (pipes s) (avail s).
Definition set_tabs (t : gmap Z (list Z)) (s : fstate) : fstate :=
  FState (files s) t (cur s) (pipes s) (avail s).
Definition set_pipes (p : gmap Z pipe_inode_info) (s : fstate) : fstate :=
  FState (files s) (tabs s) (cur s) p (avail s).

Definition kmalloc : M fstate Z := λ s,
  match avail s with
  | [] => Ok (0, s)
  | a :: l => Ok (a, FState (files s) (tabs s) (cur s) (pipes s) l)
  end.

(** [curtask->files->fd[i]]. *)
Definition fd_get (i : Z) : M fstate Z :=
  s ← get;
  fds ← of_option (tabs s !! cur s);
  if bool_decide (0 ≤ i) then of_option (fds !! Z.to_nat i) else fault.

Definition fd_set (i p : Z) : M fstate unit :=
  fd_get i ;;
  modify (λ s, set_tabs (alter (<[Z.to_nat i := p]>) (cur s) (tabs s)) s).

Definition load_file (p : Z) : M fstate file := s ← get; of_option (files s !! p).
Definition edit_file (p : Z) (g : file → file) : M fstate unit :=
  f ← load_file p;
  modify (λ s, set_files (<[p := g f]> (files s)) s).

(** ** fs/file.c *)

Definition alloc_file : M fstate Z :=
  p ← kmalloc;
  if bool_decide (p = 0) then mret 0
  else modify (λ s, set_files (<[p := null_file]> (files s)) s) ;; mret p.

Definition free_file (p : Z) : M fstate unit :=
  if bool_decide (p = 0) then mret tt
  else modify (λ s, set_files (delete p (files s)) s).

(** The first slot with a NULL, from [i] on; [n] slots are left. *)
Fixpoint unused_fd_from (n : nat) (i : Z) : M fstate (option Z) :=
  match n with
  | O => mret None
  | S n =>
      p ← fd_get i;
      if bool_decide (p = 0) then mret (Some i) else unused_fd_from n (i + 1)
  end.

Definition get_unused_fd : M fstate Z :=
  r ← unused_fd_from (Z.to_nat MAX_FILE) 0;
  match r with None => mret (- EMFILE) | Some fd => mret fd end.

(** The descriptor or an error, and [*file]. *)
Definition get_empty_file : M fstate (Z * Z) :=
  r ← unused_fd_from (Z.to_nat MAX_FILE) 0;
  match r with
  | None => mret (- EMFILE, 0)
  | Some fd =>
      f ← alloc_file;
      if bool_decide (f = 0) then mret (- ENOMEM, 0)
      else fd_set fd f ;; mret (fd, f)
  end.

Definition find_file (fd : Z) : M fstate (Z * Z) :=
  p ← fd_get fd;
  if bool_decide (p ≠ 0) then mret (0, p) else mret (- EBADF, 0).

(** [f_op->flush]. *)
Definition flush_file (f : file) : M fstate unit :=
  match f_op f with
  | pipefs_file_op =>
      s ← get;
      p ← of_option (pipes s !! f_inode f);
      put (set_pipes (<[f_inode f := pipefs_file_flush (f_flags f) p]> (pipes s)) s)
  | _ => mret tt
  end.

(** [f_op->release] of a pipe only prints. *)
Definition deref_file (fd : Z) : M fstate unit :=
  p ← fd_get fd;
  if bool_decide (p = 0) then mret tt
  else
    f ← load_file p;
    flush_file f ;;
    edit_file p (λ f, with_count (u32 (f_count f - 1)) f) ;;
    f ← load_file p;
    (if bool_decide (f_count f = 0) then free_file p else mret tt) ;;
    fd_set fd 0.

(** ** The system calls *)

Definition dup (oldfd : Z) : M fstate Z :=
  r ← find_file oldfd;
  let '(retval, old) := (r : Z * Z) in
  if bool_decide (retval < 0) then mret retval
  else
    fd ← get_unused_fd;
    if bool_decide (fd < 0) then mret fd
    else
      fd_set fd old ;;
      edit_file old (λ f, with_count (u32 (f_count f + 1)) f) ;;
      mret fd.

Definition dup2 (oldfd newfd : Z) : M fstate Z :=
  if bool_decide (oldfd = newfd) then mret 0
  else
    r ← find_file oldfd;
    let '(retval, old) := (r : Z * Z) in
    if bool_decide (retval < 0) then mret retval
    else
      p ← fd_get newfd;
      (if bool_decide (p ≠ 0) then deref_file newfd else mret tt) ;;
      fd_set newfd old ;;
      edit_file old (λ f, with_count (u32 (f_count f + 1)) f) ;;
      mret 0.

(** [close] looks the descriptor up and leaves it open. *)
Definition close (fd : Z) : M fstate unit := find_file fd ;; mret tt.

(** [_open] and the end of [open], for the dentry, inode and mount that the path
    lookup found; [fop] is the inode's [i_fop] and [res] what its [open] returns. *)
Definition _open (dentry inode mnt mode flags : Z) (fop : file_operations) (res : Z) : M fstate Z :=
  p ← alloc_file;
  if bool_decide (p = 0) then mret 0
  else
    edit_file p (λ _, File mode flags 1 inode 0 fop dentry mnt) ;;
    if bool_decide (fop ≠ no_fop) && bool_decide (res < 0) then free_file p ;; mret 0
    else mret p.

Definition open (lookup : Z * (Z * Z * Z)) (mode flags : Z) (fop : file_operations) (res : Z)
    : M fstate Z :=
  fd ← get_unused_fd;
  if bool_decide (fd < 0) then mret fd
  else
    let '(retval, (dentry, inode, mnt)) := lookup in
    if bool_decide (retval < 0) then mret retval
    else
      p ← _open dentry inode mnt mode flags fop res;
      if bool_decide (p ≠ 0) then fd_set fd p ;; mret fd else mret (-1).

(** The answer of [read] and [write] before a file operation runs: an error or the
    file. *)
Definition access_check (fd : Z) (allowed : list Z) : M fstate (Z + file) :=
  r ← find_file fd;
  let '(retval, p) := (r : Z * Z) in
  if bool_decide (retval < 0) then mret (inl retval)
  else
    f ← load_file p;
    if bool_decide (Z.land (f_flags f) O_ACCMODE ∈ allowed) then mret (inr f)
    else mret (inl (- EACCES)).

(** [read] and [write] on a pipe; on the files of another file system, whose
    operations are not in this file, the result is [other]. *)
Definition read (fd count other : Z) : M fstate (Z * list Z) :=
  r ← access_check fd [O_RDONLY; O_RDWR];
  match (r : Z + file) with
  | inl e => mret (e, [])
  | inr f =>
      match f_op f with
      | no_fop => mret (- ENOTHING, [])
      | other_fop _ => mret (other, [])
      | pipefs_file_op =>
          s ← get;
          p ← of_option (pipes s !! f_inode f);
          g ← lift (pipefs_file_read count p);
          let '(got, p) := (g : list Z * pipe_inode_info) in
          put (set_pipes (<[f_inode f := p]> (pipes s)) s) ;;
          mret (Z.of_nat (length got), got)
      end
  end.

Definition write (fd : Z) (buf : list Z) (other : Z) : M fstate Z :=
  r ← access_check fd [O_WRONLY; O_RDWR];
  match (r : Z + file) with
  | inl e => mret e
  | inr f =>
      match f_op f with
      | no_fop => mret (-1)
      | other_fop _ => mret other
      | pipefs_file_op =>
          s ← get;
          p ← of_option (pipes s !! f_inode f);
          g ← lift (pipefs_file_write buf p);
          let '(n, p) := (g : Z * pipe_inode_info) in
          put (set_pipes (<[f_inode f := p]> (pipes s)) s) ;;
          mret n
      end
  end.

(** ** kernel/syscall/pipe.c *)

(** The inode of a new pipe, with its [pipe_inode_info]: an inode, the info and the
    page are allocated in turn; 0 on failure. *)
Definition get_pipe_inode : M fstate Z :=
  ino ← kmalloc;
  if bool_decide (ino = 0) then mret 0
  else
    info ← kmalloc;
    if bool_decide (info = 0) then mret 0
    else
      page ← kmalloc;
      if bool_decide (page = 0) then mret 0
      else modify (λ s, set_pipes (<[ino := get_pipe_info]> (pipes s)) s) ;; mret ino.

(** The error or 0, and the two descriptors. *)
Definition pipe (pipe_mnt : Z) : M fstate (Z * (Z * Z)) :=
  r1 ← get_empty_file;
  let '(fd1, f1) := (r1 : Z * Z) in
  if bool_decide (fd1 < 0) then mret (- ENFILE, (0, 0))
  else
    r2 ← get_empty_file;
    let '(fd2, f2) := (r2 : Z * Z) in
    if bool_decide (fd2 < 0) then mret (- ENFILE, (0, 0))
    else
      inode ← get_pipe_inode;
      if bool_decide (inode = 0) then mret (- ENFILE, (0, 0))
      else
        dentry ← kmalloc;
        if bool_decide (dentry = 0) then mret (- ENOMEM, (0, 0))
        else
          edit_file f1 (λ _, File 0 O_RDONLY 1 inode 0 pipefs_file_op dentry pipe_mnt) ;;
          edit_file f2 (λ _, File 0 O_WRONLY 1 inode 0 pipefs_file_op dentry pipe_mnt) ;;
          fd_set fd1 f1 ;;
          fd_set fd2 f2 ;;
          mret (0, (fd1, fd2)).

(** ** fork and exit *)

(** The counting loop of [copy_files]. *)
Fixpoint count_files (fds : list Z) : M fstate unit :=
  match fds with
  | [] => mret tt
  | p :: fds =>
      (if bool_decide (p ≠ 0) then edit_file p (λ f, with_count (u32 (f_count f + 1)) f)
       else mret tt) ;;
      count_files fds
  end.

(** [copy_files]: the address of the child's table, or the error. *)
Definition copy_files : M fstate (Z * Z) :=
  fs ← kmalloc;
  if bool_decide (fs = 0) then mret (- ENOMEM, 0)
  else
    t ← kmalloc;
    if bool_decide (t = 0) then mret (- ENOMEM, 0)
    else
      s ← get;
      fds ← of_option (tabs s !! cur s);
      put (set_tabs (<[t := fds]> (tabs s)) s) ;;
      count_files fds ;;
      mret (0, t).

(** [exit_files]: every descriptor of the current task is dropped. *)
Fixpoint deref_from (n : nat) (i : Z) : M fstate unit :=
  match n with O => mret tt | S n => deref_file i ;; deref_from n (i + 1) end.

Definition exit_files : M fstate unit := deref_from (Z.to_nat MAX_FILE) 0.
