(* ===== verification/FilesProofs.v ===== *)
(** * Reference counts of open files are exact

    The invariant is an equation: the [f_count] of every open file is the number of
    descriptors, over all tables, that name it; every file is named at least once
    and every descriptor names a file.  It is stated on the two maps alone
    ([balanced]) with one lemma per way the maps change, and the system calls are
    compositions of those. *)

From S2P Require Import Prelude Layout Pipe Files.

Local Open Scope Z_scope.

(** ** Counting references *)

Definition cnt (a : Z) (l : list Z) : Z := countb (λ x, bool_decide (x = a)) l.

Definition refs (T : gmap Z (list Z)) (a : Z) : Z := zsum ((λ x, cnt a x.2) <$> map_to_list T).

Lemma zsum_perm l1 l2 : l1 ≡ₚ l2 → zsum l1 = zsum l2.
Proof. induction 1; simpl; lia. Qed.

Lemma refs_insert_new T t l a : T !! t = None → refs (<[t := l]> T) a = cnt a l + refs T a.
Proof.
  intros H. unfold refs. rewrite (zsum_perm _ ((λ x, cnt a x.2) <$> (t, l) :: map_to_list T)); [done|].
  by rewrite map_to_list_insert.
Qed.

Lemma refs_update T t l l' a :
  T !! t = Some l → refs (<[t := l']> T) a = refs T a - cnt a l + cnt a l'.
Proof.
  intros H. rewrite <- (insert_delete_id T t l H) at 2.
  rewrite <- insert_delete_eq, !refs_insert_new by apply lookup_delete_eq. lia.
Qed.

Lemma cnt_nonneg a l : 0 ≤ cnt a l.
Proof. apply countb_bounds. Qed.

Lemma refs_ge T t l a : T !! t = Some l → cnt a l ≤ refs T a.
Proof.
  intros H. rewrite <- (insert_delete_id T t l H), refs_insert_new by apply lookup_delete_eq.
  assert (0 ≤ refs (delete t T) a); [|lia].
  apply zsum_nonneg, Forall_fmap, Forall_forall. intros x _. apply cnt_nonneg.
Qed.

Lemma cnt_insert a l i x p :
  l !! i = Some x →
  cnt a (<[i := p]> l) = cnt a l - (if bool_decide (x = a) then 1 else 0) +
                         (if bool_decide (p = a) then 1 else 0).
Proof.
  revert i. induction l as [|y l IH]; intros [|i] H; simplify_eq/=;
    unfold cnt in *; simpl; [|rewrite (IH i) by done]; repeat case_bool_decide; lia.
Qed.

Lemma cnt_pos a l i : l !! i = Some a → 0 < cnt a l.
Proof.
  intros H. apply (countb_pos _ _ a); [by eapply list_elem_of_lookup_2|].
  by apply bool_decide_eq_true_2.
Qed.

Lemma cnt_zero a l : a ∉ l → cnt a l = 0.
Proof.
  intros H. unfold cnt. rewrite (countb_ext _ (λ _, false)); [apply countb_false|].
  intros x Hx. apply bool_decide_eq_false_2. by intros ->.
Qed.

(** Each table has 128 slots. *)
Lemma refs_bound T a :
  (∀ t l, T !! t = Some l → length l = 128%nat) → refs T a ≤ 128 * Z.of_nat (size T).
Proof.
  revert T. refine (map_ind _ _ _); [done|]. intros t l T Hn IH HT.
  rewrite refs_insert_new, map_size_insert_None by done.
  pose proof (HT t l (lookup_insert_eq _ _ _)) as Hl.
  pose proof (countb_bounds (λ x, bool_decide (x = a)) l). unfold cnt.
  assert (refs T a ≤ 128 * Z.of_nat (size T)).
  { apply IH. intros t' l' H'. apply (HT t'). rewrite lookup_insert_ne; [done|]. by intros ->; simplify_eq. }
  lia.
Qed.

(** ** The equation *)

Record balanced (F : gmap Z file) (T : gmap Z (list Z)) : Prop := {
  b_tab : ∀ t l, T !! t = Some l → length l = 128%nat;
  b_named : ∀ t l p, T !! t = Some l → p ∈ l → p = 0 ∨ is_Some (F !! p);
  b_count : ∀ p f, F !! p = Some f → p ≠ 0 ∧ f_count f = refs T p ∧ 0 < refs T p }.

Lemma refs_absent F T p : balanced F T → p ≠ 0 → F !! p = None → refs T p = 0.
Proof.
  intros B Hp HF. unfold refs. apply Z.le_antisymm.
  - assert (Hz : (λ x : Z * list Z, cnt p x.2) <$> map_to_list T =
                 (λ _, 0) <$> map_to_list T).
    { apply list_fmap_ext. intros i [t l] Hi%list_elem_of_lookup_2%elem_of_map_to_list. simpl.
      apply cnt_zero. intros Hin. destruct (b_named _ _ B _ _ _ Hi Hin) as [?|[? ?]]; [done|congruence]. }
    rewrite Hz. clear. induction (map_to_list T) as [|? ? IH]; simpl; [done|]. exact IH.
  - apply zsum_nonneg, Forall_fmap, Forall_forall. intros x _. apply cnt_nonneg.
Qed.

(** One slot of one table changes from [x] to [p]. *)
Lemma refs_slot T t l i x p a :
  T !! t = Some l → l !! i = Some x →
  refs (<[t := <[i := p]> l]> T) a =
    refs T a - (if bool_decide (x = a) then 1 else 0) + (if bool_decide (p = a) then 1 else 0).
Proof. intros Ht Hi. rewrite (refs_update _ _ _ _ _ Ht), (cnt_insert _ _ _ _ _ Hi). lia. Qed.

(** The two local conditions after a slot changed. *)
Lemma slot_conditions (F F' : gmap Z file) T t l i p :
  balanced F T → T !! t = Some l → (p = 0 ∨ is_Some (F' !! p)) →
  (∀ q, is_Some (F !! q) → is_Some (F' !! q) ∨ ∀ t' (l' : list Z) (j : nat), <[t := <[i := p]> l]> T !! t' = Some l' → l' !! j ≠ Some q) →
  (∀ t' l', <[t := <[i := p]> l]> T !! t' = Some l' → length l' = 128%nat) ∧
  (∀ t' l' q, <[t := <[i := p]> l]> T !! t' = Some l' → q ∈ l' → q = 0 ∨ is_Some (F' !! q)).
Proof.
  intros B Ht Hp HF. split.
  - intros t' l' H. apply lookup_insert_Some in H as [[_ <-]|[_ H]]; [|by eapply B].
    rewrite length_insert. by eapply B.
  - intros t' l' q H Hq. apply list_elem_of_lookup in Hq as [j Hj].
    assert (Hold : q = p ∨ q = 0 ∨ is_Some (F !! q)).
    { apply lookup_insert_Some in H as [[_ <-]|[_ H]].
      - apply insert_lookup_cases in Hj as [[_ ->]|[_ Hj]]; [by left|].
        right. eapply B; [done|by eapply list_elem_of_lookup_2].
      - right. eapply B; [done|by eapply list_elem_of_lookup_2]. }
    destruct Hold as [->|[->|Hq]]; [done|by left|].
    destruct (HF q Hq) as [?|Hn]; [by right|]. by destruct (Hn _ _ _ H Hj).
Qed.

Lemma add_ref F T t l i p f :
  balanced F T → T !! t = Some l → l !! i = Some 0 → F !! p = Some f →
  balanced (<[p := with_count (f_count f + 1) f]> F) (<[t := <[i := p]> l]> T).
Proof.
  intros B Ht Hi Hp. destruct (b_count _ _ B _ _ Hp) as (Hp0 & Hc & Hpos).
  destruct (slot_conditions F (<[p := with_count (f_count f + 1) f]> F) T t l i p B Ht) as [H1 H2].
  { right. rewrite lookup_insert_eq. eauto. }
  { intros q Hq. left. apply lookup_insert_is_Some'. by right. }
  split; [done|done|]. intros q g Hq. rewrite (refs_slot _ _ _ _ _ _ _ Ht Hi).
  apply lookup_insert_Some in Hq as [[<- <-]|[Hne Hq]].
  - rewrite bool_decide_eq_false_2, bool_decide_eq_true_2 by done. simpl. split_and!; [done|lia|lia].
  - destruct (b_count _ _ B _ _ Hq) as (? & ? & ?).
    rewrite !bool_decide_eq_false_2 by congruence. split_and!; [done|lia|lia].
Qed.

Lemma new_ref F T t l i p f :
  balanced F T → T !! t = Some l → l !! i = Some 0 → F !! p = None → p ≠ 0 → f_count f = 1 →
  balanced (<[p := f]> F) (<[t := <[i := p]> l]> T).
Proof.
  intros B Ht Hi Hp Hp0 Hc.
  destruct (slot_conditions F (<[p := f]> F) T t l i p B Ht) as [H1 H2].
  { right. rewrite lookup_insert_eq. eauto. }
  { intros q Hq. left. apply lookup_insert_is_Some'. by right. }
  split; [done|done|]. intros q g Hq. rewrite (refs_slot _ _ _ _ _ _ _ Ht Hi).
  apply lookup_insert_Some in Hq as [[<- <-]|[Hne Hq]].
  - rewrite (refs_absent _ _ _ B Hp0 Hp), bool_decide_eq_false_2, bool_decide_eq_true_2 by done.
    split_and!; [done|lia|lia].
  - destruct (b_count _ _ B _ _ Hq) as (? & ? & ?).
    rewrite !bool_decide_eq_false_2 by congruence. split_and!; [done|lia|lia].
Qed.

(** The files left after one of the references to [p] went away. *)
Definition drop1 (F : gmap Z file) (p : Z) (f : file) : gmap Z file :=
  if bool_decide (f_count f = 1) then delete p F else <[p := with_count (f_count f - 1) f]> F.

Lemma drop_ref F T t l i p f :
  balanced F T → T !! t = Some l → l !! i = Some p → F !! p = Some f →
  balanced (drop1 F p f) (<[t := <[i := 0]> l]> T).
Proof.
  intros B Ht Hi Hp. destruct (b_count _ _ B _ _ Hp) as (Hp0 & Hc & Hpos).
  assert (Hr : ∀ a, refs (<[t := <[i := 0]> l]> T) a =
                    refs T a - (if bool_decide (p = a) then 1 else 0) + (if bool_decide (0 = a) then 1 else 0))
    by (intros a; by apply refs_slot).
  assert (Hcond : ∀ q, is_Some (F !! q) → is_Some (drop1 F p f !! q) ∨
            ∀ t' (l' : list Z) (j : nat), <[t := <[i := 0]> l]> T !! t' = Some l' → l' !! j ≠ Some q).
  { intros q Hq. unfold drop1. case_bool_decide as H1.
    - destruct (decide (q = p)) as [->|Hne]; [|left; by rewrite lookup_delete_ne].
      right. intros t' l' j H Hj. pose proof (refs_ge _ _ _ p H) as Hge.
      apply cnt_pos in Hj. rewrite Hr, bool_decide_eq_true_2, bool_decide_eq_false_2 in Hge by congruence.
      lia.
    - left. apply lookup_insert_is_Some'. by right. }
  destruct (slot_conditions F (drop1 F p f) T t l i 0 B Ht) as [H1 H2]; [by left|done|].
  split; [done|done|]. intros q g Hq. rewrite Hr. unfold drop1 in Hq. case_bool_decide as Hf1.
  - apply lookup_delete_Some in Hq as [Hne Hq]. destruct (b_count _ _ B _ _ Hq) as (? & ? & ?).
    rewrite !bool_decide_eq_false_2 by congruence. split_and!; [done|lia|lia].
  - apply lookup_insert_Some in Hq as [[<- <-]|[Hne Hq]].
    + rewrite bool_decide_eq_true_2, bool_decide_eq_false_2 by congruence. simpl. split_and!; [done|lia|lia].
    + destruct (b_count _ _ B _ _ Hq) as (? & ? & ?).
      rewrite !bool_decide_eq_false_2 by congruence. split_and!; [done|lia|lia].
Qed.

(** Every file gains a reference per slot of the table that is copied. *)
Definition add_refs (l : list Z) (F : gmap Z file) : gmap Z file :=
  map_imap (λ p f, Some (with_count (f_count f + cnt p l) f)) F.

Lemma lookup_add_refs l F p :
  add_refs l F !! p = (λ f, with_count (f_count f + cnt p l) f) <$> F !! p.
Proof. unfold add_refs. rewrite map_lookup_imap. by destruct (F !! p). Qed.

Lemma copy_refs F T t t' l :
  balanced F T → T !! t = Some l → T !! t' = None → balanced (add_refs l F) (<[t' := l]> T).
Proof.
  intros B Ht Ht'. split.
  - intros u m [[_ <-]|[_ H]]%lookup_insert_Some; by eapply B.
  - intros u m p H Hp. rewrite lookup_add_refs, fmap_is_Some.
    apply lookup_insert_Some in H as [[_ <-]|[_ H]]; by eapply B.
  - intros p g Hp. rewrite lookup_add_refs in Hp. apply fmap_Some in Hp as (f & Hp & ->).
    destruct (b_count _ _ B _ _ Hp) as (? & Hc & ?). rewrite refs_insert_new by done.
    pose proof (cnt_nonneg p l). simpl. split_and!; [done|lia|lia].
Qed.

(** ** The state invariant *)

(** Every open pipe file has its pipe, with a whole page. *)
Definition pipes_ok (F : gmap Z file) (P : gmap Z pipe_inode_info) : Prop :=
  ∀ p f, F !! p = Some f → f_op f = pipefs_file_op →
    ∃ q, P !! f_inode f = Some q ∧ length (p_page q) = Z.to_nat PAGE_SIZE.

(** The last clause keeps the 32-bit counts from wrapping: 128 references per
    table. *)
Record counted (s : fstate) : Prop := {
  c_balanced : balanced (files s) (tabs s);
  c_cur : is_Some (tabs s !! cur s);
  c_pipes : pipes_ok (files s) (pipes s);
  c_size : Z.of_nat (size (tabs s)) < 2 ^ 24 }.

Lemma count_small F T p f :
  balanced F T → Z.of_nat (size T) < 2 ^ 24 → F !! p = Some f → 0 < f_count f < 2 ^ 31.
Proof.
  intros B Hs Hp. destruct (b_count _ _ B _ _ Hp) as (_ & -> & ?).
  pose proof (refs_bound T p (b_tab _ _ B)). lia.
Qed.

Lemma pipes_ok_sub F F' P :
  pipes_ok F P →
  (∀ p f', F' !! p = Some f' → f_op f' = pipefs_file_op →
     ∃ f, F !! p = Some f ∧ f_op f = f_op f' ∧ f_inode f = f_inode f') →
  pipes_ok F' P.
Proof.
  intros HP Hsub p f' Hp Hop. destruct (Hsub p f' Hp Hop) as (f & HF & Hop' & <-).
  apply (HP p); congruence.
Qed.

Lemma pipes_ok_update F P i q :
  pipes_ok F P → length (p_page q) = Z.to_nat PAGE_SIZE → pipes_ok F (<[i := q]> P).
Proof.
  intros HP Hq p f Hp Hop. destruct (decide (i = f_inode f)) as [->|Hne].
  - rewrite lookup_insert_eq. eauto.
  - rewrite lookup_insert_ne by done. by eapply HP.
Qed.

(** ** Runs of the descriptor accesses *)

Section descriptors.
Context (s : fstate) (l : list Z) (Htab : tabs s !! cur s = Some l).

Lemma fd_get_run i p : 0 ≤ i → l !! Z.to_nat i = Some p → fd_get i s = Ok (p, s).
Proof.
  intros Hi Hp. unfold fd_get. run_step. rewrite (bind_Ok _ _ s l s) by (by rewrite Htab).
  rewrite bool_decide_eq_true_2 by done. by rewrite Hp.
Qed.

Lemma fd_set_run i p x :
  0 ≤ i → l !! Z.to_nat i = Some x →
  fd_set i p s = Ok (tt, set_tabs (<[cur s := <[Z.to_nat i := p]> l]> (tabs s)) s).
Proof.
  intros Hi Hp. unfold fd_set. rewrite (bind_Ok _ _ s x s) by (by apply fd_get_run).
  unfold modify, set_tabs. do 3 f_equal. by apply alter_alt_Some.
Qed.

(** Writing what the slot holds. *)
Lemma fd_set_same i p : 0 ≤ i → l !! Z.to_nat i = Some p → fd_set i p s = Ok (tt, s).
Proof.
  intros Hi Hp. rewrite (fd_set_run i p p Hi Hp), list_insert_id, insert_id by done. by destruct s.
Qed.

(** The scan answers the first free slot, or finds all of them taken. *)
Lemma unused_fd_run n i :
  0 ≤ i → (Z.to_nat i + n ≤ length l)%nat →
  ∃ r, unused_fd_from n i s = Ok (r, s) ∧
    match r with
    | Some fd => i ≤ fd ∧ l !! Z.to_nat fd = Some 0 ∧
                 ∀ j, i ≤ j < fd → l !! Z.to_nat j ≠ Some 0
    | None => ∀ j, i ≤ j < i + Z.of_nat n → l !! Z.to_nat j ≠ Some 0
    end.
Proof.
  revert i. induction n as [|n IH]; intros i Hi Hn; simpl; [eexists; split; [done|]; simpl; intros; lia|].
  destruct (lookup_lt_is_Some_2 l (Z.to_nat i)) as [p Hp]; [lia|].
  rewrite (bind_Ok _ _ s p s) by (by apply fd_get_run). case_bool_decide as Hz.
  - subst. eexists. split; [done|]. simpl. split_and!; [lia|done|intros; lia].
  - destruct (IH (i + 1)) as (r & -> & Hr); [lia..|]. exists r. split; [done|].
    destruct r as [fd|].
    + destruct Hr as (? & ? & Hj). split_and!; [lia|done|]. intros j ?.
      destruct (decide (j = i)) as [->|]; [congruence|]. apply Hj. lia.
    + intros j ?. destruct (decide (j = i)) as [->|]; [congruence|]. apply Hr. lia.
Qed.
End descriptors.

(** [get_unused_fd] and the scan of [get_empty_file] on a table of the invariant. *)
Lemma unused_fd_counted s l :
  counted s → tabs s !! cur s = Some l →
  ∃ r, unused_fd_from (Z.to_nat MAX_FILE) 0 s = Ok (r, s) ∧
    match r with
    | Some fd => 0 ≤ fd < 128 ∧ l !! Z.to_nat fd = Some 0 ∧
                 ∀ j, 0 ≤ j < fd → l !! Z.to_nat j ≠ Some 0
    | None => ∀ j, 0 ≤ j < 128 → l !! Z.to_nat j ≠ Some 0
    end.
Proof.
  intros C Hl. pose proof (b_tab _ _ (c_balanced _ C) _ _ Hl) as Hlen.
  destruct (unused_fd_run s l Hl (Z.to_nat MAX_FILE) 0) as (r & Hr & H); [lia|rewrite Hlen; done|].
  exists r. split; [done|]. destruct r as [fd|]; [|done]. destruct H as (? & Hz & Hf).
  split_and!; [lia| |done|done]. apply lookup_lt_Some in Hz. lia.
Qed.

(** The slot of a descriptor in range. *)
Lemma slot_counted s l fd :
  counted s → tabs s !! cur s = Some l → 0 ≤ fd < 128 →
  ∃ p, l !! Z.to_nat fd = Some p ∧ (p = 0 ∨ is_Some (files s !! p)).
Proof.
  intros C Hl Hfd. pose proof (b_tab _ _ (c_balanced _ C) _ _ Hl) as Hlen.
  destruct (lookup_lt_is_Some_2 l (Z.to_nat fd)) as [p Hp]; [lia|]. exists p. split; [done|].
  eapply (b_named _ _ (c_balanced _ C)); [done|by eapply list_elem_of_lookup_2].
Qed.

(** The invariant after one slot of the current table was written. *)
Lemma counted_slot s F l x i :
  tabs s !! cur s = Some l → balanced F (<[cur s := <[i := x]> l]> (tabs s)) →
  Z.of_nat (size (tabs s)) < 2 ^ 24 → pipes_ok F (pipes s) →
  counted (set_tabs (<[cur s := <[i := x]> l]> (tabs s)) (set_files F s)).
Proof.
  intros Hl B Hs HP. split; simpl; [done| |done|].
  - rewrite lookup_insert_eq. eauto.
  - by rewrite map_size_insert_Some.
Qed.

Lemma edit_file_run s p g f :
  files s !! p = Some f → edit_file p g s = Ok (tt, set_files (<[p := g f]> (files s)) s).
Proof.
  intros Hp. unfold edit_file, load_file.
  rewrite (bind_Ok _ _ s f s); [done|]. run_step. by rewrite Hp.
Qed.

Lemma load_file_run s p f : files s !! p = Some f → load_file p s = Ok (f, s).
Proof. intros Hp. unfold load_file. run_step. by rewrite Hp. Qed.

Lemma find_file_run s l fd p :
  tabs s !! cur s = Some l → 0 ≤ fd → l !! Z.to_nat fd = Some p →
  find_file fd s = Ok (if bool_decide (p ≠ 0) then (0, p) else (- EBADF, 0), s).
Proof.
  intros Hl Hfd Hp. unfold find_file. rewrite (bind_Ok _ _ s p s) by (by eapply fd_get_run).
  by case_bool_decide.
Qed.

(** ** Dropping a descriptor *)

Definition dropped (F : gmap Z file) (p : Z) : gmap Z file :=
  match F !! p with Some f => drop1 F p f | None => F end.

Lemma flush_page fl q : p_page (pipefs_file_flush fl q) = p_page q.
Proof. unfold pipefs_file_flush. by repeat case_bool_decide. Qed.

Lemma flush_file_run s p f :
  pipes_ok (files s) (pipes s) → files s !! p = Some f →
  ∃ P, flush_file f s = Ok (tt, set_pipes P s) ∧ pipes_ok (files s) P.
Proof.
  intros HP Hp. assert (Hid : s = set_pipes (pipes s) s) by by destruct s.
  unfold flush_file. destruct (f_op f) eqn:Hop.
  - exists (pipes s). split; [|done]. by rewrite <- Hid.
  - destruct (HP _ _ Hp Hop) as (q & Hq & Hlen).
    exists (<[f_inode f := pipefs_file_flush (f_flags f) q]> (pipes s)). split.
    + run_step. rewrite (bind_Ok _ _ s q s) by (by rewrite Hq). done.
    + apply pipes_ok_update; [done|]. by rewrite flush_page.
  - exists (pipes s). split; [|done]. by rewrite <- Hid.
Qed.

Lemma drop1_sub F p f q g :
  F !! p = Some f → drop1 F p f !! q = Some g →
  ∃ g0, F !! q = Some g0 ∧ g = with_count (f_count g) g0.
Proof.
  intros Hp Hq. unfold drop1 in Hq. case_bool_decide.
  - apply lookup_delete_Some in Hq as [_ Hq]. exists g. split; [done|by destruct g].
  - apply lookup_insert_Some in Hq as [[<- <-]|[_ Hq]]; [by exists f|].
    exists g. split; [done|by destruct g].
Qed.

Lemma dropped_sub F p q g :
  dropped F p !! q = Some g → ∃ g0, F !! q = Some g0 ∧ g = with_count (f_count g) g0.
Proof.
  unfold dropped. destruct (F !! p) eqn:Hp; [by apply drop1_sub|].
  intros H. exists g. split; [done|by destruct g].
Qed.

Lemma pipes_ok_dropped F P p : pipes_ok F P → pipes_ok (dropped F p) P.
Proof.
  intros HP. eapply pipes_ok_sub; [done|]. intros q g' Hq _.
  destruct (dropped_sub _ _ _ _ Hq) as (g & Hg & ->). by exists g.
Qed.

(** The run of [deref_file] on a descriptor that is open. *)
Lemma deref_open_run s l fd p f :
  counted s → tabs s !! cur s = Some l → 0 ≤ fd < 128 → l !! Z.to_nat fd = Some p →
  files s !! p = Some f →
  ∃ P, pipes_ok (files s) P ∧
    deref_file fd s = Ok (tt, set_tabs (<[cur s := <[Z.to_nat fd := 0]> l]> (tabs s))
                                (set_files (drop1 (files s) p f) (set_pipes P s))).
Proof.
  intros C Hl Hfd Hi Hp. destruct (b_count _ _ (c_balanced _ C) _ _ Hp) as (Hp0 & _ & _).
  pose proof (count_small _ _ _ _ (c_balanced _ C) (c_size _ C) Hp) as Hc.
  destruct (flush_file_run s p f (c_pipes _ C) Hp) as (P & Hfl & HP). exists P. split; [done|].
  unfold deref_file. rewrite (bind_Ok _ _ s p s) by (eapply fd_get_run; [done|lia|done]).
  rewrite bool_decide_eq_false_2 by done.
  rewrite (bind_Ok _ _ s f s) by (by apply load_file_run).
  rewrite (bind_Ok _ _ s tt _ Hfl), (bind_Ok _ _ _ tt _ (edit_file_run (set_pipes P s) _ _ _ Hp)).
  rewrite (bind_Ok _ _ _ _ _ (load_file_run _ _ _ (lookup_insert_eq _ _ _))).
  rewrite u32_small by lia. unfold drop1. cbn [f_count with_count].
  destruct (bool_decide_reflect (f_count f = 1)) as [H1|H1].
  - rewrite bool_decide_eq_true_2 by lia. unfold free_file. rewrite bool_decide_eq_false_2 by done.
    run_step. simpl. rewrite delete_insert_eq.
    apply (fd_set_run (set_files _ (set_pipes P s)) l Hl fd 0 p); [lia|done].
  - rewrite bool_decide_eq_false_2 by lia. run_step.
    apply (fd_set_run (set_files _ (set_pipes P s)) l Hl fd 0 p); [lia|done].
Qed.

Lemma deref_file_run s l fd p :
  counted s → tabs s !! cur s = Some l → 0 ≤ fd < 128 → l !! Z.to_nat fd = Some p →
  ∃ s', deref_file fd s = Ok (tt, s') ∧ counted s' ∧ cur s' = cur s ∧ avail s' = avail s ∧
    tabs s' = <[cur s := <[Z.to_nat fd := 0]> l]> (tabs s) ∧ files s' = dropped (files s) p.
Proof.
  intros C Hl Hfd Hi. destruct (slot_counted _ _ _ C Hl Hfd) as (? & ? & Hnamed). simplify_eq.
  destruct Hnamed as [->|[f Hp]].
  - exists s. split_and!; [|done..| |].
    + unfold deref_file. rewrite (bind_Ok _ _ s 0 s) by (eapply fd_get_run; [done|lia|done]). done.
    + by rewrite list_insert_id, insert_id.
    + unfold dropped. destruct (files s !! 0) eqn:H0; [|done].
      by destruct (b_count _ _ (c_balanced _ C) _ _ H0).
  - destruct (deref_open_run _ _ _ _ _ C Hl Hfd Hi Hp) as (P & HP & Hrun).
    eexists. split; [exact Hrun|]. simpl. unfold dropped. rewrite Hp. split_and!; [|done..].
    apply (counted_slot (set_pipes P s)); simpl; [done| |apply C|].
    + eapply drop_ref; [apply C|done..].
    + pose proof (pipes_ok_dropped _ _ p HP) as H. unfold dropped in H. by rewrite Hp in H.
Qed.

(** ** dup and dup2 *)

Definition share (s : fstate) (l : list Z) (fd p : Z) (f : file) : fstate :=
  set_tabs (<[cur s := <[Z.to_nat fd := p]> l]> (tabs s))
    (set_files (<[p := with_count (f_count f + 1) f]> (files s)) s).

Lemma share_run {B} (k : unit → M fstate B) s l fd p f :
  counted s → tabs s !! cur s = Some l → 0 ≤ fd → l !! Z.to_nat fd = Some 0 →
  files s !! p = Some f →
  (fd_set fd p ;; edit_file p (λ f, with_count (u32 (f_count f + 1)) f) ≫= k) s =
    k tt (share s l fd p f).
Proof.
  intros C Hl Hfd Hi Hp. pose proof (count_small _ _ _ _ (c_balanced _ C) (c_size _ C) Hp).
  rewrite (bind_Ok _ _ _ _ _ (fd_set_run s l Hl fd p 0 Hfd Hi)).
  erewrite bind_Ok; [|apply edit_file_run; exact Hp].
  cbv beta. by rewrite u32_small by lia.
Qed.

Lemma counted_share s l fd p f :
  counted s → tabs s !! cur s = Some l → l !! Z.to_nat fd = Some 0 → files s !! p = Some f →
  counted (share s l fd p f).
Proof.
  intros C Hl Hi Hp. apply counted_slot; [done| |apply C|].
  - apply add_ref; [apply C|done..].
  - eapply pipes_ok_sub; [apply C|]. intros q g' Hq _.
    apply lookup_insert_Some in Hq as [[<- <-]|[_ Hq]]; [by exists f|by exists g'].
Qed.

Lemma get_unused_fd_run s l :
  counted s → tabs s !! cur s = Some l →
  ∃ r, get_unused_fd s = Ok (r, s) ∧
    ((0 ≤ r < 128 ∧ l !! Z.to_nat r = Some 0 ∧ ∀ j, 0 ≤ j < r → l !! Z.to_nat j ≠ Some 0) ∨
     (r = - EMFILE ∧ ∀ j, 0 ≤ j < 128 → l !! Z.to_nat j ≠ Some 0)).
Proof.
  intros C Hl. destruct (unused_fd_counted s l C Hl) as (r & Hr & H).
  unfold get_unused_fd. rewrite (bind_Ok _ _ _ _ _ Hr). destruct r as [fd|]; eauto.
Qed.

Lemma dup_run s l oldfd :
  counted s → tabs s !! cur s = Some l → 0 ≤ oldfd < 128 →
  ∃ r s', dup oldfd s = Ok (r, s') ∧ counted s' ∧
    ((s' = s ∧ (r = - EBADF ∨ r = - EMFILE)) ∨
     ∃ p f, l !! Z.to_nat oldfd = Some p ∧ files s !! p = Some f ∧
       l !! Z.to_nat r = Some 0 ∧ 0 ≤ r < 128 ∧ s' = share s l r p f).
Proof.
  intros C Hl Hfd. destruct (slot_counted _ _ _ C Hl Hfd) as (p & Hi & Hn).
  unfold dup. rewrite (bind_Ok _ _ _ _ _ (find_file_run s l oldfd p Hl (proj1 Hfd) Hi)).
  destruct (bool_decide_reflect (p ≠ 0)) as [Hp0|Hp0].
  2: { eexists _, _. split; [reflexivity|]. eauto. }
  destruct Hn as [->|[f Hp]]; [done|]. simpl.
  destruct (get_unused_fd_run s l C Hl) as (r & Hr & [(Hr0 & Hz & _)|(-> & _)]);
    rewrite (bind_Ok _ _ _ _ _ Hr).
  - rewrite bool_decide_eq_false_2 by lia. rewrite (share_run _ s l r p f) by (done || lia).
    eexists _, _. split; [reflexivity|]. split; [by apply counted_share|]. right. eauto 10.
  - eexists _, _. split; [reflexivity|]. eauto.
Qed.

Lemma dup2_run s l oldfd newfd :
  counted s → tabs s !! cur s = Some l → 0 ≤ oldfd < 128 → 0 ≤ newfd < 128 →
  ∃ r s', dup2 oldfd newfd s = Ok (r, s') ∧ counted s' ∧ cur s' = cur s ∧
    ((s' = s ∧ (r = - EBADF ∨ oldfd = newfd ∧ r = 0)) ∨
     ∃ p, l !! Z.to_nat oldfd = Some p ∧ p ≠ 0 ∧ r = 0 ∧
       tabs s' = <[cur s := <[Z.to_nat newfd := p]> l]> (tabs s)).
Proof.
  intros C Hl Hold Hnew. unfold dup2. case_bool_decide as Heq.
  { eexists _, _. split; [reflexivity|]. eauto 10. }
  destruct (slot_counted _ _ _ C Hl Hold) as (p & Hi & Hn).
  rewrite (bind_Ok _ _ _ _ _ (find_file_run s l oldfd p Hl (proj1 Hold) Hi)).
  destruct (bool_decide_reflect (p ≠ 0)) as [Hp0|Hp0].
  2: { eexists _, _. split; [reflexivity|]. eauto 10. }
  destruct Hn as [->|Hf]; [done|]. simpl.
  destruct (slot_counted _ _ _ C Hl Hnew) as (x & Hx & _).
  rewrite (bind_Ok _ _ s x s) by (eapply fd_get_run; [done|lia|done]).
  destruct (deref_file_run s l newfd x C Hl Hnew Hx) as (s1 & Hrun & C1 & Hcur & _ & Ht & HF).
  assert (Hd : (if bool_decide (x ≠ 0) then deref_file newfd else mret ()) s = Ok (tt, s1)).
  { destruct (bool_decide_reflect (x ≠ 0)) as [?|Hx0]; [done|].
    assert (x = 0) as -> by (destruct (decide (x = 0)); [done|]; by destruct Hx0).
    unfold deref_file in Hrun. rewrite (bind_Ok _ _ s 0 s) in Hrun by (eapply fd_get_run; [done|lia|done]).
    done. }
  rewrite (bind_Ok _ _ _ _ _ Hd). set (l1 := <[Z.to_nat newfd := 0]> l) in *.
  assert (Hl1 : tabs s1 !! cur s1 = Some l1) by (rewrite Ht, Hcur; apply lookup_insert_eq).
  assert (Hz : l1 !! Z.to_nat newfd = Some 0)
    by (apply list_lookup_insert_eq; eapply lookup_lt_Some, Hx).
  assert (Hi1 : l1 !! Z.to_nat oldfd = Some p) by (unfold l1; rewrite list_lookup_insert_ne; [done|lia]).
  destruct (b_named _ _ (c_balanced _ C1) _ _ p Hl1) as [?|[g Hg]];
    [by eapply list_elem_of_lookup_2|done|].
  rewrite (share_run _ s1 l1 newfd p g) by (done || lia).
  eexists _, _. split; [reflexivity|]. split; [by apply counted_share|]. split; [done|].
  right. exists p. split_and!; [done..|]. simpl. rewrite Ht, Hcur, insert_insert_eq. unfold l1.
  by rewrite list_insert_insert_eq.
Qed.

(** ** Allocation *)

Definition with_avail (av : list Z) (s : fstate) : fstate :=
  FState (files s) (tabs s) (cur s) (pipes s) av.

(** What an allocator may answer: nothing, or addresses that are in use neither now
    nor twice. *)
Definition avail_ok (s : fstate) (av : list Z) : Prop :=
  NoDup (filter (λ a, a ≠ 0) av) ∧
  ∀ a, a ∈ av → a ≠ 0 → files s !! a = None ∧ tabs s !! a = None.

Lemma kmalloc_run s : kmalloc s = Ok (hd 0 (avail s), with_avail (tail (avail s)) s).
Proof. unfold kmalloc. destruct s as [F T c P [|a av]]; done. Qed.

Lemma avail_ok_hd s : avail_ok s (avail s) → hd 0 (avail s) ≠ 0 → files s !! hd 0 (avail s) = None.
Proof. intros [_ H] Hne. destruct (avail s) as [|a av]; [done|]. apply H; [simpl; set_solver|done]. Qed.

Lemma counted_avail av s : counted s → counted (with_avail av s).
Proof. intros []; by split. Qed.

(** ** open *)

Lemma alloc_file_run s :
  alloc_file s = Ok (hd 0 (avail s),
    let s1 := with_avail (tail (avail s)) s in
    if bool_decide (hd 0 (avail s) = 0) then s1
    else set_files (<[hd 0 (avail s) := null_file]> (files s)) s1).
Proof.
  unfold alloc_file. rewrite (bind_Ok _ _ _ _ _ (kmalloc_run s)). by case_bool_decide as Hz; [rewrite Hz|].
Qed.

Definition opened (dentry inode mnt mode flags : Z) (fop : file_operations) : file :=
  File mode flags 1 inode 0 fop dentry mnt.

(** [_open] hands out a file of its own, or leaves the files as they were. *)
Lemma _open_run s d i m mode flags fop res :
  avail_ok s (avail s) →
  let p := hd 0 (avail s) in
  let s1 := with_avail (tail (avail s)) s in
  _open d i m mode flags fop res s =
    if bool_decide (p = 0) || (bool_decide (fop ≠ no_fop) && bool_decide (res < 0)) then Ok (0, s1)
    else Ok (p, set_files (<[p := opened d i m mode flags fop]> (files s)) s1).
Proof.
  intros Hav p s1. unfold _open. rewrite (bind_Ok _ _ _ _ _ (alloc_file_run s)). fold p s1.
  destruct (bool_decide_reflect (p = 0)) as [Hp|Hp]; [done|]. simpl orb.
  erewrite bind_Ok; [|apply edit_file_run, lookup_insert_eq].
  destruct (_ && _); [|by simpl; rewrite insert_insert_eq].
  unfold free_file. rewrite bool_decide_eq_false_2 by done. run_step. unfold mret, M_ret, set_files. simpl.
  rewrite !delete_insert_eq, delete_id; [by destruct s|]. by apply avail_ok_hd.
Qed.

Lemma open_run s l lookup mode flags fop res :
  counted s → tabs s !! cur s = Some l → avail_ok s (avail s) → fop ≠ pipefs_file_op →
  ∃ r s', open lookup mode flags fop res s = Ok (r, s') ∧ counted s' ∧ cur s' = cur s ∧
    ((r < 0 ∧ files s' = files s ∧ tabs s' = tabs s) ∨
     let '(_, (d, i, m)) := lookup in
     ∃ p, l !! Z.to_nat r = Some 0 ∧ 0 ≤ r < 128 ∧ files s !! p = None ∧
       tabs s' = <[cur s := <[Z.to_nat r := p]> l]> (tabs s) ∧
       files s' = <[p := opened d i m mode flags fop]> (files s)).
Proof.
  intros C Hl Hav Hfop. unfold open.
  destruct (get_unused_fd_run s l C Hl) as (fd & Hr & [(Hr0 & Hz & _)|(-> & _)]);
    rewrite (bind_Ok _ _ _ _ _ Hr).
  2: { eexists _, _. split; [reflexivity|]. split_and!; [done..|]. by left. }
  rewrite bool_decide_eq_false_2 by lia. destruct lookup as [rv [[d i] m]].
  case_bool_decide as Hrv. { eexists _, _. split; [reflexivity|]. split_and!; [done..|]. by left. }
  pose proof (_open_run s d i m mode flags fop res Hav) as Ho. cbv zeta in Ho.
  destruct (bool_decide_reflect (hd 0 (avail s) = 0)) as [Hp|Hp];
    [|destruct (bool_decide (fop ≠ no_fop) && bool_decide (res < 0))];
    simpl orb in Ho; cbv iota in Ho; rewrite (bind_Ok _ _ _ _ _ Ho).
  1, 2: eexists _, _; split; [reflexivity|]; split_and!; [by apply counted_avail|done|by left].
  rewrite bool_decide_eq_true_2 by done.
  set (p := hd 0 (avail s)) in *. set (F := <[p := _]> (files s)) in *.
  set (s1 := with_avail _ s) in *. pose proof (avail_ok_hd s Hav Hp) as Hnone.
  rewrite (bind_Ok _ _ _ _ _ (fd_set_run (set_files F s1) l Hl fd p 0 (proj1 Hr0) Hz)).
  eexists _, _. split; [reflexivity|]. split_and!; [|done|].
  - apply (counted_slot s1); [done| |apply C|].
    + apply new_ref; [apply C|done..].
    + intros q g Hq Hop. apply lookup_insert_Some in Hq as [[_ <-]|[_ Hq]]; [done|by eapply C].
  - right. exists p. by split_and!; [| lia | lia |..].
Qed.

(** ** fork and exit *)

Lemma add_refs_nil F : add_refs [] F = F.
Proof.
  apply map_eq. intros p. rewrite lookup_add_refs. destruct (F !! p) as [f|]; [|done]. simpl.
  f_equal. unfold with_count, cnt. simpl. rewrite Z.add_0_r. by destruct f.
Qed.

Lemma add_refs_zero l F : F !! 0 = None → add_refs (0 :: l) F = add_refs l F.
Proof.
  intros H0. apply map_eq. intros p. rewrite !lookup_add_refs.
  destruct (F !! p) as [f|] eqn:Hp; [|done]. simpl. unfold cnt. simpl.
  by rewrite bool_decide_eq_false_2 by congruence.
Qed.

Lemma add_refs_cons l F p f :
  F !! p = Some f → add_refs (p :: l) F = add_refs l (<[p := with_count (f_count f + 1) f]> F).
Proof.
  intros Hp. apply map_eq. intros q. rewrite !lookup_add_refs. unfold cnt. simpl.
  destruct (decide (p = q)) as [<-|Hne].
  - rewrite lookup_insert_eq, Hp, bool_decide_eq_true_2 by done. simpl. f_equal.
    unfold with_count. simpl. f_equal. lia.
  - rewrite lookup_insert_ne, bool_decide_eq_false_2 by done. done.
Qed.

Lemma count_files_run l s :
  files s !! 0 = None → (∀ p, p ∈ l → p = 0 ∨ is_Some (files s !! p)) →
  (∀ p f, files s !! p = Some f → 0 ≤ f_count f ∧ f_count f + cnt p l < 2 ^ 32) →
  count_files l s = Ok (tt, set_files (add_refs l (files s)) s).
Proof.
  revert s. induction l as [|p l IH]; intros s H0 Hin Hc; simpl.
  { rewrite add_refs_nil. by destruct s. }
  destruct (Hin p) as [->|[f Hp]]; [set_solver| |].
  - run_step. rewrite add_refs_zero by done. apply IH; [done|set_solver|]. intros q g Hq.
    specialize (Hc q g Hq). unfold cnt in *. simpl in Hc. destruct (bool_decide (0 = q)); lia.
  - rewrite bool_decide_eq_true_2 by congruence.
    destruct (Hc p f Hp) as [Hc0 Hc1]. unfold cnt in Hc1. simpl in Hc1.
    rewrite bool_decide_eq_true_2 in Hc1 by done. pose proof (cnt_nonneg p l) as Hnn. unfold cnt in Hnn.
    rewrite (bind_Ok _ _ _ _ _ (edit_file_run s p _ f Hp)), u32_small by lia.
    rewrite (add_refs_cons _ _ _ _ Hp).
    rewrite IH; [done|..]; simpl.
    + rewrite lookup_insert_ne by congruence. done.
    + intros q Hq. destruct (Hin q) as [?|?]; [set_solver|by left|]. right.
      apply lookup_insert_is_Some'. by right.
    + intros q g Hq. apply lookup_insert_Some in Hq as [[<- <-]|[Hne Hq]]; unfold cnt; simpl; [lia|].
      specialize (Hc q g Hq). unfold cnt in Hc. simpl in Hc.
      rewrite bool_decide_eq_false_2 in Hc by done. lia.
Qed.

Definition forked (s : fstate) (t : Z) (l : list Z) (av : list Z) : fstate :=
  with_avail av (set_tabs (<[t := l]> (tabs s)) (set_files (add_refs l (files s)) s)).

(** A table [t] with the descriptors [l] can be added, each of them counted. *)
Lemma share_table s l t :
  counted s → tabs s !! cur s = Some l → tabs s !! t = None → Z.of_nat (size (tabs s)) + 1 < 2 ^ 24 →
  (∀ s', files s' = files s → count_files l s' = Ok (tt, set_files (add_refs l (files s)) s')) ∧
  ∀ av, counted (forked s t l av).
Proof.
  intros C Hl Htab Hsz. pose proof (copy_refs _ _ _ _ _ (c_balanced _ C) Hl Htab) as B. split.
  - intros s' E. rewrite <- E. apply count_files_run; rewrite E.
    + destruct (files s !! 0) eqn:H0; [|done]. by destruct (b_count _ _ (c_balanced _ C) _ _ H0).
    + intros p. by apply (b_named _ _ (c_balanced _ C) _ _ p Hl).
    + intros p f Hp. destruct (count_small _ _ _ _ (c_balanced _ C) (c_size _ C) Hp) as [? ?].
      destruct (count_small _ _ p (with_count (f_count f + cnt p l) f) B).
      * rewrite map_size_insert_None by done. lia.
      * by rewrite lookup_add_refs, Hp.
      * simpl in *. lia.
  - intros av. split; simpl; [done| | |].
    + rewrite lookup_insert_ne; [apply C|]. intros ->. congruence.
    + eapply pipes_ok_sub; [apply C|]. intros p g Hp _. rewrite lookup_add_refs in Hp.
      apply fmap_Some in Hp as (g0 & Hp & ->). by exists g0.
    + rewrite map_size_insert_None by done. lia.
Qed.

Lemma copy_files_run s l :
  counted s → tabs s !! cur s = Some l → avail_ok s (avail s) →
  Z.of_nat (size (tabs s)) + 1 < 2 ^ 24 →
  ∃ r t s', copy_files s = Ok ((r, t), s') ∧ counted s' ∧ cur s' = cur s ∧
    ((r = - ENOMEM ∧ files s' = files s ∧ tabs s' = tabs s) ∨
     (r = 0 ∧ t ≠ 0 ∧ tabs s !! t = None ∧ ∃ av, s' = forked s t l av)).
Proof.
  intros C Hl Hav Hsz. unfold copy_files. rewrite (bind_Ok _ _ _ _ _ (kmalloc_run s)).
  case_bool_decide as Hfs.
  { eexists _, _, _. split; [reflexivity|]. split_and!; [by apply counted_avail|done|by left]. }
  set (s1 := with_avail (tail (avail s)) s). rewrite (bind_Ok _ _ _ _ _ (kmalloc_run s1)).
  destruct (bool_decide_reflect (hd 0 (avail s1) = 0)) as [Ht|Ht].
  { eexists _, _, _. split; [reflexivity|]. split_and!; [by do 2 apply counted_avail|done|by left]. }
  set (t := hd 0 (avail s1)) in *.
  assert (Htab : tabs s !! t = None).
  { destruct Hav as [_ Hav]. apply (Hav t); [|done]. unfold t, s1 in *. simpl in *.
    destruct (avail s) as [|? [|? ?]]; set_solver. }
  destruct (share_table s l t C Hl Htab Hsz) as [Hcount Hc].
  run_step. erewrite bind_Ok by (apply of_option_Some; exact Hl). run_step.
  erewrite bind_Ok; [|by apply Hcount].
  eexists _, _, _. split; [reflexivity|]. split_and!; [|done|right; split_and!; [done..|by eexists]]. apply Hc.
Qed.

(** Files that are the same but for their counts, [F'] having no others than [F]. *)
Definition fewer (F F' : gmap Z file) : Prop :=
  ∀ p g, F' !! p = Some g → ∃ f, F !! p = Some f ∧ g = with_count (f_count g) f.

Lemma fewer_trans F G H : fewer F G → fewer G H → fewer F H.
Proof.
  intros H1 H2 p h Hp. destruct (H2 p h Hp) as (g & Hg & Eg). destruct (H1 p g Hg) as (f & Hf & Ef).
  exists f. split; [done|]. by rewrite Eg, Ef.
Qed.

(** [deref_from] clears the slots from [i] on. *)
Lemma deref_from_run n i s l :
  counted s → tabs s !! cur s = Some l → 0 ≤ i → i + Z.of_nat n = 128 →
  ∃ s', deref_from n i s = Ok (tt, s') ∧ counted s' ∧ cur s' = cur s ∧ fewer (files s) (files s') ∧
    tabs s' = <[cur s := take (Z.to_nat i) l ++ replicate n 0]> (tabs s).
Proof.
  revert i s l. induction n as [|n IH]; intros i s l C Hl Hi Hn; simpl.
  - exists s. split_and!; [done..| |].
    + intros p g Hp. exists g. split; [done|by destruct g].
    + rewrite app_nil_r, take_ge, insert_id; [done..|].
      rewrite (b_tab _ _ (c_balanced _ C) _ _ Hl). lia.
  - destruct (slot_counted s l i C Hl) as (p & Hp & _); [lia|].
    destruct (deref_file_run s l i p C Hl) as (s1 & Hrun & C1 & Hcur & _ & Ht & HF); [lia|done|].
    rewrite (bind_Ok _ _ _ _ _ Hrun).
    destruct (IH (i + 1) s1 (<[Z.to_nat i := 0]> l)) as (s2 & Hrun2 & C2 & Hcur2 & HF2 & Ht2);
      [done|rewrite Ht, Hcur; apply lookup_insert_eq|lia|lia|].
    exists s2. split_and!; [done|done|congruence| |].
    + eapply fewer_trans; [|done]. rewrite HF. intros q g. apply dropped_sub.
    + rewrite Ht2, Ht, Hcur, insert_insert_eq. f_equal.
      replace (Z.to_nat (i + 1)) with (S (Z.to_nat i)) by lia.
      rewrite (take_S_r _ _ 0), take_insert_ge, <- app_assoc by
        (lia || apply list_lookup_insert_eq; by eapply lookup_lt_Some). done.
Qed.

(** The scheduler gives the processor to another task. *)
Definition set_cur (t : Z) (s : fstate) : fstate :=
  FState (files s) (tabs s) t (pipes s) (avail s).

Lemma counted_switch s t : counted s → is_Some (tabs s !! t) → counted (set_cur t s).
Proof. intros [] ?; by split. Qed.

Lemma cnt_zeros n p : p ≠ 0 → cnt p (replicate n 0) = 0.
Proof. intros Hp. apply cnt_zero. intros [? _]%elem_of_replicate. done. Qed.

(** Two states of the invariant with as many references to a file have the same
    file. *)
Lemma balanced_same F T F' T' :
  balanced F T → balanced F' T' → fewer F F' → (∀ p, p ≠ 0 → refs T' p = refs T p) → F' = F.
Proof.
  intros B B' HF HR. apply map_eq. intros p. destruct (F' !! p) as [g|] eqn:Hg.
  - destruct (HF p g Hg) as (f & Hf & ->). rewrite Hf. f_equal.
    destruct (b_count _ _ B _ _ Hf) as (Hp & Hc & _). destruct (b_count _ _ B' _ _ Hg) as (_ & Hc' & _).
    rewrite HR, <- Hc in Hc' by done. simpl in Hc'. rewrite Hc'. by destruct f.
  - destruct (F !! p) as [f|] eqn:Hf; [|done]. destruct (b_count _ _ B _ _ Hf) as (Hp & _ & Hpos).
    rewrite <- HR, (refs_absent F' T' p B' Hp Hg) in Hpos by done. lia.
Qed.

(** C33: a child that is forked and exits without opening or closing anything leaves
    every open file exactly as it was before the fork, its count included, whatever
    descriptors the parent has, with duplicates among them; no descriptor table but
    the child's is touched, and no run of the two faults. *)
Theorem fork_exit_restores s t s1 :
  counted s → avail_ok s (avail s) → Z.of_nat (size (tabs s)) + 1 < 2 ^ 24 →
  copy_files s = Ok ((0, t), s1) →
  ∃ s2, exit_files (set_cur t s1) = Ok (tt, s2) ∧ files s2 = files s ∧
    ∀ u, u ≠ t → tabs s2 !! u = tabs s !! u.
Proof.
  intros C Hav Hsz Hfork. destruct (c_cur _ C) as [l Hl].
  destruct (copy_files_run s l C Hl Hav Hsz) as (r & t' & s1' & Hrun & C1 & Hcur & Hcase).
  rewrite Hrun in Hfork. injection Hfork as -> -> ->.
  destruct Hcase as [(? & _)|(_ & Ht0 & Htn & av & ->)]; [done|].
  assert (Hlt : tabs (forked s t l av) !! t = Some l) by apply lookup_insert_eq.
  destruct (deref_from_run 128 0 (set_cur t (forked s t l av)) l) as (s2 & Hrun2 & C2 & _ & HF & Ht2);
    [by apply counted_switch|done|lia|lia|].
  exists s2. split; [exact Hrun2|]. rewrite take_0, app_nil_l in Ht2.
  cbn [set_cur forked with_avail set_tabs set_files tabs cur] in Ht2.
  rewrite insert_insert_eq in Ht2. split.
  - eapply balanced_same; [apply C|apply C2| |].
    + eapply fewer_trans; [|exact HF]. intros p g Hp. cbn in Hp. rewrite lookup_add_refs in Hp.
      apply fmap_Some in Hp as (f & Hp & ->). by exists f.
    + intros p Hp. rewrite Ht2, refs_insert_new by done. by rewrite cnt_zeros.
  - intros u Hu. rewrite Ht2. by apply lookup_insert_ne.
Qed.

(** ** Reading, writing and making pipes *)

Lemma write_loop_page buf i p :
  length (p_page p) = Z.to_nat PAGE_SIZE →
  ∃ n q, pipe_write_loop buf i p = Ok (n, q) ∧ length (p_page q) = Z.to_nat PAGE_SIZE.
Proof.
  revert i p. induction buf as [|b buf IH]; intros i p Hp; simpl; [eauto|].
  case_bool_decide; [eauto|].
  destruct (lookup_lt_is_Some_2 (p_page p) (Z.to_nat (p_wpos p mod PAGE_SIZE))) as [x ->].
  { rewrite Hp. pose proof (Z.mod_pos_bound (p_wpos p) PAGE_SIZE ltac:(done)). lia. }
  apply IH. simpl. by rewrite length_insert.
Qed.

Lemma read_loop_page n got p :
  length (p_page p) = Z.to_nat PAGE_SIZE →
  ∃ l q, pipe_read_loop n got p = Ok (l, q) ∧ length (p_page q) = Z.to_nat PAGE_SIZE.
Proof.
  revert got p. induction n as [|n IH]; intros got p Hp; simpl; [eauto|].
  destruct (_ && _); [eauto|]. destruct (_ && _); [eauto|].
  destruct (lookup_lt_is_Some_2 (p_page p) (Z.to_nat (p_rpos p mod PAGE_SIZE))) as [x ->].
  { rewrite Hp. pose proof (Z.mod_pos_bound (p_rpos p) PAGE_SIZE ltac:(done)). lia. }
  by apply IH.
Qed.

Lemma counted_pipes s P : counted s → pipes_ok (files s) P → counted (set_pipes P s).
Proof. intros [] ?; by split. Qed.

Lemma access_check_run s l fd allowed :
  counted s → tabs s !! cur s = Some l → 0 ≤ fd < 128 →
  ∃ r, access_check fd allowed s = Ok (r, s) ∧
    match r with
    | inl e => e = - EBADF ∨ e = - EACCES
    | inr f => ∃ p, l !! Z.to_nat fd = Some p ∧ files s !! p = Some f ∧
                    Z.land (f_flags f) O_ACCMODE ∈ allowed
    end.
Proof.
  intros C Hl Hfd. destruct (slot_counted _ _ _ C Hl Hfd) as (p & Hi & Hn).
  unfold access_check. rewrite (bind_Ok _ _ _ _ _ (find_file_run s l fd p Hl (proj1 Hfd) Hi)).
  destruct (bool_decide_reflect (p ≠ 0)) as [Hp0|Hp0].
  2: { eexists. split; [reflexivity|]. by left. }
  destruct Hn as [->|[f Hp]]; [done|]. simpl.
  rewrite (bind_Ok _ _ s f s) by (by apply load_file_run).
  case_bool_decide; eexists; (split; [reflexivity|]); simpl; eauto.
Qed.

Lemma read_run s fd count other :
  counted s → 0 ≤ fd < 128 →
  ∃ r s', read fd count other s = Ok (r, s') ∧ counted s' ∧ cur s' = cur s ∧
    tabs s' = tabs s ∧ files s' = files s.
Proof.
  intros C Hfd. destruct (c_cur _ C) as [l Hl]. unfold read.
  destruct (access_check_run s l fd [O_RDONLY; O_RDWR] C Hl Hfd) as (r & Hr & Hcase).
  rewrite (bind_Ok _ _ _ _ _ Hr). destruct r as [e|f]; [by eexists _, _|].
  destruct Hcase as (p & _ & Hp & _). destruct (f_op f) eqn:Hop; [by eexists _, _| |by eexists _, _].
  destruct (c_pipes _ C _ _ Hp Hop) as (q & Hq & Hlen).
  run_step. erewrite bind_Ok by (apply of_option_Some; exact Hq).
  destruct (read_loop_page (Z.to_nat count) [] q Hlen) as (got & q' & Hg & Hlen').
  erewrite bind_Ok by (apply lift_Ok; exact Hg). cbv beta iota. run_step.
  eexists _, _. split; [reflexivity|]. split; [|done].
  apply counted_pipes; [done|]. apply pipes_ok_update; [apply C|done].
Qed.

Lemma write_run s fd buf other :
  counted s → 0 ≤ fd < 128 →
  ∃ r s', write fd buf other s = Ok (r, s') ∧ counted s' ∧ cur s' = cur s ∧
    tabs s' = tabs s ∧ files s' = files s.
Proof.
  intros C Hfd. destruct (c_cur _ C) as [l Hl]. unfold write.
  destruct (access_check_run s l fd [O_WRONLY; O_RDWR] C Hl Hfd) as (r & Hr & Hcase).
  rewrite (bind_Ok _ _ _ _ _ Hr). destruct r as [e|f]; [by eexists _, _|].
  destruct Hcase as (p & _ & Hp & _). destruct (f_op f) eqn:Hop; [by eexists _, _| |by eexists _, _].
  destruct (c_pipes _ C _ _ Hp Hop) as (q & Hq & Hlen).
  run_step. erewrite bind_Ok by (apply of_option_Some; exact Hq).
  destruct (write_loop_page buf 0 q Hlen) as (got & q' & Hg & Hlen').
  erewrite bind_Ok by (apply lift_Ok; exact Hg). cbv beta iota. run_step.
  eexists _, _. split; [reflexivity|]. split; [|done].
  apply counted_pipes; [done|]. apply pipes_ok_update; [apply C|done].
Qed.

Lemma get_empty_file_run s l fd p av :
  tabs s !! cur s = Some l → unused_fd_from (Z.to_nat MAX_FILE) 0 s = Ok (Some fd, s) →
  0 ≤ fd → l !! Z.to_nat fd = Some 0 → avail s = p :: av → p ≠ 0 →
  get_empty_file s = Ok ((fd, p), set_tabs (<[cur s := <[Z.to_nat fd := p]> l]> (tabs s))
                                    (set_files (<[p := null_file]> (files s)) (with_avail av s))).
Proof.
  intros Hl Hr Hfd Hz Hav Hp. unfold get_empty_file. rewrite (bind_Ok _ _ _ _ _ Hr).
  rewrite (bind_Ok _ _ _ _ _ (alloc_file_run s)), Hav. simpl.
  rewrite bool_decide_eq_false_2 by done.
  by rewrite (bind_Ok _ _ _ _ _
    (fd_set_run (set_files (<[p := null_file]> (files s)) (with_avail av s)) l Hl fd p 0 Hfd Hz)).
Qed.

Lemma first_free s l j :
  tabs s !! cur s = Some l → length l = 128%nat → l !! j = Some 0 →
  ∃ fd, unused_fd_from (Z.to_nat MAX_FILE) 0 s = Ok (Some fd, s) ∧ 0 ≤ fd < 128 ∧
        l !! Z.to_nat fd = Some 0.
Proof.
  intros Hl Hlen Hj. pose proof (lookup_lt_Some _ _ _ Hj).
  destruct (unused_fd_run s l Hl (Z.to_nat MAX_FILE) 0) as (r & Hr & H'); [done|by rewrite Hlen|].
  destruct r as [fd|].
  - destruct H' as (? & Hz & _). pose proof (lookup_lt_Some _ _ _ Hz). exists fd.
    split_and!; [done|lia|lia|done].
  - destruct (H' (Z.of_nat j)); [unfold MAX_FILE; lia|by rewrite Nat2Z.id].
Qed.

Lemma get_pipe_inode_run s ino info page av :
  avail s = ino :: info :: page :: av → ino ≠ 0 → info ≠ 0 → page ≠ 0 →
  get_pipe_inode s = Ok (ino, set_pipes (<[ino := get_pipe_info]> (pipes s)) (with_avail av s)).
Proof.
  intros Hav H1 H2 H3. destruct s as [F T c P a]. simpl in *. subst a.
  unfold get_pipe_inode. do 3 (run_step; rewrite bool_decide_eq_false_2 by done). done.
Qed.

(** [pipe] when two slots are free and the allocators deliver: [f1] and [f2] become
    the files, [ino] the inode. *)
Lemma pipe_run s l i j f1 f2 ino info page dentry av mnt :
  counted s → tabs s !! cur s = Some l → l !! i = Some 0 → l !! j = Some 0 → i ≠ j →
  avail s = [f1; f2; ino; info; page; dentry] ++ av → 0 ∉ [f1; f2; ino; info; page; dentry] →
  avail_ok s (avail s) →
  let end_of flags := File 0 flags 1 ino 0 pipefs_file_op dentry mnt in
  ∃ fd1 fd2 s', pipe mnt s = Ok ((0, (fd1, fd2)), s') ∧ counted s' ∧ cur s' = cur s ∧
    fd1 ≠ fd2 ∧ l !! Z.to_nat fd1 = Some 0 ∧ l !! Z.to_nat fd2 = Some 0 ∧
    tabs s' = <[cur s := <[Z.to_nat fd2 := f2]> (<[Z.to_nat fd1 := f1]> l)]> (tabs s) ∧
    files s' = <[f2 := end_of O_WRONLY]> (<[f1 := end_of O_RDONLY]> (files s)) ∧
    pipes s' = <[ino := get_pipe_info]> (pipes s).
Proof.
  intros C Hl Hi Hj Hij Hav Hnz Hok end_of.
  assert (Hlen : length l = 128%nat) by (eapply (b_tab _ _ (c_balanced _ C)); done).
  assert (f1 ≠ 0 ∧ f2 ≠ 0 ∧ ino ≠ 0 ∧ info ≠ 0 ∧ page ≠ 0 ∧ dentry ≠ 0) as (N1 & N2 & N3 & N4 & N5 & N6)
    by set_solver.
  assert (Hfresh : f1 ≠ f2 ∧ files s !! f1 = None ∧ files s !! f2 = None).
  { destruct Hok as [Hnd Hfr]. rewrite Hav in Hnd, Hfr. split_and!.
    - simpl in Hnd. rewrite !filter_cons_True in Hnd by done. intros ->. inversion Hnd. set_solver.
    - apply Hfr; [set_solver|done].
    - apply Hfr; [set_solver|done]. }
  destruct Hfresh as (N12 & Hn1 & Hn2).
  destruct (first_free s l i Hl Hlen Hi) as (fd1 & Hfd1 & Hr1 & Hz1).
  unfold pipe. rewrite (bind_Ok _ _ _ _ _ (get_empty_file_run s l fd1 f1 _ Hl Hfd1 (proj1 Hr1) Hz1 Hav N1)).
  rewrite bool_decide_eq_false_2 by lia. set (l1 := <[Z.to_nat fd1 := f1]> l).
  set (s1 := set_tabs _ _).
  assert (Hl1 : tabs s1 !! cur s1 = Some l1) by apply lookup_insert_eq.
  assert (∃ k, l1 !! k = Some 0) as (k & Hk).
  { destruct (decide (i = Z.to_nat fd1)) as [->|].
    - exists j. unfold l1. by rewrite list_lookup_insert_ne.
    - exists i. unfold l1. by rewrite list_lookup_insert_ne. }
  destruct (first_free s1 l1 k Hl1) as (fd2 & Hfd2 & Hr2 & Hz2); [by unfold l1; rewrite length_insert|done|].
  rewrite (bind_Ok _ _ _ _ _ (get_empty_file_run s1 l1 fd2 f2 _ Hl1 Hfd2 (proj1 Hr2) Hz2 eq_refl N2)).
  rewrite bool_decide_eq_false_2 by lia. set (s2 := set_tabs _ _).
  rewrite (bind_Ok _ _ _ _ _ (get_pipe_inode_run s2 ino info page (dentry :: av) eq_refl N3 N4 N5)).
  rewrite bool_decide_eq_false_2 by done. erewrite bind_Ok by apply kmalloc_run.
  cbn [hd avail with_avail set_pipes]. rewrite bool_decide_eq_false_2 by done.
  erewrite bind_Ok by (apply edit_file_run; cbn; rewrite lookup_insert_ne by done; apply lookup_insert_eq).
  erewrite bind_Ok by (apply edit_file_run; cbn; rewrite lookup_insert_ne by done; apply lookup_insert_eq).
  set (F := <[f2 := _]> (files _)). set (s3 := set_files F _).
  assert (HF : F = <[f2 := end_of O_WRONLY]> (<[f1 := end_of O_RDONLY]> (files s))).
  { unfold F. cbn. rewrite (insert_insert_ne _ f2 f1), !insert_insert_eq by done.
    by rewrite (insert_insert_ne _ f1 f2), insert_insert_eq by done. }
  set (l2 := <[Z.to_nat fd2 := f2]> l1).
  assert (Hne : Z.to_nat fd1 ≠ Z.to_nat fd2).
  { intros E. rewrite <- E in Hz2. unfold l1 in Hz2.
    rewrite list_lookup_insert_eq in Hz2; [congruence|lia]. }
  assert (Ht3 : tabs s3 = <[cur s := l2]> (tabs s)) by (cbn; by rewrite insert_insert_eq).
  assert (Hl3 : tabs s3 !! cur s3 = Some l2) by (rewrite Ht3; apply lookup_insert_eq).
  assert (Hs1 : l2 !! Z.to_nat fd1 = Some f1).
  { unfold l2, l1. rewrite list_lookup_insert_ne, list_lookup_insert_eq by (done || lia). done. }
  assert (Hs2 : l2 !! Z.to_nat fd2 = Some f2).
  { unfold l2, l1. rewrite list_lookup_insert_eq; [done|]. rewrite length_insert. lia. }
  rewrite (bind_Ok _ _ _ _ _ (fd_set_same s3 l2 Hl3 fd1 f1 (proj1 Hr1) Hs1)).
  rewrite (bind_Ok _ _ _ _ _ (fd_set_same s3 l2 Hl3 fd2 f2 (proj1 Hr2) Hs2)).
  assert (Hz2' : l !! Z.to_nat fd2 = Some 0) by (unfold l1 in Hz2; by rewrite list_lookup_insert_ne in Hz2).
  exists fd1, fd2, s3. split; [reflexivity|]. split_and!; [|done|lia|done..].
  split; rewrite ?Ht3.
  - cbn. rewrite HF.
    pose proof (new_ref (files s) (tabs s) (cur s) l (Z.to_nat fd1) f1 (end_of O_RDONLY)
      (c_balanced _ C) Hl Hz1 Hn1 N1 eq_refl) as B1.
    pose proof (new_ref _ _ (cur s) l1 (Z.to_nat fd2) f2 (end_of O_WRONLY) B1
      (lookup_insert_eq _ _ _) Hz2 ltac:(by rewrite lookup_insert_ne) N2 eq_refl) as B2.
    by rewrite insert_insert_eq in B2.
  - cbn. rewrite lookup_insert_eq. eauto.
  - cbn. rewrite HF. intros q g Hq Hop.
    apply lookup_insert_Some in Hq as [[_ <-]|[_ Hq]].
    { exists get_pipe_info. split; [apply lookup_insert_eq|]. apply length_replicate. }
    apply lookup_insert_Some in Hq as [[_ <-]|[_ Hq]].
    { exists get_pipe_info. split; [apply lookup_insert_eq|]. apply length_replicate. }
    eapply pipes_ok_update; [apply C|done|done|done].
  - rewrite map_size_insert_Some; [apply C|by eexists].
Qed.

(** ** Sequences of system calls *)

Inductive fcall :=
  | Dup (oldfd : Z)
  | Dup2 (oldfd newfd : Z)
  | Open (lookup : Z * (Z * Z * Z)) (mode flags : Z) (fop : file_operations) (res : Z)
  | Close (fd : Z)
  | Read (fd count other : Z)
  | Write (fd : Z) (buf : list Z) (other : Z)
  | Pipe (mnt : Z)
  | Fork
  | Switch (t : Z)
  | Exit.

Definition run_call (c : fcall) : M fstate unit :=
  match c with
  | Dup o => dup o ;; mret tt
  | Dup2 o n => dup2 o n ;; mret tt
  | Open lk mode flags fop res => open lk mode flags fop res ;; mret tt
  | Close fd => close fd
  | Read fd n other => read fd n other ;; mret tt
  | Write fd buf other => write fd buf other ;; mret tt
  | Pipe mnt => pipe mnt ;; mret tt
  | Fork => copy_files ;; mret tt
  | Switch t => modify (set_cur t)
  | Exit => exit_files
  end.

Definition fd_ok (fd : Z) : Prop := 0 ≤ fd < 128.

(** What the code relies on: descriptors inside the array; fewer than 2^24 tables;
    a pipe that can be made (a failing [pipe] leaves a descriptor half made); no
    path leads to a pipe. *)
Definition call_ok (s : fstate) (c : fcall) : Prop :=
  match c with
  | Dup fd | Close fd | Read fd _ _ | Write fd _ _ => fd_ok fd
  | Dup2 o n => fd_ok o ∧ fd_ok n
  | Open _ _ _ fop _ => fop ≠ pipefs_file_op
  | Pipe _ => ∃ l i j fresh av,
      tabs s !! cur s = Some l ∧ l !! i = Some 0 ∧ l !! j = Some 0 ∧ i ≠ j ∧
      avail s = fresh ++ av ∧ length fresh = 6%nat ∧ 0 ∉ fresh
  | Fork => Z.of_nat (size (tabs s)) + 1 < 2 ^ 24
  | Switch t => is_Some (tabs s !! t)
  | Exit => True
  end.

Inductive reachable : fstate → Prop :=
  | r_boot t : reachable (FState ∅ {[t := replicate 128 0]} t ∅ [])
  | r_call s av c s' :
      reachable s → avail_ok s av → call_ok (with_avail av s) c →
      run_call c (with_avail av s) = Ok (tt, s') → reachable s'.

Lemma counted_boot t : counted (FState ∅ {[t := replicate 128 0]} t ∅ []).
Proof.
  split; cbn [files tabs cur pipes].
  - split.
    + intros u l [_ <-]%lookup_singleton_Some. apply length_replicate.
    + intros u l p [_ <-]%lookup_singleton_Some [-> _]%elem_of_replicate. by left.
    + intros p f Hp. by rewrite lookup_empty in Hp.
  - rewrite lookup_singleton_eq. eauto.
  - intros p f Hp. by rewrite lookup_empty in Hp.
  - by rewrite map_size_singleton.
Qed.

Lemma bind_void {A} (m : M fstate A) s r s' : m s = Ok (r, s') → (m ;; mret tt) s = Ok (tt, s').
Proof. intros H. by rewrite (bind_Ok _ _ _ _ _ H). Qed.

Lemma run_call_ok s c :
  counted s → avail_ok s (avail s) → call_ok s c → ∃ s', run_call c s = Ok (tt, s') ∧ counted s'.
Proof.
  intros C Hav Hc. destruct (c_cur _ C) as [l Hl].
  destruct c as [fd|o n|lk mode flags fop res|fd|fd n o|fd buf o|mnt| |t|]; simpl in *.
  - destruct (dup_run s l fd C Hl Hc) as (? & ? & Hr & ? & _). eauto using bind_void.
  - destruct Hc as [Ho Hn]. destruct (dup2_run s l o n C Hl Ho Hn) as (? & ? & Hr & ? & _).
    eauto using bind_void.
  - destruct (open_run s l lk mode flags fop res C Hl Hav Hc) as (? & ? & Hr & ? & _).
    eauto using bind_void.
  - destruct (slot_counted _ _ _ C Hl Hc) as (p & Hi & _). exists s. split; [|done].
    eapply bind_void, find_file_run; [done|apply Hc|done].
  - destruct (read_run s fd n o C Hc) as (? & ? & Hr & ? & _). eauto using bind_void.
  - destruct (write_run s fd buf o C Hc) as (? & ? & Hr & ? & _). eauto using bind_void.
  - destruct Hc as (l' & i & j & fresh & av & Hl' & Hi & Hj & Hij & Hfr & Hlen & Hz).
    do 6 (destruct fresh as [|? fresh]; [done|]). destruct fresh; [|done].
    destruct (pipe_run s l' i j _ _ _ _ _ _ av mnt C Hl' Hi Hj Hij Hfr Hz Hav)
      as (? & ? & ? & Hr & ? & _). eauto using bind_void.
  - destruct (copy_files_run s l C Hl Hav Hc) as (? & ? & ? & Hr & ? & _). eauto using bind_void.
  - eexists. split; [reflexivity|]. by apply counted_switch.
  - destruct (deref_from_run 128 0 s l C Hl) as (? & Hr & ? & _); [lia|lia|]. eauto.
Qed.

Lemma reachable_counted s : reachable s → counted s.
Proof.
  induction 1 as [t|s av c s' _ IH Hav Hc Hrun]; [apply counted_boot|].
  destruct (run_call_ok (with_avail av s) c) as (s2 & Hrun2 & C2);
    [by apply counted_avail|done|done|]. congruence.
Qed.

(** C15: after any sequence of calls [call_ok] allows, of any tasks and whatever the
    allocators answered, the next such call completes without touching memory that is
    not there, and afterwards the [f_count] of every open file is exactly the number of
    descriptors that name it: a file is freed by the call that drops its last descriptor,
    never before, and no descriptor is left naming a freed file.  [call_ok] leaves out
    descriptors outside 0 to 127, which the code does not check, a [pipe] that fails,
    which leaves a descriptor naming a file counted 0 ([failed_pipe_leaves_descriptor]),
    paths that lead to a pipe, and 2^24 tasks. *)
Theorem file_counts_exact s av c :
  reachable s → avail_ok s av → call_ok (with_avail av s) c →
  ∃ s', run_call c (with_avail av s) = Ok (tt, s') ∧
    ∀ p, p ≠ 0 →
      match files s' !! p with
      | Some f => f_count f = refs (tabs s') p ∧ 0 < refs (tabs s') p
      | None => refs (tabs s') p = 0
      end.
Proof.
  intros Hs Hav Hc.
  destruct (run_call_ok (with_avail av s) c) as (s' & Hrun & C);
    [by apply counted_avail, reachable_counted|done|done|].
  exists s'. split; [done|]. intros p Hp. destruct (files s' !! p) as [f|] eqn:Hf.
  - by apply (b_count _ _ (c_balanced _ C)).
  - by eapply refs_absent; [apply C| |].
Qed.

(** A task that opened a file and duplicated the descriptor. *)
Definition after (s : fstate) (av : list Z) (c : fcall) : fstate :=
  match run_call c (with_avail av s) with Ok (_, s') => s' | Stop _ => s end.

Definition demo_boot : fstate := FState ∅ {[1 := replicate 128 0]} 1 ∅ [].
Definition demo_open : fstate :=
  after demo_boot [4096] (Open (0, (7, 8, 9)) 0 O_RDWR (other_fop 3) 0).
Definition demo_dup : fstate := after demo_open [] (Dup 0).

Lemma demo_open_reachable : reachable demo_open.
Proof.
  apply (r_call demo_boot [4096] (Open (0, (7, 8, 9)) 0 O_RDWR (other_fop 3) 0)).
  - apply r_boot.
  - split; [by apply (bool_decide_eq_true_1 _); vm_compute|]. intros a Ha _.
    apply list_elem_of_singleton in Ha as ->. split; vm_compute; reflexivity.
  - done.
  - vm_compute. reflexivity.
Qed.

Lemma demo_dup_reachable : reachable demo_dup.
Proof.
  apply (r_call demo_open [] (Dup 0)).
  - apply demo_open_reachable.
  - split; [apply NoDup_nil_2|]. intros a []%not_elem_of_nil.
  - unfold call_ok, fd_ok. lia.
  - vm_compute. reflexivity.
Qed.

Lemma file_counts_exact_witness :
  ∃ s', run_call (Dup2 0 5) (with_avail [] demo_dup) = Ok (tt, s') ∧
    match files s' !! 4096 with
    | Some f => f_count f = refs (tabs s') 4096 ∧ 0 < refs (tabs s') 4096
    | None => refs (tabs s') 4096 = 0
    end.
Proof.
  destruct (file_counts_exact demo_dup [] (Dup2 0 5)) as (s' & Hrun & Hp).
  - apply demo_dup_reachable.
  - split; [apply NoDup_nil_2|]. intros a []%not_elem_of_nil.
  - unfold call_ok, fd_ok. lia.
  - exists s'. split; [exact Hrun|]. apply Hp. lia.
Defined.

Definition demo_forking : fstate := with_avail [8192; 12288] demo_dup.

Lemma fork_exit_restores_witness :
  ∃ s1 s2, copy_files demo_forking = Ok ((0, 12288), s1) ∧
    exit_files (set_cur 12288 s1) = Ok (tt, s2) ∧ files s2 = files demo_forking.
Proof.
  destruct (fork_exit_restores demo_forking 12288
    (forked demo_forking 12288 ([4096; 4096] ++ replicate 126 0) [])) as (s2 & H2 & HF & _).
  - apply counted_avail, reachable_counted, demo_dup_reachable.
  - split; [by apply (bool_decide_eq_true_1 _); vm_compute|]. intros a Ha _.
    apply list_elem_of_In in Ha as [<-|[<-|[]]]; split; vm_compute; reflexivity.
  - vm_compute. reflexivity.
  - vm_compute. reflexivity.
  - eexists _, s2. split; [|split; [exact H2|exact HF]]. vm_compute. reflexivity.
Defined.

(** ** A pipe that cannot be made

    When the second descriptor cannot be made the first stays in the table, naming a
    file whose count is 0: the next [deref_file] of it wraps the count to [2^32 - 1]
    and never frees the file. *)
Theorem failed_pipe_leaves_descriptor :
  ∃ s', pipe 0 (with_avail [4096] demo_boot) = Ok ((- ENFILE, (0, 0)), s') ∧
    files s' !! 4096 = Some null_file ∧ refs (tabs s') 4096 = 1.
Proof. eexists. split; [reflexivity|]. split; vm_compute; reflexivity. Qed.

(** [close] leaves the descriptor open. *)
Theorem close_keeps_the_descriptor s fd s' : close fd s = Ok (tt, s') → s' = s.
Proof.
  unfold close, find_file, fd_get, get, of_option, mbind, M_bind, mret, M_ret.
  destruct (tabs s !! cur s) as [l|]; [|done]. case_bool_decide; [|done].
  destruct (l !! Z.to_nat fd); [|done]. by case_bool_decide; intros [= <-].
Qed.
