(* ===== verification/Sched.v ===== *)
(** * Scheduling: kernel/sched.c, and the life of a task around it

    kernel/sched.c, kernel/time.c, kernel/syscall/wait.c, exit and its parts in
    kernel/syscall/exit.c, pid2task and task_run in kernel/task.c, sys_exit in
    kernel/trap/syscall.c, and the timer interrupt in kernel/trap.

    The run queue of the processor is a linked list of the interface [LinkedLists],
    whose head [rq] is [&thisrq->head]; the node of a task is [list_off] bytes into
    its [task_struct].  [task_run] gives the processor away and never returns, so
    that whatever comes after it in the code is dead: an operation that can end that
    way answers a [flow].  [exit_mm] and [exit_files] act on the state [R] of other
    components. *)

From S2P Require Import Prelude KList Pidmap.

Local Open Scope Z_scope.

Definition TASK_RUNNING : Z := 0.
Definition TASK_INTERRUPTIBLE : Z := 1.
Definition _NEED_RESCHED : Z := 1.
Definition EINVAL : Z := 22.
Definition EBADP : Z := 35.

Record task_struct := Task {
  pid : Z; ppid : Z; task_status : Z; timeslice : Z; flags : Z; pwait : Z }.

Definition with_status (v : Z) (t : task_struct) : task_struct :=
  Task (pid t) (ppid t) v (timeslice t) (flags t) (pwait t).
Definition with_timeslice (v : Z) (t : task_struct) : task_struct :=
  Task (pid t) (ppid t) (task_status t) v (flags t) (pwait t).
Definition with_flags (v : Z) (t : task_struct) : task_struct :=
  Task (pid t) (ppid t) (task_status t) (timeslice t) v (pwait t).
Definition with_pwait (v : Z) (t : task_struct) : task_struct :=
  Task (pid t) (ppid t) (task_status t) (timeslice t) (flags t) v.

(** An operation returns a value, or another task has the processor. *)
Inductive flow := Return (v : Z) | Resumed.

Section sched.
Context {H R : Type} `{LinkedLists H} (rq list_off : Z).
Context (exit_mm exit_files : Z → R → outcome R).

Record sstate := SState {
  lists : H;
  tasks : gmap Z task_struct;
  curtask : Z;
  task_pidmap : gmap Z Z;
  pids : pidmap;
  jiffies : Z;
  rest : R }.

Definition set_lists (h : H) (s : sstate) : sstate :=
  SState h (tasks s) (curtask s) (task_pidmap s) (pids s) (jiffies s) (rest s).
Definition set_tasks (m : gmap Z task_struct) (s : sstate) : sstate :=
  SState (lists s) m (curtask s) (task_pidmap s) (pids s) (jiffies s) (rest s).
Definition set_curtask (t : Z) (s : sstate) : sstate :=
  SState (lists s) (tasks s) t (task_pidmap s) (pids s) (jiffies s) (rest s).

Definition node (t : Z) : Z := t + list_off.

(** A list operation on the run queue. *)
Definition on_lists {A} (m : M H A) : M sstate A := λ s,
  match m (lists s) with Ok (a, h) => Ok (a, set_lists h s) | Stop w => Stop w end.

Definition load_task (t : Z) : M sstate task_struct := s ← get; of_option (tasks s !! t).
Definition edit_task (t : Z) (g : task_struct → task_struct) : M sstate unit :=
  k ← load_task t;
  modify (λ s, set_tasks (<[t := g k]> (tasks s)) s).

(** [task_pidmap[pid]]: an array of [PID_MAX_DEFAULT] pointers. *)
Definition pidmap_get (pid : Z) : M sstate Z :=
  s ← get;
  if bool_decide (0 ≤ pid < PID_MAX_DEFAULT) then mret (default 0 (task_pidmap s !! pid)) else fault.

Definition pidmap_clear (pid : Z) : M sstate unit :=
  pidmap_get pid ;;
  modify (λ s, SState (lists s) (tasks s) (curtask s) (<[pid := 0]> (task_pidmap s)) (pids s)
                 (jiffies s) (rest s)).

(** ** kernel/sched.c *)

Definition schedule_add_task (task : Z) : M sstate unit := on_lists (ll_add_tail (node task) rq).
Definition schedule_delete_task (task : Z) : M sstate unit := on_lists (ll_del (node task)).

Definition schedule_tick : M sstate unit :=
  s ← get;
  let cur := curtask s in
  edit_task cur (λ t, with_timeslice (i32 (timeslice t - 1)) t) ;;
  t ← load_task cur;
  if bool_decide (timeslice t ≤ 0) then
    edit_task cur (λ t, with_flags (Z.lor (flags t) _NEED_RESCHED) t) ;;
    edit_task cur (with_timeslice 3) ;;
    schedule_delete_task cur ;;
    schedule_add_task cur
  else mret tt.

Definition need_resched (t : task_struct) : bool :=
  negb (bool_decide (Z.land (flags t) _NEED_RESCHED = 0)).

Definition get_next : M sstate Z :=
  s ← get;
  let cur := curtask s in
  (if bool_decide (cur ≠ 0) then
     t ← load_task cur;
     if need_resched t then
       edit_task cur (λ t, with_flags (Z.land (flags t) (Z.lnot _NEED_RESCHED)) t)
     else mret tt
   else mret tt) ;;
  e ← on_lists (ll_empty rq);
  if (e : bool) then panic
  else n ← on_lists (ll_first rq); mret (n - list_off).

(** [task_run] of kernel/task.c: the page tables of the task are loaded and its
    frame is popped. *)
Definition task_run (task : Z) : M sstate unit :=
  load_task task ;; modify (set_curtask task).

Definition schedule : M sstate unit :=
  s ← get;
  let cur := curtask s in
  stay ← (if bool_decide (cur ≠ 0) then
            t ← load_task cur;
            mret (bool_decide (task_status t = TASK_RUNNING) && negb (need_resched t))
          else mret false);
  if (stay : bool) then task_run cur
  else next ← get_next; task_run next.

(** ** The timer interrupt: kernel/time.c, kernel/trap/irq_timer.c, trap.c *)

Definition time_tick : M sstate unit :=
  modify (λ s, SState (lists s) (tasks s) (curtask s) (task_pidmap s) (pids s)
                 (u32 (jiffies s + 1)) (rest s)).

Definition timer_handler : M sstate unit := time_tick ;; schedule_tick.

(** [trap] for a timer interrupt of a user program. *)
Definition trap_timer : M sstate unit :=
  s ← get;
  assert (bool_decide (curtask s ≠ 0)) ;;
  timer_handler ;;
  schedule.

(** ** Waiting and exiting *)

Definition wait (pid : Z) : M sstate flow :=
  if bool_decide (PID_MAX_DEFAULT < pid) || bool_decide (pid < 0) then mret (Return (- EINVAL))
  else
    task ← pidmap_get pid;
    s ← get;
    valid ← (if bool_decide (task = 0) then mret false
             else
               t ← load_task task;
               c ← load_task (curtask s);
               mret (bool_decide (ppid t = Sched.pid c)));
    if negb valid then mret (Return (- EBADP))
    else
      edit_task task (with_pwait 1) ;;
      edit_task (curtask s) (with_status TASK_INTERRUPTIBLE) ;;
      schedule_delete_task (curtask s) ;;
      schedule ;;
      mret Resumed.

Definition exit_notify (t : Z) : M sstate unit :=
  if bool_decide (t = 0) then mret tt
  else
    k ← load_task t;
    if bool_decide (pwait k ≠ 0) then
      p ← pidmap_get (ppid k);
      edit_task p (with_status TASK_RUNNING) ;;
      schedule_add_task p
    else mret tt.

(** [free_pidmap] of Pidmap, on the map of this state; and the end of the memory of
    the task. *)
Definition on_pids (f : pidmap → outcome pidmap) : M sstate unit := λ s,
  match f (pids s) with
  | Ok m => Ok (tt, SState (lists s) (tasks s) (curtask s) (task_pidmap s) m (jiffies s) (rest s))
  | Stop w => Stop w
  end.

Definition exit_task (task : Z) : M sstate unit :=
  if bool_decide (task = 0) then mret tt
  else
    k ← load_task task;
    (if bool_decide (0 ≤ pid k) then pidmap_clear (pid k) ;; on_pids (free_pidmap (pid k))
     else mret tt) ;;
    modify (λ s, set_tasks (delete task (tasks s)) s).

Definition on_rest (f : R → outcome R) : M sstate unit := λ s,
  match f (rest s) with
  | Ok r => Ok (tt, SState (lists s) (tasks s) (curtask s) (task_pidmap s) (pids s) (jiffies s) r)
  | Stop w => Stop w
  end.

Definition exit (task : Z) : M sstate flow :=
  assert (bool_decide (task ≠ 0)) ;;
  schedule_delete_task task ;;
  exit_notify task ;;
  on_rest (exit_mm task) ;;
  on_rest (exit_files task) ;;
  exit_task task ;;
  s ← get;
  if bool_decide (task = curtask s) then
    modify (set_curtask 0) ;;
    schedule ;;
    mret Resumed
  else mret (Return 0).

Definition pid2task (pid : Z) (checkperm : bool) : M sstate (Z * Z) :=
  assert (bool_decide (0 ≤ pid)) ;;
  assert (bool_decide (pid < PID_MAX_DEFAULT)) ;;
  s ← get;
  if bool_decide (pid = 0) then mret (0, curtask s)
  else
    task ← pidmap_get pid;
    if bool_decide (task = 0) then mret (- EBADP, 0)
    else
      t ← load_task task;
      if bool_decide (Sched.pid t ≠ pid) then mret (- EBADP, 0)
      else
        denied ← (if checkperm && bool_decide (task ≠ curtask s) then
                    c ← load_task (curtask s);
                    mret (bool_decide (ppid t ≠ Sched.pid c))
                  else mret false);
        if (denied : bool) then mret (- EBADP, 0) else mret (0, task).

Definition sys_exit (pid : Z) : M sstate flow :=
  r ← pid2task pid true;
  let '(retval, task) := (r : Z * Z) in
  if bool_decide (retval < 0) then mret (Return retval)
  else
    f ← exit task;
    match (f : flow) with
    | Resumed => mret Resumed
    | Return _ => schedule ;; mret Resumed
    end.
End sched.
