(* ===== verification/SchedProofs.v ===== *)
(** * The scheduler is fair

    Proved against the interface of the linked lists.  [ready s Q] says that the run
    queue holds the tasks [Q], all of them runnable, the current task at its head. *)

From S2P Require Import Prelude KList Pidmap Sched.

Local Open Scope Z_scope.

Section fair.
Context {H R : Type} `{LinkedLists H} (rq list_off : Z).

Local Abbreviation sstate := (@sstate H R).
Local Abbreviation node := (node list_off).
Local Abbreviation trap_timer := (trap_timer (R := R) rq list_off).

#[local] Instance node_inj : Inj (=) (=) node.
Proof. intros x y. unfold Sched.node. lia. Qed.

(** ** The queue as a sequence of tasks *)

(** The queue holds [Q]; the nodes of the other tasks, [D] being all of them, are on
    no list. *)
Definition qrep (h : H) (D : gset Z) (Q : list Z) : Prop :=
  ∃ L, ll_rep h L ∧ L !! rq = Some (node <$> Q) ∧
    (∀ t, t ∈ D → node t ≠ rq) ∧
    (∀ t, t ∈ Q → t ∈ D) ∧
    (∀ t, t ∈ D → t ∉ Q → L !! node t = Some []).

Lemma qrep_NoDup h D Q : qrep h D Q → NoDup Q.
Proof.
  intros (L & HL & HQ & _). pose proof (ll_NoDup_law _ _ _ _ HL HQ) as ND.
  apply NoDup_cons in ND as [_ ND]. by eapply NoDup_fmap_1.
Qed.

Lemma qrep_empty h D Q : qrep h D Q → ll_empty rq h = Ok (bool_decide (Q = []), h).
Proof.
  intros (L & HL & HQ & _). rewrite (ll_empty_law _ _ _ _ HL HQ). do 2 f_equal.
  apply bool_decide_ext. split; [apply fmap_nil_inv|by intros ->].
Qed.

Lemma qrep_first h D t Q : qrep h D (t :: Q) → ll_first rq h = Ok (node t, h).
Proof. intros (L & HL & HQ & _). by eapply ll_first_law. Qed.

Lemma qrep_add h D Q t :
  qrep h D Q → t ∈ D → t ∉ Q →
  ∃ h', ll_add_tail (node t) rq h = Ok (tt, h') ∧ qrep h' D (Q ++ [t]).
Proof.
  intros (L & HL & HQ & Hrq & Hin & Hout) Ht Hn.
  destruct (ll_add_tail_law h L (node t) rq (node <$> Q) HL) as (h' & Hrun & HL'); [eauto..|].
  exists h'. split; [done|]. eexists. split; [exact HL'|].
  rewrite lookup_insert_eq, fmap_app. split_and!; [done|done|set_solver|].
  intros u Hu Hun. rewrite lookup_insert_ne by (apply not_eq_sym; eauto).
  rewrite lookup_delete_ne; [apply Hout; set_solver|]. intros E%(inj node). set_solver.
Qed.

Lemma qrep_del h D Q1 t Q2 :
  qrep h D (Q1 ++ t :: Q2) →
  ∃ h', ll_del (node t) h = Ok (tt, h') ∧ qrep h' D (Q1 ++ Q2).
Proof.
  intros Hq. pose proof (qrep_NoDup _ _ _ Hq) as ND.
  destruct Hq as (L & HL & HQ & Hrq & Hin & Hout). rewrite fmap_app in HQ.
  destruct (ll_del_law _ _ _ _ _ _ HL HQ) as (h' & Hrun & HL').
  exists h'. split; [done|]. eexists. split; [exact HL'|].
  assert (Hne : node t ≠ rq) by (apply Hrq, Hin; set_solver).
  rewrite lookup_insert_ne, lookup_insert_eq, fmap_app by done.
  split_and!; [done|done|intros; apply Hin; set_solver|].
  intros u Hu Hun. destruct (decide (u = t)) as [->|Hut]; [apply lookup_insert_eq|].
  rewrite lookup_insert_ne by (intros E%(inj node); done).
  rewrite lookup_insert_ne by (apply not_eq_sym; eauto). apply Hout; set_solver.
Qed.

(** ** Runs of the accesses to a task *)

Lemma load_task_run (s : sstate) t k : tasks s !! t = Some k → load_task t s = Ok (k, s).
Proof. intros Ht. unfold load_task. run_step. by rewrite Ht. Qed.

Lemma edit_task_run (s : sstate) t g k :
  tasks s !! t = Some k → edit_task t g s = Ok (tt, set_tasks (<[t := g k]> (tasks s)) s).
Proof.
  intros Ht. unfold edit_task. by rewrite (bind_Ok _ _ _ _ _ (load_task_run s t k Ht)).
Qed.

Lemma on_lists_run {A} (m : M H A) (s : sstate) a h :
  m (lists s) = Ok (a, h) → on_lists m s = Ok (a, set_lists h s).
Proof. intros Hm. unfold on_lists. by rewrite Hm. Qed.

Lemma dom_edit (s : sstate) t k g : tasks s !! t = Some k → dom (<[t := g]> (tasks s)) = dom (tasks s).
Proof. intros Ht. apply dom_insert_lookup_L. eauto. Qed.

(** ** Runnable tasks *)

Definition runnable (k : task_struct) : Prop :=
  task_status k = TASK_RUNNING ∧ 1 ≤ timeslice k ≤ 3 ∧ Z.land (flags k) _NEED_RESCHED = 0.

(** All but the place of the current task. *)
Definition queued (s : sstate) (Q : list Z) : Prop :=
  qrep (lists s) (dom (tasks s)) Q ∧
  ∀ t, t ∈ Q → t ≠ 0 ∧ ∃ k, tasks s !! t = Some k ∧ runnable k.

Definition ready (s : sstate) (Q : list Z) : Prop :=
  queued s Q ∧ head Q = Some (curtask s).

Definition slice (s : sstate) (t : Z) : Z := from_option timeslice 0 (tasks s !! t).

Lemma runnable_stays k : runnable k → need_resched k = false.
Proof. intros (_ & _ & Hf). unfold need_resched. by rewrite bool_decide_eq_true_2. Qed.

Lemma set_cur_same (s : sstate) : set_curtask (curtask s) s = s.
Proof. by destruct s. Qed.

(** [schedule] lets a runnable task go on. *)
Lemma schedule_stays (s : sstate) k :
  curtask s ≠ 0 → tasks s !! curtask s = Some k → runnable k → schedule rq list_off s = Ok (tt, s).
Proof.
  intros Hc Hk Hr. unfold schedule. run_step. rewrite bool_decide_eq_true_2 by done.
  erewrite bind_Ok. 2: { rewrite (bind_Ok _ _ _ _ _ (load_task_run _ _ _ Hk)). reflexivity. }
  rewrite (runnable_stays _ Hr). destruct Hr as (-> & _ & _). simpl.
  unfold task_run. rewrite (bind_Ok _ _ _ _ _ (load_task_run _ _ _ Hk)).
  unfold modify. by rewrite set_cur_same.
Qed.

(** The tasks after [get_next] took the mark off the current one. *)
Definition yielded (s : sstate) : gmap Z task_struct :=
  match tasks s !! curtask s with
  | Some k =>
      if bool_decide (curtask s ≠ 0) && need_resched k
      then <[curtask s := with_flags (Z.land (flags k) (Z.lnot _NEED_RESCHED)) k]> (tasks s)
      else tasks s
  | None => tasks s
  end.

Lemma dom_yielded s : dom (yielded s) = dom (tasks s).
Proof.
  unfold yielded. destruct (tasks s !! curtask s) as [k|] eqn:Hk; [|done].
  destruct (_ && _); [|done]. by eapply dom_edit.
Qed.

Lemma get_next_run (s : sstate) t Q :
  qrep (lists s) (dom (tasks s)) (t :: Q) → (curtask s = 0 ∨ is_Some (tasks s !! curtask s)) →
  get_next rq list_off s = Ok (t, set_tasks (yielded s) s).
Proof.
  intros Hq Hc. unfold get_next. run_step.
  assert (Hclear : ∀ B (f : unit → M sstate B), ((if bool_decide (curtask s ≠ 0) then
     t ← load_task (curtask s);
     if need_resched t then
       edit_task (curtask s) (λ t, with_flags (Z.land (flags t) (Z.lnot _NEED_RESCHED)) t)
     else mret tt
   else mret tt) ≫= f) s = f tt (set_tasks (yielded s) s)).
  { intros B f. apply bind_Ok. unfold yielded.
    assert (Hid : set_tasks (tasks s) s = s) by by destruct s.
    case_bool_decide as Hc0.
    - destruct Hc as [?|[k Hk]]; [done|]. rewrite Hk, (bind_Ok _ _ _ _ _ (load_task_run _ _ _ Hk)).
      simpl. destruct (need_resched k); [by rewrite (edit_task_run _ _ _ _ Hk)|]. by rewrite Hid.
    - simpl. destruct (tasks s !! curtask s); by rewrite Hid. }
  rewrite Hclear. erewrite bind_Ok by (apply on_lists_run, (qrep_empty _ _ _ Hq)).
  rewrite bool_decide_eq_false_2 by done.
  erewrite bind_Ok by (apply on_lists_run, (qrep_first _ _ _ _ Hq)).
  unfold mret, M_ret, Sched.node. replace (t + list_off - list_off) with t by lia. by destruct s.
Qed.

(** With no current task, or one that must give way, the head of the queue runs. *)
Lemma schedule_switches (s : sstate) t Q :
  qrep (lists s) (dom (tasks s)) (t :: Q) →
  (curtask s = 0 ∨ ∃ k, tasks s !! curtask s = Some k ∧
     (task_status k ≠ TASK_RUNNING ∨ need_resched k = true)) →
  schedule rq list_off s = Ok (tt, set_curtask t (set_tasks (yielded s) s)).
Proof.
  intros Hq Hc. unfold schedule. run_step.
  assert (Hstay : ∀ B (f : bool → M sstate B), ((if bool_decide (curtask s ≠ 0) then
            t ← load_task (curtask s);
            mret (bool_decide (task_status t = TASK_RUNNING) && negb (need_resched t))
          else mret false) ≫= f) s = f false s).
  { intros B f. apply bind_Ok. case_bool_decide as Hc0; [|done].
    destruct Hc as [?|(k & Hk & Hne)]; [done|]. rewrite (bind_Ok _ _ _ _ _ (load_task_run _ _ _ Hk)).
    unfold mret, M_ret. do 2 f_equal. destruct Hne as [Hne| ->]; [|apply andb_false_r].
    by rewrite bool_decide_eq_false_2. }
  rewrite Hstay. rewrite (bind_Ok _ _ _ _ _ (get_next_run s t Q Hq ltac:(naive_solver))).
  unfold task_run.
  assert (is_Some (yielded s !! t)) as [k Hk].
  { apply elem_of_dom. rewrite dom_yielded. destruct Hq as (L & _ & _ & _ & Hin & _).
    apply Hin. set_solver. }
  by rewrite (bind_Ok _ _ _ _ _ (load_task_run (set_tasks (yielded s) s) t k Hk)).
Qed.

(** ** One timer interrupt *)

Definition edit_in (s s' : sstate) (c : Z) : Prop :=
  ∀ t, t ≠ c → tasks s' !! t = tasks s !! t.

Lemma ready_cur s Q : ready s Q → ∃ Q', Q = curtask s :: Q'.
Proof. intros [_ Hh]. destruct Q as [|t Q']; [done|]. injection Hh as ->. eauto. Qed.

Lemma queued_edit (s s' : sstate) Q c k :
  queued s Q → is_Some (tasks s !! c) → lists s' = lists s → tasks s' = <[c := k]> (tasks s) → runnable k →
  queued s' Q.
Proof.
  intros [Hq Hr] [k0 Hc] Hl Ht Hk. split; rewrite Ht.
  - by rewrite Hl, (dom_edit _ _ _ _ Hc).
  - intros t Hin. destruct (Hr t Hin) as (? & k1 & Hk1 & ?). split; [done|].
    destruct (decide (t = c)) as [->|Hne]; [rewrite lookup_insert_eq|rewrite lookup_insert_ne by done]; eauto.
Qed.

Lemma tick_keeps (s : sstate) k :
  tasks s !! curtask s = Some k → 1 < timeslice k ≤ 3 →
  schedule_tick rq list_off s =
    Ok (tt, set_tasks (<[curtask s := with_timeslice (timeslice k - 1) k]> (tasks s)) s).
Proof.
  intros Hk Hts. unfold schedule_tick. run_step.
  rewrite (bind_Ok _ _ _ _ _ (edit_task_run _ _ _ _ Hk)), i32_small by lia.
  erewrite bind_Ok by (apply load_task_run, lookup_insert_eq). simpl.
  by rewrite bool_decide_eq_false_2 by lia.
Qed.

Lemma tick_rotates (s : sstate) k Q :
  tasks s !! curtask s = Some k → timeslice k = 1 →
  qrep (lists s) (dom (tasks s)) (curtask s :: Q) →
  ∃ h, qrep h (dom (tasks s)) (Q ++ [curtask s]) ∧
    schedule_tick rq list_off s =
      Ok (tt, set_lists h (set_tasks (<[curtask s :=
            with_timeslice 3 (with_flags (Z.lor (flags k) _NEED_RESCHED) k)]> (tasks s)) s)).
Proof.
  intros Hk Hts Hq. pose proof (qrep_NoDup _ _ _ Hq) as ND. apply NoDup_cons in ND as [Hn _].
  assert (Hin : curtask s ∈ dom (tasks s)) by (apply elem_of_dom; eauto).
  destruct (qrep_del _ _ [] _ _ Hq) as (h1 & Hd & Hq1).
  destruct (qrep_add _ _ _ _ Hq1 Hin Hn) as (h2 & Ha & Hq2).
  exists h2. split; [done|]. unfold schedule_tick. run_step.
  rewrite (bind_Ok _ _ _ _ _ (edit_task_run _ _ _ _ Hk)), i32_small by lia.
  erewrite bind_Ok by (apply load_task_run, lookup_insert_eq). simpl.
  rewrite bool_decide_eq_true_2 by lia.
  erewrite bind_Ok by (apply edit_task_run, lookup_insert_eq).
  erewrite bind_Ok by (apply edit_task_run, lookup_insert_eq).
  unfold schedule_delete_task, schedule_add_task.
  erewrite bind_Ok by (apply on_lists_run, Hd).
  erewrite on_lists_run by exact Ha. simpl. by rewrite !insert_insert_eq.
Qed.

Lemma marked_clears f : Z.land (Z.land (Z.lor f _NEED_RESCHED) (Z.lnot _NEED_RESCHED)) _NEED_RESCHED = 0.
Proof. rewrite <- Z.land_assoc. apply Z.land_0_r. Qed.

Lemma marked_needs k : need_resched (with_timeslice 3 (with_flags (Z.lor (flags k) _NEED_RESCHED) k)) = true.
Proof.
  unfold need_resched. simpl. rewrite bool_decide_eq_false_2; [done|].
  rewrite Z.land_lor_distr_l. intros [_ E]%Z.lor_eq_0_iff. discriminate.
Qed.

Lemma trap_timer_run (s : sstate) c Q :
  ready s (c :: Q) →
  ∃ s', trap_timer s = Ok (tt, s') ∧ edit_in s s' c ∧
    if bool_decide (slice s c = 1) then ready s' (Q ++ [c]) ∧ slice s' c = 3
    else ready s' (c :: Q) ∧ slice s' c = slice s c - 1.
Proof.
  intros [Hqd Hcur]. simpl in Hcur. injection Hcur as ->. destruct Hqd as [Hq Hr].
  destruct (Hr (curtask s)) as (Hc0 & k & Hk & Hrun); [set_solver|].
  assert (Hsl : slice s (curtask s) = timeslice k) by (unfold slice; by rewrite Hk).
  unfold Sched.trap_timer. run_step. rewrite bool_decide_eq_true_2 by done. run_step.
  unfold timer_handler. rewrite bind_assoc. run_step. set (s0 := SState _ _ _ _ _ _ _).
  destruct (bool_decide_reflect (slice s (curtask s) = 1)) as [H1|H1].
  - destruct (tick_rotates s0 k Q Hk ltac:(lia) Hq) as (h & Hq' & Ht).
    rewrite (bind_Ok _ _ _ _ _ Ht). set (k' := with_timeslice 3 _) in *. set (s1 := set_lists h _).
    assert (Hk1 : tasks s1 !! curtask s1 = Some k') by apply lookup_insert_eq.
    destruct (Q ++ [curtask s]) as [|t Q'] eqn:HQ; [by destruct Q|].
    assert (Hq1 : qrep (lists s1) (dom (tasks s1)) (t :: Q')).
    { cbn -[dom]. rewrite (dom_edit s0 _ _ _ Hk), <- HQ. exact Hq'. }
    rewrite (schedule_switches s1 t Q' Hq1) by (right; exists k'; split; [done|]; right; apply marked_needs).
    set (s2 := set_curtask t _). pose proof (dom_yielded s1) as Hdom.
    assert (Ht2 : tasks s2 = <[curtask s := with_flags (Z.land (flags k') (Z.lnot _NEED_RESCHED)) k']> (tasks s)).
    { cbn. unfold yielded. rewrite Hk1. unfold k' at 1. rewrite marked_needs, bool_decide_eq_true_2 by done.
      simpl. by rewrite insert_insert_eq. }
    exists s2. split; [reflexivity|]. split; [|split; [split; [split|]|]].
    + intros u Hu. rewrite Ht2. by apply lookup_insert_ne.
    + cbn -[dom]. rewrite Hdom. exact Hq1.
    + intros u Hu. rewrite <- HQ in Hu. assert (Hu' : u ∈ curtask s :: Q) by set_solver.
      destruct (Hr u Hu') as (Hu0 & ku & Hku & Hru). split; [done|]. rewrite Ht2.
      destruct (decide (u = curtask s)) as [->|Hne];
        [rewrite lookup_insert_eq|rewrite lookup_insert_ne by done; eauto].
      eexists. split; [done|]. destruct Hru as (? & _ & _). simplify_eq. split_and!; [done|done|done|].
      apply marked_clears.
    + done.
    + unfold slice. by rewrite Ht2, lookup_insert_eq.
  - destruct Hrun as (Hst & Hts & Hfl).
    rewrite (bind_Ok _ _ _ _ _ (tick_keeps s0 k Hk ltac:(lia))).
    set (k' := with_timeslice _ k). set (s1 := set_tasks _ s0).
    assert (Hk' : runnable k') by (split_and!; simpl; [done|lia|lia|done]).
    assert (Hk1 : tasks s1 !! curtask s1 = Some k') by apply lookup_insert_eq.
    rewrite (schedule_stays s1 k' Hc0 Hk1 Hk'). exists s1. split; [reflexivity|].
    split; [|split; [split|]].
    + intros u Hu. by apply lookup_insert_ne.
    + eapply (queued_edit s); [by split|eauto|done..].
    + done.
    + unfold slice at 1. cbn. by rewrite lookup_insert_eq, Hsl.
Qed.

(** ** Rounds *)

Fixpoint ticks (n : nat) : M sstate unit :=
  match n with O => mret tt | S n => trap_timer ;; ticks n end.

Lemma ticks_app n m s s1 : ticks n s = Ok (tt, s1) → ticks (n + m) s = ticks m s1.
Proof.
  revert s. induction n as [|n IH]; intros s Hn; simpl in *; [by injection Hn as ->|].
  apply bind_Ok_inv in Hn as ([] & s2 & H2 & Hn). rewrite (bind_Ok _ _ _ _ _ H2). by apply IH.
Qed.

Lemma edit_in_trans s1 s2 s3 c : edit_in s1 s2 c → edit_in s2 s3 c → edit_in s1 s3 c.
Proof. intros E1 E2 t Ht. by rewrite E2, E1. Qed.

(** The current task keeps the processor until its slice is used up. *)
Lemma ticks_within r (s : sstate) c Q :
  ready s (c :: Q) → Z.of_nat r < slice s c →
  ∃ s', ticks r s = Ok (tt, s') ∧ edit_in s s' c ∧ ready s' (c :: Q) ∧
        slice s' c = slice s c - Z.of_nat r.
Proof.
  revert s. induction r as [|r IH]; intros s Hr Hlt.
  - exists s. split_and!; [done..|lia].
  - destruct (trap_timer_run s c Q Hr) as (s1 & Hrun & He & Hcase).
    rewrite bool_decide_eq_false_2 in Hcase by lia. destruct Hcase as [Hr1 Hs1].
    destruct (IH s1 Hr1 ltac:(lia)) as (s2 & Hrun2 & He2 & Hr2 & Hs2).
    exists s2. split_and!; [|by eapply edit_in_trans|done|lia].
    simpl. by rewrite (bind_Ok _ _ _ _ _ Hrun).
Qed.

(** Then it goes to the end of the queue, with a new slice. *)
Lemma ticks_turn (s : sstate) c Q :
  ready s (c :: Q) →
  ∃ s', ticks (Z.to_nat (slice s c)) s = Ok (tt, s') ∧ edit_in s s' c ∧ ready s' (Q ++ [c]) ∧
        slice s' c = 3.
Proof.
  intros Hr. assert (Hpos : 1 ≤ slice s c).
  { destruct Hr as [[_ Hr] _]. destruct (Hr c) as (_ & k & Hk & _ & ? & _); [set_solver|].
    unfold slice. rewrite Hk. simpl. lia. }
  destruct (ticks_within (Z.to_nat (slice s c - 1)) s c Q Hr) as (s1 & Hrun & He & Hr1 & Hs1); [lia|].
  destruct (trap_timer_run s1 c Q Hr1) as (s2 & Hrun2 & He2 & Hcase).
  rewrite bool_decide_eq_true_2 in Hcase by lia. destruct Hcase as [Hr2 Hs2].
  exists s2. split_and!; [|by eapply edit_in_trans|done|done].
  replace (Z.to_nat (slice s c)) with (Z.to_nat (slice s c - 1) + 1)%nat by lia.
  rewrite (ticks_app _ _ _ _ Hrun). simpl. by rewrite (bind_Ok _ _ _ _ _ Hrun2).
Qed.

(** What the tasks before place [k] have left of their slices. *)
Definition ahead (s : sstate) (Q : list Z) (k : nat) : Z := zsum (slice s <$> take k Q).

Lemma slice_bounds (s : sstate) Q t : ready s Q → t ∈ Q → 1 ≤ slice s t ≤ 3.
Proof.
  intros [[_ Hr] _] Ht. destruct (Hr t Ht) as (_ & k & Hk & _ & ? & _). unfold slice. by rewrite Hk.
Qed.

Lemma ahead_bounds (s : sstate) Q k : ready s Q → 0 ≤ ahead s Q k ≤ 3 * Z.of_nat k.
Proof.
  intros Hr. unfold ahead.
  assert (Hall : ∀ t, t ∈ take k Q → 1 ≤ slice s t ≤ 3)
    by (intros t Ht; eapply slice_bounds; [done|]; apply elem_of_take in Ht as (? & ? & _); by eapply list_elem_of_lookup_2).
  assert (Hlen : (length (take k Q) ≤ k)%nat) by (rewrite length_take; lia).
  assert (Hsum : ∀ l, (∀ t, t ∈ l → 1 ≤ slice s t ≤ 3) → 0 ≤ zsum (slice s <$> l) ≤ 3 * Z.of_nat (length l)).
  { clear. induction l as [|t l IH]; intros Hall; [done|]. rewrite fmap_cons. cbn [zsum foldr length].
    pose proof (Hall t ltac:(set_solver)).
    specialize (IH ltac:(set_solver)). lia. }
  specialize (Hsum _ Hall). lia.
Qed.

Lemma ready_take (s : sstate) Q k t : ready s Q → Q !! k = Some t → t ∉ take k Q.
Proof.
  intros Hr Ht (j & Hj & Hlt)%elem_of_take.
  pose proof (NoDup_lookup _ _ _ _ (qrep_NoDup _ _ _ (proj1 (proj1 Hr))) Hj Ht). lia.
Qed.

Lemma ahead_S s Q k t : Q !! k = Some t → ahead s Q (S k) = ahead s Q k + slice s t.
Proof.
  intros Ht. unfold ahead. rewrite (take_S_r _ _ _ Ht), fmap_app, zsum_app. simpl. lia.
Qed.

Lemma ticks_rotate (s : sstate) Q k :
  ready s Q → (k ≤ length Q)%nat →
  ∃ s', ticks (Z.to_nat (ahead s Q k)) s = Ok (tt, s') ∧ ready s' (drop k Q ++ take k Q) ∧
        ∀ t, t ∉ take k Q → tasks s' !! t = tasks s !! t.
Proof.
  intros Hr. induction k as [|k IH]; intros Hk.
  { exists s. rewrite drop_0, take_0, app_nil_r. by split_and!. }
  destruct (IH ltac:(lia)) as (s1 & Hrun & Hr1 & Hs1).
  destruct (lookup_lt_is_Some_2 Q k) as [t Ht]; [lia|].
  rewrite (drop_S _ _ _ Ht) in Hr1. simpl in Hr1.
  pose proof (ready_take s Q k t Hr Ht) as Hnt.
  assert (Hsl : slice s1 t = slice s t) by (unfold slice; by rewrite Hs1).
  destruct (ticks_turn s1 t _ Hr1) as (s2 & Hrun2 & He2 & Hr2 & _). exists s2.
  pose proof (ahead_bounds s Q k Hr). pose proof (slice_bounds s Q t Hr ltac:(by eapply list_elem_of_lookup_2)).
  rewrite (ahead_S _ _ _ _ Ht), Z2Nat.inj_add by lia. rewrite (ticks_app _ _ _ _ Hrun), <- Hsl.
  rewrite (take_S_r _ _ _ Ht). split_and!; [done|by rewrite (assoc_L app)|].
  intros u Hu. rewrite He2, Hs1 by set_solver. done.
Qed.

(** C18: the scheduler is round-robin.  Whatever the slices of the tasks, the task at
    place [k] of the run queue gets the processor after exactly the timer interrupts
    that the tasks before it have left, at most [3 * k] of them, and keeps it for its
    whole slice, while the queue is the old one turned by [k] places; no interrupt on
    the way panics or faults. *)
Theorem round_robin (s : sstate) Q k t r :
  ready s Q → Q !! k = Some t → 0 ≤ r < slice s t →
  0 ≤ ahead s Q k ≤ 3 * Z.of_nat k ∧
  ∃ s', ticks (Z.to_nat (ahead s Q k + r)) s = Ok (tt, s') ∧ curtask s' = t ∧
        ready s' (drop k Q ++ take k Q).
Proof.
  intros Hr Ht Hrr. pose proof (ahead_bounds s Q k Hr) as Hb. split; [done|].
  pose proof (lookup_lt_Some _ _ _ Ht) as Hlt.
  destruct (ticks_rotate s Q k Hr ltac:(lia)) as (s1 & Hrun & Hr1 & Hs1).
  rewrite (drop_S _ _ _ Ht) in *. simpl in Hr1.
  pose proof (ready_take s Q k t Hr Ht) as Hnt.
  destruct (ticks_within (Z.to_nat r) s1 t _ Hr1) as (s2 & Hrun2 & _ & Hr2 & _).
  { unfold slice. rewrite Hs1 by done. fold (slice s t). lia. }
  exists s2. rewrite Z2Nat.inj_add by lia. rewrite (ticks_app _ _ _ _ Hrun). split_and!; [done| |done].
  destruct Hr2 as [_ Hh]. by injection Hh as <-.
Qed.

(** ** Waiting for a child and exiting *)

(** A task that sleeps: its node is on no list. *)
Definition asleep (s : sstate) (p : Z) (kp : task_struct) (Q : list Z) : Prop :=
  p ≠ 0 ∧ p ∉ Q ∧ tasks s !! p = Some kp ∧ 1 ≤ timeslice kp ≤ 3 ∧
  Z.land (flags kp) _NEED_RESCHED = 0.

(** [t] is the task of the id [n]. *)
Definition has_pid (s : sstate) (n t : Z) : Prop :=
  0 ≤ n < PID_MAX_DEFAULT ∧ task_pidmap s !! n = Some t.

Lemma pidmap_get_run s n t : has_pid s n t → pidmap_get n s = Ok (t, s).
Proof.
  intros [Hn Ht]. unfold pidmap_get. run_step. rewrite bool_decide_eq_true_2 by done. by rewrite Ht.
Qed.

Lemma yielded_calm (s : sstate) : (∀ k, tasks s !! curtask s = Some k → need_resched k = false) → yielded s = tasks s.
Proof.
  intros Hc. unfold yielded. destruct (tasks s !! curtask s) as [k|]; [|done].
  by rewrite Hc, andb_false_r.
Qed.

(** Changes to the tasks that keep those of [Q] runnable keep the queue. *)
Lemma queued_tasks (s s' : sstate) Q :
  queued s Q → lists s' = lists s → dom (tasks s') = dom (tasks s) →
  (∀ t k, t ∈ Q → tasks s !! t = Some k → runnable k → ∃ k', tasks s' !! t = Some k' ∧ runnable k') →
  queued s' Q.
Proof.
  intros [Hq Hr] Hl Hd Hk. split; [by rewrite Hl, Hd|]. intros t Ht.
  destruct (Hr t Ht) as (? & k & ? & ?). eauto.
Qed.

(** A task that waits for a child of its goes to sleep off the run queue, the
    child knowing that it is waited for, and the next task of the queue has the
    processor; no other task changes. *)
Theorem wait_blocks (s : sstate) p kp c kc n t Q :
  ready s (p :: t :: Q) → tasks s !! p = Some kp → has_pid s n c → c ≠ 0 → c ≠ p →
  tasks s !! c = Some kc → ppid kc = pid kp →
  ∃ s', wait rq list_off n s = Ok (Resumed, s') ∧ ready s' (t :: Q) ∧
    tasks s' = <[p := with_status TASK_INTERRUPTIBLE kp]> (<[c := with_pwait 1 kc]> (tasks s)) ∧
    task_pidmap s' = task_pidmap s ∧ pids s' = pids s ∧ rest s' = rest s.
Proof.
  intros [[Hq Hr] Hh] Hp Hn Hc0 Hcp Hc Hpp. simpl in Hh. injection Hh as Hcur.
  destruct Hn as [Hn Hmap]. unfold wait.
  rewrite (bool_decide_eq_false_2 (PID_MAX_DEFAULT < n)), (bool_decide_eq_false_2 (n < 0)) by lia.
  cbn [orb]. cbv iota. rewrite (bind_Ok _ _ _ _ _ (pidmap_get_run s n c (conj Hn Hmap))). run_step.
  rewrite (bool_decide_eq_false_2 (c = 0)) by done. subst p.
  erewrite bind_Ok.
  2: { rewrite (bind_Ok _ _ _ _ _ (load_task_run _ _ _ Hc)), (bind_Ok _ _ _ _ _ (load_task_run _ _ _ Hp)).
       reflexivity. }
  rewrite bool_decide_eq_true_2 by done. cbn [negb]. cbv beta iota.
  rewrite (bind_Ok _ _ _ _ _ (edit_task_run _ _ _ _ Hc)).
  erewrite bind_Ok by (apply edit_task_run; cbn; rewrite lookup_insert_ne by done; exact Hp).
  destruct (qrep_del _ _ [] _ _ Hq) as (h & Hd & Hq1). unfold schedule_delete_task.
  erewrite bind_Ok by (apply on_lists_run, Hd). set (s1 := set_lists h _).
  assert (Hdom : dom (tasks s1) = dom (tasks s)).
  { cbn -[dom]. rewrite !dom_insert_lookup_L; [done|eauto|]. rewrite lookup_insert_ne by done. eauto. }
  assert (Hcur1 : tasks s1 !! curtask s1 = Some (with_status TASK_INTERRUPTIBLE kp)) by apply lookup_insert_eq.
  destruct (Hr (curtask s)) as (_ & k & ? & Hrun); [set_solver|]. simplify_eq.
  assert (Hy : yielded s1 = tasks s1).
  { apply yielded_calm. intros k' Hk'. simplify_eq. apply (runnable_stays kp Hrun). }
  rewrite <- Hdom in Hq1.
  rewrite (bind_Ok _ _ _ _ _ (schedule_switches s1 t Q Hq1 ltac:(right; eexists; split; [exact Hcur1|by left]))).
  eexists. split; [reflexivity|]. cbn -[dom]. rewrite Hy. split; [|done].
  split; [|done]. split; [exact Hq1|].
  pose proof (qrep_NoDup _ _ _ Hq) as [Hnp _]%NoDup_cons. intros u Hu.
  destruct (Hr u ltac:(set_solver)) as (Hu0 & ku & Hku & Hru). split; [done|]. cbn.
  rewrite lookup_insert_ne by set_solver.
  destruct (decide (u = c)) as [->|Hne]; [rewrite lookup_insert_eq|rewrite lookup_insert_ne by done; eauto].
  eexists. split; [done|]. by simplify_eq.
Qed.

(** [exit_notify] of a task whose parent waits. *)
Lemma exit_notify_run (s : sstate) c kc p kp Q :
  qrep (lists s) (dom (tasks s)) Q → c ≠ 0 → tasks s !! c = Some kc → pwait kc ≠ 0 →
  has_pid s (ppid kc) p → asleep s p kp Q →
  ∃ h, qrep h (dom (tasks s)) (Q ++ [p]) ∧
    exit_notify rq list_off c s =
      Ok (tt, set_lists h (set_tasks (<[p := with_status TASK_RUNNING kp]> (tasks s)) s)).
Proof.
  intros Hq Hc0 Hc Hw Hpp (Hp0 & Hpn & Hp & _).
  destruct (qrep_add _ _ _ p Hq) as (h & Ha & Hq'); [by apply elem_of_dom_2 in Hp|done|].
  exists h. split; [done|]. unfold exit_notify. rewrite (bool_decide_eq_false_2 (c = 0)) by done.
  rewrite (bind_Ok _ _ _ _ _ (load_task_run _ _ _ Hc)), bool_decide_eq_true_2 by done.
  rewrite (bind_Ok _ _ _ _ _ (pidmap_get_run _ _ _ Hpp)).
  rewrite (bind_Ok _ _ _ _ _ (edit_task_run _ _ _ _ Hp)). by apply on_lists_run.
Qed.

Definition freed (s : sstate) (c n : Z) (m : pidmap) : sstate :=
  SState (lists s) (delete c (tasks s)) (curtask s) (<[n := 0]> (task_pidmap s)) m (jiffies s) (rest s).

Lemma exit_task_run (s : sstate) c kc m :
  c ≠ 0 → tasks s !! c = Some kc → 0 ≤ pid kc < PID_MAX_DEFAULT →
  free_pidmap (pid kc) (pids s) = Ok m →
  exit_task c s = Ok (tt, freed s c (pid kc) m).
Proof.
  intros Hc0 Hc Hn Hm. unfold exit_task. rewrite (bool_decide_eq_false_2 (c = 0)) by done.
  rewrite (bind_Ok _ _ _ _ _ (load_task_run _ _ _ Hc)), (bool_decide_eq_true_2 (0 ≤ pid kc)) by lia.
  unfold pidmap_clear, pidmap_get. rewrite !bind_assoc. run_step.
  rewrite bool_decide_eq_true_2 by done. do 2 run_step. unfold on_pids at 1.
  unfold mbind at 1, M_bind at 1. cbn [pids]. by rewrite Hm.
Qed.

Lemma qrep_shrink h D Q c : qrep h D Q → c ∉ Q → qrep h (D ∖ {[c]}) Q.
Proof.
  intros (L & HL & HQ & H1 & H2 & H3) Hc. exists L. split_and!; [done|done|set_solver| |set_solver].
  intros t Ht. apply elem_of_difference. set_solver.
Qed.

(** The queue after a wake-up and the end of [c]. *)
Lemma woken_runnable (s : sstate) c p kp Q :
  (∀ u, u ∈ Q → u ≠ 0 ∧ ∃ k, tasks s !! u = Some k ∧ runnable k) → asleep s p kp (c :: Q) → c ∉ Q →
  ∀ u, u ∈ Q ++ [p] → u ≠ 0 ∧
    ∃ k, delete c (<[p := with_status TASK_RUNNING kp]> (tasks s)) !! u = Some k ∧ runnable k.
Proof.
  intros Hr (Hp0 & Hpn & Hp & Hts & Hfl) Hc u Hu.
  rewrite lookup_delete_ne by set_solver. destruct (decide (u = p)) as [->|Hne].
  - split; [done|]. rewrite lookup_insert_eq. by eexists.
  - rewrite lookup_insert_ne by done. apply Hr. set_solver.
Qed.

Context (exit_mm exit_files : Z → R → outcome R).

Lemma exit_wakes_ok (s : sstate) c kc p kp t Q r1 r2 :
  ready s (c :: t :: Q) → tasks s !! c = Some kc → pwait kc ≠ 0 →
  has_pid s (ppid kc) p → asleep s p kp (c :: t :: Q) →
  has_pid s (pid kc) c → pid_inv (pids s) → used (page (pids s)) (pid kc) = true →
  exit_mm c (rest s) = Ok r1 → exit_files c r1 = Ok r2 →
  ∃ s', exit rq list_off exit_mm exit_files c s = Ok (Resumed, s') ∧
    ready s' ((t :: Q) ++ [p]) ∧
    tasks s' = delete c (<[p := with_status TASK_RUNNING kp]> (tasks s)) ∧
    task_pidmap s' = <[pid kc := 0]> (task_pidmap s) ∧
    pid_inv (pids s') ∧ used (page (pids s')) (pid kc) = false ∧ rest s' = r2.
Proof.
  intros [[Hq Hr] Hh] Hc Hw Hpp Hp Hcc Hpi Hu Hm Hf. simpl in Hh. injection Hh as Hcur.
  pose proof (qrep_NoDup _ _ _ Hq) as [Hnc ND]%NoDup_cons.
  destruct (Hr c) as (Hc0 & _); [set_solver|].
  assert (Hp' : asleep s p kp (t :: Q)) by (unfold asleep in *; set_solver).
  assert (Hpc : p ≠ c) by (destruct Hp as (_ & Hn & _); set_solver).
  destruct (free_pidmap_ok (pids s) (pid kc) Hpi (proj1 Hcc) Hu) as (m & Hfree & Hpi' & _ & _ & Hused).
  unfold exit. rewrite (bool_decide_eq_true_2 (c ≠ 0)) by done. run_step.
  destruct (qrep_del _ _ [] _ _ Hq) as (h1 & Hd & Hq1). unfold schedule_delete_task.
  erewrite bind_Ok by (apply on_lists_run, Hd). set (s1 := set_lists h1 s).
  destruct (exit_notify_run s1 c kc p kp (t :: Q)) as (h2 & Hq2 & Hn); [done..|].
  rewrite (bind_Ok _ _ _ _ _ Hn). set (s2 := set_lists h2 _).
  erewrite bind_Ok by (unfold on_rest; cbn [s2 rest set_lists set_tasks s1]; rewrite Hm; reflexivity).
  erewrite bind_Ok by (unfold on_rest; cbn [rest]; rewrite Hf; reflexivity). set (s3 := SState _ _ _ _ _ _ r2).
  assert (Hc3 : tasks s3 !! c = Some kc) by (cbn; by rewrite lookup_insert_ne).
  rewrite (bind_Ok _ _ _ _ _ (exit_task_run s3 c kc m Hc0 Hc3 (proj1 Hcc) Hfree)). run_step.
  rewrite bool_decide_eq_true_2 by (cbn; congruence). run_step.
  set (s4 := set_curtask 0 _).
  assert (Hq4 : qrep (lists s4) (dom (tasks s4)) ((t :: Q) ++ [p])).
  { cbn -[dom app]. rewrite dom_delete_L, dom_insert_lookup_L by (destruct Hp as (_ & _ & ? & _); eauto).
    apply qrep_shrink; [exact Hq2|set_solver]. }
  rewrite (bind_Ok _ _ _ _ _ (schedule_switches s4 t (Q ++ [p]) Hq4 (or_introl eq_refl))).
  assert (Hy : yielded s4 = tasks s4).
  { unfold yielded. rewrite bool_decide_eq_false_2 by (intros Hne; by apply Hne). simpl.
    by destruct (delete _ _ !! _). }
  rewrite Hy. eexists. split; [reflexivity|]. split_and!; [split; [split|]|done|done|done| |done].
  - exact Hq4.
  - apply (woken_runnable s c); [|done..]. intros u Hu'. apply Hr. set_solver.
  - done.
  - rewrite Hused, Z.eqb_refl by apply Hcc. done.
Qed.
(** When the current task exits while its parent waits for it, the parent is
    runnable again, at the end of the run queue; the exiting task is on no queue, in
    no table, and its memory and process id are free, the descriptors and the address
    space having been released; the head of the queue has the processor.  Nothing of
    the other tasks changes. *)
Theorem exit_wakes_parent (s : sstate) c kc p kp t Q r1 r2 :
  ready s (c :: t :: Q) → tasks s !! c = Some kc → pwait kc ≠ 0 →
  has_pid s (ppid kc) p → asleep s p kp (c :: t :: Q) →
  has_pid s (pid kc) c → pid_inv (pids s) → used (page (pids s)) (pid kc) = true →
  exit_mm c (rest s) = Ok r1 → exit_files c r1 = Ok r2 →
  ∃ s', exit rq list_off exit_mm exit_files c s = Ok (Resumed, s') ∧
    ready s' ((t :: Q) ++ [p]) ∧
    tasks s' = delete c (<[p := with_status TASK_RUNNING kp]> (tasks s)) ∧
    task_pidmap s' = <[pid kc := 0]> (task_pidmap s) ∧
    pid_inv (pids s') ∧ used (page (pids s')) (pid kc) = false ∧ rest s' = r2.
Proof. apply exit_wakes_ok. Qed.
End fair.

(** ** Two tasks on the lists of list.h *)

(** Their nodes 20 and 30 are 4 bytes into the tasks 16 and 26; the task 36 with the
    node 40 is off the queue. *)
Definition demo_tasks : gmap Z task_struct :=
  list_to_map [(16, Task 1 0 TASK_RUNNING 2 0 1); (26, Task 2 1 TASK_RUNNING 3 0 0);
               (36, Task 0 0 TASK_INTERRUPTIBLE 1 0 0)].

Definition next_pids (st : pidmap) : pidmap :=
  match alloc_pidmap st with Ok (_, st') => st' | Stop _ => st end.

Definition demo_pids : pidmap := next_pids (next_pids pidmap_init).

Lemma demo_pids_run : pid_run demo_pids ({[1]} ∪ ({[0]} ∪ ∅)).
Proof.
  apply (run_alloc (next_pids pidmap_init) _ 1); [|by vm_compute|lia].
  apply (run_alloc pidmap_init _ 0); [constructor|by vm_compute|lia].
Qed.

Definition demo_sched : @sstate lheap unit :=
  SState demo_ring demo_tasks 16 (list_to_map [(0, 36); (1, 16); (2, 26)]) demo_pids 0 tt.

Lemma demo_ready : ready 10 4 demo_sched [16; 26].
Proof.
  split; [split|done].
  - exists {[10 := [20; 30]; 40 := []]}. split_and!.
    + split.
      * intros hd xs Hx. apply lookup_insert_Some in Hx as [[<- <-]|[_ Hx]]; [apply demo_ring_ok|].
        apply lookup_singleton_Some in Hx as [<- <-]. split; [apply NoDup_singleton|]. by vm_compute.
      * intros hd xs hd' xs' x H1 H2 Hx Hx'.
        apply lookup_insert_Some in H1 as [[<- <-]|[_ [<- <-]%lookup_singleton_Some]];
          apply lookup_insert_Some in H2 as [[<- <-]|[_ [<- <-]%lookup_singleton_Some]]; set_solver.
    + done.
    + apply (bool_decide_eq_true_1 (set_Forall (λ t, node 4 t ≠ 10) (dom demo_tasks))). by vm_compute.
    + apply Forall_forall. repeat constructor; apply elem_of_dom; by vm_compute.
    + intros t [k Ht]%elem_of_dom Hn.
      assert (t = 36) as ->; [|done].
      apply elem_of_list_to_map_2, list_elem_of_In in Ht as [[= <-]|[[= <-]|[[= <-]|[]]]]; set_solver.
  - apply Forall_forall. repeat constructor; try done; eexists; (split; [vm_compute; reflexivity|]);
      split_and!; simpl; done || lia.
Qed.

Lemma round_robin_witness :
  ∃ s', ticks 10 4 3 demo_sched = Ok (tt, s') ∧ curtask s' = 26.
Proof.
  destruct (round_robin 10 4 demo_sched [16; 26] 1 26 1 demo_ready eq_refl) as (_ & s' & Hrun & Hc & _).
  - split; [lia|]. vm_compute. reflexivity.
  - exists s'. split; [exact Hrun|exact Hc].
Defined.

Lemma wait_blocks_witness :
  ∃ s', wait 10 4 2 demo_sched = Ok (Resumed, s') ∧ ready 10 4 s' [26].
Proof.
  destruct (wait_blocks 10 4 demo_sched 16 (Task 1 0 TASK_RUNNING 2 0 1) 26
    (Task 2 1 TASK_RUNNING 3 0 0) 2 26 [] demo_ready) as (s' & Hrun & Hr & _).
  - vm_compute. reflexivity.
  - split; [split; [lia|]|]; vm_compute; reflexivity.
  - lia.
  - lia.
  - vm_compute. reflexivity.
  - reflexivity.
  - exists s'. split; [exact Hrun|exact Hr].
Defined.

Lemma exit_wakes_parent_witness :
  ∃ s', exit 10 4 (λ _ r, Ok r) (λ _ r, Ok r) 16 demo_sched = Ok (Resumed, s') ∧
        ready 10 4 s' [26; 36].
Proof.
  destruct (pid_run_inv _ _ demo_pids_run) as (Hpi & _ & Hu).
  destruct (exit_wakes_parent 10 4 (λ _ r, Ok r) (λ _ r, Ok r) demo_sched 16
    (Task 1 0 TASK_RUNNING 2 0 1) 36 (Task 0 0 TASK_INTERRUPTIBLE 1 0 0) 26 [] tt tt demo_ready)
    as (s' & Hrun & Hr & _).
  - vm_compute. reflexivity.
  - simpl. lia.
  - split; [split; [simpl; lia|]|]; vm_compute; reflexivity.
  - split_and!; [lia|set_solver|vm_compute; reflexivity|simpl; lia|simpl; lia|reflexivity].
  - split; [split; [simpl; lia|]|]; vm_compute; reflexivity.
  - exact Hpi.
  - vm_compute. reflexivity.
  - reflexivity.
  - reflexivity.
  - exists s'. split; [exact Hrun|exact Hr].
Defined.

(** ** A child that outlives the parent that waits for it

    When the parent is killed while it waits, its slot of [task_pidmap] is NULL, and
    [exit_notify] of the child writes through the pointer all the same. *)
Theorem orphan_exit_faults {H R} `{LinkedLists H} rq list_off c kc (s : @sstate H R) :
  c ≠ 0 → tasks s !! c = Some kc → pwait kc ≠ 0 → 0 ≤ ppid kc < PID_MAX_DEFAULT →
  task_pidmap s !! ppid kc = Some 0 → tasks s !! 0 = None →
  exit_notify rq list_off c s = Stop Faulted.
Proof.
  intros Hc0 Hc Hw Hpp Hm Hnull. unfold exit_notify. rewrite (bool_decide_eq_false_2 (c = 0)) by done.
  rewrite (bind_Ok _ _ _ _ _ (load_task_run _ _ _ Hc)), bool_decide_eq_true_2 by done.
  rewrite (bind_Ok _ _ _ _ _ (pidmap_get_run s _ 0 (conj Hpp Hm))).
  apply bind_Stop. unfold edit_task. apply bind_Stop. unfold load_task. run_step. by rewrite Hnull.
Qed.

(** [wait] lets the id 32768 pass, one past the end of the table. *)
Theorem wait_reads_past_the_table {H R} `{LinkedLists H} rq list_off (s : @sstate H R) :
  wait rq list_off PID_MAX_DEFAULT s = Stop Faulted.
Proof. reflexivity. Qed.
