(* ===== verification/Fault.v ===== *)
(** * Page faults and the check of user memory: kernel/trap/page_fault.c,
    user_mem_check in kernel/trap/syscall.c, region_alloc in kernel/task.c

    These run on the page tables of Paging; the fault handler also searches the areas
    of Vma.  The handler either returns to the program or ends the task ([Killed]:
    the code calls [exit(curtask)] and [schedule()]).  The processor translates the
    user addresses of [memmove] through the same tables. *)

From S2P Require Import Prelude Layout Buddy Paging Vma.

Local Open Scope Z_scope.

Inductive fault_end := Resumes | Killed.

Definition USER_PERM : Z := Z.lor (Z.lor _PAGE_PRESENT _PAGE_RW) _PAGE_USER.

(** The frame a user address is mapped to. *)
Definition translate (pgd va : Z) : M mstate Z :=
  r ← page_lookup pgd va;
  match (r : option (Z * Z)) with Some (f, _) => mret f | None => fault end.

(** [memmove(dst, src, PAGE_SIZE)] of two page-aligned user addresses. *)
Definition copy_page (pgd dst src : Z) : M mstate unit :=
  fs ← translate pgd src;
  fd ← translate pgd dst;
  s ← get;
  l ← of_option (mem s !! fs);
  set_mem (<[fd := l]>).

Definition atomic_read_nref (page : Z) : M mstate Z :=
  s ← get; pg ← of_option (mempage s !! page); mret (nref pg).

Definition do_wp_fault (pgd address pte : Z) : M mstate fault_end :=
  e ← load64 pte;
  v ← lift (entry_page_vaddr e);
  s ← get;
  page ← lift (virt2page (m_max_pfn s) v);
  n ← atomic_read_nref page;
  if bool_decide (n = 1) then pte_mkwrite pte ;; mret Resumes
  else
    new ← page_alloc _GFP_ZERO;
    match (new : option Z) with
    | None => mret Killed
    | Some p =>
        retval ← page_insert pgd p USER_TEMPBOTT USER_PERM;
        if bool_decide (retval < 0) then page_free p ;; mret Killed
        else
          copy_page pgd USER_TEMPBOTT (ROUNDDOWN address PAGE_SIZE) ;;
          retval ← page_insert pgd p address USER_PERM;
          page_remove pgd USER_TEMPBOTT ;;
          if bool_decide (retval < 0) then panic else mret Resumes
    end.

(** A page for an address of the stack or of the heap. *)
Definition new_user_page (pgd address : Z) : M mstate fault_end :=
  new ← page_alloc _GFP_ZERO;
  match (new : option Z) with
  | None => mret Killed
  | Some p =>
      retval ← page_insert pgd p address USER_PERM;
      if bool_decide (retval < 0) then panic else mret Resumes
  end.

Definition handle_pte_fault (pgd vm_start start_brk address pte err : Z) : M mstate fault_end :=
  let write_access := Z.land err 2 in
  assert (bool_decide (pte ≠ 0)) ;;
  e ← load64 pte;
  if pte_present e then
    if bool_decide (write_access ≠ 0) then
      if negb (pte_write e) then do_wp_fault pgd address pte else panic
    else panic
  else if bool_decide (vm_start = USER_STACKBOTT) then new_user_page pgd address
  else if bool_decide (vm_start = start_brk) then new_user_page pgd address
  else panic.

(** The handler, with the areas of the current task and its page directory; [va] is
    the faulting address (cr2) and [err] the error code of the frame. *)
Record user_space := mk_user { areas_of : mm_struct; tables : mstate }.

Definition on_areas {A} (m : M mm_struct A) : M user_space A := λ s,
  match m (areas_of s) with Ok (a, x) => Ok (a, mk_user x (tables s)) | Stop w => Stop w end.
Definition on_tables {A} (m : M mstate A) : M user_space A := λ s,
  match m (tables s) with Ok (a, x) => Ok (a, mk_user (areas_of s) x) | Stop w => Stop w end.

Definition page_fault_handler (fuel : nat) (pgd va err : Z) : M user_space fault_end :=
  vma ← on_areas (find_vma fuel va);
  if bool_decide (vma = 0) then mret Killed
  else
    v ← on_areas (load_vma vma);
    if bool_decide (va < vm_start v) then mret Killed
    else
      pte ← on_tables (page_walk pgd va true);
      match (pte : option Z) with
      | None => mret Killed
      | Some pte =>
          s ← get;
          on_tables (handle_pte_fault pgd (vm_start v) (start_brk (areas_of s)) va pte err)
      end.

(** ** user_mem_check *)

Fixpoint user_mem_check_loop (fuel : nat) (pgd bottom top perm : Z) : M mstate Z :=
  match fuel with
  | O => stop_with OutOfFuel
  | S fuel =>
      if bool_decide (bottom < top) then
        if bool_decide (KERNEL_BASE_ADDR ≤ bottom) then mret (- EFAULT)
        else
          r ← page_walk pgd bottom false;
          match (r : option Z) with
          | None => mret (- EFAULT)
          | Some pte =>
              e ← load64 pte;
              if bool_decide (Z.land e perm ≠ perm) then mret (- EFAULT)
              else user_mem_check_loop fuel pgd (u32 (bottom + PAGE_SIZE)) top perm
          end
      else mret 0
  end.

(** [bottom] runs over page addresses below [top]: [top / PAGE_SIZE] rounds and one for
    the last test are enough. *)
Definition user_mem_check (pgd va len perm : Z) : M mstate Z :=
  let perm := Z.lor perm _PAGE_PRESENT in
  let top := ROUNDUP (u32 (va + len)) PAGE_SIZE in
  let bottom := ROUNDDOWN va PAGE_SIZE in
  user_mem_check_loop (S (Z.to_nat (top / PAGE_SIZE))) pgd bottom top perm.

(** ** region_alloc *)

Fixpoint region_alloc_loop (fuel : nat) (pgd down up perm : Z) : M mstate Z :=
  match fuel with
  | O => stop_with OutOfFuel
  | S fuel =>
      if bool_decide (down < up) then
        new ← page_alloc _GFP_ZERO;
        match (new : option Z) with
        | None => mret (- ENOMEM)
        | Some p =>
            r ← page_insert pgd p down perm;
            if bool_decide (r < 0) then mret r
            else region_alloc_loop fuel pgd (u32 (down + PAGE_SIZE)) up perm
        end
      else mret 0
  end.

Definition region_alloc (pgd va len perm : Z) : M mstate Z :=
  assert (bool_decide (va ≠ 0)) ;;
  assert (bool_decide (0 < len)) ;;
  let down := ROUNDDOWN va PAGE_SIZE in
  let up := ROUNDUP (u32 (va + len)) PAGE_SIZE in
  region_alloc_loop (S (Z.to_nat (up / PAGE_SIZE))) pgd down up perm.
