(* ===== verification/FaultProofs.v ===== *)
(** * Copy on write gives each side its own page

    The page tables are described by [mapped] and [meta] of PagingProofs; data frames
    are the frames that are not tables ([no_table]). *)

From S2P Require Import Prelude Layout Buddy BuddyProofs Paging PagingProofs Vma VmaProofs Fault.

Local Open Scope Z_scope.

(** ** Changing the contents of a data frame *)

Section data.
Context (s s' : mstate) (g o p : Z) (Hn : no_table s g o p).
Context (Hmem : ∀ x, x ≠ p → mem s' !! x = mem s !! x).

Lemma data_ent f k : f ≠ p → ent s' f k = ent s f k.
Proof. intros Hf. unfold ent. by rewrite Hmem. Qed.

Lemma data_roles r : user_role r → role_frame s' g o r = role_frame s g o r.
Proof.
  intros Hr. destruct Hn as [Hg Hp]. destruct r as [i|i j]; simpl.
  - by rewrite data_ent by congruence.
  - rewrite (data_ent g) by congruence. destruct (ent s g (o + i) ≫= child) as [m|] eqn:Hm; [|done]. simpl.
    rewrite data_ent; [done|]. intros ->. destruct Hr as [Hi _].
    apply (Hp (RPmd i)); [simpl; lia|done].
Qed.

Lemma data_mapped va : user_va va → mapped s' g o va = mapped s g o va.
Proof.
  intros Hv. destruct (user_va_role va Hv) as [_ Hu]. unfold mapped, entry_at. rewrite data_roles by done.
  destruct (role_frame s g o _) as [f|] eqn:Hf; [|done]. simpl. rewrite data_ent; [done|].
  intros ->. by apply (proj2 Hn _ Hu).
Qed.

Lemma data_tree : tree_wf s g o → (∀ q, busy s q → busy s' q) → tree_wf s' g o.
Proof.
  intros Hw Hb. split.
  - apply Hb, Hw.
  - apply Hw.
  - intros r f Hr. rewrite data_roles by done. intros E. destruct (tw_busy s g o Hw r f Hr E). auto.
  - intros r r' f Hr Hr'. rewrite !data_roles by done. by apply (tw_inj s g o Hw).
Qed.

Lemma data_no_table q : no_table s g o q → no_table s' g o q.
Proof. intros [? Hr]. split; [done|]. intros r Hu. rewrite data_roles by done. by apply Hr. Qed.
End data.

(** ** A new data frame *)

(** [s'] is [s] with the free frame [p] taken and zeroed. *)
Record taken (g o : Z) (s s' : mstate) (p : Z) : Prop := {
  tk_inv : mm_inv s';
  tk_tree : tree_wf s' g o;
  tk_mapped : ∀ va, user_va va → mapped s' g o va = mapped s g o va;
  tk_busy : ∀ q, busy s q → busy s' q ∧ q ≠ p;
  tk_meta : ∀ q, meta s' q = meta s q;
  tk_frame : busy s' p ∧ ∃ pg, mempage s' !! p = Some pg ∧ nref pg = 0 ∧
               has_flag (flags pg) _pg_reserved = false;
  tk_roles : ∀ r, user_role r → role_frame s' g o r = role_frame s g o r;
  tk_data : ∀ q, q ≠ p → mem s' !! q = mem s !! q;
  tk_free : free_page (nz s) p;
  tk_table : no_table s' g o p;
  tk_others : ∀ q, free_page (nz s') q ↔ free_page (nz s) q ∧ q ≠ p;
  tk_zero : mem s' !! p = Some zero_page }.

Lemma page_alloc_taken s g o :
  mm_inv s → tree_wf s g o →
  ∃ r s', page_alloc _GFP_ZERO s = Ok (r, s') ∧
    match r with Some p => taken g o s s' p | None => s' = s ∧ full s end.
Proof.
  intros Hi Hw. destruct (alloc_zeroed_ok s Hi) as (r & s' & Hrun & Hi' & Hr).
  exists r, s'. split; [exact Hrun|]. destruct r as [p|]; [|by destruct Hr].
  destruct Hr as [Hfree Hbusy Hmem Honly Htlb]. destruct (only_orders_shape _ _ Honly) as (_ & Ee & _).
  pose proof (free_no_role s g o p Hw Hfree) as Hn.
  assert (Hm : ∀ x, x ≠ p → mem s' !! x = mem s !! x).
  { intros x Hx. rewrite Hmem. by apply lookup_insert_ne. }
  assert (Hb : ∀ q, busy s q → busy s' q).
  { intros q [H1 H2]. split; [by rewrite Ee|]. by intros [? _]%Hbusy. }
  split; [done|by eapply data_tree| | | | | |done|done| |done|rewrite Hmem; apply lookup_insert_eq].
  - intros va Hv. by apply (data_mapped s s' g o p).
  - intros q Hq. split; [by apply Hb|]. intros ->. by destruct Hq.
  - intros q. apply (oo_pages _ _ Honly q).
  - split.
    + split; [rewrite Ee; by apply free_in_zone|]. intros [_ ?]%Hbusy. done.
    + destruct (zi_ready (nz s) 0 (mi_zone s Hi) p Hfree) as (pg & Hpg & Hn0 & Hf0).
      pose proof (oo_pages _ _ Honly p) as Ho. rewrite Hpg in Ho.
      destruct (pages (nz s') !! p) as [pg'|] eqn:Hpg'; [|done]. injection Ho as Ho1 Ho2.
      exists pg'. split; [done|]. split; congruence.
  - intros r Hr. by apply (data_roles s s' g o p).
  - by apply (data_no_table s s' g o p).
Qed.

(** ** What stays through a chain of updates *)

Lemma inserted_busy g o s s' va p perm i pg :
  inserted g o s s' va p perm → busy s i → mempage s !! i = Some pg →
  ¬ (old_frame s g o va = Some i ∧ i ≠ p ∧ nref pg = 1) → busy s' i.
Proof.
  intros Hin Hb Hpg Hne. split; [rewrite (in_end _ _ _ _ _ _ _ Hin); apply Hb|].
  by rewrite (in_freed _ _ _ _ _ _ _ Hin i pg Hb Hpg).
Qed.

Lemma inserted_no_table g o s s' va p perm q :
  inserted g o s s' va p perm → busy s q → no_table s g o q → no_table s' g o q.
Proof. intros Hin. apply no_table_extends, Hin. Qed.

Lemma mapped_same_page s g o va va' :
  user_va va → user_va va' → same_page va va' → mapped s g o va' = mapped s g o va.
Proof.
  intros Hv Hv' Hs. apply same_page_indices in Hs as [E1 E2]; [|done..].
  unfold mapped, entry_at. fold (leaf_role va) (leaf_role va'). by rewrite E1, E2.
Qed.

Lemma meta_frame s q pg : mempage s !! q = Some pg → meta s q = Some (set_order 0 pg).
Proof. intros H. unfold meta. by rewrite H. Qed.

(** [page_insert] where the page table exists. *)
Lemma page_insert_leaf s g o va p perm f :
  mm_inv s → tree_wf s g o → user_va va → va ≠ 0 → new_ok s p → old_ok s g o va →
  0 ≤ perm < 2 ^ 12 → has_flag perm _PAGE_PRESENT = true →
  role_frame s g o (leaf_role va) = Some f →
  ∃ s', page_insert (slot g o) p va perm s = Ok (0, s') ∧ inserted g o s s' va p perm.
Proof.
  intros Hi Hw Hv Hv0 Hnew Hold Hperm Hpres Hf. unfold page_insert. rewrite (asserts_ok s g o va Hw Hv0).
  rewrite (bind_Ok _ _ _ _ _ (page_walk_found s g o va Hi Hw Hv Hv0 true f Hf)).
  by apply page_insert_at.
Qed.

Lemma translate_ok s g o va e :
  mm_inv s → tree_wf s g o → user_va va → va ≠ 0 → mapped s g o va = Some e → busy s (eframe e) →
  translate (slot g o) va s = Ok (eframe e, s).
Proof.
  intros Hi Hw Hv Hv0 He Hb. unfold translate.
  destruct (page_lookup_mapped s g o va Hi Hw Hv Hv0 e He Hb) as (f & _ & _ & Hrun).
  by rewrite (bind_Ok _ _ _ _ _ Hrun).
Qed.

(** ** The copy *)

Lemma temp_user : user_va USER_TEMPBOTT ∧ USER_TEMPBOTT ≠ 0.
Proof. unfold user_va, USER_TEMPBOTT, KERNEL_BASE_ADDR. lia. Qed.

Lemma user_perm_ok p :
  0 ≤ USER_PERM < 2 ^ 12 ∧ has_flag USER_PERM _PAGE_PRESENT = true ∧ eframe (p * PAGE_SIZE + USER_PERM) = p.
Proof.
  assert (Hp : 0 ≤ USER_PERM < PAGE_SIZE) by (vm_compute; split; congruence).
  split_and!; [apply Hp|apply Hp|by vm_compute|]. by apply eframe_entry.
Qed.

(** A user page [va] with the entry [e] of the data frame [eframe e], described by
    [pg], and nothing mapped at the place where copies are made. *)
Record user_page (s : mstate) (g o va e : Z) (pg : page) : Prop := {
  up_inv : mm_inv s;
  up_tree : tree_wf s g o;
  up_va : user_va va ∧ PAGE_SIZE ≤ va ∧ ¬ same_page USER_TEMPBOTT va;
  up_entry : mapped s g o va = Some e;
  up_data : no_table s g o (eframe e);
  up_ref : referenced s (eframe e) pg ∧ nref pg < 2 ^ 31 - 1;
  up_temp : mapped s g o USER_TEMPBOTT = None }.

Lemma rounddown_page va : user_va va → PAGE_SIZE ≤ va →
  user_va (ROUNDDOWN va PAGE_SIZE) ∧ ROUNDDOWN va PAGE_SIZE ≠ 0 ∧ same_page va (ROUNDDOWN va PAGE_SIZE).
Proof.
  intros [H1 H2] Hp. unfold user_va, same_page, ROUNDDOWN, PAGE_SIZE in *.
  pose proof (Z.mod_pos_bound va 4096 ltac:(lia)). split_and!; [lia|lia|lia|].
  rewrite (Z.div_mod va 4096) at 2 by lia. replace (4096 * (va / 4096) + va mod 4096 - va mod 4096) with (va / 4096 * 4096) by lia.
  by rewrite Z.div_mul.
Qed.

(** The state when the new frame [p] holds the copy, at the temporary place. *)
Record copied (g o : Z) (s s' : mstate) (va q p : Z) : Prop := {
  cp_inv : mm_inv s';
  cp_tree : tree_wf s' g o;
  cp_mapped : ∀ va', user_va va' → mapped s' g o va' =
    if decide (same_page USER_TEMPBOTT va') then Some (p * PAGE_SIZE + USER_PERM) else mapped s g o va';
  cp_meta : ∀ i, busy s i → busy s' i ∧ meta s' i = meta s i ∧ i ≠ p;
  cp_new : busy s' p ∧ ∃ pg, mempage s' !! p = Some pg ∧ nref pg = 1 ∧
             has_flag (flags pg) _pg_reserved = false;
  cp_free : free_page (nz s) p;
  cp_tables : ∀ i, busy s i → no_table s g o i → no_table s' g o i;
  cp_table : no_table s' g o p;
  cp_data : ∀ i, busy s i → no_table s g o i → mem s' !! i = mem s !! i;
  cp_copy : mem s' !! p = mem s !! q }.

Section copy.
Context (s s1 s2 : mstate) (g o va e p : Z) (pg : page).
Context (Hup : user_page s g o va e pg) (Htk : taken g o s s1 p).
Context (Hin : inserted g o s1 s2 USER_TEMPBOTT p USER_PERM).

Lemma copy_old : old_frame s1 g o USER_TEMPBOTT = None.
Proof.
  unfold old_frame. rewrite (tk_mapped _ _ _ _ _ Htk) by apply temp_user.
  by rewrite (up_temp _ _ _ _ _ _ Hup).
Qed.

Lemma copy_busy i : busy s1 i → busy s2 i.
Proof.
  intros Hb. destruct (busy_page s1 i (tk_inv _ _ _ _ _ Htk) Hb) as [pgi Hpgi].
  eapply inserted_busy; [done..|]. rewrite copy_old. by intros [? _].
Qed.

Lemma copy_mapped va' :
  user_va va' → mapped s2 g o va' =
    if decide (same_page USER_TEMPBOTT va') then Some (p * PAGE_SIZE + USER_PERM) else mapped s g o va'.
Proof.
  intros Hv. rewrite (in_mapped _ _ _ _ _ _ _ Hin) by done.
  case_decide; [done|]. by apply (tk_mapped _ _ _ _ _ Htk).
Qed.

Lemma copy_no_table i : busy s i → no_table s g o i → no_table s2 g o i.
Proof.
  intros Hb [Hg Hr]. eapply inserted_no_table; [done|by apply (tk_busy _ _ _ _ _ Htk)|].
  split; [done|]. intros r Hu. rewrite (tk_roles _ _ _ _ _ Htk) by done. by apply Hr.
Qed.

Lemma copy_new_table : no_table s2 g o p.
Proof. eapply inserted_no_table; [done|apply (tk_frame _ _ _ _ _ Htk)|apply Htk]. Qed.

Lemma copy_meta i : busy s i → meta s2 i = meta s i.
Proof.
  intros Hb. destruct (tk_busy _ _ _ _ _ Htk i Hb) as [Hb1 Hne].
  rewrite (in_nref _ _ _ _ _ _ _ Hin i Hb1), copy_old, (tk_meta _ _ _ _ _ Htk).
  rewrite !b2z_false by done. destruct (meta s i) as [k|]; [|done]. simpl.
  f_equal. replace (nref k + 0 - 0) with (nref k) by lia. by destruct k.
Qed.

Lemma copy_new : ∃ pgp, mempage s2 !! p = Some pgp ∧ nref pgp = 1 ∧
  has_flag (flags pgp) _pg_reserved = false.
Proof.
  destruct (tk_frame _ _ _ _ _ Htk) as (Hbp & pgp & Hpgp & Hn0 & Hf0).
  pose proof (in_nref _ _ _ _ _ _ _ Hin p Hbp) as Hm.
  rewrite copy_old, (meta_frame _ _ _ Hpgp), b2z_true, b2z_false in Hm by done.
  apply meta_Some in Hm as (pg' & Hpg' & Hn & Hf & _). exists pg'. split; [done|]. simpl in *.
  split; [lia|congruence].
Qed.

Lemma copy_data i : busy s i → no_table s g o i → mem s2 !! i = mem s !! i.
Proof.
  intros Hb [Hg Hr]. destruct (tk_busy _ _ _ _ _ Htk i Hb) as [Hb1 Hne].
  rewrite (in_data _ _ _ _ _ _ _ Hin i Hb1); [by apply Htk|].
  split; [done|]. intros r Hu. rewrite (tk_roles _ _ _ _ _ Htk) by done. by apply Hr.
Qed.

Lemma copied_ok l :
  mem s2 !! eframe e = Some l → length l = 512%nat →
  copied g o s (with_mem (<[p := l]> (mem s2)) s2) va (eframe e) p.
Proof.
  intros Hl Hlen. set (s3 := with_mem _ _). pose proof copy_new_table as Hnp.
  assert (Hm : ∀ x, x ≠ p → mem s3 !! x = mem s2 !! x) by (intros x Hx; by apply lookup_insert_ne).
  assert (Hbq : busy s (eframe e)) by apply Hup.
  split.
  - apply mm_inv_mem; [apply Hin|]. intros f Hf. destruct (decide (f = p)) as [->|Hne].
    + exists l. by rewrite lookup_insert_eq.
    + rewrite lookup_insert_ne by done. by apply (mi_mem s2 (in_inv _ _ _ _ _ _ _ Hin)).
  - apply (data_tree s2 s3 g o p); [done|done|apply Hin|done].
  - intros va' Hv'. rewrite (data_mapped s2 s3 g o p) by done. by apply copy_mapped.
  - intros i Hb. destruct (tk_busy _ _ _ _ _ Htk i Hb) as [Hb1 Hne].
    split_and!; [apply (copy_busy i Hb1)|by apply copy_meta|done].
  - split; [apply (copy_busy p), (tk_frame _ _ _ _ _ Htk)|]. apply copy_new.
  - apply Htk.
  - intros i Hb Hn. by apply (data_no_table s2 s3 g o p), copy_no_table.
  - by apply (data_no_table s2 s3 g o p).
  - intros i Hb Hn. rewrite Hm; [by apply copy_data|]. by apply (tk_busy _ _ _ _ _ Htk).
  - cbn. rewrite lookup_insert_eq, <- Hl. apply copy_data; [done|apply Hup].
Qed.

Lemma copy_run :
  ∃ s3, copy_page (slot g o) USER_TEMPBOTT (ROUNDDOWN va PAGE_SIZE) s2 = Ok (tt, s3) ∧
    copied g o s s3 va (eframe e) p.
Proof.
  destruct temp_user as [Htv Ht0]. destruct (user_perm_ok p) as (_ & _ & Hef).
  destruct (up_va _ _ _ _ _ _ Hup) as (Hv & Hlo & Hst).
  destruct (rounddown_page va Hv Hlo) as (Hrv & Hr0 & Hrs).
  assert (Hm2 : mapped s2 g o (ROUNDDOWN va PAGE_SIZE) = Some e).
  { rewrite copy_mapped, decide_False by (done || unfold same_page in *; congruence).
    rewrite (mapped_same_page s g o va) by done. apply Hup. }
  assert (Hmt : mapped s2 g o USER_TEMPBOTT = Some (p * PAGE_SIZE + USER_PERM))
    by (rewrite copy_mapped by done; by rewrite decide_True).
  assert (Hbq : busy s2 (eframe e)) by (apply copy_busy, (tk_busy _ _ _ _ _ Htk); apply Hup).
  destruct (mi_mem s2 (in_inv _ _ _ _ _ _ _ Hin) (eframe e) (proj1 Hbq)) as (l & Hl & Hlen).
  unfold copy_page.
  rewrite (bind_Ok _ _ _ _ _ (translate_ok s2 g o _ e (in_inv _ _ _ _ _ _ _ Hin)
    (in_tree _ _ _ _ _ _ _ Hin) Hrv Hr0 Hm2 Hbq)).
  rewrite (bind_Ok _ _ _ _ _ (translate_ok s2 g o _ _ (in_inv _ _ _ _ _ _ _ Hin)
    (in_tree _ _ _ _ _ _ _ Hin) Htv Ht0 Hmt ltac:(rewrite Hef; apply copy_busy, (tk_frame _ _ _ _ _ Htk)))).
  rewrite Hef. run_step. rewrite (bind_Ok _ _ _ _ _ (of_option_Some _ _ _ Hl)).
  eexists. split; [reflexivity|]. by apply copied_ok.
Qed.
End copy.

(** ** The write fault *)

(** What the fault leaves when the page was shared: the page of [va] is mapped to the
    frame [p], which was free, with write permission; [p] holds what the shared frame
    holds and has one reference; the shared frame has one reference less and its
    contents, those of every other data frame and all other mappings are as before. *)
Record private_copy (g o : Z) (s s' : mstate) (va q p : Z) (pg : page) : Prop := {
  pc_inv : mm_inv s';
  pc_tree : tree_wf s' g o;
  pc_mapped : ∀ va', user_va va' → mapped s' g o va' =
    if decide (same_page va va') then Some (p * PAGE_SIZE + USER_PERM) else mapped s g o va';
  pc_free : free_page (nz s) p;
  pc_copy : mem s' !! p = mem s !! q;
  pc_data : ∀ i, busy s i → no_table s g o i → mem s' !! i = mem s !! i;
  pc_new : nref <$> meta s' p = Some 1;
  pc_old : nref <$> meta s' q = Some (nref pg - 1) }.

Lemma private_copy_ok s s3 s4 s5 g o va q p pg4 pg :
  copied g o s s3 va q p → inserted g o s3 s4 va p USER_PERM →
  removed g o s4 s5 USER_TEMPBOTT p pg4 →
  user_va va → ¬ same_page USER_TEMPBOTT va → mapped s g o USER_TEMPBOTT = None →
  busy s q → nref pg4 = 2 → nref <$> meta s3 q = Some (nref pg) → old_frame s3 g o va = Some q →
  private_copy g o s s5 va q p pg.
Proof.
  intros Hcp Hin Hrm Hv Hst Htmp Hbq Hn4 Hnq Hold.
  destruct (cp_meta _ _ _ _ _ _ _ Hcp q Hbq) as (Hbq3 & _ & Hqp).
  assert (Hdata : ∀ i, busy s3 i → no_table s3 g o i → mem s5 !! i = mem s3 !! i).
  { intros i Hb Hn. rewrite (rm_data _ _ _ _ _ _ _ Hrm i); [by apply Hin|]. apply no_table_leaf. by eapply inserted_no_table. }
  split; [apply Hrm|apply Hrm| |apply Hcp| | | |].
  - intros va' Hv'. rewrite (rm_mapped _ _ _ _ _ _ _ Hrm) by done.
    rewrite (in_mapped _ _ _ _ _ _ _ Hin), (cp_mapped _ _ _ _ _ _ _ Hcp) by done.
    destruct (decide (same_page USER_TEMPBOTT va')) as [H1|H1].
    + rewrite decide_False by (unfold same_page in *; congruence).
      symmetry. rewrite <- Htmp. by apply mapped_same_page; [apply temp_user| |].
    + done.
  - rewrite Hdata; [apply (cp_copy _ _ _ _ _ _ _ Hcp)|apply (cp_new _ _ _ _ _ _ _ Hcp)|apply (cp_table _ _ _ _ _ _ _ Hcp)].
  - intros i Hb Hn. rewrite Hdata; [by apply Hcp|by apply (cp_meta _ _ _ _ _ _ _ Hcp)|by apply Hcp].
  - rewrite (rm_meta _ _ _ _ _ _ _ Hrm), decide_True by done. simpl. f_equal. lia.
  - rewrite (rm_meta _ _ _ _ _ _ _ Hrm), decide_False by done.
    rewrite (in_nref _ _ _ _ _ _ _ Hin q Hbq3), Hold, b2z_false, b2z_true by done.
    destruct (meta s3 q); [|done]. simpl in *. f_equal. injection Hnq as ->. lia.
Qed.

Lemma remap_run s s3 g o va e pg p :
  user_page s g o va e pg → nref pg ≠ 1 → copied g o s s3 va (eframe e) p →
  ∃ s4 s5, page_insert (slot g o) p va USER_PERM s3 = Ok (0, s4) ∧
    page_remove (slot g o) USER_TEMPBOTT s4 = Ok (tt, s5) ∧
    private_copy g o s s5 va (eframe e) p pg.
Proof.
  intros [Hi Hw (Hv & Hlo & Hst) He Hnt [(Hbq & Hpgq & Hnq & Hfq) Hlt] Htmp] Hn1 Hcp.
  destruct temp_user as [Htv Ht0]. destruct (user_perm_ok p) as (Hperm & Hpres & Hef).
  assert (Hm3 : mapped s3 g o va = Some e)
    by (rewrite (cp_mapped _ _ _ _ _ _ _ Hcp) by done; by rewrite decide_False).
  destruct (cp_meta _ _ _ _ _ _ _ Hcp _ Hbq) as (Hbq3 & Hmq3 & Hqp).
  rewrite (meta_frame _ _ _ Hpgq) in Hmq3. pose proof Hmq3 as Hmq3'.
  apply meta_Some in Hmq3' as (pgq3 & Hpgq3 & Hnq3 & Hfq3 & _). simpl in Hnq3, Hfq3.
  destruct (cp_new _ _ _ _ _ _ _ Hcp) as (Hbp & pgp & Hpgp & Hnp & Hfp).
  destruct (mapped_slot s3 g o va e Hm3) as (f3 & Hf3 & _ & _).
  destruct (page_insert_leaf s3 g o va p USER_PERM f3) as (s4 & Hrun4 & Hin4);
    [apply Hcp|apply Hcp|done|unfold PAGE_SIZE in Hlo; lia| | |done|done|done|].
  { split; [done|]. exists pgp. split; [done|lia]. }
  { intros e' He'. simplify_eq. split; [by apply Hcp|]. exists pgq3.
    split; [|lia]. split_and!; [done|done|lia|lia|congruence]. }
  assert (Hold : old_frame s3 g o va = Some (eframe e)) by (unfold old_frame; by rewrite Hm3).
  assert (Hb4 : ∀ i, busy s3 i → busy s4 i).
  { intros i Hb. destruct (busy_page s3 i (cp_inv _ _ _ _ _ _ _ Hcp) Hb) as [pgi Hpgi].
    eapply inserted_busy; [done..|]. rewrite Hold. intros ([= <-] & _ & H1). simplify_eq. lia. }
  assert (Hmt4 : mapped s4 g o USER_TEMPBOTT = Some (p * PAGE_SIZE + USER_PERM)).
  { rewrite (in_mapped _ _ _ _ _ _ _ Hin4) by done. rewrite decide_False by (unfold same_page in *; congruence).
    rewrite (cp_mapped _ _ _ _ _ _ _ Hcp) by done. by rewrite decide_True. }
  pose proof (in_nref _ _ _ _ _ _ _ Hin4 p Hbp) as Hmp4.
  rewrite Hold, (meta_frame _ _ _ Hpgp), b2z_true, b2z_false in Hmp4 by congruence. simpl in Hmp4.
  apply meta_Some in Hmp4 as (pg4 & Hpg4 & Hn4 & Hf4 & _). simpl in Hn4, Hf4.
  pose proof (inserted_no_table _ _ _ _ _ _ _ p Hin4 Hbp (cp_table _ _ _ _ _ _ _ Hcp)) as Hnt4.
  destruct (page_remove_ok s4 g o USER_TEMPBOTT (in_inv _ _ _ _ _ _ _ Hin4) (in_tree _ _ _ _ _ _ _ Hin4)
    Htv Ht0 _ pg4 Hmt4) as (s5 & Hrun5 & Hrm).
  { rewrite Hef. split_and!; [by apply Hb4|done|lia|lia|congruence]. }
  { by rewrite Hef. }
  rewrite Hef in Hrm. exists s4, s5. split; [done|]. split; [done|].
  apply (private_copy_ok s s3 s4 s5 g o va (eframe e) p pg4 pg); [done..|lia| |done].
  rewrite Hmq3. done.
Qed.

(** Nothing a program can see has changed. *)
Record unchanged (g o : Z) (s s' : mstate) : Prop := {
  uc_inv : mm_inv s';
  uc_tree : tree_wf s' g o;
  uc_mapped : ∀ va, user_va va → mapped s' g o va = mapped s g o va;
  uc_data : ∀ i, busy s i → no_table s g o i → mem s' !! i = mem s !! i }.

(** Giving the new frame back when it could not be mapped. *)
Lemma give_back s s1 s2 g o p :
  taken g o s s1 p → extends g o s1 s2 →
  ∃ s3, page_free p s2 = Ok (tt, s3) ∧ unchanged g o s s3.
Proof.
  intros Htk Hx. destruct (tk_frame _ _ _ _ _ Htk) as (Hbp & pgp & Hpgp & Hn0 & Hf0).
  destruct (ex_busy _ _ _ _ Hx p Hbp) as [Hbp2 Hm]. rewrite (meta_frame _ _ _ Hpgp) in Hm.
  apply meta_Some in Hm as (pg2 & Hpg2 & Hn2 & Hf2 & _). simpl in Hn2, Hf2.
  destruct (page_free_ok s2 p pg2 (ex_inv _ _ _ _ Hx) Hbp2 Hpg2) as
    (s3 & Hrun & Hi3 & Hmem & _ & Honly & Hfree); [lia|congruence|].
  destruct (only_orders_shape _ _ Honly) as (_ & Ee & _).
  assert (Hnt : no_table s2 g o p).
  { apply (no_table_extends _ _ s1); [apply Hx|done|apply Htk]. }
  assert (Hb : ∀ q, q ≠ p → busy s2 q → busy s3 q).
  { intros q Hq [H1 H2]. split; [by rewrite Ee|]. intros [?|?]%Hfree; done. }
  exists s3. split; [done|]. split; [done| | |].
  - apply (tree_wf_transfer s2); [apply Hx|done| |].
    + apply Hb; [by intros <-; destruct Hnt|apply (ex_tree _ _ _ _ Hx)].
    + intros r f Hr E. apply Hb; [|by apply (tw_busy s2 g o (ex_tree _ _ _ _ Hx) r)].
      intros ->. by apply (proj2 Hnt r).
  - intros va Hv. rewrite (mapped_mem s2) by done.
    by rewrite (ex_mapped _ _ _ _ Hx), (tk_mapped _ _ _ _ _ Htk).
  - intros i Hbi [Hg Hr]. destruct (tk_busy _ _ _ _ _ Htk i Hbi) as [Hb1 Hne].
    rewrite Hmem, (ex_data _ _ _ _ Hx i Hb1); [by apply Htk|].
    split; [done|]. intros r Hu. rewrite (tk_roles _ _ _ _ _ Htk) by done. by apply Hr.
Qed.

(** The frame of the faulting entry. *)
Lemma wp_page {B} (k : Z → M mstate B) s g o va e pg f :
  user_page s g o va e pg → role_frame s g o (leaf_role va) = Some f →
  (e ← load64 (slot f (pte_index va));
   v ← lift (entry_page_vaddr e);
   s ← get;
   page ← lift (virt2page (m_max_pfn s) v);
   n ← atomic_read_nref page;
   k n) s = k (nref pg) s.
Proof.
  intros [Hi Hw (Hv & _) He _ [(Hb & Hpg & _) _] _] Hf.
  destruct (mapped_slot s g o va e He) as (f' & Hf' & Hent & _). simplify_eq.
  rewrite (bind_Ok _ _ _ _ _ (load64_ok s f _ e (proj2 (proj2 (index_ranges va))) Hent)).
  pose proof (frame_bounds s _ Hi (proj1 Hb)) as [Hfb Hmx].
  rewrite (bind_Ok _ _ _ _ _ (lift_Ok _ _ _ (entry_vaddr_ok e Hfb))). run_step.
  rewrite (bind_Ok (lift _) _ s _ _ (lift_Ok _ _ _ (frame_virt _ _ Hfb Hmx))).
  unfold atomic_read_nref. rewrite bind_assoc. run_step. rewrite bind_assoc.
  by rewrite (bind_Ok _ _ _ _ _ (of_option_Some _ _ _ Hpg)).
Qed.

Lemma wp_shared_run s g o va e pg f :
  user_page s g o va e pg → nref pg ≠ 1 → role_frame s g o (leaf_role va) = Some f →
  ∃ r s', do_wp_fault (slot g o) va (slot f (pte_index va)) s = Ok (r, s') ∧
    match r with
    | Resumes => ∃ p, private_copy g o s s' va (eframe e) p pg
    | Killed => unchanged g o s s' ∧ scarce 2 s
    end.
Proof.
  intros Hup Hn1 Hf. unfold do_wp_fault. rewrite (wp_page _ s g o va e pg f Hup Hf).
  rewrite bool_decide_eq_false_2 by done.
  destruct (page_alloc_taken s g o (up_inv _ _ _ _ _ _ Hup) (up_tree _ _ _ _ _ _ Hup)) as (r & s1 & Hrun & Hr).
  rewrite (bind_Ok _ _ _ _ _ Hrun). destruct r as [p|].
  2: { destruct Hr as [-> Hfull]. exists Killed, s. split; [done|]. split; [|by apply full_scarce]. split; try done; apply Hup. }
  destruct temp_user as [Htv Ht0]. destruct (user_perm_ok p) as (Hperm & Hpres & _).
  destruct (tk_frame _ _ _ _ _ Hr) as (Hbp & pgp & Hpgp & Hnp & _).
  destruct (page_insert_ok s1 g o USER_TEMPBOTT p USER_PERM) as (r2 & s2 & Hrun2 & Hcase);
    [apply Hr|apply Hr|done|done| | |done|done|].
  { split; [done|]. exists pgp. split; [done|lia]. }
  { intros e' He'. rewrite (tk_mapped _ _ _ _ _ Hr), (up_temp _ _ _ _ _ _ Hup) in He' by done. done. }
  rewrite (bind_Ok _ _ _ _ _ Hrun2). destruct Hcase as [[-> (Hx & _ & Hsc)]|[-> Hin]].
  - rewrite bool_decide_eq_true_2 by (unfold ENOMEM; lia).
    destruct (give_back s s1 s2 g o p Hr Hx) as (s3 & Hrun3 & Huc).
    rewrite (bind_Ok _ _ _ _ _ Hrun3). exists Killed, s3. split; [done|]. split; [done|].
    apply (scarce_more 1 s s1 p); [|done]. intros q Hq. destruct (decide (q = p)) as [->|Hne]; [by left|right].
    by apply (tk_others _ _ _ _ _ Hr).
  - rewrite (bool_decide_eq_false_2 (0 < 0)) by lia.
    destruct (copy_run s s1 s2 g o va e p pg Hup Hr Hin) as (s3 & Hrun3 & Hcp).
    rewrite (bind_Ok _ _ _ _ _ Hrun3).
    destruct (remap_run s s3 g o va e pg p Hup Hn1 Hcp) as (s4 & s5 & Hrun4 & Hrun5 & Hpc).
    rewrite (bind_Ok _ _ _ _ _ Hrun4), (bind_Ok _ _ _ _ _ Hrun5).
    rewrite (bool_decide_eq_false_2 (0 < 0)) by lia. exists Resumes, s5. split; [done|]. by exists p.
Qed.

(** The last owner of a page just gets it back writable. *)
Lemma wp_owner_run s g o va e pg f :
  user_page s g o va e pg → nref pg = 1 → role_frame s g o (leaf_role va) = Some f →
  do_wp_fault (slot g o) va (slot f (pte_index va)) s =
    Ok (Resumes, put_ent f (pte_index va) (Z.lor e _PAGE_RW) s).
Proof.
  intros Hup Hn1 Hf. unfold do_wp_fault. rewrite (wp_page _ s g o va e pg f Hup Hf).
  rewrite bool_decide_eq_true_2 by done.
  destruct (mapped_slot s g o va e (up_entry _ _ _ _ _ _ Hup)) as (f' & Hf' & Hent & _). simplify_eq.
  pose proof (proj2 (proj2 (index_ranges va))) as Hk. unfold pte_mkwrite. rewrite bind_assoc.
  rewrite (bind_Ok _ _ _ _ _ (load64_ok s f _ e Hk Hent)).
  by rewrite (bind_Ok _ _ _ _ _ (store64_ok s f _ e (Z.lor e _PAGE_RW) Hk Hent)).
Qed.

Lemma writable_present e : pte_present (Z.lor e _PAGE_RW) = pte_present e.
Proof.
  unfold pte_present, has_flag. f_equal. f_equal. rewrite Z.land_lor_distr_l.
  change (Z.land _PAGE_RW _PAGE_PRESENT) with 0. apply Z.lor_0_r.
Qed.

(** C10: a write fault on a user page always ends.  If the frame has no other
    reference, the page becomes writable where it is, and that is all.  If it is
    shared, the page is mapped, writable, to a frame of its own that was free and now
    holds a copy of the shared frame, which has lost one reference and not changed; no
    other page and no other data frame is affected.  Only when at most two frames are
    free (the copy and its mapping at the temporary place may need three) the task can be killed
    instead, and then nothing that can be seen has changed. *)
Theorem write_fault_copies s g o va e pg f :
  user_page s g o va e pg → role_frame s g o (leaf_role va) = Some f →
  ∃ r s', do_wp_fault (slot g o) va (slot f (pte_index va)) s = Ok (r, s') ∧
    (nref pg = 1 → r = Resumes ∧
       (∀ va', user_va va' → mapped s' g o va' =
          if decide (same_page va va') then Some (Z.lor e _PAGE_RW) else mapped s g o va') ∧
       ∀ i, no_table s g o i → mem s' !! i = mem s !! i) ∧
    (nref pg ≠ 1 →
       match r with
       | Resumes => ∃ p, private_copy g o s s' va (eframe e) p pg
       | Killed => unchanged g o s s' ∧ scarce 2 s
       end).
Proof.
  intros Hup Hf. destruct (decide (nref pg = 1)) as [H1|H1].
  - rewrite (wp_owner_run s g o va e pg f Hup H1 Hf). eexists _, _. split; [reflexivity|].
    split; [intros _|done]. destruct (up_va _ _ _ _ _ _ Hup) as (Hv & _).
    destruct (mapped_slot s g o va e (up_entry _ _ _ _ _ _ Hup)) as (f' & Hf' & Hent & Hp). simplify_eq.
    split_and!; [done| |].
    + intros va' Hv'. rewrite (put_leaf_mapped s g o va f (up_tree _ _ _ _ _ _ Hup) Hv Hf _ e va' Hent Hv').
      by rewrite writable_present, Hp.
    + intros i [_ Hn]. apply mem_put_ne. intros ->. destruct (user_va_role va Hv) as [_ Hu]. by apply (Hn _ Hu).
  - destruct (wp_shared_run s g o va e pg f Hup H1 Hf) as (r & s' & Hrun & Hr). by exists r, s'.
Qed.

(** ** A machine of 27 frames

    Frame 8 is the directory of the kernel, 9 that of a task and 10 its only page, mapped
    at 0x400000; the others are free. *)

Definition small_page (i : Z) : page :=
  mk_page 0 (if bool_decide (8 ≤ i ≤ 10) then 0 else _pg_free) (-1) 0 0 0.
Definition small_frames : list Z := seqZ 0 27.
Definition small_boot : zstate :=
  mk_zstate (zone_bss 0 27) (list_to_map ((λ i, (i, small_page i)) <$> small_frames)) 27.
Definition small_zone : zstate :=
  match free_area_init small_boot with Ok (_, z) => z | Stop _ => small_boot end.
Definition small_mm : mstate :=
  mk_mstate (zn small_zone) (zone_bss 0 0) (pages small_zone) 27
    (list_to_map ((λ f, (f, zero_page)) <$> small_frames)) [].

Lemma forallb_seqZ (f : Z → bool) n i : forallb f (seqZ 0 n) = true → 0 ≤ i < n → f i = true.
Proof. intros Hf Hi. rewrite forallb_forall in Hf. apply Hf, list_elem_of_In, elem_of_seqZ. lia. Qed.

Lemma small_all (P : Z → bool) i : forallb P small_frames = true → 0 ≤ i < 27 → P i = true.
Proof. apply forallb_seqZ. Qed.

Lemma small_zone_inv : zone_inv small_zone 0.
Proof.
  destruct (free_area_init_ok small_boot) as (z & Hrun & Hi & _).
  - by apply zone_bss_empty; [lia|lia|apply Z.divide_0_r|].
  - intros i Hi. exists (small_page i). split.
    + assert (i ∈ small_frames) as Hin by (apply elem_of_seqZ; unfold zbase, zend in Hi; simpl in Hi; lia).
      apply elem_of_list_to_map; [|by apply list_elem_of_fmap; exists i].
      rewrite <- list_fmap_compose. apply NoDup_fmap; [apply _|apply NoDup_seqZ].
    + split; [done|]. unfold small_page. by case_bool_decide.
  - unfold small_zone. by rewrite Hrun.
Qed.

Lemma small_nz : nz small_mm = small_zone ∧ zend small_zone = 27 ∧ zbase small_zone = 0.
Proof. split_and!; vm_compute; reflexivity. Qed.

Lemma small_mem f : 0 ≤ f < 27 → mem small_mm !! f = Some zero_page.
Proof.
  intros Hf. apply (small_all (λ i, bool_decide (mem small_mm !! i = Some zero_page)) f) in Hf;
    [by apply bool_decide_eq_true in Hf|vm_compute; reflexivity].
Qed.

Lemma small_mm_inv : mm_inv small_mm.
Proof.
  destruct small_nz as (En & Ee & Eb). split; rewrite ?En.
  - apply small_zone_inv.
  - done.
  - by rewrite Ee.
  - done.
  - rewrite Ee. intros f Hf. exists zero_page. split; [by apply small_mem|apply length_replicate].
Qed.

Lemma small_busy f : 8 ≤ f < 11 → busy small_mm f.
Proof.
  intros Hf. destruct small_nz as (En & Ee & _). split; rewrite En; [rewrite Ee; lia|].
  assert (f = 8 ∨ f = 9 ∨ f = 10) as Hc by lia.
  destruct Hc as [->|[->| ->]]; apply (bool_decide_unpack _); vm_compute; exact I.
Qed.

Lemma small_ent f k : 0 ≤ f < 27 → 0 ≤ k < 512 → ent small_mm f k = Some 0.
Proof.
  intros Hf Hk. unfold ent. rewrite small_mem by done. cbn [mbind option_bind].
  apply lookup_replicate_2. lia.
Qed.

Lemma small_no_tables r : user_role r → role_frame small_mm 9 0 r = None.
Proof.
  assert (H : ∀ i, 0 ≤ i < 3 → role_frame small_mm 9 0 (RPmd i) = None).
  { intros i Hi. unfold role_frame. by rewrite small_ent by lia. }
  destruct r as [i|i j]; intros Hr; [by apply H|]. rewrite role_frame_pte, H; [done|simpl in Hr; lia].
Qed.

Lemma small_tree : tree_wf small_mm 9 0.
Proof.
  split; [apply small_busy; lia|lia| |].
  - intros r f Hr. by rewrite small_no_tables.
  - intros r r' f Hr. by rewrite small_no_tables.
Qed.

Lemma small_unmapped va : user_va va → mapped small_mm 9 0 va = None.
Proof. intros Hv. unfold mapped, entry_at. rewrite small_no_tables; [done|]. by apply (user_va_role va Hv). Qed.

Lemma small_va : user_va 0x400000.
Proof. unfold user_va, KERNEL_BASE_ADDR. lia. Qed.

Definition small_mapped : mstate :=
  match page_insert (slot 9 0) 10 0x400000 7 small_mm with Ok (_, s) => s | Stop _ => small_mm end.

Lemma small_mapped_ok : inserted 9 0 small_mm small_mapped 0x400000 10 7.
Proof.
  destruct (page_insert_ok small_mm 9 0 0x400000 10 7) as (r & s' & Hrun & Hr);
    [apply small_mm_inv|apply small_tree|apply small_va|done| | |lia|done|].
  - split; [apply small_busy; lia|]. eexists. split; [vm_compute; reflexivity|]. simpl. lia.
  - intros e. rewrite small_unmapped; [done|apply small_va].
  - unfold small_mapped. rewrite Hrun.
    assert (E : match page_insert (slot 9 0) 10 0x400000 7 small_mm with
                | Ok (r, _) => r | Stop _ => 1 end = 0) by (vm_compute; reflexivity).
    rewrite Hrun in E. subst r. destruct Hr as [[Hr _]|[_ Hr]]; [discriminate Hr|exact Hr].
Qed.

#[local] Opaque small_mm small_mapped.

Lemma small_frame_10 :
  busy small_mapped 10 ∧ no_table small_mapped 9 0 10 ∧
  ∃ pg, mempage small_mapped !! 10 = Some pg ∧ nref pg = 1 ∧ has_flag (flags pg) _pg_reserved = false.
Proof.
  pose proof (small_busy 10 ltac:(lia)) as Hb.
  assert (Hold : old_frame small_mm 9 0 0x400000 = None)
    by (unfold old_frame; by rewrite small_unmapped by apply small_va).
  split_and!.
  - destruct (busy_page _ 10 small_mm_inv Hb) as [pg Hpg].
    apply (inserted_busy _ _ _ _ _ _ _ 10 pg small_mapped_ok Hb Hpg). rewrite Hold. by intros [? _].
  - apply (inserted_no_table _ _ _ _ _ _ _ 10 small_mapped_ok Hb). split; [done|].
    intros r Hr. by rewrite small_no_tables.
  - pose proof (in_nref _ _ _ _ _ _ _ small_mapped_ok 10 Hb) as Hm.
    assert (Em : meta small_mm 10 = Some (mk_page 0 0 0 0 0 0)) by (vm_compute; reflexivity).
    rewrite Hold, Em in Hm. destruct (meta_Some _ _ _ Hm) as (pg & Hpg & En & Ef & _).
    exists pg. split; [exact Hpg|]. rewrite En, Ef. cbn [nref flags set_nref].
    rewrite b2z_true, b2z_false by congruence. split; reflexivity.
Qed.

Lemma small_is_mapped va e :
  user_va va → mapped small_mapped 9 0 va = Some e → same_page 0x400000 va ∧ e = 10 * PAGE_SIZE + 7.
Proof.
  intros Hv. rewrite (in_mapped _ _ _ _ _ _ _ small_mapped_ok), small_unmapped by done.
  case_decide; [|done]. by intros [= <-].
Qed.

(** The page mapped a second time. *)
Definition small_twice : mstate :=
  match page_insert (slot 9 0) 10 0x401000 7 small_mapped with Ok (_, s) => s | Stop _ => small_mapped end.

Lemma small_va2 : user_va 0x401000.
Proof. unfold user_va, KERNEL_BASE_ADDR. lia. Qed.

Lemma small_not_there va : user_va va → ¬ same_page 0x400000 va → mapped small_mapped 9 0 va = None.
Proof. intros Hv Hs. destruct (mapped small_mapped 9 0 va) eqn:E; [|done]. by apply small_is_mapped in E as [? _]. Qed.

Lemma small_apart : ¬ same_page 0x400000 0x401000.
Proof. intros E. vm_compute in E. discriminate E. Qed.

Lemma small_twice_ok : inserted 9 0 small_mapped small_twice 0x401000 10 7.
Proof.
  destruct small_frame_10 as (Hb & _ & pg & Hpg & Hn & _).
  destruct (page_insert_ok small_mapped 9 0 0x401000 10 7) as (r & s' & Hrun & Hr);
    [apply small_mapped_ok|apply small_mapped_ok|apply small_va2|lia| | |lia|reflexivity|].
  - split; [exact Hb|]. exists pg. split; [exact Hpg|lia].
  - intros e. rewrite small_not_there; [discriminate|apply small_va2|apply small_apart].
  - unfold small_twice. rewrite Hrun.
    assert (E : match page_insert (slot 9 0) 10 0x401000 7 small_mapped with
                | Ok (r, _) => r | Stop _ => 1 end = 0) by (vm_compute; reflexivity).
    rewrite Hrun in E. subst r. destruct Hr as [[Hr _]|[_ Hr]]; [discriminate Hr|exact Hr].
Qed.

#[local] Opaque small_twice.

Lemma small_twice_page : ∃ pg, user_page small_twice 9 0 0x400000 (10 * PAGE_SIZE + 7) pg ∧ nref pg = 2.
Proof.
  destruct small_frame_10 as (Hb & Hnt & pg0 & Hpg0 & Hn0 & Hf0).
  assert (Hold : old_frame small_mapped 9 0 0x401000 = None)
    by (unfold old_frame; by rewrite small_not_there by (apply small_va2 || apply small_apart)).
  pose proof (in_nref _ _ _ _ _ _ _ small_twice_ok 10 Hb) as Hm.
  rewrite Hold, (meta_frame _ _ _ Hpg0), b2z_true, b2z_false in Hm by congruence.
  apply meta_Some in Hm as (pg & Hpg & Hn & Hf & _). cbn [nref flags set_nref set_order] in Hn, Hf.
  assert (Ef : eframe (10 * PAGE_SIZE + 7) = 10) by (apply eframe_entry; unfold PAGE_SIZE; lia).
  exists pg. split; [|lia]. split; rewrite ?Ef.
  - apply small_twice_ok.
  - apply small_twice_ok.
  - unfold user_va, KERNEL_BASE_ADDR, PAGE_SIZE, same_page.
    split_and!; [lia|lia|lia|intros E; vm_compute in E; discriminate E].
  - rewrite (in_mapped _ _ _ _ _ _ _ small_twice_ok _ small_va), decide_False.
    + rewrite (in_mapped _ _ _ _ _ _ _ small_mapped_ok _ small_va). by rewrite decide_True.
    + intros E. apply small_apart. symmetry. exact E.
  - by apply (inserted_no_table _ _ _ _ _ _ _ 10 small_twice_ok).
  - split; [|lia]. split; [by apply (inserted_busy _ _ _ _ _ _ _ 10 pg0 small_twice_ok Hb Hpg0); rewrite Hold; intros [? _]|].
    split; [exact Hpg|]. split; [lia|]. rewrite Hf. exact Hf0.
  - rewrite (in_mapped _ _ _ _ _ _ _ small_twice_ok) by apply temp_user.
    rewrite decide_False by (intros E; vm_compute in E; discriminate E).
    apply small_not_there; [apply temp_user|intros E; vm_compute in E; discriminate E].
Qed.

(** A write to the page of which there are two: the task goes on with a copy. *)
Lemma write_fault_copies_witness :
  ∃ f s' p pg, role_frame small_twice 9 0 (leaf_role 0x400000) = Some f ∧ nref pg = 2 ∧
    do_wp_fault (slot 9 0) 0x400000 (slot f (pte_index 0x400000)) small_twice = Ok (Resumes, s') ∧
    private_copy 9 0 small_twice s' 0x400000 10 p pg.
Proof.
  destruct small_twice_page as (pg & Hup & Hn).
  destruct (mapped_slot _ _ _ _ _ (up_entry _ _ _ _ _ _ Hup)) as (f & Hf & _ & _).
  destruct (write_fault_copies small_twice 9 0 0x400000 (10 * PAGE_SIZE + 7) pg f) as (r & s' & Hrun & _ & Htwo).
  - exact Hup.
  - exact Hf.
  - assert (E : match role_frame small_twice 9 0 (leaf_role 0x400000) with
                | Some f => match do_wp_fault (slot 9 0) 0x400000 (slot f (pte_index 0x400000)) small_twice with
                            | Ok (Resumes, _) => true | _ => false end
                | None => false end = true) by (vm_compute; reflexivity).
    rewrite Hf, Hrun in E. destruct r; [|discriminate E].
    destruct (Htwo ltac:(lia)) as (p & Hp).
    exists f, s', p, pg. split; [exact Hf|]. split; [exact Hn|]. split; [exact Hrun|].
    assert (Ef : eframe (10 * PAGE_SIZE + 7) = 10) by (apply eframe_entry; unfold PAGE_SIZE; lia).
    rewrite Ef in Hp. exact Hp.
Defined.

(** ** user_mem_check *)

Section check.
Context (s : mstate) (g o perm : Z) (Hi : mm_inv s) (Hw : tree_wf s g o).

(** The page of [a] is mapped below the kernel with all of [perm]. *)
Definition allowed (a : Z) : Prop :=
  a < KERNEL_BASE_ADDR ∧ ∃ e, mapped s g o a = Some e ∧ Z.land e perm = perm.

Context (Hperm : has_flag perm _PAGE_PRESENT = true).

Lemma perm_present e : Z.land e perm = perm → pte_present e = true.
Proof.
  intros He. unfold pte_present, has_flag in *. apply negb_true_iff, Z.eqb_neq.
  apply negb_true_iff, Z.eqb_neq in Hperm. intros H0. apply Hperm. rewrite <- He, <- Z.land_assoc.
  rewrite (Z.land_comm perm), Z.land_assoc, H0. apply Z.land_0_l.
Qed.

Lemma check_page b :
  user_va b → b ≠ 0 →
  ∃ r, page_walk (slot g o) b false s = Ok (r, s) ∧
    match r with
    | None => ¬ allowed b
    | Some pte => ∃ e, load64 pte s = Ok (e, s) ∧ (Z.land e perm = perm ↔ allowed b)
    end.
Proof.
  intros Hv Hb0. destruct (role_frame s g o (leaf_role b)) as [f|] eqn:Hf.
  - exists (Some (slot f (pte_index b))). split; [by apply page_walk_found|].
    destruct (user_va_role b Hv) as [_ Hu]. destruct (tw_busy s g o Hw _ _ Hu Hf) as [[Hb _] _].
    pose proof (proj2 (proj2 (index_ranges b))) as Hk.
    destruct (ent_total s f (pte_index b) Hi Hb Hk) as [e He].
    exists e. split; [by apply load64_ok|]. unfold allowed. rewrite (mapped_at s g o b f e Hf He).
    split.
    + intros Hp. split; [apply Hv|]. rewrite (perm_present e Hp). eauto.
    + intros (_ & e' & He' & Hp). destruct (pte_present e); [|done]. by simplify_eq.
  - exists None. split; [by apply page_walk_absent|]. intros (_ & e & He & _).
    unfold mapped, entry_at in He. fold (leaf_role b) in He. by rewrite Hf in He.
Qed.

Lemma check_loop fuel bottom top :
  (PAGE_SIZE | bottom) → (PAGE_SIZE | top) → PAGE_SIZE ≤ bottom → top < 2 ^ 32 →
  (Z.to_nat ((top - bottom) / PAGE_SIZE) < fuel)%nat →
  ∃ r, user_mem_check_loop fuel (slot g o) bottom top perm s = Ok (r, s) ∧
    (r = 0 ∨ r = - EFAULT) ∧
    (r = 0 ↔ ∀ b, (PAGE_SIZE | b) → bottom ≤ b < top → allowed b).
Proof.
  revert bottom. induction fuel as [|fuel IH]; intros bottom Hdb Hdt Hlo Htop Hf; [lia|].
  cbn [user_mem_check_loop]. case_bool_decide as Hlt.
  2: { exists 0. split; [done|]. split; [by left|]. split; [intros _ b _ ?; lia|done]. }
  case_bool_decide as Hk.
  { exists (- EFAULT). split; [done|]. split; [by right|]. split; [done|]. intros Hall.
    destruct (Hall bottom Hdb ltac:(lia)). lia. }
  assert (Hv : user_va bottom) by (unfold user_va, PAGE_SIZE in *; lia).
  destruct (check_page bottom Hv ltac:(unfold PAGE_SIZE in *; lia)) as (r & Hrun & Hr).
  rewrite (bind_Ok _ _ _ _ _ Hrun). destruct r as [pte|].
  2: { exists (- EFAULT). split; [done|]. split; [by right|]. split; [done|]. intros Hall.
       destruct Hr. apply Hall; [done|lia]. }
  destruct Hr as (e & Hload & He). rewrite (bind_Ok _ _ _ _ _ Hload). case_bool_decide as Hp.
  { exists (- EFAULT). split; [done|]. split; [by right|]. split; [done|]. intros Hall.
    destruct Hp. apply He, Hall; [done|lia]. }
  assert (Hstep : bottom + PAGE_SIZE ≤ top).
  { destruct Hdb as [x ->], Hdt as [y ->]. unfold PAGE_SIZE in *. lia. }
  rewrite u32_small by (unfold PAGE_SIZE in *; lia).
  destruct (IH (bottom + PAGE_SIZE)) as (r & Hrun' & Hr01 & Hiff).
  { by apply Z.divide_add_r. } { done. } { unfold PAGE_SIZE in *; lia. } { done. }
  { replace (top - (bottom + PAGE_SIZE)) with (top - bottom + (-1) * PAGE_SIZE) by lia.
    rewrite Z.div_add by done. assert (1 ≤ (top - bottom) / PAGE_SIZE); [|lia].
    apply Z.div_le_lower_bound; unfold PAGE_SIZE in *; lia. }
  exists r. split; [done|]. split; [done|]. rewrite Hiff. split.
  - intros Hall b Hd Hb. destruct (decide (b = bottom)) as [->|Hne]; [by apply He|].
    apply Hall; [done|]. split; [|lia]. destruct Hdb as [x ->], Hd as [y ->]. unfold PAGE_SIZE in *. lia.
  - intros Hall b Hd Hb. apply Hall; [done|unfold PAGE_SIZE in *; lia].
Qed.

(** A page starts below the kernel only if it ends there. *)
Lemma aligned_below a :
  ROUNDDOWN a PAGE_SIZE < KERNEL_BASE_ADDR → 0 ≤ a →
  user_va (ROUNDDOWN a PAGE_SIZE) ∧ user_va a ∧ same_page (ROUNDDOWN a PAGE_SIZE) a.
Proof.
  unfold user_va, same_page, ROUNDDOWN, KERNEL_BASE_ADDR, PAGE_SIZE. intros Hlt Ha.
  pose proof (Z.mod_pos_bound a 4096 ltac:(lia)). pose proof (Z.div_mod a 4096 ltac:(lia)) as Hd.
  replace (a - a mod 4096) with (a / 4096 * 4096) in * by lia. rewrite Z.div_mul by lia.
  split_and!; [lia|lia|lia| |done]. lia.
Qed.

Lemma page_of_aligned a b : (PAGE_SIZE | b) → b ≤ a < b + PAGE_SIZE → same_page a b.
Proof.
  intros [x ->] Hab. unfold same_page, PAGE_SIZE in *. rewrite Z.div_mul by lia.
  symmetry. apply (Z.div_unique a 4096 x (a - x * 4096)); lia.
Qed.

Lemma allowed_same_page a b :
  user_va a → user_va b → same_page a b → allowed a → allowed b.
Proof.
  intros Ha Hb Hs (_ & e & He & Hp). split; [apply Hb|]. exists e. split; [|done].
  by rewrite (mapped_same_page s g o a b).
Qed.
End check.

(** C20: [user_mem_check] is the gate between user pointers and the kernel.  For a range
    of at least one byte that starts above the first page and ends a page below 4 GB it
    returns 0 exactly when every byte of the range is in a page below the kernel that is
    mapped with all the permissions asked for, and -EFAULT otherwise; it changes nothing.
    The restrictions are needed: a range that wraps around is accepted whatever it holds
    ([user_mem_check_wraps]), and in the first page [page_walk] panics. *)
Theorem user_mem_check_correct s g o va len perm :
  mm_inv s → tree_wf s g o → PAGE_SIZE ≤ va → 0 < len → va + len + PAGE_SIZE - 1 < 2 ^ 32 →
  ∃ r, user_mem_check (slot g o) va len perm s = Ok (r, s) ∧ (r = 0 ∨ r = - EFAULT) ∧
    (r = 0 ↔ ∀ a, va ≤ a < va + len → allowed s g o (Z.lor perm _PAGE_PRESENT) a).
Proof.
  intros Hi Hw Hva Hlen Hwrap. unfold user_mem_check. cbv zeta.
  assert (HP : 0 < PAGE_SIZE) by done. rewrite (u32_small (va + len)) by lia.
  pose proof (ROUNDDOWN_le va PAGE_SIZE HP) as Hdown. pose proof (ROUNDDOWN_divide va PAGE_SIZE HP) as Hdd.
  destruct (ROUNDUP_ge (va + len) PAGE_SIZE HP) as [Hup Hud]; [lia|lia|].
  set (bottom := ROUNDDOWN va PAGE_SIZE) in *. set (top := ROUNDUP (va + len) PAGE_SIZE) in *.
  assert (Hbot : PAGE_SIZE ≤ bottom) by (destruct Hdd as [x Hx]; unfold PAGE_SIZE in *; lia).
  assert (Hpres : has_flag (Z.lor perm _PAGE_PRESENT) _PAGE_PRESENT = true).
  { unfold has_flag. rewrite Z.land_lor_distr_l. apply negb_true_iff, Z.eqb_neq.
    intros [_ E]%Z.lor_eq_0_iff. discriminate. }
  destruct (check_loop s g o (Z.lor perm _PAGE_PRESENT) Hi Hw Hpres (S (Z.to_nat (top / PAGE_SIZE))) bottom top)
    as (r & Hrun & Hr01 & Hiff); [done|done|done|lia| |].
  { apply Nat.lt_succ_r, Z2Nat.inj_le; [apply Z.div_pos; lia|apply Z.div_pos; lia|].
    apply Z.div_le_mono; lia. }
  exists r. split; [exact Hrun|]. split; [done|]. rewrite Hiff. split.
  - intros Hall a Ha. pose proof (ROUNDDOWN_le a PAGE_SIZE HP) as Hra.
    assert (Hb : allowed s g o (Z.lor perm _PAGE_PRESENT) (ROUNDDOWN a PAGE_SIZE)).
    { apply Hall; [by apply ROUNDDOWN_divide|]. split; [|lia].
      destruct (ROUNDDOWN_divide a PAGE_SIZE HP) as [x Hx], Hdd as [y Hy]. unfold PAGE_SIZE in *. lia. }
    destruct (aligned_below a (proj1 Hb) ltac:(lia)) as (Hua & Hub & Hs).
    by apply (allowed_same_page s g o _ (ROUNDDOWN a PAGE_SIZE) a).
  - intros Hall b Hd Hb. set (a := Z.max va b).
    assert (Ha : va ≤ a < va + len) by (unfold a; destruct Hud as [x Hx], Hd as [y Hy]; unfold PAGE_SIZE in *; lia).
    assert (Hab : b ≤ a < b + PAGE_SIZE) by (unfold a; destruct Hdd as [x Hx], Hd as [y Hy]; unfold PAGE_SIZE in *; lia).
    pose proof (Hall a Ha) as Hok.
    apply (allowed_same_page s g o _ a b); [split; [lia|apply Hok]| |by apply page_of_aligned|done].
    split; [lia|]. pose proof (proj1 Hok). lia.
Qed.

Lemma user_mem_check_correct_witness :
  ∃ r, user_mem_check (slot 4 0) 0x400010 0x20 (Z.lor _PAGE_RW _PAGE_USER) demo_mapped = Ok (r, demo_mapped) ∧ r = 0.
Proof.
  destruct (user_mem_check_correct demo_mapped 4 0 0x400010 0x20 (Z.lor _PAGE_RW _PAGE_USER))
    as (r & Hrun & _ & Hiff).
  - apply demo_mapped_ok.
  - apply demo_mapped_ok.
  - unfold PAGE_SIZE. lia.
  - lia.
  - unfold PAGE_SIZE. lia.
  - exists r. split; [exact Hrun|]. apply Hiff. intros a Ha.
    assert (Hv : user_va a) by (unfold user_va, KERNEL_BASE_ADDR; lia).
    assert (Hs : same_page 0x400000 a).
    { unfold same_page, PAGE_SIZE. apply (Z.div_unique a 4096 1024 (a - 0x400000)); lia. }
    apply (allowed_same_page demo_mapped 4 0 _ 0x400000 a); [|exact Hv|exact Hs|].
    + unfold user_va, KERNEL_BASE_ADDR. lia.
    + split; [unfold KERNEL_BASE_ADDR; lia|]. exists 7. split; [exact demo_is_mapped|reflexivity].
Defined.

(** A range that wraps around the end of the address space is accepted unseen: the
    rounded end is 0 and no page is looked at, whatever the tables hold. *)
Lemma user_mem_check_wraps s pgd va len perm :
  0 ≤ va → va + len = 2 ^ 32 → user_mem_check pgd va len perm s = Ok (0, s).
Proof.
  intros Hva Hsum. unfold user_mem_check. rewrite Hsum. change (ROUNDUP (u32 (2 ^ 32)) PAGE_SIZE) with 0.
  change (S (Z.to_nat (0 / PAGE_SIZE))) with 1%nat. cbn [user_mem_check_loop].
  rewrite bool_decide_eq_false_2; [done|]. 
  unfold ROUNDDOWN, PAGE_SIZE. pose proof (Z.mod_le va 4096 Hva). lia.
Qed.
