(* ===== verification/Fork.v ===== *)
(** * Copying and releasing an address space: kernel/syscall/fork.c (task_set_vm,
    copy_task), kernel/mm/mm.c (alloc_mm, delete_vma), kernel/syscall/exit.c (exit_mm)

    [fork] gives the child a page directory of its own and shares every mapped page,
    without write permission; [exit] takes the areas, the tables and the directory
    down.  What [kmalloc] returns is an argument: the address of the new memory, 0
    when there is none. *)

From S2P Require Import Prelude Layout Buddy Paging Vma Fault.

Local Open Scope Z_scope.

(** [struct mm_struct] with the fields that Vma does not need. *)
Record user_mm := mk_user_mm {
  mm_areas : mm_struct;
  mm_pgd : Z;
  start_code : Z;
  end_code : Z;
  start_data : Z;
  end_data : Z;
  start_stack : Z;
  mm_count : Z;
}.

Definition alloc_mm (o : Z) : option user_mm :=
  if bool_decide (o = 0) then None
  else Some (mk_user_mm (mk_mm 0 0 USER_UNNAME_ZONE 0 0 0 ∅) 0 0 0 0 0 0 1).

(** [memmove(pgd, kpgd, PAGE_SIZE)] of two page-aligned addresses of the kernel. *)
Definition copy_kernel_page (dst src : Z) : M mstate unit :=
  s ← get;
  l ← of_option (mem s !! frame_of src);
  of_option (mem s !! frame_of dst) ;;
  set_mem (<[frame_of dst := l]>).

(** The [task_set_vm] of fork.c, with the [mm] of the current task. *)
Definition task_set_vm (o kpgd : Z) (cur : user_mm) : M mstate (Z * option user_mm) :=
  match alloc_mm o with
  | None => mret (- ENOMEM, None)
  | Some mm =>
      let a := mm_areas mm in
      let c := mm_areas cur in
      let a := mk_mm (mmap a) (mm_rb a) (free_area_cache a) (start_brk c) (end_brk c)
                 (mmap_count a) (areas a) in
      page ← page_alloc _GFP_ZERO;
      match (page : option Z) with
      | None => mret (- ENOMEM, None)
      | Some p =>
          s ← get;
          pgd ← lift (page2virt (m_max_pfn s) p);
          copy_kernel_page pgd kpgd ;;
          mret (0, Some (mk_user_mm a pgd (start_code cur) (end_code cur) (start_data mm)
                           (end_data mm) (start_stack cur) (mm_count mm)))
      end
  end.

(** ** copy_task *)

(** The pages of one area. *)
Fixpoint copy_pages (fuel : nat) (src dest start end_ : Z) : M mstate Z :=
  match fuel with
  | O => stop_with OutOfFuel
  | S fuel =>
      if bool_decide (start < end_) then
        srcpte ← page_walk src start false;
        match (srcpte : option Z) with
        | None => copy_pages fuel src dest (u32 (start + PAGE_SIZE)) end_
        | Some srcpte =>
            e ← load64 srcpte;
            if negb (pte_present e) then copy_pages fuel src dest (u32 (start + PAGE_SIZE)) end_
            else
              destpte ← page_walk dest start true;
              match (destpte : option Z) with
              | None => mret (- ENOMEM)
              | Some destpte =>
                  e ← load64 srcpte;
                  v ← lift (entry_page_vaddr e);
                  s ← get;
                  page ← lift (virt2page (m_max_pfn s) v);
                  pte_clearwrite srcpte ;;
                  atomic_inc_nref page ;;
                  e ← load64 srcpte;
                  store64 destpte e ;;
                  copy_pages fuel src dest (u32 (start + PAGE_SIZE)) end_
              end
        end
      else mret 0
  end.

(** The areas of the two tasks, the tables and the answers of [kmalloc] to come: the
    address and the contents of the child links of the new memory. *)
Record fork_state := mk_fork {
  src_areas : mm_struct;
  dest_areas : mm_struct;
  frames : mstate;
  kmallocs : list (Z * (Z * Z));
}.

Definition in_src {A} (m : M mm_struct A) : M fork_state A := λ s,
  match m (src_areas s) with
  | Ok (a, x) => Ok (a, mk_fork x (dest_areas s) (frames s) (kmallocs s)) | Stop w => Stop w end.
Definition in_dest {A} (m : M mm_struct A) : M fork_state A := λ s,
  match m (dest_areas s) with
  | Ok (a, x) => Ok (a, mk_fork (src_areas s) x (frames s) (kmallocs s)) | Stop w => Stop w end.
Definition in_frames {A} (m : M mstate A) : M fork_state A := λ s,
  match m (frames s) with
  | Ok (a, x) => Ok (a, mk_fork (src_areas s) (dest_areas s) x (kmallocs s)) | Stop w => Stop w end.

Definition next_kmalloc : M fork_state (Z * (Z * Z)) := λ s,
  match kmallocs s with
  | [] => Ok ((0, (0, 0)), s)
  | o :: l => Ok (o, mk_fork (src_areas s) (dest_areas s) (frames s) l)
  end.

Fixpoint copy_areas (fuel : nat) (src dest vma : Z) : M fork_state Z :=
  match fuel with
  | O => stop_with OutOfFuel
  | S fuel =>
      if bool_decide (vma = 0) then mret 0
      else
        v ← in_src (load_vma vma);
        let start := vm_start v in
        let end_ := vm_end v in
        o ← next_kmalloc;
        foo ← in_dest (create_vma fuel start (u32 (end_ - start)) (vm_flags v) o.1 o.2);
        if bool_decide (foo = 0) then mret (- ENOMEM)
        else
          r ← in_frames (copy_pages (S (Z.to_nat (end_ / PAGE_SIZE))) src dest start end_);
          if bool_decide (r < 0) then mret r
          else
            v ← in_src (load_vma vma);
            copy_areas fuel src dest (vm_next v)
  end.

Definition copy_task (fuel : nat) (src dest : Z) : M fork_state Z :=
  s ← get; copy_areas fuel src dest (mmap (src_areas s)).

(** ** Releasing: delete_vma and exit_mm *)

(** [vma_unmap_page]: one round per page below [end_]. *)
Fixpoint unmap_loop (fuel : nat) (pgd start end_ : Z) : M mstate unit :=
  match fuel with
  | O => stop_with OutOfFuel
  | S fuel =>
      if bool_decide (start < end_) then
        page_remove pgd start ;; unmap_loop fuel pgd (u32 (start + PAGE_SIZE)) end_
      else mret tt
  end.

Definition vma_unmap_page (pgd : Z) (vma : vm_area_struct) : M mstate unit :=
  unmap_loop (S (Z.to_nat (vm_end vma / PAGE_SIZE))) pgd (vm_start vma) (vm_end vma).

(** [kfree(vma)] takes the area out of the memory of the address space. *)
Definition delete_vma (fuel : nat) (pgd vma : Z) : M user_space unit :=
  v ← on_areas (load_vma vma);
  on_tables (vma_unmap_page pgd v) ;;
  on_areas (vm_link_del fuel vma) ;;
  on_areas (modify (set_areas_mm (delete vma))).

Fixpoint delete_all_loop (fuel : nat) (pgd vma : Z) : M user_space unit :=
  match fuel with
  | O => stop_with OutOfFuel
  | S fuel =>
      if bool_decide (vma = 0) then mret tt
      else
        delete_vma (S fuel) pgd vma ;;
        s ← get;
        delete_all_loop fuel pgd (mmap (areas_of s))
  end.

Definition delete_all_vma (fuel : nat) (pgd : Z) : M user_space unit :=
  s ← get;
  if bool_decide (mmap (areas_of s) = 0) then mret tt
  else
    delete_all_loop fuel pgd (mmap (areas_of s)) ;;
    on_areas (modify (set_mmap 0)).

(** Drops the table an entry points to and clears the entry. *)
Definition drop_table (entry e : Z) : M mstate unit :=
  v ← lift (entry_page_vaddr e);
  s ← get;
  p ← lift (virt2page (m_max_pfn s) v);
  page_decref p ;;
  entry_set entry 0 0.

Definition skips (e : Z) : bool := negb (pte_present e) || pgd_none e.

Fixpoint drop_ptes (n : nat) (pmd : Z) : M mstate unit :=
  match n with
  | O => mret tt
  | S n =>
      e ← load64 pmd;
      (if skips e then mret tt else drop_table pmd e) ;;
      drop_ptes n (u32 (pmd + 8))
  end.

Fixpoint drop_pmds (n : nat) (pgd : Z) : M mstate unit :=
  match n with
  | O => mret tt
  | S n =>
      e ← load64 pgd;
      (if skips e then mret tt
       else
         tmp ← lift (entry_page_vaddr e);
         drop_ptes 512 tmp ;;
         e ← load64 pgd;
         drop_table pgd e) ;;
      drop_pmds n (u32 (pgd + 8))
  end.

(** [exit_mm]; the result says whether the [mm] itself was freed. *)
Definition exit_mm (fuel : nat) (mm : user_mm) : M mstate (user_mm * bool) :=
  let pgd := mm_pgd mm in
  if bool_decide (pgd = 0) then mret (mm, false)
  else
    let mm := mk_user_mm (mm_areas mm) pgd (start_code mm) (end_code mm) (start_data mm)
                (end_data mm) (start_stack mm) (i32 (mm_count mm - 1)) in
    if bool_decide (mm_count mm ≠ 0) then mret (mm, false)
    else
      s ← get;
      r ← lift (delete_all_vma fuel pgd (mk_user (mm_areas mm) s));
      put (tables r.2) ;;
      drop_pmds (Z.to_nat (pgd_index KERNEL_BASE_ADDR)) pgd ;;
      s ← get;
      p ← lift (virt2page (m_max_pfn s) pgd);
      page_free p ;;
      mret (mk_user_mm (areas_of r.2) pgd (start_code mm) (end_code mm) (start_data mm)
              (end_data mm) (start_stack mm) (mm_count mm), true).
