(* ===== verification/ForkProofs.v ===== *)
(** * A forked task shares every page of its parent, and only until it writes

    Two page table trees live in one memory: [g], [o] is the directory of the parent
    and [g'], [o'] that of the child.  An operation on the tables of one leaves the
    other alone because their tables are different frames ([two_trees]). *)

From stdpp Require Import sorting.
From S2P Require Import Prelude Layout Buddy BuddyProofs Paging PagingProofs Vma VmaProofs Fault FaultProofs Fork.

Local Open Scope Z_scope.

(** ** Two trees in one memory *)

Definition table (s : mstate) (g o f : Z) : Prop :=
  f = g ∨ ∃ r, user_role r ∧ role_frame s g o r = Some f.

Lemma no_table_iff s g o f : no_table s g o f ↔ ¬ table s g o f.
Proof.
  unfold no_table, table. split.
  - intros [Hg Hr] [?|(r & Hu & E)]; [done|by apply (Hr r)].
  - intros Hn. split; [intros ->; apply Hn; by left|]. intros r Hu E. apply Hn. right. eauto.
Qed.

Lemma table_busy s g o f : tree_wf s g o → table s g o f → busy s f.
Proof. intros Hw [->|(r & Hu & E)]; [apply Hw|]. by apply (tw_busy s g o Hw r). Qed.

Record two_trees (s : mstate) (g o g' o' : Z) : Prop := {
  tt_inv : mm_inv s;
  tt_src : tree_wf s g o;
  tt_dest : tree_wf s g' o';
  tt_apart : ∀ f, table s g o f → no_table s g' o' f }.

Lemma tables_differ s g o g' o' f : two_trees s g o g' o' → table s g o f → table s g' o' f → False.
Proof. intros Ht Hf. apply no_table_iff. by apply (tt_apart _ _ _ _ _ Ht). Qed.

Lemma two_trees_sym s g o g' o' : two_trees s g o g' o' → two_trees s g' o' g o.
Proof.
  intros Ht. pose proof Ht as [? ? ? _]. split; [done..|]. intros f Hf. apply no_table_iff. intros Hf'.
  by apply (tables_differ s g o g' o' f).
Qed.

(** A tree is what its tables say. *)
Section frame.
Context (s s' : mstate) (g o : Z) (Hw : tree_wf s g o).
Context (Hmem : ∀ f, table s g o f → mem s' !! f = mem s !! f).

Lemma frame_ent f k : table s g o f → ent s' f k = ent s f k.
Proof. intros Hf. unfold ent. by rewrite Hmem. Qed.

Lemma frame_roles r : user_role r → role_frame s' g o r = role_frame s g o r.
Proof.
  intros Hr. destruct r as [i|i j]; simpl; rewrite (frame_ent g) by (by left); [done|].
  destruct (ent s g (o + i) ≫= child) as [m|] eqn:Hm; [|done]. simpl.
  rewrite frame_ent; [done|]. right. exists (RPmd i). split; [simpl in *; lia|done].
Qed.

Lemma frame_table f : table s' g o f ↔ table s g o f.
Proof.
  unfold table. split; (intros [?|(r & Hu & E)]; [by left|right; exists r; split; [done|]]).
  - by rewrite <- frame_roles.
  - by rewrite frame_roles.
Qed.

Lemma frame_mapped va : user_va va → mapped s' g o va = mapped s g o va.
Proof.
  intros Hv. destruct (user_va_role va Hv) as [_ Hu]. unfold mapped, entry_at. rewrite frame_roles by done.
  destruct (role_frame s g o _) as [f|] eqn:Hf; [|done]. simpl. rewrite frame_ent; [done|]. right. eauto.
Qed.

Lemma frame_tree : (∀ f, table s g o f → busy s' f) → tree_wf s' g o.
Proof.
  intros Hb. split.
  - apply Hb. by left.
  - apply Hw.
  - intros r f Hr. rewrite frame_roles by done. intros E. split; [apply Hb; right; eauto|].
    by apply (tw_busy s g o Hw r f).
  - intros r r' f Hr Hr'. rewrite !frame_roles by done. by apply (tw_inj s g o Hw).
Qed.
End frame.

(** ** Sharing pages *)

(** What [pte_clearwrite] makes of an entry. *)
Definition cow (e : Z) : Z := Z.land e (Z.lnot _PAGE_RW).

Lemma cow_idemp e : cow (cow e) = cow e.
Proof. unfold cow. by rewrite <- Z.land_assoc, Z.land_diag. Qed.

Lemma cow_present e : pte_present (cow e) = pte_present e.
Proof. unfold pte_present, has_flag, cow. by rewrite <- Z.land_assoc. Qed.

Lemma cow_frame e : eframe (cow e) = eframe e.
Proof.
  unfold eframe, PAGE_SIZE. change 4096 with (2 ^ 12). rewrite <- !Z.shiftr_div_pow2 by lia.
  unfold cow. rewrite Z.shiftr_land. change (Z.shiftr (Z.lnot _PAGE_RW) 12) with (-1). apply Z.land_m1_r.
Qed.

Lemma cow_not_writable e : pte_write (cow e) = false.
Proof.
  unfold pte_write, has_flag, cow. rewrite <- Z.land_assoc.
  change (Z.land (Z.lnot _PAGE_RW) _PAGE_RW) with 0. by rewrite Z.land_0_r.
Qed.

(** [va] is in one of the pages of the list. *)
Definition in_pages (va : Z) (vs : list Z) : Prop := Exists (same_page va) vs.

#[global] Instance in_pages_dec va vs : Decision (in_pages va vs).
Proof. unfold in_pages. apply _. Defined.

(** How many of the pages the frame [q] is mapped at. *)
Definition uses (s : mstate) (g o q : Z) (vs : list Z) : Z :=
  Z.of_nat (length (filter (λ va, old_frame s g o va = Some q) vs)).

Definition add_refs (n : Z) (pg : page) : page := set_nref (nref pg + n) pg.

(** [s'] is [s] after the pages [vs] of the parent have been shared. *)
Record shared (g o g' o' : Z) (s s' : mstate) (vs : list Z) : Prop := {
  sh_trees : two_trees s' g o g' o';
  sh_src : ∀ va, user_va va → mapped s' g o va =
    if decide (in_pages va vs) then cow <$> mapped s g o va else mapped s g o va;
  sh_dest : ∀ va, user_va va → mapped s' g' o' va =
    if decide (in_pages va vs ∧ is_Some (mapped s g o va)) then cow <$> mapped s g o va
    else mapped s g' o' va;
  sh_busy : ∀ q, busy s q → busy s' q;
  sh_meta : ∀ q, busy s q → meta s' q = add_refs (uses s g o q vs) <$> meta s q;
  sh_tables : ∀ q, busy s q → (no_table s g o q → no_table s' g o q) ∧
    (no_table s g' o' q → no_table s' g' o' q);
  sh_data : ∀ q, busy s q → no_table s g o q → no_table s g' o' q → mem s' !! q = mem s !! q;
  sh_neat : neat s g' o' → neat s' g' o' }.

Lemma uses_app s g o q vs vs' : uses s g o q (vs ++ vs') = uses s g o q vs + uses s g o q vs'.
Proof. unfold uses. rewrite filter_app, length_app. lia. Qed.

Lemma uses_bound s g o q vs : 0 ≤ uses s g o q vs ≤ Z.of_nat (length vs).
Proof. unfold uses. pose proof (length_filter (λ va, old_frame s g o va = Some q) vs). lia. Qed.

Lemma add_refs_0 pg : add_refs 0 pg = pg.
Proof. unfold add_refs. rewrite Z.add_0_r. by destruct pg. Qed.

Lemma add_refs_add n m pg : add_refs n (add_refs m pg) = add_refs (m + n) pg.
Proof. unfold add_refs. destruct pg. unfold set_nref. cbn. f_equal. lia. Qed.

Lemma shared_nil g o g' o' s : two_trees s g o g' o' → shared g o g' o' s s [].
Proof.
  intros H. split; [done|done| |done| |done|done|done].
  - intros va _. rewrite decide_False; [done|]. by intros [?%Exists_nil _].
  - intros q _. change (uses s g o q []) with 0. destruct (meta s q) as [pg|]; [|done].
    simpl. by rewrite add_refs_0.
Qed.

Lemma shared_old g o g' o' s s' vs va :
  shared g o g' o' s s' vs → user_va va → old_frame s' g o va = old_frame s g o va.
Proof.
  intros Hs Hv. unfold old_frame. rewrite (sh_src _ _ _ _ _ _ _ Hs) by done. case_decide; [|done].
  destruct (mapped s g o va); [|done]. simpl. by rewrite cow_frame.
Qed.

Lemma uses_ext g o s s' q vs :
  Forall (λ va, old_frame s' g o va = old_frame s g o va) vs → uses s' g o q vs = uses s g o q vs.
Proof.
  intros Hvs. unfold uses. f_equal. induction Hvs as [|va vs Hva Hvs IH]; [done|].
  rewrite !filter_cons, Hva. case_decide; simpl; congruence.
Qed.

Lemma shared_uses g o g' o' s s' vs q ws :
  shared g o g' o' s s' vs → Forall user_va ws → uses s' g o q ws = uses s g o q ws.
Proof.
  intros Hs Hws. apply uses_ext. eapply Forall_impl; [exact Hws|]. intros va Hva.
  exact (shared_old _ _ _ _ _ _ _ _ Hs Hva).
Qed.

Lemma shared_trans g o g' o' s s1 s2 vs ws :
  shared g o g' o' s s1 vs → shared g o g' o' s1 s2 ws → Forall user_va ws →
  shared g o g' o' s s2 (vs ++ ws).
Proof.
  intros H1 H2 Hws. split; [apply H2| | | | | | |intros Hn; by apply H2, H1].
  - intros va Hv. rewrite (sh_src _ _ _ _ _ _ _ H2), (sh_src _ _ _ _ _ _ _ H1) by done.
    unfold in_pages. destruct (mapped s g o va) as [e|]; repeat case_decide; simpl;
      rewrite ?cow_idemp; try done; exfalso; rewrite Exists_app in *; tauto.
  - intros va Hv. rewrite (sh_dest _ _ _ _ _ _ _ H2), (sh_src _ _ _ _ _ _ _ H1),
      (sh_dest _ _ _ _ _ _ _ H1) by done. unfold in_pages.
    destruct (mapped s g o va) as [e|]; repeat case_decide; simpl; rewrite ?cow_idemp; try done;
      exfalso; rewrite Exists_app in *; simpl in *; naive_solver.
  - intros q Hq. by apply (sh_busy _ _ _ _ _ _ _ H2), (sh_busy _ _ _ _ _ _ _ H1).
  - intros q Hq. rewrite (sh_meta _ _ _ _ _ _ _ H2) by (by apply (sh_busy _ _ _ _ _ _ _ H1)).
    rewrite (sh_meta _ _ _ _ _ _ _ H1), (shared_uses _ _ _ _ _ _ _ _ _ H1), uses_app by done.
    destruct (meta s q) as [pg|]; [|done]. simpl. by rewrite add_refs_add.
  - intros q Hq. pose proof (sh_tables _ _ _ _ _ _ _ H1 q Hq).
    pose proof (sh_tables _ _ _ _ _ _ _ H2 q (sh_busy _ _ _ _ _ _ _ H1 q Hq)). tauto.
  - intros q Hq Hn Hn'. destruct (sh_tables _ _ _ _ _ _ _ H1 q Hq) as [T1 T2].
    rewrite (sh_data _ _ _ _ _ _ _ H2); [by apply (sh_data _ _ _ _ _ _ _ H1)| |by apply T1|by apply T2].
    by apply (sh_busy _ _ _ _ _ _ _ H1).
Qed.

Lemma leaf_user va : user_va va → user_role (leaf_role va).
Proof. intros Hv. apply (user_va_role va Hv). Qed.

(** Tables for the child leave the parent alone. *)
Lemma extends_src_mem g o g' o' s s' :
  two_trees s g o g' o' → extends g' o' s s' → ∀ f, table s g o f → mem s' !! f = mem s !! f.
Proof.
  intros Ht Hx f Hf. apply (ex_data _ _ _ _ Hx); [|by apply (tt_apart _ _ _ _ _ Ht)].
  apply (table_busy s g o); [apply Ht|done].
Qed.

Lemma shared_extends g o g' o' s s' :
  two_trees s g o g' o' → extends g' o' s s' → shared g o g' o' s s' [].
Proof.
  intros Ht Hx. pose proof (extends_src_mem g o g' o' s s' Ht Hx) as Hm. pose proof Ht as [Hi Hw Hw' Ha].
  assert (Hb : ∀ f, table s g o f → busy s' f).
  { intros f Hf. apply (ex_busy _ _ _ _ Hx). by apply (table_busy s g o). }
  assert (Hn : ∀ q, busy s q → no_table s g' o' q → no_table s' g' o' q).
  { intros q. apply no_table_extends, Hx. }
  split.
  - split; [apply Hx|by apply (frame_tree s s' g o Hw Hm)|apply Hx|]. intros f Hf. apply (frame_table s s') in Hf; [|done].
    apply Hn; [by apply (table_busy s g o)|by apply Ha].
  - intros va Hv. by apply (frame_mapped s).
  - intros va Hv. rewrite decide_False by (by intros [?%Exists_nil _]). by apply Hx.
  - intros q Hq. by apply (ex_busy _ _ _ _ Hx).
  - intros q Hq. destruct (ex_busy _ _ _ _ Hx q Hq) as [_ ->]. change (uses s g o q []) with 0.
    destruct (meta s q) as [pg|]; [|done]. simpl. by rewrite add_refs_0.
  - intros q Hq. split; [|by apply Hn]. rewrite !no_table_iff. intros Hf Hq'. by apply Hf, (frame_table s s').
  - intros q Hq _ Hn'. by apply Hx.
  - apply Hx.
Qed.

Section step.
Context (s : mstate) (g o g' o' va e fs fd : Z) (pg : page).
Context (Ht : two_trees s g o g' o') (Hv : user_va va).
Context (He : mapped s g o va = Some e).
Context (Hfs : role_frame s g o (leaf_role va) = Some fs).
Context (Hfd : role_frame s g' o' (leaf_role va) = Some fd).
Context (Hb : busy s (eframe e)) (Hpg : mempage s !! eframe e = Some pg).
Context (Hn : no_table s g o (eframe e)) (Hn' : no_table s g' o' (eframe e)).

Let k := pte_index va.
Let s1 := put_ent fs k (cow e) s.
Let s2 := with_page (eframe e) (set_nref (nref pg + 1) pg) s1.
Let s3 := put_ent fd k (cow e) s2.

Lemma step_src_table : table s g o fs.
Proof. right. exists (leaf_role va). split; [by apply leaf_user|exact Hfs]. Qed.

Lemma step_dest_table : table s g' o' fd.
Proof. right. exists (leaf_role va). split; [by apply leaf_user|exact Hfd]. Qed.

Lemma step_dest_mem f : table s g' o' f → mem s2 !! f = mem s !! f.
Proof.
  intros Hf. apply mem_put_ne. intros ->. by apply (tables_differ s g o g' o' fs Ht step_src_table).
Qed.

Lemma step_src_roles r : user_role r → role_frame s1 g o r = role_frame s g o r.
Proof. apply put_leaf_role; [apply Ht|done|done]. Qed.

Lemma step_src_same f : table s1 g o f ↔ table s g o f.
Proof.
  unfold table. split; (intros [?|(r & Hu & E)]; [by left|right; exists r; split; [done|]]).
  - by rewrite <- step_src_roles.
  - by rewrite step_src_roles.
Qed.

Lemma step_src_mem f : table s1 g o f → mem s3 !! f = mem s1 !! f.
Proof.
  intros Hf%step_src_same. apply (mem_put_ne s2). intros ->.
  by apply (tables_differ s g o g' o' fd Ht Hf step_dest_table).
Qed.

Lemma step_dest_tree : tree_wf s2 g' o'.
Proof.
  apply (frame_tree s s2 g' o'); [apply Ht|apply step_dest_mem|]. intros f Hf. change (busy s f).
  apply (table_busy s g' o'); [apply Ht|done].
Qed.

Lemma step_dest_role r : user_role r → role_frame s2 g' o' r = role_frame s g' o' r.
Proof. apply frame_roles, step_dest_mem. Qed.

Lemma step_dest_same f : table s3 g' o' f ↔ table s g' o' f.
Proof.
  rewrite <- (frame_table s s2) by apply step_dest_mem. unfold table.
  assert (E : ∀ r, user_role r → role_frame s3 g' o' r = role_frame s2 g' o' r).
  { intros r. apply put_leaf_role; [apply step_dest_tree|done|]. rewrite step_dest_role; [done|].
    by apply leaf_user. }
  split; (intros [?|(r & Hu & Hr)]; [by left|right; exists r; split; [done|]]); [by rewrite <- E|by rewrite E].
Qed.

Lemma step_trees : two_trees s3 g o g' o'.
Proof.
  destruct Ht as [Hi Hw Hw' Ha]. split.
  - apply mm_inv_put. apply (mm_inv_nref s1); [by apply mm_inv_put|done|done].
  - apply (frame_tree s1 s3); [by apply put_leaf_tree|apply step_src_mem|].
    intros f Hf%step_src_same. change (busy s f). by apply (table_busy s g o).
  - apply put_leaf_tree; [apply step_dest_tree|done|]. rewrite step_dest_role; [done|]. by apply leaf_user.
  - intros f. rewrite (frame_table s1 s3) by apply step_src_mem. rewrite step_src_same.
    rewrite no_table_iff, step_dest_same, <- no_table_iff. apply Ha.
Qed.

Lemma step_dest_role3 r : user_role r → role_frame s3 g' o' r = role_frame s g' o' r.
Proof.
  intros Hr. rewrite <- step_dest_role by done. apply put_leaf_role; [apply step_dest_tree|done| |done].
  rewrite step_dest_role; [done|]. by apply leaf_user.
Qed.

Lemma step_neat : neat s g' o' → neat s3 g' o'.
Proof.
  intros [Hs1 Hs2]. split.
  - intros r f Hr. rewrite step_dest_role3 by done. intros Hf. apply (sole_same s s3); [|change (meta s2 f = meta s f)|by apply (Hs1 r)].
    + change (busy s f). by apply (tw_busy s g' o' (tt_dest _ _ _ _ _ Ht) r f).
    + unfold s2. rewrite (with_page_meta s1) by done. rewrite decide_False; [done|]. intros ->. by apply (proj2 Hn' r).
  - intros r fk x Hr Hp Hx.
    assert (Hp' : parent_slot s g' o' r = Some fk).
    { destruct r as [i|i j]; [done|]. cbn [parent_slot] in *. by rewrite step_dest_role3 in Hp by (simpl in *; lia). }
    destruct fk as [f i]. destruct (parent_not_leaf s g' o' r f i (tt_dest _ _ _ _ _ Ht) Hr Hp') as (Hi & _ & Hnl).
    apply (Hs2 r (f, i) x Hr Hp'). cbn [fst snd] in *. rewrite <- Hx. unfold ent. f_equal. symmetry. unfold s3. rewrite mem_put_ne.
    + apply step_dest_mem. destruct r as [a|a b]; [left; by injection Hp' as <-|right].
      cbn [parent_slot] in Hp'. destruct (role_frame s g' o' (RPmd a)) as [q|] eqn:Eq; [|done]. injection Hp' as <- <-.
      exists (RPmd a). split; [simpl in *; lia|done].
    + intros ->. by apply (Hnl (pgd_index va) (pmd_index va)); [apply leaf_user|].
Qed.

Lemma step_shared : shared g o g' o' s s3 [va].
Proof.
  destruct (mapped_slot s g o va e He) as (f & Hf & Hent & Hp). simplify_eq.
  destruct (ent_total s2 fd k) as [e0 He0].
  { apply (mm_inv_nref s1); [by apply mm_inv_put, Ht|done|done]. }
  { change (0 ≤ fd < zend (nz s)). by destruct (table_busy _ _ _ _ (tt_dest _ _ _ _ _ Ht) step_dest_table). }
  { apply index_ranges. }
  assert (Hin : ∀ va', in_pages va' [va] ↔ same_page va va').
  { intros va'. unfold in_pages. rewrite Exists_cons, Exists_nil. unfold same_page. naive_solver. }
  assert (Hsp : ∀ va', user_va va' → same_page va va' → mapped s g o va' = Some e).
  { intros va' Hv' Hs. by rewrite (mapped_same_page s g o va va'). }
  split; [apply step_trees| | |done| | | |apply step_neat].
  - intros va' Hv'. rewrite (frame_mapped s1 s3) by (done || apply step_src_mem).
    unfold s1, k. rewrite (put_leaf_mapped s g o va fs (tt_src _ _ _ _ _ Ht) Hv Hfs _ e va' Hent Hv'), cow_present, Hp.
    destruct (decide (same_page va va')) as [Hs|Hs].
    + rewrite decide_True by (by apply Hin). by rewrite Hsp.
    + by rewrite decide_False by (by intros ?%Hin).
  - intros va' Hv'. assert (Hfd2 : role_frame s2 g' o' (leaf_role va) = Some fd)
      by (rewrite step_dest_role; [done|by apply leaf_user]).
    unfold s3, k. rewrite (put_leaf_mapped s2 g' o' va fd step_dest_tree Hv Hfd2 _ e0 va' He0 Hv'), cow_present, Hp.
    destruct (decide (same_page va va')) as [Hs|Hs].
    + rewrite decide_True; [by rewrite Hsp|]. split; [by apply Hin|]. rewrite Hsp by done. eauto.
    + rewrite decide_False by (by intros [?%Hin _]). by apply (frame_mapped s s2 g' o' step_dest_mem).
  - intros q Hq. change (meta s3 q) with (meta s2 q). unfold s2. rewrite (with_page_meta s1) by done.
    unfold uses, old_frame. rewrite filter_cons, He. simpl. case_decide as E.
    + subst q. rewrite decide_True by done. unfold meta. by rewrite Hpg.
    + rewrite decide_False by congruence. change (meta s1 q) with (meta s q).
      destruct (meta s q) as [pq|]; [|done]. simpl. by rewrite add_refs_0.
  - intros q Hq. rewrite !no_table_iff, step_dest_same, (frame_table s1 s3) by apply step_src_mem.
    by rewrite step_src_same.
  - intros q Hq H1%no_table_iff H2%no_table_iff. unfold s3. rewrite mem_put_ne.
    + apply mem_put_ne. intros ->. apply H1, step_src_table.
    + intros ->. apply H2, step_dest_table.
Qed.
End step.

(** ** The loop over the pages of an area *)

Lemma shared_skip g o g' o' s va :
  two_trees s g o g' o' → user_va va → mapped s g o va = None → shared g o g' o' s s [va].
Proof.
  intros Ht Hv Hnone. pose proof (shared_nil g o g' o' s Ht) as [_ _ _ _ Hmeta _ _ _].
  assert (Hsp : ∀ va', user_va va' → in_pages va' [va] → mapped s g o va' = None).
  { intros va' Hv' Hin. rewrite (mapped_same_page s g o va va'); [done..|].
    apply Exists_cons in Hin as [Hs|Hs%Exists_nil]; [|done]. by symmetry. }
  split; [done| | |done| |done|done|done].
  - intros va' Hv'. case_decide as Hin; [|done]. by rewrite (Hsp va' Hv' Hin).
  - intros va' Hv'. rewrite decide_False; [done|]. intros [Hin [e He]].
    by rewrite (Hsp va' Hv' Hin) in He.
  - intros q Hq. rewrite (Hmeta q Hq) at 1. replace (uses s g o q [va]) with (uses s g o q []); [done|].
    unfold uses, old_frame. by rewrite filter_cons, Hnone.
Qed.

(** Every page of the parent is a data frame with room for [n] more references. *)
Definition sharable (s : mstate) (g o g' o' n : Z) : Prop :=
  ∀ va e, user_va va → mapped s g o va = Some e →
    busy s (eframe e) ∧ no_table s g o (eframe e) ∧ no_table s g' o' (eframe e) ∧
    ∃ pg, mempage s !! eframe e = Some pg ∧ 0 ≤ nref pg < 2 ^ 31 - n.

Lemma sharable_less s g o g' o' n m : sharable s g o g' o' n → m ≤ n → sharable s g o g' o' m.
Proof.
  intros H Hm va e Hv He. destruct (H va e Hv He) as (? & ? & ? & pg & ? & ?). split_and!; [done..|].
  exists pg. split; [done|lia].
Qed.

Lemma sharable_shared s s' g o g' o' n vs :
  shared g o g' o' s s' vs → sharable s g o g' o' n →
  sharable s' g o g' o' (n - Z.of_nat (length vs)).
Proof.
  intros Hs Hsh va e Hv He. pose proof (shared_old _ _ _ _ _ _ _ va Hs Hv) as Ho.
  unfold old_frame in Ho. rewrite He in Ho. destruct (mapped s g o va) as [e'|] eqn:He'; [|done].
  injection Ho as Ho. rewrite Ho. destruct (Hsh va e' Hv He') as (Hb & Hn & Hn' & pg & Hpg & Hr).
  destruct (sh_tables _ _ _ _ _ _ _ Hs _ Hb) as [T1 T2].
  split_and!; [by apply (sh_busy _ _ _ _ _ _ _ Hs)|by apply T1|by apply T2|].
  pose proof (sh_meta _ _ _ _ _ _ _ Hs _ Hb) as Hm. rewrite (meta_frame _ _ _ Hpg) in Hm.
  apply meta_Some in Hm as (pg' & Hpg' & Hnr & _). exists pg'. split; [done|]. rewrite Hnr. simpl.
  pose proof (uses_bound s g o (eframe e') vs). lia.
Qed.

Section share_run.
Context (g o g' o' : Z).

(** The work on a mapped page once the table of the child is there. *)
Lemma share_page_run {B} (c : M mstate B) s va e fs fd pg :
  two_trees s g o g' o' → user_va va → mapped s g o va = Some e →
  role_frame s g o (leaf_role va) = Some fs → role_frame s g' o' (leaf_role va) = Some fd →
  busy s (eframe e) → no_table s g o (eframe e) → no_table s g' o' (eframe e) →
  mempage s !! eframe e = Some pg → 0 ≤ nref pg < 2 ^ 31 - 1 →
  let srcpte := slot fs (pte_index va) in
  let destpte := slot fd (pte_index va) in
  ∃ s', shared g o g' o' s s' [va] ∧
    (e ← load64 srcpte;
     v ← lift (entry_page_vaddr e);
     s ← get;
     page ← lift (virt2page (m_max_pfn s) v);
     pte_clearwrite srcpte ;;
     atomic_inc_nref page ;;
     e ← load64 srcpte;
     store64 destpte e ;;
     c) s = c s'.
Proof.
  intros Ht Hv He Hfs Hfd Hb Hn Hn' Hpg Hr. cbv zeta.
  eexists. split; [by apply (step_shared s g o g' o' va e fs fd pg)|].
  destruct (mapped_slot s g o va e He) as (f & Hf & Hent & Hp). simplify_eq.
  pose proof (proj2 (proj2 (index_ranges va))) as Hk.
  rewrite (bind_Ok _ _ _ _ _ (load64_ok s fs _ e Hk Hent)).
  pose proof (frame_bounds s _ (tt_inv _ _ _ _ _ Ht) (proj1 Hb)) as [Hfb Hmx].
  rewrite (bind_Ok _ _ _ _ _ (lift_Ok _ _ _ (entry_vaddr_ok e Hfb))). run_step.
  rewrite (bind_Ok (lift _) _ s _ _ (lift_Ok _ _ _ (frame_virt _ _ Hfb Hmx))).
  unfold pte_clearwrite. rewrite bind_assoc. rewrite (bind_Ok _ _ _ _ _ (load64_ok s fs _ e Hk Hent)).
  rewrite (bind_Ok _ _ _ _ _ (store64_ok s fs _ e _ Hk Hent)).
  set (s1 := put_ent fs _ _ s). unfold atomic_inc_nref, upd_page. rewrite bind_assoc. run_step.
  rewrite bind_assoc. rewrite (bind_Ok _ _ _ _ _ (of_option_Some (mempage s1 !! eframe e) pg _ Hpg)). run_step.
  rewrite i32_small by lia. set (s2 := mk_mstate _ _ _ _ _ _).
  assert (Hent2 : ent s2 fs (pte_index va) = Some (cow e)) by exact (ent_put_eq s fs _ (cow e) e Hent).
  rewrite (bind_Ok _ _ _ _ _ (load64_ok s2 fs _ _ Hk Hent2)).
  destruct (ent_total s fd (pte_index va)) as [e0 He0]; [apply Ht| |done|].
  { apply (table_busy s g' o' fd); [apply Ht|]. right. eauto using leaf_user. }
  assert (He2 : ent s2 fd (pte_index va) = Some e0).
  { change (ent s1 fd (pte_index va) = Some e0). unfold s1. rewrite ent_put_ne; [done|lia|lia|].
    intros [= E]. subst fd. apply (tables_differ s g o g' o' fs Ht); right; eauto using leaf_user. }
  by rewrite (bind_Ok _ _ _ _ _ (store64_ok s2 fd _ e0 _ Hk He2)).
Qed.

Lemma copy_pages_step fuel s va end_ :
  two_trees s g o g' o' → sharable s g o g' o' 1 → user_va va → va ≠ 0 → va < end_ →
  ∃ s', (copy_pages (S fuel) (slot g o) (slot g' o') va end_ s = Ok (- ENOMEM, s') ∧
           shared g o g' o' s s' []) ∨
        (copy_pages (S fuel) (slot g o) (slot g' o') va end_ s =
           copy_pages fuel (slot g o) (slot g' o') (u32 (va + PAGE_SIZE)) end_ s' ∧
           shared g o g' o' s s' [va]).
Proof.
  intros Ht Hsh Hv Hv0 Hlt. pose proof Ht as [Hi Hw Hw' _]. cbn [copy_pages].
  rewrite bool_decide_eq_true_2 by done. destruct (role_frame s g o (leaf_role va)) as [fs|] eqn:Hfs.
  2: { rewrite (bind_Ok _ _ _ _ _ (page_walk_absent s g o va Hi Hw Hv Hv0 Hfs)).
       exists s. right. split; [done|]. apply shared_skip; [done..|]. unfold mapped, entry_at.
       fold (leaf_role va). by rewrite Hfs. }
  rewrite (bind_Ok _ _ _ _ _ (page_walk_found s g o va Hi Hw Hv Hv0 false fs Hfs)).
  pose proof (proj2 (proj2 (index_ranges va))) as Hk.
  destruct (ent_total s fs (pte_index va) Hi) as [e He]; [|done|].
  { apply (table_busy s g o fs); [done|]. right. eauto using leaf_user. }
  rewrite (bind_Ok _ _ _ _ _ (load64_ok s fs _ e Hk He)). pose proof (mapped_at s g o va fs e Hfs He) as Hm.
  destruct (pte_present e) eqn:Hp; cbn [negb]; [|exists s; right; split; [done|by apply shared_skip]].
  destruct (page_walk_create s g' o' va Hi Hw' Hv Hv0) as (r & s1 & Hrun & Hx & Hr).
  rewrite (bind_Ok _ _ _ _ _ Hrun). pose proof (shared_extends g o g' o' s s1 Ht Hx) as Hs1.
  destruct Hr as [[-> _]|(fd & Hfd & ->)]; [exists s1; by left|].
  assert (Hm1 : mapped s1 g o va = Some e) by (by rewrite (sh_src _ _ _ _ _ _ _ Hs1 va Hv)).
  destruct (sharable_shared s s1 g o g' o' 1 [] Hs1 Hsh va e Hv Hm1) as (Hb & Hn & Hn' & pg & Hpg & Hrg).
  assert (Hfs1 : role_frame s1 g o (leaf_role va) = Some fs).
  { rewrite (frame_roles s s1 g o (extends_src_mem g o g' o' s s1 Ht Hx)); [done|by apply leaf_user]. }
  destruct (share_page_run (copy_pages fuel (slot g o) (slot g' o') (u32 (va + PAGE_SIZE)) end_)
    s1 va e fs fd pg) as (s2 & Hs2 & Hrun2); [apply Hs1|done|done|done|done|done|done|done|done|simpl in Hrg; lia|].
  exists s2. right. split; [exact Hrun2|]. by apply (shared_trans g o g' o' s s1 s2 [] [va]); [|done|by apply Forall_singleton].
Qed.

(** The addresses of [n] pages from [start] on. *)
Fixpoint pages_from (n : nat) (start : Z) : list Z :=
  match n with O => [] | S n => start :: pages_from n (start + PAGE_SIZE) end.

Lemma pages_user n start :
  0 ≤ start → start + Z.of_nat n * PAGE_SIZE ≤ KERNEL_BASE_ADDR → Forall user_va (pages_from n start).
Proof.
  revert start. induction n as [|n IH]; intros start H0 He; [constructor|].
  assert (PAGE_SIZE = 4096) by done. constructor; [unfold user_va; lia|]. apply IH; lia.
Qed.

Lemma copy_pages_ok n : ∀ fuel s start,
  (n < fuel)%nat → two_trees s g o g' o' → sharable s g o g' o' (Z.of_nat n) →
  PAGE_SIZE ≤ start → start + Z.of_nat n * PAGE_SIZE ≤ KERNEL_BASE_ADDR →
  ∃ r s' vs, copy_pages fuel (slot g o) (slot g' o') start (start + Z.of_nat n * PAGE_SIZE) s = Ok (r, s') ∧
    shared g o g' o' s s' vs ∧ vs `prefix_of` pages_from n start ∧
    (r = 0 ∧ vs = pages_from n start ∨ r = - ENOMEM).
Proof.
  induction n as [|n IH]; intros [|fuel] s start Hf Ht Hsh Hlo Hhi; [lia| |lia|].
  { exists 0, s, []. split_and!; [|by apply shared_nil|done|by left].
    cbn [copy_pages]. by rewrite bool_decide_eq_false_2 by lia. }
  set (end_ := start + _) in *. assert (PAGE_SIZE = 4096) by done.
  assert (Hv : user_va start) by (unfold user_va; lia).
  destruct (copy_pages_step fuel s start end_ Ht) as (s1 & [[Hrun Hs1]|[Hrun Hs1]]);
    [eapply sharable_less; [exact Hsh|lia]|done|lia|lia| |].
  { exists (- ENOMEM), s1, []. split_and!; [done|done|apply prefix_nil|by right]. }
  rewrite Hrun, u32_small by (unfold KERNEL_BASE_ADDR in *; lia).
  assert (Hend : end_ = start + PAGE_SIZE + Z.of_nat n * PAGE_SIZE) by lia. rewrite Hend in *.
  destruct (IH fuel s1 (start + PAGE_SIZE)) as (r & s' & vs & Hrun' & Hs' & Hpre & Hr);
    [lia|apply Hs1| |lia|done|].
  { eapply sharable_less; [by eapply sharable_shared|]. simpl. lia. }
  exists r, s', (start :: vs). split_and!; [done| |by apply prefix_cons|].
  - apply (shared_trans g o g' o' s s1 s' [start] vs Hs1 Hs').
    destruct Hpre as [ws Hws]. pose proof (pages_user n (start + PAGE_SIZE)) as Hu.
    rewrite Hws, Forall_app in Hu. apply Hu; lia.
  - destruct Hr as [[-> ->]| ->]; [by left|by right].
Qed.
End share_run.

(** ** The areas *)

Section areas.
Context (g o g' o' : Z).

(** The list through [vm_next]. *)
Fixpoint vma_chain (A : gmap Z vm_area_struct) (x : Z) (l : list vm_area_struct) : Prop :=
  match l with
  | [] => x = 0
  | v :: l => x ≠ 0 ∧ A !! x = Some v ∧ vma_chain A (vm_next v) l
  end.

Definition good_vma (v : vm_area_struct) : Prop :=
  page_aligned (vm_start v) ∧ page_aligned (vm_end v) ∧
  PAGE_SIZE ≤ vm_start v ∧ vm_start v < vm_end v ∧ vm_end v ≤ KERNEL_BASE_ADDR.

Definition vma_apart (v w : vm_area_struct) : Prop := vm_end v ≤ vm_start w ∨ vm_end w ≤ vm_start v.

Definition vma_pages (v : vm_area_struct) : list Z :=
  pages_from (Z.to_nat ((vm_end v - vm_start v) / PAGE_SIZE)) (vm_start v).

Definition vma_range (v : vm_area_struct) : Z * Z := (vm_start v, vm_end v).
Definition area_range (a : area) : Z * Z := (a_lo a, a_hi a).

(** Answers of [kmalloc]: distinct new areas.  The theorems about new areas assume that
    the memory happens to hold 0 where the child links are: [create_vma] does not set
    them, nor does [insert_vma] (mm.c:100), and the tree is only a tree if they are 0. *)
Definition good_kmallocs (ks : list (Z * (Z * Z))) (t : tree) : Prop :=
  NoDup ks.*1 ∧ ∀ k, k ∈ ks → k.1 ≠ 0 ∧ k.1 ∉ ids t ∧ k.2 = (0, 0).

Lemma aligned_roundup x : page_aligned x → 0 ≤ x → x + PAGE_SIZE ≤ 2 ^ 32 → ROUNDUP x PAGE_SIZE = x.
Proof.
  intros [k Hk] Hx Hw. destruct (ROUNDUP_ge x PAGE_SIZE) as [H1 [j Hj]]; [done|lia|lia|].
  assert (PAGE_SIZE = 4096) by done. lia.
Qed.

Lemma length_pages_from n start : length (pages_from n start) = n.
Proof. revert start. induction n as [|n IH]; intros start; [done|]. simpl. by rewrite IH. Qed.

Lemma height_le t : (height t ≤ length (inorder t))%nat.
Proof. induction t as [|l IHl a r IHr]; [done|]. simpl. rewrite length_app. simpl. lia. Qed.

Lemma good_vma_span v :
  good_vma v → vm_start v + Z.of_nat (Z.to_nat ((vm_end v - vm_start v) / PAGE_SIZE)) * PAGE_SIZE = vm_end v.
Proof.
  intros ([x Hx] & [y Hy] & H1 & H2 & _). rewrite Hx, Hy in *.
  replace (y * PAGE_SIZE - x * PAGE_SIZE) with ((y - x) * PAGE_SIZE) by lia.
  rewrite Z.div_mul by done. assert (PAGE_SIZE = 4096) by done. lia.
Qed.

(** The area of the child has the range of the parent's. *)
Lemma new_area_range k v :
  good_vma v → area_range (new_area k (vm_start v) (vm_end v - vm_start v)) = vma_range v.
Proof.
  intros ([x Hx] & [y Hy] & H1 & H2 & H3). assert (PAGE_SIZE = 4096) by done.
  unfold area_range, new_area, vma_range. simpl. rewrite ROUNDDOWN_id by (done || by exists x).
  rewrite aligned_roundup; [f_equal; lia| |lia|unfold KERNEL_BASE_ADDR in *; lia].
  exists (y - x). lia.
Qed.

(** One area of the child. *)
Lemma create_copy_ok fuel m t v k :
  mm_ok m t → aligned_areas t → (length (inorder t) < fuel)%nat → good_vma v →
  range_free (vm_start v) (vm_end v) (inorder t) →
  k.1 ≠ 0 → k.1 ∉ ids t → k.2 = (0, 0) →
  let a := new_area k.1 (vm_start v) (vm_end v - vm_start v) in
  ∃ m', create_vma fuel (vm_start v) (u32 (vm_end v - vm_start v)) (vm_flags v) k.1 k.2 m = Ok (k.1, m') ∧
    mm_ok m' (tinsert a t) ∧ aligned_areas (tinsert a t).
Proof.
  intros Hok Hal Hf Hg Hfree Hk0 Hk Hjunk. cbv zeta. destruct Hg as (_ & _ & H1 & H2 & H3).
  pose proof (height_le t). rewrite u32_small by (unfold KERNEL_BASE_ADDR, PAGE_SIZE in *; lia). rewrite Hjunk.
  destruct (create_vma_ok m t fuel (vm_start v) (vm_end v - vm_start v) (vm_flags v) k.1) as (r & m' & Hrun & _ & Hr);
    [done|done|lia|done|lia|unfold KERNEL_BASE_ADDR, PAGE_SIZE in *; lia|done|done|].
  replace (vm_start v + (vm_end v - vm_start v)) with (vm_end v) in Hr by lia.
  destruct Hr as [(-> & _ & _ & Hok' & Hal')|(_ & _ & Hn)]; [|by destruct Hn].
  by exists m'.
Qed.

Lemma create_no_memory fuel m t v junk :
  mm_ok m t → (length (inorder t) < fuel)%nat → good_vma v →
  create_vma fuel (vm_start v) (u32 (vm_end v - vm_start v)) (vm_flags v) 0 junk m = Ok (0, m).
Proof.
  intros Hok Hf Hg. destruct Hg as (_ & _ & H1 & H2 & H3). pose proof (height_le t).
  rewrite u32_small by (unfold KERNEL_BASE_ADDR, PAGE_SIZE in *; lia). unfold create_vma.
  case_bool_decide; [done|].
  destruct (get_unmapped_vma_ok m t fuel (vm_start v) (vm_end v - vm_start v) Hok ltac:(lia)) as (r & Hrun & _);
    [unfold PAGE_SIZE, KERNEL_BASE_ADDR in *; lia..|].
  rewrite (bind_Ok _ _ _ _ _ Hrun). by case_bool_decide.
Qed.

Lemma in_frames_ok {A} (c : M mstate A) st a s' :
  c (frames st) = Ok (a, s') → in_frames c st = Ok (a, mk_fork (src_areas st) (dest_areas st) s' (kmallocs st)).
Proof. intros H. unfold in_frames. by rewrite H. Qed.

Lemma in_dest_ok {A} (c : M mm_struct A) st a m' :
  c (dest_areas st) = Ok (a, m') → in_dest c st = Ok (a, mk_fork (src_areas st) m' (frames st) (kmallocs st)).
Proof. intros H. unfold in_dest. by rewrite H. Qed.

Lemma in_src_load st x v :
  areas (src_areas st) !! x = Some v → in_src (load_vma x) st = Ok (v, st).
Proof. intros H. unfold in_src, load_vma. run_step. rewrite H. by destruct st. Qed.

(** What a run of [copy_areas] over the areas [l] leaves. *)
Record areas_copied (st st' : fork_state) (t : tree) (l : list vm_area_struct) (r : Z) (vs : list Z) (t' : tree) : Prop := {
  ac_src : src_areas st' = src_areas st;
  ac_shared : shared g o g' o' (frames st) (frames st') vs;
  ac_dest : mm_ok (dest_areas st') t' ∧ aligned_areas t';
  ac_pages : vs `prefix_of` concat (vma_pages <$> l);
  ac_end : r = - ENOMEM ∨ r = 0 ∧ vs = concat (vma_pages <$> l) ∧
    area_range <$> inorder t' ≡ₚ (vma_range <$> l) ++ (area_range <$> inorder t) }.

Lemma areas_pages_user l : Forall good_vma l → Forall user_va (concat (vma_pages <$> l)).
Proof.
  induction 1 as [|v l Hg Hl IH]; [constructor|]. simpl. apply Forall_app. split; [|done].
  pose proof (good_vma_span v Hg) as Hs. destruct Hg as (_ & _ & H1 & H2 & H3).
  apply pages_user; unfold PAGE_SIZE in *; lia.
Qed.

Lemma area_pages_ok st v :
  two_trees (frames st) g o g' o' → good_vma v →
  sharable (frames st) g o g' o' (Z.of_nat (length (vma_pages v))) →
  ∃ r s' vs, in_frames (copy_pages (S (Z.to_nat (vm_end v / PAGE_SIZE))) (slot g o) (slot g' o')
      (vm_start v) (vm_end v)) st = Ok (r, mk_fork (src_areas st) (dest_areas st) s' (kmallocs st)) ∧
    shared g o g' o' (frames st) s' vs ∧ vs `prefix_of` vma_pages v ∧ (r = 0 ∧ vs = vma_pages v ∨ r = - ENOMEM).
Proof.
  intros Ht Hg Hsh. pose proof (good_vma_span v Hg) as Hspan. destruct Hg as (_ & _ & H1 & H2 & H3).
  set (n := Z.to_nat ((vm_end v - vm_start v) / PAGE_SIZE)) in *.
  destruct (copy_pages_ok g o g' o' n (S (Z.to_nat (vm_end v / PAGE_SIZE))) (frames st) (vm_start v))
    as (r & s' & vs & Hrun & Hs & Hpre & Hr).
  - apply Nat.lt_succ_r, Z2Nat.inj_le.
    + apply Z.div_pos; [lia|done].
    + apply Z.div_pos; [unfold PAGE_SIZE in *; lia|done].
    + apply Z.div_le_mono; [done|unfold PAGE_SIZE in *; lia].
  - done.
  - replace (Z.of_nat n) with (Z.of_nat (length (vma_pages v))); [done|]. f_equal. apply length_pages_from.
  - done.
  - lia.
  - rewrite Hspan in Hrun. exists r, s', vs. split; [by apply in_frames_ok|]. done.
Qed.

Lemma good_kmallocs_tail k ks t lo len :
  good_kmallocs (k :: ks) t → good_kmallocs ks (tinsert (new_area k.1 lo len) t).
Proof.
  intros [[Hk Hnd]%NoDup_cons Hall]. split; [done|]. intros k' Hk'.
  destruct (Hall k' ltac:(set_solver)) as (H1 & H2 & H3). split_and!; [done| |done].
  rewrite tinsert_ids. simpl. intros [E|?]%elem_of_cons; [|done].
  apply Hk. rewrite <- E. apply list_elem_of_fmap. eauto.
Qed.

Lemma apart_after v l k t :
  good_vma v → Forall (vma_apart v) l → (∀ w, w ∈ l → range_free (vm_start w) (vm_end w) (inorder t)) →
  ∀ w, w ∈ l → range_free (vm_start w) (vm_end w)
    (inorder (tinsert (new_area k (vm_start v) (vm_end v - vm_start v)) t)).
Proof.
  intros Hg Hap Hfree w Hw b. rewrite tinsert_perm. intros [->|Hb]%elem_of_cons; [|by apply Hfree].
  pose proof (new_area_range k v Hg) as E.
  rewrite (f_equal fst E : a_lo _ = _), (f_equal snd E : a_hi _ = _).
  rewrite Forall_forall in Hap. by apply Hap.
Qed.

(** No memory: nothing more is copied. *)
Lemma copied_stops st m' s' ks t l vs t' :
  shared g o g' o' (frames st) s' vs → vs `prefix_of` concat (vma_pages <$> l) →
  mm_ok m' t' → aligned_areas t' →
  areas_copied st (mk_fork (src_areas st) m' s' ks) t l (- ENOMEM) vs t'.
Proof. intros. split; [done|done|done|done|by left]. Qed.

Lemma copied_cons st st1 st' t v l vs t' k r :
  good_vma v → Forall good_vma l → src_areas st1 = src_areas st →
  shared g o g' o' (frames st) (frames st1) (vma_pages v) →
  areas_copied st1 st' (tinsert (new_area k (vm_start v) (vm_end v - vm_start v)) t) l r vs t' →
  areas_copied st st' t (v :: l) r (vma_pages v ++ vs) t'.
Proof.
  intros Hg Hl Hsrc Hs [A1 A2 A3 A4 A5]. split; [by rewrite A1| |done| |].
  - eapply shared_trans; [done..|]. destruct A4 as [ws Hws].
    pose proof (areas_pages_user l Hl) as Hu. rewrite Hws, Forall_app in Hu. apply Hu.
  - simpl. by apply prefix_app.
  - destruct A5 as [->|(-> & -> & Hp)]; [by left|right]. split_and!; [done|done|].
    rewrite Hp, tinsert_perm. simpl. rewrite (new_area_range k v Hg). by rewrite Permutation_middle.
Qed.

Lemma copy_areas_ok l : ∀ fuel st t x,
  vma_chain (areas (src_areas st)) x l → Forall good_vma l → StronglySorted vma_apart l →
  two_trees (frames st) g o g' o' →
  sharable (frames st) g o g' o' (Z.of_nat (length (concat (vma_pages <$> l)))) →
  mm_ok (dest_areas st) t → aligned_areas t →
  (∀ v, v ∈ l → range_free (vm_start v) (vm_end v) (inorder t)) →
  good_kmallocs (kmallocs st) t → (2 * length l + length (inorder t) < fuel)%nat →
  ∃ r st' vs t', copy_areas fuel (slot g o) (slot g' o') x st = Ok (r, st') ∧
    areas_copied st st' t l r vs t'.
Proof.
  induction l as [|v l IH]; intros [|fuel] st t x Hch Hg Hap Ht Hsh Hok Hal Hfree Hks Hf; [lia| |lia|];
    cbn [copy_areas].
  { rewrite bool_decide_eq_true_2 by done. exists 0, st, [], t. split; [done|].
    split; [done|by apply shared_nil|done|done|by right]. }
  destruct Hch as (Hx0 & Hx & Hch). inversion Hg as [|? ? Hgv Hgl]; subst.
  apply StronglySorted_inv in Hap as [Hap Hapv]. simpl in Hf.
  rewrite bool_decide_eq_false_2 by done. rewrite (bind_Ok _ _ _ _ _ (in_src_load st x v Hx)).
  destruct (kmallocs st) as [|k ks] eqn:Ek; unfold next_kmalloc at 1; erewrite bind_Ok by (rewrite Ek; reflexivity).
  { erewrite bind_Ok by (apply in_dest_ok, (create_no_memory fuel _ t); [done|lia|done]).
    exists (- ENOMEM). eexists _, [], t. split; [reflexivity|].
    apply copied_stops; [by apply shared_nil|apply prefix_nil|done..]. }
  destruct (proj2 Hks k ltac:(set_solver)) as (K1 & K2 & K3).
  destruct (create_copy_ok fuel (dest_areas st) t v k) as (m1 & Hrun1 & Hok1 & Hal1);
    [done|done|lia|done|apply Hfree; set_solver|done..|].
  erewrite bind_Ok by (apply in_dest_ok; exact Hrun1). rewrite bool_decide_eq_false_2 by done.
  rewrite fmap_cons in Hsh. cbn [concat] in Hsh. rewrite length_app, Nat2Z.inj_add in Hsh. set (st1 := mk_fork _ m1 _ _).
  destruct (area_pages_ok st1 v) as (r & s' & vs & Hrun2 & Hs & Hpre & Hr); [done|done| |].
  { eapply sharable_less; [exact Hsh|lia]. }
  rewrite (bind_Ok _ _ _ _ _ Hrun2). destruct Hr as [[-> ->]| ->].
  2: { exists (- ENOMEM). eexists _, vs, _. split; [reflexivity|].
       apply (copied_stops st m1 s' ks t); [done| |done|done]. simpl. by apply prefix_app_r. }
  rewrite (bool_decide_eq_false_2 (0 < 0)) by lia. set (st2 := mk_fork _ _ s' _).
  rewrite (bind_Ok _ _ _ _ _ (in_src_load st2 x v Hx)).
  destruct (IH fuel st2 (tinsert (new_area k.1 (vm_start v) (vm_end v - vm_start v)) t) (vm_next v))
    as (r & st' & vs & t' & Hrun & Hac); [done|done|done|apply Hs| |done|done| | | |].
  { eapply sharable_less; [exact (sharable_shared _ _ _ _ _ _ _ _ Hs Hsh)|lia]. }
  { apply apart_after; [done|done|]. intros w Hw. apply Hfree. set_solver. }
  { by apply good_kmallocs_tail. }
  { rewrite tinsert_perm. simpl. lia. }
  exists r, st', (vma_pages v ++ vs), t'. split; [exact Hrun|]. by apply (copied_cons st st2 st' t v l vs t' k.1 r).
Qed.
End areas.

(** ** The page directory of the child *)

(** The frame [p], which was free, is a page directory without user tables. *)
Record new_directory (g o : Z) (s s' : mstate) (p : Z) : Prop := {
  nd_trees : two_trees s' g o p 0;
  nd_empty : ∀ r, user_role r → role_frame s' p 0 r = None;
  nd_mapped : ∀ va, user_va va → mapped s' g o va = mapped s g o va;
  nd_busy : ∀ q, busy s q → busy s' q ∧ q ≠ p;
  nd_meta : ∀ q, meta s' q = meta s q;
  nd_tables : ∀ q, no_table s g o q → no_table s' g o q;
  nd_data : ∀ q, q ≠ p → mem s' !! q = mem s !! q;
  nd_free : free_page (nz s) p }.

Section directory.
Context (g o : Z) (s s1 : mstate) (p : Z) (l : list Z).
Context (Htk : taken g o s s1 p) (Hlen : length l = 512%nat).
Context (Huser : ∀ i, 0 ≤ i < 3 → l !! Z.to_nat i = Some 0).

Let s' := with_mem (<[p := l]> (mem s1)) s1.

Lemma directory_other x : x ≠ p → mem s' !! x = mem s1 !! x.
Proof. intros Hx. apply lookup_insert_ne. congruence. Qed.

Lemma directory_empty r : user_role r → role_frame s' p 0 r = None.
Proof.
  assert (H : ∀ i, 0 ≤ i < 3 → role_frame s' p 0 (RPmd i) = None).
  { intros i Hi. unfold role_frame, ent, s'. cbn. rewrite lookup_insert_eq. cbn. by rewrite Huser. }
  destruct r as [i|i j]; intros Hr; [by apply H|]. rewrite role_frame_pte, H; [done|simpl in Hr; lia].
Qed.

Lemma directory_ok : new_directory g o s s' p.
Proof.
  pose proof (tk_table _ _ _ _ _ Htk) as Hnt. destruct (tk_frame _ _ _ _ _ Htk) as [Hbp _].
  pose proof (data_tree s1 s' g o p Hnt directory_other (tk_tree _ _ _ _ _ Htk) (λ q H, H)) as Hw.
  pose proof (data_roles s1 s' g o p Hnt directory_other) as Hroles.
  assert (Hn : ∀ q, no_table s g o q → no_table s' g o q).
  { intros q [Hg Hr]. split; [done|]. intros r Hu. rewrite Hroles, (tk_roles _ _ _ _ _ Htk) by done.
    by apply Hr. }
  split; [|apply directory_empty| | |apply Htk|done| |apply Htk].
  - split; [|done| |].
    + apply mm_inv_mem; [apply Htk|]. intros f Hf. destruct (decide (f = p)) as [->|Hne].
      * exists l. by rewrite lookup_insert_eq.
      * rewrite lookup_insert_ne by congruence. by apply (mi_mem s1 (tk_inv _ _ _ _ _ Htk)).
    + split; [done|lia| |]; intros r; intros; exfalso; by rewrite directory_empty in *.
    + intros f Hf. split.
      * intros ->. refine (proj1 (no_table_iff s' g o p) _ Hf). by apply (data_no_table s1 s' g o p Hnt directory_other).
      * intros r Hr. by rewrite directory_empty.
  - intros va Hv. rewrite (data_mapped s1 s' g o p) by (done || apply directory_other). by apply Htk.
  - apply Htk.
  - intros q Hq. rewrite directory_other by done. by apply Htk.
Qed.
End directory.

(** The [mm] that [task_set_vm] makes for a child with the directory [p]. *)
Definition child_mm (cur : user_mm) (p : Z) : user_mm :=
  mk_user_mm (mk_mm 0 0 USER_UNNAME_ZONE (start_brk (mm_areas cur)) (end_brk (mm_areas cur)) 0 ∅)
    (slot p 0) (start_code cur) (end_code cur) 0 0 (start_stack cur) 1.

(** The directory of the kernel: a busy frame without user tables. *)
Definition kernel_directory (s : mstate) (kf : Z) : Prop :=
  busy s kf ∧ ∀ i, 0 ≤ i < 3 → ent s kf i = Some 0.

(** A free frame becomes a directory when it gets the entries of the kernel. *)
Lemma copy_directory_ok s s1 g o kf p :
  kernel_directory s kf → taken g o s s1 p →
  page2virt (m_max_pfn s1) p = Ok (slot p 0) ∧
  ∃ s', copy_kernel_page (slot p 0) (slot kf 0) s1 = Ok (tt, s') ∧ new_directory g o s s' p.
Proof.
  intros [Hkb Hk0] Hr. destruct (tk_frame _ _ _ _ _ Hr) as [[Hpb _] _].
  pose proof (tk_inv _ _ _ _ _ Hr) as Hi1. pose proof (frame_bounds s1 p Hi1 Hpb) as [Hb1 Hb2]. split.
  { rewrite page2virt_ok; [by unfold slot; rewrite Z.mul_0_r, Z.add_0_r|lia| |apply Hi1].
    unfold PAGE_SIZE, NORMAL_ADDR, KERNEL_NORMAL, KERNEL_BASE_ADDR. lia. }
  unfold copy_kernel_page. destruct (tk_busy _ _ _ _ _ Hr kf Hkb) as [[Hkb1 _] Hkp].
  destruct (mi_mem s1 Hi1 kf Hkb1) as (l & Hl & Hlen). destruct (mi_mem s1 Hi1 p Hpb) as (lp & Hlp & _).
  run_step. rewrite !slot_frame by lia.
  rewrite (bind_Ok _ _ _ _ _ (of_option_Some _ _ _ Hl)), (bind_Ok _ _ _ _ _ (of_option_Some _ _ _ Hlp)).
  eexists. split; [reflexivity|].
  apply (directory_ok g o s s1 p l Hr Hlen). intros i Hi3. specialize (Hk0 i Hi3).
  unfold ent in Hk0. by rewrite <- (tk_data _ _ _ _ _ Hr kf Hkp), Hl in Hk0.
Qed.

Lemma task_set_vm_ok s g o kf ko cur :
  mm_inv s → tree_wf s g o → kernel_directory s kf → ko ≠ 0 →
  ∃ r om s', task_set_vm ko (slot kf 0) cur s = Ok ((r, om), s') ∧
    match om with
    | None => r = - ENOMEM ∧ s' = s
    | Some mm => r = 0 ∧ ∃ p, mm = child_mm cur p ∧ new_directory g o s s' p
    end.
Proof.
  intros Hi Hw Hk Hko. unfold task_set_vm, alloc_mm. rewrite bool_decide_eq_false_2 by done.
  destruct (page_alloc_taken s g o Hi Hw) as (r & s1 & Hrun & Hr). cbv zeta.
  rewrite (bind_Ok _ _ _ _ _ Hrun). destruct r as [p|]; [|destruct Hr as [-> _]; by exists (- ENOMEM), None, s].
  destruct (copy_directory_ok s s1 g o kf p Hk Hr) as (Hpv & s' & Hc & Hd).
  run_step. rewrite (bind_Ok _ _ _ _ _ (lift_Ok _ _ _ Hpv)), (bind_Ok _ _ _ _ _ Hc).
  eexists 0, (Some _), s'. split; [reflexivity|]. split; [done|]. by exists p.
Qed.

(** ** The forked task *)

Definition covered (va : Z) (l : list vm_area_struct) : Prop :=
  Exists (λ v, vm_start v ≤ va < vm_end v) l.

#[global] Instance covered_dec va l : Decision (covered va l).
Proof. unfold covered. apply _. Defined.

Lemma in_pages_from va n start :
  (PAGE_SIZE | start) → in_pages va (pages_from n start) ↔ start ≤ va < start + Z.of_nat n * PAGE_SIZE.
Proof.
  assert (PAGE_SIZE = 4096) as HP by done. revert start. unfold in_pages.
  induction n as [|n IH]; intros start Hd; cbn [pages_from]; [rewrite Exists_nil; lia|].
  rewrite Exists_cons, IH by (by apply Z.divide_add_r).
  assert (same_page va start ↔ start ≤ va < start + PAGE_SIZE) as ->; [|lia].
  destruct Hd as [x ->]. unfold same_page. rewrite HP, Z.div_mul by lia. split; intros Hx.
  - pose proof (Z.div_mod va 4096 ltac:(lia)). pose proof (Z.mod_pos_bound va 4096 ltac:(lia)). lia.
  - symmetry. apply (Z.div_unique va 4096 x (va - x * 4096)); lia.
Qed.

Lemma in_pages_covered va l :
  Forall good_vma l → in_pages va (concat (vma_pages <$> l)) ↔ covered va l.
Proof.
  unfold covered, in_pages. induction 1 as [|v l Hg Hl IH]; [by rewrite !Exists_nil|].
  rewrite fmap_cons. cbn [concat]. rewrite Exists_app, Exists_cons, IH.
  pose proof (in_pages_from va (Z.to_nat ((vm_end v - vm_start v) / PAGE_SIZE)) (vm_start v) (proj1 Hg)) as Hv.
  unfold in_pages in Hv. unfold vma_pages. rewrite Hv, good_vma_span by done. done.
Qed.

(** The pages of the parent's areas. *)
Definition all_pages (l : list vm_area_struct) : list Z := concat (vma_pages <$> l).

(** A task that can be forked: its areas are a list of disjoint page ranges below the
    kernel, and every page it maps is a data frame with at least one reference and
    room for one more per page of its areas. *)
Record fork_ready (s : mstate) (g o : Z) (cur : user_mm) (l : list vm_area_struct) : Prop := {
  fr_inv : mm_inv s;
  fr_tree : tree_wf s g o;
  fr_chain : vma_chain (areas (mm_areas cur)) (mmap (mm_areas cur)) l;
  fr_good : Forall good_vma l;
  fr_apart : StronglySorted vma_apart l;
  fr_pages : ∀ va e, user_va va → mapped s g o va = Some e →
    busy s (eframe e) ∧ no_table s g o (eframe e) ∧
    ∃ pg, mempage s !! eframe e = Some pg ∧ 1 ≤ nref pg < 2 ^ 31 - Z.of_nat (length (all_pages l)) }.

(** After a successful fork: every page the parent maps in one of its areas is mapped
    by both, to the same frame and without write permission; the frame has one more
    reference for each; nothing else is mapped for the child and no contents have
    changed. *)
Record forked (g o p : Z) (s s' : mstate) (l : list vm_area_struct) : Prop := {
  fk_trees : two_trees s' g o p 0;
  fk_parent : ∀ va, user_va va → mapped s' g o va =
    if decide (covered va l) then cow <$> mapped s g o va else mapped s g o va;
  fk_child : ∀ va, user_va va → mapped s' p 0 va =
    if decide (covered va l) then cow <$> mapped s g o va else None;
  fk_refs : ∀ q, busy s q → busy s' q ∧ meta s' q = add_refs (uses s g o q (all_pages l)) <$> meta s q;
  fk_tables : ∀ q, busy s q → no_table s g o q → no_table s' g o q ∧ no_table s' p 0 q;
  fk_data : ∀ q, busy s q → no_table s g o q → mem s' !! q = mem s !! q }.

Lemma uses_mapped s s' g o q vs :
  (∀ va, user_va va → mapped s' g o va = mapped s g o va) → Forall user_va vs →
  uses s' g o q vs = uses s g o q vs.
Proof.
  intros Hm Hvs. unfold uses, old_frame. f_equal. induction Hvs as [|va vs Hva Hvs IH]; [done|].
  rewrite !filter_cons, Hm by done. case_decide; simpl; congruence.
Qed.

Section forked.
Context (g o p : Z) (s s1 : mstate) (l : list vm_area_struct) (Hd : new_directory g o s s1 p).

Lemma child_empty va : user_va va → mapped s1 p 0 va = None.
Proof.
  intros Hv. unfold mapped, entry_at. rewrite (nd_empty _ _ _ _ _ Hd); [done|]. by apply leaf_user.
Qed.

Lemma child_no_table q : busy s q → no_table s1 p 0 q.
Proof.
  intros Hq. split; [by apply (nd_busy _ _ _ _ _ Hd)|]. intros r Hr.
  by rewrite (nd_empty _ _ _ _ _ Hd).
Qed.

Lemma ready_sharable cur : fork_ready s g o cur l → sharable s1 g o p 0 (Z.of_nat (length (all_pages l))).
Proof.
  intros Hf va e Hv. rewrite (nd_mapped _ _ _ _ _ Hd) by done. intros He.
  destruct (fr_pages _ _ _ _ _ Hf va e Hv He) as (Hb & Hn & pg & Hpg & Hr).
  split_and!; [by apply (nd_busy _ _ _ _ _ Hd)|by apply (nd_tables _ _ _ _ _ Hd)|by apply child_no_table|].
  pose proof (nd_meta _ _ _ _ _ Hd (eframe e)) as Hm. rewrite (meta_frame _ _ _ Hpg) in Hm.
  apply meta_Some in Hm as (pg' & Hpg' & Hnr & _). exists pg'. split; [done|]. simpl in Hnr. lia.
Qed.

Lemma shared_forked s' :
  Forall good_vma l → shared g o p 0 s1 s' (all_pages l) → forked g o p s s' l.
Proof.
  intros Hg Hs. assert (Hu : Forall user_va (all_pages l)) by (by apply areas_pages_user).
  assert (Hc : ∀ va, in_pages va (all_pages l) ↔ covered va l) by (intros va; by apply in_pages_covered).
  assert (Hb : ∀ q, busy s q → busy s1 q) by (intros q Hq; by apply (nd_busy _ _ _ _ _ Hd)).
  split.
  - apply Hs.
  - intros va Hv. rewrite (sh_src _ _ _ _ _ _ _ Hs), (nd_mapped _ _ _ _ _ Hd) by done.
    by rewrite (decide_ext _ _ _ _ (Hc va)).
  - intros va Hv. rewrite (sh_dest _ _ _ _ _ _ _ Hs), (nd_mapped _ _ _ _ _ Hd), child_empty by done.
    specialize (Hc va). destruct (mapped s g o va); repeat case_decide; naive_solver.
  - intros q Hq. split; [by apply (sh_busy _ _ _ _ _ _ _ Hs), Hb|].
    rewrite (sh_meta _ _ _ _ _ _ _ Hs), (nd_meta _ _ _ _ _ Hd) by (by apply Hb).
    by rewrite (uses_mapped s s1) by (done || apply (nd_mapped _ _ _ _ _ Hd)).
  - intros q Hq Hn. destruct (sh_tables _ _ _ _ _ _ _ Hs q (Hb q Hq)) as [T1 T2].
    split; [by apply T1, (nd_tables _ _ _ _ _ Hd)|by apply T2, child_no_table].
  - intros q Hq Hn. rewrite (sh_data _ _ _ _ _ _ _ Hs); [|by apply Hb|by apply (nd_tables _ _ _ _ _ Hd)|by apply child_no_table].
    by apply (nd_data _ _ _ _ _ Hd), (nd_busy _ _ _ _ _ Hd).
Qed.
End forked.

Lemma child_mm_ok cur p : mm_ok (mm_areas (child_mm cur p)) Leaf ∧ aligned_areas Leaf.
Proof.
  split; [split; [done|constructor|split; constructor]|]. intros a Ha. by apply elem_of_nil in Ha.
Qed.

(** How [copy_task] ends for a child with the directory [p]. *)
(** A copy that was not finished: the pages [vs] are shared, and [t] is the tree of the
    areas the child has. *)
Definition half_made (g o p : Z) (s s' : mstate) (l : list vm_area_struct) (m : mm_struct) (t : tree) : Prop :=
  mm_ok m t ∧ ∃ s1 vs, new_directory g o s s1 p ∧ shared g o p 0 s1 s' vs ∧ vs `prefix_of` all_pages l.

Definition copy_ended (g o p : Z) (s : mstate) (l : list vm_area_struct) (r : Z) (st : fork_state) : Prop :=
  r = 0 ∧ forked g o p s (frames st) l ∧
    (∃ t, mm_ok (dest_areas st) t ∧ area_range <$> inorder t ≡ₚ vma_range <$> l) ∨
  r = - ENOMEM ∧
    (∀ va, user_va va → old_frame (frames st) g o va = old_frame s g o va) ∧
    (∀ q, busy s q → no_table s g o q → mem (frames st) !! q = mem s !! q) ∧
    ∃ t, half_made g o p s (frames st) l (dest_areas st) t.

Lemma copy_task_ok s s1 g o p cur l ks fuel :
  fork_ready s g o cur l → new_directory g o s s1 p → good_kmallocs ks Leaf → (2 * length l < fuel)%nat →
  ∃ r st, copy_task fuel (slot g o) (slot p 0)
      (mk_fork (mm_areas cur) (mm_areas (child_mm cur p)) s1 ks) = Ok (r, st) ∧
    src_areas st = mm_areas cur ∧ copy_ended g o p s l r st.
Proof.
  intros Hf Hd Hks Hfuel. destruct (child_mm_ok cur p) as [Hok Hal].
  destruct (copy_areas_ok g o p 0 l fuel (mk_fork (mm_areas cur) (mm_areas (child_mm cur p)) s1 ks) Leaf
    (mmap (mm_areas cur))) as (r' & st' & vs & t & Hrun' & [A1 A2 A3 A4 A5]);
    [apply Hf|apply Hf|apply Hf|apply Hd|by eapply ready_sharable|done|done| |done|simpl; lia|].
  { intros v _ b Hb. by apply elem_of_nil in Hb. }
  exists r', st'. split_and!; [exact Hrun'|done|]. destruct A5 as [->|(-> & -> & Hp)].
  - right. split; [done|]. split; [|split].
    3: { exists t. split; [apply A3|]. by exists s1, vs. }
    + intros va Hv. rewrite (shared_old _ _ _ _ _ _ _ va A2 Hv). unfold old_frame.
      by rewrite (nd_mapped _ _ _ _ _ Hd).
    + intros q Hq Hn. rewrite (sh_data _ _ _ _ _ _ _ A2 q);
        [|by apply (nd_busy _ _ _ _ _ Hd)|by apply (nd_tables _ _ _ _ _ Hd)|by apply (child_no_table g o p s s1 Hd)].
      by apply (nd_data _ _ _ _ _ Hd), (nd_busy _ _ _ _ _ Hd).
  - left. split; [done|]. split; [|exists t; split; [apply A3|]].
    + by apply (shared_forked g o p s s1 l Hd); [apply Hf|].
    + by rewrite Hp, app_nil_r.
Qed.

(** C11: forking an address space terminates.  When a frame or [kmalloc] is missing it
    answers -ENOMEM: either nothing has happened, or the parent still maps every page
    to the frame it had, with its contents.  Otherwise parent and child are [forked]:
    both map every page of the parent's areas to the same frame, without write
    permission and with exact reference counts, the child maps nothing else, no
    contents have changed, and the child has areas of its own with the same ranges. *)
Theorem fork_shares_pages (s : mstate) (g o kf ko : Z) (cur : user_mm) (l : list vm_area_struct)
    (ks : list (Z * (Z * Z))) (fuel : nat) :
  fork_ready s g o cur l → kernel_directory s kf → ko ≠ 0 → good_kmallocs ks Leaf →
  (2 * length l < fuel)%nat →
  ∃ r om s1, task_set_vm ko (slot kf 0) cur s = Ok ((r, om), s1) ∧
    match om with
    | None => r = - ENOMEM ∧ s1 = s
    | Some mm => r = 0 ∧ ∃ p r' st', mm = child_mm cur p ∧ free_page (nz s) p ∧
        copy_task fuel (slot g o) (mm_pgd mm) (mk_fork (mm_areas cur) (mm_areas mm) s1 ks) = Ok (r', st') ∧
        src_areas st' = mm_areas cur ∧
        copy_ended g o p s l r' st'
    end.
Proof.
  intros Hf Hk Hko Hks Hfuel.
  destruct (task_set_vm_ok s g o kf ko cur (fr_inv _ _ _ _ _ Hf) (fr_tree _ _ _ _ _ Hf) Hk Hko)
    as (r & om & s1 & Hrun & Hom).
  exists r, om, s1. split; [done|]. destruct om as [mm|]; [|done]. destruct Hom as (-> & p & -> & Hd).
  destruct (copy_task_ok s s1 g o p cur l ks fuel Hf Hd Hks Hfuel) as (r' & st' & Hrun' & Hsrc & Hend).
  split; [done|]. exists p, r', st'. split_and!; [done|apply Hd|done..].
Qed.

(** ** A write after the fork *)

(** A frame mapped in one of the pages is counted. *)
Lemma uses_covered s g o l va e :
  Forall good_vma l → user_va va → covered va l → mapped s g o va = Some e →
  1 ≤ uses s g o (eframe e) (all_pages l).
Proof.
  intros Hg Hv Hc He. apply (in_pages_covered va l Hg) in Hc. unfold in_pages in Hc.
  apply Exists_exists in Hc as (x & Hx & Hs). pose proof (areas_pages_user l Hg) as Hu.
  rewrite Forall_forall in Hu. specialize (Hu x Hx). unfold uses.
  assert (Hin : x ∈ filter (λ va, old_frame s g o va = Some (eframe e)) (all_pages l)).
  { apply list_elem_of_filter. split; [|done]. unfold old_frame.
    by rewrite (mapped_same_page s g o va x Hv Hu Hs), He. }
  apply list_elem_of_split in Hin as (l1 & l2 & ->). rewrite length_app. simpl. lia.
Qed.

Lemma forked_shared_frame s s' g o p cur l va e pg :
  fork_ready s g o cur l → forked g o p s s' l → user_va va → mapped s' p 0 va = Some e →
  mempage s' !! eframe e = Some pg → 2 ≤ nref pg.
Proof.
  intros Hf Hk Hv He Hpg. rewrite (fk_child _ _ _ _ _ _ Hk) in He by done.
  destruct (decide (covered va l)) as [Hc|]; [|done].
  destruct (mapped s g o va) as [e0|] eqn:He0; [|done]. injection He as <-. rewrite cow_frame in Hpg.
  destruct (fr_pages _ _ _ _ _ Hf va e0 Hv He0) as (Hb & _ & pg0 & Hpg0 & Hr).
  destruct (fk_refs _ _ _ _ _ _ Hk _ Hb) as [_ Hm].
  rewrite (meta_frame _ _ _ Hpg), (meta_frame _ _ _ Hpg0) in Hm. injection Hm as Hm _.
  pose proof (uses_covered s g o l va e0 (fr_good _ _ _ _ _ Hf) Hv Hc He0).
  simpl in Hm. lia.
Qed.

(** The fault of one task seen from the other. *)
Lemma fault_other_side s s' g o g' o' (same : ∀ i, busy s i → no_table s g' o' i → mem s' !! i = mem s !! i) :
  two_trees s g o g' o' →
  (∀ va, user_va va → mapped s' g o va = mapped s g o va).
Proof.
  intros Ht va Hv. apply (frame_mapped s s' g o); [|done]. intros f Hf.
  apply same; [apply (table_busy s g o); [apply Ht|done]|by apply (tt_apart _ _ _ _ _ Ht)].
Qed.

Lemma forked_isolated (s s' : mstate) (g o p : Z) (cur : user_mm) (l : list vm_area_struct)
    (va e f : Z) (pg : page) :
  fork_ready s g o cur l → forked g o p s s' l → user_page s' p 0 va e pg →
  role_frame s' p 0 (leaf_role va) = Some f →
  ∃ r s'', do_wp_fault (slot p 0) va (slot f (pte_index va)) s' = Ok (r, s'') ∧
    (∀ va', user_va va' → mapped s'' g o va' = mapped s' g o va') ∧
    (∀ va' q, user_va va' → old_frame s g o va' = Some q → mem s'' !! q = mem s !! q) ∧
    (r = Killed → scarce 2 s') ∧
    (r = Resumes → ∃ n, mapped s'' p 0 va = Some (n * PAGE_SIZE + USER_PERM) ∧
       mem s'' !! n = mem s !! eframe e ∧ ∀ va', user_va va' → old_frame s'' g o va' ≠ Some n).
Proof.
  intros Hf Hk Hup Hrole. destruct (up_ref _ _ _ _ _ _ Hup) as [(Hb' & Hpg & _) _].
  destruct (up_va _ _ _ _ _ _ Hup) as (Hv & _).
  pose proof (forked_shared_frame s s' g o p cur l va e pg Hf Hk Hv (up_entry _ _ _ _ _ _ Hup) Hpg) as H2.
  destruct (wp_shared_run s' p 0 va e pg f Hup ltac:(lia) Hrole) as (r & s'' & Hrun & Hr).
  exists r, s''. split; [done|].
  assert (same : ∀ i, busy s' i → no_table s' p 0 i → mem s'' !! i = mem s' !! i).
  { destruct r; [destruct Hr as [n Hn]; apply Hn|apply Hr]. }
  assert (Hkill : r = Killed → scarce 2 s') by (intros ->; apply Hr).
  pose proof (fault_other_side s' s'' g o p 0 same (fk_trees _ _ _ _ _ _ Hk)) as Hm.
  assert (Hold : ∀ va' q, user_va va' → old_frame s g o va' = Some q → busy s q ∧ no_table s g o q).
  { intros va' q Hv' Ho. unfold old_frame in Ho. destruct (mapped s g o va') as [e'|] eqn:He'; [|done].
    injection Ho as <-. by destruct (fr_pages _ _ _ _ _ Hf va' e' Hv' He') as (? & ? & _). }
  assert (Hkeep : ∀ q, busy s q → no_table s g o q → mem s'' !! q = mem s !! q).
  { intros q Hb Hn. rewrite same; [by apply (fk_data _ _ _ _ _ _ Hk)| |].
    - by apply (fk_refs _ _ _ _ _ _ Hk). - by apply (fk_tables _ _ _ _ _ _ Hk). }
  assert (Hsame : ∀ va', user_va va' → old_frame s'' g o va' = old_frame s g o va').
  { intros va' Hv'. unfold old_frame. rewrite Hm, (fk_parent _ _ _ _ _ _ Hk) by done.
    case_decide; [|done]. destruct (mapped s g o va'); [|done]. simpl. by rewrite cow_frame. }
  split_and!; [done| |done|].
  - intros va' q Hv' Ho. by apply Hkeep; apply (Hold va' q).
  - intros ->. destruct Hr as [n Hn]. exists n. split_and!.
    + rewrite (pc_mapped _ _ _ _ _ _ _ _ Hn) by done. by rewrite decide_True.
    + rewrite (pc_copy _ _ _ _ _ _ _ _ Hn). pose proof (up_entry _ _ _ _ _ _ Hup) as He.
      rewrite (fk_child _ _ _ _ _ _ Hk) in He by done. case_decide; [|done].
      destruct (mapped s g o va) as [e0|] eqn:He0; [|done]. injection He as <-. rewrite cow_frame.
      destruct (fr_pages _ _ _ _ _ Hf va e0 Hv He0) as (Hb & Hn0 & _). by apply (fk_data _ _ _ _ _ _ Hk).
    + intros va' Hv' Ho. rewrite Hsame in Ho by done. destruct (Hold va' n Hv' Ho) as [Hb _].
      apply (fk_refs _ _ _ _ _ _ Hk) in Hb as [[_ Hb] _]. apply Hb, (pc_free _ _ _ _ _ _ _ _ Hn).
Qed.

(** The two halves of a fork, when both succeed. *)
Lemma fork_run_forked s s1 g o kf ko cur mm l ks fuel st :
  fork_ready s g o cur l → kernel_directory s kf → ko ≠ 0 → good_kmallocs ks Leaf →
  (2 * length l < fuel)%nat →
  task_set_vm ko (slot kf 0) cur s = Ok ((0, Some mm), s1) →
  copy_task fuel (slot g o) (mm_pgd mm) (mk_fork (mm_areas cur) (mm_areas mm) s1 ks) = Ok (0, st) →
  ∃ p, mm_pgd mm = slot p 0 ∧ forked g o p s (frames st) l.
Proof.
  intros Hf Hk Hko Hks Hfuel Hrun Hrun'.
  destruct (task_set_vm_ok s g o kf ko cur (fr_inv _ _ _ _ _ Hf) (fr_tree _ _ _ _ _ Hf) Hk Hko)
    as (r & om & s1' & Hset & Hom).
  rewrite Hset in Hrun. injection Hrun as -> -> ->. destruct Hom as (_ & p & -> & Hd).
  destruct (copy_task_ok s s1 g o p cur l ks fuel Hf Hd Hks Hfuel) as (r' & st' & Hcopy & _ & Hend).
  exists p. split; [done|]. change (slot p 0) with (mm_pgd (child_mm cur p)) in Hcopy.
  rewrite Hcopy in Hrun'. injection Hrun' as -> ->.
  destruct Hend as [(_ & H & _)|[H _]]; [exact H|discriminate H].
Qed.

(** Both sides have the page, at the same frame, and neither may write to it. *)
Lemma forked_read_only s s' g o p l va e :
  forked g o p s s' l → user_va va → mapped s' p 0 va = Some e →
  pte_present e = true ∧ pte_write e = false ∧ mapped s' g o va = Some e.
Proof.
  intros Hk Hv He. pose proof He as He'. destruct (mapped_slot s' p 0 va e He') as (_ & _ & _ & Hp). split; [done|].
  rewrite (fk_child _ _ _ _ _ _ Hk) in He by done. rewrite (fk_parent _ _ _ _ _ _ Hk) by done. case_decide; [|done].
  split; [|done]. destruct (mapped s g o va) as [e0|]; [|done]. injection He as <-. apply cow_not_writable.
Qed.

(** The write to such a page comes to [do_wp_fault]. *)
Lemma write_fault_run s g o va e f vm_start start_brk err :
  tree_wf s g o → user_va va → mapped s g o va = Some e → pte_write e = false → role_frame s g o (leaf_role va) = Some f → Z.land err 2 ≠ 0 →
  handle_pte_fault (slot g o) vm_start start_brk va (slot f (pte_index va)) err s = do_wp_fault (slot g o) va (slot f (pte_index va)) s.
Proof.
  intros Hw Hv He Hro Hf Herr. destruct (mapped_slot s g o va e He) as (f' & Hf' & Hent & Hp). simplify_eq.
  pose proof (proj2 (proj2 (index_ranges va))) as Hk.
  destruct (table_busy s g o f Hw) as [[Hf0 _] _]; [right; eauto using leaf_user|].
  unfold handle_pte_fault. cbv zeta.
  rewrite (bool_decide_eq_true_2 (slot f (pte_index va) ≠ 0)) by (unfold slot, KERNEL_BASE_ADDR, PAGE_SIZE in *; lia). run_step.
  rewrite (bind_Ok _ _ _ _ _ (load64_ok s f _ e Hk Hent)). rewrite Hp, Hro. by rewrite bool_decide_eq_true_2.
Qed.

(** C5: after a fork, a write by the child is never seen by the parent.  When
    [task_set_vm] and [copy_task] have succeeded, every page the child has is present
    and read-only on both sides, at the same frame, so that a write faults.  The handler of that fault
    returns; the parent maps the same frames as before with the same contents; the
    child runs on, unless at most two frames were free, and then the page it writes
    is a frame that holds a copy of what the parent had before the fork and that the
    parent maps nowhere. *)
Theorem fork_isolates (s s1 : mstate) (st : fork_state) (g o kf ko p : Z) (cur mm : user_mm)
    (l : list vm_area_struct) (ks : list (Z * (Z * Z))) (fuel : nat) (va e f lo brk err : Z) (pg : page) :
  fork_ready s g o cur l → kernel_directory s kf → ko ≠ 0 → good_kmallocs ks Leaf →
  (2 * length l < fuel)%nat →
  task_set_vm ko (slot kf 0) cur s = Ok ((0, Some mm), s1) →
  copy_task fuel (slot g o) (mm_pgd mm) (mk_fork (mm_areas cur) (mm_areas mm) s1 ks) = Ok (0, st) →
  mm_pgd mm = slot p 0 → user_page (frames st) p 0 va e pg →
  role_frame (frames st) p 0 (leaf_role va) = Some f → Z.land err 2 ≠ 0 →
  (pte_present e = true ∧ pte_write e = false ∧ mapped (frames st) g o va = Some e) ∧
  ∃ r s', handle_pte_fault (mm_pgd mm) lo brk va (slot f (pte_index va)) err (frames st) = Ok (r, s') ∧
    (∀ va', user_va va' → mapped s' g o va' = mapped (frames st) g o va') ∧
    (∀ va' q, user_va va' → old_frame s g o va' = Some q → mem s' !! q = mem s !! q) ∧
    (r = Killed → scarce 2 (frames st)) ∧
    (r = Resumes → ∃ n, mapped s' p 0 va = Some (n * PAGE_SIZE + USER_PERM) ∧
       mem s' !! n = mem s !! eframe e ∧ ∀ va', user_va va' → old_frame s' g o va' ≠ Some n).
Proof.
  intros Hf Hk Hko Hks Hfuel Hrun Hrun' Hp Hup Hrole Herr.
  destruct (fork_run_forked s s1 g o kf ko cur mm l ks fuel st Hf Hk Hko Hks Hfuel Hrun Hrun') as (p' & Hp' & Hfk).
  assert (p' = p) as -> by (rewrite Hp in Hp'; unfold slot, PAGE_SIZE in Hp'; lia).
  pose proof (proj1 (up_va _ _ _ _ _ _ Hup)) as Hv. pose proof (up_entry _ _ _ _ _ _ Hup) as He.
  pose proof (forked_read_only s (frames st) g o p l va e Hfk Hv He) as Hro. split; [done|].
  rewrite Hp, (write_fault_run (frames st) p 0 va e f lo brk err (up_tree _ _ _ _ _ _ Hup)) by (done || apply Hro).
  by apply (forked_isolated s (frames st) g o p cur l va e f pg).
Qed.

(** ** A fork on the small machine *)

#[local] Opaque small_mm small_mapped.

Definition small_vma : vm_area_struct := mk_vma 0 0 0 0 0x400000 0x401000 3.
Definition small_task : user_mm :=
  mk_user_mm (mk_mm 100 100 USER_UNNAME_ZONE 0 0 1 {[100 := small_vma]}) (slot 9 0) 0 0 0 0 0 1.

Lemma small_ready : fork_ready small_mapped 9 0 small_task [small_vma].
Proof.
  destruct small_frame_10 as (Hb & Hn & pg & Hpg & Hr & _). split.
  - apply small_mapped_ok.
  - apply small_mapped_ok.
  - by repeat split.
  - constructor; [|constructor]. unfold good_vma, page_aligned, PAGE_SIZE, KERNEL_BASE_ADDR. simpl.
    split_and!; [by exists 1024|by exists 1025|lia..].
  - repeat constructor.
  - intros va e Hv He. apply (small_is_mapped va e Hv) in He as [_ ->].
    assert (Ee : eframe (10 * PAGE_SIZE + 7) = 10) by (apply eframe_entry; unfold PAGE_SIZE; lia). rewrite Ee.
    split; [exact Hb|]. split; [exact Hn|]. exists pg. split; [exact Hpg|]. rewrite Hr.
    assert (El : length (all_pages [small_vma]) = 1%nat) by reflexivity. rewrite El. lia.
Qed.

Lemma small_kernel : kernel_directory small_mapped 8.
Proof.
  pose proof (small_busy 8 ltac:(lia)) as Hb. split.
  - destruct (busy_page _ 8 small_mm_inv Hb) as [pg Hpg].
    apply (inserted_busy _ _ _ _ _ _ _ 8 pg small_mapped_ok Hb Hpg).
    unfold old_frame. rewrite small_unmapped by apply small_va. by intros [? _].
  - intros i Hi. unfold ent. rewrite (in_data _ _ _ _ _ _ _ small_mapped_ok 8 Hb).
    + apply (small_ent 8 i); lia.
    + split; [done|]. intros r Hr. by rewrite small_no_tables.
Qed.

Definition small_kmallocs : list (Z * (Z * Z)) := [(200, (0, 0))].

Lemma small_kmallocs_ok : good_kmallocs small_kmallocs Leaf.
Proof.
  split; [by apply NoDup_singleton|]. intros k ->%list_elem_of_singleton. split_and!; [done| |done].
  by apply not_elem_of_nil.
Qed.

Definition small_run : outcome (Z * fork_state) :=
  match task_set_vm 1 (slot 8 0) small_task small_mapped with
  | Ok ((_, Some mm), s) =>
      copy_task 5 (slot 9 0) (mm_pgd mm) (mk_fork (mm_areas small_task) (mm_areas mm) s small_kmallocs)
  | _ => Stop Faulted
  end.

Lemma small_run_result : match small_run with Ok (r, _) => r | Stop _ => 1 end = 0.
Proof. vm_compute. reflexivity. Qed.

Lemma fork_shares_pages_witness :
  ∃ p st, small_run = Ok (0, st) ∧ forked 9 0 p small_mapped (frames st) [small_vma].
Proof.
  pose proof small_run_result as E. unfold small_run in *.
  destruct (fork_shares_pages small_mapped 9 0 8 1 small_task [small_vma] small_kmallocs 5)
    as (r & om & s1 & Hrun & Hom).
  - exact small_ready.
  - exact small_kernel.
  - discriminate.
  - exact small_kmallocs_ok.
  - simpl. lia.
  - rewrite Hrun in *. destruct om as [mm|]; [|discriminate E].
    destruct Hom as (_ & p & r' & st & _ & _ & Hcopy & _ & Hr). rewrite Hcopy in *. subst r'.
    exists p, st. split; [reflexivity|]. destruct Hr as [(_ & Hk & _)|(Hr & _)]; [exact Hk|discriminate Hr].
Defined.

(** The successful run of the fork. *)
Lemma small_fork_runs :
  ∃ s1 mm st, task_set_vm 1 (slot 8 0) small_task small_mapped = Ok ((0, Some mm), s1) ∧
    copy_task 5 (slot 9 0) (mm_pgd mm) (mk_fork (mm_areas small_task) (mm_areas mm) s1 small_kmallocs) = Ok (0, st).
Proof.
  pose proof small_run_result as E. unfold small_run in E. pose proof small_ready as Hf.
  destruct (task_set_vm_ok small_mapped 9 0 8 1 small_task (fr_inv _ _ _ _ _ Hf) (fr_tree _ _ _ _ _ Hf)
    small_kernel ltac:(discriminate)) as (r & om & s1 & Hrun & Hom). rewrite Hrun in E.
  destruct om as [mm|]; [|discriminate E]. destruct Hom as (-> & _). exists s1, mm.
  destruct (copy_task _ _ _ _) as [[r st]|]; [|discriminate E]. subst r. exists st. split; [exact Hrun|reflexivity].
Qed.

Section small_child.
Context (p : Z) (s : mstate) (Hk : forked 9 0 p small_mapped s [small_vma]).

Lemma small_entry : mapped small_mapped 9 0 0x400000 = Some (10 * PAGE_SIZE + 7).
Proof. rewrite (in_mapped _ _ _ _ _ _ _ small_mapped_ok _ small_va). by rewrite decide_True. Qed.

Lemma small_eframe : eframe (10 * PAGE_SIZE + 7) = 10.
Proof. apply eframe_entry. unfold PAGE_SIZE. lia. Qed.

(** The child shares the page. *)
Lemma small_user_page : ∃ pg, user_page s p 0 0x400000 (cow (10 * PAGE_SIZE + 7)) pg.
Proof.
  destruct small_frame_10 as (Hb & Hn & pg0 & Hpg0 & Hr0 & Hf0).
  destruct (fk_refs _ _ _ _ _ _ Hk 10 Hb) as [Hb' Hm]. rewrite (meta_frame _ _ _ Hpg0) in Hm.
  apply meta_Some in Hm as (pg & Hpg & Hnr & Hfl & _).
  assert (Hnr2 : nref pg = 1 + uses small_mapped 9 0 10 (all_pages [small_vma])) by (rewrite Hnr, <- Hr0; reflexivity).
  pose proof (uses_bound small_mapped 9 0 10 (all_pages [small_vma])) as Hu.
  assert (El : length (all_pages [small_vma]) = 1%nat) by reflexivity. rewrite El in Hu.
  exists pg. split; rewrite ?cow_frame, ?small_eframe.
  - apply (fk_trees _ _ _ _ _ _ Hk).
  - apply (fk_trees _ _ _ _ _ _ Hk).
  - unfold user_va, KERNEL_BASE_ADDR, PAGE_SIZE, same_page.
    split_and!; [lia|lia|lia|intros E; vm_compute in E; discriminate E].
  - rewrite (fk_child _ _ _ _ _ _ Hk _ small_va), small_entry. rewrite decide_True; [reflexivity|].
    left. simpl. lia.
  - apply (fk_tables _ _ _ _ _ _ Hk); [exact Hb|exact Hn].
  - split; [split; [exact Hb'|split; [exact Hpg|split; [lia|]]]|lia]. rewrite Hfl. exact Hf0.
  - rewrite (fk_child _ _ _ _ _ _ Hk) by apply temp_user. apply decide_False.
    intros Hc. apply Exists_cons in Hc as [Hc|Hc%Exists_nil]; [|exact Hc].
    unfold USER_TEMPBOTT in Hc. simpl in Hc. lia.
Qed.
End small_child.

Lemma small_fault_result :
  match task_set_vm 1 (slot 8 0) small_task small_mapped with
  | Ok ((_, Some mm), s) =>
      match copy_task 5 (slot 9 0) (mm_pgd mm) (mk_fork (mm_areas small_task) (mm_areas mm) s small_kmallocs) with
      | Ok (_, st) =>
          match page_walk (mm_pgd mm) 0x400000 false (frames st) with
          | Ok (Some pte, s) => match handle_pte_fault (mm_pgd mm) 0x400000 0 0x400000 pte 2 s with
                                | Ok (Resumes, _) => true | _ => false end
          | _ => false
          end
      | Stop _ => false
      end
  | _ => false
  end = true.
Proof. vm_compute. reflexivity. Qed.

Lemma fork_isolates_witness :
  ∃ mm st p f s' n, handle_pte_fault (mm_pgd mm) 0x400000 0 0x400000 (slot f (pte_index 0x400000)) 2 (frames st) = Ok (Resumes, s') ∧
    mapped s' 9 0 0x400000 = mapped (frames st) 9 0 0x400000 ∧ mem s' !! 10 = mem small_mapped !! 10 ∧
    mapped s' p 0 0x400000 = Some (n * PAGE_SIZE + USER_PERM).
Proof.
  destruct small_fork_runs as (s1 & mm & st & Hset & Hcopy).
  destruct (fork_run_forked small_mapped s1 9 0 8 1 small_task mm [small_vma] small_kmallocs 5 st)
    as (p & Hp & Hk);
    [exact small_ready|exact small_kernel|discriminate|exact small_kmallocs_ok|simpl; lia|exact Hset|exact Hcopy|].
  destruct (small_user_page p (frames st) Hk) as (pg & Hup).
  destruct (mapped_slot _ p 0 _ _ (up_entry _ _ _ _ _ _ Hup)) as (f & Hf & _ & _).
  destruct (fork_isolates small_mapped s1 st 9 0 8 1 p small_task mm [small_vma] small_kmallocs 5
    0x400000 (cow (10 * PAGE_SIZE + 7)) f 0x400000 0 2 pg) as (_ & r & s' & Hrun & Hm & Hdata & _ & Hres).
  - exact small_ready.
  - exact small_kernel.
  - discriminate.
  - exact small_kmallocs_ok.
  - simpl. lia.
  - exact Hset.
  - exact Hcopy.
  - exact Hp.
  - exact Hup.
  - exact Hf.
  - discriminate.
  - pose proof small_fault_result as E. rewrite Hset, Hcopy in E.
    rewrite Hp, (page_walk_found (frames st) p 0 0x400000 (up_inv _ _ _ _ _ _ Hup) (up_tree _ _ _ _ _ _ Hup)
      small_va ltac:(discriminate) false f Hf), <- Hp, Hrun in E.
    destruct r; [|discriminate E]. destruct (Hres eq_refl) as (n & Hn & _).
    exists mm, st, p, f, s', n. split; [exact Hrun|]. split; [apply Hm, small_va|]. split; [|exact Hn].
    apply (Hdata 0x400000 10 small_va). unfold old_frame. rewrite small_entry. simpl. by rewrite small_eframe.
Defined.
