(* ===== verification/Slab.v ===== *)
(** * The slab allocator: kernel/mm/slab.c, include/mm/slab.h

    Twelve caches hand out objects of fixed sizes from slabs of [2^SLABORDER]
    frames.  The free objects of a slab are chained through the word [offset] past
    the start of each object; [links] holds these words by address.  [slablock] is
    held through [kmalloc] and [kfree], so that the inner locks are always free and
    [slab_trylock] succeeds.  [get_cpuid] reads the local APIC: the processor is an
    argument. *)

From S2P Require Import Prelude Layout Buddy Paging.

Local Open Scope Z_scope.

Definition SLABORDER : Z := 10.
Definition CPUNUMS : Z := 256.

(** [struct mem_cache_cpu] *)
Record mem_cache_cpu := mk_cpu { cpu_freelist : Z; cpu_page : option Z }.

(** [struct mem_cache] with its [mem_cache_node] (the [full] list is never used). *)
Record mem_cache := mk_cache {
  c_size : Z;
  objsize : Z;
  offset : Z;
  c_order : Z;
  objects : Z;
  partial : list Z;
  npartial : Z;
  nslub : Z;
  cpu_slab : list mem_cache_cpu;
}.

(** [links]: the words that chain free objects; [size_map] as filled at boot. *)
Record sstate := mk_sstate {
  mm : mstate;
  links : gmap Z Z;
  kmalloc_caches : list mem_cache;
  size_map : list Z;
}.

(** ** Tables *)

Definition cache_size : list Z := [8; 16; 32; 64; 96; 128; 192; 256; 512; 1024; 2048; 4096].

(** [for (i = from; i >= 0; i--) size_map[i] = j], from [n] = number of rounds. *)
Fixpoint size_map_fill (n : nat) (j : Z) (m : list Z) : list Z :=
  match n with O => m | S n => size_map_fill n j (<[n := j]> m) end.

Fixpoint size_map_rounds (js : list Z) (m : list Z) : list Z :=
  match js with
  | [] => m
  | j :: js =>
      let from := default 0 (cache_size !! Z.to_nat j) in
      size_map_rounds js (size_map_fill (S (Z.to_nat from)) j m)
  end.

Definition size_map_init : list Z :=
  <[0%nat := 0]> (size_map_rounds [11; 10; 9; 8; 7; 6; 5; 4; 3; 2; 1; 0] (replicate 4097 0)).

Definition percpu_cache_init : list mem_cache_cpu :=
  replicate (Z.to_nat CPUNUMS) (mk_cpu 0 None).

Definition kmem_cache_init_one (cs : Z) : mem_cache :=
  let sz := ROUNDUP cs 4 + 4 in
  mk_cache sz cs (ROUNDUP cs 4 / 4) SLABORDER (Z.shiftl PAGE_SIZE SLABORDER / sz)
    [] 0 0 percpu_cache_init.

Definition kmem_cache_init : list mem_cache := kmem_cache_init_one <$> cache_size.

Definition slab_init (s : mstate) : sstate := mk_sstate s ∅ kmem_cache_init size_map_init.

(** ** Access to the state *)

Definition get_cache (c : Z) : M sstate mem_cache :=
  s ← get; of_option (kmalloc_caches s !! Z.to_nat c).

Definition set_cache (c : Z) (k : mem_cache) : M sstate unit :=
  modify (λ s, mk_sstate (mm s) (links s) (<[Z.to_nat c := k]> (kmalloc_caches s)) (size_map s)).

Definition get_cpu (c cpu : Z) : M sstate mem_cache_cpu :=
  k ← get_cache c; of_option (cpu_slab k !! Z.to_nat cpu).

Definition set_cpu (c cpu : Z) (v : mem_cache_cpu) : M sstate unit :=
  k ← get_cache c;
  set_cache c (mk_cache (c_size k) (objsize k) (offset k) (c_order k) (objects k) (partial k)
                 (npartial k) (nslub k) (<[Z.to_nat cpu := v]> (cpu_slab k))).

Definition set_node (c : Z) (pl : list Z) (np ns : Z) : M sstate unit :=
  k ← get_cache c;
  set_cache c (mk_cache (c_size k) (objsize k) (offset k) (c_order k) (objects k) pl np ns
                 (cpu_slab k)).

Definition in_mm {A} (m : M mstate A) : M sstate A := λ s,
  match m (mm s) with
  | Ok (a, s') => Ok (a, mk_sstate s' (links s) (kmalloc_caches s) (size_map s))
  | Stop w => Stop w
  end.

Definition load_page (p : Z) : M sstate page := s ← get; of_option (mempage (mm s) !! p).

Definition edit_page (p : Z) (f : page → page) : M sstate unit := in_mm (upd_page p f).

Definition set_flags (v : Z) (p : page) : page :=
  mk_page (nref p) v (order p) (slab p) (freelist p) (inuse p).
Definition set_freelist (v : Z) (p : page) : page :=
  mk_page (nref p) (flags p) (order p) (slab p) v (inuse p).
Definition set_inuse (v : Z) (p : page) : page :=
  mk_page (nref p) (flags p) (order p) (slab p) (freelist p) v.
Definition set_slab (v : Z) (p : page) : page :=
  mk_page (nref p) (flags p) (order p) v (freelist p) (inuse p).

(** [object[off]]: the word [off] of the object, as an address. *)
Definition link_addr (obj off : Z) : Z := u32 (obj + 4 * off).

Definition load_link (obj off : Z) : M sstate Z :=
  s ← get; of_option (links s !! link_addr obj off).

Definition store_link (obj off v : Z) : M sstate unit :=
  modify (λ s, mk_sstate (mm s) (<[link_addr obj off := v]> (links s)) (kmalloc_caches s) (size_map s)).

(** ** Slabs *)

(** [for (start; start < end; start += size) object[off] = start + size], then
    [object[off] = NULL] for the last one; [n] = number of objects. *)
Fixpoint new_slab_chain (n : nat) (start sz off : Z) : M sstate unit :=
  match n with
  | O => mret tt
  | S O => store_link start off (u32 (start + sz)) ;; store_link start off 0
  | S n => store_link start off (u32 (start + sz)) ;; new_slab_chain n (u32 (start + sz)) sz off
  end.

Definition new_slab_init (c pf : Z) : M sstate unit :=
  k ← get_cache c;
  s ← get;
  start ← lift (page2virt (m_max_pfn (mm s)) pf);
  edit_page pf (λ p, set_slab c (set_inuse 0 (set_freelist start
    (set_flags (Z.lor (flags p) _pg_slab) p)))) ;;
  if bool_decide (objects k ≤ 0) then fault
  else new_slab_chain (Z.to_nat (objects k)) start (c_size k) (offset k).

Definition new_slab (c : Z) : M sstate (option Z) :=
  k ← get_cache c;
  r ← in_mm (pages_alloc _GFP_ZERO (c_order k));
  match r with
  | None => mret None
  | Some p =>
      new_slab_init c p ;;
      k ← get_cache c;
      set_node c (partial k) (npartial k) (i32 (nslub k + 1)) ;;
      mret (Some p)
  end.

Definition add_partial (c page : Z) : M sstate unit :=
  k ← get_cache c; set_node c (page :: partial k) (i32 (npartial k + 1)) (nslub k).

Definition list_remove_page (page : Z) (l : list Z) : list Z := filter (λ x, x ≠ page) l.

Definition remove_partial (c page : Z) : M sstate unit :=
  k ← get_cache c; set_node c (list_remove_page page (partial k)) (i32 (npartial k - 1)) (nslub k).

Definition PageSlubFrozen (p : page) : bool := has_flag (flags p) _pg_active.
Definition SetPageSlubFrozen (p : page) : page := set_flags (Z.lor (flags p) _pg_active) p.
Definition ClearPageSlubFrozen (p : page) : page :=
  set_flags (Z.land (flags p) (Z.lnot _pg_active)) p.

Definition lock_and_freeze_slab (c page : Z) : M sstate unit :=
  k ← get_cache c;
  set_node c (list_remove_page page (partial k)) (i32 (npartial k - 1)) (nslub k) ;;
  edit_page page SetPageSlubFrozen.

Definition get_partial_slab (c : Z) : M sstate (option Z) :=
  k ← get_cache c;
  if bool_decide (npartial k = 0) then mret None
  else match partial k with
       | [] => mret None
       | page :: _ => lock_and_freeze_slab c page ;; mret (Some page)
       end.

Definition discard_slab (c page : Z) : M sstate unit :=
  k ← get_cache c;
  set_node c (partial k) (npartial k) (i32 (nslub k - 1)) ;;
  in_mm (pages_free page (c_order k)).

Definition unfreeze_slab (c page : Z) : M sstate unit :=
  edit_page page ClearPageSlubFrozen ;;
  pg ← load_page page;
  if bool_decide (inuse pg ≠ 0) then
    if bool_decide (freelist pg ≠ 0) then add_partial c page else mret tt
  else panic.

(** The loop over the processor's free list ends in [assert(0)] in its first round. *)
Definition deactivate_slab (c cpu : Z) : M sstate unit :=
  v ← get_cpu c cpu;
  page ← of_option (cpu_page v);
  if bool_decide (cpu_freelist v ≠ 0) then panic
  else
    set_cpu c cpu (mk_cpu (cpu_freelist v) None) ;;
    unfreeze_slab c page.

(** [ROUNDDOWN((viraddr_t)obj, PAGE_SIZE * (1 << SLABORDER))] *)
Definition get_slab (max_pfn obj : Z) : outcome Z :=
  virt2page max_pfn (ROUNDDOWN obj (PAGE_SIZE * Z.shiftl 1 SLABORDER)).

(** ** Allocation *)

(** [load_slab] and [new_slab] of [_slab_alloc]; [at_new] is the entry at the label
    [new_slab]. *)
Fixpoint _slab_alloc (fuel : nat) (c cpu : Z) (at_new : bool) : M sstate Z :=
  match fuel with
  | O => stop_with OutOfFuel
  | S fuel =>
      if at_new then
        new ← get_partial_slab c;
        v ← get_cpu c cpu;
        match new with
        | Some p => set_cpu c cpu (mk_cpu (cpu_freelist v) (Some p)) ;; _slab_alloc fuel c cpu false
        | None =>
            new ← new_slab c;
            v ← get_cpu c cpu;
            match new with
            | Some p =>
                set_cpu c cpu (mk_cpu (cpu_freelist v) (Some p)) ;;
                edit_page p SetPageSlubFrozen ;;
                _slab_alloc fuel c cpu false
            | None => mret 0
            end
        end
      else
        v ← get_cpu c cpu;
        page ← of_option (cpu_page v);
        pg ← load_page page;
        let object := freelist pg in
        if bool_decide (object = 0) then deactivate_slab c cpu ;; _slab_alloc fuel c cpu true
        else
          k ← get_cache c;
          nx ← load_link object (offset k);
          set_cpu c cpu (mk_cpu nx (Some page)) ;;
          edit_page page (λ p, set_inuse (objects k) (set_freelist 0 p)) ;;
          mret object
  end.

(** Rounds: load, deactivate, new, load. *)
Definition SLAB_FUEL : nat := 4.

Definition slab_alloc (c cpu : Z) : M sstate Z :=
  v ← get_cpu c cpu;
  if bool_decide (cpu_freelist v = 0) then
    _slab_alloc SLAB_FUEL c cpu (bool_decide (cpu_page v = None))
  else
    k ← get_cache c;
    nx ← load_link (cpu_freelist v) (offset k);
    set_cpu c cpu (mk_cpu nx (cpu_page v)) ;;
    mret (cpu_freelist v).

Definition kmalloc (cpu size : Z) : M sstate Z :=
  if bool_decide (size ≤ 0) then mret 0
  else if bool_decide (PAGE_SIZE < size) then mret 0
  else
    s ← get;
    c ← of_option (size_map s !! Z.to_nat size);
    slab_alloc c cpu.

(** ** Freeing *)

Definition _slab_free (c page obj : Z) : M sstate unit :=
  k ← get_cache c;
  pg ← load_page page;
  let prior := freelist pg in
  store_link obj (offset k) prior ;;
  edit_page page (λ p, set_inuse (i32 (inuse p - 1)) (set_freelist obj p)) ;;
  pg ← load_page page;
  if PageSlubFrozen pg then mret tt
  else if bool_decide (inuse pg = 0) then
    (if bool_decide (prior ≠ 0) then remove_partial c page else mret tt) ;;
    discard_slab c page
  else if bool_decide (prior = 0) then
    assert (bool_decide (inuse pg = objects k - 1)) ;;
    add_partial c page
  else mret tt.

Definition slab_free (c cpu obj page : Z) : M sstate unit :=
  pg ← load_page page;
  if negb (has_flag (flags pg) _pg_slab) then mret tt
  else
    v ← get_cpu c cpu;
    if bool_decide (cpu_page v = Some page) then
      k ← get_cache c;
      store_link obj (offset k) (cpu_freelist v) ;;
      set_cpu c cpu (mk_cpu obj (cpu_page v))
    else _slab_free c page obj.

Definition kfree (cpu obj : Z) : M sstate unit :=
  if bool_decide (obj = 0) then mret tt
  else
    s ← get;
    page ← lift (get_slab (m_max_pfn (mm s)) obj);
    pg ← load_page page;
    slab_free (slab pg) cpu obj page.
