(* ===== verification/Boot.v ===== *)
(** * Memory at boot: kernel/mm/bootmm.c, kernel/init/detect.c

    The memory map the boot loader leaves, the numbers of pages computed from it, the
    bump allocator that serves the kernel's page tables and the array of page
    descriptors, and the step to the zones.  The addresses of the linker ([_BSS_END])
    and of [percpu_kstacks] are arguments; [lcr3] and the call
    [updata_display_addr(KERNEL_VIDEO)], which moves the console, are left out. *)

From S2P Require Import Prelude Layout Buddy Paging Slab.

Local Open Scope Z_scope.

Definition KERNEL_STKSIZE : Z := 4096.
Definition KERNEL_VIDEO : Z := 0xFF000000.
Definition KERNEL_MMIO : Z := 0xFF800000.
Definition KERNEL_MMIO_LIMIT : Z := 0xFFC00000.
Definition KERNEL_STACK_TOP : Z := 0xF0800000.
Definition PT_SIZE : Z := Z.shiftl PAGE_SIZE 10.
Definition _PAGE_PWT : Z := 0x008.
Definition _PAGE_PCD : Z := 0x010.
Definition SIZEOF_PAGE : Z := 36.

(** [struct mmap]; [zero] is never used. *)
Record mmap := mk_mmap { addr : Z; len : Z; type : Z }.

(** The variables of bootmm.c.  [bm] holds [mempage], [max_pfn], the zones and the
    contents of the frames; [base] is NULL until the first allocation. *)
Record bstate := mk_bstate {
  bm : mstate;
  mmapinfo : list mmap;
  normal_maxpfn : Z;
  high_maxpfn : Z;
  totalram_pages : Z;
  base : Z;
  mmio_base : Z;
  kpgd : Z;
}.

(** ** The map of the boot loader: kernel/init/detect.c *)

Definition MULTIBOOT_TAG_TYPE_END : Z := 0.
Definition MULTIBOOT_TAG_TYPE_MMAP : Z := 6.
Definition NR_MMAPINFO : nat := 128.

(** A little-endian number of [n] bytes. *)
Fixpoint load_le (m : gmap Z Z) (a : Z) (n : nat) : option Z :=
  match n with
  | O => Some 0
  | S n => b ← m !! a; r ← load_le m (a + 1) n; Some (b + 256 * r)
  end.

Definition fetch {A} (o : option A) : outcome A :=
  match o with Some a => Ok a | None => Stop Faulted end.

(** The entries of one tag; [mmapinfo] has room for [NR_MMAPINFO] of them. *)
Fixpoint detect_entries (fuel : nat) (m : gmap Z Z) (mm tag size esize : Z) (info : list mmap)
    : outcome (list mmap) :=
  match fuel with
  | O => Stop OutOfFuel
  | S fuel =>
      if bool_decide (mm < u32 (tag + size)) then
        a ← fetch (load_le m mm 8);
        l ← fetch (load_le m (mm + 8) 8);
        t ← fetch (load_le m (mm + 16) 4);
        if bool_decide (NR_MMAPINFO ≤ length info)%nat then Stop Faulted
        else detect_entries fuel m (u32 (mm + esize)) tag size esize (info ++ [mk_mmap a l t])
      else Ok info
  end.

Fixpoint detect_tags (fuel : nat) (m : gmap Z Z) (tag : Z) (info : list mmap) : outcome (list mmap) :=
  match fuel with
  | O => Stop OutOfFuel
  | S fuel =>
      ty ← fetch (load_le m tag 4);
      if bool_decide (ty = MULTIBOOT_TAG_TYPE_END) then Ok info
      else
        size ← fetch (load_le m (tag + 4) 4);
        info ← (if bool_decide (ty = MULTIBOOT_TAG_TYPE_MMAP) then
                  esize ← fetch (load_le m (tag + 8) 4);
                  detect_entries fuel m (u32 (tag + 16)) tag size esize info
                else Ok info);
        detect_tags fuel m (u32 (tag + Z.land (u32 (size + 7)) (u32 (Z.lnot 7)))) info
  end.

Definition detect_memory (fuel : nat) (m : gmap Z Z) (info : Z) : outcome (list mmap) :=
  detect_tags fuel m (u32 (info + 8)) [].

(** ** The numbers of pages *)

Definition mend (r : mmap) : Z := u64 (addr r + len r).

Fixpoint totalram_loop (l : list mmap) (last : Z) : Z :=
  match l with
  | [] => last
  | r :: l =>
      totalram_loop l (if bool_decide (type r = 1) then u32 (last + len r / PAGE_SIZE) else last)
  end.

Definition get_totalram_pages (l : list mmap) : Z := i32 (totalram_loop l 0).

Fixpoint max_loop (l : list mmap) (last : Z) : Z :=
  match l with
  | [] => last
  | r :: l =>
      max_loop l (if bool_decide (type r = 1) && bool_decide (last < mend r) then mend r else last)
  end.

Definition get_max_pfn (l : list mmap) : Z := i32 (Z.shiftr (max_loop l 0) PAGE_SHIFT).

(** [last] is an [int]; it is converted to 64 bits for the comparison. *)
Fixpoint normal_loop (l : list mmap) (last : Z) : Z :=
  match l with
  | [] => last
  | r :: l =>
      if bool_decide (type r = 1) then
        if bool_decide (NORMAL_ADDR ≤ addr r) then normal_loop l last
        else if bool_decide (mend r < NORMAL_ADDR) then
          normal_loop l (if bool_decide (u64 last < mend r) then i32 (mend r) else last)
        else NORMAL_ADDR
      else normal_loop l last
  end.

Definition get_normal_maxpfn (l : list mmap) : Z := i32 (phys_to_pfn (u64 (normal_loop l 0))).

Fixpoint high_loop (l : list mmap) (last : Z) : Z :=
  match l with
  | [] => last
  | r :: l =>
      high_loop l
        (if bool_decide (type r = 1) && negb (bool_decide (mend r ≤ KERNEL_NORMAL - KERNEL_BASE_ADDR))
            && bool_decide (last < mend r)
         then mend r else last)
  end.

Definition get_high_maxpfn (l : list mmap) : Z :=
  i32 (Z.shiftr (Z.land (high_loop l 0) (u64 (Z.lnot 0xFFF))) PAGE_SHIFT).

(** ** The allocator of boot time *)

Definition in_bm {A} (m : M mstate A) : M bstate A := λ s,
  match m (bm s) with
  | Ok (a, m') => Ok (a, mk_bstate m' (mmapinfo s) (normal_maxpfn s) (high_maxpfn s)
                          (totalram_pages s) (base s) (mmio_base s) (kpgd s))
  | Stop w => Stop w
  end.

Definition set_base (v : Z) : M bstate unit :=
  modify (λ s, mk_bstate (bm s) (mmapinfo s) (normal_maxpfn s) (high_maxpfn s)
                 (totalram_pages s) v (mmio_base s) (kpgd s)).

Definition set_mmio_base (v : Z) : M bstate unit :=
  modify (λ s, mk_bstate (bm s) (mmapinfo s) (normal_maxpfn s) (high_maxpfn s)
                 (totalram_pages s) (base s) v (kpgd s)).

Definition set_kpgd (v : Z) : M bstate unit :=
  modify (λ s, mk_bstate (bm s) (mmapinfo s) (normal_maxpfn s) (high_maxpfn s)
                 (totalram_pages s) (base s) (mmio_base s) v).

Section boot.
Context (bss_end : Z).

Definition alloc_bootmm_pages (size : Z) : M bstate Z :=
  s ← get;
  (if bool_decide (base s = 0) then set_base (ROUNDDOWN (u32 (bss_end + 0xFFF)) PAGE_SIZE)
   else mret tt) ;;
  assert (bool_decide (0 < size)) ;;
  s ← get;
  let tmp := base s in
  set_base (u32 (tmp + u32 (size * PAGE_SIZE))) ;;
  if bool_decide (u32 (normal_maxpfn s * PAGE_SIZE + KERNEL_BASE_ADDR) ≤ tmp) then panic
  else
    in_bm (set_mem (zero_frames (frame_of tmp) size)) ;;
    mret tmp.

(** ** The kernel's page tables *)

Definition get_pmd (pgd perm : Z) : M bstate unit :=
  va ← alloc_bootmm_pages 1;
  pa ← lift (virt_to_phys va);
  in_bm (entry_set pgd pa (Z.land perm (Z.lnot (Z.lor _PAGE_RW _PAGE_USER)))).

Definition get_pte (pmd perm : Z) : M bstate unit :=
  va ← alloc_bootmm_pages 1;
  pa ← lift (virt_to_phys va);
  in_bm (entry_set pmd pa perm).

Definition boot_page_walk (pgdp address : Z) (create : bool) : M bstate (option Z) :=
  let pgd := pgd_offset pgdp address in
  e ← in_bm (load64 pgd);
  if pgd_none e && negb create then mret None
  else
    (if pgd_none e then get_pmd pgd TABLE_PERM else mret tt) ;;
    pmd ← in_bm (pmd_offset pgd address);
    e ← in_bm (load64 pmd);
    if pmd_none e && negb create then mret None
    else
      pmd ← (if pmd_none e then get_pte pmd TABLE_PERM ;; in_bm (pmd_offset pgd address)
             else mret pmd);
      pte ← in_bm (pte_offset pmd address);
      mret (Some pte).

(** [n] pages from offset [i] on; every [size] of a call is a multiple of [PAGE_SIZE]. *)
Fixpoint boot_map_loop (n : nat) (pgdir va pa perm i : Z) : M bstate unit :=
  match n with
  | O => mret tt
  | S n =>
      pte ← boot_page_walk pgdir (u32 (va + i)) true;
      match pte with
      | None => panic
      | Some pte =>
          in_bm (entry_set pte (u64 (pa + i)) perm) ;;
          boot_map_loop n pgdir va pa perm (i + PAGE_SIZE)
      end
  end.

Definition boot_map_region (pgdir va size pa perm : Z) : M bstate unit :=
  boot_map_loop (Z.to_nat ((size + PAGE_SIZE - 1) / PAGE_SIZE)) pgdir va pa perm 0.

Definition mmio_map_region (pa size : Z) : M bstate Z :=
  let size := ROUNDUP size PAGE_SIZE in
  let pa := ROUNDDOWN (u32 pa) PAGE_SIZE in
  s ← get;
  if bool_decide (KERNEL_MMIO_LIMIT ≤ u32 (mmio_base s + size)) then panic
  else
    boot_map_region (kpgd s) (mmio_base s) size pa
      (Z.lor (Z.lor (Z.lor _PAGE_PRESENT _PAGE_PCD) _PAGE_PWT) _PAGE_RW) ;;
    set_mmio_base (u32 (mmio_base s + size)) ;;
    s ← get;
    mret (u32 (mmio_base s - size)).

(** ** The page descriptors *)

Definition is_page_aval (s : bstate) (pfn : Z) : outcome bool :=
  phys ← virt_to_phys (base s);
  if bool_decide (u32 pfn ≤ phys_to_pfn phys) then Ok false
  else if bool_decide (m_max_pfn (bm s) ≤ pfn) then Ok false
  else
    Ok (existsb (λ r, bool_decide (type r = 1) && bool_decide (phys_to_pfn (addr r) ≤ u32 pfn)
                      && bool_decide (u32 pfn < phys_to_pfn (mend r))) (mmapinfo s)).

Definition mempage_entry (aval : bool) : page :=
  if aval then mk_page 0 _pg_free (-1) 0 0 0 else mk_page 0 _pg_reserved (-1) 0 0 0.

Definition set_mempage (i : Z) (pg : page) : M mstate unit :=
  modify (λ s, mk_mstate (zone_normal s) (zone_high s) (<[i := pg]> (mempage s)) (m_max_pfn s)
                 (mem s) (tlb s)).

Fixpoint mempage_loop (n : nat) (i : Z) : M bstate unit :=
  match n with
  | O => mret tt
  | S n =>
      s ← get;
      aval ← lift (is_page_aval s i);
      in_bm (set_mempage i (mempage_entry aval)) ;;
      mempage_loop n (i + 1)
  end.

Definition mempage_init : M bstate unit :=
  s ← get; mempage_loop (Z.to_nat (m_max_pfn (bm s))) 0.

(** [zone_init] on the state. *)
Definition boot_zone_init : M bstate unit :=
  s ← get;
  r ← lift (zone_init (normal_maxpfn s) (m_max_pfn (bm s)) (mempage (bm s)));
  let '(zn, zh, pgs) := (r : zone_struct * zone_struct * gmap Z page) in
  in_bm (put (mk_mstate zn zh pgs (m_max_pfn (bm s)) (mem (bm s)) (tlb (bm s)))).

(** ** Putting it together *)

(** [for (i = 0; i < CPUNUMS; i++)], from [i] on, [n] rounds. *)
Fixpoint map_lapics (n : nat) (i : Z) : M bstate unit :=
  match n with
  | O => mret tt
  | S n =>
      s ← get;
      boot_map_region (kpgd s) (u32 (KERNEL_MMIO + u32 (i * PAGE_SIZE))) PAGE_SIZE 0xFEE00000
        (Z.lor (Z.lor (Z.lor _PAGE_PRESENT _PAGE_PCD) _PAGE_PWT) _PAGE_RW) ;;
      map_lapics n (i + 1)
  end.

Fixpoint map_stacks (kstacks : Z) (n : nat) (i : Z) : M bstate unit :=
  match n with
  | O => mret tt
  | S n =>
      s ← get;
      pa ← lift (virt_to_phys (u32 (kstacks + i * KERNEL_STKSIZE)));
      boot_map_region (kpgd s)
        (u32 (KERNEL_STACK_TOP - KERNEL_STKSIZE - (KERNEL_STKSIZE + PAGE_SIZE) * i))
        KERNEL_STKSIZE pa (Z.lor _PAGE_PRESENT _PAGE_RW) ;;
      map_stacks kstacks n (i + 1)
  end.

Definition bootmm_init (kstacks : Z) : M bstate unit :=
  pgd ← alloc_bootmm_pages 1;
  set_kpgd pgd ;;
  in_bm (set_mem (zero_frames (frame_of pgd) 1)) ;;
  boot_map_region pgd KERNEL_BASE_ADDR NORMAL_ADDR 0 (Z.lor _PAGE_RW _PAGE_PRESENT) ;;
  boot_map_region pgd KERNEL_VIDEO PT_SIZE 0xb8000 (Z.lor _PAGE_RW _PAGE_PRESENT) ;;
  map_lapics (Z.to_nat CPUNUMS) 0 ;;
  map_stacks kstacks (Z.to_nat CPUNUMS) 0 ;;
  s ← get;
  let num := i32 (u32 (m_max_pfn (bm s) * SIZEOF_PAGE) / PAGE_SIZE + 1) in
  mp ← alloc_bootmm_pages num;
  assert (bool_decide (mp ≠ 0)) ;;
  mempage_init ;;
  boot_zone_init.

(** The globals start zeroed; [m] is what the frames hold.  The result is the state
    of the slab allocator, with the memory manager in it. *)
Definition bootmm (fuel : nat) (info kstacks : Z) (ram : gmap Z Z) (m : gmap Z (list Z))
    : outcome (bstate * sstate) :=
  mmapinfo ← detect_memory fuel ram info;
  let max := get_max_pfn mmapinfo in
  let nrm := get_normal_maxpfn mmapinfo in
  let high := get_high_maxpfn mmapinfo in
  let total := get_totalram_pages mmapinfo in
  let high := if bool_decide (max < high) then max else high in
  let s := mk_bstate (mk_mstate (zone_bss 0 0) (zone_bss 0 0) ∅ max m []) mmapinfo nrm high total
             0 KERNEL_MMIO 0 in
  r ← bootmm_init kstacks s;
  Ok (r.2, slab_init (bm r.2)).
End boot.
