(* ===== verification/Exec.v ===== *)
(** * Loading a program: kernel/task.c (load_icode, task_set_vm, task_alloc,
    task_create), the arguments of kernel/syscall/execve.c, include/sys/elf.h

    The image is a block of bytes of kernel memory, a map from addresses to bytes.
    The kernel writes the segments through the page tables of the new task, which
    [lcr3] makes the current ones: [cr3] holds the directory the processor uses, and
    a byte of user memory is a byte of a word of a frame.  What [kmalloc] returns is
    an argument, as in Fork. *)

From S2P Require Import Prelude Layout Buddy Paging Vma Fault Fork Boot Pidmap.

Local Open Scope Z_scope.

Definition ENOEXEC : Z := 8.
Definition EMPROC : Z := 37.
Definition ELF_MAGIC : Z := 0x464C457F.
Definition ELF_PROG_LOAD : Z := 1.
Definition ELF_PROG_FLAG_EXEC : Z := 1.
Definition ELF_PROG_FLAG_WRITE : Z := 2.
Definition VM_READ : Z := 1.
Definition VM_WRITE : Z := 2.

(** ** Bytes of user memory *)

Definition get_byte (w j : Z) : Z := Z.land (Z.shiftr w (8 * j)) 255.
Definition set_byte (w j b : Z) : Z :=
  Z.lor (Z.ldiff w (Z.shiftl 255 (8 * j))) (Z.shiftl b (8 * j)).

(** The word and the byte in it that an offset in a page is. *)
Definition word_index (off : Z) : nat := Z.to_nat (off / 8).
Definition byte_index (off : Z) : Z := off mod 8.

Definition uload8 (pgd va : Z) : M mstate Z :=
  f ← translate pgd va;
  s ← get;
  let off := va mod PAGE_SIZE in
  w ← of_option (l ← mem s !! f; l !! word_index off);
  mret (get_byte w (byte_index off)).

Definition ustore8 (pgd va b : Z) : M mstate unit :=
  f ← translate pgd va;
  s ← get;
  let off := va mod PAGE_SIZE in
  w ← of_option (l ← mem s !! f; l !! word_index off);
  set_mem (alter (<[word_index off := set_byte w (byte_index off) (u8 b)]>) f).

(** A word of 32 bits is four bytes, the lowest first. *)
Definition uload32 (pgd va : Z) : M mstate Z :=
  b0 ← uload8 pgd va;
  b1 ← uload8 pgd (u32 (va + 1));
  b2 ← uload8 pgd (u32 (va + 2));
  b3 ← uload8 pgd (u32 (va + 3));
  mret (b0 + 256 * (b1 + 256 * (b2 + 256 * b3))).

Definition ustore32 (pgd va v : Z) : M mstate unit :=
  ustore8 pgd va v ;;
  ustore8 pgd (u32 (va + 1)) (Z.shiftr v 8) ;;
  ustore8 pgd (u32 (va + 2)) (Z.shiftr v 16) ;;
  ustore8 pgd (u32 (va + 3)) (Z.shiftr v 24).

(** [memcpy] of bytes of the image to user memory. *)
Fixpoint copy_out (n : nat) (img : gmap Z Z) (pgd dst src : Z) : M mstate unit :=
  match n with
  | O => mret tt
  | S n =>
      b ← lift (fetch (img !! src));
      ustore8 pgd dst b ;;
      copy_out n img pgd (u32 (dst + 1)) (u32 (src + 1))
  end.

(** [memset] of user memory to 0. *)
Fixpoint clear_user (n : nat) (pgd dst : Z) : M mstate unit :=
  match n with
  | O => mret tt
  | S n => ustore8 pgd dst 0 ;; clear_user n pgd (u32 (dst + 1))
  end.

(** ** load_icode *)

Record ProgHeader := mk_ph {
  p_offset : Z;
  p_va : Z;
  p_filesz : Z;
  p_memsz : Z;
  p_flags : Z;
}.

Definition SIZEOF_PROGHEADER : Z := 32.

(** The fields of the header at [ph] that the loader uses behind [p_type]. *)
Definition read_ph (img : gmap Z Z) (ph : Z) : outcome ProgHeader :=
  offset ← fetch (load_le img (ph + 4) 4);
  va ← fetch (load_le img (ph + 8) 4);
  filesz ← fetch (load_le img (ph + 16) 4);
  memsz ← fetch (load_le img (ph + 20) 4);
  flags ← fetch (load_le img (ph + 24) 4);
  Ok (mk_ph offset va filesz memsz flags).

(** The address space that is built, memory, the answers of [kmalloc] to come, the
    directory the processor uses, and [tf_eip] of the task. *)
Record load_state := mk_load {
  ld_mm : user_mm;
  ld_mem : mstate;
  ld_kmallocs : list (Z * (Z * Z));
  ld_cr3 : Z;
  ld_eip : Z;
}.

Definition set_ld_mm (mm : user_mm) (st : load_state) : load_state :=
  mk_load mm (ld_mem st) (ld_kmallocs st) (ld_cr3 st) (ld_eip st).
Definition lcr3 (pgd : Z) : M load_state unit :=
  modify (λ st, mk_load (ld_mm st) (ld_mem st) (ld_kmallocs st) pgd (ld_eip st)).
Definition set_eip (v : Z) : M load_state unit :=
  modify (λ st, mk_load (ld_mm st) (ld_mem st) (ld_kmallocs st) (ld_cr3 st) v).

Definition in_mem {A} (m : M mstate A) : M load_state A := λ st,
  match m (ld_mem st) with
  | Ok (a, s) => Ok (a, mk_load (ld_mm st) s (ld_kmallocs st) (ld_cr3 st) (ld_eip st))
  | Stop w => Stop w
  end.

Definition set_areas (a : mm_struct) (mm : user_mm) : user_mm :=
  mk_user_mm a (mm_pgd mm) (start_code mm) (end_code mm) (start_data mm) (end_data mm)
    (start_stack mm) (mm_count mm).
Definition set_code (lo hi : Z) (mm : user_mm) : user_mm :=
  mk_user_mm (mm_areas mm) (mm_pgd mm) lo hi (start_data mm) (end_data mm)
    (start_stack mm) (mm_count mm).
Definition set_data (lo hi : Z) (mm : user_mm) : user_mm :=
  mk_user_mm (mm_areas mm) (mm_pgd mm) (start_code mm) (end_code mm) lo hi
    (start_stack mm) (mm_count mm).
Definition set_brk (lo hi : Z) (a : mm_struct) : mm_struct :=
  mk_mm (Vma.mmap a) (mm_rb a) (free_area_cache a) lo hi (mmap_count a) (areas a).

(** [create_vma(task->mm, addr, len, VM_READ | VM_WRITE)] with the next answer of
    [kmalloc]. *)
Definition new_vma (fuel : nat) (addr len : Z) : M load_state Z := λ st,
  let o := match ld_kmallocs st with [] => (0, (0, 0)) | o :: _ => o end in
  match create_vma fuel addr len (Z.lor VM_READ VM_WRITE) o.1 o.2 (mm_areas (ld_mm st)) with
  | Ok (r, a) =>
      Ok (r, mk_load (set_areas a (ld_mm st)) (ld_mem st) (tail (ld_kmallocs st)) (ld_cr3 st) (ld_eip st))
  | Stop w => Stop w
  end.

(** One segment of the type [ELF_PROG_LOAD]. *)
Definition load_segment (fuel : nat) (img : gmap Z Z) (binary : Z) (ph : ProgHeader) : M load_state Z :=
  modify (λ st, set_ld_mm
    ((if has_flag (p_flags ph) ELF_PROG_FLAG_EXEC && negb (has_flag (p_flags ph) ELF_PROG_FLAG_WRITE)
      then set_code else set_data) (p_va ph) (u32 (p_va ph + p_memsz ph)) (ld_mm st)) st) ;;
  vma ← new_vma fuel (p_va ph) (p_memsz ph);
  if bool_decide (vma = 0) then mret (- ENOMEM)
  else
    st ← get;
    r ← in_mem (region_alloc (mm_pgd (ld_mm st)) (p_va ph) (p_memsz ph) USER_PERM);
    if bool_decide (r < 0) then mret r
    else
      in_mem (copy_out (Z.to_nat (p_filesz ph)) img (ld_cr3 st) (p_va ph) (u32 (binary + p_offset ph))) ;;
      if bool_decide (p_memsz ph < p_filesz ph) then mret (- ENOEXEC)
      else
        in_mem (clear_user (Z.to_nat (p_memsz ph - p_filesz ph)) (ld_cr3 st) (u32 (p_va ph + p_filesz ph))) ;;
        mret 0.

(** The loop over the program headers from [ph] up to [eph]. *)
Fixpoint load_segments (n : nat) (fuel : nat) (img : gmap Z Z) (binary ph eph : Z) : M load_state Z :=
  match n with
  | O => stop_with OutOfFuel
  | S n =>
      if bool_decide (ph < eph) then
        ty ← lift (fetch (load_le img ph 4));
        if bool_decide (ty ≠ ELF_PROG_LOAD) then
          load_segments n fuel img binary (u32 (ph + SIZEOF_PROGHEADER)) eph
        else
          h ← lift (read_ph img ph);
          r ← load_segment fuel img binary h;
          if bool_decide (r < 0) then mret r
          else load_segments n fuel img binary (u32 (ph + SIZEOF_PROGHEADER)) eph
      else mret 0
  end.

(** [back] is the directory to return to: that of the current task, or [kpgd] when
    there is none. *)
Definition load_icode (fuel : nat) (img : gmap Z Z) (binary back : Z) : M load_state Z :=
  assert (bool_decide (binary ≠ 0)) ;;
  magic ← lift (fetch (load_le img binary 4));
  if bool_decide (magic ≠ ELF_MAGIC) then mret (- ENOEXEC)
  else
    phoff ← lift (fetch (load_le img (binary + 28) 4));
    phnum ← lift (fetch (load_le img (binary + 44) 2));
    st ← get;
    lcr3 (mm_pgd (ld_mm st)) ;;
    let ph := u32 (binary + phoff) in
    let eph := u32 (ph + SIZEOF_PROGHEADER * phnum) in
    r ← load_segments (S (Z.to_nat phnum)) fuel img binary ph eph;
    if bool_decide (r < 0) then mret r
    else
      vma ← new_vma fuel USER_STACKBOTT USER_STACK_SIZE;
      if bool_decide (vma = 0) then panic
      else
        st ← get;
        let mm := ld_mm st in
        let brk0 := if bool_decide (end_data mm ≠ 0) then end_data mm else end_code mm in
        let brk := ROUNDUP brk0 PAGE_SIZE in
        modify (set_ld_mm (set_areas (set_brk brk (u32 (brk + PAGE_SIZE)) (mm_areas mm)) mm)) ;;
        vma ← new_vma fuel brk PAGE_SIZE;
        if bool_decide (vma = 0) then panic
        else
          entry ← lift (fetch (load_le img (binary + 24) 4));
          set_eip entry ;;
          lcr3 back ;;
          mret 0.

(** ** The arguments: kernel/syscall/execve.c *)

Fixpoint ustrlen (fuel : nat) (pgd s n : Z) : M mstate Z :=
  match fuel with
  | O => stop_with OutOfFuel
  | S fuel =>
      c ← uload8 pgd s;
      if bool_decide (c = 0) then mret n else ustrlen fuel pgd (u32 (s + 1)) (i32 (n + 1))
  end.

Fixpoint ustrcpy (fuel : nat) (pgd dst src : Z) : M mstate unit :=
  match fuel with
  | O => stop_with OutOfFuel
  | S fuel =>
      c ← uload8 pgd src;
      ustore8 pgd dst c ;;
      if bool_decide (c = 0) then mret tt else ustrcpy fuel pgd (u32 (dst + 1)) (u32 (src + 1))
  end.

(** The number of arguments and the bytes of their strings; [argv] is the address of
    [argv[argc]]. *)
Fixpoint count_args (fuel : nat) (pgd argv argc string_size : Z) : M mstate (Z * Z) :=
  match fuel with
  | O => stop_with OutOfFuel
  | S fuel' =>
      p ← uload32 pgd argv;
      if bool_decide (p = 0) then mret (argc, string_size)
      else
        n ← ustrlen fuel pgd p 0;
        count_args fuel' pgd (u32 (argv + 4)) (i32 (argc + 1)) (i32 (string_size + (n + 1)))
  end.

Definition UTEMP2USTACK (addr : Z) : Z := u32 (addr + (USER_STACKTOP - PAGE_SIZE) - USER_TEMPBOTT).

(** [n] arguments from [argv] on; [store] is the address of [argv_store[i]]. *)
Fixpoint put_args (n : nat) (fuel : nat) (pgd argv store string_store : Z) : M mstate unit :=
  match n with
  | O => mret tt
  | S n =>
      ustore32 pgd store (UTEMP2USTACK string_store) ;;
      p ← uload32 pgd argv;
      ustrcpy fuel pgd string_store p ;;
      p ← uload32 pgd argv;
      len ← ustrlen fuel pgd p 0;
      put_args n fuel pgd (u32 (argv + 4)) (u32 (store + 4)) (u32 (string_store + (len + 1)))
  end.

(** The page with the arguments: built at [USER_TEMPBOTT] of the current task, it is
    the top page of the stack of the new one.  The result is [tf_esp].  The results
    of [page_insert] are not looked at. *)
Definition execve_args (fuel : nat) (cur_pgd task_pgd argv : Z) : M mstate Z :=
  new ← page_alloc _GFP_ZERO;
  match (new : option Z) with
  | None => panic
  | Some new =>
      page_insert task_pgd new (USER_STACKTOP - PAGE_SIZE) USER_PERM ;;
      page_insert cur_pgd new USER_TEMPBOTT (Z.lor _PAGE_PRESENT _PAGE_RW) ;;
      r ← count_args fuel cur_pgd argv 0 0;
      let '(argc, string_size) := (r : Z * Z) in
      let string_store := u32 (USER_TEMPBOTT + PAGE_SIZE - string_size) in
      let argv_store := u32 (ROUNDDOWN string_store 4 - 4 * (argc + 1)) in
      put_args (Z.to_nat argc) fuel cur_pgd argv argv_store string_store ;;
      ustore32 cur_pgd (u32 (argv_store + 4 * argc)) 0 ;;
      ustore32 cur_pgd (u32 (argv_store - 4)) (UTEMP2USTACK argv_store) ;;
      ustore32 cur_pgd (u32 (argv_store - 8)) argc ;;
      page_remove cur_pgd USER_TEMPBOTT ;;
      mret (UTEMP2USTACK (u32 (argv_store - 8)))
  end.
