(* ===== verification/Process.v ===== *)
(** * The life of a task: do_fork, task_create, execve and exit as a whole

    kernel/syscall/fork.c ([do_fork], [alloc_task]), kernel/task.c ([task_alloc],
    [alloc_files_struct], [task_create]), kernel/syscall/execve.c and [exit] of
    kernel/syscall/exit.c.  They join the components: the run queue and the table of
    the tasks (Sched), the process ids (Pidmap), the address spaces (Paging, Vma, Fork,
    Exec) and the descriptors (Files).  The state is that of Sched, whose [rest] is the
    [machine].

    [kmalloc] hands out addresses of lists in turn, 0 for a failure: [answers] for
    [task_struct] and [mm_struct], [vma_answers] for areas, and [avail] of Files for
    [files_struct] and [fs_struct]. *)

From S2P Require Import Prelude KList Pidmap Layout Buddy Paging Vma Fault Fork Exec Files Sched.

Local Open Scope Z_scope.

Definition CLONE_VM : Z := 4.

(** ** New nodes *)

(** The memory of a node that was just allocated, and cleared: it is on no list, and
    can be added to one. *)
Class NewNodes (H : Type) `{LinkedLists H} := {
  ll_new : Z → H → H;
  ll_cell : H → Z → Prop;
  ll_new_law h L n :
    ll_rep h L → (∀ hd xs, L !! hd = Some xs → n ∉ hd :: xs) → ll_rep (ll_new n h) L ∧ ll_cell (ll_new n h) n;
  ll_add_new_law h L n hd xs :
    ll_rep h L → ll_cell h n → (∀ hd xs, L !! hd = Some xs → n ∉ hd :: xs) → L !! hd = Some xs →
    ∃ h', ll_add_tail n hd h = Ok (tt, h') ∧ ll_rep h' (<[hd := xs ++ [n]]> L);
}.

(** ** The machine *)

(** The registers of a task, as a trap leaves them; the padding is left out. *)
Record pushregs := mk_regs {
  reg_edi : Z; reg_esi : Z; reg_ebp : Z; reg_oesp : Z; reg_ebx : Z; reg_edx : Z; reg_ecx : Z; reg_eax : Z }.

Record frame := mk_frame {
  tf_regs : pushregs; tf_es : Z; tf_ds : Z; tf_trapno : Z; tf_err : Z; tf_eip : Z; tf_cs : Z; tf_eflags : Z;
  tf_esp : Z; tf_ss : Z }.

Definition with_regs (r : pushregs) (f : frame) : frame :=
  mk_frame r (tf_es f) (tf_ds f) (tf_trapno f) (tf_err f) (tf_eip f) (tf_cs f) (tf_eflags f) (tf_esp f) (tf_ss f).
Definition with_eax (v : Z) (f : frame) : frame :=
  let r := tf_regs f in
  with_regs (mk_regs (reg_edi r) (reg_esi r) (reg_ebp r) (reg_oesp r) (reg_ebx r) (reg_edx r) (reg_ecx r) v) f.
Definition with_eip (v : Z) (f : frame) : frame :=
  mk_frame (tf_regs f) (tf_es f) (tf_ds f) (tf_trapno f) (tf_err f) v (tf_cs f) (tf_eflags f) (tf_esp f) (tf_ss f).
Definition with_esp (v : Z) (f : frame) : frame :=
  mk_frame (tf_regs f) (tf_es f) (tf_ds f) (tf_trapno f) (tf_err f) (tf_eip f) (tf_cs f) (tf_eflags f) v (tf_ss f).

Definition _KERNEL_CS_ : Z := 0x08.
Definition _USER_CS_ : Z := 0x18.
Definition _USER_DS_ : Z := 0x20.
Definition FL_IF : Z := 0x200.

Record machine := mk_machine {
  memory : mstate;
  mm_of : gmap Z user_mm;
  descriptors : fstate;
  tab_of : gmap Z Z;
  frame_of : gmap Z frame;
  cr3 : Z;
  answers : list Z;
  vma_answers : list (Z * (Z * Z)) }.

Definition set_memory (m : mstate) (r : machine) : machine :=
  mk_machine m (mm_of r) (descriptors r) (tab_of r) (frame_of r) (cr3 r) (answers r) (vma_answers r).
Definition set_mm (t : Z) (o : option user_mm) (r : machine) : machine :=
  mk_machine (memory r) (partial_alter (λ _, o) t (mm_of r)) (descriptors r) (tab_of r) (frame_of r) (cr3 r)
    (answers r) (vma_answers r).
Definition set_descriptors (d : fstate) (r : machine) : machine :=
  mk_machine (memory r) (mm_of r) d (tab_of r) (frame_of r) (cr3 r) (answers r) (vma_answers r).
Definition set_tab (t x : Z) (r : machine) : machine :=
  mk_machine (memory r) (mm_of r) (descriptors r) (<[t := x]> (tab_of r)) (frame_of r) (cr3 r) (answers r)
    (vma_answers r).
Definition set_frame (t : Z) (f : frame) (r : machine) : machine :=
  mk_machine (memory r) (mm_of r) (descriptors r) (tab_of r) (<[t := f]> (frame_of r)) (cr3 r) (answers r)
    (vma_answers r).
Definition set_cr3 (v : Z) (r : machine) : machine :=
  mk_machine (memory r) (mm_of r) (descriptors r) (tab_of r) (frame_of r) v (answers r) (vma_answers r).
Definition set_answers (l : list Z) (r : machine) : machine :=
  mk_machine (memory r) (mm_of r) (descriptors r) (tab_of r) (frame_of r) (cr3 r) l (vma_answers r).
Definition set_vma_answers (l : list (Z * (Z * Z))) (r : machine) : machine :=
  mk_machine (memory r) (mm_of r) (descriptors r) (tab_of r) (frame_of r) (cr3 r) (answers r) l.

Section process.
Context {H : Type} `{NewNodes H} (rq list_off : Z) (kpgd : Z) (fuel : nat).

Local Abbreviation state := (@sstate H machine).

Definition set_rest (r : machine) (s : state) : state :=
  SState (lists s) (tasks s) (curtask s) (Sched.task_pidmap s) (pids s) (jiffies s) r.
Definition set_pids (m : pidmap) (s : state) : state :=
  SState (lists s) (tasks s) (curtask s) (Sched.task_pidmap s) m (jiffies s) (rest s).

Definition on_machine {A} (m : M machine A) : M state A := λ s,
  match m (rest s) with Ok (a, r) => Ok (a, set_rest r s) | Stop w => Stop w end.

Definition in_memory {A} (m : M mstate A) : M machine A := λ r,
  match m (memory r) with Ok (a, x) => Ok (a, set_memory x r) | Stop w => Stop w end.
Definition in_descriptors {A} (m : M fstate A) : M machine A := λ r,
  match m (descriptors r) with Ok (a, x) => Ok (a, set_descriptors x r) | Stop w => Stop w end.

Definition next_answer : M machine Z := λ r,
  match answers r with [] => Ok (0, r) | a :: l => Ok (a, set_answers l r) end.

Definition get_mm (t : Z) : M machine user_mm := r ← get; of_option (mm_of r !! t).

Definition new_pid : M state Z := λ s,
  match alloc_pidmap (pids s) with Ok (n, m) => Ok (n, set_pids m s) | Stop w => Stop w end.

(** [task_pidmap[pid] = task]. *)
Definition pidmap_set (n task : Z) : M state unit :=
  pidmap_get n ;;
  modify (λ s, SState (lists s) (tasks s) (curtask s) (<[n := task]> (Sched.task_pidmap s)) (pids s)
                 (jiffies s) (rest s)).

(** The memory of a new [task_struct]. *)
Definition new_task (task : Z) (t : task_struct) : M state unit :=
  modify (λ s, set_lists (ll_new (node list_off task) (lists s)) (set_tasks (<[task := t]> (tasks s)) s)).

Definition with_pid (v : Z) (t : task_struct) : task_struct :=
  Task v (Sched.ppid t) (task_status t) (timeslice t) (Sched.flags t) (pwait t).
Definition with_ppid (v : Z) (t : task_struct) : task_struct :=
  Task (Sched.pid t) v (task_status t) (timeslice t) (Sched.flags t) (pwait t).

(** ** kernel/syscall/fork.c *)

(** The result and [child], which stays NULL on every error. *)
Definition alloc_task (ppid : Z) : M state (Z * Z) :=
  task ← on_machine next_answer;
  if bool_decide (task = 0) then mret (- ENOMEM, 0)
  else
    new_task task (Task 0 0 0 0 0 0) ;;
    n ← new_pid;
    edit_task task (with_pid n) ;;
    if bool_decide (n < 0) then mret (- EMPROC, 0)
    else
      edit_task task (with_ppid ppid) ;;
      edit_task task (with_status TASK_RUNNING) ;;
      edit_task task (with_timeslice 3) ;;
      mret (0, task).

(** [task_set_vm(clone_flag, child)]. *)
Definition fork_set_vm (cur child : Z) : M machine Z :=
  o ← next_answer;
  mm ← get_mm cur;
  x ← in_memory (task_set_vm o kpgd mm);
  let '(r, om) := (x : Z * option user_mm) in
  match om with Some mm' => modify (set_mm child (Some mm')) | None => mret tt end ;;
  mret r.

(** [copy_files(child, clone_flag)]. *)
Definition fork_files (child : Z) : M machine Z :=
  x ← in_descriptors copy_files;
  let '(r, t) := (x : Z * Z) in
  (if bool_decide (0 ≤ r) then modify (set_tab child t) else mret tt) ;;
  mret r.

(** [copy_task(curtask, child)]. *)
Definition fork_pages (cur child : Z) : M machine Z :=
  src ← get_mm cur;
  dest ← get_mm child;
  r ← get;
  x ← lift (copy_task fuel (mm_pgd src) (mm_pgd dest) (mk_fork (mm_areas src) (mm_areas dest) (memory r) (vma_answers r)));
  let '(v, st) := (x : Z * fork_state) in
  modify (set_memory (frames st)) ;;
  modify (set_vma_answers (kmallocs st)) ;;
  modify (set_mm cur (Some (set_areas (src_areas st) src))) ;;
  modify (set_mm child (Some (set_areas (dest_areas st) dest))) ;;
  mret v.

(** [exit_mm(child->mm)]. *)
Definition drop_mm (child : Z) : M machine unit :=
  mm ← get_mm child;
  x ← in_memory (exit_mm fuel mm);
  let '(mm', freed) := (x : user_mm * bool) in
  modify (set_mm child (if freed then None else Some mm')).

Definition do_fork (clone_flag : Z) (f : frame) : M state Z :=
  s ← get;
  let cur := curtask s in
  c ← load_task cur;
  x ← alloc_task (Sched.pid c);
  let '(r, child) := (x : Z * Z) in
  if bool_decide (r < 0) then exit_task child ;; mret r
  else
    on_machine (modify (set_frame child (with_eax 0 f))) ;;
    r ← on_machine (fork_set_vm cur child);
    if bool_decide (r < 0) then exit_task child ;; mret r
    else
      r ← on_machine (fork_files child);
      if bool_decide (r < 0) then exit_task child ;; mret r
      else if bool_decide (Z.land clone_flag CLONE_VM ≠ 0) then panic
      else
        r ← on_machine (fork_pages cur child);
        if bool_decide (r < 0) then
          on_machine (drop_mm child) ;;
          exit_task child ;;
          mret r
        else
          schedule_add_task rq list_off child ;;
          k ← load_task child;
          pidmap_set (Sched.pid k) child ;;
          k ← load_task child;
          mret (Sched.pid k).

(** ** kernel/task.c *)

(** [alloc_files_struct]: the table and [fs]; the contents of [fs] (the working
    directory and the root) are not modelled. *)
Definition alloc_files_struct (task : Z) : M machine Z :=
  t ← in_descriptors Files.kmalloc;
  if bool_decide (t = 0) then mret (- ENOMEM)
  else
    fs ← in_descriptors Files.kmalloc;
    if bool_decide (fs = 0) then mret (- ENOMEM)
    else
      in_descriptors (modify (λ d, set_tabs (<[t := replicate (Z.to_nat MAX_FILE) 0]> (tabs d)) d)) ;;
      modify (set_tab task t) ;;
      mret 0.

(** The [task_set_vm] of task.c. *)
Definition create_set_vm (task : Z) : M machine Z :=
  o ← next_answer;
  match alloc_mm o with
  | None => mret (- ENOMEM)
  | Some mm =>
      page ← in_memory (page_alloc _GFP_ZERO);
      match (page : option Z) with
      | None => mret (- ENOMEM)
      | Some p =>
          r ← get;
          pgd ← lift (page2virt (m_max_pfn (memory r)) p);
          modify (set_mm task (Some (mk_user_mm (mm_areas mm) pgd (start_code mm) (end_code mm) (start_data mm)
            (end_data mm) (start_stack mm) (mm_count mm)))) ;;
          in_memory (copy_kernel_page pgd kpgd) ;;
          mret 0
      end
  end.

(** The frame of a new task. *)
Definition fresh_frame : frame :=
  mk_frame (mk_regs 0 0 0 0 0 0 0 0) (Z.lor _USER_DS_ 3) (Z.lor _USER_DS_ 3) 0 0 0 (Z.lor _USER_CS_ 3) FL_IF
    USER_STACKTOP (Z.lor _USER_DS_ 3).

(** Unlike [alloc_task], it does not clear the [task_struct]: [junk] is what the
    memory held. *)
Definition task_alloc (junk : task_struct) (parent_id : Z) : M state (Z * Z) :=
  task ← on_machine next_answer;
  assert (bool_decide (task ≠ 0)) ;;
  new_task task junk ;;
  r ← on_machine (alloc_files_struct task);
  assert (bool_decide (0 ≤ r)) ;;
  r ← on_machine (create_set_vm task);
  if bool_decide (r < 0) then mret (r, 0)
  else
    n ← new_pid;
    edit_task task (with_pid n) ;;
    if bool_decide (n < 0) then mret (- EMPROC, 0)
    else
      edit_task task (with_ppid parent_id) ;;
      edit_task task (with_status TASK_RUNNING) ;;
      edit_task task (with_timeslice 3) ;;
      on_machine (modify (set_frame task fresh_frame)) ;;
      mret (0, task).

(** [load_icode] on the machine; [back] is the directory of the current task, or
    [kpgd]. *)
Definition create_load (img : gmap Z Z) (binary back task : Z) : M machine Z :=
  mm ← get_mm task;
  r ← get;
  f ← of_option (frame_of r !! task);
  x ← lift (load_icode fuel img binary back (mk_load mm (memory r) (vma_answers r) (cr3 r) (tf_eip f)));
  let '(v, st) := (x : Z * load_state) in
  modify (set_memory (ld_mem st)) ;;
  modify (set_vma_answers (ld_kmallocs st)) ;;
  modify (set_cr3 (ld_cr3 st)) ;;
  modify (set_mm task (Some (ld_mm st))) ;;
  modify (set_frame task (with_eip (ld_eip st) f)) ;;
  mret v.

Definition task_create (junk : task_struct) (img : gmap Z Z) (binary ppid : Z) : M state Z :=
  x ← task_alloc junk ppid;
  let '(r, task) := (x : Z * Z) in
  assert (bool_decide (0 ≤ r)) ;;
  s ← get;
  back ← (if bool_decide (curtask s = 0) then mret kpgd
          else mm ← on_machine (get_mm (curtask s)); mret (mm_pgd mm));
  r ← on_machine (create_load img binary back task);
  assert (bool_decide (0 ≤ r)) ;;
  k ← load_task task;
  pidmap_set (Sched.pid k) task ;;
  schedule_add_task rq list_off task ;;
  mret task.

(** ** kernel/syscall/execve.c *)

(** [*task->files = *curtask->files], and the loop that counts the new references.
    [cur] of the descriptors is the table of the current task. *)
Definition exec_files (task : Z) : M machine unit :=
  r ← get;
  t ← of_option (tab_of r !! task);
  in_descriptors (
    d ← get;
    fds ← of_option (tabs d !! Files.cur d);
    of_option (tabs d !! t) ;;
    put (set_tabs (<[t := fds]> (tabs d)) d) ;;
    count_files fds).

(** [lookup] is the result of [path_lookup]: an error, or the address of the image. *)
Definition execve (junk : task_struct) (img : gmap Z Z) (lookup : Z + Z) (argv : Z) : M state Z :=
  match lookup with
  | inl err => mret err
  | inr start =>
      s ← get;
      let cur := curtask s in
      c ← load_task cur;
      task ← task_create junk img start (Sched.pid c);
      on_machine (exec_files task) ;;
      cmm ← on_machine (get_mm cur);
      tmm ← on_machine (get_mm task);
      esp ← on_machine (in_memory (execve_args fuel (mm_pgd cmm) (mm_pgd tmm) argv));
      f ← on_machine (r ← get; of_option (frame_of r !! task));
      on_machine (modify (set_frame task (with_esp esp f))) ;;
      k ← load_task task;
      mret (Sched.pid k)
  end.

(** ** kernel/syscall/exit.c *)

Definition run_on (m : M machine unit) (r : machine) : outcome machine :=
  match m r with Ok (_, r') => Ok r' | Stop w => Stop w end.

(** [exit] with the address space and the descriptors: [exit_files] drops those of the
    current task, whichever task ends. *)
Definition task_exit (task : Z) : M state flow :=
  assert (bool_decide (task ≠ 0)) ;;
  s ← get;
  (if bool_decide (task = curtask s) then on_machine (modify (set_cr3 kpgd)) else mret tt) ;;
  Sched.exit rq list_off (λ t, run_on (drop_mm t)) (λ _, run_on (in_descriptors exit_files)) task.
End process.
