(* ===== verification/ExitAreas.v ===== *)
(** * Releasing the areas of an address space: [delete_all_vma] of
    kernel/syscall/exit.c over [delete_vma] of kernel/mm/mm.c

    [exit] takes down the areas in the order of the list of the address space, with
    the pages they map.  The list is the one [vm_link] builds with [find_vma_prev];
    [releasable] says for which orders of it the areas can be taken down. *)

From S2P Require Import Prelude Layout Buddy BuddyProofs Paging PagingProofs Vma VmaProofs Fault FaultProofs Fork ForkProofs.

Local Open Scope Z_scope.

(** ** Code that only edits the tree *)

(** The fields of an area that the tree operations leave alone. *)
Definition shape (m : mm_struct) (i : Z) : option (Z * Z * Z) :=
  (λ v, (vm_next v, vm_start v, vm_end v)) <$> areas m !! i.

Record tree_edit (m m' : mm_struct) : Prop := {
  te_head : mmap m' = mmap m;
  te_shape : ∀ i, shape m' i = shape m i }.

Definition edits {A} (c : M mm_struct A) : Prop :=
  ∀ m a m', c m = Ok (a, m') → tree_edit m m'.

#[global] Instance tree_edit_preorder : PreOrder tree_edit.
Proof.
  split; [by intros m; split|]. intros m1 m2 m3 [H1 S1] [H2 S2].
  split; [by rewrite H2|]. intros i. by rewrite S2.
Qed.

Lemma edits_bind {A B} (c : M mm_struct A) (k : A → M mm_struct B) :
  edits c → (∀ a, edits (k a)) → edits (c ≫= k).
Proof.
  intros Hc Hk m b m' Hrun. apply bind_Ok_inv in Hrun as (a & m1 & H1 & H2).
  etrans; [by eapply Hc|by eapply Hk].
Qed.

Lemma edits_pure {A} (c : M mm_struct A) : (∀ m a m', c m = Ok (a, m') → m' = m) → edits c.
Proof. intros Hc m a m' ->%Hc. done. Qed.

Lemma edits_ret {A} (a : A) : edits (mret a).
Proof. apply edits_pure. intros m b m' E. by injection E. Qed.

Lemma edits_stop {A} w : edits (@stop_with mm_struct A w).
Proof. by intros ???. Qed.

Lemma edits_gets {A} (f : mm_struct → A) : edits (gets f).
Proof. apply edits_pure. intros m b m' E. by injection E. Qed.

Lemma edits_load n : edits (load_vma n).
Proof.
  apply edits_pure. intros m b m' E. unfold load_vma, mbind, M_bind, get in E.
  unfold of_option in E. destruct (areas m !! n); [by injection E|done].
Qed.

Lemma edits_vma n f :
  (∀ v, vm_next (f v) = vm_next v ∧ vm_start (f v) = vm_start v ∧ vm_end (f v) = vm_end v) →
  edits (edit_vma n f).
Proof.
  intros Hf m [] m' E. destruct (areas m !! n) as [v|] eqn:Hv.
  2: { unfold edit_vma, load_vma, mbind, M_bind, get in E. by rewrite Hv in E. }
  rewrite (edit_vma_ok m n f v Hv) in E. injection E as <-. split; [done|].
  intros i. unfold shape. simpl. destruct (decide (i = n)) as [->|].
  - rewrite lookup_alter_eq, Hv. simpl. destruct (Hf v) as (-> & -> & ->). done.
  - by rewrite lookup_alter_ne.
Qed.

Lemma edits_root x : edits (modify (set_root x)).
Proof. intros m [] m' E. injection E as <-. by split. Qed.

Lemma edits_write slot x : edits (write_rb slot x).
Proof. destruct slot; [apply edits_root|by apply edits_vma..]. Qed.

Create HintDb edits.
#[export] Hint Resolve edits_bind edits_ret edits_stop edits_gets edits_load edits_root edits_write : edits.
#[export] Hint Extern 1 (edits (edit_vma _ _)) => apply edits_vma; done : edits.
#[export] Hint Extern 1 (edits (if ?b then _ else _)) => destruct b : edits.

Lemma edits_mostleft fuel : ∀ n, edits (rb_mostleft fuel n).
Proof. induction fuel as [|fuel IH]; intros n; simpl; eauto 8 with edits. Qed.

Lemma edits_parent_slot n p : edits (rb_parent_slot n p).
Proof. unfold rb_parent_slot, panic. eauto 10 with edits. Qed.

#[export] Hint Resolve edits_mostleft edits_parent_slot : edits.

Lemma edits_rbtree_delete fuel : ∀ n, edits (rbtree_delete fuel n).
Proof.
  induction fuel as [|fuel IH]; intros n; cbn [rbtree_delete]; [apply edits_stop|].
  apply edits_bind; [eauto with edits|intros v]. apply edits_bind; [eauto with edits|intros pp].
  apply edits_bind; [|eauto 8 with edits].
  repeat case_match; eauto 9 with edits.
Qed.

(** ** Taking the first area out *)

(** The list of areas from [x] on, as [vm_next] links it. *)
Fixpoint links (m : mm_struct) (x : Z) (l : list area) : Prop :=
  match l with
  | [] => x = 0
  | a :: l => x = a_id a ∧ ∃ nx, shape m x = Some (nx, a_lo a, a_hi a) ∧ links m nx l
  end.

Lemma links_shape m m' l : ∀ x,
  (∀ i, i ∈ a_id <$> l → shape m' i = shape m i) → links m x l → links m' x l.
Proof.
  induction l as [|a l IH]; intros x Hs; [done|]. simpl. intros (-> & nx & Hn & Hl).
  split; [done|]. exists nx. rewrite Hs by (apply elem_of_cons; by left).
  split; [done|]. apply IH; [|done]. intros i Hi. apply Hs, elem_of_cons. by right.
Qed.

(** [find_vma_prev] finds no area in front of [addr]: the one at the root does not
    end below it. *)
Definition first_at (addr : Z) (t : tree) : Prop :=
  match t with Leaf => True | Node _ b _ => addr ≤ a_hi b end.

(** The areas can be taken down in the order [l]. *)
Fixpoint releasable (l : list area) (t : tree) : Prop :=
  match l with
  | [] => t = Leaf
  | a :: l => a ∈ inorder t ∧ short (a_id a) t ∧ first_at (a_lo a) t ∧
      releasable l (tdelete (a_id a) t)
  end.

Lemma find_vma_prev_loop_none t : ∀ fuel m root parent addr,
  rep (areas m) root parent t → ordered (inorder t) → (height t < fuel)%nat →
  first_at addr t → find_vma_prev_loop fuel root addr 0 m = Ok (0, m).
Proof.
  induction t as [|l _ a r IH]; intros [|fuel] m root parent addr Hrep Hord Hf Hfst;
    [lia| |simpl in Hf; lia|].
  - simpl in Hrep. subst root. done.
  - destruct Hrep as (-> & left & right & Hh & _ & Hr). cbn [find_vma_prev_loop].
    destruct (holds_load m _ _ _ _ Hh) as (v & Hv & _ & He & _ & Hrt).
    rewrite bool_decide_eq_false_2 by apply Hh. rewrite (bind_Ok _ _ _ _ _ Hv), He, Hrt.
    simpl in Hfst. rewrite bool_decide_eq_false_2 by lia.
    apply ordered_Node in Hord as (_ & Hr' & _ & _ & Hbef).
    eapply IH; [exact Hr|exact Hr'|simpl in Hf; lia|].
    destruct r as [|rl b rr]; [done|]. simpl.
    assert (Hb : b ∈ inorder (Node rl b rr)).
    { simpl. apply elem_of_app. right. apply elem_of_cons. by left. }
    apply Hbef in Hb. apply ordered_Node in Hr' as (_ & _ & ? & _). unfold before in Hb. lia.
Qed.

Lemma find_own_area m t fuel a :
  mm_ok m t → (height t < fuel)%nat → a ∈ inorder t → find_vma fuel (a_lo a) m = Ok (a_id a, m).
Proof.
  intros Hok Hf Ha. rewrite (find_vma_ok m t) by done. do 2 f_equal.
  pose proof (mo_ordered _ _ Hok) as Hord.
  apply list_elem_of_split in Ha as (l1 & l2 & E). rewrite E in *.
  apply ordered_app in Hord as (_ & Ho2 & Hb). apply ordered_cons in Ho2 as (Hlt & _ & _).
  rewrite find_after_app, find_after_None.
  - simpl. by rewrite decide_True.
  - intros b Hb1. apply (Hb b a Hb1). apply elem_of_cons. by left.
Qed.

Lemma shape_Some m i nx lo hi :
  shape m i = Some (nx, lo, hi) ↔
  ∃ v, areas m !! i = Some v ∧ vm_next v = nx ∧ vm_start v = lo ∧ vm_end v = hi.
Proof.
  unfold shape. destruct (areas m !! i) as [v|]; simpl; split.
  - intros [= <- <- <-]. eauto.
  - intros (? & [= <-] & <- & <- & <-). done.
  - done.
  - by intros (? & ? & _).
Qed.

Lemma releasable_in l : ∀ t, NoDup (ids t) → releasable l t → ∀ a, a ∈ l → a ∈ inorder t.
Proof.
  induction l as [|b l IH]; intros t Hnd; simpl; [by intros _ a ?%elem_of_nil|].
  intros (Hb & Hs & _ & Hl) a [->|Ha]%elem_of_cons; [done|].
  pose proof (tdelete_inorder _ t Hnd Hs) as Ein.
  assert (Hnd' : NoDup (ids (tdelete (a_id b) t))).
  { unfold ids. rewrite Ein. eapply sublist_NoDup; [exact Hnd|]. apply fmap_sublist, sublist_filter. }
  apply (IH _ Hnd' Hl) in Ha. rewrite Ein in Ha. by apply list_elem_of_filter in Ha as [_ ?].
Qed.

Lemma tdelete_gone x t : NoDup (ids t) → short x t → x ∉ ids (tdelete x t).
Proof.
  intros Hnd Hs. unfold ids. rewrite tdelete_inorder by done. intros Hx.
  apply list_elem_of_fmap in Hx as (a & -> & Ha). by apply list_elem_of_filter in Ha as [? _].
Qed.

Lemma height_tdelete x t : (height (tdelete x t) ≤ height t)%nat.
Proof.
  induction t as [|l IHl a r IHr]; [done|]. simpl. case_decide; [|simpl; lia].
  destruct l; simpl in *; lia.
Qed.

Lemma load_vma_ok m n v : areas m !! n = Some v → load_vma n m = Ok (v, m).
Proof. intros Hv. unfold load_vma. erewrite bind_Ok by reflexivity. by apply of_option_Some. Qed.

(** The list half of [delete_vma]: unlink and free. *)
Lemma unlink_first_ok m t fuel a l :
  mm_ok m t → (height t < fuel)%nat → links m (mmap m) (a :: l) → releasable (a :: l) t →
  ∃ m', (vm_link_del fuel (a_id a) ;; modify (set_areas_mm (delete (a_id a)))) m = Ok (tt, m') ∧
    mm_ok m' (tdelete (a_id a) t) ∧ links m' (mmap m') l.
Proof.
  intros Hok Hf (Hh & nx & Hsh & Hl) (Ha & Hs & Hfst & Hrel).
  pose proof (mo_nodup _ _ Hok) as Hnd. pose proof (tdelete_gone _ _ Hnd Hs) as Hgone.
  destruct fuel as [|fuel]; [lia|].
  assert (Hx : a_id a ∈ ids t) by (apply list_elem_of_fmap; eauto).
  destruct (rbtree_delete_ok m t (a_id a) fuel Hok Hx Hs) as (m1 & Hdel & Hok1).
  pose proof (edits_rbtree_delete _ _ _ _ _ Hdel) as [Hhead Hshape].
  rewrite Hh in Hsh. pose proof Hsh as (v & Hv & Hvn & Hvs & Hve)%shape_Some.
  pose proof Hsh as Hsh1. rewrite <- Hshape in Hsh1. apply shape_Some in Hsh1 as (v1 & Hv1 & Hv1n & _).
  set (m2 := set_mmap nx (set_count (i32 (mmap_count m1 - 1)) m1)).
  set (m3 := set_areas_mm (alter (with_next 0) (a_id a)) m2).
  exists (set_areas_mm (delete (a_id a)) m3).
  assert (Hother : ∀ i, i ≠ a_id a → areas (set_areas_mm (delete (a_id a)) m3) !! i = areas m1 !! i).
  { intros i Hi. simpl. by rewrite lookup_delete_ne, lookup_alter_ne. }
  split_and!.
  - unfold vm_link_del. rewrite bind_assoc.
    rewrite (bind_Ok _ _ _ _ _ (load_vma_ok m _ v Hv)).
    rewrite Hvs, bind_assoc, (bind_Ok _ _ _ _ _ (find_own_area m t (S fuel) a Hok Hf Ha)).
    rewrite bool_decide_eq_false_2 by (intros ?; done). rewrite bind_assoc.
    erewrite bind_Ok by (unfold find_vma_prev; erewrite bind_Ok by reflexivity;
      eapply find_vma_prev_loop_none; [apply Hok|apply Hok|exact Hf|exact Hfst]).
    rewrite !bind_assoc, (bind_Ok _ _ _ _ _ Hdel), !bind_assoc.
    erewrite bind_Ok by reflexivity. rewrite !bind_assoc. erewrite bind_Ok by reflexivity.
    rewrite !bind_assoc.
    erewrite bind_Ok by (by apply load_vma_ok).
    rewrite bool_decide_eq_true_2, Hv1n, !bind_assoc by done. erewrite bind_Ok by reflexivity.
    erewrite bind_Ok by (eapply (edit_vma_ok m2); exact Hv1). reflexivity.
  - split; [|apply Hok1|apply Hok1]. eapply rep_frame; [|apply Hok1].
    intros i Hi. apply Hother. intros ->. done.
  - simpl. eapply links_shape; [|exact Hl]. intros i Hi. unfold shape. rewrite Hother.
    { apply Hshape. }
    intros ->. apply Hgone. apply list_elem_of_fmap in Hi as (b & E & Hb).
    apply list_elem_of_fmap. exists b. split; [done|].
    eapply releasable_in; [apply Hok1|exact Hrel|exact Hb].
Qed.

(** ** The pages of the areas *)

Section release.
Context (g o : Z).

(** The pages [vs] were unmapped: every mapping lost drops one reference, and a frame
    with no reference left is free. *)
Record released (s s' : mstate) (vs : list Z) : Prop := {
  rl_inv : mm_inv s';
  rl_tree : tree_wf s' g o;
  rl_roles : ∀ r, user_role r → role_frame s' g o r = role_frame s g o r;
  rl_mapped : ∀ va, user_va va → mapped s' g o va =
    if decide (in_pages va vs) then None else mapped s g o va;
  rl_meta : ∀ q, meta s' q = add_refs (- uses s g o q vs) <$> meta s q;
  rl_free : ∀ q, free_page (nz s') q ↔ free_page (nz s) q ∨
    0 < uses s g o q vs ∧ nref <$> mempage s !! q = Some (uses s g o q vs);
  rl_end : zend (nz s') = zend (nz s);
  rl_data : ∀ q, no_leaf s g o q → mem s' !! q = mem s !! q }.

(** Every frame mapped in [vs] carries at least one reference per mapping. *)
Definition counted (s : mstate) (vs : list Z) : Prop :=
  ∀ va e, va ∈ vs → mapped s g o va = Some e →
    no_table s g o (eframe e) ∧ ∃ pg, referenced s (eframe e) pg ∧ uses s g o (eframe e) vs ≤ nref pg.

(** No page of [ws] is one of [vs]. *)
Definition pages_apart (vs ws : list Z) : Prop := Forall (λ va, user_va va ∧ ¬ in_pages va vs) ws.

Lemma uses_pos s q vs va : va ∈ vs → old_frame s g o va = Some q → 0 < uses s g o q vs.
Proof.
  intros Hva Hq. unfold uses.
  assert (Hin : va ∈ filter (λ va, old_frame s g o va = Some q) vs) by (by apply list_elem_of_filter).
  destruct (filter _ vs); [by apply elem_of_nil in Hin|]. simpl. lia.
Qed.

Lemma uses_found s q vs : 0 < uses s g o q vs → ∃ va, va ∈ vs ∧ old_frame s g o va = Some q.
Proof.
  unfold uses. destruct (filter _ vs) as [|va l] eqn:E; simpl; [lia|]. intros _. exists va.
  assert (Hin : va ∈ filter (λ va, old_frame s g o va = Some q) vs).
  { rewrite E. apply elem_of_cons. by left. }
  by apply list_elem_of_filter in Hin as [? ?].
Qed.

(** A frame in use keeps a count above its uses. *)
Lemma counted_uses s q vs :
  counted s vs → 0 < uses s g o q vs → ∃ pg, referenced s q pg ∧ uses s g o q vs ≤ nref pg.
Proof.
  intros Hc (va & Hva & Hq)%uses_found. unfold old_frame in Hq.
  destruct (mapped s g o va) as [e|] eqn:He; [|done]. injection Hq as <-.
  by destruct (Hc va e Hva He) as [_ ?].
Qed.

Lemma released_old s s1 vs va :
  released s s1 vs → user_va va → ¬ in_pages va vs → old_frame s1 g o va = old_frame s g o va.
Proof. intros H Hv Hn. unfold old_frame. by rewrite (rl_mapped _ _ _ H), decide_False. Qed.

Lemma released_uses s s1 vs ws q :
  released s s1 vs → pages_apart vs ws → uses s1 g o q ws = uses s g o q ws.
Proof.
  intros H Hap. apply uses_ext. eapply Forall_impl; [exact Hap|]. intros va [? ?].
  by eapply released_old.
Qed.

Lemma released_nref s s1 vs q pg :
  released s s1 vs → mempage s !! q = Some pg →
  ∃ pg1, mempage s1 !! q = Some pg1 ∧ nref pg1 = nref pg - uses s g o q vs ∧ flags pg1 = flags pg.
Proof.
  intros H Hpg. pose proof (rl_meta _ _ _ H q) as Hm. rewrite (meta_frame _ _ _ Hpg) in Hm.
  apply meta_Some in Hm as (pg1 & Hpg1 & En & Ef & _). exists pg1. simpl in En, Ef. split_and!; [done|lia|done].
Qed.

Lemma counted_after s s1 vs ws :
  released s s1 vs → counted s (vs ++ ws) → pages_apart vs ws → counted s1 ws.
Proof.
  intros H Hc Hap va e Hva He.
  pose proof Hap as Hap'. unfold pages_apart in Hap'. rewrite Forall_forall in Hap'.
  destruct (Hap' va Hva) as [Hv Hn]. rewrite (rl_mapped _ _ _ H), decide_False in He by done.
  destruct (Hc va e) as (Hnt & pg & (Hb & Hpg & Hr & Hfl) & Hu); [apply elem_of_app; by right|done|].
  assert (Hpos : 0 < uses s g o (eframe e) ws).
  { eapply uses_pos; [done|]. unfold old_frame. by rewrite He. }
  rewrite uses_app in Hu. pose proof (uses_bound s g o (eframe e) vs).
  destruct (released_nref s s1 vs _ pg H Hpg) as (pg1 & Hpg1 & En & Ef).
  split; [split; [apply Hnt|intros r Hr'; rewrite (rl_roles _ _ _ H) by done; by apply Hnt]|].
  exists pg1. rewrite (released_uses s s1 vs ws) by done. split; [|lia].
  split_and!; [|done|lia|lia|congruence]. split; [rewrite (rl_end _ _ _ H); apply Hb|].
  rewrite (rl_free _ _ _ H), Hpg. intros [?|[_ E]]; [by apply Hb|]. simpl in E. injection E as E. lia.
Qed.

Lemma released_nil s : mm_inv s → tree_wf s g o → released s s [].
Proof.
  intros Hi Hw. split; try done.
  - intros q. unfold uses. simpl. destruct (meta s q) as [pg|]; [|done]. simpl. by rewrite add_refs_0.
  - intros q. unfold uses. simpl. split; [by left|]. intros [?|[? _]]; [done|lia].
Qed.

Lemma released_trans s s1 s2 vs ws :
  released s s1 vs → released s1 s2 ws → pages_apart vs ws → counted s (vs ++ ws) →
  released s s2 (vs ++ ws).
Proof.
  intros H1 H2 Hap Hc. pose proof (λ q, released_uses s s1 vs ws q H1 Hap) as Hu.
  split; [apply H2|apply H2| | | | | |].
  - intros r Hr. by rewrite (rl_roles _ _ _ H2), (rl_roles _ _ _ H1).
  - intros va Hv. rewrite (rl_mapped _ _ _ H2), (rl_mapped _ _ _ H1) by done. unfold in_pages.
    repeat case_decide; try done; exfalso; rewrite Exists_app in *; tauto.
  - intros q. rewrite (rl_meta _ _ _ H2), (rl_meta _ _ _ H1), Hu, uses_app.
    destruct (meta s q); [|done]. simpl. rewrite add_refs_add. do 2 f_equal. lia.
  - intros q. rewrite (rl_free _ _ _ H2), (rl_free _ _ _ H1), Hu, uses_app.
    pose proof (uses_bound s g o q vs). pose proof (uses_bound s g o q ws).
    destruct (decide (0 < uses s g o q (vs ++ ws))) as [Hp|Hp].
    + destruct (counted_uses s q (vs ++ ws) Hc Hp) as (pg & (_ & Hpg & _) & Hle).
      rewrite uses_app in Hp, Hle. destruct (released_nref s s1 vs q pg H1 Hpg) as (pg1 & -> & En & _).
      rewrite Hpg. simpl. rewrite En. split.
      * intros [[?|[? [= ?]]]|[? [= ?]]]; [by left|right|right]; (split; [lia|f_equal; lia]).
      * intros [?|[_ [= ?]]]; [by left; left|]. destruct (decide (0 < uses s g o q ws)).
        -- right. split; [done|f_equal; lia].
        -- left. right. split; [lia|f_equal; lia].
    + rewrite uses_app in Hp. split; [intros [[?|[? _]]|[? _]]; [by left|lia|lia]|].
      intros [?|[? _]]; [by left; left|lia].
  - by rewrite (rl_end _ _ _ H2), (rl_end _ _ _ H1).
  - intros q Hq. rewrite (rl_data _ _ _ H2), (rl_data _ _ _ H1); [done|done|].
    intros i j Hr. rewrite (rl_roles _ _ _ H1) by done. by apply Hq.
Qed.

(** One round of [vma_unmap_page]. *)
Lemma unmap_one s va :
  mm_inv s → tree_wf s g o → user_va va → va ≠ 0 → counted s [va] →
  ∃ s', page_remove (slot g o) va s = Ok (tt, s') ∧ released s s' [va].
Proof.
  intros Hi Hw Hv Hv0 Hc. destruct (mapped s g o va) as [e|] eqn:He.
  - destruct (Hc va e) as (Hn & pg & Hr & _); [by apply list_elem_of_singleton|done|].
    destruct (page_remove_ok s g o va Hi Hw Hv Hv0 e pg He Hr Hn) as (s' & Hrun & R).
    assert (Hu : ∀ q, uses s g o q [va] = b2z (q = eframe e)).
    { intros q. unfold uses, b2z. rewrite filter_cons, filter_nil. unfold old_frame. rewrite He.
      simpl. repeat case_decide; simplify_eq/=; done. }
    exists s'. split; [done|]. destruct R as [R1 R2 R3 R4 R5 R6 R7 _ R9]. destruct Hr as (Hb & Hpg & Hr & _).
    split; [done|done|done| | | |done|done].
    + intros va' Hv'. rewrite R4 by done. unfold in_pages, same_page. repeat case_decide; try done; exfalso.
      * match goal with H : ¬ Exists _ _ |- _ => apply H end. by left.
      * match goal with H : Exists _ _ |- _ => apply Exists_cons in H as [?|?%Exists_nil]; [|done] end. congruence.
    + intros q. rewrite R7, Hu. unfold b2z. case_decide as E.
      * subst q. rewrite (meta_frame _ _ _ Hpg). done.
      * destruct (meta s q); [|done]. simpl. by rewrite add_refs_0.
    + intros q. rewrite R5, Hu. unfold b2z. case_decide as E.
      * subst q. rewrite Hpg. simpl. split; (intros [?|[? ?]]; [by left|right]); split; try done; try lia; congruence.
      * split; (intros [?|[? ?]]; [by left|]); [done|lia].
  - exists s. split.
    { unfold page_remove. rewrite (asserts_ok s g o va Hw Hv0).
      by rewrite (bind_Ok _ _ _ _ _ (page_lookup_unmapped s g o va Hi Hw Hv Hv0 He)). }
    destruct (released_nil s Hi Hw) as [? ? ? Hm ? Hf ? ?].
    assert (Hu : ∀ q, uses s g o q [va] = 0).
    { intros q. unfold uses. rewrite filter_cons, filter_nil. unfold old_frame. by rewrite He. }
    split; try done.
    + intros va' Hv'. case_decide as E; [|done]. apply Exists_cons in E as [E|?%Exists_nil]; [|done].
      apply same_page_indices in E as [Er Ek]; [|done|done]. revert He. unfold mapped, entry_at.
      unfold leaf_role in Er. by rewrite <- Er, Ek.
    + intros q. rewrite Hu. done.
    + intros q. rewrite Hu. split; [by left|]. intros [?|[? _]]; [done|lia].
Qed.

(** *** The loop over the pages of an area, and over the areas *)

Lemma pages_from_in va n start :
  va ∈ pages_from n start → ∃ k, va = start + k * PAGE_SIZE ∧ 0 ≤ k < Z.of_nat n.
Proof.
  revert start. induction n as [|n IH]; intros start; cbn [pages_from]; [by intros ?%elem_of_nil|].
  intros [->|(k & -> & Hk)%IH]%elem_of_cons; [exists 0|exists (k + 1)]; lia.
Qed.

Lemma unmap_loop_ok n : ∀ fuel s start,
  (n < fuel)%nat → mm_inv s → tree_wf s g o → counted s (pages_from n start) →
  (PAGE_SIZE | start) → PAGE_SIZE ≤ start → start + Z.of_nat n * PAGE_SIZE ≤ KERNEL_BASE_ADDR →
  ∃ s', unmap_loop fuel (slot g o) start (start + Z.of_nat n * PAGE_SIZE) s = Ok (tt, s') ∧
    released s s' (pages_from n start).
Proof.
  induction n as [|n IH]; intros [|fuel] s start Hf Hi Hw Hc Hd Hlo Hhi; [lia| |lia|].
  { exists s. split; [|by apply released_nil]. cbn [unmap_loop]. by rewrite bool_decide_eq_false_2 by lia. }
  assert (HP : PAGE_SIZE = 4096) by done. cbn [pages_from] in Hc.
  assert (Hv : user_va start) by (unfold user_va; lia).
  assert (Hap : pages_apart [start] (pages_from n (start + PAGE_SIZE))).
  { apply Forall_forall. intros va (k & -> & Hk)%pages_from_in.
    split; [unfold user_va; lia|]. intros E. apply Exists_cons in E as [E|?%Exists_nil]; [|done].
    unfold same_page in E. rewrite <- Z.add_assoc in E.
    replace (PAGE_SIZE + k * PAGE_SIZE) with ((k + 1) * PAGE_SIZE) in E by lia.
    rewrite Z.div_add in E by lia. lia. }
  assert (Hc1 : counted s [start]).
  { intros va e Hva He. destruct (Hc va e) as (Hn & pg & Hr & Hu).
    { apply elem_of_cons. left. by apply list_elem_of_singleton in Hva. }
    { done. }
    split; [done|]. exists pg. split; [done|]. change (start :: ?l) with ([start] ++ l) in Hu.
    rewrite uses_app in Hu. pose proof (uses_bound s g o (eframe e) (pages_from n (start + PAGE_SIZE))). lia. }
  destruct (unmap_one s start Hi Hw Hv ltac:(lia) Hc1) as (s1 & Hrun & R1).
  destruct (IH fuel s1 (start + PAGE_SIZE)) as (s2 & Hrun2 & R2);
    [lia|apply R1|apply R1|by eapply (counted_after s s1 [start])|by apply Z.divide_add_r|lia|lia|].
  exists s2. split; [|by eapply (released_trans s s1 s2 [start])].
  cbn [unmap_loop]. rewrite bool_decide_eq_true_2 by lia. rewrite (bind_Ok _ _ _ _ _ Hrun).
  rewrite u32_small by (unfold KERNEL_BASE_ADDR in *; lia).
  replace (start + Z.of_nat (S n) * PAGE_SIZE) with (start + PAGE_SIZE + Z.of_nat n * PAGE_SIZE) by lia.
  exact Hrun2.
Qed.

Definition good_area (a : area) : Prop :=
  page_aligned (a_lo a) ∧ page_aligned (a_hi a) ∧
  PAGE_SIZE ≤ a_lo a ∧ a_lo a < a_hi a ∧ a_hi a ≤ KERNEL_BASE_ADDR.

Definition area_npages (a : area) : nat := Z.to_nat ((a_hi a - a_lo a) / PAGE_SIZE).

Definition area_pages (a : area) : list Z := pages_from (area_npages a) (a_lo a).

Lemma area_span a : good_area a → a_lo a + Z.of_nat (area_npages a) * PAGE_SIZE = a_hi a.
Proof.
  intros ((x & Hx) & (y & Hy) & _ & Hlt & _). unfold area_npages. rewrite Hx, Hy in *.
  assert (PAGE_SIZE = 4096) as HP by done. rewrite HP in *.
  rewrite <- Z.mul_sub_distr_r, Z.div_mul by lia. lia.
Qed.

Lemma area_page_in a va : good_area a → va ∈ area_pages a → a_lo a ≤ va < a_hi a.
Proof.
  intros Hg (k & -> & Hk)%pages_from_in. pose proof (area_span a Hg).
  assert (PAGE_SIZE = 4096) by done. nia.
Qed.

Lemma in_area_pages a va : good_area a → in_pages va (area_pages a) ↔ a_lo a ≤ va < a_hi a.
Proof. intros Hg. unfold area_pages. rewrite in_pages_from by apply Hg. by rewrite area_span. Qed.

Lemma vma_unmap_page_ok s v a :
  vm_start v = a_lo a → vm_end v = a_hi a → good_area a →
  mm_inv s → tree_wf s g o → counted s (area_pages a) →
  ∃ s', vma_unmap_page (slot g o) v s = Ok (tt, s') ∧ released s s' (area_pages a).
Proof.
  intros Es Ee Hg Hi Hw Hc. unfold vma_unmap_page. rewrite Es, Ee. pose proof (area_span a Hg) as Hs.
  destruct Hg as (Ha & _ & Hlo & Hlt & Hhi). assert (PAGE_SIZE = 4096) as HP by done.
  assert (Hle : a_lo a / PAGE_SIZE + Z.of_nat (area_npages a) = a_hi a / PAGE_SIZE).
  { rewrite <- Hs, Z.div_add by lia. done. }
  pose proof (Z.div_pos (a_lo a) PAGE_SIZE).
  destruct (unmap_loop_ok (area_npages a) (S (Z.to_nat (a_hi a / PAGE_SIZE))) s (a_lo a)) as (s' & Hrun & R);
    try done; [lia|by rewrite Hs|].
  rewrite Hs in Hrun. eauto.
Qed.

Lemma ordered_pair l a b : ordered l → a ∈ l → b ∈ l → a ≠ b → before a b ∨ before b a.
Proof.
  induction l as [|c l IH]; [by intros _ ?%elem_of_nil|]. intros (_ & Ho & Hb)%ordered_cons.
  intros [->|Ha]%elem_of_cons [->|Hb']%elem_of_cons Hne; [done|left|right|]; eauto.
Qed.

(** The pages of the areas, in the order of the list. *)
Definition pages_of (l : list area) : list Z := concat (area_pages <$> l).

Lemma pages_of_in va l : va ∈ pages_of l → ∃ a, a ∈ l ∧ va ∈ area_pages a.
Proof.
  unfold pages_of. induction l as [|b l IH]; [by intros ?%elem_of_nil|]. rewrite fmap_cons. cbn [concat].
  intros [Ha|(a & Ha & Hva)%IH]%elem_of_app; [exists b|exists a]; rewrite elem_of_cons; auto.
Qed.

Lemma areas_apart t a l :
  NoDup (ids t) → ordered (inorder t) → releasable (a :: l) t → Forall good_area (a :: l) →
  pages_apart (area_pages a) (pages_of l).
Proof.
  intros Hnd Ho (Ha & Hs & _ & Hl) (Hga & Hgl)%Forall_cons. apply Forall_forall.
  intros va (b & Hb & Hva)%pages_of_in. rewrite Forall_forall in Hgl. pose proof (Hgl b Hb) as Hgb.
  pose proof (area_page_in b va Hgb Hva) as Hr. split.
  { unfold user_va. destruct Hgb as (_ & _ & ? & _). assert (PAGE_SIZE = 4096) by done. 
    destruct (Hgl b Hb) as (_ & _ & _ & _ & ?). lia. }
  rewrite in_area_pages by done.
  assert (Hnd' : NoDup (ids (tdelete (a_id a) t))).
  { unfold ids. rewrite tdelete_inorder by done. eapply sublist_NoDup; [exact Hnd|]. apply fmap_sublist, sublist_filter. }
  pose proof (releasable_in l _ Hnd' Hl b Hb) as Hbt. rewrite tdelete_inorder in Hbt by done.
  apply list_elem_of_filter in Hbt as [Hne Hbt].
  assert (Hab : a ≠ b) by congruence.
  destruct (ordered_pair _ a b Ho Ha Hbt Hab) as [H|H]; unfold before in H; lia.
Qed.

Lemma counted_app_l s vs ws : counted s (vs ++ ws) → counted s vs.
Proof.
  intros Hc va e Hva He. destruct (Hc va e) as (Hn & pg & Hr & Hu); [apply elem_of_app; by left|done|].
  split; [done|]. exists pg. split; [done|]. rewrite uses_app in Hu.
  pose proof (uses_bound s g o (eframe e) ws). lia.
Qed.

Lemma delete_vma_ok fuel m s t a l :
  mm_ok m t → (height t < fuel)%nat → links m (mmap m) (a :: l) → releasable (a :: l) t →
  good_area a → mm_inv s → tree_wf s g o → counted s (area_pages a) →
  ∃ m' s', delete_vma fuel (slot g o) (mmap m) (mk_user m s) = Ok (tt, mk_user m' s') ∧
    mm_ok m' (tdelete (a_id a) t) ∧ links m' (mmap m') l ∧ released s s' (area_pages a).
Proof.
  intros Hok Hf Hl Hr Hg Hi Hw Hc.
  destruct (unlink_first_ok m t fuel a l Hok Hf Hl Hr) as (m' & Hrun & Hok' & Hl').
  destruct Hl as (Hh & nx & Hsh & _). rewrite Hh in *. apply shape_Some in Hsh as (v & Hv & _ & Hvs & Hve).
  destruct (vma_unmap_page_ok s v a Hvs Hve Hg Hi Hw Hc) as (s' & Hun & R).
  exists m', s'. split; [|done]. unfold delete_vma.
  erewrite bind_Ok by (unfold on_areas; cbn [areas_of]; rewrite (load_vma_ok m _ v Hv); reflexivity).
  erewrite bind_Ok by (unfold on_tables; cbn [tables]; rewrite Hun; reflexivity).
  apply bind_Ok_inv in Hrun as ([] & m1 & H1 & H2). cbn [areas_of tables].
  erewrite bind_Ok by (unfold on_areas; cbn [areas_of]; rewrite H1; reflexivity).
  unfold on_areas. cbn [areas_of tables]. rewrite H2. reflexivity.
Qed.

Lemma delete_all_loop_ok l : ∀ fuel m s t,
  mm_ok m t → (length l + height t < fuel)%nat → links m (mmap m) l → releasable l t →
  Forall good_area l → mm_inv s → tree_wf s g o → counted s (pages_of l) →
  ∃ m' s', delete_all_loop fuel (slot g o) (mmap m) (mk_user m s) = Ok (tt, mk_user m' s') ∧
    mm_ok m' Leaf ∧ mmap m' = 0 ∧ released s s' (pages_of l).
Proof.
  induction l as [|a l IH]; intros [|fuel] m s t Hok Hf Hl Hr Hg Hi Hw Hc; try (simpl in Hf; lia).
  - exists m, s. simpl in Hl, Hr. subst t. rewrite Hl. split_and!; [done|done|done|by apply released_nil].
  - pose proof Hg as [Hga Hgl]%Forall_cons. change (pages_of (a :: l)) with (area_pages a ++ pages_of l) in *.
    pose proof (areas_apart t a l (mo_nodup _ _ Hok) (mo_ordered _ _ Hok) Hr Hg) as Hap.
    destruct (delete_vma_ok (S fuel) m s t a l) as (m1 & s1 & Hrun & Hok1 & Hl1 & R1);
      [done|simpl in Hf; lia|done|done|done|done|done|by eapply counted_app_l|].
    pose proof (height_tdelete (a_id a) t).
    destruct (IH fuel m1 s1 (tdelete (a_id a) t)) as (m2 & s2 & Hrun2 & Hok2 & Hh2 & R2);
      [done|simpl in Hf; lia|done|apply Hr|done|apply R1|apply R1|by eapply counted_after|].
    exists m2, s2. split_and!; [|done|done|by eapply released_trans].
    assert (Hx0 : mmap m ≠ 0).
    { destruct Hl as [-> _]. intros E. eapply (rep_nonzero (areas m)); [apply Hok|].
      apply list_elem_of_fmap. exists a. split; [by rewrite E|apply Hr]. }
    cbn [delete_all_loop]. rewrite bool_decide_eq_false_2 by done. rewrite (bind_Ok _ _ _ _ _ Hrun).
    erewrite bind_Ok by reflexivity. exact Hrun2.
Qed.

Lemma delete_all_vma_ok fuel m s t l :
  mm_ok m t → (length l + height t < fuel)%nat → links m (mmap m) l → releasable l t →
  Forall good_area l → mm_inv s → tree_wf s g o → counted s (pages_of l) →
  ∃ m' s', delete_all_vma fuel (slot g o) (mk_user m s) = Ok (tt, mk_user m' s') ∧
    mm_ok m' Leaf ∧ mmap m' = 0 ∧ released s s' (pages_of l).
Proof.
  intros Hok Hf Hl Hr Hg Hi Hw Hc. unfold delete_all_vma. erewrite bind_Ok by reflexivity.
  destruct (delete_all_loop_ok l fuel m s t) as (m' & s' & Hrun & Hok' & Hh & R); try done.
  case_bool_decide as E.
  - destruct l as [|a l].
    + exists m, s. simpl in Hr. subst t. split_and!; [done|done|done|by apply released_nil].
    + cbn [areas_of] in E. destruct Hl as [Ha _]. destruct (rep_nonzero (areas m) t _ _ (mo_rep _ _ Hok)).
      apply list_elem_of_fmap. exists a. split; [congruence|apply Hr].
  - exists (set_mmap 0 m'), s'. split_and!; [|by split; apply Hok'|done|done].
    rewrite (bind_Ok _ _ _ _ _ Hrun). done.
Qed.
End release.
