(* ===== verification/ExitProofs.v ===== *)
(** * Releasing an address space: the proof of [exit_mm] of kernel/syscall/exit.c

    After the areas (ExitAreas) [exit_mm] drops the page tables and the directory.
    The theorem says exactly which frames become free; [exit_gap_faults] shows an
    address space whose areas are in an order that cannot be taken down. *)

From S2P Require Import Prelude Layout Buddy BuddyProofs Paging PagingProofs Vma VmaProofs Fault FaultProofs Fork ForkProofs ExitAreas.

Local Open Scope Z_scope.

(** ** The tables *)

(** The frames [T] were given back and only the words of [W] were written. *)
Record torn (s s' : mstate) (T : list Z) (W : Z → Z → Prop) : Prop := {
  to_inv : mm_inv s';
  to_free : ∀ i, free_page (nz s') i ↔ free_page (nz s) i ∨ i ∈ T;
  to_meta : ∀ i, meta s' i = if decide (i ∈ T) then set_nref 0 <$> meta s i else meta s i;
  to_end : zend (nz s') = zend (nz s);
  to_ent : ∀ q k, 0 ≤ k → ¬ W q k → ent s' q k = ent s q k;
  to_mem : ∀ q, (∀ k, ¬ W q k) → mem s' !! q = mem s !! q }.

Lemma torn_nil s W : mm_inv s → torn s s [] W.
Proof.
  intros Hi. split; try done.
  - intros i. split; [by left|]. intros [?|?%elem_of_nil]; done.
Qed.

Lemma torn_weaken s s' T (W W' : Z → Z → Prop) :
  (∀ q k, W q k → W' q k) → torn s s' T W → torn s s' T W'.
Proof.
  intros Hw [H1 H2 H3 H4 H5 H6]. split; try done.
  - intros q k Hk Hn. apply H5; auto.
  - intros q Hn. apply H6. intros k ?. eapply Hn, Hw. done.
Qed.

Lemma torn_trans s s1 s2 T1 T2 W :
  torn s s1 T1 W → torn s1 s2 T2 W → torn s s2 (T1 ++ T2) W.
Proof.
  intros H1 H2. split; [apply H2| | | | |].
  - intros i. rewrite (to_free _ _ _ _ H2), (to_free _ _ _ _ H1), elem_of_app. tauto.
  - intros i. rewrite (to_meta _ _ _ _ H2), (to_meta _ _ _ _ H1).
    destruct (meta s i) as [pg|]; repeat case_decide; simpl; try done;
      exfalso; rewrite elem_of_app in *; tauto.
  - by rewrite (to_end _ _ _ _ H2), (to_end _ _ _ _ H1).
  - intros q k Hk Hn. by rewrite (to_ent _ _ _ _ H2), (to_ent _ _ _ _ H1).
  - intros q Hn. by rewrite (to_mem _ _ _ _ H2), (to_mem _ _ _ _ H1).
Qed.

Lemma torn_busy s s' T W q : torn s s' T W → busy s q → q ∉ T → busy s' q.
Proof.
  intros H [Hr Hf] Hq. split; [by rewrite (to_end _ _ _ _ H)|]. rewrite (to_free _ _ _ _ H). tauto.
Qed.

Lemma torn_sole s s' T W q : torn s s' T W → sole s q → q ∉ T → sole s' q.
Proof.
  intros H (pg & (Hb & Hpg & Hr & Hfl) & Hn) Hq. pose proof (to_meta _ _ _ _ H q) as Hm.
  rewrite decide_False, (meta_frame _ _ _ Hpg) in Hm by done.
  apply meta_Some in Hm as (pg' & Hpg' & En & Ef & _). simpl in En, Ef. exists pg'.
  split; [|lia]. split_and!; [by eapply torn_busy|done|lia|lia|congruence].
Qed.

Lemma drop_table_ok s f k e :
  mm_inv s → 0 ≤ f → 0 ≤ k < 512 → ent s f k = Some e → sole s (eframe e) →
  ∃ s', drop_table (slot f k) e s = Ok (tt, s') ∧ torn s s' [eframe e] (λ q j, q = f ∧ j = k).
Proof.
  intros Hi Hf Hk He (pg & Hr & Hn). pose proof Hr as (Hb & Hpg & _).
  destruct (frame_bounds s (eframe e) Hi (proj1 Hb)) as [Hc Hmax].
  destruct (page_decref_ok s (eframe e) pg Hi Hr) as (s1 & Hrun & D).
  assert (He1 : ent s1 f k = Some e) by (unfold ent; rewrite (dr_mem _ _ _ _ D); exact He).
  exists (put_ent f k 0 s1). split.
  - unfold drop_table. rewrite (bind_Ok _ _ _ _ _ (lift_Ok _ _ _ (entry_vaddr_ok e Hc))).
    erewrite bind_Ok by reflexivity.
    rewrite (bind_Ok _ _ _ _ _ (lift_Ok _ _ _ (frame_virt _ (eframe e) Hc Hmax))).
    rewrite (bind_Ok _ _ _ _ _ Hrun). rewrite (entry_set_ok s1 f k e 0 0); try done; try lia.
    by exists 0.
  - split.
    + apply mm_inv_put, D.
    + intros i. change (nz (put_ent f k 0 s1)) with (nz s1). rewrite (dr_free _ _ _ _ D), list_elem_of_singleton. tauto.
    + intros i. change (meta (put_ent f k 0 s1) i) with (meta s1 i). rewrite (dr_meta _ _ _ _ D).
      repeat case_decide; try done; rewrite list_elem_of_singleton in *; try done. subst i.
      rewrite (meta_frame _ _ _ Hpg), Hn. done.
    + apply D.
    + intros q j Hj Hw. rewrite ent_put_ne; [unfold ent; by rewrite (dr_mem _ _ _ _ D)|lia|done|].
      intros E. injection E as -> ->. by apply Hw.
    + intros q Hw. rewrite mem_put_ne; [by rewrite (dr_mem _ _ _ _ D)|].
      intros ->. by apply (Hw k).
Qed.

(** The entries of [f] from word [k] on can be dropped. *)
Record droppable (s : mstate) (f k : Z) : Prop := {
  dp_present : ∀ j e, k ≤ j < 512 → ent s f j = Some e → e ≠ 0 →
    pte_present e = true ∧ sole s (eframe e) ∧ eframe e ≠ f;
  dp_inj : ∀ i j e e', k ≤ i < 512 → k ≤ j < 512 → ent s f i = Some e → ent s f j = Some e' →
    e ≠ 0 → e' ≠ 0 → eframe e = eframe e' → i = j }.

(** The tables below the entries of [f] from word [k] on. *)
Definition below (s : mstate) (f k c : Z) : Prop :=
  ∃ j e, k ≤ j < 512 ∧ ent s f j = Some e ∧ child e = Some c.

Lemma child_nz e : e ≠ 0 → child e = Some (eframe e).
Proof. intros. unfold child. by rewrite decide_False. Qed.

Lemma skips_none e : (e ≠ 0 → pte_present e = true) → skips e = bool_decide (e = 0).
Proof.
  intros He. unfold skips, pgd_none. case_bool_decide as E.
  - subst e. done.
  - rewrite He by done. simpl. by apply Z.eqb_neq.
Qed.

Lemma below_step s f k e c :
  ent s f k = Some e → k < 512 →
  below s f k c ↔ child e = Some c ∨ below s f (k + 1) c.
Proof.
  intros He Hk. split.
  - intros (j & e' & Hj & He' & Hc). destruct (decide (j = k)) as [->|].
    + left. by simplify_eq.
    + right. exists j, e'. split; [lia|done].
  - intros [Hc|(j & e' & Hj & He' & Hc)]; [exists k, e|exists j, e']; (split; [lia|done]).
Qed.

Lemma drop_ptes_ok n : ∀ s f k,
  k + Z.of_nat n = 512 → 0 ≤ k → mm_inv s → 0 ≤ f < zend (nz s) → droppable s f k →
  ∃ s' T, drop_ptes n (slot f k) s = Ok (tt, s') ∧
    torn s s' T (λ q j, q = f ∧ k ≤ j < 512) ∧ ∀ c, c ∈ T ↔ below s f k c.
Proof.
  induction n as [|n IH]; intros s f k Hn Hk Hi Hf Hd.
  { exists s, []. split_and!; [done|by apply torn_nil|]. intros c. rewrite elem_of_nil.
    split; [done|]. intros (j & e & Hj & _). lia. }
  destruct (ent_total s f k Hi Hf) as [e He]; [lia|].
  assert (Hskip : skips e = bool_decide (e = 0)).
  { apply skips_none. intros Hz. by apply (dp_present _ _ _ Hd k e); [lia|..]. }
  assert (∃ s1 T1, (if skips e then mret tt else drop_table (slot f k) e) s = Ok (tt, s1) ∧
    torn s s1 T1 (λ q j, q = f ∧ k ≤ j < 512) ∧ (∀ j, k < j → ent s1 f j = ent s f j) ∧
    (∀ c, c ∈ T1 ↔ child e = Some c)) as (s1 & T1 & Hrun & Ht1 & Hent & HT1).
  { rewrite Hskip. case_bool_decide as Ez.
    - exists s, []. split_and!; [done|by apply torn_nil|done|]. intros c. subst e. rewrite elem_of_nil. done.
    - destruct (dp_present _ _ _ Hd k e) as (_ & Hs & _); [lia|done|done|].
      destruct (drop_table_ok s f k e Hi) as (s1 & Hr & Ht); [lia|lia|done|done|].
      exists s1, [eframe e]. split_and!; [done| | |].
      + eapply torn_weaken; [|exact Ht]. intros q j [-> ->]. split; [done|lia].
      + intros j Hj. apply (to_ent _ _ _ _ Ht); [lia|]. intros [_ ?]. lia.
      + intros c. rewrite list_elem_of_singleton, child_nz by done. split; congruence. }
  assert (Hd1 : droppable s1 f (k + 1)).
  { split.
    - intros j e' Hj He' Hz. rewrite Hent in He' by lia.
      destruct (dp_present _ _ _ Hd j e') as (? & ? & ?); [lia|done|done|]. split_and!; [done| |done].
      eapply torn_sole; [exact Ht1|done|]. intros Hc%HT1%child_Some. destruct Hc as [Hz' Hc].
      assert (k = j); [|lia]. apply (dp_inj _ _ _ Hd k j e e'); [lia|lia|done..].
    - intros i j e1 e2 ?? H1 H2. rewrite Hent in H1, H2 by lia. apply (dp_inj _ _ _ Hd); [lia|lia|done..]. }
  cbn [drop_ptes]. rewrite (bind_Ok _ _ _ _ _ (load64_ok s f k e ltac:(lia) He)), (bind_Ok _ _ _ _ _ Hrun).
  assert (Hslot : ∃ s2 T2, drop_ptes n (u32 (slot f k + 8)) s1 = Ok (tt, s2) ∧
    torn s1 s2 T2 (λ q j, q = f ∧ k + 1 ≤ j < 512) ∧ ∀ c, c ∈ T2 ↔ below s1 f (k + 1) c).
  { destruct n as [|n'].
    - exists s1, []. split_and!; [done|apply torn_nil, Ht1|]. intros c. rewrite elem_of_nil.
      split; [done|]. intros (j & e' & Hj & _). lia.
    - pose proof (slot_u32 f k 1) as Hsl. change (8 * 1) with 8 in Hsl.
      rewrite Hsl by (destruct (frame_bounds s f Hi Hf); lia).
      apply IH; [lia|lia|apply Ht1|by rewrite (to_end _ _ _ _ Ht1)|done]. }
  destruct Hslot as (s2 & T2 & Hrun2 & Ht2 & HT2). exists s2, (T1 ++ T2). split_and!; [done| |].
  - eapply torn_trans; [exact Ht1|]. eapply torn_weaken; [|exact Ht2]. intros q j [-> ?]. split; [done|lia].
  - intros c. rewrite elem_of_app, HT1, HT2, (below_step s f k e c He) by lia.
    assert (below s1 f (k + 1) c ↔ below s f (k + 1) c) as ->; [|done].
    unfold below. split; intros (j & e' & Hj & He' & Hc); exists j, e'; rewrite Hent in * by lia; done.
Qed.

(** *** The page directory *)

Definition role_idx (r : role) : Z := match r with RPmd i => i | RPte i _ => i end.

(** The tables below the entries of the directory [g] from word [i] on belong to it
    alone. *)
Record owned (s : mstate) (g i : Z) : Prop := {
  ow_inv : mm_inv s;
  ow_root : busy s g;
  ow_sole : ∀ r f, user_role r → i ≤ role_idx r → role_frame s g 0 r = Some f → sole s f ∧ f ≠ g;
  ow_inj : ∀ r r' f, user_role r → user_role r' → i ≤ role_idx r → i ≤ role_idx r' →
    role_frame s g 0 r = Some f → role_frame s g 0 r' = Some f → r = r';
  ow_present : ∀ r fk e, user_role r → i ≤ role_idx r → parent_slot s g 0 r = Some fk →
    ent s fk.1 fk.2 = Some e → e ≠ 0 → pte_present e = true }.

Lemma sole_busy s f : sole s f → busy s f.
Proof. intros (pg & (Hb & _) & _). done. Qed.

Lemma pmd_frame s g i e : ent s g i = Some e → role_frame s g 0 (RPmd i) = child e.
Proof. intros He. unfold role_frame. by rewrite Z.add_0_l, He. Qed.

Lemma pte_frame s g i m j e :
  role_frame s g 0 (RPmd i) = Some m → ent s m j = Some e → role_frame s g 0 (RPte i j) = child e.
Proof. intros Hm He. rewrite role_frame_pte, Hm. simpl. by rewrite He. Qed.

Lemma owned_droppable s g i m :
  owned s g i → 0 ≤ i < 3 → role_frame s g 0 (RPmd i) = Some m → droppable s m 0.
Proof.
  intros Ho Hi Hm.
  assert (Hu : ∀ j, 0 ≤ j < 512 → user_role (RPte i j)) by (intros j Hj; split; [exact Hi|exact Hj]).
  split.
  - intros j e Hj He Hz. pose proof (pte_frame s g i m j e Hm He) as Hf. rewrite (child_nz e Hz) in Hf.
    destruct (ow_sole _ _ _ Ho (RPte i j) (eframe e) (Hu j Hj)) as [Hs _]; [done|done|].
    split_and!; [|done|].
    + apply (ow_present _ _ _ Ho (RPte i j) (m, j) e (Hu j Hj)); [done| |done|done].
      cbn [parent_slot]. rewrite Hm. done.
    + intros E. rewrite E in Hf.
      assert (RPmd i = RPte i j) by (apply (ow_inj _ _ _ Ho _ _ m); done). done.
  - intros a b e e' Ha Hb He He' Hz Hz' E.
    pose proof (pte_frame s g i m a e Hm He) as H1. pose proof (pte_frame s g i m b e' Hm He') as H2.
    rewrite child_nz in H1, H2 by done. rewrite <- E in H2.
    assert (RPte i a = RPte i b) as [= ->]; [|done].
    apply (ow_inj _ _ _ Ho _ _ (eframe e)); try done; by apply Hu.
Qed.

(** The words [exit_mm] writes for the entry [i]. *)
Definition branch_words (s : mstate) (g i q k : Z) : Prop :=
  q = g ∧ k = i ∨ role_frame s g 0 (RPmd i) = Some q.

Definition branch (s : mstate) (g i c : Z) : Prop :=
  ∃ r, user_role r ∧ role_idx r = i ∧ role_frame s g 0 r = Some c.

(** The body of the loop over the directory. *)
Definition drop_pmd (pgd : Z) : M mstate unit :=
  e ← load64 pgd;
  (if skips e then mret tt
   else
     tmp ← lift (entry_page_vaddr e);
     drop_ptes 512 tmp ;;
     e ← load64 pgd;
     drop_table pgd e).

Lemma branch_iff s g i m c :
  0 ≤ i < 3 → role_frame s g 0 (RPmd i) = Some m → branch s g i c ↔ c = m ∨ below s m 0 c.
Proof.
  intros Hi Hm. split.
  - intros ([i'|i' j] & Hu & <- & Hc); cbn [role_idx] in *.
    + left. congruence.
    + right. rewrite role_frame_pte, Hm in Hc. simpl in Hc. destruct (ent s m j) as [e|] eqn:He; [|done].
      exists j, e. destruct Hu as [_ ?]. done.
  - intros [->|(j & e & Hj & He & Hc)]; [exists (RPmd i)|exists (RPte i j)].
    + done.
    + split_and!; [by split|done|]. by rewrite (pte_frame s g i m j e Hm He).
Qed.

Lemma drop_pmd_ok s g i :
  owned s g i → 0 ≤ i < 3 →
  ∃ s' T, drop_pmd (slot g i) s = Ok (tt, s') ∧ torn s s' T (branch_words s g i) ∧
    ∀ c, c ∈ T ↔ branch s g i c.
Proof.
  intros Ho Hi. pose proof (ow_inv _ _ _ Ho) as Hinv. pose proof (ow_root _ _ _ Ho) as Hg.
  destruct (ent_total s g i Hinv (proj1 Hg)) as [e He]; [lia|]. unfold drop_pmd.
  rewrite (bind_Ok _ _ _ _ _ (load64_ok s g i e ltac:(lia) He)).
  rewrite (skips_none e).
  2: { apply (ow_present _ _ _ Ho (RPmd i) (g, i) e); done. }
  pose proof (pmd_frame s g i e He) as Hm. case_bool_decide as Ez.
  - exists s, []. split_and!; [done|by apply torn_nil|]. intros c. rewrite elem_of_nil. split; [done|].
    subst e. intros ([i'|i' j] & Hu & <- & Hc); cbn [role_idx] in *; [by rewrite Hm in Hc|].
    by rewrite role_frame_pte, Hm in Hc.
  - rewrite (child_nz e Ez) in Hm. set (m := eframe e) in *.
    destruct (ow_sole _ _ _ Ho (RPmd i) m) as [Hs Hmg]; [done|done|done|].
    pose proof (proj1 (sole_busy _ _ Hs)) as Hmz. destruct (frame_bounds s m Hinv Hmz) as [Hmb _].
    rewrite (bind_Ok _ _ _ _ _ (lift_Ok _ _ _ (entry_vaddr_ok e Hmb))).
    destruct (drop_ptes_ok 512 s m 0) as (s1 & T1 & Hrun & Ht1 & HT1);
      [done|done|done|done|by eapply owned_droppable|].
    replace (eframe e * PAGE_SIZE + KERNEL_BASE_ADDR) with (slot m 0) by (unfold slot; lia).
    rewrite (bind_Ok _ _ _ _ _ Hrun).
    assert (He1 : ent s1 g i = Some e).
    { rewrite (to_ent _ _ _ _ Ht1); [done|lia|]. intros [? _]. by apply Hmg. }
    rewrite (bind_Ok _ _ _ _ _ (load64_ok s1 g i e ltac:(lia) He1)).
    assert (HmT : m ∉ T1).
    { intros (j & e' & Hj & He' & Hc)%HT1. apply child_Some in Hc as [Hz Hc].
      by destruct (dp_present _ _ _ (owned_droppable s g i m Ho Hi Hm) j e' Hj He' Hz) as (_ & _ & ?). }
    destruct (drop_table_ok s1 g i e) as (s2 & Hrun2 & Ht2);
      [apply Ht1|apply Hg|lia|done|by eapply torn_sole|].
    exists s2, (T1 ++ [m]). split_and!; [done| |].
    + eapply torn_trans; (eapply torn_weaken; [|first [exact Ht1|exact Ht2]]); unfold branch_words.
      * intros q k [-> _]. by right.
      * intros q k [-> ->]. by left.
    + intros c. rewrite elem_of_app, list_elem_of_singleton, HT1, (branch_iff s g i m c Hi Hm). tauto.
Qed.

Section next_branch.
Context (s s' : mstate) (g i : Z) (T : list Z).
Context (Ho : owned s g i) (Hi : 0 ≤ i < 3).
Context (Ht : torn s s' T (branch_words s g i)) (HT : ∀ c, c ∈ T ↔ branch s g i c).

Lemma next_not_torn r f :
  user_role r → i < role_idx r → role_frame s g 0 r = Some f → f ∉ T.
Proof.
  intros Hu Hr Hf (r' & Hu' & Hr' & Hf')%HT.
  assert (r = r') as -> by (apply (ow_inj _ _ _ Ho r r' f); try done; lia). lia.
Qed.

Lemma next_word j : i < j → ent s' g j = ent s g j.
Proof.
  intros Hj. apply (to_ent _ _ _ _ Ht); [lia|]. intros [[_ ?]|Hm]; [lia|].
  destruct (ow_sole _ _ _ Ho (RPmd i) g) as [_ ?]; done.
Qed.

Lemma next_pmd j m k :
  i < j < 3 → role_frame s g 0 (RPmd j) = Some m → 0 ≤ k → ent s' m k = ent s m k.
Proof.
  intros Hj Hm Hk. destruct (ow_sole _ _ _ Ho (RPmd j) m) as [_ Hne]; [simpl; lia|simpl; lia|done|].
  apply (to_ent _ _ _ _ Ht); [done|]. intros [[? _]|Hm']; [done|].
  assert (RPmd j = RPmd i) as [= ?]; [|lia]. apply (ow_inj _ _ _ Ho _ _ m); simpl; try done; lia.
Qed.

Lemma next_role r : user_role r → i < role_idx r → role_frame s' g 0 r = role_frame s g 0 r.
Proof.
  assert (Hpmd : ∀ j, i < j → role_frame s' g 0 (RPmd j) = role_frame s g 0 (RPmd j)).
  { intros j Hj. unfold role_frame. by rewrite Z.add_0_l, next_word. }
  destruct r as [j|j k]; intros Hu Hr; [by apply Hpmd|]. simpl in Hr. rewrite !role_frame_pte, Hpmd by done.
  destruct (role_frame s g 0 (RPmd j)) as [m|] eqn:Hm; [|done]. simpl. rewrite (next_pmd j m k); [done|..]; destruct Hu; lia || done.
Qed.

Lemma next_owned : owned s' g (i + 1).
Proof.
  split; [apply Ht| | | |].
  - eapply torn_busy; [exact Ht|apply Ho|]. intros (r & Hu & Hr & Hf)%HT.
    destruct (ow_sole _ _ _ Ho r g) as [_ ?]; [done|lia|done|done].
  - intros r f Hu Hr Hf. rewrite next_role in Hf by (done || lia).
    destruct (ow_sole _ _ _ Ho r f) as [? ?]; [done|lia|done|]. split; [|done].
    eapply torn_sole; [exact Ht|done|]. eapply next_not_torn; [exact Hu|lia|done].
  - intros r r' f Hu Hu' Hr Hr'. rewrite !next_role by (done || lia). apply (ow_inj _ _ _ Ho); try done; lia.
  - intros r [f k] e Hu Hr Hp He. apply (ow_present _ _ _ Ho r (f, k) e Hu); [lia| |].
    + destruct r as [j|j k']; [done|]. simpl in Hr. cbn [parent_slot] in *. destruct Hu as [? ?].
      by rewrite next_role in Hp by (simpl; lia).
    + destruct r as [j|j k']; cbn [parent_slot] in Hp; cbn [role_idx] in Hr.
      * injection Hp as <- <-. cbn [fst snd] in *. by rewrite next_word in He by lia.
      * destruct Hu as [? ?]. rewrite next_role in Hp by (simpl; lia).
        destruct (role_frame s g 0 (RPmd j)) as [m|] eqn:Hm; [|done]. injection Hp as <- <-.
        cbn [fst snd] in *. by rewrite (next_pmd j m k') in He by (done || lia).
Qed.
End next_branch.

Lemma drop_pmds_step n pgd s :
  drop_pmds (S n) pgd s = (drop_pmd pgd ;; drop_pmds n (u32 (pgd + 8))) s.
Proof. unfold drop_pmd. cbn [drop_pmds]. by rewrite bind_assoc. Qed.

(** The tables below the entries from [i] on. *)
Definition branches (s : mstate) (g i c : Z) : Prop := ∃ r, user_role r ∧ i ≤ role_idx r ∧ role_frame s g 0 r = Some c.

Lemma branches_step s g i c : branches s g i c ↔ branch s g i c ∨ branches s g (i + 1) c.
Proof.
  split.
  - intros (r & Hu & Hr & Hc). destruct (decide (role_idx r = i)); [left|right]; exists r; (split; [done|]); split; done || lia.
  - intros [(r & Hu & Hr & Hc)|(r & Hu & Hr & Hc)]; exists r; (split; [done|]); split; done || lia.
Qed.

Lemma drop_pmds_ok n : ∀ s g i,
  i + Z.of_nat n = 3 → 0 ≤ i → owned s g i →
  ∃ s' T, drop_pmds n (slot g i) s = Ok (tt, s') ∧
    torn s s' T (λ q _, q = g ∨ ∃ j, user_role (RPmd j) ∧ i ≤ j ∧ role_frame s g 0 (RPmd j) = Some q) ∧
    ∀ c, c ∈ T ↔ branches s g i c.
Proof.
  induction n as [|n IH]; intros s g i Hn Hi Ho.
  { exists s, []. split_and!; [done|apply torn_nil, Ho|]. intros c. rewrite elem_of_nil. split; [done|].
    intros ([j|j k] & Hu & Hr & _); simpl in *; lia. }
  rewrite drop_pmds_step. destruct (drop_pmd_ok s g i Ho) as (s1 & T1 & Hrun & Ht1 & HT1); [lia|].
  rewrite (bind_Ok _ _ _ _ _ Hrun).
  pose proof (next_owned s s1 g i T1 Ho ltac:(lia) Ht1 HT1) as Ho1.
  pose proof (next_role s s1 g i T1 Ho ltac:(lia) Ht1) as Hroles.
  pose proof (slot_u32 g i 1) as Hsl. change (8 * 1) with 8 in Hsl.
  destruct (frame_bounds s g (ow_inv _ _ _ Ho) (proj1 (ow_root _ _ _ Ho))) as [Hgb _].
  rewrite Hsl by lia. destruct (IH s1 g (i + 1)) as (s2 & T2 & Hrun2 & Ht2 & HT2); [lia|lia|done|].
  exists s2, (T1 ++ T2). split_and!; [done| |].
  - eapply torn_trans; (eapply torn_weaken; [|first [exact Ht1|exact Ht2]]).
    + intros q k [[-> _]|Hm]; [by left|right]. exists i. split_and!; [simpl; lia|lia|done].
    + intros q k [->|(j & Hu & Hj & Hm)]; [by left|right]. exists j. rewrite Hroles in Hm by (done || simpl; lia).
      split_and!; [done|lia|done].
  - intros c. rewrite elem_of_app, HT1, HT2, (branches_step s g i c).
    assert (branches s1 g (i + 1) c ↔ branches s g (i + 1) c) as ->; [|done].
    split; intros (r & Hu & Hr & Hc); exists r; (split_and!; [done|done|]);
      rewrite Hroles in * by (done || lia); done.
Qed.

(** ** The whole of exit_mm *)

(** An address space with the page directory [g], the areas [l] in the order of the
    list and in the tree [t]: the tables belong to it alone, the areas can be taken
    down in the order of the list, and every mapped frame counts its mappings. *)
Record exit_ready (s : mstate) (g : Z) (mm : user_mm) (t : tree) (l : list area) : Prop := {
  er_inv : mm_inv s;
  er_tree : tree_wf s g 0;
  er_pgd : mm_pgd mm = slot g 0;
  er_root : ∃ pg, mempage s !! g = Some pg ∧ nref pg = 0 ∧ has_flag (flags pg) _pg_reserved = false;
  er_tables : ∀ r f, user_role r → role_frame s g 0 r = Some f → sole s f;
  er_present : ∀ r fk e, user_role r → parent_slot s g 0 r = Some fk →
    ent s fk.1 fk.2 = Some e → e ≠ 0 → pte_present e = true;
  er_areas : mm_ok (mm_areas mm) t;
  er_links : links (mm_areas mm) (mmap (mm_areas mm)) l;
  er_order : releasable l t;
  er_good : Forall good_area l;
  er_counted : counted g 0 s (pages_of l) }.

(** The tables and the directory are free, every mapping in an area gave its
    reference back, and nothing else changed. *)
Record exited (s s' : mstate) (g : Z) (l : list area) : Prop := {
  xt_inv : mm_inv s';
  xt_free : ∀ q, free_page (nz s') q ↔ free_page (nz s) q ∨ table s g 0 q ∨
    0 < uses s g 0 q (pages_of l) ∧ nref <$> mempage s !! q = Some (uses s g 0 q (pages_of l));
  xt_nref : ∀ q, no_table s g 0 q → meta s' q = add_refs (- uses s g 0 q (pages_of l)) <$> meta s q;
  xt_data : ∀ q, no_table s g 0 q → mem s' !! q = mem s !! q;
  xt_end : zend (nz s') = zend (nz s) }.

Section exit.
Context (s s1 : mstate) (g : Z) (mm : user_mm) (t : tree) (l : list area).
Context (Hr : exit_ready s g mm t l) (R : released g 0 s s1 (pages_of l)).

Lemma table_unused q : table s g 0 q → uses s g 0 q (pages_of l) = 0.
Proof.
  intros Ht. pose proof (uses_bound s g 0 q (pages_of l)).
  destruct (decide (0 < uses s g 0 q (pages_of l))) as [Hp|]; [|lia].
  apply uses_found in Hp as (va & Hva & Ho). unfold old_frame in Ho.
  destruct (mapped s g 0 va) as [e|] eqn:He; [|done]. injection Ho as <-.
  destruct (er_counted _ _ _ _ _ Hr va e Hva He) as [Hn _]. by apply no_table_iff in Hn.
Qed.

Lemma table_kept q : table s g 0 q → busy s1 q ∧ meta s1 q = meta s q.
Proof.
  intros Ht. pose proof (table_busy _ _ _ _ (er_tree _ _ _ _ _ Hr) Ht) as [Hz Hf].
  split; [split|].
  - by rewrite (rl_end _ _ _ _ _ R).
  - rewrite (rl_free _ _ _ _ _ R), table_unused by done. intros [?|[? _]]; [done|lia].
  - rewrite (rl_meta _ _ _ _ _ R), table_unused by done.
    destruct (meta s q); [|done]. simpl. by rewrite add_refs_0.
Qed.

Lemma upper_word r fk :
  user_role r → parent_slot s g 0 r = Some fk → ent s1 fk.1 fk.2 = ent s fk.1 fk.2.
Proof.
  intros Hu Hp. destruct fk as [f k]. unfold ent. cbn [fst snd].
  rewrite (rl_data _ _ _ _ _ R); [done|].
  destruct (parent_not_leaf s g 0 r f k (er_tree _ _ _ _ _ Hr) Hu Hp) as (_ & _ & Hn). exact Hn.
Qed.

Lemma parent_kept r : user_role r → parent_slot s1 g 0 r = parent_slot s g 0 r.
Proof.
  destruct r as [i|i j]; [done|]. intros [Hi _]. cbn [parent_slot]. by rewrite (rl_roles _ _ _ _ _ R).
Qed.

Lemma released_owned : owned s1 g 0.
Proof.
  pose proof (rl_tree _ _ _ _ _ R) as Hw. split; [apply R|apply Hw| | |].
  - intros r f Hu _ Hf. split; [|by eapply (tw_busy s1 g 0 Hw)].
    rewrite (rl_roles _ _ _ _ _ R) in Hf by done.
    assert (Ht : table s g 0 f) by (right; eauto). destruct (table_kept f Ht) as [Hb Hm].
    destruct (er_tables _ _ _ _ _ Hr r f Hu Hf) as (pg & (_ & Hpg & Hn & Hfl) & H1).
    rewrite (meta_frame _ _ _ Hpg) in Hm. apply meta_Some in Hm as (pg' & Hpg' & En & Ef & _).
    simpl in En, Ef. exists pg'. split; [|lia]. split_and!; [done|done|lia|lia|congruence].
  - intros r r' f Hu Hu' _ _. by apply (tw_inj s1 g 0 Hw).
  - intros r fk e Hu _ Hp He. rewrite parent_kept in Hp by done. rewrite (upper_word r fk Hu Hp) in He.
    by apply (er_present _ _ _ _ _ Hr r fk e).
Qed.

(** The tables are dropped and the directory is freed. *)
Lemma exit_tables_ok :
  ∃ s', (drop_pmds 3 (slot g 0) ;;
         s ← get; p ← lift (virt2page (m_max_pfn s) (slot g 0)); page_free p) s1 = Ok (tt, s') ∧
    exited s s' g l.
Proof.
  pose proof released_owned as Ho.
  destruct (drop_pmds_ok 3 s1 g 0) as (s2 & T & Hrun & Ht & HT); [done|done|done|].
  assert (HT' : ∀ c, c ∈ T ↔ ∃ r, user_role r ∧ role_frame s g 0 r = Some c).
  { intros c. rewrite HT. split; intros (r & Hu & Hc).
    - destruct Hc as [_ Hc]. rewrite (rl_roles _ _ _ _ _ R) in Hc by done. eauto.
    - exists r. rewrite (rl_roles _ _ _ _ _ R) by done. split_and!; [done| |done].
      clear -Hu. destruct r; simpl in *; lia. }
  assert (HgT : g ∉ T).
  { intros (r & Hu & Hc)%HT'. by destruct (tw_busy s g 0 (er_tree _ _ _ _ _ Hr) r g Hu Hc). }
  pose proof (torn_busy _ _ _ _ g Ht (ow_root _ _ _ Ho) HgT) as Hb2.
  destruct (er_root _ _ _ _ _ Hr) as (pg & Hpg & Hn & Hfl).
  assert (Hm : meta s2 g = meta s g).
  { rewrite (to_meta _ _ _ _ Ht), decide_False by done. apply table_kept. by left. }
  rewrite (meta_frame _ _ _ Hpg) in Hm. apply meta_Some in Hm as (pg2 & Hpg2 & En & Ef & _). simpl in En, Ef.
  destruct (page_free_ok s2 g pg2) as (s3 & Hfree & Hi3 & Hmem3 & _ & Hoo & Hfr3);
    [apply Ht|done|done|lia|by rewrite Ef|].
  exists s3. split.
  { rewrite (bind_Ok _ _ _ _ _ Hrun). erewrite bind_Ok by reflexivity.
    destruct (frame_bounds s2 g (to_inv _ _ _ _ Ht) (proj1 Hb2)) as [Hgb Hgm].
    unfold slot. rewrite Z.mul_0_r, Z.add_0_r.
    rewrite (bind_Ok _ _ _ _ _ (lift_Ok _ _ _ (frame_virt _ g Hgb Hgm))). exact Hfree. }
  split.
  - done.
  - intros q. rewrite Hfr3, (to_free _ _ _ _ Ht), (rl_free _ _ _ _ _ R), HT'. unfold table. tauto.
  - intros q [Hqg Hqr]. etrans; [apply (oo_pages _ _ Hoo q)|].
    change (meta s2 q = add_refs (- uses s g 0 q (pages_of l)) <$> meta s q).
    rewrite (to_meta _ _ _ _ Ht), decide_False; [apply R|]. intros (r & Hu & Hc)%HT'. by apply (Hqr r).
  - intros q Hq. rewrite Hmem3, (to_mem _ _ _ _ Ht); [apply (rl_data _ _ _ _ _ R); by apply no_table_leaf|].
    intros _ [->|(j & Hu & _ & Hc)]; [by apply Hq|]. rewrite (rl_roles _ _ _ _ _ R) in Hc by done.
    by apply (proj2 Hq _ Hu).
  - destruct (only_orders_shape _ _ Hoo) as (_ & -> & _). by rewrite (to_end _ _ _ _ Ht), (rl_end _ _ _ _ _ R).
Qed.
End exit.

Definition with_mm_count (n : Z) (mm : user_mm) : user_mm :=
  mk_user_mm (mm_areas mm) (mm_pgd mm) (start_code mm) (end_code mm) (start_data mm) (end_data mm)
    (start_stack mm) n.

(** While other tasks use the address space only the count changes. *)
Lemma exit_mm_shared fuel mm s :
  mm_pgd mm ≠ 0 → 1 < mm_count mm < 2 ^ 31 →
  exit_mm fuel mm s = Ok ((with_mm_count (mm_count mm - 1) mm, false), s).
Proof.
  intros Hp Hc. unfold exit_mm. rewrite bool_decide_eq_false_2 by done. cbn [mm_count].
  rewrite i32_small by lia. by rewrite bool_decide_eq_true_2 by lia.
Qed.

Lemma exit_mm_ok fuel mm s g t l :
  exit_ready s g mm t l → mm_count mm = 1 → (length l + height t < fuel)%nat →
  ∃ mm' s', exit_mm fuel mm s = Ok ((mm', true), s') ∧ mmap (mm_areas mm') = 0 ∧ exited s s' g l.
Proof.
  intros Hr Hc Hf.
  destruct (delete_all_vma_ok g 0 fuel (mm_areas mm) s t l) as (m' & s1 & Hdel & _ & Hh & R); try apply Hr; [done|].
  destruct (exit_tables_ok s s1 g mm t l Hr R) as (s' & Hrun & X).
  unfold exit_mm. rewrite (er_pgd _ _ _ _ _ Hr).
  assert (Hg0 : slot g 0 ≠ 0).
  { apply slot_pos; [|done]. pose proof (tw_root _ _ _ (er_tree _ _ _ _ _ Hr)) as [[? _] _]. done. }
  rewrite bool_decide_eq_false_2 by done. cbn [mm_count mm_areas mm_pgd]. rewrite Hc.
  rewrite bool_decide_eq_false_2 by (by intros ?). erewrite bind_Ok by reflexivity.
  rewrite (bind_Ok _ _ _ _ _ (lift_Ok _ _ _ Hdel)). cbn [snd tables areas_of].
  erewrite bind_Ok by reflexivity. change (Z.to_nat (pgd_index KERNEL_BASE_ADDR)) with 3%nat.
  apply bind_Ok_inv in Hrun as ([] & s2 & H1 & H2).
  rewrite (bind_Ok _ _ _ _ _ H1). apply bind_Ok_inv in H2 as (s2' & s2'' & [= <- <-] & H2).
  erewrite bind_Ok by reflexivity. apply bind_Ok_inv in H2 as (p & s3 & H3 & H4).
  rewrite (bind_Ok _ _ _ _ _ H3), (bind_Ok _ _ _ _ _ H4).
  eexists _, s'. split; [reflexivity|]. done.
Qed.

(** Another address space keeps its tables and its mappings. *)
Lemma exited_other s s' g l g' o' :
  exited s s' g l → two_trees s g 0 g' o' →
  (∀ f, table s g' o' f → uses s g 0 f (pages_of l) = 0) →
  tree_wf s' g' o' ∧ ∀ va, user_va va → mapped s' g' o' va = mapped s g' o' va.
Proof.
  intros X Ht Hu. pose proof (tt_dest _ _ _ _ _ Ht) as Hw.
  assert (Hn : ∀ f, table s g' o' f → no_table s g 0 f).
  { intros f Hf. apply no_table_iff. intros Hf'. by eapply tables_differ. }
  assert (Hmem : ∀ f, table s g' o' f → mem s' !! f = mem s !! f) by (intros f Hf; apply X; auto).
  split; [|intros va Hv; by apply frame_mapped].
  apply (frame_tree s); [done|done|]. intros f Hf. pose proof (table_busy _ _ _ _ Hw Hf) as [Hz Hfr].
  split; [by rewrite (xt_end _ _ _ _ X)|]. rewrite (xt_free _ _ _ _ X), Hu by done.
  intros [?|[?|[? _]]]; [done| |lia]. by eapply tables_differ.
Qed.

(** ** Taking down a copy that was not finished *)

(** The areas are in an order in which they can be taken down. *)
Record tearable (m : mm_struct) (t : tree) (l : list area) : Prop := {
  ta_links : links m (mmap m) l;
  ta_order : releasable l t;
  ta_good : Forall good_area l }.

Lemma pages_from_aligned n : ∀ start va, page_aligned start → va ∈ pages_from n start → page_aligned va.
Proof.
  intros start va Ha (k & -> & _)%pages_from_in. apply Z.divide_add_r; [done|by exists k].
Qed.

Lemma aligned_same va va' : page_aligned va → page_aligned va' → same_page va va' → va = va'.
Proof. intros [x ->] [y ->]. unfold same_page. rewrite !Z.div_mul by done. congruence. Qed.

Lemma pages_from_NoDup n : ∀ start, NoDup (pages_from n start).
Proof.
  induction n as [|n IH]; intros start; [constructor|]. apply NoDup_cons. split; [|apply IH].
  intros (k & E & ?)%pages_from_in. assert (PAGE_SIZE = 4096) by done. lia.
Qed.

Lemma pages_of_NoDup l : ∀ t, NoDup (ids t) → ordered (inorder t) → releasable l t → Forall good_area l → NoDup (pages_of l).
Proof.
  induction l as [|a l IH]; intros t Hnd Ho Hr Hg; [constructor|].
  pose proof (areas_apart t a l Hnd Ho Hr Hg) as Hap. destruct Hr as (_ & Hs & _ & Hr). apply Forall_cons in Hg as [Hga Hg].
  change (pages_of (a :: l)) with (area_pages a ++ pages_of l). apply NoDup_app. split; [apply pages_from_NoDup|]. split.
  - intros va Hva Hl. unfold pages_apart in Hap. rewrite Forall_forall in Hap. apply (Hap va Hl). apply Exists_exists. by exists va.
  - apply (IH (tdelete (a_id a) t)); [| |done|done].
    + unfold ids. rewrite tdelete_inorder by done. eapply sublist_NoDup; [exact Hnd|]. apply fmap_sublist, sublist_filter.
    + rewrite tdelete_inorder by done. by apply ordered_filter.
Qed.

Lemma all_pages_in va l : va ∈ all_pages l → ∃ v, v ∈ l ∧ va ∈ vma_pages v.
Proof.
  unfold all_pages. induction l as [|b l IH]; [by intros ?%elem_of_nil|]. rewrite fmap_cons. cbn [concat].
  intros [?|(v & ? & ?)%IH]%elem_of_app; [exists b|exists v]; (split; [set_solver|done]).
Qed.

Section half.
Context (g o p : Z) (s m : mstate) (cur : user_mm) (l : list vm_area_struct) (A : mm_struct) (t : tree) (la : list area).
Context (Hf : fork_ready s g o cur l) (Hh : half_made g o p s m l A t).
Context (Hplain : ∀ va e pg, user_va va → mapped s g o va = Some e → mempage s !! eframe e = Some pg →
  has_flag (flags pg) _pg_reserved = false).

(** The child has what the parent has, read-only. *)
Lemma half_entry va e :
  user_va va → mapped m p 0 va = Some e →
  ∃ e0, mapped s g o va = Some e0 ∧ eframe e = eframe e0 ∧ no_table m g o (eframe e) ∧ no_table m p 0 (eframe e).
Proof.
  destruct Hh as (_ & s1 & vs & Hd & Hs & _). intros Hv He. rewrite (sh_dest _ _ _ _ _ _ _ Hs) in He by done.
  case_decide as Hc.
  - rewrite (nd_mapped _ _ _ _ _ Hd) in He by done. destruct (mapped s g o va) as [e0|] eqn:He0; [|done]. injection He as <-.
    exists e0. rewrite cow_frame. split; [done|]. split; [done|].
    destruct (fr_pages _ _ _ _ _ Hf va e0 Hv He0) as (Hb & Hn & _). destruct (nd_busy _ _ _ _ _ Hd _ Hb) as [Hb1 _].
    destruct (sh_tables _ _ _ _ _ _ _ Hs _ Hb1) as [T1 T2].
    split; [by apply T1, (nd_tables _ _ _ _ _ Hd)|by apply T2, (child_no_table g o p s s1 Hd)].
  - unfold mapped, entry_at in He. rewrite (nd_empty _ _ _ _ _ Hd) in He by (by apply leaf_user). done.
Qed.

(** Each mapping of the child was counted. *)
Lemma half_uses q :
  NoDup (pages_of la) → Forall good_area la → ∃ s1 vs, new_directory g o s s1 p ∧ shared g o p 0 s1 m vs ∧
    uses m p 0 q (pages_of la) ≤ uses s1 g o q vs ≤ Z.of_nat (length (all_pages l)).
Proof.
  intros Hnd Hg. destruct Hh as (_ & s1 & vs & Hd & Hs & Hpre). exists s1, vs. split; [done|]. split; [done|]. split.
  2: { pose proof (uses_bound s1 g o q vs). apply prefix_length in Hpre. lia. }
  unfold uses. apply Nat2Z.inj_le, submseteq_length, NoDup_submseteq; [by apply NoDup_filter|].
  intros va [Ho (a & Ha & Hva)%pages_of_in]%list_elem_of_filter. rewrite Forall_forall in Hg. pose proof (Hg a Ha) as Hga.
  pose proof (area_page_in a va Hga Hva) as Hr. assert (Hal : page_aligned va) by (eapply (pages_from_aligned _ (a_lo a)); [apply Hga|exact Hva]).
  assert (Hv : user_va va) by (destruct Hga as (_ & _ & ? & _ & ?); assert (PAGE_SIZE = 4096) by done; unfold user_va; lia).
  unfold old_frame in Ho. rewrite (sh_dest _ _ _ _ _ _ _ Hs) in Ho by done. case_decide as Hc.
  - destruct Hc as [Hin [e He]]. rewrite He in Ho. simpl in Ho. rewrite cow_frame in Ho. apply list_elem_of_filter.
    split; [unfold old_frame; by rewrite He|]. apply Exists_exists in Hin as (x & Hx & Hsame).
    assert (va = x) as ->; [|done]. apply aligned_same; [done| |done]. destruct Hpre as [ws Hws].
    assert (Hxl : x ∈ all_pages l) by (rewrite Hws; apply elem_of_app; by left).
    apply all_pages_in in Hxl as (v & Hvl & Hxv).
    pose proof (fr_good _ _ _ _ _ Hf) as Hgv. rewrite Forall_forall in Hgv. eapply (pages_from_aligned _ (vm_start v)); [apply (Hgv v Hvl)|exact Hxv].
  - unfold mapped, entry_at in Ho. rewrite (nd_empty _ _ _ _ _ Hd) in Ho by (by apply leaf_user). done.
Qed.

Lemma half_exit_ready mm :
  mm_pgd mm = slot p 0 → mm_areas mm = A → tearable A t la → exit_ready m p mm t la.
Proof.
  intros Hpgd EA [Hl Hr Hg]. pose proof Hh as (Hok & s1' & vs' & Hd' & Hs' & Hpre').
  pose proof (pages_of_NoDup la t (mo_nodup _ _ Hok) (mo_ordered _ _ Hok) Hr Hg) as Hnd.
  assert (Hneat : neat m p 0).
  { apply (sh_neat _ _ _ _ _ _ _ Hs'). split.
    - intros r f Hu. by rewrite (nd_empty _ _ _ _ _ Hd').
    - intros r fk e Hu Hp He Hz. exfalso. destruct r as [i|i j].
      + injection Hp as <-. pose proof (nd_empty _ _ _ _ _ Hd' (RPmd i) Hu) as Hn. simpl in He, Hn. rewrite He in Hn. simpl in Hn.
        by apply Hz, child_None.
      + cbn [parent_slot] in Hp. by rewrite (nd_empty _ _ _ _ _ Hd' (RPmd i)) in Hp by (simpl in *; lia). }
  split; [apply Hs'|apply Hs'|done| |apply Hneat|apply Hneat|by rewrite EA|by rewrite EA|done|done|].
  - destruct (zi_ready (nz s) 0 (mi_zone s (fr_inv _ _ _ _ _ Hf)) p (nd_free _ _ _ _ _ Hd')) as (pg & Hpg & Hn & Hfl).
    assert (Hbp : busy s1' p) by apply (tw_root _ _ _ (tt_dest _ _ _ _ _ (nd_trees _ _ _ _ _ Hd'))).
    pose proof (sh_meta _ _ _ _ _ _ _ Hs' p Hbp) as Hm. rewrite (nd_meta _ _ _ _ _ Hd') in Hm.
    assert (E0 : uses s1' g o p vs' = 0).
    { pose proof (uses_bound s1' g o p vs') as Hub. destruct (decide (0 < uses s1' g o p vs')) as [Hpos|]; [|lia]. exfalso.
      apply uses_found in Hpos as (va & Hva & Ho). destruct Hpre' as [ws Hws].
      pose proof (areas_pages_user l (fr_good _ _ _ _ _ Hf)) as Hu. change (concat (vma_pages <$> l)) with (all_pages l) in Hu.
      rewrite Hws, Forall_app, Forall_forall in Hu. destruct Hu as [Hu _]. pose proof (Hu va Hva) as Hv.
      unfold old_frame in Ho. rewrite (nd_mapped _ _ _ _ _ Hd') in Ho by done. destruct (mapped s g o va) as [e|] eqn:He; [|done].
      injection Ho as <-. destruct (fr_pages _ _ _ _ _ Hf va e Hv He) as (Hb & _). by apply (nd_busy _ _ _ _ _ Hd') in Hb as [_ ?]. }
    rewrite E0 in Hm. unfold meta in Hm at 2. change (mempage s !! p) with (pages (nz s) !! p) in Hm. rewrite Hpg in Hm.
    simpl in Hm. apply meta_Some in Hm as (pg' & Hpg' & En & Ef & _). simpl in En, Ef.
    exists pg'. split; [done|]. split; [lia|congruence].
  - intros va e Hva He. assert (Hv : user_va va).
    { apply pages_of_in in Hva as (a & Ha & Hva). rewrite Forall_forall in Hg. pose proof (area_page_in a va (Hg a Ha) Hva).
      destruct (Hg a Ha) as (_ & _ & ? & _ & ?). assert (PAGE_SIZE = 4096) by done. unfold user_va. lia. }
    destruct (half_entry va e Hv He) as (e0 & He0 & Ee & _ & Hn). split; [done|]. rewrite Ee.
    destruct (fr_pages _ _ _ _ _ Hf va e0 Hv He0) as (Hb & _ & pg & Hpg & Hrg).
    destruct (half_uses (eframe e0) Hnd Hg) as (s1 & vs & Hd & Hs & Hu).
    destruct (nd_busy _ _ _ _ _ Hd _ Hb) as [Hb1 _].
    pose proof (sh_meta _ _ _ _ _ _ _ Hs _ Hb1) as Hm. rewrite (nd_meta _ _ _ _ _ Hd), (meta_frame _ _ _ Hpg) in Hm.
    apply meta_Some in Hm as (pg' & Hpg' & En & Ef & _). simpl in En, Ef.
    pose proof (uses_bound m p 0 (eframe e0) (pages_of la)). exists pg'. split; [|lia].
    split; [by apply (sh_busy _ _ _ _ _ _ _ Hs)|]. split; [done|]. split; [lia|]. rewrite Ef. by apply (Hplain va e0).
Qed.

(** Taking it down leaves the parent what it had. *)
Lemma half_exited m' :
  Forall good_area la → exited m m' p la →
  (∀ va, user_va va → old_frame m' g o va = old_frame s g o va) ∧
  (∀ q, busy s q → no_table s g o q → mem m' !! q = mem s !! q).
Proof.
  intros Hg X. pose proof Hh as (_ & s1 & vs & Hd & Hs & _). split.
  - intros va Hv. transitivity (old_frame m g o va).
    + unfold old_frame. f_equal. apply (exited_other m m' p la g o X); [by apply two_trees_sym, Hs| |done].
      intros f Hft. pose proof (uses_bound m p 0 f (pages_of la)).
      destruct (decide (0 < uses m p 0 f (pages_of la))) as [Hp|]; [|lia]. exfalso.
      apply uses_found in Hp as (x & Hx & Ho). unfold old_frame in Ho. destruct (mapped m p 0 x) as [e|] eqn:He; [|done].
      injection Ho as <-. assert (Hxv : user_va x).
      { apply pages_of_in in Hx as (a & Ha & Hx). rewrite Forall_forall in Hg. pose proof (area_page_in a x (Hg a Ha) Hx).
        destruct (Hg a Ha) as (_ & _ & ? & _ & ?). assert (PAGE_SIZE = 4096) by done. unfold user_va. lia. }
      destruct (half_entry x e Hxv He) as (_ & _ & _ & Hn & _). by apply no_table_iff in Hn.
    + rewrite (shared_old _ _ _ _ _ _ _ va Hs Hv). unfold old_frame. by rewrite (nd_mapped _ _ _ _ _ Hd).
  - intros q Hq Hn. destruct (nd_busy _ _ _ _ _ Hd q Hq) as [Hb1 Hqp].
    pose proof (child_no_table g o p s s1 Hd q Hq) as Hc. destruct (sh_tables _ _ _ _ _ _ _ Hs q Hb1) as [T1 T2].
    rewrite (xt_data _ _ _ _ X) by (by apply T2).
    rewrite (sh_data _ _ _ _ _ _ _ Hs q Hb1); [by apply Hd|by apply (nd_tables _ _ _ _ _ Hd)|done].
Qed.
End half.

(** ** The order of the areas of a program

    [load_icode] creates the areas of the segments in the order of their addresses,
    then the stack, then the heap behind the last segment. *)

(** When the segments touch, [vm_link] leaves the list in an order in which the areas
    can be taken down: data, text, heap, stack. *)
Lemma program_releasable (text data stack heap : area) :
  a_lo text < a_hi text → a_hi text = a_lo data → a_lo data < a_hi data →
  a_hi data = a_lo heap → a_lo heap < a_hi heap → a_hi heap ≤ a_lo stack → a_lo stack < a_hi stack →
  NoDup (a_id <$> [text; data; stack; heap]) →
  releasable [data; text; heap; stack] (tinsert heap (tinsert stack (tinsert data (tinsert text Leaf)))).
Proof.
  intros H1 H2 H3 H4 H5 H6 H7 Hnd.
  assert (a_id text ≠ a_id data ∧ a_id text ≠ a_id stack ∧ a_id text ≠ a_id heap ∧
    a_id data ≠ a_id stack ∧ a_id data ≠ a_id heap ∧ a_id stack ≠ a_id heap)
    as (? & ? & ? & ? & ? & ?).
  { rewrite !fmap_cons, !NoDup_cons, !elem_of_cons in Hnd. tauto. }
  cbn [tinsert]. rewrite (decide_False (P := a_hi data < a_hi text)) by lia. cbn [tinsert].
  rewrite (decide_False (P := a_hi stack < a_hi text)) by lia. cbn [tinsert].
  rewrite (decide_False (P := a_hi stack < a_hi data)) by lia. cbn [tinsert].
  rewrite (decide_False (P := a_hi heap < a_hi text)) by lia. cbn [tinsert].
  rewrite (decide_False (P := a_hi heap < a_hi data)) by lia. cbn [tinsert].
  rewrite (decide_True (P := a_hi heap < a_hi stack)) by lia.
  repeat (cbn [releasable tdelete]; rewrite ?decide_True by done; rewrite ?decide_False by done).
  cbn [inorder short first_at app]. set_unfold. split_and!; auto; try lia; try tauto.
Qed.

Definition load_order (text data : Z * Z) : M mm_struct unit :=
  create_vma 9 text.1 text.2 3 100 (0, 0) ;;
  create_vma 9 data.1 data.2 3 200 (0, 0) ;;
  create_vma 9 USER_STACKBOTT USER_STACK_SIZE 3 300 (0, 0) ;;
  create_vma 9 (data.1 + data.2) PAGE_SIZE 3 400 (0, 0) ;;
  mret tt.

Definition areas_after (c : M mm_struct unit) : mm_struct :=
  match c demo_heap with Ok (_, m) => m | Stop _ => demo_heap end.

(** ** The properties *)

(** C12: a task that exits gives its whole address space back, provided its areas can be
    taken down in the order of their list ([releasable]: when its turn comes each has at
    most one child in the tree and starts no later than the area at the root ends).  The
    areas of a program with adjacent segments can, by [program_releasable]; a page
    between the segments makes [exit_mm] fault ([exit_gap_faults]).  Then [exit_mm] of an
    address space that nobody else uses returns, and afterwards exactly these frames
    have become free: the directory, every page table, and the frames whose last
    references were mappings in the areas of the task; every other frame keeps its
    contents and loses one reference for each mapping of it.  Another address space
    keeps its tables and all its mappings.  While other tasks use the address space
    only its count changes. *)
Theorem exit_mm_releases (fuel : nat) (mm : user_mm) (s : mstate) (g : Z) (t : tree) (l : list area) :
  exit_ready s g mm t l → 1 ≤ mm_count mm < 2 ^ 31 → (length l + height t < fuel)%nat →
  if decide (mm_count mm = 1) then
    ∃ mm' s', exit_mm fuel mm s = Ok ((mm', true), s') ∧ mmap (mm_areas mm') = 0 ∧
      exited s s' g l ∧
      ∀ g' o', two_trees s g 0 g' o' → (∀ f, table s g' o' f → uses s g 0 f (pages_of l) = 0) →
        tree_wf s' g' o' ∧ ∀ va, user_va va → mapped s' g' o' va = mapped s g' o' va
  else exit_mm fuel mm s = Ok ((with_mm_count (mm_count mm - 1) mm, false), s).
Proof.
  intros Hr Hc Hf. case_decide as E.
  - destruct (exit_mm_ok fuel mm s g t l Hr E Hf) as (mm' & s' & Hrun & Hh & X).
    exists mm', s'. split_and!; [done|done|done|]. intros g' o'. by apply exited_other.
  - apply exit_mm_shared; [|lia]. rewrite (er_pgd _ _ _ _ _ Hr).
    apply slot_pos; [|done]. pose proof (tw_root _ _ _ (er_tree _ _ _ _ _ Hr)) as [[? _] _]. done.
Qed.

(** A check of the tables of an address space by evaluation. *)
Definition entry_check (s : mstate) (e : Z) : bool :=
  pte_present e &&
  match mempage s !! eframe e with
  | Some pg => bool_decide (nref pg = 1) && negb (has_flag (flags pg) _pg_reserved)
  | None => false
  end.

Definition tables_check (s : mstate) (g : Z) : bool :=
  forallb (λ i, match ent s g i with
    | Some e => (e =? 0) || entry_check s e &&
        forallb (λ j, match ent s (eframe e) j with
          | Some e' => (e' =? 0) || entry_check s e' | None => false end) (seqZ 0 512)
    | None => false end) (seqZ 0 3).

Lemma entry_check_sole s e :
  entry_check s e = true → busy s (eframe e) → pte_present e = true ∧ sole s (eframe e).
Proof.
  unfold entry_check. intros [Hp Hc]%andb_true_iff Hb. split; [done|].
  destruct (mempage s !! eframe e) as [pg|] eqn:Hpg; [|done].
  apply andb_true_iff in Hc as [Hn%bool_decide_eq_true Hf%negb_true_iff].
  exists pg. split; [|done]. split_and!; [done|done|lia|lia|done].
Qed.

Lemma tables_check_ent s g r fk e :
  tables_check s g = true → user_role r → parent_slot s g 0 r = Some fk →
  ent s fk.1 fk.2 = Some e → e ≠ 0 → entry_check s e = true.
Proof.
  intros Hc Hu Hp He Hz. destruct r as [i|i j].
  - injection Hp as <-. simpl in He. pose proof (forallb_seqZ _ 3 i Hc Hu) as Hi. cbv beta in Hi.
    change (0 + i) with i in He. rewrite He in Hi. apply orb_true_iff in Hi as [?%Z.eqb_eq|Hi]; [done|].
    by apply andb_true_iff in Hi as [? _].
  - destruct Hu as [Hi Hj]. cbn [parent_slot] in Hp.
    destruct (ent s g i) as [e1|] eqn:He1; [|unfold role_frame in Hp; by rewrite Z.add_0_l, He1 in Hp].
    rewrite (pmd_frame s g i e1 He1) in Hp. destruct (child e1) as [m|] eqn:Hm; [|done].
    injection Hp as <-. apply child_Some in Hm as [Hz1 <-]. cbn [fst snd] in He.
    pose proof (forallb_seqZ _ 3 i Hc Hi) as Hi'. cbv beta in Hi'. rewrite He1 in Hi'.
    apply orb_true_iff in Hi' as [?%Z.eqb_eq|Hi']; [done|]. apply andb_true_iff in Hi' as [_ Hb].
    pose proof (forallb_seqZ _ 512 j Hb Hj) as Hj'. cbv beta in Hj'. rewrite He in Hj'.
    by apply orb_true_iff in Hj' as [?%Z.eqb_eq|?].
Qed.

Lemma role_parent s g r f :
  role_frame s g 0 r = Some f →
  ∃ fk e, parent_slot s g 0 r = Some fk ∧ ent s fk.1 fk.2 = Some e ∧ e ≠ 0 ∧ eframe e = f.
Proof.
  destruct r as [i|i j]; intros Hf.
  - exists (g, 0 + i). unfold role_frame in Hf. destruct (ent s g (0 + i)) as [e|] eqn:He; [|done].
    apply child_Some in Hf. eauto.
  - rewrite role_frame_pte in Hf. cbn [parent_slot]. destruct (role_frame s g 0 (RPmd i)) as [m|]; [|done].
    exists (m, j). simpl in Hf. destruct (ent s m j) as [e|] eqn:He; [|done]. apply child_Some in Hf. eauto.
Qed.

Lemma tables_checked s g :
  tree_wf s g 0 → tables_check s g = true →
  (∀ r f, user_role r → role_frame s g 0 r = Some f → sole s f) ∧
  (∀ r fk e, user_role r → parent_slot s g 0 r = Some fk →
     ent s fk.1 fk.2 = Some e → e ≠ 0 → pte_present e = true).
Proof.
  intros Hw Hc. split.
  - intros r f Hu Hf. destruct (role_parent s g r f Hf) as (fk & e & Hp & He & Hz & <-).
    apply (entry_check_sole s e); [by eapply tables_check_ent|]. by eapply (tw_busy s g 0 Hw).
  - intros r fk e Hu Hp He Hz. pose proof (tables_check_ent s g r fk e Hc Hu Hp He Hz) as H.
    by apply andb_true_iff in H as [? _].
Qed.

(** A program of two segments that touch, one page of it mapped. *)
Definition small_areas : mm_struct := areas_after (load_order (0x400000, 0x2000) (0x402000, 0x1000)).

Definition small_list : list area :=
  [mk_area_of 200 0x402000 0x403000; mk_area_of 100 0x400000 0x402000;
   mk_area_of 400 0x403000 0x404000; mk_area_of 300 USER_STACKBOTT USER_STACKTOP].

Definition small_program : user_mm := mk_user_mm small_areas (slot 9 0) 0 0 0 0 0 1.

Definition small_area_tree : tree :=
  tinsert (mk_area_of 400 0x403000 0x404000) (tinsert (mk_area_of 300 USER_STACKBOTT USER_STACKTOP)
    (tinsert (mk_area_of 200 0x402000 0x403000) (tinsert (mk_area_of 100 0x400000 0x402000) Leaf))).

Lemma small_areas_ok : mm_ok small_areas small_area_tree.
Proof.
  split.
  - vm_compute. repeat (split || eexists || discriminate).
  - apply (bool_decide_unpack _). vm_compute. exact I.
  - split; [|repeat constructor]. repeat (constructor; [|repeat (constructor; [unfold before; done|]); constructor]). constructor.
Qed.

Lemma small_uses q : uses small_mapped 9 0 q (pages_of small_list) ≤ 1.
Proof.
  assert (E : filter (λ va, is_Some (old_frame small_mapped 9 0 va)) (pages_of small_list) = [0x400000])
    by (vm_compute; reflexivity).
  unfold uses. etrans; [|change 1 with (Z.of_nat (length [0x400000])); rewrite <- E; reflexivity].
  apply Nat2Z.inj_le. apply sublist_length.
  clear E. induction (pages_of small_list) as [|va l IH]; [done|]. rewrite !filter_cons.
  destruct (decide (is_Some (old_frame small_mapped 9 0 va))) as [Hs|Hs]; case_decide as Hq.
  - by apply sublist_skip.
  - by apply sublist_cons.
  - exfalso. rewrite Hq in Hs. by apply Hs.
  - done.
Qed.

Lemma small_good : Forall good_area small_list.
Proof.
  repeat (constructor; [unfold good_area, page_aligned; split_and!;
    [by apply Z.mod_divide|by apply Z.mod_divide|done|done|done]|]). constructor.
Qed.

Lemma small_releasable : releasable small_list small_area_tree.
Proof.
  apply (program_releasable (mk_area_of 100 0x400000 0x402000) (mk_area_of 200 0x402000 0x403000)
    (mk_area_of 300 USER_STACKBOTT USER_STACKTOP) (mk_area_of 400 0x403000 0x404000)); try done.
  apply (bool_decide_unpack _). vm_compute. exact I.
Qed.

Lemma small_exit_ready : exit_ready small_mapped 9 small_program small_area_tree small_list.
Proof.
  pose proof small_mapped_ok as [Hi Hw _ _ _ _ _ _ _].
  assert (Hc : tables_check small_mapped 9 = true) by (vm_compute; reflexivity).
  destruct (tables_checked _ _ Hw Hc) as [Ht Hp]. destruct small_frame_10 as (Hb & Hn & pg & Hpg & Hr & Hf).
  split; [exact Hi|exact Hw|reflexivity| |exact Ht|exact Hp|exact small_areas_ok| | | |].
  - assert (E : (λ pg, (nref pg, has_flag (flags pg) _pg_reserved)) <$> mempage small_mapped !! 9 = Some (0, false))
      by (vm_compute; reflexivity).
    destruct (mempage small_mapped !! 9) as [pg9|]; [|discriminate E]. injection E as E1 E2. eauto.
  - vm_compute. repeat (split || eexists).
  - exact small_releasable.
  - exact small_good.
  - intros va e Hva He. assert (Hv : user_va va).
    { apply pages_of_in in Hva as (a & Ha & Hva). pose proof small_good as Hg. rewrite Forall_forall in Hg.
      pose proof (area_page_in a va (Hg a Ha) Hva). destruct (Hg a Ha) as (_ & _ & Hlo & _ & Hhi).
      assert (PAGE_SIZE = 4096) by done. unfold user_va. lia. }
    destruct (small_is_mapped va e Hv He) as [_ ->].
    assert (Ee : eframe (10 * PAGE_SIZE + 7) = 10) by (apply eframe_entry; unfold PAGE_SIZE; lia). rewrite Ee.
    split; [exact Hn|]. exists pg. pose proof (small_uses 10). split; [|lia].
    split_and!; [exact Hb|exact Hpg|lia|lia|exact Hf].
Qed.

Lemma exit_mm_releases_witness :
  ∃ mm' s', exit_mm 9 small_program small_mapped = Ok ((mm', true), s') ∧
    exited small_mapped s' 9 small_list.
Proof.
  pose proof (exit_mm_releases 9 small_program small_mapped 9 small_area_tree small_list
    small_exit_ready ltac:(cbn [small_program mm_count]; lia) ltac:(vm_compute; lia)) as H.
  rewrite decide_True in H by reflexivity.
  destruct H as (mm' & s' & Hrun & _ & X & _). exists mm', s'. split; [exact Hrun|exact X].
Defined.

(** When a page lies between the two segments, the list that [vm_link] builds cannot
    be taken down: the stack is unlinked from the tree but stays the head of the
    list, and [delete_all_vma] goes on with an area that was freed. *)
Theorem exit_gap_faults :
  exit_mm 9 (mk_user_mm (areas_after (load_order (0x400000, 0x1000) (0x402000, 0x1000))) (slot 9 0) 0 0 0 0 0 1)
    small_mapped = Stop Faulted.
Proof. vm_compute. reflexivity. Qed.
