(* ===== verification/ProcessProofs.v ===== *)
(** * Correctness of making a task

    [do_fork] over all its components: the child is a copy of its parent in memory,
    in descriptors and in registers, with an identity of its own, and is scheduled
    after all others.  An error before the descriptors are copied leaves everything as
    it was; one after that takes the child down again and leaves the open files counted
    once too often. *)

From S2P Require Import Prelude KList Pidmap Layout Buddy BuddyProofs Paging PagingProofs Vma VmaProofs Fault FaultProofs Fork ForkProofs ExitAreas ExitProofs Exec Files FilesProofs Sched SchedProofs Process.

Local Open Scope Z_scope.

(** ** New nodes on the heap of KList *)

Definition fresh_node (L : gmap Z (list Z)) (n : Z) : Prop := ∀ hd xs, L !! hd = Some xs → n ∉ hd :: xs.

Definition list_new (n : Z) (h : lheap) : lheap := <[n := mk_list_head 0 0]> h.

Lemma list_new_rep h L n : lists_rep h L → fresh_node L n → lists_rep (list_new n h) L.
Proof.
  intros [R1 R2] Hn. split; [|done]. intros hd xs Hl. apply (is_list_frame h); [by apply R1|].
  intros x Hx. apply lookup_insert_ne. intros <-. by apply (Hn hd xs).
Qed.

Lemma lists_rep_add_new h h' L n hd xs :
  lists_rep h L → fresh_node L n → L !! hd = Some xs → is_list h' hd (xs ++ [n]) →
  (∀ x, x ∉ hd :: xs → x ≠ n → h' !! x = h !! x) → lists_rep h' (<[hd := xs ++ [n]]> L).
Proof.
  intros [R1 R2] Hn Hhd Hl HF.
  assert (D : ∀ hd1 xs1 x, hd1 ≠ hd → L !! hd1 = Some xs1 → x ∈ hd1 :: xs1 → x ∈ hd :: xs ++ [n] → False).
  { intros hd1 xs1 x N H1 Hx Hin. destruct (decide (x = n)) as [->|Hxn]; [by apply (Hn hd1 xs1)|].
    assert (x ∈ hd :: xs) as Hx' by set_solver. by pose proof (R2 _ _ _ _ _ H1 Hhd Hx Hx'). }
  split.
  - intros hd1 xs1. rewrite lookup_insert. case_decide; [by intros [= <-]; subst|]. intros H1.
    apply (is_list_frame h); [by apply R1|]. intros x Hx. apply HF.
    + intros Hin. eapply (D hd1 xs1 x); [done..|]. set_solver.
    + intros ->. by apply (Hn hd1 xs1).
  - intros hd1 xs1 hd2 xs2 x H1 H2 Hx1 Hx2. rewrite lookup_insert in H1. rewrite lookup_insert in H2.
    destruct (decide (hd = hd1)) as [<-|N1], (decide (hd = hd2)) as [<-|N2]; [done|..].
    + exfalso. injection H1 as <-. by eapply (D hd2 xs2 x).
    + exfalso. injection H2 as <-. by eapply (D hd1 xs1 x).
    + by eapply (R2 hd1 xs1).
Qed.

#[global] Program Instance lheap_nodes : NewNodes lheap := {|
  ll_new := list_new;
  ll_cell h n := is_Some (h !! n);
|}.
Next Obligation.
  intros h L n R Hn. split; [by apply list_new_rep|]. unfold list_new. rewrite lookup_insert_eq. by eexists.
Qed.
Next Obligation.
  intros h L n hd xs R Hc Hn Hhd.
  destruct (list_add_tail_spec h hd xs [] hd n) as (h' & E & Hl & HF & _);
    [rewrite app_nil_r; by apply R|done|rewrite app_nil_r; by eapply Hn|done|].
  rewrite app_nil_r in HF. exists h'. split; [done|]. by eapply lists_rep_add_new.
Qed.

(** ** The tasks *)

Section process.
Context {H : Type} `{NewNodes H} (rq list_off : Z).

Local Abbreviation state := (@sstate H machine).
Local Abbreviation ready := (SchedProofs.ready (R := machine) rq list_off).
Local Abbreviation qrep := (SchedProofs.qrep rq list_off).

(** [a] can be the address of a new task: its node is on no list and no task is there. *)
Definition fresh_task (h : H) (D : gset Z) (Q : list Z) (a : Z) : Prop :=
  a ≠ 0 ∧ a ∉ D ∧ ∃ L, ll_rep h L ∧ L !! rq = Some (node list_off <$> Q) ∧
    (∀ t, t ∈ D → node list_off t ≠ rq) ∧ (∀ t, t ∈ Q → t ∈ D) ∧
    (∀ t, t ∈ D → t ∉ Q → L !! node list_off t = Some []) ∧ fresh_node L (node list_off a).

Lemma fresh_qrep h D Q a : fresh_task h D Q a → qrep h D Q.
Proof. intros (_ & _ & L & E1 & E2 & E3 & E4 & E5 & _). by exists L. Qed.

Lemma new_qrep h D Q a :
  fresh_task h D Q a →
  qrep (ll_new (node list_off a) h) D Q ∧
  ∃ h', ll_add_tail (node list_off a) rq (ll_new (node list_off a) h) = Ok (tt, h') ∧ qrep h' ({[a]} ∪ D) (Q ++ [a]).
Proof.
  intros (Ha & HD & L & E1 & E2 & E3 & E4 & E5 & E6).
  destruct (ll_new_law h L (node list_off a) E1 E6) as [Hrep Hcell]. split; [by exists L|].
  destruct (ll_add_new_law _ L (node list_off a) rq _ Hrep Hcell E6 E2) as (h' & Hrun & Hrep').
  exists h'. split; [done|]. eexists. split; [exact Hrep'|].
  assert (Hne : node list_off a ≠ rq) by (intros E; apply (E6 rq _ E2); rewrite E; apply list_elem_of_here).
  rewrite lookup_insert_eq, fmap_app. split_and!; [done| | |].
  - intros t [->%elem_of_singleton|Ht]%elem_of_union; [done|by apply E3].
  - intros t. rewrite elem_of_app, list_elem_of_singleton. set_solver.
  - intros t [->%elem_of_singleton|Ht]%elem_of_union Hn; [set_solver|].
    rewrite lookup_insert_ne by (apply not_eq_sym, E3, Ht). apply E5; [done|set_solver].
Qed.

(** A new task in the state: [a] with the contents [k], the process ids [m]. *)
Definition with_new (a : Z) (k : task_struct) (m : pidmap) (s : state) : state :=
  set_pids m (set_lists (ll_new (node list_off a) (lists s)) (set_tasks (<[a := k]> (tasks s)) s)).

Definition took (s : state) : state := set_rest (set_answers (tail (answers (rest s))) (rest s)) s.

Lemma next_answer_run r : next_answer r = Ok (hd 0 (answers r), set_answers (tail (answers r)) r).
Proof. unfold next_answer. by destruct r as [? ? ? ? ? ? [|a l] ?]. Qed.

Lemma on_machine_run {A} (m : M machine A) (s : state) a r :
  m (rest s) = Ok (a, r) → on_machine m s = Ok (a, set_rest r s).
Proof. intros E. unfold on_machine. by rewrite E. Qed.

Lemma edit_new (a : Z) (k : task_struct) g (s : state) :
  tasks s !! a = Some k → edit_task a g s = Ok (tt, set_tasks (<[a := g k]> (tasks s)) s).
Proof. apply edit_task_run. Qed.

(** What [alloc_task] gives. *)
Lemma alloc_task_run ppid (s : state) :
  pid_inv (pids s) →
  let a := hd 0 (answers (rest s)) in
  if decide (a = 0) then alloc_task list_off ppid s = Ok (- ENOMEM, 0, took s)
  else ∃ n m, alloc_pidmap (pids s) = Ok (n, m) ∧ pid_inv m ∧
    ((n = -1 ∧ m = pids s ∧ alloc_task list_off ppid s = Ok (- EMPROC, 0, with_new a (Task (-1) 0 0 0 0 0) m (took s))) ∨
     (0 ≤ n < PID_MAX_DEFAULT ∧ used (Pidmap.page (pids s)) n = false ∧
      (∀ i, 0 ≤ i < PID_MAX_DEFAULT → used (Pidmap.page m) i = (Z.eqb n i || used (Pidmap.page (pids s)) i)) ∧
      alloc_task list_off ppid s = Ok (0, a, with_new a (Task n ppid TASK_RUNNING 3 0 0) m (took s)))).
Proof.
  intros Hp a. unfold alloc_task.
  rewrite (bind_Ok _ _ _ _ _ (on_machine_run _ _ _ _ (next_answer_run (rest s)))). fold a (took s).
  case_decide as Ha; [by rewrite bool_decide_eq_true_2|]. rewrite bool_decide_eq_false_2 by done.
  destruct (alloc_pidmap_ok (pids s) Hp) as (n & m & Hal & Hi & Hcase). exists n, m. split; [done|]. split; [done|].
  set (k0 := Task 0 0 0 0 0 0).
  rewrite (bind_Ok (new_task list_off a k0) _ (took s) tt
    (set_lists (ll_new (node list_off a) (lists s)) (set_tasks (<[a := k0]> (tasks s)) (took s))) eq_refl).
  assert (R2 : new_pid (set_lists (ll_new (node list_off a) (lists s)) (set_tasks (<[a := k0]> (tasks s)) (took s))) =
    Ok (n, with_new a k0 m (took s))) by (unfold new_pid; simpl; by rewrite Hal).
  rewrite (bind_Ok _ _ _ _ _ R2).
  assert (Hset : ∀ g k, edit_task a g (with_new a k m (took s)) = Ok (tt, with_new a (g k) m (took s))).
  { intros g k. rewrite (edit_new a k); [|apply lookup_insert_eq]. unfold with_new, set_pids, set_lists, set_tasks. simpl.
    by rewrite insert_insert_eq. }
  rewrite (bind_Ok _ _ _ _ _ (Hset _ _)).
  destruct Hcase as [(-> & -> & _)|(Hn & Hu & _ & _ & Hused)].
  - left. rewrite bool_decide_eq_true_2 by done. by split_and!.
  - right. rewrite bool_decide_eq_false_2 by lia. do 3 rewrite (bind_Ok _ _ _ _ _ (Hset _ _)). split_and!; [lia|change PID_MAX_DEFAULT with BITS_PER_PAGE; lia|done|done|reflexivity].
Qed.

Definition in_use (m : pidmap) (i : Z) : Prop := used (Pidmap.page m) i = true.

(** The same ids are in use. *)
Definition same_ids (m m' : pidmap) : Prop := ∀ i, 0 ≤ i < PID_MAX_DEFAULT → used (Pidmap.page m') i = used (Pidmap.page m) i.

(** The scheduler sees the same tasks. *)
Record same_tasks (s s' : state) (Q : list Z) : Prop := {
  st_queue : qrep (lists s') (dom (tasks s)) Q;
  st_tasks : ∀ t, t ∈ dom (tasks s) → tasks s' !! t = tasks s !! t;
  st_cur : curtask s' = curtask s;
  st_pids : pid_inv (pids s');
  st_ids : same_ids (pids s) (pids s');
  st_table : ∀ i, in_use (pids s) i → Sched.task_pidmap s' !! i = Sched.task_pidmap s !! i }.

(** [exit_task] takes back what [alloc_task] did. *)
Lemma undo_task (s : state) Q a n k m r :
  fresh_task (lists s) (dom (tasks s)) Q a → pid_inv m →
  0 ≤ n < PID_MAX_DEFAULT → used (Pidmap.page (pids s)) n = false →
  (∀ i, 0 ≤ i < PID_MAX_DEFAULT → used (Pidmap.page m) i = (Z.eqb n i || used (Pidmap.page (pids s)) i)) →
  Sched.pid k = n →
  ∃ s', exit_task a (set_rest r (with_new a k m s)) = Ok (tt, s') ∧ same_tasks s s' Q ∧ rest s' = r.
Proof.
  intros Hfr Hm Hn Hu Hused Hk. pose proof Hfr as (Ha & HD & _).
  assert (Hnone : tasks s !! a = None) by (by apply not_elem_of_dom).
  destruct (free_pidmap_ok m n Hm Hn) as (m' & Hfree & Hi' & _ & _ & Hused').
  { rewrite Hused by done. by rewrite Z.eqb_refl. }
  set (s1 := set_rest r (with_new a k m s)).
  assert (Hk1 : tasks s1 !! a = Some k) by apply lookup_insert_eq.
  rewrite (exit_task_run s1 a k m' Ha Hk1); [|rewrite Hk; done|rewrite Hk; exact Hfree].
  eexists. split; [reflexivity|]. split; [|done].
  assert (Et : delete a (<[a := k]> (tasks s)) = tasks s) by (by rewrite delete_insert_id).
  split.
  - by destruct (new_qrep _ _ _ _ Hfr) as [Hq _].
  - intros t _. simpl. by rewrite Et.
  - done.
  - done.
  - intros i Hi. simpl. rewrite Hused', Hused by done. destruct (Z.eqb_spec n i) as [<-|]; [by rewrite Hu|done].
  - intros i Hi. simpl. rewrite lookup_insert_ne; [done|]. intros <-. unfold in_use in Hi. congruence.
Qed.

Lemma failed_task (s : state) Q a k :
  fresh_task (lists s) (dom (tasks s)) Q a → pid_inv (pids s) →
  same_tasks s (with_new a k (pids s) s) Q.
Proof.
  intros Hfr Hp. pose proof Hfr as (Ha & HD & _). split; [by destruct (new_qrep _ _ _ _ Hfr) as [Hq _]| |done|done|done|done].
  intros t Ht. simpl. apply lookup_insert_ne. by intros <-.
Qed.

(** ** The world of a fork *)

Context (kf : Z) (fuel : nat).

(** The current task, its address space [mm] with the areas [l] under the directory
    [g], its descriptors, and what [kmalloc] will answer. *)
Record fork_world (s : state) (Q : list Z) (kc : task_struct) (g o : Z) (mm : user_mm) (l : list vm_area_struct)
    (fds : list Z) : Prop := {
  fw_ready : ready s Q;
  fw_cur : tasks s !! curtask s = Some kc;
  fw_pids : pid_inv (pids s);
  fw_task : let a := hd 0 (answers (rest s)) in a ≠ 0 → fresh_task (lists s) (dom (tasks s)) Q a;
  fw_mm : mm_of (rest s) !! curtask s = Some mm;
  fw_pgd : mm_pgd mm = slot g o;
  fw_fork : fork_ready (memory (rest s)) g o mm l;
  fw_plain : ∀ va e pg, user_va va → mapped (memory (rest s)) g o va = Some e →
    mempage (memory (rest s)) !! eframe e = Some pg → has_flag (Layout.flags pg) _pg_reserved = false;
  fw_kernel : kernel_directory (memory (rest s)) kf;
  fw_areas : good_kmallocs (vma_answers (rest s)) Leaf;
  fw_counted : counted (descriptors (rest s));
  fw_avail : avail_ok (descriptors (rest s)) (avail (descriptors (rest s)));
  fw_size : Z.of_nat (base.size (tabs (descriptors (rest s)))) + 1 < 2 ^ 24;
  fw_fds : tabs (descriptors (rest s)) !! Files.cur (descriptors (rest s)) = Some fds;
  fw_fuel : (2 * length l < fuel)%nat }.

(** The memory that the parent sees. *)
Definition memory_kept (g o : Z) (m m' : mstate) : Prop :=
  (∀ va, user_va va → old_frame m' g o va = old_frame m g o va) ∧
  (∀ q, busy m q → no_table m g o q → mem m' !! q = mem m !! q).

(** An error before the pages were shared: nobody but the allocators notices. *)
Record fork_failed (s s' : state) (Q : list Z) (g o : Z) : Prop := {
  ff_tasks : same_tasks s s' Q;
  ff_memory : memory_kept g o (memory (rest s)) (memory (rest s'));
  ff_files : files (descriptors (rest s')) = files (descriptors (rest s)) ∧
    tabs (descriptors (rest s')) = tabs (descriptors (rest s));
  ff_mm : ∀ t, t ∈ dom (tasks s) → mm_of (rest s') !! t = mm_of (rest s) !! t;
  ff_frames : ∀ t, t ∈ dom (tasks s) → frame_of (rest s') !! t = frame_of (rest s) !! t }.

(** An error after the descriptors were copied: the tasks, the queue and the ids are as
    before, but nothing drops the copied table, so that an open file stays counted once
    more for each descriptor of the parent. *)
Record fork_leaked (s s' : state) (Q : list Z) (fds : list Z) : Prop := {
  fl_tasks : same_tasks s s' Q;
  fl_files : ∃ t av, descriptors (rest s') = FilesProofs.forked (descriptors (rest s)) t fds av;
  fl_mm : ∀ t, t ∈ dom (tasks s) → mm_of (rest s') !! t = mm_of (rest s) !! t;
  fl_frames : ∀ t, t ∈ dom (tasks s) → frame_of (rest s') !! t = frame_of (rest s) !! t }.

(** The end of a fork whose pages could not all be shared.  The unfinished copy has the
    areas [A] and the memory [m]; [exit_mm] takes it down.  When that returns, the call
    ends as [ret] says; when that stops, the kernel does.  It returns when the areas can be
    taken down in their order, and then the parent keeps its memory. *)
Definition given_up {B : Type} (run : outcome B) (ret : state → B) (s : state) (Q : list Z) (g o : Z) (mm : user_mm)
    (l : list vm_area_struct) (fds : list Z) : Prop :=
  ∃ p A m t, half_made g o p (memory (rest s)) m l A t ∧
    let tear := exit_mm fuel (set_areas A (child_mm mm p)) m in
    (∀ x m', tear = Ok (x, m') →
       ∃ s', run = Ok (ret s') ∧ fork_leaked s s' Q fds ∧ memory (rest s') = m') ∧
    (∀ w, tear = Stop w → run = Stop w) ∧
    (∀ la, tearable A t la → (length la + height t < fuel)%nat →
       ∃ x m', tear = Ok (x, m') ∧ memory_kept g o (memory (rest s)) m').

(** The child [c] with the process id [n]. *)
Record fork_done (s s' : state) (Q : list Z) (kc : task_struct) (g o : Z) (l : list vm_area_struct) (fds : list Z)
    (f : frame) (c n : Z) : Prop := {
  fd_new : tasks s !! c = None ∧ 0 ≤ n < PID_MAX_DEFAULT ∧ ¬ in_use (pids s) n;
  fd_tasks : tasks s' = <[c := Task n (Sched.pid kc) TASK_RUNNING 3 0 0]> (tasks s);
  fd_ready : ready s' (Q ++ [c]);
  fd_cur : curtask s' = curtask s;
  fd_pids : pid_inv (pids s') ∧ ∀ i, 0 ≤ i < PID_MAX_DEFAULT → in_use (pids s') i ↔ i = n ∨ in_use (pids s) i;
  fd_table : Sched.task_pidmap s' = <[n := c]> (Sched.task_pidmap s);
  fd_frame : frame_of (rest s') !! c = Some (with_eax 0 f);
  fd_frames : ∀ t, t ≠ c → frame_of (rest s') !! t = frame_of (rest s) !! t;
  fd_memory : ∃ p mm', mm_of (rest s') !! c = Some mm' ∧ mm_pgd mm' = slot p 0 ∧
    ForkProofs.forked g o p (memory (rest s)) (memory (rest s')) l ∧
    ∃ t, mm_ok (mm_areas mm') t ∧ area_range <$> inorder t ≡ₚ vma_range <$> l;
  fd_mm : ∀ t, t ≠ c → mm_of (rest s') !! t = mm_of (rest s) !! t;
  fd_files : ∃ t, tab_of (rest s') !! c = Some t ∧ tabs (descriptors (rest s')) !! t = Some fds ∧
    counted (descriptors (rest s')) ∧ ∃ av, descriptors (rest s') = FilesProofs.forked (descriptors (rest s)) t fds av }.

(** *** The steps on the machine *)

Lemma in_memory_run {A} (m : M mstate A) r a x :
  m (memory r) = Ok (a, x) → in_memory m r = Ok (a, set_memory x r).
Proof. intros E. unfold in_memory. by rewrite E. Qed.

Lemma in_descriptors_run {A} (m : M fstate A) r a x :
  m (descriptors r) = Ok (a, x) → in_descriptors m r = Ok (a, set_descriptors x r).
Proof. intros E. unfold in_descriptors. by rewrite E. Qed.

Lemma get_mm_run t r mm : mm_of r !! t = Some mm → get_mm t r = Ok (mm, r).
Proof. intros E. unfold get_mm. run_step. by rewrite E. Qed.

Lemma fork_set_vm_ok cur c r g o mm l :
  mm_of r !! cur = Some mm → fork_ready (memory r) g o mm l → kernel_directory (memory r) kf →
  ∃ v r', fork_set_vm (slot kf 0) cur c r = Ok (v, r') ∧
    vma_answers r' = vma_answers r ∧ descriptors r' = descriptors r ∧ tab_of r' = tab_of r ∧ frame_of r' = frame_of r ∧
    (v = - ENOMEM ∧ memory r' = memory r ∧ mm_of r' = mm_of r ∨
     v = 0 ∧ ∃ p, new_directory g o (memory r) (memory r') p ∧ mm_of r' = <[c := child_mm mm p]> (mm_of r)).
Proof.
  intros Hmm Hf Hk. unfold fork_set_vm. rewrite (bind_Ok _ _ _ _ _ (next_answer_run r)).
  rewrite (bind_Ok _ _ _ _ _ (get_mm_run cur (set_answers _ r) mm Hmm)). set (ko := hd 0 (answers r)).
  destruct (decide (ko = 0)) as [E0|E0].
  - assert (Rv : task_set_vm ko (slot kf 0) mm (memory r) = Ok (- ENOMEM, None, memory r)).
    { unfold task_set_vm, alloc_mm. by rewrite bool_decide_eq_true_2. }
    rewrite (bind_Ok _ _ _ _ _ (in_memory_run _ (set_answers _ r) _ _ Rv)). eexists _, _. split; [reflexivity|].
    split_and!; try done. by left.
  - destruct (task_set_vm_ok (memory r) g o kf ko mm (fr_inv _ _ _ _ _ Hf) (fr_tree _ _ _ _ _ Hf) Hk E0)
      as (v & om & x & Rv & Hom).
    rewrite (bind_Ok _ _ _ _ _ (in_memory_run _ (set_answers _ r) _ _ Rv)). cbv beta iota.
    destruct om as [mm'|].
    + destruct Hom as (-> & p & -> & Hd). eexists _, _. split; [reflexivity|]. split_and!; try done. right. split; [done|].
      exists p. split; [exact Hd|done].
    + destruct Hom as [-> ->]. eexists _, _. split; [reflexivity|]. split_and!; try done. by left.
Qed.

Lemma fork_files_ok c r fds :
  counted (descriptors r) → tabs (descriptors r) !! Files.cur (descriptors r) = Some fds →
  avail_ok (descriptors r) (avail (descriptors r)) → Z.of_nat (base.size (tabs (descriptors r))) + 1 < 2 ^ 24 →
  ∃ v r', fork_files c r = Ok (v, r') ∧
    vma_answers r' = vma_answers r ∧ memory r' = memory r ∧ mm_of r' = mm_of r ∧ frame_of r' = frame_of r ∧
    counted (descriptors r') ∧
    (v = - ENOMEM ∧ files (descriptors r') = files (descriptors r) ∧ tabs (descriptors r') = tabs (descriptors r) ∨
     v = 0 ∧ ∃ t av, tab_of r' !! c = Some t ∧ descriptors r' = FilesProofs.forked (descriptors r) t fds av).
Proof.
  intros Hc Hl Hav Hsz.
  destruct (copy_files_run (descriptors r) fds Hc Hl Hav Hsz) as (v & t & d & Hrun & Hcd & _ & Hcase).
  unfold fork_files. rewrite (bind_Ok _ _ _ _ _ (in_descriptors_run _ r _ _ Hrun)). cbv beta iota.
  destruct Hcase as [(-> & HF & HT)|(-> & Ht & Htn & av & ->)].
  - eexists _, _. split; [reflexivity|]. split_and!; try done. by left.
  - eexists _, _. split; [reflexivity|]. split_and!; try done. right. split; [done|]. exists t, av.
    split; [|done]. apply lookup_insert_eq.
Qed.

Lemma fork_pages_ok cur c r g o p mm l m0 :
  cur ≠ c → mm_of r !! cur = Some mm → mm_of r !! c = Some (child_mm mm p) → mm_pgd mm = slot g o →
  fork_ready m0 g o mm l → new_directory g o m0 (memory r) p → good_kmallocs (vma_answers r) Leaf →
  (2 * length l < fuel)%nat →
  ∃ v r', fork_pages fuel cur c r = Ok (v, r') ∧
    descriptors r' = descriptors r ∧ tab_of r' = tab_of r ∧ frame_of r' = frame_of r ∧
    (∀ t, t ≠ c → mm_of r' !! t = mm_of r !! t) ∧
    (v = - ENOMEM ∧ (∃ A t, mm_of r' !! c = Some (set_areas A (child_mm mm p)) ∧ half_made g o p m0 (memory r') l A t) ∨
     v = 0 ∧ ∃ mm', mm_of r' !! c = Some mm' ∧ mm_pgd mm' = slot p 0 ∧ ForkProofs.forked g o p m0 (memory r') l ∧
       ∃ t, mm_ok (mm_areas mm') t ∧ area_range <$> inorder t ≡ₚ vma_range <$> l).
Proof.
  intros Hne Hmm Hmc Hpgd Hf Hd Hks Hfuel. unfold fork_pages.
  rewrite (bind_Ok _ _ _ _ _ (get_mm_run cur r mm Hmm)), (bind_Ok _ _ _ _ _ (get_mm_run c r _ Hmc)). run_step.
  destruct (copy_task_ok m0 (memory r) g o p mm l (vma_answers r) fuel Hf Hd Hks Hfuel) as (v & st & Hrun & Hsrc & Hend).
  rewrite Hpgd. change (mm_pgd (child_mm mm p)) with (slot p 0).
  rewrite (bind_Ok _ _ _ _ _ (lift_Ok _ _ _ Hrun)). cbv beta iota.
  eexists v, _. split; [reflexivity|]. cbn [descriptors tab_of frame_of mm_of memory set_mm set_vma_answers set_memory].
  split_and!; [done|done|done| |].
  - intros t Ht. rewrite lookup_partial_alter_ne by done. destruct (decide (t = cur)) as [->|Htc].
    + rewrite lookup_partial_alter_eq, Hmm, Hsrc. by destruct mm.
    + by rewrite lookup_partial_alter_ne.
  - destruct Hend as [(-> & Hk & t & Hok & Hperm)|(-> & _ & _ & t & Ht)].
    2: { left. split; [done|]. exists (dest_areas st), t. rewrite lookup_partial_alter_eq. by split. }
    right. split; [done|]. exists (set_areas (dest_areas st) (child_mm mm p)). rewrite lookup_partial_alter_eq.
    split; [done|]. split; [done|]. split; [done|]. by exists t.
Qed.

(** *** The whole call *)

Lemma new_directory_kept g o m m' p : new_directory g o m m' p → memory_kept g o m m'.
Proof.
  intros Hd. split.
  - intros va Hv. unfold old_frame. by rewrite (nd_mapped _ _ _ _ _ Hd).
  - intros q Hq _. apply (nd_data _ _ _ _ _ Hd). by apply (nd_busy _ _ _ _ _ Hd).
Qed.

Section whole.
Context (s : state) (Q : list Z) (kc : task_struct) (g o : Z) (mm : user_mm) (l : list vm_area_struct) (fds : list Z).
Context (f : frame) (flags : Z).
Context (W : fork_world s Q kc g o mm l fds) (Hflags : Z.land flags CLONE_VM = 0).

Lemma took_same : same_tasks s (took s) Q.
Proof. destruct (fw_ready _ _ _ _ _ _ _ _ W) as [[Hq _] _]. split; try done. apply W. Qed.

(** After [alloc_task], with the registers of the child. *)
Section child.
Context (c n : Z) (m : pidmap).
Context (Hc : c = hd 0 (answers (rest s))) (Hc0 : c ≠ 0) (Hm : pid_inv m).
Context (Hn : 0 ≤ n < PID_MAX_DEFAULT) (Hu : used (Pidmap.page (pids s)) n = false).
Context (Hused : ∀ i, 0 ≤ i < PID_MAX_DEFAULT → used (Pidmap.page m) i = (Z.eqb n i || used (Pidmap.page (pids s)) i)).

Let k : task_struct := Task n (Sched.pid kc) TASK_RUNNING 3 0 0.
Let born : state := with_new c k m (took s).
Let fr : frame := with_eax 0 f.

Lemma child_fresh : fresh_task (lists s) (dom (tasks s)) Q c.
Proof. rewrite Hc. apply (fw_task _ _ _ _ _ _ _ _ W). by rewrite <- Hc. Qed.

Lemma child_not_cur : curtask s ≠ c.
Proof.
  intros E. destruct child_fresh as (_ & Hd & _). apply Hd. rewrite <- E. apply elem_of_dom.
  rewrite (fw_cur _ _ _ _ _ _ _ _ W). by eexists.
Qed.

Lemma undo_child (r : machine) (v : Z) :
  ∃ s', (exit_task c ;; mret v) (set_rest r born) = Ok (v, s') ∧ same_tasks s s' Q ∧ rest s' = r.
Proof.
  destruct (undo_task (took s) Q c n k m r child_fresh Hm Hn Hu Hused eq_refl) as (s' & Hrun & Hsame & Hr).
  exists s'. rewrite (bind_Ok _ _ _ _ _ Hrun). split_and!; [done| |done]. destruct Hsame. by split.
Qed.

(** Giving up a child whose pages could not all be shared. *)
Lemma drop_child (r : machine) p A t :
  mm_of r !! c = Some (set_areas A (child_mm mm p)) → half_made g o p (memory (rest s)) (memory r) l A t →
  (∃ t av, descriptors r = FilesProofs.forked (descriptors (rest s)) t fds av) →
  (∀ t, t ≠ c → mm_of r !! t = mm_of (rest s) !! t) → (∀ t, t ≠ c → frame_of r !! t = frame_of (rest s) !! t) →
  given_up ((on_machine (drop_mm fuel c) ;; exit_task c ;; mret (- ENOMEM)) (set_rest r born)) (pair (- ENOMEM)) s Q g o mm l fds.
Proof.
  intros Hmm Hh Hfiles Hmms Hfrs. exists p, A, (memory r), t. split; [done|]. cbv zeta.
  pose proof child_fresh as (_ & Hdom & _).
  assert (Hdrop : drop_mm fuel c r = match exit_mm fuel (set_areas A (child_mm mm p)) (memory r) with
    | Ok ((mm', freed), x) => Ok (tt, set_mm c (if freed then None else Some mm') (set_memory x r))
    | Stop w => Stop w end).
  { unfold drop_mm. rewrite (bind_Ok _ _ _ _ _ (get_mm_run c r _ Hmm)). unfold in_memory, mbind, M_bind.
    by destruct (exit_mm _ _ _) as [[[mm' fr0] x]|w]. }
  split_and!.
  - intros [mm' freed] x E. rewrite E in Hdrop.
    rewrite (bind_Ok _ _ _ _ _ (on_machine_run _ (set_rest r born) _ _ Hdrop)).
    change (set_rest ?a (set_rest r born)) with (set_rest a born).
    destruct (undo_child (set_mm c (if freed then None else Some mm') (set_memory x r)) (- ENOMEM)) as (s' & Hrun & Hs & Hr).
    exists s'. split; [exact Hrun|]. split; [|by rewrite Hr]. split; [done|by rewrite Hr| |].
    + intros u Hu'. assert (u ≠ c) by (by intros ->). rewrite Hr. cbn [mm_of set_mm set_memory].
      rewrite lookup_partial_alter_ne by done. by apply Hmms.
    + intros u Hu'. rewrite Hr. apply Hfrs. by intros ->.
  - intros w E. rewrite E in Hdrop. unfold mbind, M_bind, on_machine. change (rest (set_rest r born)) with r. by rewrite Hdrop.
  - intros la Hla Hfu.
    pose proof (half_exit_ready g o p _ _ mm l A t la (fw_fork _ _ _ _ _ _ _ _ W) Hh (fw_plain _ _ _ _ _ _ _ _ W)
      (set_areas A (child_mm mm p)) eq_refl eq_refl Hla) as Hready.
    destruct (exit_mm_ok fuel _ _ _ _ _ Hready eq_refl Hfu) as (mm' & m' & E & _ & X).
    exists (mm', true), m'. split; [exact E|]. eapply half_exited; [apply W|exact Hh|apply Hla|exact X].
Qed.

(** The end: the child is queued and entered in the table. *)
Lemma finish_child (r : machine) :
  ∃ s', (schedule_add_task rq list_off c ;;
    k ← load_task c;
    pidmap_set (Sched.pid k) c ;;
    k ← load_task c;
    mret (Sched.pid k)) (set_rest r born) = Ok (n, s') ∧
    tasks s' = <[c := k]> (tasks s) ∧ ready s' (Q ++ [c]) ∧ curtask s' = curtask s ∧ pids s' = m ∧
    Sched.task_pidmap s' = <[n := c]> (Sched.task_pidmap s) ∧ rest s' = r.
Proof.
  destruct (new_qrep _ _ _ _ child_fresh) as (_ & h & Hadd & Hq).
  unfold schedule_add_task. rewrite (bind_Ok _ _ _ tt (set_lists h (set_rest r born))).
  2:{ apply on_lists_run. exact Hadd. }
  assert (Hk : tasks (set_lists h (set_rest r born)) !! c = Some k) by apply lookup_insert_eq.
  rewrite (bind_Ok _ _ _ _ _ (load_task_run _ _ _ Hk)).
  set (s' := SState h (<[c := k]> (tasks s)) (curtask s) (<[n := c]> (Sched.task_pidmap s)) m (jiffies s) r).
  assert (Hp : pidmap_set (Sched.pid k) c (set_lists h (set_rest r born)) = Ok (tt, s')).
  { unfold pidmap_set, pidmap_get. rewrite bind_assoc. run_step. rewrite bool_decide_eq_true_2 by exact Hn. reflexivity. }
  rewrite (bind_Ok _ _ _ _ _ Hp). assert (Hk' : tasks s' !! c = Some k) by apply lookup_insert_eq.
  rewrite (bind_Ok _ _ _ _ _ (load_task_run _ _ _ Hk')). exists s'. split_and!; try done.
  destruct (fw_ready _ _ _ _ _ _ _ _ W) as [[_ Hr] Hh]. split; [split|].
  - simpl. by rewrite dom_insert_L.
  - intros t [Ht| ->%list_elem_of_singleton]%elem_of_app.
    + destruct (Hr t Ht) as (Ht0 & kt & Hkt & Hrun). split; [done|]. exists kt. split; [|done]. simpl.
      rewrite lookup_insert_ne; [done|]. intros <-. destruct child_fresh as (_ & Hd & _). apply Hd. by apply elem_of_dom_2 in Hkt.
    + split; [done|]. exists k. split; [done|]. by repeat split.
  - destruct Q; [done|]. done.
Qed.

(** From the new task on. *)
Lemma fork_child :
  let run := (on_machine (modify (set_frame c fr)) ;;
    r ← on_machine (fork_set_vm (slot kf 0) (curtask s) c);
    if bool_decide (r < 0) then exit_task c ;; mret r
    else
      r ← on_machine (fork_files c);
      if bool_decide (r < 0) then exit_task c ;; mret r
      else if bool_decide (Z.land flags CLONE_VM ≠ 0) then panic
      else
        r ← on_machine (fork_pages fuel (curtask s) c);
        if bool_decide (r < 0) then
          on_machine (drop_mm fuel c) ;;
          exit_task c ;;
          mret r
        else
          schedule_add_task rq list_off c ;;
          k ← load_task c;
          pidmap_set (Sched.pid k) c ;;
          k ← load_task c;
          mret (Sched.pid k)) born in
  (∃ s', run = Ok (n, s') ∧ fork_done s s' Q kc g o l fds f c n) ∨
  (∃ s', run = Ok (- ENOMEM, s') ∧ fork_failed s s' Q g o) ∨
  given_up run (pair (- ENOMEM)) s Q g o mm l fds.
Proof.
  cbv zeta. pose proof (fw_ready _ _ _ _ _ _ _ _ W) as Hrd. pose proof child_not_cur as Hne.
  pose proof child_fresh as (_ & Hdom & _).
  set (r0 := set_frame c fr (rest born)).
  rewrite (bind_Ok _ _ _ _ _ (on_machine_run (modify (set_frame c fr)) born tt r0 eq_refl)).
  destruct (fork_set_vm_ok (curtask s) c r0 g o mm l (fw_mm _ _ _ _ _ _ _ _ W) (fw_fork _ _ _ _ _ _ _ _ W)
    (fw_kernel _ _ _ _ _ _ _ _ W)) as (v1 & r1 & R1 & A1 & A2 & A3 & A4 & Hc1).
  rewrite (bind_Ok _ _ _ _ _ (on_machine_run _ (set_rest r0 born) _ _ R1)).
  change (set_rest r1 (set_rest r0 born)) with (set_rest r1 born).
  destruct Hc1 as [(-> & Hm1 & Hmm1)|(-> & p & Hd & Hmm1)].
  { rewrite bool_decide_eq_true_2 by done. right. left. destruct (undo_child r1 (- ENOMEM)) as (s' & Hrun & Hs & Hr).
    exists s'. split; [exact Hrun|]. split; [done| | | |]; rewrite Hr.
    - by rewrite Hm1.
    - by rewrite A2.
    - intros t _. by rewrite Hmm1.
    - intros t Ht. rewrite A4. apply lookup_insert_ne. by intros <-. }
  rewrite (bool_decide_eq_false_2 (0 < 0)) by lia.
  destruct (fork_files_ok c r1 fds) as (v2 & r2 & R2 & B1 & B2 & B3 & B4 & B5 & Hc2); rewrite ?A2;
    [apply W|apply W|apply W|apply W|].
  rewrite (bind_Ok _ _ _ _ _ (on_machine_run _ (set_rest r1 born) _ _ R2)).
  change (set_rest r2 (set_rest r1 born)) with (set_rest r2 born).
  destruct Hc2 as [(-> & HF & HT)|(-> & t & av & Htab & Hdesc)].
  { rewrite bool_decide_eq_true_2 by done. right. left. destruct (undo_child r2 (- ENOMEM)) as (s' & Hrun & Hs & Hr).
    exists s'. split; [exact Hrun|]. split; [done| | | |]; rewrite Hr.
    - rewrite B2. by apply (new_directory_kept g o _ _ p).
    - by rewrite HF, HT, A2.
    - intros u Hu'. rewrite B3, Hmm1. apply lookup_insert_ne. by intros <-.
    - intros u Hu'. rewrite B4, A4. apply lookup_insert_ne. by intros <-. }
  rewrite (bool_decide_eq_false_2 (0 < 0)) by lia. rewrite (bool_decide_eq_false_2 (Z.land flags CLONE_VM ≠ 0)) by auto.
  destruct (fork_pages_ok (curtask s) c r2 g o p mm l (memory (rest s))) as (v3 & r3 & R3 & C1 & C2 & C3 & C4 & Hc3).
  { done. } { rewrite B3, Hmm1, lookup_insert_ne by auto. apply W. } { by rewrite B3, Hmm1, lookup_insert_eq. }
  { apply W. } { apply W. } { by rewrite B2. } { rewrite B1, A1. apply W. } { apply W. }
  rewrite (bind_Ok _ _ _ _ _ (on_machine_run _ (set_rest r2 born) _ _ R3)).
  change (set_rest r3 (set_rest r2 born)) with (set_rest r3 born).
  destruct Hc3 as [(-> & A & t' & Hmm' & Hh)|(-> & mm' & Hmm' & Hpgd' & Hfk & Har)].
  { rewrite bool_decide_eq_true_2 by done. right. right. apply (drop_child r3 p A t'); [done|done| | |].
    - exists t, av. by rewrite C1, Hdesc, A2.
    - intros u Hu'. rewrite C4, B3, Hmm1 by done. by apply lookup_insert_ne.
    - intros u Hu'. rewrite C3, B4, A4. by apply lookup_insert_ne. }
  rewrite (bool_decide_eq_false_2 (0 < 0)) by lia. left.
  destruct (finish_child r3) as (s' & Hrun & F1 & F2 & F3 & F4 & F5 & F6). exists s'. split; [exact Hrun|].
  split; rewrite ?F3, ?F4, ?F5, ?F6; try done.
  - split; [by apply not_elem_of_dom|]. split; [done|]. unfold in_use. by rewrite Hu.
  - split; [done|]. intros i Hi. unfold in_use. rewrite Hused by done. rewrite orb_true_iff, Z.eqb_eq. split; intros [?|?]; auto.
  - rewrite C3, B4, A4. apply lookup_insert_eq.
  - intros u Hu'. rewrite C3, B4, A4. by apply lookup_insert_ne.
  - exists p, mm'. by split_and!.
  - intros u Hu'. rewrite C4, B3, Hmm1 by done. by apply lookup_insert_ne.
  - exists t. rewrite C1, C2. split; [done|]. split; [|split; [done|]].
    + rewrite Hdesc. apply lookup_insert_eq.
    + exists av. by rewrite Hdesc, A2.
Qed.
End child.

Lemma do_fork_ok :
  let run := do_fork rq list_off (slot kf 0) fuel flags f s in
  (∃ n c s', run = Ok (n, s') ∧ fork_done s s' Q kc g o l fds f c n) ∨
  (∃ v s', run = Ok (v, s') ∧ (v = - ENOMEM ∨ v = - EMPROC) ∧ fork_failed s s' Q g o) ∨
  given_up run (pair (- ENOMEM)) s Q g o mm l fds.
Proof.
  cbv zeta. unfold do_fork. run_step. rewrite (bind_Ok _ _ _ _ _ (load_task_run _ _ _ (fw_cur _ _ _ _ _ _ _ _ W))).
  pose proof (alloc_task_run (Sched.pid kc) s (fw_pids _ _ _ _ _ _ _ _ W)) as Ha. cbv zeta in Ha.
  assert (Hfail : ∀ s', same_tasks s s' Q → rest s' = rest (took s) → fork_failed s s' Q g o).
  { intros s' Hs Hr. split; [done| | | |]; rewrite Hr; done. }
  case_decide as E0.
  { rewrite (bind_Ok _ _ _ _ _ Ha). right. left. exists (- ENOMEM), (took s). split; [reflexivity|].
    split; [by left|]. apply Hfail; [apply took_same|done]. }
  destruct Ha as (n & m & Hal & Hm & [(-> & -> & Ha)|(Hn & Hu & Hused & Ha)]); rewrite (bind_Ok _ _ _ _ _ Ha).
  { right. left. exists (- EMPROC). eexists. split; [reflexivity|]. split; [by right|]. apply Hfail; [|done].
    pose proof (failed_task (took s) Q (hd 0 (answers (rest s))) (Task (-1) 0 0 0 0 0)
      (fw_task _ _ _ _ _ _ _ _ W E0) (fw_pids _ _ _ _ _ _ _ _ W)) as Hs. destruct Hs. by split. }
  rewrite (bool_decide_eq_false_2 (0 < 0)) by lia.
  destruct (fork_child (hd 0 (answers (rest s))) n m eq_refl E0 Hm Hn Hu Hused) as [(s' & R & D)|[(s' & R & D)|R]].
  - left. eauto.
  - right. left. exists (- ENOMEM), s'. split; [exact R|]. split; [by left|done].
  - right. right. exact R.
Qed.
End whole.
End process.

(** C2: forking as a whole.  When [do_fork] returns a process id, that id was not in
    use; the child has it, is runnable with a full slice, knows its parent, stands at
    the end of the run queue and in the table of the tasks; it continues with the
    registers of the parent but 0 as the result; its address space shares every page
    of the parent's areas copy-on-write; it has a table with the same descriptors,
    an open file counted once more for each of them; nothing of the other tasks has changed.  When
    no task, id, directory or table of descriptors could be had the call answers
    -ENOMEM or -EMPROC, and the tasks, the queue, the ids, the open files and the
    memory of the parent are as before.  When the pages could not all be shared the
    unfinished address space is taken down by [exit_mm]: if that stops, so does the
    kernel; if it returns, which it does for areas that can be taken down in their
    order, the call answers -ENOMEM, the tasks, the queue, the ids and the registers
    are as before and the parent keeps its memory, but the open files stay counted
    once more for each descriptor of the parent.  CLONE_VM, which panics, is left aside. *)
Theorem do_fork_correct {H : Type} `{NewNodes H} (rq list_off kf : Z) (fuel : nat) (s : @sstate H machine)
    (Q : list Z) (kc : task_struct) (g o : Z) (mm : user_mm) (l : list vm_area_struct) (fds : list Z) (f : frame) (flags : Z) :
  fork_world rq list_off kf fuel s Q kc g o mm l fds → Z.land flags CLONE_VM = 0 →
  let run := do_fork rq list_off (slot kf 0) fuel flags f s in
  (∃ n c s', run = Ok (n, s') ∧ fork_done rq list_off s s' Q kc g o l fds f c n) ∨
  (∃ v s', run = Ok (v, s') ∧ (v = - ENOMEM ∨ v = - EMPROC) ∧ fork_failed rq list_off s s' Q g o) ∨
  given_up rq list_off fuel run (pair (- ENOMEM)) s Q g o mm l fds.
Proof. apply do_fork_ok. Qed.

(** ** An example: the task 0x1000 of the small machine forks *)

Definition fork_lists : lheap := list_to_map [(500, mk_list_head 0x1064 0x1064); (0x1064, mk_list_head 500 500)].
Definition fork_task : task_struct := Task 0 0 TASK_RUNNING 3 0 0.
Definition fork_pids : pidmap := match alloc_pidmap pidmap_init with Ok (_, m) => m | Stop _ => pidmap_init end.
Definition fork_machine : machine :=
  mk_machine small_mapped {[0x1000 := small_task]} demo_forking {[0x1000 := Files.cur demo_forking]} ∅ (slot 9 0)
    [0x2000; 0x3000] small_kmallocs.
Definition fork_start : @sstate lheap machine :=
  SState fork_lists {[0x1000 := fork_task]} 0x1000 {[0 := 0x1000]} fork_pids 0 fork_machine.
Definition fork_frame : frame := with_esp 0xBF7FF000 (with_eip 0x800020 (with_eax 2 fresh_frame)).

#[local] Opaque small_mm small_mapped.

Lemma fork_lists_rep : ll_rep fork_lists {[500 := [0x1064]]}.
Proof.
  split.
  - intros hd xs [<- <-]%lookup_singleton_Some. split; [by apply (bool_decide_unpack _); vm_compute|by vm_compute].
  - intros hd xs hd' xs' x [<- <-]%lookup_singleton_Some [<- <-]%lookup_singleton_Some. done.
Qed.

Lemma fork_fresh : fresh_task 500 100 fork_lists {[0x1000]} [0x1000] 0x2000.
Proof.
  split; [done|]. split; [apply not_elem_of_singleton; done|]. exists {[500 := [0x1064]]}.
  split; [exact fork_lists_rep|]. split; [reflexivity|].
  split; [intros t ->%elem_of_singleton; discriminate|]. split; [intros t ->%list_elem_of_singleton; set_solver|].
  split; [intros t Ht Hn; set_solver|]. intros hd xs [<- <-]%lookup_singleton_Some.
  apply (bool_decide_unpack _). vm_compute. exact I.
Qed.

Lemma fork_pids_ok : pid_inv fork_pids.
Proof.
  destruct (alloc_pidmap_ok pidmap_init pid_inv_init) as (r & m & Hrun & Hm & _). unfold fork_pids. by rewrite Hrun.
Qed.

Lemma fork_avail : avail_ok demo_forking (avail demo_forking).
Proof.
  split; [by apply (bool_decide_eq_true_1 _); vm_compute|]. intros a Ha _.
  apply list_elem_of_In in Ha as [<-|[<-|[]]]; split; vm_compute; reflexivity.
Qed.

(** The same task when there is no memory for another area. *)
Definition fork_short : @sstate lheap machine := set_rest (set_vma_answers [] fork_machine) fork_start.

Lemma small_plain va e pg :
  user_va va → mapped small_mapped 9 0 va = Some e → mempage small_mapped !! eframe e = Some pg →
  has_flag (Layout.flags pg) _pg_reserved = false.
Proof.
  intros Hv He Hpg. destruct (small_is_mapped va e Hv He) as [_ ->]. destruct small_frame_10 as (_ & _ & pg' & Hpg' & _ & Hf).
  assert (Ee : eframe (10 * PAGE_SIZE + 7) = 10) by (apply eframe_entry; unfold PAGE_SIZE; lia).
  rewrite Ee, Hpg' in Hpg. injection Hpg as <-. exact Hf.
Qed.

Lemma fork_start_world ks : good_kmallocs ks Leaf →
  fork_world 500 100 8 5 (set_rest (set_vma_answers ks fork_machine) fork_start) [0x1000] fork_task 9 0 small_task [small_vma]
    ([4096; 4096] ++ replicate 126 0).
Proof.
  intros Hks. split.
  - split; [split|reflexivity].
    + change (dom (tasks (set_rest (set_vma_answers ks fork_machine) fork_start))) with (dom ({[0x1000 := fork_task]} : gmap Z task_struct)). rewrite dom_singleton_L.
      apply (fresh_qrep 500 100 _ _ _ 0x2000), fork_fresh.
    + intros t ->%list_elem_of_singleton. split; [done|]. exists fork_task. split; [reflexivity|]. by repeat split.
  - reflexivity.
  - exact fork_pids_ok.
  - intros a _. change (dom (tasks (set_rest (set_vma_answers ks fork_machine) fork_start))) with (dom ({[0x1000 := fork_task]} : gmap Z task_struct)).
    rewrite dom_singleton_L. exact fork_fresh.
  - reflexivity.
  - reflexivity.
  - exact small_ready.
  - exact small_plain.
  - exact small_kernel.
  - exact Hks.
  - apply counted_avail, reachable_counted, demo_dup_reachable.
  - exact fork_avail.
  - vm_compute. reflexivity.
  - vm_compute. reflexivity.
  - simpl. lia.
Qed.

Lemma no_kmallocs : good_kmallocs [] Leaf.
Proof. split; [constructor|]. by intros k ?%elem_of_nil. Qed.

(** What a fork that was given up answers. *)
Lemma given_up_answer {H : Type} `{NewNodes H} {B : Type} rq list_off fuel (run : outcome B) ret (s : @sstate H machine)
    Q g o mm l fds :
  given_up rq list_off fuel run ret s Q g o mm l fds →
  (∃ s', run = Ok (ret s') ∧ fork_leaked rq list_off s s' Q fds) ∨ ∃ w, run = Stop w.
Proof.
  intros (p & A & m & t & _ & Hok & Hstop & _). destruct (exit_mm fuel (set_areas A (child_mm mm p)) m) as [[x m']|w].
  - destruct (Hok x m' eq_refl) as (s' & R & L & _). left. eauto.
  - right. eauto.
Qed.

(** The child of [fork_start], and the count of the open file after the failing fork of
    [fork_short]. *)
Lemma do_fork_correct_witness :
  (∃ c s', do_fork 500 100 (slot 8 0) 5 0 fork_frame fork_start = Ok (1, s') ∧
    fork_done 500 100 fork_start s' [0x1000] fork_task 9 0 [small_vma] ([4096; 4096] ++ replicate 126 0) fork_frame c 1) ∧
  (∃ s', do_fork 500 100 (slot 8 0) 5 0 fork_frame fork_short = Ok (- ENOMEM, s') ∧
    fork_leaked 500 100 fork_short s' [0x1000] ([4096; 4096] ++ replicate 126 0) ∧
    f_count <$> files (descriptors (rest fork_short)) !! 4096 = Some 2 ∧
    f_count <$> files (descriptors (rest s')) !! 4096 = Some 4).
Proof.
  split.
  - assert (E : match do_fork 500 100 (slot 8 0) 5 0 fork_frame fork_start with Ok (n, _) => n | Stop _ => -1 end = 1)
      by (vm_compute; reflexivity).
    destruct (do_fork_correct 500 100 8 5 fork_start [0x1000] fork_task 9 0 small_task [small_vma]
      ([4096; 4096] ++ replicate 126 0) fork_frame 0) as [(n & c & s' & R & D)|[(v & s' & R & Hv & _)|G]].
    + exact (fork_start_world _ small_kmallocs_ok).
    + reflexivity.
    + rewrite R in E. subst n. exists c, s'. split; [exact R|exact D].
    + exfalso. rewrite R in E. subst v. destruct Hv as [Hv|Hv]; vm_compute in Hv; discriminate Hv.
    + exfalso. apply given_up_answer in G as [(s' & R & _)|[w R]]; rewrite R in E; vm_compute in E; discriminate E.
  - assert (E : match do_fork 500 100 (slot 8 0) 5 0 fork_frame fork_short with
                | Ok (n, s') => (n, f_count <$> files (descriptors (rest s')) !! 4096) | Stop _ => (0, None) end = (- ENOMEM, Some 4))
      by (vm_compute; reflexivity).
    assert (E0 : f_count <$> files (descriptors (rest fork_short)) !! 4096 = Some 2) by (vm_compute; reflexivity).
    destruct (do_fork_correct 500 100 8 5 fork_short [0x1000] fork_task 9 0 small_task [small_vma]
      ([4096; 4096] ++ replicate 126 0) fork_frame 0) as [(n & c & s' & R & D)|[(v & s' & R & Hv & D)|G]].
    + exact (fork_start_world [] no_kmallocs).
    + reflexivity.
    + exfalso. rewrite R in E. injection E as -> _. destruct D as [[_ [[D _] _]] _ _ _ _ _ _ _ _ _ _]. vm_compute in D. by apply D.
    + exfalso. rewrite R in E. injection E as _ E. destruct D as [_ _ [D _] _ _]. rewrite D, E0 in E. discriminate E.
    + apply given_up_answer in G as [(s' & R & L)|[w R]]; rewrite R in E; [|discriminate E].
      exists s'. injection E as E. split; [exact R|]. split; [exact L|]. split; [exact E0|exact E].
Defined.
