(* ===== verification/Str.v ===== *)
(** * Strings and memory blocks: lib/string.c

    Memory is a map from addresses to bytes (0 to 255).  A [char] is signed where
    the code widens it; [gcc -m32] makes [long] 32 bits.  The string instructions
    [rep stosb/stosl/movsb/movsl] are the loops the manual gives for them. *)

From S2P Require Import Prelude.

Local Open Scope Z_scope.

Abbreviation bytes := (gmap Z Z).

Definition load8 (a : Z) : M bytes Z := m ← get; of_option (m !! a).
Definition store8 (a v : Z) : M bytes unit :=
  m ← get; of_option (m !! a) ;; put (<[a := u8 v]> m).

(** ** Scanning *)

Fixpoint strlen_loop (fuel : nat) (s n : Z) : M bytes Z :=
  match fuel with
  | O => stop_with OutOfFuel
  | S fuel =>
      c ← load8 s;
      if bool_decide (c = 0) then mret n else strlen_loop fuel (s + 1) (i32 (n + 1))
  end.

Definition strlen (fuel : nat) (s : Z) : M bytes Z := strlen_loop fuel s 0.

(** [size] counts the rounds. *)
Fixpoint strnlen_loop (size : nat) (s n : Z) : M bytes Z :=
  match size with
  | O => mret n
  | S size =>
      c ← load8 s;
      if bool_decide (c = 0) then mret n else strnlen_loop size (s + 1) (i32 (n + 1))
  end.

Definition strnlen (s size : Z) : M bytes Z := strnlen_loop (Z.to_nat size) s 0.

Fixpoint strcpy_loop (fuel : nat) (dst src : Z) : M bytes unit :=
  match fuel with
  | O => stop_with OutOfFuel
  | S fuel =>
      c ← load8 src;
      store8 dst c ;;
      if bool_decide (c = 0) then mret tt else strcpy_loop fuel (dst + 1) (src + 1)
  end.

Definition strcpy (fuel : nat) (dst src : Z) : M bytes Z := strcpy_loop fuel dst src ;; mret dst.

Definition strcat (fuel : nat) (dst src : Z) : M bytes Z :=
  len ← strlen fuel dst;
  strcpy fuel (dst + len) src ;;
  mret dst.

Fixpoint strncpy_loop (size : nat) (dst src : Z) : M bytes unit :=
  match size with
  | O => mret tt
  | S size =>
      c ← load8 src;
      store8 dst c ;;
      strncpy_loop size (dst + 1) (if bool_decide (c = 0) then src else src + 1)
  end.

Definition strncpy (dst src size : Z) : M bytes Z :=
  strncpy_loop (Z.to_nat size) dst src ;; mret dst.

(** The loop [while (--size > 0 && *src != 0)]; [n] is [size - 1]. *)
Fixpoint strlcpy_loop (n : nat) (dst src : Z) : M bytes Z :=
  match n with
  | O => mret dst
  | S n =>
      c ← load8 src;
      if bool_decide (c = 0) then mret dst
      else store8 dst c ;; strlcpy_loop n (dst + 1) (src + 1)
  end.

Definition strlcpy (dst src size : Z) : M bytes Z :=
  if bool_decide (0 < size) then
    e ← strlcpy_loop (pred (Z.to_nat size)) dst src;
    store8 e 0 ;;
    mret (e - dst)
  else mret 0.

Fixpoint strcmp (fuel : nat) (p q : Z) : M bytes Z :=
  match fuel with
  | O => stop_with OutOfFuel
  | S fuel =>
      a ← load8 p;
      b ← load8 q;
      if negb (bool_decide (a = 0)) && bool_decide (a = b) then strcmp fuel (p + 1) (q + 1)
      else mret (a - b)
  end.

Fixpoint strncmp_loop (n : nat) (p q : Z) : M bytes Z :=
  match n with
  | O => mret 0
  | S n =>
      a ← load8 p;
      b ← load8 q;
      if negb (bool_decide (a = 0)) && bool_decide (a = b) then strncmp_loop n (p + 1) (q + 1)
      else mret (a - b)
  end.

Definition strncmp (p q n : Z) : M bytes Z := strncmp_loop (Z.to_nat n) p q.

(** NULL is 0. *)
Fixpoint strchr (fuel : nat) (s c : Z) : M bytes Z :=
  match fuel with
  | O => stop_with OutOfFuel
  | S fuel =>
      a ← load8 s;
      if bool_decide (a = 0) then mret 0
      else if bool_decide (a = u8 c) then mret s else strchr fuel (s + 1) c
  end.

Fixpoint strfind (fuel : nat) (s c : Z) : M bytes Z :=
  match fuel with
  | O => stop_with OutOfFuel
  | S fuel =>
      a ← load8 s;
      if bool_decide (a = 0) then mret s
      else if bool_decide (a = u8 c) then mret s else strfind fuel (s + 1) c
  end.

(** ** Blocks *)

Fixpoint stosb (n : nat) (d c : Z) : M bytes unit :=
  match n with O => mret tt | S n => store8 d c ;; stosb n (d + 1) c end.

(** A 32-bit word, little endian. *)
Definition store32 (a v : Z) : M bytes unit :=
  store8 a v ;; store8 (a + 1) (Z.shiftr v 8) ;;
  store8 (a + 2) (Z.shiftr v 16) ;; store8 (a + 3) (Z.shiftr v 24).

Definition load32 (a : Z) : M bytes Z :=
  b0 ← load8 a; b1 ← load8 (a + 1); b2 ← load8 (a + 2); b3 ← load8 (a + 3);
  mret (b0 + 2 ^ 8 * b1 + 2 ^ 16 * b2 + 2 ^ 24 * b3).

Fixpoint stosl (n : nat) (d v : Z) : M bytes unit :=
  match n with O => mret tt | S n => store32 d v ;; stosl n (d + 4) v end.

Definition memset (v c n : Z) : M bytes Z :=
  if bool_decide (n = 0) then mret v
  else
    (if bool_decide (v mod 4 = 0) && bool_decide (n mod 4 = 0) then
       let c := Z.land c 0xFF in
       let w := Z.lor (Z.lor (Z.lor (Z.shiftl c 24) (Z.shiftl c 16)) (Z.shiftl c 8)) c in
       stosl (Z.to_nat (n / 4)) v w
     else stosb (Z.to_nat n) v c) ;;
    mret v.

(** [rep movsb] and [rep movsl] with a step of [w] bytes; [dir] is 1, or -1 with the
    direction flag set. *)
Fixpoint movs (n : nat) (w dir d s : Z) : M bytes unit :=
  match n with
  | O => mret tt
  | S n =>
      (if bool_decide (w = 4) then x ← load32 s; store32 d x else x ← load8 s; store8 d x) ;;
      movs n w dir (d + dir * w) (s + dir * w)
  end.

Definition memmove (dst src n : Z) : M bytes Z :=
  let s := src in
  let d := dst in
  (if bool_decide (s < d) && bool_decide (d < s + n) then
     let s := s + n in
     let d := d + n in
     if bool_decide (s mod 4 = 0) && bool_decide (d mod 4 = 0) && bool_decide (n mod 4 = 0)
     then movs (Z.to_nat (n / 4)) 4 (-1) (d - 4) (s - 4)
     else movs (Z.to_nat n) 1 (-1) (d - 1) (s - 1)
   else
     if bool_decide (s mod 4 = 0) && bool_decide (d mod 4 = 0) && bool_decide (n mod 4 = 0)
     then movs (Z.to_nat (n / 4)) 4 1 d s
     else movs (Z.to_nat n) 1 1 d s) ;;
  mret dst.

Definition memcpy (dst src n : Z) : M bytes Z := memmove dst src n.

Fixpoint memcmp_loop (n : nat) (s1 s2 : Z) : M bytes Z :=
  match n with
  | O => mret 0
  | S n =>
      a ← load8 s1;
      b ← load8 s2;
      if bool_decide (a ≠ b) then mret (a - b) else memcmp_loop n (s1 + 1) (s2 + 1)
  end.

Definition memcmp (v1 v2 n : Z) : M bytes Z := memcmp_loop (Z.to_nat n) v1 v2.

Fixpoint memfind_loop (n : nat) (s c : Z) : M bytes Z :=
  match n with
  | O => mret s
  | S n => a ← load8 s; if bool_decide (a = u8 c) then mret s else memfind_loop n (s + 1) c
  end.

Definition memfind (s c n : Z) : M bytes Z := memfind_loop (Z.to_nat n) s c.

(** ** Numbers *)

Definition is_blank (c : Z) : bool := bool_decide (c = 32) || bool_decide (c = 9).

Fixpoint skip_blanks (fuel : nat) (s : Z) : M bytes Z :=
  match fuel with
  | O => stop_with OutOfFuel
  | S fuel => c ← load8 s; if is_blank c then skip_blanks fuel (s + 1) else mret s
  end.

(** The value of a digit character, if it is one. *)
Definition digit (c : Z) : option Z :=
  if bool_decide (48 ≤ c ≤ 57) then Some (c - 48)
  else if bool_decide (97 ≤ c ≤ 122) then Some (c - 97 + 10)
  else if bool_decide (65 ≤ c ≤ 90) then Some (c - 65 + 10)
  else None.

Fixpoint strtol_digits (fuel : nat) (s base val : Z) : M bytes (Z * Z) :=
  match fuel with
  | O => stop_with OutOfFuel
  | S fuel =>
      c ← load8 s;
      match digit (i8 c) with
      | None => mret (s, val)
      | Some dig =>
          if bool_decide (base ≤ dig) then mret (s, val)
          else strtol_digits fuel (s + 1) base (i32 (i32 (val * base) + dig))
      end
  end.

(** The value and [*endptr]. *)
Definition strtol (fuel : nat) (s base : Z) : M bytes (Z * Z) :=
  s ← skip_blanks fuel s;
  c ← load8 s;
  let '(s, neg) := (if bool_decide (c = 43) then (s + 1, false)
                    else if bool_decide (c = 45) then (s + 1, true) else (s, false)) in
  c0 ← load8 s;
  sb ← (if bool_decide (c0 = 48) then
          if bool_decide (base = 0) || bool_decide (base = 16) then
            c1 ← load8 (s + 1);
            if bool_decide (c1 = 120) then mret (s + 2, 16)
            else if bool_decide (base = 0) then mret (s + 1, 8) else mret (s, base)
          else mret (s, base)
        else if bool_decide (base = 0) then mret (s, 10) else mret (s, base));
  let '(s, base) := (sb : Z * Z) in
  r ← strtol_digits fuel s base 0;
  let '(e, val) := (r : Z * Z) in
  mret (if neg : bool then i32 (- val) else val, e).
