(* ===== verification/SysLib.v ===== *)
(** * The stubs of the C library: lib/syscall.c and the functions that only trap

    A call of the kernel is the instruction [int 0x80] with its number in eax and its
    arguments in edx, ecx, ebx, edi and esi; a stub is the function from the registers
    before it to those the kernel finds. *)

From S2P Require Import Prelude Str Process.

Local Open Scope Z_scope.

Definition SYS_CPUTS : Z := 0.
Definition SYS_EXIT : Z := 1.
Definition SYS_EXOFORK : Z := 2.
Definition SYS_GETPID : Z := 3.
Definition SYS_BRK : Z := 4.
Definition SYS_READ : Z := 5.
Definition SYS_OPEN : Z := 6.
Definition SYS_CREATE : Z := 7.
Definition SYS_CLOSE : Z := 8.
Definition SYS_MKDIR : Z := 9.
Definition SYS_WRITE : Z := 10.
Definition SYS_DUP : Z := 11.
Definition SYS_DUP2 : Z := 12.
Definition SYS_PIPE : Z := 13.
Definition SYS_WAIT : Z := 14.
Definition SYS_EXEC : Z := 15.
Definition SYS_FDTYPE : Z := 16.

Definition syscall (num a1 a2 a3 a4 a5 : Z) (r : pushregs) : pushregs :=
  mk_regs (u32 a4) (u32 a5) (reg_ebp r) (reg_oesp r) (u32 a3) (u32 a1) (u32 a2) (u32 num).

Definition sys_cputs (s len : Z) : pushregs → pushregs := syscall SYS_CPUTS s len 0 0 0.
Definition sys_execve (filename argv : Z) : pushregs → pushregs := syscall SYS_EXEC filename argv 0 0 0.
Definition sys_exit (pid : Z) : pushregs → pushregs := syscall SYS_EXIT pid 0 0 0 0.
Definition sys_dup2 (oldfd newfd : Z) : pushregs → pushregs := syscall SYS_DUP2 oldfd newfd 0 0 0.
Definition sys_fdtype (fd : Z) : pushregs → pushregs := syscall SYS_FDTYPE fd 0 0 0 0.
Definition sys_getpid : pushregs → pushregs := syscall SYS_GETPID 0 0 0 0 0.
Definition sys_wait (pid : Z) : pushregs → pushregs := syscall SYS_WAIT pid 0 0 0 0.
Definition sys_clone (flag fn : Z) : pushregs → pushregs := syscall SYS_EXOFORK flag fn 0 0 0.
Definition sys_brk (end_data_segment : Z) : pushregs → pushregs := syscall SYS_BRK end_data_segment 0 0 0 0.
Definition sys_read (fd buf count : Z) : pushregs → pushregs := syscall SYS_READ fd buf count 0 0.
Definition sys_dup (fd : Z) : pushregs → pushregs := syscall SYS_DUP fd 0 0 0 0.
Definition sys_open (filename len flags mode : Z) : pushregs → pushregs := syscall SYS_OPEN filename len flags mode 0.
Definition sys_close (fd : Z) : pushregs → pushregs := syscall SYS_CLOSE fd 0 0 0 0.
Definition sys_pipe (fd flags : Z) : pushregs → pushregs := syscall SYS_PIPE fd flags 0 0 0.
Definition sys_create (filename len mode : Z) : pushregs → pushregs := syscall SYS_CREATE filename len mode 0 0.
Definition sys_mkdir (filename len mode : Z) : pushregs → pushregs := syscall SYS_MKDIR filename len mode 0 0.
Definition sys_write (fd buf count : Z) : pushregs → pushregs := syscall SYS_WRITE fd buf count 0 0.

(** lib/fork.c and lib/exit.c. *)
Definition lib_fork : pushregs → pushregs := sys_clone 0 0.
Definition lib_exit : pushregs → pushregs := sys_exit 0.

(** lib/open.c, lib/create.c and lib/mkdir.c, on the memory of the program. *)
Definition lib_open (fuel : nat) (filename flags mode : Z) : M bytes (pushregs → pushregs) :=
  len ← strlen fuel filename; mret (sys_open filename len flags mode).
Definition lib_create (fuel : nat) (filename mode : Z) : M bytes (pushregs → pushregs) :=
  len ← strlen fuel filename; mret (sys_create filename len mode).
Definition lib_mkdir (fuel : nat) (filename mode : Z) : M bytes (pushregs → pushregs) :=
  len ← strlen fuel filename; mret (sys_mkdir filename len mode).
