(* ===== verification/Syscall.v ===== *)
(** * Traps and system calls: kernel/trap/trap.c and kernel/trap/syscall.c

    [trap] saves the registers of the current task, calls the handler of the trap and
    goes back to a task through the scheduler.  The functions that syscall.c declares
    as external are the fields of [kernel]; [machine_kernel] fills in those that the
    other files model on the same state.  [print_frame] and [panicstr], which only a
    panic sets, are left out. *)

From S2P Require Import Prelude KList Pidmap Layout Paging Vma Fault Fork Exec SysLib Files Sched Process.

Local Open Scope Z_scope.

Definition T_DIVIDE : Z := 0.
Definition T_BRKPT : Z := 3.
Definition T_GPFLT : Z := 13.
Definition T_PGFLT : Z := 14.
Definition T_SYSCALL : Z := 128.
Definition IRQ_TIMER : Z := 32.
Definition IRQ_KBD : Z := 33.
Definition IRQ_SERIAL : Z := 36.
Definition IRQ_SPURIOUS : Z := 39.
Definition IRQ_IDE : Z := 46.
Definition IRQ_ERROR : Z := 51.
Definition CLONE_THREAD : Z := 32.

Section syscall.
Context {H : Type} `{NewNodes H} (rq list_off kpgd : Z) (fuel : nat).

Local Abbreviation state := (@sstate H machine).

(** What other files give; [k_print] is [printk("%.*s", len, s)]. *)
Record kernel := mk_kernel {
  k_print : Z → Z → M state unit;
  k_exit : Z → M state flow;
  k_fork : Z → frame → M state flow;
  k_brk : Z → M state flow;
  k_read : Z → Z → Z → M state flow;
  k_write : Z → Z → Z → M state flow;
  k_open : Z → Z → Z → Z → M state flow;
  k_create : Z → Z → Z → M state flow;
  k_mkdir : Z → Z → Z → M state flow;
  k_dup : Z → M state flow;
  k_dup2 : Z → Z → M state flow;
  k_pipe : Z → Z → M state flow;
  k_close : Z → M state unit;
  k_wait : Z → M state flow;
  k_execve : Z → Z → M state flow;
  k_fdtype : Z → M state flow;
  k_keyboard : M state unit }.

Context (K : kernel).

(** [f] returned, and the processor goes back to a task. *)
Definition then_schedule (f : flow) : M state flow :=
  match f with
  | Resumed => mret Resumed
  | Return _ => schedule rq list_off ;; mret Resumed
  end.

(** ** kernel/trap/syscall.c *)

(** [exit] and the result -EFAULT when the check fails. *)
Definition user_mem_assert (task va len perm : Z) : M state flow :=
  mm ← on_machine (get_mm task);
  r ← on_machine (in_memory (user_mem_check (mm_pgd mm) va len (Z.lor perm _PAGE_USER)));
  if bool_decide (r < 0) then
    f ← k_exit K task;
    match (f : flow) with Resumed => mret Resumed | Return _ => mret (Return (- EFAULT)) end
  else mret (Return 0).

Definition sys_cputs (s len : Z) : M state flow :=
  x ← get;
  f ← user_mem_assert (curtask x) s len _PAGE_USER;
  match (f : flow) with
  | Resumed => mret Resumed
  | Return r => (if bool_decide (r = 0) then k_print K len s else mret tt) ;; mret (Return 0)
  end.

Definition sys_exit (pid : Z) : M state flow :=
  r ← pid2task pid true;
  let '(retval, task) := (r : Z * Z) in
  if bool_decide (retval < 0) then mret (Return retval)
  else f ← k_exit K task; then_schedule f.

Definition sys_clone (flag fn : Z) : M state flow :=
  s ← get;
  fra ← of_option (frame_of (rest s) !! curtask s);
  k_fork K flag (if bool_decide (Z.land flag CLONE_THREAD ≠ 0) then with_eip fn fra else fra).

Definition sys_getpid : M state flow :=
  s ← get;
  t ← load_task (curtask s);
  mret (Return (Sched.pid t)).

(** [SYS_EXIT] panics when [sys_exit] comes back, and [SYS_CLOSE] runs into
    [SYS_WAIT]. *)
Definition syscall (syscallno a1 a2 a3 a4 a5 : Z) : M state flow :=
  if bool_decide (syscallno = SYS_CPUTS) then sys_cputs a1 a2
  else if bool_decide (syscallno = SYS_EXIT) then
    f ← sys_exit (i32 a1);
    match (f : flow) with Resumed => mret Resumed | Return _ => panic end
  else if bool_decide (syscallno = SYS_EXOFORK) then sys_clone (i32 a1) a2
  else if bool_decide (syscallno = SYS_GETPID) then sys_getpid
  else if bool_decide (syscallno = SYS_BRK) then k_brk K a1
  else if bool_decide (syscallno = SYS_READ) then k_read K a1 a2 (i32 a3)
  else if bool_decide (syscallno = SYS_WRITE) then k_write K (u32 (i32 a1)) a2 (i32 a3)
  else if bool_decide (syscallno = SYS_OPEN) then k_open K a1 (i32 a2) (i32 a3) (i32 a4)
  else if bool_decide (syscallno = SYS_CREATE) then k_create K a1 (i32 a2) (i32 a3)
  else if bool_decide (syscallno = SYS_MKDIR) then k_mkdir K a1 (i32 a2) (i32 a3)
  else if bool_decide (syscallno = SYS_DUP) then k_dup K (i32 a1)
  else if bool_decide (syscallno = SYS_DUP2) then k_dup2 K (i32 a1) (i32 a2)
  else if bool_decide (syscallno = SYS_PIPE) then k_pipe K a1 (i32 a2)
  else if bool_decide (syscallno = SYS_CLOSE) then k_close K (i32 a1) ;; k_wait K (i32 a1)
  else if bool_decide (syscallno = SYS_WAIT) then k_wait K (i32 a1)
  else if bool_decide (syscallno = SYS_EXEC) then k_execve K a1 a2
  else if bool_decide (syscallno = SYS_FDTYPE) then k_fdtype K (i32 a1)
  else mret (Return (- EINVAL)).

(** [tf] points to the frame of the task [cur]. *)
Definition syscall_handler (cur : Z) : M state flow :=
  s ← get;
  tf ← of_option (frame_of (rest s) !! cur);
  let regs := tf_regs tf in
  f ← syscall (reg_eax regs) (reg_edx regs) (reg_ecx regs) (reg_ebx regs) (reg_edi regs) (reg_esi regs);
  match (f : flow) with
  | Resumed => mret Resumed
  | Return i =>
      s ← get;
      tf ← of_option (frame_of (rest s) !! cur);
      on_machine (modify (set_frame cur (with_eax (u32 i) tf))) ;;
      mret (Return 0)
  end.

(** ** kernel/trap/trap.c *)

(** The handlers that end the current task. *)
Definition exit_current (cur : Z) : M state flow := f ← k_exit K cur; then_schedule f.

(** [page_fault_handler] of page_fault.c for the address [cr2]. *)
Definition page_fault (cur cr2 : Z) : M state flow :=
  mm ← on_machine (get_mm cur);
  s ← get;
  tf ← of_option (frame_of (rest s) !! cur);
  x ← lift (page_fault_handler fuel (mm_pgd mm) cr2 (tf_err tf) (mk_user (mm_areas mm) (memory (rest s))));
  let '(e, u) := (x : fault_end * user_space) in
  on_machine (modify (set_memory (tables u))) ;;
  on_machine (modify (set_mm cur (Some (set_areas (areas_of u) mm)))) ;;
  match e with Resumes => mret (Return 0) | Killed => exit_current cur end.

Definition trap_dispatch (cur cr2 : Z) : M state flow :=
  s ← get;
  tf ← of_option (frame_of (rest s) !! cur);
  let no := tf_trapno tf in
  if bool_decide (no = T_PGFLT) then page_fault cur cr2
  else if bool_decide (no = T_BRKPT) then panic
  else if bool_decide (no = T_SYSCALL) then syscall_handler cur
  else if bool_decide (no = T_GPFLT) then exit_current cur
  else if bool_decide (no = T_DIVIDE) then exit_current cur
  else if bool_decide (no = IRQ_SPURIOUS) then mret (Return 0)
  else if bool_decide (no = IRQ_TIMER) then timer_handler rq list_off ;; mret (Return 0)
  else if bool_decide (no = IRQ_KBD) then k_keyboard K ;; mret (Return 0)
  else if bool_decide (no = IRQ_SERIAL) then mret (Return 0)
  else if bool_decide (no = IRQ_IDE) then mret (Return 0)
  else if bool_decide (no = IRQ_ERROR) then mret (Return 0)
  else panic.

Definition trap (cr2 : Z) (tf : frame) : M state flow :=
  if bool_decide (Z.land (tf_cs tf) 3 = 3) then
    s ← get;
    assert (bool_decide (curtask s ≠ 0)) ;;
    on_machine (modify (set_frame (curtask s) tf)) ;;
    f ← trap_dispatch (curtask s) cr2;
    then_schedule f
  else panic.

(** The calls that the other files model on this state; the rest is [io]. *)
Definition machine_kernel (io : kernel) : kernel :=
  let value (m : M state Z) : M state flow := r ← m; mret (Return r) in
  mk_kernel (k_print io)
    (task_exit rq list_off kpgd fuel)
    (λ flag f, value (do_fork rq list_off kpgd fuel flag f))
    (k_brk io) (k_read io) (k_write io) (k_open io) (k_create io) (k_mkdir io)
    (λ fd, value (on_machine (in_descriptors (dup fd))))
    (λ oldfd newfd, value (on_machine (in_descriptors (dup2 oldfd newfd))))
    (k_pipe io)
    (λ fd, on_machine (in_descriptors (close fd)))
    (wait rq list_off)
    (k_execve io) (k_fdtype io) (k_keyboard io).
End syscall.
