(* ===== verification/SyscallProofs.v ===== *)
(** * Correctness of system calls

    What a program asks of the library is what the kernel does, and its answer is what
    the program gets back; [close], whose case runs into the next one, is the
    exception. *)

From S2P Require Import Prelude KList Pidmap Layout Buddy BuddyProofs Paging PagingProofs Vma VmaProofs Fault FaultProofs Fork ForkProofs Exec SysLib Files FilesProofs Sched SchedProofs Process ProcessProofs Syscall.

Local Open Scope Z_scope.

(** ** Requests *)

(** The calls of lib/syscall.c with their arguments. *)
Inductive request :=
| Cputs (s len : Z)
| Exit (pid : Z)
| Clone (flag fn : Z)
| Getpid
| Brk (addr : Z)
| Read (fd buf count : Z)
| Write (fd buf count : Z)
| Open (filename len flags mode : Z)
| Create (filename len mode : Z)
| Mkdir (filename len mode : Z)
| Dup (fd : Z)
| Dup2 (oldfd newfd : Z)
| Pipe (fd flags : Z)
| Close (fd : Z)
| Wait (pid : Z)
| Exec (filename argv : Z)
| Fdtype (fd : Z).

Definition int (x : Z) : Prop := - 2 ^ 31 ≤ x < 2 ^ 31.
Definition uint (x : Z) : Prop := 0 ≤ x < 2 ^ 32.

(** The arguments have the types of the C prototypes. *)
Definition typed (q : request) : Prop :=
  match q with
  | Cputs s len => uint s ∧ uint len
  | Exit pid | Wait pid => int pid
  | Clone flag fn => int flag ∧ uint fn
  | Getpid => True
  | Brk a => uint a
  | Read fd buf n => uint fd ∧ uint buf ∧ int n
  | Write fd buf n => int fd ∧ uint buf ∧ int n
  | Open f len flags mode => uint f ∧ int len ∧ int flags ∧ int mode
  | Create f len mode | Mkdir f len mode => uint f ∧ int len ∧ int mode
  | Dup fd | Close fd | Fdtype fd => int fd
  | Dup2 a b => int a ∧ int b
  | Pipe a flags => uint a ∧ int flags
  | Exec f a => uint f ∧ uint a
  end.

(** What the library makes of it. *)
Definition stub (q : request) : pushregs → pushregs :=
  match q with
  | Cputs s len => SysLib.sys_cputs s len
  | Exit pid => SysLib.sys_exit pid
  | Clone flag fn => SysLib.sys_clone flag fn
  | Getpid => SysLib.sys_getpid
  | Brk a => SysLib.sys_brk a
  | Read fd buf n => SysLib.sys_read fd buf n
  | Write fd buf n => SysLib.sys_write fd buf n
  | Open f len flags mode => SysLib.sys_open f len flags mode
  | Create f len mode => SysLib.sys_create f len mode
  | Mkdir f len mode => SysLib.sys_mkdir f len mode
  | Dup fd => SysLib.sys_dup fd
  | Dup2 a b => SysLib.sys_dup2 a b
  | Pipe a flags => SysLib.sys_pipe a flags
  | Close fd => SysLib.sys_close fd
  | Wait pid => SysLib.sys_wait pid
  | Exec f a => SysLib.sys_execve f a
  | Fdtype fd => SysLib.sys_fdtype fd
  end.

Section syscall.
Context {H : Type} `{NewNodes H} (rq list_off kpgd : Z) (fuel : nat).

Local Abbreviation state := (@sstate H machine).
Local Abbreviation trap := (Syscall.trap rq list_off fuel).

Context (K : @kernel H).

(** What the kernel is to do: its function with these arguments.  [close] of the library
    has no result; a call of [Exit] is not to come back. *)
Definition handler (q : request) : M state flow :=
  match q with
  | Cputs s len => Syscall.sys_cputs K s len
  | Exit pid =>
      f ← Syscall.sys_exit rq list_off K pid;
      match (f : flow) with Resumed => mret Resumed | Return _ => panic end
  | Clone flag fn => Syscall.sys_clone K flag fn
  | Getpid => Syscall.sys_getpid
  | Brk a => k_brk K a
  | Read fd buf n => k_read K fd buf n
  | Write fd buf n => k_write K (u32 fd) buf n
  | Open f len flags mode => k_open K f len flags mode
  | Create f len mode => k_create K f len mode
  | Mkdir f len mode => k_mkdir K f len mode
  | Dup fd => k_dup K fd
  | Dup2 a b => k_dup2 K a b
  | Pipe a flags => k_pipe K a flags
  | Close fd => k_close K fd ;; mret (Return 0)
  | Wait pid => k_wait K pid
  | Exec f a => k_execve K f a
  | Fdtype fd => k_fdtype K fd
  end.

Definition is_close (q : request) : Prop := match q with Close _ => True | _ => False end.

(** The registers of the current task are saved. *)
Definition saved (tf : frame) (s : state) : state := set_rest (set_frame (curtask s) tf (rest s)) s.

(** The task [cur] gets the answer [v]. *)
Definition deliver (cur v : Z) : M state flow :=
  s ← get;
  tf ← of_option (frame_of (rest s) !! cur);
  on_machine (modify (set_frame cur (with_eax (u32 v) tf))) ;;
  schedule rq list_off ;;
  mret Resumed.

(** A trap of a program with the registers [stub q r]. *)
Definition asks (tf : frame) (q : request) (r : pushregs) : Prop :=
  Z.land (tf_cs tf) 3 = 3 ∧ tf_trapno tf = T_SYSCALL ∧ tf_regs tf = stub q r.

Lemma syscall_handler_of q r :
  typed q → ¬ is_close q →
  let g := stub q r in
  Syscall.syscall rq list_off K (reg_eax g) (reg_edx g) (reg_ecx g) (reg_ebx g) (reg_edi g) (reg_esi g) = handler q.
Proof.
  intros Ht Hq. destruct q; cbn [typed] in Ht; try (by destruct Hq; exact I); unfold int, uint in Ht; destruct_and?; cbv zeta;
    cbn [stub SysLib.sys_cputs SysLib.sys_exit SysLib.sys_clone SysLib.sys_getpid SysLib.sys_brk SysLib.sys_read
      SysLib.sys_write SysLib.sys_open SysLib.sys_create SysLib.sys_mkdir SysLib.sys_dup SysLib.sys_dup2
      SysLib.sys_pipe SysLib.sys_close SysLib.sys_wait SysLib.sys_execve SysLib.sys_fdtype SysLib.syscall
      reg_eax reg_edx reg_ecx reg_ebx reg_edi reg_esi];
    rewrite ?i32_u32; unfold Syscall.syscall;
    repeat first [rewrite bool_decide_eq_false_2 by discriminate | rewrite bool_decide_eq_true_2 by reflexivity];
    cbn [handler]; rewrite ?i32_u32, ?i32_small by (assumption || lia);
    repeat match goal with |- context [u32 ?x] => rewrite (u32_small x) by lia end; reflexivity.
Qed.

(** A trap runs what [syscall] makes of the registers. *)
Lemma trap_runs (m : M state flow) cr2 tf q r s :
  asks tf q r → curtask s ≠ 0 →
  (let g := stub q r in
   Syscall.syscall rq list_off K (reg_eax g) (reg_edx g) (reg_ecx g) (reg_ebx g) (reg_edi g) (reg_esi g) = m) →
  trap K cr2 tf s =
    (f ← m;
     match (f : flow) with Resumed => mret Resumed | Return v => deliver (curtask s) v end) (saved tf s).
Proof.
  intros (Hcs & Hno & Hrg) Hc Hm. unfold Syscall.trap. rewrite bool_decide_eq_true_2 by done. run_step.
  rewrite bool_decide_eq_true_2 by done. run_step.
  rewrite (bind_Ok _ _ _ _ _ (on_machine_run (modify (set_frame (curtask s) tf)) s tt _ eq_refl)). fold (saved tf s).
  assert (Hf : frame_of (rest (saved tf s)) !! curtask s = Some tf) by apply lookup_insert_eq.
  unfold trap_dispatch. rewrite bind_assoc. run_step. rewrite bind_assoc.
  rewrite (bind_Ok _ _ _ _ _ (of_option_Some _ _ _ Hf)). rewrite Hno.
  change (bool_decide (T_SYSCALL = T_PGFLT)) with false. change (bool_decide (T_SYSCALL = T_BRKPT)) with false.
  change (bool_decide (T_SYSCALL = T_SYSCALL)) with true. cbv iota.
  unfold syscall_handler. rewrite bind_assoc. run_step. rewrite bind_assoc.
  rewrite (bind_Ok _ _ _ _ _ (of_option_Some _ _ _ Hf)). cbv zeta in Hm |- *. rewrite Hrg, Hm.
  rewrite bind_assoc. unfold mbind, M_bind. destruct (m (saved tf s)) as [[f s1]|w]; [|done].
  destruct f as [v|]; [|done]. unfold deliver, get, mbind, M_bind.
  by destruct (of_option (frame_of (rest s1) !! curtask s) s1) as [[tf1 s2]|w] eqn:E.
Qed.

Lemma trap_asks cr2 tf q r s :
  typed q → ¬ is_close q → asks tf q r → curtask s ≠ 0 →
  trap K cr2 tf s =
    (f ← handler q;
     match (f : flow) with Resumed => mret Resumed | Return v => deliver (curtask s) v end) (saved tf s).
Proof. intros Ht Hq Ha Hc. apply (trap_runs _ cr2 tf q r); [done|done|by apply syscall_handler_of]. Qed.
End syscall.

(** ** The scheduler leaves the registers alone *)

Section keeping.
Context {H : Type} `{NewNodes H} (rq list_off : Z).

Local Abbreviation state := (@sstate H machine).

Definition keeps_rest {A} (m : M state A) : Prop := ∀ s a s', m s = Ok (a, s') → rest s' = rest s.

Lemma rest_bind {A B} (m : M state A) (f : A → M state B) :
  keeps_rest m → (∀ a, keeps_rest (f a)) → keeps_rest (m ≫= f).
Proof.
  intros Hm Hf s b s' (a & s1 & E1 & E2)%bind_Ok_inv. rewrite (Hf a s1 b s' E2). by apply (Hm s a).
Qed.

Lemma rest_ret {A} (a : A) : keeps_rest (mret a).
Proof. by intros s b s' [= _ ->]. Qed.

Lemma rest_get : keeps_rest (get (S := state)).
Proof. by intros s b s' [= _ ->]. Qed.

Lemma rest_stop {A} w : keeps_rest (@stop_with state A w).
Proof. by intros s a s' E. Qed.

Lemma rest_modify (f : state → state) : (∀ s, rest (f s) = rest s) → keeps_rest (modify f).
Proof. intros Hf s a s' [= _ <-]. apply Hf. Qed.

Lemma rest_load t : keeps_rest (load_task t).
Proof.
  apply rest_bind; [apply rest_get|]. intros x s a s'. unfold of_option.
  destruct (tasks x !! t); [apply rest_ret|apply rest_stop].
Qed.

Lemma rest_edit t g : keeps_rest (edit_task t g).
Proof. apply rest_bind; [apply rest_load|]. intros k. by apply rest_modify. Qed.

Lemma rest_lists {A} (m : M H A) : keeps_rest (on_lists m).
Proof. intros s a s'. unfold on_lists. destruct (m (lists s)) as [[? ?]|]; [|done]. by intros [= _ <-]. Qed.
End keeping.

Create HintDb keeps.
#[export] Hint Resolve rest_bind rest_ret rest_get rest_stop rest_load rest_edit rest_lists : keeps.

Lemma schedule_keeps {H : Type} `{NewNodes H} rq list_off : keeps_rest (schedule (H := H) rq list_off).
Proof.
  unfold schedule, get_next, task_run, panic.
  repeat match goal with
  | |- keeps_rest (_ ≫= _) => apply rest_bind
  | |- keeps_rest (if ?b then _ else _) => destruct b
  | |- keeps_rest (modify _) => by apply rest_modify
  | |- keeps_rest _ => solve [eauto with keeps]
  | |- ∀ _, _ => intros ?
  end.
Qed.

Lemma deliver_eax {H : Type} `{NewNodes H} rq list_off cur v (s : @sstate H machine) f s' :
  deliver rq list_off cur v s = Ok (f, s') →
  ∃ tf, frame_of (rest s) !! cur = Some tf ∧ rest s' = set_frame cur (with_eax (u32 v) tf) (rest s).
Proof.
  unfold deliver. intros (x & s1 & [= <- <-] & (tf & s2 & E2 & (u & s3 & E3 & (u' & s4 & E4 & E5)%bind_Ok_inv)%bind_Ok_inv)%bind_Ok_inv)%bind_Ok_inv.
  injection E5 as _ <-. unfold of_option in E2. destruct (frame_of (rest s) !! cur) as [tf1|]; [|discriminate E2].
  injection E2 as -> ->. exists tf. split; [done|]. rewrite (schedule_keeps rq list_off _ _ _ E4). by injection E3 as _ <-.
Qed.

(** ** The calls *)

(** C23: system calls from end to end.  For every call of lib/syscall.c but [close],
    with arguments of the types of its prototype, the trap it makes runs the kernel's
    function for that call with exactly those arguments, on the state in which the
    registers are saved (for [exit] the kernel panics if that function comes back).
    When the function returns a value and the task is resumed, the program finds that
    value in eax and every other register as the function left it saved; when the
    function gives the processor away, the saved registers are left alone. *)
Theorem library_calls_arrive {H : Type} `{NewNodes H} (rq list_off : Z) (fuel : nat) (K : @kernel H) (cr2 : Z)
    (tf : frame) (q : request) (r : pushregs) (s : @sstate H machine) :
  typed q → ¬ is_close q → asks tf q r → curtask s ≠ 0 →
  let trap := Syscall.trap rq list_off fuel K cr2 tf s in
  match handler rq list_off K q (saved tf s) with
  | Stop w => trap = Stop w
  | Ok (Resumed, s1) => trap = Ok (Resumed, s1)
  | Ok (Return v, s1) =>
      trap = deliver rq list_off (curtask s) v s1 ∧
      ∀ f s', trap = Ok (f, s') → ∃ tf1, frame_of (rest s1) !! curtask s = Some tf1 ∧
        rest s' = set_frame (curtask s) (with_eax (u32 v) tf1) (rest s1)
  end.
Proof.
  intros Ht Hq Ha Hc. cbv zeta. rewrite (trap_asks rq list_off fuel K cr2 tf q r s Ht Hq Ha Hc).
  unfold mbind, M_bind. destruct (handler rq list_off K q (saved tf s)) as [[[v|] s1]|w].
  - split; [reflexivity|]. intros f s'. apply deliver_eax.
  - reflexivity.
  - reflexivity.
Qed.

(** [close] goes on to wait for the task whose id is the descriptor, since its case of
    the switch has no end: the program finds what [wait] answers, or sleeps. *)
Theorem close_call_waits {H : Type} `{NewNodes H} (rq list_off : Z) (fuel : nat) (K : @kernel H) (cr2 : Z)
    (tf : frame) (fd : Z) (r : pushregs) (s : @sstate H machine) :
  int fd → asks tf (Close fd) r → curtask s ≠ 0 →
  Syscall.trap rq list_off fuel K cr2 tf s =
    (f ← (k_close K fd ;; k_wait K fd);
     match (f : flow) with Resumed => mret Resumed | Return v => deliver rq list_off (curtask s) v end) (saved tf s).
Proof.
  intros Hi Ha Hc. apply (trap_runs _ _ _ _ _ _ _ (Close fd) r); [done|done|]. unfold int in Hi. cbv zeta.
  cbn [stub SysLib.sys_close SysLib.syscall reg_eax reg_edx reg_ecx reg_ebx reg_edi reg_esi]. unfold Syscall.syscall.
  repeat first [rewrite bool_decide_eq_false_2 by discriminate | rewrite bool_decide_eq_true_2 by reflexivity].
  by rewrite i32_u32, i32_small by lia.
Qed.

(** A number that is no system call. *)
Theorem unknown_call_refused {H : Type} `{NewNodes H} (rq list_off : Z) (K : @kernel H) (no a1 a2 a3 a4 a5 : Z) :
  ¬ (0 ≤ no ≤ 16) → Syscall.syscall rq list_off K no a1 a2 a3 a4 a5 = mret (Return (- EINVAL)).
Proof.
  intros Hn. unfold Syscall.syscall.
  repeat (rewrite bool_decide_eq_false_2 by (intros ->; apply Hn; split; discriminate)). done.
Qed.

(** ** fork *)

Section fork.
Context {H : Type} `{NewNodes H} (rq list_off kf : Z) (fuel : nat) (io : @kernel H).

Local Abbreviation state := (@sstate H machine).
Local Abbreviation K := (machine_kernel rq list_off (slot kf 0) fuel io).

Lemma saved_world (s : state) Q kc g o mm l fds tf :
  fork_world rq list_off kf fuel s Q kc g o mm l fds → fork_world rq list_off kf fuel (saved tf s) Q kc g o mm l fds.
Proof. intros []. by split. Qed.

(** The current task goes on with the answer. *)
Definition answered (s1 : state) (v : Z) (tf : frame) : state :=
  set_rest (set_frame (curtask s1) (with_eax (u32 v) tf) (rest s1)) s1.

Lemma deliver_stays (s1 : state) v tf k :
  curtask s1 ≠ 0 → tasks s1 !! curtask s1 = Some k → runnable k → frame_of (rest s1) !! curtask s1 = Some tf →
  deliver rq list_off (curtask s1) v s1 = Ok (Resumed, answered s1 v tf).
Proof.
  intros Hc Hk Hr Hf. unfold deliver. run_step. rewrite (bind_Ok _ _ _ _ _ (of_option_Some _ _ _ Hf)).
  rewrite (bind_Ok _ _ _ _ _ (on_machine_run (modify (set_frame (curtask s1) (with_eax (u32 v) tf))) s1 tt _ eq_refl)).
  by rewrite (bind_Ok _ _ _ _ _ (schedule_stays rq list_off (answered s1 v tf) k Hc Hk Hr)).
Qed.

Lemma current_runs (s : state) Q : ready rq list_off s Q → curtask s ≠ 0 ∧ ∃ k, tasks s !! curtask s = Some k ∧ runnable k.
Proof.
  intros [[_ Hr] Hh]. destruct Q as [|c Q]; [done|]. injection Hh as ->. apply Hr. set_solver.
Qed.

(** The answer reaches a task that nothing has changed. *)
Lemma deliver_same (s s1 : state) Q tf v :
  ready rq list_off s Q → same_tasks rq list_off (saved tf s) s1 Q →
  (∀ t, t ∈ dom (tasks (saved tf s)) → frame_of (rest s1) !! t = frame_of (rest (saved tf s)) !! t) →
  curtask s1 = curtask s ∧ deliver rq list_off (curtask s) v s1 = Ok (Resumed, answered s1 v tf).
Proof.
  intros Hrdy Hst Hfr. destruct (current_runs s Q Hrdy) as (Hc0 & k & Hk & Hrun).
  pose proof (st_cur _ _ _ _ _ Hst) as Ecur. change (curtask (saved tf s)) with (curtask s) in Ecur.
  assert (Hin : curtask s ∈ dom (tasks (saved tf s))) by (by apply elem_of_dom_2 in Hk).
  assert (Hk1 : tasks s1 !! curtask s1 = Some k).
  { rewrite Ecur, (st_tasks _ _ _ _ _ Hst) by done. exact Hk. }
  assert (Hf1 : frame_of (rest s1) !! curtask s1 = Some tf) by (rewrite Ecur, Hfr by done; apply lookup_insert_eq).
  split; [done|]. pose proof (deliver_stays s1 v tf k ltac:(congruence) Hk1 Hrun Hf1) as Hd. by rewrite Ecur in Hd.
Qed.

Lemma fork_twice cr2 tf r (s : state) Q kc g o mm l fds :
  fork_world rq list_off kf fuel s Q kc g o mm l fds → in_use (pids s) 0 →
  Z.land (tf_cs tf) 3 = 3 → tf_trapno tf = T_SYSCALL → tf_regs tf = lib_fork r →
  let run := Syscall.trap rq list_off fuel K cr2 tf s in
  (∃ n c s1, run = Ok (Resumed, answered s1 n tf) ∧ fork_done rq list_off (saved tf s) s1 Q kc g o l fds tf c n ∧
     curtask s1 = curtask s ∧ c ≠ curtask s ∧ 0 < n < PID_MAX_DEFAULT ∧
     frame_of (rest (answered s1 n tf)) !! curtask s = Some (with_eax n tf) ∧
     frame_of (rest (answered s1 n tf)) !! c = Some (with_eax 0 tf)) ∨
  (∃ v s1, run = Ok (Resumed, answered s1 v tf) ∧ (v = - ENOMEM ∨ v = - EMPROC) ∧ curtask s1 = curtask s ∧
     fork_failed rq list_off (saved tf s) s1 Q g o) ∨
  given_up rq list_off fuel run (λ s1, (Resumed, answered s1 (- ENOMEM) tf)) (saved tf s) Q g o mm l fds.
Proof.
  intros W H0' Hcs Hno Hrg. cbv zeta. pose proof (fw_ready _ _ _ _ _ _ _ _ _ _ _ _ W) as Hrdy.
  destruct (current_runs s Q Hrdy) as (Hc0 & k & Hk & Hrun).
  rewrite (trap_asks rq list_off fuel K cr2 tf (Clone 0 0) r s); [|by repeat split|by intros []|done|done].
  assert (Hf : frame_of (rest (saved tf s)) !! curtask s = Some tf) by apply lookup_insert_eq.
  cbn [handler]. unfold Syscall.sys_clone. rewrite bind_assoc. run_step. rewrite bind_assoc.
  change (curtask (saved tf s)) with (curtask s). rewrite (bind_Ok _ _ _ _ _ (of_option_Some _ _ _ Hf)).
  rewrite bool_decide_eq_false_2 by (intros E; by apply E). cbn [machine_kernel k_fork]. rewrite bind_assoc.
  pose proof (do_fork_ok rq list_off kf fuel (saved tf s) Q kc g o mm l fds tf 0 (saved_world _ _ _ _ _ _ _ _ tf W)
    eq_refl) as Hfork. cbv zeta in Hfork.
  destruct Hfork as [(n & c & s1 & R & D)|[(v & s1 & R & Hv & D)|(p & A & m & t & Hh & R & Rs & Rt)]].
  - left. rewrite (bind_Ok _ _ _ _ _ R). run_step. pose proof (fd_cur _ _ _ _ _ _ _ _ _ _ _ _ _ D) as Ecur.
    change (curtask (saved tf s)) with (curtask s) in Ecur.
    destruct (fd_new _ _ _ _ _ _ _ _ _ _ _ _ _ D) as (Hnone & Hn & Hnu).
    assert (Hne : c ≠ curtask s) by (intros ->; change (tasks (saved tf s)) with (tasks s) in Hnone; congruence).
    destruct (current_runs s1 _ (fd_ready _ _ _ _ _ _ _ _ _ _ _ _ _ D)) as (Hc1 & k1 & Hk1 & Hr1).
    assert (Hf1 : frame_of (rest s1) !! curtask s1 = Some tf).
    { rewrite Ecur, (fd_frames _ _ _ _ _ _ _ _ _ _ _ _ _ D) by congruence. exact Hf. }
    pose proof (deliver_stays s1 n tf k1 Hc1 Hk1 Hr1 Hf1) as Hd. rewrite Ecur in Hd.
    assert (HP : PID_MAX_DEFAULT = 32768) by done.
    exists n, c, s1. split; [exact Hd|]. split; [done|]. split; [done|]. split; [done|]. split; [|split].
    + split; [|lia]. destruct (decide (n = 0)) as [->|]; [by destruct Hnu|lia].
    + simpl. rewrite Ecur, lookup_insert_eq, u32_small by lia. done.
    + simpl. rewrite lookup_insert_ne by congruence. apply D.
  - right. left. rewrite (bind_Ok _ _ _ _ _ R). run_step. exists v, s1.
    destruct (deliver_same s s1 Q tf v Hrdy (ff_tasks _ _ _ _ _ _ _ D) (ff_frames _ _ _ _ _ _ _ D)) as [Ecur Hd].
    split; [exact Hd|]. by split_and!.
  - right. right. exists p, A, m, t. split; [exact Hh|]. cbv zeta in R, Rs, Rt |- *. split_and!; [| |exact Rt].
    + intros x m' E. destruct (R x m' E) as (s1 & R1 & L & Em). rewrite (bind_Ok _ _ _ _ _ R1). run_step. exists s1.
      destruct (deliver_same s s1 Q tf (- ENOMEM) Hrdy (fl_tasks _ _ _ _ _ _ L) (fl_frames _ _ _ _ _ _ L)) as [_ Hd].
      split; [exact Hd|done].
    + intros w E. unfold mbind at 1, M_bind at 1. by rewrite (Rs w E).
Qed.
End fork.

(** C3: [fork] from end to end.  A program that calls [fork] of the library goes on with
    the id of the child in eax, which is not 0, and the child, a new task with a copy of
    the memory and the descriptors, will go on at the same instruction with the same
    registers but 0 in eax; so the two can tell each other apart.  Without a task, an
    id, a directory or a table of descriptors the program finds -ENOMEM or -EMPROC in
    eax, and its tasks, descriptors and memory are as before.  When the pages could not
    all be shared it finds -ENOMEM in eax once the unfinished child is taken down
    (the kernel stops if that stops); its tasks and its memory are then as before, but
    its open files stay counted once more for each descriptor.  (The first task lives, so that the id 0 is
    taken.) *)
Theorem fork_returns_twice {H : Type} `{NewNodes H} (rq list_off kf : Z) (fuel : nat) (io : @kernel H) (cr2 : Z)
    (tf : frame) (r : pushregs) (s : @sstate H machine) (Q : list Z) (kc : task_struct) (g o : Z) (mm : user_mm)
    (l : list vm_area_struct) (fds : list Z) :
  fork_world rq list_off kf fuel s Q kc g o mm l fds → in_use (pids s) 0 →
  Z.land (tf_cs tf) 3 = 3 → tf_trapno tf = T_SYSCALL → tf_regs tf = lib_fork r →
  let run := Syscall.trap rq list_off fuel (machine_kernel rq list_off (slot kf 0) fuel io) cr2 tf s in
  (∃ n c s1, run = Ok (Resumed, answered s1 n tf) ∧ fork_done rq list_off (saved tf s) s1 Q kc g o l fds tf c n ∧
     curtask s1 = curtask s ∧ c ≠ curtask s ∧ 0 < n < PID_MAX_DEFAULT ∧
     frame_of (rest (answered s1 n tf)) !! curtask s = Some (with_eax n tf) ∧
     frame_of (rest (answered s1 n tf)) !! c = Some (with_eax 0 tf)) ∨
  (∃ v s1, run = Ok (Resumed, answered s1 v tf) ∧ (v = - ENOMEM ∨ v = - EMPROC) ∧ curtask s1 = curtask s ∧
     fork_failed rq list_off (saved tf s) s1 Q g o) ∨
  given_up rq list_off fuel run (λ s1, (Resumed, answered s1 (- ENOMEM) tf)) (saved tf s) Q g o mm l fds.
Proof. apply fork_twice. Qed.

(** ** Where the code does not do what it means to *)

(** A program that asks for the end of a task that does not exist stops the kernel. *)
Theorem exit_dead_pid_panics {H : Type} `{NewNodes H} (rq list_off : Z) (fuel : nat) (K : @kernel H) cr2 tf r
    (s : @sstate H machine) n :
  asks tf (Exit n) r → curtask s ≠ 0 → 0 < n < PID_MAX_DEFAULT → default 0 (Sched.task_pidmap s !! n) = 0 →
  Syscall.trap rq list_off fuel K cr2 tf s = Stop Panicked.
Proof.
  intros Ha Hc Hn Hm. assert (HP : PID_MAX_DEFAULT = 32768) by done.
  rewrite (trap_asks rq list_off fuel K cr2 tf (Exit n) r s); [|unfold typed, int; lia|by intros []|done|done].
  cbn [handler]. unfold Syscall.sys_exit, pid2task. rewrite !bind_assoc.
  rewrite (bool_decide_eq_true_2 (0 ≤ n)), (bool_decide_eq_true_2 (n < PID_MAX_DEFAULT)) by lia. unfold assert.
  repeat first [rewrite bind_assoc | run_step]. rewrite (bool_decide_eq_false_2 (n = 0)) by lia. unfold pidmap_get. rewrite !bind_assoc. run_step.
  rewrite bool_decide_eq_true_2 by lia. run_step.
  change (Sched.task_pidmap (saved tf s)) with (Sched.task_pidmap s). by rewrite Hm.
Qed.

(** A program that waits for a child finds the number of the system call, 14, as the
    result, since its frame is not touched when it sleeps. *)
Theorem wait_answers_its_number {H : Type} `{NewNodes H} (rq list_off kpgd : Z) (fuel : nat) (io : @kernel H) cr2 tf r
    (s : @sstate H machine) kp c kc n t Q :
  asks tf (Wait n) r → ready rq list_off s (curtask s :: t :: Q) → tasks s !! curtask s = Some kp →
  has_pid s n c → c ≠ 0 → c ≠ curtask s → tasks s !! c = Some kc → Sched.ppid kc = Sched.pid kp →
  ∃ s', Syscall.trap rq list_off fuel (machine_kernel rq list_off kpgd fuel io) cr2 tf s = Ok (Resumed, s') ∧
    frame_of (rest s') !! curtask s = Some tf ∧ reg_eax (tf_regs tf) = SYS_WAIT.
Proof.
  intros Ha Hr Hk Hn Hc0 Hcp Hc Hpp. pose proof Ha as (_ & _ & Hrg). destruct (current_runs _ _ _ _ Hr) as (Hcur & _).
  assert (HP : PID_MAX_DEFAULT = 32768) by done. destruct Hn as [Hn Hmap].
  rewrite (trap_asks rq list_off fuel _ cr2 tf (Wait n) r s); [|unfold typed, int; lia|by intros []|done|done].
  destruct (wait_blocks rq list_off (saved tf s) (curtask s) kp c kc n t Q Hr Hk (conj Hn Hmap) Hc0 Hcp Hc Hpp)
    as (s' & Hrun & _ & _ & _ & _ & Hrest).
  exists s'. cbn [handler machine_kernel k_wait]. rewrite (bind_Ok _ _ _ _ _ Hrun). split; [done|].
  rewrite Hrest, Hrg. split; [apply lookup_insert_eq|done].
Qed.

(** ** An example: the task 0x1000 of the small machine asks for a child *)

#[local] Opaque small_mm small_mapped.

Definition no_io : @kernel lheap :=
  let none := mret (Return 0) in
  mk_kernel (λ _ _, mret tt) (λ _, none) (λ _ _, none) (λ _, none) (λ _ _ _, none) (λ _ _ _, none) (λ _ _ _ _, none)
    (λ _ _ _, none) (λ _ _ _, none) (λ _, none) (λ _ _, none) (λ _ _, none) (λ _, mret tt) (λ _, none) (λ _ _, none)
    (λ _, none) (mret tt).

Definition user_frame (g : pushregs → pushregs) : frame :=
  mk_frame (g (mk_regs 1 2 3 4 5 6 7 8)) 0x23 0x23 T_SYSCALL 0 0x800020 0x1b FL_IF 0xBF7FF000 0x23.

Lemma library_calls_arrive_witness :
  ∃ s', Syscall.trap 500 100 5 (machine_kernel 500 100 (slot 8 0) 5 no_io) 0 (user_frame SysLib.sys_getpid) fork_start =
      Ok (Resumed, s') ∧
    frame_of (rest s') !! 0x1000 = Some (with_eax 0 (user_frame SysLib.sys_getpid)).
Proof.
  pose proof (library_calls_arrive 500 100 5 (machine_kernel 500 100 (slot 8 0) 5 no_io) 0 (user_frame SysLib.sys_getpid)
    Getpid (mk_regs 1 2 3 4 5 6 7 8) fork_start I (λ x, x) ltac:(repeat split) ltac:(discriminate)) as T.
  cbv zeta in T. destruct T as [E T]. eexists. split; [rewrite E; reflexivity|]. reflexivity.
Defined.

Lemma fork_returns_twice_witness :
  ∃ c s1, Syscall.trap 500 100 5 (machine_kernel 500 100 (slot 8 0) 5 no_io) 0 (user_frame lib_fork) fork_start =
      Ok (Resumed, answered s1 1 (user_frame lib_fork)) ∧
    frame_of (rest (answered s1 1 (user_frame lib_fork))) !! c = Some (with_eax 0 (user_frame lib_fork)).
Proof.
  assert (E : match Syscall.trap 500 100 5 (machine_kernel 500 100 (slot 8 0) 5 no_io) 0 (user_frame lib_fork) fork_start with
              | Ok (_, s') => match frame_of (rest s') !! 0x1000 with Some f => reg_eax (tf_regs f) | None => -1 end
              | Stop _ => -2 end = 1) by (vm_compute; reflexivity).
  destruct (fork_returns_twice 500 100 8 5 no_io 0 (user_frame lib_fork) (mk_regs 1 2 3 4 5 6 7 8) fork_start [0x1000]
    fork_task 9 0 small_task [small_vma] ([4096; 4096] ++ replicate 126 0))
    as [(n & c & s1 & R & _ & _ & _ & _ & F1 & F2)|[(v & s1 & R & Hv & Hc & _)|G]].
  - exact (fork_start_world _ small_kmallocs_ok).
  - vm_compute. reflexivity.
  - reflexivity.
  - reflexivity.
  - reflexivity.
  - rewrite R in E. change (curtask fork_start) with 0x1000 in F1. rewrite F1 in E. change (n = 1) in E. subst n.
    exists c, s1. split; [exact R|exact F2].
  - exfalso. rewrite R in E. unfold answered in E. rewrite Hc in E. change (curtask fork_start) with 0x1000 in E.
    cbn [rest set_rest set_frame frame_of] in E. rewrite lookup_insert_eq in E.
    destruct Hv as [-> | ->]; vm_compute in E; discriminate E.
  - exfalso. apply given_up_answer in G as [(s1 & R & L)|[w R]]; rewrite R in E; [|discriminate E].
    pose proof (st_cur _ _ _ _ _ (fl_tasks _ _ _ _ _ _ L)) as Hc. unfold answered in E. rewrite Hc in E.
    cbn [rest set_rest set_frame frame_of] in E. change (curtask (saved (user_frame lib_fork) fork_start)) with 0x1000 in E.
    rewrite lookup_insert_eq in E. vm_compute in E. discriminate E.
Defined.
