(* ===== verification/ExecMem.v ===== *)
(** * User memory by bytes: the layer below the proofs of Exec

    A byte of an address space is a byte of the frame that [mapped] gives.  Writing
    through an address space whose pages are not tables of it changes that byte of
    that frame and nothing else. *)

From S2P Require Import Prelude Layout Buddy BuddyProofs Paging PagingProofs Vma Fault FaultProofs Fork ForkProofs Boot Exec.

Local Open Scope Z_scope.

(** ** Bytes of a word *)

Lemma byte_mask k : Z.testbit 255 k = bool_decide (0 ≤ k < 8).
Proof.
  change 255 with (Z.ones 8). rewrite Z.testbit_ones by lia.
  case_bool_decide; [|destruct (Z.leb_spec 0 k), (Z.ltb_spec k 8); simpl; lia].
  destruct (Z.leb_spec 0 k), (Z.ltb_spec k 8); simpl; lia.
Qed.

Lemma byte_bits b k : 0 ≤ b < 256 → 8 ≤ k → Z.testbit b k = false.
Proof. intros Hb Hk. apply (bits_high b 8 k); lia. Qed.

Lemma get_byte_bits w j k :
  0 ≤ j → 0 ≤ k → Z.testbit (get_byte w j) k = bool_decide (k < 8) && Z.testbit w (k + 8 * j).
Proof.
  intros Hj Hk. unfold get_byte. rewrite Z.land_spec, Z.shiftr_spec, byte_mask by lia.
  rewrite andb_comm. do 2 case_bool_decide; done || lia.
Qed.

Lemma get_set_byte w j i b :
  0 ≤ i → 0 ≤ j → 0 ≤ b < 256 →
  get_byte (set_byte w j b) i = if decide (i = j) then b else get_byte w i.
Proof.
  intros Hi Hj Hb. apply Z.bits_inj'. intros k Hk.
  assert (Hset : ∀ n, 0 ≤ n → Z.testbit (set_byte w j b) n =
    (Z.testbit w n && negb (bool_decide (8 * j ≤ n < 8 * j + 8))) || Z.testbit b (n - 8 * j)).
  { intros n Hn. unfold set_byte. rewrite Z.lor_spec, Z.ldiff_spec, !Z.shiftl_spec, byte_mask by done.
    do 2 f_equal. f_equal. do 2 case_bool_decide; done || lia. }
  case_decide as E.
  - subst i. rewrite get_byte_bits, Hset by lia. case_bool_decide.
    + rewrite bool_decide_eq_true_2 by lia. rewrite andb_false_r. simpl. f_equal. lia.
    + simpl. symmetry. apply byte_bits; lia.
  - rewrite !get_byte_bits, Hset by lia. case_bool_decide; [|done]. simpl.
    rewrite bool_decide_eq_false_2 by lia. rewrite andb_true_r.
    replace (Z.testbit b (k + 8 * i - 8 * j)) with false; [by rewrite orb_false_r|].
    destruct (decide (i < j)); [by rewrite Z.testbit_neg_r by lia|]. symmetry. apply byte_bits; lia.
Qed.

Lemma get_byte_range w j : 0 ≤ get_byte w j < 256.
Proof. unfold get_byte. change 255 with (2 ^ 8 - 1). rewrite land_mod by lia. apply Z.mod_pos_bound. lia. Qed.

Lemma get_byte_0 j : get_byte 0 j = 0.
Proof. unfold get_byte. by rewrite Z.shiftr_0_l. Qed.

(** ** Bytes of a frame *)

Definition pbyte (s : mstate) (f off : Z) : option Z :=
  (λ w, get_byte w (byte_index off)) <$> ent s f (off / 8).

Definition put_byte (f off b : Z) (s : mstate) : mstate :=
  put_ent f (off / 8) (set_byte (default 0 (ent s f (off / 8))) (byte_index off) b) s.

Definition in_page (off : Z) : Prop := 0 ≤ off < PAGE_SIZE.

Lemma page_word off : in_page off → 0 ≤ off / 8 < 512.
Proof.
  unfold in_page, PAGE_SIZE. intros.
  pose proof (Z.div_mod off 8 ltac:(lia)). pose proof (Z.mod_pos_bound off 8 ltac:(lia)). lia.
Qed.

Lemma pbyte_total s f off : mm_inv s → 0 ≤ f < zend (nz s) → in_page off → ∃ b, pbyte s f off = Some b.
Proof.
  intros Hi Hf Ho. destruct (ent_total s f (off / 8) Hi Hf (page_word off Ho)) as [e He].
  unfold pbyte. rewrite He. simpl. eauto.
Qed.

Lemma pbyte_range s f off b : pbyte s f off = Some b → 0 ≤ b < 256.
Proof.
  unfold pbyte. destruct (ent s f (off / 8)); [|done]. intros [= <-]. apply get_byte_range.
Qed.

Lemma pbyte_put s f off b f' off' :
  is_Some (ent s f (off / 8)) → in_page off → in_page off' → 0 ≤ b < 256 →
  pbyte (put_byte f off b s) f' off' = if decide ((f', off') = (f, off)) then Some b else pbyte s f' off'.
Proof.
  intros [e He] Ho Ho' Hb. unfold pbyte, put_byte. rewrite He. simpl.
  pose proof (page_word off Ho). pose proof (page_word off' Ho').
  pose proof (Z.div_mod off 8 ltac:(lia)). pose proof (Z.div_mod off' 8 ltac:(lia)).
  pose proof (Z.mod_pos_bound off 8 ltac:(lia)). pose proof (Z.mod_pos_bound off' 8 ltac:(lia)).
  destruct (decide ((f', off' / 8) = (f, off / 8))) as [[= -> Ew]|Hne].
  - rewrite Ew, (ent_put_eq s f (off / 8) _ e He), He. simpl.
    rewrite get_set_byte by (unfold byte_index; lia || done). unfold byte_index.
    repeat case_decide; try done; exfalso; [|simplify_eq; lia].
    match goal with H : (_, _) ≠ _ |- _ => apply H end. f_equal. lia.
  - rewrite ent_put_ne by (lia || done). case_decide; [|done]. simplify_eq.
Qed.

Lemma zero_pbyte s p off : mem s !! p = Some zero_page → in_page off → pbyte s p off = Some 0.
Proof.
  intros Hm Ho. unfold pbyte, ent. rewrite Hm. simpl. pose proof (page_word off Ho). unfold zero_page.
  rewrite lookup_replicate_2 by lia. simpl. by rewrite get_byte_0.
Qed.

(** ** Bytes of an address space *)

Definition ubyte (s : mstate) (g o va : Z) : option Z :=
  e ← mapped s g o va; pbyte s (eframe e) (va mod PAGE_SIZE).

Lemma va_in_page va : in_page (va mod PAGE_SIZE).
Proof. apply Z.mod_pos_bound. done. Qed.

(** An address that can be written: mapped to a frame that is no table. *)
Definition data_page (s : mstate) (g o va e : Z) : Prop :=
  mapped s g o va = Some e ∧ busy s (eframe e) ∧ no_table s g o (eframe e).

Section access.
Context (s : mstate) (g o : Z) (Hi : mm_inv s) (Hw : tree_wf s g o).

Lemma uload8_ok va e :
  user_va va → va ≠ 0 → mapped s g o va = Some e → busy s (eframe e) →
  ∃ b, uload8 (slot g o) va s = Ok (b, s) ∧ ubyte s g o va = Some b.
Proof.
  intros Hv Hv0 He Hb. unfold uload8, ubyte. rewrite He.
  rewrite (bind_Ok _ _ _ _ _ (translate_ok s g o va e Hi Hw Hv Hv0 He Hb)). run_step.
  pose proof (va_in_page va) as Ho.
  destruct (ent_total s (eframe e) (va mod PAGE_SIZE / 8) Hi (proj1 Hb) (page_word _ Ho)) as [w Hent].
  unfold word_index. rewrite (bind_Ok _ _ _ _ _ (of_option_Some _ _ _ Hent)).
  eexists. split; [reflexivity|]. simpl. unfold pbyte. by rewrite Hent.
Qed.

Lemma ustore8_ok va e b :
  user_va va → va ≠ 0 → mapped s g o va = Some e → busy s (eframe e) →
  ustore8 (slot g o) va b s = Ok (tt, put_byte (eframe e) (va mod PAGE_SIZE) (u8 b) s).
Proof.
  intros Hv Hv0 He Hb. unfold ustore8.
  rewrite (bind_Ok _ _ _ _ _ (translate_ok s g o va e Hi Hw Hv Hv0 He Hb)). run_step.
  pose proof (va_in_page va) as Ho.
  destruct (ent_total s (eframe e) (va mod PAGE_SIZE / 8) Hi (proj1 Hb) (page_word _ Ho)) as [w Hent].
  unfold word_index. rewrite (bind_Ok _ _ _ _ _ (of_option_Some _ _ _ Hent)).
  unfold put_byte. rewrite Hent. done.
Qed.

Lemma ent_of_busy f off : busy s f → in_page off → is_Some (ent s f (off / 8)).
Proof. intros Hb Ho. destruct (ent_total s f (off / 8) Hi (proj1 Hb) (page_word off Ho)). eauto. Qed.

Context (f off b : Z) (Hn : no_table s g o f).

Lemma put_byte_other x : x ≠ f → mem (put_byte f off b s) !! x = mem s !! x.
Proof. intros Hx. by apply mem_put_ne. Qed.

Lemma put_byte_inv : mm_inv (put_byte f off b s).
Proof. by apply mm_inv_put. Qed.

Lemma put_byte_tree : tree_wf (put_byte f off b s) g o.
Proof. by eapply data_tree; [exact Hn|intros; by apply put_byte_other|..]. Qed.

Lemma put_byte_mapped va : user_va va → mapped (put_byte f off b s) g o va = mapped s g o va.
Proof. intros Hv. by eapply data_mapped; [exact Hn|intros; by apply put_byte_other|..]. Qed.

Lemma put_byte_no_table q : no_table s g o q → no_table (put_byte f off b s) g o q.
Proof. intros Hq. by eapply data_no_table; [exact Hn|intros; by apply put_byte_other|..]. Qed.
End access.

(** An address space whose pages are its own: no table of it, and no frame twice. *)
Record space (s : mstate) (g o : Z) : Prop := {
  sp_inv : mm_inv s;
  sp_tree : tree_wf s g o;
  sp_pages : ∀ va e, user_va va → mapped s g o va = Some e →
    busy s (eframe e) ∧ no_table s g o (eframe e);
  sp_inj : ∀ va va' e e', user_va va → user_va va' → mapped s g o va = Some e →
    mapped s g o va' = Some e' → eframe e = eframe e' → same_page va va' }.

(** Only contents changed: [W] gives the bytes written. *)
Record wrote (g o : Z) (s s' : mstate) (W : Z → option Z) : Prop := {
  wr_space : space s' g o;
  wr_nz : nz s' = nz s;
  wr_mapped : ∀ va, user_va va → mapped s' g o va = mapped s g o va;
  wr_tables : ∀ q, no_table s g o q → no_table s' g o q;
  wr_byte : ∀ a, user_va a → ubyte s' g o a = match W a with Some b => Some b | None => ubyte s g o a end;
  wr_other : ∀ q, (∀ va e, user_va va → is_Some (W va) → mapped s g o va = Some e → eframe e ≠ q) →
    mem s' !! q = mem s !! q }.

Lemma wrote_refl g o s W : space s g o → (∀ a, user_va a → W a = None) → wrote g o s s W.
Proof. intros Hs HW. split; try done. intros a Ha. by rewrite HW. Qed.

Lemma wrote_trans g o s s1 s2 W1 W2 W :
  wrote g o s s1 W1 → wrote g o s1 s2 W2 →
  (∀ a, user_va a → W a = match W2 a with Some b => Some b | None => W1 a end) →
  wrote g o s s2 W.
Proof.
  intros H1 H2 HW. split; [apply H2| | | | |].
  - by rewrite (wr_nz _ _ _ _ _ H2), (wr_nz _ _ _ _ _ H1).
  - intros va Hv. by rewrite (wr_mapped _ _ _ _ _ H2), (wr_mapped _ _ _ _ _ H1).
  - intros q Hq. by apply (wr_tables _ _ _ _ _ H2), (wr_tables _ _ _ _ _ H1).
  - intros a Ha. rewrite (wr_byte _ _ _ _ _ H2), (wr_byte _ _ _ _ _ H1), HW by done.
    by destruct (W2 a).
  - intros q Hq. rewrite (wr_other _ _ _ _ _ H2), (wr_other _ _ _ _ _ H1); [done|..].
    + intros va e Hv Hs. apply (Hq va e Hv). rewrite HW by done. destruct (W2 va); [by eexists|done].
    + intros va e Hv [b Hb]. rewrite (wr_mapped _ _ _ _ _ H1) by done. apply (Hq va e Hv).
      rewrite HW, Hb by done. by eexists.
Qed.

Lemma same_byte va va' : same_page va va' → va mod PAGE_SIZE = va' mod PAGE_SIZE → va = va'.
Proof.
  unfold same_page. intros E1 E2. assert (PAGE_SIZE ≠ 0) by done.
  pose proof (Z.div_mod va PAGE_SIZE). pose proof (Z.div_mod va' PAGE_SIZE). lia.
Qed.

(** One byte. *)
Lemma write_byte s g o va e b :
  space s g o → user_va va → va ≠ 0 → mapped s g o va = Some e → 0 ≤ b < 256 →
  ∃ s', ustore8 (slot g o) va b s = Ok (tt, s') ∧
    wrote g o s s' (λ a, if decide (a = va) then Some b else None).
Proof.
  intros Hs Hv Hv0 He Hb. pose proof (sp_inv _ _ _ Hs) as Hi. pose proof (sp_tree _ _ _ Hs) as Hw.
  destruct (sp_pages _ _ _ Hs va e Hv He) as [Hbe Hn].
  exists (put_byte (eframe e) (va mod PAGE_SIZE) (u8 b) s).
  split; [by apply ustore8_ok|]. rewrite u8_small by lia.
  pose proof (put_byte_mapped s g o (eframe e) (va mod PAGE_SIZE) b Hn) as Hm.
  split; [split|done|done| | |].
  - by apply put_byte_inv.
  - by apply put_byte_tree.
  - intros va' e' Hv' He'. rewrite Hm in He' by done. destruct (sp_pages _ _ _ Hs va' e' Hv' He') as [? ?].
    split; [done|by apply put_byte_no_table].
  - intros a a' x x' Ha Ha'. rewrite !Hm by done. by apply (sp_inj _ _ _ Hs).
  - intros q Hq. by apply put_byte_no_table.
  - intros a Ha. unfold ubyte. rewrite Hm by done. destruct (mapped s g o a) as [e'|] eqn:He'; simpl.
    + rewrite pbyte_put; [|apply ent_of_busy; [done|done|apply va_in_page]|apply va_in_page|apply va_in_page|done].
      repeat case_decide; try done; exfalso.
      * simplify_eq. match goal with H : a ≠ va |- _ => apply H end. apply same_byte; [|done].
        by apply (sp_inj _ _ _ Hs a va e' e).
      * subst a. match goal with H : (_, _) ≠ _ |- _ => apply H end. congruence.
    + case_decide; [congruence|done].
  - intros q Hq. apply put_byte_other. intros ->. apply (Hq va e); [done| |done|done]. rewrite decide_True by done. by eexists.
Qed.

(** ** Blocks of bytes *)

Definition mapped_range (s : mstate) (g o lo hi : Z) : Prop :=
  ∀ a, lo ≤ a < hi → is_Some (mapped s g o a).

Lemma wrote_range g o s s' W lo hi :
  wrote g o s s' W → 0 ≤ lo → hi ≤ KERNEL_BASE_ADDR → mapped_range s g o lo hi → mapped_range s' g o lo hi.
Proof. intros H Hlo Hhi Hr a Ha. rewrite (wr_mapped _ _ _ _ _ H) by (unfold user_va; lia). by apply Hr. Qed.

(** The bytes of [img] from [src] on, at [dst]. *)
Definition image_at (img : gmap Z Z) (dst src n a : Z) : option Z :=
  if decide (dst ≤ a < dst + n) then img !! (src + (a - dst)) else None.

Definition holds_bytes (img : gmap Z Z) (src n : Z) : Prop :=
  ∀ k, 0 ≤ k < n → ∃ b, img !! (src + k) = Some b ∧ 0 ≤ b < 256.

Lemma copy_out_ok g o img n : ∀ s dst src,
  space s g o → PAGE_SIZE ≤ dst → dst + Z.of_nat n ≤ KERNEL_BASE_ADDR →
  0 ≤ src → src + Z.of_nat n < 2 ^ 32 → holds_bytes img src (Z.of_nat n) →
  mapped_range s g o dst (dst + Z.of_nat n) →
  ∃ s', copy_out n img (slot g o) dst src s = Ok (tt, s') ∧
    wrote g o s s' (image_at img dst src (Z.of_nat n)).
Proof.
  assert (HP : PAGE_SIZE = 4096) by done.
  induction n as [|n IH]; intros s dst src Hs Hlo Hhi Hs0 Hs1 Hb Hr.
  { exists s. split; [done|]. apply wrote_refl; [done|]. intros a _. unfold image_at. by rewrite decide_False by lia. }
  destruct (Hb 0) as (b & Hb0 & Hrange); [lia|]. rewrite Z.add_0_r in Hb0.
  destruct (Hr dst) as [e He]; [lia|]. assert (Hv : user_va dst) by (unfold user_va; lia).
  destruct (write_byte s g o dst e b Hs Hv ltac:(lia) He Hrange) as (s1 & Hrun1 & W1).
  cbn [copy_out]. rewrite (bind_Ok _ _ _ _ _ (lift_Ok (fetch (img !! src)) b s ltac:(by rewrite Hb0))).
  rewrite (bind_Ok _ _ _ _ _ Hrun1). rewrite !u32_small by (unfold KERNEL_BASE_ADDR in *; lia).
  destruct (IH s1 (dst + 1) (src + 1)) as (s2 & Hrun2 & W2); [apply W1|lia|lia|lia|lia| | |].
  { intros k Hk. destruct (Hb (k + 1)) as (b' & ? & ?); [lia|]. exists b'.
    by replace (src + 1 + k) with (src + (k + 1)) by lia. }
  { eapply wrote_range; [exact W1|lia|lia|]. intros a Ha. apply Hr. lia. }
  exists s2. split; [done|]. eapply wrote_trans; [exact W1|exact W2|].
  intros a _. unfold image_at. destruct (decide (a = dst)) as [->|Hne].
  - rewrite decide_True, decide_False by lia. by rewrite Z.sub_diag, Z.add_0_r.
  - replace (src + 1 + (a - (dst + 1))) with (src + (a - dst)) by lia.
    repeat case_decide; try done; try lia. by destruct (img !! (src + (a - dst))).
Qed.

Definition zero_at (dst n a : Z) : option Z := if decide (dst ≤ a < dst + n) then Some 0 else None.

Lemma clear_user_ok g o n : ∀ s dst,
  space s g o → PAGE_SIZE ≤ dst → dst + Z.of_nat n ≤ KERNEL_BASE_ADDR →
  mapped_range s g o dst (dst + Z.of_nat n) →
  ∃ s', clear_user n (slot g o) dst s = Ok (tt, s') ∧ wrote g o s s' (zero_at dst (Z.of_nat n)).
Proof.
  assert (HP : PAGE_SIZE = 4096) by done.
  induction n as [|n IH]; intros s dst Hs Hlo Hhi Hr.
  { exists s. split; [done|]. apply wrote_refl; [done|]. intros a _. unfold zero_at. by rewrite decide_False by lia. }
  destruct (Hr dst) as [e He]; [lia|]. assert (Hv : user_va dst) by (unfold user_va; lia).
  destruct (write_byte s g o dst e 0 Hs Hv ltac:(lia) He ltac:(lia)) as (s1 & Hrun1 & W1).
  cbn [clear_user]. rewrite (bind_Ok _ _ _ _ _ Hrun1). rewrite u32_small by (unfold KERNEL_BASE_ADDR in *; lia).
  destruct (IH s1 (dst + 1)) as (s2 & Hrun2 & W2); [apply W1|lia|lia| |].
  { eapply wrote_range; [exact W1|lia|lia|]. intros a Ha. apply Hr. lia. }
  exists s2. split; [done|]. eapply wrote_trans; [exact W1|exact W2|].
  intros a _. unfold zero_at. repeat case_decide; done || lia.
Qed.

(** ** New pages: region_alloc *)

(** The pages from [lo] to [hi] were mapped to new frames with the contents [W]. *)
Record filled (g o : Z) (s s' : mstate) (lo hi : Z) (W : Z → option Z) : Prop := {
  fi_space : space s' g o;
  fi_new : ∀ a, user_va a → lo ≤ a < hi → ubyte s' g o a = W a;
  fi_byte : ∀ a, user_va a → ¬ (lo ≤ a < hi) → ubyte s' g o a = ubyte s g o a;
  fi_mapped : ∀ a, user_va a → ¬ (lo ≤ a < hi) → mapped s' g o a = mapped s g o a;
  fi_fresh : ∀ a e, user_va a → lo ≤ a < hi → mapped s' g o a = Some e → ¬ busy s (eframe e);
  fi_kept : ∀ q, busy s q → busy s' q ∧ meta s' q = meta s q;
  fi_tables : ∀ q, busy s q → no_table s g o q → no_table s' g o q;
  fi_data : ∀ q, busy s q → no_table s g o q → mem s' !! q = mem s !! q }.

Definition zeros (a : Z) : option Z := Some 0.

Lemma filled_refl g o s lo hi W : space s g o → hi ≤ lo → filled g o s s lo hi W.
Proof. intros Hs Hle. split; try done; intros; lia. Qed.

Lemma filled_trans g o s s1 s2 lo mid hi W :
  filled g o s s1 lo mid W → filled g o s1 s2 mid hi W → lo ≤ mid ≤ hi → filled g o s s2 lo hi W.
Proof.
  intros H1 H2 Hm. split; [apply H2| | | | | | |].
  - intros a Hv Ha. destruct (decide (mid ≤ a)); [apply (fi_new _ _ _ _ _ _ _ H2); lia || done|].
    rewrite (fi_byte _ _ _ _ _ _ _ H2) by (lia || done). apply (fi_new _ _ _ _ _ _ _ H1); lia || done.
  - intros a Hv Ha. rewrite (fi_byte _ _ _ _ _ _ _ H2), (fi_byte _ _ _ _ _ _ _ H1) by (lia || done). done.
  - intros a Hv Ha. rewrite (fi_mapped _ _ _ _ _ _ _ H2), (fi_mapped _ _ _ _ _ _ _ H1) by (lia || done). done.
  - intros a e Hv Ha He Hb. destruct (decide (mid ≤ a)).
    + apply (fi_fresh _ _ _ _ _ _ _ H2 a e Hv); [lia|done|]. by apply (fi_kept _ _ _ _ _ _ _ H1).
    + rewrite (fi_mapped _ _ _ _ _ _ _ H2) in He by (lia || done).
      apply (fi_fresh _ _ _ _ _ _ _ H1 a e Hv); [lia|done|done].
  - intros q Hq. destruct (fi_kept _ _ _ _ _ _ _ H1 q Hq) as [Hb ?].
    destruct (fi_kept _ _ _ _ _ _ _ H2 q Hb) as [? ?]. split; [done|congruence].
  - intros q Hq Hn. destruct (fi_kept _ _ _ _ _ _ _ H1 q Hq) as [Hb _].
    apply (fi_tables _ _ _ _ _ _ _ H2 q Hb), (fi_tables _ _ _ _ _ _ _ H1 q Hq Hn).
  - intros q Hq Hn. destruct (fi_kept _ _ _ _ _ _ _ H1 q Hq) as [Hb _].
    rewrite (fi_data _ _ _ _ _ _ _ H2 q Hb), (fi_data _ _ _ _ _ _ _ H1 q Hq Hn); [done|].
    apply (fi_tables _ _ _ _ _ _ _ H1 q Hq Hn).
Qed.

(** Writing into the new pages. *)
Lemma filled_wrote g o s s1 s2 lo hi W V W' :
  filled g o s s1 lo hi W → wrote g o s1 s2 V → (∀ a, is_Some (V a) → lo ≤ a < hi) →
  (∀ a, lo ≤ a < hi → W' a = match V a with Some b => Some b | None => W a end) →
  filled g o s s2 lo hi W'.
Proof.
  intros H1 H2 HV HW.
  assert (Hnz : ∀ q, busy s2 q ↔ busy s1 q) by (intros q; unfold busy; by rewrite (wr_nz _ _ _ _ _ H2)).
  split; [apply H2| | | | | | |].
  - intros a Hv Ha. rewrite (wr_byte _ _ _ _ _ H2), HW by done.
    destruct (V a); [done|by apply (fi_new _ _ _ _ _ _ _ H1)].
  - intros a Hv Ha. rewrite (wr_byte _ _ _ _ _ H2) by done.
    destruct (V a) eqn:E; [|by apply (fi_byte _ _ _ _ _ _ _ H1)]. destruct Ha. apply HV. rewrite E. by eexists.
  - intros a Hv Ha. rewrite (wr_mapped _ _ _ _ _ H2) by done. by apply (fi_mapped _ _ _ _ _ _ _ H1).
  - intros a e Hv Ha. rewrite (wr_mapped _ _ _ _ _ H2) by done. by apply (fi_fresh _ _ _ _ _ _ _ H1).
  - intros q Hq. destruct (fi_kept _ _ _ _ _ _ _ H1 q Hq) as [Hb Hm]. split; [by apply Hnz|].
    rewrite <- Hm. unfold meta. change (mempage s2) with (pages (nz s2)). by rewrite (wr_nz _ _ _ _ _ H2).
  - intros q Hq Hn. by apply (wr_tables _ _ _ _ _ H2), (fi_tables _ _ _ _ _ _ _ H1).
  - intros q Hq Hn. rewrite (wr_other _ _ _ _ _ H2); [by apply (fi_data _ _ _ _ _ _ _ H1)|].
    intros va e Hv Hs He <-. by apply (fi_fresh _ _ _ _ _ _ _ H1 va e Hv (HV va Hs) He).
Qed.

(** A frame that is in no page of the address space is mapped at [va]. *)
Section map_frame.
Context (s s' : mstate) (g o va p perm : Z).
Context (Hs : space s g o) (Hv : user_va va) (Hperm : 0 ≤ perm < PAGE_SIZE).
Context (Hnone : mapped s g o va = None) (Hb : busy s p) (Hn : no_table s g o p).
Context (Hfresh : ∀ a e, user_va a → mapped s g o a = Some e → eframe e ≠ p).
Context (Hin : inserted g o s s' va p perm).

Lemma map_old : old_frame s g o va = None.
Proof. unfold old_frame. by rewrite Hnone. Qed.

Lemma map_busy q : busy s q → busy s' q.
Proof.
  intros Hq. destruct (busy_page s q (sp_inv _ _ _ Hs) Hq) as [pg Hpg].
  eapply inserted_busy; [exact Hin|done|done|]. rewrite map_old. by intros [? _].
Qed.

Lemma map_meta q : busy s q → q ≠ p → meta s' q = meta s q.
Proof.
  intros Hq Hne. rewrite (in_nref _ _ _ _ _ _ _ Hin q Hq), map_old, !b2z_false by done.
  destruct (meta s q) as [pg|]; [|done]. simpl. rewrite Z.add_0_r, Z.sub_0_r. by destruct pg.
Qed.

Lemma map_mapped a : user_va a → mapped s' g o a =
  if decide (same_page va a) then Some (p * PAGE_SIZE + perm) else mapped s g o a.
Proof. apply (in_mapped _ _ _ _ _ _ _ Hin). Qed.

Lemma map_space : space s' g o.
Proof.
  pose proof (eframe_entry p perm Hperm) as Ep. split; [apply Hin|apply Hin| |].
  - intros a e Ha. rewrite map_mapped by done. case_decide.
    + intros [= <-]. rewrite Ep. split; [by apply map_busy|by eapply inserted_no_table].
    + intros He. destruct (sp_pages _ _ _ Hs a e Ha He) as [H1 H2].
      split; [by apply map_busy|by eapply inserted_no_table].
  - intros a a' e e' Ha Ha'. rewrite !map_mapped by done. repeat case_decide; intros He He' E.
    + unfold same_page in *. congruence.
    + simplify_eq. rewrite Ep in E. by destruct (Hfresh a' e').
    + simplify_eq. rewrite Ep in E. by destruct (Hfresh a e).
    + by apply (sp_inj _ _ _ Hs a a' e e').
Qed.

Lemma map_byte a : user_va a → ubyte s' g o a =
  if decide (same_page va a) then pbyte s p (a mod PAGE_SIZE) else ubyte s g o a.
Proof.
  intros Ha. unfold ubyte. rewrite map_mapped by done. case_decide; simpl.
  - rewrite (eframe_entry p perm Hperm). unfold pbyte, ent. by rewrite (in_data _ _ _ _ _ _ _ Hin p Hb Hn).
  - destruct (mapped s g o a) as [e|] eqn:He; [|done]. simpl.
    destruct (sp_pages _ _ _ Hs a e Ha He) as [H1 H2]. unfold pbyte, ent.
    by rewrite (in_data _ _ _ _ _ _ _ Hin).
Qed.
End map_frame.

Lemma page_of_aligned_va va a : (PAGE_SIZE | va) → same_page va a ↔ va ≤ a < va + PAGE_SIZE.
Proof.
  intros [x Hx]. unfold same_page. assert (HP : PAGE_SIZE = 4096) by done. rewrite HP in *.
  pose proof (Z.div_mod a 4096 ltac:(lia)). pose proof (Z.mod_pos_bound a 4096 ltac:(lia)).
  rewrite Hx, Z.div_mul by lia. split; intros; lia.
Qed.

(** A frame that [page_alloc] took. *)
Section taken.
Context (s s1 : mstate) (g o p : Z) (Hs : space s g o) (Htk : taken g o s s1 p).

Lemma taken_no_table q : no_table s g o q → no_table s1 g o q.
Proof. intros Hn. split; [apply Hn|]. intros r Hr. rewrite (tk_roles _ _ _ _ _ Htk) by done. by apply Hn. Qed.

Lemma taken_fresh a e : user_va a → mapped s1 g o a = Some e → eframe e ≠ p.
Proof.
  intros Ha He E. rewrite (tk_mapped _ _ _ _ _ Htk) in He by done.
  destruct (sp_pages _ _ _ Hs a e Ha He) as [[_ Hb] _]. apply Hb. rewrite E. apply (tk_free _ _ _ _ _ Htk).
Qed.

Lemma taken_space : space s1 g o.
Proof.
  split; [apply Htk|apply Htk| |].
  - intros a e Ha He. rewrite (tk_mapped _ _ _ _ _ Htk) in He by done.
    destruct (sp_pages _ _ _ Hs a e Ha He) as [H1 H2]. split; [by apply Htk|by apply taken_no_table].
  - intros a a' e e' Ha Ha'. rewrite !(tk_mapped _ _ _ _ _ Htk) by done. by apply (sp_inj _ _ _ Hs).
Qed.

Lemma taken_byte a : user_va a → ubyte s1 g o a = ubyte s g o a.
Proof.
  intros Ha. unfold ubyte. destruct (mapped s1 g o a) as [e|] eqn:He.
  - pose proof (taken_fresh a e Ha He) as Hne. rewrite (tk_mapped _ _ _ _ _ Htk) in He by done. rewrite He. simpl.
    unfold pbyte, ent. by rewrite (tk_data _ _ _ _ _ Htk).
  - rewrite (tk_mapped _ _ _ _ _ Htk) in He by done. by rewrite He.
Qed.
End taken.

Lemma new_page_zeroed s s1 s2 g o va p :
  space s g o → user_va va → (PAGE_SIZE | va) → mapped s g o va = None →
  taken g o s s1 p → inserted g o s1 s2 va p USER_PERM →
  filled g o s s2 va (va + PAGE_SIZE) zeros.
Proof.
  intros Hs Hv Hal Hnone Htk Hin. destruct (user_perm_ok p) as (Hperm & _ & Ep).
  pose proof (taken_space s s1 g o p Hs Htk) as Hs1. destruct (tk_frame _ _ _ _ _ Htk) as [Hb _].
  assert (Hnone1 : mapped s1 g o va = None) by (by rewrite (tk_mapped _ _ _ _ _ Htk)).
  pose proof (taken_fresh s s1 g o p Hs Htk) as Hfr. pose proof (tk_table _ _ _ _ _ Htk) as Hn.
  pose proof (λ a, page_of_aligned_va va a Hal) as Hpage.
  pose proof (map_byte s1 s2 g o va p USER_PERM Hs1 Hperm Hb Hn Hin) as Hbyte.
  pose proof (map_mapped s1 s2 g o va p USER_PERM Hin) as Hmap.
  split.
  - by eapply map_space.
  - intros a Ha Hr. rewrite Hbyte, decide_True by (done || by apply Hpage).
    apply zero_pbyte; [apply Htk|apply va_in_page].
  - intros a Ha Hr. rewrite Hbyte, decide_False by (done || by rewrite Hpage). by eapply taken_byte.
  - intros a Ha Hr. rewrite Hmap, decide_False by (done || by rewrite Hpage). by apply Htk.
  - intros a e Ha Hr. rewrite Hmap, decide_True by (done || by apply Hpage). intros [= <-].
    rewrite Ep. intros [_ Hbs]. apply Hbs, (tk_free _ _ _ _ _ Htk).
  - intros q Hq. destruct (tk_busy _ _ _ _ _ Htk q Hq) as [Hq1 Hne]. split; [by eapply map_busy|].
    erewrite map_meta by done. apply Htk.
  - intros q Hq Hnq. destruct (tk_busy _ _ _ _ _ Htk q Hq) as [Hq1 _].
    eapply inserted_no_table; [exact Hin|done|]. by eapply taken_no_table.
  - intros q Hq Hnq. destruct (tk_busy _ _ _ _ _ Htk q Hq) as [Hq1 Hne].
    rewrite (in_data _ _ _ _ _ _ _ Hin q Hq1); [by apply (tk_data _ _ _ _ _ Htk)|]. by eapply taken_no_table.
Qed.

Lemma unmapped_after g o s s' lo hi W lo' hi' :
  filled g o s s' lo hi W → hi ≤ lo' → 0 ≤ lo' → hi' ≤ KERNEL_BASE_ADDR →
  (∀ a, lo' ≤ a < hi' → mapped s g o a = None) → ∀ a, lo' ≤ a < hi' → mapped s' g o a = None.
Proof.
  intros Hz Hle Hlo Hhi Hn a Ha. rewrite (fi_mapped _ _ _ _ _ _ _ Hz); [by apply Hn|unfold user_va; lia|lia].
Qed.

Lemma region_alloc_loop_ok g o n : ∀ fuel s down,
  (n < fuel)%nat → space s g o → (PAGE_SIZE | down) → PAGE_SIZE ≤ down →
  down + Z.of_nat n * PAGE_SIZE ≤ KERNEL_BASE_ADDR →
  (∀ a, down ≤ a < down + Z.of_nat n * PAGE_SIZE → mapped s g o a = None) →
  ∃ r s', region_alloc_loop fuel (slot g o) down (down + Z.of_nat n * PAGE_SIZE) USER_PERM s = Ok (r, s') ∧
    (r = - ENOMEM ∧ full s' ∨ r = 0 ∧ filled g o s s' down (down + Z.of_nat n * PAGE_SIZE) zeros).
Proof.
  assert (HP : PAGE_SIZE = 4096) by done.
  induction n as [|n IH]; intros [|fuel] s down Hf Hs Hal Hlo Hhi Hnone; [lia| |lia|].
  { exists 0, s. cbn [region_alloc_loop]. rewrite bool_decide_eq_false_2 by lia. split; [done|].
    right. split; [done|]. apply filled_refl; [done|lia]. }
  set (up := down + _) in *. assert (Hv : user_va down) by (unfold user_va; lia).
  cbn [region_alloc_loop]. rewrite bool_decide_eq_true_2 by lia.
  destruct (page_alloc_taken s g o (sp_inv _ _ _ Hs) (sp_tree _ _ _ Hs)) as (r & s1 & Hrun1 & Hr).
  rewrite (bind_Ok _ _ _ _ _ Hrun1). destruct r as [p|].
  2: { destruct Hr as [-> Hfull]. exists (- ENOMEM), s. split; [done|]. by left. }
  destruct (user_perm_ok p) as (Hperm & Hpres & _).
  destruct (tk_frame _ _ _ _ _ Hr) as (Hbp & pgp & Hpgp & Hnp & _).
  destruct (page_insert_ok s1 g o down p USER_PERM) as (r2 & s2 & Hrun2 & Hcase);
    [apply Hr|apply Hr|done|lia| | |done|done|].
  { split; [done|]. exists pgp. split; [done|lia]. }
  { intros e' He'. rewrite (tk_mapped _ _ _ _ _ Hr), (Hnone down) in He' by (done || lia). done. }
  rewrite (bind_Ok _ _ _ _ _ Hrun2). destruct Hcase as [[-> (_ & Hfull & _)]|[-> Hin]].
  { rewrite bool_decide_eq_true_2 by (unfold ENOMEM; lia). exists (- ENOMEM), s2. split; [done|]. by left. }
  rewrite bool_decide_eq_false_2 by lia. rewrite u32_small by (unfold KERNEL_BASE_ADDR in *; lia).
  pose proof (new_page_zeroed s s1 s2 g o down p Hs Hv Hal (Hnone down ltac:(lia)) Hr Hin) as Z1.
  assert (Eup : up = down + PAGE_SIZE + Z.of_nat n * PAGE_SIZE) by lia. rewrite Eup in *.
  destruct (IH fuel s2 (down + PAGE_SIZE)) as (r & s' & Hrun & Hres);
    [lia|apply Z1|by apply Z.divide_add_r|lia|lia| |].
  { eapply unmapped_after; [exact Z1|lia|lia|lia|]. intros a Ha. apply Hnone. lia. }
  exists r, s'. split; [done|]. destruct Hres as [?|[-> Z2]]; [by left|right].
  split; [done|]. eapply filled_trans; [exact Z1|exact Z2|lia].
Qed.

(** The pages a block of bytes touches. *)
Definition blk_lo (va : Z) : Z := ROUNDDOWN va PAGE_SIZE.
Definition blk_hi (va len : Z) : Z := ROUNDUP (va + len) PAGE_SIZE.

Lemma blk_bounds va len :
  PAGE_SIZE ≤ va → 0 < len → va + len ≤ KERNEL_BASE_ADDR →
  (PAGE_SIZE | blk_lo va) ∧ (PAGE_SIZE | blk_hi va len) ∧ PAGE_SIZE ≤ blk_lo va ∧
  blk_lo va ≤ va ∧ va + len ≤ blk_hi va len < va + len + PAGE_SIZE ∧ blk_hi va len ≤ KERNEL_BASE_ADDR.
Proof.
  intros Hlo Hlen Hhi. assert (HP : PAGE_SIZE = 4096) by done.
  pose proof (ROUNDDOWN_le va PAGE_SIZE ltac:(lia)) as H1.
  pose proof (ROUNDDOWN_divide va PAGE_SIZE ltac:(lia)) as H2.
  destruct (ROUNDUP_ge (va + len) PAGE_SIZE) as [H3 H4]; [lia|lia|unfold KERNEL_BASE_ADDR in *; lia|].
  fold (blk_lo va) in *. fold (blk_hi va len) in *.
  split_and!; [done|done| |lia|lia|lia|].
  - destruct H2 as [x Hx]. rewrite HP in *. lia.
  - destruct H4 as [x Hx]. rewrite HP in *. unfold KERNEL_BASE_ADDR in *. lia.
Qed.

Lemma region_alloc_ok g o s va len :
  space s g o → PAGE_SIZE ≤ va → 0 < len → va + len ≤ KERNEL_BASE_ADDR →
  (∀ a, blk_lo va ≤ a < blk_hi va len → mapped s g o a = None) →
  ∃ r s', region_alloc (slot g o) va len USER_PERM s = Ok (r, s') ∧
    (r = - ENOMEM ∧ full s' ∨ r = 0 ∧ filled g o s s' (blk_lo va) (blk_hi va len) zeros).
Proof.
  intros Hs Hlo Hlen Hhi Hnone. assert (HP : PAGE_SIZE = 4096) by done.
  destruct (blk_bounds va len Hlo Hlen Hhi) as ((x & Hx) & (y & Hy) & B1 & B2 & B3 & B4).
  unfold region_alloc. rewrite !bool_decide_eq_true_2 by lia. do 2 run_step.
  rewrite u32_small by (unfold KERNEL_BASE_ADDR in *; lia).
  fold (blk_lo va) (blk_hi va len).
  assert (E : blk_hi va len = blk_lo va + Z.of_nat (Z.to_nat (y - x)) * PAGE_SIZE) by (rewrite HP in *; lia).
  assert (Ef : blk_hi va len / PAGE_SIZE = y) by (rewrite Hy; apply Z.div_mul; done). rewrite Ef.
  rewrite E in Hnone |- *. apply region_alloc_loop_ok; try done; [rewrite HP in *; lia|by exists x|].
  rewrite <- E. done.
Qed.
