(* ===== verification/ExecProofs.v ===== *)
(** * Loading a program: the proofs of Exec

    An ELF image whose segments lie one above the other is loaded so that the new
    address space holds the bytes of the file, zeros behind them, and nothing else;
    memory of other tasks is left alone. *)

From S2P Require Import Prelude Layout Buddy BuddyProofs Paging PagingProofs Vma VmaProofs Fault FaultProofs Fork ForkProofs Boot Exec ExecMem.

Local Open Scope Z_scope.

(** ** One segment *)

Record seg_ok (img : gmap Z Z) (binary : Z) (h : ProgHeader) : Prop := {
  so_lo : PAGE_SIZE ≤ p_va h;
  so_mem : 0 < p_memsz h;
  so_file : 0 ≤ p_filesz h ≤ p_memsz h;
  so_hi : p_va h + p_memsz h ≤ KERNEL_BASE_ADDR;
  so_src : 0 ≤ binary + p_offset h ∧ binary + p_offset h + p_filesz h < 2 ^ 32;
  so_bytes : holds_bytes img (binary + p_offset h) (p_filesz h) }.

Definition seg_lo (h : ProgHeader) : Z := blk_lo (p_va h).
Definition seg_hi (h : ProgHeader) : Z := blk_hi (p_va h) (p_memsz h).

(** What the pages of a segment hold. *)
Definition seg_byte (img : gmap Z Z) (binary : Z) (h : ProgHeader) (a : Z) : option Z :=
  if decide (p_va h ≤ a < p_va h + p_filesz h) then img !! (binary + p_offset h + (a - p_va h)) else Some 0.

Lemma seg_bounds img binary h :
  seg_ok img binary h →
  (PAGE_SIZE | seg_lo h) ∧ (PAGE_SIZE | seg_hi h) ∧ PAGE_SIZE ≤ seg_lo h ∧ seg_lo h ≤ p_va h ∧
  p_va h + p_memsz h ≤ seg_hi h < p_va h + p_memsz h + PAGE_SIZE ∧ seg_hi h ≤ KERNEL_BASE_ADDR.
Proof. intros [H1 H2 H3 H4 H5 H6]. by apply blk_bounds. Qed.

(** The marks of the code and of the data. *)
Definition seg_marks (h : ProgHeader) (mm : user_mm) : user_mm :=
  (if has_flag (p_flags h) ELF_PROG_FLAG_EXEC && negb (has_flag (p_flags h) ELF_PROG_FLAG_WRITE)
   then set_code else set_data) (p_va h) (u32 (p_va h + p_memsz h)) mm.

Lemma marks_keep h mm :
  mm_areas (seg_marks h mm) = mm_areas mm ∧ mm_pgd (seg_marks h mm) = mm_pgd mm.
Proof. unfold seg_marks. by case_match. Qed.

(** The area that [create_vma] makes of a segment lies in the pages of the segment. *)
Lemma seg_area img binary h k :
  seg_ok img binary h →
  a_lo (new_area k (p_va h) (p_memsz h)) = seg_lo h ∧ a_hi (new_area k (p_va h) (p_memsz h)) ≤ seg_hi h.
Proof.
  intros Hok. destruct (seg_bounds _ _ _ Hok) as ((x & Hx) & (y & Hy) & _ & B1 & B2 & _).
  destruct Hok as [H1 H2 H3 H4 _ _]. assert (HP : PAGE_SIZE = 4096) by done.
  split; [done|]. cbn [new_area a_hi]. fold (seg_lo h).
  destruct (ROUNDUP_ge (p_memsz h) PAGE_SIZE) as [R1 (z & Hz)]; [lia|lia|unfold KERNEL_BASE_ADDR in *; lia|].
  fold (blk_lo (p_va h)). fold (seg_lo h). rewrite Hx, Hy, Hz in *. rewrite HP in *. lia.
Qed.

(** The part of the state that a loader in the middle of its work keeps. *)
Record load_inv (g : Z) (st : load_state) (t : tree) (lim : Z) : Prop := {
  li_pgd : mm_pgd (ld_mm st) = slot g 0;
  li_cr3 : ld_cr3 st = slot g 0;
  li_space : space (ld_mem st) g 0;
  li_areas : mm_ok (mm_areas (ld_mm st)) t;
  li_aligned : aligned_areas t;
  li_below : ∀ b, b ∈ inorder t → a_hi b ≤ lim;
  li_unmapped : ∀ a, lim ≤ a < KERNEL_BASE_ADDR → mapped (ld_mem st) g 0 a = None }.

Lemma new_vma_ok fuel st t addr len k ks :
  mm_ok (mm_areas (ld_mm st)) t → aligned_areas t → (height t < fuel)%nat →
  good_kmallocs (k :: ks) t → ld_kmallocs st = k :: ks →
  PAGE_SIZE ≤ addr → 0 < len → addr + len ≤ KERNEL_BASE_ADDR → range_free addr (addr + len) (inorder t) →
  ∃ m', new_vma fuel addr len st =
      Ok (k.1, mk_load (set_areas m' (ld_mm st)) (ld_mem st) ks (ld_cr3 st) (ld_eip st)) ∧
    k.1 ≠ 0 ∧ start_brk m' = start_brk (mm_areas (ld_mm st)) ∧ end_brk m' = end_brk (mm_areas (ld_mm st)) ∧
    mm_ok m' (tinsert (new_area k.1 addr len) t) ∧ aligned_areas (tinsert (new_area k.1 addr len) t).
Proof.
  intros Hok Hal Hf [_ Hk] Hks Hlo Hlen Hhi Hfree.
  destruct (Hk k) as (Hk0 & Hkt & Hkj); [apply elem_of_cons; by left|].
  destruct (create_vma_ok (mm_areas (ld_mm st)) t fuel addr len (Z.lor VM_READ VM_WRITE) k.1)
    as (r & m' & Hrun & [Hb1 Hb2] & Hr); try done.
  { unfold PAGE_SIZE, KERNEL_BASE_ADDR in *. lia. }
  exists m'. unfold new_vma. rewrite Hks, Hkj, Hrun. cbn [tail].
  destruct Hr as [(-> & _ & _ & Hok' & Hal')|(_ & _ & Hn)]; [done|]. by destruct Hn.
Qed.

Lemma tree_height_insert n t : (height (tinsert n t) ≤ S (height t))%nat.
Proof.
  induction t as [|l IHl a r IHr]; [done|]. cbn [tinsert]. case_decide; simpl; lia.
Qed.

Lemma in_mem_ok {A} (c : M mstate A) st a s' :
  c (ld_mem st) = Ok (a, s') →
  in_mem c st = Ok (a, mk_load (ld_mm st) s' (ld_kmallocs st) (ld_cr3 st) (ld_eip st)).
Proof. intros H. unfold in_mem. by rewrite H. Qed.

(** What a loaded segment leaves behind. *)
Record seg_loaded (g : Z) (img : gmap Z Z) (binary : Z) (h : ProgHeader) (k : Z) (t : tree)
    (st st' : load_state) : Prop := {
  sl_inv : load_inv g st' (tinsert (new_area k (p_va h) (p_memsz h)) t) (seg_hi h);
  sl_kmallocs : ld_kmallocs st' = tail (ld_kmallocs st);
  sl_mem : filled g 0 (ld_mem st) (ld_mem st') (seg_lo h) (seg_hi h) (seg_byte img binary h);
  sl_marks : ld_mm st' = set_areas (mm_areas (ld_mm st')) (seg_marks h (ld_mm st)) }.

Section segment.
Context (g : Z) (img : gmap Z Z) (binary : Z) (h : ProgHeader) (fuel : nat).
Context (st : load_state) (t : tree) (lim : Z) (k : Z * (Z * Z)) (ks : list (Z * (Z * Z))).
Context (Hseg : seg_ok img binary h) (Hinv : load_inv g st t lim) (Hlim : lim ≤ seg_lo h).
Context (Hf : (height t < fuel)%nat) (Hk : good_kmallocs (k :: ks) t) (Hks : ld_kmallocs st = k :: ks).

Lemma seg_free : range_free (p_va h) (p_va h + p_memsz h) (inorder t).
Proof.
  intros b Hb. left. pose proof (li_below _ _ _ _ Hinv b Hb).
  destruct (seg_bounds _ _ _ Hseg) as (_ & _ & _ & ? & _). lia.
Qed.

Lemma seg_unmapped a : seg_lo h ≤ a < seg_hi h → mapped (ld_mem st) g 0 a = None.
Proof.
  intros Ha. apply (li_unmapped _ _ _ _ Hinv).
  destruct (seg_bounds _ _ _ Hseg) as (_ & _ & _ & _ & _ & ?). lia.
Qed.

(** The bytes of the file over the zeros of the new pages. *)
Lemma seg_write s1 :
  filled g 0 (ld_mem st) s1 (seg_lo h) (seg_hi h) zeros →
  ∃ s2 s3, copy_out (Z.to_nat (p_filesz h)) img (slot g 0) (p_va h) (binary + p_offset h) s1 = Ok (tt, s2) ∧
    clear_user (Z.to_nat (p_memsz h - p_filesz h)) (slot g 0) (p_va h + p_filesz h) s2 = Ok (tt, s3) ∧
    filled g 0 (ld_mem st) s3 (seg_lo h) (seg_hi h) (seg_byte img binary h).
Proof.
  intros F1. destruct (seg_bounds _ _ _ Hseg) as (_ & _ & B0 & B1 & B2 & B3).
  destruct Hseg as [H1 H2 H3 H4 [H5 H5'] H6]. assert (HP : PAGE_SIZE = 4096) by done.
  assert (Hr1 : ∀ lo hi, seg_lo h ≤ lo → hi ≤ seg_hi h → mapped_range s1 g 0 lo hi).
  { intros lo hi Hlo Hhi a Ha. pose proof (fi_new _ _ _ _ _ _ _ F1 a) as Hb.
    unfold ubyte, zeros in Hb. destruct (mapped s1 g 0 a); [by eexists|].
    simpl in Hb. discriminate Hb; [unfold user_va|]; lia. }
  destruct (copy_out_ok g 0 img (Z.to_nat (p_filesz h)) s1 (p_va h) (binary + p_offset h))
    as (s2 & Hrun2 & W2); rewrite ?Z2Nat.id by lia; try lia; [apply F1|done|apply Hr1; lia|].
  rewrite Z2Nat.id in W2 by lia.
  destruct (clear_user_ok g 0 (Z.to_nat (p_memsz h - p_filesz h)) s2 (p_va h + p_filesz h))
    as (s3 & Hrun3 & W3); rewrite ?Z2Nat.id by lia; try lia; [apply W2| |].
  { eapply wrote_range; [exact W2|lia|lia|apply Hr1; lia]. }
  rewrite Z2Nat.id in W3 by lia. exists s2, s3. split_and!; [done|done|].
  eapply (filled_wrote g 0 _ s2); [|exact W3| |].
  - eapply (filled_wrote g 0 _ s1); [exact F1|exact W2| |done].
    intros a [b Hb]. unfold image_at in Hb. case_decide; [lia|done].
  - intros a [b Hb]. unfold zero_at in Hb. case_decide; [lia|done].
  - intros a Ha. unfold seg_byte, zero_at, image_at, zeros. repeat case_decide; try done; try lia.
    destruct (H6 (a - p_va h)) as (b & -> & _); [lia|done].
Qed.

Lemma load_segment_ok :
  ∃ r st', load_segment fuel img binary h st = Ok (r, st') ∧
    (r = - ENOMEM ∧ full (ld_mem st') ∨ r = 0 ∧ seg_loaded g img binary h k.1 t st st').
Proof.
  destruct (seg_bounds _ _ _ Hseg) as (_ & _ & B0 & B1 & B2 & B3).
  pose proof Hseg as [H1 H2 H3 H4 [H5 H5'] H6]. assert (HP : PAGE_SIZE = 4096) by done.
  destruct (marks_keep h (ld_mm st)) as [Ma Mp]. unfold load_segment. fold (seg_marks h).
  erewrite bind_Ok by reflexivity. fold (seg_marks h (ld_mm st)).
  set (st1 := set_ld_mm (seg_marks h (ld_mm st)) st).
  destruct (new_vma_ok fuel st1 t (p_va h) (p_memsz h) k ks) as (m' & Hrun & Hk0 & _ & _ & Hok' & Hal');
    try done; [unfold st1; simpl; rewrite Ma; apply Hinv|apply Hinv|apply seg_free|].
  rewrite (bind_Ok _ _ _ _ _ Hrun). rewrite bool_decide_eq_false_2 by done.
  erewrite bind_Ok by reflexivity. set (st2 := mk_load _ _ _ _ _).
  assert (Epgd : mm_pgd (ld_mm st2) = slot g 0) by (simpl; rewrite Mp; apply Hinv).
  assert (Ecr3 : ld_cr3 st2 = slot g 0) by apply Hinv.
  rewrite Epgd, Ecr3.
  destruct (region_alloc_ok g 0 (ld_mem st) (p_va h) (p_memsz h) (li_space _ _ _ _ Hinv) H1 H2 H4 seg_unmapped)
    as (r & s1 & Hreg & Hr).
  rewrite (bind_Ok _ _ _ _ _ (in_mem_ok _ st2 r s1 Hreg)).
  destruct Hr as [[-> Hfull]|[-> F1]].
  { rewrite bool_decide_eq_true_2 by (unfold ENOMEM; lia). eexists _, _. split; [reflexivity|]. by left. }
  rewrite bool_decide_eq_false_2 by lia. rewrite !u32_small by (unfold KERNEL_BASE_ADDR in *; lia).
  destruct (seg_write s1 F1) as (s2 & s3 & Hcopy & Hclear & F3).
  erewrite bind_Ok by (eapply in_mem_ok; exact Hcopy). rewrite bool_decide_eq_false_2 by lia.
  erewrite bind_Ok by (eapply in_mem_ok; exact Hclear).
  eexists 0, _. split; [reflexivity|]. right. split; [done|]. split; [|by rewrite Hks|exact F3|done].
  split; [exact Epgd|exact Ecr3|apply F3|exact Hok'|exact Hal'| |].
  - intros b. rewrite tinsert_perm. intros [->|Hb]%elem_of_cons; [by apply (seg_area img binary)|].
    pose proof (li_below _ _ _ _ Hinv b Hb). lia.
  - intros a Ha. cbn [ld_mem]. rewrite (fi_mapped _ _ _ _ _ _ _ F3) by (unfold user_va; lia).
    apply (li_unmapped _ _ _ _ Hinv). lia.
Qed.
End segment.

(** ** The segments of a program *)

(** The byte at [a] of an address space that held [old] there. *)
Fixpoint prog_byte (img : gmap Z Z) (binary : Z) (hs : list ProgHeader) (a : Z) (old : option Z) : option Z :=
  match hs with
  | [] => old
  | h :: hs => if decide (seg_lo h ≤ a < seg_hi h) then seg_byte img binary h a
               else prog_byte img binary hs a old
  end.

Definition outside (hs : list ProgHeader) (a : Z) : Prop := Forall (λ h, ¬ (seg_lo h ≤ a < seg_hi h)) hs.

Lemma prog_byte_outside img binary hs a old : outside hs a → prog_byte img binary hs a old = old.
Proof. induction 1 as [|h hs Hh _ IH]; [done|]. simpl. by rewrite decide_False. Qed.

(** The segments lie one above the other, above [lim]. *)
Fixpoint ascending (lim : Z) (hs : list ProgHeader) : Prop :=
  match hs with [] => True | h :: hs => lim ≤ seg_lo h ∧ ascending (seg_hi h) hs end.

(** The end of the last one. *)
Fixpoint top (lim : Z) (hs : list ProgHeader) : Z :=
  match hs with [] => lim | h :: hs => top (seg_hi h) hs end.

Record loaded (g : Z) (img : gmap Z Z) (binary : Z) (hs : list ProgHeader) (s s' : mstate) : Prop := {
  lo_space : space s' g 0;
  lo_byte : ∀ a, user_va a → ubyte s' g 0 a = prog_byte img binary hs a (ubyte s g 0 a);
  lo_mapped : ∀ a, user_va a → outside hs a → mapped s' g 0 a = mapped s g 0 a;
  lo_fresh : ∀ a e, user_va a → mapped s' g 0 a = Some e → mapped s g 0 a = Some e ∨ ¬ busy s (eframe e);
  lo_kept : ∀ q, busy s q → busy s' q ∧ meta s' q = meta s q;
  lo_tables : ∀ q, busy s q → no_table s g 0 q → no_table s' g 0 q;
  lo_data : ∀ q, busy s q → no_table s g 0 q → mem s' !! q = mem s !! q }.

Lemma loaded_nil g img binary s : space s g 0 → loaded g img binary [] s s.
Proof. split; auto. Qed.

Lemma ascending_above img binary hs : ∀ lim,
  Forall (seg_ok img binary) hs → ascending lim hs → Forall (λ h, lim ≤ seg_lo h) hs ∧ lim ≤ top lim hs.
Proof.
  induction hs as [|h hs IH]; intros lim Hok; simpl; [by split; [constructor|lia]|].
  apply Forall_cons in Hok as [Hh Hok]. intros [Hlo Hasc].
  destruct (IH _ Hok Hasc) as [Hab Htop]. destruct (seg_bounds _ _ _ Hh) as (_ & _ & _ & B1 & B2 & _).
  pose proof (so_mem _ _ _ Hh). split; [|lia]. constructor; [done|].
  eapply Forall_impl; [exact Hab|]. simpl. lia.
Qed.

Lemma loaded_cons g img binary h hs s s1 s2 :
  seg_ok img binary h → Forall (seg_ok img binary) hs → ascending (seg_hi h) hs →
  filled g 0 s s1 (seg_lo h) (seg_hi h) (seg_byte img binary h) → loaded g img binary hs s1 s2 →
  loaded g img binary (h :: hs) s s2.
Proof.
  intros Hh Hhs Hasc F L. destruct (ascending_above _ _ _ _ Hhs Hasc) as [Hab _].
  assert (Hout : ∀ a, a < seg_hi h → outside hs a).
  { intros a Ha. eapply Forall_impl; [exact Hab|]. simpl. lia. }
  split; [apply L| | | | | |].
  - intros a Hv. rewrite (lo_byte _ _ _ _ _ _ L) by done. simpl. case_decide as E.
    + rewrite prog_byte_outside by (apply Hout; lia). by apply (fi_new _ _ _ _ _ _ _ F).
    + by rewrite (fi_byte _ _ _ _ _ _ _ F).
  - intros a Hv Ho. apply Forall_cons in Ho as [Ho1 Ho2].
    rewrite (lo_mapped _ _ _ _ _ _ L) by done. by apply (fi_mapped _ _ _ _ _ _ _ F).
  - intros a e Hv He. destruct (lo_fresh _ _ _ _ _ _ L a e Hv He) as [H1|H1].
    + destruct (decide (seg_lo h ≤ a < seg_hi h)); [right; by eapply (fi_fresh _ _ _ _ _ _ _ F)|left].
      by rewrite <- (fi_mapped _ _ _ _ _ _ _ F).
    + right. intros Hb. apply H1. by apply (fi_kept _ _ _ _ _ _ _ F).
  - intros q Hq. destruct (fi_kept _ _ _ _ _ _ _ F q Hq) as [Hq1 ?].
    destruct (lo_kept _ _ _ _ _ _ L q Hq1) as [? ?]. split; [done|congruence].
  - intros q Hq Hn. destruct (fi_kept _ _ _ _ _ _ _ F q Hq) as [Hq1 _].
    apply (lo_tables _ _ _ _ _ _ L q Hq1), (fi_tables _ _ _ _ _ _ _ F q Hq Hn).
  - intros q Hq Hn. destruct (fi_kept _ _ _ _ _ _ _ F q Hq) as [Hq1 _].
    rewrite (lo_data _ _ _ _ _ _ L q Hq1 (fi_tables _ _ _ _ _ _ _ F q Hq Hn)).
    by apply (fi_data _ _ _ _ _ _ _ F).
Qed.

(** The program headers of the image at [ph]: a type, and the header if it is one to
    load. *)
Fixpoint headers_at (img : gmap Z Z) (ph : Z) (l : list (Z * ProgHeader)) : Prop :=
  match l with
  | [] => True
  | (ty, h) :: l => load_le img ph 4 = Some ty ∧ (ty = ELF_PROG_LOAD → read_ph img ph = Ok h) ∧
      headers_at img (ph + SIZEOF_PROGHEADER) l
  end.

Definition loads (l : list (Z * ProgHeader)) : list ProgHeader :=
  snd <$> filter (λ x, x.1 = ELF_PROG_LOAD) l.

Definition seg_range (h : ProgHeader) : Z * Z := (seg_lo h, seg_lo h + ROUNDUP (p_memsz h) PAGE_SIZE).

Lemma set_areas_twice a b mm : set_areas a (set_areas b mm) = set_areas a mm.
Proof. done. Qed.

Lemma marks_set_areas h a mm : seg_marks h (set_areas a mm) = set_areas a (seg_marks h mm).
Proof. unfold seg_marks. by case_match. Qed.

Definition all_marks (hs : list ProgHeader) (mm : user_mm) : user_mm := foldl (λ mm h, seg_marks h mm) mm hs.

Lemma all_marks_areas hs : ∀ a mm, all_marks hs (set_areas a mm) = set_areas a (all_marks hs mm).
Proof.
  induction hs as [|h hs IH]; intros a mm; [done|]. cbn [all_marks foldl]. rewrite marks_set_areas. apply IH.
Qed.

(** The program is in memory and its areas are in the tree. *)
Record prog_loaded (g : Z) (img : gmap Z Z) (binary : Z) (hs : list ProgHeader) (st st' : load_state)
    (t t' : tree) (lim : Z) : Prop := {
  pl_inv : load_inv g st' t' (top lim hs);
  pl_mem : loaded g img binary hs (ld_mem st) (ld_mem st');
  pl_kmallocs : good_kmallocs (ld_kmallocs st') t' ∧
    (length (ld_kmallocs st') + length hs = length (ld_kmallocs st))%nat;
  pl_height : (height t' ≤ height t + length hs)%nat;
  pl_marks : ld_mm st' = set_areas (mm_areas (ld_mm st')) (all_marks hs (ld_mm st));
  pl_ranges : area_range <$> inorder t' ≡ₚ (seg_range <$> hs) ++ (area_range <$> inorder t) }.

Lemma prog_loaded_nil g img binary st t lim :
  load_inv g st t lim → good_kmallocs (ld_kmallocs st) t → prog_loaded g img binary [] st st t t lim.
Proof.
  intros Hinv Hk. split; [done|apply loaded_nil, Hinv|split; [done|simpl; lia]|simpl; lia| |done].
  simpl. by destruct (ld_mm st).
Qed.

Lemma prog_loaded_cons g img binary h hs st st1 st2 k t t2 lim :
  seg_ok img binary h → Forall (seg_ok img binary) hs → ascending (seg_hi h) hs →
  ld_kmallocs st ≠ [] →
  seg_loaded g img binary h k t st st1 →
  prog_loaded g img binary hs st1 st2 (tinsert (new_area k (p_va h) (p_memsz h)) t) t2 (seg_hi h) →
  prog_loaded g img binary (h :: hs) st st2 t t2 lim.
Proof.
  intros Hh Hhs Hasc Hne L1 L2. split; [apply L2| | | | |].
  - eapply loaded_cons; try done; [apply L1|apply L2].
  - destruct (pl_kmallocs _ _ _ _ _ _ _ _ _ L2) as [Hk Hl]. split; [done|].
    rewrite (sl_kmallocs _ _ _ _ _ _ _ _ L1) in Hl. destruct (ld_kmallocs st); [done|]. simpl in *. lia.
  - pose proof (pl_height _ _ _ _ _ _ _ _ _ L2). pose proof (tree_height_insert (new_area k (p_va h) (p_memsz h)) t).
    simpl. lia.
  - rewrite (pl_marks _ _ _ _ _ _ _ _ _ L2), (sl_marks _ _ _ _ _ _ _ _ L1).
    rewrite all_marks_areas, set_areas_twice. done.
  - rewrite (pl_ranges _ _ _ _ _ _ _ _ _ L2), tinsert_perm, fmap_cons. simpl.
    by rewrite <- Permutation_middle.
Qed.

Lemma load_segments_ok g img binary fuel l : ∀ n st t lim ph,
  (length l < n)%nat → headers_at img ph l → 0 ≤ ph → ph + SIZEOF_PROGHEADER * Z.of_nat (length l) < 2 ^ 32 →
  Forall (seg_ok img binary) (loads l) → ascending lim (loads l) → load_inv g st t lim →
  (height t + length (loads l) < fuel)%nat → good_kmallocs (ld_kmallocs st) t →
  (length (loads l) ≤ length (ld_kmallocs st))%nat →
  ∃ r st', load_segments n fuel img binary ph (ph + SIZEOF_PROGHEADER * Z.of_nat (length l)) st = Ok (r, st') ∧
    (r = - ENOMEM ∧ full (ld_mem st') ∨
     r = 0 ∧ ∃ t', prog_loaded g img binary (loads l) st st' t t' lim).
Proof.
  assert (HS : SIZEOF_PROGHEADER = 32) by done.
  induction l as [|[ty h] l IH]; intros [|n] st t lim ph Hn Hat Hph0 Hph Hok Hasc Hinv Hf Hk Hlen;
    try (simpl in Hn; lia).
  { exists 0, st. cbn [load_segments length]. rewrite bool_decide_eq_false_2 by lia. split; [done|].
    right. split; [done|]. exists t. by apply prog_loaded_nil. }
  destruct Hat as (Hty & Hrd & Hat). cbn [length] in *. cbn [load_segments].
  rewrite bool_decide_eq_true_2 by lia.
  rewrite (bind_Ok _ _ _ _ _ (lift_Ok (fetch (load_le img ph 4)) ty st ltac:(by rewrite Hty))).
  rewrite (u32_small (ph + SIZEOF_PROGHEADER)) by lia.
  assert (Eend : ph + SIZEOF_PROGHEADER * Z.of_nat (S (length l)) =
    ph + SIZEOF_PROGHEADER + SIZEOF_PROGHEADER * Z.of_nat (length l)) by lia. rewrite Eend in *.
  assert (El : loads ((ty, h) :: l) = if decide (ty = ELF_PROG_LOAD) then h :: loads l else loads l).
  { unfold loads. rewrite filter_cons. simpl. by case_decide. }
  rewrite El in *. case_decide as Et.
  - rewrite bool_decide_eq_false_2 by tauto.
    rewrite (bind_Ok _ _ _ _ _ (lift_Ok _ _ _ (Hrd Et))).
    pose proof Hok as [Hh Hhs]%Forall_cons. destruct Hasc as [Hlim Hasc].
    destruct (ld_kmallocs st) as [|k ks] eqn:Eks; [simpl in Hlen; lia|].
    destruct (load_segment_ok g img binary h fuel st t lim k ks Hh Hinv Hlim) as (r & st1 & Hrun & Hr);
      [lia|done|done|].
    rewrite (bind_Ok _ _ _ _ _ Hrun). destruct Hr as [[-> Hfull]|[-> L1]].
    { rewrite bool_decide_eq_true_2 by (unfold ENOMEM; lia). eexists _, st1. split; [done|]. by left. }
    rewrite bool_decide_eq_false_2 by lia.
    pose proof (sl_kmallocs _ _ _ _ _ _ _ _ L1) as Ek1. rewrite Eks in Ek1. cbn [tail] in Ek1.
    pose proof (tree_height_insert (new_area k.1 (p_va h) (p_memsz h)) t). cbn [length] in *.
    destruct (IH n st1 (tinsert (new_area k.1 (p_va h) (p_memsz h)) t) (seg_hi h) (ph + SIZEOF_PROGHEADER))
      as (r2 & st2 & Hrun2 & Hr2); try done; try lia; [apply L1| |rewrite Ek1; lia|].
    { rewrite Ek1. by eapply good_kmallocs_tail. }
    exists r2, st2. split; [done|]. destruct Hr2 as [?|[-> (t' & L2)]]; [by left|right].
    split; [done|]. exists t'. eapply prog_loaded_cons; try done. by rewrite Eks.
  - rewrite bool_decide_eq_true_2 by done. apply IH; try done; lia.
Qed.

(** ** load_icode *)

(** The mm of a new task. *)
Definition fresh_mm (g : Z) : user_mm :=
  mk_user_mm (mk_mm 0 0 USER_UNNAME_ZONE 0 0 0 ∅) (slot g 0) 0 0 0 0 0 1.

(** Where [load_icode] puts the heap. *)
Definition heap_start (mm : user_mm) : Z :=
  ROUNDUP (if bool_decide (end_data mm ≠ 0) then end_data mm else end_code mm) PAGE_SIZE.

(** A program the loader can load: the segments lie one above the other below the
    stack, and the marks it takes from them put the heap behind the last one. *)
Record program_ok (img : gmap Z Z) (binary entry : Z) (l : list (Z * ProgHeader)) : Prop := {
  po_addr : binary ≠ 0;
  po_magic : load_le img binary 4 = Some ELF_MAGIC;
  po_entry : load_le img (binary + 24) 4 = Some entry;
  po_headers : ∃ phoff, load_le img (binary + 28) 4 = Some phoff ∧ 0 ≤ binary + phoff ∧
    binary + phoff + SIZEOF_PROGHEADER * Z.of_nat (length l) < 2 ^ 32 ∧ headers_at img (binary + phoff) l;
  po_phnum : load_le img (binary + 44) 2 = Some (Z.of_nat (length l));
  po_segments : Forall (seg_ok img binary) (loads l);
  po_ascending : ascending PAGE_SIZE (loads l);
  po_heap : ∀ g, heap_start (all_marks (loads l) (fresh_mm g)) = top PAGE_SIZE (loads l);
  po_room : top PAGE_SIZE (loads l) + PAGE_SIZE ≤ USER_STACKBOTT }.

(** The task is ready to run the program. *)
Record program_in (g : Z) (img : gmap Z Z) (binary entry back : Z) (hs : list ProgHeader)
    (st st' : load_state) : Prop := {
  pi_mem : loaded g img binary hs (ld_mem st) (ld_mem st');
  pi_eip : ld_eip st' = entry;
  pi_cr3 : ld_cr3 st' = back;
  pi_pgd : mm_pgd (ld_mm st') = slot g 0;
  pi_brk : start_brk (mm_areas (ld_mm st')) = top PAGE_SIZE hs ∧
    end_brk (mm_areas (ld_mm st')) = top PAGE_SIZE hs + PAGE_SIZE;
  pi_areas : ∃ t, mm_ok (mm_areas (ld_mm st')) t ∧ aligned_areas t ∧
    area_range <$> inorder t ≡ₚ (top PAGE_SIZE hs, top PAGE_SIZE hs + PAGE_SIZE) ::
      (USER_STACKBOTT, USER_STACKTOP) :: (seg_range <$> hs) }.

Section icode.
Context (g : Z) (img : gmap Z Z) (binary entry back : Z) (l : list (Z * ProgHeader)) (fuel : nat).
Context (Hp : program_ok img binary entry l).

Lemma top_aligned hs : ∀ lim, Forall (seg_ok img binary) hs → page_aligned lim → page_aligned (top lim hs).
Proof.
  induction hs as [|h hs IH]; intros lim Hok Hlim; [done|]. apply Forall_cons in Hok as [Hh Hok].
  apply IH; [done|]. by destruct (seg_bounds _ _ _ Hh) as (_ & ? & _).
Qed.

Lemma top_bounds : PAGE_SIZE ≤ top PAGE_SIZE (loads l) ∧ page_aligned (top PAGE_SIZE (loads l)).
Proof.
  split; [by apply (ascending_above img binary); apply Hp|]. apply top_aligned; [apply Hp|]. by exists 1.
Qed.

(** The areas of the stack and of the heap. *)
Lemma stack_heap_ok st st1 t1 k1 k2 ks :
  prog_loaded g img binary (loads l) st st1 Leaf t1 PAGE_SIZE →
  ld_mm st = fresh_mm g → ld_kmallocs st1 = k1 :: k2 :: ks → (S (height t1) < fuel)%nat →
  ∃ st',
    (vma ← new_vma fuel USER_STACKBOTT USER_STACK_SIZE;
     if bool_decide (vma = 0) then panic
     else
       st ← get;
       let mm := ld_mm st in
       let brk0 := if bool_decide (end_data mm ≠ 0) then end_data mm else end_code mm in
       let brk := ROUNDUP brk0 PAGE_SIZE in
       modify (set_ld_mm (set_areas (set_brk brk (u32 (brk + PAGE_SIZE)) (mm_areas mm)) mm)) ;;
       vma ← new_vma fuel brk PAGE_SIZE;
       if bool_decide (vma = 0) then panic
       else
         entry ← lift (fetch (load_le img (binary + 24) 4));
         set_eip entry ;;
         lcr3 back ;;
         mret 0) st1 = Ok (0, st') ∧
    program_in g img binary entry back (loads l) st st'.
Proof.
  intros L Hmm Hks Hf. set (hs := loads l) in *. set (tp := top PAGE_SIZE hs).
  assert (HP : PAGE_SIZE = 4096) by done. destruct top_bounds as [Htp Htpa]. fold hs tp in Htp, Htpa.
  pose proof (po_room _ _ _ _ Hp) as Hroom. fold hs tp in Hroom.
  destruct (pl_kmallocs _ _ _ _ _ _ _ _ _ L) as [Hk _]. rewrite Hks in Hk.
  pose proof (pl_inv _ _ _ _ _ _ _ _ _ L) as Hinv. fold tp in Hinv.
  destruct (new_vma_ok fuel st1 t1 USER_STACKBOTT USER_STACK_SIZE k1 (k2 :: ks))
    as (m1 & Hrun1 & Hk1 & _ & _ & Hok1 & Hal1); try done; [apply Hinv|apply Hinv|lia| |].
  { intros b Hb. left. pose proof (li_below _ _ _ _ Hinv b Hb). lia. }
  rewrite (bind_Ok _ _ _ _ _ Hrun1), bool_decide_eq_false_2 by done. erewrite bind_Ok by reflexivity.
  set (st2 := mk_load _ _ _ _ _). cbv zeta. erewrite bind_Ok by reflexivity.
  assert (Ebrk : ROUNDUP (if bool_decide (end_data (ld_mm st2) ≠ 0) then end_data (ld_mm st2)
    else end_code (ld_mm st2)) PAGE_SIZE = tp).
  { change (heap_start (ld_mm st2) = tp). unfold tp, hs. rewrite <- (po_heap _ _ _ _ Hp g). fold hs.
    pose proof (pl_marks _ _ _ _ _ _ _ _ _ L) as Em. rewrite Hmm in Em. unfold st2. cbn [ld_mm]. rewrite Em. done. }
  rewrite Ebrk. set (st3 := set_ld_mm _ st2).
  destruct (new_vma_ok fuel st3 (tinsert (new_area k1.1 USER_STACKBOTT USER_STACK_SIZE) t1) tp PAGE_SIZE k2 ks)
    as (m2 & Hrun2 & Hk2 & Hb1 & Hb2 & Hok2 & Hal2); try done; try lia.
  { destruct Hok1 as [O1 O2 O3]. by split. }
  { pose proof (tree_height_insert (new_area k1.1 USER_STACKBOTT USER_STACK_SIZE) t1). lia. }
  { by eapply good_kmallocs_tail. }
  { unfold USER_STACKBOTT, KERNEL_BASE_ADDR in *. lia. }
  { intros b. rewrite tinsert_perm. intros [->|Hb]%elem_of_cons; [right; done|left].
    by apply (li_below _ _ _ _ Hinv). }
  rewrite (bind_Ok _ _ _ _ _ Hrun2), bool_decide_eq_false_2 by done.
  erewrite bind_Ok by (apply lift_Ok; rewrite (po_entry _ _ _ _ Hp); reflexivity).
  erewrite bind_Ok by reflexivity. erewrite bind_Ok by reflexivity.
  eexists. split; [reflexivity|].
  split; cbn [ld_mm ld_mem ld_eip ld_cr3 set_areas mm_areas mm_pgd]; [apply L|done|done|apply Hinv| |].
  - rewrite Hb1, Hb2. split; [done|]. apply u32_small. unfold USER_STACKBOTT in *. lia.
  - exists (tinsert (new_area k2.1 tp PAGE_SIZE) (tinsert (new_area k1.1 USER_STACKBOTT USER_STACK_SIZE) t1)).
    split_and!; [done|done|]. rewrite tinsert_perm, fmap_cons, tinsert_perm, fmap_cons.
    assert (E1 : area_range (new_area k2.1 tp PAGE_SIZE) = (tp, tp + PAGE_SIZE)).
    { unfold area_range, new_area. cbn [a_lo a_hi]. rewrite ROUNDDOWN_id by done. done. }
    rewrite E1. rewrite (pl_ranges _ _ _ _ _ _ _ _ _ L), app_nil_r. done.
Qed.

Lemma load_icode_ok st :
  ld_mm st = fresh_mm g → space (ld_mem st) g 0 → (∀ a, user_va a → mapped (ld_mem st) g 0 a = None) →
  good_kmallocs (ld_kmallocs st) Leaf → (length (loads l) + 2 ≤ length (ld_kmallocs st))%nat →
  (length (loads l) + 1 < fuel)%nat →
  ∃ r st', load_icode fuel img binary back st = Ok (r, st') ∧
    (r = - ENOMEM ∧ full (ld_mem st') ∨ r = 0 ∧ program_in g img binary entry back (loads l) st st').
Proof.
  intros Hmm Hsp Hun Hk Hlen Hf. destruct Hp as [P1 P2 P3 (phoff & P4 & P5 & P6 & P7) P8 P9 P10 P11 P12].
  unfold load_icode. rewrite bool_decide_eq_true_2 by done. run_step.
  rewrite (bind_Ok _ _ _ _ _ (lift_Ok (fetch (load_le img binary 4)) _ st ltac:(by rewrite P2))).
  rewrite bool_decide_eq_false_2 by tauto.
  rewrite (bind_Ok _ _ _ _ _ (lift_Ok (fetch (load_le img (binary + 28) 4)) _ st ltac:(by rewrite P4))).
  rewrite (bind_Ok _ _ _ _ _ (lift_Ok (fetch (load_le img (binary + 44) 2)) _ st ltac:(by rewrite P8))).
  erewrite bind_Ok by reflexivity. erewrite bind_Ok by reflexivity. set (st0 := mk_load _ _ _ _ _).
  assert (SIZEOF_PROGHEADER = 32) as HS by done.
  cbv zeta. rewrite (u32_small (binary + phoff)) by lia. rewrite u32_small by lia. rewrite Nat2Z.id.
  assert (Hinv : load_inv g st0 Leaf PAGE_SIZE).
  { split; cbn [st0 ld_mm ld_mem ld_cr3]; [by rewrite Hmm|by rewrite Hmm|done| | | |].
    - rewrite Hmm. split; [done|constructor|split; constructor].
    - by intros a ?%elem_of_nil.
    - by intros b ?%elem_of_nil.
    - intros a Ha. apply Hun. unfold user_va. assert (PAGE_SIZE = 4096) by done. lia. }
  destruct (load_segments_ok g img binary fuel l (S (length l)) st0 Leaf PAGE_SIZE (binary + phoff))
    as (r & st1 & Hrun & Hr); try done; try lia; [simpl; lia|simpl; lia|].
  rewrite (bind_Ok _ _ _ _ _ Hrun). destruct Hr as [[-> Hfull]|[-> (t1 & L)]].
  { rewrite bool_decide_eq_true_2 by (unfold ENOMEM; lia). eexists _, st1. split; [done|]. by left. }
  rewrite bool_decide_eq_false_2 by lia.
  destruct (pl_kmallocs _ _ _ _ _ _ _ _ _ L) as [_ Hl]. cbn [st0 ld_kmallocs] in Hl.
  pose proof (pl_height _ _ _ _ _ _ _ _ _ L). simpl in *.
  destruct (ld_kmallocs st1) as [|k1 [|k2 ks]] eqn:Eks; [simpl in Hl; lia|simpl in Hl; lia|].
  destruct (stack_heap_ok st0 st1 t1 k1 k2 ks L) as (st' & Hrun' & Hpi); [done|done|lia|].
  exists 0, st'. split; [exact Hrun'|]. right. split; [done|]. destruct Hpi. by split.
Qed.
End icode.

(** ** The property *)

(** C13: for an ELF image whose segments lie one above the other below the stack,
    [load_icode] of a new address space returns.  Either memory ran out ([-ENOMEM],
    no frame is free), or it returns 0 and the address space holds at every address
    of a segment the byte of the file, zero in the rest of the pages of the segment,
    and nothing anywhere else; the areas are the segments, the stack and a heap of
    one page behind the last segment, disjoint and in order; the entry point is that
    of the header and the processor is back on its old page tables.  Frames in use
    before keep their contents, unless they are tables of the new address space. *)
Theorem load_icode_loads (g : Z) (img : gmap Z Z) (binary entry back : Z) (l : list (Z * ProgHeader))
    (fuel : nat) (st : load_state) :
  program_ok img binary entry l → ld_mm st = fresh_mm g → space (ld_mem st) g 0 →
  (∀ a, user_va a → mapped (ld_mem st) g 0 a = None) →
  good_kmallocs (ld_kmallocs st) Leaf → (length (loads l) + 2 ≤ length (ld_kmallocs st))%nat →
  (length (loads l) + 1 < fuel)%nat →
  ∃ r st', load_icode fuel img binary back st = Ok (r, st') ∧
    (r = - ENOMEM ∧ full (ld_mem st') ∨
     r = 0 ∧ program_in g img binary entry back (loads l) st st' ∧
     ∀ a, user_va a → ubyte (ld_mem st') g 0 a = prog_byte img binary (loads l) a None).
Proof.
  intros Hp Hmm Hsp Hun Hk Hlen Hf.
  destruct (load_icode_ok g img binary entry back l fuel Hp st Hmm Hsp Hun Hk Hlen Hf) as (r & st' & Hrun & Hr).
  exists r, st'. split; [done|]. destruct Hr as [?|[-> Hpi]]; [by left|right]. split_and!; [done|done|].
  intros a Ha. rewrite (lo_byte _ _ _ _ _ _ (pi_mem _ _ _ _ _ _ _ _ Hpi)) by done.
  unfold ubyte. by rewrite (Hun a Ha).
Qed.

(** A program with a text and a data segment, loaded into a new address space. *)
Fixpoint le (n : nat) (v : Z) : list Z :=
  match n with O => [] | S n => v mod 256 :: le n (v / 256) end.

Definition tiny_text : ProgHeader := mk_ph 116 0x400000 8 8 5.
Definition tiny_data : ProgHeader := mk_ph 124 0x401000 4 16 6.

Definition tiny_header (ty : Z) (h : ProgHeader) : list Z :=
  le 4 ty ++ le 4 (p_offset h) ++ le 4 (p_va h) ++ le 4 0 ++ le 4 (p_filesz h) ++ le 4 (p_memsz h) ++
  le 4 (p_flags h) ++ le 4 4096.

Definition tiny_bytes : list Z :=
  le 4 ELF_MAGIC ++ replicate 12 0 ++ le 2 2 ++ le 2 3 ++ le 4 1 ++ le 4 0x400000 ++ le 4 52 ++ le 4 0 ++
  le 4 0 ++ le 2 52 ++ le 2 32 ++ le 2 2 ++ le 2 0 ++ le 2 0 ++ le 2 0 ++
  tiny_header 1 tiny_text ++ tiny_header 1 tiny_data ++ [17; 18; 19; 20; 21; 22; 23; 24] ++ [33; 34; 35; 36].

Definition tiny_addr : Z := 0xC0200000.
Definition tiny_img : gmap Z Z :=
  list_to_map (zip (seqZ tiny_addr (Z.of_nat (length tiny_bytes))) tiny_bytes).

Definition tiny_headers : list (Z * ProgHeader) := [(1, tiny_text); (1, tiny_data)].

Definition bytes_check (img : gmap Z Z) (src n : Z) : bool :=
  forallb (λ k, match img !! (src + k) with Some b => bool_decide (0 ≤ b < 256) | None => false end) (seqZ 0 n).

Lemma bytes_checked img src n : bytes_check img src n = true → holds_bytes img src n.
Proof.
  intros Hc k Hk. pose proof (forallb_seqZ _ n k Hc Hk) as H. cbv beta in H.
  destruct (img !! (src + k)) as [b|]; [|done]. apply bool_decide_eq_true in H. eauto.
Qed.

Lemma tiny_seg h : h = tiny_text ∨ h = tiny_data → seg_ok tiny_img tiny_addr h.
Proof.
  intros Hh. assert (bytes_check tiny_img (tiny_addr + p_offset h) (p_filesz h) = true).
  { destruct Hh as [->| ->]; vm_compute; reflexivity. }
  unfold tiny_addr in *.
  destruct Hh as [->| ->]; (split; [..|by apply bytes_checked]);
    unfold PAGE_SIZE, KERNEL_BASE_ADDR; cbn [tiny_text tiny_data p_va p_memsz p_filesz p_offset]; lia.
Qed.

Lemma tiny_ok : program_ok tiny_img tiny_addr 0x400000 tiny_headers.
Proof.
  split.
  - discriminate.
  - vm_compute. reflexivity.
  - vm_compute. reflexivity.
  - exists 52. split; [vm_compute; reflexivity|]. unfold tiny_addr, SIZEOF_PROGHEADER.
    split; [lia|]. split; [simpl; lia|].
    split; [vm_compute; reflexivity|]. split; [intros _; vm_compute; reflexivity|].
    split; [vm_compute; reflexivity|]. split; [intros _; vm_compute; reflexivity|exact I].
  - vm_compute. reflexivity.
  - constructor; [apply tiny_seg; by left|]. constructor; [apply tiny_seg; by right|constructor].
  - split; [vm_compute; discriminate|]. split; [vm_compute; discriminate|exact I].
  - intros g. vm_compute. reflexivity.
  - vm_compute. discriminate.
Qed.

Lemma small_space : space small_mm 9 0.
Proof.
  split; [apply small_mm_inv|apply small_tree| |].
  - intros va e Hv. by rewrite small_unmapped.
  - intros va va' e e' Hv Hv'. by rewrite small_unmapped.
Qed.

Definition tiny_start : load_state :=
  mk_load (fresh_mm 9) small_mm ((λ k, (k, (0, 0))) <$> [100; 200; 300; 400]) (slot 8 0) 0.

Lemma load_icode_loads_witness :
  ∃ st', load_icode 5 tiny_img tiny_addr (slot 8 0) tiny_start = Ok (0, st') ∧
    ubyte (ld_mem st') 9 0 0x400002 = Some 19 ∧ ubyte (ld_mem st') 9 0 0x401008 = Some 0.
Proof.
  destruct (load_icode_loads 9 tiny_img tiny_addr 0x400000 (slot 8 0) tiny_headers 5 tiny_start)
    as (r & st' & Hrun & Hr).
  - exact tiny_ok.
  - reflexivity.
  - exact small_space.
  - exact small_unmapped.
  - split; [apply (bool_decide_unpack _); vm_compute; exact I|]. intros k Hk. cbn [tiny_start ld_kmallocs] in Hk.
    apply list_elem_of_fmap in Hk as (x & -> & Hx). set_unfold in Hx. split_and!; [|by intros ?%elem_of_nil|done].
    simpl. lia.
  - vm_compute. lia.
  - vm_compute. lia.
  - assert (E : match load_icode 5 tiny_img tiny_addr (slot 8 0) tiny_start with Ok (r, _) => r | Stop _ => 1 end = 0)
      by (vm_compute; reflexivity).
    rewrite Hrun in E. subst r. destruct Hr as [[He _]|(_ & _ & Hb)]; [discriminate He|].
    exists st'. split; [exact Hrun|]. rewrite !Hb by (unfold user_va, KERNEL_BASE_ADDR; lia).
    split; vm_compute; reflexivity.
Defined.
