(* ===== verification/ExecArgs.v ===== *)
(** * The arguments of a program: the proof of [execve_args] of Exec

    The arguments are read in the address space of the current task, written through
    a page of it, and found by the new task on its stack. *)

From S2P Require Import Prelude Layout Buddy BuddyProofs Paging PagingProofs Vma VmaProofs Fault FaultProofs Fork ForkProofs Exec ExecMem.

Local Open Scope Z_scope.

(** ** Words and strings *)

(** A number of 32 bits, the lowest byte first. *)
Definition rd32 (rd : Z → option Z) (a : Z) : option Z :=
  b0 ← rd a; b1 ← rd (a + 1); b2 ← rd (a + 2); b3 ← rd (a + 3);
  Some (b0 + 256 * (b1 + 256 * (b2 + 256 * b3))).

(** The string [x] with its terminator. *)
Fixpoint cstr_at (rd : Z → option Z) (a : Z) (x : list Z) : Prop :=
  match x with
  | [] => rd a = Some 0
  | c :: x => rd a = Some c ∧ 0 < c < 256 ∧ cstr_at rd (a + 1) x
  end.

(** The byte [j] of [v]. *)
Definition byte_of (v j : Z) : Z := Z.shiftr v (8 * j) mod 256.

Definition word_at (a v x : Z) : option Z :=
  if decide (a ≤ x < a + 4) then Some (byte_of v (x - a)) else None.

Lemma byte_of_range v j : 0 ≤ byte_of v j < 256.
Proof. apply Z.mod_pos_bound. lia. Qed.

Lemma bytes_of_word v :
  0 ≤ v < 2 ^ 32 →
  byte_of v 0 + 256 * (byte_of v 1 + 256 * (byte_of v 2 + 256 * byte_of v 3)) = v.
Proof.
  intros Hv. unfold byte_of. rewrite !Z.shiftr_div_pow2 by lia. change (2 ^ (8 * 0)) with 1. rewrite Z.div_1_r.
  change (2 ^ (8 * 1)) with 256. change (2 ^ (8 * 2)) with (256 * 256). change (2 ^ (8 * 3)) with (256 * 256 * 256).
  rewrite <- !Z.div_div by lia.
  pose proof (Z.div_mod v 256 ltac:(lia)). pose proof (Z.div_mod (v / 256) 256 ltac:(lia)).
  pose proof (Z.div_mod (v / 256 / 256) 256 ltac:(lia)).
  rewrite (Z.mod_small (v / 256 / 256 / 256)); [lia|].
  split; [repeat apply Z.div_pos; lia|]. repeat apply Z.div_lt_upper_bound; lia.
Qed.

Lemma rd32_word rd a v :
  0 ≤ v < 2 ^ 32 → (∀ x, a ≤ x < a + 4 → rd x = word_at a v x) → rd32 rd a = Some v.
Proof.
  intros Hv Hrd. unfold rd32. rewrite (Hrd a), (Hrd (a + 1)), (Hrd (a + 2)), (Hrd (a + 3)) by lia. unfold word_at.
  rewrite !decide_True by lia. simpl. f_equal.
  replace (a - a) with 0 by lia. replace (a + 1 - a) with 1 by lia. replace (a + 2 - a) with 2 by lia.
  replace (a + 3 - a) with 3 by lia. by apply bytes_of_word.
Qed.

Lemma rd32_ext rd rd' a : (∀ x, a ≤ x < a + 4 → rd' x = rd x) → rd32 rd' a = rd32 rd a.
Proof. intros H. unfold rd32. by rewrite (H a), (H (a + 1)), (H (a + 2)), (H (a + 3)) by lia. Qed.

Lemma cstr_ext rd rd' x : ∀ a,
  (∀ y, a ≤ y ≤ a + Z.of_nat (length x) → rd' y = rd y) → cstr_at rd a x → cstr_at rd' a x.
Proof.
  induction x as [|c x IH]; intros a H; simpl.
  - intros Ha. rewrite H by (simpl; lia). done.
  - intros (Ha & Hc & Hx). split; [rewrite H by (simpl; lia); done|]. split; [done|].
    apply IH; [|done]. intros y Hy. apply H. simpl. lia.
Qed.

(** ** Loads and stores of the processor *)

Section mem.
Context (g : Z).

(** The addresses of the user below the page that is used for the transfer, which
    the code reads. *)
Definition low_range (a n : Z) : Prop := PAGE_SIZE ≤ a ∧ a + n ≤ USER_TEMPBOTT.

Lemma uload8_byte s a b :
  space s g 0 → PAGE_SIZE ≤ a < KERNEL_BASE_ADDR → ubyte s g 0 a = Some b → uload8 (slot g 0) a s = Ok (b, s).
Proof.
  intros Hs Ha Hb. assert (HP : PAGE_SIZE = 4096) by done. assert (Hv : user_va a) by (unfold user_va; lia).
  pose proof Hb as Hb'. unfold ubyte in Hb'. destruct (mapped s g 0 a) as [e|] eqn:He; [|done].
  destruct (sp_pages _ _ _ Hs a e Hv He) as [Hbe _].
  destruct (uload8_ok s g 0 (sp_inv _ _ _ Hs) (sp_tree _ _ _ Hs) a e Hv ltac:(lia) He Hbe) as (b' & Hrun & Hb2).
  rewrite Hb in Hb2. by injection Hb2 as <-.
Qed.

Lemma uload32_ok s a v :
  space s g 0 → PAGE_SIZE ≤ a → a + 4 ≤ KERNEL_BASE_ADDR → rd32 (ubyte s g 0) a = Some v →
  uload32 (slot g 0) a s = Ok (v, s).
Proof.
  intros Hs Hlo Hhi Hv. unfold rd32 in Hv. unfold uload32.
  destruct (ubyte s g 0 a) as [b0|] eqn:E0; [|done]. destruct (ubyte s g 0 (a + 1)) as [b1|] eqn:E1; [|done].
  destruct (ubyte s g 0 (a + 2)) as [b2|] eqn:E2; [|done]. destruct (ubyte s g 0 (a + 3)) as [b3|] eqn:E3; [|done].
  rewrite !u32_small by (unfold PAGE_SIZE, KERNEL_BASE_ADDR in *; lia).
  rewrite (bind_Ok _ _ _ _ _ (uload8_byte s a b0 Hs ltac:(lia) E0)).
  rewrite (bind_Ok _ _ _ _ _ (uload8_byte s (a + 1) b1 Hs ltac:(lia) E1)).
  rewrite (bind_Ok _ _ _ _ _ (uload8_byte s (a + 2) b2 Hs ltac:(lia) E2)).
  rewrite (bind_Ok _ _ _ _ _ (uload8_byte s (a + 3) b3 Hs ltac:(lia) E3)).
  injection Hv as <-. done.
Qed.

(** One byte of a number, as [ustore8] cuts it. *)
Lemma store_byte s a b :
  space s g 0 → PAGE_SIZE ≤ a < KERNEL_BASE_ADDR → is_Some (mapped s g 0 a) →
  ∃ s', ustore8 (slot g 0) a b s = Ok (tt, s') ∧
    wrote g 0 s s' (λ x, if decide (x = a) then Some (b mod 256) else None).
Proof.
  intros Hs Ha [e He]. assert (HP : PAGE_SIZE = 4096) by done. assert (Hv : user_va a) by (unfold user_va; lia).
  destruct (write_byte s g 0 a e (b mod 256) Hs Hv ltac:(lia) He) as (s' & Hrun & W); [apply Z.mod_pos_bound; lia|].
  exists s'. split; [|done]. rewrite <- Hrun. unfold ustore8.
  assert (E : u8 (b mod 256) = u8 b) by (unfold u8; apply Z.mod_mod; lia). by rewrite E.
Qed.

Lemma wrote_mapped s s' W lo n :
  wrote g 0 s s' W → 0 ≤ lo → lo + n ≤ KERNEL_BASE_ADDR →
  mapped_range s g 0 lo (lo + n) → mapped_range s' g 0 lo (lo + n).
Proof. intros. by eapply wrote_range. Qed.

Lemma ustore32_ok s a v :
  space s g 0 → PAGE_SIZE ≤ a → a + 4 ≤ KERNEL_BASE_ADDR → mapped_range s g 0 a (a + 4) →
  ∃ s', ustore32 (slot g 0) a v s = Ok (tt, s') ∧ wrote g 0 s s' (word_at a v).
Proof.
  intros Hs Hlo Hhi Hr. unfold ustore32. assert (HP : PAGE_SIZE = 4096) by done.
  rewrite !u32_small by (unfold PAGE_SIZE, KERNEL_BASE_ADDR in *; lia).
  destruct (store_byte s a v Hs) as (s1 & R1 & W1); [lia|apply Hr; lia|].
  pose proof (wrote_mapped _ _ _ a 4 W1 ltac:(lia) Hhi Hr) as Hr1.
  destruct (store_byte s1 (a + 1) (Z.shiftr v 8) (wr_space _ _ _ _ _ W1)) as (s2 & R2 & W2); [lia|apply Hr1; lia|].
  pose proof (wrote_mapped _ _ _ a 4 W2 ltac:(lia) Hhi Hr1) as Hr2.
  destruct (store_byte s2 (a + 2) (Z.shiftr v 16) (wr_space _ _ _ _ _ W2)) as (s3 & R3 & W3); [lia|apply Hr2; lia|].
  pose proof (wrote_mapped _ _ _ a 4 W3 ltac:(lia) Hhi Hr2) as Hr3.
  destruct (store_byte s3 (a + 3) (Z.shiftr v 24) (wr_space _ _ _ _ _ W3)) as (s4 & R4 & W4); [lia|apply Hr3; lia|].
  rewrite (bind_Ok _ _ _ _ _ R1), (bind_Ok _ _ _ _ _ R2), (bind_Ok _ _ _ _ _ R3), R4.
  exists s4. split; [done|].
  eapply wrote_trans; [eapply wrote_trans; [eapply wrote_trans; [exact W1|exact W2|]|exact W3|]|exact W4|];
    [reflexivity|reflexivity|].
  intros x _. unfold word_at, byte_of. simpl.
  destruct (decide (x = a + 3)) as [->|]; [rewrite decide_True by lia; by replace (a + 3 - a) with 3 by lia|].
  destruct (decide (x = a + 2)) as [->|]; [rewrite decide_True by lia; by replace (a + 2 - a) with 2 by lia|].
  destruct (decide (x = a + 1)) as [->|]; [rewrite decide_True by lia; by replace (a + 1 - a) with 1 by lia|].
  destruct (decide (x = a)) as [->|]; [rewrite decide_True by lia|rewrite decide_False by lia; done].
  by replace (a - a) with 0 by lia.
Qed.

(** *** Strings *)

Lemma ustrlen_ok s x : ∀ fuel a n,
  (length x < fuel)%nat → space s g 0 → cstr_at (ubyte s g 0) a x →
  PAGE_SIZE ≤ a → a + Z.of_nat (length x) < KERNEL_BASE_ADDR → 0 ≤ n → n + Z.of_nat (length x) < 2 ^ 31 →
  ustrlen fuel (slot g 0) a n s = Ok (n + Z.of_nat (length x), s).
Proof.
  induction x as [|c x IH]; intros [|fuel] a n Hf Hs Hx Hlo Hhi Hn0 Hn; try (simpl in Hf; lia); cbn [ustrlen length] in *.
  - rewrite (bind_Ok _ _ _ _ _ (uload8_byte s a 0 Hs ltac:(lia) Hx)). rewrite bool_decide_eq_true_2 by done.
    by rewrite Z.add_0_r.
  - destruct Hx as (Hc & Hcr & Hx).
    rewrite (bind_Ok _ _ _ _ _ (uload8_byte s a c Hs ltac:(lia) Hc)). rewrite bool_decide_eq_false_2 by lia.
    rewrite u32_small by (unfold PAGE_SIZE, KERNEL_BASE_ADDR in *; lia). rewrite i32_small by lia.
    rewrite IH; try done; try lia. do 2 f_equal. lia.
Qed.

(** The bytes of [x] and the terminator, at [a]. *)
Fixpoint str_at (a : Z) (x : list Z) (y : Z) : option Z :=
  match x with
  | [] => if decide (y = a) then Some 0 else None
  | c :: x => if decide (y = a) then Some c else str_at (a + 1) x y
  end.

Lemma str_at_range x : ∀ a y, is_Some (str_at a x y) → a ≤ y ≤ a + Z.of_nat (length x).
Proof.
  induction x as [|c x IH]; intros a y; cbn [str_at length]; (case_decide; [intros; subst; lia|]).
  - by intros [? ?].
  - intros Hy%IH. lia.
Qed.

Lemma str_at_some x : ∀ a y, a ≤ y ≤ a + Z.of_nat (length x) → is_Some (str_at a x y).
Proof.
  induction x as [|c x IH]; intros a y Hy; cbn [str_at length] in *; (case_decide; [by eexists|]); [lia|].
  apply IH. lia.
Qed.

Lemma str_at_below x : ∀ a y, y < a → str_at a x y = None.
Proof.
  intros a y Hy. destruct (str_at a x y) as [b|] eqn:E; [|done].
  pose proof (str_at_range x a y ltac:(rewrite E; by eexists)). lia.
Qed.

Lemma cstr_of_str_at rd x : ∀ a,
  Forall (λ c, 0 < c < 256) x →
  (∀ y, a ≤ y ≤ a + Z.of_nat (length x) → rd y = str_at a x y) → cstr_at rd a x.
Proof.
  induction x as [|c x IH]; intros a Hx Hrd; simpl in *.
  - rewrite Hrd by lia. by rewrite decide_True.
  - apply Forall_cons in Hx as [Hc Hx]. split; [rewrite Hrd by lia; by rewrite decide_True|]. split; [done|].
    apply IH; [done|]. intros y Hy. rewrite Hrd by lia. by rewrite decide_False by lia.
Qed.

Lemma cstr_chars rd x : ∀ a, cstr_at rd a x → Forall (λ c, 0 < c < 256) x.
Proof. induction x as [|c x IH]; intros a; [constructor|]. intros (_ & ? & ?). constructor; [done|eauto]. Qed.

Lemma ustrcpy_ok x : ∀ s fuel dst src,
  (length x < fuel)%nat → space s g 0 → cstr_at (ubyte s g 0) src x →
  PAGE_SIZE ≤ src → src + Z.of_nat (length x) < KERNEL_BASE_ADDR →
  PAGE_SIZE ≤ dst → dst + Z.of_nat (length x) < KERNEL_BASE_ADDR →
  mapped_range s g 0 dst (dst + Z.of_nat (length x) + 1) →
  (src + Z.of_nat (length x) < dst ∨ dst + Z.of_nat (length x) < src) →
  ∃ s', ustrcpy fuel (slot g 0) dst src s = Ok (tt, s') ∧ wrote g 0 s s' (str_at dst x).
Proof.
  assert (HP : PAGE_SIZE = 4096) by done.
  induction x as [|c x IH]; intros s [|fuel] dst src Hf Hs Hx Hs1 Hs2 Hd1 Hd2 Hr Hdis; try (simpl in Hf; lia);
    cbn [ustrcpy length] in *.
  - rewrite (bind_Ok _ _ _ _ _ (uload8_byte s src 0 Hs ltac:(lia) Hx)).
    destruct (store_byte s dst 0 Hs) as (s1 & R1 & W1); [lia|apply Hr; lia|].
    rewrite (bind_Ok _ _ _ _ _ R1). rewrite bool_decide_eq_true_2 by done. exists s1. split; [done|exact W1].
  - destruct Hx as (Hc & Hcr & Hx).
    rewrite (bind_Ok _ _ _ _ _ (uload8_byte s src c Hs ltac:(lia) Hc)).
    destruct (store_byte s dst c Hs) as (s1 & R1 & W1); [lia|apply Hr; lia|].
    rewrite (bind_Ok _ _ _ _ _ R1), bool_decide_eq_false_2 by lia.
    rewrite !u32_small by (unfold KERNEL_BASE_ADDR in *; lia). rewrite Z.mod_small in W1 by lia.
    destruct (IH s1 fuel (dst + 1) (src + 1)) as (s2 & R2 & W2); try lia; [apply W1| | |].
    { eapply cstr_ext; [|exact Hx]. intros y Hy. rewrite (wr_byte _ _ _ _ _ W1) by (unfold user_va; lia).
      by rewrite decide_False by lia. }
    { eapply wrote_range; [exact W1|lia|unfold KERNEL_BASE_ADDR in *; lia|]. intros y Hy. apply Hr. lia. }
    exists s2. split; [done|]. eapply wrote_trans; [exact W1|exact W2|].
    intros y _. cbn [str_at]. case_decide as E; [|by destruct (str_at (dst + 1) x y)].
    subst y. by rewrite str_at_below by lia.
Qed.
End mem.

(** ** The arguments *)

Definition args_size (args : list (list Z)) : Z := foldr (λ x n, Z.of_nat (length x) + 1 + n) 0 args.

Lemma args_size_bound args : Z.of_nat (length args) ≤ args_size args.
Proof. induction args as [|x args IH]; simpl; [lia|]. unfold args_size in *. simpl. lia. Qed.

Lemma args_size_cons x args : args_size (x :: args) = Z.of_nat (length x) + 1 + args_size args.
Proof. done. Qed.

(** The array [argv] of the caller, which ends with NULL. *)
Fixpoint src_args (rd : Z → option Z) (argv : Z) (args : list (list Z)) : Prop :=
  low_range argv 4 ∧
  match args with
  | [] => rd32 rd argv = Some 0
  | x :: args => ∃ p, rd32 rd argv = Some p ∧ p ≠ 0 ∧ cstr_at rd p x ∧
      low_range p (Z.of_nat (length x) + 1) ∧ src_args rd (argv + 4) args
  end.

(** The array of the new task at [A] with the strings from [S] on: every pointer is
    the address the string will have on the stack. *)
Fixpoint args_at (rd : Z → option Z) (A S : Z) (args : list (list Z)) : Prop :=
  match args with
  | [] => True
  | x :: args => rd32 rd A = Some (S - PAGE_SIZE) ∧ cstr_at rd S x ∧
      args_at rd (A + 4) (S + Z.of_nat (length x) + 1) args
  end.

Lemma src_args_ext rd rd' args : ∀ argv,
  (∀ a, PAGE_SIZE ≤ a < USER_TEMPBOTT → rd' a = rd a) → src_args rd argv args → src_args rd' argv args.
Proof.
  induction args as [|x args IH]; intros argv Hrd; cbn [src_args]; intros [Hlow Hrest]; (split; [done|]);
    unfold low_range in *.
  - rewrite (rd32_ext rd) by (intros; apply Hrd; lia). done.
  - destruct Hrest as (p & Hp & Hp0 & Hx & Hpl & Hrest). exists p.
    split_and!; [rewrite (rd32_ext rd) by (intros; apply Hrd; lia); done|done| |lia|lia|by apply IH].
    eapply cstr_ext; [|exact Hx]. intros y Hy. apply Hrd. lia.
Qed.

Lemma args_at_ext rd rd' args : ∀ A S,
  (∀ a, A ≤ a < A + 4 * Z.of_nat (length args) → rd' a = rd a) →
  (∀ a, S ≤ a < S + args_size args → rd' a = rd a) → args_at rd A S args → args_at rd' A S args.
Proof.
  induction args as [|x args IH]; intros A S HA HS; [done|]. cbn [args_at length] in *. rewrite args_size_cons in HS.
  intros (Hp & Hx & Hrest). pose proof (args_size_bound args). split_and!.
  - rewrite (rd32_ext rd) by (intros; apply HA; lia). done.
  - eapply cstr_ext; [|exact Hx]. intros y Hy. apply HS. lia.
  - apply IH; [intros a Ha; apply HA; lia|intros a Ha; apply HS; lia|done].
Qed.

Lemma count_args_ok g s args : ∀ fuel argv argc sz,
  args_size args < Z.of_nat fuel → space s g 0 → src_args (ubyte s g 0) argv args →
  0 ≤ argc → 0 ≤ sz → argc + args_size args < 2 ^ 31 → sz + args_size args < 2 ^ 31 →
  count_args fuel (slot g 0) argv argc sz s = Ok ((argc + Z.of_nat (length args), sz + args_size args), s).
Proof.
  assert (HP : PAGE_SIZE = 4096) by done. assert (HT : USER_TEMPBOTT = 0xBF800000) by done.
  assert (HK : KERNEL_BASE_ADDR = 0xC0000000) by done.
  induction args as [|x args IH]; intros [|fuel] argv argc sz Hf Hs Hsrc Hc Hz Hcb Hzb;
    cbn [src_args length] in *; rewrite ?args_size_cons in *; change (args_size []) with 0 in *;
    [lia| |pose proof (args_size_bound args); lia|];
    destruct Hsrc as [[Hl1 Hl2] Hsrc]; cbn [count_args].
  - rewrite (bind_Ok _ _ _ _ _ (uload32_ok g s argv 0 Hs Hl1 ltac:(lia) Hsrc)).
    rewrite bool_decide_eq_true_2 by done. by rewrite !Z.add_0_r.
  - pose proof (args_size_bound args). destruct Hsrc as (p & Hp & Hp0 & Hx & [Hpl1 Hpl2] & Hrest).
    rewrite (bind_Ok _ _ _ _ _ (uload32_ok g s argv p Hs Hl1 ltac:(lia) Hp)).
    rewrite bool_decide_eq_false_2 by done.
    rewrite (bind_Ok _ _ _ _ _ (ustrlen_ok g s x (S fuel) p 0 ltac:(lia) Hs Hx Hpl1 ltac:(lia) ltac:(lia) ltac:(lia))).
    rewrite u32_small, !i32_small by lia. rewrite IH; try done; try lia. do 3 f_equal; lia.
Qed.

Section put.
Context (g : Z) (fuel : nat).

Lemma utemp a : USER_TEMPBOTT ≤ a < USER_TEMPBOTT + PAGE_SIZE → UTEMP2USTACK a = a - PAGE_SIZE.
Proof.
  intros Ha. unfold UTEMP2USTACK. assert (PAGE_SIZE = 4096) by done.
  assert (USER_TEMPBOTT = 0xBF800000) by done. assert (USER_STACKTOP = 0xBF800000) by done.
  rewrite u32_small; lia.
Qed.

(** The words and strings that were written. *)
Definition within (A n S m : Z) (W : Z → option Z) : Prop :=
  ∀ a, is_Some (W a) → A ≤ a < A + n ∨ S ≤ a < S + m.

Lemma kept_outside s s' W A n S m a :
  wrote g 0 s s' W → within A n S m W → user_va a → ¬ (A ≤ a < A + n) → ¬ (S ≤ a < S + m) →
  ubyte s' g 0 a = ubyte s g 0 a.
Proof.
  intros HW Hin Hv HA HS. rewrite (wr_byte _ _ _ _ _ HW) by done.
  destruct (W a) eqn:E; [|done]. destruct (Hin a) as [?|?]; [rewrite E; by eexists|lia|lia].
Qed.

Lemma put_args_ok args : ∀ s argv A S,
  args_size args < Z.of_nat fuel → space s g 0 → src_args (ubyte s g 0) argv args →
  mapped_range s g 0 USER_TEMPBOTT (USER_TEMPBOTT + PAGE_SIZE) →
  USER_TEMPBOTT ≤ A → A + 4 * Z.of_nat (length args) ≤ S → S + args_size args ≤ USER_TEMPBOTT + PAGE_SIZE →
  ∃ s' W, put_args (length args) fuel (slot g 0) argv A S s = Ok (tt, s') ∧ wrote g 0 s s' W ∧
    within A (4 * Z.of_nat (length args)) S (args_size args) W ∧ args_at (ubyte s' g 0) A S args.
Proof.
  assert (HP : PAGE_SIZE = 4096) by done. assert (HT : USER_TEMPBOTT = 0xBF800000) by done.
  assert (HK : KERNEL_BASE_ADDR = 0xC0000000) by done.
  induction args as [|x args IH]; intros s argv A S Hf Hs Hsrc Hr HA HAS HS; cbn [put_args length src_args] in *.
  { exists s, (λ _, None). split_and!; [done|by apply wrote_refl|by intros a [? ?]|done]. }
  rewrite args_size_cons in *. pose proof (args_size_bound args) as Hsz.
  destruct Hsrc as [[Hl1 Hl2] (p & Hp & Hp0 & Hx & [Hpl1 Hpl2] & Hrest)].
  destruct (ustore32_ok g s A (UTEMP2USTACK S) Hs) as (s1 & R1 & W1); [lia|lia|intros a Ha; apply Hr; lia|].
  assert (Hlow1 : ∀ a, PAGE_SIZE ≤ a < USER_TEMPBOTT → ubyte s1 g 0 a = ubyte s g 0 a).
  { intros a Ha. rewrite (wr_byte _ _ _ _ _ W1) by (unfold user_va; lia). unfold word_at. by rewrite decide_False by lia. }
  pose proof (wr_space _ _ _ _ _ W1) as Hs1.
  assert (Hp1 : rd32 (ubyte s1 g 0) argv = Some p) by (rewrite (rd32_ext (ubyte s g 0)) by (intros; apply Hlow1; lia); done).
  assert (Hx1 : cstr_at (ubyte s1 g 0) p x) by (eapply cstr_ext; [|exact Hx]; intros; apply Hlow1; lia).
  assert (Hr1 : mapped_range s1 g 0 USER_TEMPBOTT (USER_TEMPBOTT + PAGE_SIZE)).
  { eapply wrote_range; [exact W1|lia|lia|done]. }
  destruct (ustrcpy_ok g x s1 fuel S p) as (s2 & R2 & W2); try done; try lia; [intros a Ha; apply Hr1; lia|].
  assert (Hlow2 : ∀ a, PAGE_SIZE ≤ a < USER_TEMPBOTT → ubyte s2 g 0 a = ubyte s g 0 a).
  { intros a Ha. rewrite (wr_byte _ _ _ _ _ W2), str_at_below by (unfold user_va; lia). by apply Hlow1. }
  pose proof (wr_space _ _ _ _ _ W2) as Hs2.
  assert (Hp2 : rd32 (ubyte s2 g 0) argv = Some p) by (rewrite (rd32_ext (ubyte s g 0)) by (intros; apply Hlow2; lia); done).
  assert (Hx2 : cstr_at (ubyte s2 g 0) p x) by (eapply cstr_ext; [|exact Hx]; intros; apply Hlow2; lia).
  assert (Hr2 : mapped_range s2 g 0 USER_TEMPBOTT (USER_TEMPBOTT + PAGE_SIZE)).
  { eapply wrote_range; [exact W2|lia|lia|done]. }
  rewrite (bind_Ok _ _ _ _ _ R1), (bind_Ok _ _ _ _ _ (uload32_ok g s1 argv p Hs1 Hl1 ltac:(lia) Hp1)).
  rewrite (bind_Ok _ _ _ _ _ R2), (bind_Ok _ _ _ _ _ (uload32_ok g s2 argv p Hs2 Hl1 ltac:(lia) Hp2)).
  rewrite (bind_Ok _ _ _ _ _ (ustrlen_ok g s2 x fuel p 0 ltac:(lia) Hs2 Hx2 Hpl1 ltac:(lia) ltac:(lia) ltac:(lia))).
  rewrite !u32_small by lia. rewrite Z.add_0_l, Z.add_assoc.
  destruct (IH s2 (argv + 4) (A + 4) (S + Z.of_nat (length x) + 1)) as (s3 & W3 & R3 & HW3 & Hin3 & Hat3);
    try done; try lia; [by eapply src_args_ext|].
  exists s3, (λ a, match W3 a with Some b => Some b | None =>
    match str_at S x a with Some b => Some b | None => word_at A (UTEMP2USTACK S) a end end).
  split_and!; [done| | |].
  - eapply wrote_trans; [eapply wrote_trans; [exact W1|exact W2|]|exact HW3|]; reflexivity.
  - intros a. destruct (W3 a) eqn:E3.
    { intros _. destruct (Hin3 a); [rewrite E3; by eexists|lia|lia]. }
    destruct (str_at S x a) eqn:E2.
    { intros _. pose proof (str_at_range x S a ltac:(rewrite E2; by eexists)). lia. }
    unfold word_at. case_decide; [lia|by intros [? ?]].
  - cbn [args_at]. split_and!; [| |exact Hat3].
    + apply rd32_word; [lia|]. intros a Ha.
      rewrite (kept_outside _ _ _ _ _ _ _ a HW3 Hin3), (wr_byte _ _ _ _ _ W2), str_at_below,
        (wr_byte _ _ _ _ _ W1), utemp by (unfold user_va; lia).
      unfold word_at. by rewrite decide_True by lia.
    + eapply (cstr_ext (ubyte s2 g 0)); [intros a Ha; apply (kept_outside _ _ _ _ _ _ _ a HW3 Hin3); unfold user_va; lia|].
      apply cstr_of_str_at; [by eapply cstr_chars|]. intros a Ha.
      rewrite (wr_byte _ _ _ _ _ W2) by (unfold user_va; lia).
      by destruct (str_at_some x S a Ha) as [b ->].
Qed.
End put.

(** ** Two address spaces *)

(** The pages of the one are no tables of the other. *)
Definition pages_clear (s : mstate) (g g' : Z) : Prop :=
  ∀ a e, user_va a → mapped s g 0 a = Some e → no_table s g' 0 (eframe e).

(** The address space [g] has the same tables and mappings in [s] and [s']. *)
Record kept_space (g : Z) (s s' : mstate) : Prop := {
  ks_space : space s' g 0;
  ks_mapped : ∀ a, user_va a → mapped s' g 0 a = mapped s g 0 a;
  ks_tables : ∀ q, table s' g 0 q ↔ table s g 0 q }.

Lemma kept_space_trans g s1 s2 s3 : kept_space g s1 s2 → kept_space g s2 s3 → kept_space g s1 s3.
Proof.
  intros H1 H2. split; [apply H2|..].
  - intros a Ha. by rewrite (ks_mapped _ _ _ H2), (ks_mapped _ _ _ H1).
  - intros q. by rewrite (ks_tables _ _ _ H2), (ks_tables _ _ _ H1).
Qed.

Lemma kept_no_table g s s' q : kept_space g s s' → no_table s g 0 q → no_table s' g 0 q.
Proof. intros K. by rewrite !no_table_iff, (ks_tables _ _ _ K). Qed.

(** The tables of [g] keep their contents. *)
Lemma keep_space g s s' :
  space s g 0 → mm_inv s' → (∀ q, table s g 0 q → busy s' q) →
  (∀ a e, user_va a → mapped s g 0 a = Some e → busy s' (eframe e)) →
  (∀ q, table s g 0 q → mem s' !! q = mem s !! q) → kept_space g s s'.
Proof.
  intros Hs Hi Hbt Hbp Hmt. pose proof (sp_tree _ _ _ Hs) as Hw.
  assert (Hm : ∀ a, user_va a → mapped s' g 0 a = mapped s g 0 a) by (intros a Ha; by apply frame_mapped).
  assert (Ht : ∀ q, table s' g 0 q ↔ table s g 0 q) by (intros q; by apply frame_table).
  split; [split|done|done].
  - done.
  - by apply (frame_tree s).
  - intros a e Ha He. rewrite Hm in He by done. split; [by eapply Hbp|].
    rewrite no_table_iff, Ht, <- no_table_iff. by eapply (sp_pages _ _ _ Hs).
  - intros a a' e e' Ha Ha'. rewrite !Hm by done. by apply (sp_inj _ _ _ Hs).
Qed.

(** A page that keeps its contents. *)
Lemma kept_byte g s s' a :
  kept_space g s s' → user_va a →
  (∀ e, mapped s g 0 a = Some e → mem s' !! eframe e = mem s !! eframe e) →
  ubyte s' g 0 a = ubyte s g 0 a.
Proof.
  intros K Ha Hm. unfold ubyte. rewrite (ks_mapped _ _ _ K) by done.
  destruct (mapped s g 0 a) as [e|]; [|done]. simpl. unfold pbyte, ent. by rewrite Hm.
Qed.

Section foreign.
Context (s s' : mstate) (g g' va p perm : Z).
Context (Ht : two_trees s g 0 g' 0) (Hs : space s g 0) (Hs' : space s g' 0) (Hc : pages_clear s g g').
Context (Hnone : mapped s g' 0 va = None) (Hin : inserted g' 0 s s' va p perm).

Lemma foreign_busy q : busy s q → busy s' q.
Proof. by eapply map_busy. Qed.

(** Mapping a page in [g'] leaves [g] alone. *)
Lemma foreign_insert :
  kept_space g s s' ∧ two_trees s' g 0 g' 0 ∧ ∀ a, user_va a → ubyte s' g 0 a = ubyte s g 0 a.
Proof.
  pose proof (sp_tree _ _ _ Hs) as Hw.
  assert (K : kept_space g s s').
  { apply keep_space; [done|apply Hin| | |].
    - intros q Hq. by apply foreign_busy, (table_busy s g 0).
    - intros a e Ha He. apply foreign_busy. by eapply (sp_pages _ _ _ Hs).
    - intros q Hq. apply (in_data _ _ _ _ _ _ _ Hin); [by apply (table_busy s g 0)|by apply Ht]. }
  split_and!; [done| |].
  - split; [apply Hin|apply K|apply Hin|].
    intros q Hq%(ks_tables _ _ _ K). pose proof (table_busy s g 0 q Hw Hq) as Hb.
    apply (inserted_no_table _ _ _ _ _ _ _ q Hin Hb). by apply Ht.
  - intros a Ha. apply kept_byte; [done|done|]. intros e He.
    apply (in_data _ _ _ _ _ _ _ Hin); [by eapply (sp_pages _ _ _ Hs)|by eapply Hc].
Qed.
End foreign.

(** So does taking a free frame. *)
Lemma taken_kept g s s1 p :
  space s g 0 → taken g 0 s s1 p →
  kept_space g s s1 ∧ ∀ a, user_va a → ubyte s1 g 0 a = ubyte s g 0 a.
Proof.
  intros Hs Htk. split; [|intros a Ha; by eapply taken_byte]. pose proof (sp_tree _ _ _ Hs) as Hw.
  apply keep_space; [done|apply Htk| | |].
  - intros q Hq. apply Htk. by apply (table_busy s g 0).
  - intros a e Ha He. apply Htk. by eapply (sp_pages _ _ _ Hs).
  - intros q Hq. apply (tk_data _ _ _ _ _ Htk). apply (tk_busy _ _ _ _ _ Htk).
    by apply (table_busy s g 0).
Qed.

(** ** The page of the arguments *)

(** The top page of the stack, and the permissions of the page of the transfer. *)
Definition stack_page : Z := USER_STACKTOP - PAGE_SIZE.
Definition TEMP_PERM : Z := Z.lor _PAGE_PRESENT _PAGE_RW.

(** The current task [g] and the new one [g'] before the call. *)
Record exec_ready (s : mstate) (g g' : Z) : Prop := {
  xr_trees : two_trees s g 0 g' 0;
  xr_cur : space s g 0;
  xr_task : space s g' 0;
  xr_clear : pages_clear s g g';
  xr_clear' : pages_clear s g' g;
  xr_temp : mapped s g 0 USER_TEMPBOTT = None;
  xr_stack : mapped s g' 0 stack_page = None }.

Lemma exec_vas : user_va USER_TEMPBOTT ∧ user_va stack_page ∧ stack_page ≠ 0 ∧
  (PAGE_SIZE | USER_TEMPBOTT) ∧ (PAGE_SIZE | stack_page).
Proof.
  unfold user_va. split_and!; try done.
  - by exists 0xBF800.
  - by exists 0xBF7FF.
Qed.

Section transfer.
Context (s s1 s2 s3 : mstate) (g g' p : Z).
Context (Hr : exec_ready s g g').
Context (R1 : page_alloc _GFP_ZERO s = Ok (Some p, s1)).
Context (R2 : page_insert (slot g' 0) p stack_page USER_PERM s1 = Ok (0, s2)).
Context (R3 : page_insert (slot g 0) p USER_TEMPBOTT TEMP_PERM s2 = Ok (0, s3)).

Lemma tr_taken h : space s h 0 → taken h 0 s s1 p.
Proof.
  clear R2 R3.
  intros Hs. destruct (page_alloc_taken s h 0 (sp_inv _ _ _ Hs) (sp_tree _ _ _ Hs)) as (r & s1' & Hrun & Htk).
  rewrite R1 in Hrun. by simplify_eq.
Qed.

Lemma tr_first : exec_ready s1 g g' ∧ kept_space g s s1 ∧ kept_space g' s s1 ∧
  (∀ a, user_va a → ubyte s1 g 0 a = ubyte s g 0 a) ∧ (∀ a, user_va a → ubyte s1 g' 0 a = ubyte s g' 0 a).
Proof.
  clear R2 R3.
  destruct exec_vas as (V1 & V2 & _). destruct Hr as [H1 H2 H3 H4 H5 H6 H7].
  destruct (taken_kept g s s1 p H2 (tr_taken g H2)) as [K1 B1].
  destruct (taken_kept g' s s1 p H3 (tr_taken g' H3)) as [K2 B2].
  split_and!; try done. split; [|apply K1|apply K2| | | |].
  - split; [apply K1|apply K1|apply K2|]. intros q Hq%(ks_tables _ _ _ K1).
    apply (kept_no_table g' s); [done|]. by apply H1.
  - intros a e Ha He. rewrite (ks_mapped _ _ _ K1) in He by done. apply (kept_no_table g' s); [done|by eapply H4].
  - intros a e Ha He. rewrite (ks_mapped _ _ _ K2) in He by done. apply (kept_no_table g s); [done|by eapply H5].
  - by rewrite (ks_mapped _ _ _ K1).
  - by rewrite (ks_mapped _ _ _ K2).
Qed.

Lemma tr_can2 : ∃ r x, page_insert (slot g' 0) p stack_page USER_PERM s1 = Ok (r, x) ∧
  (r = - ENOMEM ∧ full x ∨ r = 0 ∧ inserted g' 0 s1 x stack_page p USER_PERM).
Proof.
  clear R2 R3.
  destruct tr_first as (Hr1 & _). destruct exec_vas as (_ & V2 & V3 & _). destruct (user_perm_ok p) as (Hp & Hpp & _).
  pose proof (tr_taken g' (xr_task _ _ _ Hr)) as Htk. destruct (tk_frame _ _ _ _ _ Htk) as (Hb & pg & Hpg & Hn & _).
  destruct (page_insert_ok s1 g' 0 stack_page p USER_PERM) as (r & x & Hrun & Hres);
    [apply Htk|apply Htk|done|done| | |done|done|].
  { split; [done|]. exists pg. split; [done|lia]. }
  { intros e He. by rewrite (xr_stack _ _ _ Hr1) in He. }
  exists r, x. split; [done|]. tauto.
Qed.

Lemma tr_in2 : inserted g' 0 s1 s2 stack_page p USER_PERM.
Proof.
  clear R3.
  destruct tr_can2 as (r & x & Hrun & Hres).
  rewrite R2 in Hrun. simplify_eq. destruct Hres as [[He _]|[_ ?]]; [discriminate He|done].
Qed.

Lemma tr_second :
  kept_space g s1 s2 ∧ two_trees s2 g 0 g' 0 ∧ (∀ a, user_va a → ubyte s2 g 0 a = ubyte s1 g 0 a) ∧
  space s2 g' 0 ∧ busy s2 p ∧ no_table s2 g 0 p ∧ no_table s2 g' 0 p ∧ mapped s2 g 0 USER_TEMPBOTT = None ∧
  pages_clear s2 g' g ∧ (∀ a e, user_va a → mapped s2 g 0 a = Some e → eframe e ≠ p) ∧
  ∃ pg, mempage s2 !! p = Some pg ∧ nref pg = 1 ∧ has_flag (flags pg) _pg_reserved = false.
Proof.
  clear R3.
  destruct tr_first as (Hr1 & _). pose proof Hr1 as [H1 H2 H3 H4 H5 H6 H7].
  destruct exec_vas as (V1 & V2 & V3 & _). destruct (user_perm_ok p) as (Hp & _ & Ep). pose proof tr_in2 as Hin.
  pose proof (tr_taken g (xr_cur _ _ _ Hr)) as T1. pose proof (tr_taken g' (xr_task _ _ _ Hr)) as T2.
  destruct (tk_frame _ _ _ _ _ T1) as (Hb & pg & Hpg & Hn & Hfl).
  destruct (foreign_insert s1 s2 g g' stack_page p USER_PERM H1 H2 H3 H4 H7 Hin) as (K & Ht2 & B).
  pose proof (taken_fresh s s1 g' 0 p (xr_task _ _ _ Hr) T2) as Hfr'.
  pose proof (kept_no_table g s1 s2 p K (tk_table _ _ _ _ _ T1)) as Hnp.
  split_and!; [done|done|done|by eapply map_space; [..|apply T2|exact Hfr'|exact Hin]|by eapply map_busy|done| | | | |].
  - by eapply inserted_no_table; [exact Hin|done|apply T2].
  - by rewrite (ks_mapped _ _ _ K).
  - intros a e Ha. rewrite (map_mapped s1 s2 g' 0 stack_page p USER_PERM Hin) by done. case_decide.
    + intros [= <-]. by rewrite Ep.
    + intros He. apply (kept_no_table g s1); [done|by eapply H5].
  - intros a e Ha He. rewrite (ks_mapped _ _ _ K) in He by done.
    by apply (taken_fresh s s1 g 0 p (xr_cur _ _ _ Hr) T1 a e).
  - pose proof (in_nref _ _ _ _ _ _ _ Hin p Hb) as Hm.
    rewrite (map_old s1 g' 0 stack_page H7), (meta_frame _ _ _ Hpg), b2z_true, b2z_false in Hm by done.
    apply meta_Some in Hm as (pg2 & Hpg2 & En & Ef & _). simpl in En, Ef.
    exists pg2. split_and!; [done|lia|congruence].
Qed.

Lemma temp_perm_ok : 0 ≤ TEMP_PERM < 2 ^ 12 ∧ has_flag TEMP_PERM _PAGE_PRESENT = true ∧
  eframe (p * PAGE_SIZE + TEMP_PERM) = p.
Proof. split_and!; try done. apply eframe_entry. done. Qed.

Lemma tr_can3 : ∃ r x, page_insert (slot g 0) p USER_TEMPBOTT TEMP_PERM s2 = Ok (r, x) ∧
  (r = - ENOMEM ∧ full x ∨ r = 0 ∧ inserted g 0 s2 x USER_TEMPBOTT p TEMP_PERM).
Proof.
  clear R3.
  destruct tr_second as (K & _ & _ & _ & Hb & _ & _ & Hn & _ & _ & pg & Hpg & Hn1 & _).
  destruct exec_vas as (V1 & _). destruct temp_perm_ok as (Hp & Hpp & _).
  destruct (page_insert_ok s2 g 0 USER_TEMPBOTT p TEMP_PERM) as (r & x & Hrun & Hres);
    [apply K|apply K|done|done| | |done|done|].
  { split; [done|]. exists pg. split; [done|lia]. }
  { intros e He. by rewrite Hn in He. }
  exists r, x. split; [done|]. tauto.
Qed.

Lemma tr_in3 : inserted g 0 s2 s3 USER_TEMPBOTT p TEMP_PERM.
Proof.
  destruct tr_can3 as (r & x & Hrun & Hres).
  rewrite R3 in Hrun. simplify_eq. destruct Hres as [[He _]|[_ ?]]; [discriminate He|done].
Qed.

(** Both tasks map the new frame, and nothing else has changed. *)
Record both_map : Prop := {
  bm_space : space s3 g 0;
  bm_temp : ∀ a, user_va a → mapped s3 g 0 a =
    if decide (same_page USER_TEMPBOTT a) then Some (p * PAGE_SIZE + TEMP_PERM) else mapped s g 0 a;
  bm_bytes : ∀ a, user_va a → ¬ same_page USER_TEMPBOTT a → ubyte s3 g 0 a = ubyte s g 0 a;
  bm_task : space s3 g' 0;
  bm_stack : ∀ a, user_va a → mapped s3 g' 0 a =
    if decide (same_page stack_page a) then Some (p * PAGE_SIZE + USER_PERM) else mapped s g' 0 a;
  bm_task_bytes : ∀ a, user_va a → ¬ same_page stack_page a → ubyte s3 g' 0 a = ubyte s g' 0 a;
  bm_trees : two_trees s3 g 0 g' 0;
  bm_clear : pages_clear s3 g' g;
  bm_frame : no_table s3 g 0 p ∧ no_table s3 g' 0 p ∧
    ∃ pg, referenced s3 p pg ∧ nref pg = 2 }.

Lemma tr_both : both_map.
Proof.
  destruct tr_first as (Hr1 & K1 & K1' & B1 & B1'). pose proof tr_in2 as I2. pose proof tr_in3 as I3.
  destruct tr_second as (K2 & T2 & B2 & S2 & Hb2 & Hn2 & Hn2' & Hm2 & C2 & F2 & pg2 & Hpg2 & Nr2 & Fl2).
  destruct exec_vas as (V1 & V2 & V3 & A1 & A2). destruct temp_perm_ok as (Hp3 & _ & Ep3).
  destruct (user_perm_ok p) as (Hp2 & _ & Ep2).
  destruct (foreign_insert s2 s3 g' g USER_TEMPBOTT p TEMP_PERM (two_trees_sym _ _ _ _ _ T2) S2
    (ks_space _ _ _ K2) C2 Hm2 I3) as (K3 & T3 & B3).
  pose proof (tr_taken g' (xr_task _ _ _ Hr)) as Tk. destruct (tk_frame _ _ _ _ _ Tk) as (Hb1 & _).
  pose proof (taken_fresh s s1 g' 0 p (xr_task _ _ _ Hr) Tk) as Hfr1.
  assert (Hn3 : no_table s3 g 0 p) by (by eapply inserted_no_table).
  split.
  - by eapply map_space; [..|exact F2|exact I3]; try apply K2.
  - intros a Ha. rewrite (map_mapped s2 s3 g 0 USER_TEMPBOTT p TEMP_PERM I3) by done.
    by rewrite (ks_mapped _ _ _ K2), (ks_mapped _ _ _ K1).
  - intros a Ha Hne. rewrite (map_byte s2 s3 g 0 USER_TEMPBOTT p TEMP_PERM), decide_False; try done; [|apply K2].
    by rewrite B2, B1.
  - apply K3.
  - intros a Ha. rewrite (ks_mapped _ _ _ K3), (map_mapped s1 s2 g' 0 stack_page p USER_PERM I2) by done.
    by rewrite (ks_mapped _ _ _ K1').
  - intros a Ha Hne. rewrite B3 by done.
    rewrite (map_byte s1 s2 g' 0 stack_page p USER_PERM), decide_False; try done; [by rewrite B1'|apply Hr1|].
    apply Tk.
  - by apply two_trees_sym.
  - intros a e Ha He. rewrite (ks_mapped _ _ _ K3) in He by done. pose proof (C2 a e Ha He) as Hc.
    eapply inserted_no_table; [exact I3| |done]. by eapply (sp_pages _ _ _ S2).
  - split_and!; [done|by apply (kept_no_table g' s2)|].
    pose proof (in_nref _ _ _ _ _ _ _ I3 p Hb2) as Hm.
    rewrite (map_old s2 g 0 USER_TEMPBOTT Hm2), (meta_frame _ _ _ Hpg2), b2z_true, b2z_false in Hm by done.
    apply meta_Some in Hm as (pg3 & Hpg3 & En & Ef & _). simpl in En, Ef. exists pg3. split; [|lia].
    split_and!; [|done|lia|lia|congruence]. eapply map_busy; [..|exact I3|done]; [apply K2|done].
Qed.
End transfer.

(** ** The block of the arguments *)

Definition strings_at (args : list (list Z)) : Z := USER_TEMPBOTT + PAGE_SIZE - args_size args.
Definition argv_at (args : list (list Z)) : Z :=
  ROUNDDOWN (strings_at args) 4 - 4 * (Z.of_nat (length args) + 1).

(** The strings, the pointers and the two words below them fit into the page. *)
Definition fits (args : list (list Z)) : Prop :=
  args_size args + 4 * (Z.of_nat (length args) + 1) + 11 ≤ PAGE_SIZE.

Lemma block_bounds args :
  fits args →
  USER_TEMPBOTT ≤ argv_at args - 8 ∧ argv_at args + 4 * Z.of_nat (length args) + 4 ≤ strings_at args ∧
  strings_at args ≤ USER_TEMPBOTT + PAGE_SIZE.
Proof.
  unfold fits, argv_at, strings_at. intros Hf. pose proof (args_size_bound args).
  pose proof (ROUNDDOWN_le (USER_TEMPBOTT + PAGE_SIZE - args_size args) 4 ltac:(lia)). lia.
Qed.

(** A later write of a word outside keeps what was read. *)
Lemma word_outside g s s' a v x :
  wrote g 0 s s' (word_at a v) → user_va x → ¬ (a ≤ x < a + 4) → ubyte s' g 0 x = ubyte s g 0 x.
Proof.
  intros HW Hv Hx. rewrite (wr_byte _ _ _ _ _ HW) by done. unfold word_at. by rewrite decide_False.
Qed.

Lemma word_written g s s' a v :
  wrote g 0 s s' (word_at a v) → 0 ≤ v < 2 ^ 32 → 0 ≤ a → a + 4 ≤ KERNEL_BASE_ADDR →
  rd32 (ubyte s' g 0) a = Some v.
Proof.
  intros HW Hv Ha Hb. apply rd32_word; [done|]. intros x Hx.
  rewrite (wr_byte _ _ _ _ _ HW) by (unfold user_va; lia). unfold word_at. by rewrite decide_True by lia.
Qed.

(** What a task finds at [A] and around it. *)
Record block_at (rd : Z → option Z) (args : list (list Z)) : Prop := {
  ba_args : args_at rd (argv_at args) (strings_at args) args;
  ba_end : rd32 rd (argv_at args + 4 * Z.of_nat (length args)) = Some 0;
  ba_argv : rd32 rd (argv_at args - 4) = Some (argv_at args - PAGE_SIZE);
  ba_argc : rd32 rd (argv_at args - 8) = Some (Z.of_nat (length args)) }.

Lemma block_ok g fuel s argv args :
  space s g 0 → src_args (ubyte s g 0) argv args → fits args → args_size args < Z.of_nat fuel →
  mapped_range s g 0 USER_TEMPBOTT (USER_TEMPBOTT + PAGE_SIZE) →
  let A := argv_at args in
  ∃ s' W,
    (put_args (length args) fuel (slot g 0) argv A (strings_at args) ;;
     ustore32 (slot g 0) (A + 4 * Z.of_nat (length args)) 0 ;;
     ustore32 (slot g 0) (A - 4) (A - PAGE_SIZE) ;;
     ustore32 (slot g 0) (A - 8) (Z.of_nat (length args))) s = Ok (tt, s') ∧
    wrote g 0 s s' W ∧ (∀ a, is_Some (W a) → USER_TEMPBOTT ≤ a < USER_TEMPBOTT + PAGE_SIZE) ∧
    block_at (ubyte s' g 0) args.
Proof.
  intros Hs Hsrc Hfit Hf Hr A. destruct (block_bounds args Hfit) as (B1 & B2 & B3). fold A in B1, B2.
  assert (HP : PAGE_SIZE = 4096) by done. assert (HT : USER_TEMPBOTT = 0xBF800000) by done.
  assert (HK : KERNEL_BASE_ADDR = 0xC0000000) by done. pose proof (args_size_bound args) as Hsz.
  assert (HS : strings_at args + args_size args = USER_TEMPBOTT + PAGE_SIZE) by (unfold strings_at; lia).
  set (S0 := strings_at args) in *. set (n := Z.of_nat (length args)) in *.
  assert (Hn : 0 ≤ n ≤ PAGE_SIZE) by (unfold fits in Hfit; fold n in Hfit; lia).
  destruct (put_args_ok g fuel args s argv A S0) as (s1 & W1 & R1 & HW1 & Hin1 & Hat1);
    try done; try lia. fold n in Hin1.
  assert (Hr' : ∀ s' W, wrote g 0 s s' W → mapped_range s' g 0 USER_TEMPBOTT (USER_TEMPBOTT + PAGE_SIZE)).
  { intros s' W HW. eapply wrote_range; [exact HW|lia|lia|done]. }
  destruct (ustore32_ok g s1 (A + 4 * n) 0 (wr_space _ _ _ _ _ HW1)) as (s2 & R2 & W2);
    [lia|lia|intros a Ha; apply (Hr' _ _ HW1); lia|].
  assert (HW2 := wrote_trans g 0 s s1 s2 _ _ _ HW1 W2 (λ a _, eq_refl)).
  destruct (ustore32_ok g s2 (A - 4) (A - PAGE_SIZE) (wr_space _ _ _ _ _ W2)) as (s3 & R3 & W3);
    [lia|lia|intros a Ha; apply (Hr' _ _ HW2); lia|].
  assert (HW3 := wrote_trans g 0 s s2 s3 _ _ _ HW2 W3 (λ a _, eq_refl)).
  destruct (ustore32_ok g s3 (A - 8) n (wr_space _ _ _ _ _ W3)) as (s4 & R4 & W4);
    [lia|lia|intros a Ha; apply (Hr' _ _ HW3); lia|].
  assert (HW4 := wrote_trans g 0 s s3 s4 _ _ _ HW3 W4 (λ a _, eq_refl)).
  eexists s4, _. split; [by rewrite (bind_Ok _ _ _ _ _ R1), (bind_Ok _ _ _ _ _ R2), (bind_Ok _ _ _ _ _ R3)|].
  split; [exact HW4|]. split.
  - intros a. unfold word_at. repeat case_decide; [intros _; lia..|]. intros Ha. apply Hin1 in Ha. lia.
  - assert (K2 : ∀ a, USER_TEMPBOTT ≤ a < USER_TEMPBOTT + PAGE_SIZE → ¬ (A - 4 ≤ a < A) → ¬ (A - 8 ≤ a < A - 4) →
      ubyte s4 g 0 a = ubyte s2 g 0 a).
    { intros a Ha H1 H2. rewrite (word_outside _ _ _ _ _ a W4), (word_outside _ _ _ _ _ a W3) by (unfold user_va; lia). done. }
    split; fold A S0 n.
    + eapply (args_at_ext (ubyte s1 g 0)); [| |exact Hat1]; intros a Ha; fold n in Ha;
        rewrite K2, (word_outside _ _ _ _ _ a W2) by (unfold user_va; lia); done.
    + rewrite (rd32_ext (ubyte s2 g 0)) by (intros; apply K2; lia). apply (word_written g s1 s2); [done|lia|lia|lia].
    + rewrite (rd32_ext (ubyte s3 g 0)).
      { apply (word_written g s2 s3); [done|lia|lia|lia]. }
      intros a Ha. apply (word_outside _ _ _ _ _ a W4); unfold user_va; lia.
    + apply (word_written g s3 s4); [done|lia|lia|lia].
Qed.

(** ** Handing the page over *)

(** What [execve_args] leaves: the current task as it was, and the new task with one
    more page. *)
Record handed (s s' : mstate) (g g' : Z) : Prop := {
  hd_cur : space s' g 0;
  hd_cur_mapped : ∀ a, user_va a → mapped s' g 0 a = mapped s g 0 a;
  hd_cur_byte : ∀ a, user_va a → ubyte s' g 0 a = ubyte s g 0 a;
  hd_task : space s' g' 0;
  hd_mapped : ∀ a, user_va a → ¬ same_page stack_page a → mapped s' g' 0 a = mapped s g' 0 a;
  hd_byte : ∀ a, user_va a → ¬ same_page stack_page a → ubyte s' g' 0 a = ubyte s g' 0 a }.

Section hand.
Context (s s3 s4 : mstate) (g g' p : Z) (W : Z → option Z).
Context (Hn : mapped s g 0 USER_TEMPBOTT = None).
Context (B : both_map s s3 g g' p) (HW : wrote g 0 s3 s4 W).
Context (Hin : ∀ a, is_Some (W a) → USER_TEMPBOTT ≤ a < USER_TEMPBOTT + PAGE_SIZE).

Lemma temp_page a : same_page USER_TEMPBOTT a ↔ USER_TEMPBOTT ≤ a < USER_TEMPBOTT + PAGE_SIZE.
Proof. apply page_of_aligned_va. apply exec_vas. Qed.

Lemma hand_mem q : q ≠ p → mem s4 !! q = mem s3 !! q.
Proof.
  intros Hq. apply (wr_other _ _ _ _ _ HW). intros a e Ha Hwa. rewrite (bm_temp _ _ _ _ _ B) by done.
  rewrite decide_True by (by apply temp_page, Hin). intros [= <-]. destruct (temp_perm_ok p) as (_ & _ & ->). done.
Qed.

Lemma hand_busy q : busy s3 q → busy s4 q.
Proof. unfold busy. by rewrite (wr_nz _ _ _ _ _ HW). Qed.

(** Writing the page changes neither tree. *)
Lemma hand_written : kept_space g' s3 s4 ∧ kept_space g s3 s4.
Proof.
  destruct (bm_frame _ _ _ _ _ B) as (N1 & N2 & _). pose proof (sp_inv _ _ _ (wr_space _ _ _ _ _ HW)) as Hi.
  assert (K : ∀ h, space s3 h 0 → no_table s3 h 0 p → kept_space h s3 s4).
  { intros h Hs Hp. apply keep_space; [done|done| | |].
    - intros q Hq. by apply hand_busy, (table_busy s3 h 0), Hq; apply Hs.
    - intros a e Ha He. apply hand_busy. by eapply (sp_pages _ _ _ Hs).
    - intros q Hq. apply hand_mem. intros ->. by apply no_table_iff in Hp. }
  split; apply K; try done; apply B.
Qed.

Lemma hand_frame : ∃ pg, referenced s4 p pg ∧ nref pg = 2.
Proof.
  destruct (bm_frame _ _ _ _ _ B) as (_ & _ & pg & (Hb & Hpg & H) & Hr). exists pg. split; [|done].
  split; [by apply hand_busy|]. split; [|done]. pose proof (wr_nz _ _ _ _ _ HW) as E.
  change (pages (nz s4) !! p = Some pg). by rewrite E.
Qed.

Lemma hand_temp : mapped s4 g 0 USER_TEMPBOTT = Some (p * PAGE_SIZE + TEMP_PERM).
Proof.
  destruct exec_vas as (V1 & _). rewrite (wr_mapped _ _ _ _ _ HW), (bm_temp _ _ _ _ _ B) by done.
  by rewrite decide_True.
Qed.

Section unmap.
Context (s5 : mstate) (pg : page).
Context (Href : referenced s4 p pg) (Hn2 : nref pg = 2).
Context (Hrm : removed g 0 s4 s5 USER_TEMPBOTT p pg).

Lemma unmap_busy q : busy s4 q → busy s5 q.
Proof.
  intros [H1 H2]. split; [by rewrite (rm_end _ _ _ _ _ _ _ Hrm)|].
  intros [?|[? _]]%(rm_free _ _ _ _ _ _ _ Hrm); [done|lia].
Qed.

Lemma unmap_mem q : no_table s4 g 0 q → mem s5 !! q = mem s4 !! q.
Proof. intros Hq. by apply (rm_data _ _ _ _ _ _ _ Hrm), no_table_leaf. Qed.

Lemma hand_clear a e : user_va a → mapped s4 g' 0 a = Some e → no_table s4 g 0 (eframe e).
Proof.
  destruct hand_written as [K' K]. intros Ha He. rewrite (ks_mapped _ _ _ K') in He by done.
  apply (kept_no_table g s3); [done|]. by eapply (bm_clear _ _ _ _ _ B).
Qed.

Lemma unmap_task : kept_space g' s4 s5 ∧ ∀ a, user_va a → ubyte s5 g' 0 a = ubyte s4 g' 0 a.
Proof.
  destruct hand_written as [K' K].
  assert (Hk : kept_space g' s4 s5).
  { apply keep_space; [apply K'|apply Hrm| | |].
    - intros q Hq. apply unmap_busy, (table_busy s4 g' 0); [apply K'|done].
    - intros a e Ha He. apply unmap_busy. by eapply (sp_pages _ _ _ (ks_space _ _ _ K')).
    - intros q Hq. apply unmap_mem. apply (kept_no_table g s3); [done|].
      apply (two_trees_sym _ _ _ _ _ (bm_trees _ _ _ _ _ B)). by apply (ks_tables _ _ _ K'). }
  split; [done|]. intros a Ha. apply kept_byte; [done|done|]. intros e He. apply unmap_mem. by eapply hand_clear.
Qed.

Lemma unmap_cur_mapped a : user_va a → mapped s5 g 0 a = mapped s g 0 a.
Proof.
  intros Ha. destruct exec_vas as (V1 & _). rewrite (rm_mapped _ _ _ _ _ _ _ Hrm) by done. case_decide as E.
  - by rewrite (mapped_same_page s g 0 USER_TEMPBOTT), Hn.
  - rewrite (wr_mapped _ _ _ _ _ HW), (bm_temp _ _ _ _ _ B) by done. by rewrite decide_False.
Qed.

(** A page that the current task had before. *)
Lemma unmap_old a e : user_va a → mapped s g 0 a = Some e → ¬ same_page USER_TEMPBOTT a ∧ mapped s4 g 0 a = Some e.
Proof.
  intros Ha He. destruct exec_vas as (V1 & _).
  assert (Hs : ¬ same_page USER_TEMPBOTT a).
  { intros Hs. by rewrite (mapped_same_page s g 0 USER_TEMPBOTT a), Hn in He. }
  split; [done|]. rewrite (wr_mapped _ _ _ _ _ HW), (bm_temp _ _ _ _ _ B) by done. by rewrite decide_False.
Qed.

Lemma unmap_cur : space s5 g 0 ∧ ∀ a, user_va a → ubyte s5 g 0 a = ubyte s g 0 a.
Proof.
  pose proof (wr_space _ _ _ _ _ HW) as Hs4. split.
  - split; [apply Hrm|apply Hrm| |].
    + intros a e Ha. rewrite unmap_cur_mapped by done. intros He. destruct (unmap_old a e Ha He) as [_ He4].
      destruct (sp_pages _ _ _ Hs4 a e Ha He4) as [H1 [H2 H3]]. split; [by apply unmap_busy|].
      split; [done|]. intros r Hr. rewrite (rm_roles _ _ _ _ _ _ _ Hrm) by done. by apply H3.
    + intros a a' e e' Ha Ha'. rewrite !unmap_cur_mapped by done. intros He He'.
      destruct (unmap_old a e Ha He) as [_ ?]. destruct (unmap_old a' e' Ha' He') as [_ ?].
      by apply (sp_inj _ _ _ Hs4 a a' e e').
  - intros a Ha. destruct (mapped s g 0 a) as [e|] eqn:He.
    2:{ unfold ubyte. by rewrite unmap_cur_mapped, He. }
    destruct (unmap_old a e Ha He) as [Hs He4]. rewrite <- (bm_bytes _ _ _ _ _ B a Ha Hs).
    transitivity (ubyte s4 g 0 a).
    + unfold ubyte. rewrite unmap_cur_mapped, He, He4 by done. simpl. unfold pbyte, ent.
      rewrite unmap_mem; [done|]. by eapply (sp_pages _ _ _ Hs4).
    + rewrite (wr_byte _ _ _ _ _ HW) by done. destruct (W a) eqn:E; [|done].
      exfalso. apply Hs, temp_page, Hin. by rewrite E.
Qed.

(** The new task finds on its stack what was written at [USER_TEMPBOTT]. *)
Lemma unmap_stack a : USER_TEMPBOTT ≤ a < USER_TEMPBOTT + PAGE_SIZE →
  ubyte s5 g' 0 (a - PAGE_SIZE) = ubyte s4 g 0 a.
Proof.
  intros Ha. destruct exec_vas as (_ & _ & _ & _ & A2). destruct unmap_task as [_ Hb].
  destruct hand_written as [K' _]. destruct (temp_perm_ok p) as (_ & _ & E1). destruct (user_perm_ok p) as (_ & _ & E2).
  assert (V : user_va a ∧ user_va (a - PAGE_SIZE)).
  { assert (PAGE_SIZE = 4096) by done. assert (USER_TEMPBOTT = 0xBF800000) by done.
    unfold user_va, KERNEL_BASE_ADDR. lia. }
  destruct V as [V1 V2]. rewrite Hb by done. unfold ubyte.
  rewrite (ks_mapped _ _ _ K'), (bm_stack _ _ _ _ _ B), decide_True;
    [|apply page_of_aligned_va; [done|]; unfold stack_page; change USER_STACKTOP with USER_TEMPBOTT; lia|done|done].
  rewrite (wr_mapped _ _ _ _ _ HW), (bm_temp _ _ _ _ _ B), decide_True; [|by apply temp_page|done|done].
  cbn [mbind option_bind]. rewrite E1, E2. f_equal. assert (PAGE_SIZE ≠ 0) by done.
  replace a with (a - PAGE_SIZE + 1 * PAGE_SIZE) at 2 by lia. by rewrite Z.mod_add.
Qed.

Lemma unmap_handed : handed s s5 g g'.
Proof.
  destruct unmap_task as [K Hb]. destruct unmap_cur as [Hs Hc]. destruct hand_written as [K' _].
  split; [done|apply unmap_cur_mapped|done|apply K| |].
  - intros a Ha Hp. rewrite (ks_mapped _ _ _ K), (ks_mapped _ _ _ K'), (bm_stack _ _ _ _ _ B) by done.
    by rewrite decide_False.
  - intros a Ha Hp. rewrite Hb by done. rewrite <- (bm_task_bytes _ _ _ _ _ B a Ha Hp).
    apply kept_byte; [done|done|]. intros e He. apply hand_mem. intros Ep.
    rewrite (bm_stack _ _ _ _ _ B), decide_False in He by done.
    apply Hp. destruct exec_vas as (_ & V2 & _).
    apply (sp_inj _ _ _ (bm_task _ _ _ _ _ B) stack_page a (p * PAGE_SIZE + USER_PERM) e); [done|done| | |].
    + rewrite (bm_stack _ _ _ _ _ B) by done. by rewrite decide_True.
    + rewrite (bm_stack _ _ _ _ _ B) by done. by rewrite decide_False.
    + rewrite Ep. apply user_perm_ok.
Qed.
End unmap.

Lemma hand_ok :
  ∃ s5, page_remove (slot g 0) USER_TEMPBOTT s4 = Ok (tt, s5) ∧ handed s s5 g g' ∧
    ∀ a, USER_TEMPBOTT ≤ a < USER_TEMPBOTT + PAGE_SIZE → ubyte s5 g' 0 (a - PAGE_SIZE) = ubyte s4 g 0 a.
Proof.
  destruct hand_frame as (pg & Href & Hn2). destruct exec_vas as (V1 & _).
  pose proof (wr_space _ _ _ _ _ HW) as Hs4. destruct (temp_perm_ok p) as (_ & _ & E).
  destruct (page_remove_ok s4 g 0 USER_TEMPBOTT (sp_inv _ _ _ Hs4) (sp_tree _ _ _ Hs4) V1 ltac:(done) _ pg hand_temp)
    as (s5 & Hrun & Hrm); rewrite ?E in *; [done| |].
  - destruct hand_written as [_ K]. apply (kept_no_table g s3); [done|]. apply B.
  - exists s5. split; [done|]. split; [by eapply unmap_handed|]. intros a. by eapply unmap_stack.
Qed.
End hand.

(** ** What the new program finds *)

(** An array [argv] with its strings and the NULL at the end. *)
Fixpoint argv_ok (rd : Z → option Z) (v : Z) (args : list (list Z)) : Prop :=
  match args with
  | [] => rd32 rd v = Some 0
  | x :: args => ∃ p, rd32 rd v = Some p ∧ cstr_at rd p x ∧ argv_ok rd (v + 4) args
  end.

(** The words that the entry code of a program pops: [argc] and [argv]. *)
Definition entry_stack (rd : Z → option Z) (esp : Z) (args : list (list Z)) : Prop :=
  rd32 rd esp = Some (Z.of_nat (length args)) ∧ ∃ v, rd32 rd (esp + 4) = Some v ∧ argv_ok rd v args.

Lemma rd32_shift rd d a : rd32 (λ x, rd (x - d)) a = rd32 rd (a - d).
Proof.
  unfold rd32. by replace (a - d + 1) with (a + 1 - d) by lia; replace (a - d + 2) with (a + 2 - d) by lia;
    replace (a - d + 3) with (a + 3 - d) by lia.
Qed.

Lemma cstr_shift rd d x : ∀ a, cstr_at (λ y, rd (y - d)) a x → cstr_at rd (a - d) x.
Proof.
  induction x as [|c x IH]; intros a; [done|]. intros (Ha & Hc & Hx). split; [done|]. split; [done|].
  replace (a - d + 1) with (a + 1 - d) by lia. by apply IH.
Qed.

Lemma argv_shift rd args : ∀ A S,
  args_at (λ y, rd (y - PAGE_SIZE)) A S args → rd32 rd (A - PAGE_SIZE + 4 * Z.of_nat (length args)) = Some 0 →
  argv_ok rd (A - PAGE_SIZE) args.
Proof.
  induction args as [|x args IH]; intros A S Hat He; cbn [args_at argv_ok length] in *; [by rewrite Z.add_0_r in He|].
  destruct Hat as (Hp & Hx & Hrest). rewrite rd32_shift in Hp. exists (S - PAGE_SIZE).
  split; [done|]. split; [by apply cstr_shift|]. replace (A - PAGE_SIZE + 4) with (A + 4 - PAGE_SIZE) by lia.
  eapply IH; [exact Hrest|]. rewrite <- He. f_equal. lia.
Qed.

Lemma block_entry rd args :
  block_at (λ y, rd (y - PAGE_SIZE)) args → entry_stack rd (argv_at args - 8 - PAGE_SIZE) args.
Proof.
  intros [B1 B2 B3 B4]. rewrite !rd32_shift in *. split; [done|]. exists (argv_at args - PAGE_SIZE).
  replace (argv_at args - 8 - PAGE_SIZE + 4) with (argv_at args - 4 - PAGE_SIZE) by lia. split; [done|].
  eapply argv_shift; [exact B1|]. rewrite <- B2. f_equal. lia.
Qed.

Lemma block_ext rd rd' args :
  fits args → (∀ a, USER_TEMPBOTT ≤ a < USER_TEMPBOTT + PAGE_SIZE → rd' a = rd a) →
  block_at rd args → block_at rd' args.
Proof.
  intros Hf H [B1 B2 B3 B4]. destruct (block_bounds args Hf) as (D1 & D2 & D3). pose proof (args_size_bound args).
  assert (strings_at args + args_size args = USER_TEMPBOTT + PAGE_SIZE) by (unfold strings_at; lia).
  split; [|rewrite (rd32_ext rd); [done|intros; apply H; lia]..].
  eapply args_at_ext; [..|exact B1]; intros; apply H; lia.
Qed.

(** The words that [execve_args] computes with. *)
Lemma execve_addresses args :
  fits args →
  let n := Z.of_nat (length args) in
  let A := argv_at args in
  u32 (USER_TEMPBOTT + PAGE_SIZE - args_size args) = strings_at args ∧
  u32 (ROUNDDOWN (strings_at args) 4 - 4 * (n + 1)) = A ∧ u32 (A + 4 * n) = A + 4 * n ∧
  u32 (A - 4) = A - 4 ∧ u32 (A - 8) = A - 8 ∧ UTEMP2USTACK A = A - PAGE_SIZE ∧
  UTEMP2USTACK (A - 8) = A - 8 - PAGE_SIZE.
Proof.
  intros Hf. destruct (block_bounds args Hf) as (D1 & D2 & D3). pose proof (args_size_bound args).
  assert (HP : PAGE_SIZE = 4096) by done. assert (HT : USER_TEMPBOTT = 0xBF800000) by done. cbv zeta.
  change (ROUNDDOWN (strings_at args) 4 - 4 * (Z.of_nat (length args) + 1)) with (argv_at args).
  change (USER_TEMPBOTT + PAGE_SIZE - args_size args) with (strings_at args).
  split_and!; try (apply u32_small; lia); apply utemp; lia.
Qed.

Lemma execve_args_shape fuel c t argv s p s1 s2 s3 args :
  fits args →
  page_alloc _GFP_ZERO s = Ok (Some p, s1) → page_insert t p stack_page USER_PERM s1 = Ok (0, s2) →
  page_insert c p USER_TEMPBOTT TEMP_PERM s2 = Ok (0, s3) →
  count_args fuel c argv 0 0 s3 = Ok ((Z.of_nat (length args), args_size args), s3) →
  let A := argv_at args in
  execve_args fuel c t argv s =
  ((put_args (length args) fuel c argv A (strings_at args) ;;
    ustore32 c (A + 4 * Z.of_nat (length args)) 0 ;;
    ustore32 c (A - 4) (A - PAGE_SIZE) ;;
    ustore32 c (A - 8) (Z.of_nat (length args))) ;;
   page_remove c USER_TEMPBOTT ;; mret (A - 8 - PAGE_SIZE)) s3.
Proof.
  intros Hf R1 R2 R3 Rc A. destruct (execve_addresses args Hf) as (E1 & E2 & E3 & E4 & E5 & E6 & E7). fold A in E2, E3, E4, E5, E6, E7.
  unfold execve_args. rewrite (bind_Ok _ _ _ _ _ R1). cbv beta iota. rewrite (bind_Ok _ _ _ _ _ R2), (bind_Ok _ _ _ _ _ R3).
  rewrite (bind_Ok _ _ _ _ _ Rc). cbv beta iota zeta.
  rewrite E1, E2, E3, E4, E5, E6, E7, Nat2Z.id. unfold mbind, M_bind.
  repeat (match goal with |- match ?m ?x with _ => _ end = _ => destruct (m x) as [[? ?]|]; [|reflexivity] end).
  reflexivity.
Qed.

(** The words and strings of the caller in the page of the new task. *)
Lemma execve_args_ok fuel s s1 s2 s3 g g' p argv args :
  exec_ready s g g' → page_alloc _GFP_ZERO s = Ok (Some p, s1) →
  page_insert (slot g' 0) p stack_page USER_PERM s1 = Ok (0, s2) →
  page_insert (slot g 0) p USER_TEMPBOTT TEMP_PERM s2 = Ok (0, s3) →
  src_args (ubyte s g 0) argv args → fits args → args_size args < Z.of_nat fuel →
  ∃ esp s', execve_args fuel (slot g 0) (slot g' 0) argv s = Ok (esp, s') ∧
    entry_stack (ubyte s' g' 0) esp args ∧ handed s s' g g' ∧ stack_page ≤ esp < USER_STACKTOP.
Proof.
  intros Hr R1 R2 R3 Hsrc Hf Hfuel. pose proof (tr_both s s1 s2 s3 g g' p Hr R1 R2 R3) as B.
  assert (HP : PAGE_SIZE = 4096) by done. assert (HT : USER_TEMPBOTT = 0xBF800000) by done.
  assert (Hsz : args_size args < PAGE_SIZE) by (unfold fits in Hf; lia).
  assert (Hsrc3 : src_args (ubyte s3 g 0) argv args).
  { eapply src_args_ext; [|exact Hsrc]. intros a Ha. apply (bm_bytes _ _ _ _ _ B).
    - unfold user_va, KERNEL_BASE_ADDR. lia.
    - rewrite temp_page. lia. }
  assert (Hrg : mapped_range s3 g 0 USER_TEMPBOTT (USER_TEMPBOTT + PAGE_SIZE)).
  { intros a Ha. rewrite (bm_temp _ _ _ _ _ B) by (unfold user_va, KERNEL_BASE_ADDR; lia).
    rewrite decide_True by (by apply temp_page). by eexists. }
  pose proof (count_args_ok g s3 args fuel argv 0 0 Hfuel (bm_space _ _ _ _ _ B) Hsrc3
    ltac:(lia) ltac:(lia) ltac:(lia) ltac:(lia)) as Rc. rewrite !Z.add_0_l in Rc.
  rewrite (execve_args_shape fuel _ _ argv s p s1 s2 s3 args Hf R1 R2 R3 Rc). cbv zeta.
  destruct (block_ok g fuel s3 argv args (bm_space _ _ _ _ _ B) Hsrc3 Hf Hfuel Hrg) as (s4 & W & R4 & HW & Hin & Hblk).
  rewrite (bind_Ok _ _ _ _ _ R4).
  destruct (hand_ok s s3 s4 g g' p W (xr_temp _ _ _ Hr) B HW Hin) as (s5 & R5 & Hh & Hst).
  rewrite (bind_Ok _ _ _ _ _ R5). eexists _, s5. split; [reflexivity|]. split; [|split; [done|]].
  - apply block_entry. eapply block_ext; [done| |exact Hblk]. intros a Ha. simpl. by apply Hst.
  - destruct (block_bounds args Hf) as (D1 & D2 & D3). unfold stack_page. change USER_STACKTOP with USER_TEMPBOTT.
    pose proof (args_size_bound args). unfold strings_at in *. lia.
Qed.


(** ** A machine to execute a program on

    The machine of ForkProofs: task 9 has one page, with the array of its arguments
    at 0x400000 and the strings behind; the directory 8 is that of the new task. *)

#[local] Opaque small_mm small_mapped.

Definition arg_page : mstate :=
  put_ent 10 2 0x6c2d00736c (put_ent 10 0 (0x400010 + 2 ^ 32 * 0x400013) small_mapped).

Definition ls_args : list (list Z) := [[0x6c; 0x73]; [0x2d; 0x6c]].

Lemma small_mapped_space : space small_mapped 9 0.
Proof.
  destruct small_frame_10 as (Hb & Hn & _).
  assert (Ee : eframe (10 * PAGE_SIZE + 7) = 10) by (apply eframe_entry; unfold PAGE_SIZE; lia).
  split; [apply small_mapped_ok|apply small_mapped_ok| |].
  - intros a e Ha He. apply (small_is_mapped a e Ha) in He as [_ ->]. by rewrite Ee.
  - intros a a' e e' Ha Ha' He He' _. apply (small_is_mapped a e Ha) in He as [E _].
    apply (small_is_mapped a' e' Ha') in He' as [E' _]. unfold same_page in *. congruence.
Qed.

Lemma small_dir_roles r : user_role r → role_frame small_mapped 8 0 r = None.
Proof.
  destruct small_kernel as [_ Hk].
  assert (H : ∀ i, 0 ≤ i < 3 → role_frame small_mapped 8 0 (RPmd i) = None).
  { intros i Hi. unfold role_frame. by rewrite Hk by lia. }
  destruct r as [i|i j]; intros Hr; [by apply H|]. rewrite role_frame_pte, H; [done|simpl in Hr; lia].
Qed.

Lemma small_dir_unmapped a : user_va a → mapped small_mapped 8 0 a = None.
Proof. intros Ha. unfold mapped, entry_at. rewrite small_dir_roles; [done|]. by apply leaf_user. Qed.

Lemma small_dir_table q : table small_mapped 8 0 q → q = 8.
Proof. intros [->|(r & Hr & E)]; [done|]. by rewrite small_dir_roles in E. Qed.

Lemma small_dir_space : space small_mapped 8 0.
Proof.
  split; [apply small_mapped_ok| | |].
  - split; [apply small_kernel|lia| |].
    + intros r f Hr. by rewrite small_dir_roles.
    + intros r r' f Hr. by rewrite small_dir_roles.
  - intros a e Ha He. rewrite small_dir_unmapped in He by exact Ha. discriminate He.
  - intros a a' e e' Ha Ha' He. rewrite small_dir_unmapped in He by exact Ha. discriminate He.
Qed.

(** The directory 8 is no table of task 9. *)
Lemma small_dir_apart : no_table small_mapped 9 0 8.
Proof.
  apply (inserted_no_table _ _ _ _ _ _ _ 8 small_mapped_ok (small_busy 8 ltac:(lia))).
  split; [done|]. intros r Hr. by rewrite small_no_tables.
Qed.

Lemma arg_mem q : q ≠ 10 → mem arg_page !! q = mem small_mapped !! q.
Proof. intros Hq. unfold arg_page. by rewrite !mem_put_ne. Qed.

Lemma arg_inv : mm_inv arg_page.
Proof. apply mm_inv_put, mm_inv_put, small_mapped_ok. Qed.

Lemma busy_put s f k v q : busy s q → busy (put_ent f k v s) q.
Proof. done. Qed.

Lemma arg_busy q : busy small_mapped q → busy arg_page q.
Proof. intros Hq. apply busy_put, busy_put, Hq. Qed.

Lemma arg_kept_at h : space small_mapped h 0 → no_table small_mapped h 0 10 → kept_space h small_mapped arg_page.
Proof.
  intros Hs Hn. apply keep_space; [exact Hs|exact arg_inv| | |].
  - intros q Hq. apply arg_busy, (table_busy _ h 0); [apply Hs|exact Hq].
  - intros a e Ha He. apply arg_busy. eapply (sp_pages _ _ _ Hs); eassumption.
  - intros q Hq. apply arg_mem. intros ->. apply no_table_iff in Hn. exact (Hn Hq).
Qed.

Lemma arg_kept : kept_space 9 small_mapped arg_page ∧ kept_space 8 small_mapped arg_page.
Proof.
  split; apply arg_kept_at; [apply small_mapped_space|apply small_frame_10|apply small_dir_space|].
  apply no_table_iff. intros Hq%small_dir_table. discriminate Hq.
Qed.

#[local] Opaque arg_page.

Lemma arg_dir q : q ≠ 8 → no_table arg_page 8 0 q.
Proof.
  intros Hq. apply (kept_no_table 8 small_mapped); [apply arg_kept|]. apply no_table_iff.
  intros Ht%small_dir_table. exact (Hq Ht).
Qed.

Lemma arg_temp : mapped small_mapped 9 0 USER_TEMPBOTT = None.
Proof.
  destruct exec_vas as (V1 & _). destruct (mapped small_mapped 9 0 USER_TEMPBOTT) as [e|] eqn:E; [|reflexivity].
  apply small_is_mapped in E as [E _]; [|exact V1]. vm_compute in E. discriminate E.
Qed.

Lemma arg_ready : exec_ready arg_page 9 8.
Proof.
  destruct arg_kept as [K9 K8]. destruct exec_vas as (V1 & V2 & _).
  split; [split|apply K9|apply K8| | | |].
  - apply K9.
  - apply K9.
  - apply K8.
  - intros q Hq. apply (proj1 (ks_tables _ _ _ K9 q)) in Hq. apply arg_dir. intros ->.
    pose proof small_dir_apart as Hd. exact (proj1 (no_table_iff _ _ _ _) Hd Hq).
  - intros a e Ha He. rewrite (ks_mapped _ _ _ K9) in He by exact Ha. apply (small_is_mapped a e Ha) in He as [_ ->].
    apply arg_dir. discriminate.
  - intros a e Ha He. rewrite (ks_mapped _ _ _ K8), small_dir_unmapped in He by exact Ha. discriminate He.
  - rewrite (ks_mapped _ _ _ K9) by exact V1. exact arg_temp.
  - rewrite (ks_mapped _ _ _ K8) by exact V2. apply small_dir_unmapped, V2.
Qed.

Lemma arg_src : src_args (ubyte arg_page 9 0) 0x400000 ls_args.
Proof.
  unfold ls_args. cbn [src_args cstr_at length]. unfold low_range.
  split; [vm_compute; split; discriminate|]. exists 0x400010. split; [vm_compute; reflexivity|]. split; [lia|].
  split; [split; [vm_compute; reflexivity|split; [lia|split; [vm_compute; reflexivity|split; [lia|vm_compute; reflexivity]]]]|].
  split; [vm_compute; split; discriminate|]. split; [vm_compute; split; discriminate|].
  exists 0x400013. split; [vm_compute; reflexivity|]. split; [lia|].
  split; [split; [vm_compute; reflexivity|split; [lia|split; [vm_compute; reflexivity|split; [lia|vm_compute; reflexivity]]]]|].
  split; [vm_compute; split; discriminate|]. split; [vm_compute; split; discriminate|]. vm_compute. reflexivity.
Qed.

(** The three steps that need memory. *)
Definition arg_steps : outcome (Z * Z * Z * (mstate * mstate * mstate)) :=
  match page_alloc _GFP_ZERO arg_page with
  | Ok (Some p, s1) =>
      match page_insert (slot 8 0) p stack_page USER_PERM s1 with
      | Ok (r2, s2) =>
          match page_insert (slot 9 0) p USER_TEMPBOTT TEMP_PERM s2 with
          | Ok (r3, s3) => Ok (p, r2, r3, (s1, s2, s3))
          | Stop w => Stop w
          end
      | Stop w => Stop w
      end
  | Ok (None, _) => Stop Faulted
  | Stop w => Stop w
  end.

Lemma arg_steps_run : ∃ p s1 s2 s3, page_alloc _GFP_ZERO arg_page = Ok (Some p, s1) ∧
  page_insert (slot 8 0) p stack_page USER_PERM s1 = Ok (0, s2) ∧
  page_insert (slot 9 0) p USER_TEMPBOTT TEMP_PERM s2 = Ok (0, s3).
Proof.
  assert (E : match arg_steps with Ok (_, r2, r3, _) => (r2, r3) | Stop _ => (1, 1) end = (0, 0))
    by (vm_compute; reflexivity).
  unfold arg_steps in E. destruct (page_alloc _GFP_ZERO arg_page) as [[[p|] s1]|]; [|discriminate E..].
  destruct (page_insert (slot 8 0) p stack_page USER_PERM s1) as [[r2 s2]|] eqn:R2; [|discriminate E].
  destruct (page_insert (slot 9 0) p USER_TEMPBOTT TEMP_PERM s2) as [[r3 s3]|] eqn:R3; [|discriminate E].
  injection E as -> ->. exists p, s1, s2, s3. split; [reflexivity|]. split; [exact R2|exact R3].
Qed.

