(* ===== verification/ExecveProofs.v ===== *)
(** * Correctness of executing a program

    [task_create] and [execve] over all their components: the new task has an address
    space of its own with the program, the strings of its arguments and the entry
    point, the descriptors of its creator, a process id that was free and a place in
    the run queue; the creator keeps its memory. *)

From S2P Require Import Prelude KList Pidmap Layout Buddy BuddyProofs Paging PagingProofs Vma VmaProofs Fault FaultProofs Fork ForkProofs Exec ExecMem ExecProofs ExecArgs Files FilesProofs Sched SchedProofs Process ProcessProofs.

Local Open Scope Z_scope.

(** ** The memory of the creator and of the new task *)

(** [g] is the directory of the creator in [m], [p] that of the new task in [m']. *)
Record beside (g p : Z) (m m' : mstate) : Prop := {
  be_cur : kept_space g m m';
  be_bytes : ∀ a, user_va a → ubyte m' g 0 a = ubyte m g 0 a;
  be_trees : two_trees m' g 0 p 0;
  be_task : space m' p 0;
  be_clear : pages_clear m' g p;
  be_clear' : pages_clear m' p g }.

Lemma new_directory_beside g p m m' :
  space m g 0 → new_directory g 0 m m' p →
  beside g p m m' ∧ ∀ a, user_va a → mapped m' p 0 a = None.
Proof.
  intros Hs Hd. pose proof (sp_tree _ _ _ Hs) as Hw.
  assert (Hnew : ∀ q, busy m q → mem m' !! q = mem m !! q).
  { intros q Hq. apply (nd_data _ _ _ _ _ Hd). by apply (nd_busy _ _ _ _ _ Hd). }
  assert (Hn : ∀ a, user_va a → mapped m' p 0 a = None).
  { intros a Ha. destruct (user_va_role a Ha) as [_ Hu]. unfold mapped, entry_at.
    by rewrite (nd_empty _ _ _ _ _ Hd). }
  assert (K : kept_space g m m').
  { apply keep_space; [done|apply Hd| | |].
    - intros q Hq. apply (nd_busy _ _ _ _ _ Hd). by apply (table_busy m g 0).
    - intros a e Ha He. apply (nd_busy _ _ _ _ _ Hd). by eapply (sp_pages _ _ _ Hs).
    - intros q Hq. apply Hnew. by apply (table_busy m g 0). }
  split; [|done]. split; [done| |apply Hd| | |].
  - intros a Ha. apply kept_byte; [done|done|]. intros e He. apply Hnew. by eapply (sp_pages _ _ _ Hs).
  - split; [apply Hd|apply Hd|intros a e Ha; by rewrite Hn|intros a a' e e' Ha _; by rewrite Hn].
  - intros a e Ha He. rewrite (ks_mapped _ _ _ K) in He by done. apply no_table_iff. intros [E|(r & Hu & E)].
    + by destruct (nd_busy _ _ _ _ _ Hd (eframe e)); [eapply (sp_pages _ _ _ Hs)|].
    + by rewrite (nd_empty _ _ _ _ _ Hd) in E.
  - intros a e Ha. by rewrite Hn.
Qed.

Lemma loaded_beside g p img binary hs m m1 m2 :
  beside g p m m1 → (∀ a, user_va a → mapped m1 p 0 a = None) → loaded p img binary hs m1 m2 → beside g p m m2.
Proof.
  intros B Hn L. pose proof (ks_space _ _ _ (be_cur _ _ _ _ B)) as Hs. pose proof (sp_tree _ _ _ Hs) as Hw.
  assert (Ht : ∀ q, table m1 g 0 q → busy m1 q ∧ no_table m1 p 0 q).
  { intros q Hq. split; [by apply (table_busy m1 g 0)|by apply (be_trees _ _ _ _ B)]. }
  assert (Hpg : ∀ a e, user_va a → mapped m1 g 0 a = Some e → busy m1 (eframe e) ∧ no_table m1 p 0 (eframe e)).
  { intros a e Ha He. split; [by eapply (sp_pages _ _ _ Hs)|by eapply (be_clear _ _ _ _ B)]. }
  assert (K : kept_space g m1 m2).
  { apply keep_space; [done|apply L| | |].
    - intros q [Hq _]%Ht. by apply (lo_kept _ _ _ _ _ _ L).
    - intros a e Ha [Hq _]%Hpg; [|done]. by apply (lo_kept _ _ _ _ _ _ L).
    - intros q [Hq Hq']%Ht. by apply (lo_data _ _ _ _ _ _ L). }
  split.
  - by eapply kept_space_trans; [apply B|].
  - intros a Ha. rewrite <- (be_bytes _ _ _ _ B) by done. apply kept_byte; [done|done|].
    intros e He. destruct (Hpg a e Ha He). by apply (lo_data _ _ _ _ _ _ L).
  - split; [apply L|apply K|apply L|]. intros q Hq%(ks_tables _ _ _ K). destruct (Ht q Hq).
    by apply (lo_tables _ _ _ _ _ _ L).
  - apply L.
  - intros a e Ha He. rewrite (ks_mapped _ _ _ K) in He by done. destruct (Hpg a e Ha He).
    by apply (lo_tables _ _ _ _ _ _ L).
  - intros a e Ha He. apply no_table_iff. intros Hq%(ks_tables _ _ _ K).
    destruct (lo_fresh _ _ _ _ _ _ L a e Ha He) as [E|E]; [by rewrite Hn in E|]. apply E. by apply Ht.
Qed.

Lemma below_top img binary hs : ∀ lim,
  Forall (seg_ok img binary) hs → ascending lim hs → Forall (λ h, seg_hi h ≤ top lim hs) hs.
Proof.
  induction hs as [|h hs IH]; intros lim Hok; simpl; [constructor|].
  apply Forall_cons in Hok as [Hh Hok]. intros [Hlo Hasc]. constructor; [|by apply IH].
  by apply (ascending_above img binary).
Qed.

(** The stack is not part of the program. *)
Lemma stack_outside img binary entry l : program_ok img binary entry l → outside (loads l) stack_page.
Proof.
  intros Hp. pose proof (below_top _ _ _ _ (po_segments _ _ _ _ Hp) (po_ascending _ _ _ _ Hp)) as Hb.
  pose proof (po_room _ _ _ _ Hp) as Hr. eapply Forall_impl; [exact Hb|]. intros h Hh. simpl in Hh.
  unfold stack_page, USER_STACKBOTT, USER_STACKTOP, PAGE_SIZE in *. lia.
Qed.

Lemma beside_exec_ready g p img binary entry l m m1 m2 :
  program_ok img binary entry l → beside g p m m1 → (∀ a, user_va a → mapped m1 p 0 a = None) →
  loaded p img binary (loads l) m1 m2 → mapped m g 0 USER_TEMPBOTT = None →
  beside g p m m2 ∧ exec_ready m2 g p.
Proof.
  intros Hp B Hn L Htmp. pose proof (loaded_beside _ _ _ _ _ _ _ _ B Hn L) as B2. split; [done|].
  destruct exec_vas as (V1 & V2 & _). split; [apply B2|apply B2|apply B2|apply B2|apply B2| |].
  - by rewrite (ks_mapped _ _ _ (be_cur _ _ _ _ B2)).
  - rewrite (lo_mapped _ _ _ _ _ _ L); [by apply Hn|done|by eapply stack_outside].
Qed.

(** ** The steps *)

Section create.
Context {H : Type} `{NewNodes H} (rq list_off kf : Z) (fuel : nat).

Local Abbreviation state := (@sstate H machine).

Definition no_files : list Z := replicate (Z.to_nat MAX_FILE) 0.

Lemma hd_in (av : list Z) : hd 0 av ≠ 0 → hd 0 av ∈ av.
Proof. destruct av; [done|intros _; apply list_elem_of_here]. Qed.

Lemma alloc_files_run c r :
  let d := descriptors r in
  let t := hd 0 (avail d) in
  if decide (t = 0 ∨ hd 0 (tail (avail d)) = 0) then ∃ r', alloc_files_struct c r = Ok (- ENOMEM, r')
  else alloc_files_struct c r = Ok (0, set_tab c t
    (set_descriptors (with_avail (tail (tail (avail d))) (set_tabs (<[t := no_files]> (tabs d)) d)) r)).
Proof.
  cbv zeta. unfold alloc_files_struct. set (d := descriptors r). set (t := hd 0 (avail d)).
  rewrite (bind_Ok _ _ _ _ _ (in_descriptors_run _ r _ _ (kmalloc_run (descriptors r)))). fold d t.
  destruct (decide (t = 0)) as [Et|Et]; [rewrite decide_True by auto; rewrite bool_decide_eq_true_2 by done; by eexists|].
  rewrite bool_decide_eq_false_2 by done.
  rewrite (bind_Ok _ _ _ _ _ (in_descriptors_run _ (set_descriptors _ r) _ _ (kmalloc_run (with_avail (tail (avail d)) d)))).
  change (hd 0 (avail (with_avail (tail (avail d)) d))) with (hd 0 (tail (avail d))).
  destruct (decide (hd 0 (tail (avail d)) = 0)) as [Ef|Ef].
  - rewrite decide_True by auto. rewrite bool_decide_eq_true_2 by done. by eexists.
  - rewrite decide_False by tauto. rewrite bool_decide_eq_false_2 by done. reflexivity.
Qed.

Lemma create_set_vm_run c r g :
  space (memory r) g 0 → kernel_directory (memory r) kf →
  ∃ v r', create_set_vm (slot kf 0) c r = Ok (v, r') ∧
    (v = - ENOMEM ∧ (hd 0 (answers r) = 0 ∨ full (memory r)) ∨
     v = 0 ∧ ∃ p m', new_directory g 0 (memory r) m' p ∧
       r' = set_memory m' (set_mm c (Some (fresh_mm p)) (set_answers (tail (answers r)) r))).
Proof.
  intros Hs Hk. unfold create_set_vm. rewrite (bind_Ok _ _ _ _ _ (next_answer_run r)). unfold alloc_mm.
  case_bool_decide as E0; [eexists _, _; split; [reflexivity|auto]|].
  destruct (page_alloc_taken (memory r) g 0 (sp_inv _ _ _ Hs) (sp_tree _ _ _ Hs)) as (o & m1 & Hrun & Ho).
  rewrite (bind_Ok _ _ _ _ _ (in_memory_run _ (set_answers _ r) _ _ Hrun)).
  destruct o as [p|]; [|destruct Ho; eexists _, _; split; [reflexivity|auto]].
  destruct (copy_directory_ok _ _ _ _ _ _ Hk Ho) as (Hpv & m' & Hc & Hd). run_step.
  rewrite (bind_Ok _ _ _ _ _ (lift_Ok _ _ _ Hpv)). run_step.
  match goal with |- context [(in_memory (copy_kernel_page _ _) ≫= _) ?x] =>
    rewrite (bind_Ok _ _ _ _ _ (in_memory_run _ x _ _ Hc)) end.
  eexists _, _. split; [reflexivity|]. right. split; [done|]. exists p, m'. by split.
Qed.

Lemma edit_with_new a k m r g (s : state) :
  edit_task a g (set_rest r (with_new list_off a k m s)) = Ok (tt, set_rest r (with_new list_off a (g k) m s)).
Proof.
  rewrite (edit_new a k); [|apply lookup_insert_eq]. unfold with_new, set_pids, set_lists, set_tasks, set_rest. simpl.
  by rewrite insert_insert_eq.
Qed.

(** The new task counts the open files of its creator. *)
Lemma exec_files_run d r c t av fds :
  counted d → tabs d !! Files.cur d = Some fds → Z.of_nat (base.size (tabs d)) + 1 < 2 ^ 24 →
  tab_of r !! c = Some t → tabs d !! t = None →
  descriptors r = with_avail av (set_tabs (<[t := no_files]> (tabs d)) d) →
  exec_files c r = Ok (tt, set_descriptors (forked d t fds av) r) ∧ counted (forked d t fds av).
Proof.
  intros Hc Hl Hsz Htab Hnone Hd. destruct (share_table d fds t Hc Hl Hnone Hsz) as [Hcount Hfk]. split; [|done].
  unfold exec_files. run_step. rewrite (bind_Ok _ _ _ _ _ (of_option_Some _ _ _ Htab)). unfold in_descriptors.
  rewrite Hd. run_step.
  assert (E1 : <[t := no_files]> (tabs d) !! Files.cur d = Some fds)
    by (rewrite lookup_insert_ne; [done|]; intros E; congruence).
  erewrite bind_Ok by (apply of_option_Some; exact E1).
  erewrite bind_Ok by (apply of_option_Some; apply lookup_insert_eq). run_step.
  rewrite Hcount by done. simpl. unfold forked, with_avail, set_tabs, set_files. simpl. by rewrite insert_insert_eq.
Qed.

Section world.
Context (s : state) (Q : list Z) (g ppid binary entry : Z) (img : gmap Z Z) (l : list (Z * ProgHeader)).
Context (junk : task_struct).

(** The state a task is created in: [g] is the directory of the creator, or that of
    the kernel when there is no task yet. *)
Record create_world : Prop := {
  cw_queued : queued rq list_off s Q;
  cw_junk : Z.land (Sched.flags junk) _NEED_RESCHED = 0;
  cw_pids : pid_inv (pids s);
  cw_task : hd 0 (answers (rest s)) ≠ 0 → fresh_task rq list_off (lists s) (dom (tasks s)) Q (hd 0 (answers (rest s)));
  cw_back : curtask s = 0 ∧ g = kf ∨
    curtask s ≠ 0 ∧ curtask s ∈ dom (tasks s) ∧ ∃ mm, mm_of (rest s) !! curtask s = Some mm ∧ mm_pgd mm = slot g 0;
  cw_space : space (memory (rest s)) g 0;
  cw_temp : mapped (memory (rest s)) g 0 USER_TEMPBOTT = None;
  cw_kernel : kernel_directory (memory (rest s)) kf;
  cw_areas : good_kmallocs (vma_answers (rest s)) Leaf ∧ (length (loads l) + 2 ≤ length (vma_answers (rest s)))%nat;
  cw_avail : avail_ok (descriptors (rest s)) (avail (descriptors (rest s)));
  cw_program : program_ok img binary entry l;
  cw_fuel : (length (loads l) + 1 < fuel)%nat }.

(** What can be missing. *)
Inductive lacking : Prop :=
| no_task_struct : hd 0 (answers (rest s)) = 0 → lacking
| no_files_struct : let av := avail (descriptors (rest s)) in hd 0 av = 0 ∨ hd 0 (tail av) = 0 → lacking
| no_mm_struct : hd 0 (tail (answers (rest s))) = 0 → lacking
| no_directory : full (memory (rest s)) → lacking
| no_pid : alloc_pidmap (pids s) = Ok (-1, pids s) → lacking
| no_room p m st' : new_directory g 0 (memory (rest s)) m p →
    load_icode fuel img binary (slot g 0) (mk_load (fresh_mm p) m (vma_answers (rest s)) (cr3 (rest s)) 0) =
      Ok (- ENOMEM, st') → full (ld_mem st') → lacking.

(** The task [c] with the id [n], which was free, waits at the end of the run queue. *)
Record entered (s' : state) (c n : Z) : Prop := {
  en_new : tasks s !! c = None ∧ 0 ≤ n < PID_MAX_DEFAULT ∧ ¬ in_use (pids s) n;
  en_tasks : tasks s' = <[c := Task n ppid TASK_RUNNING 3 (Sched.flags junk) (pwait junk)]> (tasks s);
  en_queued : queued rq list_off s' (Q ++ [c]);
  en_cur : curtask s' = curtask s;
  en_pids : pid_inv (pids s') ∧ ∀ i, 0 ≤ i < PID_MAX_DEFAULT → in_use (pids s') i ↔ i = n ∨ in_use (pids s) i;
  en_table : Sched.task_pidmap s' = <[n := c]> (Sched.task_pidmap s) }.

(** It has an address space with the directory [p] and the areas of the program, and
    no other address space is replaced. *)
Definition own_space (s' : state) (c p : Z) : Prop :=
  ∃ mm, mm_of (rest s') = <[c := mm]> (mm_of (rest s)) ∧ mm_pgd mm = slot p 0 ∧
    ∃ t, mm_ok (mm_areas mm) t ∧ area_range <$> inorder t ≡ₚ
      (top PAGE_SIZE (loads l), top PAGE_SIZE (loads l) + PAGE_SIZE) :: (USER_STACKBOTT, USER_STACKTOP) ::
      (seg_range <$> loads l).

(** A task with the program in its memory and without open files. *)
Record created (s' : state) (c n p : Z) : Prop := {
  cd_entered : entered s' c n;
  cd_frame : frame_of (rest s') !! c = Some (with_eip entry fresh_frame);
  cd_mm : own_space s' c p;
  cd_program : ∀ a, user_va a → ubyte (memory (rest s')) p 0 a = prog_byte img binary (loads l) a None;
  cd_memory : beside g p (memory (rest s)) (memory (rest s')) ∧ exec_ready (memory (rest s')) g p;
  cd_cr3 : cr3 (rest s') = slot g 0;
  cd_files : ∃ t av, tab_of (rest s') !! c = Some t ∧ tabs (descriptors (rest s)) !! t = None ∧
    descriptors (rest s') = with_avail av (set_tabs (<[t := no_files]> (tabs (descriptors (rest s)))) (descriptors (rest s))) }.

Context (W : create_world).

Let a := hd 0 (answers (rest s)).
Let d := descriptors (rest s).
Let t := hd 0 (avail d).

(** The machine when the task has its directory [p]. *)
Definition with_space (p : Z) (m : mstate) : machine :=
  set_memory m (set_mm a (Some (fresh_mm p)) (set_answers (tail (tail (answers (rest s))))
    (set_tab a t (set_descriptors (with_avail (tail (tail (avail d))) (set_tabs (<[t := no_files]> (tabs d)) d)) (rest s))))).

Definition new_struct (n : Z) : task_struct := Task n ppid TASK_RUNNING 3 (Sched.flags junk) (pwait junk).

Lemma task_alloc_run :
  let run := task_alloc list_off (slot kf 0) junk ppid s in
  (run = Stop Panicked ∧ lacking) ∨
  (∃ v s', run = Ok (v, 0, s') ∧ v < 0 ∧ lacking) ∨
  (∃ n pm p m, run = Ok (0, a, set_rest (set_frame a fresh_frame (with_space p m))
        (with_new list_off a (new_struct n) pm (took s))) ∧
     a ≠ 0 ∧ tabs d !! t = None ∧ new_directory g 0 (memory (rest s)) m p ∧ pid_inv pm ∧
     0 ≤ n < PID_MAX_DEFAULT ∧ used (Pidmap.page (pids s)) n = false ∧
     ∀ i, 0 ≤ i < PID_MAX_DEFAULT → used (Pidmap.page pm) i = (Z.eqb n i || used (Pidmap.page (pids s)) i)).
Proof.
  cbv zeta. unfold task_alloc. rewrite (bind_Ok _ _ _ _ _ (on_machine_run _ _ _ _ (next_answer_run (rest s)))).
  fold a (took s). destruct (decide (a = 0)) as [Ea|Ea].
  { rewrite bool_decide_eq_false_2 by (intros ?; done). left. split; [reflexivity|by apply no_task_struct]. }
  rewrite (bool_decide_eq_true_2 (a ≠ 0)) by done. run_step.
  rewrite (bind_Ok (new_task list_off a junk) _ (took s) tt (with_new list_off a junk (pids s) (took s)) eq_refl).
  set (s2 := with_new list_off a junk (pids s) (took s)).
  pose proof (alloc_files_run a (rest s2)) as Hf. cbv zeta in Hf. change (descriptors (rest s2)) with d in Hf. fold t in Hf.
  case_decide as Et.
  { destruct Hf as [r' Hf]. rewrite (bind_Ok _ _ _ _ _ (on_machine_run _ _ _ _ Hf)).
    left. split; [reflexivity|by apply no_files_struct]. }
  assert (Et' : t ≠ 0) by tauto.
  rewrite (bind_Ok _ _ _ _ _ (on_machine_run _ _ _ _ Hf)). rewrite (bool_decide_eq_true_2 (0 ≤ 0)) by done. run_step.
  set (r1 := set_tab a t _).
  destruct (create_set_vm_run a r1 g (cw_space W) (cw_kernel W)) as (v & r' & Hv & Hc).
  rewrite (bind_Ok _ _ _ _ _ (on_machine_run _ (set_rest r1 s2) _ _ Hv)).
  change (set_rest r' (set_rest r1 s2)) with (set_rest r' s2).
  destruct Hc as [[-> Hc]|(-> & p & m & Hd & ->)].
  { rewrite bool_decide_eq_true_2 by done. right. left. eexists _, _. split; [reflexivity|]. split; [done|].
    destruct Hc; [by apply no_mm_struct|by apply no_directory]. }
  rewrite (bool_decide_eq_false_2 (0 < 0)) by done.
  destruct (alloc_pidmap_ok (pids s) (cw_pids W)) as (n & pm & Hal & Hi & Hcase).
  change (set_memory m (set_mm a _ _)) with (with_space p m).
  assert (R2 : new_pid (set_rest (with_space p m) s2) =
    Ok (n, set_rest (with_space p m) (with_new list_off a junk pm (took s)))) by (unfold new_pid; simpl; by rewrite Hal).
  rewrite (bind_Ok _ _ _ _ _ R2), (bind_Ok _ _ _ _ _ (edit_with_new _ _ _ _ _ _)).
  destruct Hcase as [(-> & -> & _)|(Hn & Hu & _ & _ & Hused)].
  { rewrite bool_decide_eq_true_2 by done. right. left. eexists _, _. split; [reflexivity|]. split; [done|]. by apply no_pid. }
  rewrite bool_decide_eq_false_2 by lia. do 3 rewrite (bind_Ok _ _ _ _ _ (edit_with_new _ _ _ _ _ _)).
  right. right. exists n, pm, p, m. split; [reflexivity|]. split_and!; try done.
  - apply (proj2 (cw_avail W)); [|tauto]. by apply hd_in.
  - lia.
  - change PID_MAX_DEFAULT with BITS_PER_PAGE. lia.
Qed.

(** The machine when the program is loaded. *)
Definition with_program (p : Z) (m : mstate) (st : load_state) : machine :=
  set_frame a (with_eip (ld_eip st) fresh_frame) (set_mm a (Some (ld_mm st)) (set_cr3 (ld_cr3 st)
    (set_vma_answers (ld_kmallocs st) (set_memory (ld_mem st) (set_frame a fresh_frame (with_space p m)))))).

Lemma create_load_run p m :
  new_directory g 0 (memory (rest s)) m p →
  ∃ v st, create_load fuel img binary (slot g 0) a (set_frame a fresh_frame (with_space p m)) =
      Ok (v, with_program p m st) ∧
    (v = - ENOMEM ∧ lacking ∨
     v = 0 ∧ program_in p img binary entry (slot g 0) (loads l)
       (mk_load (fresh_mm p) m (vma_answers (rest s)) (cr3 (rest s)) 0) st).
Proof.
  intros Hd. destruct (new_directory_beside _ _ _ _ (cw_space W) Hd) as [B Hn].
  set (st0 := mk_load (fresh_mm p) m (vma_answers (rest s)) (cr3 (rest s)) 0).
  destruct (load_icode_ok p img binary entry (slot g 0) l fuel (cw_program W) st0 eq_refl (be_task _ _ _ _ B) Hn
    (proj1 (cw_areas W)) (proj2 (cw_areas W)) (cw_fuel W)) as (v & st & Hrun & Hr).
  exists v, st. split.
  - unfold create_load. rewrite (bind_Ok _ _ _ _ _ (get_mm_run a (set_frame _ _ _) (fresh_mm p) (lookup_insert_eq _ _ _))).
    run_step. erewrite bind_Ok by (apply of_option_Some; apply lookup_insert_eq).
    rewrite (bind_Ok _ _ _ _ _ (lift_Ok _ _ _ Hrun)). reflexivity.
  - destruct Hr as [[-> Hf]|[-> Hpi]]; [left|by right]. split; [done|]. by eapply no_room.
Qed.

Lemma enter_task n pm r :
  a ≠ 0 → 0 ≤ n < PID_MAX_DEFAULT →
  ∃ s', (k ← load_task a; pidmap_set (Sched.pid k) a ;; schedule_add_task rq list_off a ;; mret a)
      (set_rest r (with_new list_off a (new_struct n) pm (took s))) = Ok (a, s') ∧
    tasks s' = <[a := new_struct n]> (tasks s) ∧ queued rq list_off s' (Q ++ [a]) ∧ curtask s' = curtask s ∧
    pids s' = pm ∧ Sched.task_pidmap s' = <[n := a]> (Sched.task_pidmap s) ∧ rest s' = r.
Proof.
  intros Ha Hn. pose proof (cw_task W Ha) as Hfr. destruct (new_qrep _ _ _ _ _ _ Hfr) as (_ & h & Hadd & Hq).
  set (s1 := set_rest r _). assert (Hk : tasks s1 !! a = Some (new_struct n)) by apply lookup_insert_eq.
  rewrite (bind_Ok _ _ _ _ _ (load_task_run _ _ _ Hk)).
  set (s2 := SState (lists s1) (tasks s1) (curtask s) (<[n := a]> (Sched.task_pidmap s)) pm (jiffies s) r).
  assert (Hp : pidmap_set (Sched.pid (new_struct n)) a s1 = Ok (tt, s2)).
  { unfold pidmap_set, pidmap_get. rewrite bind_assoc. run_step. rewrite bool_decide_eq_true_2 by exact Hn. reflexivity. }
  rewrite (bind_Ok _ _ _ _ _ Hp). unfold schedule_add_task.
  rewrite (bind_Ok _ _ _ tt (set_lists h s2)) by (apply on_lists_run; exact Hadd).
  eexists. split; [reflexivity|]. split_and!; try done. split.
  - simpl. by rewrite dom_insert_L.
  - destruct (cw_queued W) as [_ Hr]. intros u [Hu| ->%list_elem_of_singleton]%elem_of_app.
    + destruct (Hr u Hu) as (Hu0 & kt & Hkt & Hrun). split; [done|]. exists kt. split; [|done]. simpl.
      rewrite lookup_insert_ne; [done|]. intros <-. destruct Hfr as (_ & Hd & _). apply Hd. by apply elem_of_dom_2 in Hkt.
    + split; [done|]. exists (new_struct n). split; [done|]. repeat split; [done|done|]. exact (cw_junk W).
Qed.

(** The directory the processor goes back to. *)
Lemma back_run k pm r :
  a ≠ 0 → (∀ u, u ≠ a → mm_of r !! u = mm_of (rest s) !! u) →
  let s1 := set_rest r (with_new list_off a k pm (took s)) in
  (if bool_decide (curtask s1 = 0) then mret (slot kf 0)
   else mm ← on_machine (get_mm (curtask s1)); mret (mm_pgd mm)) s1 = Ok (slot g 0, s1).
Proof.
  intros Ha Hmm s1. change (curtask s1) with (curtask s).
  destruct (cw_back W) as [[E0 <-]|(E0 & Hin & mm & Hcm & Hg)]; [by rewrite bool_decide_eq_true_2|].
  rewrite bool_decide_eq_false_2 by done.
  assert (Hne : curtask s ≠ a).
  { intros E. destruct (cw_task W Ha) as (_ & Hd & _). apply Hd. fold a. by rewrite <- E. }
  rewrite (bind_Ok _ _ _ _ _ (on_machine_run _ s1 _ _ (get_mm_run (curtask s) r mm ltac:(by rewrite Hmm)))).
  by rewrite Hg.
Qed.

Lemma task_create_ok :
  let run := task_create rq list_off (slot kf 0) fuel junk img binary ppid s in
  (run = Stop Panicked ∧ lacking) ∨ (∃ c n p s', run = Ok (c, s') ∧ created s' c n p).
Proof.
  cbv zeta. unfold task_create. pose proof task_alloc_run as Hal. cbv zeta in Hal.
  destruct Hal as [[Hal Hla]|[(v & s1 & Hal & Hv & Hla)|(n & pm & p & m & Hal & Ha & Ht & Hd & Hpm & Hn & Hu & Hused)]].
  { left. split; [|done]. unfold mbind, M_bind. by rewrite Hal. }
  { left. split; [|done]. rewrite (bind_Ok _ _ _ _ _ Hal). rewrite bool_decide_eq_false_2 by lia. reflexivity. }
  rewrite (bind_Ok _ _ _ _ _ Hal). rewrite (bool_decide_eq_true_2 (0 ≤ 0)) by done. do 2 run_step.
  assert (Hmm : ∀ u, u ≠ a → mm_of (set_frame a fresh_frame (with_space p m)) !! u = mm_of (rest s) !! u)
    by (intros u Hu'; by apply lookup_partial_alter_ne).
  rewrite (bind_Ok _ _ _ _ _ (back_run _ _ _ Ha Hmm)).
  destruct (create_load_run p m Hd) as (v & st & Hl & Hc).
  rewrite (bind_Ok _ _ _ _ _ (on_machine_run _ (set_rest _ _) _ _ Hl)).
  destruct Hc as [[-> Hla]|[-> Hpi]]; [left; by split|]. right.
  rewrite (bool_decide_eq_true_2 (0 ≤ 0)) by done. run_step.
  change (set_rest ?x (set_rest ?y ?z)) with (set_rest x z).
  destruct (enter_task n pm (with_program p m st) Ha Hn) as (s' & Hrun & F1 & F2 & F3 & F4 & F5 & F6).
  exists a, n, p, s'. split; [exact Hrun|].
  destruct (new_directory_beside _ _ _ _ (cw_space W) Hd) as [B Hno].
  destruct (cw_task W Ha) as (_ & HD & _).
  split; [split|..]; rewrite ?F3, ?F4, ?F5, ?F6; try done.
  - split; [by apply not_elem_of_dom|]. split; [done|]. unfold in_use. by rewrite Hu.
  - split; [done|]. intros i Hi. unfold in_use. rewrite Hused by done. rewrite orb_true_iff, Z.eqb_eq. split; intros [?|?]; auto.
  - cbn [with_program set_frame frame_of]. rewrite lookup_insert_eq. by rewrite (pi_eip _ _ _ _ _ _ _ _ Hpi).
  - exists (ld_mm st). rewrite F6. split; [|split; [apply Hpi|]].
    + apply map_eq. intros u. cbn. destruct (decide (u = a)) as [->|Hua].
      * by rewrite lookup_partial_alter_eq, lookup_insert_eq.
      * rewrite !lookup_partial_alter_ne by done. by rewrite lookup_insert_ne.
    + destruct (pi_areas _ _ _ _ _ _ _ _ Hpi) as (tr & T1 & _ & T2). by exists tr.
  - intros x Hx. change (memory (with_program p m st)) with (ld_mem st).
    rewrite (lo_byte _ _ _ _ _ _ (pi_mem _ _ _ _ _ _ _ _ Hpi)) by done. unfold ubyte. cbn [ld_mem]. by rewrite (Hno x Hx).
  - by apply (beside_exec_ready g p img binary entry l (memory (rest s)) m (ld_mem st)); try apply W; try apply Hpi.
  - apply Hpi.
  - exists t, (tail (tail (avail d))). split; [apply lookup_insert_eq|by split].
Qed.

(** ** The arguments *)

(** There is no memory for the page of the arguments, or for the tables to map it. *)
Definition no_argument_page (m : mstate) (p : Z) : Prop :=
  (page_alloc _GFP_ZERO m = Ok (None, m) ∧ full m) ∨ ∃ q m1, page_alloc _GFP_ZERO m = Ok (Some q, m1) ∧
    ((∃ x, page_insert (slot p 0) q stack_page USER_PERM m1 = Ok (- ENOMEM, x) ∧ full x) ∨
     ∃ m2 x, page_insert (slot p 0) q stack_page USER_PERM m1 = Ok (0, m2) ∧
       page_insert (slot g 0) q USER_TEMPBOTT TEMP_PERM m2 = Ok (- ENOMEM, x) ∧ full x).

Lemma pass_arguments m p argv args :
  exec_ready m g p → src_args (ubyte m g 0) argv args → fits args → args_size args < Z.of_nat fuel →
  no_argument_page m p ∨
  ∃ esp m', execve_args fuel (slot g 0) (slot p 0) argv m = Ok (esp, m') ∧
    entry_stack (ubyte m' p 0) esp args ∧ handed m m' g p ∧ stack_page ≤ esp < USER_STACKTOP.
Proof.
  intros Hr Hsrc Hfit Hf.
  destruct (page_alloc_taken m g 0 (sp_inv _ _ _ (xr_cur _ _ _ Hr)) (sp_tree _ _ _ (xr_cur _ _ _ Hr)))
    as ([q|] & m1 & R1 & Ht); [|left; left; by destruct Ht as [-> ?]].
  destruct (tr_can2 m m1 g p q Hr R1) as (v2 & m2 & R2 & [[-> H2]|[-> _]]); [left; right; exists q, m1; eauto|].
  destruct (tr_can3 m m1 m2 g p q Hr R1 R2) as (v3 & m3 & R3 & [[-> H3]|[-> _]]);
    [left; right; exists q, m1; split; [done|]; right; eauto|].
  right. by eapply execve_args_ok.
Qed.

(** ** The whole call *)

Context (kc : task_struct) (argv : Z) (args : list (list Z)) (fds : list Z).

(** The creator is a task with open files, and its arguments are in its memory and fit
    into a page. *)
Record exec_world : Prop := {
  xw_cur : curtask s ≠ 0 ∧ tasks s !! curtask s = Some kc ∧ Sched.pid kc = ppid;
  xw_counted : counted (descriptors (rest s));
  xw_size : Z.of_nat (base.size (tabs (descriptors (rest s)))) + 1 < 2 ^ 24;
  xw_fds : tabs (descriptors (rest s)) !! Files.cur (descriptors (rest s)) = Some fds;
  xw_args : src_args (ubyte (memory (rest s)) g 0) argv args;
  xw_fits : fits args ∧ args_size args < Z.of_nat fuel }.

(** The task [c] is ready to run the program with its arguments; its creator sees no
    change of its memory. *)
Record executed (s' : state) (c n p esp : Z) : Prop := {
  xe_entered : entered s' c n;
  xe_frame : frame_of (rest s') !! c = Some (with_esp esp (with_eip entry fresh_frame));
  xe_mm : own_space s' c p;
  xe_program : ∀ a, user_va a → ¬ same_page stack_page a →
    ubyte (memory (rest s')) p 0 a = prog_byte img binary (loads l) a None;
  xe_arguments : entry_stack (ubyte (memory (rest s')) p 0) esp args ∧ stack_page ≤ esp < USER_STACKTOP;
  xe_creator : ∀ a, user_va a → mapped (memory (rest s')) g 0 a = mapped (memory (rest s)) g 0 a ∧
    ubyte (memory (rest s')) g 0 a = ubyte (memory (rest s)) g 0 a;
  xe_spaces : space (memory (rest s')) g 0 ∧ space (memory (rest s')) p 0;
  xe_cr3 : cr3 (rest s') = slot g 0;
  xe_files : ∃ t av, tab_of (rest s') !! c = Some t ∧ tabs (descriptors (rest s)) !! t = None ∧
    descriptors (rest s') = forked (descriptors (rest s)) t fds av ∧ counted (descriptors (rest s')) }.

Lemma execve_ok :
  exec_world →
  let run := execve rq list_off (slot kf 0) fuel junk img (inr binary) argv s in
  (run = Stop Panicked ∧ lacking) ∨
  (∃ c n p s1, task_create rq list_off (slot kf 0) fuel junk img binary ppid s = Ok (c, s1) ∧
     created s1 c n p ∧ no_argument_page (memory (rest s1)) p) ∨
  (∃ c n p esp s', run = Ok (n, s') ∧ executed s' c n p esp).
Proof.
  intros [(Hc0 & Hck & Hpid) Hcnt Hsz Hfds Hargs [Hfit Hfu]]. cbv zeta. unfold execve. run_step.
  rewrite (bind_Ok _ _ _ _ _ (load_task_run _ _ _ Hck)). rewrite Hpid.
  destruct task_create_ok as [[Hcr Hla]|(c & n & p & s1 & Hcr & Hcd)].
  { left. split; [|done]. unfold mbind, M_bind. by rewrite Hcr. }
  right. rewrite (bind_Ok _ _ _ _ _ Hcr). pose proof Hcd as [Hen Hfr Hmm Hpr [Hbe Hxr] Hcr3 (t' & av & Ht1 & Ht2 & Hds)].
  destruct Hmm as (mm & Hmm & Hpgd & Har).
  destruct (exec_files_run (descriptors (rest s)) (rest s1) c t' av fds Hcnt Hfds Hsz Ht1 Ht2 Hds) as [Rf Hcf].
  rewrite (bind_Ok _ _ _ _ _ (on_machine_run _ s1 _ _ Rf)). set (r1 := set_descriptors _ (rest s1)).
  destruct (cw_back W) as [[? _]|(_ & Hin & cm & Hcm & Hcg)]; [done|].
  assert (Hne : curtask s ≠ c).
  { intros E. apply elem_of_dom in Hin as [? Hin]. destruct (en_new _ _ _ Hen) as [Hnn _]. congruence. }
  assert (G1 : mm_of r1 !! curtask s = Some cm).
  { change (mm_of r1) with (mm_of (rest s1)). rewrite Hmm. by rewrite lookup_insert_ne. }
  assert (G2 : mm_of r1 !! c = Some mm).
  { change (mm_of r1) with (mm_of (rest s1)). rewrite Hmm. apply lookup_insert_eq. }
  rewrite (bind_Ok _ _ _ _ _ (on_machine_run _ (set_rest r1 s1) _ _ (get_mm_run _ r1 _ G1))).
  rewrite (bind_Ok _ _ _ _ _ (on_machine_run _ (set_rest r1 s1) _ _ (get_mm_run _ r1 _ G2))). rewrite Hcg, Hpgd.
  assert (Hsrc : src_args (ubyte (memory (rest s1)) g 0) argv args).
  { eapply src_args_ext; [|exact Hargs]. intros x Hx. apply (be_bytes _ _ _ _ Hbe).
    assert (USER_TEMPBOTT = 0xBF800000 ∧ PAGE_SIZE = 4096) as [? ?] by done. unfold user_va, KERNEL_BASE_ADDR. lia. }
  destruct (pass_arguments _ _ _ _ Hxr Hsrc Hfit Hfu) as [Hno|(esp & m' & Rx & Hst & Hh & Hesp)].
  { left. exists c, n, p, s1. by split. }
  right. rewrite (bind_Ok _ _ _ _ _ (on_machine_run _ (set_rest r1 s1) _ _ (in_memory_run _ r1 _ _ Rx))).
  assert (G3 : frame_of (set_memory m' r1) !! c = Some (with_eip entry fresh_frame)) by exact Hfr.
  erewrite bind_Ok. 2:{ apply on_machine_run. run_step. apply of_option_Some. exact G3. }
  run_step. erewrite bind_Ok. 2:{ apply load_task_run. simpl. rewrite (en_tasks _ _ _ Hen). apply lookup_insert_eq. }
  eexists c, n, p, esp, _. split; [reflexivity|]. destruct Hen. split; try done.
  - simpl. apply lookup_insert_eq.
  - exists mm. by split.
  - intros x Hx Hp. rewrite <- Hpr by done. by apply (hd_byte _ _ _ _ Hh).
  - intros x Hx. rewrite <- (ks_mapped _ _ _ (be_cur _ _ _ _ Hbe)), <- (be_bytes _ _ _ _ Hbe) by done.
    split; [by apply (hd_cur_mapped _ _ _ _ Hh)|by apply (hd_cur_byte _ _ _ _ Hh)].
  - split; apply Hh.
  - exists t', av. by split_and!.
Qed.
End world.
End create.

(** C1: executing a program as a whole.  A failed lookup is passed on and changes
    nothing.  Otherwise, for a well-formed image: the call returns the process id of a
    new task, which was free; the task is runnable with a full slice, knows its parent
    and stands in the table and at the end of the run queue; its registers are those of
    the entry point and of a stack on which it finds [argc] and the [argv] of the call;
    its memory holds, byte for byte, the segments of the image, in areas of its own; it
    shares the open files of its creator, each counted once more; and the memory of the
    creator is unchanged.  Or the kernel panics because a structure, a process id or a
    frame was lacking, or the task was made but there was no memory for its arguments. *)
Theorem execve_correct {H : Type} `{NewNodes H} (rq list_off kf : Z) (fuel : nat) (s : @sstate H machine)
    (Q : list Z) (g ppid binary entry : Z) (img : gmap Z Z) (l : list (Z * ProgHeader)) (junk : task_struct)
    (kc : task_struct) (argv : Z) (args : list (list Z)) (fds : list Z) :
  create_world rq list_off kf fuel s Q g binary entry img l junk →
  exec_world fuel s g ppid kc argv args fds →
  let run lookup := execve rq list_off (slot kf 0) fuel junk img lookup argv s in
  (∀ err, run (inl err) = Ok (err, s)) ∧
  ((run (inr binary) = Stop Panicked ∧ lacking fuel s g binary img) ∨
   (∃ c n p s1, task_create rq list_off (slot kf 0) fuel junk img binary ppid s = Ok (c, s1) ∧
      created rq list_off s Q g ppid binary entry img l junk s1 c n p ∧
      no_argument_page g (memory (rest s1)) p) ∨
   (∃ c n p esp s', run (inr binary) = Ok (n, s') ∧
      executed rq list_off s Q g ppid binary entry img l junk args fds s' c n p esp)).
Proof. intros W X. split; [done|]. by eapply execve_ok. Qed.

(** ** An example: the task 0x1000 executes a program with two arguments *)

#[local] Opaque small_mm small_mapped arg_page.

Definition exec_machine : machine :=
  mk_machine arg_page {[0x1000 := small_task]} demo_forking {[0x1000 := Files.cur demo_forking]} ∅ (slot 9 0)
    [0x2000; 0x3000] ((λ k, (k, (0, 0))) <$> [100; 200; 300; 400]).
Definition exec_start : @sstate lheap machine :=
  SState fork_lists {[0x1000 := fork_task]} 0x1000 {[0 := 0x1000]} fork_pids 0 exec_machine.
Definition exec_fds : list Z := [4096; 4096] ++ replicate 126 0.

Lemma exec_start_kernel : kernel_directory arg_page 8.
Proof.
  destruct small_kernel as [Hb Hk]. split; [exact (arg_busy 8 Hb)|]. intros i Hi. unfold ent.
  rewrite (arg_mem 8 ltac:(discriminate)). exact (Hk i Hi).
Qed.

Lemma exec_start_kmallocs : good_kmallocs (vma_answers exec_machine) Leaf.
Proof.
  split; [apply (bool_decide_unpack _); vm_compute; exact I|]. intros k Hk.
  apply list_elem_of_fmap in Hk as (x & -> & Hx). set_unfold in Hx.
  split_and!; [simpl; lia|by intros ?%elem_of_nil|reflexivity].
Qed.

Lemma exec_start_world : create_world 500 100 8 20 exec_start [0x1000] 9 tiny_addr 0x400000 tiny_img tiny_headers fork_task.
Proof.
  destruct (fork_start_world _ small_kmallocs_ok) as [[Hq _] _ Hp Ht _ _ _ _ _ _ _ Hav _ _ _]. destruct arg_ready as [_ Hs _ _ _ Htmp _].
  split; [exact Hq|reflexivity|exact Hp|exact Ht| |exact Hs|exact Htmp|exact exec_start_kernel| |exact Hav|exact tiny_ok|].
  - right. split; [discriminate|]. split; [|exists small_task; split; reflexivity].
    apply elem_of_dom. exists fork_task. reflexivity.
  - split; [exact exec_start_kmallocs|]. vm_compute. lia.
  - vm_compute. lia.
Qed.

Lemma exec_start_exec : exec_world 20 exec_start 9 0 fork_task 0x400000 ls_args exec_fds.
Proof.
  destruct (fork_start_world _ small_kmallocs_ok) as [_ _ _ _ _ _ _ _ _ _ Hc _ Hsz Hfds _].
  split; [|exact Hc|exact Hsz|exact Hfds|exact arg_src|].
  - split; [discriminate|]. split; reflexivity.
  - split; [vm_compute; discriminate|vm_compute; reflexivity].
Qed.

(** The new task gets its page of arguments. *)
Definition argument_page : Z :=
  match task_create 500 100 (slot 8 0) 20 fork_task tiny_img tiny_addr 0 exec_start with
  | Ok (c, s1) =>
      match mm_of (rest s1) !! c with
      | Some mm =>
          match page_alloc _GFP_ZERO (memory (rest s1)) with
          | Ok (Some q, m1) =>
              match page_insert (mm_pgd mm) q stack_page USER_PERM m1 with
              | Ok (0, m2) =>
                  match page_insert (slot 9 0) q USER_TEMPBOTT TEMP_PERM m2 with Ok (r, _) => r | Stop _ => -1 end
              | _ => -2
              end
          | _ => -3
          end
      | None => -4
      end
  | Stop _ => -5
  end.

Lemma exec_start_argument_page : argument_page = 0.
Proof. vm_compute. reflexivity. Qed.

Lemma execve_correct_witness :
  ∃ c p esp s', execve 500 100 (slot 8 0) 20 fork_task tiny_img (inr tiny_addr) 0x400000 exec_start = Ok (1, s') ∧
    executed 500 100 exec_start [0x1000] 9 0 tiny_addr 0x400000 tiny_img tiny_headers fork_task ls_args exec_fds
      s' c 1 p esp.
Proof.
  assert (E : match execve 500 100 (slot 8 0) 20 fork_task tiny_img (inr tiny_addr) 0x400000 exec_start with
              | Ok (n, _) => n | Stop _ => -1 end = 1) by (vm_compute; reflexivity).
  destruct (execve_correct 500 100 8 20 exec_start [0x1000] 9 0 tiny_addr 0x400000 tiny_img tiny_headers fork_task
    fork_task 0x400000 ls_args exec_fds exec_start_world exec_start_exec) as [_ [[R _]|[R|(c & n & p & esp & s' & R & X)]]].
  - exfalso. rewrite R in E. discriminate E.
  - exfalso. destruct R as (c & n & p & s1 & Rc & D & Hno). pose proof exec_start_argument_page as F.
    unfold argument_page in F. rewrite Rc in F. destruct (cd_mm _ _ _ _ _ _ _ _ _ _ _ _ _ _ _ D) as (mm & Em & Ep & _).
    rewrite Em, lookup_insert_eq, Ep in F. destruct Hno as [[Ra _]|(q & m1 & Ra & Hq)]; rewrite Ra in F; [discriminate F|].
    destruct Hq as [(x & R1 & _)|(m2 & x & R1 & R2 & _)]; rewrite R1 in F; [discriminate F|].
    rewrite R2 in F. discriminate F.
  - rewrite R in E. subst n. exists c, p, esp, s'. split; [exact R|exact X].
Defined.
