(* ===== verification/TaskExit.v ===== *)
(** * Correctness of the end of a task

    [exit] over all its components: the run queue and the parent that waits, the
    address space, the descriptors and the process id. *)

From S2P Require Import Prelude KList Pidmap Layout Buddy BuddyProofs Paging PagingProofs Vma VmaProofs Fault FaultProofs Fork ForkProofs ExitAreas ExitProofs Files FilesProofs Sched SchedProofs Process ProcessProofs.

Local Open Scope Z_scope.

Section exit.
Context {H : Type} `{NewNodes H} (rq list_off kf : Z) (fuel : nat).

Local Abbreviation state := (@sstate H machine).

(** The current task [c], with [t] behind it in the queue, whose parent [p] waits; its
    address space has the directory [g] and the areas [l]. *)
Record exit_world (s : state) (c p t : Z) (kc kp : task_struct) (Q : list Z) (g : Z) (mm : user_mm) (tr : tree)
    (l : list area) : Prop := {
  ew_ready : ready rq list_off s (c :: t :: Q);
  ew_task : tasks s !! c = Some kc ∧ pwait kc ≠ 0;
  ew_parent : has_pid s (Sched.ppid kc) p ∧ asleep s p kp (c :: t :: Q);
  ew_pid : has_pid s (Sched.pid kc) c ∧ pid_inv (pids s) ∧ in_use (pids s) (Sched.pid kc);
  ew_mm : mm_of (rest s) !! c = Some mm ∧ mm_count mm = 1 ∧ (length l + height tr < fuel)%nat;
  ew_space : exit_ready (memory (rest s)) g mm tr l;
  ew_files : counted (descriptors (rest s)) }.

(** Everything the task had is given back. *)
Record exit_done (s s' : state) (c p t : Z) (kc kp : task_struct) (Q : list Z) (g : Z) (l : list area) : Prop := {
  ed_ready : ready rq list_off s' ((t :: Q) ++ [p]);
  ed_tasks : tasks s' = delete c (<[p := with_status TASK_RUNNING kp]> (tasks s));
  ed_table : Sched.task_pidmap s' = <[Sched.pid kc := 0]> (Sched.task_pidmap s);
  ed_pids : pid_inv (pids s') ∧ ¬ in_use (pids s') (Sched.pid kc);
  ed_memory : exited (memory (rest s)) (memory (rest s')) g l;
  ed_others : ∀ g' o', two_trees (memory (rest s)) g 0 g' o' →
    (∀ f, table (memory (rest s)) g' o' f → uses (memory (rest s)) g 0 f (pages_of l) = 0) →
    tree_wf (memory (rest s')) g' o' ∧
    ∀ va, user_va va → mapped (memory (rest s')) g' o' va = mapped (memory (rest s)) g' o' va;
  ed_mm : mm_of (rest s') = delete c (mm_of (rest s));
  ed_files : let d := descriptors (rest s) in let d' := descriptors (rest s') in
    counted d' ∧ fewer (files d) (files d') ∧ tabs d' = <[Files.cur d := replicate 128 0]> (tabs d) }.

Lemma task_exit_ok s c p t kc kp Q g mm tr l :
  exit_world s c p t kc kp Q g mm tr l →
  ∃ s', task_exit rq list_off (slot kf 0) fuel c s = Ok (Resumed, s') ∧ exit_done s s' c p t kc kp Q g l.
Proof.
  intros [Hr [Hk Hw] [Hp Has] (Hpid & Hpi & Hu) (Hmm & Hcnt & Hfu) Hx Hc].
  destruct (proj2 (proj1 Hr) c) as (Hc0 & _); [set_solver|]. pose proof (proj2 Hr) as [= Hcur].
  unfold task_exit. rewrite (bool_decide_eq_true_2 (c ≠ 0)) by done. do 2 run_step.
  rewrite bool_decide_eq_true_2 by done.
  rewrite (bind_Ok _ _ _ _ _ (on_machine_run (modify (set_cr3 (slot kf 0))) s tt _ eq_refl)).
  set (s0 := set_rest _ s).
  destruct (exit_mm_ok fuel mm (memory (rest s)) g tr l Hx Hcnt Hfu) as (mm' & m' & Rm & _ & Hex).
  set (r1 := set_mm c None (set_memory m' (rest s0))).
  assert (E1 : run_on (drop_mm fuel c) (rest s0) = Ok r1).
  { unfold run_on, drop_mm. rewrite (bind_Ok _ _ _ _ _ (get_mm_run c (rest s0) mm Hmm)).
    by rewrite (bind_Ok _ _ _ _ _ (in_memory_run _ (rest s0) _ _ Rm)). }
  destruct (c_cur _ Hc) as [fds Hfds].
  destruct (deref_from_run 128 0 (descriptors (rest s)) fds Hc Hfds) as (d' & Rd & Hc' & _ & Hfew & Htabs); [lia|lia|].
  assert (E2 : run_on (in_descriptors exit_files) r1 = Ok (set_descriptors d' r1)).
  { unfold run_on. by rewrite (in_descriptors_run exit_files r1 tt d' Rd). }
  destruct (exit_wakes_ok rq list_off (λ t, run_on (drop_mm fuel t)) (λ _, run_on (in_descriptors exit_files))
    s0 c kc p kp t Q r1 _ Hr Hk Hw Hp Has Hpid Hpi Hu E1 E2) as (s' & Hrun & F1 & F2 & F3 & F4 & F5 & F6).
  exists s'. split; [exact Hrun|]. split; rewrite ?F6; try done.
  - split; [done|]. unfold in_use. by rewrite F5.
  - intros g' o' Ht Hf. by apply (exited_other _ _ _ _ _ _ Hex Ht Hf).
Qed.
End exit.


(** ** An example: the task 16 ends *)

#[local] Opaque small_mm small_mapped.

Definition end_machine : machine :=
  mk_machine small_mapped {[16 := small_program]} demo_forking {[16 := Files.cur demo_forking]} ∅ (slot 9 0) [] [].
Definition end_start : @sstate lheap machine :=
  SState demo_ring demo_tasks 16 (list_to_map [(0, 36); (1, 16); (2, 26)]) demo_pids 0 end_machine.

Lemma end_start_world :
  exit_world 10 4 9 end_start 16 36 26 (Task 1 0 TASK_RUNNING 2 0 1) (Task 0 0 TASK_INTERRUPTIBLE 1 0 0) [] 9
    small_program small_area_tree small_list.
Proof.
  destruct (pid_run_inv _ _ demo_pids_run) as (Hpi & _ & Hu). split.
  - exact demo_ready.
  - split; [vm_compute; reflexivity|discriminate].
  - split; [split; [split; [simpl; lia|]|]; vm_compute; reflexivity|].
    split_and!; [lia|set_solver|vm_compute; reflexivity|simpl; lia|simpl; lia|reflexivity].
  - split; [split; [split; [simpl; lia|]|]; vm_compute; reflexivity|]. split; [exact Hpi|vm_compute; reflexivity].
  - split; [reflexivity|]. split; [reflexivity|]. apply Nat.ltb_lt. vm_compute. reflexivity.
  - exact small_exit_ready.
  - apply (fork_start_world _ small_kmallocs_ok).
Qed.

