(* ===== verification/HList.v ===== *)
(** * The hash chains of include/fuckOS/list.h ([struct hlist_head], [struct hlist_node])

    A node's [pprev] points at the field that points at the node: the [first]
    of its head or the [next] of its predecessor.  Such a field address is a
    [slot].  [is_hlist h hd xs] says that the chain of the head [hd] holds the
    nodes [xs] in order, every [pprev] right. *)

From S2P Require Import Prelude.

Local Open Scope Z_scope.

Inductive slot := first_of (head : Z) | next_of (node : Z).

#[global] Instance slot_eq_dec : EqDecision slot.
Proof. solve_decision. Defined.

Record hlist_node := mk_hlist_node { hnext : Z; pprev : option slot }.

(** The chain heads ([first]) and the nodes; [0] is [NULL]. *)
Record hheap := mk_hheap { firsts : gmap Z Z; hnodes : gmap Z hlist_node }.

Definition read_slot (s : slot) : M hheap Z := λ h,
  match s with
  | first_of hd => match firsts h !! hd with Some v => Ok (v, h) | None => Stop Faulted end
  | next_of n => match hnodes h !! n with Some c => Ok (hnext c, h) | None => Stop Faulted end
  end.

Definition write_slot (s : slot) (v : Z) : M hheap unit := λ h,
  match s with
  | first_of hd =>
      match firsts h !! hd with
      | Some _ => Ok (tt, mk_hheap (<[hd := v]> (firsts h)) (hnodes h))
      | None => Stop Faulted
      end
  | next_of n =>
      match hnodes h !! n with
      | Some c => Ok (tt, mk_hheap (firsts h) (<[n := mk_hlist_node v (pprev c)]> (hnodes h)))
      | None => Stop Faulted
      end
  end.

Definition write_pprev (n : Z) (s : option slot) : M hheap unit := λ h,
  match hnodes h !! n with
  | Some c => Ok (tt, mk_hheap (firsts h) (<[n := mk_hlist_node (hnext c) s]> (hnodes h)))
  | None => Stop Faulted
  end.

Definition load_node (n : Z) : M hheap hlist_node := λ h,
  match hnodes h !! n with Some c => Ok (c, h) | None => Stop Faulted end.

Definition INIT_HLIST_HEAD (ptr : Z) : M hheap unit := write_slot (first_of ptr) 0.

Definition INIT_HLIST_NODE (n : Z) : M hheap unit :=
  write_slot (next_of n) 0 ;; write_pprev n None.

Definition __hlist_del (n : Z) : M hheap unit :=
  c ← load_node n;
  let next := hnext c in
  pp ← of_option (pprev c);
  write_slot pp next ;;
  if bool_decide (next = 0) then mret tt else write_pprev next (Some pp).

Definition hlist_del (n : Z) : M hheap unit :=
  __hlist_del n ;;
  write_slot (next_of n) 0 ;;
  write_pprev n None.

Definition hlist_unhashed (n : Z) : M hheap bool :=
  c ← load_node n; mret (bool_decide (pprev c = None)).

Definition hlist_empty (hd : Z) : M hheap bool :=
  v ← read_slot (first_of hd); mret (bool_decide (v = 0)).

Definition hlist_add_head (n hd : Z) : M hheap unit :=
  first ← read_slot (first_of hd);
  write_slot (next_of n) first ;;
  (if bool_decide (first = 0) then mret tt else write_pprev first (Some (next_of n))) ;;
  write_slot (first_of hd) n ;;
  write_pprev n (Some (first_of hd)).

(** [hlist_for_each_entry] from the node [pos]: the nodes the loop visits. *)
Fixpoint hwalk (fuel : nat) (pos : Z) : M hheap (list Z) :=
  match fuel with
  | O => stop_with OutOfFuel
  | S fuel =>
      if bool_decide (pos = 0) then mret []
      else c ← load_node pos; l ← hwalk fuel (hnext c); mret (pos :: l)
  end.

Definition hlist_for_each_entry (fuel : nat) (hd : Z) : M hheap (list Z) :=
  p ← read_slot (first_of hd); hwalk fuel p.

(** ** The shape of a chain *)

Definition sread (h : hheap) (s : slot) : option Z :=
  match s with
  | first_of hd => firsts h !! hd
  | next_of n => hnext <$> hnodes h !! n
  end.

Definition hprev (h : hheap) (n : Z) : option (option slot) := pprev <$> hnodes h !! n.

(** [chain h s xs]: starting at the slot [s], the nodes [xs]. *)
Fixpoint chain (h : hheap) (s : slot) (xs : list Z) : Prop :=
  match xs with
  | [] => sread h s = Some 0
  | x :: xs' => sread h s = Some x ∧ x ≠ 0 ∧ hprev h x = Some (Some s) ∧ chain h (next_of x) xs'
  end.

Definition is_hlist (h : hheap) (hd : Z) (xs : list Z) : Prop :=
  NoDup xs ∧ chain h (first_of hd) xs.

Lemma chain_ext h h' s xs :
  sread h' s = sread h s →
  (∀ x, x ∈ xs → sread h' (next_of x) = sread h (next_of x) ∧ hprev h' x = hprev h x) →
  chain h s xs → chain h' s xs.
Proof.
  revert s. induction xs as [|x xs IH]; intros s Hs Hx; simpl; [by rewrite Hs|].
  intros (H1 & H2 & H3 & H4). destruct (Hx x) as [E1 E2]; [by left|].
  rewrite Hs, E2. split_and!; [done..|]. apply IH; [done| |done].
  intros y Hy. apply Hx. by right.
Qed.

Lemma write_slot_ok h s v :
  is_Some (sread h s) → ∃ h', write_slot s v h = Ok (tt, h') ∧
    (∀ t, sread h' t = if decide (s = t) then Some v else sread h t) ∧
    (∀ n, hprev h' n = hprev h n).
Proof.
  destruct s as [hd|n]; simpl; intros [w Hw].
  - rewrite Hw. eexists; split; [done|]. split; [|done].
    intros [hd'|n']; simpl; [|done]. rewrite lookup_insert.
    repeat case_decide; congruence.
  - apply fmap_Some in Hw as (c & Hc & _). rewrite Hc.
    eexists; split; [done|]. unfold hprev; split.
    + intros [hd'|n']; simpl; [done|]. rewrite lookup_insert.
      repeat case_decide; simplify_eq/=; done.
    + intros n'. simpl. rewrite lookup_insert. case_decide; [subst|done].
      by rewrite Hc.
Qed.

Lemma write_pprev_ok h n s :
  is_Some (hprev h n) → ∃ h', write_pprev n s h = Ok (tt, h') ∧
    (∀ t, sread h' t = sread h t) ∧
    (∀ m, hprev h' m = if decide (n = m) then Some s else hprev h m).
Proof.
  intros [w (c & Hc & _)%fmap_Some]. unfold write_pprev. rewrite Hc.
  eexists; split; [done|]. unfold hprev. split.
  - intros [hd'|n']; simpl; [done|]. rewrite lookup_insert.
    case_decide; [subst|done]. by rewrite Hc.
  - intros m. simpl. rewrite lookup_insert. by case_decide.
Qed.

Lemma read_slot_ok h s v : sread h s = Some v → read_slot s h = Ok (v, h).
Proof.
  destruct s; simpl; [by intros ->|]. by intros (c & -> & ->)%fmap_Some.
Qed.

Lemma hprev_sread h n : is_Some (hprev h n) ↔ is_Some (sread h (next_of n)).
Proof. unfold hprev. simpl. by rewrite !fmap_is_Some. Qed.

(** The conditional [pprev] update both operations end with. *)
Lemma write_pprev_if_ok h n s :
  (n ≠ 0 → is_Some (hprev h n)) →
  ∃ h', (if bool_decide (n = 0) then mret tt else write_pprev n s) h = Ok (tt, h') ∧
    (∀ t, sread h' t = sread h t) ∧
    (∀ m, hprev h' m = if decide (n = m ∧ n ≠ 0) then Some s else hprev h m).
Proof.
  intros Hn. case_bool_decide as E.
  - exists h. split_and!; [done..|]. intros m. case_decide; naive_solver.
  - destruct (write_pprev_ok h n s (Hn E)) as (h' & ? & ? & Hm). exists h'.
    split_and!; [done..|]. intros m. rewrite Hm. repeat case_decide; naive_solver.
Qed.

(** ** Insertion at the head *)

Lemma hlist_add_head_spec h hd xs n :
  is_hlist h hd xs → n ∉ xs → n ≠ 0 → is_Some (hprev h n) →
  ∃ h', hlist_add_head n hd h = Ok (tt, h') ∧ is_hlist h' hd (n :: xs) ∧
    (∀ hd' xs', hd' ≠ hd → is_hlist h hd' xs' → n ∉ xs' → (∀ x, x ∈ xs → x ∉ xs') →
       is_hlist h' hd' xs').
Proof.
  intros [ND Hc] Hn Hn0 Ha.
  set (p := match xs with [] => 0 | x :: _ => x end).
  assert (Hp : sread h (first_of hd) = Some p).
  { subst p. destruct xs; [exact Hc|apply Hc]. }
  assert (Hpn : p ≠ 0 → is_Some (hprev h p) ∧ p ∈ xs).
  { subst p. destruct xs; [done|]. simpl in Hc. destruct Hc as (_ & _ & -> & _).
    intros _. split; [done|by left]. }
  destruct (write_slot_ok h (next_of n) p) as (h1 & E1 & S1 & P1); [by apply hprev_sread|].
  destruct (write_pprev_if_ok h1 p (Some (next_of n))) as (h2 & E2 & S2 & P2).
  { intros ?. rewrite P1. by apply Hpn. }
  destruct (write_slot_ok h2 (first_of hd) n) as (h3 & E3 & S3 & P3).
  { rewrite S2, S1. rewrite decide_False by done. eauto. }
  destruct (write_pprev_ok h3 n (Some (first_of hd))) as (h4 & E4 & S4 & P4).
  { rewrite P3, P2. destruct (decide (p = n ∧ p ≠ 0)); [eauto|]. rewrite P1. exact Ha. }
  assert (HS : ∀ t, sread h4 t = if decide (first_of hd = t) then Some n
    else if decide (next_of n = t) then Some p else sread h t).
  { intros t. by rewrite S4, S3, S2, S1. }
  assert (HP : ∀ m, hprev h4 m = if decide (n = m) then Some (Some (first_of hd))
    else if decide (p = m ∧ p ≠ 0) then Some (Some (next_of n)) else hprev h m).
  { intros m. by rewrite P4, P3, P2, P1. }
  exists h4. split; [|split].
  - unfold hlist_add_head. rewrite (bind_Ok _ _ _ _ _ (read_slot_ok _ _ _ Hp)).
    by do 3 run_step.
  - split; [by apply NoDup_cons|]. cbn [chain]. rewrite HS, HP, !decide_True by done.
    split_and!; [done..|].
    assert (Hs : sread h4 (next_of n) = Some p).
    { by rewrite HS, decide_False, decide_True. }
    destruct xs as [|x xs]; [done|]. cbn [chain] in *. subst p.
    destruct Hc as (_ & Hx0 & Hx & Hc). apply not_elem_of_cons in Hn as [Hn Hn'].
    split_and!; [done|done| |].
    + rewrite HP, decide_False, decide_True by done. done.
    + apply NoDup_cons in ND as [NDx ND].
      eapply chain_ext; [| |exact Hc].
      * rewrite HS, !decide_False; [done|congruence|congruence].
      * intros y Hy. rewrite HS, HP. split.
        -- rewrite !decide_False; [done|naive_solver..].
        -- rewrite !decide_False; [done|naive_solver..].
  - intros hd' xs' Hne [ND' Hc'] Hn' Hdisj. split; [done|].
    eapply chain_ext; [| |exact Hc'].
    + rewrite HS, !decide_False; [done|congruence|congruence].
    + intros y Hy. rewrite HS, HP. split.
      * rewrite !decide_False; [done|naive_solver..].
      * rewrite !decide_False; [done| |naive_solver].
        intros [-> Hp0]. apply (Hdisj y); [by apply Hpn|done].
Qed.

Lemma hwalk_spec h s xs fuel :
  chain h s xs → (length xs < fuel)%nat →
  ∃ p, sread h s = Some p ∧ hwalk fuel p h = Ok (xs, h).
Proof.
  revert s fuel. induction xs as [|x xs IH]; intros s fuel Hc Hf;
    (destruct fuel as [|fuel]; [simpl in *; lia|]); simpl in Hc.
  - exists 0. by split.
  - destruct Hc as (Hs & Hx & _ & Hc). exists x. split; [done|].
    destruct (IH _ fuel Hc) as (p & Hp & Hw); [simpl in *; lia|].
    simpl in Hp. apply fmap_Some in Hp as (c & Hc' & ->).
    simpl. rewrite bool_decide_false by done.
    rewrite (bind_Ok (load_node x) _ h c h) by (unfold load_node; by rewrite Hc').
    by rewrite (bind_Ok _ _ _ _ _ Hw).
Qed.

Lemma hlist_for_each_entry_spec h hd xs fuel :
  is_hlist h hd xs → (length xs < fuel)%nat →
  hlist_for_each_entry fuel hd h = Ok (xs, h).
Proof.
  intros [_ Hc] Hf. destruct (hwalk_spec _ _ _ _ Hc Hf) as (p & Hp & Hw).
  unfold hlist_for_each_entry. by rewrite (bind_Ok _ _ _ _ _ (read_slot_ok _ _ _ Hp)).
Qed.

(** ** Deletion *)

Lemma chain_head h s xs q :
  chain h s xs → sread h s = Some q → (q = 0 ∧ xs = []) ∨ (q ≠ 0 ∧ q ∈ xs ∧ is_Some (hprev h q)).
Proof.
  destruct xs as [|x xs]; cbn [chain]; intros Hc Hq.
  - left. by simplify_eq.
  - right. destruct Hc as (Hx & ? & Hp & _). rewrite Hx in Hq. injection Hq as <-.
    rewrite Hp. split_and!; [done|by left|eauto].
Qed.

Lemma chain_suffix h s ys x zs : chain h s (ys ++ x :: zs) → chain h (next_of x) zs.
Proof.
  revert s. induction ys as [|y ys IH]; intros s; cbn [chain app]; [naive_solver|].
  intros (_ & _ & _ & Hc). by eapply IH.
Qed.

(** The slot in front of [x] is the start of the chain or the [next] of a
    node in front of [x]. *)
Lemma chain_pprev h s ys x zs :
  chain h s (ys ++ x :: zs) →
  ∃ sx, hprev h x = Some (Some sx) ∧ is_Some (sread h sx) ∧
        (sx = s ∧ ys = [] ∨ ∃ w, w ∈ ys ∧ sx = next_of w).
Proof.
  revert s. induction ys as [|y ys IH]; intros s; cbn [chain app].
  - intros (Hs & _ & Hx & _). exists s. rewrite Hs. eauto.
  - intros (_ & _ & _ & Hc). destruct (IH _ Hc) as (sx & ? & ? & Hsx).
    exists sx. split_and!; [done..|]. right.
    destruct Hsx as [[-> _]|(w & ? & ->)]; [exists y|exists w]; set_solver.
Qed.

Lemma chain_delete h h' s ys x zs q sx :
  chain h s (ys ++ x :: zs) → NoDup (ys ++ x :: zs) →
  (∀ y, y ∈ ys ++ x :: zs → s ≠ next_of y) →
  sread h (next_of x) = Some q → hprev h x = Some (Some sx) →
  (∀ t, t ≠ next_of x → sread h' t = if decide (sx = t) then Some q else sread h t) →
  (∀ m, m ≠ x → hprev h' m = if decide (q = m ∧ q ≠ 0) then Some (Some sx) else hprev h m) →
  chain h' s (ys ++ zs).
Proof.
  intros Hc ND Hs Hq Hsx HS HP. revert s Hc Hs.
  induction ys as [|y ys IH]; intros s Hc Hs; simpl app in *.
  - destruct Hc as (_ & _ & Hx & Hc). rewrite Hsx in Hx. injection Hx as ->.
    apply NoDup_cons in ND as [Hx1 ND].
    assert (Hsq : sread h' s = Some q) by (rewrite HS by set_solver; by rewrite decide_True).
    destruct zs as [|z zs]; cbn [chain] in *; [congruence|].
    destruct Hc as (Hz & Hz0 & _ & Hc). simplify_eq.
    apply NoDup_cons in ND as [Hz1 ND]. split_and!; [done|done| |].
    + rewrite HP by set_solver. by rewrite decide_True.
    + eapply chain_ext; [| |exact Hc].
      * rewrite HS by set_solver. rewrite decide_False; [done|set_solver].
      * intros w Hw. rewrite HS, HP by set_solver. split.
        -- rewrite decide_False; [done|set_solver].
        -- rewrite decide_False; [done|set_solver].
  - assert (Hsx' : ∃ w, w ∈ y :: ys ∧ sx = next_of w).
    { destruct (chain_pprev h s (y :: ys) x zs Hc) as (sx' & E & _ & [[_ ?]|?]);
        [done|]. by simplify_eq. }
    destruct (chain_head h (next_of x) zs q) as [[-> _]|(Hq0 & Hqin & _)]; [|done| |].
    { by eapply (chain_suffix h s (y :: ys)). }
    all: destruct Hc as (H1 & H2 & H3 & Hc); apply NoDup_cons in ND as [Hy ND];
      cbn [chain]; split_and!; [|done| |].
    all: try (apply IH; [done|done|set_solver]).
    all: destruct Hsx' as (w & Hw & ->).
    + rewrite HS by set_solver. rewrite decide_False; [done|set_solver].
    + rewrite HP by set_solver. rewrite decide_False; [done|naive_solver].
    + rewrite HS by set_solver. rewrite decide_False; [done|set_solver].
    + rewrite HP by set_solver. rewrite decide_False; [done|].
      intros [-> _]. apply Hy. set_solver.
Qed.

Lemma hlist_del_spec h hd ys x zs :
  is_hlist h hd (ys ++ x :: zs) →
  ∃ h', hlist_del x h = Ok (tt, h') ∧ is_hlist h' hd (ys ++ zs) ∧
        hprev h' x = Some None ∧ sread h' (next_of x) = Some 0.
Proof.
  intros [ND Hc].
  destruct (chain_pprev _ _ _ _ _ Hc) as (sx & Hp & Hsa & Hsx).
  pose proof (chain_suffix _ _ _ _ _ Hc) as Hc2.
  assert (∃ q, sread h (next_of x) = Some q) as [q Hq].
  { destruct zs; cbn [chain] in Hc2; naive_solver. }
  pose proof Hq as Hq'. simpl in Hq'. apply fmap_Some in Hq' as (c & Hcx & Hcq).
  assert (Hpc : pprev c = Some sx).
  { unfold hprev in Hp. rewrite Hcx in Hp. simpl in Hp. congruence. }
  destruct (write_slot_ok h sx q Hsa) as (h1 & E1 & S1 & P1).
  destruct (write_pprev_if_ok h1 q (Some sx)) as (h2 & E2 & S2 & P2).
  { intros Hq0. rewrite P1.
    destruct (chain_head _ _ _ _ Hc2 Hq) as [[-> _]|(_ & _ & ?)]; done. }
  assert (Hne : sx ≠ next_of x).
  { intros ->. destruct Hsx as [[? _]|(w & Hw & ?)]; [done|]. simplify_eq.
    apply NoDup_app in ND as (_ & ND & _). apply (ND w Hw). by left. }
  destruct (write_slot_ok h2 (next_of x) 0) as (h3 & E3 & S3 & P3).
  { rewrite S2, S1, decide_False by done. eauto. }
  assert (Hqx : q ≠ x).
  { intros ->. destruct (chain_head _ _ _ _ Hc2 Hq) as [[-> _]|(_ & Hin & _)].
    - revert Hc. clear. generalize (first_of hd). induction ys as [|y ys IH];
        intros s; cbn [chain app]; naive_solver.
    - apply NoDup_app in ND as (_ & _ & ND). by apply NoDup_cons in ND as [? _]. }
  destruct (write_pprev_ok h3 x None) as (h4 & E4 & S4 & P4).
  { rewrite P3, P2, decide_False by naive_solver. rewrite P1, Hp. eauto. }
  exists h4. split_and!.
  - unfold hlist_del, __hlist_del. rewrite bind_assoc.
    rewrite (bind_Ok (load_node x) _ h c h) by (unfold load_node; by rewrite Hcx).
    rewrite <- Hcq, Hpc. rewrite bind_assoc.
    rewrite (bind_Ok _ _ h sx h) by done. rewrite bind_assoc.
    by do 3 run_step.
  - split; [rewrite <- Permutation_middle in ND; by apply NoDup_cons in ND as []|].
    eapply (chain_delete h h4); [done|done|done|exact Hq|exact Hp| |].
    + intros t Ht. rewrite S4, S3, decide_False by done. by rewrite S2, S1.
    + intros m Hm. rewrite P4, decide_False by done. by rewrite P3, P2, P1.
  - by rewrite P4, decide_True.
  - by rewrite S4, S3, decide_True.
Qed.

(** ** The properties *)

(** Bucket 1 with the nodes 20 and 30; node 40 is unhashed. *)
Definition demo_bucket : hheap :=
  mk_hheap (list_to_map [(1, 20)])
    (list_to_map [(20, mk_hlist_node 30 (Some (first_of 1)));
                  (30, mk_hlist_node 0 (Some (next_of 20))); (40, mk_hlist_node 0 None)]).

Lemma demo_bucket_ok : is_hlist demo_bucket 1 [20; 30].
Proof. split; [by apply (bool_decide_unpack _); vm_compute|by vm_compute]. Qed.

(** Hash chains behave as sequences: [hlist_add_head] of an unlinked node puts
    it in front and leaves every chain that shares no node alone; [hlist_del] of any
    member, through its back pointer, takes out that member and leaves it unhashed;
    and the traversal visits exactly the members in order. *)
Theorem hlist_ops_correct (h : hheap) (hd x : Z) (ys zs : list Z) (n : Z) (fuel : nat) :
  is_hlist h hd (ys ++ x :: zs) → n ∉ ys ++ x :: zs → n ≠ 0 → is_Some (hprev h n) →
  (length (ys ++ x :: zs) < fuel)%nat →
  hlist_for_each_entry fuel hd h = Ok (ys ++ x :: zs, h) ∧
  (∃ h', hlist_add_head n hd h = Ok (tt, h') ∧ is_hlist h' hd (n :: ys ++ x :: zs) ∧
     ∀ hd' xs', hd' ≠ hd → is_hlist h hd' xs' → n ∉ xs' →
       (∀ z, z ∈ ys ++ x :: zs → z ∉ xs') → is_hlist h' hd' xs') ∧
  (∃ h', hlist_del x h = Ok (tt, h') ∧ is_hlist h' hd (ys ++ zs) ∧
     hlist_unhashed x h' = Ok (true, h')).
Proof.
  intros Hl Hn Hn0 Ha Hf. split_and!.
  - by apply hlist_for_each_entry_spec.
  - destruct (hlist_add_head_spec h hd (ys ++ x :: zs) n Hl Hn Hn0 Ha) as (h' & ? & ? & ?). eauto.
  - destruct (hlist_del_spec h hd ys x zs Hl) as (h' & Hrun & Hl' & Hp & _).
    exists h'. split_and!; [done..|]. unfold hlist_unhashed, load_node, hprev in *.
    destruct (hnodes h' !! x) as [c|] eqn:E; [|done]. injection Hp as Hp.
    erewrite bind_Ok by (rewrite E; done). by rewrite Hp.
Qed.

Lemma hlist_ops_correct_witness :
  ∃ h', hlist_del 30 demo_bucket = Ok (tt, h') ∧ is_hlist h' 1 [20].
Proof.
  destruct (hlist_ops_correct demo_bucket 1 30 [20] [] 40 5 demo_bucket_ok)
    as (_ & _ & h' & Hrun & Hl & _).
  - by apply (bool_decide_unpack _); vm_compute.
  - lia.
  - by eexists.
  - simpl. lia.
  - exists h'. split; [exact Hrun|exact Hl].
Defined.
