(* ===== verification/SlabProofs.v ===== *)
(** * The slab allocator: tables, layout and construction of slabs

    The size table picks the smallest cache that fits; the objects of a slab and
    the links behind them lie side by side inside it; the slab of an object is
    found from its address; and a new slab chains all its objects. *)

From S2P Require Import Prelude Layout Buddy BuddyProofs Paging PagingProofs Slab.

Local Open Scope Z_scope.

(** ** The size table *)

Lemma size_map_fill_lookup n j m k :
  size_map_fill n j m !! k =
    if decide (k < n ∧ k < length m)%nat then Some j else m !! k.
Proof.
  revert m. induction n as [|n IH]; intros m; cbn [size_map_fill].
  - by rewrite decide_False by lia.
  - rewrite IH, length_insert. destruct (decide (k = n)) as [->|Hne].
    + rewrite (decide_False (P := (n < n ∧ _)%nat)) by lia.
      destruct (decide (n < length m)%nat) as [Hl|Hl].
      * rewrite decide_True by lia. by apply list_lookup_insert_eq.
      * rewrite decide_False by lia. rewrite list_insert_ge by lia. done.
    + rewrite list_lookup_insert_ne by done.
      destruct (decide (k < n ∧ k < length m)%nat); [by rewrite decide_True by lia|].
      by rewrite decide_False by lia.
Qed.

Lemma size_map_fill_length n j m : length (size_map_fill n j m) = length m.
Proof.
  revert m. induction n as [|n IH]; intros m; [done|]. cbn [size_map_fill].
  by rewrite IH, length_insert.
Qed.

(** The last round that covers [k] decides. *)
Fixpoint last_cover (js : list Z) (k : Z) (d : option Z) : option Z :=
  match js with
  | [] => d
  | j :: js =>
      last_cover js k (if decide (k ≤ default 0 (cache_size !! Z.to_nat j)) then Some j else d)
  end.

Lemma size_map_rounds_lookup js m k :
  0 ≤ k < Z.of_nat (length m) →
  (∀ j, j ∈ js → 0 ≤ default 0 (cache_size !! Z.to_nat j)) →
  size_map_rounds js m !! Z.to_nat k = last_cover js k (m !! Z.to_nat k).
Proof.
  revert m. induction js as [|j js IH]; intros m Hk Hj; [done|].
  cbn [size_map_rounds last_cover]. cbv zeta.
  specialize (Hj j ltac:(left)) as Hj0.
  rewrite IH by (rewrite ?size_map_fill_length; auto with set_solver || (intros; apply Hj; by right)).
  f_equal. rewrite size_map_fill_lookup.
  destruct (decide (k ≤ default 0 (cache_size !! Z.to_nat j))).
  - by rewrite decide_True by lia.
  - by rewrite decide_False by lia.
Qed.

Definition size_index (k : Z) : Z :=
  default 0 (last_cover [11; 10; 9; 8; 7; 6; 5; 4; 3; 2; 1; 0] k (Some 0)).

Lemma size_map_lookup k :
  1 ≤ k ≤ 4096 →
  size_map_init !! Z.to_nat k = last_cover [11; 10; 9; 8; 7; 6; 5; 4; 3; 2; 1; 0] k (Some 0).
Proof.
  intros Hk. unfold size_map_init. rewrite list_lookup_insert_ne by lia.
  rewrite size_map_rounds_lookup.
  - rewrite lookup_replicate_2 by lia. done.
  - rewrite length_replicate. lia.
  - intros j Hj. repeat (apply elem_of_cons in Hj as [->|Hj]; [by vm_compute|]).
    by apply elem_of_nil in Hj.
Qed.

(** The cache [j] is the first whose objects hold [k] bytes. *)
Definition smallest_fit (k j : Z) : Prop :=
  0 ≤ j ∧ ∃ cs, cache_size !! Z.to_nat j = Some cs ∧ k ≤ cs ∧
    ∀ i cs', (i < Z.to_nat j)%nat → cache_size !! i = Some cs' → cs' < k.

(** For every request of 1 to 4096 bytes [size_map] names the cache with the
    smallest object size that is large enough. *)
Theorem size_map_smallest_fit (k : Z) :
  1 ≤ k ≤ PAGE_SIZE → ∃ j, size_map_init !! Z.to_nat k = Some j ∧ smallest_fit k j.
Proof.
  unfold PAGE_SIZE, smallest_fit. intros Hk. rewrite size_map_lookup by done.
  cbn [last_cover cache_size default].
  assert (Hsmall : ∀ n (l : list Z), Forall (λ c, c < k) (take n l) →
    ∀ i c, (i < n)%nat → l !! i = Some c → c < k).
  { intros n l HF i c Hi Hc. rewrite Forall_lookup in HF. apply (HF i). by rewrite lookup_take_lt. }
  repeat match goal with
  | |- context [decide (k ≤ ?d)] => destruct (decide (k ≤ d)); simpl in *; try lia
  end.
  all: eexists; split; [reflexivity|]; split; [lia|];
    eexists; split; [reflexivity|]; split; [lia|].
  all: eapply Hsmall; simpl; repeat constructor; lia.
Qed.

Lemma size_map_smallest_fit_witness :
  ∃ j, size_map_init !! Z.to_nat 100 = Some j ∧ smallest_fit 100 j.
Proof. apply (size_map_smallest_fit 100). unfold PAGE_SIZE. lia. Defined.

(** ** The layout of a slab *)

Definition SLAB_BYTES : Z := 4194304.

Definition slab_base (p : Z) : Z := p * PAGE_SIZE + KERNEL_BASE_ADDR.

(** Object number [i] of the slab [p] of the cache [k]. *)
Definition obj_addr (k : mem_cache) (p i : Z) : Z := slab_base p + i * c_size k.

Definition kmalloc_cache (k : mem_cache) : Prop := k ∈ kmem_cache_init.

Lemma cache_fields k :
  kmalloc_cache k →
  objsize k ≤ 4 * offset k ∧ 4 * offset k + 4 = c_size k ∧ 0 < objsize k ∧
  c_order k = SLABORDER ∧ 1023 ≤ objects k ∧ objects k * c_size k ≤ SLAB_BYTES ∧ c_size k ≤ 4100.
Proof.
  unfold kmalloc_cache, kmem_cache_init. intros H. apply list_elem_of_fmap in H as (cs & -> & H).
  unfold cache_size in H.
  repeat (apply elem_of_cons in H as [->|H]; [vm_compute; repeat split; discriminate|]).
  by apply elem_of_nil in H.
Qed.

(** A slab: an aligned block of the normal zone. *)
Definition slab_frame (mx p : Z) : Prop :=
  0 ≤ p ∧ (2 ^ SLABORDER | p) ∧ p + 2 ^ SLABORDER ≤ 0x30000 ∧ p + 2 ^ SLABORDER ≤ mx.

(** The slab of any address inside the frames of the slab. *)
Lemma get_slab_ok mx p r : slab_frame mx p → 0 ≤ r < SLAB_BYTES → get_slab mx (slab_base p + r) = Ok p.
Proof.
  intros (Hp & [q ->] & Hn & Hmx) Hr. change (2 ^ SLABORDER) with 1024 in *.
  unfold slab_base, PAGE_SIZE, KERNEL_BASE_ADDR, SLAB_BYTES in *.
  unfold get_slab, PAGE_SIZE, SLABORDER. change (4096 * Z.shiftl 1 10) with 4194304.
  assert (E : ROUNDDOWN (q * 1024 * 4096 + 3221225472 + r) 4194304 = q * 1024 * 4096 + 3221225472).
  { unfold ROUNDDOWN.
    replace (q * 1024 * 4096 + 3221225472 + r) with (r + (q + 768) * 4194304) by lia.
    rewrite Z.mod_add, Z.mod_small by lia. lia. }
  rewrite E. pose proof (virt2page_ok mx (q * 1024) 0) as Hv.
  unfold PAGE_SIZE, KERNEL_BASE_ADDR, NORMAL_ADDR, KERNEL_NORMAL in Hv.
  rewrite Z.add_0_r in Hv. apply Hv; unfold KERNEL_BASE_ADDR; lia.
Qed.

(** In every cache the payload of an object and the link word behind it do not
    overlap, distinct objects of a slab are disjoint, and every object lies inside
    the slab's frames; and for every address inside an object, [get_slab] computes
    the first frame of its slab. *)
Theorem slab_layout_correct (k : mem_cache) (mx p i r : Z) :
  kmalloc_cache k → slab_frame mx p → 0 ≤ i < objects k → 0 ≤ r < c_size k →
  objsize k ≤ 4 * offset k ∧ 4 * offset k + 4 ≤ c_size k ∧
  slab_base p ≤ obj_addr k p i ∧ obj_addr k p i + c_size k ≤ slab_base p + SLAB_BYTES ∧
  (∀ j, 0 ≤ j < objects k → i < j → obj_addr k p i + c_size k ≤ obj_addr k p j) ∧
  get_slab mx (obj_addr k p i + r) = Ok p.
Proof.
  intros Hk Hp Hi Hr.
  destruct (cache_fields k Hk) as (H1 & H2 & H3 & _ & H4 & H5 & H6).
  assert (Hin : i * c_size k + c_size k ≤ objects k * c_size k) by nia.
  assert (0 ≤ i * c_size k) by nia. unfold obj_addr.
  split_and!; [done|lia|lia|lia|intros; nia|].
  rewrite <- Z.add_assoc. apply get_slab_ok; [done|lia].
Qed.

Lemma slab_layout_correct_witness :
  get_slab 4096 (obj_addr (kmem_cache_init_one 96) 1024 7 + 50) = Ok 1024.
Proof.
  apply (slab_layout_correct (kmem_cache_init_one 96) 4096 1024 7 50).
  - unfold kmalloc_cache, kmem_cache_init. apply list_elem_of_fmap. exists 96.
    split; [reflexivity|]. apply (bool_decide_unpack _). by vm_compute.
  - split_and!; [lia|exists 1; reflexivity|vm_compute; discriminate|vm_compute; discriminate].
  - vm_compute. split; [discriminate|reflexivity].
  - vm_compute. split; [discriminate|reflexivity].
Defined.

(** ** The chain of free objects *)

Fixpoint fchain (lk : gmap Z Z) (off a : Z) (l : list Z) : Prop :=
  match l with
  | [] => a = 0
  | x :: l => a = x ∧ x ≠ 0 ∧ ∃ nx, lk !! link_addr x off = Some nx ∧ fchain lk off nx l
  end.

Definition objs (start sz : Z) (n : nat) : list Z := (λ i, start + i * sz) <$> seqZ 0 (Z.of_nat n).

Lemma objs_S start sz n : objs start sz (S n) = start :: objs (start + sz) sz n.
Proof.
  unfold objs. rewrite Nat2Z.inj_succ, seqZ_cons by lia. rewrite fmap_cons. f_equal; [lia|].
  replace (Z.pred (Z.succ (Z.of_nat n))) with (Z.of_nat n) by lia. change (Z.succ 0) with (0 + 1).
  rewrite <- (Z.add_comm 1 0), <- fmap_add_seqZ, <- list_fmap_compose.
  apply list_fmap_ext. intros _ x _. simpl. lia.
Qed.

Lemma fchain_ext lk lk' off a l :
  (∀ x, x ∈ l → lk' !! link_addr x off = lk !! link_addr x off) →
  fchain lk off a l → fchain lk' off a l.
Proof.
  revert a. induction l as [|x l IH]; intros a Hx; [done|]. simpl.
  intros (-> & H0 & nx & Hl & Hc). split_and!; [done|done|]. exists nx.
  split; [rewrite Hx; [done|by left]|]. apply IH; [|done]. intros y Hy. apply Hx. by right.
Qed.

Lemma elem_of_objs start sz n x :
  x ∈ objs start sz n ↔ ∃ i, 0 ≤ i < Z.of_nat n ∧ x = start + i * sz.
Proof.
  unfold objs. rewrite list_elem_of_fmap. setoid_rewrite elem_of_seqZ. naive_solver lia.
Qed.

Definition upd_links (f : gmap Z Z → gmap Z Z) (s : sstate) : sstate :=
  mk_sstate (mm s) (f (links s)) (kmalloc_caches s) (size_map s).

Lemma new_slab_chain_ok n : ∀ start sz off s,
  0 < start → 0 ≤ off → 4 * off + 4 ≤ sz → start + Z.of_nat (S n) * sz ≤ 2 ^ 32 →
  ∃ lk, new_slab_chain (S n) start sz off s = Ok (tt, upd_links (λ _, lk) s) ∧
    fchain lk off start (objs start sz (S n)) ∧
    (∀ a, ¬ (start ≤ a < start + Z.of_nat (S n) * sz) → lk !! a = links s !! a).
Proof.
  induction n as [|n IH]; intros start sz off s Hs Ho Hsz Hb.
  - exists (<[link_addr start off := 0]> (links s)). split_and!.
    + cbn [new_slab_chain]. unfold store_link. run_step. unfold modify, upd_links. cbn [mm links
        kmalloc_caches size_map]. do 3 f_equal. by rewrite insert_insert_eq.
    + rewrite objs_S. simpl. split_and!; [done|lia|]. exists 0. split; [apply lookup_insert_eq|done].
    + intros a Ha. rewrite lookup_insert_ne; [done|]. unfold link_addr. rewrite u32_small by lia. lia.
  - change (new_slab_chain (S (S n)) start sz off s) with
      ((store_link start off (u32 (start + sz)) ;;
        new_slab_chain (S n) (u32 (start + sz)) sz off) s).
    assert (E : Z.of_nat (S (S n)) * sz = sz + Z.of_nat (S n) * sz)
      by (rewrite (Nat2Z.inj_succ (S n)); ring).
    assert (0 < Z.of_nat (S n) * sz) by (apply Z.mul_pos_pos; lia). rewrite E in *.
    rewrite (u32_small (start + sz)) by lia. unfold store_link. run_step.
    set (s1 := mk_sstate _ _ _ _).
    destruct (IH (start + sz) sz off s1) as (lk & Hrun & Hc & Hf); [lia|lia|lia|lia|].
    exists lk. split_and!; [exact Hrun| |].
    + rewrite objs_S. cbn [fchain]. split_and!; [done|lia|]. exists (start + sz). split; [|done].
      rewrite Hf; [apply lookup_insert_eq|]. unfold link_addr. rewrite u32_small by lia. lia.
    + intros a Ha. rewrite Hf by lia. unfold s1. cbn [links].
      rewrite lookup_insert_ne; [done|]. unfold link_addr. rewrite u32_small by lia. lia.
Qed.

(** The descriptor of a new slab. *)
Definition new_slab_page (c p : Z) (pg : page) : page :=
  set_slab c (set_inuse 0 (set_freelist (slab_base p) (set_flags (Z.lor (flags pg) _pg_slab) pg))).

(** [new_slab_init] on an aligned block of frames returns with the slab marked, owned
    by its cache and unused, and with a free list that runs through exactly its
    objects, in address order; no link outside the slab changes. *)
Lemma new_slab_init_ok (s : sstate) (c p : Z) (k : mem_cache) (pg : page) :
  kmalloc_caches s !! Z.to_nat c = Some k →
  objsize k ≤ 4 * offset k → 4 * offset k + 4 = c_size k → 0 < objsize k → 0 < objects k →
  objects k * c_size k ≤ SLAB_BYTES →
  slab_frame (m_max_pfn (mm s)) p → m_max_pfn (mm s) ≤ 2 ^ 31 → mempage (mm s) !! p = Some pg →
  ∃ lk, new_slab_init c p s = Ok (tt, mk_sstate (with_page p (new_slab_page c p pg) (mm s)) lk
      (kmalloc_caches s) (size_map s)) ∧
    fchain lk (offset k) (slab_base p) (objs (slab_base p) (c_size k) (Z.to_nat (objects k))) ∧
    (∀ a, ¬ (slab_base p ≤ a < slab_base p + SLAB_BYTES) → lk !! a = links s !! a).
Proof.
  intros Hc H1 H2 H3 H4 H5 (Hp & Hd & Hn & Hmx) H31 Hpg.
  change (2 ^ SLABORDER) with 1024 in *.
  unfold new_slab_init. erewrite bind_Ok by (unfold get_cache; run_step; by rewrite Hc).
  run_step. rewrite (bind_Ok _ _ _ _ _ (lift_Ok _ _ _ (page2virt_ok (m_max_pfn (mm s)) p ltac:(lia)
    ltac:(unfold PAGE_SIZE, NORMAL_ADDR, KERNEL_NORMAL, KERNEL_BASE_ADDR; lia) H31))).
  fold (slab_base p). erewrite bind_Ok.
  2: { unfold edit_page, in_mm, upd_page. run_step.
       rewrite (bind_Ok _ _ _ _ _ (of_option_Some _ _ _ Hpg)). reflexivity. }
  rewrite bool_decide_false by lia. set (s1 := mk_sstate _ _ _ _).
  assert (Hb : 0 < slab_base p ∧ slab_base p + objects k * c_size k ≤ 2 ^ 32).
  { unfold slab_base, PAGE_SIZE, KERNEL_BASE_ADDR, SLAB_BYTES in *. lia. }
  destruct (new_slab_chain_ok (pred (Z.to_nat (objects k))) (slab_base p) (c_size k) (offset k) s1)
    as (lk & Hrun & Hchain & Hf); [lia|lia|lia|rewrite Nat.succ_pred; lia|].
  rewrite Nat.succ_pred in Hrun, Hchain, Hf by lia.
  exists lk. split_and!; [exact Hrun|done|].
  intros a Ha. rewrite Hf; [done|]. rewrite Z2Nat.id by lia. lia.
Qed.
