(* ===== verification/SlabInv.v ===== *)
(** * The slab allocator: the invariant

    The state of the allocator is described by a map from the first frame of every
    slab to its cache and its two free lists: the one of the page descriptor and, when
    a processor has frozen the slab, the one of that processor.  Every other object of
    the slab is live.  [slab_inv] relates this map to the links in the objects, the
    page descriptors, the lists of partial slabs and the buddy allocator; [kmalloc]
    and [kfree] preserve it. *)

From S2P Require Import Prelude Layout Buddy BuddyProofs Paging PagingProofs Slab SlabProofs.

Local Open Scope Z_scope.

(** ** The caches *)

Definition NCACHES : Z := 12.
Definition csz (c : Z) : Z := default 8 (cache_size !! Z.to_nat c).
Definition proto (c : Z) : mem_cache := kmem_cache_init_one (csz c).
Arguments proto : simpl never.

Lemma proto_cache c : 0 ≤ c < NCACHES → kmalloc_cache (proto c).
Proof.
  intros Hc. unfold kmalloc_cache, kmem_cache_init. apply list_elem_of_fmap. exists (csz c).
  split; [done|]. unfold csz.
  destruct (lookup_lt_is_Some_2 cache_size (Z.to_nat c)) as [x Hx]; [unfold NCACHES in Hc; simpl; lia|].
  rewrite Hx. by eapply list_elem_of_lookup_2.
Qed.

Abbreviation coff c := (offset (proto c)).
Abbreviation csize c := (c_size (proto c)).
Abbreviation cobjs c := (objects (proto c)).

(** The fields of a cache that never change. *)
Record static (c : Z) (k : mem_cache) : Prop := {
  st_size : c_size k = csize c;
  st_objsize : objsize k = csz c;
  st_off : offset k = coff c;
  st_order : c_order k = SLABORDER;
  st_objs : objects k = cobjs c;
  st_cpus : length (cpu_slab k) = Z.to_nat CPUNUMS;
}.

(** ** The state and its elementary updates *)

Definition kc (s : sstate) (c : Z) : option mem_cache := kmalloc_caches s !! Z.to_nat c.
Definition cpuv (s : sstate) (c j : Z) : option mem_cache_cpu :=
  k ← kc s c; cpu_slab k !! Z.to_nat j.

Definition with_cache (c : Z) (k : mem_cache) (s : sstate) : sstate :=
  mk_sstate (mm s) (links s) (<[Z.to_nat c := k]> (kmalloc_caches s)) (size_map s).
Definition with_mm (m : mstate) (s : sstate) : sstate :=
  mk_sstate m (links s) (kmalloc_caches s) (size_map s).
Definition edit (p : Z) (pg : page) (s : sstate) : sstate := with_mm (with_page p pg (mm s)) s.
Definition set_link (a v : Z) (s : sstate) : sstate := upd_links (<[a := v]>) s.

Definition cache_cpu (j : Z) (v : mem_cache_cpu) (k : mem_cache) : mem_cache :=
  mk_cache (c_size k) (objsize k) (offset k) (c_order k) (objects k) (partial k) (npartial k)
    (nslub k) (<[Z.to_nat j := v]> (cpu_slab k)).
Definition cache_node (pl : list Z) (np ns : Z) (k : mem_cache) : mem_cache :=
  mk_cache (c_size k) (objsize k) (offset k) (c_order k) (objects k) pl np ns (cpu_slab k).

Lemma static_cpu c j v k : static c k → static c (cache_cpu j v k).
Proof. intros []. split; try done. simpl. by rewrite length_insert. Qed.
Lemma static_node c pl np ns k : static c k → static c (cache_node pl np ns k).
Proof. intros []. by split. Qed.
#[export] Hint Resolve static_cpu static_node : slab.

Section runs.
Context (s : sstate) (c : Z) (k : mem_cache).
Hypothesis (Hk : kc s c = Some k).

Lemma get_cache_ok : get_cache c s = Ok (k, s).
Proof. unfold get_cache. run_step. unfold kc in Hk. by rewrite Hk. Qed.

Lemma get_cpu_ok j v : cpu_slab k !! Z.to_nat j = Some v → get_cpu c j s = Ok (v, s).
Proof. intros Hv. unfold get_cpu. rewrite (bind_Ok _ _ _ _ _ get_cache_ok). by rewrite Hv. Qed.

Lemma set_cpu_ok j v : set_cpu c j v s = Ok (tt, with_cache c (cache_cpu j v k) s).
Proof. unfold set_cpu. by rewrite (bind_Ok _ _ _ _ _ get_cache_ok). Qed.

Lemma set_node_ok pl np ns : set_node c pl np ns s = Ok (tt, with_cache c (cache_node pl np ns k) s).
Proof. unfold set_node. by rewrite (bind_Ok _ _ _ _ _ get_cache_ok). Qed.

Lemma kc_with_eq k' : kc (with_cache c k' s) c = Some k'.
Proof. unfold kc, with_cache. simpl. apply list_lookup_insert_eq. by eapply lookup_lt_Some. Qed.

Lemma with_cache_twice k1 k2 : with_cache c k2 (with_cache c k1 s) = with_cache c k2 s.
Proof. unfold with_cache. simpl. by rewrite list_insert_insert_eq. Qed.
End runs.

Lemma kc_with_ne s c c' k' : 0 ≤ c → 0 ≤ c' → c' ≠ c → kc (with_cache c k' s) c' = kc s c'.
Proof. intros. unfold kc, with_cache. simpl. apply list_lookup_insert_ne. lia. Qed.

Lemma load_page_ok s p pg : mempage (mm s) !! p = Some pg → load_page p s = Ok (pg, s).
Proof. intros H. unfold load_page. run_step. by rewrite H. Qed.

Lemma edit_page_ok s p pg f : mempage (mm s) !! p = Some pg → edit_page p f s = Ok (tt, edit p (f pg) s).
Proof.
  intros H. unfold edit_page, in_mm, upd_page. erewrite bind_Ok by done.
  by rewrite (bind_Ok _ _ _ _ _ (of_option_Some _ _ _ H)).
Qed.

Lemma load_link_ok s a off v : links s !! link_addr a off = Some v → load_link a off s = Ok (v, s).
Proof. intros H. unfold load_link. run_step. by rewrite H. Qed.

(** ** Slabs and their objects *)

Definition slab_objs (c p : Z) : list Z := objs (slab_base p) (csize c) (Z.to_nat (cobjs c)).
Arguments slab_objs : simpl never.

(** What is known of a slab: its cache, the free list of its page, the processor that
    holds it, and the free list of that processor. *)
Record sinfo := mk_sinfo { si_c : Z; si_pf : list Z; si_cf : list Z; si_cpu : option Z }.

Definition sfree (i : sinfo) : list Z := si_pf i ++ si_cf i.

Definition live_in (p : Z) (i : sinfo) (a : Z) : Prop := a ∈ slab_objs (si_c i) p ∧ a ∉ sfree i.

(** The page descriptor of a slab. *)
Record slab_page (s : sstate) (i : sinfo) (pg : page) : Prop := {
  sp_flag : has_flag (flags pg) _pg_slab = true;
  sp_cache : slab pg = si_c i;
  sp_frozen : PageSlubFrozen pg = bool_decide (is_Some (si_cpu i));
  sp_chain : fchain (links s) (coff (si_c i)) (freelist pg) (si_pf i);
  sp_inuse : inuse pg = cobjs (si_c i) - Z.of_nat (length (si_pf i));
}.

Record slab_ok (s : sstate) (p : Z) (i : sinfo) : Prop := {
  so_cache : 0 ≤ si_c i < NCACHES;
  so_hole : hole (nz (mm s)) p SLABORDER;
  so_page : ∃ pg, mempage (mm s) !! p = Some pg ∧ slab_page s i pg;
  so_nodup : NoDup (sfree i);
  so_objs : ∀ a, a ∈ sfree i → a ∈ slab_objs (si_c i) p;
  so_cpu : match si_cpu i with
           | None => si_cf i = [] ∧ Z.of_nat (length (si_pf i)) < cobjs (si_c i)
           | Some j => 0 ≤ j < CPUNUMS ∧ ∃ v, cpuv s (si_c i) j = Some v ∧ cpu_page v = Some p
           end;
}.

(** A slab on the list of partial slabs of its cache. *)
Definition on_partial (c : Z) (i : sinfo) : Prop := si_c i = c ∧ si_cpu i = None ∧ si_pf i ≠ [].

Definition cpu_ok (s : sstate) (G : gmap Z sinfo) (c j : Z) (v : mem_cache_cpu) : Prop :=
  match cpu_page v with
  | None => cpu_freelist v = 0
  | Some p => ∃ i, G !! p = Some i ∧ si_c i = c ∧ si_cpu i = Some j ∧
      fchain (links s) (coff c) (cpu_freelist v) (si_cf i)
  end.

Record node_ok (G : gmap Z sinfo) (c : Z) (k : mem_cache) : Prop := {
  no_nodup : NoDup (partial k);
  no_count : npartial k = Z.of_nat (length (partial k));
  no_elem : ∀ p, p ∈ partial k ↔ ∃ i, G !! p = Some i ∧ on_partial c i;
}.

(** The blocks [hd] of frames belong to other users of the buddy allocator. *)
Section held.
Context {hd : list (Z * Z)}.

Definition apart (G : gmap Z sinfo) (q n : Z) : Prop :=
  ∀ p i x, G !! p = Some i → in_blk p SLABORDER x → ¬ in_blk q n x.

Record slab_inv (s : sstate) (G : gmap Z sinfo) : Prop := {
  sv_mm : mm_inv (mm s);
  sv_map : size_map s = size_map_init;
  sv_caches : ∀ c, 0 ≤ c < NCACHES → ∃ k, kc s c = Some k ∧ static c k ∧ node_ok G c k;
  sv_cpus : ∀ c j v, 0 ≤ c < NCACHES → 0 ≤ j < CPUNUMS → cpuv s c j = Some v → cpu_ok s G c j v;
  sv_slabs : ∀ p i, G !! p = Some i → slab_ok s p i;
  sv_held : ∀ q n, (q, n) ∈ hd → 0 ≤ n < MAXORDER ∧ hole (nz (mm s)) q n ∧ apart G q n;
}.

(** ** Addresses *)

Lemma cache_facts c :
  0 ≤ c < NCACHES →
  csz c ≤ 4 * coff c ∧ 4 * coff c + 4 = csize c ∧ 0 < csz c ∧ 1023 ≤ cobjs c ∧
  cobjs c * csize c ≤ SLAB_BYTES ∧ csize c ≤ 4100.
Proof.
  intros Hc. destruct (cache_fields (proto c) (proto_cache c Hc)) as (? & ? & ? & _ & ? & ? & ?).
  split_and!; done.
Qed.

Lemma elem_of_slab_objs c p a :
  0 ≤ c < NCACHES → a ∈ slab_objs c p ↔ ∃ n, 0 ≤ n < cobjs c ∧ a = slab_base p + n * csize c.
Proof.
  intros Hc. pose proof (cache_facts c Hc). unfold slab_objs. rewrite elem_of_objs.
  rewrite Z2Nat.id by lia. done.
Qed.

Lemma slab_objs_range c p a :
  0 ≤ c < NCACHES → a ∈ slab_objs c p →
  slab_base p ≤ a ∧ a + csize c ≤ slab_base p + SLAB_BYTES.
Proof.
  intros Hc (n & Hn & ->)%elem_of_slab_objs; [|done]. pose proof (cache_facts c Hc). nia.
Qed.

Lemma slab_objs_apart c p a b :
  0 ≤ c < NCACHES → a ∈ slab_objs c p → b ∈ slab_objs c p → a ≠ b →
  a + csize c ≤ b ∨ b + csize c ≤ a.
Proof.
  intros Hc (n & Hn & ->)%elem_of_slab_objs (m & Hm & ->)%elem_of_slab_objs Hne; [|done..].
  pose proof (cache_facts c Hc). assert (n ≠ m) by (intros ->; done).
  destruct (decide (n < m)); [left|right]; nia.
Qed.

Lemma slab_objs_nodup c p : 0 ≤ c < NCACHES → NoDup (slab_objs c p).
Proof.
  intros Hc. pose proof (cache_facts c Hc). unfold slab_objs, objs.
  apply NoDup_fmap_2_strong; [|apply NoDup_seqZ]. intros x y _ _ E. nia.
Qed.

Lemma slab_objs_length c p : 0 ≤ c < NCACHES → Z.of_nat (length (slab_objs c p)) = cobjs c.
Proof.
  intros Hc. pose proof (cache_facts c Hc). unfold slab_objs, objs.
  rewrite length_fmap, length_seqZ. lia.
Qed.

Definition in_slab (p a : Z) : Prop := slab_base p ≤ a < slab_base p + SLAB_BYTES.

Lemma slab_frame_of s p :
  mm_inv s → hole (nz s) p SLABORDER → slab_frame (m_max_pfn s) p.
Proof.
  intros Hi [(H1 & H2 & H3) _ _]. pose proof (mi_end s Hi) as He. pose proof (mi_base s Hi) as Hb.
  destruct (zi_base (nz s) 0 (mi_zone s Hi)) as (_ & _ & Hm). rewrite Hb in *.
  rewrite Z.sub_0_r in H3. split_and!; [done|done|lia|simpl in *; lia].
Qed.

Lemma in_slab_unique mx p q a :
  slab_frame mx p → slab_frame mx q → in_slab p a → in_slab q a → p = q.
Proof.
  intros (Hp & [x ->] & _) (Hq & [y ->] & _). unfold in_slab, slab_base, SLAB_BYTES, PAGE_SIZE.
  change (2 ^ SLABORDER) with 1024 in *. lia.
Qed.

Lemma slab_link c p a mx :
  0 ≤ c < NCACHES → slab_frame mx p → a ∈ slab_objs c p →
  link_addr a (coff c) = a + 4 * coff c ∧ in_slab p (a + 4 * coff c) ∧ a ≠ 0.
Proof.
  intros Hc (Hp & _ & Hn & _) Ha%slab_objs_range; [|done]. pose proof (cache_facts c Hc).
  unfold link_addr, in_slab, slab_base, SLAB_BYTES, PAGE_SIZE, KERNEL_BASE_ADDR in *.
  change (2 ^ SLABORDER) with 1024 in *. rewrite u32_small by lia. lia.
Qed.

(** ** Chains *)

Lemma fchain_outside lk lk' c p q mx a l :
  0 ≤ c < NCACHES → slab_frame mx p → slab_frame mx q → p ≠ q → (∀ x, x ∈ l → x ∈ slab_objs c q) →
  (∀ x, ¬ in_slab p x → lk' !! x = lk !! x) →
  fchain lk (coff c) a l → fchain lk' (coff c) a l.
Proof.
  intros Hc Hp Hq Hne Hl Hlk. apply fchain_ext. intros x Hx.
  destruct (slab_link c q x mx Hc Hq (Hl x Hx)) as (-> & Hin & _). apply Hlk. intros Hin'.
  by destruct (Hne (in_slab_unique mx p q _ Hp Hq Hin' Hin)).
Qed.

(** Storing the link of an object that is not on the chain. *)
Lemma fchain_store lk c p mx x v a l :
  0 ≤ c < NCACHES → slab_frame mx p → x ∈ slab_objs c p → (∀ y, y ∈ l → y ∈ slab_objs c p) → x ∉ l →
  fchain lk (coff c) a l → fchain (<[link_addr x (coff c) := v]> lk) (coff c) a l.
Proof.
  intros Hc Hp Hx Hl Hn. apply fchain_ext. intros y Hy. apply lookup_insert_ne.
  destruct (slab_link c p x mx Hc Hp Hx) as (-> & _ & _).
  destruct (slab_link c p y mx Hc Hp (Hl y Hy)) as (-> & _ & _).
  intros E. assert (x = y) by lia. by subst.
Qed.

Lemma fchain_push lk c p mx x a l :
  0 ≤ c < NCACHES → slab_frame mx p → x ∈ slab_objs c p → (∀ y, y ∈ l → y ∈ slab_objs c p) → x ∉ l →
  fchain lk (coff c) a l → fchain (<[link_addr x (coff c) := a]> lk) (coff c) x (x :: l).
Proof.
  intros Hc Hp Hx Hl Hn Hch. simpl. destruct (slab_link c p x mx Hc Hp Hx) as (_ & _ & H0).
  split_and!; [done|done|]. exists a. split; [apply lookup_insert_eq|]. by eapply fchain_store.
Qed.

Lemma fchain_zero lk off l : fchain lk off 0 l → l = [].
Proof. destruct l; [done|]. intros (<- & ? & _). done. Qed.

Lemma fchain_nonzero lk off a l : a ≠ 0 → fchain lk off a l → ∃ l', l = a :: l'.
Proof. destruct l as [|x l]; simpl; [done|]. intros _ (-> & _). eauto. Qed.

(** ** A change of one slab

    Every operation changes one slab, the entry of the processor that holds it and the
    list of partial slabs of its cache. *)

Record changed (s s' : sstate) (G G' : gmap Z sinfo) (p c : Z) (k k' : mem_cache) : Prop := {
  ch_mm : mm_inv (mm s');
  ch_map : size_map s' = size_map s;
  ch_frame : slab_frame (m_max_pfn (mm s)) p;
  ch_max : m_max_pfn (mm s') = m_max_pfn (mm s);
  ch_pages : ∀ q i, q ≠ p → G !! q = Some i →
    hole (nz (mm s')) q SLABORDER ∧ meta (mm s') q = meta (mm s) q;
  ch_held : ∀ q n, 0 ≤ n < MAXORDER → hole (nz (mm s)) q n → apart G q n →
    hole (nz (mm s')) q n ∧ apart G' q n;
  ch_links : ∀ a, ¬ in_slab p a → links s' !! a = links s !! a;
  ch_cache : 0 ≤ c < NCACHES;
  ch_old : kc s c = Some k;
  ch_new : kmalloc_caches s' = <[Z.to_nat c := k']> (kmalloc_caches s);
  ch_static : static c k';
  ch_cpus : ∀ j v, 0 ≤ j < CPUNUMS → cpu_slab k' !! Z.to_nat j = Some v →
    (cpu_slab k !! Z.to_nat j = Some v ∧ cpu_page v ≠ Some p) ∨ cpu_ok s' G' c j v;
  ch_kept : ∀ j v q, 0 ≤ j → q ≠ p → cpu_slab k !! Z.to_nat j = Some v → cpu_page v = Some q →
    cpu_slab k' !! Z.to_nat j = Some v;
  ch_others : ∀ q, q ≠ p → G' !! q = G !! q;
  ch_before : ∀ i, G !! p = Some i → si_c i = c;
  ch_after : ∀ i, G' !! p = Some i → si_c i = c ∧ slab_ok s' p i;
  ch_nodup : NoDup (partial k');
  ch_count : npartial k' = Z.of_nat (length (partial k'));
  ch_partial : ∀ q, q ≠ p → q ∈ partial k' ↔ q ∈ partial k;
  ch_here : p ∈ partial k' ↔ ∃ i, G' !! p = Some i ∧ on_partial c i;
}.

Section change.
Context (s s' : sstate) (G G' : gmap Z sinfo) (p c : Z) (k k' : mem_cache).
Hypothesis (Hs : slab_inv s G) (Hc : changed s s' G G' p c k k').

Lemma changed_kc c' : 0 ≤ c' → kc s' c' = if decide (c' = c) then Some k' else kc s c'.
Proof.
  intros H. pose proof (ch_cache _ _ _ _ _ _ _ _ Hc). unfold kc. rewrite (ch_new _ _ _ _ _ _ _ _ Hc).
  case_decide as E; [subst c'; apply list_lookup_insert_eq|apply list_lookup_insert_ne; lia].
  eapply lookup_lt_Some, (ch_old _ _ _ _ _ _ _ _ Hc).
Qed.

Lemma changed_other q i : q ≠ p → G !! q = Some i → slab_ok s' q i.
Proof.
  intros Hq HG. destruct (sv_slabs s G Hs q i HG) as [H1 H2 (pg & Hpg & Hp) H4 H5 H6].
  destruct (ch_pages _ _ _ _ _ _ _ _ Hc q i Hq HG) as [Hh Hm].
  pose proof (slab_frame_of (mm s) q (sv_mm s G Hs) H2) as Hf.
  split; [done|done| |done|done|].
  - unfold meta in Hm. rewrite Hpg in Hm. simpl in Hm.
    destruct (mempage (mm s') !! q) as [pg'|] eqn:E; [|done]. injection Hm as ? Efl Esl Efr Ein.
    exists pg'. split; [done|]. destruct Hp. unfold PageSlubFrozen in *. split; unfold PageSlubFrozen; rewrite ?Efl, ?Esl, ?Efr, ?Ein; try done.
    eapply (fchain_outside _ _ _ p q); [done|apply Hc|done|done| |apply Hc|done].
    intros x Hx. apply H5, elem_of_app. by left.
  - destruct (si_cpu i) as [j|]; [|done]. destruct H6 as (Hj & v & Hv & Hvp). split; [done|].
    exists v. split; [|done]. unfold cpuv in *. rewrite changed_kc by lia. case_decide as E; [|done].
    rewrite E, (ch_old _ _ _ _ _ _ _ _ Hc) in Hv. simpl in *.
    eapply (ch_kept _ _ _ _ _ _ _ _ Hc); [lia|done..].
Qed.

Lemma changed_cpu_kept c' j v :
  0 ≤ c' < NCACHES → 0 ≤ j < CPUNUMS → cpuv s c' j = Some v → cpu_page v ≠ Some p →
  cpu_ok s' G' c' j v.
Proof.
  intros Hc' Hj Hv Hp. pose proof (sv_cpus s G Hs c' j v Hc' Hj Hv) as H. unfold cpu_ok in *.
  destruct (cpu_page v) as [q|]; [|done]. destruct H as (i & HG & <- & Hcpu & Hch).
  assert (q ≠ p) as Hq by congruence.
  exists i. rewrite (ch_others _ _ _ _ _ _ _ _ Hc) by done. split_and!; [done..|].
  destruct (sv_slabs s G Hs q i HG) as [H1 H2 _ _ H5 _].
  pose proof (slab_frame_of (mm s) q (sv_mm s G Hs) H2) as Hf.
  eapply (fchain_outside _ _ _ p q); [done|apply Hc|done|done| |apply Hc|done].
  intros x Hx. apply H5, elem_of_app. by right.
Qed.

Lemma changed_inv : slab_inv s' G'.
Proof.
  split; [apply Hc|rewrite (ch_map _ _ _ _ _ _ _ _ Hc); apply Hs| | | |].
  - intros c' Hc'. rewrite changed_kc by lia. case_decide as E.
    + subst c'. exists k'. split_and!; [done|apply Hc|]. split; [apply Hc|apply Hc|].
      destruct (sv_caches s G Hs c Hc') as (k0 & Hk0 & _ & [_ _ Hel]).
      rewrite (ch_old _ _ _ _ _ _ _ _ Hc) in Hk0. injection Hk0 as <-.
      intros q. destruct (decide (q = p)) as [->|Hq]; [apply Hc|].
      by rewrite (ch_partial _ _ _ _ _ _ _ _ Hc), (ch_others _ _ _ _ _ _ _ _ Hc), Hel by done.
    + destruct (sv_caches s G Hs c' Hc') as (k0 & Hk0 & Hst & [Hnd Hct Hel]).
      exists k0. split_and!; [done..|]. split; [done|done|]. intros q. rewrite Hel.
      destruct (decide (q = p)) as [->|Hq]; [|by rewrite (ch_others _ _ _ _ _ _ _ _ Hc)].
      split; intros (i & HG & Hon & _); exfalso; apply E; rewrite <- Hon.
      * by apply (ch_before _ _ _ _ _ _ _ _ Hc).
      * by apply (ch_after _ _ _ _ _ _ _ _ Hc).
  - intros c' j v Hc' Hj Hv. unfold cpuv in Hv. rewrite changed_kc in Hv by lia.
    case_decide as E.
    + subst c'. destruct (ch_cpus _ _ _ _ _ _ _ _ Hc j v Hj Hv) as [[Hv' Hp]|?]; [|done].
      apply changed_cpu_kept; [done|done| |done]. unfold cpuv.
      rewrite (ch_old _ _ _ _ _ _ _ _ Hc). done.
    + apply changed_cpu_kept; [done|done|done|]. intros Hp.
      pose proof (sv_cpus s G Hs c' j v Hc' Hj Hv) as H. unfold cpu_ok in H. rewrite Hp in H.
      destruct H as (i & HG & Hi & _). apply E. rewrite <- Hi. by apply (ch_before _ _ _ _ _ _ _ _ Hc).
  - intros q i HG. destruct (decide (q = p)) as [->|Hq]; [by apply (ch_after _ _ _ _ _ _ _ _ Hc)|].
    rewrite (ch_others _ _ _ _ _ _ _ _ Hc) in HG by done. by apply changed_other.
  - intros q n Hin. destruct (sv_held s G Hs q n Hin) as (Hn & Hh & Ha).
    split; [done|]. by apply (ch_held _ _ _ _ _ _ _ _ Hc).
Qed.
End change.

(** ** Local changes: the buddy allocator is not involved *)

(** The fields of a descriptor that the buddy allocator reads. *)
Record like (pg pg' : page) : Prop := {
  lk_order : order pg' = order pg;
  lk_nref : nref pg' = nref pg;
  lk_reserved : has_flag (flags pg') _pg_reserved = has_flag (flags pg) _pg_reserved;
}.

Lemma hole_with_page s p pg pg' q n :
  mempage s !! p = Some pg → like pg pg' → hole (nz s) q n → hole (nz (with_page p pg' s)) q n.
Proof.
  intros Hpg [Ho Hn Hr] [H1 H2 H3]. split; [done|done|]. intros i Hi.
  destruct (H3 i Hi) as (pg1 & Hpg1 & ? & ?). unfold ready. simpl. rewrite lookup_insert.
  case_decide as E; [|eauto]. subst i. exists pg'. simpl in Hpg1. rewrite Hpg in Hpg1.
  injection Hpg1 as <-. split_and!; congruence.
Qed.

Lemma hole_not_free s p n : 0 ≤ n → hole s p n → ¬ free_page s p.
Proof. intros Hn Hh. apply (ho_busy s p n Hh), blk_start, Hn. Qed.

Section local.
Context (s : sstate) (G : gmap Z sinfo) (p c : Z) (i i' : sinfo) (k : mem_cache) (pg pg' : page)
  (lk : gmap Z Z).
Hypothesis (Hs : slab_inv s G) (HG : G !! p = Some i) (Hc : si_c i = c) (Hc' : si_c i' = c).
Hypothesis (Hk : kc s c = Some k) (Hpg : mempage (mm s) !! p = Some pg) (Hlike : like pg pg').
Hypothesis (Hlk : ∀ a, ¬ in_slab p a → lk !! a = links s !! a).

Definition local_state (k' : mem_cache) : sstate :=
  mk_sstate (with_page p pg' (mm s)) lk (<[Z.to_nat c := k']> (kmalloc_caches s)) (size_map s).

Hypothesis (Hpage : slab_page (local_state k) i' pg') (Hnd : NoDup (sfree i')).
Hypothesis (Hobjs : ∀ a, a ∈ sfree i' → a ∈ slab_objs c p).

Lemma local_cache : 0 ≤ c < NCACHES.
Proof. rewrite <- Hc. apply (sv_slabs s G Hs p i HG). Qed.

Lemma local_hole : hole (nz (mm s)) p SLABORDER.
Proof. apply (sv_slabs s G Hs p i HG). Qed.

Lemma local_static : static c k ∧ node_ok G c k.
Proof.
  destruct (sv_caches s G Hs c local_cache) as (k0 & Hk0 & ? & ?). rewrite Hk in Hk0.
  injection Hk0 as <-. done.
Qed.

Lemma local_changed k' :
  static c k' →
  (∀ j v, 0 ≤ j < CPUNUMS → cpu_slab k' !! Z.to_nat j = Some v →
    (cpu_slab k !! Z.to_nat j = Some v ∧ cpu_page v ≠ Some p) ∨
    cpu_ok (local_state k') (<[p := i']> G) c j v) →
  (∀ j v q, 0 ≤ j → q ≠ p → cpu_slab k !! Z.to_nat j = Some v → cpu_page v = Some q →
    cpu_slab k' !! Z.to_nat j = Some v) →
  match si_cpu i' with
  | None => si_cf i' = [] ∧ Z.of_nat (length (si_pf i')) < cobjs c
  | Some j => 0 ≤ j < CPUNUMS ∧ ∃ v, cpu_slab k' !! Z.to_nat j = Some v ∧ cpu_page v = Some p
  end →
  NoDup (partial k') → npartial k' = Z.of_nat (length (partial k')) →
  (∀ q, q ≠ p → q ∈ partial k' ↔ q ∈ partial k) → (p ∈ partial k' ↔ on_partial c i') →
  slab_inv (local_state k') (<[p := i']> G).
Proof.
  intros Hst Hcpus Hkept Hcpu Hpnd Hpn Hpart Hhere.
  pose proof local_cache as Hcr. pose proof local_hole as Hh.
  apply (changed_inv s _ G _ p c k k' Hs). split; try done.
  - apply (mm_inv_page (mm s) p pg); [apply Hs| |done|apply Hlike].
    eapply (hole_not_free _ _ SLABORDER); [done|exact Hh].
  - apply slab_frame_of; [apply Hs|done].
  - intros q iq Hq HGq. split.
    + eapply hole_with_page; [exact Hpg|done|]. apply (sv_slabs s G Hs q iq HGq).
    + unfold meta. simpl. by rewrite lookup_insert_ne.
  - intros q n _ Hhq Ha. split; [by eapply hole_with_page|]. intros p1 i1 x.
    destruct (decide (p1 = p)) as [->|Hne]; [intros _; by apply (Ha p i)|].
    rewrite lookup_insert_ne by done. apply Ha.
  - intros q Hq. by rewrite lookup_insert_ne.
  - intros i0 Hi0. rewrite HG in Hi0. by injection Hi0 as <-.
  - intros i0 Hi0. rewrite lookup_insert_eq in Hi0. injection Hi0 as <-. split; [done|].
    split; rewrite ?Hc'; [done|by eapply hole_with_page| |done|done|].
    + exists pg'. split; [apply lookup_insert_eq|]. destruct Hpage. by split.
    + destruct (si_cpu i'); [|done]. destruct Hcpu as (Hj & v & Hv & Hvp). split; [done|].
      exists v. split; [|done]. unfold cpuv, kc. simpl.
      rewrite list_lookup_insert_eq; [done|]. by eapply lookup_lt_Some.
  - rewrite Hhere. rewrite lookup_insert_eq. naive_solver.
Qed.

(** Slabs that stay frozen by the processor [j], or become so. *)
Lemma local_frozen j v v' pl np ns :
  0 ≤ j < CPUNUMS → cpu_slab k !! Z.to_nat j = Some v →
  (cpu_page v = None ∨ cpu_page v = Some p) → (∀ j', si_cpu i = Some j' → j' = j) →
  si_cpu i' = Some j → cpu_page v' = Some p →
  fchain lk (coff c) (cpu_freelist v') (si_cf i') →
  NoDup pl → np = Z.of_nat (length pl) → (∀ q, q ∈ pl ↔ q ∈ partial k ∧ q ≠ p) →
  slab_inv (local_state (cache_cpu j v' (cache_node pl np ns k))) (<[p := i']> G).
Proof.
  intros Hj Hv Hvp Hij Hi' Hv' Hch Hpnd Hpn Hpl. destruct local_static as [Hst Hno].
  assert (Hlen : (Z.to_nat j < length (cpu_slab k))%nat) by (by eapply lookup_lt_Some).
  apply local_changed; [by auto with slab| | | |done|done| |].
  - intros j1 v1 Hj1 Hv1. simpl in Hv1. destruct (decide (j1 = j)) as [->|Hne].
    + rewrite list_lookup_insert_eq in Hv1 by done. injection Hv1 as <-. right.
      unfold cpu_ok. rewrite Hv'. exists i'. rewrite lookup_insert_eq. done.
    + rewrite list_lookup_insert_ne in Hv1 by lia. left. split; [done|]. intros E.
      pose proof (sv_cpus s G Hs c j1 v1 local_cache Hj1) as H. unfold cpuv, cpu_ok in H.
      rewrite Hk, E in H. destruct (H Hv1) as (i0 & HG0 & _ & Hcpu & _).
      rewrite HG in HG0. injection HG0 as <-. by destruct (Hne (Hij _ Hcpu)).
  - intros j1 v1 q Hj1 Hq Hv1 Hp1. simpl. destruct (decide (j1 = j)) as [->|Hne].
    + rewrite Hv in Hv1. injection Hv1 as <-. destruct Hvp; congruence.
    + by rewrite list_lookup_insert_ne by lia.
  - rewrite Hi'. split; [done|]. exists v'. split; [|done]. simpl. by apply list_lookup_insert_eq.
  - intros q Hq. simpl. rewrite Hpl. naive_solver.
  - simpl. rewrite Hpl. unfold on_partial. rewrite Hi'. naive_solver.
Qed.

(** Slabs that no processor holds. *)
Lemma local_unfrozen pl np ns :
  si_cpu i = None → si_cpu i' = None → si_cf i' = [] → Z.of_nat (length (si_pf i')) < cobjs c →
  si_pf i' ≠ [] → NoDup pl → np = Z.of_nat (length pl) →
  (∀ q, q ∈ pl ↔ q ∈ partial k ∨ q = p) →
  slab_inv (local_state (cache_node pl np ns k)) (<[p := i']> G).
Proof.
  intros Hi Hi' Hcf Hlen Hpf Hpnd Hpn Hpl. destruct local_static as [Hst Hno].
  apply local_changed; [by auto with slab| | | |done|done| |].
  - intros j1 v1 Hj1 Hv1. simpl in Hv1. left. split; [done|]. intros E.
    pose proof (sv_cpus s G Hs c j1 v1 local_cache Hj1) as H. unfold cpuv, cpu_ok in H.
    rewrite Hk, E in H. destruct (H Hv1) as (i0 & HG0 & _ & Hcpu & _).
    rewrite HG in HG0. injection HG0 as <-. congruence.
  - done.
  - by rewrite Hi'.
  - intros q Hq. simpl. rewrite Hpl. naive_solver.
  - simpl. rewrite Hpl. unfold on_partial. naive_solver.
Qed.
End local.

(** ** Flags of the descriptor *)

Lemma has_flag_lor w a m : has_flag (Z.lor w a) m = has_flag w m || has_flag a m.
Proof.
  unfold has_flag. rewrite Z.land_lor_distr_l, <- negb_andb. f_equal.
  apply eq_bool_prop_intro. rewrite andb_True, !Is_true_true, !Z.eqb_eq. apply Z.lor_eq_0_iff.
Qed.

Lemma has_flag_clear w a m : Z.land (Z.lnot a) m = m → has_flag (Z.land w (Z.lnot a)) m = has_flag w m.
Proof. intros E. unfold has_flag. by rewrite <- Z.land_assoc, E. Qed.

Lemma has_flag_cleared w m : has_flag (Z.land w (Z.lnot m)) m = false.
Proof.
  unfold has_flag. rewrite <- Z.land_assoc, (Z.land_comm _ m), Z.land_lnot_diag, Z.land_0_r. done.
Qed.

Lemma like_refl pg : like pg pg.
Proof. done. Qed.
Lemma like_frozen pg : like pg (SetPageSlubFrozen pg).
Proof. split; [done|done|]. simpl. rewrite has_flag_lor. apply orb_false_r. Qed.
Lemma like_thawed pg : like pg (ClearPageSlubFrozen pg).
Proof. split; [done|done|]. simpl. by apply has_flag_clear. Qed.
Lemma like_lists pg f n : like pg (set_inuse n (set_freelist f pg)).
Proof. by split. Qed.

(** ** Live objects *)

(** Objects handed out, with their cache. *)
Definition live (G : gmap Z sinfo) (c a : Z) : Prop :=
  ∃ p i, G !! p = Some i ∧ si_c i = c ∧ live_in p i a.

Definition frame_in (G : gmap Z sinfo) (mx : Z) : Prop :=
  ∀ p i, G !! p = Some i → 0 ≤ si_c i < NCACHES ∧ slab_frame mx p.

Lemma slab_inv_frames s G : slab_inv s G → frame_in G (m_max_pfn (mm s)).
Proof.
  intros Hs p i HG. destruct (sv_slabs s G Hs p i HG) as [? Hh _ _ _ _].
  split; [done|]. apply slab_frame_of; [apply Hs|done].
Qed.

Lemma obj_in_slab c p a mx : 0 ≤ c < NCACHES → slab_frame mx p → a ∈ slab_objs c p → in_slab p a ∧ a ≠ 0.
Proof.
  intros Hc Hp Ha. pose proof (slab_objs_range c p a Hc Ha). pose proof (cache_facts c Hc).
  split; [unfold in_slab; lia|]. by eapply slab_link.
Qed.

(** The slab of an object is unique. *)
Lemma live_slab G mx c a p i :
  frame_in G mx → G !! p = Some i → a ∈ slab_objs (si_c i) p → live G c a ↔ si_c i = c ∧ live_in p i a.
Proof.
  intros HF HG Ha. split; [|intros [? ?]; by exists p, i].
  intros (q & iq & HGq & Hc & Hin & Hn). destruct (HF p i HG) as [Hcp Hfp].
  destruct (HF q iq HGq) as [Hcq Hfq].
  destruct (obj_in_slab _ _ _ mx Hcp Hfp Ha) as [H1 _].
  destruct (obj_in_slab _ _ _ mx Hcq Hfq Hin) as [H2 _].
  assert (p = q) as <- by (by eapply in_slab_unique). rewrite HG in HGq. by injection HGq as <-.
Qed.

Lemma live_insert_ne G p i' c a :
  live (<[p := i']> G) c a ↔
    (si_c i' = c ∧ live_in p i' a) ∨ ∃ q i, q ≠ p ∧ G !! q = Some i ∧ si_c i = c ∧ live_in q i a.
Proof.
  unfold live. split.
  - intros (q & i & HG & Hc & Hl). destruct (decide (q = p)) as [->|Hq].
    + rewrite lookup_insert_eq in HG. injection HG as <-. by left.
    + rewrite lookup_insert_ne in HG by done. right. by exists q, i.
  - intros [[Hc Hl]|(q & i & Hq & HG & Hc & Hl)].
    + exists p, i'. by rewrite lookup_insert_eq.
    + exists q, i. by rewrite lookup_insert_ne.
Qed.

Lemma slab_live_split G p c a :
  live G c a ↔
    (∃ i, G !! p = Some i ∧ si_c i = c ∧ live_in p i a) ∨
    ∃ q i, q ≠ p ∧ G !! q = Some i ∧ si_c i = c ∧ live_in q i a.
Proof.
  unfold live. split.
  - intros (q & i & HG & Hc & Hl). destruct (decide (q = p)) as [->|Hq]; [left|right]; eauto 7.
  - intros [(i & ?)|(q & i & _ & ?)]; eauto.
Qed.

(** The same free objects. *)
Lemma live_same G p i i' :
  G !! p = Some i → si_c i' = si_c i → (∀ a, a ∈ sfree i' ↔ a ∈ sfree i) →
  ∀ c a, live (<[p := i']> G) c a ↔ live G c a.
Proof.
  intros HG Hc Hf c a. rewrite live_insert_ne, (slab_live_split G p). unfold live_in. rewrite Hc, Hf, HG.
  naive_solver.
Qed.

(** One free object less. *)
Definition handed (G G' : gmap Z sinfo) (c a : Z) : Prop :=
  a ≠ 0 ∧ (∀ c', ¬ live G c' a) ∧ ∀ c' b, live G' c' b ↔ live G c' b ∨ c' = c ∧ b = a.

Lemma live_handed G mx p i i' c a :
  frame_in G mx → G !! p = Some i → si_c i = c → si_c i' = c → NoDup (sfree i) →
  (∀ b, b ∈ sfree i → b ∈ slab_objs c p) →
  sfree i ≡ₚ a :: sfree i' → handed G (<[p := i']> G) c a.
Proof.
  intros HF HG Hc Hc' Hnd Hobj Hp.
  assert (Hafree : a ∈ sfree i) by (rewrite Hp; by left).
  assert (Ha : a ∈ slab_objs c p) by (by apply Hobj).
  rewrite Hp in Hnd. apply NoDup_cons in Hnd as [Hna _].
  split_and!.
  - destruct (HF p i HG) as [Hcp Hfp]. rewrite Hc in Hcp. by eapply obj_in_slab.
  - intros c' Hl. rewrite <- Hc in Ha. apply (live_slab G mx c' a p i HF HG Ha) in Hl.
    destruct Hl as [_ [_ Hn]]. done.
  - intros c' b. rewrite live_insert_ne, (slab_live_split G p), HG. unfold live_in.
    rewrite Hc'. split.
    + intros [[-> [Hb Hn]]|H]; [|auto]. destruct (decide (b = a)) as [->|Hne]; [by right|].
      left; left. exists i. rewrite Hc, Hp. split_and!; [done..|]. by intros [?|?]%elem_of_cons.
    + intros [[(i0 & [= <-] & H1 & H2 & H3)|H]|[-> ->]]; [|by right|by left]. left.
      split_and!; [congruence|congruence|]. intros Hb. apply H3. rewrite Hp. by right.
Qed.

(** One free object more. *)
Definition returned (G G' : gmap Z sinfo) (a : Z) : Prop :=
  ∀ c b, live G' c b ↔ live G c b ∧ b ≠ a.

Lemma live_returned G mx p i i' a :
  frame_in G mx → G !! p = Some i → si_c i' = si_c i → a ∈ slab_objs (si_c i) p →
  sfree i' ≡ₚ a :: sfree i → returned G (<[p := i']> G) a.
Proof.
  intros HF HG Hc Ha Hp c b. rewrite live_insert_ne, (slab_live_split G p), HG. unfold live_in.
  rewrite Hc, Hp, not_elem_of_cons. split.
  - intros [[Hic (Hb & Hn & Hf)]|(q & iq & Hq & HGq & <- & Hb & Hn)].
    + split; [|done]. left. by exists i.
    + split; [right; by exists q, iq|]. intros ->.
      assert (live G (si_c iq) a) as Hl by (by exists q, iq).
      apply (live_slab G mx _ a p i HF HG Ha) in Hl as [_ [Ha' _]].
      destruct (HF p i HG) as [Hcp Hfp]. destruct (HF q iq HGq) as [Hcq Hfq].
      apply Hq. destruct (obj_in_slab _ _ _ mx Hcp Hfp Ha) as [H1 _].
      destruct (obj_in_slab _ _ _ mx Hcq Hfq Hb) as [H2 _]. by eapply in_slab_unique.
  - intros [[(i0 & [= <-] & H1 & H2 & H3)|H] Hne]; [left; auto|by right].
Qed.
End held.

Arguments slab_inv hd s G : clear implicits.
