(* ===== verification/SlabSafety.v ===== *)
(** * The slab allocator: allocation and release

    [kmalloc] and [kfree] preserve the invariant of SlabInv; no object is handed out
    twice, and live objects never overlap each other or the links of free ones. *)

From S2P Require Import Prelude Layout Buddy BuddyProofs Paging PagingProofs Slab SlabProofs SlabInv.

Local Open Scope Z_scope.

Section held.
Context {hd : list (Z * Z)}.

Lemma cache_cpu_id j v k : cpu_slab k !! Z.to_nat j = Some v → cache_cpu j v k = k.
Proof. intros H. unfold cache_cpu. rewrite list_insert_id by done. by destruct k. Qed.

Lemma cache_node_id k : cache_node (partial k) (npartial k) (nslub k) k = k.
Proof. by destruct k. Qed.

Lemma edit_same m p pg : mempage m !! p = Some pg → with_page p pg m = m.
Proof. intros H. unfold with_page. rewrite insert_id by done. by destruct m. Qed.

(** A descriptor depends only on the list and the holder of the slab. *)
Lemma slab_page_ext s s' i i' pg :
  links s' = links s → si_c i' = si_c i → si_pf i' = si_pf i → (is_Some (si_cpu i') ↔ is_Some (si_cpu i)) →
  slab_page s i pg → slab_page s' i' pg.
Proof.
  intros Hl Hc Hp Hcpu []. split; rewrite ?Hl, ?Hc, ?Hp; try done.
  rewrite sp_frozen. by apply bool_decide_ext.
Qed.

Section ops.
Context (s : sstate) (G : gmap Z sinfo) (c j : Z).
Hypothesis (Hs : slab_inv hd s G) (Hc : 0 ≤ c < NCACHES) (Hj : 0 ≤ j < CPUNUMS).

(** The cache and the entry of the processor. *)
Lemma entry_exists :
  ∃ k v, kc s c = Some k ∧ static c k ∧ node_ok G c k ∧ cpu_slab k !! Z.to_nat j = Some v ∧
    cpu_ok s G c j v.
Proof.
  destruct (sv_caches s G Hs c Hc) as (k & Hk & Hst & Hno).
  destruct (lookup_lt_is_Some_2 (cpu_slab k) (Z.to_nat j)) as [v Hv].
  { rewrite (st_cpus c k Hst). lia. }
  exists k, v. split_and!; [done..|]. apply (sv_cpus s G Hs c j v Hc Hj).
  unfold cpuv. by rewrite Hk.
Qed.

(** The lists of partial slabs do not change when no slab enters or leaves. *)
Lemma partial_kept k p i :
  node_ok G c k → G !! p = Some i → is_Some (si_cpu i) →
  NoDup (partial k) ∧ npartial k = Z.of_nat (length (partial k)) ∧
  ∀ q, q ∈ partial k ↔ q ∈ partial k ∧ q ≠ p.
Proof.
  intros [Hnd Hct Hel] HG [j' Hcpu]. split_and!; [done..|]. intros q. split; [|by intros [? _]].
  intros Hq. split; [done|]. intros ->. apply Hel in Hq as (i0 & HG0 & _ & Hn & _).
  rewrite HG in HG0. injection HG0 as <-. congruence.
Qed.

(** The fast path: the first object of the processor's own list. *)
Lemma slab_alloc_pop k v p i :
  kc s c = Some k → static c k → node_ok G c k → cpu_slab k !! Z.to_nat j = Some v →
  cpu_freelist v ≠ 0 → cpu_page v = Some p → G !! p = Some i → si_c i = c → si_cpu i = Some j →
  fchain (links s) (coff c) (cpu_freelist v) (si_cf i) →
  ∃ s' G', slab_alloc c j s = Ok (cpu_freelist v, s') ∧ slab_inv hd s' G' ∧
    handed G G' c (cpu_freelist v).
Proof.
  intros Hk Hst Hno Hv Hf Hp HG Hic Hcpu Hch.
  destruct (fchain_nonzero _ _ _ _ Hf Hch) as [cf' Ecf]. rewrite Ecf in Hch.
  destruct Hch as (_ & _ & nx & Hnx & Hch).
  destruct (sv_slabs s G Hs p i HG) as [_ Hh (pg & Hpg & Hsp) Hnd Hobj _].
  destruct (partial_kept k p i Hno HG ltac:(eauto)) as (Hpnd & Hpn & Hpl).
  set (i' := mk_sinfo c (si_pf i) cf' (Some j)).
  assert (Hperm : sfree i ≡ₚ cpu_freelist v :: sfree i').
  { unfold sfree, i'. rewrite Ecf. simpl. by rewrite Permutation_middle. }
  exists (with_cache c (cache_cpu j (mk_cpu nx (Some p)) k) s), (<[p := i']> G). split_and!.
  - unfold slab_alloc. rewrite (bind_Ok _ _ _ _ _ (get_cpu_ok s c k Hk j v Hv)).
    rewrite bool_decide_false by done. rewrite (bind_Ok _ _ _ _ _ (get_cache_ok s c k Hk)).
    rewrite (st_off c k Hst), (bind_Ok _ _ _ _ _ (load_link_ok s _ _ _ Hnx)), Hp.
    by rewrite (bind_Ok _ _ _ _ _ (set_cpu_ok s c k Hk j _)).
  - pose proof (local_frozen s G p c i i' k pg pg (links s) Hs HG Hic eq_refl Hk Hpg
      (like_refl pg) (λ _ _, eq_refl)) as H.
    unfold local_state in H. rewrite (edit_same _ _ _ Hpg) in H.
    rewrite <- (cache_node_id k).
    apply (H ltac:(eapply slab_page_ext; [..|exact Hsp]; simpl; [done|done|done|rewrite Hcpu; eauto])
      ltac:(by rewrite Hperm in Hnd; apply NoDup_cons in Hnd as [_ ?])
      ltac:(intros a Ha; rewrite <- Hic; apply Hobj; rewrite Hperm; by right)
      j v (mk_cpu nx (Some p)) (partial k) (npartial k) (nslub k) Hj Hv (or_intror Hp)
      ltac:(congruence) eq_refl eq_refl Hch Hpnd Hpn Hpl).
  - eapply live_handed; [by eapply slab_inv_frames|done|done|done|done| |done].
    by rewrite <- Hic.
Qed.
End ops.

(** The processor holds the slab [p] and its own list is empty. *)
Definition holds (s : sstate) (G : gmap Z sinfo) (c j p : Z) (i : sinfo) (k : mem_cache) : Prop :=
  kc s c = Some k ∧ static c k ∧ node_ok G c k ∧ cpu_slab k !! Z.to_nat j = Some (mk_cpu 0 (Some p)) ∧
  G !! p = Some i ∧ si_c i = c ∧ si_cpu i = Some j ∧ si_cf i = [].

Section slow.
Context (s : sstate) (G : gmap Z sinfo) (c j : Z).
Hypothesis (Hs : slab_inv hd s G) (Hc : 0 ≤ c < NCACHES) (Hj : 0 ≤ j < CPUNUMS).

(** [load_slab] with a free object in the page. *)
Lemma load_slab_ok fuel p i k :
  holds s G c j p i k → si_pf i ≠ [] →
  ∃ a s' G', _slab_alloc (S fuel) c j false s = Ok (a, s') ∧ slab_inv hd s' G' ∧ handed G G' c a.
Proof.
  intros (Hk & Hst & Hno & Hv & HG & Hic & Hcpu & Hcf) Hpf.
  destruct (sv_slabs s G Hs p i HG) as [_ Hh (pg & Hpg & Hsp) Hnd Hobj _].
  destruct (si_pf i) as [|a pf] eqn:Epf; [done|]. pose proof (sp_chain s i pg Hsp) as Hch.
  rewrite Epf, Hic in Hch. destruct Hch as (Ea & Ha0 & nx & Hnx & Hch).
  destruct (partial_kept G c k p i Hno HG ltac:(eauto)) as (Hpnd & Hpn & Hpl).
  set (i' := mk_sinfo c [] pf (Some j)).
  set (pg' := set_inuse (objects k) (set_freelist 0 pg)).
  assert (Hfree : sfree i = a :: sfree i').
  { unfold sfree, i'. rewrite Epf, Hcf, app_nil_r. done. }
  exists a, (edit p pg' (with_cache c (cache_cpu j (mk_cpu nx (Some p)) k) s)), (<[p := i']> G).
  split_and!.
  - cbn [_slab_alloc]. rewrite (bind_Ok _ _ _ _ _ (get_cpu_ok s c k Hk j _ Hv)).
    erewrite bind_Ok by reflexivity. rewrite (bind_Ok _ _ _ _ _ (load_page_ok s p pg Hpg)). cbv zeta.
    rewrite Ea, bool_decide_false by done. rewrite (bind_Ok _ _ _ _ _ (get_cache_ok s c k Hk)).
    rewrite (st_off c k Hst), (bind_Ok _ _ _ _ _ (load_link_ok s _ _ _ Hnx)).
    rewrite (bind_Ok _ _ _ _ _ (set_cpu_ok s c k Hk j _)).
    by rewrite (bind_Ok _ _ _ _ _ (edit_page_ok (with_cache c _ s) p pg _ Hpg)).
  - rewrite <- (cache_node_id k).
    apply (local_frozen s G p c i i' k pg pg' (links s) Hs HG Hic eq_refl Hk Hpg
      (like_lists pg _ _) (λ _ _, eq_refl)) with (v := mk_cpu 0 (Some p)); try done.
    + destruct Hsp. split; [done|simpl; congruence|simpl|done|].
      * unfold PageSlubFrozen in *. simpl. rewrite sp_frozen. by rewrite Hcpu.
      * change (objects k = cobjs c - 0). rewrite (st_objs c k Hst). lia.
    + rewrite Hfree in Hnd. by apply NoDup_cons in Hnd as [_ ?].
    + intros b Hb. rewrite <- Hic. apply Hobj. rewrite Hfree. by right.
    + by right.
    + congruence.
  - eapply (live_handed _ _ _ i); [by eapply slab_inv_frames|done|done|done|done| |by rewrite Hfree].
    by rewrite <- Hic.
Qed.

(** [deactivate_slab] when the page has no free object either. *)
Lemma deactivate_ok p i k :
  holds s G c j p i k → si_pf i = [] →
  ∃ s' G' k', deactivate_slab c j s = Ok (tt, s') ∧ slab_inv hd s' G' ∧ mm_inv (mm s') ∧
    kc s' c = Some k' ∧ static c k' ∧ node_ok G' c k' ∧ zone_normal (mm s') = zone_normal (mm s) ∧
    cpu_slab k' !! Z.to_nat j = Some (mk_cpu 0 None) ∧ ∀ c' a, live G' c' a ↔ live G c' a.
Proof.
  intros (Hk & Hst & Hno & Hv & HG & Hic & Hcpu & Hcf) Hpf.
  destruct (sv_slabs s G Hs p i HG) as [_ Hh (pg & Hpg & Hsp) Hnd Hobj _].
  pose proof (sp_chain s i pg Hsp) as Hch. rewrite Hpf in Hch. simpl in Hch.
  pose proof (cache_facts c Hc) as Hcf'.
  destruct (partial_kept G c k p i Hno HG ltac:(eauto)) as (Hpnd & Hpn & Hpl).
  set (i' := mk_sinfo c [] [] None).
  set (k' := cache_cpu j (mk_cpu 0 None) k).
  set (s' := edit p (ClearPageSlubFrozen pg) (with_cache c k' s)).
  assert (Hlen : (Z.to_nat j < length (cpu_slab k))%nat) by (by eapply lookup_lt_Some).
  assert (Hk' : kc s' c = Some k') by (by apply (kc_with_eq s c k Hk)).
  assert (Hinv : slab_inv hd s' (<[p := i']> G)).
  { apply (local_changed s G p c i i' k pg _ (links s) Hs HG Hic eq_refl Hk Hpg
      (like_thawed pg) (λ _ _, eq_refl)); try done.
    - destruct Hsp. split.
      + simpl. by rewrite has_flag_clear.
      + simpl. congruence.
      + unfold PageSlubFrozen. simpl. by rewrite has_flag_cleared.
      + done.
      + change (inuse pg = cobjs c - 0). rewrite sp_inuse, Hpf, Hic. done.
    - constructor.
    - intros a Ha. by apply elem_of_nil in Ha.
    - by apply static_cpu.
    - intros j1 v1 Hj1 Hv1. simpl in Hv1. destruct (decide (j1 = j)) as [->|Hne].
      + rewrite list_lookup_insert_eq in Hv1 by done. injection Hv1 as <-. by right.
      + rewrite list_lookup_insert_ne in Hv1 by lia. left. split; [done|]. intros E.
        pose proof (sv_cpus s G Hs c j1 v1 Hc Hj1) as H. unfold cpuv, cpu_ok in H.
        rewrite Hk, E in H. destruct (H Hv1) as (i0 & HG0 & _ & Hcpu0 & _).
        rewrite HG in HG0. injection HG0 as <-. congruence.
    - intros j1 v1 q Hj1 Hq Hv1 Hp1. simpl. rewrite list_lookup_insert_ne; [done|].
      intros E. rewrite <- E, Hv in Hv1. injection Hv1 as <-. by injection Hp1 as <-.
    - change (@nil Z = [] ∧ 0 < cobjs c). split; [done|lia].
    - simpl. unfold on_partial. rewrite Hpl. naive_solver. }
  exists s', (<[p := i']> G), k'. split_and!; try done.
  - unfold deactivate_slab. rewrite (bind_Ok _ _ _ _ _ (get_cpu_ok s c k Hk j _ Hv)).
    erewrite bind_Ok by reflexivity. cbn [cpu_freelist]. rewrite bool_decide_false by (by intros H).
    rewrite (bind_Ok _ _ _ _ _ (set_cpu_ok s c k Hk j _)). unfold unfreeze_slab.
    rewrite (bind_Ok _ _ _ _ _ (edit_page_ok (with_cache c k' s) p pg _ Hpg)).
    erewrite (bind_Ok _ _ _ _ _ (load_page_ok _ p (ClearPageSlubFrozen pg) _)).
    rewrite bool_decide_true; [|change (inuse pg ≠ 0); rewrite (sp_inuse s i pg Hsp), Hpf, Hic; change (Z.of_nat (length [])) with 0; lia].
    rewrite bool_decide_false by (change (freelist (ClearPageSlubFrozen pg)) with (freelist pg); by rewrite Hch; intros H).
    reflexivity.
  - apply Hinv.
  - by apply static_cpu.
  - destruct (sv_caches _ _ Hinv c Hc) as (k0 & Hk0 & _ & Hn). rewrite Hk' in Hk0.
    by injection Hk0 as <-.
  - by apply list_lookup_insert_eq.
  - intros c' a. apply (live_same G p i i' HG); [done|]. intros b. unfold sfree. by rewrite Hpf, Hcf.
Unshelve. apply lookup_insert_eq.
Qed.
End slow.

(** The processor holds no slab. *)
Definition idle (s : sstate) (G : gmap Z sinfo) (c j : Z) (k : mem_cache) : Prop :=
  kc s c = Some k ∧ static c k ∧ node_ok G c k ∧ cpu_slab k !! Z.to_nat j = Some (mk_cpu 0 None).

(** The slab [p], with a free object, has been given to the processor. *)
Definition supplied (s s' : sstate) (G : gmap Z sinfo) (c j p : Z) : Prop :=
  ∃ G' i k, slab_inv hd s' G' ∧ holds s' G' c j p i k ∧ si_pf i ≠ [] ∧ ∀ c' a, live G' c' a ↔ live G c' a.

Lemma remove_head p l : NoDup (p :: l) → list_remove_page p (p :: l) = l.
Proof.
  intros [Hp _]%NoDup_cons. unfold list_remove_page. rewrite filter_cons_False by (by intros H).
  by apply filter_ne_id.
Qed.

Lemma partial_bound s G c k : slab_inv hd s G → node_ok G c k → Z.of_nat (length (partial k)) < 2 ^ 30.
Proof.
  intros Hs [Hnd _ Hel]. enough (length (partial k) ≤ length (seqZ 0 0x30000))%nat as H.
  { rewrite length_seqZ in H. lia. }
  apply submseteq_length, NoDup_submseteq; [done|]. intros p (i & HG & _)%Hel.
  destruct (slab_inv_frames s G Hs p i HG) as [_ (H1 & _ & H2 & _)].
  apply elem_of_seqZ. change (2 ^ SLABORDER) with 1024 in H2. lia.
Qed.

Section refill.
Context (s : sstate) (G : gmap Z sinfo) (c j : Z) (k : mem_cache).
Hypothesis (Hs : slab_inv hd s G) (Hc : 0 ≤ c < NCACHES) (Hj : 0 ≤ j < CPUNUMS).
Hypothesis (Hidle : idle s G c j k).

Lemma get_partial_none : partial k = [] → get_partial_slab c s = Ok (None, s).
Proof.
  intros Hp. destruct Hidle as (Hk & _ & [_ Hn _] & _). unfold get_partial_slab.
  rewrite (bind_Ok _ _ _ _ _ (get_cache_ok s c k Hk)), Hn, Hp. done.
Qed.

Lemma get_partial_some p pl :
  partial k = p :: pl →
  ∃ s1 k1, get_partial_slab c s = Ok (Some p, s1) ∧ kc s1 c = Some k1 ∧
    cpu_slab k1 !! Z.to_nat j = Some (mk_cpu 0 None) ∧
    supplied s (with_cache c (cache_cpu j (mk_cpu 0 (Some p)) k1) s1) G c j p.
Proof.
  intros Hpl. pose proof Hidle as (Hk & Hst & Hno & Hv). pose proof Hno as [Hnd Hn Hel].
  destruct (proj1 (Hel p)) as (i & HG & Hic & Hcpu & Hpf); [rewrite Hpl; by left|].
  destruct (sv_slabs s G Hs p i HG) as [_ Hh (pg & Hpg & Hsp) Hsnd Hobj Hso].
  rewrite Hcpu in Hso. destruct Hso as [Hcf _].
  rewrite Hpl in Hnd. pose proof (partial_bound s G c k Hs Hno) as Hb. rewrite Hpl in Hn, Hb. simpl in Hn, Hb.
  set (k1 := cache_node pl (npartial k - 1) (nslub k) k).
  set (s1 := edit p (SetPageSlubFrozen pg) (with_cache c k1 s)).
  set (i' := mk_sinfo c (si_pf i) [] (Some j)).
  set (k2 := cache_cpu j (mk_cpu 0 (Some p)) k1).
  assert (Hk1 : kc s1 c = Some k1) by (by apply (kc_with_eq s c k Hk)).
  assert (Hlen : (Z.to_nat j < length (cpu_slab k))%nat) by (by eapply lookup_lt_Some).
  assert (Hinv : slab_inv hd (with_cache c k2 s1) (<[p := i']> G)).
  { replace (with_cache c k2 s1) with (local_state s p c (SetPageSlubFrozen pg) (links s) k2).
    2: { unfold local_state, with_cache, s1, edit, with_mm. simpl. by rewrite list_insert_insert_eq. }
    apply (local_frozen s G p c i i' k pg _ (links s) Hs HG Hic eq_refl Hk Hpg
      (like_frozen pg) (λ _ _, eq_refl)) with (v := mk_cpu 0 None); try done.
    - destruct Hsp. split.
      + simpl. rewrite has_flag_lor. by rewrite sp_flag.
      + simpl. congruence.
      + unfold PageSlubFrozen. simpl. rewrite has_flag_lor. apply orb_true_r.
      + simpl. by rewrite <- Hic.
      + change (inuse pg = cobjs c - Z.of_nat (length (si_pf i))). by rewrite <- Hic.
    - unfold sfree, i' in *. simpl. by rewrite Hcf in Hsnd.
    - intros a. unfold sfree, i'. simpl. rewrite <- Hic. intros Ha. apply Hobj. unfold sfree. by rewrite Hcf.
    - by left.
    - rewrite Hcpu. done.
    - by apply NoDup_cons in Hnd as [_ ?].
    - lia.
    - intros q. rewrite Hpl, elem_of_cons. apply NoDup_cons in Hnd as [Hnp _].
      split; [intros Hq; split; [by right|by intros ->]|by intros [[?|?] ?]]. }
  exists s1, k1. split_and!; [|done|done|].
  - unfold get_partial_slab. rewrite (bind_Ok _ _ _ _ _ (get_cache_ok s c k Hk)).
    rewrite bool_decide_false by lia. rewrite Hpl. unfold lock_and_freeze_slab.
    rewrite bind_assoc, (bind_Ok _ _ _ _ _ (get_cache_ok s c k Hk)), Hpl, (remove_head p pl Hnd).
    rewrite i32_small by lia. rewrite bind_assoc, (bind_Ok _ _ _ _ _ (set_node_ok s c k Hk _ _ _)).
    by rewrite (bind_Ok _ _ _ _ _ (edit_page_ok (with_cache c k1 s) p pg _ Hpg)).
  - assert (Hk2 : kc (with_cache c k2 s1) c = Some k2) by (by eapply kc_with_eq).
    exists (<[p := i']> G), i', k2. split_and!; [done| |done|].
    + unfold holds. rewrite lookup_insert_eq. split_and!; try done.
      * by apply static_cpu, static_node.
      * destruct (sv_caches _ _ Hinv c Hc) as (k0 & Hk0 & _ & ?). rewrite Hk2 in Hk0.
        by injection Hk0 as <-.
      * by apply list_lookup_insert_eq.
    + intros c' a. apply (live_same G p i i' HG); [done|]. intros b. unfold sfree. by rewrite Hcf.
Qed.
End refill.

(** ** A slab from the buddy allocator *)

Lemma like_new c p pg : like pg (SetPageSlubFrozen (new_slab_page c p pg)).
Proof. split; [done|done|]. simpl. rewrite !has_flag_lor. by rewrite !orb_false_r. Qed.

Section fresh.
Context (s : sstate) (G : gmap Z sinfo) (c j p : Z) (k : mem_cache) (m : mstate) (pg : page)
  (lk : gmap Z Z).
Hypothesis (Hs : slab_inv hd s G) (Hc : 0 ≤ c < NCACHES) (Hj : 0 ≤ j < CPUNUMS).
Hypothesis (Hidle : idle s G c j k) (Hm : mm_inv m) (Hal : allocated (nz (mm s)) (nz m) SLABORDER p).
Hypothesis (Hoo : only_orders (nz (mm s)) (nz m)) (Hpg : mempage m !! p = Some pg).
Hypothesis (Hlk : ∀ a, ¬ in_slab p a → lk !! a = links s !! a).
Hypothesis (Hch : fchain lk (coff c) (slab_base p) (slab_objs c p)).

Definition fresh_page : page := SetPageSlubFrozen (new_slab_page c p pg).
Definition fresh_cache : mem_cache :=
  cache_cpu j (mk_cpu 0 (Some p)) (cache_node (partial k) (npartial k) (i32 (nslub k + 1)) k).
Definition fresh_state : sstate :=
  mk_sstate (with_page p fresh_page m) lk (<[Z.to_nat c := fresh_cache]> (kmalloc_caches s)) (size_map s).
Definition fresh_info : sinfo := mk_sinfo c (slab_objs c p) [] (Some j).

Lemma fresh_none : G !! p = None.
Proof.
  destruct (G !! p) as [i|] eqn:E; [|done]. destruct (sv_slabs s G Hs p i E) as [_ Hh _ _ _ _].
  destruct (hole_not_free _ _ SLABORDER ltac:(done) Hh). apply (al_was_free _ _ _ _ Hal).
  by apply blk_start.
Qed.

Lemma fresh_frame : slab_frame (m_max_pfn m) p.
Proof. apply slab_frame_of; [done|apply Hal]. Qed.

Lemma fresh_max : m_max_pfn m = m_max_pfn (mm s).
Proof. apply (ss_max _ _ (oo_shape _ _ Hoo)). Qed.

Lemma fresh_slab_ok : slab_ok fresh_state p fresh_info.
Proof.
  destruct Hidle as (Hk & _ & _ & Hv). split; simpl.
  - done.
  - eapply hole_with_page; [done|apply like_new|apply Hal].
  - exists fresh_page. split; [apply lookup_insert_eq|]. split.
    + simpl. rewrite !has_flag_lor. apply orb_true_iff. left. apply orb_true_r.
    + done.
    + unfold PageSlubFrozen. simpl. rewrite has_flag_lor. apply orb_true_r.
    + done.
    + change (0 = cobjs c - Z.of_nat (length (slab_objs c p))). rewrite slab_objs_length by done. lia.
  - unfold sfree. simpl. rewrite app_nil_r. by apply slab_objs_nodup.
  - intros a. unfold sfree. simpl. by rewrite app_nil_r.
  - split; [done|]. exists (mk_cpu 0 (Some p)). split; [|done]. unfold cpuv, kc. simpl.
    rewrite list_lookup_insert_eq by (by eapply lookup_lt_Some). simpl.
    apply list_lookup_insert_eq. by eapply lookup_lt_Some.
Qed.

Lemma fresh_inv : slab_inv hd fresh_state (<[p := fresh_info]> G).
Proof.
  destruct Hidle as (Hk & Hst & Hno & Hv).
  assert (Hlen : (Z.to_nat j < length (cpu_slab k))%nat) by (by eapply lookup_lt_Some).
  apply (changed_inv s _ G _ p c k fresh_cache Hs). split; try assumption; try reflexivity.
  - apply (mm_inv_page m p pg); [done| |done|apply like_new].
    eapply (hole_not_free _ _ SLABORDER); [done|apply Hal].
  - rewrite <- fresh_max. apply fresh_frame.
  - apply fresh_max.
  - intros q iq Hq HGq. destruct (sv_slabs s G Hs q iq HGq) as [_ Hh _ _ _ _]. split.
    + eapply hole_with_page; [done|apply like_new|]. eapply hole_transfer; [done| |done].
      intros x Hx [Hfx _]%(al_free _ _ _ _ Hal). by apply (ho_busy _ _ _ Hh x).
    + etrans; [|apply (oo_pages _ _ Hoo q)]. unfold meta. simpl. by rewrite lookup_insert_ne.
  - intros q n Hn Hh Ha. split.
    + eapply hole_with_page; [done|apply like_new|]. eapply hole_transfer; [done| |done].
      intros x Hx [Hfx _]%(al_free _ _ _ _ Hal). by apply (ho_busy _ _ _ Hh x).
    + intros p1 i1 x. destruct (decide (p1 = p)) as [->|Hne].
      * intros _ Hx Hxq. apply (ho_busy _ _ _ Hh x Hxq). by apply (al_was_free _ _ _ _ Hal).
      * rewrite lookup_insert_ne by done. apply Ha.
  - by apply static_cpu, static_node.
  - intros j1 v1 Hj1 Hv1. simpl in Hv1. destruct (decide (j1 = j)) as [->|Hne].
    + rewrite list_lookup_insert_eq in Hv1 by done. injection Hv1 as <-. right. simpl.
      unfold cpu_ok. simpl. exists fresh_info. rewrite lookup_insert_eq. split_and!; reflexivity.
    + rewrite list_lookup_insert_ne in Hv1 by lia. left. split; [done|]. intros E.
      pose proof (sv_cpus s G Hs c j1 v1 Hc Hj1) as H. unfold cpuv, cpu_ok in H.
      rewrite Hk, E in H. destruct (H Hv1) as (i0 & HG0 & _). by rewrite fresh_none in HG0.
  - intros j1 v1 q Hj1 Hq Hv1 Hp1. simpl. rewrite list_lookup_insert_ne; [done|].
    intros E. rewrite <- E, Hv in Hv1. by injection Hv1 as <-.
  - intros q Hq. by rewrite lookup_insert_ne.
  - intros i. by rewrite fresh_none.
  - intros i Hi. rewrite lookup_insert_eq in Hi. injection Hi as <-. split; [done|apply fresh_slab_ok].
  - apply Hno.
  - apply Hno.
  - simpl. rewrite (no_elem G c k Hno), fresh_none, lookup_insert_eq.
    split; [intros (i & [=] & _)|intros (i & [= <-] & _ & [=] & _)].
Qed.

Lemma fresh_supplied : supplied s fresh_state G c j p.
Proof.
  destruct Hidle as (Hk & Hst & Hno & Hv). pose proof fresh_inv as Hinv.
  exists (<[p := fresh_info]> G), fresh_info, fresh_cache.
  assert (Hk2 : kc fresh_state c = Some fresh_cache).
  { apply list_lookup_insert_eq. by eapply lookup_lt_Some. }
  pose proof (slab_objs_length c p Hc). pose proof (cache_facts c Hc).
  split_and!; [done| | |].
  - unfold holds. rewrite lookup_insert_eq.
    split_and!; [exact Hk2| | | |reflexivity|reflexivity|reflexivity|reflexivity].
    + by apply static_cpu, static_node.
    + destruct (sv_caches _ _ Hinv c Hc) as (k0 & Hk0 & _ & ?). rewrite Hk2 in Hk0.
      by injection Hk0 as <-.
    + apply list_lookup_insert_eq. by eapply lookup_lt_Some.
  - simpl. intros E. rewrite E in *. simpl in *. lia.
  - intros c' a. rewrite live_insert_ne, (slab_live_split G p), fresh_none. unfold live_in, sfree. simpl.
    rewrite app_nil_r. split.
    + intros [(_ & H1 & H2)|Ho]; [by destruct (H2 H1)|by right].
    + intros [(i & [=] & _)|Ho]. by right.
Qed.
End fresh.

(** [new_slab] followed by the freezing of the slab in [_slab_alloc]. *)
Lemma new_slab_ok s G c j k :
  slab_inv hd s G → 0 ≤ c < NCACHES → 0 ≤ j < CPUNUMS → idle s G c j k →
  (new_slab c s = Ok (None, s) ∧ fl (nz (mm s)) SLABORDER = []) ∨
  ∃ p s1 k1 pg1, new_slab c s = Ok (Some p, s1) ∧ kc s1 c = Some k1 ∧
    cpu_slab k1 !! Z.to_nat j = Some (mk_cpu 0 None) ∧ mempage (mm s1) !! p = Some pg1 ∧
    supplied s (edit p (SetPageSlubFrozen pg1) (with_cache c (cache_cpu j (mk_cpu 0 (Some p)) k1) s1))
      G c j p.
Proof.
  intros Hs Hc Hj Hidle. pose proof Hidle as (Hk & Hst & Hno & Hv). unfold new_slab.
  rewrite (bind_Ok _ _ _ _ _ (get_cache_ok s c k Hk)), (st_order c k Hst).
  destruct (alloc_block_ok (mm s) SLABORDER (sv_mm s G Hs)) as (r & m & Hrun & Hm & Hr); [done|].
  erewrite bind_Ok by (unfold in_mm; rewrite Hrun; reflexivity).
  destruct r as [p|]; [right|left; destruct Hr as [-> Hfl]; split; [by destruct s|by apply Hfl]].
  destruct Hr as (Hal & Hoo & _ & _). change (mk_sstate m _ _ _) with (with_mm m s).
  destruct (hole_page (nz m) p SLABORDER ltac:(done) (al_hole _ _ _ _ Hal)) as [pg Hpg].
  destruct (cache_facts c Hc) as (F1 & F2 & F3 & F4 & F5 & _). pose proof Hst as [E1 E2 E3 _ E5 _].
  destruct (new_slab_init_ok (with_mm m s) c p k pg Hk) as (lk & Hinit & Hch & Hlk);
    [congruence|congruence|congruence|lia|congruence|by apply slab_frame_of; [|apply Hal]|apply Hm|done|].
  rewrite E1, E3, E5 in Hch. cbn [kmalloc_caches with_mm size_map mm] in Hinit.
  rewrite (bind_Ok _ _ _ _ _ Hinit). set (s2 := mk_sstate _ lk _ _).
  assert (Hk2 : kc s2 c = Some k) by done.
  rewrite (bind_Ok _ _ _ _ _ (get_cache_ok s2 c k Hk2)).
  rewrite (bind_Ok _ _ _ _ _ (set_node_ok s2 c k Hk2 _ _ _)).
  set (k1 := cache_node _ _ _ k). exists p, (with_cache c k1 s2), k1, (new_slab_page c p pg).
  split_and!; [done|by eapply kc_with_eq|done|apply lookup_insert_eq|].
  pose proof (fresh_supplied s G c j p k m pg lk Hs Hc Hj Hidle Hm Hal Hoo Hpg Hlk Hch) as Hsup.
  unfold fresh_state in Hsup. unfold edit, with_mm, with_cache. cbn [mm links kmalloc_caches size_map s2].
  rewrite list_insert_insert_eq. unfold with_page in *. cbn [mempage zone_normal zone_high m_max_pfn mem tlb].
  rewrite insert_insert_eq. exact Hsup.
Qed.

(** ** Allocation *)

Section alloc.
Context (c j : Z).
Hypothesis (Hc : 0 ≤ c < NCACHES) (Hj : 0 ≤ j < CPUNUMS).

(** The outcome of an allocation: a new live object, or none because no block of
    [2^SLABORDER] free frames is left. *)
Definition alloc_result (s : sstate) (G : gmap Z sinfo) (a : Z) (s' : sstate) : Prop :=
  ∃ G', slab_inv hd s' G' ∧
    if decide (a = 0)
    then (∀ c' b, live G' c' b ↔ live G c' b) ∧ fl (nz (mm s)) SLABORDER = []
    else handed G G' c a.

Lemma handed_result s G a s' G' : slab_inv hd s' G' → handed G G' c a → alloc_result s G a s'.
Proof. intros Hs Hh. exists G'. split; [done|]. rewrite decide_False; [done|apply Hh]. Qed.

Lemma handed_same G G1 G2 a :
  (∀ c' b, live G1 c' b ↔ live G c' b) → handed G1 G2 c a → handed G G2 c a.
Proof.
  intros E (H0 & H1 & H2). split_and!; [done| |].
  - intros c'. rewrite <- E. apply H1.
  - intros c' b. rewrite H2, E. done.
Qed.

Lemma supplied_alloc fuel s s' G p :
  supplied s s' G c j p →
  ∃ a s2, _slab_alloc (S fuel) c j false s' = Ok (a, s2) ∧ alloc_result s G a s2.
Proof.
  intros (G' & i & k & Hs' & Hh & Hpf & E).
  destruct (load_slab_ok s' G' c j Hs' Hj fuel p i k Hh Hpf) as (a & s2 & G2 & Hrun & Hs2 & Ha).
  exists a, s2. split; [done|]. eapply handed_result; [done|]. by eapply handed_same.
Qed.

(** The label [new_slab]. *)
Lemma at_new_ok fuel s G k :
  slab_inv hd s G → idle s G c j k →
  ∃ a s', _slab_alloc (S (S fuel)) c j true s = Ok (a, s') ∧ alloc_result s G a s'.
Proof.
  intros Hs Hidle. pose proof Hidle as (Hk & _ & _ & Hv).
  set (f := S fuel). cbn [_slab_alloc]. destruct (partial k) as [|p pl] eqn:Epl.
  - rewrite (bind_Ok _ _ _ _ _ (get_partial_none s G c j k Hidle Epl)).
    rewrite (bind_Ok _ _ _ _ _ (get_cpu_ok s c k Hk j _ Hv)).
    destruct (new_slab_ok s G c j k Hs Hc Hj Hidle)
      as [[Hrun Hfl]|(p & s1 & k1 & pg1 & Hrun & Hk1 & Hv1 & Hpg1 & Hsup)];
      rewrite (bind_Ok _ _ _ _ _ Hrun).
    + rewrite (bind_Ok _ _ _ _ _ (get_cpu_ok s c k Hk j _ Hv)). exists 0, s. split; [done|].
      exists G. rewrite decide_True by done. done.
    + rewrite (bind_Ok _ _ _ _ _ (get_cpu_ok s1 c k1 Hk1 j _ Hv1)).
      rewrite (bind_Ok _ _ _ _ _ (set_cpu_ok s1 c k1 Hk1 j _)).
      rewrite (bind_Ok _ _ _ _ _ (edit_page_ok (with_cache c _ s1) p pg1 _ Hpg1)).
      by eapply supplied_alloc.
  - destruct (get_partial_some s G c j k Hs Hc Hj Hidle p pl Epl) as (s1 & k1 & Hrun & Hk1 & Hv1 & Hsup).
    rewrite (bind_Ok _ _ _ _ _ Hrun), (bind_Ok _ _ _ _ _ (get_cpu_ok s1 c k1 Hk1 j _ Hv1)).
    rewrite (bind_Ok _ _ _ _ _ (set_cpu_ok s1 c k1 Hk1 j _)). by eapply supplied_alloc.
Qed.

Lemma slab_alloc_ok s G :
  slab_inv hd s G → ∃ a s', slab_alloc c j s = Ok (a, s') ∧ alloc_result s G a s'.
Proof.
  intros Hs. destruct (entry_exists s G c j Hs Hc Hj) as (k & [f pg] & Hk & Hst & Hno & Hv & Hok).
  unfold cpu_ok in Hok. simpl in Hok. destruct (decide (f = 0)) as [->|Hf].
  - unfold slab_alloc. rewrite (bind_Ok _ _ _ _ _ (get_cpu_ok s c k Hk j _ Hv)). cbn [cpu_freelist cpu_page].
    rewrite (bool_decide_true (0 = 0)) by done. destruct pg as [p|].
    + destruct Hok as (i & HG & Hic & Hcpu & Hch). apply fchain_zero in Hch.
      rewrite bool_decide_false by done.
      assert (Hh : holds s G c j p i k) by (unfold holds; split_and!; done).
      destruct (decide (si_pf i = [])) as [Hpf|Hpf].
      * destruct (deactivate_ok s G c j Hs Hc Hj p i k Hh Hpf)
          as (s1 & G1 & k1 & Hrun & Hs1 & _ & Hk1 & Hst1 & Hno1 & Hz & Hv1 & E).
        destruct (sv_slabs s G Hs p i HG) as [_ _ (pg & Hpg & Hsp) _ _ _].
        pose proof (sp_chain s i pg Hsp) as Hch'. rewrite Hpf in Hch'.
        unfold SLAB_FUEL. set (f := 3%nat). cbn [_slab_alloc].
        rewrite (bind_Ok _ _ _ _ _ (get_cpu_ok s c k Hk j _ Hv)). erewrite bind_Ok by reflexivity.
        rewrite (bind_Ok _ _ _ _ _ (load_page_ok s p pg Hpg)). cbv zeta.
        rewrite bool_decide_true by exact Hch'. rewrite (bind_Ok _ _ _ _ _ Hrun).
        destruct (at_new_ok 1 s1 G1 k1 Hs1) as (a & s2 & Hrun2 & G2 & Hs2 & Ha); [done|].
        exists a, s2. split; [exact Hrun2|]. exists G2. split; [done|]. case_decide.
        -- destruct Ha as [Ha Hfl]. split; [intros c' b; by rewrite Ha, E|].
           unfold fl, zone_view in *. cbn [zn] in *. by rewrite <- Hz.
        -- by eapply handed_same.
      * destruct (load_slab_ok s G c j Hs Hj 3 p i k Hh Hpf) as (a & s2 & G2 & Hrun & Hs2 & Ha).
        exists a, s2. split; [exact Hrun|]. by eapply handed_result.
    + rewrite bool_decide_true by done. by eapply at_new_ok.
  - destruct pg as [p|]; [|done]. destruct Hok as (i & HG & Hic & Hcpu & Hch).
    destruct (slab_alloc_pop s G c j Hs Hj k _ p i Hk Hst Hno Hv Hf eq_refl HG Hic Hcpu Hch)
      as (s' & G' & Hrun & Hs' & Ha).
    exists f, s'. split; [done|]. by eapply handed_result.
Qed.
End alloc.

(** ** Release *)

Lemma store_link_ok s a off v :
  store_link a off v s = Ok (tt, set_link (link_addr a off) v s).
Proof. done. Qed.

Section free.
Context (s : sstate) (G : gmap Z sinfo) (p a : Z) (i : sinfo) (k : mem_cache) (pg : page).
Hypothesis (Hs : slab_inv hd s G) (HG : G !! p = Some i) (Ha : live_in p i a).
Hypothesis (Hk : kc s (si_c i) = Some k) (Hst : static (si_c i) k) (Hno : node_ok G (si_c i) k).
Hypothesis (Hpg : mempage (mm s) !! p = Some pg) (Hsp : slab_page s i pg).

Abbreviation c := (si_c i).
Abbreviation la := (link_addr a (coff c)).

Lemma free_cache : 0 ≤ c < NCACHES.
Proof. apply (sv_slabs s G Hs p i HG). Qed.

Lemma free_frame : slab_frame (m_max_pfn (mm s)) p.
Proof. apply (slab_inv_frames s G Hs p i HG). Qed.

Lemma free_links v x : ¬ in_slab p x → <[la := v]> (links s) !! x = links s !! x.
Proof.
  intros Hx. apply lookup_insert_ne. intros <-. apply Hx.
  destruct (slab_link c p a _ free_cache free_frame (proj1 Ha)) as (-> & ? & _). done.
Qed.

Lemma free_parts :
  NoDup (a :: sfree i) ∧ (∀ b, b ∈ a :: sfree i → b ∈ slab_objs c p) ∧ a ∉ si_pf i ∧ a ∉ si_cf i ∧
  (∀ b, b ∈ si_pf i → b ∈ slab_objs c p) ∧ (∀ b, b ∈ si_cf i → b ∈ slab_objs c p).
Proof.
  destruct (sv_slabs s G Hs p i HG) as [_ _ _ Hnd Hobj _]. destruct Ha as [Ha1 Ha2].
  pose proof Ha2 as Ha3. unfold sfree in Ha3. apply not_elem_of_app in Ha3 as [? ?].
  split_and!; [by constructor| |done|done| |].
  - intros b [->|Hb]%elem_of_cons; auto.
  - intros b Hb. apply Hobj, elem_of_app. by left.
  - intros b Hb. apply Hobj, elem_of_app. by right.
Qed.

Lemma free_count : Z.of_nat (length (sfree i)) + 1 ≤ cobjs c ≤ SLAB_BYTES.
Proof.
  destruct free_parts as (Hnd & Hobj & _). pose proof free_cache as Hc.
  pose proof (submseteq_length _ _ (NoDup_submseteq _ _ Hnd Hobj)) as H. simpl in H.
  pose proof (slab_objs_length c p Hc). pose proof (cache_facts c Hc). split; [lia|nia].
Qed.

(** The object goes to the free list of the processor. *)
Lemma free_to_cpu j v :
  0 ≤ j < CPUNUMS → cpu_slab k !! Z.to_nat j = Some v → cpu_page v = Some p →
  si_cpu i = Some j → fchain (links s) (coff c) (cpu_freelist v) (si_cf i) →
  slab_inv hd (with_cache c (cache_cpu j (mk_cpu a (Some p)) k) (set_link la (cpu_freelist v) s))
    (<[p := mk_sinfo c (si_pf i) (a :: si_cf i) (Some j)]> G).
Proof.
  intros Hj Hv Hvp Hcpu Hch. destruct free_parts as (Hnd & Hobj & Hnp & Hnc & Hop & Hoc).
  destruct (partial_kept G c k p i Hno HG ltac:(eauto)) as (Hpnd & Hpn & Hpl).
  pose proof free_cache as Hc. pose proof free_frame as Hf.
  set (i' := mk_sinfo c (si_pf i) (a :: si_cf i) (Some j)).
  assert (Hperm : sfree i' ≡ₚ a :: sfree i) by (unfold sfree; simpl; by rewrite Permutation_middle).
  pose proof (local_frozen s G p c i i' k pg pg (<[la := cpu_freelist v]> (links s)) Hs HG eq_refl
    eq_refl Hk Hpg (like_refl pg) (free_links _)) as H.
  unfold local_state in H. rewrite (edit_same _ _ _ Hpg) in H. rewrite <- (cache_node_id k).
  apply H with (v := v); try done; clear H.
  - destruct Hsp. split; simpl; try done.
    + by rewrite sp_frozen, Hcpu.
    + eapply fchain_store; [done|done|apply Ha|done|done|done].
  - by rewrite Hperm.
  - intros b Hb. apply Hobj. by rewrite <- Hperm.
  - by right.
  - congruence.
  - eapply fchain_push; [done|done|apply Ha|done|done|done].
Qed.

(** The object goes to the free list of the page. *)
Definition freed_page : page := set_inuse (i32 (inuse pg - 1)) (set_freelist a pg).
Definition freed_state : sstate := edit p freed_page (set_link la (freelist pg) s).
Definition freed_info : sinfo := mk_sinfo c (a :: si_pf i) (si_cf i) (si_cpu i).

Lemma freed_inuse : inuse freed_page = cobjs c - Z.of_nat (length (si_pf i)) - 1.
Proof.
  pose proof free_count as H. unfold sfree in H. rewrite length_app in H.
  unfold freed_page, SLAB_BYTES in *. cbn [inuse set_inuse]. rewrite (sp_inuse s i pg Hsp).
  apply i32_small. lia.
Qed.

Lemma freed_slab_page k' : slab_page (local_state s p c freed_page (<[la := freelist pg]> (links s)) k') freed_info freed_page.
Proof.
  destruct free_parts as (Hnd & Hobj & Hnp & Hnc & Hop & Hoc). destruct Hsp.
  split; [done|done|done| |].
  - eapply fchain_push; [apply free_cache|apply free_frame|apply Ha|done|done|done].
  - rewrite freed_inuse. simpl. lia.
Qed.

Lemma free_to_frozen j :
  si_cpu i = Some j → slab_inv hd freed_state (<[p := freed_info]> G).
Proof.
  intros Hcpu. destruct free_parts as (Hnd & Hobj & Hnp & Hnc & Hop & Hoc).
  pose proof free_cache as Hc. pose proof free_frame as Hf.
  destruct (sv_slabs s G Hs p i HG) as [_ _ _ _ _ Hso]. rewrite Hcpu in Hso.
  destruct Hso as (Hj & v & Hv & Hvp). unfold cpuv in Hv. rewrite Hk in Hv. simpl in Hv.
  destruct (partial_kept G c k p i Hno HG ltac:(eauto)) as (Hpnd & Hpn & Hpl).
  pose proof (sv_cpus s G Hs c j v Hc Hj) as Hcv. unfold cpuv, cpu_ok in Hcv. rewrite Hk, Hvp in Hcv.
  destruct (Hcv Hv) as (i0 & HG0 & _ & _ & Hch). rewrite HG in HG0. injection HG0 as <-.
  pose proof (local_frozen s G p c i freed_info k pg freed_page (<[la := freelist pg]> (links s)) Hs HG
    eq_refl eq_refl Hk Hpg (like_lists pg _ _) (free_links _) (freed_slab_page k) Hnd Hobj j v v
    (partial k) (npartial k) (nslub k) Hj Hv (or_intror Hvp) ltac:(congruence) Hcpu Hvp) as H.
  unfold local_state in H. rewrite cache_node_id, (cache_cpu_id _ _ _ Hv), list_insert_id in H by done.
  apply H; [|done..]. eapply fchain_store; [done|done|apply Ha|done|done|done].
Qed.

Lemma free_to_partial pl np ns :
  si_cpu i = None → Z.of_nat (length (si_pf i)) + 1 < cobjs c →
  NoDup pl → np = Z.of_nat (length pl) → (∀ q, q ∈ pl ↔ q ∈ partial k ∨ q = p) →
  slab_inv hd (with_cache c (cache_node pl np ns k) freed_state) (<[p := freed_info]> G).
Proof.
  intros Hcpu Hlt Hpnd Hpn Hpl. destruct free_parts as (Hnd & Hobj & _).
  destruct (sv_slabs s G Hs p i HG) as [_ _ _ _ _ Hso]. rewrite Hcpu in Hso. destruct Hso as [Hcf _].
  apply (local_unfrozen s G p c i freed_info k pg freed_page (<[la := freelist pg]> (links s)) Hs HG
    eq_refl eq_refl Hk Hpg (like_lists pg _ _) (free_links _) (freed_slab_page k) Hnd Hobj);
    try done. unfold freed_info. cbn [length si_pf]. lia.
Qed.
End free.

Section discard.
Context (s : sstate) (G : gmap Z sinfo) (p a : Z) (i : sinfo) (k : mem_cache) (pg : page).
Hypothesis (Hs : slab_inv hd s G) (HG : G !! p = Some i) (Ha : live_in p i a).
Hypothesis (Hk : kc s (si_c i) = Some k) (Hst : static (si_c i) k) (Hno : node_ok G (si_c i) k).
Hypothesis (Hpg : mempage (mm s) !! p = Some pg) (Hsp : slab_page s i pg).
Hypothesis (Hcpu : si_cpu i = None) (Hlast : Z.of_nat (length (si_pf i)) + 1 = cobjs (si_c i)).

(** The last object of a slab has been freed: the slab leaves the list of partial
    slabs and its frames go back to the buddy allocator. *)
Lemma discard_last :
  ∃ s', (remove_partial (si_c i) p ;; discard_slab (si_c i) p) (freed_state s p a i pg) = Ok (tt, s') ∧
    slab_inv hd s' (delete p G).
Proof.
  destruct (free_parts s G p a i Hs HG Ha) as (Hnd & Hobj & _).
  destruct (sv_slabs s G Hs p i HG) as [Hc Hh _ _ _ Hso]. pose proof (cache_facts _ Hc).
  rewrite Hcpu in Hso. destruct Hso as [Hcf _]. pose proof Hno as [Hpnd Hpn Hel].
  set (c := si_c i) in *. set (s1 := freed_state s p a i pg).
  set (pl := list_remove_page p (partial k)).
  assert (Hin : p ∈ partial k).
  { apply Hel. exists i. split; [done|]. split_and!; [done|done|]. intros E. rewrite E in Hlast.
    change (Z.of_nat (length [])) with 0 in Hlast. lia. }
  assert (Hlen : npartial k - 1 = Z.of_nat (length pl)).
  { pose proof (filter_ne_length (partial k) p Hpnd Hin) as E. unfold pl, list_remove_page. lia. }
  pose proof (partial_bound s G c k Hs Hno) as Hbound.
  assert (Hk1 : kc s1 c = Some k) by done.
  assert (Hlike : like pg (freed_page a pg)) by apply like_lists.
  assert (Hm1 : mm_inv (mm s1)).
  { apply (mm_inv_page (mm s) p pg); [apply Hs| |done|done].
    by eapply (hole_not_free _ _ SLABORDER). }
  assert (Hh1 : hole (nz (mm s1)) p SLABORDER) by (by eapply hole_with_page).
  destruct (pages_free_ok (mm s1) p SLABORDER Hm1 ltac:(done) Hh1)
    as (m & Hrun & Hm & _ & _ & Hoo & Hfr).
  set (k2 := cache_node pl (npartial k - 1) (i32 (nslub k - 1)) k).
  exists (mk_sstate m (links s1) (<[Z.to_nat c := k2]> (kmalloc_caches s)) (size_map s)). split.
  - unfold remove_partial. rewrite bind_assoc, (bind_Ok _ _ _ _ _ (get_cache_ok s1 c k Hk1)).
    fold pl. rewrite i32_small by lia. rewrite (bind_Ok _ _ _ _ _ (set_node_ok s1 c k Hk1 _ _ _)).
    set (s2 := with_cache c _ s1). unfold discard_slab.
    assert (Hk2 : kc s2 c = Some (cache_node pl (npartial k - 1) (nslub k) k)) by (by eapply kc_with_eq).
    rewrite (bind_Ok _ _ _ _ _ (get_cache_ok s2 c _ Hk2)).
    rewrite (bind_Ok _ _ _ _ _ (set_node_ok s2 c _ Hk2 _ _ _)).
    unfold in_mm. cbn [c_order cache_node mm with_cache s2]. rewrite (st_order c k Hst), Hrun.
    unfold with_cache. cbn [links kmalloc_caches size_map s2 with_cache]. by rewrite list_insert_insert_eq.
  - apply (changed_inv s _ G _ p c k k2 Hs). split; try assumption; try reflexivity.
    + apply (free_frame s G p i Hs HG).
    + apply (ss_max _ _ (oo_shape _ _ Hoo)).
    + intros q iq Hq HGq. destruct (sv_slabs s G Hs q iq HGq) as [_ Hhq _ _ _ _]. split.
      * assert (Hhq1 : hole (nz (mm s1)) q SLABORDER) by (by eapply hole_with_page).
        eapply hole_transfer; [done| |done]. intros x Hx [Hf|Hb]%Hfr.
        -- by apply (ho_busy _ _ _ Hhq1 x).
        -- apply Hq. eapply (aligned_eq 0 q p SLABORDER x); [done| | |done|done];
             apply slab_frame_of in Hhq, Hh; try apply Hs; rewrite Z.sub_0_r; [apply Hhq|apply Hh].
      * etrans; [apply (oo_pages _ _ Hoo q)|]. simpl. by rewrite lookup_insert_ne.
    + intros q n Hn Hhq Hap. split.
      * assert (Hhq1 : hole (nz (mm s1)) q n) by (by eapply hole_with_page).
        eapply hole_transfer; [done| |done]. intros x Hx [Hf|Hb]%Hfr.
        -- by apply (ho_busy _ _ _ Hhq1 x).
        -- by apply (Hap p i x HG Hb).
      * intros p1 i1 x [_ HG1]%lookup_delete_Some. by apply (Hap p1 i1).
    + apply (free_links s G p a i Hs HG Ha).
    + by apply static_node.
    + intros j v Hj Hv. left. split; [done|]. intros E.
      pose proof (sv_cpus s G Hs c j v Hc Hj) as H1. unfold cpuv, cpu_ok in H1.
      rewrite Hk, E in H1. destruct (H1 Hv) as (i0 & HG0 & _ & Hcpu0 & _).
      rewrite HG in HG0. injection HG0 as <-. congruence.
    + intros j v q _ _ Hv _. done.
    + intros q Hq. by rewrite lookup_delete_ne.
    + intros i0 Hi0. rewrite HG in Hi0. by injection Hi0 as <-.
    + intros i0. by rewrite lookup_delete_eq.
    + simpl. by apply NoDup_filter.
    + intros q Hq. simpl. unfold pl, list_remove_page. rewrite list_elem_of_filter. naive_solver.
    + simpl. unfold pl, list_remove_page. rewrite list_elem_of_filter, lookup_delete_eq. naive_solver.
Qed.

Lemma discard_returned : returned G (delete p G) a.
Proof.
  destruct (free_parts s G p a i Hs HG Ha) as (Hnd & Hobj & _).
  destruct (sv_slabs s G Hs p i HG) as [Hc Hh _ _ _ Hso].
  rewrite Hcpu in Hso. destruct Hso as [Hcf _].
  assert (Hall : a :: sfree i ≡ₚ slab_objs (si_c i) p).
  { apply submseteq_length_Permutation; [by apply NoDup_submseteq|]. apply Nat2Z.inj_le.
    rewrite slab_objs_length by done. unfold sfree. rewrite Hcf, app_nil_r. cbn [length]. lia. }
  intros c b. split.
  - intros (q & iq & HGq & <- & Hl). apply lookup_delete_Some in HGq as [Hq HGq].
    split; [by exists q, iq|]. intros ->. apply Hq.
    destruct (slab_inv_frames s G Hs p i HG) as [Hcp Hfp].
    destruct (slab_inv_frames s G Hs q iq HGq) as [Hcq Hfq].
    eapply in_slab_unique; [done|done|eapply obj_in_slab; [..|apply Ha]; done|
      eapply obj_in_slab; [..|apply Hl]; done].
  - intros [(q & iq & HGq & <- & Hl) Hne]. destruct (decide (q = p)) as [->|Hq].
    + rewrite HG in HGq. injection HGq as <-. destruct Hl as [Hb Hn]. rewrite <- Hall in Hb.
      by apply elem_of_cons in Hb as [?|?].
    + exists q, iq. by rewrite lookup_delete_ne.
Qed.
End discard.

(** [_slab_free] on every branch. *)
Lemma _slab_free_ok s G p a i pg :
  slab_inv hd s G → G !! p = Some i → live_in p i a → mempage (mm s) !! p = Some pg → slab_page s i pg →
  ∃ s' G', _slab_free (si_c i) p a s = Ok (tt, s') ∧ slab_inv hd s' G' ∧ returned G G' a.
Proof.
  intros Hs HG Ha Hpg Hsp. destruct (sv_slabs s G Hs p i HG) as [Hc Hh _ _ _ Hso].
  destruct (sv_caches s G Hs _ Hc) as (k & Hk & Hst & Hno). pose proof (slab_inv_frames s G Hs) as HF.
  destruct (free_parts s G p a i Hs HG Ha) as (Hnd & Hobj & Hnp & _).
  pose proof (free_count s G p a i Hs HG Ha) as Hct. unfold sfree in Hct. rewrite length_app in Hct.
  assert (Hret : returned G (<[p := freed_info a i]> G) a) by (by eapply live_returned; [| | |apply Ha|]).
  set (s1 := freed_state s p a i pg).
  assert (Hpg1 : mempage (mm s1) !! p = Some (freed_page a pg)) by apply lookup_insert_eq.
  assert (Hk1 : kc s1 (si_c i) = Some k) by done.
  pose proof (freed_inuse s G p a i pg Hs HG Ha Hsp) as Hin.
  pose proof (sp_chain s i pg Hsp) as Hch.
  unfold _slab_free. rewrite (bind_Ok _ _ _ _ _ (get_cache_ok s _ k Hk)).
  rewrite (bind_Ok _ _ _ _ _ (load_page_ok s p pg Hpg)). cbv zeta.
  rewrite (st_off _ k Hst), (bind_Ok _ _ _ _ _ (store_link_ok s a _ _)).
  rewrite (bind_Ok _ _ _ _ _ (edit_page_ok (set_link _ _ s) p pg _ Hpg)).
  fold (freed_page a pg). fold (freed_state s p a i pg). fold s1.
  rewrite (bind_Ok _ _ _ _ _ (load_page_ok s1 p _ Hpg1)).
  change (PageSlubFrozen (freed_page a pg)) with (PageSlubFrozen pg). rewrite (sp_frozen s i pg Hsp).
  destruct (si_cpu i) as [j|] eqn:Hcpu.
  - rewrite bool_decide_true by eauto. exists s1, (<[p := freed_info a i]> G). split_and!; [done| |done].
    by eapply free_to_frozen.
  - rewrite bool_decide_false by (by intros [? ?]). destruct Hso as [Hcf Hlt].
    rewrite Hcf in Hct. cbn [length] in Hct. pose proof (cache_facts _ Hc) as Hcf'.
    case_bool_decide as Hz; rewrite Hin in Hz.
    + rewrite bool_decide_true.
      2: { intros E. rewrite E in Hch. apply fchain_zero in Hch. rewrite Hch in Hz.
           change (Z.of_nat (length [])) with 0 in Hz. lia. }
      destruct (discard_last s G p a i k pg Hs HG Ha Hk Hst Hno Hpg Hcpu ltac:(lia)) as (s' & Hrun & Hs').
      exists s', (delete p G). split_and!; [exact Hrun|done|].
      eapply discard_returned; [done|done|done|done|lia].
    + case_bool_decide as Hp.
      * rewrite Hp in Hch. apply fchain_zero in Hch.
        assert (Hpi : p ∉ partial k).
        { intros (i0 & HG0 & _ & _ & Hne)%(no_elem G _ k Hno). rewrite HG in HG0.
          by injection HG0 as <-. }
        rewrite (bool_decide_true (inuse _ = _)).
        2: { rewrite Hin, Hch, (st_objs _ k Hst). change (Z.of_nat (length [])) with 0. lia. }
        rewrite (bind_Ok _ _ _ _ _ (assert_true true s1 eq_refl)).
        unfold add_partial. rewrite (bind_Ok _ _ _ _ _ (get_cache_ok s1 _ k Hk1)).
        rewrite (set_node_ok s1 _ k Hk1). eexists _, (<[p := freed_info a i]> G).
        split_and!; [done| |done].
        pose proof (partial_bound s G _ k Hs Hno) as Hb. rewrite (no_count G _ k Hno), i32_small by lia.
        eapply free_to_partial; try done.
        -- rewrite Hch. change (Z.of_nat (length [])) with 0. lia.
        -- constructor; [done|apply Hno].
        -- cbn [length]. lia.
        -- intros q. rewrite elem_of_cons. tauto.
      * exists s1, (<[p := freed_info a i]> G). split_and!; [done| |done].
        pose proof (free_to_partial s G p a i k pg Hs HG Ha Hk Hpg Hsp (partial k) (npartial k) (nslub k)
          Hcpu ltac:(lia) (no_nodup G _ k Hno) (no_count G _ k Hno)) as H.
        rewrite cache_node_id in H. unfold with_cache in H.
        change (kmalloc_caches (freed_state s p a i pg)) with (kmalloc_caches s) in H.
        rewrite list_insert_id in H by exact Hk. apply H. intros q. split; [by left|].
        intros [?| ->]; [done|]. apply (no_elem G _ k Hno). exists i. split; [done|].
        split_and!; [done|done|]. intros E. rewrite E in Hch. done.
Qed.

Lemma kfree_ok s G j c a :
  slab_inv hd s G → 0 ≤ j < CPUNUMS → live G c a →
  ∃ s' G', kfree j a s = Ok (tt, s') ∧ slab_inv hd s' G' ∧ returned G G' a.
Proof.
  intros Hs Hj (p & i & HG & <- & Ha). pose proof (slab_inv_frames s G Hs) as HF.
  destruct (HF p i HG) as [Hc Hf]. destruct (obj_in_slab _ _ _ _ Hc Hf (proj1 Ha)) as [Hin H0].
  destruct (sv_slabs s G Hs p i HG) as [_ _ (pg & Hpg & Hsp) _ _ _].
  unfold kfree. rewrite bool_decide_false by done. run_step.
  assert (Hget : get_slab (m_max_pfn (mm s)) a = Ok p).
  { replace a with (slab_base p + (a - slab_base p)) by lia. apply get_slab_ok; [done|].
    unfold in_slab in Hin. lia. }
  rewrite (bind_Ok _ _ _ _ _ (lift_Ok _ _ _ Hget)), (bind_Ok _ _ _ _ _ (load_page_ok s p pg Hpg)).
  rewrite (sp_cache s i pg Hsp). unfold slab_free.
  rewrite (bind_Ok _ _ _ _ _ (load_page_ok s p pg Hpg)), (sp_flag s i pg Hsp). cbn [negb].
  destruct (entry_exists s G _ j Hs Hc Hj) as (k & v & Hk & Hst & Hno & Hv & Hok).
  rewrite (bind_Ok _ _ _ _ _ (get_cpu_ok s _ k Hk j v Hv)). case_bool_decide as Hvp.
  - unfold cpu_ok in Hok. rewrite Hvp in Hok. destruct Hok as (i0 & HG0 & _ & Hcpu & Hch).
    rewrite HG in HG0. injection HG0 as <-.
    rewrite (bind_Ok _ _ _ _ _ (get_cache_ok s _ k Hk)), (st_off _ k Hst).
    rewrite (bind_Ok _ _ _ _ _ (store_link_ok s a _ _)), Hvp.
    rewrite (set_cpu_ok (set_link _ _ s) _ k Hk).
    eexists _, (<[p := mk_sinfo (si_c i) (si_pf i) (a :: si_cf i) (Some j)]> G). split_and!; [done| |].
    + by eapply free_to_cpu.
    + eapply live_returned; [done|done|done|apply Ha|]. unfold sfree. simpl.
      by rewrite Permutation_middle.
  - by apply (_slab_free_ok s G p a i pg).
Qed.
End held.
