(* ===== verification/SlabClients.v ===== *)
(** * The slab allocator beside the other users of frames

    A step relation for a kernel that calls [kmalloc], [kfree], [pages_alloc] and
    [pages_free] in any order on any processor, and what holds in every state it
    reaches from boot. *)

From S2P Require Import Prelude Layout Buddy BuddyProofs Paging PagingProofs Slab SlabProofs SlabInv SlabSafety.

Local Open Scope Z_scope.

(** ** Clients

    The kernel allocates and frees objects on any processor, and blocks of frames
    beside them.  A client state: the objects in use with the size that was asked
    for, and the blocks of frames in use. *)

Abbreviation cstate := (sstate * gmap Z Z * list (Z * Z))%type.

Inductive slab_step : cstate → cstate → Prop :=
  | step_kmalloc s L hd cpu sz a s' :
      0 ≤ cpu < CPUNUMS → kmalloc cpu sz s = Ok (a, s') →
      slab_step (s, L, hd) (s', if decide (a = 0) then L else <[a := sz]> L, hd)
  | step_kfree s L hd cpu a sz s' :
      0 ≤ cpu < CPUNUMS → L !! a = Some sz → kfree cpu a s = Ok (tt, s') →
      slab_step (s, L, hd) (s', delete a L, hd)
  | step_pages_alloc s L hd n r s' :
      0 ≤ n < MAXORDER → in_mm (pages_alloc _GFP_ZERO n) s = Ok (r, s') →
      slab_step (s, L, hd) (s', L, match r with Some p => (p, n) :: hd | None => hd end)
  | step_pages_free s L hd hd' p n s' :
      hd ≡ₚ (p, n) :: hd' → in_mm (pages_free p n) s = Ok (tt, s') →
      slab_step (s, L, hd) (s', L, hd').

Record objects_inv (s : sstate) (L : gmap Z Z) (hd : list (Z * Z)) (G : gmap Z sinfo) : Prop := {
  oi_inv : slab_inv hd s G;
  oi_live : ∀ a sz, L !! a = Some sz → ∃ c, live G c a ∧ 1 ≤ sz ≤ csz c;
  oi_all : ∀ c a, live G c a → is_Some (L !! a);
  oi_held : NoDup (held_pages hd);
}.

Definition client_ok (x : cstate) : Prop := ∃ G, objects_inv x.1.1 x.1.2 x.2 G.

Lemma size_cache sz :
  1 ≤ sz ≤ PAGE_SIZE → ∃ c, size_map_init !! Z.to_nat sz = Some c ∧ 0 ≤ c < NCACHES ∧ sz ≤ csz c.
Proof.
  intros Hsz. destruct (size_map_smallest_fit sz Hsz) as (c & Hl & Hc & cs & Hcs & Hle & _).
  exists c. unfold csz, NCACHES. rewrite Hcs. split_and!; [done|done| |done].
  apply lookup_lt_Some in Hcs. simpl in Hcs. lia.
Qed.

(** [kmalloc] on every branch. *)
Lemma kmalloc_ok hd s G cpu sz :
  slab_inv hd s G → 0 ≤ cpu < CPUNUMS →
  ∃ a s', kmalloc cpu sz s = Ok (a, s') ∧
    (¬ (1 ≤ sz ≤ PAGE_SIZE) ∧ a = 0 ∧ s' = s ∨
     1 ≤ sz ≤ PAGE_SIZE ∧ ∃ c, 0 ≤ c < NCACHES ∧ sz ≤ csz c ∧ @alloc_result hd c s G a s').
Proof.
  intros Hs Hcpu. unfold kmalloc. case_bool_decide as H0; [exists 0, s; split; [done|left; split_and!; [lia|done|done]]|].
  case_bool_decide as H1; [exists 0, s; split; [done|left; split_and!; [lia|done|done]]|].
  destruct (size_cache sz ltac:(lia)) as (c & Hl & Hc & Hle). run_step.
  rewrite (bind_Ok _ _ _ _ _ (of_option_Some (size_map s !! Z.to_nat sz) c s ltac:(by rewrite (sv_map s G Hs)))).
  destruct (slab_alloc_ok c cpu Hc Hcpu s G Hs) as (a & s' & Hrun & Ha).
  exists a, s'. split; [done|]. right. split; [lia|].
  exists c. split; [exact Hc|split; [exact Hle|exact Ha]].
Qed.

Lemma step_kmalloc_inv s L hd G cpu sz a s' :
  objects_inv s L hd G → 0 ≤ cpu < CPUNUMS → kmalloc cpu sz s = Ok (a, s') →
  client_ok (s', if decide (a = 0) then L else <[a := sz]> L, hd).
Proof.
  intros [Hs Hlv Hall Hap] Hcpu Hrun.
  destruct (kmalloc_ok hd s G cpu sz Hs Hcpu) as (a0 & s0 & Hrun0 & H). rewrite Hrun in Hrun0.
  injection Hrun0 as <- <-.
  destruct H as [(_ & -> & ->)|(Hsz & c & Hc & Hle & G' & Hs' & Ha)]; [by exists G|].
  exists G'. simpl. destruct (decide (a = 0)).
  - destruct Ha as [Ha _]. split; [done| | |done].
    + intros b szb Hb. destruct (Hlv b szb Hb) as (cb & ? & ?). exists cb. by rewrite Ha.
    + intros cb b. rewrite Ha. apply Hall.
  - destruct Ha as (_ & Hnew & Ha). split; [done| | |done].
    + intros b szb Hb. destruct (decide (b = a)) as [->|Hne].
      * rewrite lookup_insert_eq in Hb. injection Hb as <-. exists c. rewrite Ha. split; [auto|lia].
      * rewrite lookup_insert_ne in Hb by done. destruct (Hlv b szb Hb) as (cb & ? & ?). exists cb.
        rewrite Ha. auto.
    + intros cb b [Hb|[-> ->]]%Ha; [|rewrite lookup_insert_eq; eauto].
      rewrite lookup_insert. case_decide; eauto.
Qed.

Lemma step_kfree_inv s L hd G cpu a sz s' :
  objects_inv s L hd G → 0 ≤ cpu < CPUNUMS → L !! a = Some sz → kfree cpu a s = Ok (tt, s') →
  client_ok (s', delete a L, hd).
Proof.
  intros [Hs Hlv Hall Hap] Hcpu HL Hrun. destruct (Hlv a sz HL) as (c & Hl & _).
  destruct (kfree_ok s G cpu c a Hs Hcpu Hl) as (s0 & G' & Hrun0 & Hs' & Hr). rewrite Hrun in Hrun0.
  injection Hrun0 as <-. exists G'. cbn [fst snd]. split; [done| | |done].
  - intros b szb [Hne Hb]%lookup_delete_Some. destruct (Hlv b szb Hb) as (cb & ? & ?). exists cb.
    rewrite (Hr cb b). auto.
  - intros cb b [Hb Hne]%Hr. simpl. rewrite lookup_delete_ne by done. by eapply Hall.
Qed.

(** The invariant when the buddy allocator serves another client. *)
Lemma slab_inv_mm hd hd' s G m :
  slab_inv hd s G → mm_inv m → only_orders (nz (mm s)) (nz m) →
  (∀ p i, G !! p = Some i → ∀ x, in_blk p SLABORDER x → ¬ free_page (nz m) x) →
  (∀ q n, (q, n) ∈ hd' → 0 ≤ n < MAXORDER ∧ hole (nz m) q n ∧ apart G q n) →
  slab_inv hd' (with_mm m s) G.
Proof.
  intros Hs Hm Hoo Hfree Hheld. split; [done|apply Hs|apply Hs|apply Hs| |done].
  intros p i HG. destruct (sv_slabs s G Hs p i HG) as [H1 H2 (pg & Hpg & Hsp) H4 H5 H6].
  split; [done| | |done|done|done].
  - eapply hole_transfer; [done| |done]. by eapply Hfree.
  - pose proof (oo_pages _ _ Hoo p) as E. simpl in E. rewrite Hpg in E. simpl in E.
    destruct (mempage m !! p) as [pg'|] eqn:Epg; [|done]. injection E as ? Efl Esl Efr Ein.
    exists pg'. split; [done|]. destruct Hsp.
    split; unfold PageSlubFrozen in *; rewrite ?Efl, ?Esl, ?Efr, ?Ein; done.
Qed.

Lemma step_alloc_inv s L hd G n r s' :
  objects_inv s L hd G → 0 ≤ n < MAXORDER → in_mm (pages_alloc _GFP_ZERO n) s = Ok (r, s') →
  client_ok (s', L, match r with Some p => (p, n) :: hd | None => hd end).
Proof.
  intros [Hs Hlv Hall Hap] Hn Hrun.
  destruct (alloc_block_ok (mm s) n (sv_mm s G Hs) Hn) as (r0 & m & Hrun0 & Hm & Hr).
  unfold in_mm in Hrun. rewrite Hrun0 in Hrun. injection Hrun as <- <-.
  destruct r0 as [p|]; [|destruct Hr as [-> _]; exists G; by destruct s].
  destruct Hr as ([Hhole Hwas Hf] & Hoo & _ & _). exists G. simpl.
  assert (Hnew : ∀ q k, hole (nz (mm s)) q k → ∀ x, in_blk q k x → ¬ in_blk p n x).
  { intros q k Hq x Hx Hpx. apply (ho_busy _ _ _ Hq x Hx). auto. }
  assert (Hold : ∀ q k, hole (nz (mm s)) q k → ∀ x, in_blk q k x → ¬ free_page (nz m) x).
  { intros q k Hq x Hx [Hfx _]%Hf. by apply (ho_busy _ _ _ Hq x Hx). }
  split; [|done|done|].
  - apply (slab_inv_mm hd); [done|done|done| |].
    + intros q i HG. apply Hold, (sv_slabs s G Hs q i HG).
    + intros q k [[= -> ->]|Hin]%elem_of_cons.
      * split_and!; [lia|lia|done|]. intros q i x HG Hx. apply (Hnew q SLABORDER); [|done].
        apply (sv_slabs s G Hs q i HG).
      * destruct (sv_held s G Hs q k Hin) as (Hk & Hh & Ha). split_and!; [lia|lia| |done].
        eapply hole_transfer; [done| |done]. by apply Hold.
  - unfold held_pages. cbn [mbind list_bind]. apply NoDup_app. split_and!; [apply NoDup_seqZ| |done].
    intros x Hx%elem_of_seqZ (q & k & Hin & Hq)%elem_of_held.
    destruct (sv_held s G Hs q k Hin) as (_ & Hh & _). by apply (Hnew q k Hh x).
Qed.

Lemma step_free_inv s L hd hd' G p n s' :
  objects_inv s L hd G → hd ≡ₚ (p, n) :: hd' → in_mm (pages_free p n) s = Ok (tt, s') →
  client_ok (s', L, hd').
Proof.
  intros [Hs Hlv Hall Hnd] Hp Hrun.
  destruct (sv_held s G Hs p n) as (Hn & Hhole & Hap); [rewrite Hp; by left|].
  destruct (pages_free_ok (mm s) p n (sv_mm s G Hs) Hn Hhole) as (m & Hrun0 & Hm & _ & _ & Hoo & Hf).
  unfold in_mm in Hrun. rewrite Hrun0 in Hrun. injection Hrun as <-.
  assert (Hpp : held_pages hd ≡ₚ held_pages ((p, n) :: hd')) by (by apply bind_Permutation).
  rewrite Hpp in Hnd. unfold held_pages in Hnd. cbn [mbind list_bind] in Hnd.
  apply NoDup_app in Hnd as (_ & Hdis & Hnd). exists G. split; [|done|done|done].
  apply (slab_inv_mm hd); [done|done|done| |].
  - intros q i HG x Hx [Hfx|Hb]%Hf; [|by apply (Hap q i x HG Hx)].
    by apply (ho_busy _ _ _ (so_hole _ _ _ (sv_slabs s G Hs q i HG)) x Hx).
  - intros q k Hin. destruct (sv_held s G Hs q k) as (Hk & Hh & Ha); [rewrite Hp; by right|].
    split_and!; [lia|lia| |done]. eapply hole_transfer; [done| |done].
    intros x Hx [Hfx|Hb]%Hf; [by apply (ho_busy _ _ _ Hh x Hx)|].
    apply (Hdis x); [by apply elem_of_seqZ|]. apply elem_of_held. by exists q, k.
Qed.

Lemma slab_step_inv x y : client_ok x → slab_step x y → client_ok y.
Proof.
  intros [G H] Hst. destruct Hst; simpl in H.
  - by eapply step_kmalloc_inv.
  - by eapply step_kfree_inv.
  - by eapply step_alloc_inv.
  - by eapply step_free_inv.
Qed.

Lemma slab_init_inv m : mm_inv m → client_ok (slab_init m, ∅, []).
Proof.
  intros Hm. exists ∅. split; simpl; [|done| |constructor].
  - split; simpl; [done|done| | |done|].
    + intros c Hc. exists (proto c). unfold kc. cbn [kmalloc_caches slab_init].
      unfold kmem_cache_init. rewrite list_lookup_fmap.
      assert (Hl : cache_size !! Z.to_nat c = Some (csz c)).
      { unfold csz. destruct (lookup_lt_is_Some_2 cache_size (Z.to_nat c)) as [x Hx];
          [unfold NCACHES in Hc; simpl; lia|]. by rewrite Hx. }
      rewrite Hl. split_and!; [done| |].
      * by split.
      * split; [constructor|done|]. intros p. split; [|intros (i & Hi & _); by rewrite lookup_empty in Hi].
        intros Hp. by apply elem_of_nil in Hp.
    + intros c j v Hc Hj Hv. unfold cpuv, kc in Hv. cbn [kmalloc_caches slab_init] in Hv.
      unfold kmem_cache_init in Hv. rewrite list_lookup_fmap in Hv.
      destruct (cache_size !! Z.to_nat c); [|done]. simpl in Hv. unfold percpu_cache_init in Hv.
      apply lookup_replicate in Hv as [-> _]. done.
    + intros q n Hin. by apply elem_of_nil in Hin.
  - intros c a (p & i & Hi & _). by rewrite lookup_empty in Hi.
Qed.

Lemma slab_reach m x : mm_inv m → rtc slab_step (slab_init m, ∅, []) x → client_ok x.
Proof.
  intros Hm. apply (rtc_ind_r (λ x, client_ok x)); [by apply slab_init_inv|].
  intros y z _ Hst Hy. by eapply slab_step_inv.
Qed.

(** ** The properties *)

Lemma live_bounds hd s G c a :
  slab_inv hd s G → live G c a → 0 ≤ c < NCACHES ∧
  ∃ p i, G !! p = Some i ∧ si_c i = c ∧ a ∈ slab_objs c p ∧ slab_base p ≤ a ∧
    a + csize c ≤ slab_base p + SLAB_BYTES ∧ slab_frame (m_max_pfn (mm s)) p.
Proof.
  intros Hs (p & i & HG & <- & Ha & _). destruct (slab_inv_frames s G Hs p i HG) as [Hc Hf].
  destruct (slab_objs_range _ _ _ Hc Ha). split; [done|]. exists p, i. split_and!; try done; apply Hf.
Qed.

(** Live objects of all caches are apart, the link words behind them included. *)
Lemma slab_live_apart hd s G c a c' b :
  slab_inv hd s G → live G c a → live G c' b → a ≠ b → a + csize c ≤ b ∨ b + csize c' ≤ a.
Proof.
  intros Hs Ha Hb Hne.
  destruct (live_bounds hd s G c a Hs Ha) as (Hc & p & i & HG & Hi & Hin & Hlo & Hhi & Hf).
  destruct (live_bounds hd s G c' b Hs Hb) as (Hc' & q & i' & HG' & Hi' & Hin' & Hlo' & Hhi' & Hf').
  destruct (decide (p = q)) as [->|Hpq].
  - rewrite HG in HG'. injection HG' as <-. subst c'. rewrite Hi in *. by eapply slab_objs_apart.
  - destruct Hf as (_ & [x ->] & _), Hf' as (_ & [y ->] & _).
    unfold slab_base, SLAB_BYTES, PAGE_SIZE in *. change (2 ^ SLABORDER) with 1024 in *. lia.
Qed.

(** The frames under an object are busy and not held by another user. *)
Lemma live_frame hd s G c a x :
  slab_inv hd s G → live G c a → a ≤ x < a + csize c →
  ¬ free_page (nz (mm s)) (frame_of x) ∧ frame_of x ∉ held_pages hd.
Proof.
  intros Hs Ha Hx.
  destruct (live_bounds hd s G c a Hs Ha) as (Hc & p & i & HG & Hi & Hin & Hlo & Hhi & Hf).
  assert (Hb : in_blk p SLABORDER (frame_of x)).
  { unfold in_blk, frame_of, slab_base, SLAB_BYTES, PAGE_SIZE in *. change (2 ^ SLABORDER) with 1024.
    pose proof (Z.div_mod (x - KERNEL_BASE_ADDR) 4096 ltac:(lia)).
    pose proof (Z.mod_pos_bound (x - KERNEL_BASE_ADDR) 4096 ltac:(lia)). lia. }
  destruct (sv_slabs s G Hs p i HG) as [_ Hh _ _ _ _]. split; [by apply (ho_busy _ _ _ Hh)|].
  intros (q & n & Hqn & Hq)%elem_of_held. destruct (sv_held s G Hs q n Hqn) as (_ & _ & Hap).
  by apply (Hap p i _ HG Hb).
Qed.

(** C7: over any sequence of [kmalloc], [kfree], [pages_alloc] and [pages_free] from
    boot, on any processors, where only objects and blocks in use are freed: the
    objects in use do not overlap, each lies in the kernel's window and in frames that
    are neither free in the buddy allocator nor part of a block of frames in use, and
    the blocks in use do not overlap either. *)
Theorem slab_no_overlap (m : mstate) (s : sstate) (L : gmap Z Z) (hd : list (Z * Z)) :
  mm_inv m → rtc slab_step (slab_init m, ∅, []) (s, L, hd) →
  NoDup (held_pages hd) ∧
  (∀ a b n n', L !! a = Some n → L !! b = Some n' → a ≠ b → a + n ≤ b ∨ b + n' ≤ a) ∧
  (∀ a n, L !! a = Some n → KERNEL_BASE_ADDR ≤ a ∧ a + n ≤ KERNEL_NORMAL ∧
     ∀ x, a ≤ x < a + n → ¬ free_page (nz (mm s)) (frame_of x) ∧ frame_of x ∉ held_pages hd).
Proof.
  intros Hm Hr. destruct (slab_reach m _ Hm Hr) as [G [Hs Hlv _ Hnd]]. cbn [fst snd] in *.
  assert (Hsz : ∀ c a, live G c a → csz c ≤ csize c).
  { intros c a Ha. destruct (live_bounds hd s G c a Hs Ha) as [Hc _]. pose proof (cache_facts c Hc). lia. }
  split_and!; [done| |].
  - intros a b n n' Ha Hb Hne. destruct (Hlv a n Ha) as (c & Hla & ?), (Hlv b n' Hb) as (c' & Hlb & ?).
    pose proof (Hsz c a Hla). pose proof (Hsz c' b Hlb).
    destruct (slab_live_apart hd s G c a c' b Hs Hla Hlb Hne); [left|right]; lia.
  - intros a n Ha. destruct (Hlv a n Ha) as (c & Hla & ?). pose proof (Hsz c a Hla).
    destruct (live_bounds hd s G c a Hs Hla) as (_ & p & i & _ & _ & _ & Hlo & Hhi & (Hp & _ & Hq & _)).
    change (2 ^ SLABORDER) with 1024 in Hq.
    unfold slab_base, SLAB_BYTES, PAGE_SIZE, KERNEL_NORMAL, KERNEL_BASE_ADDR in *.
    split_and!; [lia|lia|]. intros x Hx. eapply (live_frame hd s G c a); [done|done|lia].
Qed.

(** C30: at any point of such a sequence [kmalloc] returns, on every processor and for
    every size, and so does [kfree] of every object in use; no assertion fails and the
    loop of [_slab_alloc] ends.  [kmalloc] returns NULL only for a size that is not
    between 1 and [PAGE_SIZE], or when no aligned run of [2^SLABORDER] free frames is
    left. *)
Theorem slab_progress (m : mstate) (s : sstate) (L : gmap Z Z) (hd : list (Z * Z)) (cpu : Z) :
  mm_inv m → rtc slab_step (slab_init m, ∅, []) (s, L, hd) → 0 ≤ cpu < CPUNUMS →
  (∀ a n, L !! a = Some n → ∃ s', kfree cpu a s = Ok (tt, s')) ∧
  ∀ sz, ∃ a s', kmalloc cpu sz s = Ok (a, s') ∧
    (a ≠ 0 → L !! a = None) ∧
    (a = 0 → 1 ≤ sz ≤ PAGE_SIZE →
       ∀ p, placed (nz (mm s)) p SLABORDER → ∃ i, in_blk p SLABORDER i ∧ ¬ free_page (nz (mm s)) i).
Proof.
  intros Hm Hr Hcpu. destruct (slab_reach m _ Hm Hr) as [G [Hs Hlv _ Hnd]]. cbn [fst snd] in *. split.
  - intros a n Ha. destruct (Hlv a n Ha) as (c & Hl & _).
    destruct (kfree_ok s G cpu c a Hs Hcpu Hl) as (s' & _ & Hrun & _). eauto.
  - intros sz. destruct (kmalloc_ok hd s G cpu sz Hs Hcpu) as (a & s' & Hrun & H).
    exists a, s'. split; [done|].
    destruct H as [(Hsz & -> & _)|(Hsz & c & Hc & Hle & G' & _ & Ha)]; [done|].
    destruct (decide (a = 0)) as [->|Hne].
    + split; [done|]. intros _ _ p Hp. destruct Ha as [_ Hfl].
      apply (no_free_run (nz (mm s)) 0); [apply (sv_mm s G Hs)|done| |done].
      intros k Hk. assert (k = SLABORDER) as -> by (unfold SLABORDER, MAXORDER in *; lia). done.
    + split; [|done]. intros _. destruct Ha as (_ & Hnew & _).
      destruct (L !! a) as [n|] eqn:E; [|done]. destruct (Hlv a n E) as (c' & Hl & _).
      by destruct (Hnew c').
Qed.

(** A machine with 1024 free frames. *)
Definition big_pages : gmap Z page :=
  list_to_map ((λ i, (i, mk_page 0 _pg_free (-1) 0 0 0)) <$> seqZ 0 1024).

Definition big_boot : zstate := mk_zstate (zone_bss 0 1024) big_pages 1024.

Definition big_zone : zstate :=
  match free_area_init big_boot with Ok (_, s) => s | Stop _ => big_boot end.

Definition big_mm : mstate :=
  mk_mstate (zn big_zone) (zone_bss 0 0) (pages big_zone) 1024
    (list_to_map ((λ f, (f, zero_page)) <$> seqZ 0 1024)) [].

Lemma seq_map_lookup {A} (f : Z → A) n i :
  0 ≤ i < n → (list_to_map ((λ x, (x, f x)) <$> seqZ 0 n) : gmap Z A) !! i = Some (f i).
Proof.
  intros Hi. apply elem_of_list_to_map_1.
  - rewrite <- list_fmap_compose. rewrite (list_fmap_ext _ id) by done. rewrite list_fmap_id.
    apply NoDup_seqZ.
  - apply list_elem_of_fmap. exists i. split; [done|]. by apply elem_of_seqZ.
Qed.

Lemma big_lookup i : 0 ≤ i < 1024 → big_pages !! i = Some (mk_page 0 _pg_free (-1) 0 0 0).
Proof. apply (seq_map_lookup (λ _, mk_page 0 _pg_free (-1) 0 0 0) 1024). Qed.

#[local] Opaque big_pages.

Lemma big_zone_ok :
  zone_inv big_zone 0 ∧ only_orders big_boot big_zone ∧ ∀ i, 0 ≤ i < 1024 → free_page big_zone i.
Proof.
  destruct (free_area_init_ok big_boot) as (s & Hrun & Hi & Hoo & Hf).
  - apply zone_bss_empty; [lia|lia|apply Z.divide_0_r|lia].
  - intros i Hi. unfold zbase, zend in Hi. cbn in Hi. eexists. split; [apply big_lookup; lia|]. by split.
  - unfold big_zone. rewrite Hrun. split_and!; [done|done|]. intros i Hr. apply Hf.
    split; [unfold zbase, zend; cbn; lia|]. eexists. split; [by apply big_lookup|]. done.
Qed.

#[local] Opaque big_zone.

Lemma big_nz : nz big_mm = big_zone.
Proof.
  destruct big_zone_ok as (_ & Hoo & _). unfold big_mm, zone_view. simpl.
  pose proof (ss_max _ _ (oo_shape _ _ Hoo)) as E. simpl in E.
  destruct big_zone as [z pgs mx]. simpl in *. by rewrite E.
Qed.

Lemma big_mm_inv : mm_inv big_mm.
Proof.
  destruct big_zone_ok as (Hi & Hoo & _). destruct (only_orders_shape _ _ Hoo) as (Eb & Ee & _).
  split; rewrite ?big_nz.
  - done.
  - by rewrite Eb.
  - rewrite Ee. vm_compute. discriminate.
  - vm_compute. discriminate.
  - rewrite Ee. intros f Hf. exists zero_page. split; [|apply length_replicate].
    apply (seq_map_lookup (λ _, zero_page)). exact Hf.
Qed.

#[local] Opaque big_mm.

(** The first [kmalloc] succeeds there. *)
Lemma big_first cpu sz :
  0 ≤ cpu < CPUNUMS → 1 ≤ sz ≤ PAGE_SIZE →
  ∃ a s, kmalloc cpu sz (slab_init big_mm) = Ok (a, s) ∧ a ≠ 0.
Proof.
  intros Hcpu Hsz. destruct (slab_init_inv big_mm big_mm_inv) as [G [Hs _ _ _]]. cbn [fst snd] in Hs.
  destruct (kmalloc_ok [] _ G cpu sz Hs Hcpu) as (a & s & Hrun & H). exists a, s. split; [done|].
  destruct H as [(? & _)|(_ & c & _ & _ & G' & _ & Ha)]; [done|]. intros ->.
  rewrite decide_True in Ha by done. destruct Ha as [_ Hfl].
  assert (E : mm (slab_init big_mm) = big_mm) by reflexivity. rewrite E in Hfl.
  destruct big_zone_ok as (Hi & Hoo & Hf). destruct (only_orders_shape _ _ Hoo) as (Eb & Ee & _).
  rewrite big_nz in Hfl. destruct (no_free_run big_zone 0 SLABORDER 0) as (i & Hb & Hn).
  - exact Hi.
  - unfold SLABORDER, MAXORDER. lia.
  - intros k Hk. assert (k = SLABORDER) as -> by (unfold SLABORDER, MAXORDER in *; lia). exact Hfl.
  - unfold placed. rewrite Eb, Ee. change (2 ^ SLABORDER) with 1024. unfold zbase, zend.
    cbn [big_boot zn zone_bss zone_mempage size]. split_and!; [lia|lia|apply Z.divide_0_r].
  - apply Hn, Hf. exact Hb.
Qed.

Lemma slab_no_overlap_witness :
  ∃ a b s s', a ≠ 0 ∧ kmalloc 0 100 (slab_init big_mm) = Ok (a, s) ∧ kmalloc 0 4096 s = Ok (b, s') ∧
    KERNEL_BASE_ADDR ≤ a ∧ a + 100 ≤ KERNEL_NORMAL ∧ (b ≠ 0 → b ≠ a → a + 100 ≤ b ∨ b + 4096 ≤ a).
Proof.
  destruct (big_first 0 100) as (a & s & Hrun & Ha);
    [unfold CPUNUMS; lia|unfold PAGE_SIZE; lia|].
  assert (H1 : rtc slab_step (slab_init big_mm, ∅, []) (s, <[a := 100]> ∅, [])).
  { eapply rtc_l; [|apply rtc_refl].
    pose proof (step_kmalloc (slab_init big_mm) ∅ [] 0 100 a s ltac:(unfold CPUNUMS; lia) Hrun) as Hst.
    by rewrite decide_False in Hst by done. }
  destruct (slab_reach big_mm _ big_mm_inv H1) as [G [Hs _ _ _]].
  destruct (kmalloc_ok [] s G 0 4096 Hs ltac:(unfold CPUNUMS; lia)) as (b & s' & Hrun' & _).
  exists a, b, s, s'. split_and!; [exact Ha|exact Hrun|exact Hrun'| | |].
  1,2: destruct (slab_no_overlap big_mm s _ [] big_mm_inv H1) as (_ & _ & H);
    apply (H a 100 (lookup_insert_eq _ _ _)).
  intros Hb Hab.
  assert (H2 : rtc slab_step (slab_init big_mm, ∅, []) (s', <[b := 4096]> (<[a := 100]> ∅), [])).
  { eapply rtc_r; [exact H1|].
    pose proof (step_kmalloc s (<[a := 100]> ∅) [] 0 4096 b s' ltac:(unfold CPUNUMS; lia) Hrun') as Hst.
    by rewrite decide_False in Hst by done. }
  destruct (slab_no_overlap big_mm s' _ [] big_mm_inv H2) as (_ & H & _).
  apply (H a b 100 4096); [|apply lookup_insert_eq|congruence].
  rewrite lookup_insert_ne by done. apply lookup_insert_eq.
Defined.

Lemma slab_progress_witness :
  ∃ a s, a ≠ 0 ∧ kmalloc 3 100 (slab_init big_mm) = Ok (a, s) ∧ ∃ s', kfree 5 a s = Ok (tt, s').
Proof.
  destruct (big_first 3 100) as (a & s & Hrun & Ha);
    [unfold CPUNUMS; lia|unfold PAGE_SIZE; lia|].
  assert (H1 : rtc slab_step (slab_init big_mm, ∅, []) (s, <[a := 100]> ∅, [])).
  { eapply rtc_l; [|apply rtc_refl].
    pose proof (step_kmalloc (slab_init big_mm) ∅ [] 3 100 a s ltac:(unfold CPUNUMS; lia) Hrun) as Hst.
    by rewrite decide_False in Hst by done. }
  exists a, s. split_and!; [exact Ha|exact Hrun|].
  destruct (slab_progress big_mm s _ [] 5 big_mm_inv H1 ltac:(unfold CPUNUMS; lia)) as [H _].
  apply (H a 100 (lookup_insert_eq _ _ _)).
Defined.
