(* ===== verification/BootDetect.v ===== *)
(** * Memory at boot: the map of the boot loader

    [detect_memory] reads back the memory map from the bytes the boot loader writes.
    The format the boot loader writes: tags with a type and a size, padded to 8 bytes,
    ended by a tag of type 0; a tag of type 6 holds entries of 24 bytes. *)

From S2P Require Import Prelude Layout Paging PagingProofs Boot.

Local Open Scope Z_scope.

(** ** The format *)

Fixpoint enc_le (n : nat) (x : Z) : list Z :=
  match n with O => [] | S n => x mod 256 :: enc_le n (x / 256) end.

Inductive btag := TMmap (es : list mmap) | TOther (ty : Z) (body : list Z).

Definition enc_entry (r : mmap) : list Z :=
  enc_le 8 (addr r) ++ enc_le 8 (len r) ++ enc_le 4 (type r) ++ enc_le 4 0.

Definition tag_size (t : btag) : Z :=
  match t with
  | TMmap es => 16 + 24 * Z.of_nat (length es)
  | TOther _ body => 8 + Z.of_nat (length body)
  end.

Definition enc_tag (t : btag) : list Z :=
  match t with
  | TMmap es =>
      enc_le 4 MULTIBOOT_TAG_TYPE_MMAP ++ enc_le 4 (tag_size t) ++ enc_le 4 24 ++ enc_le 4 0 ++
      (es ≫= enc_entry)
  | TOther ty body =>
      enc_le 4 ty ++ enc_le 4 (tag_size t) ++ body ++
      replicate (Z.to_nat (- tag_size t mod 8)) 0
  end.

Definition enc_tags (ts : list btag) : list Z := (ts ≫= enc_tag) ++ enc_le 4 0 ++ enc_le 4 8.

Definition tag_entries (t : btag) : list mmap := match t with TMmap es => es | TOther _ _ => [] end.

(** Values within their fields. *)
Definition entry_wf (r : mmap) : Prop :=
  0 ≤ addr r < 2 ^ 64 ∧ 0 ≤ len r < 2 ^ 64 ∧ 0 ≤ type r < 2 ^ 32.
Definition tag_wf (t : btag) : Prop :=
  match t with
  | TMmap es => Forall entry_wf es
  | TOther ty _ => 0 < ty < 2 ^ 32 ∧ ty ≠ MULTIBOOT_TAG_TYPE_MMAP
  end.

(** The bytes [bs] lie at [a]. *)
Definition lies (m : gmap Z Z) (a : Z) (bs : list Z) : Prop :=
  ∀ i b, bs !! i = Some b → m !! (a + Z.of_nat i) = Some b.

Lemma lies_app m a l1 l2 : lies m a (l1 ++ l2) ↔ lies m a l1 ∧ lies m (a + Z.of_nat (length l1)) l2.
Proof.
  unfold lies. split.
  - intros H. split.
    + intros i b Hb. apply H. by apply lookup_app_l_Some.
    + intros i b Hb. replace (a + Z.of_nat (length l1) + Z.of_nat i)
        with (a + Z.of_nat (length l1 + i)) by lia.
      apply H. rewrite lookup_app_r by lia. by replace (length l1 + i - length l1)%nat with i by lia.
  - intros [H1 H2] i b [Hb|[Hi Hb]]%lookup_app_Some; [by apply H1|].
    replace (a + Z.of_nat i) with (a + Z.of_nat (length l1) + Z.of_nat (i - length l1)) by lia.
    by apply H2.
Qed.

Lemma enc_le_length n x : length (enc_le n x) = n.
Proof. revert x. induction n as [|n IH]; intros x; [done|]. simpl. by rewrite IH. Qed.

Lemma load_le_enc m n : ∀ a x, lies m a (enc_le n x) → 0 ≤ x < 256 ^ Z.of_nat n → load_le m a n = Some x.
Proof.
  induction n as [|n IH]; intros a x Hl Hx; cbn [load_le enc_le] in *.
  { change (256 ^ Z.of_nat 0) with 1 in Hx. f_equal. lia. }
  pose proof (Hl 0%nat _ eq_refl) as H0. rewrite Z.add_0_r in H0. rewrite H0.
  cbn [mbind option_bind].
  rewrite (IH (a + 1) (x / 256)).
  - cbn [mbind option_bind]. f_equal. pose proof (Z.div_mod x 256 ltac:(lia)). lia.
  - intros i b Hb. replace (a + 1 + Z.of_nat i) with (a + Z.of_nat (S i)) by lia. by apply Hl.
  - rewrite Nat2Z.inj_succ, Z.pow_succ_r in Hx by lia.
    split; [apply Z.div_pos; lia|apply Z.div_lt_upper_bound; lia].
Qed.

Lemma load32 m a x : lies m a (enc_le 4 x) → 0 ≤ x < 2 ^ 32 → load_le m a 4 = Some x.
Proof. intros H Hx. apply (load_le_enc m 4); [done|exact Hx]. Qed.

Lemma enc_entry_length r : length (enc_entry r) = 24%nat.
Proof. unfold enc_entry. by rewrite !length_app, !enc_le_length. Qed.

Lemma load_entry m a r :
  lies m a (enc_entry r) → entry_wf r →
  load_le m a 8 = Some (addr r) ∧ load_le m (a + 8) 8 = Some (len r) ∧ load_le m (a + 16) 4 = Some (type r).
Proof.
  unfold enc_entry. intros H (Ha & Hl & Ht). rewrite !lies_app, !enc_le_length in H.
  destruct H as (H1 & H2 & H3 & _). rewrite <- Z.add_assoc in H3.
  split_and!; eapply load_le_enc; done.
Qed.

Lemma detect_entries_ok m tag size es : ∀ fuel mm info,
  lies m mm (es ≫= enc_entry) → Forall entry_wf es → (length es < fuel)%nat →
  (length info + length es ≤ NR_MMAPINFO)%nat →
  0 ≤ mm → 0 ≤ tag → tag + size < 2 ^ 32 → 0 ≤ size → mm + 24 * Z.of_nat (length es) = tag + size →
  detect_entries fuel m mm tag size 24 info = Ok (info ++ es).
Proof.
  induction es as [|r es IH]; intros fuel mm info Hl Hwf Hfuel Hn H0 Ht0 Hmax Hs Hend;
    (destruct fuel as [|fuel]; [simpl in Hfuel; lia|]); cbn [detect_entries];
    rewrite (u32_small (tag + size)) by lia.
  - rewrite bool_decide_false by (simpl in Hend; lia). by rewrite app_nil_r.
  - cbn [mbind list_bind] in Hl. apply lies_app in Hl as [Hr Hl].
    rewrite enc_entry_length in Hl. apply Forall_cons in Hwf as [Hwr Hwf].
    destruct (load_entry m mm r Hr Hwr) as (E1 & E2 & E3). cbn [length] in *.
    rewrite bool_decide_true by lia. rewrite E1, E2, E3. cbn [fetch mbind outcome_bind].
    rewrite bool_decide_false by lia. rewrite (u32_small (mm + 24)) by lia.
    rewrite IH; [|done|done|lia|rewrite length_app; simpl; lia|lia|lia|lia|lia|lia].
    rewrite <- app_assoc. by destruct r.
Qed.

Lemma land_pad x : 0 ≤ x → x + 7 < 2 ^ 32 → Z.land (u32 (x + 7)) (u32 (Z.lnot 7)) = x + - x mod 8.
Proof.
  intros H0 Hx. rewrite (u32_small (x + 7)) by lia. change (u32 (Z.lnot 7)) with (Z.land (2 ^ 32 - 1) (Z.lnot 7)).
  rewrite Z.land_assoc, land_mod by lia. rewrite Z.mod_small by lia.
  change 7 with (Z.ones 3). rewrite <- Z.ldiff_land, Z.ldiff_ones_r, Z.shiftl_mul_pow2, Z.shiftr_div_pow2 by lia.
  change (2 ^ 3) with 8. change (Z.ones 3) with 7.
  pose proof (Z.div_mod (x + 7) 8 ltac:(lia)). pose proof (Z.mod_pos_bound (x + 7) 8 ltac:(lia)).
  pose proof (Z.div_mod (- x) 8 ltac:(lia)). pose proof (Z.mod_pos_bound (- x) 8 ltac:(lia)). lia.
Qed.

Lemma enc_entries_length es : length (es ≫= enc_entry) = (24 * length es)%nat.
Proof.
  induction es as [|r es IH]; [done|]. cbn [mbind list_bind]. rewrite length_app, enc_entry_length.
  fold (es ≫= enc_entry). rewrite IH. simpl. lia.
Qed.

Lemma enc_tag_length t : Z.of_nat (length (enc_tag t)) = tag_size t + - tag_size t mod 8.
Proof.
  destruct t as [es|ty body]; cbn [enc_tag tag_size]; rewrite !length_app, ?enc_le_length.
  - rewrite enc_entries_length.
    replace (- (16 + 24 * Z.of_nat (length es))) with (0 + (-2 - 3 * Z.of_nat (length es)) * 8) by lia.
    rewrite Z.mod_add by lia. change (0 mod 8) with 0. lia.
  - rewrite length_replicate. pose proof (Z.mod_pos_bound (- (8 + Z.of_nat (length body))) 8 ltac:(lia)). lia.
Qed.

Lemma detect_tags_ok m ts : ∀ fuel tag info,
  lies m tag (enc_tags ts) → Forall tag_wf ts →
  (length ts + NR_MMAPINFO + 1 < fuel)%nat → (length info + length (ts ≫= tag_entries) ≤ NR_MMAPINFO)%nat →
  0 ≤ tag → tag + Z.of_nat (length (enc_tags ts)) + 8 < 2 ^ 32 →
  detect_tags fuel m tag info = Ok (info ++ (ts ≫= tag_entries)).
Proof.
  induction ts as [|t ts IH]; intros fuel tag info Hl Hwf Hfuel Hn H0 Hmax;
    (destruct fuel as [|fuel]; [lia|]); cbn [detect_tags].
  - unfold enc_tags in Hl. cbn [mbind list_bind app] in Hl. apply lies_app in Hl as [Ht _].
    rewrite (load32 m tag 0 Ht) by (unfold MULTIBOOT_TAG_TYPE_MMAP; lia). cbn [fetch mbind outcome_bind].
    rewrite bool_decide_true by done. simpl. by rewrite app_nil_r.
  - assert (Henc : enc_tags (t :: ts) = enc_tag t ++ enc_tags ts).
    { unfold enc_tags. cbn [mbind list_bind]. by rewrite <- app_assoc. }
    rewrite Henc in Hl, Hmax. apply lies_app in Hl as [Ht Hl]. rewrite length_app in Hmax.
    apply Forall_cons in Hwf as [Hwt Hwf]. rewrite enc_tag_length in Hl.
    pose proof (enc_tag_length t) as Hlen. cbn [mbind list_bind length] in *. rewrite length_app in Hn.
    pose proof (Z.mod_pos_bound (- tag_size t) 8 ltac:(lia)) as Hpad.
    assert (Hsz : 8 ≤ tag_size t) by (destruct t; simpl; lia).
    assert (Hnext : ∀ info', (length info' + length (ts ≫= tag_entries) ≤ NR_MMAPINFO)%nat →
      detect_tags fuel m (u32 (tag + Z.land (u32 (tag_size t + 7)) (u32 (Z.lnot 7)))) info' =
      Ok (info' ++ (ts ≫= tag_entries))).
    { intros info' Hn'. rewrite land_pad by lia. rewrite u32_small by lia.
      apply IH; [done|done|lia|done|lia|lia]. }
    destruct t as [es|ty body]; simpl in Hwt.
    + cbn [enc_tag] in Ht. rewrite !lies_app, !enc_le_length in Ht. destruct Ht as (T1 & T2 & T3 & _ & T5).
      rewrite (load32 m tag _ T1) by (unfold MULTIBOOT_TAG_TYPE_MMAP; lia). cbn [fetch mbind outcome_bind].
      rewrite bool_decide_false by done. rewrite (load32 m (tag + 4) _ T2) by lia.
      cbn [fetch mbind outcome_bind]. rewrite bool_decide_true by done. rewrite <- Z.add_assoc in T3.
      rewrite (load32 m (tag + 8) _ T3) by (unfold MULTIBOOT_TAG_TYPE_MMAP; lia). cbn [fetch mbind outcome_bind].
      rewrite (u32_small (tag + 16)) by lia. cbn [tag_entries] in *.
      rewrite (detect_entries_ok m tag (tag_size (TMmap es)) es).
      * cbn [mbind outcome_bind]. rewrite Hnext by (rewrite length_app; lia). by rewrite <- app_assoc.
      * replace (tag + 16) with (tag + Z.of_nat 4 + Z.of_nat 4 + Z.of_nat 4 + Z.of_nat 4) by lia. done.
      * done.
      * lia.
      * lia.
      * lia.
      * lia.
      * simpl in *; lia.
      * lia.
      * simpl. lia.
    + cbn [enc_tag] in Ht. rewrite !lies_app, !enc_le_length in Ht. destruct Ht as (T1 & T2 & _).
      destruct Hwt as [Hty Hne].
      rewrite (load32 m tag _ T1) by lia.
      cbn [fetch mbind outcome_bind]. unfold MULTIBOOT_TAG_TYPE_END. rewrite bool_decide_false by lia.
      rewrite (load32 m (tag + 4) _ T2) by lia.
      cbn [fetch mbind outcome_bind]. rewrite bool_decide_false by done. apply Hnext. simpl in Hn. lia.
Qed.

(** C38: [detect_memory] inverts the format of the boot loader: for every sequence of well
    formed tags that lies behind the header, with at most [NR_MMAPINFO] entries in all,
    it returns the entries of all memory map tags in order and skips the other tags. *)
Theorem detect_memory_reads_map (ts : list btag) (fuel : nat) (info : Z) (ram : gmap Z Z) :
  lies ram (info + 8) (enc_tags ts) → Forall tag_wf ts →
  (length (ts ≫= tag_entries) ≤ NR_MMAPINFO)%nat → (length ts + NR_MMAPINFO + 1 < fuel)%nat →
  0 ≤ info → info + 16 + Z.of_nat (length (enc_tags ts)) < 2 ^ 32 →
  detect_memory fuel ram info = Ok (ts ≫= tag_entries).
Proof.
  intros Hl Hwf Hn Hfuel H0 Hmax. unfold detect_memory. rewrite u32_small by lia.
  apply (detect_tags_ok ram ts fuel (info + 8) []); [done|done|done|done|lia|lia].
Qed.

(** The memory that holds [bs] at [a]. *)
Definition bytes_at (a : Z) (bs : list Z) : gmap Z Z :=
  list_to_map (imap (λ i b, (a + Z.of_nat i, b)) bs).

Lemma bytes_at_lies a bs : lies (bytes_at a bs) a bs.
Proof.
  intros i b Hb. apply elem_of_list_to_map_1.
  - rewrite fmap_imap. apply NoDup_alt. intros j k x Hj Hk. rewrite list_lookup_imap in Hj, Hk.
    destruct (bs !! j), (bs !! k); [|done..]. simpl in Hj, Hk. simplify_eq. lia.
  - apply elem_of_lookup_imap. eauto.
Qed.

(** A machine with 64 megabytes, behind a tag with the name of the boot loader. *)
Definition demo_map : list mmap := [mk_mmap 0 0x4000000 1; mk_mmap 0xFEC00000 0x1400000 2].
Definition demo_tags : list btag := [TOther 2 [71; 82; 85; 66; 0]; TMmap demo_map].

Lemma demo_tags_read : detect_memory 200 (bytes_at 0x10008 (enc_tags demo_tags)) 0x10000 = Ok demo_map.
Proof. vm_compute. reflexivity. Qed.

Lemma detect_memory_reads_map_witness :
  detect_memory 200 (bytes_at 0x10008 (enc_tags demo_tags)) 0x10000 = Ok demo_map.
Proof.
  apply (detect_memory_reads_map demo_tags).
  - apply bytes_at_lies.
  - repeat constructor; simpl; unfold MULTIBOOT_TAG_TYPE_MMAP; lia.
  - apply (bool_decide_unpack _). reflexivity.
  - apply (bool_decide_unpack _). reflexivity.
  - lia.
  - reflexivity.
Defined.
