(* ===== verification/BootTables.v ===== *)
(** * The kernel's page tables at boot

    The bump allocator of bootmm.c hands out the frames from the end of the kernel's
    image on; [btree] says which frame holds which table.  [boot_map_region] is an
    update of the function [mapped] from addresses to entries that the tables
    describe, on the whole of the region and nowhere else. *)

From S2P Require Import Prelude Layout Buddy BuddyProofs Paging PagingProofs Boot.

Local Open Scope Z_scope.

(** ** Frames and their roles *)

Definition role_ok (r : role) : Prop :=
  match r with RPmd i => 0 ≤ i < 4 | RPte i j => 0 ≤ i < 4 ∧ 0 ≤ j < 512 end.

(** The tables below the directory in frame [g] are the frames up to [nb]. *)
Record btree (m : mstate) (g nb : Z) (own : gmap Z role) : Prop := {
  bt_bounds : 0 ≤ g < nb;
  bt_own : ∀ f r, own !! f = Some r → g < f < nb ∧ role_ok r;
  bt_all : ∀ f, g < f < nb → is_Some (own !! f);
  bt_role : ∀ f r, own !! f = Some r → role_frame m g 0 r = Some f;
  bt_frame : ∀ r f, role_ok r → role_frame m g 0 r = Some f → own !! f = Some r;
}.

(** Every frame below [lim] holds 512 words. *)
Definition mtotal (m : mstate) (lim : Z) : Prop :=
  ∀ f, 0 ≤ f < lim → ∃ l, mem m !! f = Some l ∧ length l = 512%nat.

Lemma mtotal_ent m lim f k : mtotal m lim → 0 ≤ f < lim → 0 ≤ k < 512 → ∃ e, ent m f k = Some e.
Proof.
  intros Hm Hf Hk. destruct (Hm f Hf) as (l & Hl & Hn). unfold ent. rewrite Hl. simpl.
  apply lookup_lt_is_Some_2. lia.
Qed.

Lemma mtotal_put m lim f k v : mtotal m lim → mtotal (put_ent f k v m) lim.
Proof.
  intros Hm f' Hf'. destruct (Hm f' Hf') as (l & Hl & Hn). simpl. destruct (decide (f' = f)) as [->|].
  - rewrite lookup_alter_eq, Hl. simpl. eexists. split; [done|]. by rewrite length_insert.
  - rewrite lookup_alter_ne by done. eauto.
Qed.

Lemma mtotal_zero m lim p n : mtotal m lim → mtotal (with_mem (zero_frames p n (mem m)) m) lim.
Proof.
  intros Hm f Hf. simpl. rewrite zero_frames_lookup.
  case_decide; [eexists; split; [done|]; apply length_replicate|by apply Hm].
Qed.

(** The number of tables is bounded by the number of roles. *)
Definition role_code (r : role) : Z :=
  match r with RPmd i => i | RPte i j => 4 + i * 512 + j end.

Lemma bt_count m g nb own : btree m g nb own → nb ≤ g + 2053.
Proof.
  intros Hb. destruct (bt_bounds _ _ _ _ Hb) as [Hg Hgn].
  set (code := λ f, role_code (default (RPmd 0) (own !! f))).
  enough (length (code <$> seqZ (g + 1) (nb - g - 1)) ≤ length (seqZ 0 2052))%nat as H.
  { rewrite length_fmap, !length_seqZ in H. lia. }
  assert (Hown : ∀ f, f ∈ seqZ (g + 1) (nb - g - 1) → ∃ r, own !! f = Some r ∧ role_ok r).
  { intros f Hf%elem_of_seqZ. destruct (bt_all _ _ _ _ Hb f ltac:(lia)) as [r Hr]. exists r.
    split; [done|]. by apply (bt_own _ _ _ _ Hb f r). }
  apply submseteq_length, NoDup_submseteq.
  - apply NoDup_fmap_2_strong; [|apply NoDup_seqZ]. intros f f' Hf Hf' E. unfold code in E.
    destruct (Hown f Hf) as (r & Hr & Hok), (Hown f' Hf') as (r' & Hr' & Hok').
    rewrite Hr, Hr' in E. simpl in E. assert (r = r') as <-.
    { destruct r as [i|i j], r' as [i'|i' j']; simpl in *; f_equal; lia. }
    apply (bt_role _ _ _ _ Hb) in Hr, Hr'. congruence.
  - intros x (f & -> & Hf)%list_elem_of_fmap. destruct (Hown f Hf) as (r & Hr & Hok). unfold code.
    rewrite Hr. apply elem_of_seqZ. destruct r; simpl in *; lia.
Qed.

(** The tables the kernel's address space needs: the directory of the last gigabyte,
    384 page tables for the window on memory, one for the stacks, two for the screen
    and one for the registers of the processors. *)
Definition needed (r : role) : Prop :=
  match r with
  | RPmd i => i = 3
  | RPte i j => i = 3 ∧ (0 ≤ j < 384 ∨ j = 387 ∨ 504 ≤ j < 506 ∨ j = 508)
  end.

Definition needed_list : list role := RPmd 3 :: (RPte 3 <$> seqZ 0 384 ++ [387; 504; 505; 508]).

Lemma needed_list_spec r : r ∈ needed_list ↔ needed r.
Proof.
  unfold needed_list. rewrite elem_of_cons, list_elem_of_fmap. setoid_rewrite elem_of_app. setoid_rewrite elem_of_seqZ.
  setoid_rewrite elem_of_cons. setoid_rewrite elem_of_cons. setoid_rewrite elem_of_cons. setoid_rewrite list_elem_of_singleton.
  destruct r as [i|i j]; simpl; split.
  - intros [[= ->]|(y & [=] & _)]. done.
  - intros ->. by left.
  - intros [[=]|(y & [= -> ->] & Hy)]. lia.
  - intros [-> Hj]. right. exists j. split; [done|lia].
Qed.

Lemma needed_list_NoDup : NoDup needed_list.
Proof.
  apply NoDup_cons. split; [by intros (y & [=] & _)%list_elem_of_fmap|].
  apply NoDup_fmap_2; [by intros x y [= ->]|]. apply (bool_decide_unpack _). vm_compute. exact I.
Qed.

(** When exactly these tables are there, the frames they take are known. *)
Lemma bt_exact m g nb own :
  btree m g nb own → (∀ f r, own !! f = Some r → needed r) → (∀ r, needed r → is_Some (role_frame m g 0 r)) → nb = g + 390.
Proof.
  intros Hb Hn Hall. destruct (bt_bounds _ _ _ _ Hb) as [Hg Hgn].
  set (role_of := λ f, default (RPmd 0) (own !! f)).
  enough (Permutation (role_of <$> seqZ (g + 1) (nb - g - 1)) needed_list) as H%Permutation_length.
  { rewrite length_fmap, length_seqZ in H. change (length needed_list) with 389%nat in H. lia. }
  assert (Hown : ∀ f, f ∈ seqZ (g + 1) (nb - g - 1) → own !! f = Some (role_of f)).
  { intros f Hf%elem_of_seqZ. destruct (bt_all _ _ _ _ Hb f ltac:(lia)) as [r Hr]. unfold role_of. by rewrite Hr. }
  apply NoDup_Permutation; [|apply needed_list_NoDup|].
  - apply NoDup_fmap_2_strong; [|apply NoDup_seqZ]. intros f f' Hf Hf' E.
    apply Hown, (bt_role _ _ _ _ Hb) in Hf. apply Hown, (bt_role _ _ _ _ Hb) in Hf'. congruence.
  - intros r. rewrite needed_list_spec. split.
    + intros (f & -> & Hf)%list_elem_of_fmap. apply (Hn f). by apply Hown.
    + intros Hr. destruct (Hall r Hr) as [f Hf]. apply list_elem_of_fmap. exists f.
      apply (bt_frame _ _ _ _ Hb) in Hf; [|destruct r; simpl in *; lia]. split; [unfold role_of; by rewrite Hf|].
      apply (bt_own _ _ _ _ Hb) in Hf as [? _]. apply elem_of_seqZ. lia.
Qed.

(** ** Linking a new table *)

Section link.
Context (m : mstate) (g nb lim : Z) (own : gmap Z role) (r0 : role) (fk : Z * Z) (perm : Z).
Hypothesis (Hb : btree m g nb own) (Hm : mtotal m lim) (Hlim : nb < lim).
Hypothesis (Hr0 : role_ok r0) (Hnone : role_frame m g 0 r0 = None).
Hypothesis (Hpar : parent_slot m g 0 r0 = Some fk) (Hperm : 0 < perm < PAGE_SIZE).

Lemma link_parent :
  0 ≤ fk.2 < 512 ∧ g ≤ fk.1 < nb ∧
  (∀ i, r0 = RPmd i → fk = (g, i)) ∧
  (∀ i j, r0 = RPte i j → own !! fk.1 = Some (RPmd i) ∧ fk.2 = j).
Proof.
  destruct (bt_bounds _ _ _ _ Hb) as [Hg Hgn]. destruct r0 as [i|i j]; simpl in Hr0.
  - simpl in Hpar. injection Hpar as <-. simpl. split_and!; [lia|lia|lia|lia| |done].
    by intros ? [= <-].
  - unfold parent_slot in Hpar. destruct (role_frame m g 0 (RPmd i)) as [P|] eqn:EP; [|done].
    injection Hpar as <-. apply (bt_frame _ _ _ _ Hb (RPmd i) P ltac:(simpl; lia)) in EP.
    destruct (bt_own _ _ _ _ Hb _ _ EP) as [? _]. simpl. split_and!; [lia|lia|lia|lia|done|].
    by intros ? ? [= <- <-].
Qed.

Lemma link_ent f k :
  0 ≤ k < 512 →
  ent (link nb fk perm m) f k =
    if decide ((f, k) = fk) then Some (nb * PAGE_SIZE + perm)
    else if decide (f = nb) then Some 0 else ent m f k.
Proof.
  intros Hk. destruct link_parent as (H1 & H2 & _). destruct (bt_bounds _ _ _ _ Hb) as [Hg _].
  apply ent_link; [done|done|lia|].
  destruct (mtotal_ent m lim fk.1 fk.2 Hm ltac:(lia) H1) as [e He]. eauto.
Qed.

Lemma link_child : child (nb * PAGE_SIZE + perm) = Some nb.
Proof.
  destruct (bt_bounds _ _ _ _ Hb). unfold child. rewrite decide_False by (unfold PAGE_SIZE in *; lia).
  by rewrite eframe_entry by lia.
Qed.

Lemma link_pmd i :
  0 ≤ i < 4 →
  role_frame (link nb fk perm m) g 0 (RPmd i) =
    if decide (RPmd i = r0) then Some nb else role_frame m g 0 (RPmd i).
Proof.
  intros Hi. destruct link_parent as (_ & _ & Hp1 & Hp2). destruct (bt_bounds _ _ _ _ Hb) as [Hg Hgn].
  unfold role_frame. rewrite link_ent by lia. rewrite (decide_False (P := g = nb)) by lia.
  pose proof link_child as Hch. destruct r0 as [i0|i0 j0].
  - rewrite (Hp1 i0 eq_refl). destruct (decide (i = i0)) as [->|Hne].
    + rewrite !decide_True by done. simpl. apply Hch.
    + by rewrite !decide_False by (intros [=]; lia).
  - destruct (Hp2 i0 j0 eq_refl) as [HP _]. rewrite (decide_False (P := RPmd i = RPte i0 j0)) by done.
    rewrite decide_False; [done|]. intros E. rewrite <- E in HP. simpl in HP.
    destruct (bt_own _ _ _ _ Hb _ _ HP). lia.
Qed.

Lemma link_role r :
  role_ok r →
  role_frame (link nb fk perm m) g 0 r = if decide (r = r0) then Some nb else role_frame m g 0 r.
Proof.
  intros Hr. destruct link_parent as (_ & _ & Hp1 & Hp2). destruct (bt_bounds _ _ _ _ Hb) as [Hg Hgn].
  pose proof Hpar as Hpar'. pose proof Hnone as Hnone'. pose proof link_ent as Hent.
  destruct r as [i|i j]; [by apply link_pmd|]. simpl in Hr. rewrite role_frame_pte, link_pmd by lia.
  assert (Hnew : ∀ P, role_frame m g 0 (RPmd i) = Some P → g < P < nb ∧ own !! P = Some (RPmd i)).
  { intros P HP. apply (bt_frame _ _ _ _ Hb) in HP; [|simpl; lia]. split; [|done].
    by apply (bt_own _ _ _ _ Hb) in HP as [? _]. }
  destruct (decide (RPmd i = r0)) as [E|E].
  - rewrite decide_False by (rewrite <- E; done). rewrite <- E in Hnone'.
    rewrite role_frame_pte, Hnone'. simpl. rewrite Hent by lia. rewrite (Hp1 i (eq_sym E)).
    rewrite decide_False by (intros [=]; lia). rewrite decide_True by done. simpl. done.
  - rewrite role_frame_pte. destruct (role_frame m g 0 (RPmd i)) as [P|] eqn:EP.
    + destruct (Hnew P eq_refl) as [HPb HPo]. simpl. rewrite Hent by lia.
      rewrite (decide_False (P := P = nb)) by lia.
      destruct (decide (RPte i j = r0)) as [E'|E'].
      * destruct (Hp2 i j (eq_sym E')) as [HP Hj].
        rewrite decide_True; [simpl; apply link_child|].
        rewrite <- E' in Hpar'. unfold parent_slot in Hpar'. rewrite EP in Hpar'. simpl in Hpar'. congruence.
      * rewrite decide_False; [done|]. intros Efk. destruct r0 as [i0|i0 j0].
        -- rewrite (Hp1 i0 eq_refl) in Efk. injection Efk as ? ?. lia.
        -- destruct (Hp2 i0 j0 eq_refl) as [HP Hj]. rewrite <- Efk in HP, Hj. simpl in HP, Hj.
           rewrite HPo in HP. injection HP as <-. congruence.
    + simpl. rewrite decide_False; [done|]. intros E'. destruct r0 as [|i0 j0]; [done|].
      injection E' as <- <-. unfold parent_slot in Hpar'. by rewrite EP in Hpar'.
Qed.

Lemma link_btree : btree (link nb fk perm m) g (nb + 1) (<[nb := r0]> own).
Proof.
  destruct (bt_bounds _ _ _ _ Hb) as [Hg Hgn]. split.
  - lia.
  - intros f r. rewrite lookup_insert. case_decide as E; [intros [= <-]; subst; split; [lia|done]|].
    intros Hf. apply (bt_own _ _ _ _ Hb) in Hf. split; [lia|apply Hf].
  - intros f Hf. rewrite lookup_insert. case_decide; [eauto|]. apply (bt_all _ _ _ _ Hb). lia.
  - intros f r. rewrite lookup_insert. case_decide as E.
    + intros [= <-]. subst f. rewrite link_role by done. by rewrite decide_True.
    + intros Hf. pose proof (bt_own _ _ _ _ Hb f r Hf) as [_ Hok]. rewrite link_role by done.
      apply (bt_role _ _ _ _ Hb) in Hf. rewrite decide_False by (intros ->; congruence). done.
  - intros r f Hok. rewrite link_role by done. case_decide as E.
    + intros [= <-]. subst r. apply lookup_insert_eq.
    + intros Hf. apply (bt_frame _ _ _ _ Hb) in Hf; [|done].
      rewrite lookup_insert_ne; [done|]. intros <-. apply (bt_own _ _ _ _ Hb) in Hf. lia.
Qed.

(** No address is mapped or unmapped. *)
Lemma link_mapped va : mapped (link nb fk perm m) g 0 va = mapped m g 0 va.
Proof.
  destruct (bt_bounds _ _ _ _ Hb) as [Hg Hgn]. pose proof (index_ranges va) as Hix.
  destruct link_parent as (_ & _ & Hp1 & Hp2). pose proof link_ent as Hent.
  unfold mapped, entry_at. rewrite link_role by (simpl; lia).
  destruct (decide (RPte (pgd_index va) (pmd_index va) = r0)) as [E|E].
  - rewrite E, Hnone. simpl. rewrite Hent by lia.
    destruct (Hp2 _ _ (eq_sym E)) as [HP _]. apply (bt_own _ _ _ _ Hb) in HP as [? _].
    rewrite decide_False by (intros Efk; rewrite <- Efk in *; simpl in *; lia).
    by rewrite decide_True.
  - destruct (role_frame m g 0 (RPte (pgd_index va) (pmd_index va))) as [T|] eqn:ET; [|done]. simpl. rewrite Hent by lia.
    apply (bt_frame _ _ _ _ Hb) in ET; [|simpl; lia]. pose proof (bt_own _ _ _ _ Hb _ _ ET) as [HT _].
    rewrite decide_False.
    + by rewrite decide_False by lia.
    + intros Efk. destruct r0 as [i0|i0 j0].
      * rewrite (Hp1 i0 eq_refl) in Efk. injection Efk as ? ?. lia.
      * destruct (Hp2 i0 j0 eq_refl) as [HP _]. rewrite <- Efk in HP. simpl in HP. congruence.
Qed.
End link.

(** ** The state while the tables are built *)

Record bok (s : bstate) (g nb : Z) (own : gmap Z role) : Prop := {
  bo_base : base s = slot nb 0;
  bo_norm : g + 2053 < normal_maxpfn s ≤ 0x30000;
  bo_mem : mtotal (bm s) (normal_maxpfn s);
  bo_tree : btree (bm s) g nb own;
  bo_needed : ∀ f r, own !! f = Some r → needed r;
}.

(** New contents of the frames and a new [base]; the rest stays. *)
Definition upd (m : gmap Z (list Z)) (b : Z) (s : bstate) : bstate :=
  mk_bstate (with_mem m (bm s)) (mmapinfo s) (normal_maxpfn s) (high_maxpfn s) (totalram_pages s) b
    (mmio_base s) (kpgd s).

(** From [s] to [s'] only tables above the directory [g] were written. *)
Definition tables_only (g : Z) (s s' : bstate) : Prop :=
  s' = upd (mem (bm s')) (base s') s ∧ ∀ f, f < g → mem (bm s') !! f = mem (bm s) !! f.

Lemma tables_only_refl g s : tables_only g s s.
Proof. split; [by destruct s as [[]]|done]. Qed.

Lemma tables_only_trans g s1 s2 s3 : tables_only g s1 s2 → tables_only g s2 s3 → tables_only g s1 s3.
Proof.
  intros [E1 H1] [E2 H2]. split; [rewrite E2; by rewrite E1|]. intros f Hf. by rewrite H2, H1.
Qed.

Lemma in_bm_ok {A} (c : M mstate A) s a m :
  c (bm s) = Ok (a, m) →
  in_bm c s = Ok (a, mk_bstate m (mmapinfo s) (normal_maxpfn s) (high_maxpfn s) (totalram_pages s)
                       (base s) (mmio_base s) (kpgd s)).
Proof. intros H. unfold in_bm. by rewrite H. Qed.

Lemma in_bm_read {A} (c : M mstate A) s a : c (bm s) = Ok (a, bm s) → in_bm c s = Ok (a, s).
Proof. intros H. rewrite (in_bm_ok c s a _ H). by destruct s. Qed.

Lemma virt_to_phys_slot f : 0 ≤ f < 0x40000 → virt_to_phys (slot f 0) = Ok (f * PAGE_SIZE).
Proof.
  unfold virt_to_phys, slot, PAGE_SIZE, KERNEL_BASE_ADDR. intros Hf.
  rewrite bool_decide_false by lia. f_equal. rewrite u32_small; lia.
Qed.

Section tables.
Context (bss_end : Z).

Lemma alloc_run s nb n :
  base s = slot nb 0 → 0 ≤ nb < normal_maxpfn s → normal_maxpfn s ≤ 0x30000 → 0 < n →
  slot (nb + n) 0 < 2 ^ 32 →
  alloc_bootmm_pages bss_end n s = Ok (slot nb 0, upd (zero_frames nb n (mem (bm s))) (slot (nb + n) 0) s).
Proof.
  unfold slot, PAGE_SIZE, KERNEL_BASE_ADDR. intros Hb Hnb Hn Hpos Hmax.
  unfold alloc_bootmm_pages. run_step. rewrite (bool_decide_false (base s = 0)) by lia. run_step.
  rewrite (bind_Ok _ _ _ _ _ (assert_true _ s (bool_decide_eq_true_2 _ Hpos))). run_step. cbv zeta.
  unfold set_base, KERNEL_BASE_ADDR, PAGE_SIZE. run_step.
  rewrite (u32_small (normal_maxpfn s * _ + _)) by lia. rewrite bool_decide_false by lia.
  rewrite Hb, (u32_small (n * 4096)) by lia. rewrite u32_small by lia.
  replace (frame_of _) with nb.
  2: { unfold frame_of, KERNEL_BASE_ADDR, PAGE_SIZE. apply Z.div_unique with 0; lia. }
  erewrite bind_Ok by (apply in_bm_ok; reflexivity). unfold upd, with_mem. cbn [bm mmapinfo
    normal_maxpfn high_maxpfn totalram_pages mmio_base kpgd base].
  replace (nb * 4096 + 3221225472 + 8 * 0 + n * 4096) with ((nb + n) * 4096 + 3221225472 + 8 * 0) by lia.
  done.
Qed.

Section walk.
Context (s : bstate) (g nb : Z) (own : gmap Z role).
Hypothesis (Hs : bok s g nb own).

Lemma bok_range : 0 ≤ g < nb ∧ nb < normal_maxpfn s ∧ normal_maxpfn s ≤ 0x30000.
Proof.
  pose proof (bt_count _ _ _ _ (bo_tree _ _ _ _ Hs)). pose proof (bt_bounds _ _ _ _ (bo_tree _ _ _ _ Hs)).
  destruct (bo_norm _ _ _ _ Hs). lia.
Qed.

(** A new table at the parent of the role [r0]. *)
Lemma new_table_ok r0 fk perm :
  needed r0 → role_ok r0 → role_frame (bm s) g 0 r0 = None → parent_slot (bm s) g 0 r0 = Some fk →
  0 < perm < PAGE_SIZE →
  let s' := upd (mem (link nb fk perm (bm s))) (slot (nb + 1) 0) s in
  (va ← alloc_bootmm_pages bss_end 1; pa ← lift (virt_to_phys va);
   in_bm (entry_set (slot fk.1 fk.2) pa perm)) s = Ok (tt, s') ∧
  bok s' g (nb + 1) (<[nb := r0]> own) ∧ tables_only g s s' ∧
  (∀ va, mapped (bm s') g 0 va = mapped (bm s) g 0 va).
Proof.
  intros Hnd Hr0 Hnone Hpar Hperm s'. destruct bok_range as (Hg & Hnb & Hn).
  destruct Hs as [Hb0 Hb1 Hmem Htree Hneed].
  destruct (link_parent (bm s) g nb own r0 fk Htree Hr0 Hnone Hpar) as (Hk & Hf & _).
  assert (Hlk : bm s' = link nb fk perm (bm s)) by reflexivity.
  split_and!.
  - rewrite (bind_Ok _ _ _ _ _ (alloc_run s nb 1 Hb0 ltac:(lia) Hn ltac:(lia)
      ltac:(unfold slot, PAGE_SIZE, KERNEL_BASE_ADDR; lia))).
    rewrite (bind_Ok _ _ _ _ _ (lift_Ok _ _ _ (virt_to_phys_slot nb ltac:(lia)))).
    set (s1 := upd _ _ s).
    assert (Hm1 : mtotal (bm s1) (normal_maxpfn s)) by (by apply mtotal_zero).
    destruct (mtotal_ent (bm s1) _ fk.1 fk.2 Hm1 ltac:(lia) Hk) as [e He].
    erewrite in_bm_ok.
    2: { eapply entry_set_ok; [lia|done|exact He| | |]; unfold PAGE_SIZE in *; [lia| |lia].
         exists nb. done. }
    unfold s', s1, upd, link, put_ent, with_mem. simpl. destruct (bm s). done.
  - split; [done|done| | |].
    3: { intros f r. rewrite lookup_insert. case_decide; [by intros [= <-]|apply Hneed]. }
    + rewrite Hlk. unfold link. apply mtotal_put. apply (mtotal_zero (bm s) _ nb 1 Hmem).
    + rewrite Hlk. apply (link_btree _ _ _ (normal_maxpfn s)); try done; lia.
  - split; [done|]. intros f Hf'. rewrite Hlk. unfold link. rewrite mem_put_ne by lia. simpl.
    rewrite lookup_insert_ne by lia. done.
  - intros va. rewrite Hlk. apply (link_mapped _ _ _ (normal_maxpfn s) own r0); try done; lia.
Qed.
End walk.
End tables.

(** What the creation of tables preserves. *)
Record extended (g : Z) (s s' : bstate) (nb nb' : Z) (own' : gmap Z role) : Prop := {
  ex_ok : bok s' g nb' own';
  ex_only : tables_only g s s';
  ex_mapped : ∀ va, mapped (bm s') g 0 va = mapped (bm s) g 0 va;
  ex_base : nb ≤ nb';
}.

Lemma extended_refl g s nb own : bok s g nb own → extended g s s nb nb own.
Proof. intros Hs. split; [done|apply tables_only_refl|done|lia]. Qed.

Lemma extended_trans g s1 s2 s3 n1 n2 n3 own2 own3 :
  extended g s1 s2 n1 n2 own2 → extended g s2 s3 n2 n3 own3 → extended g s1 s3 n1 n3 own3.
Proof.
  intros [] []. split; [done|by eapply tables_only_trans| |lia]. intros va. congruence.
Qed.

Lemma table_bound g s nb own r f :
  bok s g nb own → role_ok r → role_frame (bm s) g 0 r = Some f →
  g < f < normal_maxpfn s ∧ 0 ≤ f < 0x30000 ∧ own !! f = Some r.
Proof.
  intros Hs Hr Hf. destruct (bok_range s g nb own Hs) as (Hg & Hnb & Hn).
  apply (bt_frame _ _ _ _ (bo_tree _ _ _ _ Hs)) in Hf; [|done].
  destruct (bt_own _ _ _ _ (bo_tree _ _ _ _ Hs) f r Hf) as [? _]. split_and!; try lia; done.
Qed.

Section walks.
Context (bss_end g va : Z).
Hypothesis (Hva : 0 < va < 2 ^ 32) (Hneed : needed (leaf_role va)).

Let i := pgd_index va.
Let j := pmd_index va.
Let k := pte_index va.

Lemma root_offset s nb own : bok s g nb own → pgd_offset (slot g 0) va = slot g i.
Proof.
  intros Hs. destruct (bok_range s g nb own Hs) as (Hg & Hnb & Hn). pose proof (index_ranges va).
  unfold pgd_offset. rewrite slot_u32 by lia. done.
Qed.

Lemma root_ent s nb own : bok s g nb own → ∃ e, ent (bm s) g i = Some e.
Proof.
  intros Hs. destruct (bok_range s g nb own Hs) as (Hg & Hnb & Hn). pose proof (index_ranges va).
  apply (mtotal_ent (bm s) (normal_maxpfn s)); [apply Hs|lia|lia].
Qed.

(** The directory of the middle level. *)
Lemma pmd_stage s nb own e :
  bok s g nb own → ent (bm s) g i = Some e →
  ∃ s' nb' own' P, (if pgd_none e then get_pmd bss_end (slot g i) TABLE_PERM else mret tt) s = Ok (tt, s') ∧
    extended g s s' nb nb' own' ∧ role_frame (bm s') g 0 (RPmd i) = Some P.
Proof.
  intros Hs He. pose proof (index_ranges va) as Hix. unfold pgd_none.
  assert (Hrf : role_frame (bm s) g 0 (RPmd i) = child e).
  { unfold role_frame. change (0 + i) with i. by rewrite He. }
  destruct (Z.eqb_spec e 0) as [->|Hne].
  - assert (Hr : role_ok (RPmd i)) by (simpl; unfold i; lia).
    destruct (new_table_ok bss_end s g nb own Hs (RPmd i) (g, i) 1 (proj1 Hneed) Hr Hrf eq_refl
      ltac:(unfold PAGE_SIZE; lia)) as (Hrun & Hok & Hto & Hmap).
    eexists _, (nb + 1), _, nb. split_and!; [exact Hrun| |].
    + split; [exact Hok|done|done|lia].
    + apply (bt_role _ _ _ _ (bo_tree _ _ _ _ Hok)). apply lookup_insert_eq.
  - exists s, nb, own, (eframe e). split_and!; [done|by apply extended_refl|].
    rewrite Hrf. unfold child. by rewrite decide_False.
Qed.

Lemma pmd_offset_run s nb own P :
  bok s g nb own → role_frame (bm s) g 0 (RPmd i) = Some P →
  in_bm (pmd_offset (slot g i) va) s = Ok (slot P j, s).
Proof.
  intros Hs HP. pose proof (index_ranges va) as Hix. destruct (root_ent s nb own Hs) as [e He].
  destruct (table_bound g s nb own (RPmd i) P Hs ltac:(simpl; unfold i; lia) HP) as (_ & HPb & _).
  apply in_bm_read. unfold pmd_offset. eapply follow_ok; [unfold i; lia|exact He| |done|unfold j; lia].
  unfold role_frame in HP. change (0 + i) with i in HP. by rewrite He in HP.
Qed.

(** The page table. *)
Lemma pte_stage s nb own P :
  bok s g nb own → role_frame (bm s) g 0 (RPmd i) = Some P →
  ∃ e s' nb' own' T, ent (bm s) P j = Some e ∧
    (if pmd_none e then get_pte bss_end (slot P j) TABLE_PERM ;; in_bm (pmd_offset (slot g i) va)
     else mret (slot P j)) s = Ok (slot P j, s') ∧
    extended g s s' nb nb' own' ∧ role_frame (bm s') g 0 (RPmd i) = Some P ∧
    role_frame (bm s') g 0 (RPte i j) = Some T.
Proof.
  intros Hs HP. pose proof (index_ranges va) as Hix.
  destruct (table_bound g s nb own (RPmd i) P Hs ltac:(simpl; unfold i; lia) HP) as (HPn & HPb & HPo).
  destruct (mtotal_ent (bm s) (normal_maxpfn s) P j (bo_mem _ _ _ _ Hs) ltac:(lia) ltac:(unfold j; lia))
    as [e He].
  exists e. unfold pmd_none.
  assert (Hrf : role_frame (bm s) g 0 (RPte i j) = child e).
  { rewrite role_frame_pte, HP. simpl. by rewrite He. }
  destruct (Z.eqb_spec e 0) as [->|Hne].
  - assert (Hr : role_ok (RPte i j)) by (simpl; unfold i, j; lia).
    assert (Hpar : parent_slot (bm s) g 0 (RPte i j) = Some (P, j)).
    { unfold parent_slot. by rewrite HP. }
    destruct (new_table_ok bss_end s g nb own Hs (RPte i j) (P, j) 7 Hneed Hr Hrf Hpar
      ltac:(unfold PAGE_SIZE; lia)) as (Hrun & Hok & Hto & Hmap).
    destruct (bok_range s g nb own Hs) as (Hg & Hnb & Hn).
    set (s' := upd _ _ s) in *. exists s', (nb + 1), (<[nb := RPte i j]> own), nb.
    assert (HP' : role_frame (bm s') g 0 (RPmd i) = Some P).
    { apply (bt_role _ _ _ _ (bo_tree _ _ _ _ Hok)). rewrite lookup_insert_ne; [done|].
      pose proof (bt_own _ _ _ _ (bo_tree _ _ _ _ Hs) P _ HPo). lia. }
    split_and!; [done| | |done|].
    + unfold get_pte. cbn [fst snd] in Hrun. rewrite (bind_Ok _ _ _ _ _ Hrun). by eapply pmd_offset_run.
    + split; [exact Hok|done|done|lia].
    + apply (bt_role _ _ _ _ (bo_tree _ _ _ _ Hok)). apply lookup_insert_eq.
  - exists s, nb, own, (eframe e). split_and!; [done|done|by apply extended_refl|done|].
    rewrite Hrf. unfold child. by rewrite decide_False.
Qed.

Lemma boot_page_walk_ok s nb own :
  bok s g nb own →
  ∃ s' nb' own' T, boot_page_walk bss_end (slot g 0) va true s = Ok (Some (slot T k), s') ∧
    extended g s s' nb nb' own' ∧ role_frame (bm s') g 0 (RPte i j) = Some T.
Proof.
  intros Hs. pose proof (index_ranges va) as Hix. unfold boot_page_walk. rewrite (root_offset s nb own Hs).
  destruct (root_ent s nb own Hs) as [e He]. cbv zeta.
  rewrite (bind_Ok _ _ _ _ _ (in_bm_read _ s _ (load64_ok (bm s) g i e ltac:(unfold i; lia) He))).
  rewrite andb_false_r. destruct (pmd_stage s nb own e Hs He) as (s1 & n1 & own1 & P & Hrun1 & Hex1 & HP1).
  rewrite (bind_Ok _ _ _ _ _ Hrun1). pose proof (ex_ok _ _ _ _ _ _ Hex1) as Hs1.
  rewrite (bind_Ok _ _ _ _ _ (pmd_offset_run s1 n1 own1 P Hs1 HP1)).
  destruct (pte_stage s1 n1 own1 P Hs1 HP1) as (e2 & s2 & n2 & own2 & T & He2 & Hrun2 & Hex2 & HP2 & HT2).
  rewrite (bind_Ok _ _ _ _ _ (in_bm_read _ s1 _ (load64_ok (bm s1) P j e2 ltac:(unfold j; lia) He2))).
  rewrite andb_false_r. rewrite (bind_Ok _ _ _ _ _ Hrun2). pose proof (ex_ok _ _ _ _ _ _ Hex2) as Hs2.
  destruct (table_bound g s2 n2 own2 (RPmd i) P Hs2 ltac:(simpl; unfold i; lia) HP2) as (HPn & HPb & _).
  destruct (table_bound g s2 n2 own2 (RPte i j) T Hs2 ltac:(simpl; unfold i, j; lia) HT2) as (_ & HTb & _).
  destruct (mtotal_ent (bm s2) (normal_maxpfn s2) P j (bo_mem _ _ _ _ Hs2) ltac:(lia) ltac:(unfold j; lia))
    as [e3 He3].
  assert (Hrun3 : in_bm (pte_offset (slot P j) va) s2 = Ok (slot T k, s2)).
  { apply in_bm_read. unfold pte_offset.
    rewrite (bind_Ok _ _ _ _ _ (assert_true _ (bm s2) (bool_decide_eq_true_2 (va ≠ 0) ltac:(lia)))).
    eapply follow_ok; [unfold j; lia|exact He3| |done|unfold k; lia].
    rewrite role_frame_pte, HP2 in HT2. simpl in HT2. by rewrite He3 in HT2. }
  rewrite (bind_Ok _ _ _ _ _ Hrun3). exists s2, n2, own2, T.
  split_and!; [done|by eapply extended_trans|done].
Qed.
End walks.

(** ** Writing an entry *)

Lemma same_page_32 va va' :
  0 ≤ va < 2 ^ 32 → 0 ≤ va' < 2 ^ 32 →
  same_page va va' ↔ leaf_role va = leaf_role va' ∧ pte_index va = pte_index va'.
Proof.
  intros Hv Hv'. unfold same_page, leaf_role. rewrite !indices_page by done.
  pose proof (index_ranges va). pose proof (index_ranges va').
  split; [|intros [[= -> ->] ->]; done]. intros E. split; [f_equal|]; lia.
Qed.

Section leaf.
Context (s : bstate) (g nb va T v : Z) (own : gmap Z role).
Hypothesis (Hs : bok s g nb own) (Hva : 0 ≤ va < 2 ^ 32).
Hypothesis (HT : role_frame (bm s) g 0 (leaf_role va) = Some T).

Definition leaf_written : bstate := upd (mem (put_ent T (pte_index va) v (bm s))) (base s) s.

Lemma leaf_own : role_ok (leaf_role va) ∧ own !! T = Some (leaf_role va) ∧ g < T < normal_maxpfn s.
Proof.
  pose proof (index_ranges va). assert (Hr : role_ok (leaf_role va)) by (simpl; lia). split; [done|].
  by destruct (table_bound g s nb own _ T Hs Hr HT) as (? & _ & ?).
Qed.

Lemma leaf_written_role r : role_ok r → role_frame (bm leaf_written) g 0 r = role_frame (bm s) g 0 r.
Proof.
  intros Hr. destruct leaf_own as (_ & HTo & HTb). pose proof (index_ranges va) as Hix.
  change (bm leaf_written) with (put_ent T (pte_index va) v (bm s)).
  assert (E : ∀ i, 0 ≤ i < 4 →
    role_frame (put_ent T (pte_index va) v (bm s)) g 0 (RPmd i) = role_frame (bm s) g 0 (RPmd i)).
  { intros i Hi. unfold role_frame. rewrite ent_put_ne; [done|lia|lia|]. intros [= ? ?]. lia. }
  destruct r as [i|i j]; simpl in Hr; [by apply E|]. rewrite !role_frame_pte, E by lia.
  destruct (role_frame (bm s) g 0 (RPmd i)) as [P|] eqn:EP; [|done]. simpl.
  destruct (table_bound g s nb own (RPmd i) P Hs ltac:(simpl; lia) EP) as (_ & _ & HP).
  rewrite ent_put_ne; [done|lia|lia|]. intros [= -> _]. rewrite HTo in HP. done.
Qed.

Lemma leaf_written_ok : bok leaf_written g nb own.
Proof.
  destruct Hs as [H1 H2 H3 H4 H5]. split; [done|done|by apply mtotal_put| |done].
  split; [apply H4|apply H4|apply H4| |].
  - intros f r Hf. destruct (bt_own _ _ _ _ H4 f r Hf) as [_ Hr]. rewrite leaf_written_role by done.
    by apply (bt_role _ _ _ _ H4).
  - intros r f Hr. rewrite leaf_written_role by done. by apply (bt_frame _ _ _ _ H4).
Qed.

Lemma leaf_written_mapped va' :
  0 ≤ va' < 2 ^ 32 → pte_present v = true →
  mapped (bm leaf_written) g 0 va' = if decide (same_page va va') then Some v else mapped (bm s) g 0 va'.
Proof.
  intros Hva' Hv. destruct leaf_own as (Hr & HTo & HTb). pose proof (index_ranges va) as Hix.
  pose proof (index_ranges va') as Hix'. pose proof (same_page_32 va va' Hva Hva') as Hsp.
  unfold mapped, entry_at. fold (leaf_role va'). rewrite leaf_written_role by (simpl; lia).
  change (bm leaf_written) with (put_ent T (pte_index va) v (bm s)).
  destruct (decide (same_page va va')) as [E|E].
  - apply Hsp in E as [<- <-]. rewrite HT. simpl.
    destruct (mtotal_ent (bm s) (normal_maxpfn s) T (pte_index va) (bo_mem _ _ _ _ Hs)) as [e He];
      [pose proof (bok_range s g nb own Hs); lia|lia|].
    rewrite (ent_put_eq _ _ _ _ e He). simpl. by rewrite Hv.
  - destruct (role_frame (bm s) g 0 (leaf_role va')) as [T'|] eqn:ET; [|done]. simpl.
    rewrite ent_put_ne; [done|lia|lia|]. intros [= -> Ek]. apply E, Hsp. split; [|done].
    destruct (table_bound g s nb own (leaf_role va') T Hs ltac:(simpl; lia) ET) as (_ & _ & HT').
    congruence.
Qed.

Lemma leaf_written_only : tables_only g s leaf_written.
Proof.
  destruct leaf_own as (_ & _ & HTb). split; [done|]. intros f Hf.
  change (bm leaf_written) with (put_ent T (pte_index va) v (bm s)). rewrite mem_put_ne by lia. done.
Qed.
End leaf.

(** ** Mapping a region *)

(** [s'] maps the [n] pages from [va] on to the frames from [pa] on, with [perm]. *)
Record region_mapped (g : Z) (s s' : bstate) (va n pa perm : Z) : Prop := {
  rm_ok : ∃ nb own, bok s' g nb own;
  rm_only : tables_only g s s';
  rm_mapped : ∀ va', 0 ≤ va' < 2 ^ 32 →
    mapped (bm s') g 0 va' =
      if decide (va ≤ va' < va + n * PAGE_SIZE)
      then Some (pa + (va' - va) / PAGE_SIZE * PAGE_SIZE + perm) else mapped (bm s) g 0 va';
}.

(** The regions the kernel maps: aligned, inside the address space. *)
Record region_ok (va n pa perm : Z) : Prop := {
  ro_va : 0 < va ∧ va + n * PAGE_SIZE ≤ 2 ^ 32;
  ro_align : (PAGE_SIZE | va) ∧ (PAGE_SIZE | pa);
  ro_pa : 0 ≤ pa ∧ pa + n * PAGE_SIZE ≤ 2 ^ 63;
  ro_perm : 0 < perm < PAGE_SIZE ∧ has_flag perm _PAGE_PRESENT = true;
  ro_tables : ∀ va', va ≤ va' < va + n * PAGE_SIZE → needed (leaf_role va');
}.

(** The first page of a region and the rest of it. *)
Lemma region_step (ai va' p perm n : Z) (o : option Z) :
  (PAGE_SIZE | ai) → 0 ≤ n →
  (if decide (ai + PAGE_SIZE ≤ va' < ai + PAGE_SIZE + n * PAGE_SIZE)
   then Some (p + PAGE_SIZE + (va' - (ai + PAGE_SIZE)) / PAGE_SIZE * PAGE_SIZE + perm)
   else if decide (same_page ai va') then Some (p + perm) else o) =
  if decide (ai ≤ va' < ai + Z.succ n * PAGE_SIZE)
  then Some (p + (va' - ai) / PAGE_SIZE * PAGE_SIZE + perm) else o.
Proof.
  intros [q ->] Hn.
  assert (Hsp : same_page (q * PAGE_SIZE) va' ↔ q * PAGE_SIZE ≤ va' < q * PAGE_SIZE + PAGE_SIZE).
  { unfold same_page. rewrite Z.div_mul by done. unfold PAGE_SIZE.
    pose proof (Z.div_mod va' 4096 ltac:(lia)). pose proof (Z.mod_pos_bound va' 4096 ltac:(lia)). lia. }
  assert (Hdv : (va' - q * PAGE_SIZE) / PAGE_SIZE = va' / PAGE_SIZE - q).
  { replace (va' - q * PAGE_SIZE) with (va' + (- q) * PAGE_SIZE) by lia. rewrite Z.div_add by done. lia. }
  assert (Hdv' : (va' - (q * PAGE_SIZE + PAGE_SIZE)) / PAGE_SIZE = va' / PAGE_SIZE - q - 1).
  { replace (va' - (q * PAGE_SIZE + PAGE_SIZE)) with (va' + (- q - 1) * PAGE_SIZE) by lia.
    rewrite Z.div_add by done. lia. }
  rewrite Hdv, Hdv'. destruct (decide (same_page (q * PAGE_SIZE) va')) as [E|E]; rewrite Hsp in E.
  - assert (va' / PAGE_SIZE = q) as -> by (apply Hsp in E; unfold same_page in E; by rewrite Z.div_mul in E).
    unfold PAGE_SIZE in *. rewrite decide_False, decide_True by lia. f_equal. lia.
  - unfold PAGE_SIZE in *. repeat case_decide; try lia; try done. f_equal. lia.
Qed.

Section region.
Context (bss_end g va pa perm : Z).

Lemma boot_map_loop_ok n : ∀ i s nb own,
  region_ok va (i + Z.of_nat n) pa perm → 0 ≤ i → bok s g nb own →
  ∃ s', boot_map_loop bss_end n (slot g 0) va pa perm (i * PAGE_SIZE) s = Ok (tt, s') ∧
    region_mapped g s s' (va + i * PAGE_SIZE) (Z.of_nat n) (pa + i * PAGE_SIZE) perm.
Proof.
  induction n as [|n IH]; intros i s nb own Hro Hi Hs; cbn [boot_map_loop].
  { exists s. split; [done|]. split; [eauto|apply tables_only_refl|]. intros va' _.
    rewrite decide_False by (unfold PAGE_SIZE; lia). done. }
  destruct Hro as [Hva Hal Hpa Hperm Htab] eqn:Ero. clear Ero. unfold PAGE_SIZE in Hva, Hpa, Hperm.
  set (ai := va + i * PAGE_SIZE).
  assert (Hai : 0 < ai < 2 ^ 32) by (unfold ai, PAGE_SIZE; lia).
  assert (Hdiv : (PAGE_SIZE | ai)) by (apply Z.divide_add_r; [apply Hal|by exists i]).
  rewrite (u32_small ai) by lia.
  destruct (boot_page_walk_ok bss_end g ai Hai ltac:(apply Htab; unfold ai, PAGE_SIZE; lia) s nb own Hs) as (s1 & n1 & own1 & T & Hrun & Hex & HT).
  rewrite (bind_Ok _ _ _ _ _ Hrun). pose proof (ex_ok _ _ _ _ _ _ Hex) as Hs1.
  pose proof (index_ranges ai) as Hix.
  destruct (table_bound g s1 n1 own1 (leaf_role ai) T Hs1 ltac:(simpl; lia) HT) as (HTn & HTb & _).
  destruct (mtotal_ent (bm s1) (normal_maxpfn s1) T (pte_index ai) (bo_mem _ _ _ _ Hs1)) as [e He];
    [lia|lia|].
  set (p := pa + i * PAGE_SIZE).
  assert (Hp : 0 ≤ p < 2 ^ 63 ∧ (PAGE_SIZE | p)).
  { split; [unfold p, PAGE_SIZE; lia|]. apply Z.divide_add_r; [apply Hal|by exists i]. }
  rewrite (u64_small p) by lia.
  assert (Hset : in_bm (entry_set (slot T (pte_index ai)) p perm) s1 =
    Ok (tt, leaf_written s1 ai T (p + perm))).
  { erewrite in_bm_ok by (eapply entry_set_ok; [lia|lia|exact He|lia|apply Hp|lia]).
    unfold leaf_written, upd. by destruct (bm s1). }
  rewrite (bind_Ok _ _ _ _ _ Hset).
  replace (i * PAGE_SIZE + PAGE_SIZE) with ((i + 1) * PAGE_SIZE) by lia.
  set (s2 := leaf_written _ _ _ _).
  destruct (IH (i + 1) s2 n1 own1) as (s3 & Hrun3 & [Hok3 Hto3 Hmap3]).
  { replace (i + 1 + Z.of_nat n) with (i + Z.of_nat (S n)) by lia. done. }
  { lia. }
  { by apply leaf_written_ok. }
  exists s3. split; [done|]. split; [done| |].
  - eapply tables_only_trans; [apply (ex_only _ _ _ _ _ _ Hex)|]. eapply tables_only_trans; [|exact Hto3].
    by eapply leaf_written_only.
  - intros va' Hva'. rewrite Hmap3 by done. fold ai p. rewrite !Z.mul_add_distr_r, !Z.mul_1_l.
    unfold s2. erewrite leaf_written_mapped; [|done|lia|done|done|].
    2: { destruct Hp as [_ [q ->]]. apply present_entry; [unfold PAGE_SIZE in *; lia|apply Hperm]. }
    rewrite (ex_mapped _ _ _ _ _ _ Hex).
    replace (va + (i * PAGE_SIZE + PAGE_SIZE)) with (ai + PAGE_SIZE) by (unfold ai; lia).
    replace (pa + (i * PAGE_SIZE + PAGE_SIZE)) with (p + PAGE_SIZE) by (unfold p; lia).
    rewrite Nat2Z.inj_succ. apply region_step; [done|lia].
Qed.

Lemma boot_map_region_ok n s nb own :
  region_ok va n pa perm → 0 ≤ n → bok s g nb own →
  ∃ s', boot_map_region bss_end (slot g 0) va (n * PAGE_SIZE) pa perm s = Ok (tt, s') ∧
    region_mapped g s s' va n pa perm.
Proof.
  intros Hro Hn Hs. unfold boot_map_region.
  replace ((n * PAGE_SIZE + PAGE_SIZE - 1) / PAGE_SIZE) with n
    by (unfold PAGE_SIZE; apply Z.div_unique with 4095; lia).
  destruct (boot_map_loop_ok (Z.to_nat n) 0 s nb own) as (s' & Hrun & Hrm); [|lia|done|].
  { by rewrite Z.add_0_l, Z2Nat.id by lia. }
  exists s'. split; [exact Hrun|]. rewrite !Z.mul_0_l, !Z.add_0_r, Z2Nat.id in Hrm by lia. done.
Qed.
End region.
