(* ===== verification/BootProofs.v ===== *)
(** * Memory at boot: the kernel's address space, the page descriptors, the zones

    [bootmm] returns, with the kernel's page tables mapping exactly the documented
    regions, with the frames that are usable memory and hold neither the kernel nor its
    tables free in the zones, and with the invariants of the memory manager and of the
    slab allocator established. *)

From S2P Require Import Prelude Layout Buddy BuddyProofs Paging PagingProofs Slab SlabProofs SlabInv SlabSafety SlabClients Boot BootTables BootDetect.

Local Open Scope Z_scope.

(** ** The kernel's address space *)

Definition LAPIC_PERM : Z := 0x1B.

(** The regions of include/mm/layout.h; [kst] is the physical address of the stacks. *)
Definition kernel_entry (kst va : Z) : option Z :=
  if decide (KERNEL_BASE_ADDR ≤ va < KERNEL_NORMAL) then
    Some ((va - KERNEL_BASE_ADDR) / PAGE_SIZE * PAGE_SIZE + 3)
  else if decide (KERNEL_VIDEO ≤ va < KERNEL_VIDEO + PT_SIZE) then
    Some (0xb8000 + (va - KERNEL_VIDEO) / PAGE_SIZE * PAGE_SIZE + 3)
  else if decide (KERNEL_MMIO ≤ va < KERNEL_MMIO + CPUNUMS * PAGE_SIZE) then
    Some (0xFEE00000 + LAPIC_PERM)
  else
    let d := (KERNEL_STACK_TOP - 1 - va) / PAGE_SIZE in
    if decide (0 ≤ d < 2 * CPUNUMS ∧ d mod 2 = 0) then Some (kst + d / 2 * PAGE_SIZE + 3) else None.

(** ** The tables of the regions *)

Lemma leaf_role_high va : 0xC0000000 ≤ va < 2 ^ 32 → leaf_role va = RPte 3 ((va - 0xC0000000) / 2 ^ 21).
Proof.
  intros Hv. unfold leaf_role, pgd_index, pmd_index, PGDIR_SHIFT, PMD_SHIFT, PTRS_PER_PGD, PTRS_PER_PMD.
  change (4 - 1) with (Z.ones 2). change (512 - 1) with (Z.ones 9). rewrite !Z.land_ones, !Z.shiftr_div_pow2 by lia.
  f_equal; Z.to_euclidean_division_equations; lia.
Qed.

Lemma region_needed va :
  0xC0000000 ≤ va < 0xF0000000 ∨ 0xF0600000 ≤ va < 0xF0800000 ∨ 0xFF000000 ≤ va < 0xFF400000 ∨
  0xFF800000 ≤ va < 0xFFA00000 → needed (leaf_role va).
Proof.
  intros Hv. rewrite leaf_role_high by lia. split; [done|]. Z.to_euclidean_division_equations. lia.
Qed.

(** A page of each table that is needed. *)
Lemma needed_mapped kst r :
  needed r → ∃ va e, 0 ≤ va < 2 ^ 32 ∧ kernel_entry kst va = Some e ∧
    (r = leaf_role va ∨ r = RPmd 3 ∧ leaf_role va = RPte 3 0).
Proof.
  assert (H : ∀ j, 0 ≤ j < 384 ∨ j = 387 ∨ 504 ≤ j < 506 ∨ j = 508 →
    ∃ va e, 0 ≤ va < 2 ^ 32 ∧ kernel_entry kst va = Some e ∧ leaf_role va = RPte 3 j).
  { intros j Hj. set (va := if decide (j = 387) then 0xF07FF000 else 0xC0000000 + j * 2 ^ 21).
    exists va. assert (Hr : leaf_role va = RPte 3 j).
    { unfold va. case_decide; [subst j; reflexivity|]. rewrite leaf_role_high by lia. f_equal.
      replace (_ - _) with (j * 2 ^ 21) by lia. by apply Z.div_mul. }
    unfold kernel_entry. unfold KERNEL_BASE_ADDR, KERNEL_NORMAL, KERNEL_VIDEO, KERNEL_MMIO, CPUNUMS, PAGE_SIZE.
    change PT_SIZE with 0x400000. unfold va in *. case_decide; [subst j; eexists; split_and!; [lia|lia|reflexivity|done]|].
    destruct (decide (j < 384)); [rewrite decide_True by lia; eexists; split_and!; [lia|lia|done|done]|].
    rewrite decide_False by lia. destruct (decide (j < 506)).
    - rewrite decide_True by lia. eexists. split_and!; [lia|lia|done|done].
    - rewrite decide_False, decide_True by lia. eexists. split_and!; [lia|lia|done|done]. }
  destruct r as [i|i j]; simpl.
  - intros ->. destruct (H 0 ltac:(lia)) as (va & e & Hv & He & Hr). exists va, e. auto.
  - intros [-> Hj]. destruct (H j Hj) as (va & e & Hv & He & Hr). exists va, e. auto.
Qed.

Section regions.
Context (bss_end g : Z).

(** Register pages of the processors from [i] on. *)
Lemma map_lapics_ok n : ∀ i s nb own,
  0 ≤ i → i + Z.of_nat n ≤ CPUNUMS → kpgd s = slot g 0 → bok s g nb own →
  ∃ s' nb' own', map_lapics bss_end n i s = Ok (tt, s') ∧ bok s' g nb' own' ∧ tables_only g s s' ∧
    ∀ va, 0 ≤ va < 2 ^ 32 → mapped (bm s') g 0 va =
      if decide (KERNEL_MMIO + i * PAGE_SIZE ≤ va < KERNEL_MMIO + (i + Z.of_nat n) * PAGE_SIZE)
      then Some (0xFEE00000 + LAPIC_PERM) else mapped (bm s) g 0 va.
Proof.
  unfold CPUNUMS, KERNEL_MMIO, PAGE_SIZE.
  induction n as [|n IH]; intros i s nb own Hi Hn Hk Hs; cbn [map_lapics].
  { exists s, nb, own. split_and!; [done|done|apply tables_only_refl|]. intros va _.
    by rewrite decide_False by lia. }
  run_step. rewrite Hk. unfold KERNEL_MMIO, PAGE_SIZE.
  rewrite (u32_small (i * 4096)) by lia. rewrite (u32_small (_ + i * 4096)) by lia.
  destruct (boot_map_region_ok bss_end g (0xFF800000 + i * 4096) 0xFEE00000 LAPIC_PERM 1 s nb own)
    as (s1 & Hrun & [(nb1 & own1 & Hs1) Hto1 Hmap1]); [|lia|done|].
  { split; unfold PAGE_SIZE, LAPIC_PERM; [lia| |lia|done|intros va' Hva'; apply region_needed; lia].
    split; [exists (0xFF800 + i); lia|exists 0xFEE00; done]. }
  rewrite Z.mul_1_l in Hrun. rewrite (bind_Ok _ _ _ _ _ Hrun).
  destruct (IH (i + 1) s1 nb1 own1) as (s2 & nb2 & own2 & Hrun2 & Hs2 & Hto2 & Hmap2);
    [lia|lia|by rewrite (proj1 Hto1)|done|].
  exists s2, nb2, own2. split_and!; [done|done|by eapply tables_only_trans|].
  intros va Hva. rewrite Hmap2, Hmap1 by done. unfold PAGE_SIZE.
  repeat case_decide; try lia; try done. f_equal.
  assert ((va - (0xFF800000 + i * 4096)) / 4096 = 0) as -> by (apply Z.div_small; lia). done.
Qed.

(** Kernel stacks of the processors from [i] on. *)
Lemma map_stacks_ok kf n : ∀ i s nb own,
  0 ≤ kf → kf + CPUNUMS ≤ 0x30000 → 0 ≤ i → i + Z.of_nat n ≤ CPUNUMS → kpgd s = slot g 0 → bok s g nb own →
  ∃ s' nb' own', map_stacks bss_end (slot kf 0) n i s = Ok (tt, s') ∧ bok s' g nb' own' ∧
    tables_only g s s' ∧
    ∀ va, 0 ≤ va < 2 ^ 32 → mapped (bm s') g 0 va =
      let d := (KERNEL_STACK_TOP - 1 - va) / PAGE_SIZE in
      if decide (2 * i ≤ d < 2 * (i + Z.of_nat n) ∧ d mod 2 = 0)
      then Some (kf * PAGE_SIZE + d / 2 * PAGE_SIZE + 3) else mapped (bm s) g 0 va.
Proof.
  intros i s nb own Hkf Hkf'. revert i s nb own. unfold CPUNUMS in *. cbv zeta.
  induction n as [|n IH]; intros i s nb own Hi Hn Hk Hs; cbn [map_stacks].
  { exists s, nb, own. split_and!; [done|done|apply tables_only_refl|]. intros va _.
    by rewrite decide_False by lia. }
  run_step. unfold KERNEL_STKSIZE.
  assert (Hslot : u32 (slot kf 0 + i * 4096) = slot (kf + i) 0).
  { unfold slot, PAGE_SIZE, KERNEL_BASE_ADDR. rewrite u32_small; lia. }
  rewrite Hslot, (bind_Ok _ _ _ _ _ (lift_Ok _ _ _ (virt_to_phys_slot (kf + i) ltac:(lia)))).
  rewrite Hk. change (Z.lor _PAGE_PRESENT _PAGE_RW) with 3.
  assert (Hva0 : u32 (KERNEL_STACK_TOP - 4096 - (4096 + PAGE_SIZE) * i) = 0xF07FF000 - 8192 * i).
  { unfold KERNEL_STACK_TOP, PAGE_SIZE. rewrite u32_small; lia. }
  rewrite Hva0.
  destruct (boot_map_region_ok bss_end g (0xF07FF000 - 8192 * i) ((kf + i) * PAGE_SIZE) 3 1 s nb own)
    as (s1 & Hrun & [(nb1 & own1 & Hs1) Hto1 Hmap1]); [|lia|done|].
  { split; unfold PAGE_SIZE; [lia| |lia|done|intros va' Hva'; apply region_needed; lia].
    split; [exists (0xF07FF - 2 * i); lia|by exists (kf + i)]. }
  rewrite Z.mul_1_l in Hrun. change (boot_map_region bss_end (slot g 0) (0xF07FF000 - 8192 * i) 4096) with
    (boot_map_region bss_end (slot g 0) (0xF07FF000 - 8192 * i) PAGE_SIZE).
  rewrite (bind_Ok _ _ _ _ _ Hrun).
  destruct (IH (i + 1) s1 nb1 own1) as (s2 & nb2 & own2 & Hrun2 & Hs2 & Hto2 & Hmap2);
    [lia|lia|by rewrite (proj1 Hto1)|done|].
  exists s2, nb2, own2. split_and!; [done|done|by eapply tables_only_trans|].
  intros va Hva. rewrite Hmap2, Hmap1 by done. unfold PAGE_SIZE, KERNEL_STACK_TOP in *.
  set (d := (0xF0800000 - 1 - va) / 4096).
  assert (Hd : 4096 * d ≤ 0xF0800000 - 1 - va < 4096 * d + 4096).
  { unfold d. pose proof (Z.div_mod (0xF0800000 - 1 - va) 4096 ltac:(lia)).
    pose proof (Z.mod_pos_bound (0xF0800000 - 1 - va) 4096 ltac:(lia)). lia. }
  assert (Hdm : d = 2 * (d / 2) + d mod 2 ∧ 0 ≤ d mod 2 < 2).
  { split; [apply Z.div_mod; lia|apply Z.mod_pos_bound; lia]. }
  clearbody d.
  repeat case_decide; try lia; try done.
  f_equal. assert ((va - (0xF07FF000 - 8192 * i)) / 4096 = 0) as -> by (apply Z.div_small; lia). lia.
Qed.
End regions.

(** ** The first allocation and the directory *)

Lemma zero_ent m f k : mem m !! f = Some zero_page → 0 ≤ k < 512 → ent m f k = Some 0.
Proof. intros Hz Hk. unfold ent. rewrite Hz. simpl. apply lookup_replicate_2. lia. Qed.

Section init.
Context (bss_end g : Z).
Hypothesis (Hbss : KERNEL_BASE_ADDR ≤ bss_end) (Hg : g = (bss_end + 0xFFF - KERNEL_BASE_ADDR) / PAGE_SIZE).

Lemma image_base : g < 0x30000 → ROUNDDOWN (u32 (bss_end + 0xFFF)) PAGE_SIZE = slot g 0 ∧ 0 ≤ g.
Proof.
  unfold slot, ROUNDDOWN, PAGE_SIZE, KERNEL_BASE_ADDR in *. intros Hlt.
  pose proof (Z.div_mod (bss_end + 0xFFF - 3221225472) 4096 ltac:(lia)) as Hdm. rewrite <- Hg in Hdm.
  pose proof (Z.mod_pos_bound (bss_end + 0xFFF - 3221225472) 4096 ltac:(lia)) as Hmb.
  rewrite u32_small by lia.
  replace ((bss_end + 0xFFF) mod 4096) with ((bss_end + 0xFFF - 3221225472) mod 4096).
  - lia.
  - rewrite <- (Z.mod_add (bss_end + 0xFFF - 3221225472) 786432 4096) by lia. f_equal. lia.
Qed.

Lemma alloc_first n s :
  base s = 0 → g < 0x30000 →
  alloc_bootmm_pages bss_end n s = alloc_bootmm_pages bss_end n (upd (mem (bm s)) (slot g 0) s).
Proof.
  intros Hb Hlt. destruct (image_base Hlt) as [Hi Hg0]. unfold alloc_bootmm_pages.
  run_step. rewrite Hb, (bool_decide_true (0 = 0)) by done. rewrite Hi. unfold set_base. run_step.
  symmetry. run_step. rewrite (bool_decide_false (base _ = 0)) by (apply slot_pos; lia). run_step.
  destruct s as [[]]. simpl in *. done.
Qed.

(** An empty directory. *)
Lemma empty_btree m : mtotal m (g + 1) → 0 ≤ g → mem m !! g = Some zero_page → btree m g (g + 1) ∅.
Proof.
  intros Hm Hg0 Hz.
  pose proof (zero_ent m g) as Hent.
  assert (Hnone : ∀ r, role_ok r → role_frame m g 0 r = None).
  { assert (Hp : ∀ i, 0 ≤ i < 4 → role_frame m g 0 (RPmd i) = None).
    { intros i Hi. unfold role_frame. rewrite Hent by (done || lia). done. }
    intros [i|i j] Hr; simpl in Hr; [by apply Hp|]. rewrite role_frame_pte, Hp by lia. done. }
  split.
  - lia.
  - intros f r. by rewrite lookup_empty.
  - intros f Hf. lia.
  - intros f r. by rewrite lookup_empty.
  - intros r f Hr. by rewrite Hnone.
Qed.

Lemma unmapped_if_empty m va : mem m !! g = Some zero_page → mapped m g 0 va = None.
Proof.
  intros Hz. pose proof (index_ranges va). unfold mapped, entry_at, role_frame.
  by rewrite (zero_ent m g) by (done || lia).
Qed.

(** Only frames from [g] on, [base] and [kpgd] differ. *)
Record kept (s s' : bstate) : Prop := {
  kp_bm : bm s' = with_mem (mem (bm s')) (bm s);
  kp_map : mmapinfo s' = mmapinfo s;
  kp_normal : normal_maxpfn s' = normal_maxpfn s;
  kp_high : high_maxpfn s' = high_maxpfn s;
  kp_total : totalram_pages s' = totalram_pages s;
  kp_mmio : mmio_base s' = mmio_base s;
  kp_low : ∀ f, f < g → mem (bm s') !! f = mem (bm s) !! f;
}.

(** Everything [bootmm_init] does before the page descriptors. *)
Definition tables_part (kstacks : Z) : M bstate unit :=
  pgd ← alloc_bootmm_pages bss_end 1;
  set_kpgd pgd ;;
  in_bm (set_mem (zero_frames (frame_of pgd) 1)) ;;
  boot_map_region bss_end pgd KERNEL_BASE_ADDR NORMAL_ADDR 0 (Z.lor _PAGE_RW _PAGE_PRESENT) ;;
  boot_map_region bss_end pgd KERNEL_VIDEO PT_SIZE 0xb8000 (Z.lor _PAGE_RW _PAGE_PRESENT) ;;
  map_lapics bss_end (Z.to_nat CPUNUMS) 0 ;;
  map_stacks bss_end kstacks (Z.to_nat CPUNUMS) 0.

Lemma tables_part_ok s kf :
  base s = 0 → g + 2053 < normal_maxpfn s ≤ 0x30000 → mtotal (bm s) (normal_maxpfn s) →
  0 ≤ kf → kf + CPUNUMS ≤ 0x30000 →
  ∃ s' nb own, tables_part (slot kf 0) s = Ok (tt, s') ∧ bok s' g nb own ∧ kpgd s' = slot g 0 ∧
    kept s s' ∧
    ∀ va, 0 ≤ va < 2 ^ 32 → mapped (bm s') g 0 va = kernel_entry (kf * PAGE_SIZE) va.
Proof.
  intros Hb Hn Hm Hkf Hkf'. destruct (image_base ltac:(lia)) as [_ Hg0].
  set (m0 := zero_frames g 1 (zero_frames g 1 (mem (bm s)))).
  set (s0 := mk_bstate (with_mem m0 (bm s)) (mmapinfo s) (normal_maxpfn s) (high_maxpfn s)
    (totalram_pages s) (slot (g + 1) 0) (mmio_base s) (slot g 0)).
  assert (Hz : m0 !! g = Some zero_page).
  { unfold m0. rewrite zero_frames_lookup. by rewrite decide_True by lia. }
  assert (Hs0 : bok s0 g (g + 1) ∅).
  { assert (Hmt : mtotal (bm s0) (normal_maxpfn s)).
    { exact (mtotal_zero (with_mem _ (bm s)) _ g 1 (mtotal_zero (bm s) _ g 1 Hm)). }
    split; [done|done|done| |by intros f r; rewrite lookup_empty]. apply empty_btree; [|done|done]. intros f Hf. apply Hmt. lia. }
  destruct (boot_map_region_ok bss_end g KERNEL_BASE_ADDR 0 3 0x30000 s0 (g + 1) ∅)
    as (s1 & Hrun1 & [(n1 & own1 & Hs1) Hto1 Hmap1]); [|lia|done|].
  { split; unfold KERNEL_BASE_ADDR, PAGE_SIZE; [lia| |lia|done|intros va' Hva'; apply region_needed; lia].
    split; [by exists 0xC0000|by exists 0]. }
  destruct (boot_map_region_ok bss_end g KERNEL_VIDEO 0xb8000 3 1024 s1 n1 own1)
    as (s2 & Hrun2 & [(n2 & own2 & Hs2) Hto2 Hmap2]); [|lia|done|].
  { split; unfold KERNEL_VIDEO, PAGE_SIZE; [lia| |lia|done|intros va' Hva'; apply region_needed; lia].
    split; [by exists 0xFF000|by exists 0xb8]. }
  assert (Hk2 : kpgd s2 = slot g 0) by (by rewrite (proj1 Hto2), (proj1 Hto1)).
  destruct (map_lapics_ok bss_end g (Z.to_nat CPUNUMS) 0 s2 n2 own2)
    as (s3 & n3 & own3 & Hrun3 & Hs3 & Hto3 & Hmap3); [lia|done|done|done|].
  assert (Hk3 : kpgd s3 = slot g 0) by (by rewrite (proj1 Hto3)).
  destruct (map_stacks_ok bss_end g kf (Z.to_nat CPUNUMS) 0 s3 n3 own3)
    as (s4 & n4 & own4 & Hrun4 & Hs4 & Hto4 & Hmap4); [done|done|lia|done|done|done|].
  exists s4, n4, own4. split_and!; [|done|by rewrite (proj1 Hto4)| |].
  - unfold tables_part. erewrite bind_Ok.
    2: { rewrite alloc_first by (done || lia). eapply alloc_run; try done; simpl; try lia.
         unfold slot, PAGE_SIZE, KERNEL_BASE_ADDR. lia. }
    unfold set_kpgd. run_step. erewrite bind_Ok.
    2: { apply in_bm_ok. unfold set_mem, modify. rewrite slot_frame by lia. reflexivity. }
    change (Z.lor _PAGE_RW _PAGE_PRESENT) with 3.
    cbn [bm mmapinfo normal_maxpfn high_maxpfn totalram_pages base mmio_base kpgd upd].
    assert (E : mk_bstate (mk_mstate (zone_normal (bm s)) (zone_high (bm s)) (mempage (bm s))
      (m_max_pfn (bm s)) m0 (tlb (bm s))) (mmapinfo s) (normal_maxpfn s) (high_maxpfn s)
      (totalram_pages s) (slot (g + 1) 0) (mmio_base s) (slot g 0) = s0) by reflexivity.
    rewrite (bind_Ok _ _ _ _ _ (Hrun1 : boot_map_region bss_end (slot g 0) KERNEL_BASE_ADDR NORMAL_ADDR 0 3 s0 = _)).
    rewrite (bind_Ok _ _ _ _ _ (Hrun2 : boot_map_region bss_end (slot g 0) KERNEL_VIDEO PT_SIZE 0xb8000 3 s1 = _)).
    rewrite (bind_Ok _ _ _ _ _ Hrun3). exact Hrun4.
  - assert (Hto : tables_only g s0 s4).
    { repeat (eapply tables_only_trans; [eassumption|]). apply tables_only_refl. }
    destruct Hto as [E Hlow]. rewrite E. split; try done. intros f Hf. simpl. rewrite Hlow by done.
    simpl. unfold m0. rewrite !zero_frames_lookup. by rewrite !decide_False by lia.
  - intros va Hva. rewrite Hmap4, Hmap3, Hmap2, Hmap1 by done.
    rewrite (unmapped_if_empty (bm s0) va Hz). unfold kernel_entry. cbv zeta.
    unfold KERNEL_BASE_ADDR, KERNEL_NORMAL, KERNEL_VIDEO, KERNEL_MMIO, KERNEL_STACK_TOP, PT_SIZE, PAGE_SIZE,
      CPUNUMS in *. change (Z.shiftl 4096 10) with 4194304. rewrite !Z2Nat.id by lia.
    set (d := (4034920448 - 1 - va) / 4096).
    assert (Hd : 4096 * d ≤ 4034920448 - 1 - va < 4096 * d + 4096).
    { unfold d. pose proof (Z.div_mod (4034920448 - 1 - va) 4096 ltac:(lia)).
      pose proof (Z.mod_pos_bound (4034920448 - 1 - va) 4096 ltac:(lia)). lia. }
    clearbody d. repeat case_decide; try lia; try done.
Qed.
End init.

(** ** The page descriptors *)

(** Frame [i] lies in a region of usable memory. *)
Definition in_ram (l : list mmap) (i : Z) : Prop :=
  ∃ r, r ∈ l ∧ type r = 1 ∧ phys_to_pfn (addr r) ≤ i < phys_to_pfn (mend r).

Definition in_ramb (l : list mmap) (i : Z) : bool :=
  existsb (λ r, bool_decide (type r = 1) && bool_decide (phys_to_pfn (addr r) ≤ i)
                && bool_decide (i < phys_to_pfn (mend r))) l.

Lemma in_ramb_true l i : in_ramb l i = true ↔ in_ram l i.
Proof.
  unfold in_ramb, in_ram. rewrite existsb_exists. setoid_rewrite andb_true_iff.
  setoid_rewrite andb_true_iff. setoid_rewrite bool_decide_eq_true. split.
  - intros (r & Hin%list_elem_of_In & H). exists r. tauto.
  - intros (r & Hin%list_elem_of_In & H). exists r. tauto.
Qed.

Definition avalb (s : bstate) (nb i : Z) : bool :=
  bool_decide (nb < i) && bool_decide (i < m_max_pfn (bm s)) && in_ramb (mmapinfo s) i.

Lemma is_page_aval_ok s nb i :
  base s = slot nb 0 → 0 ≤ nb < 0x40000 → 0 ≤ i < 2 ^ 31 → is_page_aval s i = Ok (avalb s nb i).
Proof.
  intros Hb Hnb Hi. unfold is_page_aval. rewrite Hb, (virt_to_phys_slot nb) by lia. cbn [mbind outcome_bind].
  assert (E : phys_to_pfn (nb * PAGE_SIZE) = nb).
  { unfold phys_to_pfn, PAGE_SHIFT, PAGE_SIZE. rewrite Z.shiftr_div_pow2 by lia.
    change (2 ^ 12) with 4096. rewrite Z.div_mul by lia. apply u32_small. lia. }
  rewrite E, (u32_small i) by lia. unfold avalb.
  case_bool_decide; [by rewrite (bool_decide_false (nb < i)) by lia|].
  rewrite (bool_decide_true (nb < i)) by lia.
  case_bool_decide; [by rewrite (bool_decide_false (i < _)) by lia|].
  by rewrite (bool_decide_true (i < _)) by lia.
Qed.

Definition with_mempage (pgs : gmap Z page) (s : bstate) : bstate :=
  mk_bstate (mk_mstate (zone_normal (bm s)) (zone_high (bm s)) pgs (m_max_pfn (bm s)) (mem (bm s))
    (tlb (bm s))) (mmapinfo s) (normal_maxpfn s) (high_maxpfn s) (totalram_pages s) (base s)
    (mmio_base s) (kpgd s).

Lemma mempage_loop_ok nb n : ∀ i s,
  base s = slot nb 0 → 0 ≤ nb < 0x40000 → 0 ≤ i → i + Z.of_nat n ≤ 2 ^ 31 →
  ∃ pgs, mempage_loop n i s = Ok (tt, with_mempage pgs s) ∧
    ∀ x, pgs !! x = if decide (i ≤ x < i + Z.of_nat n) then Some (mempage_entry (avalb s nb x))
                    else mempage (bm s) !! x.
Proof.
  induction n as [|n IH]; intros i s Hb Hnb Hi Hn; cbn [mempage_loop].
  { exists (mempage (bm s)). split; [by destruct s as [[]]|]. intros x. by rewrite decide_False by lia. }
  run_step. rewrite (bind_Ok _ _ _ _ _ (lift_Ok _ _ _ (is_page_aval_ok s nb i Hb Hnb ltac:(lia)))).
  erewrite bind_Ok by (apply in_bm_ok; reflexivity).
  set (s1 := with_mempage (<[i := mempage_entry (avalb s nb i)]> (mempage (bm s))) s).
  destruct (IH (i + 1) s1) as (pgs & Hrun & Hl); [done|done|lia|lia|].
  exists pgs. split; [exact Hrun|]. intros x. rewrite Hl.
  change (avalb s1 nb x) with (avalb s nb x). change (mempage (bm s1)) with
    (<[i := mempage_entry (avalb s nb i)]> (mempage (bm s))).
  destruct (decide (x = i)) as [->|Hne].
  - rewrite decide_False, decide_True by lia. apply lookup_insert_eq.
  - rewrite lookup_insert_ne by done. repeat case_decide; try lia; done.
Qed.

Lemma mempage_entry_boot b : boot_page (mempage_entry b).
Proof. destruct b; (split; [done|]); done. Qed.

Lemma mempage_entry_free b : has_flag (flags (mempage_entry b)) _pg_free = b.
Proof. by destruct b. Qed.

(** Frames above the tables do not matter to the address space. *)
Lemma mapped_above m m' g nb own va :
  btree m g nb own → (∀ f, g ≤ f < nb → mem m' !! f = mem m !! f) →
  mapped m' g 0 va = mapped m g 0 va.
Proof.
  intros Hb Hm. pose proof (index_ranges va) as Hix. destruct (bt_bounds _ _ _ _ Hb) as [Hg Hgn].
  assert (Hent : ∀ f k, g ≤ f < nb → ent m' f k = ent m f k) by (intros f k Hf; unfold ent; by rewrite Hm).
  assert (Hp : ∀ i, role_frame m' g 0 (RPmd i) = role_frame m g 0 (RPmd i)).
  { intros i. unfold role_frame. rewrite Hent by lia. done. }
  assert (Ht : role_frame m' g 0 (leaf_role va) = role_frame m g 0 (leaf_role va)).
  { unfold leaf_role. rewrite !role_frame_pte, Hp.
    destruct (role_frame m g 0 (RPmd (pgd_index va))) as [P|] eqn:EP; [|done]. simpl.
    apply (bt_frame _ _ _ _ Hb) in EP; [|simpl; lia]. destruct (bt_own _ _ _ _ Hb _ _ EP) as [? _].
    rewrite Hent by lia. done. }
  unfold mapped, entry_at. fold (leaf_role va). rewrite Ht.
  destruct (role_frame m g 0 (leaf_role va)) as [T|] eqn:ET; [|done]. simpl.
  apply (bt_frame _ _ _ _ Hb) in ET; [|simpl; lia]. destruct (bt_own _ _ _ _ Hb _ _ ET) as [? _].
  rewrite Hent by lia. done.
Qed.

(** ** From the map of memory to the zones *)

(** Frames of the array of page descriptors. *)
Definition array_frames (max : Z) : Z := max * SIZEOF_PAGE / PAGE_SIZE + 1.

(** What [bootmm_init] needs: [g] is the first frame behind the kernel's image, [kf]
    the first frame of the kernel stacks. *)
Record boot_pre (bss_end g kf : Z) (s : bstate) : Prop := {
  pre_bss : KERNEL_BASE_ADDR ≤ bss_end;
  pre_g : g = (bss_end + 0xFFF - KERNEL_BASE_ADDR) / PAGE_SIZE;
  pre_base : base s = 0;
  pre_room : g + 2053 + array_frames (m_max_pfn (bm s)) < normal_maxpfn s;
  pre_normal : 0 ≤ normal_maxpfn s ≤ 0x30000;
  pre_max : normal_maxpfn s ≤ m_max_pfn (bm s) ≤ 2 ^ 24;
  pre_align : normal_maxpfn s ≠ m_max_pfn (bm s) → (2 ^ 10 | normal_maxpfn s);
  pre_mem : mtotal (bm s) (normal_maxpfn s);
  pre_kst : 0 ≤ kf ∧ kf + CPUNUMS ≤ 0x30000;
}.

(** The first frame the allocator of boot time has left: behind the image are the
    directory, the 389 tables below it and the page descriptors. *)
Definition boot_end (g max : Z) : Z := g + 390 + array_frames max.

(** The frames the tables take, from what they map. *)
Lemma tables_exact s g nb own kst :
  bok s g nb own → (∀ va, 0 ≤ va < 2 ^ 32 → mapped (bm s) g 0 va = kernel_entry kst va) → nb = g + 390.
Proof.
  intros Hs Hmap. apply (bt_exact (bm s) g nb own); [apply Hs|apply Hs|]. intros r Hr.
  destruct (needed_mapped kst r Hr) as (va & e & Hv & He & Hcase). rewrite <- Hmap in He by done.
  unfold mapped, entry_at in He. fold (leaf_role va) in He. destruct (role_frame (bm s) g 0 (leaf_role va)) as [T|] eqn:ET; [|done].
  destruct Hcase as [->|[-> E]]; [by rewrite ET; eauto|]. rewrite E, role_frame_pte in ET.
  destruct (role_frame (bm s) g 0 (RPmd 3)); [eauto|done].
Qed.

(** What it establishes; [nb] is the first frame the allocator of boot time has left. *)
Record boot_post (g kf : Z) (s s' : bstate) (nb : Z) : Prop := {
  post_inv : mm_inv (bm s');
  post_high : zone_inv (zone_view true (bm s')) 0;
  post_nb : base s' = slot nb 0 ∧ nb = boot_end g (m_max_pfn (bm s)) ∧ nb < normal_maxpfn s;
  post_free : ∀ i, free_page (nz (bm s')) i ↔ nb < i < normal_maxpfn s ∧ in_ram (mmapinfo s) i;
  post_free_high : ∀ i, free_page (zone_view true (bm s')) i ↔
    normal_maxpfn s ≤ i < m_max_pfn (bm s) ∧ in_ram (mmapinfo s) i;
  post_kpgd : kpgd s' = slot g 0;
  post_mapped : ∀ va, 0 ≤ va < 2 ^ 32 → mapped (bm s') g 0 va = kernel_entry (kf * PAGE_SIZE) va;
  post_image : ∀ f, f < g → mem (bm s') !! f = mem (bm s) !! f;
}.

Lemma bootmm_init_split bss_end kstacks s :
  bootmm_init bss_end kstacks s =
  (tables_part bss_end kstacks ;;
   s ← get;
   let num := i32 (u32 (m_max_pfn (bm s) * SIZEOF_PAGE) / PAGE_SIZE + 1) in
   mp ← alloc_bootmm_pages bss_end num;
   assert (bool_decide (mp ≠ 0)) ;;
   mempage_init ;;
   boot_zone_init) s.
Proof.
  unfold bootmm_init, tables_part. rewrite !bind_assoc.
  unfold mbind, M_bind. destruct (alloc_bootmm_pages bss_end 1 s) as [[pgd s1]|]; [|done].
  destruct (set_kpgd pgd s1) as [[]|]; [|done].
  repeat (match goal with |- context [match ?c with _ => _ end] => destruct c as [[]|]; [|done] end).
  done.
Qed.

Lemma array_frames_eq max :
  0 ≤ max ≤ 2 ^ 24 →
  i32 (u32 (max * SIZEOF_PAGE) / PAGE_SIZE + 1) = array_frames max ∧ 0 < array_frames max.
Proof.
  unfold array_frames, SIZEOF_PAGE, PAGE_SIZE. intros Hmax. rewrite u32_small by lia.
  pose proof (Z.div_pos (max * 36) 4096 ltac:(lia) ltac:(lia)).
  pose proof (Z.div_le_upper_bound (max * 36) 4096 (2 ^ 24) ltac:(lia) ltac:(lia)).
  rewrite i32_small by lia. lia.
Qed.

(** The descriptors and the zones, once the tables stand. *)
Lemma zones_part_ok nb s :
  base s = slot nb 0 → 0 ≤ nb < normal_maxpfn s → normal_maxpfn s ≤ 0x30000 →
  normal_maxpfn s ≤ m_max_pfn (bm s) ≤ 2 ^ 24 →
  (normal_maxpfn s ≠ m_max_pfn (bm s) → (2 ^ 10 | normal_maxpfn s)) →
  mtotal (bm s) (normal_maxpfn s) →
  ∃ s', (mempage_init ;; boot_zone_init) s = Ok (tt, s') ∧ mm_inv (bm s') ∧
    zone_inv (zone_view true (bm s')) 0 ∧ base s' = base s ∧ kpgd s' = kpgd s ∧
    mem (bm s') = mem (bm s) ∧
    (∀ i, free_page (nz (bm s')) i ↔ nb < i < normal_maxpfn s ∧ in_ram (mmapinfo s) i) ∧
    (∀ i, free_page (zone_view true (bm s')) i ↔
       normal_maxpfn s ≤ i < m_max_pfn (bm s) ∧ in_ram (mmapinfo s) i).
Proof.
  intros Hb Hnb Hn Hmax Hal Hm. unfold mempage_init. rewrite bind_assoc. run_step.
  destruct (mempage_loop_ok nb (Z.to_nat (m_max_pfn (bm s))) 0 s Hb) as (pgs & Hrun & Hl);
    [lia|lia|lia|].
  rewrite (bind_Ok _ _ _ _ _ Hrun). rewrite Z2Nat.id, Z.add_0_l in Hl by lia.
  unfold boot_zone_init. run_step. cbn [with_mempage normal_maxpfn bm m_max_pfn mempage].
  destruct (zone_init_ok (normal_maxpfn s) (m_max_pfn (bm s)) pgs)
    as (zn & zh & pgs' & Hz & Ezb & Ezs & Hzi & Hhi & Hf & Hfh); [lia|lia|done| |].
  { intros i Hi. rewrite Hl, decide_True by lia. eexists. split; [done|]. apply mempage_entry_boot. }
  assert (Hmk : ∀ z i, marked_free (mk_zstate z pgs (m_max_pfn (bm s))) i ∧ 0 ≤ i < m_max_pfn (bm s) ↔
    nb < i < m_max_pfn (bm s) ∧ in_ram (mmapinfo s) i).
  { intros z i. unfold marked_free. simpl. rewrite Hl. split.
    - intros [(pg & Hpg & Hfl) Hi]. rewrite decide_True in Hpg by lia. injection Hpg as <-.
      rewrite mempage_entry_free in Hfl. unfold avalb in Hfl.
      apply andb_true_iff in Hfl as [[H1%bool_decide_eq_true H2%bool_decide_eq_true]%andb_true_iff H3].
      apply in_ramb_true in H3. done.
    - intros [Hi Hr%in_ramb_true]. split; [|lia]. rewrite decide_True by lia. eexists. split; [done|].
      rewrite mempage_entry_free. unfold avalb. rewrite Hr, !bool_decide_true by lia. done. }
  rewrite (bind_Ok _ _ _ _ _ (lift_Ok _ _ _ Hz)).
  erewrite in_bm_ok by reflexivity. eexists. split; [reflexivity|].
  cbn [bm base kpgd mem mmapinfo with_mempage normal_maxpfn m_max_pfn].
  split_and!; [|exact Hhi|done|done|done| |].
  - split; try done.
    + unfold zend. cbn. rewrite Ezb, Ezs. lia.
    + cbn. lia.
    + intros f Hfr. apply Hm. unfold zend in Hfr. cbn in Hfr. rewrite Ezb, Ezs in Hfr. lia.
  - intros i. etrans; [apply Hf|]. specialize (Hmk zn i). split.
    + intros [H1 H2]. destruct (proj1 Hmk) as [? ?]; [split; [done|lia]|]. split; [lia|done].
    + intros [H1 H2]. destruct (proj2 Hmk) as [? ?]; [split; [lia|done]|]. split; [lia|done].
  - intros i. etrans; [apply Hfh|]. specialize (Hmk zh i). split.
    + intros [H1 H2]. destruct (proj1 Hmk) as [? ?]; [split; [done|lia]|]. split; [lia|done].
    + intros [H1 H2]. destruct (proj2 Hmk) as [? ?]; [split; [lia|done]|]. split; [lia|done].
Qed.

Lemma bootmm_init_ok bss_end g kf s :
  boot_pre bss_end g kf s →
  ∃ s' nb, bootmm_init bss_end (slot kf 0) s = Ok (tt, s') ∧ boot_post g kf s s' nb.
Proof.
  intros [Hbss Hg Hb Hroom Hn Hmax Hal Hm [Hkf Hkf']].
  destruct (array_frames_eq (m_max_pfn (bm s)) ltac:(lia))
    as [Enum Hpos].
  set (num := array_frames (m_max_pfn (bm s))) in *.
  destruct (image_base bss_end g Hbss Hg ltac:(lia)) as [_ Hg0].
  destruct (tables_part_ok bss_end g Hbss Hg s kf Hb ltac:(lia) Hm Hkf Hkf')
    as (s1 & nb & own & Hrun1 & Hs1 & Hk1 & Hkept & Hmap1).
  destruct Hkept as [Ebm Emap Enorm _ _ _ Hlow].
  destruct (bok_range s1 g nb own Hs1) as (Hgn & _ & _).
  pose proof (tables_exact s1 g nb own _ Hs1 Hmap1) as Hcount.
  assert (Emax : m_max_pfn (bm s1) = m_max_pfn (bm s)) by (rewrite Ebm; done).
  pose proof (bo_base _ _ _ _ Hs1) as Hb1.
  assert (Hal2 : alloc_bootmm_pages bss_end num s1 =
    Ok (slot nb 0, upd (zero_frames nb num (mem (bm s1))) (slot (nb + num) 0) s1)).
  { apply alloc_run; [done|lia|lia|done|]. unfold slot, PAGE_SIZE, KERNEL_BASE_ADDR. lia. }
  set (s2 := upd _ _ s1) in Hal2.
  destruct (zones_part_ok (nb + num) s2) as (s3 & Hrun3 & Hi & Hh & Eb3 & Ek3 & Em3 & Hf & Hfh).
  { done. } { cbn. lia. } { cbn. lia. } { cbn. lia. } { cbn. rewrite Enorm, Emax. done. }
  { apply mtotal_zero. change (normal_maxpfn s2) with (normal_maxpfn s1). apply Hs1. }
  exists s3, (nb + num). split.
  - rewrite bootmm_init_split, (bind_Ok _ _ _ _ _ Hrun1). run_step. cbv zeta.
    rewrite Emax, Enum, (bind_Ok _ _ _ _ _ Hal2).
    rewrite (bind_Ok _ _ _ _ _ (assert_true _ s2 (bool_decide_eq_true_2 _ (slot_pos nb 0 ltac:(lia) ltac:(lia))))).
    exact Hrun3.
  - change (mmapinfo s2) with (mmapinfo s1) in *. change (normal_maxpfn s2) with (normal_maxpfn s1) in *.
    change (m_max_pfn (bm s2)) with (m_max_pfn (bm s1)) in *. rewrite Emap, Enorm, Emax in *.
    split; [done|done|rewrite Eb3; split; [done|unfold boot_end; fold num; lia]|done|done|by rewrite Ek3| |].
    + intros va Hva. rewrite <- Hmap1 by done. eapply mapped_above; [apply Hs1|].
      intros f Hfr. rewrite Em3. change (mem (bm s2)) with (zero_frames nb num (mem (bm s1))).
      rewrite zero_frames_lookup. by rewrite decide_False by lia.
    + intros f Hfr. rewrite Em3. change (mem (bm s2)) with (zero_frames nb num (mem (bm s1))).
      rewrite zero_frames_lookup, decide_False by lia. by apply Hlow.
Qed.

(** ** The numbers of pages *)

(** Regions within the 36 bits of a physical address. *)
Definition map_ok (l : list mmap) : Prop :=
  ∀ r, r ∈ l → 0 ≤ addr r ∧ 0 ≤ len r ∧ addr r + len r ≤ 2 ^ 36.

(** The end of usable memory. *)
Fixpoint ram_end (l : list mmap) : Z :=
  match l with
  | [] => 0
  | r :: l => if decide (type r = 1) then Z.max (addr r + len r) (ram_end l) else ram_end l
  end.

(** A region of usable memory reaches over the end of the kernel's window, or usable
    memory ends below it. *)
Definition layout_ok (l : list mmap) : Prop :=
  (∃ r, r ∈ l ∧ type r = 1 ∧ addr r < NORMAL_ADDR ≤ addr r + len r) ∨
  (∀ r, r ∈ l → type r = 1 → addr r + len r < NORMAL_ADDR).

Lemma map_ok_cons r l : map_ok (r :: l) → (0 ≤ addr r ∧ 0 ≤ len r ∧ mend r = addr r + len r ∧
  addr r + len r ≤ 2 ^ 36) ∧ map_ok l.
Proof.
  intros H. destruct (H r ltac:(left)) as (? & ? & ?). split.
  - unfold mend. rewrite u64_small by lia. lia.
  - intros x Hx. apply H. by right.
Qed.

Lemma ram_end_bounds l : map_ok l → 0 ≤ ram_end l ≤ 2 ^ 36.
Proof.
  induction l as [|r l IH]; [simpl; lia|]. intros [(? & ? & ? & ?) Hl]%map_ok_cons.
  specialize (IH Hl). simpl. case_decide; lia.
Qed.

Lemma ram_end_le l r : r ∈ l → type r = 1 → addr r + len r ≤ ram_end l.
Proof.
  induction l as [|x l IH]; intros Hin Ht; [by apply elem_of_nil in Hin|]. simpl.
  apply elem_of_cons in Hin as [->|Hin]; [rewrite decide_True by done; lia|].
  specialize (IH Hin Ht). case_decide; lia.
Qed.

Lemma max_loop_ok l : ∀ last, map_ok l → 0 ≤ last → max_loop l last = Z.max last (ram_end l).
Proof.
  induction l as [|r l IH]; intros last Hm Hlast; [simpl; lia|].
  apply map_ok_cons in Hm as [(? & ? & E & ?) Hl].
  cbn [max_loop ram_end]. rewrite E. case_decide as Ht.
  - rewrite (bool_decide_true (type r = 1)) by done. cbn [andb].
    case_bool_decide; rewrite IH by (done || lia); lia.
  - rewrite (bool_decide_false (type r = 1)) by done. by apply IH.
Qed.

Lemma get_max_pfn_ok l : map_ok l → get_max_pfn l = ram_end l / PAGE_SIZE.
Proof.
  intros Hl. unfold get_max_pfn. pose proof (ram_end_bounds l Hl).
  rewrite max_loop_ok, Z.max_r by (done || lia).
  unfold PAGE_SHIFT, PAGE_SIZE. rewrite Z.shiftr_div_pow2 by lia. change (2 ^ 12) with 4096.
  apply i32_small. pose proof (Z.div_pos (ram_end l) 4096 ltac:(lia) ltac:(lia)).
  pose proof (Z.div_le_upper_bound (ram_end l) 4096 (2 ^ 24) ltac:(lia) ltac:(lia)). lia.
Qed.

Lemma normal_loop_straddle l : ∀ last,
  map_ok l → (∃ r, r ∈ l ∧ type r = 1 ∧ addr r < NORMAL_ADDR ≤ addr r + len r) →
  normal_loop l last = NORMAL_ADDR.
Proof.
  induction l as [|x l IH]; intros last Hm (r & Hin & Ht & Hr); [by apply elem_of_nil in Hin|].
  apply map_ok_cons in Hm as [(? & ? & E & ?) Hl]. cbn [normal_loop]. rewrite E.
  apply elem_of_cons in Hin as [->|Hin].
  - rewrite (bool_decide_true (type x = 1)) by done. rewrite !bool_decide_false by lia. done.
  - repeat case_bool_decide; try done; (apply IH; [done|]; by exists r).
Qed.

Lemma normal_loop_below l : ∀ last,
  map_ok l → (∀ r, r ∈ l → type r = 1 → addr r + len r < NORMAL_ADDR) → 0 ≤ last < NORMAL_ADDR →
  normal_loop l last = Z.max last (ram_end l) ∧ ram_end l < NORMAL_ADDR.
Proof.
  unfold NORMAL_ADDR, KERNEL_NORMAL, KERNEL_BASE_ADDR.
  induction l as [|x l IH]; intros last Hm Hb Hlast; [simpl; lia|].
  apply map_ok_cons in Hm as [(? & ? & E & ?) Hl]. cbn [normal_loop ram_end].
  assert (Hb' : ∀ r, r ∈ l → type r = 1 → addr r + len r < 4026531840 - 3221225472).
  { intros r Hr. apply Hb. by right. }
  case_decide as Ht.
  - rewrite (bool_decide_true (type x = 1)) by done. specialize (Hb x ltac:(left) Ht).
    unfold NORMAL_ADDR, KERNEL_NORMAL, KERNEL_BASE_ADDR.
    rewrite bool_decide_false by lia. rewrite E, bool_decide_true by lia.
    rewrite u64_small by lia. rewrite i32_small by lia.
    case_bool_decide; [destruct (IH (addr x + len x) Hl Hb' ltac:(lia))|destruct (IH last Hl Hb' ltac:(lia))]; lia.
  - rewrite (bool_decide_false (type x = 1)) by done. by apply IH.
Qed.

Lemma get_normal_maxpfn_ok l :
  map_ok l → layout_ok l → get_normal_maxpfn l = Z.min (ram_end l / PAGE_SIZE) 0x30000.
Proof.
  intros Hl Hlay. unfold get_normal_maxpfn, phys_to_pfn, PAGE_SHIFT, PAGE_SIZE.
  pose proof (ram_end_bounds l Hl) as Hre. destruct Hlay as [Hs|Hb].
  - rewrite normal_loop_straddle by done. destruct Hs as (r & Hin & Ht & Hr).
    pose proof (ram_end_le l r Hin Ht).
    assert (0x30000 ≤ ram_end l / 4096).
    { apply Z.div_le_lower_bound; [lia|]. unfold NORMAL_ADDR, KERNEL_NORMAL, KERNEL_BASE_ADDR in *. lia. }
    rewrite Z.min_r by lia. done.
  - destruct (normal_loop_below l 0 Hl Hb) as [-> Hlt];
      [unfold NORMAL_ADDR, KERNEL_NORMAL, KERNEL_BASE_ADDR; lia|].
    unfold NORMAL_ADDR, KERNEL_NORMAL, KERNEL_BASE_ADDR in *. rewrite Z.max_r by lia.
    rewrite u64_small, Z.shiftr_div_pow2 by lia. change (2 ^ 12) with 4096.
    pose proof (Z.div_pos (ram_end l) 4096 ltac:(lia) ltac:(lia)).
    pose proof (Z.div_lt_upper_bound (ram_end l) 4096 0x30000 ltac:(lia) ltac:(lia)).
    rewrite u32_small, i32_small by lia. lia.
Qed.

(** ** The properties *)

Lemma pfn_div a : 0 ≤ a ≤ 2 ^ 36 → phys_to_pfn a = a / PAGE_SIZE.
Proof.
  intros Ha. unfold phys_to_pfn, PAGE_SHIFT, PAGE_SIZE. rewrite Z.shiftr_div_pow2 by lia.
  change (2 ^ 12) with 4096. apply u32_small.
  pose proof (Z.div_pos a 4096 ltac:(lia) ltac:(lia)).
  pose proof (Z.div_le_upper_bound a 4096 (2 ^ 24) ltac:(lia) ltac:(lia)). lia.
Qed.

(** When the regions start at page boundaries, a usable frame lies in one of them. *)
Lemma in_ram_whole l i :
  map_ok l → (∀ r, r ∈ l → (PAGE_SIZE | addr r)) → in_ram l i →
  ∃ r, r ∈ l ∧ type r = 1 ∧ addr r ≤ i * PAGE_SIZE ∧ (i + 1) * PAGE_SIZE ≤ addr r + len r.
Proof.
  intros Hm Hal (r & Hin & Ht & Hi). exists r. destruct (Hm r Hin) as (? & ? & ?).
  unfold mend in Hi. rewrite u64_small in Hi by lia. rewrite !pfn_div in Hi by lia.
  destruct (Hal r Hin) as [q E]. split_and!; [done|done| |]; unfold PAGE_SIZE in *.
  - rewrite E, Z.div_mul in Hi by lia. lia.
  - pose proof (Z.div_mod (addr r + len r) 4096 ltac:(lia)).
    pose proof (Z.mod_pos_bound (addr r + len r) 4096 ltac:(lia)). lia.
Qed.

(** What the machine and the linker give: [g] is the first frame behind the kernel's
    image, [kf] the first frame of the kernel stacks; the frames of the kernel's window
    exist and have room for the page tables and the page descriptors. *)
Record machine_ok (bss_end g kf : Z) (l : list mmap) (m : gmap Z (list Z)) : Prop := {
  mo_map : map_ok l;
  mo_layout : layout_ok l;
  mo_bss : KERNEL_BASE_ADDR ≤ bss_end;
  mo_g : g = (bss_end + 0xFFF - KERNEL_BASE_ADDR) / PAGE_SIZE;
  mo_room : g + 2053 + array_frames (ram_end l / PAGE_SIZE) < Z.min (ram_end l / PAGE_SIZE) 0x30000;
  mo_mem : ∀ f, 0 ≤ f < Z.min (ram_end l / PAGE_SIZE) 0x30000 →
             ∃ w, m !! f = Some w ∧ length w = 512%nat;
  mo_kst : 0 ≤ kf ∧ kf + CPUNUMS ≤ 0x30000;
}.

(** C8: [bootmm] returns.  Afterwards the invariants of the buddy allocator, of the memory
    manager and of the slab allocator hold.  The kernel's tables, 390 of them, and the
    page descriptors stand behind its image up to the frame [boot_end]; the free frames
    of the zones are exactly the frames of usable memory above [boot_end].  The kernel's page tables
    map exactly the regions of the memory layout, for every one of the 2^32 addresses;
    and no frame of the kernel's image has changed. *)
Theorem boot_establishes (bss_end g kf : Z) (fuel : nat) (info : Z) (ram : gmap Z Z)
    (m : gmap Z (list Z)) (l : list mmap) :
  detect_memory fuel ram info = Ok l → machine_ok bss_end g kf l m →
  let nb := boot_end g (ram_end l / PAGE_SIZE) in
  ∃ b s, bootmm bss_end fuel info (slot kf 0) ram m = Ok (b, s) ∧
    mm_inv (mm s) ∧ zone_inv (zone_view true (mm s)) 0 ∧ client_ok (s, ∅, []) ∧
    base b = slot nb 0 ∧
    (∀ i, free_page (nz (mm s)) i ↔
       nb < i < Z.min (ram_end l / PAGE_SIZE) 0x30000 ∧ in_ram l i) ∧
    (∀ i, free_page (zone_view true (mm s)) i ↔
       Z.min (ram_end l / PAGE_SIZE) 0x30000 ≤ i < ram_end l / PAGE_SIZE ∧ in_ram l i) ∧
    kpgd b = slot g 0 ∧
    (∀ va, 0 ≤ va < 2 ^ 32 → mapped (mm s) g 0 va = kernel_entry (kf * PAGE_SIZE) va) ∧
    (∀ f, f < g → mem (mm s) !! f = m !! f).
Proof.
  intros Hdet [Hmap Hlay Hbss Hg Hroom Hmem Hkst] nb0. unfold bootmm. rewrite Hdet. cbn [mbind outcome_bind].
  cbv zeta. pose proof (ram_end_bounds l Hmap) as Hre.
  pose proof (get_max_pfn_ok l Hmap) as Emax. pose proof (get_normal_maxpfn_ok l Hmap Hlay) as Enrm.
  set (s0 := mk_bstate _ _ _ _ _ _ _ _).
  pose proof (Z.div_pos (ram_end l) PAGE_SIZE ltac:(lia) ltac:(done)) as Hdp.
  pose proof (Z.div_le_upper_bound (ram_end l) PAGE_SIZE (2 ^ 24) ltac:(done)
    ltac:(unfold PAGE_SIZE; lia)) as Hdu.
  assert (Hpre : boot_pre bss_end g kf s0).
  { split; try done; cbn [s0 base bm m_max_pfn normal_maxpfn]; rewrite ?Emax, ?Enrm; try lia.
    - intros Hne. assert (Z.min (ram_end l / PAGE_SIZE) 0x30000 = 0x30000) as -> by lia. by exists 192.
    - exact Hmem. }
  destruct (bootmm_init_ok bss_end g kf s0 Hpre) as (b & nb & Hrun & [Hi Hh (Hbb & Hnb & _) Hf Hfh Hk Hmp Him]).
  rewrite Hrun. cbn [s0 bm m_max_pfn normal_maxpfn mmapinfo mem] in *. rewrite Emax, Enrm in *.
  subst nb. fold nb0 in Hbb, Hf. exists b, (slab_init (bm b)). split_and!; try done.
  by apply slab_init_inv.
Qed.

Definition demo_ram : gmap Z (list Z) := list_to_map ((λ f, (f, zero_page)) <$> seqZ 0 0x4000).

Lemma demo_machine : machine_ok 0xC0400000 1024 512 demo_map demo_ram.
Proof.
  assert (Ere : ram_end demo_map / PAGE_SIZE = 0x4000) by reflexivity.
  split; rewrite ?Ere.
  - intros r Hr. repeat (apply elem_of_cons in Hr as [->|Hr]; [simpl; lia|]). by apply elem_of_nil in Hr.
  - right. intros r Hr Ht.
    repeat (apply elem_of_cons in Hr as [->|Hr]; [first [done|vm_compute; reflexivity]|]).
    by apply elem_of_nil in Hr.
  - vm_compute. discriminate.
  - reflexivity.
  - vm_compute. reflexivity.
  - intros f Hf. exists zero_page. split; [|apply length_replicate].
    apply (seq_map_lookup (λ _, zero_page)). exact Hf.
  - vm_compute. split; discriminate.
Qed.

(** 64 megabytes: the tables and the 145 frames of page descriptors end at frame 1559. *)
Lemma boot_establishes_witness :
  ∃ b s, bootmm 0xC0400000 200 0x10000 (slot 512 0) (bytes_at 0x10008 (enc_tags demo_tags)) demo_ram
      = Ok (b, s) ∧ client_ok (s, ∅, []) ∧ mapped (mm s) 1024 0 0xC0000123 = Some 3 ∧
    (∀ i, free_page (nz (mm s)) i ↔ 1559 < i < 0x4000 ∧ in_ram demo_map i).
Proof.
  destruct (boot_establishes 0xC0400000 1024 512 200 0x10000 _ demo_ram demo_map demo_tags_read demo_machine)
    as (b & s & Hrun & _ & _ & Hc & _ & Hf & _ & _ & Hmp & _).
  exists b, s. split_and!; [exact Hrun|exact Hc| |exact Hf].
  rewrite Hmp by lia. reflexivity.
Defined.
