(* ===== verification/StrProofs.v ===== *)
(** * Correctness of lib/string.c

    The block routines are specified pointwise: which byte of the memory after
    the call holds what.  The string routines are specified against [cstr m p l],
    the bytes [l] followed by a zero at [p]. *)

From S2P Require Import Prelude Str.

Local Open Scope Z_scope.

(** Every cell holds a byte. *)
Definition bytes_ok (m : bytes) : Prop := map_Forall (λ _ b, 0 ≤ b < 2 ^ 8) m.

(** The cells [a, a + n) exist. *)
Definition valid (m : bytes) (a n : Z) : Prop := ∀ i, a ≤ i < a + n → is_Some (m !! i).

(** [m'] is [m] with [n] cells at [d] replaced by [f] of their offset. *)
Definition filled (m m' : bytes) (d n : Z) (f : Z → option Z) : Prop :=
  ∀ a, m' !! a = if bool_decide (d ≤ a < d + n) then f (a - d) else m !! a.

Lemma filled_in m m' d n f a : filled m m' d n f → d ≤ a < d + n → m' !! a = f (a - d).
Proof. intros H ?. by rewrite H, bool_decide_eq_true_2. Qed.
Lemma filled_out m m' d n f a : filled m m' d n f → ¬ (d ≤ a < d + n) → m' !! a = m !! a.
Proof. intros H ?. by rewrite H, bool_decide_eq_false_2. Qed.

Lemma filled_nil m d f : filled m m d 0 f.
Proof. intros a. rewrite bool_decide_eq_false_2; [done|lia]. Qed.

(** Two fills of neighbouring blocks make one. *)
Lemma filled_app m m1 m2 d n1 n2 (f f2 : Z → option Z) :
  0 ≤ n1 → 0 ≤ n2 → filled m m1 d n1 f → filled m1 m2 (d + n1) n2 f2 →
  (∀ i, 0 ≤ i < n2 → f2 i = f (n1 + i)) →
  filled m m2 d (n1 + n2) f.
Proof.
  intros ? ? H1 H2 Hf a. rewrite H2, H1.
  repeat case_bool_decide; try lia; try done. rewrite Hf by lia. f_equal. lia.
Qed.

(** The same with the second block below the first. *)
Lemma filled_app_down m m1 m2 d n1 n2 (f f1 : Z → option Z) :
  0 ≤ n1 → 0 ≤ n2 → filled m m1 (d + n2) n1 f1 → filled m1 m2 d n2 f →
  (∀ i, 0 ≤ i < n1 → f1 i = f (n2 + i)) →
  filled m m2 d (n2 + n1) f.
Proof.
  intros ? ? H1 H2 Hf a. rewrite H2, H1.
  repeat case_bool_decide; try lia; try done. rewrite Hf by lia. f_equal. lia.
Qed.

Lemma filled_valid m m' d n f a k :
  filled m m' d n f → (∀ i, 0 ≤ i < n → is_Some (f i)) → valid m a k → valid m' a k.
Proof.
  intros H Hf Hv i Hi. rewrite H. case_bool_decide; [apply Hf; lia|by apply Hv].
Qed.

Lemma filled_bytes m m' d n f :
  filled m m' d n f → (∀ i b, 0 ≤ i < n → f i = Some b → 0 ≤ b < 2 ^ 8) →
  bytes_ok m → bytes_ok m'.
Proof.
  intros H Hf Hb a b Ha. rewrite H in Ha. case_bool_decide.
  - eapply Hf; [|done]. lia.
  - by eapply Hb.
Qed.

(** ** One access *)

Lemma load8_ok m a b : m !! a = Some b → load8 a m = Ok (b, m).
Proof. intros H. unfold load8. run_step. by rewrite H. Qed.

Lemma store8_ok m a v :
  is_Some (m !! a) →
  ∃ m', store8 a v m = Ok (tt, m') ∧ m' = <[a := u8 v]> m ∧
        filled m m' a 1 (λ _, Some (u8 v)).
Proof.
  intros [b H]. exists (<[a := u8 v]> m). unfold store8. run_step. rewrite H.
  run_step. split_and!; [done..|]. intros a'. case_bool_decide.
  - replace a' with a by lia. by rewrite lookup_insert_eq.
  - rewrite lookup_insert_ne; [done|lia].
Qed.

Definition byte_of (v i : Z) : Z := u8 (Z.shiftr v (8 * i)).

Lemma store32_ok m a v :
  valid m a 4 →
  ∃ m', store32 a v m = Ok (tt, m') ∧ filled m m' a 4 (λ i, Some (byte_of v i)).
Proof.
  intros Hv. set (f i := Some (byte_of v i)).
  destruct (store8_ok m a v) as (m1 & E1 & _ & F1); [apply Hv; lia|].
  destruct (store8_ok m1 (a + 1) (Z.shiftr v 8)) as (m2 & E2 & _ & F2).
  { eapply (filled_valid m m1 _ _ _ a 4); [done|eauto|done|lia]. }
  assert (G2 : filled m m2 a (1 + 1) f).
  { eapply (filled_app m m1 m2 a 1 1 f); [lia..| |done|].
    - intros x. rewrite F1. case_bool_decide; [|done].
      replace x with a by lia. unfold f, byte_of. rewrite Z.sub_diag. done.
    - intros i ?. by replace i with 0 by lia. }
  destruct (store8_ok m2 (a + 2) (Z.shiftr v 16)) as (m3 & E3 & _ & F3).
  { eapply (filled_valid m m2 _ _ _ a 4); [done|unfold f; eauto|done|lia]. }
  assert (G3 : filled m m3 a (2 + 1) f).
  { eapply (filled_app m m2 m3 a 2 1 f); [lia..|done|done|].
    intros i ?. by replace i with 0 by lia. }
  destruct (store8_ok m3 (a + 3) (Z.shiftr v 24)) as (m4 & E4 & _ & F4).
  { eapply (filled_valid m m3 _ _ _ a 4); [done|unfold f; eauto|done|lia]. }
  exists m4. split.
  - unfold store32. by rewrite (bind_Ok _ _ _ _ _ E1), (bind_Ok _ _ _ _ _ E2),
      (bind_Ok _ _ _ _ _ E3).
  - eapply (filled_app m m3 m4 a 3 1 f); [lia..|done|done|].
    intros i ?. by replace i with 0 by lia.
Qed.

Lemma u8_shiftr x k : 0 ≤ k → u8 (Z.shiftr x k) = (x / 2 ^ k) mod 2 ^ 8.
Proof. intros. unfold u8. by rewrite Z.shiftr_div_pow2. Qed.

(** A word load gives the word whose bytes are the four cells. *)
Lemma load32_ok m a :
  bytes_ok m → valid m a 4 →
  ∃ v, load32 a m = Ok (v, m) ∧ ∀ i, 0 ≤ i < 4 → m !! (a + i) = Some (byte_of v i).
Proof.
  intros Hb Hv.
  destruct (Hv a) as [b0 H0]; [lia|]. destruct (Hv (a + 1)) as [b1 H1]; [lia|].
  destruct (Hv (a + 2)) as [b2 H2]; [lia|]. destruct (Hv (a + 3)) as [b3 H3]; [lia|].
  pose proof (Hb _ _ H0) as R0. pose proof (Hb _ _ H1) as R1.
  pose proof (Hb _ _ H2) as R2. pose proof (Hb _ _ H3) as R3. cbv beta in R0, R1, R2, R3.
  eexists. split.
  - unfold load32. rewrite (bind_Ok _ _ _ _ _ (load8_ok _ _ _ H0)),
      (bind_Ok _ _ _ _ _ (load8_ok _ _ _ H1)), (bind_Ok _ _ _ _ _ (load8_ok _ _ _ H2)),
      (bind_Ok _ _ _ _ _ (load8_ok _ _ _ H3)). done.
  - intros i Hi. unfold byte_of. rewrite u8_shiftr by lia.
    assert (i = 0 ∨ i = 1 ∨ i = 2 ∨ i = 3) as [-> | [-> | [-> | ->]]] by lia;
      rewrite ?Z.add_0_r, ?H0, ?H1, ?H2, ?H3; f_equal;
      match goal with |- context [2 ^ (8 * ?k)] =>
        let p := eval cbv in (2 ^ (8 * k)) in change (2 ^ (8 * k)) with p end;
      change (2 ^ 8) with 256 in *; change (2 ^ 16) with 65536; change (2 ^ 24) with 16777216;
      Z.to_euclidean_division_equations; lia.
Qed.

(** ** memset *)

Lemma stosb_ok n d c m :
  valid m d (Z.of_nat n) →
  ∃ m', stosb n d c m = Ok (tt, m') ∧ filled m m' d (Z.of_nat n) (λ _, Some (u8 c)).
Proof.
  revert d m. induction n as [|n IH]; intros d m Hv.
  { exists m. split; [done|apply filled_nil]. }
  destruct (store8_ok m d c) as (m1 & E1 & _ & F1); [apply Hv; lia|].
  destruct (IH (d + 1) m1) as (m2 & E2 & F2).
  { intros i Hi. eapply (filled_valid m m1 _ _ _ d); [done|eauto|done|lia]. }
  exists m2. split; [simpl; by rewrite (bind_Ok _ _ _ _ _ E1)|].
  rewrite Nat2Z.inj_succ, <- Z.add_1_l. by eapply (filled_app m m1 m2); [lia..|done|done|].
Qed.

Lemma stosl_ok n d v c m :
  (∀ i, 0 ≤ i < 4 → byte_of v i = c) →
  valid m d (4 * Z.of_nat n) →
  ∃ m', stosl n d v m = Ok (tt, m') ∧ filled m m' d (4 * Z.of_nat n) (λ _, Some c).
Proof.
  intros Hc. revert d m. induction n as [|n IH]; intros d m Hv.
  { exists m. split; [done|apply filled_nil]. }
  destruct (store32_ok m d v) as (m1 & E1 & F1); [intros i ?; apply Hv; lia|].
  destruct (IH (d + 4) m1) as (m2 & E2 & F2).
  { intros i Hi. eapply (filled_valid m m1 _ _ _ d); [done|eauto|done|lia]. }
  exists m2. split; [simpl; by rewrite (bind_Ok _ _ _ _ _ E1)|].
  replace (4 * Z.of_nat (S n)) with (4 + 4 * Z.of_nat n) by lia.
  eapply (filled_app m m1 m2); [lia..| |done|done].
  intros a. rewrite F1. case_bool_decide; [|done]. by rewrite Hc by lia.
Qed.

(** [(c<<24)|(c<<16)|(c<<8)|c] repeats the byte. *)
Lemma memset_word c i :
  let b := Z.land c 0xFF in
  0 ≤ i < 4 →
  byte_of (Z.lor (Z.lor (Z.lor (Z.shiftl b 24) (Z.shiftl b 16)) (Z.shiftl b 8)) b) i = u8 c.
Proof.
  intros b Hi. unfold byte_of, u8. apply Z.bits_inj'. intros k Hk.
  destruct (Z.lt_ge_cases k 8) as [Hlt|Hge].
  2:{ rewrite !Z.mod_pow2_bits_high; [done|lia..]. }
  rewrite !Z.mod_pow2_bits_low, Z.shiftr_spec, !Z.lor_spec, !Z.shiftl_spec by lia.
  assert (Hb : ∀ j, Z.testbit b j = if bool_decide (0 ≤ j < 8) then Z.testbit c j else false).
  { intros j. unfold b. change 0xFF with (Z.ones 8).
    destruct (Z.lt_ge_cases j 0); [rewrite Z.testbit_neg_r by done; case_bool_decide; [lia|done]|].
    rewrite Z.land_spec. case_bool_decide.
    - rewrite Z.ones_spec_low by lia. apply andb_true_r.
    - rewrite Z.ones_spec_high by lia. apply andb_false_r. }
  rewrite !Hb.
  assert (i = 0 ∨ i = 1 ∨ i = 2 ∨ i = 3) as [-> | [-> | [-> | ->]]] by lia;
    repeat case_bool_decide; try lia; rewrite ?orb_false_r, ?orb_false_l; f_equal; lia.
Qed.

(** ** memmove *)

Definition copied (m m' : bytes) (d s n : Z) : Prop := filled m m' d n (λ i, m !! (s + i)).

(** One [movs] moves [w] bytes at once, whatever they overlap. *)
Lemma mov_ok m w d s :
  w = 1 ∨ w = 4 → bytes_ok m → valid m s w → valid m d w →
  ∃ m', ((if bool_decide (w = 4) then x ← load32 s; store32 d x
          else x ← load8 s; store8 d x) : M bytes unit) m = Ok (tt, m') ∧ copied m m' d s w.
Proof.
  intros [-> | ->] Hb Hs Hd; simpl.
  - destruct (Hs s) as [b H]; [lia|]. destruct (store8_ok m d b) as (m' & E & _ & F); [apply Hd; lia|].
    exists m'. rewrite (bind_Ok _ _ _ _ _ (load8_ok _ _ _ H)). split; [done|].
    intros a. rewrite F. case_bool_decide; [|done]. replace (s + (a - d)) with s by lia.
    rewrite H. f_equal. apply u8_small. by apply (Hb _ _ H).
  - destruct (load32_ok m s Hb Hs) as (v & E & Hv). destruct (store32_ok m d v Hd) as (m' & E' & F).
    exists m'. rewrite (bind_Ok _ _ _ _ _ E). split; [done|].
    intros a. rewrite F. case_bool_decide; [|done]. by rewrite Hv by lia.
Qed.

Lemma copied_bytes m m' d s n : copied m m' d s n → bytes_ok m → bytes_ok m'.
Proof. intros H Hb. eapply filled_bytes; [done| |done]. intros i b _ Hi. exact (Hb _ _ Hi). Qed.

Lemma copied_valid m m' d s n a k :
  copied m m' d s n → valid m s n → valid m a k → valid m' a k.
Proof. intros H Hs. eapply filled_valid; [done|]. intros i ?. apply Hs. lia. Qed.

Lemma movs_forward n w d s m :
  w = 1 ∨ w = 4 → bytes_ok m → valid m s (Z.of_nat n * w) → valid m d (Z.of_nat n * w) →
  d ≤ s ∨ s + Z.of_nat n * w ≤ d →
  ∃ m', movs n w 1 d s m = Ok (tt, m') ∧ copied m m' d s (Z.of_nat n * w).
Proof.
  intros Hw. revert d s m. induction n as [|n IH]; intros d s m Hb Hs Hd Ho.
  { exists m. split; [done|apply filled_nil]. }
  rewrite Nat2Z.inj_succ, Z.mul_succ_l in *.
  destruct (mov_ok m w d s) as (m1 & E1 & F1);
    [done|done|intros i ?; apply Hs; lia|intros i ?; apply Hd; lia|].
  assert (Hv : ∀ a k, valid m a k → valid m1 a k).
  { intros a k. eapply copied_valid; [done|]. intros i ?. apply Hs. lia. }
  destruct (IH (d + w) (s + w) m1) as (m2 & E2 & F2).
  - by eapply copied_bytes.
  - apply Hv. intros i ?. apply Hs. lia.
  - apply Hv. intros i ?. apply Hd. lia.
  - lia.
  - exists m2. split; [cbn [movs]; rewrite (bind_Ok _ _ _ _ _ E1), !Z.mul_1_l; done|].
    unfold copied. rewrite Z.add_comm. eapply (filled_app m m1 m2); [lia..|done|done|].
    intros i ?. cbv beta. rewrite (filled_out _ _ _ _ _ _ F1); [f_equal; lia|lia].
Qed.

(** The descending move starts at the last unit. *)
Lemma movs_backward n w d s m :
  w = 1 ∨ w = 4 → bytes_ok m → valid m s (Z.of_nat n * w) → valid m d (Z.of_nat n * w) →
  s ≤ d →
  ∃ m', movs n w (-1) (d + Z.of_nat n * w - w) (s + Z.of_nat n * w - w) m = Ok (tt, m') ∧
        copied m m' d s (Z.of_nat n * w).
Proof.
  intros Hw. revert m. induction n as [|n IH]; intros m Hb Hs Hd Ho.
  { exists m. split; [done|apply filled_nil]. }
  rewrite Nat2Z.inj_succ, Z.mul_succ_l in *.
  replace (d + (Z.of_nat n * w + w) - w) with (d + Z.of_nat n * w) by lia.
  replace (s + (Z.of_nat n * w + w) - w) with (s + Z.of_nat n * w) by lia.
  destruct (mov_ok m w (d + Z.of_nat n * w) (s + Z.of_nat n * w)) as (m1 & E1 & F1);
    [done|done|intros i ?; apply Hs; lia|intros i ?; apply Hd; lia|].
  assert (Hv : ∀ a k, valid m a k → valid m1 a k).
  { intros a k. eapply copied_valid; [done|]. intros i ?. apply Hs. lia. }
  destruct (IH m1) as (m2 & E2 & F2).
  - by eapply copied_bytes.
  - apply Hv. intros i ?. apply Hs. lia.
  - apply Hv. intros i ?. apply Hd. lia.
  - lia.
  - exists m2. split.
    + cbn [movs]. rewrite (bind_Ok _ _ _ _ _ E1).
      replace (d + Z.of_nat n * w + -1 * w) with (d + Z.of_nat n * w - w) by lia.
      replace (s + Z.of_nat n * w + -1 * w) with (s + Z.of_nat n * w - w) by lia. done.
    + assert (F2' : filled m1 m2 d (Z.of_nat n * w) (λ i, m !! (s + i))).
      { intros a. rewrite F2. destruct (bool_decide_reflect (d ≤ a < d + Z.of_nat n * w));
          [|reflexivity].
        apply (filled_out _ _ _ _ _ _ F1). lia. }
      eapply (filled_app_down m m1 m2); [lia..|exact F1|exact F2'|]. intros i ?. simpl. f_equal. lia.
Qed.

Lemma mod4_split n : 0 ≤ n → n mod 4 = 0 → Z.of_nat (Z.to_nat (n / 4)) * 4 = n.
Proof. intros. Z.to_euclidean_division_equations. lia. Qed.

(** ** C strings *)

(** The bytes of [l] at [p]. *)
Fixpoint stored (m : bytes) (p : Z) (l : list Z) : Prop :=
  match l with [] => True | c :: l => m !! p = Some c ∧ stored m (p + 1) l end.

Definition cstr (m : bytes) (p : Z) (l : list Z) : Prop :=
  Forall (λ c, 0 < c < 2 ^ 8) l ∧ stored m p (l ++ [0]).

Lemma cstr_nil m p : cstr m p [] → m !! p = Some 0.
Proof. by intros (_ & ? & _). Qed.
Lemma cstr_cons m p c l : cstr m p (c :: l) → m !! p = Some c ∧ 0 < c < 2 ^ 8 ∧ cstr m (p + 1) l.
Proof. intros ([? ?]%Forall_cons & ? & ?). done. Qed.

Lemma stored_app m p l1 l2 :
  stored m p (l1 ++ l2) ↔ stored m p l1 ∧ stored m (p + Z.of_nat (length l1)) l2.
Proof.
  revert p. induction l1 as [|c l1 IH]; intros p; simpl; [rewrite Z.add_0_r; tauto|].
  rewrite IH. replace (p + 1 + Z.of_nat (length l1)) with (p + Z.of_nat (S (length l1))) by lia.
  tauto.
Qed.

Lemma stored_ext m m' p l :
  (∀ a, p ≤ a < p + Z.of_nat (length l) → m' !! a = m !! a) → stored m p l → stored m' p l.
Proof.
  revert p. induction l as [|c l IH]; intros p Ha Hs; simpl in *; [done|].
  destruct Hs as [Hc Hs]. split; [rewrite Ha; [done|lia]|].
  apply IH; [|done]. intros a ?. apply Ha. lia.
Qed.

(** The sign of the first difference, a shorter string being smaller: [compare] of
    the strings as unsigned bytes. *)
Fixpoint lexcmp (l1 l2 : list Z) : comparison :=
  match l1, l2 with
  | [], [] => Eq
  | [], _ :: _ => Lt
  | _ :: _, [] => Gt
  | c1 :: l1, c2 :: l2 => match c1 ?= c2 with Eq => lexcmp l1 l2 | o => o end
  end.

Lemma lexcmp_eq l1 l2 : lexcmp l1 l2 = Eq ↔ l1 = l2.
Proof.
  revert l2. induction l1 as [|a l1 IH]; intros [|b l2]; simpl; try done.
  destruct (Z.compare_spec a b) as [->|?|?].
  - rewrite IH. split; [by intros ->|by intros [=]].
  - split; [done|intros [=]; lia].
  - split; [done|intros [=]; lia].
Qed.

Lemma strcmp_run l1 l2 m p q fuel :
  cstr m p l1 → cstr m q l2 → (length l1 < fuel)%nat →
  ∃ r, strcmp fuel p q m = Ok (r, m) ∧ (r ?= 0) = lexcmp l1 l2.
Proof.
  revert l2 p q fuel. induction l1 as [|a l1 IH]; intros l2 p q [|fuel] H1 H2 Hf;
    simpl in Hf; [lia| |lia|].
  - exists (0 - match l2 with [] => 0 | b :: _ => b end).
    pose proof (cstr_nil _ _ H1) as Ea. cbn [strcmp].
    rewrite (bind_Ok _ _ _ _ _ (load8_ok _ _ _ Ea)).
    destruct l2 as [|b l2].
    + by rewrite (bind_Ok _ _ _ _ _ (load8_ok _ _ _ (cstr_nil _ _ H2))).
    + destruct (cstr_cons _ _ _ _ H2) as (Eb & Rb & _).
      rewrite (bind_Ok _ _ _ _ _ (load8_ok _ _ _ Eb)). split; [done|].
      simpl. apply Z.compare_lt_iff. lia.
  - destruct (cstr_cons _ _ _ _ H1) as (Ea & Ra & H1'). cbn [strcmp].
    rewrite (bind_Ok _ _ _ _ _ (load8_ok _ _ _ Ea)).
    rewrite (bool_decide_eq_false_2 (a = 0)) by lia.
    destruct l2 as [|b l2].
    + rewrite (bind_Ok _ _ _ _ _ (load8_ok _ _ _ (cstr_nil _ _ H2))).
      rewrite bool_decide_eq_false_2 by lia. eexists. split; [done|].
      apply Z.compare_gt_iff. lia.
    + destruct (cstr_cons _ _ _ _ H2) as (Eb & Rb & H2').
      rewrite (bind_Ok _ _ _ _ _ (load8_ok _ _ _ Eb)). simpl.
      destruct (Z.compare_spec a b) as [<-|?|?].
      * rewrite bool_decide_eq_true_2 by done. apply IH; [done..|lia].
      * rewrite bool_decide_eq_false_2 by lia. eexists. split; [done|]. apply Z.compare_lt_iff. lia.
      * rewrite bool_decide_eq_false_2 by lia. eexists. split; [done|]. apply Z.compare_gt_iff. lia.
Qed.

(** The copying loop of [strlcpy]: the first [n] characters at most. *)
Lemma strlcpy_loop_ok l n m dst src :
  cstr m src l → valid m dst (Z.of_nat (min n (length l))) →
  dst + Z.of_nat (min n (length l)) ≤ src ∨ src + Z.of_nat (length l) < dst →
  ∃ m', strlcpy_loop n dst src m = Ok (dst + Z.of_nat (min n (length l)), m') ∧
        filled m m' dst (Z.of_nat (min n (length l)))
          (λ i, l !! Z.to_nat i).
Proof.
  revert l m dst src. induction n as [|n IH]; intros l m dst src Hl Hv Hd.
  { exists m. split; [simpl; by rewrite Z.add_0_r|apply filled_nil]. }
  destruct l as [|c l].
  { exists m. split; [|apply filled_nil]. simpl.
    rewrite (bind_Ok _ _ _ _ _ (load8_ok _ _ _ (cstr_nil _ _ Hl))). simpl. by rewrite Z.add_0_r. }
  destruct (cstr_cons _ _ _ _ Hl) as (Ec & Rc & [Hr Hl']). simpl in Hv, Hd.
  destruct (store8_ok m dst c) as (m1 & E1 & _ & F1); [apply Hv; simpl; lia|].
  destruct (IH l m1 (dst + 1) (src + 1)) as (m2 & E2 & F2).
  - split; [done|]. eapply stored_ext; [|done]. rewrite length_app. simpl. intros a ?.
    apply (filled_out _ _ _ _ _ _ F1). lia.
  - intros i ?. eapply (filled_valid m m1 _ _ _ dst); [done|eauto|done|lia].
  - lia.
  - exists m2. split.
    + cbn [strlcpy_loop]. rewrite (bind_Ok _ _ _ _ _ (load8_ok _ _ _ Ec)).
      rewrite bool_decide_eq_false_2 by lia. rewrite (bind_Ok _ _ _ _ _ E1).
      rewrite E2. do 2 f_equal. simpl. lia.
    + simpl. rewrite Nat2Z.inj_succ, <- Z.add_1_l.
      eapply (filled_app m m1 m2); [lia..| |done|].
      * intros a. rewrite F1. case_bool_decide; [|done]. replace (a - dst) with 0 by lia.
        simpl. by rewrite u8_small by lia.
      * intros i ?. cbv beta. replace (Z.to_nat (1 + i)) with (S (Z.to_nat i)) by lia. done.
Qed.

(** ** The claims *)

(** C35: [memmove] copies: after the call the destination holds what the source held
    before it, cell by cell, and no other byte changed, for every length, every
    alignment and every way the two blocks can overlap (the descending and the
    ascending, the word and the byte path). *)
Theorem memmove_correct m dst src n :
  bytes_ok m → 0 ≤ n → valid m src n → valid m dst n →
  ∃ m', memmove dst src n m = Ok (dst, m') ∧ copied m m' dst src n.
Proof.
  intros Hb Hn Hs Hd. unfold memmove.
  destruct (bool_decide (src < dst) && bool_decide (dst < src + n)) eqn:Eo.
  - apply andb_true_iff in Eo as [?%bool_decide_eq_true ?%bool_decide_eq_true].
    destruct (_ && _ && _) eqn:Ea.
    + apply andb_true_iff in Ea as [_ En%bool_decide_eq_true].
      pose proof (mod4_split n Hn En) as E4.
      destruct (movs_backward (Z.to_nat (n / 4)) 4 dst src m) as (m' & E & F);
        rewrite ?E4; auto; [lia|].
      rewrite E4 in E, F. exists m'. by rewrite (bind_Ok _ _ _ _ _ E).
    + destruct (movs_backward (Z.to_nat n) 1 dst src m) as (m' & E & F);
        rewrite ?Z2Nat.id, ?Z.mul_1_r by done; auto; [lia|].
      rewrite Z2Nat.id, Z.mul_1_r in E, F by done. exists m'. by rewrite (bind_Ok _ _ _ _ _ E).
  - assert (Ho : dst ≤ src ∨ src + n ≤ dst).
    { apply andb_false_iff in Eo as [?%bool_decide_eq_false|?%bool_decide_eq_false]; lia. }
    destruct (_ && _ && _) eqn:Ea.
    + apply andb_true_iff in Ea as [_ En%bool_decide_eq_true].
      pose proof (mod4_split n Hn En) as E4.
      destruct (movs_forward (Z.to_nat (n / 4)) 4 dst src m) as (m' & E & F);
        rewrite ?E4; auto.
      rewrite E4 in F. exists m'. by rewrite (bind_Ok _ _ _ _ _ E).
    + destruct (movs_forward (Z.to_nat n) 1 dst src m) as (m' & E & F);
        rewrite ?Z2Nat.id, ?Z.mul_1_r by done; auto.
      rewrite Z2Nat.id, Z.mul_1_r in F by done. exists m'. by rewrite (bind_Ok _ _ _ _ _ E).
Qed.

(** [memset] sets exactly the [n] bytes at [v] to the low byte of [c], on the
    word path as on the byte path. *)
Theorem memset_correct m v c n :
  0 ≤ n → valid m v n →
  ∃ m', memset v c n m = Ok (v, m') ∧ filled m m' v n (λ _, Some (u8 c)).
Proof.
  intros Hn Hv. unfold memset. case_bool_decide as H0.
  { subst n. exists m. split; [done|apply filled_nil]. }
  destruct (_ && _) eqn:Ea.
  - apply andb_true_iff in Ea as [_ En%bool_decide_eq_true].
    pose proof (mod4_split n Hn En) as E4. rewrite Z.mul_comm in E4.
    edestruct (stosl_ok (Z.to_nat (n / 4)) v _ (u8 c) m (memset_word c)) as (m' & E & F);
      [by rewrite E4|].
    rewrite E4 in F. exists m'. by rewrite (bind_Ok _ _ _ _ _ E).
  - destruct (stosb_ok (Z.to_nat n) v c m) as (m' & E & F); rewrite ?Z2Nat.id by done; [done|].
    rewrite Z2Nat.id in F by done. exists m'. by rewrite (bind_Ok _ _ _ _ _ E).
Qed.

(** [strcmp] orders strings: the sign of its result is the lexicographic
    comparison of the two strings as unsigned bytes, 0 exactly for equal strings,
    and the memory is not written. *)
Theorem strcmp_correct l1 l2 m p q fuel :
  cstr m p l1 → cstr m q l2 → (length l1 < fuel)%nat →
  ∃ r, strcmp fuel p q m = Ok (r, m) ∧ (r ?= 0) = lexcmp l1 l2 ∧ (r = 0 ↔ l1 = l2).
Proof.
  intros H1 H2 Hf. destruct (strcmp_run l1 l2 m p q fuel H1 H2 Hf) as (r & E & Hr).
  exists r. split_and!; [done..|]. rewrite <- lexcmp_eq, <- Hr. symmetry. apply Z.compare_eq_iff.
Qed.

(** [strlcpy] never writes outside the [size] bytes at [dst] and always leaves a
    terminated string there: the longest prefix of the source that fits, whose
    length it returns. *)
Theorem strlcpy_correct l m dst src size :
  cstr m src l → 0 < size → valid m dst size →
  dst + size ≤ src ∨ src + Z.of_nat (length l) < dst →
  ∃ m', strlcpy dst src size m = Ok (Z.min (size - 1) (Z.of_nat (length l)), m') ∧
        cstr m' dst (take (Z.to_nat (size - 1)) l) ∧
        ∀ a, ¬ (dst ≤ a < dst + size) → m' !! a = m !! a.
Proof.
  intros Hl Hn Hv Hd. unfold strlcpy. rewrite bool_decide_eq_true_2 by done.
  replace (pred (Z.to_nat size)) with (Z.to_nat (size - 1)) by lia.
  set (n := Z.to_nat (size - 1)). set (k := min n (length l)).
  destruct (strlcpy_loop_ok l n m dst src Hl) as (m1 & E1 & F1).
  { intros i ?. apply Hv. lia. } { lia. } fold k in E1, F1.
  destruct (store8_ok m1 (dst + Z.of_nat k) 0) as (m2 & E2 & _ & F2).
  { eapply (filled_valid m m1 _ _ _ dst size); [done| |done|lia].
    intros i ?. apply lookup_lt_is_Some. lia. }
  exists m2. split_and!.
  - rewrite (bind_Ok _ _ _ _ _ E1), (bind_Ok _ _ _ _ _ E2). unfold mret, M_ret. do 2 f_equal. lia.
  - split; [apply Forall_take, Hl|].
    apply stored_app. rewrite length_take. fold k. split.
    + assert (Hs : ∀ j l', (∀ i : nat, (i < length l')%nat → m2 !! (j + Z.of_nat i) = l' !! i) → stored m2 j l').
      { clear. intros j l'. revert j. induction l' as [|c l' IH]; intros j H; [done|].
        split; [rewrite <- (Z.add_0_r j); apply (H 0%nat); simpl; lia|].
        apply IH. intros i ?. rewrite <- Z.add_assoc.
        replace (1 + Z.of_nat i) with (Z.of_nat (S i)) by lia. apply (H (S i)). simpl. lia. }
      apply Hs. intros i Hi. rewrite length_take in Hi. fold k in Hi.
      rewrite (filled_out _ _ _ _ _ _ F2) by lia. rewrite (filled_in _ _ _ _ _ _ F1) by lia.
      rewrite lookup_take_lt by lia. f_equal. lia.
    + split; [|done]. rewrite (filled_in _ _ _ _ _ _ F2) by lia. done.
  - intros a Ha. rewrite (filled_out _ _ _ _ _ _ F2) by lia. apply (filled_out _ _ _ _ _ _ F1). lia.
Qed.

(** ** A memory to run them on: "abcabd" and room for more *)

Definition demo_bytes : bytes :=
  list_to_map (zip (seqZ 100 32) ([97; 98; 99; 0; 97; 98; 100; 0] ++ replicate 24 7)).

Lemma demo_bytes_ok : bytes_ok demo_bytes.
Proof. apply map_Forall_to_list. vm_compute. repeat constructor; done. Qed.

Lemma demo_valid a n : 100 ≤ a → a + n ≤ 132 → valid demo_bytes a n.
Proof.
  intros ? ? i ?. apply elem_of_dom.
  assert (Hd : dom demo_bytes = list_to_set (seqZ 100 32)) by (vm_compute; done).
  rewrite Hd. apply elem_of_list_to_set, elem_of_seqZ. lia.
Qed.

(** An overlapping copy upwards by three bytes. *)
Lemma memmove_correct_witness :
  ∃ m', memmove 103 100 7 demo_bytes = Ok (103, m') ∧ copied demo_bytes m' 103 100 7.
Proof.
  apply memmove_correct; [apply demo_bytes_ok|lia|apply demo_valid; lia|apply demo_valid; lia].
Defined.

Lemma memset_correct_witness :
  ∃ m', memset 104 300 8 demo_bytes = Ok (104, m') ∧ filled demo_bytes m' 104 8 (λ _, Some (u8 300)).
Proof. apply memset_correct; [lia|apply demo_valid; lia]. Defined.

Lemma demo_cstr1 : cstr demo_bytes 100 [97; 98; 99].
Proof. split; [repeat constructor; lia|vm_compute; auto]. Qed.
Lemma demo_cstr2 : cstr demo_bytes 104 [97; 98; 100].
Proof. split; [repeat constructor; lia|vm_compute; auto]. Qed.

Lemma strcmp_correct_witness :
  ∃ r, strcmp 4 100 104 demo_bytes = Ok (r, demo_bytes) ∧ (r ?= 0) = Lt ∧
       (r = 0 ↔ [97; 98; 99] = [97; 98; 100]).
Proof. apply (strcmp_correct [97; 98; 99] [97; 98; 100]); [apply demo_cstr1|apply demo_cstr2|simpl; lia]. Defined.

Lemma strlcpy_correct_witness :
  ∃ m', strlcpy 110 104 3 demo_bytes = Ok (2, m') ∧ cstr m' 110 [97; 98] ∧
        ∀ a, ¬ (110 ≤ a < 113) → m' !! a = demo_bytes !! a.
Proof.
  apply (strlcpy_correct [97; 98; 100] demo_bytes 110 104 3);
    [apply demo_cstr2|lia|apply demo_valid; lia|simpl; lia].
Defined.
