(* ===== verification/Console.v ===== *)
(** * The text console: kernel/char/console.c

    The screen is the array of 16-bit cells at [display_addr]; a cell outside its
    25 rows of 80 faults.  The address itself is not part of the state:
    [updata_display_addr], which bootmm.c calls once to go on through the new mapping of
    the same memory, is left out.  So are the port writes that move the hardware cursor:
    they send constants and change nothing the code reads. *)

From S2P Require Import Prelude.

Local Open Scope Z_scope.

Definition CRT_ROWS : Z := 25.
Definition CRT_COLS : Z := 80.
Definition CRT_SIZE : Z := CRT_ROWS * CRT_COLS.

Record console_struct := Console { cursor : Z; crt : list Z }.

Definition crt_set (i v : Z) : M console_struct unit :=
  s ← get;
  if bool_decide (0 ≤ i < Z.of_nat (length (crt s))) then
    put (Console (cursor s) (<[Z.to_nat i := u16 v]> (crt s)))
  else fault.

Definition set_crt_pos (p : Z) : M console_struct unit :=
  modify (λ s, Console (u32 p) (crt s)).

Fixpoint crt_fill (n : nat) (i v : Z) : M console_struct unit :=
  match n with O => mret tt | S n => crt_set i v ;; crt_fill n (i + 1) v end.

Definition console_clear : M console_struct unit := crt_fill (Z.to_nat CRT_SIZE) 0 0.

Definition console_init : M console_struct unit := set_crt_pos 0 ;; console_clear.

(** [memmove(crt_buf, crt_buf + CRT_COLS, ...)]. *)
Definition crt_scroll : M console_struct unit :=
  modify (λ s, Console (cursor s)
    (drop (Z.to_nat CRT_COLS) (take (Z.to_nat CRT_SIZE) (crt s)) ++
     drop (Z.to_nat (CRT_SIZE - CRT_COLS)) (crt s))).

(** [fuel] bounds the calls for a tab, which are one deep. *)
Fixpoint vga_text_putc (fuel : nat) (c : Z) : M console_struct unit :=
  match fuel with
  | O => stop_with OutOfFuel
  | S fuel =>
      let c := if bool_decide (Z.land c (Z.lnot 0xFF) = 0) then Z.lor c 0x0700 else c in
      let ch := Z.land c 0xFF in
      crt_pos ← gets cursor;
      (if bool_decide (ch = 8) then
         if bool_decide (0 < crt_pos) then
           set_crt_pos (crt_pos - 1) ;;
           crt_set (crt_pos - 1) (Z.lor (Z.land c (Z.lnot 0xFF)) 32)
         else mret tt
       else if bool_decide (ch = 10) then
         let crt_pos := u32 (crt_pos + CRT_COLS) in
         set_crt_pos (crt_pos - crt_pos mod CRT_COLS)
       else if bool_decide (ch = 13) then
         set_crt_pos (crt_pos - crt_pos mod CRT_COLS)
       else if bool_decide (ch = 9) then
         vga_text_putc fuel 32 ;; vga_text_putc fuel 32 ;; vga_text_putc fuel 32 ;;
         vga_text_putc fuel 32 ;; vga_text_putc fuel 32
       else
         crt_set crt_pos c ;; set_crt_pos (crt_pos + 1)) ;;
      crt_pos ← gets cursor;
      if bool_decide (CRT_SIZE ≤ crt_pos) then
        crt_scroll ;;
        crt_fill (Z.to_nat CRT_COLS) (CRT_SIZE - CRT_COLS) (Z.lor 0x0700 32) ;;
        set_crt_pos (crt_pos - CRT_COLS)
      else mret tt
  end.

Definition console_write_char (c : Z) : M console_struct unit := vga_text_putc 2 (u32 c).
