(* ===== verification/ConsoleProofs.v ===== *)
(** * The console shows a window of a roll of paper

    The specification is a terminal that never scrolls: a roll of cells, unbounded
    below, and a position on it.  The screen is the window of 25 rows that starts
    [base] rows down the roll; the driver implements the roll. *)

From S2P Require Import Prelude Console.

Local Open Scope Z_scope.

Record paper := Paper { cells : Z → Z; pos : Z; base : Z }.

Definition blank : Z := 0x0720.

Definition origin (p : paper) : Z := CRT_COLS * base p.

(** The position is in the window and the roll is blank below it. *)
Definition paper_wf (p : paper) : Prop :=
  0 ≤ base p ∧ origin p ≤ pos p < origin p + CRT_SIZE ∧
  ∀ k, origin p + CRT_SIZE ≤ k → cells p k = blank.

Definition window (f : Z → Z) (o : Z) : list Z := (λ i, f (o + i)) <$> seqZ 0 CRT_SIZE.

(** What the screen shows of the roll. *)
Definition view (p : paper) : console_struct :=
  Console (pos p - origin p) (window (cells p) (origin p)).

Definition write_at (f : Z → Z) (k v : Z) : Z → Z := λ j, if bool_decide (j = k) then v else f j.

(** Move the window down by a row when the position has left it. *)
Definition feed (p : paper) : paper :=
  if bool_decide (origin p + CRT_SIZE ≤ pos p) then Paper (cells p) (pos p) (base p + 1) else p.

(** The attribute of characters that have none. *)
Definition colour (c : Z) : Z :=
  if bool_decide (Z.land c (Z.lnot 0xFF) = 0) then Z.lor c 0x0700 else c.

Definition paper_char (c : Z) (p : paper) : paper :=
  feed (Paper (write_at (cells p) (pos p) (u16 c)) (pos p + 1) (base p)).

Definition paper_write (c : Z) (p : paper) : paper :=
  let c := colour c in
  let ch := Z.land c 0xFF in
  let bol k := k - k mod CRT_COLS in
  if bool_decide (ch = 8) then
    if bool_decide (origin p < pos p) then
      Paper (write_at (cells p) (pos p - 1) (u16 (Z.lor (Z.land c (Z.lnot 0xFF)) 32)))
        (pos p - 1) (base p)
    else p
  else if bool_decide (ch = 10) then feed (Paper (cells p) (bol (pos p + CRT_COLS)) (base p))
  else if bool_decide (ch = 13) then Paper (cells p) (bol (pos p)) (base p)
  else if bool_decide (ch = 9) then Nat.iter 5 (paper_char (colour 32)) p
  else paper_char c p.

(** ** The screen as a list *)

Lemma lookup_window f o k :
  window f o !! k = if bool_decide (Z.of_nat k < CRT_SIZE) then Some (f (o + Z.of_nat k)) else None.
Proof.
  unfold window. rewrite list_lookup_fmap. case_bool_decide as H.
  - by rewrite lookup_seqZ_lt by lia.
  - by rewrite lookup_seqZ_ge by lia.
Qed.

Lemma length_window f o : length (window f o) = Z.to_nat CRT_SIZE.
Proof. unfold window. by rewrite length_fmap, length_seqZ. Qed.

Lemma window_write f o k v :
  o ≤ k < o + CRT_SIZE → <[Z.to_nat (k - o) := v]> (window f o) = window (write_at f k v) o.
Proof.
  intros Hk. apply list_eq. intros j. rewrite lookup_window. unfold write_at.
  destruct (decide (j = Z.to_nat (k - o))) as [->|Hne].
  - rewrite list_lookup_insert_eq by (rewrite length_window; lia).
    rewrite !bool_decide_eq_true_2 by lia. done.
  - rewrite list_lookup_insert_ne, lookup_window by lia.
    case_bool_decide; [|done]. by rewrite bool_decide_eq_false_2 by lia.
Qed.

Lemma crt_set_ok f o k v c :
  o ≤ k < o + CRT_SIZE →
  crt_set (k - o) v (Console c (window f o)) = Ok (tt, Console c (window (write_at f k (u16 v)) o)).
Proof.
  intros Hk. unfold crt_set. run_step. cbn [crt cursor].
  rewrite length_window, bool_decide_eq_true_2 by lia. unfold put. by rewrite window_write.
Qed.

Lemma set_crt_pos_ok p c l : 0 ≤ p < 2 ^ 32 → set_crt_pos p (Console c l) = Ok (tt, Console p l).
Proof. intros. unfold set_crt_pos, modify. simpl. by rewrite u32_small. Qed.

Lemma crt_fill_ok n i v c l :
  0 ≤ i → i + Z.of_nat n ≤ Z.of_nat (length l) →
  ∃ l', crt_fill n i v (Console c l) = Ok (tt, Console c l') ∧ length l' = length l ∧
        ∀ j, l' !! j = if bool_decide (i ≤ Z.of_nat j < i + Z.of_nat n) then Some (u16 v) else l !! j.
Proof.
  revert i l. induction n as [|n IH]; intros i l Hi Hn.
  { exists l. split_and!; [done..|]. intros j. rewrite bool_decide_eq_false_2; [done|lia]. }
  destruct (IH (i + 1) (<[Z.to_nat i := u16 v]> l)) as (l' & E & Hl & Hj);
    [lia|rewrite length_insert; lia|].
  exists l'. split_and!.
  - cbn [crt_fill]. unfold crt_set at 1. unfold mbind at 1, M_bind at 1. run_step. cbn [crt cursor].
    rewrite bool_decide_eq_true_2 by lia. done.
  - by rewrite Hl, length_insert.
  - intros j. rewrite Hj. destruct (decide (j = Z.to_nat i)) as [->|Hne].
    + rewrite list_lookup_insert_eq by lia. repeat case_bool_decide; try done; lia.
    + rewrite list_lookup_insert_ne by lia. repeat case_bool_decide; try done; lia.
Qed.

(** Scrolling moves the window down one row of the roll. *)
Lemma scroll_ok f o c :
  (∀ k, o + CRT_SIZE ≤ k → f k = blank) →
  (crt_scroll ;;
   crt_fill (Z.to_nat CRT_COLS) (CRT_SIZE - CRT_COLS) (Z.lor 0x0700 32)) (Console c (window f o)) =
  Ok (tt, Console c (window f (o + CRT_COLS))).
Proof.
  intros Hb. unfold mbind, M_bind, crt_scroll, modify. cbn [cursor crt].
  set (l := drop _ _ ++ drop _ _).
  assert (Hlen : length l = Z.to_nat CRT_SIZE).
  { subst l. rewrite length_app, !length_drop, length_take, length_window.
    unfold CRT_SIZE, CRT_ROWS, CRT_COLS. lia. }
  destruct (crt_fill_ok (Z.to_nat CRT_COLS) (CRT_SIZE - CRT_COLS) (Z.lor 0x0700 32) c l)
    as (l' & E & Hl & Hj); [unfold CRT_SIZE, CRT_ROWS, CRT_COLS in *; lia..|].
  rewrite E. do 3 f_equal. apply list_eq. intros j. rewrite Hj, lookup_window.
  unfold CRT_SIZE, CRT_ROWS, CRT_COLS in *.
  destruct (decide (Z.of_nat j < 25 * 80 - 80)) as [Hlt|Hge].
  - rewrite bool_decide_eq_false_2, bool_decide_eq_true_2 by lia. subst l.
    rewrite lookup_app_l; [|rewrite length_drop, length_take, length_window;
                             unfold CRT_SIZE, CRT_ROWS, CRT_COLS; lia].
    rewrite lookup_drop, lookup_take_lt, lookup_window by lia.
    rewrite bool_decide_eq_true_2 by (unfold CRT_SIZE, CRT_ROWS, CRT_COLS; lia).
    f_equal. f_equal. lia.
  - destruct (decide (Z.of_nat j < 25 * 80)) as [Hlt|Hge'].
    + rewrite !bool_decide_eq_true_2 by lia. rewrite Hb by lia. done.
    + rewrite !bool_decide_eq_false_2 by lia. apply lookup_ge_None_2. lia.
Qed.

Lemma scroll_then {B} (k : M console_struct B) f o c :
  (∀ k, o + CRT_SIZE ≤ k → f k = blank) →
  (crt_scroll ;;
   crt_fill (Z.to_nat CRT_COLS) (CRT_SIZE - CRT_COLS) (Z.lor 0x0700 32) ;; k)
    (Console c (window f o)) = k (Console c (window f (o + CRT_COLS))).
Proof.
  intros Hb. etrans; [symmetry; apply (bind_assoc crt_scroll (λ _, _) (λ _, k))|].
  exact (bind_Ok _ _ _ _ _ (scroll_ok f o c Hb)).
Qed.

(** ** The end of [vga_text_putc]: the scroll test *)

Definition putc_tail : M console_struct unit :=
  crt_pos ← gets cursor;
  if bool_decide (CRT_SIZE ≤ crt_pos) then
    crt_scroll ;;
    crt_fill (Z.to_nat CRT_COLS) (CRT_SIZE - CRT_COLS) (Z.lor 0x0700 32) ;;
    set_crt_pos (crt_pos - CRT_COLS)
  else mret tt.

(** A roll whose position may be at the line just below the window. *)
Definition paper_below (p : paper) : Prop :=
  0 ≤ base p ∧ origin p ≤ pos p ≤ origin p + CRT_SIZE ∧
  ∀ k, origin p + CRT_SIZE ≤ k → cells p k = blank.

Lemma paper_wf_below p : paper_wf p → paper_below p.
Proof. intros (? & ? & ?). split_and!; [done|lia|lia|done]. Qed.

Lemma putc_tail_ok p :
  paper_below p → putc_tail (view p) = Ok (tt, view (feed p)) ∧ paper_wf (feed p).
Proof.
  intros (Hb & Hp & Hf). unfold putc_tail, feed, view at 1. run_step. cbn [cursor].
  assert (Hd : bool_decide (CRT_SIZE ≤ pos p - origin p) = bool_decide (origin p + CRT_SIZE ≤ pos p)).
  { apply bool_decide_ext. lia. }
  rewrite Hd. clear Hd. case_bool_decide as H.
  - assert (Ho : origin (Paper (cells p) (pos p) (base p + 1)) = origin p + CRT_COLS).
    { unfold origin. simpl. lia. }
    rewrite scroll_then by done.
    rewrite set_crt_pos_ok by (unfold CRT_SIZE, CRT_ROWS, CRT_COLS in *; lia).
    unfold view, paper_wf. rewrite Ho. cbn [pos cells base]. split.
    + do 3 f_equal. lia.
    + unfold CRT_SIZE, CRT_ROWS, CRT_COLS in *. split_and!; [lia..|].
      intros k ?. apply Hf. lia.
  - split; [done|]. split_and!; [done|lia|lia|done].
Qed.

Lemma write_below f o k v :
  (∀ j, o + CRT_SIZE ≤ j → f j = blank) → k < o + CRT_SIZE →
  ∀ j, o + CRT_SIZE ≤ j → write_at f k v j = blank.
Proof. intros Hf Hk j Hj. unfold write_at. rewrite bool_decide_eq_false_2 by lia. by apply Hf. Qed.

Lemma putc_plain_ok c p :
  paper_wf p →
  (crt_set (pos p - origin p) c ;; set_crt_pos (pos p - origin p + 1) ;; putc_tail) (view p) =
    Ok (tt, view (paper_char c p)) ∧ paper_wf (paper_char c p).
Proof.
  intros (Hb & Hp & Hf). unfold view at 1.
  rewrite (bind_Ok _ _ _ _ _ (crt_set_ok _ _ _ _ _ Hp)).
  rewrite (bind_Ok _ _ _ _ _ (set_crt_pos_ok (pos p - origin p + 1) _ _
    ltac:(unfold CRT_SIZE, CRT_ROWS, CRT_COLS in *; lia))).
  set (q := Paper (write_at (cells p) (pos p) (u16 c)) (pos p + 1) (base p)).
  assert (Ho : origin q = origin p) by done.
  replace (Console (pos p - origin p + 1) _) with (view q)
    by (unfold view; rewrite Ho; cbn [pos cells q]; f_equal; lia).
  apply putc_tail_ok. unfold paper_below. rewrite Ho. cbn [pos cells base q].
  split_and!; [done|lia|lia|]. apply write_below; [done|lia].
Qed.

(** A character that is none of the four controls. *)
Definition plain (c : Z) : Prop :=
  Z.land c 0xFF ≠ 8 ∧ Z.land c 0xFF ≠ 9 ∧ Z.land c 0xFF ≠ 10 ∧ Z.land c 0xFF ≠ 13.

Lemma putc_S fuel c s :
  vga_text_putc (S fuel) c s =
  (let c := colour c in
   let ch := Z.land c 0xFF in
   crt_pos ← gets cursor;
   (if bool_decide (ch = 8) then
      if bool_decide (0 < crt_pos) then
        set_crt_pos (crt_pos - 1) ;;
        crt_set (crt_pos - 1) (Z.lor (Z.land c (Z.lnot 0xFF)) 32)
      else mret tt
    else if bool_decide (ch = 10) then
      let crt_pos := u32 (crt_pos + CRT_COLS) in
      set_crt_pos (crt_pos - crt_pos mod CRT_COLS)
    else if bool_decide (ch = 13) then set_crt_pos (crt_pos - crt_pos mod CRT_COLS)
    else if bool_decide (ch = 9) then
      vga_text_putc fuel 32 ;; vga_text_putc fuel 32 ;; vga_text_putc fuel 32 ;;
      vga_text_putc fuel 32 ;; vga_text_putc fuel 32
    else crt_set crt_pos c ;; set_crt_pos (crt_pos + 1)) ;; putc_tail) s.
Proof. reflexivity. Qed.

Lemma putc_char_ok fuel c p :
  paper_wf p → plain (colour c) →
  vga_text_putc (S fuel) c (view p) = Ok (tt, view (paper_char (colour c) p)) ∧
  paper_wf (paper_char (colour c) p).
Proof.
  intros Hp (H8 & H9 & H10 & H13). rewrite putc_S. cbv zeta. run_step.
  rewrite !bool_decide_eq_false_2 by done.
  rewrite bind_assoc. by apply putc_plain_ok.
Qed.

Lemma origin_mod p k : (k - origin p) mod CRT_COLS = k mod CRT_COLS.
Proof.
  unfold origin. replace (k - CRT_COLS * base p) with (k + - base p * CRT_COLS) by lia.
  apply Z.mod_add. done.
Qed.

Lemma iter_char_ok n p :
  paper_wf p → paper_wf (Nat.iter n (paper_char (colour 32)) p).
Proof.
  intros Hp. induction n as [|n IH]; [done|]. simpl.
  apply (putc_char_ok 0 32); [done|]. unfold plain. by vm_compute.
Qed.

Lemma tab_ok fuel p :
  paper_wf p →
  (vga_text_putc (S fuel) 32 ;; vga_text_putc (S fuel) 32 ;; vga_text_putc (S fuel) 32 ;;
   vga_text_putc (S fuel) 32 ;; vga_text_putc (S fuel) 32) (view p) =
  Ok (tt, view (Nat.iter 5 (paper_char (colour 32)) p)).
Proof.
  intros Hp.
  assert (Hs : ∀ n, vga_text_putc (S fuel) 32 (view (Nat.iter n (paper_char (colour 32)) p)) =
                    Ok (tt, view (Nat.iter (S n) (paper_char (colour 32)) p))).
  { intros n. apply putc_char_ok; [by apply iter_char_ok|]. unfold plain. by vm_compute. }
  rewrite (bind_Ok _ _ _ _ _ (Hs 0%nat)), (bind_Ok _ _ _ _ _ (Hs 1%nat)),
    (bind_Ok _ _ _ _ _ (Hs 2%nat)), (bind_Ok _ _ _ _ _ (Hs 3%nat)). apply Hs.
Qed.

Lemma feed_wf p : paper_wf p → feed p = p.
Proof. intros (? & ? & ?). unfold feed. by rewrite bool_decide_eq_false_2 by lia. Qed.

(** The end of the routine does nothing when the position is in the window. *)
Lemma putc_tail_wf p : paper_wf p → putc_tail (view p) = Ok (tt, view p).
Proof.
  intros Hp. destruct (putc_tail_ok p) as [E _]; [by apply paper_wf_below|]. by rewrite E, feed_wf.
Qed.

Lemma console_write_run p c :
  paper_wf p →
  console_write_char c (view p) = Ok (tt, view (paper_write (u32 c) p)) ∧
  paper_wf (paper_write (u32 c) p).
Proof.
  intros Hp. unfold console_write_char. set (c' := u32 c). pose proof Hp as (Hb & Hr & Hf).
  unfold paper_write. rewrite putc_S. cbv zeta. run_step. change (cursor (view p)) with (pos p - origin p).
  case_bool_decide as H8.
  { assert (Hd : bool_decide (0 < pos p - origin p) = bool_decide (origin p < pos p))
      by (apply bool_decide_ext; lia).
    rewrite Hd. clear Hd. case_bool_decide as H0; [|by rewrite putc_tail_wf].
    unfold view at 1.
    rewrite bind_assoc, (bind_Ok _ _ _ _ _ (set_crt_pos_ok (pos p - origin p - 1) _ _
      ltac:(unfold CRT_SIZE, CRT_ROWS, CRT_COLS in *; lia))).
    replace (pos p - origin p - 1) with (pos p - 1 - origin p) by lia.
    rewrite (bind_Ok _ _ _ _ _ (crt_set_ok (cells p) (origin p) (pos p - 1) _ _ ltac:(lia))).
    match goal with |- context [Paper ?f ?k ?b] => set (q := Paper f k b) end.
    assert (paper_wf q).
    { unfold paper_wf. change (origin q) with (origin p). cbn [pos cells base q].
      split_and!; [done|lia|lia|]. apply write_below; [done|lia]. }
    split; [|done]. by apply (putc_tail_wf q). }
  case_bool_decide as H10.
  { match goal with |- context [feed (Paper ?f ?k ?b)] => set (q := Paper f k b) end.
    assert (Hk : pos q = pos p + CRT_COLS - (pos p + CRT_COLS) mod CRT_COLS) by done.
    assert (Hm : (pos p - origin p + CRT_COLS) mod CRT_COLS = (pos p + CRT_COLS) mod CRT_COLS).
    { rewrite <- (origin_mod p (pos p + CRT_COLS)). f_equal. lia. }
    assert (Hq : origin p ≤ pos q ≤ origin p + CRT_SIZE).
    { rewrite Hk. unfold origin, CRT_SIZE, CRT_ROWS, CRT_COLS in *.
      Z.to_euclidean_division_equations; lia. }
    rewrite u32_small by (unfold CRT_SIZE, CRT_ROWS, CRT_COLS in *; lia).
    unfold view at 1. rewrite (bind_Ok _ _ _ _ _ (set_crt_pos_ok
      (pos p - origin p + CRT_COLS - (pos p - origin p + CRT_COLS) mod CRT_COLS) _ _
      ltac:(rewrite Hm; unfold CRT_SIZE, CRT_ROWS, CRT_COLS in *; lia))).
    replace (Console _ _) with (view q)
      by (unfold view; change (origin q) with (origin p); rewrite Hk, Hm; f_equal; lia).
    apply putc_tail_ok. split_and!; [done|by apply Hq|by apply Hq|done]. }
  case_bool_decide as H13.
  { match goal with |- context [Paper ?f ?k ?b] => set (q := Paper f k b) end.
    assert (Hk : pos q = pos p - pos p mod CRT_COLS) by done.
    assert (Hq : origin p ≤ pos q < origin p + CRT_SIZE).
    { rewrite Hk. unfold origin, CRT_SIZE, CRT_ROWS, CRT_COLS in *.
      Z.to_euclidean_division_equations; lia. }
    unfold view at 1. rewrite (bind_Ok _ _ _ _ _ (set_crt_pos_ok
      (pos p - origin p - (pos p - origin p) mod CRT_COLS) _ _
      ltac:(rewrite origin_mod; unfold CRT_SIZE, CRT_ROWS, CRT_COLS in *; lia))).
    assert (paper_wf q) by (split_and!; [done|by apply Hq|by apply Hq|done]).
    replace (Console _ _) with (view q)
      by (unfold view; change (origin q) with (origin p); rewrite Hk, origin_mod; f_equal; lia).
    split; [|done]. by apply putc_tail_wf. }
  case_bool_decide as H9.
  { rewrite (bind_Ok _ _ _ _ _ (tab_ok 0 p Hp)).
    pose proof (iter_char_ok 5 p Hp). split; [|done]. by apply putc_tail_wf. }
  rewrite bind_assoc. by apply putc_plain_ok.
Qed.

(** The console implements the roll of paper: whatever character is written
    (a plain one, backspace, newline, carriage return, tab, with or without a
    colour), the driver returns without touching a cell off the screen, and the
    screen and cursor afterwards are the window on the roll on which that character
    was written, moved down by a row exactly when the position left it. *)
Theorem console_write_char_refines p c :
  paper_wf p →
  console_write_char c (view p) = Ok (tt, view (paper_write (u32 c) p)) ∧
  paper_wf (paper_write (u32 c) p).
Proof. apply console_write_run. Qed.

(** The roll the screen shows after [console_init]. *)
Definition fresh : paper :=
  Paper (λ k, if bool_decide (k < CRT_SIZE) then 0 else blank) 0 0.

Lemma fresh_wf : paper_wf fresh.
Proof.
  split_and!; [done..|]. intros k Hk. simpl. rewrite bool_decide_eq_false_2; [done|].
  unfold origin in Hk. simpl in Hk. lia.
Qed.

Lemma console_write_char_refines_witness :
  console_write_char 65 (view fresh) = Ok (tt, view (paper_write (u32 65) fresh)) ∧
  paper_wf (paper_write (u32 65) fresh).
Proof. apply console_write_char_refines. apply fresh_wf. Defined.
