(* ===== verification/Keyboard.v ===== *)
(** * Keyboard and terminal input: kernel/char/keyboard.c, kernel/char/tty_io.c

    The scan code queue, the decoder with its modifier state, and the queue of keys
    that [tty_read] empties.  Pointers into the arrays are indices; an access
    outside an array faults. *)

From S2P Require Import Prelude.

Local Open Scope Z_scope.

(** ** Key codes (include/fuckOS/keyboard.h, include/fuckOS/keymap.h) *)

Module Keys.
Definition KB_IN_BYTES : Z := 32.
Definition MAP_COLS : Z := 3.
Definition NR_SCAN_CODES : Z := 0x80.
Definition FLAG_BREAK : Z := 0x0080.
Definition FLAG_EXT : Z := 0x0100.
Definition FLAG_SHIFT_L : Z := 0x0200.
Definition FLAG_SHIFT_R : Z := 0x0400.
Definition FLAG_CTRL_L : Z := 0x0800.
Definition FLAG_CTRL_R : Z := 0x1000.
Definition FLAG_ALT_L : Z := 0x2000.
Definition FLAG_ALT_R : Z := 0x4000.
Definition FLAG_PAD : Z := 0x8000.
Definition MASK_RAW : Z := 0x01FF.
Definition ESC : Z := 0x01 + FLAG_EXT.
Definition TAB : Z := 0x02 + FLAG_EXT.
Definition ENTER : Z := 0x03 + FLAG_EXT.
Definition BACKSPACE : Z := 0x04 + FLAG_EXT.
Definition GUI_L : Z := 0x05 + FLAG_EXT.
Definition GUI_R : Z := 0x06 + FLAG_EXT.
Definition APPS : Z := 0x07 + FLAG_EXT.
Definition SHIFT_L : Z := 0x08 + FLAG_EXT.
Definition SHIFT_R : Z := 0x09 + FLAG_EXT.
Definition CTRL_L : Z := 0x0A + FLAG_EXT.
Definition CTRL_R : Z := 0x0B + FLAG_EXT.
Definition ALT_L : Z := 0x0C + FLAG_EXT.
Definition ALT_R : Z := 0x0D + FLAG_EXT.
Definition CAPS_LOCK : Z := 0x0E + FLAG_EXT.
Definition NUM_LOCK : Z := 0x0F + FLAG_EXT.
Definition SCROLL_LOCK : Z := 0x10 + FLAG_EXT.
Definition F1 : Z := 0x11 + FLAG_EXT.
Definition F2 : Z := 0x12 + FLAG_EXT.
Definition F3 : Z := 0x13 + FLAG_EXT.
Definition F4 : Z := 0x14 + FLAG_EXT.
Definition F5 : Z := 0x15 + FLAG_EXT.
Definition F6 : Z := 0x16 + FLAG_EXT.
Definition F7 : Z := 0x17 + FLAG_EXT.
Definition F8 : Z := 0x18 + FLAG_EXT.
Definition F9 : Z := 0x19 + FLAG_EXT.
Definition F10 : Z := 0x1A + FLAG_EXT.
Definition F11 : Z := 0x1B + FLAG_EXT.
Definition F12 : Z := 0x1C + FLAG_EXT.
Definition PRINTSCREEN : Z := 0x1D + FLAG_EXT.
Definition PAUSEBREAK : Z := 0x1E + FLAG_EXT.
Definition INSERT : Z := 0x1F + FLAG_EXT.
Definition DELETE : Z := 0x20 + FLAG_EXT.
Definition HOME : Z := 0x21 + FLAG_EXT.
Definition END : Z := 0x22 + FLAG_EXT.
Definition PAGEUP : Z := 0x23 + FLAG_EXT.
Definition PAGEDOWN : Z := 0x24 + FLAG_EXT.
Definition UP : Z := 0x25 + FLAG_EXT.
Definition DOWN : Z := 0x26 + FLAG_EXT.
Definition LEFT : Z := 0x27 + FLAG_EXT.
Definition RIGHT : Z := 0x28 + FLAG_EXT.
Definition POWER : Z := 0x29 + FLAG_EXT.
Definition SLEEP : Z := 0x2A + FLAG_EXT.
Definition WAKE : Z := 0x2B + FLAG_EXT.
Definition PAD_SLASH : Z := 0x2C + FLAG_EXT.
Definition PAD_STAR : Z := 0x2D + FLAG_EXT.
Definition PAD_MINUS : Z := 0x2E + FLAG_EXT.
Definition PAD_PLUS : Z := 0x2F + FLAG_EXT.
Definition PAD_ENTER : Z := 0x30 + FLAG_EXT.
Definition PAD_DOT : Z := 0x31 + FLAG_EXT.
Definition PAD_0 : Z := 0x32 + FLAG_EXT.
Definition PAD_1 : Z := 0x33 + FLAG_EXT.
Definition PAD_2 : Z := 0x34 + FLAG_EXT.
Definition PAD_3 : Z := 0x35 + FLAG_EXT.
Definition PAD_4 : Z := 0x36 + FLAG_EXT.
Definition PAD_5 : Z := 0x37 + FLAG_EXT.
Definition PAD_6 : Z := 0x38 + FLAG_EXT.
Definition PAD_7 : Z := 0x39 + FLAG_EXT.
Definition PAD_8 : Z := 0x3A + FLAG_EXT.
Definition PAD_9 : Z := 0x3B + FLAG_EXT.
Definition PAD_UP : Z := PAD_8.
Definition PAD_DOWN : Z := PAD_2.
Definition PAD_LEFT : Z := PAD_4.
Definition PAD_RIGHT : Z := PAD_6.
Definition PAD_HOME : Z := PAD_7.
Definition PAD_END : Z := PAD_1.
Definition PAD_PAGEUP : Z := PAD_9.
Definition PAD_PAGEDOWN : Z := PAD_3.
Definition PAD_INS : Z := PAD_0.
Definition PAD_MID : Z := PAD_5.
Definition PAD_DEL : Z := PAD_DOT.
(** Column 0 plain, column 1 with shift, column 2 after an E0 prefix. *)
Definition keymap : list Z :=
  [
   0; 0; 0; ESC; ESC; 0; 49; 33; 0; 50; 64; 0;
   51; 35; 0; 52; 36; 0; 53; 37; 0; 54; 94; 0;
   55; 38; 0; 56; 42; 0; 57; 40; 0; 48; 41; 0;
   45; 95; 0; 61; 43; 0; BACKSPACE; BACKSPACE; 0; TAB; TAB; 0;
   113; 81; 0; 119; 87; 0; 101; 69; 0; 114; 82; 0;
   116; 84; 0; 121; 89; 0; 117; 85; 0; 105; 73; 0;
   111; 79; 0; 112; 80; 0; 91; 123; 0; 93; 125; 0;
   ENTER; ENTER; PAD_ENTER; CTRL_L; CTRL_L; CTRL_R; 97; 65; 0; 115; 83; 0;
   100; 68; 0; 102; 70; 0; 103; 71; 0; 104; 72; 0;
   106; 74; 0; 107; 75; 0; 108; 76; 0; 59; 58; 0;
   39; 34; 0; 96; 126; 0; SHIFT_L; SHIFT_L; 0; 92; 124; 0;
   122; 90; 0; 120; 88; 0; 99; 67; 0; 118; 86; 0;
   98; 66; 0; 110; 78; 0; 109; 77; 0; 44; 60; 0;
   46; 62; 0; 47; 63; PAD_SLASH; SHIFT_R; SHIFT_R; 0; 42; 42; 0;
   ALT_L; ALT_L; ALT_R; 32; 32; 0; CAPS_LOCK; CAPS_LOCK; 0; F1; F1; 0;
   F2; F2; 0; F3; F3; 0; F4; F4; 0; F5; F5; 0;
   F6; F6; 0; F7; F7; 0; F8; F8; 0; F9; F9; 0;
   F10; F10; 0; NUM_LOCK; NUM_LOCK; 0; SCROLL_LOCK; SCROLL_LOCK; 0; PAD_HOME; 55; HOME;
   PAD_UP; 56; UP; PAD_PAGEUP; 57; PAGEUP; PAD_MINUS; 45; 0; PAD_LEFT; 52; LEFT;
   PAD_MID; 53; 0; PAD_RIGHT; 54; RIGHT; PAD_PLUS; 43; 0; PAD_END; 49; END;
   PAD_DOWN; 50; DOWN; PAD_PAGEDOWN; 51; PAGEDOWN; PAD_INS; 48; INSERT; PAD_DOT; 46; DELETE;
   0; 0; 0; 0; 0; 0; 0; 0; 0; F11; F11; 0;
   F12; F12; 0; 0; 0; 0; 0; 0; 0; 0; 0; GUI_L;
   0; 0; GUI_R; 0; 0; APPS; 0; 0; 0; 0; 0; 0;
   0; 0; 0; 0; 0; 0; 0; 0; 0; 0; 0; 0;
   0; 0; 0; 0; 0; 0; 0; 0; 0; 0; 0; 0;
   0; 0; 0; 0; 0; 0; 0; 0; 0; 0; 0; 0;
   0; 0; 0; 0; 0; 0; 0; 0; 0; 0; 0; 0;
   0; 0; 0; 0; 0; 0; 0; 0; 0; 0; 0; 0;
   0; 0; 0; 0; 0; 0; 0; 0; 0; 0; 0; 0;
   0; 0; 0; 0; 0; 0; 0; 0; 0; 0; 0; 0;
   0; 0; 0; 0; 0; 0; 0; 0; 0; 0; 0; 0
  ].
End Keys.
Import Keys.

(** ** The terminal queue *)

Definition TTY_BUF_SIZE : Z := 256.
Definition EEOF : Z := 38.

Record tty_queue := TtyQueue { tq_head : Z; tq_tail : Z; tq_buf : list Z }.

(** The keys handed to the reader and the queue left.  [start] is a pointer that
    is only incremented, [head] wraps. *)
Fixpoint tty_read_loop (nr : nat) (start stop : Z) (got : list Z) (q : tty_queue)
    : outcome (list Z * tty_queue) :=
  match nr with
  | O => Ok (got, q)
  | S nr =>
      if bool_decide (start = stop) then Ok (got, q)
      else if bool_decide (0 ≤ start < TTY_BUF_SIZE) then
        match tq_buf q !! Z.to_nat start with
        | None => Stop Faulted
        | Some k =>
            let head := u32 (tq_head q + 1) in
            let head := if bool_decide (TTY_BUF_SIZE ≤ head) then 0 else head in
            tty_read_loop nr (start + 1) stop (got ++ [k]) (TtyQueue head (tq_tail q) (tq_buf q))
        end
      else Stop Faulted
  end.

Definition tty_read (nr : Z) (q : tty_queue) : outcome (list Z * tty_queue) :=
  tty_read_loop (Z.to_nat nr) (tq_head q) (tq_tail q) [] q.

(** The key as the reader gets it, or nothing. *)
Definition handle_key_code (key : Z) : option Z :=
  if bool_decide (Z.land key FLAG_EXT = 0) then
    if bool_decide (Z.land key FLAG_CTRL_L ≠ 0) then
      if bool_decide (Z.land key 0xFF = 100) then Some (u32 (- EEOF)) else None
    else Some (Z.land key 0xFF)
  else
    let raw_code := Z.land key MASK_RAW in
    if bool_decide (raw_code = ENTER) then Some 10
    else if bool_decide (raw_code = BACKSPACE) then Some 8
    else None.

Definition handle_key (key : Z) : M tty_queue unit :=
  match handle_key_code key with
  | None => mret tt
  | Some key =>
      q ← get;
      if bool_decide (0 ≤ tq_tail q < Z.of_nat (length (tq_buf q))) then
        let tail := tq_tail q + 1 in
        put (TtyQueue (tq_head q) (if bool_decide (TTY_BUF_SIZE ≤ tail) then 0 else tail)
               (<[Z.to_nat (tq_tail q) := i32 key]> (tq_buf q)))
      else fault
  end.

(** ** The scan code queue *)

Record kbdbuf_t := Kbdbuf { p_head : Z; p_tail : Z; kb_count : Z; kb_buf : list Z }.

Record modifiers := Modifiers {
  shift_l : Z; shift_r : Z; alt_l : Z; alt_r : Z; ctrl_l : Z; ctrl_r : Z;
  caps_lock : Z; num_lock : Z; scroll_lock : Z }.

Record kbd_state := KbdState { kbdbuf : kbdbuf_t; mods : modifiers; tty : tty_queue }.

Definition keyboard_init : M kbd_state unit :=
  modify (λ s, KbdState (Kbdbuf 0 0 0 (kb_buf (kbdbuf s))) (mods s) (tty s)).

(** The byte the controller gives is an argument. *)
Definition keyboard_read_to_buff (scancode : Z) : M kbd_state unit :=
  s ← get;
  let b := kbdbuf s in
  if bool_decide (kb_count b < KB_IN_BYTES) then
    if bool_decide (0 ≤ p_head b < Z.of_nat (length (kb_buf b))) then
      let head := p_head b + 1 in
      put (KbdState (Kbdbuf (if bool_decide (head = KB_IN_BYTES) then 0 else head) (p_tail b)
                       (kb_count b + 1) (<[Z.to_nat (p_head b) := u8 scancode]> (kb_buf b)))
             (mods s) (tty s))
    else fault
  else mret tt.

Definition get_byte_from_kb_buf : M kbd_state Z :=
  s ← get;
  let b := kbdbuf s in
  if bool_decide (0 ≤ p_tail b) then
    scan_code ← of_option (kb_buf b !! Z.to_nat (p_tail b));
    let tail := p_tail b + 1 in
    put (KbdState (Kbdbuf (p_head b) (if bool_decide (tail = KB_IN_BYTES) then 0 else tail)
                     (kb_count b - 1) (kb_buf b))
           (mods s) (tty s)) ;;
    mret scan_code
  else fault.

(** ** The decoder *)

(** The rest of an E1 sequence: whether it is the Pause key. *)
Fixpoint pausebreak_rest (codes : list Z) : M kbd_state bool :=
  match codes with
  | [] => mret true
  | c :: codes =>
      b ← get_byte_from_kb_buf;
      if bool_decide (b ≠ c) then mret false else pausebreak_rest codes
  end.

(** The locals of [keyboard_read] and [code_with_E0] at the end of the prefix
    handling. *)
Record scan := Scan { sc_code : Z; sc_E0 : bool; sc_key : Z; sc_make : Z }.

Definition keyboard_prefix (scan_code key make : Z) : M kbd_state scan :=
  if bool_decide (scan_code = 0xE1) then
    pb ← pausebreak_rest [0x1D; 0x45; 0xE1; 0x9D; 0xC5];
    mret (Scan scan_code false (if pb : bool then PAUSEBREAK else key) make)
  else if bool_decide (scan_code = 0xE0) then
    scan_code ← get_byte_from_kb_buf;
    if bool_decide (scan_code = 0x2A) then
      scan_code ← get_byte_from_kb_buf;
      if bool_decide (scan_code = 0xE0) then
        scan_code ← get_byte_from_kb_buf;
        mret (if bool_decide (scan_code = 0x37) then Scan scan_code true PRINTSCREEN 1
              else Scan scan_code true key make)
      else mret (Scan scan_code false key make)
    else if bool_decide (scan_code = 0xB7) then
      scan_code ← get_byte_from_kb_buf;
      if bool_decide (scan_code = 0xE0) then
        scan_code ← get_byte_from_kb_buf;
        mret (if bool_decide (scan_code = 0xAA) then Scan scan_code true PRINTSCREEN 0
              else Scan scan_code true key make)
      else mret (Scan scan_code false key make)
    else mret (Scan scan_code true key make)
  else mret (Scan scan_code false key make).

Definition lnotb (x : Z) : Z := if bool_decide (x = 0) then 1 else 0.

(** The column of the key map. *)
Definition key_column (m : modifiers) (row0 : Z) (E0 : bool) : Z :=
  let caps := bool_decide (shift_l m ≠ 0) || bool_decide (shift_r m ≠ 0) in
  let caps := if bool_decide (caps_lock m ≠ 0) && bool_decide (97 ≤ row0 ≤ 122)
              then negb caps else caps in
  if E0 then 2 else if caps then 1 else 0.

(** The switch on modifier and lock keys. *)
Definition key_mods (m : modifiers) (key make : Z) : modifiers :=
  let '(Modifiers sl sr al ar cl cr caps num scroll) := m in
  if bool_decide (key = SHIFT_L) then Modifiers make sr al ar cl cr caps num scroll
  else if bool_decide (key = SHIFT_R) then Modifiers sl make al ar cl cr caps num scroll
  else if bool_decide (key = CTRL_L) then Modifiers sl sr al ar make cr caps num scroll
  else if bool_decide (key = CTRL_R) then Modifiers sl sr al ar cl make caps num scroll
  else if bool_decide (key = ALT_L) then Modifiers sl sr make ar cl cr caps num scroll
  else if bool_decide (key = ALT_R) then Modifiers sl sr make ar cl cr caps num scroll
  else if bool_decide (key = CAPS_LOCK) then
    Modifiers sl sr al ar cl cr (if bool_decide (make ≠ 0) then lnotb caps else caps) num scroll
  else if bool_decide (key = NUM_LOCK) then
    Modifiers sl sr al ar cl cr caps (if bool_decide (make ≠ 0) then lnotb num else num) scroll
  else if bool_decide (key = SCROLL_LOCK) then
    Modifiers sl sr al ar cl cr caps num (if bool_decide (make ≠ 0) then lnotb scroll else scroll)
  else m.

(** The keys of the number pad; the flag tells whether the key is one. *)
Definition pad_key (num_lock key : Z) : Z * bool :=
  if bool_decide (PAD_SLASH ≤ key ≤ PAD_9) then
    ((if bool_decide (key = PAD_SLASH) then 47
      else if bool_decide (key = PAD_STAR) then 42
      else if bool_decide (key = PAD_MINUS) then 45
      else if bool_decide (key = PAD_PLUS) then 43
      else if bool_decide (key = PAD_ENTER) then ENTER
      else if bool_decide (num_lock ≠ 0) then
        if bool_decide (PAD_0 ≤ key ≤ PAD_9) then key - PAD_0 + 48
        else if bool_decide (key = PAD_DOT) then 46 else key
      else if bool_decide (key = PAD_HOME) then HOME
      else if bool_decide (key = PAD_END) then END
      else if bool_decide (key = PAD_PAGEUP) then PAGEUP
      else if bool_decide (key = PAD_PAGEDOWN) then PAGEDOWN
      else if bool_decide (key = PAD_INS) then INSERT
      else if bool_decide (key = PAD_UP) then UP
      else if bool_decide (key = PAD_DOWN) then DOWN
      else if bool_decide (key = PAD_LEFT) then LEFT
      else if bool_decide (key = PAD_RIGHT) then RIGHT
      else if bool_decide (key = PAD_DOT) then DELETE
      else key), true)
  else (key, false).

Definition key_flags (m : modifiers) (key : Z) (pad : bool) : Z :=
  let flag (b : bool) f key := Z.lor key (if b then f else 0) in
  let key := flag (bool_decide (shift_l m ≠ 0)) FLAG_SHIFT_L key in
  let key := flag (bool_decide (shift_r m ≠ 0)) FLAG_SHIFT_R key in
  let key := flag (bool_decide (ctrl_l m ≠ 0)) FLAG_CTRL_L key in
  let key := flag (bool_decide (ctrl_r m ≠ 0)) FLAG_CTRL_R key in
  let key := flag (bool_decide (alt_l m ≠ 0)) FLAG_ALT_L key in
  let key := flag (bool_decide (alt_r m ≠ 0)) FLAG_ALT_R key in
  flag pad FLAG_PAD key.

Definition run_tty {A} (o : M tty_queue A) : M kbd_state A := λ s,
  match o (tty s) with
  | Ok (a, q) => Ok (a, KbdState (kbdbuf s) (mods s) q)
  | Stop w => Stop w
  end.

(** Translation through the key map, unless the prefix named a special key; the
    key and [make]. *)
Definition keyboard_translate (sc : scan) : M kbd_state (Z * Z) :=
  if negb (bool_decide (sc_key sc = PAUSEBREAK)) && negb (bool_decide (sc_key sc = PRINTSCREEN))
  then
    let make := if bool_decide (Z.land (sc_code sc) FLAG_BREAK ≠ 0) then 0 else 1 in
    let keyrow := Z.land (sc_code sc) 0x7F * MAP_COLS in
    row0 ← of_option (keymap !! Z.to_nat keyrow);
    s ← get;
    let column := key_column (mods s) row0 (sc_E0 sc) in
    key ← of_option (keymap !! Z.to_nat (keyrow + column));
    put (KbdState (kbdbuf s) (key_mods (mods s) key make) (tty s)) ;;
    mret (key, make)
  else mret (sc_key sc, sc_make sc).

(** The [while] loop; [key] and [make] live across its rounds. *)
Fixpoint keyboard_read_loop (fuel : nat) (key make : Z) : M kbd_state unit :=
  match fuel with
  | O => stop_with OutOfFuel
  | S fuel =>
      s ← get;
      if bool_decide (0 < kb_count (kbdbuf s)) then
        scan_code ← get_byte_from_kb_buf;
        sc ← keyboard_prefix scan_code key make;
        km ← keyboard_translate sc;
        let '(key, make) := (km : Z * Z) in
        key ← (if bool_decide (make ≠ 0) then
                 s ← get;
                 let '(key, pad) := pad_key (num_lock (mods s)) key in
                 let key := key_flags (mods s) key pad in
                 run_tty (handle_key key) ;;
                 mret key
               else mret key);
        keyboard_read_loop fuel key make
      else mret tt
  end.

(** The count is at most 32 and every round takes a byte. *)
Definition keyboard_read : M kbd_state unit := keyboard_read_loop 40 0 0.

(** The interrupt handler (kernel/trap/irq_kbd.c). *)
Definition kbd_handler (scancode : Z) : M kbd_state unit :=
  keyboard_read_to_buff scancode ;; keyboard_read.
