(* ===== verification/KeyboardProofs.v ===== *)
(** * Typed keys reach the reader

    Scan codes go through two queues (the controller's bytes, the decoded keys) and
    a decoder with modifier state.  The specification is a US keyboard: which
    characters the keys bear, and which keys are held.  For the keys that send one byte
    the path is in order and, while the queue of the terminal does not wrap, lossless:
    what [tty_read] returns is what such a keyboard types. *)

From S2P Require Import Prelude Keyboard.
From stdpp Require Import strings.
Import Keys.

Local Open Scope Z_scope.

(** ** The specification: a US keyboard *)

Record held := Held { h_shift_l : bool; h_shift_r : bool; h_ctrl : bool; h_caps : bool; h_num : bool }.

#[global] Instance held_eq_dec : EqDecision held.
Proof. solve_decision. Defined.

Definition ascii_of (s : string) : list Z := (λ c, Z.of_N (Ascii.N_of_ascii c)) <$> String.list_ascii_of_string s.

(** The keys that type a character, in rows: the number of the first key of a row, and
    what the keys type without and with shift. *)
Definition rows : list (Z * list Z * list Z) :=
  [(2, ascii_of "1234567890-=", ascii_of "!@#$%^&*()_+");
   (16, ascii_of "qwertyuiop[]", ascii_of "QWERTYUIOP{}");
   (30, ascii_of "asdfghjkl;'`", ascii_of "ASDFGHJKL:" ++ 34 :: ascii_of "~");
   (43, ascii_of "\zxcvbnm,./", ascii_of "|ZXCVBNM<>?");
   (55, ascii_of "*", ascii_of "*");
   (57, ascii_of " ", ascii_of " ")].

(** The number pad, from key 71 on. *)
Definition pad : list Z := ascii_of "789-456+1230.".

Definition row_key (k : Z) : option (Z * Z) :=
  head (omap (λ r, let '(first, plain, shifted) := r in
    if bool_decide (first ≤ k) then
      c ← plain !! Z.to_nat (k - first); d ← shifted !! Z.to_nat (k - first); Some (c, d)
    else None) rows).

(** What the key [k] types. *)
Definition types (h : held) (k : Z) : option Z :=
  let shift := h_shift_l h || h_shift_r h in
  let ctrl c := if h_ctrl h then if bool_decide (c = 100) then Some (- EEOF) else None else Some c in
  if bool_decide (k = 28) then Some 10
  else if bool_decide (k = 14) then Some 8
  else match row_key k with
  | Some (c, d) =>
      let letter := bool_decide (97 ≤ c ≤ 122) in
      ctrl (if xorb shift (letter && h_caps h) then d else c)
  | None =>
      if bool_decide (71 ≤ k) then
        c ← pad !! Z.to_nat (k - 71);
        if shift || h_num h || bool_decide (c = 45) || bool_decide (c = 43) then ctrl c else None
      else None
  end.

(** The key [k] goes down, or comes up. *)
Definition hold (h : held) (k : Z) (down : bool) : held :=
  let '(Held l r c caps num) := h in
  if bool_decide (k = 42) then Held down r c caps num
  else if bool_decide (k = 54) then Held l down c caps num
  else if bool_decide (k = 29) then Held l r down caps num
  else if bool_decide (k = 58) then Held l r c (xorb caps down) num
  else if bool_decide (k = 69) then Held l r c caps (xorb num down)
  else h.

(** A scan code: the number of the key, and 128 more when it comes up. *)
Definition type_key (h : held) (sc : Z) : held * option Z :=
  let down := bool_decide (sc < 128) in
  let h' := hold h (sc mod 128) down in (h', if down then types h' sc else None).

Fixpoint type_keys (h : held) (l : list Z) : held * list Z :=
  match l with
  | [] => (h, [])
  | sc :: l =>
      let '(h, k) := type_key h sc in
      let '(h', ks) := type_keys h l in
      (h', option_list k ++ ks)
  end.

(** The keys with one scan code: 1 to 83, F11 and F12. *)
Definition known (sc : Z) : Prop :=
  0 ≤ sc < 256 ∧ (1 ≤ sc mod 128 ≤ 83 ∨ sc mod 128 = 87 ∨ sc mod 128 = 88).

(** What the modifiers of the driver stand for. *)
Definition holding (m : modifiers) : held :=
  Held (bool_decide (shift_l m ≠ 0)) (bool_decide (shift_r m ≠ 0)) (bool_decide (ctrl_l m ≠ 0))
    (bool_decide (caps_lock m ≠ 0)) (bool_decide (num_lock m ≠ 0)).

(** ** The decoder *)

(** What the driver makes of a scan code. *)
Definition decode_key (m : modifiers) (sc : Z) : modifiers * option Z :=
  let row := Z.to_nat (Z.land sc 0x7F * MAP_COLS) in
  let row0 := default 0 (keymap !! row) in
  let key := default 0 (keymap !! (row + Z.to_nat (key_column m row0 false))%nat) in
  let make := if bool_decide (Z.land sc FLAG_BREAK ≠ 0) then 0 else 1 in
  let m := key_mods m key make in
  (m, if bool_decide (make ≠ 0) then
        let '(key, pad) := pad_key (num_lock m) key in
        i32 <$> handle_key_code (key_flags m key pad)
      else None).

(** The same on [held]. *)
Definition held_column (h : held) (row0 : Z) : nat :=
  if xorb (h_shift_l h || h_shift_r h) (h_caps h && bool_decide (97 ≤ row0 ≤ 122)) then 1 else 0.
Definition held_key (h : held) (sc : Z) : Z :=
  let row := Z.to_nat (Z.land sc 0x7F * MAP_COLS) in
  let col := held_column h (default 0 (keymap !! row)) in
  default 0 (keymap !! (row + col)%nat).
Definition held_mods (h : held) (key : Z) (down : bool) : held :=
  let '(Held l r c caps num) := h in
  if bool_decide (key = SHIFT_L) then Held down r c caps num
  else if bool_decide (key = SHIFT_R) then Held l down c caps num
  else if bool_decide (key = CTRL_L) then Held l r down caps num
  else if bool_decide (key = CAPS_LOCK) then Held l r c (xorb caps down) num
  else if bool_decide (key = NUM_LOCK) then Held l r c caps (xorb num down)
  else h.
Definition held_code (h : held) (key : Z) : option Z :=
  let key := (pad_key (if h_num h then 1 else 0) key).1 in
  i32 <$> handle_key_code (Z.lor key (if h_ctrl h then FLAG_CTRL_L else 0)).
Definition held_decode (h : held) (sc : Z) : held * option Z :=
  let down := bool_decide (Z.land sc FLAG_BREAK = 0) in
  let key := held_key h sc in
  let h := held_mods h key down in
  (h, if down then held_code h key else None).

Lemma key_column_held m row0 : Z.to_nat (key_column m row0 false) = held_column (holding m) row0.
Proof.
  unfold key_column, held_column, holding. cbn [h_shift_l h_shift_r h_caps].
  destruct (bool_decide (shift_l m ≠ 0) || bool_decide (shift_r m ≠ 0)), (bool_decide (caps_lock m ≠ 0)),
    (bool_decide (97 ≤ row0 ≤ 122)); done.
Qed.

Lemma key_mods_held m key make :
  make = 0 ∨ make = 1 → holding (key_mods m key make) = held_mods (holding m) key (bool_decide (make ≠ 0)).
Proof.
  intros Hm. destruct m as [sl sr al ar cl cr caps num scroll]. unfold key_mods, held_mods, holding, lnotb. cbn.
  assert (Hn : ∀ x, bool_decide ((if bool_decide (x = 0) then 1 else 0) ≠ 0) = negb (bool_decide (x ≠ 0))).
  { intros x. by repeat case_bool_decide. }
  destruct Hm as [-> | ->]; [change (bool_decide (0 ≠ 0)) with false; rewrite !xorb_false_r
    |change (bool_decide (1 ≠ 0)) with true; rewrite !xorb_true_r];
    repeat match goal with |- context [bool_decide (key = ?k)] =>
      destruct (decide (key = k)) as [-> | ?];
        [first [reflexivity
          | exact (f_equal (λ b, Held (bool_decide (sl ≠ 0)) (bool_decide (sr ≠ 0)) (bool_decide (cl ≠ 0)) b (bool_decide (num ≠ 0))) (Hn caps))
          | exact (f_equal (λ b, Held (bool_decide (sl ≠ 0)) (bool_decide (sr ≠ 0)) (bool_decide (cl ≠ 0)) (bool_decide (caps ≠ 0)) b) (Hn num))]
        |rewrite !(bool_decide_eq_false_2 (key = k)) by done] end; reflexivity.
Qed.

(** The flags of shift, alt and the right control key do not change what is typed. *)
Lemma handle_flags key F c :
  Z.land F 0x1FF = 0 → (Z.land F FLAG_CTRL_L = if c : bool then FLAG_CTRL_L else 0) → Z.land key FLAG_CTRL_L = 0 →
  handle_key_code (Z.lor key F) = handle_key_code (Z.lor key (if c then FLAG_CTRL_L else 0)).
Proof.
  intros H1 H2 H3.
  assert (Hx : ∀ y x, Z.land y 0x1FF = 0 → Z.land x 0x1FF = x → Z.land (Z.lor key y) x = Z.land key x).
  { intros y x Hy Hx. rewrite Z.land_lor_distr_l. rewrite <- Hx at 2. rewrite (Z.land_comm x), Z.land_assoc, Hy.
    by rewrite Z.land_0_l, Z.lor_0_r. }
  assert (Hc : Z.land (if c then FLAG_CTRL_L else 0) 0x1FF = 0) by (by destruct c).
  assert (HC : Z.land (Z.lor key F) FLAG_CTRL_L = Z.land (Z.lor key (if c then FLAG_CTRL_L else 0)) FLAG_CTRL_L).
  { rewrite !Z.land_lor_distr_l, H2, H3. by destruct c. }
  unfold handle_key_code. cbv zeta. rewrite !HC.
  by rewrite !(Hx F FLAG_EXT), !(Hx F 0xFF), !(Hx F MASK_RAW), !(Hx (if c then _ else _) FLAG_EXT),
    !(Hx (if c then _ else _) 0xFF), !(Hx (if c then _ else _) MASK_RAW) by done.
Qed.

Lemma flags_shape m key pad :
  ∃ F, key_flags m key pad = Z.lor key F ∧ Z.land F 0x1FF = 0 ∧
    Z.land F FLAG_CTRL_L = if bool_decide (ctrl_l m ≠ 0) then FLAG_CTRL_L else 0.
Proof.
  unfold key_flags. cbv zeta. rewrite <- !Z.lor_assoc. eexists. split; [reflexivity|].
  by destruct (bool_decide (shift_l m ≠ 0)), (bool_decide (shift_r m ≠ 0)), (bool_decide (ctrl_l m ≠ 0)),
    (bool_decide (ctrl_r m ≠ 0)), (bool_decide (alt_l m ≠ 0)), (bool_decide (alt_r m ≠ 0)), pad.
Qed.

Lemma pad_key_held num key : pad_key num key = pad_key (if bool_decide (num ≠ 0) then 1 else 0) key.
Proof. unfold pad_key. case_bool_decide; [|done]. by destruct (bool_decide (num ≠ 0)). Qed.

(** The keys of the map, and what [pad_key] makes of them, have no flags. *)
Lemma keymap_plain :
  Forall (λ key, Z.land (pad_key 0 key).1 FLAG_CTRL_L = 0 ∧ Z.land (pad_key 1 key).1 FLAG_CTRL_L = 0) (0 :: keymap).
Proof. apply (bool_decide_unpack _). vm_compute. exact I. Qed.

Lemma map_key_plain i num : Z.land (pad_key (if num : bool then 1 else 0) (default 0 (keymap !! i))).1 FLAG_CTRL_L = 0.
Proof.
  pose proof keymap_plain as H. rewrite Forall_forall in H.
  destruct (H (default 0 (keymap !! i))) as [H0 H1]; [|by destruct num].
  destruct (keymap !! i) as [key|] eqn:E; [|by left]. right. by apply list_elem_of_lookup_2 in E.
Qed.

Lemma decode_held m sc : held_decode (holding m) sc = (holding (decode_key m sc).1, (decode_key m sc).2).
Proof.
  unfold held_decode, decode_key, held_key. cbv zeta. rewrite key_column_held. set (i := (_ + held_column _ _)%nat).
  set (key := default 0 (keymap !! i)). set (make := if bool_decide (Z.land sc FLAG_BREAK ≠ 0) then 0 else 1).
  assert (Hm : make = 0 ∨ make = 1) by (subst make; case_bool_decide; auto).
  assert (Hd : bool_decide (Z.land sc FLAG_BREAK = 0) = bool_decide (make ≠ 0)).
  { subst make. by repeat case_bool_decide. }
  rewrite Hd, <- key_mods_held by done. cbn [fst snd]. f_equal. destruct (bool_decide (make ≠ 0)); [|done].
  set (m' := key_mods m key make). unfold held_code. rewrite (pad_key_held (num_lock m') key). cbn [holding h_num h_ctrl].
  pose proof (map_key_plain i (bool_decide (num_lock m' ≠ 0))) as Hp. fold key in Hp.
  destruct (pad_key _ key) as [key' pd]. cbn [fst] in *. destruct (flags_shape m' key' pd) as (F & -> & F1 & F2).
  by rewrite (handle_flags key' F (bool_decide (ctrl_l m' ≠ 0)) F1 F2 Hp).
Qed.

(** The whole keyboard, in every state of the keys that are held. *)
Definition all_held : list held :=
  l ← [false; true]; r ← [false; true]; c ← [false; true]; caps ← [false; true]; num ← [false; true];
  [Held l r c caps num].
Definition all_codes : list Z := let down := seqZ 1 83 ++ [87; 88] in down ++ (Z.add 128 <$> down).

Lemma keyboard_table : Forall (λ sc, Forall (λ h, type_key h sc = held_decode h sc) all_held) all_codes.
Proof. apply (bool_decide_unpack _). vm_compute. exact I. Qed.

Lemma known_codes sc : known sc → sc ∈ all_codes.
Proof.
  intros [Hr Hk]. unfold all_codes. cbv zeta.
  assert (Hd : sc mod 128 ∈ seqZ 1 83 ++ [87; 88]).
  { apply elem_of_app. destruct Hk as [Hk|Hk]; [left; apply elem_of_seqZ; lia|right]. destruct Hk as [-> | ->]; set_solver. }
  apply elem_of_app. destruct (decide (sc < 128)); [left; by rewrite Z.mod_small in Hd by lia|].
  right. apply list_elem_of_fmap. exists (sc mod 128). split; [|done].
  rewrite (Z.div_mod sc 128) at 1 by lia. assert (sc / 128 = 1) as -> by (Z.to_euclidean_division_equations; lia). lia.
Qed.

Lemma held_listed h : h ∈ all_held.
Proof. destruct h as [[] [] [] [] []]; apply (bool_decide_unpack _); vm_compute; exact I. Qed.

(** The driver decodes what the keyboard types. *)
Lemma decode_types m sc : known sc → type_key (holding m) sc = (holding (decode_key m sc).1, (decode_key m sc).2).
Proof.
  intros Hk. rewrite <- decode_held. pose proof keyboard_table as T. rewrite Forall_forall in T.
  specialize (T sc (known_codes sc Hk)). rewrite Forall_forall in T. apply T, held_listed.
Qed.

(** A scan code that is a whole key. *)
Definition single (sc : Z) : Prop := 0 ≤ sc < 256 ∧ sc ≠ 0xE0 ∧ sc ≠ 0xE1.

Lemma known_single sc : known sc → single sc.
Proof. intros [Hr Hk]. split; [done|]. split; intros ->; vm_compute in Hk; destruct Hk as [[_ []]|[?|?]]; done. Qed.

(** ** The states between interrupts *)

(** No scan code is waiting. *)
Definition drained (s : kbd_state) : Prop :=
  kb_count (kbdbuf s) = 0 ∧ p_head (kbdbuf s) = p_tail (kbdbuf s) ∧
  0 ≤ p_head (kbdbuf s) < KB_IN_BYTES ∧ length (kb_buf (kbdbuf s)) = 32%nat.

Definition tq_wf (q : tty_queue) : Prop :=
  0 ≤ tq_head q < TTY_BUF_SIZE ∧ 0 ≤ tq_tail q < TTY_BUF_SIZE ∧ length (tq_buf q) = 256%nat.

(** The keys waiting, as long as the queue has not wrapped. *)
Definition pending (q : tty_queue) : list Z :=
  take (Z.to_nat (tq_tail q - tq_head q)) (drop (Z.to_nat (tq_head q)) (tq_buf q)).

Definition tq_push (q : tty_queue) (k : Z) : tty_queue :=
  let tail := tq_tail q + 1 in
  TtyQueue (tq_head q) (if bool_decide (TTY_BUF_SIZE ≤ tail) then 0 else tail)
    (<[Z.to_nat (tq_tail q) := k]> (tq_buf q)).

Lemma tq_push_wf q k : tq_wf q → tq_wf (tq_push q k).
Proof.
  intros (? & ? & ?). unfold tq_wf, tq_push. simpl. rewrite length_insert.
  case_bool_decide; unfold TTY_BUF_SIZE in *; split_and!; (done || lia).
Qed.

Lemma tq_push_pending q k :
  tq_wf q → tq_head q ≤ tq_tail q < 255 → pending (tq_push q k) = pending q ++ [k].
Proof.
  intros (? & ? & Hl) ?. unfold pending, tq_push. cbn [tq_head tq_tail tq_buf].
  rewrite bool_decide_eq_false_2 by (unfold TTY_BUF_SIZE; lia).
  replace (Z.to_nat (tq_tail q + 1 - tq_head q)) with (S (Z.to_nat (tq_tail q - tq_head q))) by lia.
  rewrite (take_S_r _ _ k).
  - f_equal. apply list_eq. intros i. rewrite !lookup_take.
    destruct (decide (i < Z.to_nat (tq_tail q - tq_head q))%nat); [|done].
    rewrite !lookup_drop, list_lookup_insert_ne by lia. done.
  - rewrite lookup_drop. replace (Z.to_nat (tq_head q) + _)%nat with (Z.to_nat (tq_tail q)) by lia.
    apply list_lookup_insert_eq. lia.
Qed.

Lemma handle_key_run key q :
  tq_wf q →
  handle_key key q =
    Ok (tt, match handle_key_code key with None => q | Some k => tq_push q (i32 k) end).
Proof.
  intros (_ & Ht & Hl). unfold handle_key. destruct (handle_key_code key) as [k|]; [|done].
  run_step. rewrite bool_decide_eq_true_2 by (rewrite Hl; unfold TTY_BUF_SIZE in *; lia). done.
Qed.

(** ** One interrupt *)

Lemma keymap_total i : (i < 384)%nat → is_Some (keymap !! i).
Proof. intros H. apply lookup_lt_is_Some. exact H. Qed.

Lemma key_column_range m row0 : 0 ≤ key_column m row0 false ≤ 1.
Proof. unfold key_column. destruct (if _ && _ then _ else _); lia. Qed.

Lemma row_range sc : 0 ≤ Z.land sc 0x7F < 128.
Proof.
  change 0x7F with (Z.ones 7). rewrite Z.land_ones by lia. apply Z.mod_pos_bound. lia.
Qed.

(** The next place in the queue. *)
Definition kb_wrap (i : Z) : Z := if bool_decide (i + 1 = KB_IN_BYTES) then 0 else i + 1.

Lemma kb_wrap_range i : 0 ≤ i < KB_IN_BYTES → 0 ≤ kb_wrap i < KB_IN_BYTES ∧ kb_wrap i ≠ i.
Proof. unfold kb_wrap, KB_IN_BYTES. case_bool_decide; lia. Qed.

Lemma read_to_buff_run head tail cnt buf m q sc :
  cnt < KB_IN_BYTES → 0 ≤ head < KB_IN_BYTES → length buf = 32%nat →
  keyboard_read_to_buff sc (KbdState (Kbdbuf head tail cnt buf) m q) =
    Ok (tt, KbdState (Kbdbuf (kb_wrap head) tail (cnt + 1) (<[Z.to_nat head := u8 sc]> buf)) m q).
Proof.
  intros Hc Hh Hl. unfold keyboard_read_to_buff. run_step.
  cbn [kbdbuf kb_count p_head p_tail kb_buf mods tty].
  rewrite bool_decide_eq_true_2 by done.
  by rewrite bool_decide_eq_true_2 by (unfold KB_IN_BYTES in *; lia).
Qed.

Lemma get_byte_run head tail cnt buf m q x :
  0 ≤ tail → buf !! Z.to_nat tail = Some x →
  get_byte_from_kb_buf (KbdState (Kbdbuf head tail cnt buf) m q) =
    Ok (x, KbdState (Kbdbuf head (kb_wrap tail) (cnt - 1) buf) m q).
Proof.
  intros Ht Hx. unfold get_byte_from_kb_buf. run_step.
  cbn [kbdbuf kb_count p_head p_tail kb_buf mods tty]. rewrite bool_decide_eq_true_2 by done.
  by rewrite (bind_Ok _ _ _ _ _ (of_option_Some _ _ _ Hx)).
Qed.

(** The queue after one byte passed through. *)
Definition kb_next (b : kbdbuf_t) (sc : Z) : kbdbuf_t :=
  Kbdbuf (kb_wrap (p_head b)) (kb_wrap (p_head b)) 0 (<[Z.to_nat (p_head b) := u8 sc]> (kb_buf b)).

Lemma keyboard_read_empty fuel key make s :
  kb_count (kbdbuf s) ≤ 0 → keyboard_read_loop (S fuel) key make s = Ok (tt, s).
Proof. intros H. cbn [keyboard_read_loop]. run_step. by rewrite bool_decide_eq_false_2 by lia. Qed.

Lemma keyboard_translate_run s sc :
  ∃ key row0,
    keymap !! Z.to_nat (Z.land sc 0x7F * MAP_COLS) = Some row0 ∧
    keymap !! (Z.to_nat (Z.land sc 0x7F * MAP_COLS) +
               Z.to_nat (key_column (mods s) row0 false))%nat = Some key ∧
    let make := if bool_decide (Z.land sc FLAG_BREAK ≠ 0) then 0 else 1 in
    keyboard_translate (Scan sc false 0 0) s =
      Ok ((key, make), KbdState (kbdbuf s) (key_mods (mods s) key make) (tty s)).
Proof.
  pose proof (row_range sc) as Hr.
  destruct (keymap_total (Z.to_nat (Z.land sc 0x7F * MAP_COLS))) as [row0 E0];
    [unfold MAP_COLS; lia|].
  pose proof (key_column_range (mods s) row0) as Hc.
  destruct (keymap_total (Z.to_nat (Z.land sc 0x7F * MAP_COLS) +
                          Z.to_nat (key_column (mods s) row0 false))) as [key E1];
    [unfold MAP_COLS; lia|].
  exists key, row0. split_and!; [done..|]. intros make. unfold keyboard_translate.
  cbn [sc_key sc_code sc_E0].
  rewrite (bool_decide_eq_false_2 (0 = PAUSEBREAK)), (bool_decide_eq_false_2 (0 = PRINTSCREEN)) by done.
  cbn [negb andb]. rewrite (bind_Ok _ _ _ _ _ (of_option_Some _ _ _ E0)). run_step.
  replace (Z.to_nat (Z.land sc 127 * MAP_COLS + key_column (mods s) row0 false)) with
    (Z.to_nat (Z.land sc 127 * MAP_COLS) + Z.to_nat (key_column (mods s) row0 false))%nat
    by (unfold MAP_COLS; lia).
  rewrite (bind_Ok _ _ _ _ _ (of_option_Some _ _ _ E1)). done.
Qed.

Lemma kbd_handler_run s sc :
  drained s → tq_wf (tty s) → single sc →
  let '(m, k) := decode_key (mods s) sc in
  kbd_handler sc s =
    Ok (tt, KbdState (kb_next (kbdbuf s) sc) m
              (match k with None => tty s | Some k => tq_push (tty s) k end)).
Proof.
  intros (Hc & Hh & Hr & Hl) Hq (Hsc & HE0 & HE1).
  destruct s as [[head tail cnt buf] m q]. cbn [kbdbuf p_head p_tail kb_count kb_buf mods tty] in *.
  subst cnt tail.
  set (h := kb_wrap head). set (buf' := <[Z.to_nat head := u8 sc]> buf).
  pose proof (read_to_buff_run head head 0 buf m q sc ltac:(done) Hr Hl) as E1.
  assert (Hb : buf' !! Z.to_nat head = Some sc).
  { subst buf'. rewrite list_lookup_insert_eq by (unfold KB_IN_BYTES in *; lia). by rewrite u8_small. }
  pose proof (get_byte_run h head 1 buf' m q sc ltac:(lia) Hb) as E2.
  change (0 + 1) with 1 in E1. change (1 - 1) with 0 in E2. fold h buf' in E1, E2.
  unfold decode_key. destruct (keyboard_translate_run (KbdState (Kbdbuf h h 0 buf') m q) sc)
    as (key & row0 & K0 & K1 & Et).
  cbn [kbdbuf mods tty] in K0, K1, Et. rewrite K0. cbn [from_option id]. rewrite K1. cbn [from_option id].
  cbv zeta in Et |- *. set (make := if bool_decide (Z.land sc FLAG_BREAK ≠ 0) then 0 else 1) in *.
  set (m' := key_mods m key make) in *.
  unfold kbd_handler. rewrite (bind_Ok _ _ _ _ _ E1). unfold keyboard_read.
  change 40%nat with (S (S 38)). cbn [keyboard_read_loop]. run_step.
  cbn [kbdbuf kb_count]. rewrite (bool_decide_eq_true_2 (0 < 1)) by lia.
  rewrite (bind_Ok _ _ _ _ _ E2). unfold keyboard_prefix.
  rewrite (bool_decide_eq_false_2 (sc = 0xE1)), (bool_decide_eq_false_2 (sc = 0xE0)) by done.
  run_step. rewrite (bind_Ok _ _ _ _ _ Et). cbv iota beta.
  destruct (bool_decide (make ≠ 0)) eqn:Em.
  - destruct (pad_key (num_lock m') key) as [key' pad] eqn:Ep.
    set (s1 := KbdState _ m' q).
    set (s2 := KbdState (Kbdbuf h h 0 buf') m'
                 (match handle_key_code (key_flags m' key' pad) with
                  | None => q | Some k => tq_push q (i32 k) end)).
    assert (Eh : run_tty (handle_key (key_flags m' key' pad)) s1 = Ok (tt, s2)).
    { unfold run_tty. cbn [tty s1]. by rewrite (handle_key_run _ _ Hq). }
    rewrite (bind_Ok _ _ s1 (key_flags m' key' pad) s2).
    2:{ run_step. cbn [mods s1]. rewrite Ep. by rewrite (bind_Ok _ _ _ _ _ Eh). }
    run_step. cbn [kbdbuf kb_count s2]. rewrite bool_decide_eq_false_2 by lia.
    subst s2. by destruct (handle_key_code _).
  - run_step. run_step. cbn [kbdbuf kb_count]. by rewrite bool_decide_eq_false_2 by lia.
Qed.

Lemma kb_next_drained s sc m q : drained s → drained (KbdState (kb_next (kbdbuf s) sc) m q).
Proof.
  intros (_ & _ & Hr & Hl). unfold drained, kb_next. cbn [kbdbuf kb_count p_head p_tail kb_buf].
  rewrite length_insert. destruct (kb_wrap_range _ Hr). split_and!; (done || lia).
Qed.

(** ** A sequence of interrupts *)

Fixpoint kbd_interrupts (l : list Z) : M kbd_state unit :=
  match l with [] => mret tt | sc :: l => kbd_handler sc ;; kbd_interrupts l end.

Lemma kbd_interrupts_run l s :
  drained s → tq_wf (tty s) → Forall known l → tq_head (tty s) ≤ tq_tail (tty s) →
  tq_tail (tty s) + Z.of_nat (length (type_keys (holding (mods s)) l).2) < 256 →
  ∃ s', kbd_interrupts l s = Ok (tt, s') ∧ drained s' ∧ tq_wf (tty s') ∧
        holding (mods s') = (type_keys (holding (mods s)) l).1 ∧ tq_head (tty s') = tq_head (tty s) ∧
        tq_head (tty s') ≤ tq_tail (tty s') ∧
        pending (tty s') = pending (tty s) ++ (type_keys (holding (mods s)) l).2.
Proof.
  revert s. induction l as [|sc l IH]; intros s Hd Hq Hl Ht Hn.
  { exists s. rewrite app_nil_r. done. }
  apply Forall_cons in Hl as [Hsc Hl]. pose proof (kbd_handler_run s sc Hd Hq (known_single _ Hsc)) as E.
  cbn [type_keys] in *. rewrite (decode_types _ _ Hsc) in *. destruct (decode_key (mods s) sc) as [m k]. cbn [fst snd] in *.
  destruct (type_keys (holding m) l) as [m' ks] eqn:Ek. cbn [snd fst] in *. rewrite length_app in Hn.
  match type of E with _ = Ok (_, ?t) => set (s1 := t) in * end.
  assert (Hd1 : drained s1) by (by apply kb_next_drained).
  assert (Hq1 : tq_wf (tty s1)) by (subst s1; destruct k; [by apply tq_push_wf|done]).
  assert (Hp1 : pending (tty s1) = pending (tty s) ++ option_list k ∧
                tq_head (tty s1) = tq_head (tty s) ∧
                tq_tail (tty s1) = tq_tail (tty s) + Z.of_nat (length (option_list k))).
  { subst s1. destruct k as [k|]; cbn [tty] in *; simpl length in *.
    - split_and!; [|done|].
      + destruct (decide (tq_tail (tty s) < 255)); [by apply tq_push_pending; [|lia]|lia].
      + unfold tq_push. cbn [tq_tail]. rewrite bool_decide_eq_false_2; [lia|].
        unfold TTY_BUF_SIZE. lia.
    - split_and!; [by rewrite app_nil_r|done|lia]. }
  destruct Hp1 as (Hp1 & Hh1 & Ht1).
  destruct (IH s1) as (s' & E' & ? & ? & Hm & ? & ? & Hp); [done|done|done|lia| |].
  { change (mods s1) with m. rewrite Ek. cbn [snd]. lia. }
  change (mods s1) with m in *. rewrite Ek in Hm, Hp. cbn [fst snd] in *.
  exists s'. split_and!; [|done..| |lia|].
  - cbn [kbd_interrupts]. by rewrite (bind_Ok _ _ _ _ _ E).
  - congruence.
  - by rewrite Hp, Hp1, app_assoc.
Qed.

(** ** Reading *)

Lemma tty_read_loop_run nr start got q :
  tq_wf q → tq_head q = start → start ≤ tq_tail q →
  ∃ q', tty_read_loop nr start (tq_tail q) got q = Ok (got ++ take nr (pending q), q') ∧
        tq_wf q' ∧ pending q' = drop nr (pending q).
Proof.
  revert start got q. induction nr as [|nr IH]; intros start got q Hq <- Ht.
  { exists q. by rewrite take_0, app_nil_r. }
  pose proof Hq as (Hh & Htl & Hl). unfold TTY_BUF_SIZE in *. cbn [tty_read_loop].
  destruct (decide (tq_head q = tq_tail q)) as [He|Hne].
  - rewrite bool_decide_eq_true_2 by done. exists q.
    assert (Hp : pending q = []) by (unfold pending; by rewrite He, Z.sub_diag).
    by rewrite Hp, take_nil, drop_nil, app_nil_r.
  - rewrite bool_decide_eq_false_2 by done. unfold TTY_BUF_SIZE.
    rewrite bool_decide_eq_true_2 by lia.
    destruct (lookup_lt_is_Some_2 (tq_buf q) (Z.to_nat (tq_head q))) as [k Hk]; [lia|].
    rewrite Hk, u32_small by lia. rewrite bool_decide_eq_false_2 by lia.
    set (q1 := TtyQueue (tq_head q + 1) (tq_tail q) (tq_buf q)).
    assert (Hp : pending q = k :: pending q1).
    { unfold pending, q1. cbn [tq_head tq_tail tq_buf].
      rewrite (drop_S _ k) by done.
      replace (Z.to_nat (tq_tail q - tq_head q)) with (S (Z.to_nat (tq_tail q - (tq_head q + 1)))) by lia.
      cbn [take]. by replace (Z.to_nat (tq_head q + 1)) with (S (Z.to_nat (tq_head q))) by lia. }
    destruct (IH (tq_head q + 1) (got ++ [k]) q1) as (q' & E & Hq' & Hp'); [|done|simpl; lia|].
    { unfold tq_wf, TTY_BUF_SIZE, q1. simpl. split_and!; (done || lia). }
    exists q'. change (tq_tail q1) with (tq_tail q) in E. rewrite E, Hp.
    split_and!; [by rewrite <- app_assoc|done|done].
Qed.

(** C40: What is typed is what is read.  For any sequence of presses and releases of the
    keys that have one scan code, delivered by interrupts to a terminal with an empty
    queue, [tty_read] then returns what a US keyboard types: the characters of the keys
    with the shift, caps-lock and num-lock state at their time, newline and backspace,
    and with control held -EEOF for d and nothing for the others; in order, nothing lost
    or added.  The queue must not wrap: the place where it is filled and the number of
    characters stay together below 256 ([tty_read_runs_off] shows what happens
    otherwise). *)
Theorem typed_keys_are_read l s nr :
  drained s → tq_wf (tty s) → Forall known l →
  tq_head (tty s) = tq_tail (tty s) →
  tq_tail (tty s) + Z.of_nat (length (type_keys (holding (mods s)) l).2) < 256 →
  ∃ s' q', kbd_interrupts l s = Ok (tt, s') ∧
    holding (mods s') = (type_keys (holding (mods s)) l).1 ∧
    tty_read nr (tty s') = Ok (take (Z.to_nat nr) (type_keys (holding (mods s)) l).2, q') ∧
    pending q' = drop (Z.to_nat nr) (type_keys (holding (mods s)) l).2.
Proof.
  intros Hd Hq Hl He Hn.
  destruct (kbd_interrupts_run l s Hd Hq Hl ltac:(lia) Hn) as (s' & E & _ & Hq' & Hm & _ & Ht & Hp).
  assert (Hp0 : pending (tty s) = []).
  { unfold pending. rewrite He, Z.sub_diag. done. }
  rewrite Hp0, app_nil_l in Hp.
  destruct (tty_read_loop_run (Z.to_nat nr) _ [] (tty s') Hq' eq_refl Ht) as (q' & E' & _ & Hr).
  exists s', q'. rewrite Hp in E', Hr. done.
Qed.

(** ** Two flaws *)

(** When the keys wrap around the end of the queue, [tty_read] runs off the array:
    [start] is not reset with [head] and never meets [end]. *)
Theorem tty_read_runs_off q nr :
  tq_wf q → tq_tail q < tq_head q → 256 - tq_head q < nr → tty_read nr q = Stop Faulted.
Proof.
  intros Hq Ht Hn. unfold tty_read. pose proof Hq as (Hh & Htl & Hl). unfold TTY_BUF_SIZE in *.
  assert (Hg : ∀ n start got q, tq_buf q !! Z.to_nat 255 ≠ None → length (tq_buf q) = 256%nat →
     0 ≤ start ≤ 256 → tq_tail q < start → 256 - start < Z.of_nat n →
     tty_read_loop n start (tq_tail q) got q = Stop Faulted).
  { clear. induction n as [|n IH]; intros start got q Hb Hl Hs Ht Hn; [lia|]. cbn [tty_read_loop].
    rewrite bool_decide_eq_false_2 by lia. unfold TTY_BUF_SIZE.
    case_bool_decide as Hlt; [|done].
    destruct (lookup_lt_is_Some_2 (tq_buf q) (Z.to_nat start)) as [k ->]; [lia|].
    match goal with |- tty_read_loop _ _ _ _ ?t = _ => apply (IH _ _ t) end; simpl; (done || lia). }
  apply Hg; [|done|lia..]. intros H%lookup_ge_None. lia.
Qed.

Lemma keyboard_translate_keeps sc s r s' :
  keyboard_translate sc s = Ok (r, s') → kbdbuf s' = kbdbuf s.
Proof.
  unfold keyboard_translate. destruct (_ && _); [|by intros [= <- <-]]. intros H.
  destruct (keymap !! Z.to_nat (Z.land (sc_code sc) 127 * MAP_COLS)) as [row0|]; [|discriminate H].
  apply bind_Ok_inv in H as (? & ? & [= <- <-] & H).
  apply bind_Ok_inv in H as (? & ? & [= <- <-] & H).
  apply bind_Ok_inv in H as (? & ? & E & H).
  unfold of_option in E. destruct (keymap !! _); [|discriminate E]. injection E as <- <-.
  by apply bind_Ok_inv in H as ([] & ? & [= <-] & [= <- <-]).
Qed.

(** With one byte waiting, an E0 leaves the queue one byte in debt. *)
Lemma read_prefix_debt head tail buf m q x s' :
  0 ≤ tail < KB_IN_BYTES → buf !! Z.to_nat tail = Some 0xE0 →
  buf !! Z.to_nat (kb_wrap tail) = Some x → x ≠ 0x2A → x ≠ 0xB7 →
  keyboard_read (KbdState (Kbdbuf head tail 1 buf) m q) = Ok (tt, s') →
  kbdbuf s' = Kbdbuf head (kb_wrap (kb_wrap tail)) (-1) buf.
Proof.
  intros Ht H0 H1 Hx1 Hx2 H. unfold keyboard_read in H. change 40%nat with (S (S 38)) in H.
  remember (S 38) as f eqn:Hf. cbn [keyboard_read_loop] in H.
  apply bind_Ok_inv in H as (? & ? & [= <- <-] & H). cbn [kbdbuf kb_count] in H.
  rewrite bool_decide_eq_true_2 in H by lia.
  rewrite (bind_Ok _ _ _ _ _ (get_byte_run _ _ _ _ _ _ _ (proj1 Ht) H0)) in H.
  destruct (kb_wrap_range _ Ht) as [Ht' _].
  unfold keyboard_prefix in H.
  rewrite (bool_decide_eq_false_2 (0xE0 = 0xE1)), (bool_decide_eq_true_2 (0xE0 = 0xE0)) in H by done.
  rewrite bind_assoc, (bind_Ok _ _ _ _ _ (get_byte_run _ _ _ _ _ _ _ (proj1 Ht') H1)) in H.
  rewrite (bool_decide_eq_false_2 (x = 0x2A)), (bool_decide_eq_false_2 (x = 0xB7)) in H by done.
  apply bind_Ok_inv in H as (? & ? & [= <- <-] & H).
  apply bind_Ok_inv in H as ([key mk] & s5 & T & H). apply keyboard_translate_keeps in T.
  apply bind_Ok_inv in H as (key' & s6 & U & H).
  assert (Hs6 : kbdbuf s6 = kbdbuf s5).
  { destruct (bool_decide (mk ≠ 0)); [|by injection U as <- <-].
    apply bind_Ok_inv in U as (? & ? & [= <- <-] & U).
    destruct (pad_key _ _) as [k2 pd]. apply bind_Ok_inv in U as ([] & ? & R & [= <- <-]).
    unfold run_tty in R. destruct (handle_key _ _) as [[[] ?]|]; [|discriminate R].
    by injection R as <-. }
  subst f. rewrite keyboard_read_empty in H by (rewrite Hs6, T; simpl; lia).
  injection H as <-. by rewrite Hs6, T.
Qed.

(** A key that sends two bytes is not decoded: at the interrupt of the E0 prefix the
    decoder takes a stale byte in place of the second one, and when the second one
    arrives nothing looks at it. *)
Theorem extended_key_ignored head buf m q s1 x sc :
  0 ≤ head < KB_IN_BYTES → length buf = 32%nat → 0 ≤ sc < 256 →
  buf !! Z.to_nat (kb_wrap head) = Some x → x ≠ 0x2A → x ≠ 0xB7 →
  kbd_handler 0xE0 (KbdState (Kbdbuf head head 0 buf) m q) = Ok (tt, s1) →
  ∃ s2, kbd_handler sc s1 = Ok (tt, s2) ∧ mods s2 = mods s1 ∧ tty s2 = tty s1.
Proof.
  intros Hh Hl Hsc Hx H1 H2 H. destruct (kb_wrap_range _ Hh) as [Hw Hne].
  unfold kbd_handler in H. rewrite (bind_Ok _ _ _ _ _ (read_to_buff_run _ _ 0 _ _ _ _ eq_refl Hh Hl)) in H.
  apply (read_prefix_debt _ _ _ _ _ x) in H; [|done| | |done|done].
  2:{ rewrite list_lookup_insert_eq; [done|unfold KB_IN_BYTES in *; lia]. }
  2:{ rewrite list_lookup_insert_ne; [done|lia]. }
  destruct s1 as [b1 m1 q1]. cbn [kbdbuf] in H. subst b1.
  unfold kbd_handler. rewrite (bind_Ok _ _ _ _ _ (read_to_buff_run _ _ (-1) _ _ _ _ eq_refl Hw
    ltac:(by rewrite length_insert))).
  unfold keyboard_read. rewrite keyboard_read_empty by (simpl; lia). eauto.
Qed.

(** ** A witness: shift and "h", then "i", then enter *)

Definition demo_kbd : kbd_state :=
  KbdState (Kbdbuf 0 0 0 (replicate 32 0)) (Modifiers 0 0 0 0 0 0 0 0 0)
    (TtyQueue 0 0 (replicate 256 0)).

Definition demo_typed : list Z := [0x2A; 0x23; 0xA3; 0xAA; 0x17; 0x97; 0x1C; 0x9C].

Lemma typed_keys_are_read_witness :
  ∃ s' q', kbd_interrupts demo_typed demo_kbd = Ok (tt, s') ∧
    holding (mods s') = Held false false false false false ∧
    tty_read 10 (tty s') = Ok ([72; 105; 10], q') ∧ pending q' = [].
Proof.
  destruct (typed_keys_are_read demo_typed demo_kbd 10) as (s' & q' & E & Hm & Hr & Hp).
  - split_and!; done.
  - split_and!; done.
  - apply (bool_decide_unpack _). vm_compute. exact I.
  - done.
  - vm_compute. done.
  - assert (Hk : (type_keys (holding (mods demo_kbd)) demo_typed).2 = [72; 105; 10]) by (vm_compute; done).
    rewrite Hk in Hr, Hp. exists s', q'. split; [exact E|]. split; [exact Hm|]. split; [exact Hr|exact Hp].
Defined.
