(* ===== verification/Printfmt.v ===== *)
(** * Formatted output: lib/printfmt.c, the buffers of lib/printf.c and kernel/printk.c

    [vprintfmt] is modelled for an arbitrary state with two operations: reading a
    byte of memory ([%s]) and [putch], the callback of the C code with its
    [putdat].  A format or a literal string is the function that reads its
    character at an offset, so that the recursive calls of [%e] with literal
    formats are recursive calls of the model.  The variable arguments are the
    32-bit words of the stack, [va_arg] takes one or two of them. *)

From stdpp Require Import strings.
From S2P Require Import Prelude Str Console.

Local Open Scope Z_scope.

(** ASCII codes of a literal. *)
Fixpoint codes (s : string) : list Z :=
  match s with
  | EmptyString => []
  | String c s => Z.of_N (Ascii.N_of_ascii c) :: codes s
  end.

Definition MAXERROR : Z := 40.

Definition error_string (err : Z) : option string :=
  if bool_decide (err = 36) then Some "unspecified error"%string
  else if bool_decide (err = 35) then Some "bad environment"%string
  else if bool_decide (err = 22) then Some "invalid parameter"%string
  else if bool_decide (err = 12) then Some "out of memory"%string
  else if bool_decide (err = 14) then Some "segmentation fault"%string
  else if bool_decide (err = 28) then Some "no free space on disk"%string
  else if bool_decide (err = 24) then Some "too many files are open"%string
  else if bool_decide (err = 2) then Some "file or block not found"%string
  else if bool_decide (err = 17) then Some "file already exists"%string
  else if bool_decide (err = 8) then Some "file is not a valid executable"%string
  else if bool_decide (err = 1) then Some "operation not supported"%string
  else None.

(** The character of "0123456789abcdef". *)
Definition hexdigit (d : Z) : Z := if bool_decide (d < 10) then 48 + d else 97 + (d - 10).

Section format.
Context {S : Type} (rd : Z → M S Z) (putch : Z → M S unit).

(** A literal: its characters and the terminator. *)
Definition lit (s : string) (i : Z) : M S Z :=
  of_option ((codes s ++ [0]) !! Z.to_nat i).

(** [n] times the same character. *)
Fixpoint putn (n : nat) (c : Z) : M S unit :=
  match n with O => mret tt | Datatypes.S n => putch c ;; putn n c end.

Fixpoint printnum (fuel : nat) (num base width padc : Z) : M S unit :=
  match fuel with
  | O => stop_with OutOfFuel
  | Datatypes.S fuel =>
      (if bool_decide (base ≤ num) then printnum fuel (num / base) base (width - 1) padc
       else putn (Z.to_nat (width - 1)) padc) ;;
      putch (hexdigit (num mod base))
  end.

(** [va_arg]: the next argument and the ones left. *)
Definition va_word (ap : list Z) : M S (Z * list Z) :=
  match ap with w :: ap => mret (u32 w, ap) | [] => fault end.
Definition va_int (ap : list Z) : M S (Z * list Z) :=
  r ← va_word ap; mret (i32 r.1, r.2).
Definition va_dword (ap : list Z) : M S (Z * list Z) :=
  match ap with lo :: hi :: ap => mret (u32 lo + 2 ^ 32 * u32 hi, ap) | _ => fault end.

Definition getuint (ap : list Z) (lflag : Z) : M S (Z * list Z) :=
  if bool_decide (2 ≤ lflag) then va_dword ap
  else if bool_decide (lflag ≠ 0) then va_word ap
  else va_word ap.

Definition getint (ap : list Z) (lflag : Z) : M S (Z * list Z) :=
  if bool_decide (2 ≤ lflag) then r ← va_dword ap; mret (i64 r.1, r.2)
  else if bool_decide (lflag ≠ 0) then va_int ap
  else va_int ap.

(** [strnlen(p, precision)]: the precision is converted to [size_t]. *)
Fixpoint str_nlen (fuel : nat) (p : Z → M S Z) (i size : Z) : M S Z :=
  if bool_decide (0 < size) then
    match fuel with
    | O => stop_with OutOfFuel
    | Datatypes.S fuel =>
        c ← p i;
        if bool_decide (c = 0) then mret i else str_nlen fuel p (i + 1) (size - 1)
    end
  else mret i.

(** The loop that prints a string; the result is the width left. *)
Fixpoint put_str (fuel : nat) (p : Z → M S Z) (i precision width : Z) (altflag : bool) : M S Z :=
  match fuel with
  | O => stop_with OutOfFuel
  | Datatypes.S fuel =>
      c ← p i;
      let ch := i8 c in
      if bool_decide (ch = 0) then mret width
      else
        let precision' := if bool_decide (precision < 0) then precision else precision - 1 in
        if bool_decide (precision < 0) || bool_decide (0 ≤ precision') then
          (if altflag && (bool_decide (ch < 32) || bool_decide (126 < ch)) then putch 63
           else putch ch) ;;
          put_str fuel p (i + 1) precision' (i32 (width - 1)) altflag
        else mret width
  end.

Definition fmt_string (fuel : nat) (p : Z → M S Z) (padc width precision : Z)
    (altflag : bool) : M S unit :=
  width ← (if bool_decide (0 < width) && negb (bool_decide (padc = 45)) then
             n ← str_nlen fuel p 0 (u32 precision);
             let width := i32 (width - n) in
             putn (Z.to_nat width) padc ;; mret (Z.min width 0)
           else mret width);
  width ← put_str fuel p 0 precision width altflag;
  putn (Z.to_nat width) 32.

(** The digits of a width: [precision = precision * 10 + ch - '0'] while digits
    follow; the value and the place after them. *)
Fixpoint fmt_width (fuel : nat) (fmt : Z → M S Z) (pos precision ch : Z) : M S (Z * Z) :=
  match fuel with
  | O => stop_with OutOfFuel
  | Datatypes.S fuel =>
      let precision := i32 (precision * 10 + ch - 48) in
      c ← fmt pos;
      let ch := i8 c in
      if bool_decide (ch < 48) || bool_decide (57 < ch) then mret (precision, pos)
      else fmt_width fuel fmt (pos + 1) precision ch
  end.

(** [for (fmt--; fmt[-1] != '%'; fmt--)]. *)
Fixpoint fmt_rewind (fuel : nat) (fmt : Z → M S Z) (pos : Z) : M S Z :=
  match fuel with
  | O => stop_with OutOfFuel
  | Datatypes.S fuel =>
      c ← fmt (pos - 1);
      if bool_decide (c = 37) then mret pos else fmt_rewind fuel fmt (pos - 1)
  end.

(** [vprintfmt] is the outer loop, [reswitch] the label of the same name, reached
    after each flag; it returns the position and the arguments left. *)
Fixpoint vprintfmt (fuel : nat) (fmt : Z → M S Z) (pos : Z) (ap : list Z) : M S unit :=
  match fuel with
  | O => stop_with OutOfFuel
  | Datatypes.S fuel =>
      ch ← fmt pos;
      if bool_decide (ch = 37) then
        r ← reswitch fuel fmt (pos + 1) ap 32 (-1) (-1) 0 false;
        vprintfmt fuel fmt r.1 r.2
      else if bool_decide (ch = 0) then mret tt
      else putch ch ;; vprintfmt fuel fmt (pos + 1) ap
  end
with reswitch (fuel : nat) (fmt : Z → M S Z) (pos : Z) (ap : list Z)
    (padc width precision lflag : Z) (altflag : bool) : M S (Z * list Z) :=
  match fuel with
  | O => stop_with OutOfFuel
  | Datatypes.S fuel =>
      let process_precision pos ap precision :=
        if bool_decide (width < 0) then reswitch fuel fmt pos ap padc precision (-1) lflag altflag
        else reswitch fuel fmt pos ap padc width precision lflag altflag in
      let number pos ap num base :=
        printnum 64 num base width padc ;; mret (pos, ap) in
      ch ← fmt pos;
      let pos := pos + 1 in
      if bool_decide (ch = 45) then reswitch fuel fmt pos ap 45 width precision lflag altflag
      else if bool_decide (ch = 48) then reswitch fuel fmt pos ap 48 width precision lflag altflag
      else if bool_decide (49 ≤ ch ≤ 57) then
        r ← fmt_width fuel fmt pos 0 ch;
        process_precision r.2 ap r.1
      else if bool_decide (ch = 42) then
        r ← va_int ap;
        process_precision pos r.2 r.1
      else if bool_decide (ch = 46) then
        reswitch fuel fmt pos ap padc (if bool_decide (width < 0) then 0 else width)
          precision lflag altflag
      else if bool_decide (ch = 35) then reswitch fuel fmt pos ap padc width precision lflag true
      else if bool_decide (ch = 108) then
        reswitch fuel fmt pos ap padc width precision (lflag + 1) altflag
      else if bool_decide (ch = 99) then
        r ← va_int ap;
        putch r.1 ;; mret (pos, r.2)
      else if bool_decide (ch = 101) then
        r ← va_int ap;
        let err := if bool_decide (r.1 < 0) then i32 (- r.1) else r.1 in
        if bool_decide (err < 0) then fault
        else match (if bool_decide (MAXERROR ≤ err) then None else error_string err) with
        | None => vprintfmt fuel (lit "error %d") 0 [err] ;; mret (pos, r.2)
        | Some p => fmt_string fuel (lit p) 32 (-1) (-1) false ;; mret (pos, r.2)
        end
      else if bool_decide (ch = 115) then
        r ← va_word ap;
        let p := if bool_decide (r.1 = 0) then lit "(null)" else λ i, rd (r.1 + i) in
        fmt_string fuel p padc width precision altflag ;;
        mret (pos, r.2)
      else if bool_decide (ch = 100) then
        r ← getint ap lflag;
        (if bool_decide (r.1 < 0) then putch 45 else mret tt) ;;
        number pos r.2 (u64 (if bool_decide (r.1 < 0) then - r.1 else r.1)) 10
      else if bool_decide (ch = 117) then r ← getuint ap lflag; number pos r.2 r.1 10
      else if bool_decide (ch = 111) then r ← getuint ap lflag; number pos r.2 r.1 8
      else if bool_decide (ch = 112) then
        putch 48 ;; putch 120 ;;
        r ← va_word ap;
        number pos r.2 r.1 16
      else if bool_decide (ch = 120) then r ← getuint ap lflag; number pos r.2 r.1 16
      else if bool_decide (ch = 37) then putch ch ;; mret (pos, ap)
      else
        putch 37 ;;
        pos ← fmt_rewind fuel fmt (pos - 1);
        mret (pos, ap)
  end.
End format.

(** ** Printing into a buffer *)

Record sprintbuf := Sprintbuf { sb_buf : Z; sb_ebuf : Z; sb_cnt : Z }.

(** The memory and the buffer descriptor on the stack of [vsnprintf]. *)
Abbreviation sp_state := (bytes * sprintbuf)%type.

Definition sp_mem {A} (o : M bytes A) : M sp_state A := λ s,
  match o s.1 with Ok (a, m) => Ok (a, (m, s.2)) | Stop w => Stop w end.

Definition sprintputch (ch : Z) : M sp_state unit :=
  s ← get;
  let b := s.2 in
  let cnt := i32 (sb_cnt b + 1) in
  if bool_decide (sb_buf b < sb_ebuf b) then
    sp_mem (store8 (sb_buf b) ch) ;;
    modify (λ s, (s.1, Sprintbuf (sb_buf b + 1) (sb_ebuf b) cnt))
  else put (s.1, Sprintbuf (sb_buf b) (sb_ebuf b) cnt).

Definition EINVAL : Z := 22.

Definition vsnprintf (fuel : nat) (buf n fmt : Z) (ap : list Z) : M bytes Z :=
  if bool_decide (buf = 0) || bool_decide (n < 1) then mret (- EINVAL)
  else
    m ← get;
    r ← lift (vprintfmt (λ a, sp_mem (load8 a)) sprintputch fuel
               (λ i, sp_mem (load8 (fmt + i))) 0 ap (m, Sprintbuf buf (buf + n - 1) 0));
    let '(_, (m, b)) := (r : unit * sp_state) in
    put m ;;
    store8 (sb_buf b) 0 ;;
    mret (sb_cnt b).

Definition snprintf (fuel : nat) (buf n fmt : Z) (ap : list Z) : M bytes Z :=
  vsnprintf fuel buf n fmt ap.

(** ** printf: the line buffer of user programs (lib/printf.c)

    [sys_write(0, buf, idx)] appends the buffered bytes to what was written. *)

Record printbuf := Printbuf { pb_idx : Z; pb_cnt : Z; pb_buf : list Z }.

Record pf_state := PfState { pf_mem : bytes; pf_b : printbuf; pf_written : list Z }.

Definition sys_write0 (buf : list Z) (idx : Z) : M pf_state unit :=
  modify (λ s, PfState (pf_mem s) (pf_b s) (pf_written s ++ take (Z.to_nat idx) buf)).

Definition set_pb (b : printbuf) : M pf_state unit :=
  modify (λ s, PfState (pf_mem s) b (pf_written s)).

Definition pf_putch (ch : Z) : M pf_state unit :=
  s ← get;
  let b := pf_b s in
  if bool_decide (0 ≤ pb_idx b < Z.of_nat (length (pb_buf b))) then
    let buf := <[Z.to_nat (pb_idx b) := u8 ch]> (pb_buf b) in
    let idx := pb_idx b + 1 in
    idx ← (if bool_decide (idx = 256 - 1) then sys_write0 buf idx ;; mret 0 else mret idx);
    set_pb (Printbuf idx (i32 (pb_cnt b + 1)) buf)
  else fault.

Definition pf_rd (a : Z) : M pf_state Z := s ← get; of_option (pf_mem s !! a).

(** [buf0] is what the stack held. *)
Definition vcprintf (fuel : nat) (buf0 : list Z) (fmt : Z) (ap : list Z) : M pf_state Z :=
  set_pb (Printbuf 0 0 buf0) ;;
  vprintfmt pf_rd pf_putch fuel (λ i, pf_rd (fmt + i)) 0 ap ;;
  b ← gets pf_b;
  sys_write0 (pb_buf b) (pb_idx b) ;;
  mret (pb_cnt b).

(** ** printk: the console of the kernel (kernel/printk.c)

    [*cnt++] moves the pointer and leaves the counter alone. *)

Record pk_state := PkState { pk_mem : bytes; pk_console : console_struct; pk_cnt : Z }.

Definition pk_putch (ch : Z) : M pk_state unit := λ s,
  match console_write_char ch (pk_console s) with
  | Ok (_, con) => Ok (tt, PkState (pk_mem s) con (pk_cnt s))
  | Stop w => Stop w
  end.

Definition pk_rd (a : Z) : M pk_state Z := s ← get; of_option (pk_mem s !! a).

(** The format is given by its reading function. *)
Definition vprintf (fuel : nat) (fmt : Z → M pk_state Z) (ap : list Z) : M pk_state Z :=
  modify (λ s, PkState (pk_mem s) (pk_console s) 0) ;;
  vprintfmt pk_rd pk_putch fuel fmt 0 ap ;;
  gets pk_cnt.

Definition printk (fuel : nat) (fmt : Z → M pk_state Z) (ap : list Z) : M pk_state Z :=
  vprintf fuel fmt ap.

(** [tty_write] of kernel/char/tty_io.c. *)
Definition tty_write (fuel : nat) (buf nr : Z) : M pk_state Z :=
  printk fuel (lit "%.*s") [nr; buf] ;; mret nr.
