(* ===== verification/PrintfmtProofs.v ===== *)
(** * Correctness of the formatted output

    What a format stands for is the list of characters that [vprintfmt] puts out when
    it runs on a memory that does not change ([formatted]).  The output does not
    depend on where it goes ([vprintfmt_follows]), so that the three users of
    [vprintfmt] are characterised by what they do with these characters: [vsnprintf]
    keeps the prefix that fits, [vcprintf] hands all of them to [write], [printk] puts
    them on the console and loses its count.  Numbers are specified by their digits,
    and printing followed by [strtol] is the identity on the integers of the
    machine. *)

From stdpp Require Import strings.
From S2P Require Import Prelude Str StrProofs Console ConsoleProofs Printfmt.

Local Open Scope Z_scope.

(** ** What a format stands for

    The reference runs the same code on a memory that does not change and collects
    the characters in a list. *)

Definition out_rd (m : bytes) (a : Z) : M (list Z) Z := of_option (m !! a).
Definition out_putch (c : Z) : M (list Z) unit := modify (λ l, l ++ [c]).

Definition format_out (m : bytes) (fuel : nat) (fmt : Z → M (list Z) Z) (ap : list Z) : outcome (list Z) :=
  match vprintfmt (out_rd m) out_putch fuel fmt 0 ap [] with Ok (_, l) => Ok l | Stop w => Stop w end.

(** The output of a format that is stored at [fmt]. *)
Definition formatted (m : bytes) (fuel : nat) (fmt : Z) (ap : list Z) : outcome (list Z) :=
  format_out m fuel (λ i, out_rd m (fmt + i)) ap.

Section put_all.
Context {S : Type} (putch : Z → M S unit).

Fixpoint put_all (l : list Z) : M S unit :=
  match l with [] => mret tt | c :: l => putch c ;; put_all l end.

Lemma put_all_app l1 l2 s : put_all (l1 ++ l2) s = (put_all l1 ;; put_all l2) s.
Proof.
  revert s. induction l1 as [|c l1 IH]; intros s; [done|].
  simpl. rewrite bind_assoc. unfold mbind, M_bind.
  destruct (putch c s) as [[]|]; [apply IH|done].
Qed.

Lemma putn_put_all n c s : putn putch n c s = put_all (replicate n c) s.
Proof.
  revert s. induction n as [|n IH]; intros s; [done|]. simpl.
  unfold mbind, M_bind. destruct (putch c s) as [[]|]; [apply IH|done].
Qed.
End put_all.

(** ** The output does not depend on where it goes

    [R l s]: the state [s] after the characters [l].  Code that only reads memory the
    reference has and only writes through [putch] follows the reference. *)

Section follows.
Context {S : Type} (m : bytes) (rd : Z → M S Z) (putch : Z → M S unit) (R : list Z → S → Prop).

Definition follows {A} (o1 : M (list Z) A) (o2 : M S A) : Prop :=
  ∀ l s a l', R l s → o1 l = Ok (a, l') → ∃ s', o2 s = Ok (a, s') ∧ R l' s'.

Context (rd_follows : ∀ a, follows (out_rd m a) (rd a)).
Context (putch_follows : ∀ c, follows (out_putch c) (putch c)).

Lemma follows_ret {A} (a : A) : follows (mret a) (mret a).
Proof. intros l s a' l' HR [= <- <-]. by exists s. Qed.

Lemma follows_stop {A} w (o : M S A) : follows (stop_with w) o.
Proof. by intros l s a l' ?. Qed.

Lemma follows_of_option {A} (x : option A) : follows (of_option x) (of_option x).
Proof. destruct x; [apply follows_ret|apply follows_stop]. Qed.

Lemma follows_bind {A B} (o1 : M (list Z) A) (o2 : M S A) (f1 : A → M (list Z) B) (f2 : A → M S B) :
  follows o1 o2 → (∀ a, follows (f1 a) (f2 a)) → follows (o1 ≫= f1) (o2 ≫= f2).
Proof.
  intros Ho Hf l s b l' HR H. apply bind_Ok_inv in H as (a & l1 & H1 & H2).
  destruct (Ho _ _ _ _ HR H1) as (s1 & E1 & HR1). destruct (Hf _ _ _ _ _ HR1 H2) as (s2 & E2 & HR2).
  exists s2. by rewrite (bind_Ok _ _ _ _ _ E1).
Qed.

Lemma follows_if {A} (b : bool) (o1 o1' : M (list Z) A) (o2 o2' : M S A) :
  follows o1 o2 → follows o1' o2' → follows (if b then o1 else o1') (if b then o2 else o2').
Proof. by destruct b. Qed.

Create HintDb follows.
#[local] Hint Resolve follows_ret follows_stop follows_of_option follows_bind follows_if : follows.

(** Walk through the binds and tests of a piece of code. *)
Ltac follows_tac :=
  repeat first
    [ by auto with nocore follows
    | apply follows_ret | apply follows_stop | apply follows_of_option
    | apply putch_follows
    | (apply follows_bind; [|intros ?])
    | apply follows_if
    | progress cbv beta zeta
    | by auto with follows ].

Lemma follows_lit s i : follows (lit s i) (lit s i).
Proof. apply follows_of_option. Qed.

Lemma follows_putn n c : follows (putn out_putch n c) (putn putch n c).
Proof. induction n; simpl; follows_tac. Qed.

Lemma follows_printnum fuel num base width padc :
  follows (printnum out_putch fuel num base width padc) (printnum putch fuel num base width padc).
Proof.
  revert num width. induction fuel as [|fuel IH]; intros num width; simpl; follows_tac;
    auto using follows_putn.
Qed.

Lemma follows_va_word ap : follows (va_word ap) (va_word ap).
Proof. destruct ap; simpl; follows_tac. Qed.
Lemma follows_va_int ap : follows (va_int ap) (va_int ap).
Proof. unfold va_int. follows_tac. apply follows_va_word. Qed.
Lemma follows_va_dword ap : follows (va_dword ap) (va_dword ap).
Proof. destruct ap as [|? [|? ?]]; simpl; follows_tac. Qed.
Lemma follows_getuint ap lflag : follows (getuint ap lflag) (getuint ap lflag).
Proof. unfold getuint. follows_tac; auto using follows_va_dword, follows_va_word. Qed.
Lemma follows_getint ap lflag : follows (getint ap lflag) (getint ap lflag).
Proof. unfold getint. follows_tac; auto using follows_va_dword, follows_va_word, follows_va_int. Qed.

Section strings.
Context (p1 : Z → M (list Z) Z) (p2 : Z → M S Z) (Hp : ∀ j, follows (p1 j) (p2 j)).

Lemma follows_str_nlen fuel i size : follows (str_nlen fuel p1 i size) (str_nlen fuel p2 i size).
Proof. revert i size. induction fuel as [|fuel IH]; intros i size; simpl; follows_tac. Qed.

Lemma follows_put_str fuel i precision width altflag :
  follows (put_str out_putch fuel p1 i precision width altflag) (put_str putch fuel p2 i precision width altflag).
Proof.
  revert i precision width. induction fuel as [|fuel IH]; intros i precision width; simpl; follows_tac.
Qed.

Lemma follows_fmt_string fuel padc width precision altflag :
  follows (fmt_string out_putch fuel p1 padc width precision altflag)
    (fmt_string putch fuel p2 padc width precision altflag).
Proof.
  unfold fmt_string. follows_tac; auto using follows_str_nlen, follows_putn, follows_put_str.
Qed.

Lemma follows_fmt_width fuel pos precision ch :
  follows (fmt_width fuel p1 pos precision ch) (fmt_width fuel p2 pos precision ch).
Proof.
  revert pos precision ch. induction fuel as [|fuel IH]; intros pos precision ch; simpl; follows_tac.
Qed.

Lemma follows_fmt_rewind fuel pos : follows (fmt_rewind fuel p1 pos) (fmt_rewind fuel p2 pos).
Proof. revert pos. induction fuel as [|fuel IH]; intros pos; simpl; follows_tac. Qed.
End strings.

Lemma follows_str_arg (b : bool) s a j :
  follows ((if b then lit s else λ i, out_rd m (a + i)) j) ((if b then lit s else λ i, rd (a + i)) j).
Proof. destruct b; [apply follows_lit|apply rd_follows]. Qed.

#[local] Hint Resolve follows_str_arg follows_lit follows_putn follows_printnum follows_va_word follows_va_int
  follows_va_dword follows_getuint follows_getint follows_str_nlen follows_put_str
  follows_fmt_string follows_fmt_width follows_fmt_rewind : follows.

Lemma vprintfmt_follows fuel :
  (∀ fmt1 fmt2 pos ap, (∀ j, follows (fmt1 j) (fmt2 j)) →
     follows (vprintfmt (out_rd m) out_putch fuel fmt1 pos ap) (vprintfmt rd putch fuel fmt2 pos ap)) ∧
  (∀ fmt1 fmt2 pos ap padc width precision lflag altflag, (∀ j, follows (fmt1 j) (fmt2 j)) →
     follows (reswitch (out_rd m) out_putch fuel fmt1 pos ap padc width precision lflag altflag)
       (reswitch rd putch fuel fmt2 pos ap padc width precision lflag altflag)).
Proof.
  induction fuel as [|fuel [IHv IHr]]; [split; intros; apply follows_stop|].
  split.
  - intros fmt1 fmt2 pos ap Hf. cbn [vprintfmt]. follows_tac; try apply Hf; auto.
  - intros fmt1 fmt2 pos ap padc width precision lflag altflag Hf. cbn [reswitch].
    cbv zeta. follows_tac; try apply Hf; try (by auto with follows).
    destruct (if bool_decide (MAXERROR ≤ _) then None else _); follows_tac.
Qed.

(** The run of [vprintfmt] ends where the reference says. *)
Lemma format_out_follows fuel fmt1 fmt2 ap out s :
  (∀ j, follows (fmt1 j) (fmt2 j)) → format_out m fuel fmt1 ap = Ok out → R [] s →
  ∃ s', vprintfmt rd putch fuel fmt2 0 ap s = Ok (tt, s') ∧ R out s'.
Proof.
  intros Hf H HR. unfold format_out in H.
  destruct (vprintfmt (out_rd m) _ _ _ _ _ _) as [[[] l]|] eqn:E; [|done]. injection H as ->.
  by apply (proj1 (vprintfmt_follows fuel) fmt1 fmt2 0 ap Hf [] s tt out HR E).
Qed.
End follows.


(** The state reached from [s0] by the characters [l]. *)
Definition reached {S} (putch : Z → M S unit) (s0 : S) (l : list Z) (s : S) : Prop :=
  put_all putch l s0 = Ok (tt, s).

Lemma reached_putch {S} (putch : Z → M S unit) (s0 : S) c :
  (∀ l, ∃ s, put_all putch l s0 = Ok (tt, s)) →
  follows (reached putch s0) (out_putch c) (putch c).
Proof.
  intros Ht l s [] l' HR [= <-]. destruct (Ht (l ++ [c])) as [s' Hs']. exists s'. split; [|done].
  rewrite put_all_app, (bind_Ok _ _ _ _ _ HR) in Hs'. simpl in Hs'.
  apply bind_Ok_inv in Hs' as ([] & s1 & E & [= <-]). exact E.
Qed.

(** ** Numbers and their digits *)

(** The digits of [num], most significant first. *)
Fixpoint digits (fuel : nat) (num base : Z) : list Z :=
  match fuel with
  | O => []
  | S fuel => (if bool_decide (base ≤ num) then digits fuel (num / base) base else []) ++ [num mod base]
  end.

Definition value (base : Z) (l : list Z) : Z := foldl (λ v d, v * base + d) 0 l.

Lemma pow_S base fuel : base ^ Z.of_nat (S fuel) = base * base ^ Z.of_nat fuel.
Proof. rewrite Nat2Z.inj_succ, Z.pow_succ_r by lia. done. Qed.

(** The quotient needs one digit less. *)
Lemma div_digits fuel num base :
  2 ≤ base → base ≤ num < base ^ Z.of_nat (S fuel) →
  0 ≤ num / base < base ^ Z.of_nat fuel ∧ fuel ≠ 0%nat.
Proof.
  intros Hb Hn. rewrite pow_S in Hn. split; [split|].
  - apply Z.div_pos; lia.
  - apply Z.div_lt_upper_bound; lia.
  - intros ->. rewrite Z.pow_0_r in Hn. lia.
Qed.

Lemma digits_value fuel num base :
  2 ≤ base → 0 ≤ num < base ^ Z.of_nat fuel → fuel ≠ 0%nat → value base (digits fuel num base) = num.
Proof.
  intros Hb. revert num. induction fuel as [|fuel IH]; intros num Hn Hf; [done|]. cbn [digits].
  case_bool_decide as H.
  - destruct (div_digits fuel num base) as [? ?]; [lia..|].
    unfold value in *. rewrite foldl_app, IH by done. simpl.
    rewrite (Z.div_mod num base) at 3 by lia. lia.
  - unfold value. simpl. rewrite Z.mod_small; lia.
Qed.

Lemma digits_range fuel num base :
  2 ≤ base → Forall (λ d, 0 ≤ d < base) (digits fuel num base).
Proof.
  intros Hb. revert num. induction fuel as [|fuel IH]; intros num; [constructor|]. cbn [digits].
  apply Forall_app. split.
  - case_bool_decide; [apply IH|constructor].
  - constructor; [|constructor]. apply Z.mod_pos_bound. lia.
Qed.

Lemma digits_length fuel num base k :
  2 ≤ base → 0 ≤ num < base ^ Z.of_nat k → k ≠ 0%nat →
  (length (digits fuel num base) ≤ k)%nat.
Proof.
  intros Hb. revert num k. induction fuel as [|fuel IH]; intros num k Hn Hk; [simpl; lia|].
  destruct k as [|k]; [done|]. cbn [digits]. rewrite length_app. simpl.
  case_bool_decide; [|simpl; lia].
  destruct (div_digits k num base) as [? ?]; [lia..|].
  specialize (IH (num / base) k). lia.
Qed.

(** The digits begin with 0 for the number 0 only. *)
Lemma digits_leading fuel num base :
  2 ≤ base → 0 ≤ num < base ^ Z.of_nat fuel → fuel ≠ 0%nat →
  ∃ d l, digits fuel num base = d :: l ∧ (d = 0 → num = 0 ∧ l = []).
Proof.
  intros Hb. revert num. induction fuel as [|fuel IH]; intros num Hn Hf; [done|]. cbn [digits].
  case_bool_decide as H.
  - destruct (div_digits fuel num base) as [? ?]; [lia..|].
    destruct (IH (num / base)) as (d & l & E & Hd); [done..|].
    exists d, (l ++ [num mod base]). rewrite E. split; [done|].
    intros [Hq _]%Hd. apply Z.div_small_iff in Hq; lia.
  - exists (num mod base), []. split; [done|]. rewrite Z.mod_small by lia. done.
Qed.

Definition padded (width padc : Z) (l : list Z) : list Z :=
  replicate (Z.to_nat (width - Z.of_nat (length l))) padc ++ l.

Section numbers.
Context {S : Type} (putch : Z → M S unit).

Lemma printnum_run fuel num base width padc s :
  2 ≤ base → 0 ≤ num < base ^ Z.of_nat fuel → fuel ≠ 0%nat →
  printnum putch fuel num base width padc s =
  put_all putch (padded width padc (hexdigit <$> digits fuel num base)) s.
Proof.
  intros Hb. revert num width s. induction fuel as [|fuel IH]; intros num width s Hn Hf; [done|].
  cbn [printnum digits]. unfold padded. rewrite fmap_app, length_app, length_fmap. simpl length.
  rewrite app_assoc, put_all_app. case_bool_decide as H.
  - destruct (div_digits fuel num base) as [? ?]; [lia..|].
    unfold mbind, M_bind. rewrite IH by done. unfold padded. rewrite length_fmap.
    replace (width - 1 - Z.of_nat (length (digits fuel (num / base) base))) with
      (width - Z.of_nat (length (digits fuel (num / base) base) + 1)) by lia.
    destruct (put_all putch _ s) as [[]|]; [|done]. simpl. unfold mbind, M_bind.
    by destruct (putch _ _) as [[[]]|].
  - simpl fmap. rewrite app_nil_r. simpl length. unfold mbind, M_bind. rewrite <- putn_put_all.
    replace (width - Z.of_nat (0 + 1)) with (width - 1) by lia.
    destruct (putn putch _ padc s) as [[]|]; [|done]. simpl. unfold mbind, M_bind.
    by destruct (putch _ _) as [[[]]|].
Qed.
End numbers.

(** ** What is read back *)

Lemma digit_hexdigit d : 0 ≤ d < 16 → digit (i8 (hexdigit d)) = Some d ∧ 0 < hexdigit d < 2 ^ 8.
Proof.
  intros Hd.
  assert (Hc : Forall (λ d, digit (i8 (hexdigit d)) = Some d ∧ 0 < hexdigit d < 2 ^ 8) (seqZ 0 16)).
  { apply (bool_decide_eq_true_1 _). vm_compute. reflexivity. }
  rewrite Forall_forall in Hc. apply Hc, elem_of_seqZ. lia.
Qed.

Lemma strtol_digits_run fuel m s base val ds :
  2 ≤ base ≤ 16 → Forall (λ d, 0 ≤ d < base) ds → stored m s ((hexdigit <$> ds) ++ [0]) →
  (length ds < fuel)%nat →
  strtol_digits fuel s base (i32 val) m =
  Ok ((s + Z.of_nat (length ds), i32 (foldl (λ v d, v * base + d) val ds)), m).
Proof.
  intros Hb. revert s val fuel. induction ds as [|d ds IH]; intros s val [|fuel] Hd Hs Hf;
    simpl in Hf; [lia| |lia|].
  - cbn [strtol_digits]. destruct Hs as [Hs _]. rewrite (bind_Ok _ _ _ _ _ (load8_ok _ _ _ Hs)).
    simpl. by rewrite Z.add_0_r.
  - apply Forall_cons in Hd as [Hd Hds]. destruct Hs as [Hc Hs].
    destruct (digit_hexdigit d) as [Ed _]; [lia|].
    cbn [strtol_digits]. rewrite (bind_Ok _ _ _ _ _ (load8_ok _ _ _ Hc)), Ed.
    rewrite bool_decide_eq_false_2 by lia.
    rewrite i32_mul_l, i32_add_l, IH by (done || lia). cbn [foldl length]. do 3 f_equal. lia.
Qed.

(** A signed number as text: a minus sign and the digits. *)
Definition int_str (x : Z) : list Z :=
  (if bool_decide (x < 0) then [45] else []) ++ (hexdigit <$> digits 64 (Z.abs x) 10).

Lemma abs_bound x : - 2 ^ 31 ≤ x < 2 ^ 31 → 0 ≤ Z.abs x < 10 ^ Z.of_nat 64.
Proof. intros. split; [lia|]. apply Z.lt_le_trans with (2 ^ 32); [lia|]. apply Z.leb_le. vm_compute. reflexivity. Qed.

Lemma strtol_int_str fuel m s x :
  - 2 ^ 31 ≤ x < 2 ^ 31 → stored m s (int_str x ++ [0]) → (12 ≤ fuel)%nat →
  ∃ e, strtol fuel s 10 m = Ok ((x, e), m) ∧ e = s + Z.of_nat (length (int_str x)).
Proof.
  intros Hx Hs Hf. pose proof (abs_bound x Hx) as Ha.
  pose proof (digits_range 64 (Z.abs x) 10 ltac:(lia)) as Hr.
  pose proof (digits_value 64 (Z.abs x) 10 ltac:(lia) Ha ltac:(done)) as Hv.
  pose proof (digits_length 64 (Z.abs x) 10 10 ltac:(lia) ltac:(lia) ltac:(done)) as Hl.
  destruct (digits_leading 64 (Z.abs x) 10 ltac:(lia) Ha ltac:(done)) as (d & l & Ed & _).
  unfold int_str in *. rewrite Ed in *. clear Ed. apply Forall_cons in Hr as Hr'.
  destruct Hr' as [Hd _].
  assert (Hh : ∃ c, c = hexdigit d ∧ 48 ≤ c ≤ 57).
  { eexists. split; [done|]. unfold hexdigit. rewrite bool_decide_eq_true_2; lia. }
  destruct Hh as (c & Hc & Rc).
  exists (s + Z.of_nat (length ((if bool_decide (x < 0) then [45] else []) ++ (hexdigit <$> d :: l)))).
  split; [|done].
  (* where the digits start, and what the sign reader does *)
  set (s1 := if bool_decide (x < 0) then s + 1 else s).
  assert (H1 : stored m s1 ((hexdigit <$> d :: l) ++ [0])).
  { subst s1. case_bool_decide; simpl in Hs; [apply Hs|done]. }
  assert (Hs1 : m !! s1 = Some c) by (rewrite Hc; apply H1).
  assert (Hb : ∃ b, m !! s = Some b ∧ is_blank b = false ∧
                    (if bool_decide (b = 43) then (s + 1, false)
                     else if bool_decide (b = 45) then (s + 1, true) else (s, false)) =
                    (s1, bool_decide (x < 0))).
  { subst s1. case_bool_decide.
    - exists 45. split_and!; [apply Hs|done..].
    - exists c. split_and!; [done| |].
      + unfold is_blank. rewrite !bool_decide_eq_false_2 by lia. done.
      + rewrite !bool_decide_eq_false_2 by lia. done. }
  destruct Hb as (b & Hb & Hbl & Hsign).
  unfold strtol.
  assert (Hskip : skip_blanks fuel s m = Ok (s, m)).
  { destruct fuel; [lia|]. simpl. rewrite (bind_Ok _ _ _ _ _ (load8_ok _ _ _ Hb)), Hbl. done. }
  rewrite (bind_Ok _ _ _ _ _ Hskip), (bind_Ok _ _ _ _ _ (load8_ok _ _ _ Hb)), Hsign.
  rewrite (bind_Ok _ _ _ _ _ (load8_ok _ _ _ Hs1)).
  rewrite (bind_Ok _ _ m (s1, 10) m)
    by (rewrite !(bool_decide_eq_false_2 (10 = _)) by lia; by destruct (bool_decide (c = 48))).
  pose proof (strtol_digits_run fuel m s1 10 0 (d :: l)) as Hrun.
  change (i32 0) with 0 in Hrun.
  rewrite (bind_Ok _ _ _ _ _ (Hrun ltac:(lia) Hr H1 ltac:(lia))).
  unfold mret, M_ret, value in *. rewrite Hv. do 3 f_equal.
  - destruct (bool_decide_reflect (x < 0)); [rewrite i32_opp|]; rewrite i32_small; lia.
  - subst s1. destruct (bool_decide_reflect (x < 0)); rewrite ?length_app, ?length_fmap; simpl; rewrite ?length_fmap; lia.
Qed.

Lemma vprintfmt_S {S} (rd : Z → M S Z) putch fuel fmt pos ap s :
  vprintfmt rd putch (Datatypes.S fuel) fmt pos ap s =
  (ch ← fmt pos;
   if bool_decide (ch = 37) then
     r ← reswitch rd putch fuel fmt (pos + 1) ap 32 (-1) (-1) 0 false;
     vprintfmt rd putch fuel fmt r.1 r.2
   else if bool_decide (ch = 0) then mret tt
   else putch ch ;; vprintfmt rd putch fuel fmt (pos + 1) ap) s.
Proof. reflexivity. Qed.

(** Formatting with "%d". *)
Section percent_d.
Context {S : Type} (rd : Z → M S Z) (putch : Z → M S unit).

Lemma vprintfmt_percent_d fuel fmt x s s' :
  - 2 ^ 31 ≤ x < 2 ^ 31 →
  fmt 0 s = Ok (37, s) → fmt 1 s = Ok (100, s) →
  put_all putch (int_str x) s = Ok (tt, s') → fmt 2 s' = Ok (0, s') →
  vprintfmt rd putch (Datatypes.S (Datatypes.S (Datatypes.S fuel))) fmt 0 [u32 x] s = Ok (tt, s').
Proof.
  intros Hx E0 E1 Hp E2.
  set (n := Datatypes.S fuel).
  assert (Hr : reswitch rd putch (Datatypes.S n) fmt 1 [u32 x] 32 (-1) (-1) 0 false s =
               Ok ((2, []), s')).
  { cbn [reswitch]. cbv zeta. rewrite (bind_Ok _ _ _ _ _ E1).
    rewrite !(bool_decide_eq_false_2 (100 = _)) by lia.
    rewrite (bool_decide_eq_false_2 (49 ≤ 100 ≤ 57)) by lia.
    rewrite (bool_decide_eq_true_2 (100 = 100)) by done.
    assert (Eg : getint [u32 x] 0 s = Ok ((x, []), s)).
    { unfold getint. rewrite !bool_decide_eq_false_2 by lia. unfold va_int, mbind, M_bind. simpl.
      unfold mret, M_ret. rewrite (u32_small (u32 x)) by apply u32_range.
      by rewrite i32_u32, i32_small. }
    rewrite (bind_Ok _ _ _ _ _ Eg). cbn [fst snd].
    unfold int_str in Hp. rewrite put_all_app in Hp. apply bind_Ok_inv in Hp as ([] & s1 & H1 & H2).
    assert (Hm : ((if bool_decide (x < 0) then putch 45 else mret tt) : M S unit) s = Ok (tt, s1)).
    { destruct (bool_decide (x < 0)); [|done]. simpl in H1.
      apply bind_Ok_inv in H1 as ([] & s2 & H3 & [= ->]). done. }
    rewrite (bind_Ok _ _ _ _ _ Hm).
    replace (u64 (if bool_decide (x < 0) then - x else x)) with (Z.abs x).
    2:{ destruct (bool_decide_reflect (x < 0)); rewrite u64_small; lia. }
    assert (Hn : printnum putch 64 (Z.abs x) 10 (-1) 32 s1 = Ok (tt, s')).
    { rewrite printnum_run; [|lia|by apply abs_bound|done].
      unfold padded. by replace (Z.to_nat _) with 0%nat by lia. }
    by rewrite (bind_Ok _ _ _ _ _ Hn). }
  change (vprintfmt rd putch (Datatypes.S (Datatypes.S n)) fmt 0 [u32 x] s = Ok (tt, s')).
  rewrite vprintfmt_S, (bind_Ok _ _ _ _ _ E0).
  rewrite (bool_decide_eq_true_2 (37 = 37)) by done.
  rewrite (bind_Ok _ _ _ _ _ Hr). cbn [fst snd].
  by rewrite vprintfmt_S, (bind_Ok _ _ _ _ _ E2).
Qed.
End percent_d.

(** ** The string buffer *)

Lemma sp_load8_ok m b a c : m !! a = Some c → sp_mem (load8 a) (m, b) = Ok (c, (m, b)).
Proof. intros H. unfold sp_mem. simpl. by rewrite (load8_ok _ _ _ H). Qed.

Lemma sprintputch_room ch m b e c m1 :
  b < e → store8 b ch m = Ok (tt, m1) →
  sprintputch ch (m, Sprintbuf b e c) = Ok (tt, (m1, Sprintbuf (b + 1) e (i32 (c + 1)))).
Proof.
  intros H E. unfold sprintputch. run_step. cbn [snd fst sb_buf sb_ebuf sb_cnt].
  rewrite bool_decide_eq_true_2 by done. unfold mbind, M_bind, sp_mem, modify. cbn [fst snd].
  by rewrite E.
Qed.

Lemma sprintputch_full ch m b e c :
  e ≤ b → sprintputch ch (m, Sprintbuf b e c) = Ok (tt, (m, Sprintbuf b e (i32 (c + 1)))).
Proof.
  intros H. unfold sprintputch. run_step. cbn [snd fst sb_buf sb_ebuf sb_cnt].
  by rewrite bool_decide_eq_false_2 by lia.
Qed.

(** Characters go to the buffer as long as there is room; all are counted. *)
Lemma sput_run l m b e c :
  b ≤ e → valid m b (e - b) → - 2 ^ 31 ≤ c < 2 ^ 31 →
  ∃ m', put_all sprintputch l (m, Sprintbuf b e c) =
          Ok (tt, (m', Sprintbuf (b + Z.min (Z.of_nat (length l)) (e - b)) e
                         (i32 (c + Z.of_nat (length l))))) ∧
        filled m m' b (Z.min (Z.of_nat (length l)) (e - b)) (λ i, u8 <$> l !! Z.to_nat i).
Proof.
  revert m b c. induction l as [|ch l IH]; intros m b c Hbe Hv Hc.
  { exists m. simpl. rewrite Z.add_0_r, i32_small, Z.min_l, Z.add_0_r by lia.
    split; [done|apply filled_nil]. }
  cbn [put_all length]. destruct (decide (b < e)) as [Hlt|Hge].
  - destruct (store8_ok m b ch) as (m1 & E1 & _ & F1); [apply Hv; lia|].
    destruct (IH m1 (b + 1) (i32 (c + 1))) as (m' & E & F); [lia| |apply i32_range|].
    { intros i ?. eapply (filled_valid m m1 _ _ _ b); [done|eauto|done|lia]. }
    exists m'. split.
    + rewrite (bind_Ok _ _ _ _ _ (sprintputch_room ch m b e c m1 Hlt E1)), E, i32_add_l.
      do 4 f_equal; [lia|f_equal; lia].
    + replace (Z.min (Z.of_nat (Datatypes.S (length l))) (e - b)) with
        (1 + Z.min (Z.of_nat (length l)) (e - (b + 1))) by lia.
      eapply (filled_app m m1 m'); [lia..| |exact F|].
      * intros a. rewrite F1. destruct (bool_decide_reflect (b ≤ a < b + 1)); [|reflexivity].
        by replace (a - b) with 0 by lia.
      * intros i ?. cbv beta. by replace (Z.to_nat (1 + i)) with (Datatypes.S (Z.to_nat i)) by lia.
  - replace b with e in * by lia. rewrite Z.sub_diag, Z.min_r, Z.add_0_r by lia.
    destruct (IH m e (i32 (c + 1))) as (m' & E & F); [lia|done|apply i32_range|].
    rewrite Z.sub_diag, Z.min_r in E, F by lia. rewrite Z.add_0_r in E.
    exists m'. split; [|intros a; rewrite F, !bool_decide_eq_false_2 by lia; done].
    rewrite (bind_Ok _ _ _ _ _ (sprintputch_full ch m e e c ltac:(lia))), E, i32_add_l.
    do 4 f_equal. f_equal. lia.
Qed.

(** The bytes outside the buffer are read as they were. *)
Lemma sp_load8_follows m m0 b e a :
  b ≤ e → valid m b (e - b) → (∀ a c, m0 !! a = Some c → m !! a = Some c ∧ ¬ (b ≤ a < e)) →
  follows (reached sprintputch (m, Sprintbuf b e 0)) (out_rd m0 a) (sp_mem (load8 a)).
Proof.
  intros Hbe Hv Hm l s c l' HR H. unfold out_rd in H. destruct (m0 !! a) as [c'|] eqn:Ea; [|done].
  injection H as <- <-. exists s. split; [|done]. destruct (Hm a c' Ea) as [Hc Hout].
  destruct (sput_run l m b e 0) as (m' & E & F); [done|done|lia|]. unfold reached in HR.
  rewrite HR in E. injection E as ->. apply sp_load8_ok.
  rewrite (filled_out _ _ _ _ _ _ F); [done|lia].
Qed.

(** C36: [vsnprintf] prints what the format stands for, never writes outside the [n]
    bytes it was given and always terminates the string: for every format and
    arguments whose output [out] can be computed from memory that the buffer does not
    overlap, it returns; the bytes at [buf] are the longest prefix of [out] that
    leaves room for the zero, and the result is the length of all of [out]. *)
Theorem vsnprintf_keeps_prefix fuel buf n fmt ap m m0 out :
  buf ≠ 0 → 1 ≤ n → valid m buf n →
  (∀ a c, m0 !! a = Some c → m !! a = Some c ∧ ¬ (buf ≤ a < buf + n)) →
  formatted m0 fuel fmt ap = Ok out →
  ∃ m', vsnprintf fuel buf n fmt ap m = Ok (i32 (Z.of_nat (length out)), m') ∧
    (∀ i, 0 ≤ i < Z.min (Z.of_nat (length out)) (n - 1) → m' !! (buf + i) = u8 <$> out !! Z.to_nat i) ∧
    m' !! (buf + Z.min (Z.of_nat (length out)) (n - 1)) = Some 0 ∧
    (∀ a, ¬ (buf ≤ a < buf + n) → m' !! a = m !! a).
Proof.
  intros Hb Hn Hv Hm H. set (s0 := (m, Sprintbuf buf (buf + n - 1) 0)).
  assert (Hv' : valid m buf (buf + n - 1 - buf)) by (intros i ?; apply Hv; lia).
  assert (Hrd : ∀ a, follows (reached sprintputch s0) (out_rd m0 a) (sp_mem (load8 a))).
  { intros a. apply sp_load8_follows; [lia|done|]. intros b c Hc. destruct (Hm b c Hc). split; [done|lia]. }
  destruct (format_out_follows m0 (λ a, sp_mem (load8 a)) sprintputch (reached sprintputch s0)
    Hrd) with (fuel := fuel) (fmt1 := λ i, out_rd m0 (fmt + i)) (fmt2 := λ i, sp_mem (load8 (fmt + i)))
    (ap := ap) (out := out) (s := s0) as (s1 & Erun & HR); [|by intros j|done|done|].
  { intros c. apply reached_putch. intros l.
    destruct (sput_run l m buf (buf + n - 1) 0) as (m' & E & _); [lia|done|lia|]. eauto. }
  destruct (sput_run out m buf (buf + n - 1) 0) as (m1 & E1 & F1); [lia|done|lia|].
  unfold reached in HR. fold s0 in E1. rewrite HR in E1. injection E1 as ->.
  replace (buf + n - 1 - buf) with (n - 1) in * by lia.
  set (k := Z.min (Z.of_nat (length out)) (n - 1)) in *.
  destruct (store8_ok m1 (buf + k) 0) as (m3 & E3 & _ & F3).
  { eapply (filled_valid m m1 _ _ _ buf n); [done| |done|lia].
    intros i ?. apply fmap_is_Some, lookup_lt_is_Some. lia. }
  exists m3. split_and!.
  - unfold vsnprintf. rewrite (bool_decide_eq_false_2 (buf = 0)), (bool_decide_eq_false_2 (n < 1)) by lia.
    cbn [orb]. run_step. fold s0. rewrite (bind_Ok _ _ _ _ _ (lift_Ok _ _ _ Erun)).
    run_step. cbn [sb_buf sb_cnt]. by rewrite (bind_Ok _ _ _ _ _ E3).
  - intros i ?. rewrite (filled_out _ _ _ _ _ _ F3) by lia.
    rewrite (filled_in _ _ _ _ _ _ F1) by lia. by replace (buf + i - buf) with i by lia.
  - rewrite (filled_in _ _ _ _ _ _ F3) by lia. done.
  - intros a ?. rewrite (filled_out _ _ _ _ _ _ F3) by lia. apply (filled_out _ _ _ _ _ _ F1). lia.
Qed.

Lemma stored_lookup m p l :
  (∀ i, (i < length l)%nat → m !! (p + Z.of_nat i) = l !! i) → stored m p l.
Proof.
  revert p. induction l as [|c l IH]; intros p H; [done|].
  split; [rewrite <- (Z.add_0_r p); apply (H 0%nat); simpl; lia|].
  apply IH. intros i ?. rewrite <- Z.add_assoc.
  replace (1 + Z.of_nat i) with (Z.of_nat (S i)) by lia. apply (H (S i)). simpl. lia.
Qed.

Lemma int_str_bytes x : Forall (λ c, u8 c = c) (int_str x).
Proof.
  unfold int_str. apply Forall_app. split; [by destruct (bool_decide (x < 0)); repeat constructor|].
  apply Forall_fmap. eapply Forall_impl; [apply (digits_range 64 (Z.abs x) 10); lia|].
  intros d Hd. simpl in *. apply u8_small. destruct (digit_hexdigit d); lia.
Qed.

Lemma int_str_length x : - 2 ^ 31 ≤ x < 2 ^ 31 → (length (int_str x) ≤ 11)%nat.
Proof.
  intros Hx. unfold int_str. rewrite length_app, length_fmap.
  pose proof (digits_length 64 (Z.abs x) 10 10 ltac:(lia) ltac:(lia) ltac:(done)).
  revert H. generalize (length (digits 64 (Z.abs x) 10)). intros k ?.
  destruct (bool_decide (x < 0)); simpl; lia.
Qed.

Lemma snprintf_percent_d fuel m buf n fmt x :
  cstr m fmt (codes "%d") → buf ≠ 0 → 12 ≤ n → valid m buf n →
  fmt + 3 ≤ buf ∨ buf + n ≤ fmt → - 2 ^ 31 ≤ x < 2 ^ 31 →
  ∃ m', snprintf (S (S (S fuel))) buf n fmt [u32 x] m = Ok (Z.of_nat (length (int_str x)), m') ∧
        stored m' buf (int_str x ++ [0]).
Proof.
  intros [_ Hf] Hb Hn Hv Hd Hx. simpl in Hf. destruct Hf as (F0 & F1 & F2 & _).
  pose proof (int_str_length x Hx) as Hl. set (out := int_str x) in *.
  destruct (sput_run out m buf (buf + n - 1) 0) as (m1 & E1 & G1); [lia|intros i ?; apply Hv; lia|lia|].
  rewrite Z.min_l in G1 by lia. rewrite Z.min_l, Z.add_0_l, i32_small in E1 by lia.
  assert (Ev : vprintfmt (λ a, sp_mem (load8 a)) sprintputch (S (S (S fuel)))
                 (λ i, sp_mem (load8 (fmt + i))) 0 [u32 x] (m, Sprintbuf buf (buf + n - 1) 0) =
               Ok (tt, (m1, Sprintbuf (buf + Z.of_nat (length out)) (buf + n - 1)
                              (Z.of_nat (length out))))).
  { apply vprintfmt_percent_d; [done| | |exact E1|].
    - apply sp_load8_ok. by rewrite Z.add_0_r.
    - by apply sp_load8_ok.
    - apply sp_load8_ok. rewrite (filled_out _ _ _ _ _ _ G1) by lia.
      by replace (fmt + 2) with (fmt + 1 + 1) by lia. }
  destruct (store8_ok m1 (buf + Z.of_nat (length out)) 0) as (m2 & E2 & _ & G2).
  { eapply (filled_valid m m1 _ _ _ buf n); [done| |done|lia].
    intros i ?. apply fmap_is_Some, lookup_lt_is_Some. lia. }
  exists m2. split.
  - unfold snprintf, vsnprintf.
    rewrite (bool_decide_eq_false_2 (buf = 0)), (bool_decide_eq_false_2 (n < 1)) by lia.
    change (false || false) with false. cbv iota. run_step. rewrite (bind_Ok _ _ _ _ _ (lift_Ok _ _ _ Ev)).
    cbv iota beta. run_step. cbn [sb_buf sb_cnt]. by rewrite (bind_Ok _ _ _ _ _ E2).
  - apply stored_lookup. intros i Hi. rewrite length_app in Hi. simpl in Hi.
    destruct (decide (i = length out)) as [->|Hne].
    + rewrite (filled_in _ _ _ _ _ _ G2) by lia.
      rewrite lookup_app_r by lia. by rewrite Nat.sub_diag.
    + rewrite (filled_out _ _ _ _ _ _ G2), (filled_in _ _ _ _ _ _ G1) by lia.
      rewrite lookup_app_l by lia. replace (Z.to_nat _) with i by lia.
      destruct (lookup_lt_is_Some_2 out i) as [c Hc]; [lia|]. rewrite Hc. simpl. f_equal.
      apply (Forall_lookup_1 _ _ _ _ (int_str_bytes x) Hc).
Qed.

(** C37: Round trip: printing any machine integer with "%d" into a buffer of twelve
    bytes or more and reading it back with [strtol] in base 10 gives the integer,
    the smallest negative one included, and the end pointer is at the terminator. *)
Theorem snprintf_strtol_roundtrip fuel fuel' m buf n fmt x :
  cstr m fmt (codes "%d") → buf ≠ 0 → 12 ≤ n → valid m buf n →
  fmt + 3 ≤ buf ∨ buf + n ≤ fmt → - 2 ^ 31 ≤ x < 2 ^ 31 →
  (3 ≤ fuel)%nat → (12 ≤ fuel')%nat →
  ∃ m', let r := Z.of_nat (length (int_str x)) in
    snprintf fuel buf n fmt [u32 x] m = Ok (r, m') ∧ stored m' buf (int_str x ++ [0]) ∧
    strtol fuel' buf 10 m' = Ok ((x, buf + r), m').
Proof.
  intros Hf Hb Hn Hv Hd Hx H3 H12.
  destruct fuel as [|[|[|fuel]]]; [lia..|].
  destruct (snprintf_percent_d fuel m buf n fmt x Hf Hb Hn Hv Hd Hx) as (m' & E & Hs).
  exists m'. destruct (strtol_int_str fuel' m' buf x Hx Hs H12) as (e & Es & ->). by split_and!.
Qed.

(** ** The line buffer of printf *)

(** Everything put so far: what was written and what waits in the buffer. *)
Definition pf_all (s : pf_state) : list Z :=
  pf_written s ++ take (Z.to_nat (pb_idx (pf_b s))) (pb_buf (pf_b s)).

Definition pf_inv (s : pf_state) : Prop :=
  length (pb_buf (pf_b s)) = 256%nat ∧ 0 ≤ pb_idx (pf_b s) < 255 ∧
  - 2 ^ 31 ≤ pb_cnt (pf_b s) < 2 ^ 31.

Lemma pf_putch_ok c s :
  pf_inv s →
  ∃ s', pf_putch c s = Ok (tt, s') ∧ pf_inv s' ∧ pf_mem s' = pf_mem s ∧
        pf_all s' = pf_all s ++ [u8 c] ∧ pb_cnt (pf_b s') = i32 (pb_cnt (pf_b s) + 1).
Proof.
  intros (Hl & Hi & Hc). destruct s as [m [idx cnt buf] w]. cbn [pf_b pb_idx pb_cnt pb_buf] in *.
  assert (Ht : take (Z.to_nat (idx + 1)) (<[Z.to_nat idx := u8 c]> buf) =
               take (Z.to_nat idx) buf ++ [u8 c]).
  { replace (Z.to_nat (idx + 1)) with (S (Z.to_nat idx)) by lia.
    erewrite take_S_r by (apply list_lookup_insert_eq; lia).
    by rewrite take_insert_ge by lia. }
  unfold pf_putch. run_step. cbn [pf_b pb_idx pb_cnt pb_buf].
  rewrite bool_decide_eq_true_2 by lia. pose proof (i32_range (cnt + 1)).
  destruct (decide (idx + 1 = 256 - 1)) as [He|Hne].
  - rewrite bool_decide_eq_true_2 by done. eexists. split; [reflexivity|].
    unfold pf_inv, pf_all. cbn [pf_b pb_idx pb_cnt pb_buf pf_mem pf_written].
    rewrite length_insert, Ht. change (Z.to_nat 0) with 0%nat. rewrite take_0, app_nil_r, app_assoc.
    split_and!; done || lia.
  - rewrite bool_decide_eq_false_2 by done. eexists. split; [reflexivity|].
    unfold pf_inv, pf_all. cbn [pf_b pb_idx pb_cnt pb_buf pf_mem pf_written].
    rewrite length_insert, Ht, app_assoc. split_and!; done || lia.
Qed.

Lemma pf_put_all l s :
  pf_inv s →
  ∃ s', put_all pf_putch l s = Ok (tt, s') ∧ pf_inv s' ∧
        pf_all s' = pf_all s ++ (u8 <$> l) ∧
        pb_cnt (pf_b s') = i32 (pb_cnt (pf_b s) + Z.of_nat (length l)).
Proof.
  revert s. induction l as [|c l IH]; intros s Hs.
  { exists s. rewrite app_nil_r, Z.add_0_r, i32_small by apply Hs. done. }
  destruct (pf_putch_ok c s Hs) as (s1 & E1 & H1 & _ & A1 & C1).
  destruct (IH s1 H1) as (s2 & E2 & H2 & A2 & C2).
  exists s2. split_and!.
  - cbn [put_all]. by rewrite (bind_Ok _ _ _ _ _ E1).
  - done.
  - rewrite A2, A1, <- app_assoc. done.
  - rewrite C2, C1, i32_add_l. f_equal. simpl. lia.
Qed.

Lemma pf_put_mem l s s' : put_all pf_putch l s = Ok (tt, s') → pf_mem s' = pf_mem s.
Proof.
  revert s. induction l as [|c l IH]; intros s; [by intros [= <-]|]. cbn [put_all]. intros H.
  apply bind_Ok_inv in H as ([] & s1 & E & H). rewrite (IH _ H). unfold pf_putch in E.
  apply bind_Ok_inv in E as (? & ? & [= <- <-] & E). case_bool_decide; [|discriminate E].
  apply bind_Ok_inv in E as (x & s2 & E2 & [= <-]). cbn. case_bool_decide; [|by injection E2 as <- <-].
  by injection E2 as <- <-.
Qed.

Lemma pf_rd_follows s a : follows (reached pf_putch s) (out_rd (pf_mem s) a) (pf_rd a).
Proof.
  intros l s' c l' HR H. unfold out_rd in H. destruct (pf_mem s !! a) as [c'|] eqn:Ea; [|done].
  injection H as <- <-. exists s'. split; [|done]. unfold pf_rd. run_step.
  by rewrite (pf_put_mem _ _ _ HR), Ea.
Qed.

(** [printf] loses and reorders nothing: it returns for every format whose output
    can be computed, the bytes given to [write] are exactly that output in order,
    however often the 256-byte buffer was flushed on the way, and the result counts
    them; the buffer is never overrun. *)
Theorem vcprintf_writes_all fuel buf0 fmt ap s out :
  length buf0 = 256%nat → formatted (pf_mem s) fuel fmt ap = Ok out →
  ∃ s', vcprintf fuel buf0 fmt ap s = Ok (i32 (Z.of_nat (length out)), s') ∧
    pf_written s' = pf_written s ++ (u8 <$> out) ∧ pf_mem s' = pf_mem s.
Proof.
  intros Hl H. set (t0 := PfState (pf_mem s) (Printbuf 0 0 buf0) (pf_written s)).
  assert (Hi : pf_inv t0) by (split_and!; simpl; (done || lia)).
  destruct (format_out_follows (pf_mem t0) pf_rd pf_putch (reached pf_putch t0) (pf_rd_follows t0))
    with (fuel := fuel) (fmt1 := λ i, out_rd (pf_mem t0) (fmt + i)) (fmt2 := λ i, pf_rd (fmt + i))
    (ap := ap) (out := out) (s := t0) as (s1 & E1 & HR); [|intros j; apply pf_rd_follows|done|done|].
  { intros c. apply reached_putch. intros l. destruct (pf_put_all l t0 Hi) as (s1 & E & _). eauto. }
  destruct (pf_put_all out t0 Hi) as (s2 & E2 & _ & A2 & C2). pose proof (pf_put_mem _ _ _ HR) as Hm.
  unfold reached in HR. rewrite HR in E2. injection E2 as <-.
  unfold vcprintf, set_pb, modify. run_step. fold t0. rewrite (bind_Ok _ _ _ _ _ E1).
  eexists. split; [|split].
  - unfold gets. run_step. unfold sys_write0, modify. run_step. rewrite C2. reflexivity.
  - cbn [pf_written]. change (pf_all s1 = pf_written s ++ (u8 <$> out)). rewrite A2. unfold pf_all. simpl.
    by rewrite app_nil_r.
  - exact Hm.
Qed.

(** ** printk and the terminal *)

Lemma pk_putch_ok c p m k :
  paper_wf p →
  pk_putch c (PkState m (view p) k) = Ok (tt, PkState m (view (paper_write (u32 c) p)) k) ∧
  paper_wf (paper_write (u32 c) p).
Proof.
  intros Hp. destruct (console_write_run p c Hp) as [E Hw]. split; [|done].
  unfold pk_putch. cbn [pk_console pk_mem pk_cnt]. by rewrite E.
Qed.

(** The roll after a sequence of characters. *)
Definition paper_puts (l : list Z) (p : paper) : paper :=
  foldl (λ p c, paper_write (u32 c) p) p l.

Lemma pk_put_all l p m k :
  paper_wf p →
  put_all pk_putch l (PkState m (view p) k) = Ok (tt, PkState m (view (paper_puts l p)) k) ∧
  paper_wf (paper_puts l p).
Proof.
  revert p. induction l as [|c l IH]; intros p Hp; [done|].
  destruct (pk_putch_ok c p m k Hp) as [E Hw]. destruct (IH _ Hw) as [E' Hw']. split; [|done].
  cbn [put_all]. by rewrite (bind_Ok _ _ _ _ _ E).
Qed.

Lemma pk_rd_follows m p k a :
  paper_wf p → follows (reached pk_putch (PkState m (view p) k)) (out_rd m a) (pk_rd a).
Proof.
  intros Hp l s c l' HR H. unfold out_rd in H. destruct (m !! a) as [c'|] eqn:Ea; [|done].
  injection H as <- <-. exists s. split; [|done]. unfold reached in HR.
  rewrite (proj1 (pk_put_all l p m k Hp)) in HR. injection HR as <-. unfold pk_rd. run_step.
  cbn [pk_mem]. by rewrite Ea.
Qed.

(** [printk] writes the output of its format to the console and always returns 0: its
    [putch] increments the pointer to the counter, not the counter. *)
Theorem printk_returns_zero fuel fmt ap m p k out :
  paper_wf p → format_out m fuel (lit fmt) ap = Ok out →
  printk fuel (lit fmt) ap (PkState m (view p) k) = Ok (0, PkState m (view (paper_puts out p)) 0).
Proof.
  intros Hp H. set (s0 := PkState m (view p) 0).
  destruct (format_out_follows m pk_rd pk_putch (reached pk_putch s0)) with (fuel := fuel)
    (fmt1 := lit (S := list Z) fmt) (fmt2 := lit (S := pk_state) fmt) (ap := ap) (out := out) (s := s0)
    as (s1 & E1 & HR); [| | |done|done|].
  { intros a. by apply pk_rd_follows. }
  { intros c. apply reached_putch. intros l. destruct (pk_put_all l p m 0 Hp) as [E _]. eauto. }
  { intros j. apply follows_lit. }
  unfold reached in HR. subst s0. rewrite (proj1 (pk_put_all out p m 0 Hp)) in HR. injection HR as <-.
  unfold printk, vprintf, modify. run_step. cbn [pk_mem pk_console].
  by rewrite (bind_Ok _ _ _ _ _ E1).
Qed.

Lemma pk_rd_ok a m con k c : m !! a = Some c → pk_rd a (PkState m con k) = Ok (c, PkState m con k).
Proof. intros H. unfold pk_rd. run_step. cbn [pk_mem]. by rewrite H. Qed.

(** The string loop under a precision. *)
Lemma put_str_pk fuel l m p k buf i precision width :
  paper_wf p → cstr m (buf + i) l → 0 ≤ precision → (length l < fuel)%nat → width ≤ 0 →
  - 2 ^ 31 ≤ width - Z.of_nat (length l) →
  ∃ width', put_str pk_putch fuel (λ i, pk_rd (buf + i)) i precision width false
              (PkState m (view p) k) =
    Ok (width', PkState m (view (paper_puts (i8 <$> take (Z.to_nat precision) l) p)) k) ∧ width' ≤ 0.
Proof.
  revert l p i precision width. induction fuel as [|fuel IH]; intros l p i precision width Hp Hl Hpr Hf Hw Hr;
    [lia|].
  destruct l as [|c l].
  { exists width. cbn [put_str].
    rewrite (bind_Ok _ _ _ _ _ (pk_rd_ok _ _ _ _ _ (cstr_nil _ _ Hl))). by rewrite take_nil. }
  destruct (cstr_cons _ _ _ _ Hl) as (Ec & Rc & Hl'). cbn [put_str].
  rewrite (bind_Ok _ _ _ _ _ (pk_rd_ok _ _ _ _ _ Ec)).
  assert (Hne : i8 c ≠ 0).
  { unfold i8. intros E. assert ((c + 2 ^ 7) mod 2 ^ 8 = 2 ^ 7) by lia.
    Z.to_euclidean_division_equations; lia. }
  rewrite (bool_decide_eq_false_2 (i8 c = 0)), (bool_decide_eq_false_2 (precision < 0)) by lia.
  cbn [orb andb]. destruct (decide (0 ≤ precision - 1)) as [H1|H1].
  - rewrite bool_decide_eq_true_2 by done.
    destruct (pk_putch_ok (i8 c) p m k Hp) as [E Hw'].
    rewrite (bind_Ok _ _ _ _ _ E). simpl length in *.
    destruct (IH l (paper_write (u32 (i8 c)) p) (i + 1) (precision - 1) (i32 (width - 1)))
      as (w' & E' & ?); rewrite ?i32_small by lia; [done| |lia..|].
    { by replace (buf + (i + 1)) with (buf + i + 1) by lia. }
    exists w'. split; [|done]. rewrite i32_small in E' by lia. rewrite E'.
    replace (Z.to_nat precision) with (S (Z.to_nat (precision - 1))) by lia. done.
  - rewrite bool_decide_eq_false_2 by done. exists width.
    by replace (Z.to_nat precision) with 0%nat by lia.
Qed.

(** [tty_write] puts on the console the characters of the buffer, at most [nr] of
    them and up to a zero byte, and reports [nr]. *)
Theorem tty_write_correct fuel l m p k buf nr :
  paper_wf p → cstr m buf l → 0 < buf < 2 ^ 32 → 0 ≤ nr < 2 ^ 31 →
  (length l + 5 < fuel)%nat → Z.of_nat (length l) < 2 ^ 31 →
  tty_write fuel buf nr (PkState m (view p) k) =
    Ok (nr, PkState m (view (paper_puts (i8 <$> take (Z.to_nat nr) l) p)) 0).
Proof.
  intros Hp Hl Hb Hn Hf Hlen. unfold tty_write, printk, vprintf.
  set (s0 := PkState m (view p) 0).
  destruct fuel as [|[|[|[|[|fuel]]]]]; [lia..|].
  destruct (put_str_pk (S fuel) l m p 0 buf 0 nr 0) as (w & Es & Hw); [done| |lia..|].
  { by rewrite Z.add_0_r. }
  set (s1 := PkState m (view (paper_puts _ p)) 0) in *.
  assert (E : vprintfmt pk_rd pk_putch (S (S (S (S (S fuel))))) (lit "%.*s") 0 [nr; buf] s0 = Ok (tt, s1)).
  { assert (Hs : fmt_string pk_putch (S fuel) (λ i, pk_rd (buf + i)) 32 0 nr false s0 = Ok (tt, s1)).
    { unfold fmt_string. rewrite (bool_decide_eq_false_2 (0 < 0)) by lia. cbn [andb].
      run_step. rewrite (bind_Ok _ _ _ _ _ Es). by replace (Z.to_nat w) with 0%nat by lia. }
    assert (Hr : reswitch pk_rd pk_putch (S (S (S (S fuel)))) (lit "%.*s") 1 [nr; buf] 32 (-1) (-1) 0 false s0 =
                 Ok ((4, []), s1)).
    { change (reswitch pk_rd pk_putch (S (S (S fuel))) (lit "%.*s") 2 [nr; buf] 32 0 (-1) 0 false s0 =
              Ok ((4, []), s1)).
      change ((reswitch pk_rd pk_putch (S (S fuel)) (lit "%.*s") 3 [buf] 32 0 (i32 (u32 nr)) 0 false) s0 =
              Ok ((4, []), s1)).
      rewrite i32_u32, i32_small by lia.
      change ((fmt_string pk_putch (S fuel)
                (if bool_decide (u32 buf = 0) then lit "(null)" else λ i, pk_rd (u32 buf + i))
                32 0 nr false ;; mret (4, @nil Z)) s0 = Ok ((4, []), s1)).
      rewrite u32_small, bool_decide_eq_false_2 by lia. by rewrite (bind_Ok _ _ _ _ _ Hs). }
    rewrite vprintfmt_S, (bind_Ok _ _ _ 37 s0) by reflexivity.
    rewrite bool_decide_eq_true_2 by done.
    rewrite (bind_Ok _ _ _ _ _ Hr), vprintfmt_S. reflexivity. }
  unfold mbind, M_bind. cbn [modify]. unfold modify. cbn [pk_mem pk_console].
  fold s0. by rewrite E.
Qed.

(** ** A memory with the format "%d", a buffer and a string *)

Definition demo_text : bytes :=
  list_to_map (zip (seqZ 100 40) (codes "%d" ++ [0] ++ codes "hello" ++ [0] ++ replicate 31 7)).

Lemma demo_text_valid n : n ≤ 31 → valid demo_text 109 n.
Proof.
  intros ? i ?. apply elem_of_dom.
  assert (Hd : dom demo_text = list_to_set (seqZ 100 40)) by (vm_compute; done).
  rewrite Hd. apply elem_of_list_to_set, elem_of_seqZ. lia.
Qed.

Lemma demo_text_fmt : cstr demo_text 100 (codes "%d").
Proof. split; [repeat constructor; lia|vm_compute; auto 10]. Qed.
Lemma demo_text_hello : cstr demo_text 103 (codes "hello").
Proof. split; [repeat constructor; lia|vm_compute; auto 12]. Qed.

Lemma snprintf_strtol_roundtrip_witness :
  ∃ m', let r := Z.of_nat (length (int_str (- 2 ^ 31))) in
    snprintf 3 109 12 100 [u32 (- 2 ^ 31)] demo_text = Ok (r, m') ∧ stored m' 109 (int_str (- 2 ^ 31) ++ [0]) ∧
    strtol 12 109 10 m' = Ok ((- 2 ^ 31, 109 + r), m').
Proof.
  apply snprintf_strtol_roundtrip;
    [apply demo_text_fmt|lia|lia|apply demo_text_valid; lia|lia|lia|lia|lia].
Defined.

(** The format and the string, without the buffer. *)
Definition demo_format : bytes :=
  list_to_map (zip (seqZ 100 9) (codes "%d" ++ [0] ++ codes "hello" ++ [0])).

Lemma demo_format_sub a c : demo_format !! a = Some c → demo_text !! a = Some c ∧ ¬ (109 ≤ a < 109 + 4).
Proof.
  intros H. assert (Hs : map_Forall (λ a c, demo_text !! a = Some c ∧ ¬ (109 ≤ a < 109 + 4)) demo_format).
  { apply (bool_decide_unpack _). vm_compute. exact I. }
  exact (Hs a c H).
Qed.

(** A buffer of four bytes for "-1234". *)
Lemma vsnprintf_keeps_prefix_witness :
  ∃ m', vsnprintf 5 109 4 100 [u32 (-1234)] demo_text = Ok (5, m') ∧ m' !! 111 = Some 50 ∧ m' !! 112 = Some 0.
Proof.
  destruct (vsnprintf_keeps_prefix 5 109 4 100 [u32 (-1234)] demo_text demo_format (codes "-1234"))
    as (m' & Hrun & Hpre & Hend & _).
  - lia.
  - lia.
  - apply demo_text_valid. lia.
  - exact demo_format_sub.
  - vm_compute. reflexivity.
  - exists m'. split; [exact Hrun|]. split; [apply (Hpre 2); simpl; lia|exact Hend].
Defined.

Lemma vcprintf_writes_all_witness :
  ∃ s', vcprintf 5 (replicate 256 0) 100 [7] (PfState demo_text (Printbuf 0 0 []) []) = Ok (1, s') ∧
    pf_written s' = [55].
Proof.
  destruct (vcprintf_writes_all 5 (replicate 256 0) 100 [7] (PfState demo_text (Printbuf 0 0 []) []) [55])
    as (s' & Hrun & Hw & _).
  - reflexivity.
  - vm_compute. reflexivity.
  - exists s'. split; [exact Hrun|exact Hw].
Defined.

Lemma tty_write_correct_witness :
  tty_write 12 103 3 (PkState demo_text (view fresh) 0) =
    Ok (3, PkState demo_text (view (paper_puts (i8 <$> take (Z.to_nat 3) (codes "hello")) fresh)) 0).
Proof.
  apply tty_write_correct;
    [apply fresh_wf|apply demo_text_hello|lia|lia|simpl; lia|simpl; lia].
Defined.
