(* ===== verification/Malloc.v ===== *)
(** * The heap of user programs: lib/malloc.c, lib/brk.c

    Chunk headers are records at the addresses of the heap; the list links of a
    header are a cell of the heap of KList at its offset 8.  A header can be written
    anywhere between the start and the end of the heap the kernel has granted, and
    nowhere else.  The kernel is the class [Break]: what the system call promises to
    the allocator. *)

From S2P Require Import Prelude KList.

Local Open Scope Z_scope.

(** ** The system call (kernel/syscall/brk.c), as a user program sees it

    A request that does not go beyond the end is answered with the end; one that
    does either moves the end there or is refused with 0.  [Vma.brk] models that call in
    the kernel; the heap is verified against what a program relies on. *)
Class Break (K : Type) := {
  kstart : K → Z;
  kend : K → Z;
  sys_brk : K → Z → Z * K;
  sys_brk_below k e : e ≤ kend k → sys_brk k e = (kend k, k);
  sys_brk_above k e : kend k < e →
    (sys_brk k e).2 = k ∧ (sys_brk k e).1 = 0 ∨
    (sys_brk k e).1 = e ∧ kend (sys_brk k e).2 = e ∧ kstart (sys_brk k e).2 = kstart k;
  kend_bound k : 0 < kstart k ≤ kend k ∧ kend k < 2 ^ 32 - 2 ^ 23;
}.

Definition CHUNK_SIZE : Z := 0x400000.
Definition CHUNK_GAP : Z := 0x1000.
Definition CHUNK_FREE : Z := 1.
Definition CHUNK_INUSE : Z := 2.

(** [sizeof(struct malloc_chunk)] and the offset of its [list]. *)
Definition HDR : Z := 16.
Definition LIST : Z := 8.

Record malloc_chunk := Chunk { size : Z; flag : Z }.

Section malloc.
Context {K : Type} `{!Break K}.

(** The address of [free_list]. *)
Context (free_list : Z).

Record mst := Mst {
  chunks : gmap Z malloc_chunk;
  links : lheap;
  _startbrk : Z;
  _curbrk : Z;
  kern : K }.

Definition MC_DATA (mc : Z) : Z := mc + HDR.
Definition MC_STRUCT (data : Z) : Z := data - HDR.

Definition run_links {A} (o : M lheap A) : M mst A := λ s,
  match o (links s) with
  | Ok (a, l) => Ok (a, Mst (chunks s) l (_startbrk s) (_curbrk s) (kern s))
  | Stop w => Stop w
  end.

Definition load_mc (mc : Z) : M mst malloc_chunk := s ← get; of_option (chunks s !! mc).

(** A write to a header; the links of a header that is new are whatever the memory
    held. *)
Definition store_mc (mc : Z) (c : malloc_chunk) : M mst unit :=
  s ← get;
  if bool_decide (kstart (kern s) ≤ mc) && bool_decide (mc + HDR ≤ kend (kern s)) then
    put (Mst (<[mc := c]> (chunks s))
           (match links s !! (mc + LIST) with
            | Some _ => links s
            | None => <[mc + LIST := mk_list_head 0 0]> (links s)
            end) (_startbrk s) (_curbrk s) (kern s))
  else fault.

(** ** lib/brk.c *)

Definition do_sys_brk (e : Z) : M mst Z := λ s,
  let '(va, k) := sys_brk (kern s) e in
  Ok (va, Mst (chunks s) (links s) (_startbrk s) (_curbrk s) k).

Definition set_brks (st cur : Z) : M mst unit :=
  modify (λ s, Mst (chunks s) (links s) st cur (kern s)).

Definition brk (end_data_segment : Z) : M mst Z :=
  s ← get;
  (if bool_decide (_startbrk s = 0) then
     st ← do_sys_brk 0;
     set_brks st st
   else mret tt) ;;
  va ← do_sys_brk end_data_segment;
  s ← get;
  (if bool_decide (va = end_data_segment) then set_brks (_startbrk s) va else mret tt) ;;
  mret va.

Definition sbrk (inc : Z) : M mst Z :=
  s ← get;
  (if bool_decide (_curbrk s = 0) then brk 0 ;; mret tt else mret tt) ;;
  tmp ← gets _curbrk;
  va ← brk (u32 (tmp + inc));
  if bool_decide (va ≠ 0) then mret tmp else mret 0.

(** ** lib/malloc.c *)

(** [list_for_each_entry_reverse] with the early return; [pos] is a link. *)
Fixpoint find_malloc_loop (fuel : nat) (pos sz : Z) : M mst Z :=
  match fuel with
  | O => stop_with OutOfFuel
  | S fuel =>
      if bool_decide (pos = free_list) then mret 0
      else
        c ← load_mc (pos - LIST);
        if bool_decide (flag c = CHUNK_FREE) && bool_decide (sz ≤ size c) then mret (pos - LIST)
        else
          l ← run_links (load pos);
          find_malloc_loop fuel (prev l) sz
  end.

Definition find_malloc (fuel : nat) (sz : Z) : M mst Z :=
  l ← run_links (load free_list);
  find_malloc_loop fuel (prev l) sz.

Definition split_malloc (mc sz : Z) : M mst unit :=
  c ← load_mc mc;
  if bool_decide (u32 (size c - sz) < CHUNK_GAP) then mret tt
  else
    let newmc := mc + sz + HDR in
    store_mc newmc (Chunk (u32 (size c - sz - HDR)) CHUNK_FREE) ;;
    run_links (INIT_LIST_HEAD (newmc + LIST)) ;;
    run_links (list_add (newmc + LIST) (mc + LIST)) ;;
    store_mc mc (Chunk sz (flag c)).

(** [prev] and [next] are read before anything changes; 0 is NULL. *)
Definition merger_malloc (mc : Z) : M mst unit :=
  last ← run_links (list_is_last (mc + LIST) free_list);
  l ← run_links (load (mc + LIST));
  let nx := if last : bool then 0 else next l - LIST in
  first ← run_links (list_is_first (mc + LIST) free_list);
  let pv := if first : bool then 0 else prev l - LIST in
  mc ← (if bool_decide (pv = 0) then mret mc
        else
          p ← load_mc pv;
          if bool_decide (flag p = CHUNK_FREE) then
            c ← load_mc mc;
            store_mc pv (Chunk (u32 (size p + size c + HDR)) (flag p)) ;;
            run_links (list_del (mc + LIST)) ;;
            mret pv
          else mret mc);
  if bool_decide (nx = 0) then mret tt
  else
    n ← load_mc nx;
    if bool_decide (flag n = CHUNK_FREE) then
      c ← load_mc mc;
      store_mc mc (Chunk (u32 (size c + size n + HDR)) (flag c)) ;;
      run_links (list_del (nx + LIST))
    else mret tt.

Definition extend_malloc : M mst Z :=
  va ← sbrk CHUNK_SIZE;
  if bool_decide (va ≠ 0) then
    store_mc va (Chunk (CHUNK_SIZE - HDR) CHUNK_FREE) ;;
    run_links (INIT_LIST_HEAD (va + LIST)) ;;
    run_links (list_add_tail (va + LIST) free_list) ;;
    merger_malloc va ;;
    mret va
  else mret 0.

(** [n] bounds the rounds of [goto find_mc], [fuel] the length of the list. *)
Fixpoint malloc (n fuel : nat) (sz : Z) : M mst Z :=
  match n with
  | O => stop_with OutOfFuel
  | S n =>
      mc ← find_malloc fuel sz;
      if bool_decide (mc = 0) then
        mc ← extend_malloc;
        if bool_decide (mc = 0) then mret 0 else malloc n fuel sz
      else
        split_malloc mc sz ;;
        c ← load_mc mc;
        store_mc mc (Chunk (size c) CHUNK_INUSE) ;;
        mret (MC_DATA mc)
  end.

Definition free (obj : Z) : M mst unit :=
  if bool_decide (obj = 0) then mret tt
  else
    let mc := MC_STRUCT obj in
    c ← load_mc mc;
    store_mc mc (Chunk (size c) CHUNK_FREE) ;;
    merger_malloc mc.
End malloc.
