(* ===== verification/MallocProofs.v ===== *)
(** * The user heap is a row of chunks

    The list threaded through the headers is the row of chunks in address order:
    they tile the heap from its first chunk to the break without gaps, and no two
    neighbours are free.  Allocation and release are specified on the blocks in
    use. *)

From S2P Require Import Prelude KList Malloc.

Local Open Scope Z_scope.

Abbreviation row := (list (Z * malloc_chunk)).

Definition node (x : Z * malloc_chunk) : Z := x.1 + LIST.

Definition is_free (x : Z * malloc_chunk) : bool := bool_decide (flag x.2 = CHUNK_FREE).

(** The chunks of the row fill [lo, hi). *)
Fixpoint tiles (lo : Z) (cs : row) (hi : Z) : Prop :=
  match cs with
  | [] => lo = hi
  | x :: cs => x.1 = lo ∧ 0 ≤ size x.2 ∧ tiles (lo + HDR + size x.2) cs hi
  end.

(** No two neighbours are free. *)
Fixpoint tidy (cs : row) : Prop :=
  match cs with
  | x :: ((y :: _) as cs') => ¬ (is_free x ∧ is_free y) ∧ tidy cs'
  | _ => True
  end.

(** The blocks in use: address of the data and size. *)
Definition live (cs : row) : list (Z * Z) :=
  (λ x, (MC_DATA x.1, size x.2)) <$> filter (λ x, negb (is_free x)) cs.

Lemma tiles_app lo cs1 cs2 hi :
  tiles lo (cs1 ++ cs2) hi ↔ ∃ mid, tiles lo cs1 mid ∧ tiles mid cs2 hi.
Proof.
  revert lo. induction cs1 as [|x cs1 IH]; intros lo; simpl.
  - split; [eauto|]. by intros (mid & -> & ?).
  - rewrite IH. naive_solver.
Qed.

Lemma tiles_le lo cs hi : tiles lo cs hi → lo ≤ hi.
Proof.
  revert lo. induction cs as [|x cs IH]; intros lo; simpl; [lia|].
  intros (_ & ? & H%IH). unfold HDR in *. lia.
Qed.

Lemma tiles_bounds lo cs hi x :
  tiles lo cs hi → x ∈ cs → lo ≤ x.1 ∧ 0 ≤ size x.2 ∧ x.1 + HDR + size x.2 ≤ hi.
Proof.
  revert lo. induction cs as [|y cs IH]; intros lo; simpl; [by intros _ ?%elem_of_nil|].
  intros (<- & Hs & Ht) [->|Hx]%elem_of_cons.
  - apply tiles_le in Ht. lia.
  - destruct (IH _ Ht Hx). unfold HDR in *. lia.
Qed.

(** Chunks at different places of the row are apart. *)
Lemma tiles_apart lo cs1 x cs2 y hi :
  tiles lo (cs1 ++ x :: cs2) hi → y ∈ cs1 ++ cs2 →
  y.1 + HDR + size y.2 ≤ x.1 ∨ x.1 + HDR + size x.2 ≤ y.1.
Proof.
  intros (mid & H1 & <- & Hs & H2)%tiles_app [Hy|Hy]%elem_of_app.
  - left. by destruct (tiles_bounds _ _ _ _ H1 Hy) as (_ & _ & ?).
  - right. by destruct (tiles_bounds _ _ _ _ H2 Hy) as (? & _ & _).
Qed.

Lemma tiles_nodes_NoDup lo cs hi : tiles lo cs hi → NoDup (node <$> cs).
Proof.
  revert lo. induction cs as [|x cs IH]; intros lo; simpl; [constructor|].
  intros (Hx & Hs & Ht). apply NoDup_cons. split; [|by eapply IH].
  intros (y & Hy & Hin)%list_elem_of_fmap. unfold node in Hy.
  destruct (tiles_bounds _ _ _ _ Ht Hin). unfold HDR in *. lia.
Qed.

Lemma live_app cs1 cs2 : live (cs1 ++ cs2) = live cs1 ++ live cs2.
Proof. unfold live. by rewrite filter_app, fmap_app. Qed.

Lemma live_free x cs : is_free x = true → live (x :: cs) = live cs.
Proof. intros H. unfold live. rewrite filter_cons_False; [done|]. rewrite H. by intros []. Qed.

Lemma live_used x cs : is_free x = false → live (x :: cs) = (MC_DATA x.1, size x.2) :: live cs.
Proof. intros H. unfold live. rewrite filter_cons_True; [done|]. rewrite H. exact I. Qed.

(** ** Coalescing, on rows *)

Definition join (x y : Z * malloc_chunk) : Z * malloc_chunk :=
  (x.1, Chunk (size x.2 + size y.2 + HDR) (flag x.2)).

Definition join_next (cs1 : row) (x : Z * malloc_chunk) (cs2 : row) : row :=
  match cs2 with
  | n :: cs2' => if is_free n then cs1 ++ join x n :: cs2' else cs1 ++ x :: cs2
  | [] => cs1 ++ [x]
  end.

(** [cs1] is given reversed: its first chunk is the neighbour of [x]. *)
Definition merge_row (rcs1 : row) (x : Z * malloc_chunk) (cs2 : row) : row :=
  match rcs1 with
  | p :: rcs1' => if is_free p then join_next (rev rcs1') (join p x) cs2
                  else join_next (rev rcs1) x cs2
  | [] => join_next [] x cs2
  end.

Lemma tiles_join lo x y cs hi : tiles lo (x :: y :: cs) hi → tiles lo (join x y :: cs) hi.
Proof.
  simpl. intros (Hx & ? & Hy & ? & H). split_and!; [done|unfold HDR; lia|].
  by replace (lo + HDR + (size x.2 + size y.2 + HDR)) with (lo + HDR + size x.2 + HDR + size y.2) by lia.
Qed.

Lemma tiles_join_next lo cs1 x cs2 hi :
  tiles lo (cs1 ++ x :: cs2) hi → tiles lo (join_next cs1 x cs2) hi.
Proof.
  intros H. destruct cs2 as [|n cs2]; [done|]. simpl. destruct (is_free n); [|done].
  apply tiles_app in H as (mid & H1 & H2). apply tiles_app. exists mid.
  split; [done|by apply tiles_join].
Qed.

Lemma tiles_merge lo cs1 x cs2 hi :
  tiles lo (cs1 ++ x :: cs2) hi → tiles lo (merge_row (rev cs1) x cs2) hi.
Proof.
  intros H. destruct cs1 as [|p cs1 _] using rev_ind; [by apply tiles_join_next|].
  rewrite rev_app_distr. simpl. destruct (is_free p).
  - rewrite rev_involutive. apply tiles_join_next.
    rewrite <- app_assoc in H. apply tiles_app in H as (mid & H1 & H2). apply tiles_app. exists mid.
    split; [done|by apply tiles_join].
  - apply tiles_join_next. by rewrite rev_involutive.
Qed.

Lemma live_join_next cs1 x cs2 :
  is_free x = true → live (join_next cs1 x cs2) = live (cs1 ++ x :: cs2).
Proof.
  intros Hx. destruct cs2 as [|n cs2]; [done|]. simpl.
  destruct (is_free n) eqn:Hn; [|done]. rewrite !live_app. f_equal.
  rewrite !live_free; done.
Qed.

Lemma live_merge cs1 x cs2 :
  is_free x = true → live (merge_row (rev cs1) x cs2) = live (cs1 ++ x :: cs2).
Proof.
  intros Hx. destruct cs1 as [|p cs1 _] using rev_ind; [by apply live_join_next|].
  rewrite rev_app_distr. simpl. destruct (is_free p) eqn:Hp.
  - rewrite rev_involutive, live_join_next by done. rewrite <- app_assoc. simpl.
    rewrite !live_app. f_equal. rewrite !live_free; done.
  - rewrite live_join_next by done. by rewrite rev_involutive.
Qed.

(** [tidy] of a row put together at a chunk. *)
Lemma tidy_app cs1 x cs2 : tidy (cs1 ++ x :: cs2) ↔ tidy (cs1 ++ [x]) ∧ tidy (x :: cs2).
Proof. induction cs1 as [|a [|b cs1] IH]; simpl in *; tauto. Qed.

Lemma tidy_snoc_used cs1 x : tidy cs1 → is_free x = false → tidy (cs1 ++ [x]).
Proof.
  intros H Hx. induction cs1 as [|a [|b cs1] IH]; [done| |].
  - simpl. rewrite Hx. naive_solver.
  - destruct H as [? H]. split; [done|]. by apply IH.
Qed.

Lemma tidy_cons_used x cs2 : tidy cs2 → is_free x = false → tidy (x :: cs2).
Proof. intros H Hx. destruct cs2 as [|b cs2]; [done|]. split; [rewrite Hx; naive_solver|done]. Qed.

(** Replace the chunk in the middle by one no freer. *)
Lemma tidy_replace cs1 x y cs2 :
  (is_free y = true → is_free x = true) → tidy (cs1 ++ x :: cs2) → tidy (cs1 ++ y :: cs2).
Proof.
  intros Hxy [H1 H2]%tidy_app. apply tidy_app. split.
  - clear H2. induction cs1 as [|a [|b cs1] IH]; [done| |].
    + simpl in *. destruct (is_free y); naive_solver.
    + destruct H1 as [? H1]. split; [done|]. by apply IH.
  - destruct cs2 as [|b cs2]; [done|]. simpl in *. destruct (is_free y); naive_solver.
Qed.

Lemma tidy_drop x cs : tidy (x :: cs) → tidy cs.
Proof. destruct cs; simpl; tauto. Qed.

Lemma tidy_prefix cs1 x cs2 : tidy (cs1 ++ x :: cs2) → tidy cs1.
Proof.
  intros [H _]%tidy_app. induction cs1 as [|a [|b cs1] IH]; [done|done|].
  destruct H as [? H]. split; [done|]. by apply IH.
Qed.

(** The neighbours of a used chunk can each be free; coalescing it once it is free
    leaves no free neighbours. *)
Lemma tidy_join_next cs1 x cs2 :
  tidy (cs1 ++ [x]) → tidy cs2 → tidy (join_next cs1 x cs2).
Proof.
  intros H1 H2. destruct cs2 as [|n cs2]; [done|]. simpl. destruct (is_free n) eqn:Hn.
  - apply tidy_app. split.
    + apply (tidy_replace cs1 x _ []); [done|]. done.
    + destruct cs2 as [|m cs2]; [done|]. simpl in H2 |- *.
      destruct H2 as [H2 ?]. split; [|done]. rewrite Hn in H2.
      intros [_ Hm]. apply H2. done.
  - apply tidy_app. split; [done|]. split; [rewrite Hn; naive_solver|done].
Qed.

Lemma tidy_merge cs1 x cs2 : tidy cs1 → tidy cs2 → tidy (merge_row (rev cs1) x cs2).
Proof.
  intros H1 H2. destruct cs1 as [|p cs1 _] using rev_ind; [by apply tidy_join_next|].
  rewrite rev_app_distr. simpl. destruct (is_free p) eqn:Hp.
  - rewrite rev_involutive. apply tidy_join_next; [|done].
    by apply (tidy_replace cs1 p _ []).
  - apply tidy_join_next; [|done]. rewrite rev_involutive, <- app_assoc. simpl.
    apply tidy_app. split; [done|]. split; [rewrite Hp; naive_solver|done].
Qed.

Lemma length_merge cs1 x cs2 : (length (merge_row (rev cs1) x cs2) ≤ length cs1 + 1 + length cs2)%nat.
Proof.
  assert (Hn : ∀ cs1 y, (length (join_next cs1 y cs2) ≤ length cs1 + 1 + length cs2)%nat).
  { intros cs y. destruct cs2 as [|n cs2]; simpl; [rewrite length_app; simpl; lia|].
    destruct (is_free n); rewrite length_app; simpl; lia. }
  destruct cs1 as [|p cs1 _] using rev_ind; [apply (Hn [])|].
  rewrite rev_app_distr. simpl. rewrite length_app. simpl.
  destruct (is_free p).
  - specialize (Hn (rev (rev cs1)) (join p x)). rewrite rev_involutive in *. lia.
  - specialize (Hn (rev (rev cs1) ++ [p]) x). rewrite rev_involutive in *.
    rewrite length_app in Hn. simpl in Hn. lia.
Qed.

(** ** The heap represents a row *)

Section rep.
Context {K : Type} `{!Break K} (free_list : Z).

Implicit Types (s : mst (K := K)) (cs : row).

Record rep s cs : Prop := {
  rep_tiles : ∃ lo, kstart (kern s) ≤ lo ∧ tiles lo cs (kend (kern s));
  rep_brk : (_startbrk s = 0 ∧ _curbrk s = 0 ∧ cs = []) ∨
            (_startbrk s ≠ 0 ∧ _curbrk s = kend (kern s));
  rep_list : is_list (links s) free_list (node <$> cs);
  rep_hdr : Forall (λ x, chunks s !! x.1 = Some x.2) cs;
  rep_head : free_list + LIST ≤ kstart (kern s) }.

Lemma rep_bounds s cs x :
  rep s cs → x ∈ cs →
  kstart (kern s) ≤ x.1 ∧ 0 ≤ size x.2 ∧ x.1 + HDR + size x.2 ≤ kend (kern s) ∧
  kend (kern s) < 2 ^ 32 - 2 ^ 23 ∧ 0 < x.1.
Proof.
  intros R Hx. destruct (rep_tiles _ _ R) as (lo & Hlo & Ht).
  destruct (tiles_bounds _ _ _ _ Ht Hx) as (? & ? & ?). destruct (kend_bound (kern s)). lia.
Qed.

Lemma load_mc_ok s mc c : chunks s !! mc = Some c → load_mc mc s = Ok (c, s).
Proof. intros H. unfold load_mc. run_step. by rewrite H. Qed.

Lemma rep_load s cs1 x cs2 : rep s (cs1 ++ x :: cs2) → load_mc x.1 s = Ok (x.2, s).
Proof.
  intros R. apply load_mc_ok. pose proof (rep_hdr _ _ R) as H.
  by apply Forall_app in H as [_ [? _]%Forall_cons].
Qed.

Lemma run_links_ok {A} (o : M lheap A) a l s :
  o (links s) = Ok (a, l) →
  run_links o s = Ok (a, Mst (chunks s) l (_startbrk s) (_curbrk s) (kern s)).
Proof. intros H. unfold run_links. by rewrite H. Qed.

Lemma run_links_read {A} (o : M lheap A) a s :
  o (links s) = Ok (a, links s) → run_links o s = Ok (a, s).
Proof. intros H. rewrite (run_links_ok _ _ _ _ H). by destruct s. Qed.

(** The cell of a chunk of the row and its neighbours. *)
Lemma rep_cell s cs1 x cs2 p n :
  rep s (cs1 ++ x :: cs2) →
  last (free_list :: (node <$> cs1)) = Some p → head ((node <$> cs2) ++ [free_list]) = Some n →
  ∃ c, links s !! node x = Some c ∧ prev c = p ∧ next c = n.
Proof.
  intros R Hp Hn. pose proof (rep_list _ _ R) as HL. rewrite fmap_app, fmap_cons in HL.
  destruct (is_list_link _ _ _ (node x :: (node <$> cs2)) p (node x) HL Hp eq_refl) as [_ Hpx].
  rewrite cons_middle, app_assoc in HL.
  assert (Hl : last (free_list :: (node <$> cs1) ++ [node x]) = Some (node x)).
  { rewrite app_comm_cons. apply last_snoc. }
  destruct (is_list_link _ _ _ _ (node x) n HL Hl Hn) as [Hxn _].
  destruct (prv_Some _ _ _ Hpx) as (c & Hc & Ec). destruct (nxt_Some _ _ _ Hxn) as (c' & Hc' & Ec').
  rewrite Hc in Hc'. injection Hc' as <-. eauto.
Qed.

Lemma is_list_member_alloc h hd xs x : is_list h hd xs → x ∈ hd :: xs → is_Some (h !! x).
Proof.
  intros HL [->|(ys & zs & ->)%list_elem_of_split]%elem_of_cons; [by eapply is_list_alloc|].
  destruct (last (hd :: ys)) as [p|] eqn:Hp; [|by apply last_None in Hp].
  destruct (is_list_link _ _ _ (x :: zs) p x HL Hp eq_refl) as [_ H]. by eapply prv_alloc.
Qed.

(** A header of the row is rewritten. *)
Lemma store_mc_ok s cs x c' :
  rep s cs → x ∈ cs →
  store_mc x.1 c' s =
    Ok (tt, Mst (<[x.1 := c']> (chunks s)) (links s) (_startbrk s) (_curbrk s) (kern s)).
Proof.
  intros R Hx. unfold store_mc. run_step.
  destruct (rep_bounds _ _ _ R Hx) as (? & ? & ? & ? & ?).
  rewrite !bool_decide_eq_true_2 by lia. cbn [andb].
  destruct (is_list_member_alloc _ _ _ (node x) (rep_list _ _ R)) as [c Hc].
  { right. by apply list_elem_of_fmap_2. }
  unfold node in Hc. by rewrite Hc.
Qed.

(** The headers of a row in a memory of headers. *)
Definition hdrs (m : gmap Z malloc_chunk) (cs : row) : Prop := Forall (λ x, m !! x.1 = Some x.2) cs.

Lemma hdrs_fresh m cs a c : (∀ y, y ∈ cs → y.1 ≠ a) → hdrs m cs → hdrs (<[a := c]> m) cs.
Proof.
  unfold hdrs. rewrite !Forall_forall. intros Hne H y Hy. rewrite lookup_insert_ne; [by apply H|].
  intros ->. by apply (Hne y).
Qed.

Lemma tiles_NoDup lo cs hi : tiles lo cs hi → NoDup (fst <$> cs).
Proof.
  intros Ht%tiles_nodes_NoDup. apply (NoDup_fmap_1 (λ a, a + LIST)).
  by rewrite <- list_fmap_compose.
Qed.

(** One header changes. *)
Lemma hdrs_update m cs1 x cs2 c' :
  NoDup (fst <$> cs1 ++ x :: cs2) → hdrs m (cs1 ++ x :: cs2) →
  hdrs (<[x.1 := c']> m) (cs1 ++ (x.1, c') :: cs2).
Proof.
  intros ND [H1 [_ H2]%Forall_cons]%Forall_app. rewrite fmap_app, fmap_cons in ND.
  apply NoDup_app in ND as (_ & ND1 & [ND2 _]%NoDup_cons).
  apply Forall_app. split; [|apply Forall_cons; split; [by rewrite lookup_insert_eq|]];
    apply hdrs_fresh; try done; intros y Hy E.
  - apply (ND1 y.1); [by apply list_elem_of_fmap_2|]. rewrite E. left.
  - apply ND2. rewrite <- E. by apply list_elem_of_fmap_2.
Qed.

(** ** The search *)

Definition fits (sz : Z) (x : Z * malloc_chunk) : bool :=
  is_free x && bool_decide (sz ≤ size x.2).

(** The last chunk of the row that fits. *)
Lemma find_malloc_loop_ok s cs cs1 cs2 sz fuel p :
  rep s cs → cs = cs1 ++ cs2 → Forall (λ x, fits sz x = false) cs2 →
  last (free_list :: (node <$> cs1)) = Some p → (length cs1 < fuel)%nat →
  ∃ r, find_malloc_loop free_list fuel p sz s = Ok (r, s) ∧
    (r = 0 ∧ Forall (λ x, fits sz x = false) cs ∨
     ∃ a b c, cs = a ++ (r, c) :: b ∧ fits sz (r, c) = true).
Proof.
  intros R. revert cs2 fuel p. induction cs1 as [|x cs1 IH] using rev_ind;
    intros cs2 fuel p -> Hf Hp Hl; (destruct fuel as [|fuel]; [lia|]); cbn [find_malloc_loop].
  { simpl in Hp. injection Hp as <-. exists 0. rewrite bool_decide_eq_true_2 by done. eauto. }
  rewrite fmap_app, fmap_cons, fmap_nil in Hp.
  rewrite app_comm_cons, last_snoc in Hp. injection Hp as <-.
  assert (R' : rep s (cs1 ++ x :: cs2)) by (by rewrite <- app_assoc in R).
  destruct (rep_bounds s _ x R') as (? & ? & ? & ? & ?); [set_solver|].
  pose proof (rep_head _ _ R). unfold node at 1. rewrite bool_decide_eq_false_2 by (unfold LIST in *; lia).
  unfold node. replace (x.1 + LIST - LIST) with x.1 by lia.
  rewrite (bind_Ok _ _ _ _ _ (rep_load _ _ _ _ R')).
  destruct (fits sz x) eqn:Hx.
  - exists x.1. unfold fits, is_free in Hx. rewrite Hx. split; [done|]. right.
    exists cs1, cs2, x.2. rewrite <- app_assoc. destruct x. done.
  - unfold fits, is_free in Hx. rewrite Hx.
    destruct (last (free_list :: (node <$> cs1))) as [p|] eqn:Hp; [|by apply last_None in Hp].
    assert (∃ n, head ((node <$> cs2) ++ [free_list]) = Some n) as [n Hn] by (destruct cs2; simpl; eauto).
    destruct (rep_cell _ _ _ _ _ _ R' Hp Hn) as (c & Hc & Ep & _).
    rewrite (bind_Ok _ _ _ _ _ (run_links_read _ _ _ (load_ok _ _ _ Hc))). rewrite Ep.
    rewrite length_app in Hl. simpl in Hl.
    apply (IH (x :: cs2)); [by rewrite <- app_assoc|by constructor|done|lia].
Qed.

Lemma find_malloc_ok s cs sz fuel :
  rep s cs → (length cs < fuel)%nat →
  ∃ r, find_malloc free_list fuel sz s = Ok (r, s) ∧
    (r = 0 ∧ Forall (λ x, fits sz x = false) cs ∨
     ∃ a b c, cs = a ++ (r, c) :: b ∧ fits sz (r, c) = true).
Proof.
  intros R Hl. pose proof (rep_list _ _ R) as HL.
  destruct (last (free_list :: (node <$> cs))) as [p|] eqn:Hp; [|by apply last_None in Hp].
  rewrite <- (app_nil_r (node <$> cs)) in HL.
  destruct (is_list_link _ _ _ [] p free_list HL Hp eq_refl) as [_ (c & Hc & Ec)%prv_Some].
  unfold find_malloc. rewrite (bind_Ok _ _ _ _ _ (run_links_read _ _ _ (load_ok _ _ _ Hc))), Ec.
  apply (find_malloc_loop_ok s cs cs []); [done|by rewrite app_nil_r|constructor|done|done].
Qed.

(** ** New headers *)

(** A header written where the row has none, with its links initialised. *)
Lemma new_hdr_ok s cs a c :
  is_list (links s) free_list (node <$> cs) →
  kstart (kern s) ≤ a → a + HDR ≤ kend (kern s) → a + LIST ∉ free_list :: (node <$> cs) →
  ∃ s1 l, store_mc a c s = Ok (tt, s1) ∧
    run_links (INIT_LIST_HEAD (a + LIST)) s1 =
      Ok (tt, Mst (<[a := c]> (chunks s)) l (_startbrk s) (_curbrk s) (kern s)) ∧
    is_list l free_list (node <$> cs) ∧ is_Some (l !! (a + LIST)).
Proof.
  intros HL Ha Hb Hn.
  set (l1 := match links s !! (a + LIST) with
             | Some _ => links s
             | None => <[a + LIST := mk_list_head 0 0]> (links s) end).
  assert (Hs1 : is_Some (l1 !! (a + LIST)) ∧ ∀ x, x ≠ a + LIST → l1 !! x = links s !! x).
  { subst l1. destruct (links s !! (a + LIST)) as [l0|] eqn:E; [rewrite E; eauto|].
    rewrite lookup_insert_eq. split; [eauto|]. intros x ?. by rewrite lookup_insert_ne. }
  destruct Hs1 as [Hs1 Hf1].
  destruct (INIT_LIST_HEAD_spec l1 (a + LIST) Hs1) as (l2 & E2 & _ & Hf2 & Ha2).
  exists (Mst (<[a := c]> (chunks s)) l1 (_startbrk s) (_curbrk s) (kern s)), l2. split_and!.
  - unfold store_mc. run_step. by rewrite !bool_decide_eq_true_2.
  - exact (run_links_ok _ _ _ (Mst _ l1 _ _ _) E2).
  - eapply is_list_frame; [exact HL|]. intros x Hx.
    assert (x ≠ a + LIST) by (by intros ->). by rewrite Hf2, Hf1.
  - by apply Ha2.
Qed.

(** A place inside a chunk of the row holds no header of the row. *)
Lemma inside_fresh s cs1 x cs2 a :
  rep s (cs1 ++ x :: cs2) → x.1 < a → a < x.1 + HDR + size x.2 →
  a + LIST ∉ free_list :: (node <$> cs1 ++ x :: cs2) ∧ ∀ y, y ∈ cs1 ++ x :: cs2 → y.1 ≠ a.
Proof.
  intros R H1 H2. destruct (rep_tiles _ _ R) as (lo & Hlo & Ht). pose proof (rep_head _ _ R).
  assert (Hy : ∀ y, y ∈ cs1 ++ x :: cs2 → y.1 ≠ a).
  { intros y Hy E. assert (y = x ∨ y ∈ cs1 ++ cs2) as [->|Hy'] by set_solver; [lia|].
    destruct (rep_bounds _ _ _ R Hy) as (_ & ? & _).
    destruct (tiles_apart _ _ _ _ _ _ Ht Hy'); unfold HDR in *; lia. }
  split; [|done]. rewrite elem_of_cons. intros [E|(y & E & Hin)%list_elem_of_fmap].
  - destruct (rep_bounds s _ x R) as (? & _); [set_solver|]. unfold LIST in *. lia.
  - unfold node in E. apply (Hy y Hin). lia.
Qed.

Definition halves (x : Z * malloc_chunk) (sz : Z) : row :=
  if bool_decide (size x.2 - sz < CHUNK_GAP) then [x]
  else [(x.1, Chunk sz (flag x.2));
        (x.1 + sz + HDR, Chunk (size x.2 - sz - HDR) CHUNK_FREE)].

Lemma split_malloc_ok s cs1 x cs2 sz :
  rep s (cs1 ++ x :: cs2) → 0 ≤ sz ≤ size x.2 →
  ∃ s', split_malloc x.1 sz s = Ok (tt, s') ∧ rep s' (cs1 ++ halves x sz ++ cs2) ∧ kern s' = kern s.
Proof.
  intros R Hsz. destruct (rep_bounds s _ x R) as (? & ? & ? & ? & ?); [set_solver|].
  unfold split_malloc, halves. rewrite (bind_Ok _ _ _ _ _ (rep_load _ _ _ _ R)).
  unfold HDR in *. rewrite u32_small by lia.
  destruct (decide (size x.2 - sz < CHUNK_GAP)) as [Hs|Hb].
  { rewrite !bool_decide_eq_true_2 by done. exists s. split_and!; [done|done|done]. }
  rewrite !bool_decide_eq_false_2 by done. unfold CHUNK_GAP in Hb. cbv zeta.
  rewrite u32_small by lia. set (a := x.1 + sz + 16).
  set (n := (a, Chunk (size x.2 - sz - 16) CHUNK_FREE)).
  destruct (inside_fresh s cs1 x cs2 a R) as [Hn Hne]; [lia|unfold HDR; lia|].
  destruct (new_hdr_ok s (cs1 ++ x :: cs2) a n.2) as (s1 & l & E1 & E2 & HL & Hc);
    [apply R|lia|unfold HDR; lia|done|].
  rewrite (bind_Ok _ _ _ _ _ E1), (bind_Ok _ _ _ _ _ E2).
  rewrite fmap_app, fmap_cons, cons_middle, app_assoc in HL.
  destruct (list_add_spec l free_list _ _ (x.1 + LIST) (a + LIST) HL) as (l' & E3 & HL' & _ & _).
  { rewrite app_comm_cons. apply last_snoc. }
  { rewrite <- app_assoc. simpl. by rewrite <- fmap_cons, <- fmap_app. }
  { done. }
  rewrite (bind_Ok _ _ _ _ _ (run_links_ok _ _ _
    (Mst (<[a := n.2]> (chunks s)) l (_startbrk s) (_curbrk s) (kern s)) E3)).
  cbn [chunks _startbrk _curbrk kern].
  set (cs' := cs1 ++ x :: n :: cs2).
  assert (Ht' : ∃ lo, kstart (kern s) ≤ lo ∧
    tiles lo (cs1 ++ (x.1, Chunk sz (flag x.2)) :: n :: cs2) (kend (kern s))).
  { destruct (rep_tiles _ _ R) as (lo & Hlo & Ht). exists lo. split; [done|].
    apply tiles_app in Ht as (mid & T1 & <- & _ & T2). apply tiles_app. exists x.1.
    split; [done|]. cbn [tiles fst snd n size]. unfold HDR in *.
    split_and!; [done|lia|unfold a; lia|lia|].
    by replace (x.1 + 16 + sz + 16 + (size x.2 - sz - 16)) with (x.1 + 16 + size x.2) by lia. }
  assert (HLn : is_list l' free_list (node <$> cs1 ++ (x.1, Chunk sz (flag x.2)) :: n :: cs2)).
  { rewrite fmap_app, !fmap_cons. rewrite <- app_assoc in HL'. exact HL'. }
  pose proof (rep_hdr _ _ R) as HH.
  assert (Hcell : is_Some (l' !! (x.1 + LIST))).
  { eapply is_list_member_alloc; [exact HLn|]. rewrite fmap_app, fmap_cons. unfold node. simpl. set_solver. }
  eexists. split; [|split].
  - unfold store_mc. run_step. cbn [kern chunks links _startbrk _curbrk].
    rewrite !bool_decide_eq_true_2 by (unfold HDR; lia). cbn [andb].
    destruct Hcell as [c0 Hc0]. rewrite Hc0. reflexivity.
  - split; cbn [kern chunks links _startbrk _curbrk].
    + done.
    + destruct (rep_brk _ _ R) as [(? & ? & Hnil)|?]; [|by right]. by destruct cs1.
    + exact HLn.
    + destruct Ht' as (lo & _ & Ht').
      apply (hdrs_update _ cs1 x (n :: cs2)).
      * apply tiles_NoDup in Ht'. rewrite !fmap_app, !fmap_cons in *. exact Ht'.
      * apply (hdrs_fresh _ _ a n.2 Hne) in HH. apply Forall_app in HH as [? [? ?]%Forall_cons].
        apply Forall_app. split; [done|]. constructor; [done|]. constructor; [|done].
        by rewrite lookup_insert_eq.
    + apply R.
  - done.
Qed.

(** ** Coalescing *)

(** One chunk swallows the next. *)
Lemma join_ok s cs1 x y cs2 :
  rep s (cs1 ++ x :: y :: cs2) →
  ∃ s1 s2, store_mc x.1 (Chunk (u32 (size x.2 + size y.2 + HDR)) (flag x.2)) s = Ok (tt, s1) ∧
    run_links (list_del (node y)) s1 = Ok (tt, s2) ∧
    rep s2 (cs1 ++ join x y :: cs2) ∧ kern s2 = kern s.
Proof.
  intros R. destruct (rep_tiles _ _ R) as (lo & Hlo & Ht).
  destruct (rep_bounds s _ x R) as (? & ? & ? & ? & ?); [set_solver|].
  destruct (rep_bounds s _ y R) as (? & ? & ? & _); [set_solver|].
  assert (Hy : y.1 = x.1 + HDR + size x.2).
  { apply tiles_app in Ht as (mid & _ & <- & _ & <- & _). done. }
  rewrite u32_small by (unfold HDR in *; lia).
  pose proof (rep_list _ _ R) as HL. rewrite fmap_app, !fmap_cons in HL.
  rewrite (cons_middle (node x)), app_assoc in HL.
  destruct (list_del_spec _ _ _ _ _ HL) as (l & E & HL' & _).
  rewrite (store_mc_ok _ _ x _ R) by set_solver. eexists _, _. split; [reflexivity|].
  split; [exact (run_links_ok _ _ _ (Mst _ (links s) _ _ _) E)|]. split; [|done].
  split; cbn [kern chunks links _startbrk _curbrk].
  - exists lo. split; [done|]. apply tiles_app in Ht as (mid & T1 & T2). apply tiles_app.
    exists mid. split; [done|by apply tiles_join].
  - destruct (rep_brk _ _ R) as [(? & ? & Hnil)|?]; [|by right]. by destruct cs1.
  - rewrite fmap_app, fmap_cons. by rewrite <- app_assoc in HL'.
  - assert (ND := tiles_NoDup _ _ _ Ht).
    pose proof (hdrs_update _ _ _ _ (Chunk (size x.2 + size y.2 + HDR) (flag x.2)) ND
                  (rep_hdr _ _ R)) as HH.
    apply Forall_app in HH as [? [? [_ ?]%Forall_cons]%Forall_cons].
    apply Forall_app. split; [done|]. by constructor.
  - apply R.
Qed.

(** What [merger_malloc] reads first. *)
Lemma neighbours_ok s cs1 x cs2 :
  rep s (cs1 ++ x :: cs2) →
  ∃ l, run_links (list_is_last (x.1 + LIST) free_list) s = Ok (bool_decide (cs2 = []), s) ∧
    run_links (load (x.1 + LIST)) s = Ok (l, s) ∧
    run_links (list_is_first (x.1 + LIST) free_list) s = Ok (bool_decide (cs1 = []), s) ∧
    (∀ n cs2', cs2 = n :: cs2' → next l = n.1 + LIST ∧ n.1 ≠ 0) ∧
    (∀ p cs1', cs1 = cs1' ++ [p] → prev l = p.1 + LIST ∧ p.1 ≠ 0).
Proof.
  intros R. pose proof (rep_head _ _ R) as Hh.
  destruct (last (free_list :: (node <$> cs1))) as [p|] eqn:Hp; [|by apply last_None in Hp].
  assert (∃ n, head ((node <$> cs2) ++ [free_list]) = Some n) as [n Hn] by (destruct cs2; simpl; eauto).
  destruct (rep_cell _ _ _ _ _ _ R Hp Hn) as (c & Hc & Ep & En). unfold node in Hc.
  assert (Hne : ∀ y, y ∈ cs1 ++ x :: cs2 → node y ≠ free_list ∧ y.1 ≠ 0).
  { intros y Hy. destruct (rep_bounds _ _ _ R Hy). unfold node, LIST in *. lia. }
  exists c. split_and!.
  - apply run_links_read. unfold list_is_last. rewrite (bind_Ok _ _ _ _ _ (load_ok _ _ _ Hc)).
    unfold mret, M_ret. do 2 f_equal. apply bool_decide_ext. rewrite En.
    destruct cs2 as [|y cs2]; injection Hn as <-; [done|]. split; [|done].
    intros E. by destruct (Hne y ltac:(set_solver)).
  - apply run_links_read. by apply load_ok.
  - apply run_links_read. unfold list_is_first. rewrite (bind_Ok _ _ _ _ _ (load_ok _ _ _ Hc)).
    unfold mret, M_ret. do 2 f_equal. apply bool_decide_ext. rewrite Ep.
    destruct cs1 as [|y cs1 _] using rev_ind; [by injection Hp as <-|].
    rewrite fmap_app, fmap_cons, fmap_nil, app_comm_cons, last_snoc in Hp. injection Hp as <-. split.
    + intros E. by destruct (Hne y ltac:(set_solver)).
    + intros E. by destruct cs1.
  - intros y cs2' ->. injection Hn as <-. split; [done|]. apply Hne. set_solver.
  - intros y cs1' ->. rewrite fmap_app, fmap_cons, fmap_nil, app_comm_cons, last_snoc in Hp.
    injection Hp as <-. split; [done|]. apply Hne. set_solver.
Qed.

(** The second half: absorb a free successor. *)
Lemma merge_next_ok s cs1 x cs2 nx :
  rep s (cs1 ++ x :: cs2) →
  (cs2 = [] → nx = 0) → (∀ n cs2', cs2 = n :: cs2' → nx = n.1 ∧ n.1 ≠ 0) →
  ∃ s', ((if bool_decide (nx = 0) then mret tt
          else
            n ← load_mc nx;
            if bool_decide (flag n = CHUNK_FREE) then
              c ← load_mc x.1;
              store_mc x.1 (Chunk (u32 (size c + size n + HDR)) (flag c)) ;;
              run_links (list_del (nx + LIST))
            else mret tt) : M mst unit) s = Ok (tt, s') ∧
        rep s' (join_next cs1 x cs2) ∧ kern s' = kern s.
Proof.
  intros R H0 Hn. destruct cs2 as [|n cs2].
  { rewrite bool_decide_eq_true_2 by auto. eauto. }
  destruct (Hn n cs2 eq_refl) as [-> Hne]. rewrite bool_decide_eq_false_2 by done.
  assert (R' : rep s ((cs1 ++ [x]) ++ n :: cs2)) by (by rewrite <- app_assoc).
  rewrite (bind_Ok _ _ _ _ _ (rep_load _ _ _ _ R')). cbn [join_next]. unfold is_free.
  destruct (bool_decide (flag n.2 = CHUNK_FREE)); [|eauto].
  rewrite (bind_Ok _ _ _ _ _ (rep_load _ _ _ _ R)).
  destruct (join_ok _ _ _ _ _ R) as (s1 & s2 & E1 & E2 & R2 & Hk).
  rewrite (bind_Ok _ _ _ _ _ E1). unfold node in E2. eauto.
Qed.

Lemma merger_malloc_ok s cs1 x cs2 :
  rep s (cs1 ++ x :: cs2) →
  ∃ s', merger_malloc free_list x.1 s = Ok (tt, s') ∧ rep s' (merge_row (rev cs1) x cs2) ∧
        kern s' = kern s.
Proof.
  intros R. destruct (neighbours_ok _ _ _ _ R) as (l & E1 & E2 & E3 & Hn & Hp).
  unfold merger_malloc. rewrite (bind_Ok _ _ _ _ _ E1), (bind_Ok _ _ _ _ _ E2), (bind_Ok _ _ _ _ _ E3).
  set (nx := if bool_decide (cs2 = []) then 0 else next l - LIST).
  assert (N0 : cs2 = [] → nx = 0) by (intros ->; done).
  assert (N1 : ∀ n cs2', cs2 = n :: cs2' → nx = n.1 ∧ n.1 ≠ 0).
  { intros n cs2' ->. destruct (Hn n cs2' eq_refl) as [El ?]. split; [|done].
    unfold nx. rewrite bool_decide_eq_false_2, El by done. lia. }
  clearbody nx. destruct cs1 as [|p cs1 _] using rev_ind.
  { rewrite (bool_decide_eq_true_2 (@nil (Z * malloc_chunk) = [])) by reflexivity.
    rewrite (bool_decide_eq_true_2 (0 = 0)) by reflexivity. run_step. by apply (merge_next_ok s []). }
  rewrite (bool_decide_eq_false_2 (cs1 ++ [p] = [])) by (by destruct cs1).
  destruct (Hp p cs1 eq_refl) as [El Hp0]. rewrite El.
  replace (p.1 + LIST - LIST) with p.1 by lia. rewrite (bool_decide_eq_false_2 (p.1 = 0)) by done.
  assert (R' : rep s (cs1 ++ p :: x :: cs2)) by (by rewrite <- app_assoc in R).
  rewrite rev_app_distr. simpl rev. cbn [app merge_row]. unfold is_free at 1.
  rewrite (bind_assoc (load_mc p.1)), (bind_Ok _ _ _ _ _ (rep_load _ _ _ _ R')).
  destruct (bool_decide (flag p.2 = CHUNK_FREE)).
  - destruct (join_ok _ _ _ _ _ R') as (s1 & s2 & J1 & J2 & R2 & Hk).
    rewrite bind_assoc, (bind_Ok _ _ _ _ _ (rep_load _ _ _ _ R)), bind_assoc,
      (bind_Ok _ _ _ _ _ J1), bind_assoc, (bind_Ok _ _ _ _ _ J2).
    run_step. rewrite rev_involutive, <- Hk.
    apply (merge_next_ok s2 cs1 (join p x) cs2 nx R2 N0 N1).
  - run_step. rewrite <- rev_unit, rev_involutive. by apply (merge_next_ok s (cs1 ++ [p])).
Qed.

(** ** Growing the heap *)

Definition with_brk s (st cur : Z) (k : K) : mst := Mst (chunks s) (links s) st cur k.

Lemma brk_started s e :
  _startbrk s ≠ 0 →
  brk e s = Ok ((sys_brk (kern s) e).1,
                with_brk s (_startbrk s)
                  (if bool_decide ((sys_brk (kern s) e).1 = e) then e else _curbrk s)
                  (sys_brk (kern s) e).2).
Proof.
  intros Hs. unfold brk, mbind, M_bind, get, do_sys_brk, set_brks, modify, mret, M_ret.
  rewrite (bool_decide_eq_false_2 (_startbrk s = 0)) by done.
  destruct (sys_brk (kern s) e) as [va k]. cbn [fst snd _startbrk _curbrk].
  destruct (bool_decide_reflect (va = e)) as [->|?]; [by destruct s|done].
Qed.

Lemma brk_first s :
  _startbrk s = 0 → brk 0 s = Ok (kend (kern s), with_brk s (kend (kern s)) (kend (kern s)) (kern s)).
Proof.
  intros Hs. destruct (kend_bound (kern s)) as [? ?].
  unfold brk, mbind, M_bind, get, do_sys_brk, set_brks, modify, mret, M_ret.
  rewrite (bool_decide_eq_true_2 (_startbrk s = 0)) by done.
  rewrite sys_brk_below by lia. cbn [kern]. rewrite sys_brk_below by lia.
  rewrite bool_decide_eq_false_2 by lia. done.
Qed.

(** The state that has asked the kernel where the heap starts. *)
Definition started s : mst :=
  if bool_decide (_startbrk s = 0) then with_brk s (kend (kern s)) (kend (kern s)) (kern s) else s.

Lemma started_rep s cs :
  rep s cs → rep (started s) cs ∧ _startbrk (started s) ≠ 0 ∧ _curbrk (started s) = kend (kern s).
Proof.
  intros R. destruct (kend_bound (kern s)) as [? ?]. unfold started. case_bool_decide as Hz.
  - split; [|split; [simpl; lia|done]]. destruct R. split; cbn; try done. right. split; [lia|done].
  - destruct (rep_brk _ _ R) as [(? & _)|[? ?]]; [done|]. done.
Qed.

Lemma sbrk_run s cs inc :
  rep s cs → 0 < inc ≤ 2 ^ 22 →
  let e := kend (kern s) + inc in
  (sbrk inc s = Ok (0, started s) ∧ (sys_brk (kern s) e).1 = 0) ∨
  (sbrk inc s = Ok (kend (kern s), with_brk s (_startbrk (started s)) e (sys_brk (kern s) e).2) ∧
   kend (sys_brk (kern s) e).2 = e ∧ kstart (sys_brk (kern s) e).2 = kstart (kern s)).
Proof.
  intros R Hi e. destruct (kend_bound (kern s)) as [? ?].
  destruct (started_rep _ _ R) as (_ & Hst & Hcur).
  assert (Hk : kern (started s) = kern s ∧ chunks (started s) = chunks s ∧ links (started s) = links s).
  { unfold started. by destruct (bool_decide _). }
  destruct Hk as (Hk & Hc & Hl).
  assert (E : sbrk inc s =
    (va ← brk e; if bool_decide (va ≠ 0) then mret (kend (kern s)) else mret 0) (started s)).
  { unfold sbrk. run_step. unfold started.
    destruct (rep_brk _ _ R) as [(H1 & H2 & _)|[H1 H2]].
    - rewrite (bool_decide_eq_true_2 (_curbrk s = 0)), (bool_decide_eq_true_2 (_startbrk s = 0)) by done.
      rewrite bind_assoc, (bind_Ok _ _ _ _ _ (brk_first s H1)).
      run_step. run_step. cbn [_curbrk with_brk]. by rewrite u32_small by lia.
    - rewrite (bool_decide_eq_false_2 (_curbrk s = 0)), (bool_decide_eq_false_2 (_startbrk s = 0)) by lia.
      run_step. run_step. rewrite H2. by rewrite u32_small by lia. }
  rewrite E, (bind_Ok _ _ _ _ _ (brk_started _ e Hst)), Hk.
  destruct (sys_brk_above (kern s) e) as [[H1 H2]|(H1 & H2 & H3)]; [lia| |].
  - left. split; [|done]. rewrite H1, H2, (bool_decide_eq_false_2 (0 = e)) by lia.
    rewrite bool_decide_eq_false_2 by lia. unfold mret, M_ret, with_brk. rewrite <- Hk at 1.
    by destruct (started s).
  - right. split; [|done]. rewrite H1, !bool_decide_eq_true_2 by lia.
    unfold mret, M_ret, with_brk. by rewrite Hc, Hl.
Qed.

(** The row after the break moved. *)
Definition grown (k : K) : Z * malloc_chunk := (kend k, Chunk (CHUNK_SIZE - HDR) CHUNK_FREE).

Lemma extend_malloc_ok s cs :
  rep s cs →
  (∃ s', extend_malloc free_list s = Ok (0, s') ∧ rep s' cs ∧ kern s' = kern s ∧
         (sys_brk (kern s) (kend (kern s) + CHUNK_SIZE)).1 = 0) ∨
  (∃ s', extend_malloc free_list s = Ok (kend (kern s), s') ∧ kend (kern s) ≠ 0 ∧
         rep s' (merge_row (rev cs) (grown (kern s)) []) ∧
         kend (kern s') = kend (kern s) + CHUNK_SIZE).
Proof.
  intros R. destruct (kend_bound (kern s)) as [? ?]. destruct (rep_tiles _ _ R) as (lo & Hlo & Ht).
  set (e := kend (kern s) + CHUNK_SIZE).
  destruct (sbrk_run s cs CHUNK_SIZE R ltac:(unfold CHUNK_SIZE; lia)) as [[E Hz]|(E & He & Hs)];
    unfold extend_malloc; rewrite (bind_Ok _ _ _ _ _ E).
  - left. exists (started s). rewrite bool_decide_eq_false_2 by lia.
    destruct (started_rep _ _ R) as (R' & _). split_and!; [done|done| |done].
    unfold started. by destruct (bool_decide _).
  - right. rewrite bool_decide_eq_true_2 by lia. fold e in He, Hs, E |- *.
    set (s1 := with_brk s _ e (sys_brk (kern s) e).2).
    pose proof (rep_head _ _ R) as Hh. pose proof (tiles_le _ _ _ Ht).
    assert (Hfresh : kend (kern s) + LIST ∉ free_list :: (node <$> cs)).
    { rewrite elem_of_cons. intros [Ef|(y & Ey & Hin)%list_elem_of_fmap].
      - unfold LIST in *. lia.
      - destruct (tiles_bounds _ _ _ _ Ht Hin) as (_ & ? & ?). unfold node, HDR in *. lia. }
    destruct (new_hdr_ok s1 cs (kend (kern s)) (grown (kern s)).2) as (s2 & l & E1 & E2 & HL & Hc);
      [apply R| | |done|].
    { change (kern s1) with (sys_brk (kern s) e).2. lia. }
    { change (kern s1) with (sys_brk (kern s) e).2. unfold e, HDR, CHUNK_SIZE in *. lia. }
    unfold grown in E1, E2. cbn [snd] in E1, E2.
    rewrite (bind_Ok _ _ _ _ _ E1), (bind_Ok _ _ _ _ _ E2).
    rewrite <- (app_nil_r (node <$> cs)) in HL, Hfresh.
    destruct (list_add_tail_spec l free_list _ _ free_list (kend (kern s) + LIST) HL eq_refl Hfresh Hc)
      as (l' & E3 & HL' & _).
    rewrite (bind_Ok _ _ _ _ _ (run_links_ok _ _ _ (Mst _ l _ _ _) E3)).
    cbn [chunks _startbrk _curbrk kern].
    match goal with |- context [merger_malloc _ _ ≫= _] =>
      match goal with |- context [Mst ?a ?b ?c ?d ?f] => set (s3 := Mst a b c d f) end end.
    assert (R3 : rep s3 (cs ++ [grown (kern s)])).
    { split; cbn [kern chunks links _startbrk _curbrk s3].
      - change (kern s1) with (sys_brk (kern s) e).2. exists lo. rewrite He, Hs. split; [done|].
        apply tiles_app. exists (kend (kern s)). split; [done|].
        unfold grown, e. cbn [tiles fst snd size]. unfold CHUNK_SIZE, HDR. split_and!; lia.
      - right. change (kern s1) with (sys_brk (kern s) e).2. rewrite He. split; [|done].
        by destruct (started_rep _ _ R) as (_ & ? & _).
      - rewrite fmap_app. exact HL'.
      - apply Forall_app. split.
        + apply hdrs_fresh; [|apply R]. intros y Hy Ey.
          destruct (tiles_bounds _ _ _ _ Ht Hy). unfold HDR in *. lia.
        + constructor; [|constructor]. by rewrite lookup_insert_eq.
      - change (kern s1) with (sys_brk (kern s) e).2. by rewrite Hs. }
    destruct (merger_malloc_ok s3 cs (grown (kern s)) [] R3) as (s4 & E4 & R4 & Hk4).
    exists s4. rewrite (bind_Ok _ _ _ _ _ E4). split_and!; [done|lia|done|].
    rewrite Hk4. exact He.
Qed.

(** ** Allocation and release *)

(** The flag of a chunk changes. *)
Lemma set_flag_ok s cs1 x cs2 f :
  rep s (cs1 ++ x :: cs2) →
  ∃ s', store_mc x.1 (Chunk (size x.2) f) s = Ok (tt, s') ∧
        rep s' (cs1 ++ (x.1, Chunk (size x.2) f) :: cs2) ∧ kern s' = kern s.
Proof.
  intros R. rewrite (store_mc_ok _ _ x _ R) by set_solver. eexists. split; [done|].
  split; [|done]. destruct (rep_tiles _ _ R) as (lo & Hlo & Ht).
  split; cbn [kern chunks links _startbrk _curbrk].
  - exists lo. split; [done|]. by rewrite !tiles_app in *.
  - destruct (rep_brk _ _ R) as [(? & ? & Hnil)|?]; [|by right]. by destruct cs1.
  - pose proof (rep_list _ _ R) as HL. by rewrite fmap_app in *.
  - apply hdrs_update; [by eapply tiles_NoDup|apply R].
  - apply R.
Qed.

Lemma live_split cs1 x cs2 :
  is_free x = false → live (cs1 ++ x :: cs2) ≡ₚ (MC_DATA x.1, size x.2) :: live (cs1 ++ cs2).
Proof. intros Hx. rewrite !live_app, live_used by done. by rewrite Permutation_middle. Qed.

(** The blocks in use lie in the heap and do not overlap. *)
Lemma live_apart s cs1 x cs2 q m :
  rep s (cs1 ++ x :: cs2) → (q, m) ∈ live (cs1 ++ cs2) →
  q + m ≤ MC_DATA x.1 ∨ MC_DATA x.1 + size x.2 ≤ q.
Proof.
  intros R (y & [= -> ->] & [_ Hy]%list_elem_of_filter)%list_elem_of_fmap.
  destruct (rep_tiles _ _ R) as (lo & _ & Ht).
  destruct (tiles_apart _ _ _ _ _ _ Ht Hy); unfold MC_DATA, HDR in *; lia.
Qed.

(** A chunk that fits is cut and marked. *)
Lemma take_chunk_ok s a b x sz :
  rep s (a ++ x :: b) → tidy (a ++ x :: b) → fits sz x = true → 0 ≤ sz →
  ∃ s' n rest,
    (split_malloc x.1 sz ;;
     c ← load_mc x.1;
     store_mc x.1 (Chunk (size c) CHUNK_INUSE) ;;
     mret (MC_DATA x.1)) s = Ok (MC_DATA x.1, s') ∧
    rep s' (a ++ (x.1, Chunk n CHUNK_INUSE) :: rest) ∧
    tidy (a ++ (x.1, Chunk n CHUNK_INUSE) :: rest) ∧ live rest = live b ∧
    sz ≤ n < sz + CHUNK_GAP ∧ kern s' = kern s.
Proof.
  intros R Td [Hf Hs]%andb_true_iff Hsz. apply bool_decide_eq_true in Hs.
  destruct (split_malloc_ok s a x b sz R ltac:(lia)) as (s1 & E1 & R1 & Hk1).
  rewrite (bind_Ok _ _ _ _ _ E1). unfold halves in R1.
  destruct (decide (size x.2 - sz < CHUNK_GAP)) as [Hc|Hc].
  - rewrite bool_decide_eq_true_2 in R1 by done. cbn [app] in R1.
    rewrite (bind_Ok _ _ _ _ _ (rep_load _ _ _ _ R1)).
    destruct (set_flag_ok s1 a x b CHUNK_INUSE R1) as (s2 & E2 & R2 & Hk2).
    exists s2, (size x.2), b. rewrite (bind_Ok _ _ _ _ _ E2).
    split_and!; [done|done| |done|lia|lia|congruence].
    eapply tidy_replace; [|exact Td]. done.
  - rewrite bool_decide_eq_false_2 in R1 by done. cbn [app] in R1.
    set (x1 := (x.1, Chunk sz (flag x.2))) in *. set (n := (x.1 + sz + HDR, _)) in *.
    pose proof (rep_load _ _ _ _ R1) as El. cbn [fst snd x1] in El.
    rewrite (bind_Ok _ _ _ _ _ El).
    destruct (set_flag_ok s1 a x1 (n :: b) CHUNK_INUSE R1) as (s2 & E2 & R2 & Hk2).
    cbn [fst snd x1 size] in E2, R2. cbn [size].
    exists s2, sz, (n :: b). rewrite (bind_Ok _ _ _ _ _ E2).
    split_and!; [done|done| |done|lia|unfold CHUNK_GAP; lia|congruence].
    apply tidy_app in Td as [T1 T2]. apply tidy_app. split.
    + apply (tidy_replace a x _ []); [|done]. done.
    + apply tidy_cons_used; [|done]. by apply (tidy_replace [] x n b).
Qed.

(** The kernel will not grow the heap by another chunk. *)
Definition refused (k : K) : Prop := (sys_brk k (kend k + CHUNK_SIZE)).1 = 0.

Definition allocated (sz : Z) cs s' (r : Z) cs' : Prop :=
  ∃ n, sz ≤ n < sz + CHUNK_GAP ∧ r ≠ 0 ∧ live cs' ≡ₚ (r, n) :: live cs ∧
       kstart (kern s') + HDR ≤ r ∧ r + n ≤ kend (kern s') ∧
       ∀ q m, (q, m) ∈ live cs → q + m ≤ r ∨ r + n ≤ q.

Lemma malloc_run n fuel sz s cs :
  rep s cs → tidy cs → 0 ≤ sz → 2 ^ 32 - kend (kern s) ≤ Z.of_nat n * CHUNK_SIZE →
  (length cs + n < fuel)%nat →
  ∃ r s' cs', malloc free_list n fuel sz s = Ok (r, s') ∧ rep s' cs' ∧ tidy cs' ∧
    (r = 0 ∧ live cs' = live cs ∧ refused (kern s') ∨ allocated sz cs s' r cs').
Proof.
  revert s cs. induction n as [|n IH]; intros s cs R Td Hsz Hn Hl.
  { destruct (kend_bound (kern s)). lia. }
  cbn [malloc]. destruct (find_malloc_ok s cs sz fuel R ltac:(lia)) as (r & E & [[-> Hno]|(a & b & c & -> & Hf)]);
    rewrite (bind_Ok _ _ _ _ _ E).
  - rewrite bool_decide_eq_true_2 by done.
    destruct (extend_malloc_ok s cs R) as [(s' & E' & R' & Hk & Hr)|(s' & E' & Hne & R' & Hk)];
      rewrite (bind_Ok _ _ _ _ _ E').
    + rewrite bool_decide_eq_true_2 by done. exists 0, s', cs. split_and!; [done..|]. left.
      split_and!; [done|done|]. unfold refused. by rewrite Hk.
    + rewrite bool_decide_eq_false_2 by done.
      set (cs1 := merge_row (rev cs) (grown (kern s)) []) in *.
      assert (Hlv : live cs1 = live cs).
      { unfold cs1. rewrite live_merge by done. rewrite live_app, (live_free (grown (kern s)) []) by done.
        apply app_nil_r. }
      destruct (IH s' cs1) as (r & s2 & cs2 & E2 & R2 & T2 & H2).
      * done.
      * by apply tidy_merge.
      * done.
      * rewrite Hk. unfold CHUNK_SIZE in *. lia.
      * pose proof (length_merge cs (grown (kern s)) []). unfold cs1. simpl in *. lia.
      * exists r, s2, cs2. split_and!; [done..|]. unfold allocated in *. rewrite Hlv in H2. done.
  - destruct (rep_bounds s _ (r, c) R) as (? & ? & ? & ? & ?); [set_solver|]. cbn [fst] in *.
    rewrite bool_decide_eq_false_2 by lia.
    destruct (take_chunk_ok s a b (r, c) sz R Td Hf Hsz) as (s' & m & rest & E2 & R2 & T2 & Hlv & Hm & Hk).
    cbn [fst] in *. eexists _, s', _. split; [exact E2|]. split_and!; [done|done|]. right.
    destruct (rep_bounds _ _ (r, Chunk m CHUNK_INUSE) R2) as (? & ? & ? & ? & _); [set_solver|].
    cbn [fst snd size] in *.
    assert (Hlive : live (a ++ (r, c) :: b) = live (a ++ rest)).
    { rewrite !live_app. f_equal. apply andb_true_iff in Hf as [Hf _]. by rewrite live_free. }
    exists m. unfold MC_DATA, HDR in *. split_and!; try lia.
    + rewrite live_split by done. by rewrite Hlive.
    + intros q k Hq. rewrite Hlive in Hq. apply (live_apart _ _ _ _ _ _ R2 Hq).
Qed.
End rep.

(** A row without blocks in use is a single chunk. *)
Lemma tidy_all_free cs : tidy cs → live cs = [] → (length cs ≤ 1)%nat.
Proof.
  destruct cs as [|x [|y cs]]; simpl; [lia..|]. intros [Hxy _] Hl. exfalso.
  destruct (is_free x) eqn:Hx; [|by rewrite live_used in Hl].
  rewrite live_free in Hl by done.
  destruct (is_free y) eqn:Hy; [|by rewrite live_used in Hl]. by apply Hxy.
Qed.

(** C19: [malloc] from any well-formed heap terminates and either returns a block of
    at least the size asked (wasting less than a page), inside the heap the kernel
    granted and apart from every block in use, the others staying as they were; or
    it returns NULL, the blocks in use are unchanged and the kernel has refused to
    grow the heap.  The heap stays a gapless row of chunks with no two free
    neighbours.  At most one round per 4 MB of address space is needed. *)
Theorem malloc_correct {K} `{!Break K} free_list n fuel sz (s : mst (K := K)) cs :
  rep free_list s cs → tidy cs → 0 ≤ sz →
  2 ^ 32 - kend (kern s) ≤ Z.of_nat n * CHUNK_SIZE → (length cs + n < fuel)%nat →
  ∃ r s' cs', malloc free_list n fuel sz s = Ok (r, s') ∧ rep free_list s' cs' ∧ tidy cs' ∧
    (r = 0 ∧ live cs' = live cs ∧ refused (kern s') ∨ allocated sz cs s' r cs').
Proof. apply malloc_run. Qed.

(** C32: [free] of a block in use releases exactly that block, never fails, and merges
    the chunk with free neighbours on both sides, so that a heap with no block in
    use is one chunk again; [free(NULL)] does nothing. *)
Theorem free_correct {K} `{!Break K} free_list (s : mst (K := K)) cs obj n :
  rep free_list s cs → tidy cs → (obj, n) ∈ live cs →
  free free_list 0 s = Ok (tt, s) ∧
  ∃ s' cs', free free_list obj s = Ok (tt, s') ∧ rep free_list s' cs' ∧ tidy cs' ∧
    live cs ≡ₚ (obj, n) :: live cs' ∧ (live cs' = [] → (length cs' ≤ 1)%nat).
Proof.
  intros R Td Hin. split; [done|].
  apply list_elem_of_fmap in Hin as (x & [= -> ->] & [Hu Hx]%list_elem_of_filter).
  apply list_elem_of_split in Hx as (a & b & ->).
  assert (Hf : is_free x = false) by (by destruct (is_free x)).
  destruct (rep_bounds _ s _ x R) as (? & ? & ? & ? & ?); [set_solver|].
  unfold free, MC_DATA, MC_STRUCT, HDR in *. rewrite bool_decide_eq_false_2 by lia.
  replace (x.1 + 16 - 16) with x.1 by lia. rewrite (bind_Ok _ _ _ _ _ (rep_load _ _ _ _ _ R)).
  destruct (set_flag_ok _ s a x b CHUNK_FREE R) as (s1 & E1 & R1 & _).
  rewrite (bind_Ok _ _ _ _ _ E1).
  destruct (merger_malloc_ok _ s1 a _ b R1) as (s2 & E2 & R2 & _).
  assert (Td' : tidy (merge_row (rev a) (x.1, Chunk (size x.2) CHUNK_FREE) b)).
  { apply tidy_merge; [by eapply tidy_prefix|]. apply tidy_app in Td as [_ Td]. by eapply tidy_drop. }
  exists s2, (merge_row (rev a) (x.1, Chunk (size x.2) CHUNK_FREE) b). split_and!; [done|done|done| |].
  - rewrite live_merge by done. rewrite live_split by done. unfold MC_DATA, HDR.
    by rewrite !live_app, (live_free _ b).
  - by apply tidy_all_free.
Qed.

(** ** A kernel to run them on: a heap from 256 MB to at most 512 MB *)

Definition heap_lo : Z := 0x10000000.
Definition heap_hi : Z := 0x20000000.

Definition demo_kend (k : Z) : Z := Z.max heap_lo (Z.min k heap_hi).

Definition demo_sys_brk (k e : Z) : Z * Z :=
  if bool_decide (e ≤ demo_kend k) then (demo_kend k, k)
  else if bool_decide (e ≤ heap_hi) then (e, e) else (0, k).

Lemma demo_below k e : e ≤ demo_kend k → demo_sys_brk k e = (demo_kend k, k).
Proof. intros H. unfold demo_sys_brk. by rewrite bool_decide_eq_true_2. Qed.

Lemma demo_above k e :
  demo_kend k < e →
  (demo_sys_brk k e).2 = k ∧ (demo_sys_brk k e).1 = 0 ∨
  (demo_sys_brk k e).1 = e ∧ demo_kend (demo_sys_brk k e).2 = e ∧ heap_lo = heap_lo.
Proof.
  intros H. unfold demo_sys_brk. rewrite bool_decide_eq_false_2 by lia.
  destruct (bool_decide_reflect (e ≤ heap_hi)); simpl; [right|by left].
  split_and!; [done| |done]. unfold demo_kend in *. lia.
Qed.

Lemma demo_bound k : 0 < heap_lo ≤ demo_kend k ∧ demo_kend k < 2 ^ 32 - 2 ^ 23.
Proof. unfold demo_kend, heap_lo, heap_hi. lia. Qed.

#[global] Instance demo_break : Break Z := {|
  kstart _ := heap_lo; kend := demo_kend; sys_brk := demo_sys_brk;
  sys_brk_below := demo_below; sys_brk_above := demo_above; kend_bound := demo_bound |}.

Definition demo_free_list : Z := 0x1000.

Definition demo_heap : mst (K := Z) :=
  Mst ∅ {[demo_free_list := mk_list_head demo_free_list demo_free_list]} 0 0 heap_lo.

Lemma demo_heap_rep : rep demo_free_list demo_heap [].
Proof.
  split.
  - exists heap_lo. done.
  - by left.
  - split; [apply NoDup_singleton|]. simpl. split; [|done]. by vm_compute.
  - constructor.
  - simpl. unfold demo_free_list, LIST, heap_lo. lia.
Qed.

Lemma malloc_correct_witness :
  ∃ r s' cs', malloc demo_free_list 1024 2000 100 demo_heap = Ok (r, s') ∧
    rep demo_free_list s' cs' ∧ tidy cs' ∧
    (r = 0 ∧ live cs' = live [] ∧ refused (kern s') ∨ allocated 100 [] s' r cs').
Proof.
  apply malloc_correct; [apply demo_heap_rep|done|lia| |simpl; lia].
  apply Z.leb_le. vm_compute. reflexivity.
Defined.

(** A heap with one block in use, as [malloc] leaves it. *)
Definition demo_row : row :=
  [(heap_lo, Chunk 100 CHUNK_INUSE); (heap_lo + 116, Chunk (CHUNK_SIZE - 132) CHUNK_FREE)].

Definition demo_used : mst (K := Z) :=
  Mst (list_to_map demo_row)
    (list_to_map [(demo_free_list, mk_list_head (heap_lo + 8) (heap_lo + 124));
                  (heap_lo + 8, mk_list_head (heap_lo + 124) demo_free_list);
                  (heap_lo + 124, mk_list_head demo_free_list (heap_lo + 8))])
    heap_lo (heap_lo + CHUNK_SIZE) (heap_lo + CHUNK_SIZE).

Lemma demo_used_rep : rep demo_free_list demo_used demo_row.
Proof.
  split.
  - exists heap_lo. repeat split; vm_compute; (reflexivity || discriminate).
  - right. split; [done|]. done.
  - split.
    + apply (bool_decide_eq_true_1 _). vm_compute. reflexivity.
    + vm_compute. auto 10.
  - repeat constructor.
  - simpl. unfold demo_free_list, LIST, heap_lo. lia.
Qed.

Lemma free_correct_witness :
  free demo_free_list 0 demo_used = Ok (tt, demo_used) ∧
  ∃ s' cs', free demo_free_list (heap_lo + 16) demo_used = Ok (tt, s') ∧
    rep demo_free_list s' cs' ∧ tidy cs' ∧
    live demo_row ≡ₚ (heap_lo + 16, 100) :: live cs' ∧ (live cs' = [] → (length cs' ≤ 1)%nat).
Proof.
  apply free_correct; [apply demo_used_rep| |].
  - split; [by intros [? ?]|done].
  - vm_compute. left.
Defined.
