(* ===== verification/PipeProofs.v ===== *)
(** * A pipe is a bounded queue of bytes *)

From S2P Require Import Prelude Layout Pipe.

Local Open Scope Z_scope.

(** The bytes between the positions, oldest first. *)
Definition byte_at (p : pipe_inode_info) (i : Z) : Z :=
  p_page p !!! Z.to_nat (i mod PAGE_SIZE).

Definition content (p : pipe_inode_info) : list Z :=
  byte_at p <$> seqZ (p_rpos p) (p_wpos p - p_rpos p).

(** The counters have not come near the end of their range. *)
Definition pipe_wf (p : pipe_inode_info) : Prop :=
  Z.of_nat (length (p_page p)) = PAGE_SIZE ∧
  0 ≤ p_rpos p ≤ p_wpos p ∧ p_wpos p ≤ p_rpos p + PAGE_SIZE ∧ p_rpos p + PAGE_SIZE < 2 ^ 32.

Definition room (p : pipe_inode_info) : Z := PAGE_SIZE - Z.of_nat (length (content p)).

Lemma content_length p : pipe_wf p → Z.of_nat (length (content p)) = p_wpos p - p_rpos p.
Proof. intros (_ & ? & _). unfold content. rewrite length_fmap, length_seqZ. lia. Qed.

Lemma ring_index i : 0 ≤ i mod PAGE_SIZE < PAGE_SIZE.
Proof. apply Z.mod_pos_bound. done. Qed.

Lemma ring_lookup p i : pipe_wf p → p_page p !! Z.to_nat (i mod PAGE_SIZE) = Some (byte_at p i).
Proof.
  intros (Hl & _). pose proof (ring_index i). unfold byte_at. apply list_lookup_lookup_total_lt. lia.
Qed.

(** Different bytes of a window no longer than the page are at different places. *)
Lemma ring_distinct i j : i < j < i + PAGE_SIZE → i mod PAGE_SIZE ≠ j mod PAGE_SIZE.
Proof.
  intros Hij E. assert (Hd : (j - i) mod PAGE_SIZE = 0).
  { rewrite Zminus_mod, E, Z.sub_diag. done. }
  rewrite Z.mod_small in Hd by lia. lia.
Qed.

(** ** One byte *)

Definition push1 (b : Z) (p : pipe_inode_info) : pipe_inode_info :=
  set_page_pos (<[Z.to_nat (p_wpos p mod PAGE_SIZE) := b]> (p_page p)) (p_rpos p) (u32 (p_wpos p + 1)) p.

Lemma push1_ok b p :
  pipe_wf p → p_wpos p < p_rpos p + PAGE_SIZE →
  pipe_wf (push1 b p) ∧ content (push1 b p) = content p ++ [b] ∧
  p_rpos (push1 b p) = p_rpos p ∧ p_wpos (push1 b p) = p_wpos p + 1.
Proof.
  intros Hp Hr. pose proof Hp as (Hl & H1 & H2 & H3).
  assert (Hw : p_wpos (push1 b p) = p_wpos p + 1) by (simpl; rewrite u32_small; lia).
  split_and!; [|clear Hw|done|done].
  - unfold pipe_wf. rewrite Hw. simpl. rewrite length_insert. split_and!; [done|lia|lia|lia|lia].
  - unfold content. simpl p_rpos. replace (p_wpos (push1 b p) - p_rpos p) with
      ((p_wpos p - p_rpos p) + 1) by (simpl; rewrite u32_small; lia).
    rewrite seqZ_app by lia. rewrite fmap_app. f_equal.
    + apply list_fmap_ext. intros k i Hi. apply list_elem_of_lookup_2, elem_of_seqZ in Hi.
      unfold byte_at. simpl. rewrite list_lookup_total_insert_ne; [done|].
      pose proof (ring_distinct i (p_wpos p) ltac:(lia)).
      pose proof (ring_index i). pose proof (ring_index (p_wpos p)). lia.
    + replace (p_rpos p + (p_wpos p - p_rpos p)) with (p_wpos p) by lia.
      simpl. f_equal. unfold byte_at. simpl. pose proof (ring_index (p_wpos p)).
      apply list_lookup_total_insert_eq. lia.
Qed.

Definition pop1 (p : pipe_inode_info) : pipe_inode_info :=
  set_page_pos (p_page p) (u32 (p_rpos p + 1)) (p_wpos p) p.

Lemma pop1_ok p :
  pipe_wf p → p_rpos p < p_wpos p → p_wpos p + PAGE_SIZE < 2 ^ 32 →
  pipe_wf (pop1 p) ∧ content p = byte_at p (p_rpos p) :: content (pop1 p).
Proof.
  intros (Hl & H1 & H2 & H3) Hr Hb. unfold PAGE_SIZE in *. split.
  - unfold pipe_wf, pop1, PAGE_SIZE. simpl. rewrite u32_small by lia. lia.
  - unfold content, pop1. simpl. rewrite u32_small by lia.
    rewrite (seqZ_cons (p_rpos p)) by lia. rewrite fmap_cons. f_equal.
    replace (Z.succ (p_rpos p)) with (p_rpos p + 1) by lia.
    by replace (Z.pred (p_wpos p - p_rpos p)) with (p_wpos p - (p_rpos p + 1)) by lia.
Qed.

(** ** The loops *)

Lemma write_loop_ok buf i p :
  pipe_wf p →
  ∃ p', pipe_write_loop buf i p =
          Ok (i + Z.min (Z.of_nat (length buf)) (room p), p') ∧
        pipe_wf p' ∧ content p' = content p ++ take (Z.to_nat (room p)) buf ∧
        p_rpos p' = p_rpos p ∧ p_writer p' = p_writer p.
Proof.
  revert i p. induction buf as [|b buf IH]; intros i p Hp; pose proof (content_length p Hp) as Hc;
    pose proof Hp as (Hl & H1 & H2 & H3).
  { exists p. rewrite take_nil, app_nil_r. simpl. rewrite Z.min_l by (unfold room; lia).
    by rewrite Z.add_0_r. }
  cbn [pipe_write_loop]. rewrite u32_small by (unfold PAGE_SIZE in *; lia).
  destruct (decide (p_rpos p + PAGE_SIZE ≤ p_wpos p)) as [Hfull|Hroom].
  - rewrite bool_decide_eq_true_2 by done. exists p. assert (Hz : room p = 0) by (unfold room; lia).
    rewrite Hz, Z.min_r, Z.add_0_r by lia. change (Z.to_nat 0) with 0%nat. by rewrite take_0, app_nil_r.
  - rewrite bool_decide_eq_false_2 by done. rewrite (ring_lookup p (p_wpos p) Hp).
    destruct (push1_ok b p Hp ltac:(lia)) as (Hq & Hqc & Hqr & Hqw).
    destruct (IH (i + 1) (push1 b p) Hq) as (p' & E & Hp' & Hc' & Hr' & Hw').
    assert (Hrm : room (push1 b p) = room p - 1).
    { unfold room. rewrite Hqc, length_app. simpl. lia. }
    assert (Hrm0 : 0 < room p) by (unfold room; lia).
    exists p'. split_and!; [|done| |by rewrite Hr'|by rewrite Hw'].
    + fold (push1 b p). rewrite E, Hrm. do 2 f_equal. simpl length. lia.
    + rewrite Hc', Hqc, Hrm, <- app_assoc. do 2 f_equal.
      replace (Z.to_nat (room p)) with (S (Z.to_nat (room p - 1))) by lia. done.
Qed.

Lemma read_loop_ok n got p :
  pipe_wf p → p_wpos p + PAGE_SIZE < 2 ^ 32 →
  content p ≠ [] ∨ got ≠ [] ∨ p_writer p = 0 →
  ∃ p', pipe_read_loop n got p = Ok (got ++ take n (content p), p') ∧
        pipe_wf p' ∧ content p' = drop n (content p) ∧
        p_wpos p' = p_wpos p ∧ p_writer p' = p_writer p.
Proof.
  revert got p. induction n as [|n IH]; intros got p Hp Hb Hne.
  { exists p. rewrite take_0, app_nil_r. done. }
  pose proof (content_length p Hp) as Hc. pose proof Hp as (Hl & H1 & H2 & H3).
  cbn [pipe_read_loop]. destruct (decide (p_rpos p = p_wpos p)) as [He|He].
  - assert (Hz : content p = []).
    { apply length_zero_iff_nil. lia. }
    rewrite (bool_decide_eq_true_2 (p_rpos p = p_wpos p)) by done. rewrite Hz, take_nil, drop_nil, app_nil_r.
    exists p. destruct (bool_decide_reflect (got = [])) as [->|Hg].
    + destruct Hne as [?|[?|Hw]]; [done|done|]. by rewrite (bool_decide_eq_true_2 (p_writer p = 0)).
    + done.
  - rewrite (bool_decide_eq_false_2 (p_rpos p = p_wpos p)) by done. cbn [andb].
    rewrite (ring_lookup p (p_rpos p) Hp).
    destruct (pop1_ok p Hp ltac:(lia) Hb) as (Hq & Hqc).
    destruct (IH (got ++ [byte_at p (p_rpos p)]) (pop1 p)) as (p' & E & Hp' & Hc' & ? & ?);
      [done|done|right; left; by destruct got|].
    exists p'. fold (pop1 p). rewrite E, Hqc. split_and!; [by rewrite <- app_assoc|done|done|done|done].
Qed.

(** ** Sequences of operations *)

Inductive pipe_op := PWrite (buf : list Z) | PRead (count : Z).

Inductive pipe_answer := Wrote (n : Z) | Got (bytes : list Z).

(** The answers of the operations and the pipe at the end. *)
Fixpoint pipe_run (ops : list pipe_op) (p : pipe_inode_info) : outcome (list pipe_answer * pipe_inode_info) :=
  match ops with
  | [] => Ok ([], p)
  | PWrite buf :: ops =>
      r ← pipefs_file_write buf p;
      rest ← pipe_run ops r.2;
      mret (Wrote r.1 :: rest.1, rest.2)
  | PRead count :: ops =>
      r ← pipefs_file_read count p;
      rest ← pipe_run ops r.2;
      mret (Got r.1 :: rest.1, rest.2)
  end.

Definition pipe_size : nat := 4096.

(** What a queue of at most 4096 bytes answers: a write puts in as much as there is
    room for, a read takes out as much as there is. *)
Fixpoint queue_run (ops : list pipe_op) (q : list Z) : list pipe_answer * list Z :=
  match ops with
  | [] => ([], q)
  | PWrite buf :: ops =>
      let put := take (pipe_size - length q) buf in
      let r := queue_run ops (q ++ put) in (Wrote (Z.of_nat (length put)) :: r.1, r.2)
  | PRead count :: ops =>
      let r := queue_run ops (drop (Z.to_nat count) q) in (Got (take (Z.to_nat count) q) :: r.1, r.2)
  end.

(** Every read finds bytes, or no writer that could still come. *)
Fixpoint reads_ready (ops : list pipe_op) (writers : Z) (q : list Z) : Prop :=
  match ops with
  | [] => True
  | PWrite buf :: ops => reads_ready ops writers (q ++ take (pipe_size - length q) buf)
  | PRead count :: ops => (q ≠ [] ∨ writers = 0) ∧ reads_ready ops writers (drop (Z.to_nat count) q)
  end.

(** The bytes that went in, and those that came out. *)
Fixpoint accepted (ops : list pipe_op) (ans : list pipe_answer) : list Z :=
  match ops, ans with
  | PWrite buf :: ops, Wrote n :: ans => take (Z.to_nat n) buf ++ accepted ops ans
  | _ :: ops, _ :: ans => accepted ops ans
  | _, _ => []
  end.
Definition delivered (ans : list pipe_answer) : list Z :=
  concat ((λ a, match a with Got bytes => bytes | Wrote _ => [] end) <$> ans).

Definition op_bytes (o : pipe_op) : Z :=
  match o with PWrite buf => Z.of_nat (length buf) | PRead _ => 0 end.

Lemma take_take_length {A} n (l : list A) : take (length (take n l)) l = take n l.
Proof.
  rewrite length_take. destruct (decide (n ≤ length l)%nat); [by rewrite Nat.min_l|].
  rewrite !take_ge by lia. done.
Qed.

(** A queue gives back what it was given, in order, and never holds more than 4096. *)
Lemma queue_fifo ops : ∀ q,
  q ++ accepted ops (queue_run ops q).1 = delivered (queue_run ops q).1 ++ (queue_run ops q).2.
Proof.
  induction ops as [|[buf|count] ops IH]; intros q; [by rewrite app_nil_r|..]; cbn [queue_run]; cbv zeta;
    cbn [fst snd accepted].
  - rewrite Nat2Z.id, take_take_length, app_assoc. apply IH.
  - change (delivered (Got ?x :: ?l)) with (x ++ delivered l). rewrite <- app_assoc, <- IH, app_assoc. by rewrite take_drop.
Qed.

Lemma pipe_write_queue buf p :
  pipe_wf p →
  let put := take (pipe_size - length (content p)) buf in
  ∃ p', pipefs_file_write buf p = Ok (Z.of_nat (length put), p') ∧ pipe_wf p' ∧ content p' = content p ++ put ∧
    p_writer p' = p_writer p ∧ p_wpos p' ≤ p_wpos p + Z.of_nat (length buf).
Proof.
  intros Hp. cbv zeta. destruct (write_loop_ok buf 0 p Hp) as (p1 & E1 & Hp1 & C1 & R1 & W1).
  pose proof (content_length p Hp) as Hc. pose proof (content_length p1 Hp1) as Hc1. pose proof Hp as (_ & ? & ? & _).
  assert (HP : PAGE_SIZE = Z.of_nat pipe_size) by done.
  assert (Hr : Z.to_nat (room p) = (pipe_size - length (content p))%nat) by (unfold room; lia).
  rewrite Hr in C1. exists p1. unfold pipefs_file_write. rewrite E1. split; [|split; [done|split; [done|split; [done|]]]].
  - do 2 f_equal. rewrite length_take. unfold room. lia.
  - rewrite C1, length_app, length_take in Hc1. lia.
Qed.

(** The pipe is such a queue. *)
Lemma pipe_refines ops : ∀ p,
  pipe_wf p → reads_ready ops (p_writer p) (content p) →
  p_wpos p + zsum (op_bytes <$> ops) + PAGE_SIZE < 2 ^ 32 →
  ∃ p', pipe_run ops p = Ok ((queue_run ops (content p)).1, p') ∧ pipe_wf p' ∧
    content p' = (queue_run ops (content p)).2.
Proof.
  induction ops as [|o ops IH]; intros p Hp Hw Hb; [by exists p|].
  assert (Hnn : 0 ≤ zsum (op_bytes <$> ops)).
  { apply zsum_nonneg, Forall_fmap, Forall_forall. intros [] _; simpl; lia. }
  rewrite fmap_cons in Hb. cbn [zsum] in Hb.
  destruct o as [buf|count]; cbn [pipe_run op_bytes reads_ready queue_run] in *; cbv zeta; cbn [fst snd].
  - destruct (pipe_write_queue buf p Hp) as (p1 & E1 & Hp1 & C1 & W1 & B1).
    rewrite <- C1, <- W1 in Hw. destruct (IH p1 Hp1 Hw ltac:(lia)) as (p' & E' & Hp' & C').
    unfold mbind, outcome_bind. rewrite E1. cbn [snd fst]. rewrite E'. exists p'. rewrite <- C1. done.
  - destruct Hw as [Hne Hw].
    destruct (read_loop_ok (Z.to_nat count) [] p Hp ltac:(lia)) as (p1 & E1 & Hp1 & C1 & R1 & W1); [naive_solver|].
    rewrite <- C1, <- W1 in Hw. destruct (IH p1 Hp1 Hw ltac:(lia)) as (p' & E' & Hp' & C').
    unfold pipefs_file_read, mbind, outcome_bind. rewrite E1. cbn [snd fst]. rewrite E'. exists p'. rewrite <- C1. done.
Qed.

(** C26: A pipe is a bounded queue of bytes.  For every interleaving of writes and reads
    in which no read meets an empty pipe that still has a writer (such a read returns
    stale bytes), and whose writes leave the 32-bit positions a page below their end (a
    pipe that has moved 4 GB accepts nothing), no operation faults and every answer is
    that of a queue of 4096 bytes: a write accepts exactly what there is room for, a
    read delivers exactly what is asked for or there.  The bytes accepted are, in order,
    those delivered followed by those still inside. *)
Theorem pipe_is_fifo ops p :
  pipe_wf p → reads_ready ops (p_writer p) (content p) →
  p_wpos p + zsum (op_bytes <$> ops) + PAGE_SIZE < 2 ^ 32 →
  ∃ ans p', pipe_run ops p = Ok (ans, p') ∧ pipe_wf p' ∧ queue_run ops (content p) = (ans, content p') ∧
    content p ++ accepted ops ans = delivered ans ++ content p' ∧ Z.of_nat (length (content p')) ≤ PAGE_SIZE.
Proof.
  intros Hp Hw Hb. destruct (pipe_refines ops p Hp Hw Hb) as (p' & E & Hp' & C).
  exists (queue_run ops (content p)).1, p'. pose proof (content_length p' Hp'). pose proof Hp' as (_ & _ & ? & _).
  split_and!; [done|done|rewrite C; apply surjective_pairing|rewrite C; apply queue_fifo|lia].
Qed.

Lemma fresh_pipe_wf : pipe_wf get_pipe_info.
Proof.
  unfold pipe_wf, get_pipe_info. cbn [p_page p_rpos p_wpos]. rewrite length_replicate.
  unfold PAGE_SIZE. lia.
Qed.

Definition demo_ops : list pipe_op := [PWrite (replicate 4095 7); PWrite [1; 2; 3]; PRead 4095; PRead 5].

Lemma demo_ops_ready : reads_ready demo_ops (p_writer get_pipe_info) (content get_pipe_info).
Proof.
  change (content get_pipe_info) with (@nil Z).
  split; [|split; [|exact I]]; left; apply (bool_decide_unpack _); vm_compute; exact I.
Qed.

(** The second write finds room for one byte. *)
Lemma pipe_is_fifo_witness :
  ∃ p', pipe_run demo_ops get_pipe_info = Ok ([Wrote 4095; Wrote 1; Got (replicate 4095 7); Got [1]], p') ∧ content p' = [].
Proof.
  destruct (pipe_is_fifo demo_ops get_pipe_info) as (ans & p' & E & _ & Q & _);
    [apply fresh_pipe_wf|apply demo_ops_ready|vm_compute; reflexivity|].
  exists p'. rewrite E. change (content get_pipe_info) with (@nil Z) in Q.
  assert (Q' : queue_run demo_ops [] = ([Wrote 4095; Wrote 1; Got (replicate 4095 7); Got [1]], [])) by (vm_compute; reflexivity).
  rewrite Q' in Q. injection Q as <- <-. split; reflexivity.
Defined.

(** ** Three flaws *)

(** A read of an empty pipe that still has a writer does not wait: it returns [count]
    stale bytes and moves the read position past the write position. *)
Theorem empty_pipe_read_is_stale p count :
  pipe_wf p → content p = [] → p_writer p ≠ 0 → 0 < count → p_rpos p + count < 2 ^ 32 →
  ∃ got p', pipefs_file_read count p = Ok (got, p') ∧ Z.of_nat (length got) = count ∧
            p_rpos p' = p_wpos p' + count.
Proof.
  intros Hp He Hw Hn Hb. pose proof (content_length p Hp) as Hc. rewrite He in Hc. simpl in Hc.
  assert (Hg : ∀ n got q, p_page q = p_page p → p_wpos q = p_wpos p → p_writer q ≠ 0 →
    p_rpos q = p_wpos q + Z.of_nat (length got) → p_rpos q + Z.of_nat n < 2 ^ 32 → 0 ≤ p_rpos q →
    ∃ got' q', pipe_read_loop n got q = Ok (got', q') ∧
      Z.of_nat (length got') = Z.of_nat (length got) + Z.of_nat n ∧
      p_rpos q' = p_wpos q' + Z.of_nat (length got')).
  { intros n. induction n as [|n IH]; intros got q Hpg Hwp Hwr Hrp Hlt Hnn.
    { exists got, q. split_and!; [done|lia|done]. }
    cbn [pipe_read_loop].
    assert (Hb1 : bool_decide (p_rpos q = p_wpos q) && negb (bool_decide (got = [])) = false).
    { destruct got as [|x got]; [apply andb_false_r|].
      rewrite bool_decide_eq_false_2; [done|]. simpl in Hrp. lia. }
    rewrite Hb1. rewrite (bool_decide_eq_false_2 (p_writer q = 0)), andb_false_r by done.
    pose proof (ring_lookup p (p_rpos q) Hp) as Hl. rewrite <- Hpg in Hl. rewrite Hl.
    destruct (IH (got ++ [byte_at p (p_rpos q)]) (pop1 q)) as (got' & q' & E & Hlen & Hr').
    - done.
    - done.
    - done.
    - unfold pop1. simpl. rewrite length_app. simpl. rewrite u32_small; lia.
    - unfold pop1. simpl. rewrite u32_small; lia.
    - unfold pop1. simpl. apply u32_range.
    - exists got', q'. split_and!; [exact E| |done]. rewrite Hlen, length_app. simpl. lia. }
  pose proof Hp as (? & ? & ? & ?).
  destruct (Hg (Z.to_nat count) [] p) as (got & p' & E & Hlen & Hr); [done|done|done|simpl; lia|lia|lia|].
  exists got, p'. split_and!; [done|simpl in Hlen; lia|]. simpl in Hlen. lia.
Qed.

(** Once the positions come within a page of the end of their range an empty pipe
    reports that it is full, and accepts nothing ever after. *)
Theorem worn_out_pipe_is_full p buf :
  2 ^ 32 - PAGE_SIZE ≤ p_rpos p < 2 ^ 32 → p_wpos p = p_rpos p →
  pipefs_file_write buf p = Ok (0, p).
Proof.
  intros Hr Hw. destruct buf as [|b buf]; [done|]. unfold pipefs_file_write. cbn [pipe_write_loop].
  rewrite bool_decide_eq_true_2; [done|]. rewrite Hw. unfold u32, PAGE_SIZE in *.
  Z.to_euclidean_division_equations; lia.
Qed.

(** Closing the last writing descriptor leaves two writers on the count. *)
Theorem closing_a_writer_adds_one : p_writer (pipefs_file_flush O_WRONLY get_pipe_info) = 2.
Proof. reflexivity. Qed.
