(* ===== verification/Vfs.v ===== *)
(** * Names and paths: fs/namei.c, fs/dcache.c, fs/vfsmount.c, fs/inode.c, fs/libfs.c,
    fs/ramfs/ramfs_inode.c, kernel/syscall/dev_create.c, dev_mkdir.c

    The dentry and mount hash tables are maps from a bucket to its chain, a sequence
    as HList shows; dentries, inodes, mounts and superblocks are records at their
    addresses.  A path is the list of its bytes, the terminating zero being its end.
    A [qstr] has its buffer of 36 bytes; a longer component writes outside it.
    [kmalloc] hands out the addresses of the list [avail], 0 being a failure.  The
    field [i_nlink], which the code does not initialise, starts at 0 here; nothing
    reads it. *)

From S2P Require Import Prelude.

Local Open Scope Z_scope.

Definition DNAME_LEN_MIN : Z := 36.
Definition MAX_DENTRY_HASH : Z := 1024.
Definition MAX_VFSMNT_HASH : Z := 1024.
Definition LOOKUP_PARENT : Z := 8.
Definition LAST_NORM : Z := 1.
Definition LAST_DOT : Z := 2.
Definition LAST_DOTDOT : Z := 3.
Definition ENOENT : Z := 2.
Definition ENOMEM : Z := 12.
Definition EEXIST : Z := 17.
Definition ENOSPC : Z := 28.
Definition S_IFMT : Z := 0xF000.
Definition S_IFREG : Z := 0x8000.
Definition S_IFDIR : Z := 0x4000.

Definition slash : Z := 47.
Definition dot : Z := 46.

Record qstr := Qstr { name : list Z; len : Z }.

Record dentry := Dentry {
  d_parent : Z; d_inode : Z; d_sb : Z; d_name : qstr; d_count : Z; d_mounted : Z }.

Inductive inode_operations :=
  | empty_iops | simple_dir_iops | simple_file_iops | ramfs_dir_iops | ttyfs_iops.

(** [i_fop] by a number: the operations of regular files and directories are 1 and
    2; 0 is what an inode has before one is set. *)
Definition simple_file_fop : Z := 1.
Definition simple_dir_fop : Z := 2.

Record inode := Inode {
  i_num : Z; i_dev : Z; i_mode : Z; i_nlink : Z; i_count : Z;
  i_op : inode_operations; i_fop : Z; i_sb : Z; i_inode : Z }.

Record vfsmount := Vfsmount { mnt_parent : Z; mnt_mountpoint : Z; mnt_root : Z; mnt_sb : Z }.

Record nameidata := Nameidata {
  nd_dentry : Z; nd_mnt : Z; last_name : qstr; nd_flags : Z; last_type : Z }.

Record vfs := Vfs {
  dentries : gmap Z dentry;
  dentry_hashtable : gmap Z (list Z);
  inodes : gmap Z inode;
  supers : gmap Z Z;
  mounts : gmap Z vfsmount;
  vfsmnt_hashtable : gmap Z (list Z);
  last_ino : Z;
  fs_root : Z; fs_mnt_root : Z; fs_pwd : Z; fs_mnt_pwd : Z;
  avail : list Z }.

Definition set_dentries (m : gmap Z dentry) (s : vfs) : vfs :=
  Vfs m (dentry_hashtable s) (inodes s) (supers s) (mounts s) (vfsmnt_hashtable s) (last_ino s)
    (fs_root s) (fs_mnt_root s) (fs_pwd s) (fs_mnt_pwd s) (avail s).
Definition set_dhash (t : gmap Z (list Z)) (s : vfs) : vfs :=
  Vfs (dentries s) t (inodes s) (supers s) (mounts s) (vfsmnt_hashtable s) (last_ino s)
    (fs_root s) (fs_mnt_root s) (fs_pwd s) (fs_mnt_pwd s) (avail s).
Definition set_inodes (m : gmap Z inode) (ino : Z) (s : vfs) : vfs :=
  Vfs (dentries s) (dentry_hashtable s) m (supers s) (mounts s) (vfsmnt_hashtable s) ino
    (fs_root s) (fs_mnt_root s) (fs_pwd s) (fs_mnt_pwd s) (avail s).
Definition set_mhash (t : gmap Z (list Z)) (s : vfs) : vfs :=
  Vfs (dentries s) (dentry_hashtable s) (inodes s) (supers s) (mounts s) t (last_ino s)
    (fs_root s) (fs_mnt_root s) (fs_pwd s) (fs_mnt_pwd s) (avail s).
Definition set_avail (l : list Z) (s : vfs) : vfs :=
  Vfs (dentries s) (dentry_hashtable s) (inodes s) (supers s) (mounts s) (vfsmnt_hashtable s)
    (last_ino s) (fs_root s) (fs_mnt_root s) (fs_pwd s) (fs_mnt_pwd s) l.

Definition opt {A} (o : option A) : outcome A :=
  match o with Some a => Ok a | None => Stop Faulted end.

Definition kmalloc : M vfs Z := λ s,
  match avail s with [] => Ok (0, s) | a :: l => Ok (a, set_avail l s) end.

(** ** include/fuckOS/dcache.h, fs/dcache.c *)

(** [str[i]] is a signed char. *)
Definition _hash (str : list Z) : Z := fold_left (λ h c, u32 (u32 (h + u32 (Z.shiftl h 5)) + i8 c)) str 0.

Definition hash (parent : Z) (name : list Z) (len : Z) : Z :=
  u32 (Z.shiftl (Z.lxor parent (_hash (take (Z.to_nat len) name))) 5).

Definition bucket (parent : Z) (q : qstr) : Z := hash parent (name q) (len q) mod MAX_DENTRY_HASH.

(** [strncmp] of the two buffers. *)
Fixpoint buf_strncmp (n : nat) (a b : list Z) : outcome Z :=
  match n with
  | O => Ok 0
  | S n =>
      match a, b with
      | x :: a, y :: b =>
          if negb (bool_decide (x = 0)) && bool_decide (x = y) then buf_strncmp n a b else Ok (x - y)
      | _, _ => Stop Faulted
      end
  end.

Fixpoint chain_find (s : vfs) (q : qstr) (chain : list Z) : outcome Z :=
  match chain with
  | [] => Ok 0
  | d :: chain =>
      k ← opt (dentries s !! d);
      r ← buf_strncmp (Z.to_nat (len q)) (name (d_name k)) (name q);
      if bool_decide (r = 0) then Ok d else chain_find s q chain
  end.

Definition dentry_lookup (s : vfs) (parent : Z) (q : qstr) : outcome Z :=
  chain_find s q (default [] (dentry_hashtable s !! bucket parent q)).

Definition dentry_insert (parent d : Z) : M vfs unit :=
  s ← get;
  k ← of_option (dentries s !! d);
  let b := bucket parent (d_name k) in
  put (set_dhash (<[b := d :: default [] (dentry_hashtable s !! b)]> (dentry_hashtable s)) s).

Definition load_dentry (d : Z) : M vfs dentry := s ← get; of_option (dentries s !! d).
Definition edit_dentry (d : Z) (g : dentry → dentry) : M vfs unit :=
  k ← load_dentry d;
  modify (λ s, set_dentries (<[d := g k]> (dentries s)) s).

Definition with_dcount (n : Z) (k : dentry) : dentry :=
  Dentry (d_parent k) (d_inode k) (d_sb k) (d_name k) n (d_mounted k).
Definition with_dinode (i : Z) (k : dentry) : dentry :=
  Dentry (d_parent k) i (d_sb k) (d_name k) (d_count k) (d_mounted k).

Definition dget (d : Z) : M vfs Z :=
  (if bool_decide (d = 0) then mret tt
   else edit_dentry d (λ k, with_dcount (i32 (d_count k + 1)) k)) ;;
  mret d.

Definition d_alloc (parent : Z) (q : qstr) : M vfs Z :=
  d ← kmalloc;
  if bool_decide (d = 0) then mret 0
  else
    modify (λ s, set_dentries (<[d := Dentry 0 0 0 q 1 0]> (dentries s)) s) ;;
    (if bool_decide (parent = 0) then mret tt
     else
       p ← dget parent;
       k ← load_dentry parent;
       edit_dentry d (λ e, Dentry p (d_inode e) (d_sb k) (d_name e) (d_count e) (d_mounted e))) ;;
    mret d.

(** ** fs/vfsmount.c *)

Definition mnt_bucket (dentry mnt : Z) : Z := u32 (Z.shiftl (Z.lxor dentry mnt) 5) mod MAX_VFSMNT_HASH.

Definition insert_vfsmnt (mnt dentry : Z) : M vfs unit :=
  s ← get;
  if bool_decide (dentry = 0) || bool_decide (mnt = 0) then panic
  else
    m ← of_option (mounts s !! mnt);
    if bool_decide (mnt_parent m = 0) then panic
    else
      let b := mnt_bucket dentry (mnt_parent m) in
      put (set_mhash (<[b := mnt :: default [] (vfsmnt_hashtable s !! b)]> (vfsmnt_hashtable s)) s).

Fixpoint mnt_find (s : vfs) (mnt : Z) (chain : list Z) : outcome Z :=
  match chain with
  | [] => Ok 0
  | tmp :: chain =>
      m ← opt (mounts s !! tmp);
      if bool_decide (mnt_parent m = mnt) then Ok tmp else mnt_find s mnt chain
  end.

Definition lookup_vfsmnt (s : vfs) (mnt dentry : Z) : outcome Z :=
  mnt_find s mnt (default [] (vfsmnt_hashtable s !! mnt_bucket dentry mnt)).

(** ** fs/namei.c *)

(** The loop of [follow_mount]; a dentry and its mount. *)
Fixpoint follow_mount (fuel : nat) (s : vfs) (d mnt : Z) : outcome (Z * Z) :=
  match fuel with
  | O => Stop OutOfFuel
  | S fuel =>
      if bool_decide (d = 0) then Ok (d, mnt)
      else
        mounted ← lookup_vfsmnt s mnt d;
        if bool_decide (mounted = 0) then Ok (d, mnt)
        else
          m ← opt (mounts s !! mounted);
          follow_mount fuel s (mnt_root m) mounted
  end.

(** [do_lookup]: [None] is -ENOENT; [real_lookup] always answers NULL.  The fuel
    covers one mount after the other. *)
Definition do_lookup (s : vfs) (d mnt : Z) (q : qstr) : outcome (option (Z * Z)) :=
  x ← dentry_lookup s d q;
  if bool_decide (x = 0) then Ok None
  else r ← follow_mount (S (size (mounts s))) s x mnt; Ok (Some r).

Fixpoint skip_slashes (p : list Z) : list Z :=
  match p with c :: q => if bool_decide (c = slash) then skip_slashes q else p | [] => [] end.

(** The loop that copies a component into [this.name]: the rest of the path, the
    buffer and the length. *)
Fixpoint scan_component (p : list Z) (buf : list Z) (n : nat) : outcome (list Z * list Z * nat) :=
  match p with
  | [] => Ok ([], buf, n)
  | c :: q =>
      if bool_decide (c = slash) then Ok (p, buf, n)
      else if bool_decide (n < length buf)%nat then scan_component q (<[n := c]> buf) (S n)
      else Stop Faulted
  end.

(** The component with its terminating zero. *)
Definition read_component (p : list Z) (buf : list Z) : outcome (list Z * qstr) :=
  r ← scan_component p buf 0;
  let '(rest, buf, n) := (r : list Z * list Z * nat) in
  if bool_decide (n < length buf)%nat then Ok (rest, Qstr (<[n := 0]> buf) (Z.of_nat n))
  else Stop Faulted.

(** "." is 1 and ".." is 2. *)
Definition dots (q : qstr) : Z :=
  if bool_decide (hd 0 (name q) = dot) then
    if bool_decide (len q = 1) then 1
    else if bool_decide (len q = 2) && bool_decide (nth 1 (name q) 0 = dot) then 2
    else 0
  else 0.

Definition at_dentry (d mnt : Z) (nd : nameidata) : nameidata :=
  Nameidata d mnt (last_name nd) (nd_flags nd) (last_type nd).

(** From [last_component] on. *)
Definition lookup_last (s : vfs) (q : qstr) (res : Z) (nd : nameidata) : outcome (Z * nameidata) :=
  if negb (bool_decide (Z.land (nd_flags nd) LOOKUP_PARENT = 0)) then
    let ty := if bool_decide (hd 0 (name q) = dot) && bool_decide (len q = 1) then LAST_DOTDOT
              else LAST_NORM in
    Ok (0, Nameidata (nd_dentry nd) (nd_mnt nd) q (nd_flags nd) ty)
  else if bool_decide (dots q = 2) then
    k ← opt (dentries s !! nd_dentry nd);
    opt (dentries s !! d_parent k) ;;
    Ok (res, at_dentry (d_parent k) (nd_mnt nd) nd)
  else if bool_decide (dots q = 1) then Ok (res, nd)
  else
    r ← do_lookup s (nd_dentry nd) (nd_mnt nd) q;
    match (r : option (Z * Z)) with
    | None => Ok (- ENOENT, nd)
    | Some (d, mnt) => opt (dentries s !! d) ;; Ok (0, at_dentry d mnt nd)
    end.

(** The loop of [link_path_lookup]; [buf] is [this.name] as the last round left it. *)
Fixpoint link_loop (fuel : nat) (s : vfs) (p : list Z) (buf : list Z) (res : Z) (nd : nameidata)
    : outcome (Z * nameidata) :=
  match fuel with
  | O => Stop OutOfFuel
  | S fuel =>
      r ← read_component p buf;
      let '(rest, q) := (r : list Z * qstr) in
      match rest with
      | [] => lookup_last s q res nd
      | _ :: rest =>
          let p := skip_slashes rest in
          match p with
          | [] => lookup_last s q 0 nd
          | _ :: _ =>
              if bool_decide (dots q = 2) then
                k ← opt (dentries s !! nd_dentry nd);
                opt (dentries s !! d_parent k) ;;
                link_loop fuel s p (name q) res (at_dentry (d_parent k) (nd_mnt nd) nd)
              else if bool_decide (dots q = 1) then link_loop fuel s p (name q) res nd
              else
                r ← do_lookup s (nd_dentry nd) (nd_mnt nd) q;
                match (r : option (Z * Z)) with
                | None => Ok (- ENOENT, nd)
                | Some (d, mnt) =>
                    k ← opt (dentries s !! d);
                    if bool_decide (d_inode k = 0) then Ok (0, nd)
                    else link_loop fuel s p (name q) 0 (at_dentry d mnt nd)
                end
          end
      end
  end.

(** [buf] is what the stack holds where [this] is. *)
Definition link_path_lookup (s : vfs) (path buf : list Z) (nd : nameidata) : outcome (Z * nameidata) :=
  let p := skip_slashes path in
  match p with
  | [] => Ok (- ENOENT, nd)
  | _ :: _ =>
      opt (dentries s !! nd_dentry nd) ;;
      link_loop (S (length p)) s p buf (- ENOENT) nd
  end.

Definition path_lookup (s : vfs) (path buf : list Z) (flags : Z) (nd : nameidata)
    : outcome (Z * nameidata) :=
  match path with
  | [] => Ok (- ENOENT, nd)
  | c :: _ =>
      let '(d, mnt) := if bool_decide (c = slash) then (fs_root s, fs_mnt_root s)
                       else (fs_pwd s, fs_mnt_pwd s) in
      link_path_lookup s path buf (Nameidata d mnt (last_name nd) flags (last_type nd))
  end.

(** ** fs/inode.c: the superblocks in use have no [alloc_inode] of their own

    The number, the link count and [i_fop], which the code leaves as [kmalloc] gave
    them, are 0 here: [new_inode] writes the number, its callers write [i_fop] of regular
    files and directories, and nothing depends on the link count. *)

Definition alloc_inode (sb : Z) : M vfs Z :=
  s ← get;
  dev ← of_option (supers s !! sb);
  i ← kmalloc;
  if bool_decide (i = 0) then mret 0
  else
    modify (λ s, set_inodes (<[i := Inode 0 dev 0 0 1 empty_iops 0 sb 0]> (inodes s)) (last_ino s) s) ;;
    mret i.

Definition edit_inode (i : Z) (g : inode → inode) : M vfs unit :=
  s ← get;
  k ← of_option (inodes s !! i);
  put (set_inodes (<[i := g k]> (inodes s)) (last_ino s) s).

Definition new_inode (sb : Z) : M vfs Z :=
  i ← alloc_inode sb;
  if bool_decide (i = 0) then mret 0
  else
    modify (λ s, set_inodes (inodes s) (u32 (last_ino s + 1)) s) ;;
    s ← get;
    edit_inode i (λ k, Inode (last_ino s) (i_dev k) (i_mode k) (i_nlink k) (i_count k) (i_op k)
                         (i_fop k) (i_sb k) (i_inode k)) ;;
    mret i.

(** ** fs/libfs.c and fs/ramfs/ramfs_inode.c: they differ in the operations that a new
    directory gets. *)

Definition get_inode (dir_ops : inode_operations) (sb mode : Z) : M vfs Z :=
  i ← new_inode sb;
  if bool_decide (i = 0) then mret 0
  else
    edit_inode i (λ k,
      let '(op, fop) :=
        if bool_decide (Z.land mode S_IFMT = S_IFREG) then (simple_file_iops, simple_file_fop)
        else if bool_decide (Z.land mode S_IFMT = S_IFDIR) then (dir_ops, simple_dir_fop)
        else (i_op k, i_fop k) in
      Inode (i_num k) (i_dev k) mode (i_nlink k) (i_count k) op fop sb (i_inode k)) ;;
    mret i.

Definition simple_get_inode : Z → Z → M vfs Z := get_inode simple_dir_iops.
Definition ramfs_get_inode : Z → Z → M vfs Z := get_inode ramfs_dir_iops.

Definition mknod (getter : Z → Z → M vfs Z) (dir d mode : Z) : M vfs Z :=
  s ← get;
  k ← of_option (inodes s !! dir);
  i ← getter (i_sb k) mode;
  if bool_decide (i = 0) then mret (- ENOSPC)
  else
    edit_dentry d (with_dinode i) ;;
    edit_dentry d (with_dcount 1) ;;
    mret 0.

Definition simple_dir_inode_mknod : Z → Z → Z → M vfs Z := mknod simple_get_inode.
Definition ramfs_mknod : Z → Z → Z → M vfs Z := mknod ramfs_get_inode.

Definition simple_dir_inode_create (dir d mode : Z) : M vfs Z :=
  simple_dir_inode_mknod dir d (Z.lor mode S_IFREG).
Definition ramfs_create (dir d mode : Z) : M vfs Z := ramfs_mknod dir d (Z.lor mode S_IFREG).

Definition make_dir (mk : Z → Z → Z → M vfs Z) (dir d mode : Z) : M vfs Z :=
  r ← mk dir d (Z.lor mode S_IFDIR);
  (if bool_decide (r = 0) then
     edit_inode dir (λ k, Inode (i_num k) (i_dev k) (i_mode k) (i32 (i_nlink k + 1)) (i_count k)
                            (i_op k) (i_fop k) (i_sb k) (i_inode k))
   else mret tt) ;;
  mret r.

Definition simple_dir_inode_mkdir : Z → Z → Z → M vfs Z := make_dir simple_dir_inode_mknod.
Definition ramfs_mkdir : Z → Z → Z → M vfs Z := make_dir ramfs_mknod.

(** [inode->i_op->create] and [inode->i_op->mkdir]: a NULL operation is a jump to
    address 0. *)
Definition op_create (dir d mode : Z) : M vfs Z :=
  s ← get;
  k ← of_option (inodes s !! dir);
  match i_op k with
  | simple_dir_iops => simple_dir_inode_create dir d mode
  | ramfs_dir_iops => ramfs_create dir d mode
  | simple_file_iops => panic
  | empty_iops | ttyfs_iops => fault
  end.

Definition op_mkdir (dir d mode : Z) : M vfs Z :=
  s ← get;
  k ← of_option (inodes s !! dir);
  match i_op k with
  | simple_dir_iops => simple_dir_inode_mkdir dir d mode
  | ramfs_dir_iops => ramfs_mkdir dir d mode
  | simple_file_iops => panic
  | empty_iops | ttyfs_iops => fault
  end.

(** ** The system calls *)

(** The second half of [create] and [mkdir], [op] being the operation of the parent's
    inode. *)
Definition make_entry (op : Z → Z → Z → M vfs Z) (nd : nameidata) (mode : Z) : M vfs Z :=
  s ← get;
  let parent := nd_dentry nd in
  p ← of_option (dentries s !! parent);
  x ← lift (dentry_lookup s parent (last_name nd));
  if bool_decide (x ≠ 0) then mret (- EEXIST)
  else
    d ← d_alloc parent (last_name nd);
    if bool_decide (d = 0) then mret (- ENOMEM)
    else
      res ← op (d_inode p) d mode;
      if bool_decide (res < 0) then mret res
      else dentry_insert parent d ;; mret res.

Definition empty_nd : nameidata := Nameidata 0 0 (Qstr [] 0) 0 0.

Definition create (path buf : list Z) (mode : Z) : M vfs Z :=
  s ← get;
  r ← lift (path_lookup s path buf LOOKUP_PARENT empty_nd);
  let '(res, nd) := (r : Z * nameidata) in
  if bool_decide (res < 0) then mret res else make_entry op_create nd mode.

(** [get_last] of include/fuckOS/namei.h as the bytes from its result on; the loops
    read the byte before the path when it has no slash, which makes no difference. *)
Fixpoint back_slashes (r : list Z) : list Z :=
  match r with c :: q => if bool_decide (c = slash) then back_slashes q else r | [] => [] end.
Fixpoint back_name (r : list Z) : list Z :=
  match r with c :: q => if bool_decide (c = slash) then r else back_name q | [] => [] end.

Definition get_last (path : list Z) (n : Z) : list Z :=
  drop (length (back_name (back_slashes (rev (take (Z.to_nat n) path))))) path.

Definition mkdir (path buf : list Z) (n mode : Z) : M vfs Z :=
  s ← get;
  r ← lift (path_lookup s path buf (Z.lor LOOKUP_PARENT 1) empty_nd);
  let '(res, nd) := (r : Z * nameidata) in
  if bool_decide (res < 0) then mret res
  else
    c ← lift (buf_strncmp (Z.to_nat (len (last_name nd))) (name (last_name nd)) (get_last path n ++ [0]));
    if bool_decide (c = 0) then make_entry op_mkdir nd mode else mret res.

(** ** Reading a file of the ram file system

    [data] is the [size] bytes at [start]; the answer is the bytes copied, the new
    position and the result.  A length that is still negative is an enormous copy. *)
Definition ramfs_file_read (data : list Z) (f_pos count : Z) : outcome (list Z * Z * Z) :=
  let size := Z.of_nat (length data) in
  if bool_decide (size ≤ f_pos) then Ok ([], f_pos, 0)
  else
    let count := if bool_decide (size ≤ u32 (f_pos + count)) then size - f_pos else count in
    if bool_decide (count < 0) then Stop Faulted
    else Ok (take (Z.to_nat count) (drop (Z.to_nat f_pos) data), u32 (f_pos + count), count).
