(* ===== verification/VfsProofs.v ===== *)
(** * Path lookup is a walk over the components of the path

    The scanner of fs/namei.c interleaves cutting the path into components, in a
    buffer that it uses again and again, with the lookups.  [walk] is the reference:
    it takes the list of components.  The first theorem says that the two agree. *)

From S2P Require Import Prelude Vfs.

Local Open Scope Z_scope.

(** ** The components of a path *)

(** [cur] is the component that is being read. *)
Fixpoint split_from (cur p : list Z) : list (list Z) :=
  match p with
  | [] => if bool_decide (cur = []) then [] else [cur]
  | c :: q =>
      if bool_decide (c = slash) then
        if bool_decide (cur = []) then split_from [] q else cur :: split_from [] q
      else split_from (cur ++ [c]) q
  end.

Definition components (p : list Z) : list (list Z) := split_from [] p.

Definition ends_in_slash (p : list Z) : bool := bool_decide (last p = Some slash).

Definition name_ok (c : list Z) : Prop := (length c < 36)%nat ∧ Forall (λ x, x ≠ 0) c.

Lemma components_skip p : components (skip_slashes p) = components p.
Proof.
  induction p as [|c p IH]; [done|]. simpl. unfold components in *. simpl.
  case_bool_decide; [by rewrite IH|]. simpl. by rewrite bool_decide_eq_false_2.
Qed.

Lemma skip_slashes_length p : (length (skip_slashes p) ≤ length p)%nat.
Proof. induction p as [|c p IH]; simpl; [done|]. case_bool_decide; simpl; lia. Qed.

Lemma skip_slashes_head p c q : skip_slashes p = c :: q → c ≠ slash.
Proof. induction p as [|x p IH]; [done|]. simpl. case_bool_decide; [done|]. by intros [= <- _]. Qed.

Lemma split_from_name cur c r :
  Forall (λ x, x ≠ slash) c → split_from cur (c ++ r) = split_from (cur ++ c) r.
Proof.
  revert cur. induction c as [|x c IH]; intros cur Hc; [by rewrite app_nil_r|]. simpl.
  apply Forall_cons in Hc as [Hx Hc]. rewrite bool_decide_eq_false_2 by done.
  rewrite IH by done. by rewrite <- (assoc_L app).
Qed.

(** The first component and what follows it. *)
Lemma components_cons c r :
  Forall (λ x, x ≠ slash) c → c ≠ [] → (r = [] ∨ head r = Some slash) →
  components (c ++ r) = c :: components (skip_slashes r).
Proof.
  intros Hc Hne Hr. rewrite components_skip. unfold components. rewrite split_from_name by done.
  destruct r as [|x r]; simpl; [by rewrite bool_decide_eq_false_2|].
  destruct Hr as [?|[= ->]]; [done|]. rewrite !bool_decide_eq_true_2 by done.
  by rewrite bool_decide_eq_false_2.
Qed.

Lemma ends_skip p : skip_slashes p ≠ [] → ends_in_slash (skip_slashes p) = ends_in_slash p.
Proof.
  induction p as [|c p IH]; [done|]. simpl. case_bool_decide; [|done]. intros Hs.
  rewrite IH by done. unfold ends_in_slash. destruct p; [done|]. done.
Qed.

Lemma ends_all_slashes p : p ≠ [] → skip_slashes p = [] → ends_in_slash p = true.
Proof.
  intros Hp Hs. apply bool_decide_eq_true_2.
  assert (Hall : Forall (λ x, x = slash) p).
  { clear Hp. induction p as [|c p IH]; [done|]. simpl in Hs. case_bool_decide; [|done]. auto. }
  destruct (last p) as [x|] eqn:Hl; [|by apply last_None in Hl].
  f_equal. apply last_Some_elem_of in Hl. by eapply Forall_forall in Hall.
Qed.

Lemma ends_app c r : r ≠ [] → ends_in_slash (c ++ r) = ends_in_slash r.
Proof.
  intros Hr. unfold ends_in_slash. rewrite last_app. by destruct (last r) eqn:Hl; [|apply last_None in Hl].
Qed.

(** ** The scanner *)

(** What a [qstr] holds after the component [c] was read into it. *)
Definition holds (q : qstr) (c : list Z) : Prop :=
  length (name q) = 36%nat ∧ len q = Z.of_nat (length c) ∧ ∃ tl, name q = c ++ 0 :: tl.

Lemma scan_component_run c r buf n :
  Forall (λ x, x ≠ slash) c → (r = [] ∨ head r = Some slash) → (n + length c ≤ length buf)%nat →
  scan_component (c ++ r) buf n =
    Ok (r, take n buf ++ c ++ drop (n + length c) buf, (n + length c)%nat).
Proof.
  revert buf n. induction c as [|x c IH]; intros buf n Hc Hr Hlen; simpl.
  - rewrite Nat.add_0_r, take_drop. destruct r as [|y r]; [done|].
    by destruct Hr as [?|[= ->]].
  - apply Forall_cons in Hc as [Hx Hc]. simpl in Hlen.
    rewrite bool_decide_eq_false_2, bool_decide_eq_true_2 by (done || lia).
    rewrite IH by (done || rewrite ?length_insert; lia). do 2 f_equal; [f_equal|lia].
    rewrite (take_S_r _ _ x) by (apply list_lookup_insert_eq; lia).
    rewrite take_insert_ge, drop_insert_lt, <- (assoc_L app) by lia.
    by replace (S n + length c)%nat with (n + S (length c))%nat by lia.
Qed.

Lemma read_component_run c r buf :
  Forall (λ x, x ≠ slash) c → (r = [] ∨ head r = Some slash) → length buf = 36%nat →
  (length c < 36)%nat →
  ∃ q, read_component (c ++ r) buf = Ok (r, q) ∧ holds q c.
Proof.
  intros Hc Hr Hb Hlen. unfold read_component. rewrite scan_component_run by (done || lia).
  simpl. set (b := c ++ drop (length c) buf).
  assert (Hb' : length b = 36%nat) by (unfold b; rewrite length_app, length_drop; lia).
  rewrite bool_decide_eq_true_2 by lia. eexists. split; [reflexivity|].
  split_and!; simpl; [by rewrite length_insert|done|].
  destruct (drop (length c) buf) as [|y tl] eqn:Hd.
  { apply (f_equal length) in Hd. rewrite length_drop in Hd. simpl in Hd. lia. }
  exists tl. unfold b. rewrite insert_app_r_alt by lia. by rewrite Nat.sub_diag.
Qed.

(** Every path that does not begin with a slash begins with a component. *)
Lemma first_component p x q :
  p = x :: q → x ≠ slash →
  ∃ c r, p = c ++ r ∧ Forall (λ x, x ≠ slash) c ∧ c ≠ [] ∧ (r = [] ∨ head r = Some slash).
Proof.
  intros -> Hx. revert x Hx. induction q as [|y q IH]; intros x Hx.
  - exists [x], []. split_and!; [done|by constructor|done|by left].
  - destruct (decide (y = slash)) as [->|Hy].
    + exists [x], (slash :: q). split_and!; [done|by constructor|done|by right].
    + destruct (IH y Hy) as (c & r & E & Hc & Hne & Hr). exists (x :: c), r.
      split_and!; [by rewrite E|by constructor|done|done].
Qed.

Lemma components_nonempty x p : x ≠ slash → components (x :: p) ≠ [].
Proof.
  intros Hx. destruct (first_component (x :: p) x p eq_refl Hx) as (c & r & -> & Hc & Hne & Hr).
  by rewrite components_cons.
Qed.

(** ** The lookups see the component alone *)

Definition canon (c : list Z) : qstr := Qstr (c ++ [0]) (Z.of_nat (length c)).

Lemma buf_strncmp_prefix a c t1 t2 :
  buf_strncmp (length c) a (c ++ t1) = buf_strncmp (length c) a (c ++ t2).
Proof.
  revert a. induction c as [|x c IH]; intros a; [done|]. simpl. destruct a; [done|].
  by destruct (_ && _); [apply IH|].
Qed.

Lemma chain_find_holds s q c chain : holds q c → chain_find s q chain = chain_find s (canon c) chain.
Proof.
  intros (_ & Hl & tl & Hn). induction chain as [|d chain IH]; [done|]. simpl.
  destruct (dentries s !! d) as [k|]; [|done]. simpl. rewrite Hl, Hn, Nat2Z.id.
  rewrite (buf_strncmp_prefix _ c (0 :: tl) [0]).
  destruct (buf_strncmp _ _ _); [|done]. simpl. by case_bool_decide.
Qed.

Lemma bucket_holds d q c : holds q c → bucket d q = bucket d (canon c).
Proof.
  intros (_ & Hl & tl & Hn). unfold bucket, hash. simpl. by rewrite Hl, Hn, Nat2Z.id, !take_app_length.
Qed.

Lemma dentry_lookup_holds s d q c : holds q c → dentry_lookup s d q = dentry_lookup s d (canon c).
Proof.
  intros Hq. unfold dentry_lookup. by rewrite (chain_find_holds s q c), (bucket_holds d q c).
Qed.

Lemma do_lookup_holds s d m q c : holds q c → do_lookup s d m q = do_lookup s d m (canon c).
Proof. intros Hq. unfold do_lookup. by rewrite (dentry_lookup_holds s d q c Hq). Qed.

Lemma dots_holds q c :
  holds q c → c ≠ [] →
  dots q = (if bool_decide (c = [dot]) then 1 else if bool_decide (c = [dot; dot]) then 2 else 0).
Proof.
  intros (_ & Hl & tl & Hn) Hne. unfold dots. rewrite Hn, Hl.
  destruct c as [|x [|y [|z c]]]; simpl; [done|..].
  - repeat case_bool_decide; simplify_eq; done || lia.
  - repeat case_bool_decide; simplify_eq/=; done || lia.
  - rewrite (bool_decide_eq_false_2 (x :: y :: z :: c = [dot])), (bool_decide_eq_false_2 (x :: y :: z :: c = [dot; dot])) by done.
    repeat case_bool_decide; simpl; done || lia.
Qed.

(** ** The reference *)

(** A result, where the walk is, and the last component when the caller wants its
    parent. *)
Definition walked : Type := Z * (Z * Z) * option (list Z).

Definition parent_of (s : vfs) (d : Z) : outcome Z :=
  k ← opt (dentries s !! d); opt (dentries s !! d_parent k) ;; Ok (d_parent k).

(** The last component.  "." and ".." keep the result of what came before. *)
Definition walk_last (s : vfs) (pw : bool) (c : list Z) (res d m : Z) : outcome walked :=
  if pw then Ok (0, (d, m), Some c)
  else if bool_decide (c = [dot]) then Ok (res, (d, m), None)
  else if bool_decide (c = [dot; dot]) then p ← parent_of s d; Ok (res, (p, m), None)
  else
    r ← do_lookup s d m (canon c);
    match (r : option (Z * Z)) with
    | None => Ok (- ENOENT, (d, m), None)
    | Some (d', m') => opt (dentries s !! d') ;; Ok (0, (d', m'), None)
    end.

(** [slashed]: the path ends in a slash. *)
Fixpoint walk (s : vfs) (pw slashed : bool) (cs : list (list Z)) (res d m : Z) : outcome walked :=
  match cs with
  | [] => Ok (- ENOENT, (d, m), None)
  | c :: cs' =>
      match cs' with
      | [] => walk_last s pw c (if slashed then 0 else res) d m
      | _ :: _ =>
          if bool_decide (c = [dot]) then walk s pw slashed cs' res d m
          else if bool_decide (c = [dot; dot]) then
            p ← parent_of s d; walk s pw slashed cs' res p m
          else
            r ← do_lookup s d m (canon c);
            match (r : option (Z * Z)) with
            | None => Ok (- ENOENT, (d, m), None)
            | Some (d', m') =>
                k ← opt (dentries s !! d');
                if bool_decide (d_inode k = 0) then Ok (0, (d, m), None)
                else walk s pw slashed cs' 0 d' m'
            end
      end
  end.

Lemma walk_cons s pw slashed c c2 cs res d m :
  walk s pw slashed (c :: c2 :: cs) res d m =
    if bool_decide (c = [dot]) then walk s pw slashed (c2 :: cs) res d m
    else if bool_decide (c = [dot; dot]) then
      p ← parent_of s d; walk s pw slashed (c2 :: cs) res p m
    else
      r ← do_lookup s d m (canon c);
      match (r : option (Z * Z)) with
      | None => Ok (- ENOENT, (d, m), None)
      | Some (d', m') =>
          k ← opt (dentries s !! d');
          if bool_decide (d_inode k = 0) then Ok (0, (d, m), None)
          else walk s pw slashed (c2 :: cs) 0 d' m'
      end.
Proof. done. Qed.

Definition parent_wanted (flags : Z) : bool := negb (bool_decide (Z.land flags LOOKUP_PARENT = 0)).

Definition walk_path (s : vfs) (path : list Z) (flags : Z) : outcome walked :=
  let '(d, m) := if bool_decide (head path = Some slash) then (fs_root s, fs_mnt_root s)
                 else (fs_pwd s, fs_mnt_pwd s) in
  match components path with
  | [] => Ok (- ENOENT, (d, m), None)
  | cs => opt (dentries s !! d) ;; walk s (parent_wanted flags) (ends_in_slash path) cs (- ENOENT) d m
  end.

(** The code stops as the reference does, with the same result; when it is no error,
    at the same place and with the same last component. *)
Definition agrees (x : outcome (Z * nameidata)) (w : outcome walked) : Prop :=
  match x, w with
  | Ok (res, nd), Ok (res', dm, last) =>
      res = res' ∧ (0 ≤ res → (nd_dentry nd, nd_mnt nd) = dm) ∧
      match last with
      | Some c => holds (last_name nd) c ∧
                  last_type nd = (if bool_decide (c = [dot]) then LAST_DOTDOT else LAST_NORM)
      | None => True
      end
  | Stop a, Stop b => a = b
  | _, _ => False
  end.

Lemma lookup_last_agrees s q c res nd :
  holds q c → c ≠ [] →
  agrees (lookup_last s q res nd)
    (walk_last s (parent_wanted (nd_flags nd)) c res (nd_dentry nd) (nd_mnt nd)).
Proof.
  intros Hq Hne. unfold lookup_last, walk_last, parent_wanted.
  destruct (negb _); [|rewrite (dots_holds q c Hq Hne)].
  - simpl. split_and!; [done|done|done|].
    destruct Hq as (_ & Hl & tl & Hn). rewrite Hl, Hn. clear.
    destruct c as [|x [|y c]]; simpl; [done|..]; repeat case_bool_decide; simplify_eq/=; done || lia.
  - destruct (bool_decide_reflect (c = [dot])) as [->|H1]; [done|].
    destruct (bool_decide_reflect (c = [dot; dot])) as [->|H2]; simpl.
    + unfold parent_of. destruct (dentries s !! nd_dentry nd) as [k|]; [|done]. simpl.
      by destruct (dentries s !! d_parent k).
    + rewrite (do_lookup_holds s _ _ q c Hq). destruct (do_lookup _ _ _ _) as [[[d m]|]|]; [|done|done].
      simpl. by destruct (dentries s !! d).
Qed.

Lemma link_loop_agrees fuel s p x p' buf res nd :
  p = x :: p' → x ≠ slash → (length p < fuel)%nat → length buf = 36%nat →
  Forall (λ c, length c < 36)%nat (components p) →
  agrees (link_loop fuel s p buf res nd)
    (walk s (parent_wanted (nd_flags nd)) (ends_in_slash p) (components p) res (nd_dentry nd) (nd_mnt nd)).
Proof.
  revert p x p' buf res nd. induction fuel as [|fuel IH]; intros p x p' buf res nd Hp Hx Hf Hb Hok; [lia|].
  destruct (first_component p x p' Hp Hx) as (c & r & -> & Hc & Hne & Hr).
  rewrite (components_cons c r Hc Hne Hr) in *. apply Forall_cons in Hok as [Hlen Hok].
  destruct (read_component_run c r buf Hc Hr Hb Hlen) as (q & Hread & Hq).
  assert (Hbuf : length (name q) = 36%nat) by apply Hq.
  cbn [link_loop]. rewrite Hread. cbn [mbind outcome_bind].
  destruct r as [|y r].
  { rewrite app_nil_r. simpl skip_slashes. cbn [walk components split_from].
    replace (ends_in_slash c) with false; [by apply lookup_last_agrees|].
    symmetry. apply bool_decide_eq_false_2. intros Hl%last_Some_elem_of.
    eapply Forall_forall in Hc; [|exact Hl]. done. }
  destruct Hr as [?|[= ->]]; [done|]. simpl skip_slashes in *.
  rewrite ends_app by done.
  destruct (skip_slashes r) as [|z r'] eqn:Hs.
  { replace (ends_in_slash (slash :: r)) with true; [by apply lookup_last_agrees|].
    symmetry. by apply ends_all_slashes. }
  pose proof (skip_slashes_head _ _ _ Hs) as Hz.
  replace (ends_in_slash (slash :: r)) with (ends_in_slash (z :: r')).
  2: { rewrite <- Hs, ends_skip by congruence. unfold ends_in_slash. by destruct r. }
  assert (Hlen' : (length (z :: r') < fuel)%nat).
  { rewrite <- Hs. rewrite length_app in Hf. simpl in Hf. pose proof (skip_slashes_length r). lia. }
  destruct (components (z :: r')) as [|c2 cs] eqn:Hcs.
  { by destruct (components_nonempty z r' Hz). }
  rewrite <- Hcs in *. specialize (IH (z :: r') z r').
  rewrite (dots_holds q c Hq Hne). cbn [walk]. rewrite Hcs at 1. cbv iota.
  destruct (bool_decide_reflect (c = [dot])) as [->|H1]; [by apply IH|].
  destruct (bool_decide_reflect (c = [dot; dot])) as [->|H2].
  - unfold parent_of. destruct (dentries s !! nd_dentry nd) as [k|]; [|done]. simpl.
    destruct (dentries s !! d_parent k); [|done]. simpl.
    by apply (IH (name q) res (at_dentry (d_parent k) (nd_mnt nd) nd)).
  - cbn. rewrite (do_lookup_holds s _ _ q c Hq). destruct (do_lookup _ _ _ _) as [[[d m]|]|]; [|done|done].
    simpl. destruct (dentries s !! d) as [k|]; [|done]. simpl. case_bool_decide; [done|].
    by apply (IH (name q) 0 (at_dentry d m nd)).
Qed.

Lemma path_lookup_agrees s path buf flags nd :
  length buf = 36%nat → Forall (λ c, length c < 36)%nat (components path) →
  agrees (path_lookup s path buf flags nd) (walk_path s path flags).
Proof.
  intros Hb Hok. unfold path_lookup, walk_path. destruct path as [|c path]; [done|].
  assert (Hh : bool_decide (head (c :: path) = Some slash) = bool_decide (c = slash)).
  { apply bool_decide_ext. simpl. split; congruence. }
  rewrite Hh. destruct (if bool_decide (c = slash) then _ else _) as [d m].
  unfold link_path_lookup. rewrite <- (components_skip (c :: path)) in *.
  destruct (skip_slashes (c :: path)) as [|x p] eqn:Hs; [done|].
  pose proof (skip_slashes_head _ _ _ Hs) as Hx.
  destruct (components (x :: p)) as [|c1 cs] eqn:Hcs; [by destruct (components_nonempty x p Hx)|].
  cbn [nd_dentry]. destruct (dentries s !! d); [|done]. cbn [mbind outcome_bind opt].
  rewrite <- Hcs in *. rewrite <- (ends_skip (c :: path)), Hs by congruence.
  refine (link_loop_agrees _ s _ x p buf _ (Nameidata d m _ flags _) eq_refl Hx _ Hb Hok). lia.
Qed.

(** C25: [path_lookup] computes the walk over the components of the path, for every
    path whose components fit the name buffer, whatever the buffer held before: the
    same result, the same dentry and mount, the same last component for the callers
    that want the parent.  In particular leading, doubled and trailing slashes change
    nothing but what "." and ".." answer, and the bound of the loop always suffices. *)
Theorem path_lookup_walks s path buf flags nd :
  length buf = 36%nat → Forall (λ c, length c < 36)%nat (components path) →
  agrees (path_lookup s path buf flags nd) (walk_path s path flags).
Proof. apply path_lookup_agrees. Qed.

(** ** Creating a file and finding it *)

(** [s'] has the entries of [s], counts aside, and perhaps another [d]; the tables
    are the same. *)
Record keeps (d : Z) (s s' : vfs) : Prop := {
  k_entries x k : x ≠ d → dentries s !! x = Some k → ∃ n, dentries s' !! x = Some (with_dcount n k);
  k_table : dentry_hashtable s' = dentry_hashtable s;
  k_mounts : mounts s' = mounts s;
  k_mtable : vfsmnt_hashtable s' = vfsmnt_hashtable s;
  k_fs : (fs_root s', fs_mnt_root s', fs_pwd s', fs_mnt_pwd s') =
         (fs_root s, fs_mnt_root s, fs_pwd s, fs_mnt_pwd s) }.

Lemma with_dcount_same k : with_dcount (d_count k) k = k.
Proof. by destruct k. Qed.

#[local] Instance keeps_refl d : Reflexive (keeps d).
Proof. intros s. split; try done. intros x k _ Hk. exists (d_count k). by rewrite with_dcount_same. Qed.

#[local] Instance keeps_trans d : Transitive (keeps d).
Proof.
  intros s1 s2 s3 [E T M1 M2 F] [E' T' M1' M2' F']. split; try congruence.
  intros x k Hx Hk. destruct (E x k Hx Hk) as (n & Hn). destruct (E' x _ Hx Hn) as (n' & Hn').
  by exists n'.
Qed.

Lemma keeps_dentries d s m :
  (∀ x k, x ≠ d → dentries s !! x = Some k → ∃ n, m !! x = Some (with_dcount n k)) →
  keeps d s (set_dentries m s).
Proof. intros Hm. by split. Qed.

Lemma keeps_same d s s' :
  dentries s' = dentries s → dentry_hashtable s' = dentry_hashtable s → mounts s' = mounts s →
  vfsmnt_hashtable s' = vfsmnt_hashtable s →
  (fs_root s', fs_mnt_root s', fs_pwd s', fs_mnt_pwd s') =
    (fs_root s, fs_mnt_root s, fs_pwd s, fs_mnt_pwd s) → keeps d s s'.
Proof.
  intros Hd. split; try done. intros x k _ Hk. rewrite Hd. exists (d_count k). by rewrite with_dcount_same.
Qed.

Lemma keeps_edit d x g s k :
  dentries s !! x = Some k → x = d ∨ (∃ n, g = with_dcount n k) →
  keeps d s (set_dentries (<[x := g]> (dentries s)) s).
Proof.
  intros Hk Hg. apply keeps_dentries. intros y ky Hy Hky. destruct (decide (y = x)) as [->|Hne].
  - destruct Hg as [->|[n ->]]; [done|]. rewrite lookup_insert_eq. simplify_eq. eauto.
  - rewrite lookup_insert_ne by done. exists (d_count ky). by rewrite with_dcount_same.
Qed.

Lemma edit_dentry_run s d g k :
  dentries s !! d = Some k → edit_dentry d g s = Ok (tt, set_dentries (<[d := g k]> (dentries s)) s).
Proof.
  intros Hk. unfold edit_dentry, load_dentry. rewrite (bind_Ok _ _ s k s); [done|]. run_step. by rewrite Hk.
Qed.

Lemma edit_inode_run s i g k :
  inodes s !! i = Some k →
  edit_inode i g s = Ok (tt, set_inodes (<[i := g k]> (inodes s)) (last_ino s) s).
Proof. intros Hk. unfold edit_inode. run_step. by erewrite bind_Ok by (by apply of_option_Some). Qed.

Lemma vfs_kmalloc_run s a l : avail s = a :: l → kmalloc s = Ok (a, set_avail l s).
Proof. intros Ha. unfold kmalloc. by rewrite Ha. Qed.

Lemma d_alloc_run s parent kp q d l :
  avail s = d :: l → d ≠ 0 → parent ≠ 0 → d ≠ parent → dentries s !! parent = Some kp →
  d_alloc parent q s =
    Ok (d, set_dentries (<[d := Dentry parent 0 (d_sb kp) q 1 0]>
             (<[parent := with_dcount (i32 (d_count kp + 1)) kp]> (dentries s))) (set_avail l s)).
Proof.
  intros Ha Hd Hp Hne Hk.
  unfold d_alloc, dget, edit_dentry, load_dentry, mbind, M_bind, get, modify, mret, M_ret.
  rewrite (vfs_kmalloc_run s d l Ha).
  rewrite (bool_decide_eq_false_2 (d = 0)), !(bool_decide_eq_false_2 (parent = 0)) by done. simpl.
  rewrite lookup_insert_ne, Hk by done. simpl. rewrite lookup_insert_eq. simpl.
  rewrite lookup_insert_ne, lookup_insert_eq by done. unfold set_dentries. simpl.
  by rewrite (insert_insert_ne _ parent d), insert_insert_eq by done.
Qed.

(** The inode that [get_inode] makes. *)
Definition made_inode (ops : inode_operations) (sb dev mode ino : Z) : inode :=
  let '(op, fop) :=
    if bool_decide (Z.land mode S_IFMT = S_IFREG) then (simple_file_iops, simple_file_fop)
    else if bool_decide (Z.land mode S_IFMT = S_IFDIR) then (ops, simple_dir_fop)
    else (empty_iops, 0) in
  Inode ino dev mode 0 1 op fop sb 0.

Lemma get_inode_run ops s sb dev mode i l :
  supers s !! sb = Some dev → avail s = i :: l → i ≠ 0 →
  get_inode ops sb mode s =
    Ok (i, set_inodes (<[i := made_inode ops sb dev mode (u32 (last_ino s + 1))]> (inodes s))
             (u32 (last_ino s + 1)) (set_avail l s)).
Proof.
  intros Hs Ha Hi.
  unfold get_inode, new_inode, alloc_inode, edit_inode, mbind, M_bind, get, put, modify, mret, M_ret.
  rewrite Hs. simpl. rewrite (vfs_kmalloc_run s i l Ha), !(bool_decide_eq_false_2 (i = 0)) by done. simpl.
  rewrite !lookup_insert_eq. simpl. rewrite !(bool_decide_eq_false_2 (i = 0)) by done. simpl.
  rewrite !lookup_insert_eq. unfold set_inodes, made_inode. simpl.
  rewrite !insert_insert_eq. by repeat case_bool_decide.
Qed.

Lemma mknod_run ops s dir kdir d kd dev mode i l :
  inodes s !! dir = Some kdir → supers s !! i_sb kdir = Some dev → avail s = i :: l → i ≠ 0 →
  dentries s !! d = Some kd →
  mknod (get_inode ops) dir d mode s =
    Ok (0, set_dentries (<[d := with_dcount 1 (with_dinode i kd)]> (dentries s))
             (set_inodes (<[i := made_inode ops (i_sb kdir) dev mode (u32 (last_ino s + 1))]> (inodes s))
                (u32 (last_ino s + 1)) (set_avail l s))).
Proof.
  intros Hdir Hsb Ha Hi Hd. unfold mknod. run_step. erewrite bind_Ok by (by apply of_option_Some).
  rewrite (bind_Ok _ _ _ _ _ (get_inode_run ops s _ _ mode i l Hsb Ha Hi)).
  rewrite bool_decide_eq_false_2 by done.
  erewrite bind_Ok by (apply edit_dentry_run; exact Hd).
  erewrite bind_Ok by (apply edit_dentry_run, lookup_insert_eq).
  unfold mret, M_ret, set_dentries. simpl. by rewrite insert_insert_eq.
Qed.

(** [op] makes the entry as [mknod] does. *)
Definition makes (op : Z → Z → Z → M vfs Z) (ty : Z) (s : vfs) (dir : Z) : Prop :=
  ∀ d kd mode i l,
    avail s = i :: l → i ≠ 0 → dentries s !! d = Some kd →
    ∃ s' ino, op dir d mode s = Ok (0, s') ∧
      dentries s' = <[d := with_dcount 1 (with_dinode i kd)]> (dentries s) ∧
      (∀ t, keeps t (set_dentries (dentries s') s) s') ∧ inodes s' !! i = Some ino ∧
      i_mode ino = Z.lor mode ty.

Lemma made_inode_mode ops sb dev mode n : i_mode (made_inode ops sb dev mode n) = mode.
Proof. unfold made_inode. by repeat case_bool_decide. Qed.

Lemma op_create_makes s dir kdir dev :
  inodes s !! dir = Some kdir → (i_op kdir = simple_dir_iops ∨ i_op kdir = ramfs_dir_iops) →
  supers s !! i_sb kdir = Some dev → makes op_create S_IFREG s dir.
Proof.
  intros Hdir Hop Hsb d kd mode i l Ha Hi Hd.
  assert (Hrun : ∃ ops, op_create dir d mode s = mknod (get_inode ops) dir d (Z.lor mode S_IFREG) s).
  { unfold op_create. run_step. erewrite bind_Ok by (by apply of_option_Some).
    destruct Hop as [-> | ->]; [by exists simple_dir_iops|by exists ramfs_dir_iops]. }
  destruct Hrun as [ops ->]. rewrite (mknod_run ops s dir kdir d kd dev _ i l Hdir Hsb Ha Hi Hd).
  eexists _, _. split; [reflexivity|]. split_and!; [done|intros t; by apply keeps_same| |].
  - apply lookup_insert_eq.
  - apply made_inode_mode.
Qed.

(** Where [make_entry] leads when the name is free and memory is at hand. *)
Lemma make_entry_run op ty s nd mode kp d i l :
  nd_dentry nd ≠ 0 → dentries s !! nd_dentry nd = Some kp →
  dentry_lookup s (nd_dentry nd) (last_name nd) = Ok 0 →
  avail s = d :: i :: l → d ≠ 0 → i ≠ 0 → dentries s !! d = None →
  (∀ s1, inodes s1 = inodes s → supers s1 = supers s → makes op ty s1 (d_inode kp)) →
  ∃ s' s2 ino b, make_entry op nd mode s = Ok (0, s') ∧ keeps d s s2 ∧
    dentries s2 !! d = Some (Dentry (nd_dentry nd) i (d_sb kp) (last_name nd) 1 0) ∧
    inodes s2 !! i = Some ino ∧ i_mode ino = Z.lor mode ty ∧
    b = bucket (nd_dentry nd) (last_name nd) ∧
    s' = set_dhash (<[b := d :: default [] (dentry_hashtable s2 !! b)]> (dentry_hashtable s2)) s2.
Proof.
  intros Hp Hkp Hfree Ha Hd Hi Hfresh Hop. unfold make_entry. run_step.
  erewrite bind_Ok by (by apply of_option_Some). erewrite bind_Ok by (apply lift_Ok; exact Hfree).
  rewrite bool_decide_eq_false_2 by (by intros []).
  assert (Hdp : d ≠ nd_dentry nd) by congruence.
  rewrite (bind_Ok _ _ _ _ _ (d_alloc_run s _ kp (last_name nd) d (i :: l) Ha Hd Hp Hdp Hkp)).
  rewrite bool_decide_eq_false_2 by done. set (s1 := set_dentries _ _).
  destruct (Hop s1 eq_refl eq_refl d (Dentry (nd_dentry nd) 0 (d_sb kp) (last_name nd) 1 0) mode i l)
    as (s2 & ino & Hrun & Hd2 & Hk2 & Hi2 & Hm); [done|done|apply lookup_insert_eq|].
  rewrite (bind_Ok _ _ _ _ _ Hrun). rewrite bool_decide_eq_false_2 by lia.
  assert (Hd2' : dentries s2 !! d = Some (Dentry (nd_dentry nd) i (d_sb kp) (last_name nd) 1 0))
    by (rewrite Hd2; apply lookup_insert_eq).
  unfold dentry_insert. rewrite bind_assoc. run_step. rewrite bind_assoc.
  erewrite bind_Ok by (apply of_option_Some; exact Hd2'). run_step.
  eexists _, s2, ino, _. split; [reflexivity|]. split_and!; [|done|done|done|done|done].
  transitivity (set_dentries (dentries s2) s1); [|apply Hk2].
  split; [|done..]. intros x k Hx Hk. cbn [dentries set_dentries]. rewrite Hd2, lookup_insert_ne by done. cbn.
  rewrite lookup_insert_ne by done. destruct (decide (x = nd_dentry nd)) as [->|Hne].
  - rewrite lookup_insert_eq. simplify_eq. eauto.
  - rewrite lookup_insert_ne by done. exists (d_count k). by rewrite with_dcount_same.
Qed.

(** ** What an insertion changes for the lookups *)

Lemma strncmp_prefix c a t :
  Forall (λ x, x ≠ 0) c → (length c ≤ length a)%nat →
  ∃ r, buf_strncmp (length c) a (c ++ t) = Ok r ∧ (r = 0 ↔ c `prefix_of` a).
Proof.
  revert a. induction c as [|x c IH]; intros a Hc Hlen; simpl in *.
  { exists 0. split; [done|]. split; [|done]. intros _. apply prefix_nil. }
  destruct a as [|y a]; simpl in *; [lia|]. apply Forall_cons in Hc as [Hx Hc].
  destruct (decide (y = x)) as [->|Hne].
  - rewrite bool_decide_eq_false_2, bool_decide_eq_true_2 by done. simpl.
    destruct (IH a Hc ltac:(lia)) as (r & -> & Hr). exists r. split; [done|]. rewrite Hr.
    split; [apply prefix_cons|apply prefix_cons_inv_2].
  - rewrite (bool_decide_eq_false_2 (y = x)), andb_false_r by done. exists (y - x). split; [done|].
    split; [lia|]. intros Hp%prefix_cons_inv_1. congruence.
Qed.

Lemma prefix_terminated c' c tl : Forall (λ x, x ≠ 0) c' → c' `prefix_of` c ++ 0 :: tl → c' `prefix_of` c.
Proof.
  revert c. induction c' as [|x c' IH]; intros c Hc Hp; [apply prefix_nil|].
  apply Forall_cons in Hc as [Hx Hc]. destruct c as [|y c]; simpl in Hp.
  - apply prefix_cons_inv_1 in Hp. congruence.
  - pose proof (prefix_cons_inv_1 _ _ _ _ Hp) as ->. apply prefix_cons, IH; [done|].
    by eapply prefix_cons_inv_2.
Qed.

Section inserted.
Context (s s2 : vfs) (d parent : Z) (kd : dentry) (c : list Z).
Context (Hkeep : keeps d s s2) (Hnew : dentries s !! d = None) (Hd0 : d ≠ 0).
Context (Hkd : dentries s2 !! d = Some kd) (Hc : holds (d_name kd) c) (Hcz : Forall (λ x, x ≠ 0) c).

Definition inserted : vfs :=
  let b := bucket parent (d_name kd) in
  set_dhash (<[b := d :: default [] (dentry_hashtable s2 !! b)]> (dentry_hashtable s2)) s2.

Lemma old_entry x k : dentries s !! x = Some k → ∃ n, dentries inserted !! x = Some (with_dcount n k).
Proof. intros Hx. apply (k_entries _ _ _ Hkeep); [congruence|done]. Qed.

Lemma chain_find_old q chain x : chain_find s q chain = Ok x → chain_find inserted q chain = Ok x.
Proof.
  induction chain as [|y chain IH]; [done|]. cbn [chain_find].
  destruct (dentries s !! y) as [k|] eqn:Hy; [|done]. destruct (old_entry y k Hy) as [n ->]. simpl.
  destruct (buf_strncmp _ _ _); [|done]. simpl. case_bool_decide; [done|]. apply IH.
Qed.

(** A name that is no prefix of the new one, or in another bucket, is found where it
    was. *)
Lemma dentry_lookup_apart p c' x :
  Forall (λ x, x ≠ 0) c' → (length c' < 36)%nat →
  (c' `prefix_of` c → bucket p (canon c') ≠ bucket parent (canon c)) →
  dentry_lookup s p (canon c') = Ok x → dentry_lookup inserted p (canon c') = Ok x.
Proof.
  intros Hz Hl Hnp Hlk. pose proof Hc as Hh. unfold dentry_lookup in *. cbn [inserted set_dhash dentry_hashtable].
  rewrite (k_table _ _ _ Hkeep). apply chain_find_old in Hlk.
  destruct (decide (bucket parent (d_name kd) = bucket p (canon c'))) as [Eb|Hne];
    [rewrite Eb, lookup_insert_eq|by rewrite lookup_insert_ne].
  cbn [default from_option id]. cbn [chain_find]. cbn [inserted set_dhash dentries]. rewrite Hkd.
  cbn [opt mbind outcome_bind]. destruct Hh as (H36 & _ & tl & Hn).
  change (Z.to_nat (len (canon c'))) with (Z.to_nat (Z.of_nat (length c'))). rewrite Nat2Z.id.
  destruct (strncmp_prefix c' (name (d_name kd)) [0] Hz ltac:(lia)) as (r & Hr & Hr0).
  change (name (canon c')) with (c' ++ [0]). rewrite Hr. cbn [mbind outcome_bind].
  rewrite bool_decide_eq_false_2; [exact Hlk|]. intros [t Ht]%Hr0.
  apply Hnp; [apply (prefix_terminated c' c tl Hz); exists t; congruence|]. by rewrite <- Eb, (bucket_holds _ _ _ Hc).
Qed.

Lemma dentry_lookup_old p c' x :
  Forall (λ x, x ≠ 0) c' → (length c' < 36)%nat → ¬ c' `prefix_of` c →
  dentry_lookup s p (canon c') = Ok x → dentry_lookup inserted p (canon c') = Ok x.
Proof. intros Hz Hl Hnp. apply dentry_lookup_apart; [done|done|]. by intros ?. Qed.

(** The new name is found. *)
Lemma dentry_lookup_new : dentry_lookup inserted parent (canon c) = Ok d.
Proof.
  rewrite <- (dentry_lookup_holds inserted parent (d_name kd) c Hc). unfold dentry_lookup.
  cbn [inserted set_dhash dentry_hashtable]. rewrite lookup_insert_eq. cbn [default from_option id].
  cbn [chain_find]. cbn [inserted set_dhash dentries]. rewrite Hkd. cbn [opt mbind outcome_bind].
  destruct Hc as (H36 & Hl & tl & Hn). rewrite Hl, Nat2Z.id, Hn.
  destruct (strncmp_prefix c (c ++ 0 :: tl) (0 :: tl) Hcz) as (r & Hr & Hr0);
    [rewrite length_app; lia|].
  rewrite Hr. cbn [mbind outcome_bind]. rewrite bool_decide_eq_true_2; [done|]. apply Hr0. by eexists.
Qed.

Lemma lookup_vfsmnt_old m x : lookup_vfsmnt inserted m x = lookup_vfsmnt s m x.
Proof.
  unfold lookup_vfsmnt. cbn [inserted set_dhash vfsmnt_hashtable]. rewrite (k_mtable _ _ _ Hkeep).
  induction (default _ _) as [|y chain IH]; [done|]. simpl. rewrite (k_mounts _ _ _ Hkeep).
  destruct (mounts s !! y); [|done]. simpl. by case_bool_decide.
Qed.

Lemma follow_mount_old n x m : follow_mount n inserted x m = follow_mount n s x m.
Proof.
  revert x m. induction n as [|n IH]; intros x m; [done|]. cbn [follow_mount].
  case_bool_decide; [done|]. rewrite lookup_vfsmnt_old. destruct (lookup_vfsmnt s m x); [|done].
  cbn [mbind outcome_bind]. case_bool_decide; [done|].
  cbn [inserted set_dhash mounts]. rewrite (k_mounts _ _ _ Hkeep).
  destruct (mounts s !! a); [|done]. apply IH.
Qed.

Lemma do_lookup_old p m c' r :
  name_ok c' → (c' `prefix_of` c → bucket p (canon c') ≠ bucket parent (canon c)) → do_lookup s p m (canon c') = Ok r →
  do_lookup inserted p m (canon c') = Ok r.
Proof.
  intros [Hl Hz] Hnp. unfold do_lookup. destruct (dentry_lookup s p (canon c')) as [x|] eqn:Hlk; [|done].
  rewrite (dentry_lookup_apart p c' x Hz Hl Hnp Hlk). cbn [mbind outcome_bind]. case_bool_decide; [done|].
  rewrite follow_mount_old. cbn [inserted set_dhash mounts]. by rewrite (k_mounts _ _ _ Hkeep).
Qed.

(** The name [c'] is not taken for the new one, in whatever directory it is looked up. *)
Definition not_shadowed (c' : list Z) : Prop :=
  c' `prefix_of` c → ∀ p, is_Some (dentries s !! p) → bucket p (canon c') ≠ bucket parent (canon c).

(** The walk to the parent is the same; then the new name is looked up. *)
Lemma walk_inserted slashed cs res x m pd pm :
  walk s true slashed cs res x m = Ok (0, (pd, pm), Some c) → is_Some (dentries s !! x) → Forall name_ok cs →
  Forall not_shadowed (removelast cs) →
  ∃ res', walk inserted false slashed cs res x m = walk_last inserted false c res' pd pm.
Proof.
  revert res x m. induction cs as [|c1 cs IH]; intros res x m Hw Hin Hok Hnp; [done|].
  apply Forall_cons in Hok as [Hok1 Hok]. destruct cs as [|c2 cs].
  { simpl in Hw. injection Hw as <- <- <-. simpl. by eexists. }
  cbn [removelast] in Hnp. apply Forall_cons in Hnp as [Hnp1 Hnp].
  rewrite walk_cons in Hw. setoid_rewrite walk_cons.
  case_bool_decide; [by apply IH|]. case_bool_decide.
  { unfold parent_of in *. destruct (dentries s !! x) as [k|] eqn:Hx; [|done].
    destruct (old_entry x k Hx) as [n ->]. cbn [opt mbind outcome_bind with_dcount d_parent] in *.
    destruct (dentries s !! d_parent k) as [k'|] eqn:Hx'; [|done].
    destruct (old_entry _ k' Hx') as [n' ->]. cbn [opt mbind outcome_bind] in *. apply IH; [done|by eexists|done|done]. }
  destruct (do_lookup s x m (canon c1)) as [r|] eqn:Hr; [|done].
  rewrite (do_lookup_old _ _ _ _ Hok1 (λ E, Hnp1 E x Hin) Hr). cbn [mbind outcome_bind] in *.
  destruct r as [[d' m']|]; [|done].
  destruct (dentries s !! d') as [k|] eqn:Hx; [|done]. destruct (old_entry d' k Hx) as [n ->].
  cbn [opt mbind outcome_bind with_dcount d_inode] in *. case_bool_decide; [done|].
  apply IH; [done|by eexists|done|done].
Qed.

Lemma walk_last_new res m :
  c ≠ [dot] → c ≠ [dot; dot] → lookup_vfsmnt s m d = Ok 0 →
  walk_last inserted false c res parent m = Ok (0, (d, m), None).
Proof.
  intros H1 H2 Hm. unfold walk_last. rewrite !bool_decide_eq_false_2 by done.
  unfold do_lookup. rewrite dentry_lookup_new. cbn [mbind outcome_bind].
  rewrite bool_decide_eq_false_2 by done. cbn [follow_mount]. rewrite bool_decide_eq_false_2 by done.
  rewrite lookup_vfsmnt_old, Hm. cbn [mbind outcome_bind].
  rewrite (bool_decide_eq_true_2 (0 = 0)) by done. cbn [mbind outcome_bind].
  cbn [inserted set_dhash dentries]. by rewrite Hkd.
Qed.
End inserted.

(** What [create] relies on to make the entry [d] with the inode [i] for the last
    component [c] of [path], in the directory [pd] on the mount [pm]. *)
Record can_create (s : vfs) (path c : list Z) (pd pm d i : Z) : Prop := {
  cc_names : Forall name_ok (components path);
  cc_parent : walk_path s path LOOKUP_PARENT = Ok (0, (pd, pm), Some c);
  cc_name : c ≠ [dot] ∧ c ≠ [dot; dot] ∧ Forall (λ x, x ≠ 0) c;
  (** no directory on the way has a name that begins the new one and shares its chain:
      a lookup compares only as many bytes as the name that is looked up has *)
  cc_shadow : Forall (not_shadowed s pd c) (removelast (components path));
  cc_free : dentry_lookup s pd (canon c) = Ok 0;
  (** the directory is of simplefs or of the ram file system *)
  cc_dir : pd ≠ 0 ∧ ∃ kp kdir, dentries s !! pd = Some kp ∧ inodes s !! d_inode kp = Some kdir ∧
             (i_op kdir = simple_dir_iops ∨ i_op kdir = ramfs_dir_iops) ∧ is_Some (supers s !! i_sb kdir);
  cc_memory : d ≠ 0 ∧ i ≠ 0 ∧ dentries s !! d = None ∧ ∃ l, avail s = d :: i :: l;
  (** nothing is mounted on the address of the new entry *)
  cc_mount : lookup_vfsmnt s pm d = Ok 0 }.

Lemma walk_path_inserted s s2 path c pd pm d kd :
  keeps d s s2 → dentries s !! d = None → d ≠ 0 → dentries s2 !! d = Some kd → holds (d_name kd) c →
  walk_path s path LOOKUP_PARENT = Ok (0, (pd, pm), Some c) → Forall name_ok (components path) →
  c ≠ [dot] → c ≠ [dot; dot] → Forall (λ x, x ≠ 0) c →
  Forall (not_shadowed s pd c) (removelast (components path)) → lookup_vfsmnt s pm d = Ok 0 →
  walk_path (inserted s2 d pd kd) path 0 = Ok (0, (d, pm), None).
Proof.
  intros Hk Hnew Hd0 Hkd Hh Hw Hok H1 H2 Hz Hnp Hm. unfold walk_path in *.
  pose proof (k_fs _ _ _ Hk) as Hfs. injection Hfs as E1 E2 E3 E4.
  change (fs_root (inserted s2 d pd kd)) with (fs_root s2).
  change (fs_mnt_root (inserted s2 d pd kd)) with (fs_mnt_root s2).
  change (fs_pwd (inserted s2 d pd kd)) with (fs_pwd s2).
  change (fs_mnt_pwd (inserted s2 d pd kd)) with (fs_mnt_pwd s2). rewrite E1, E2, E3, E4.
  change (parent_wanted 0) with false. change (parent_wanted LOOKUP_PARENT) with true in Hw.
  destruct (if bool_decide (head path = Some slash) then _ else _) as [x m].
  destruct (components path) as [|c1 cs]; [done|].
  destruct (dentries s !! x) as [kx|] eqn:Hx; [|done]. cbn [opt mbind outcome_bind] in Hw.
  destruct (old_entry s s2 d pd kd Hk Hnew x kx Hx) as [n ->]. cbn [opt mbind outcome_bind].
  destruct (walk_inserted s s2 d pd kd c Hk Hnew Hkd Hh Hz (ends_in_slash path) (c1 :: cs) (- ENOENT) x m pd pm)
    as [res' ->]; [done|by eexists|done..|].
  by apply (walk_last_new s s2 d pd kd c).
Qed.

(** C27: after [create] of a path whose last component is free, in a directory of
    simplefs or the ram file system and with memory for the entry and the inode, the
    file is there: the call returns 0, and looking the same path up, however the stack
    looks, finds the new dentry, whose inode is a regular file with the mode that was
    asked for.  This needs that no directory on the way has a name that begins the new
    one and lies in the same chain of the hash table ([cc_shadow]; without it the new
    file hides the directory, as [created_file_hides_directory] shows), and that nothing
    was mounted on the address of the new entry ([cc_mount]). *)
Theorem create_then_lookup s path c pd pm d i mode buf buf' nd0 :
  can_create s path c pd pm d i → length buf = 36%nat → length buf' = 36%nat →
  ∃ s' nd k ino, create path buf mode s = Ok (0, s') ∧
    path_lookup s' path buf' 0 nd0 = Ok (0, nd) ∧ nd_dentry nd = d ∧
    dentries s' !! d = Some k ∧ d_inode k = i ∧ d_parent k = pd ∧
    inodes s' !! i = Some ino ∧ i_mode ino = Z.lor mode S_IFREG.
Proof.
  intros [Hok Hpar (Hc1 & Hc2 & Hcz) Hsh Hfree (Hpd & kp & kdir & Hkp & Hkdir & Hop & [dev Hsb])
    (Hd & Hi & Hnew & l & Hav) Hmnt] Hb Hb'.
  assert (Hlen : Forall (λ c, length c < 36)%nat (components path)) by (eapply Forall_impl; [done|]; by intros ? []).
  pose proof (path_lookup_agrees s path buf LOOKUP_PARENT empty_nd Hb Hlen) as Hag. rewrite Hpar in Hag.
  destruct (path_lookup s path buf LOOKUP_PARENT empty_nd) as [[res nd]|] eqn:Hpl; [|done].
  destruct Hag as (-> & Hdm & Hh & _). specialize (Hdm ltac:(lia)). injection Hdm as <- <-.
  rewrite <- (dentry_lookup_holds s _ _ c Hh) in Hfree.
  assert (Hmk : ∀ s1, inodes s1 = inodes s → supers s1 = supers s → makes op_create S_IFREG s1 (d_inode kp)).
  { intros s1 E1 E2. apply (op_create_makes s1 _ kdir dev); congruence. }
  destruct (make_entry_run op_create S_IFREG s nd mode kp d i l Hpd Hkp Hfree Hav Hd Hi Hnew Hmk)
    as (s' & s2 & ino & b & Hrun & Hkeep & Hkd & Hino & Hmode & -> & ->).
  set (kd := Dentry _ _ _ _ _ _) in Hkd.
  pose proof (walk_path_inserted s s2 path c _ _ d kd Hkeep Hnew Hd Hkd Hh Hpar Hok Hc1 Hc2 Hcz Hsh Hmnt) as Hw.
  pose proof (path_lookup_agrees (inserted s2 d (nd_dentry nd) kd) path buf' 0 nd0 Hb' Hlen) as Hag'.
  rewrite Hw in Hag'. destruct (path_lookup _ path buf' 0 nd0) as [[res' nd']|] eqn:Hpl'; [|done].
  destruct Hag' as (-> & Hdm' & _). specialize (Hdm' ltac:(lia)). injection Hdm' as Hd' _.
  eexists (inserted s2 d (nd_dentry nd) kd), nd', kd, ino. split.
  { unfold create. run_step. erewrite bind_Ok by (apply lift_Ok; exact Hpl). exact Hrun. }
  by split_and!.
Qed.

(** A root directory with nothing in it. *)
Definition demo_root : dentry := Dentry 1000 2000 3000 (Qstr (slash :: replicate 35 0) 1) 1 0.
Definition demo_dir : inode := Inode 1 0 S_IFDIR 0 1 simple_dir_iops simple_dir_fop 3000 0.
Definition demo_vfs : vfs :=
  Vfs {[1000 := demo_root]} ∅ {[2000 := demo_dir]} {[3000 := 0]} ∅ ∅ 1 1000 7 1000 7 [4000; 5000].

(** With the directory "d" at the address [dir]. *)
Definition demo_deep (dir : Z) : vfs :=
  Vfs (<[dir := Dentry 1000 2001 3000 (canon [100]) 1 0]> {[1000 := demo_root]}) {[bucket 1000 (canon [100]) := [dir]]}
    (<[2001 := demo_dir]> {[2000 := demo_dir]}) {[3000 := 0]} ∅ ∅ 1 1000 7 1000 7 [4000; 5000].

(** "/d/da" *)
Definition demo_path : list Z := [slash; 100; slash; 100; 97].

Lemma demo_can_create : can_create (demo_deep 1100) demo_path [100; 97] 1100 7 4000 5000.
Proof.
  split.
  - repeat constructor; simpl; lia.
  - vm_compute. reflexivity.
  - split_and!; [done|done|]. repeat constructor; lia.
  - apply Forall_singleton. intros _ p Hp.
    assert (p = 1000 ∨ p = 1100) as [-> | ->].
    { destruct Hp as [k Hk]. cbn [demo_deep dentries] in Hk. rewrite lookup_insert in Hk. case_decide; [by right|].
      apply lookup_singleton_Some in Hk as [<- _]. by left. }
    + apply (bool_decide_unpack _). by vm_compute.
    + apply (bool_decide_unpack _). by vm_compute.
  - vm_compute. reflexivity.
  - split; [lia|]. eexists _, _. split_and!; [by vm_compute|by vm_compute|by left|]. vm_compute. eauto.
  - split_and!; [lia|lia|done|]. by exists [].
  - vm_compute. reflexivity.
Qed.

Lemma create_then_lookup_witness :
  ∃ s' nd, create demo_path (replicate 36 1) 7 (demo_deep 1100) = Ok (0, s') ∧
    path_lookup s' demo_path (replicate 36 2) 0 empty_nd = Ok (0, nd) ∧ nd_dentry nd = 4000.
Proof.
  destruct (create_then_lookup (demo_deep 1100) demo_path [100; 97] 1100 7 4000 5000 7 (replicate 36 1) (replicate 36 2)
    empty_nd demo_can_create eq_refl eq_refl) as (s' & nd & _ & _ & H1 & H2 & H3 & _).
  exists s', nd. split; [exact H1|split; [exact H2|exact H3]].
Defined.

(** When the directory is at 1129 the two names share a chain: [create] of "/d/da" hides
    "/d", so that neither can be found. *)
Theorem created_file_hides_directory :
  ∃ s' nd nd', create demo_path (replicate 36 1) 7 (demo_deep 1129) = Ok (0, s') ∧
    path_lookup s' demo_path (replicate 36 2) 0 empty_nd = Ok (- ENOENT, nd) ∧
    path_lookup s' [slash; 100] (replicate 36 2) 0 empty_nd = Ok (0, nd') ∧ nd_dentry nd' = 4000.
Proof. eexists _, _, _. split_and!; [vm_compute; reflexivity..|reflexivity]. Qed.

Lemma path_lookup_walks_witness :
  agrees (path_lookup demo_vfs [slash; slash; dot; dot; slash; 97] (replicate 36 5) 0 empty_nd)
    (Ok (- ENOENT, (1000, 7), None)).
Proof.
  refine (path_lookup_walks demo_vfs [slash; slash; dot; dot; slash; 97] (replicate 36 5) 0 empty_nd _ _).
  - reflexivity.
  - vm_compute. repeat constructor.
Defined.

(** ** Directories that cannot be told apart

    The hash is shifted left by 5 before it is reduced modulo 1024, so that only the
    low 5 bits of the address of the directory count, and a chain is searched by name
    alone: two directories whose addresses agree modulo 32 have the same files. *)
Lemma bucket_low_bits p p' q : p mod 32 = p' mod 32 → bucket p q = bucket p' q.
Proof.
  intros Hp. unfold bucket, hash, u32, MAX_DENTRY_HASH. set (h := _hash _).
  assert (Hx : ∀ x, Z.shiftl x 5 mod 2 ^ 32 mod 1024 = 32 * (x mod 32)).
  { intros x. rewrite Z.shiftl_mul_pow2 by lia. rewrite <- Znumtheory.Zmod_div_mod by (lia || by exists (2 ^ 22)).
    replace (x * 2 ^ 5) with (32 * x) by lia. change 1024 with (32 * 32). apply Z.mul_mod_distr_l; lia. }
  rewrite !Hx. f_equal. change 32 with (2 ^ 5) in *. rewrite <- !Z.land_ones in * by lia.
  rewrite !(Z.land_comm _ (Z.ones 5)) in *. apply Z.bits_inj'. intros n Hn.
  apply (f_equal (λ z, Z.testbit z n)) in Hp. rewrite !Z.land_spec, !Z.lxor_spec in *.
  destruct (Z.testbit (Z.ones 5) n); [|done]. simpl in *. by rewrite Hp.
Qed.

Theorem lookup_ignores_directory s p p' q : p mod 32 = p' mod 32 → dentry_lookup s p q = dentry_lookup s p' q.
Proof. intros Hp. unfold dentry_lookup. by rewrite (bucket_low_bits p p' q Hp). Qed.

(** A lookup of "a" finds "ab". *)
Theorem lookup_finds_longer_name :
  ∃ s d, dentries s !! d = Some (Dentry 0 9 0 (canon [97; 98]) 1 0) ∧
    dentry_lookup s 0 (canon [97]) = Ok d ∧ d ≠ 0.
Proof.
  exists (Vfs {[64 := Dentry 0 9 0 (canon [97; 98]) 1 0]} {[bucket 0 (canon [97]) := [64]]} ∅ ∅ ∅ ∅ 0 0 0 0 0 []), 64.
  split_and!; [done|by vm_compute|done].
Qed.

Lemma scan_component_overflow c buf n :
  Forall (λ x, x ≠ slash) c → (n ≤ length buf < n + length c)%nat →
  scan_component c buf n = Stop Faulted.
Proof.
  revert buf n. induction c as [|x c IH]; intros buf n Hc Hlen; simpl in *; [lia|].
  apply Forall_cons in Hc as [Hx Hc]. rewrite bool_decide_eq_false_2 by done.
  case_bool_decide; [|done]. apply IH; [done|]. rewrite length_insert. lia.
Qed.

(** A component of 36 bytes or more is written past the end of the buffer. *)
Theorem long_component_faults c buf :
  Forall (λ x, x ≠ slash) c → length buf = 36%nat → (36 ≤ length c)%nat →
  read_component c buf = Stop Faulted.
Proof.
  intros Hc Hb Hlen. unfold read_component. destruct (decide (length c = 36%nat)) as [H36|Hne].
  - rewrite <- (app_nil_r c) at 1. rewrite scan_component_run by (done || by left || lia). simpl.
    rewrite bool_decide_eq_false_2; [done|]. rewrite length_app, length_drop. lia.
  - by rewrite scan_component_overflow by (done || lia).
Qed.

(** ** Files of the ram file system *)

(** Reading [n] bytes at a time until the read answers 0. *)
Fixpoint read_all (fuel : nat) (data : list Z) (pos n : Z) : outcome (list Z) :=
  match fuel with
  | O => Stop OutOfFuel
  | S fuel =>
      r ← ramfs_file_read data pos n;
      let '(got, pos, ret) := (r : list Z * Z * Z) in
      if bool_decide (ret = 0) then Ok [] else l ← read_all fuel data pos n; Ok (got ++ l)
  end.

(** Reading a file piece by piece delivers it whole and comes to an end. *)
Theorem ramfs_read_all data pos n fuel :
  Z.of_nat (length data) < 2 ^ 31 → 0 < n < 2 ^ 31 → 0 ≤ pos →
  (length data - Z.to_nat pos < fuel)%nat →
  read_all fuel data pos n = Ok (drop (Z.to_nat pos) data).
Proof.
  intros Hlen Hn. revert pos. induction fuel as [|fuel IH]; intros pos Hpos Hf; [lia|]. simpl.
  unfold ramfs_file_read. case_bool_decide as Hend; [simpl; by rewrite drop_ge by lia|].
  rewrite u32_small by lia. set (k := if bool_decide _ then _ else n).
  assert (Hk : 0 < k ∧ pos + k ≤ Z.of_nat (length data)) by (unfold k; case_bool_decide; lia).
  rewrite bool_decide_eq_false_2 by lia. simpl. rewrite bool_decide_eq_false_2, u32_small by lia.
  rewrite IH by lia. simpl. rewrite Z2Nat.inj_add by lia. rewrite <- drop_drop, take_drop. done.
Qed.
