(* ===== verification/Shell.v ===== *)
(** * The shell: user/sh.c

    The shell is modelled as one process that talks to the kernel: a run is a list of
    system calls with their arguments, and what the kernel answers to a call is a
    function of the calls made so far, the [kernel] record.  The command line is a
    string in the memory of the process, which the tokenizer cuts up in place.

    [debug] is 0, its initial value, throughout [runcmd] and the tokenizer: the
    messages it guards are left out. *)

From S2P Require Import Prelude Str.

Local Open Scope Z_scope.

Definition MAXARGS : Z := 16.
(** [O_RDONLY], and [O_WRONLY | O_CREAT | O_TRUNC] of include/fcntl.h. *)
Definition READ_FLAGS : Z := 0.
Definition WRITE_FLAGS : Z := Z.lor 1 (Z.lor 64 512).

(** " \t\r\n" and "<|>&;()". *)
Definition WHITESPACE : list Z := [32; 9; 13; 10].
Definition SYMBOLS : list Z := [60; 124; 62; 38; 59; 40; 41].
Definition LT : Z := 60.
Definition GT : Z := 62.
Definition BAR : Z := 124.
Definition W : Z := 119.
Definition SLASH : Z := 47.

(** [strchr] in a constant: the terminator is not found. *)
Definition one_of (set : list Z) (c : Z) : bool := bool_decide (c ∈ set).

(** ** The process and the kernel *)

Inductive message :=
  | Too_many | No_word (symbol : Z) | No_open (path : list Z) (write : bool) (r : Z)
  | No_pipe (r : Z) | No_fork (r : Z) | No_spawn (path : list Z) (r : Z).

Inductive call :=
  | Open (path : list Z) (flags : Z)
  | Dup2 (old new : Z)
  | Close (fd : Z)
  | Pipe
  | Fork
  | Execve (path : list Z) (argv : list (list Z))
  | Wait (pid : Z)
  | Exit
  | Printf (m : message).

(** The result of the last call of a list, and the two descriptors of a pipe. *)
Record kernel := mk_kernel {
  answer : list call → Z;
  pipe_ends : list call → Z * Z;
}.

(** Memory, the static variables [nc], [np1] and [np2] of [gettoken], and the calls
    made. *)
Record shell := mk_shell {
  sh_mem : bytes;
  nc : Z;
  np1 : Z;
  np2 : Z;
  sh_calls : list call;
}.

Definition in_bytes {A} (m : M bytes A) : M shell A := λ st,
  match m (sh_mem st) with
  | Ok (a, b) => Ok (a, mk_shell b (nc st) (np1 st) (np2 st) (sh_calls st))
  | Stop w => Stop w
  end.

(** The string that the kernel finds at [p]. *)
Fixpoint read_str (fuel : nat) (p : Z) : M bytes (list Z) :=
  match fuel with
  | O => stop_with OutOfFuel
  | S fuel =>
      c ← load8 p;
      if bool_decide (c = 0) then mret []
      else
        l ← read_str fuel (p + 1);
        mret (c :: l)
  end.

(** ** The tokenizer *)

(** [while (strchr(WHITESPACE, *s)) *s++ = 0;] *)
Fixpoint skip_white (fuel : nat) (s : Z) : M bytes Z :=
  match fuel with
  | O => stop_with OutOfFuel
  | S fuel =>
      c ← load8 s;
      if one_of WHITESPACE c then store8 s 0 ;; skip_white fuel (s + 1) else mret s
  end.

(** [while ( *s && !strchr(WHITESPACE SYMBOLS, *s)) s++;] *)
Fixpoint skip_word (fuel : nat) (s : Z) : M bytes Z :=
  match fuel with
  | O => stop_with OutOfFuel
  | S fuel =>
      c ← load8 s;
      if bool_decide (c ≠ 0) && negb (one_of (WHITESPACE ++ SYMBOLS) c) then skip_word fuel (s + 1)
      else mret s
  end.

(** The result is the token, [*p1] and [*p2]. *)
Definition _gettoken (fuel : nat) (s p1 p2 : Z) : M bytes (Z * Z * Z) :=
  if bool_decide (s = 0) then mret (0, p1, p2)
  else
    s ← skip_white fuel s;
    c ← load8 s;
    if bool_decide (c = 0) then mret (0, 0, 0)
    else if one_of SYMBOLS c then
      store8 s 0 ;;
      mret (c, s, s + 1)
    else
      e ← skip_word fuel s;
      mret (W, s, e).

Definition set_lookahead (r : Z * Z * Z) : M shell unit :=
  modify (λ st, mk_shell (sh_mem st) (fst (fst r)) (snd (fst r)) (snd r) (sh_calls st)).

(** [gettoken(s, 0)] for a string [s]. *)
Definition gettoken_start (fuel : nat) (s : Z) : M shell Z :=
  st ← get;
  r ← in_bytes (_gettoken fuel s (np1 st) (np2 st));
  set_lookahead r ;;
  mret 0.

(** [gettoken(0, &t)]: the token and [t]. *)
Definition gettoken (fuel : nat) : M shell (Z * Z) :=
  st ← get;
  let c := nc st in
  let t := np1 st in
  r ← in_bytes (_gettoken fuel (np2 st) (np1 st) (np2 st));
  set_lookahead r ;;
  mret (c, t).

(** ** Running a command *)

Section run.
Context (k : kernel) (fuel : nat) (argv0buf : Z).

Definition sys (c : call) : M shell Z :=
  st ← get;
  let h := sh_calls st ++ [c] in
  put (mk_shell (sh_mem st) (nc st) (np1 st) (np2 st) h) ;;
  mret (answer k h).

Definition sys_pipe : M shell (Z * (Z * Z)) :=
  r ← sys Pipe;
  st ← get;
  mret (r, pipe_ends k (sh_calls st)).

Definition say (m : message) : M shell unit := sys (Printf m) ;; mret tt.

(** How the parsing of a command ends: with the arguments (the pointers in [argv])
    and [pipe_child], or with the exit of the process. *)
Inductive parsed := Runit (argv : list Z) (pipe_child : Z) | Gone.

Definition leave : M shell parsed := sys Exit ;; mret Gone.

(** Descriptor [fd] in the place of [std]. *)
Definition dup_onto (fd std : Z) : M shell unit :=
  if bool_decide (fd ≠ std) then sys (Dup2 fd std) ;; sys (Close fd) ;; mret tt else mret tt.

(** The cases ['<'] and ['>']: [None] when the process has left. *)
Definition open_redirect (symbol : Z) : M shell (option unit) :=
  '(c, t) ← gettoken fuel;
  if bool_decide (c ≠ W) then say (No_word symbol) ;; leave ;; mret None
  else
    path ← in_bytes (read_str fuel t);
    fd ← sys (Open path (if bool_decide (symbol = LT) then READ_FLAGS else WRITE_FLAGS));
    if bool_decide (fd < 0) then
      say (No_open path (bool_decide (symbol ≠ LT)) fd) ;; leave ;; mret None
    else dup_onto fd (if bool_decide (symbol = LT) then 0 else 1) ;; mret (Some tt).

(** The loop at [again]; [n] bounds the tokens read, [argv] holds the arguments so
    far.  The jump back to [again] after a fork empties [argv]. *)
Fixpoint parse (n : nat) (argv : list Z) : M shell parsed :=
  match n with
  | O => stop_with OutOfFuel
  | S n =>
      '(c, t) ← gettoken fuel;
      if bool_decide (c = W) then
        if bool_decide (Z.of_nat (length argv) = MAXARGS) then say Too_many ;; leave
        else parse n (argv ++ [t])
      else if bool_decide (c = LT) || bool_decide (c = GT) then
        o ← open_redirect c;
        match (o : option unit) with Some _ => parse n argv | None => mret Gone end
      else if bool_decide (c = BAR) then
        '(r, (p0, p1)) ← sys_pipe;
        if bool_decide (r < 0) then say (No_pipe r) ;; leave
        else
          r ← sys Fork;
          if bool_decide (r < 0) then say (No_fork r) ;; leave
          else if bool_decide (r = 0) then
            dup_onto p0 0 ;;
            sys (Close p1) ;;
            parse n []
          else
            dup_onto p1 1 ;;
            sys (Close p0) ;;
            mret (Runit argv r)
      else if bool_decide (c = 0) then mret (Runit argv 0)
      else panic
  end.

Fixpoint close_loop (n : nat) (i : Z) : M shell unit :=
  match n with O => mret tt | S n => sys (Close i) ;; close_loop n (i + 1) end.

Definition close_all : M shell unit := close_loop 128 0.

(** The strings of an array of pointers. *)
Fixpoint read_strs (l : list Z) : M bytes (list (list Z)) :=
  match l with
  | [] => mret []
  | p :: l => x ← read_str fuel p; xs ← read_strs l; mret (x :: xs)
  end.

(** From [runit] on: [true] when [runcmd] returns, [false] when the process exits.
    The store [argv[argc] = 0] is outside the array when [argc] is [MAXARGS]. *)
Definition runit (argv : list Z) (pipe_child : Z) : M shell bool :=
  match argv with
  | [] => mret true
  | arg0 :: args =>
      c ← in_bytes (load8 arg0);
      a0 ← (if bool_decide (c ≠ SLASH) then
              in_bytes (store8 argv0buf SLASH ;; strcpy fuel (argv0buf + 1) arg0) ;;
              mret argv0buf
            else mret arg0);
      (if bool_decide (Z.of_nat (length argv) = MAXARGS) then fault else mret tt) ;;
      path ← in_bytes (read_str fuel a0);
      strs ← in_bytes (read_strs (a0 :: args));
      r ← sys (Execve path strs);
      (if bool_decide (r < 0) then say (No_spawn path r) else mret tt) ;;
      close_all ;;
      (if bool_decide (0 ≤ r) then sys (Wait r) ;; mret tt else mret tt) ;;
      (if bool_decide (pipe_child ≠ 0) then sys (Wait pipe_child) ;; mret tt else mret tt) ;;
      sys Exit ;;
      mret false
  end.

Definition runcmd (s : Z) : M shell bool :=
  gettoken_start fuel s ;;
  p ← parse fuel [];
  match (p : parsed) with Runit argv pipe_child => runit argv pipe_child | Gone => mret false end.
End run.
