(* ===== verification/ShellProofs.v ===== *)
(** * The shell does what its command line says

    The tokenizer cuts the line up in place and hands out pointers into it; [parse]
    keeps such pointers while the tokenizer goes on writing.  The reference is the
    interpreter [ref_run], which works on the list of the tokens of the line and has
    no memory: both make the same system calls. *)

From S2P Require Import Prelude Str StrProofs Shell.

Local Open Scope Z_scope.

(** ** The reference *)

Inductive token := Word (w : list Z) | Sym (c : Z).

Definition is_white (c : Z) : bool := one_of WHITESPACE c.
Definition is_sym (c : Z) : bool := one_of SYMBOLS c.
Definition word_char (c : Z) : Prop := is_white c = false ∧ is_sym c = false.

Definition flush (w : list Z) (ts : list token) : list token :=
  match w with [] => ts | _ => Word w :: ts end.

(** The tokens of [l]; [w] is the word begun. *)
Fixpoint lex (w l : list Z) : list token :=
  match l with
  | [] => flush w []
  | c :: l =>
      if is_white c then flush w (lex [] l)
      else if is_sym c then flush w (Sym c :: lex [] l)
      else lex (w ++ [c]) l
  end.

Section ref.
Context (k : kernel).

Inductive rparsed := RRun (args : list (list Z)) (pipe_child : Z) | RGone.

Definition ref_dup_onto (fd std : Z) (h : list call) : list call :=
  if bool_decide (fd ≠ std) then (h ++ [Dup2 fd std]) ++ [Close fd] else h.

Definition gone (m : message) (h : list call) : outcome (rparsed * list call) :=
  Ok (RGone, (h ++ [Printf m]) ++ [Exit]).

Definition open_flags (c : Z) : Z :=
  if bool_decide (c = LT) then READ_FLAGS else WRITE_FLAGS.

Fixpoint ref_parse (ts : list token) (args : list (list Z)) (h : list call) : outcome (rparsed * list call) :=
  match ts with
  | [] => Ok (RRun args 0, h)
  | Word w :: ts =>
      if bool_decide (Z.of_nat (length args) = MAXARGS) then gone Too_many h else ref_parse ts (args ++ [w]) h
  | Sym c :: ts =>
      if bool_decide (c = LT) || bool_decide (c = GT) then
        match ts with
        | Word f :: ts =>
            let h1 := h ++ [Open f (open_flags c)] in
            if bool_decide (answer k h1 < 0) then gone (No_open f (bool_decide (c ≠ LT)) (answer k h1)) h1
            else ref_parse ts args (ref_dup_onto (answer k h1) (if bool_decide (c = LT) then 0 else 1) h1)
        | _ => gone (No_word c) h
        end
      else if bool_decide (c = BAR) then
        let h1 := h ++ [Pipe] in
        if bool_decide (answer k h1 < 0) then gone (No_pipe (answer k h1)) h1
        else
          let h2 := h1 ++ [Fork] in
          let r := answer k h2 in
          if bool_decide (r < 0) then gone (No_fork r) h2
          else if bool_decide (r = 0) then
            ref_parse ts [] (ref_dup_onto (fst (pipe_ends k h1)) 0 h2 ++ [Close (snd (pipe_ends k h1))])
          else Ok (RRun args r, ref_dup_onto (snd (pipe_ends k h1)) 1 h2 ++ [Close (fst (pipe_ends k h1))])
      else Stop Panicked
  end.

Definition slashed (w : list Z) : list Z := if bool_decide (head w = Some SLASH) then w else SLASH :: w.

Definition closes (n : nat) (i : Z) : list call := Close <$> seqZ i (Z.of_nat n).

(** The calls of [runit] after those of [h]. *)
Definition ref_runit (args : list (list Z)) (pipe_child : Z) (h : list call) : outcome (bool * list call) :=
  match args with
  | [] => Ok (true, h)
  | w :: ws =>
      if bool_decide (Z.of_nat (length args) = MAXARGS) then Stop Faulted
      else
        let h1 := h ++ [Execve (slashed w) (slashed w :: ws)] in
        let r := answer k h1 in
        Ok (false, h1 ++ (if bool_decide (r < 0) then [Printf (No_spawn (slashed w) r)] else []) ++
                   closes 128 0 ++ (if bool_decide (0 ≤ r) then [Wait r] else []) ++
                   (if bool_decide (pipe_child ≠ 0) then [Wait pipe_child] else []) ++ [Exit])
  end.

Definition ref_run (ts : list token) (h : list call) : outcome (bool * list call) :=
  '(p, h) ← ref_parse ts [] h;
  match (p : rparsed) with RRun args pc => ref_runit args pc h | RGone => Ok (false, h) end.
End ref.

(** ** The tokenizer *)

(** The rest of a line after a word does not go on with the word. *)
Definition boundary (l : list Z) : Prop := ∀ c, head l = Some c → ¬ word_char c.

Lemma lex_word w l :
  Forall word_char w → boundary l → ∀ u, lex u (w ++ l) = flush (u ++ w) (lex [] l).
Proof.
  intros Hw Hl. induction Hw as [|c w [H1 H2] _ IH]; intros u; simpl.
  - rewrite app_nil_r. destruct l as [|c l]; [done|]. simpl.
    destruct (is_white c) eqn:E1; [done|]. destruct (is_sym c) eqn:E2; [done|]. by destruct (Hl c).
  - rewrite H1, H2, IH. by rewrite <- app_assoc.
Qed.

Lemma lex_length l : ∀ w, (length (lex w l) ≤ length l + if decide (w = []) then 0 else 1)%nat.
Proof.
  induction l as [|c l IH]; intros w; simpl.
  - destruct w; simpl; lia.
  - pose proof (IH []) as H0. rewrite decide_True in H0 by done.
    destruct (is_white c), (is_sym c); try (destruct w; simpl; lia).
    pose proof (IH (w ++ [c])). case_decide; [destruct w|]; case_decide; lia.
Qed.

(** Memory [m'] differs from [m] only in [lo, hi). *)
Definition same_out (m m' : bytes) (lo hi : Z) : Prop := ∀ a, ¬ (lo ≤ a < hi) → m' !! a = m !! a.

Lemma same_out_trans m1 m2 m3 lo hi : same_out m1 m2 lo hi → same_out m2 m3 lo hi → same_out m1 m3 lo hi.
Proof. intros H1 H2 a Ha. by rewrite H2, H1. Qed.

Lemma same_out_weaken m m' lo hi lo' hi' : same_out m m' lo hi → lo' ≤ lo → hi ≤ hi' → same_out m m' lo' hi'.
Proof. intros H ? ? a Ha. apply H. lia. Qed.

Lemma cstr_keep m m' p l :
  (∀ a, p ≤ a ≤ p + Z.of_nat (length l) → m' !! a = m !! a) → cstr m p l → cstr m' p l.
Proof.
  intros H [Hc Hs]. split; [done|]. eapply stored_ext; [|exact Hs]. intros a Ha. apply H.
  rewrite length_app in Ha. simpl in Ha. lia.
Qed.

Lemma skip_white_ok l : ∀ m s fuel,
  cstr m s l → (length l < fuel)%nat →
  ∃ u l' m', l = u ++ l' ∧ Forall (λ c, is_white c = true) u ∧ (∀ c, head l' = Some c → is_white c = false) ∧
    skip_white fuel s m = Ok (s + Z.of_nat (length u), m') ∧ cstr m' (s + Z.of_nat (length u)) l' ∧
    same_out m m' s (s + Z.of_nat (length u)) ∧ (u ≠ [] → m' !! s = Some 0).
Proof.
  induction l as [|c l IH]; intros m s [|fuel] Hl Hf; try (simpl in Hf; lia); cbn [skip_white].
  - exists [], [], m. rewrite (bind_Ok _ _ _ _ _ (load8_ok _ _ _ (cstr_nil _ _ Hl))).
    rewrite Z.add_0_r. split_and!; try done.
  - destruct (cstr_cons _ _ _ _ Hl) as (Hc & Hcr & Hl').
    rewrite (bind_Ok _ _ _ _ _ (load8_ok _ _ _ Hc)). change (one_of WHITESPACE c) with (is_white c).
    destruct (is_white c) eqn:Ew.
    2:{ exists [], (c :: l), m. rewrite Z.add_0_r. split_and!; try done. by intros ? [= <-]. }
    destruct (store8_ok m s 0) as (m1 & R1 & _ & F1); [by eexists|]. rewrite (bind_Ok _ _ _ _ _ R1).
    destruct (IH m1 (s + 1) fuel) as (u & l' & m2 & -> & Hu & Hb & R2 & C2 & S2 & _); [|simpl in Hf; lia|].
    { eapply cstr_keep; [|exact Hl']. intros a Ha. apply (filled_out _ _ _ _ _ _ F1). lia. }
    exists (c :: u), l', m2. cbn [length].
    replace (s + Z.of_nat (S (length u))) with (s + 1 + Z.of_nat (length u)) by lia.
    split_and!; try done.
    + by constructor.
    + intros a Ha. rewrite S2 by lia. apply (filled_out _ _ _ _ _ _ F1). lia.
    + intros _. rewrite S2 by lia. rewrite (filled_in _ _ _ _ _ _ F1) by lia. done.
Qed.

Lemma skip_word_ok w l : ∀ m s fuel,
  Forall word_char w → boundary l → cstr m s (w ++ l) → (length w < fuel)%nat →
  skip_word fuel s m = Ok (s + Z.of_nat (length w), m).
Proof.
  assert (Hone : ∀ c, one_of (WHITESPACE ++ SYMBOLS) c = is_white c || is_sym c).
  { intros c. unfold one_of, is_white, is_sym, one_of. rewrite <- bool_decide_or. apply bool_decide_ext.
    apply elem_of_app. }
  induction w as [|c w IH]; intros m s [|fuel] Hw Hl Hc Hf; try (simpl in Hf; lia); cbn [skip_word length] in *.
  - rewrite Z.add_0_r. simpl in Hc. destruct l as [|c l].
    + by rewrite (bind_Ok _ _ _ _ _ (load8_ok _ _ _ (cstr_nil _ _ Hc))).
    + destruct (cstr_cons _ _ _ _ Hc) as (Hc0 & _ & _). rewrite (bind_Ok _ _ _ _ _ (load8_ok _ _ _ Hc0)).
      rewrite Hone. destruct (is_white c) eqn:E1; [by rewrite andb_false_r|].
      destruct (is_sym c) eqn:E2; [by rewrite andb_false_r|]. by destruct (Hl c).
  - apply Forall_cons in Hw as [[H1 H2] Hw]. destruct (cstr_cons _ _ _ _ Hc) as (Hc0 & Hr & Hc').
    rewrite (bind_Ok _ _ _ _ _ (load8_ok _ _ _ Hc0)), Hone, H1, H2, bool_decide_eq_true_2 by lia. simpl.
    rewrite IH by (done || lia). do 2 f_equal. lia.
Qed.

(** Every text is white space, a symbol or a word, and a rest. *)
Lemma split_word l :
  ∃ w l', l = w ++ l' ∧ Forall word_char w ∧ boundary l'.
Proof.
  induction l as [|c l (w & l' & -> & Hw & Hl)].
  - exists [], []. split_and!; [done..|]. by intros c.
  - destruct (decide (word_char c)) as [Hc|Hc].
    + exists (c :: w), l'. split_and!; [done| |done]. by constructor.
    + exists [], (c :: w ++ l'). split_and!; [done..|]. by intros ? [= <-].
Qed.

(** What [gettoken] has looked up in advance: [ts] are the tokens to come.  The
    tokenizer writes from [np2] on, which is above [lo]; the line ends below [hi]. *)
Definition next (lo hi : Z) (m : bytes) (c p1 p2 : Z) (ts : list token) : Prop :=
  match ts with
  | [] => c = 0 ∧ p2 = 0
  | Sym x :: ts => c = x ∧ is_sym x = true ∧ 0 < p2 ∧ lo < p2 ∧
      ∃ l, cstr m p2 l ∧ p2 + Z.of_nat (length l) < hi ∧ lex [] l = ts
  | Word w :: ts => c = W ∧ 0 < p1 ∧ lo ≤ p1 ∧ w ≠ [] ∧ p2 = p1 + Z.of_nat (length w) ∧
      Forall (λ c, 0 < c < 2 ^ 8) w ∧ stored m p1 w ∧
      ∃ l, cstr m p2 l ∧ p2 + Z.of_nat (length l) < hi ∧ boundary l ∧ lex [] l = ts
  end.

Lemma sym_not_white c : is_sym c = true → is_white c = false.
Proof.
  unfold is_sym, is_white, one_of. intros Hs%bool_decide_eq_true. apply bool_decide_eq_false. unfold SYMBOLS, WHITESPACE in *.
  intros Hw. set_unfold in Hs. set_unfold in Hw. lia.
Qed.

Lemma lex_white u l : Forall (λ c, is_white c = true) u → lex [] (u ++ l) = lex [] l.
Proof. induction 1 as [|c u Hc _ IH]; simpl; [done|]. by rewrite Hc. Qed.

Lemma lex_start c l : is_white c = false → is_sym c = false →
  ∃ w l', c :: l = w ++ l' ∧ w ≠ [] ∧ Forall word_char w ∧ boundary l' ∧ lex [] (c :: l) = Word w :: lex [] l'.
Proof.
  intros H1 H2. destruct (split_word (c :: l)) as (w & l' & E & Hw & Hl). exists w, l'.
  assert (w ≠ []) as Hne. { intros ->. apply (Hl c); [by rewrite <- (app_nil_l l'), <- E|done]. }
  split_and!; [done..|]. rewrite E, lex_word by done. simpl. by destruct w.
Qed.

(** White space and symbols are overwritten with the terminator. *)
Lemma _gettoken_ok m s l fuel q1 q2 hi :
  0 < s → cstr m s l → (length l < fuel)%nat → s + Z.of_nat (length l) < hi →
  ∃ c p1 p2 m', _gettoken fuel s q1 q2 m = Ok (c, p1, p2, m') ∧ next s hi m' c p1 p2 (lex [] l) ∧
    same_out m m' s hi ∧ (boundary l → m' !! s = Some 0).
Proof.
  intros Hs Hl Hf Hhi. unfold _gettoken. rewrite bool_decide_eq_false_2 by lia.
  destruct (skip_white_ok l m s fuel Hl Hf) as (u & l' & m1 & -> & Hu & Hb & R1 & C1 & S1 & Z1).
  rewrite (bind_Ok _ _ _ _ _ R1), lex_white by done. set (s1 := s + Z.of_nat (length u)) in *.
  rewrite length_app in Hf, Hhi.
  assert (Hs1 : 0 < s1 ∧ s ≤ s1) by lia.
  assert (S1' : same_out m m1 s hi) by (eapply same_out_weaken; [exact S1|lia|lia]).
  destruct l' as [|c l'].
  { rewrite (bind_Ok _ _ _ _ _ (load8_ok _ _ _ (cstr_nil _ _ C1))). exists 0, 0, 0, m1.
    split_and!; try done. intros _. destruct u; [|by apply Z1]. rewrite <- (cstr_nil _ _ C1). f_equal. simpl in s1. lia. }
  destruct (cstr_cons _ _ _ _ C1) as (Hc & Hcr & C1'). rewrite (bind_Ok _ _ _ _ _ (load8_ok _ _ _ Hc)).
  rewrite bool_decide_eq_false_2 by lia. pose proof (Hb c eq_refl) as Hw. change (one_of SYMBOLS c) with (is_sym c).
  simpl in Hf, Hhi. destruct (is_sym c) eqn:Esym.
  - destruct (store8_ok m1 s1 0) as (m2 & R2 & _ & F2); [by eexists|]. rewrite (bind_Ok _ _ _ _ _ R2).
    exists c, s1, (s1 + 1), m2. split; [done|]. split; [|split].
    + simpl. rewrite Hw, Esym. simpl. split_and!; [done|done|lia|lia|]. exists l'. split_and!; [|lia|done].
      eapply cstr_keep; [|exact C1']. intros a Ha. apply (filled_out _ _ _ _ _ _ F2). lia.
    + eapply same_out_trans; [exact S1'|]. intros a Ha. apply (filled_out _ _ _ _ _ _ F2). lia.
    + intros _. destruct u as [|x u].
      * simpl in s1. rewrite (filled_in _ _ _ _ _ _ F2) by lia. done.
      * rewrite (filled_out _ _ _ _ _ _ F2) by (subst s1; simpl; lia). by apply Z1.
  - destruct (lex_start c l' Hw Esym) as (w & l2 & E & Hne & Hwc & Hbd & ->). rewrite E in C1.
    assert (Hlen : (S (length l') = length w + length l2)%nat) by (rewrite <- length_app, <- E; done).
    rewrite (bind_Ok _ _ _ _ _ (skip_word_ok w l2 m1 s1 fuel Hwc Hbd C1 ltac:(lia))).
    destruct C1 as [Hch Hst]. rewrite <- app_assoc in Hst. apply stored_app in Hst as [Hst1 Hst2].
    apply Forall_app in Hch as [Hch1 Hch2].
    exists W, s1, (s1 + Z.of_nat (length w)), m1. split; [done|]. split; [|split].
    + simpl. split_and!; [done|lia|lia|done|done|done|done|]. exists l2. split_and!; [by split|lia|done|done].
    + done.
    + intros Hbnd. destruct u as [|x u]; [|by apply Z1]. exfalso. apply (Hbnd c eq_refl). by split.
Qed.

(** ** The words that are held *)

(** A word of the line that was handed out: below everything that is still written. *)
Definition held_word (lo hi : Z) (st : shell) (t : Z) (w : list Z) : Prop :=
  cstr (sh_mem st) t w ∧ lo ≤ t ∧ t + Z.of_nat (length w) < hi ∧ (np2 st = 0 ∨ t + Z.of_nat (length w) < np2 st).

Definition held (lo hi : Z) (st : shell) : list Z → list (list Z) → Prop := Forall2 (held_word lo hi st).

Definition ahead (lo hi : Z) (st : shell) (ts : list token) : Prop :=
  ∃ lo', lo ≤ lo' ∧ next lo' hi (sh_mem st) (nc st) (np1 st) (np2 st) ts.

Definition moved (lo hi : Z) (st st' : shell) : Prop :=
  sh_calls st' = sh_calls st ∧ same_out (sh_mem st) (sh_mem st') lo hi.

Definition with_mem (b : bytes) (st : shell) : shell := mk_shell b (nc st) (np1 st) (np2 st) (sh_calls st).

Lemma in_bytes_Ok {A} (m : M bytes A) st a b :
  m (sh_mem st) = Ok (a, b) → in_bytes m st = Ok (a, with_mem b st).
Proof. intros E. unfold in_bytes. by rewrite E. Qed.

Section step.
Context (lo hi : Z) (fuel : nat) (Hhi : hi < lo + Z.of_nat fuel).

Lemma gettoken_end st :
  ahead lo hi st [] → gettoken fuel st = Ok (0, np1 st, st).
Proof.
  intros (lo' & _ & Hc & Hp). unfold gettoken. run_step. rewrite Hp.
  assert (R : _gettoken fuel 0 (np1 st) 0 (sh_mem st) = Ok (0, np1 st, 0, sh_mem st)) by done.
  rewrite (bind_Ok _ _ _ _ _ (in_bytes_Ok _ _ _ _ R)). destruct st. simpl in *. by subst.
Qed.

(** Looking up the token after [s]. *)
Lemma advance st s l :
  s = np2 st → 0 < s → lo ≤ s → cstr (sh_mem st) s l → s + Z.of_nat (length l) < hi →
  ∃ st', gettoken fuel st = Ok (nc st, np1 st, st') ∧ ahead lo hi st' (lex [] l) ∧ moved lo hi st st' ∧
    same_out (sh_mem st) (sh_mem st') s hi ∧ (boundary l → sh_mem st' !! s = Some 0) ∧ (np2 st' = 0 ∨ s < np2 st').
Proof.
  intros -> Hs Hlo Hl Hh.
  destruct (_gettoken_ok (sh_mem st) (np2 st) l fuel (np1 st) (np2 st) hi Hs Hl ltac:(lia) Hh)
    as (c & p1 & p2 & m' & R & Hn & So & Hz).
  exists (mk_shell m' c p1 p2 (sh_calls st)). unfold gettoken. run_step. rewrite (bind_Ok _ _ _ _ _ (in_bytes_Ok _ _ _ _ R)).
  split; [done|]. split; [by exists (np2 st)|]. split; [split; [done|]|].
  - eapply same_out_weaken; [exact So|lia|lia].
  - split_and!; [done|done|]. simpl. destruct (lex [] l) as [|[w|x] ts]; simpl in Hn.
    + left. apply Hn.
    + right. destruct Hn as (_ & _ & Hlow & Hne & -> & _). destruct w; [done|]. simpl. lia.
    + right. apply Hn.
Qed.

Lemma held_keep st st' argv args :
  held lo hi st argv args → same_out (sh_mem st) (sh_mem st') (np2 st) hi →
  (np2 st' = 0 ∨ np2 st < np2 st') → np2 st ≠ 0 → held lo hi st' argv args.
Proof.
  intros Hh So Hp Hp0. eapply Forall2_impl; [exact Hh|]. intros t w (Hc & H1 & H2 & H3). split_and!; [|done|done|lia].
  eapply cstr_keep; [|exact Hc]. intros a Ha. apply So. lia.
Qed.

Lemma gettoken_sym st x ts argv args :
  ahead lo hi st (Sym x :: ts) → held lo hi st argv args →
  ∃ st', gettoken fuel st = Ok (x, np1 st, st') ∧ ahead lo hi st' ts ∧ held lo hi st' argv args ∧ moved lo hi st st'.
Proof.
  intros (lo' & Hlo & <- & _ & Hp & Hpl & l & Hl & Hh & <-) Hargs.
  destruct (advance st (np2 st) l eq_refl Hp ltac:(lia) Hl Hh) as (st' & R & Ha & Hm & So & _ & Hp').
  exists st'. split_and!; [done|done| |done]. eapply held_keep; [done|done|done|lia].
Qed.

Lemma gettoken_word st w ts argv args :
  ahead lo hi st (Word w :: ts) → held lo hi st argv args →
  ∃ t st', gettoken fuel st = Ok (W, t, st') ∧ ahead lo hi st' ts ∧ held lo hi st' argv args ∧
    held_word lo hi st' t w ∧ w ≠ [] ∧ moved lo hi st st'.
Proof.
  intros (lo' & Hlo & Hc & Hp & Hpl & Hne & Hp2 & Hch & Hst & l & Hl & Hh & Hb & <-) Hargs.
  destruct (advance st (np2 st) l eq_refl ltac:(lia) ltac:(lia) Hl Hh) as (st' & R & Ha & Hm & So & Hz & Hp').
  exists (np1 st), st'. rewrite Hc in R.
  assert (0 < length w)%nat by (destruct w; simpl; [done|lia]).
  split_and!; [done|done| | |done|done].
  - eapply held_keep; [done|done|done|lia].
  - split_and!; [split; [done|]|lia|lia|lia]. apply stored_app. split.
    + eapply stored_ext; [|exact Hst]. intros a Ha'. apply So. lia.
    + simpl. rewrite <- Hp2. auto.
Qed.
End step.

(** ** Parsing *)

(** The process after the calls [h]. *)
Definition logged (h : list call) (st : shell) : shell := mk_shell (sh_mem st) (nc st) (np1 st) (np2 st) h.

Lemma sys_run k c st : sys k c st = Ok (answer k (sh_calls st ++ [c]), logged (sh_calls st ++ [c]) st).
Proof. done. Qed.

Lemma redirect_run k fd std st :
  dup_onto k fd std st = Ok (tt, logged (ref_dup_onto fd std (sh_calls st)) st).
Proof. unfold dup_onto, ref_dup_onto. case_bool_decide; [done|]. by destruct st. Qed.

Lemma leave_run k m st :
  (say k m ;; leave k) st = Ok (Gone, logged ((sh_calls st ++ [Printf m]) ++ [Exit]) st).
Proof. done. Qed.

Lemma read_str_ok w : ∀ m p fuel, cstr m p w → (length w < fuel)%nat → read_str fuel p m = Ok (w, m).
Proof.
  induction w as [|c w IH]; intros m p [|fuel] Hc Hf; try (simpl in Hf; lia); cbn [read_str length] in *.
  - by rewrite (bind_Ok _ _ _ _ _ (load8_ok _ _ _ (cstr_nil _ _ Hc))).
  - destruct (cstr_cons _ _ _ _ Hc) as (Hc0 & Hr & Hc'). rewrite (bind_Ok _ _ _ _ _ (load8_ok _ _ _ Hc0)).
    rewrite bool_decide_eq_false_2 by lia. by rewrite (bind_Ok _ _ _ _ _ (IH m (p + 1) fuel Hc' ltac:(lia))).
Qed.

Lemma read_held lo hi fuel st t w :
  hi < lo + Z.of_nat fuel → held_word lo hi st t w → in_bytes (read_str fuel t) st = Ok (w, st).
Proof.
  intros Hf (Hc & H1 & H2 & _). rewrite (in_bytes_Ok _ _ _ _ (read_str_ok w _ t fuel Hc ltac:(lia))). by destruct st.
Qed.

(** A reference run and a run of the shell that start from the same calls. *)
Definition parse_agrees (lo hi : Z) (st : shell) (r : outcome (rparsed * list call)) (o : outcome (parsed * shell)) : Prop :=
  match r with
  | Ok (RRun args pc, h) => ∃ argv st', o = Ok (Runit argv pc, st') ∧ sh_calls st' = h ∧
      held lo hi st' argv args ∧ same_out (sh_mem st) (sh_mem st') lo hi
  | Ok (RGone, h) => ∃ st', o = Ok (Gone, st') ∧ sh_calls st' = h
  | Stop w => o = Stop w
  end.

Lemma agrees_moved lo hi st st' r o :
  same_out (sh_mem st) (sh_mem st') lo hi → parse_agrees lo hi st' r o → parse_agrees lo hi st r o.
Proof.
  intros So. destruct r as [[[args pc|] h]|w]; simpl; try done.
  intros (argv & st2 & Ho & Hh & Hl & S2). exists argv, st2. split_and!; try done. by eapply same_out_trans.
Qed.

Lemma ahead_logged lo hi st ts h : ahead lo hi st ts → ahead lo hi (logged h st) ts.
Proof. done. Qed.

Lemma held_logged lo hi st argv args h : held lo hi st argv args → held lo hi (logged h st) argv args.
Proof. done. Qed.

Section parse.
Context (k : kernel) (lo hi : Z) (fuel : nat) (Hhi : hi < lo + Z.of_nat fuel).

(** The file name after ['<'] or ['>']. *)
Lemma open_redirect_ok st x ts argv args :
  ahead lo hi st ts → held lo hi st argv args →
  match ts with
  | Word f :: ts' =>
      let h1 := sh_calls st ++ [Open f (open_flags x)] in
      ∃ st', same_out (sh_mem st) (sh_mem st') lo hi ∧ ahead lo hi st' ts' ∧ held lo hi st' argv args ∧
        if bool_decide (answer k h1 < 0) then
          open_redirect k fuel x st =
            Ok (None, logged ((h1 ++ [Printf (No_open f (bool_decide (x ≠ LT)) (answer k h1))]) ++ [Exit]) st')
        else open_redirect k fuel x st =
            Ok (Some tt, logged (ref_dup_onto (answer k h1) (if bool_decide (x = LT) then 0 else 1) h1) st')
  | _ => ∃ st', open_redirect k fuel x st = Ok (None, logged ((sh_calls st ++ [Printf (No_word x)]) ++ [Exit]) st')
  end.
Proof.
  intros Ha Hh. destruct ts as [|[f|y] ts].
  - unfold open_redirect. rewrite (bind_Ok _ _ _ _ _ (gettoken_end lo hi fuel st Ha)). by exists st.
  - destruct (gettoken_word lo hi fuel Hhi st f ts argv args Ha Hh) as (t & st1 & R & Ha1 & Hh1 & Hw & _ & Hc & So).
    exists st1. split_and!; [done|done|done|]. unfold open_redirect. rewrite (bind_Ok _ _ _ _ _ R).
    cbv beta iota. rewrite (bool_decide_eq_false_2 (W ≠ W)) by (intros H; by apply H).
    rewrite (bind_Ok _ _ _ _ _ (read_held lo hi fuel st1 t f Hhi Hw)).
    rewrite (bind_Ok _ _ _ _ _ (sys_run k _ st1)). rewrite Hc. unfold open_flags.
    destruct (bool_decide (answer k _ < 0)).
    + done.
    + by rewrite (bind_Ok _ _ _ _ _ (redirect_run k _ _ _)).
  - destruct (gettoken_sym lo hi fuel Hhi st y ts argv args Ha Hh) as (st1 & R & _ & _ & Hc & _).
    destruct Ha as (lo' & _ & _ & Hy & _). exists st1. unfold open_redirect. rewrite (bind_Ok _ _ _ _ _ R).
    cbv beta iota. rewrite bool_decide_eq_true_2; [|intros ->; vm_compute in Hy; discriminate Hy].
    rewrite <- Hc. done.
Qed.

Lemma held_length st argv args : held lo hi st argv args → length argv = length args.
Proof. apply Forall2_length. Qed.

(** ['|']: the child goes on with the rest of the line, the parent runs what it has. *)
Lemma pipe_ok n ts argv args st :
  held lo hi st argv args → ahead lo hi st ts →
  (∀ st', ahead lo hi st' ts → held lo hi st' [] [] →
     parse_agrees lo hi st' (ref_parse k ts [] (sh_calls st')) (parse k fuel n [] st')) →
  parse_agrees lo hi st
    (let h1 := sh_calls st ++ [Pipe] in
     if bool_decide (answer k h1 < 0) then gone (No_pipe (answer k h1)) h1
     else
       let h2 := h1 ++ [Fork] in
       let r := answer k h2 in
       if bool_decide (r < 0) then gone (No_fork r) h2
       else if bool_decide (r = 0) then
         ref_parse k ts [] (ref_dup_onto (fst (pipe_ends k h1)) 0 h2 ++ [Close (snd (pipe_ends k h1))])
       else Ok (RRun args r, ref_dup_onto (snd (pipe_ends k h1)) 1 h2 ++ [Close (fst (pipe_ends k h1))]))
    (('(r, (p0, p1)) ← sys_pipe k;
      if bool_decide (r < 0) then say k (No_pipe r) ;; leave k
      else
        r ← sys k Fork;
        if bool_decide (r < 0) then say k (No_fork r) ;; leave k
        else if bool_decide (r = 0) then
          dup_onto k p0 0 ;;
          sys k (Close p1) ;;
          parse k fuel n []
        else
          dup_onto k p1 1 ;;
          sys k (Close p0) ;;
          mret (Runit argv r)) st).
Proof.
  intros Hh Ha IH. cbv zeta.
  assert (Rp : sys_pipe k st = Ok (answer k (sh_calls st ++ [Pipe]), pipe_ends k (sh_calls st ++ [Pipe]),
    logged (sh_calls st ++ [Pipe]) st)) by done.
  rewrite (bind_Ok _ _ _ _ _ Rp). cbv beta iota. destruct (pipe_ends k (sh_calls st ++ [Pipe])) as [p0 p1]. simpl fst. simpl snd.
  case_bool_decide; [eexists; split; [apply leave_run|done]|].
  rewrite (bind_Ok _ _ _ _ _ (sys_run k Fork _)). cbn [sh_calls logged].
  case_bool_decide; [eexists; split; [apply leave_run|done]|].
  case_bool_decide; rewrite (bind_Ok _ _ _ _ _ (redirect_run k _ _ _)), (bind_Ok _ _ _ _ _ (sys_run k _ _)); cbn [sh_calls logged].
  - apply (IH (logged _ st)); [done|constructor].
  - exists argv. eexists. split; [reflexivity|]. by split_and!.
Qed.

Lemma parse_ok : ∀ n ts argv args st,
  (length ts < n)%nat → ahead lo hi st ts → held lo hi st argv args →
  parse_agrees lo hi st (ref_parse k ts args (sh_calls st)) (parse k fuel n argv st).
Proof.
  induction n as [|n IH]; intros ts argv args st Hn Ha Hh; [lia|]. cbn [parse].
  destruct ts as [|[w|x] ts]; cbn [length ref_parse] in *.
  - rewrite (bind_Ok _ _ _ _ _ (gettoken_end lo hi fuel st Ha)). exists argv, st. split; [reflexivity|]. by split_and!.
  - destruct (gettoken_word lo hi fuel Hhi st w ts argv args Ha Hh) as (t & st1 & R & Ha1 & Hh1 & Hw & _ & Hc & So).
    rewrite (bind_Ok _ _ _ _ _ R). cbv beta iota. rewrite (bool_decide_eq_true_2 (W = W)) by done.
    rewrite <- (held_length st argv args Hh). rewrite <- Hc. case_bool_decide.
    + eexists. split; [apply leave_run|done].
    + apply (agrees_moved lo hi st st1); [done|]. apply IH; [lia|done|]. apply Forall2_app; [done|]. by constructor.
  - destruct (gettoken_sym lo hi fuel Hhi st x ts argv args Ha Hh) as (st1 & R & Ha1 & Hh1 & Hc & So).
    destruct Ha as (lo' & _ & _ & Hx & _). rewrite (bind_Ok _ _ _ _ _ R). cbv beta iota.
    rewrite (bool_decide_eq_false_2 (x = W)) by (intros ->; vm_compute in Hx; discriminate Hx).
    rewrite <- Hc. apply (agrees_moved lo hi st st1); [done|].
    destruct (bool_decide (x = LT) || bool_decide (x = GT)) eqn:Er.
    + pose proof (open_redirect_ok st1 x ts argv args Ha1 Hh1) as Ho. destruct ts as [|[f|y] ts].
      * destruct Ho as (st2 & Ho). rewrite (bind_Ok _ _ _ _ _ Ho). eexists. by split.
      * cbv zeta in Ho. destruct Ho as (st2 & So2 & Ha2 & Hh2 & Ho). case_bool_decide.
        -- rewrite (bind_Ok _ _ _ _ _ Ho). eexists. by split.
        -- rewrite (bind_Ok _ _ _ _ _ Ho). cbv beta iota.
           eapply agrees_moved; [exact So2|]. apply (IH ts argv args (logged _ st2)); [simpl in Hn; lia|done|done].
      * destruct Ho as (st2 & Ho). rewrite (bind_Ok _ _ _ _ _ Ho). eexists. by split.
    + destruct (bool_decide (x = BAR)) eqn:Eb.
      * apply pipe_ok; [done|done|]. intros st2. apply IH. lia.
      * rewrite bool_decide_eq_false_2 by (intros ->; vm_compute in Hx; discriminate Hx). done.
Qed.
End parse.

(** ** Running the command *)

Lemma close_loop_run k n : ∀ i st, close_loop k n i st = Ok (tt, logged (sh_calls st ++ closes n i) st).
Proof.
  induction n as [|n IH]; intros i st; cbn [close_loop].
  - unfold closes. rewrite seqZ_nil by lia. simpl. rewrite app_nil_r. by destruct st.
  - rewrite (bind_Ok _ _ _ _ _ (sys_run k _ st)), IH. do 2 f_equal. unfold logged. simpl. f_equal.
    unfold closes. rewrite (seqZ_cons i) by lia. rewrite <- app_assoc. do 3 f_equal.
    replace (Z.pred (Z.of_nat (S n))) with (Z.of_nat n) by lia. by replace (i + 1) with (Z.succ i) by lia.
Qed.

Lemma strcpy_ok w : ∀ m dst src fuel,
  cstr m src w → (length w < fuel)%nat → valid m dst (Z.of_nat (length w) + 1) →
  dst + Z.of_nat (length w) < src ∨ src + Z.of_nat (length w) < dst →
  ∃ m', strcpy_loop fuel dst src m = Ok (tt, m') ∧ cstr m' dst w ∧
    same_out m m' dst (dst + Z.of_nat (length w) + 1).
Proof.
  induction w as [|c w IH]; intros m dst src [|fuel] Hc Hf Hv Hd; try (simpl in Hf; lia); cbn [strcpy_loop length] in *.
  - rewrite (bind_Ok _ _ _ _ _ (load8_ok _ _ _ (cstr_nil _ _ Hc))).
    destruct (store8_ok m dst 0) as (m1 & R1 & _ & F1); [apply Hv; lia|]. rewrite (bind_Ok _ _ _ _ _ R1).
    exists m1. split; [done|]. split.
    + split; [done|]. split; [|done]. by rewrite (filled_in _ _ _ _ _ _ F1) by lia.
    + intros a Ha. apply (filled_out _ _ _ _ _ _ F1). lia.
  - destruct (cstr_cons _ _ _ _ Hc) as (Hc0 & Hr & Hc'). rewrite (bind_Ok _ _ _ _ _ (load8_ok _ _ _ Hc0)).
    destruct (store8_ok m dst c) as (m1 & R1 & _ & F1); [apply Hv; lia|]. rewrite (bind_Ok _ _ _ _ _ R1).
    rewrite bool_decide_eq_false_2 by lia.
    destruct (IH m1 (dst + 1) (src + 1) fuel) as (m2 & R2 & [C2 C2'] & S2); [|lia| |lia|].
    { eapply cstr_keep; [|exact Hc']. intros a Ha. apply (filled_out _ _ _ _ _ _ F1). lia. }
    { intros a Ha. eapply (filled_valid m m1 _ _ _ dst); [exact F1|by eexists|exact Hv|lia]. }
    exists m2. split; [done|]. split.
    + split; [by constructor|]. split; [|done]. rewrite S2 by lia. rewrite (filled_in _ _ _ _ _ _ F1) by lia.
      by rewrite u8_small by lia.
    + intros a Ha. rewrite S2 by lia. apply (filled_out _ _ _ _ _ _ F1). lia.
Qed.

(** The buffer for the name of the program. *)
Definition buffer_ok (m : bytes) (lo hi buf : Z) : Prop :=
  valid m buf (hi - lo + 1) ∧ (buf + (hi - lo) < lo ∨ hi ≤ buf).

Section runit.
Context (k : kernel) (lo hi : Z) (fuel : nat) (buf : Z) (Hhi : hi < lo + Z.of_nat fuel).

Lemma read_strs_ok st argv args :
  held lo hi st argv args → read_strs fuel argv (sh_mem st) = Ok (args, sh_mem st).
Proof.
  induction 1 as [|t w argv args (Hc & H1 & H2 & _) _ IH]; cbn [read_strs]; [done|].
  rewrite (bind_Ok _ _ _ _ _ (read_str_ok w _ t fuel Hc ltac:(lia))). by rewrite (bind_Ok _ _ _ _ _ IH).
Qed.

(** The name of the program with a slash in front. *)
Lemma arg0_ok st t w argv args :
  held lo hi st (t :: argv) (w :: args) → w ≠ [] → buffer_ok (sh_mem st) lo hi buf →
  ∃ c a0 b, in_bytes (load8 t) st = Ok (c, st) ∧
    (if bool_decide (c ≠ SLASH) then
       in_bytes (store8 buf SLASH ;; strcpy fuel (buf + 1) t) ;;
       mret buf
     else mret t) st = Ok (a0, with_mem b st) ∧
    cstr b a0 (slashed w) ∧ held lo hi (with_mem b st) argv args.
Proof.
  intros Hh Hne [Hv Hd]. apply Forall2_cons in Hh as [(Hc & H1 & H2 & _) Hh].
  destruct w as [|c w]; [done|]. destruct (cstr_cons _ _ _ _ Hc) as (Hc0 & Hr & _).
  exists c. rewrite (in_bytes_Ok _ _ _ _ (load8_ok _ _ _ Hc0)). unfold slashed. simpl head.
  cbn [length] in H2.
  destruct (decide (c = SLASH)) as [Es|Es].
  - rewrite (bool_decide_eq_false_2 (c ≠ SLASH)) by auto. rewrite bool_decide_eq_true_2 by (by rewrite Es).
    exists t, (sh_mem st). split_and!; [by destruct st|by destruct st|done|by destruct st].
  - rewrite (bool_decide_eq_true_2 (c ≠ SLASH)) by done. rewrite bool_decide_eq_false_2 by (by intros [= ?]).
    destruct (store8_ok (sh_mem st) buf SLASH) as (m1 & R1 & _ & F1); [apply Hv; lia|].
    destruct (strcpy_ok (c :: w) m1 (buf + 1) t fuel) as (m2 & R2 & [C2 C2'] & S2); cbn [length]; [|lia| |lia|].
    { eapply cstr_keep; [|exact Hc]. cbn [length]. intros a Ha. apply (filled_out _ _ _ _ _ _ F1). lia. }
    { intros a Ha. eapply (filled_valid (sh_mem st) m1 _ _ _ buf); [exact F1|by eexists|exact Hv|lia]. }
    cbn [length] in S2. exists buf, m2.
    assert (R : (store8 buf SLASH ;; strcpy fuel (buf + 1) t) (sh_mem st) = Ok (buf + 1, m2)).
    { rewrite (bind_Ok _ _ _ _ _ R1). unfold strcpy. by rewrite (bind_Ok _ _ _ _ _ R2). }
    split_and!; [by destruct st|by rewrite (bind_Ok _ _ _ _ _ (in_bytes_Ok _ _ _ _ R))| |].
    + split; [by constructor|]. split; [|done]. rewrite S2 by lia. by rewrite (filled_in _ _ _ _ _ _ F1) by lia.
    + eapply Forall2_impl; [exact Hh|]. intros t' w' (Hc' & H1' & H2' & H3'). split_and!; [|done|done|done].
      eapply cstr_keep; [|exact Hc']. intros a Ha. simpl. rewrite S2 by lia.
      apply (filled_out _ _ _ _ _ _ F1). lia.
Qed.

(** What a run of [runit] that agrees with the reference is. *)
Definition calls_of {A} (o : outcome (A * shell)) : outcome (A * list call) :=
  match o with Ok (a, st) => Ok (a, sh_calls st) | Stop w => Stop w end.

(** The calls behind [execve]. *)
Lemma spawn_run path strs pc st :
  calls_of ((r ← sys k (Execve path strs);
    (if bool_decide (r < 0) then say k (No_spawn path r) else mret tt) ;;
    close_all k ;;
    (if bool_decide (0 ≤ r) then sys k (Wait r) ;; mret tt else mret tt) ;;
    (if bool_decide (pc ≠ 0) then sys k (Wait pc) ;; mret tt else mret tt) ;;
    sys k Exit ;;
    mret false) st) =
  let h1 := sh_calls st ++ [Execve path strs] in
  let r := answer k h1 in
  Ok (false, h1 ++ (if bool_decide (r < 0) then [Printf (No_spawn path r)] else []) ++
    closes 128 0 ++ (if bool_decide (0 ≤ r) then [Wait r] else []) ++
    (if bool_decide (pc ≠ 0) then [Wait pc] else []) ++ [Exit]).
Proof.
  rewrite (bind_Ok _ _ _ _ _ (sys_run k _ st)). cbv zeta. set (h1 := sh_calls st ++ _). set (r := answer k h1).
  assert (Hopt : ∀ (b : bool) c st0, (if b then sys k c ;; mret tt else mret tt) st0 =
    Ok (tt, logged (sh_calls st0 ++ if b then [c] else []) st0)).
  { intros [] c st0; [done|]. rewrite app_nil_r. by destruct st0. }
  unfold say. rewrite (bind_Ok _ _ _ _ _ (Hopt _ _ _)). unfold close_all.
  rewrite (bind_Ok _ _ _ _ _ (close_loop_run k 128 0 _)), (bind_Ok _ _ _ _ _ (Hopt _ _ _)), (bind_Ok _ _ _ _ _ (Hopt _ _ _)).
  rewrite (bind_Ok _ _ _ _ _ (sys_run k Exit _)). cbn [sh_calls logged calls_of mret M_ret]. by rewrite <- !app_assoc.
Qed.

Lemma runit_ok st argv args pc :
  held lo hi st argv args → Forall (λ w, w ≠ []) args → buffer_ok (sh_mem st) lo hi buf →
  calls_of (runit k fuel buf argv pc st) = ref_runit k args pc (sh_calls st).
Proof.
  intros Hh Hne Hb. destruct Hh as [|t w argv args Hw Hh]; [done|]. cbn [runit ref_runit].
  apply Forall_cons in Hne as [Hw0 Hne].
  destruct (arg0_ok st t w argv args) as (c & a0 & b & R1 & R2 & Ca & Hh'); [by constructor|done|done|].
  rewrite (bind_Ok _ _ _ _ _ R1), (bind_Ok _ _ _ _ _ R2).
  cbn [length]. rewrite (Forall2_length _ _ _ Hh). destruct (bool_decide (Z.of_nat (S (length args)) = MAXARGS)); [done|].
  rewrite (bind_Ok (mret tt) _ (with_mem b st) tt (with_mem b st) eq_refl).
  assert (Hlen : (length (slashed w) < fuel)%nat).
  { destruct Hw as (_ & Hl1 & Hl2 & _). unfold slashed. clear -Hl1 Hl2 Hhi. destruct (bool_decide _); cbn [length]; lia. }
  assert (R3 : in_bytes (read_str fuel a0) (with_mem b st) = Ok (slashed w, with_mem b st)).
  { rewrite (in_bytes_Ok _ (with_mem b st) _ _ (read_str_ok _ b a0 fuel Ca Hlen)). done. }
  assert (R4 : in_bytes (read_strs fuel (a0 :: argv)) (with_mem b st) = Ok (slashed w :: args, with_mem b st)).
  { erewrite (in_bytes_Ok _ (with_mem b st) _ b); [done|]. cbn [read_strs].
    rewrite (bind_Ok _ _ _ _ _ (read_str_ok _ b a0 fuel Ca Hlen)).
    by rewrite (bind_Ok _ _ _ _ _ (read_strs_ok (with_mem b st) argv args Hh')). }
  rewrite (bind_Ok _ _ _ _ _ R3), (bind_Ok _ _ _ _ _ R4). apply (spawn_run _ _ pc (with_mem b st)).
Qed.
End runit.

(** ** The whole line *)

Lemma lex_words_nonempty l : ∀ w, Forall (λ t, match t with Word w => w ≠ [] | Sym _ => True end) (lex w l).
Proof.
  assert (Hfl : ∀ w ts, Forall (λ t, match t with Word w => w ≠ [] | Sym _ => True end) ts →
    Forall (λ t, match t with Word w => w ≠ [] | Sym _ => True end) (flush w ts)).
  { intros [|c w] ts Hts; [done|]. by constructor. }
  induction l as [|c l IH]; intros w; simpl; [by apply Hfl|].
  destruct (is_white c); [by apply Hfl|]. destruct (is_sym c); [|done]. apply Hfl. by constructor.
Qed.

Lemma ref_parse_nonempty k : ∀ n ts args h args' pc h',
  (length ts ≤ n)%nat → Forall (λ t, match t with Word w => w ≠ [] | Sym _ => True end) ts → Forall (λ w, w ≠ []) args →
  ref_parse k ts args h = Ok (RRun args' pc, h') → Forall (λ w, w ≠ []) args'.
Proof.
  induction n as [|n IH]; intros ts args h args' pc h' Hn Hts Hargs; (destruct ts as [|[w|x] ts]; cbn [ref_parse length] in *;
    [by intros [= <- <- <-]|lia|lia]) || (destruct ts as [|[w|x] ts]; cbn [ref_parse length] in *; [by intros [= <- <- <-]|..]).
  - apply Forall_cons in Hts as [Hw Hts]. case_bool_decide; [done|]. apply IH; [lia|done|]. apply Forall_app. split; [done|].
    by constructor.
  - apply Forall_cons in Hts as [_ Hts]. destruct (_ || _).
    + destruct ts as [|[f|y] ts]; [done| |done]. apply Forall_cons in Hts as [_ Hts]. case_bool_decide; [done|].
      apply IH; [simpl in Hn; lia|done|done].
    + case_bool_decide; [|done]. case_bool_decide; [done|]. case_bool_decide; [done|].
      case_bool_decide; [apply IH; [lia|done|constructor]|by intros [= <- <- <-]].
Qed.

Lemma runcmd_ok k fuel buf s line st :
  0 < s → cstr (sh_mem st) s line → (length line + 2 < fuel)%nat →
  buffer_ok (sh_mem st) s (s + Z.of_nat (length line) + 1) buf →
  calls_of (runcmd k fuel buf s st) = ref_run k (lex [] line) (sh_calls st).
Proof.
  intros Hs Hl Hf [Hv Hd]. set (hi := s + Z.of_nat (length line) + 1) in *. assert (Hhi : hi < s + Z.of_nat fuel) by lia.
  destruct (_gettoken_ok (sh_mem st) s line fuel (np1 st) (np2 st) hi Hs Hl ltac:(lia) ltac:(lia))
    as (c & p1 & p2 & m' & R & Hn & So & _).
  set (st1 := mk_shell m' c p1 p2 (sh_calls st)).
  assert (Rs : gettoken_start fuel s st = Ok (0, st1)).
  { unfold gettoken_start. run_step. by rewrite (bind_Ok _ _ _ _ _ (in_bytes_Ok _ _ _ _ R)). }
  unfold runcmd, ref_run. rewrite (bind_Ok _ _ _ _ _ Rs).
  pose proof (lex_length line []) as Hlen. rewrite decide_True in Hlen by done.
  pose proof (parse_ok k s hi fuel Hhi fuel (lex [] line) [] [] st1 ltac:(lia)) as Hp.
  assert (Ha : ahead s hi st1 (lex [] line)) by (exists s; split; [lia|exact Hn]).
  assert (Hh0 : held s hi st1 [] []) by constructor. specialize (Hp Ha Hh0). change (sh_calls st1) with (sh_calls st) in Hp.
  destruct (ref_parse k (lex [] line) [] (sh_calls st)) as [[[args pc|] h]|w] eqn:Er; cbn [parse_agrees] in Hp.
  - destruct Hp as (argv & st2 & R2 & <- & Hh & S2). rewrite (bind_Ok _ _ _ _ _ R2). cbv beta iota.
    assert (So2 : same_out (sh_mem st) (sh_mem st2) s hi) by (eapply same_out_trans; [exact So|exact S2]).
    apply (runit_ok k s hi fuel buf Hhi); [done| |].
    + eapply ref_parse_nonempty; [reflexivity|apply lex_words_nonempty|constructor|exact Er].
    + split; [|done]. intros a Ha'. rewrite So2 by lia. by apply Hv.
  - destruct Hp as (st2 & R2 & <-). by rewrite (bind_Ok _ _ _ _ _ R2).
  - by rewrite (bind_Stop _ _ _ _ Hp).
Qed.

(** C24: the shell executes its command line: cutting the line up in place, with
    pointers into it, [runcmd] makes exactly the system calls that the reference
    interpreter makes for the list of the tokens of the line, for every answer the
    kernel can give, and ends the same way. *)
Theorem runcmd_refines k fuel buf s line st :
  0 < s → cstr (sh_mem st) s line → (length line + 2 < fuel)%nat →
  buffer_ok (sh_mem st) s (s + Z.of_nat (length line) + 1) buf →
  calls_of (runcmd k fuel buf s st) = ref_run k (lex [] line) (sh_calls st).
Proof. apply runcmd_ok. Qed.

(** ** Lines of words *)

(** The words with a blank behind each. *)
Definition spaced (ws : list (list Z)) : list Z := concat ((λ w, w ++ [32]) <$> ws).

Lemma spaced_cons w ws : spaced (w :: ws) = w ++ 32 :: spaced ws.
Proof. unfold spaced. simpl. by rewrite <- app_assoc. Qed.

Lemma lex_blank l : lex [] (32 :: l) = lex [] l.
Proof. done. Qed.

(** Printing words and cutting the line up again. *)
Lemma lex_spaced ws :
  Forall (λ w, w ≠ [] ∧ Forall word_char w) ws → lex [] (spaced ws) = Word <$> ws.
Proof.
  induction 1 as [|w ws [Hne Hw] _ IH]; [done|]. rewrite spaced_cons, lex_word; [|done|].
  - rewrite lex_blank, IH. by destruct w.
  - intros c [= <-] [Hc _]. by vm_compute in Hc.
Qed.

Lemma ref_parse_words k ws : ∀ args h,
  Z.of_nat (length args + length ws) ≤ MAXARGS →
  ref_parse k (Word <$> ws) args h = Ok (RRun (args ++ ws) 0, h).
Proof.
  induction ws as [|w ws IH]; intros args h Hn; cbn [fmap list_fmap ref_parse length] in *; [by rewrite app_nil_r|].
  rewrite bool_decide_eq_false_2 by lia. rewrite IH; [by rewrite <- app_assoc|].
  rewrite length_app. simpl. lia.
Qed.

(** A command of fewer than 16 words is executed with these words. *)
Theorem runcmd_words k fuel buf s w ws st :
  Forall (λ w, w ≠ [] ∧ Forall word_char w) (w :: ws) → Z.of_nat (length (w :: ws)) < MAXARGS →
  0 < s → cstr (sh_mem st) s (spaced (w :: ws)) → (length (spaced (w :: ws)) + 2 < fuel)%nat →
  buffer_ok (sh_mem st) s (s + Z.of_nat (length (spaced (w :: ws))) + 1) buf →
  let h1 := sh_calls st ++ [Execve (slashed w) (slashed w :: ws)] in
  calls_of (runcmd k fuel buf s st) =
    Ok (false, h1 ++ (if bool_decide (answer k h1 < 0) then [Printf (No_spawn (slashed w) (answer k h1))] else []) ++
      closes 128 0 ++ (if bool_decide (0 ≤ answer k h1) then [Wait (answer k h1)] else []) ++ [Exit]).
Proof.
  intros Hws Hn Hs Hl Hf Hb h1. rewrite (runcmd_ok k fuel buf s (spaced (w :: ws))) by done.
  rewrite lex_spaced by done. unfold ref_run. rewrite ref_parse_words by (simpl in *; lia). simpl app.
  cbn [mbind outcome_bind ref_runit]. rewrite bool_decide_eq_false_2 by lia. done.
Qed.

(** With 16 words [argv[argc] = 0] is behind the end of [argv]: the test of [MAXARGS]
    leaves no room for the terminator. *)
Theorem sixteen_words_fault k fuel buf s ws st :
  Forall (λ w, w ≠ [] ∧ Forall word_char w) ws → Z.of_nat (length ws) = MAXARGS →
  0 < s → cstr (sh_mem st) s (spaced ws) → (length (spaced ws) + 2 < fuel)%nat →
  buffer_ok (sh_mem st) s (s + Z.of_nat (length (spaced ws)) + 1) buf →
  runcmd k fuel buf s st = Stop Faulted.
Proof.
  intros Hws Hn Hs Hl Hf Hb. pose proof (runcmd_ok k fuel buf s (spaced ws) st Hs Hl Hf Hb) as Hr.
  rewrite lex_spaced in Hr by done. unfold ref_run in Hr. rewrite ref_parse_words in Hr by (simpl in *; lia).
  destruct ws as [|w ws]; [done|]. cbn [mbind outcome_bind app ref_runit] in Hr.
  rewrite bool_decide_eq_true_2 in Hr by done. by destruct (runcmd _ _ _ _ _) as [[? ?]|]; simplify_eq/=.
Qed.

(** ['&'], [';'] and the parentheses are tokens that [parse] does not know. *)
Theorem semicolon_panics k fuel buf s w ws c st :
  Forall (λ w, w ≠ [] ∧ Forall word_char w) (w :: ws) → Z.of_nat (length (w :: ws)) ≤ MAXARGS →
  c ∈ [38; 59; 40; 41] → let line := spaced (w :: ws) ++ [c] in
  0 < s → cstr (sh_mem st) s line → (length line + 2 < fuel)%nat →
  buffer_ok (sh_mem st) s (s + Z.of_nat (length line) + 1) buf →
  runcmd k fuel buf s st = Stop Panicked.
Proof.
  intros Hws Hn Hc line Hs Hl Hf Hb. pose proof (runcmd_ok k fuel buf s line st Hs Hl Hf Hb) as Hr.
  assert (El : ∀ vs, Forall (λ w, w ≠ [] ∧ Forall word_char w) vs → lex [] (spaced vs ++ [c]) = (Word <$> vs) ++ [Sym c]).
  { induction 1 as [|v vs [Hne Hv] _ IH].
    - simpl. rewrite !elem_of_cons, elem_of_nil in Hc. destruct Hc as [->|[->|[->|[->|[]]]]]; reflexivity.
    - rewrite spaced_cons, <- app_assoc. simpl. rewrite lex_word; [|done|].
      + rewrite lex_blank, IH. by destruct v.
      + intros d [= <-] [Hd _]. by vm_compute in Hd. }
  assert (Ep : ∀ vs args h, Z.of_nat (length args + length vs) ≤ MAXARGS →
    ref_parse k ((Word <$> vs) ++ [Sym c]) args h = Stop Panicked).
  { induction vs as [|v vs IH]; intros args h Hvn; cbn [fmap list_fmap app ref_parse length] in *.
    - rewrite !elem_of_cons, elem_of_nil in Hc. destruct Hc as [->|[->|[->|[->|[]]]]]; reflexivity.
    - rewrite bool_decide_eq_false_2 by lia. apply IH. rewrite length_app. simpl. lia. }
  unfold line in Hr. rewrite El in Hr by done. unfold ref_run in Hr. rewrite Ep in Hr by (simpl in *; lia).
  by destruct (runcmd _ _ _ _ _) as [[? ?]|]; simplify_eq/=.
Qed.

(** ** An example: [sort <in|wc], in a kernel that answers 3 to every call but forks
    a child with the number 7 *)

Definition demo_line : list Z := [115; 111; 114; 116; 32; 60; 105; 110; 124; 119; 99].
Definition demo_kernel : kernel :=
  mk_kernel (λ h, match last h with Some Fork => 7 | _ => 3 end) (λ _, (4, 5)).
Definition demo_shell : shell :=
  mk_shell (list_to_map (zip (seqZ 100 12) (demo_line ++ [0])) ∪ list_to_map ((λ a, (a, 0)) <$> seqZ 200 20)) 0 0 0 [].

Lemma demo_cstr : cstr (sh_mem demo_shell) 100 demo_line.
Proof. split; [repeat constructor|]. repeat (split; [vm_compute; reflexivity|]). exact I. Qed.

Lemma demo_buffer : buffer_ok (sh_mem demo_shell) 100 (100 + Z.of_nat (length demo_line) + 1) 200.
Proof.
  split; [|simpl; lia]. change (100 + Z.of_nat (length demo_line) + 1 - 100 + 1) with 13.
  assert (H : ∀ i, i ∈ seqZ 200 13 → is_Some (sh_mem demo_shell !! i)).
  { apply Forall_forall, (bool_decide_unpack _). vm_compute. exact I. }
  intros i Hi. apply H, elem_of_seqZ. lia.
Qed.

Definition demo_calls : list call :=
  [Open [105; 110] READ_FLAGS; Dup2 3 0; Close 3; Pipe; Fork; Dup2 5 1; Close 5; Close 4;
   Execve [47; 115; 111; 114; 116] [[47; 115; 111; 114; 116]]] ++ closes 128 0 ++ [Wait 3; Wait 7; Exit].

Lemma demo_ref : ref_run demo_kernel (lex [] demo_line) [] = Ok (false, demo_calls).
Proof. vm_compute. reflexivity. Qed.

Lemma runcmd_refines_witness :
  ∃ st, runcmd demo_kernel 20 200 100 demo_shell = Ok (false, st) ∧ sh_calls st = demo_calls.
Proof.
  pose proof (runcmd_refines demo_kernel 20 200 100 demo_line demo_shell) as H.
  assert (E : calls_of (runcmd demo_kernel 20 200 100 demo_shell) = ref_run demo_kernel (lex [] demo_line) []).
  { apply H; [lia|exact demo_cstr|simpl; lia|exact demo_buffer]. }
  rewrite demo_ref in E. destruct (runcmd demo_kernel 20 200 100 demo_shell) as [[b st]|w]; [|discriminate E].
  injection E as -> E. exists st. split; [reflexivity|exact E].
Defined.
