(* ===== verification/UserLib.v ===== *)
(** * Options and lines: lib/args.c, lib/readline.c and [main] of user/sh.c

    Strings are in the memory of the process ([bytes] of Str).  The array [argv] is
    the list of its pointers with the NULL at the end; [argc] of [Argstate] is the
    variable that the pointer of the C structure leads to. *)

From S2P Require Import Prelude Str Shell.

Local Open Scope Z_scope.

Definition DASH : Z := 45.
Definition EEOF : Z := 38.

(** ** Options *)

Record Argstate := mk_args {
  as_argc : Z;
  as_argv : list Z;
  curarg : Z;
  argval : Z;
}.

(** Memory and the state of the options. *)
Record astate := mk_astate { a_mem : bytes; a_args : Argstate }.

Definition on_bytes {A} (m : M bytes A) : M astate A := λ st,
  match m (a_mem st) with Ok (a, b) => Ok (a, mk_astate b (a_args st)) | Stop w => Stop w end.

Definition set_args (f : Argstate → Argstate) : M astate unit := modify (λ st, mk_astate (a_mem st) (f (a_args st))).

Definition set_curarg (p : Z) (a : Argstate) : Argstate := mk_args (as_argc a) (as_argv a) p (argval a).
Definition set_argval (p : Z) (a : Argstate) : Argstate := mk_args (as_argc a) (as_argv a) (curarg a) p.

(** [empty] is the address of the constant [""]; [argv] is NULL or an array. *)
Definition argstart (empty argc : Z) (argv : option (list Z)) : Argstate :=
  mk_args argc (default [] argv)
    (if bool_decide (1 < argc) && bool_decide (is_Some argv) then empty else 0) 0.

(** [memmove(argv + 1, argv + 2, sizeof(char * ) * (argc - 1))] and [argc--]: the
    [argc - 1] pointers from [argv[2]] on move down by one. *)
Definition shift_args : M astate unit :=
  st ← get;
  let a := a_args st in
  let n := Z.to_nat (as_argc a - 1) in
  if bool_decide (as_argc a < Z.of_nat (length (as_argv a))) then
    set_args (λ a, mk_args (as_argc a - 1)
      (take 1 (as_argv a) ++ take n (drop 2 (as_argv a)) ++ drop (S n) (as_argv a)) (curarg a) (argval a))
  else fault.

Definition endofargs : M astate Z := set_args (set_curarg 0) ;; mret (-1).

(** [arg = *curarg; curarg++]. *)
Definition take_flag : M astate Z :=
  st ← get;
  c ← on_bytes (load8 (curarg (a_args st)));
  set_args (set_curarg (curarg (a_args st) + 1)) ;;
  mret c.

Definition argv1 : M astate Z := st ← get; of_option (as_argv (a_args st) !! 1%nat).

Definition argnext : M astate Z :=
  set_args (set_argval 0) ;;
  st ← get;
  if bool_decide (curarg (a_args st) = 0) then mret (-1)
  else
    c ← on_bytes (load8 (curarg (a_args st)));
    if bool_decide (c = 0) then
      if bool_decide (as_argc (a_args st) = 1) then endofargs
      else
        p ← argv1;
        c0 ← on_bytes (load8 p);
        if bool_decide (c0 ≠ DASH) then endofargs
        else
          c1 ← on_bytes (load8 (p + 1));
          if bool_decide (c1 = 0) then endofargs
          else
            set_args (set_curarg (p + 1)) ;;
            shift_args ;;
            c0 ← on_bytes (load8 (p + 1));
            if bool_decide (c0 = DASH) then
              c1 ← on_bytes (load8 (p + 2));
              if bool_decide (c1 = 0) then endofargs else take_flag
            else take_flag
    else take_flag.

Definition argnextvalue (empty : Z) : M astate Z :=
  st ← get;
  let a := a_args st in
  if bool_decide (curarg a = 0) then mret 0
  else
    c ← on_bytes (load8 (curarg a));
    (if bool_decide (c ≠ 0) then
       set_args (λ a, set_curarg empty (set_argval (curarg a) a))
     else if bool_decide (1 < as_argc a) then
       p ← argv1;
       set_args (set_argval p) ;;
       shift_args
     else set_args (λ a, set_curarg 0 (set_argval 0 a))) ;;
    st ← get;
    mret (argval (a_args st)).

Definition argvalue (empty : Z) : M astate Z :=
  st ← get;
  if bool_decide (argval (a_args st) ≠ 0) then mret (argval (a_args st)) else argnextvalue empty.

(** *** The options of the shell: the loop of [main] *)

Record options := mk_options { o_debug : Z; interactive : Z; echocmds : Z }.

(** One option: [None] for [usage()]. *)
Definition option_char (r : Z) (o : options) : option options :=
  if bool_decide (r = 100) then Some (mk_options (i32 (o_debug o + 1)) (interactive o) (echocmds o))
  else if bool_decide (r = 105) then Some (mk_options (o_debug o) 1 (echocmds o))
  else if bool_decide (r = 120) then Some (mk_options (o_debug o) (interactive o) 1)
  else None.

Fixpoint option_loop (fuel : nat) (o : options) : M astate (option options) :=
  match fuel with
  | O => stop_with OutOfFuel
  | S fuel =>
      r ← argnext;
      if bool_decide (0 ≤ r) then
        match option_char r o with Some o => option_loop fuel o | None => mret None end
      else mret (Some o)
  end.

(** ** Lines *)

(** What is echoed. *)
Inductive echo := Putchar (c : Z) | Newline | Prompt | Read_error (c : Z).

(** Memory, the results of [read(0, &c, 1)] to come with the bytes read, and the
    output. *)
Record rstate := mk_rstate { r_mem : bytes; reads : list (Z * Z); output : list echo }.

Definition BUFLEN : Z := 1024.

Section readline.
(** The address of [buf], and what the uninitialised [c] of [getchar] holds. *)
Context (buf junk : Z) (echoing : bool).

Definition show (e : echo) : M rstate unit := modify (λ st, mk_rstate (r_mem st) (reads st) (output st ++ [e])).

Definition echo_if (e : echo) : M rstate unit := if echoing then show e else mret tt.

Definition mem_op {A} (m : M bytes A) : M rstate A := λ st,
  match m (r_mem st) with Ok (a, b) => Ok (a, mk_rstate b (reads st) (output st)) | Stop w => Stop w end.

(** [read] writes one byte of the four of [c]. *)
Definition low_byte (b : Z) : Z := i32 (junk - junk mod 256 + u8 b).

Fixpoint getchar_loop (l : list (Z * Z)) : outcome (Z * list (Z * Z)) :=
  match l with
  | [] => Stop OutOfFuel
  | (r, b) :: l =>
      if bool_decide (r = 0) then getchar_loop l
      else Ok (if bool_decide (r < 0) then r else low_byte b, l)
  end.

Definition getchar : M rstate Z := λ st,
  match getchar_loop (reads st) with
  | Ok (c, l) => Ok (c, mk_rstate (r_mem st) l (output st))
  | Stop w => Stop w
  end.

(** [n] bounds the characters; the result is [buf] or NULL. *)
Fixpoint readline_loop (n : nat) (i : Z) : M rstate Z :=
  match n with
  | O => stop_with OutOfFuel
  | S n =>
      c ← getchar;
      if bool_decide (c < 0) then
        (if bool_decide (c ≠ - EEOF) then show (Read_error c) else mret tt) ;;
        mret 0
      else if (bool_decide (c = 8) || bool_decide (c = 127)) && bool_decide (0 < i) then
        echo_if (Putchar 8) ;;
        readline_loop n (i - 1)
      else if bool_decide (32 ≤ c) && bool_decide (i < BUFLEN - 1) then
        echo_if (Putchar (u8 c)) ;;
        mem_op (store8 (buf + i) c) ;;
        readline_loop n (i + 1)
      else if bool_decide (c = 10) || bool_decide (c = 13) then
        echo_if Newline ;;
        mem_op (store8 (buf + i) 0) ;;
        mret buf
      else readline_loop n i
  end.

Definition readline (n : nat) (prompt : bool) : M rstate Z :=
  (if prompt then show Prompt else mret tt) ;;
  readline_loop n 0.
End readline.

(** ** One line of the shell: the body of the loop of [main] *)

Definition HASH : Z := 35.

(** [true]: the loop goes on; [false]: this process has ended.  [-x] prints the line
    through [Printf], which is left out here. *)
Definition main_line (k : kernel) (fuel : nat) (argv0buf buf : Z) : M shell bool :=
  c ← in_bytes (load8 buf);
  if bool_decide (c = HASH) then mret true
  else
    r ← sys k Fork;
    if bool_decide (r < 0) then panic
    else if bool_decide (r = 0) then
      ret ← runcmd k fuel argv0buf buf;
      (if (ret : bool) then sys k Exit ;; mret tt else mret tt) ;;
      mret false
    else
      sys k (Wait r) ;;
      mret true.
