(* ===== verification/UserLibProofs.v ===== *)
(** * Correctness of the options and of the line editor

    [argnext] against the list of the flags of a command line, and [readline]
    against an editor that keeps the line as a list. *)

From S2P Require Import Prelude Str StrProofs Shell UserLib.

Local Open Scope Z_scope.

(** ** Options *)

(** The flags of the arguments behind the name of the program, and the arguments
    that are left: flags stop at an argument that does not start with a dash, at a
    single dash, and behind ["--"]. *)
Fixpoint flags (args : list (list Z)) : list Z * list (list Z) :=
  match args with
  | (d :: c :: cs) :: rest =>
      if bool_decide (d ≠ DASH) then ([], args)
      else if bool_decide (c = DASH) && bool_decide (cs = []) then ([], rest)
      else (c :: cs ++ fst (flags rest), snd (flags rest))
  | _ => ([], args)
  end.

(** The array [argv] holds [args] behind the name of the program. *)
Definition args_in (st : astate) (args : list (list Z)) : Prop :=
  ∃ p0 ps tl, as_argv (a_args st) = p0 :: ps ++ 0 :: tl ∧ as_argc (a_args st) = 1 + Z.of_nat (length ps) ∧
    Forall2 (λ p x, 0 < p ∧ cstr (a_mem st) p x) ps args.

(** The flags [cs] of the current argument are to come. *)
Definition pending (st : astate) (cs : list Z) : Prop :=
  0 < curarg (a_args st) ∧ cstr (a_mem st) (curarg (a_args st)) cs.

Lemma on_bytes_load st a c : a_mem st !! a = Some c → on_bytes (load8 a) st = Ok (c, st).
Proof. intros H. unfold on_bytes. rewrite (load8_ok _ _ _ H). by destruct st. Qed.

Definition with_args (f : Argstate → Argstate) (st : astate) : astate := mk_astate (a_mem st) (f (a_args st)).

Lemma set_args_run f st : set_args f st = Ok (tt, with_args f st).
Proof. done. Qed.

Lemma take_flag_ok st c cs args :
  pending st (c :: cs) → args_in st args →
  ∃ st', take_flag st = Ok (c, st') ∧ a_mem st' = a_mem st ∧ pending st' cs ∧ args_in st' args ∧ 0 < c.
Proof.
  intros [Hp Hc] Ha. destruct (cstr_cons _ _ _ _ Hc) as (Hc0 & Hr & Hc').
  exists (with_args (set_curarg (curarg (a_args st) + 1)) st). split_and!; [|done| |done|lia].
  - unfold take_flag. run_step. by rewrite (bind_Ok _ _ _ _ _ (on_bytes_load _ _ _ Hc0)).
  - split; [simpl; lia|done].
Qed.

Lemma shift_args_ok st p0 p ps tl args :
  as_argv (a_args st) = p0 :: (p :: ps) ++ 0 :: tl → as_argc (a_args st) = 1 + Z.of_nat (length (p :: ps)) →
  Forall2 (λ p x, 0 < p ∧ cstr (a_mem st) p x) ps args →
  ∃ st', shift_args st = Ok (tt, st') ∧ a_mem st' = a_mem st ∧ curarg (a_args st') = curarg (a_args st) ∧
    args_in st' args.
Proof.
  intros Hv Hn Hf.
  exists (with_args (λ a, mk_args (as_argc a - 1) (p0 :: ps ++ 0 :: 0 :: tl) (curarg a) (argval a)) st).
  unfold shift_args. run_step. rewrite bool_decide_eq_true_2 by (rewrite Hv, Hn; simpl; rewrite length_app; simpl; lia).
  rewrite set_args_run. unfold with_args. cbv beta zeta. rewrite Hv, Hn.
  replace (Z.to_nat (1 + Z.of_nat (length (p :: ps)) - 1)) with (S (length ps)) by (simpl; lia).
  split_and!; [|done|done|].
  - do 4 f_equal. simpl. f_equal. rewrite drop_0. replace (ps ++ 0 :: tl) with ((ps ++ [0]) ++ tl) by (by rewrite <- app_assoc).
    rewrite take_app_length' by (rewrite length_app; simpl; lia). rewrite <- app_assoc. simpl. do 2 f_equal.
    rewrite <- app_assoc. by rewrite drop_app_length.
  - exists p0, ps, (0 :: tl). split_and!; [done| |done]. simpl. lia.
Qed.

Lemma endofargs_ok st args :
  args_in st args → ∃ st', endofargs st = Ok (-1, st') ∧ a_mem st' = a_mem st ∧ curarg (a_args st') = 0 ∧ args_in st' args.
Proof. intros Ha. exists (with_args (set_curarg 0) st). by split_and!. Qed.

(** What [argnext] does at the end of an argument. *)
Definition next_argument : M astate Z :=
  st ← get;
  if bool_decide (as_argc (a_args st) = 1) then endofargs
  else
    p ← argv1;
    c0 ← on_bytes (load8 p);
    if bool_decide (c0 ≠ DASH) then endofargs
    else
      c1 ← on_bytes (load8 (p + 1));
      if bool_decide (c1 = 0) then endofargs
      else
        set_args (set_curarg (p + 1)) ;;
        shift_args ;;
        c0 ← on_bytes (load8 (p + 1));
        if bool_decide (c0 = DASH) then
          c1 ← on_bytes (load8 (p + 2));
          if bool_decide (c1 = 0) then endofargs else take_flag
        else take_flag.

Lemma cstr_head m p x : cstr m p x → m !! p = Some (default 0 (head x)).
Proof. destruct x; [apply cstr_nil|]. by intros (? & _)%cstr_cons. Qed.

(** A single word that is no flag. *)
Definition no_flag (x : list Z) : Prop := head x ≠ Some DASH ∨ tail x = [].

Lemma flags_none x args : no_flag x → flags (x :: args) = ([], x :: args).
Proof.
  intros Hx. destruct x as [|d [|c cs]]; try done. simpl. destruct Hx as [Hd|Ht]; [|done].
  rewrite bool_decide_eq_true_2; [done|]. intros ->. by apply Hd.
Qed.

Lemma flags_some c cs args : (c, cs) ≠ (DASH, []) →
  flags ((DASH :: c :: cs) :: args) = (c :: cs ++ fst (flags args), snd (flags args)).
Proof.
  intros Hc. cbn [flags]. rewrite (bool_decide_eq_false_2 (DASH ≠ DASH)) by auto.
  destruct (decide (c = DASH)) as [->|]; [rewrite (bool_decide_eq_false_2 (cs = [])) by (intros ->; by apply Hc)|
    rewrite (bool_decide_eq_false_2 (c = DASH)) by done]; by rewrite ?andb_false_r.
Qed.

Lemma next_argument_ok st args :
  args_in st args →
  let '(f, rest) := flags args in
  match f with
  | [] => ∃ st', next_argument st = Ok (-1, st') ∧ a_mem st' = a_mem st ∧ curarg (a_args st') = 0 ∧ args_in st' rest
  | c :: l => ∃ st' cs' args', next_argument st = Ok (c, st') ∧ a_mem st' = a_mem st ∧ pending st' cs' ∧
      args_in st' args' ∧ 0 < c ∧ l = cs' ++ fst (flags args') ∧ rest = snd (flags args')
  end.
Proof.
  intros Ha. pose proof Ha as (p0 & ps & tl & Hv & Hn & Hf). unfold next_argument. run_step.
  destruct Hf as [|p x ps args [Hp Hx] Hf].
  { rewrite bool_decide_eq_true_2 by (rewrite Hn; done). by apply endofargs_ok. }
  rewrite bool_decide_eq_false_2 by (rewrite Hn; simpl; lia).
  assert (Rv : argv1 st = Ok (p, st)) by (unfold argv1; run_step; by rewrite Hv). rewrite (bind_Ok _ _ _ _ _ Rv).
  rewrite (bind_Ok _ _ _ _ _ (on_bytes_load _ _ _ (cstr_head _ _ _ Hx))).
  destruct (decide (no_flag x)) as [Hno|Hyes].
  { rewrite (flags_none x args Hno). case_bool_decide as Hd; [by apply endofargs_ok|].
    destruct x as [|d cs]; [done|]. simpl in Hd. subst d.
    destruct Hno as [?|Ht]; [done|]. simpl in Ht. subst cs. destruct (cstr_cons _ _ _ _ Hx) as (_ & _ & Hx').
    rewrite (bind_Ok _ _ _ _ _ (on_bytes_load _ _ _ (cstr_nil _ _ Hx'))). by apply endofargs_ok. }
  destruct x as [|d [|c cs]]; [by destruct Hyes; left|by destruct Hyes; right|].
  assert (d = DASH) as -> by (destruct (decide (d = DASH)); [done|destruct Hyes; left; by intros [= ->]]).
  destruct (cstr_cons _ _ _ _ Hx) as (_ & _ & Hx'). destruct (cstr_cons _ _ _ _ Hx') as (Hc & Hcr & Hx2).
  simpl default. rewrite (bool_decide_eq_false_2 (DASH ≠ DASH)) by auto.
  rewrite (bind_Ok _ _ _ _ _ (on_bytes_load _ _ _ Hc)), bool_decide_eq_false_2 by lia.
  rewrite (bind_Ok _ _ _ _ _ (set_args_run _ _)). set (st1 := with_args _ st).
  destruct (shift_args_ok st1 p0 p ps tl args Hv Hn Hf) as (st2 & R2 & Hm2 & Hc2 & Ha2).
  rewrite (bind_Ok _ _ _ _ _ R2).
  assert (Hp2 : pending st2 (c :: cs)) by (split; rewrite Hc2; [simpl; lia|rewrite Hm2; done]).
  rewrite (bind_Ok _ _ _ _ _ (on_bytes_load st2 (p + 1) c ltac:(rewrite Hm2; exact Hc))).
  destruct (take_flag_ok st2 c cs args Hp2 Ha2) as (st3 & R3 & Hm3 & Hp3 & Ha3 & Hc3).
  destruct (decide ((c, cs) = (DASH, []))) as [[= -> ->]|Hne].
  - simpl. rewrite (bind_Ok _ _ _ _ _ (on_bytes_load st2 (p + 2) 0 ltac:(rewrite Hm2; replace (p + 2) with (p + 1 + 1) by lia;
      exact (cstr_nil _ _ Hx2)))).
    destruct (endofargs_ok st2 args Ha2) as (st4 & R4 & Hm4 & H4). exists st4. split; [exact R4|]. split; [by rewrite Hm4, Hm2|exact H4].
  - rewrite flags_some by done. simpl. exists st3, cs, args.
    assert (Rt : (if bool_decide (c = DASH) then
        c1 ← on_bytes (load8 (p + 2)); if bool_decide (c1 = 0) then endofargs else take_flag else take_flag) st2 = Ok (c, st3)).
    { case_bool_decide; [|done]. subst c. destruct cs as [|c1 cs]; [done|]. destruct (cstr_cons _ _ _ _ Hx2) as (Hc1 & Hr1 & _).
      rewrite (bind_Ok _ _ _ _ _ (on_bytes_load st2 (p + 2) c1 ltac:(rewrite Hm2; replace (p + 2) with (p + 1 + 1) by lia;
        exact Hc1))). by rewrite bool_decide_eq_false_2 by lia. }
    rewrite Rt. split_and!; try done. by rewrite Hm3, Hm2.
Qed.

(** The flags to come: those of the current argument and of the later ones. *)
Lemma argnext_ok st cs args :
  pending st cs → args_in st args →
  let '(f, rest) := flags args in
  match cs ++ f with
  | [] => ∃ st', argnext st = Ok (-1, st') ∧ a_mem st' = a_mem st ∧ curarg (a_args st') = 0 ∧ args_in st' rest
  | c :: l => ∃ st' cs' args', argnext st = Ok (c, st') ∧ a_mem st' = a_mem st ∧ pending st' cs' ∧ args_in st' args' ∧
      0 < c ∧ l = cs' ++ fst (flags args') ∧ rest = snd (flags args')
  end.
Proof.
  intros Hp Ha. unfold argnext. rewrite (bind_Ok _ _ _ _ _ (set_args_run _ _)).
  set (st1 := with_args (set_argval 0) st). assert (Hp1 : pending st1 cs) by done. assert (Ha1 : args_in st1 args) by done.
  change (a_mem st) with (a_mem st1). clearbody st1. clear Hp Ha. run_step.
  pose proof Hp1 as [Hpos Hc]. rewrite bool_decide_eq_false_2 by lia.
  destruct cs as [|c cs].
  - rewrite (bind_Ok _ _ _ _ _ (on_bytes_load _ _ _ (cstr_nil _ _ Hc))). rewrite bool_decide_eq_true_2 by done.
    apply (next_argument_ok st1 args Ha1).
  - destruct (cstr_cons _ _ _ _ Hc) as (Hc0 & Hr & Hc'). rewrite (bind_Ok _ _ _ _ _ (on_bytes_load _ _ _ Hc0)).
    rewrite bool_decide_eq_false_2 by lia.
    destruct (take_flag_ok st1 c cs args Hp1 Ha1) as (st2 & R & Hm & Hp2 & Ha2 & Hc2).
    destruct (flags args) as [f rest] eqn:Ef. simpl. exists st2, cs, args. rewrite Ef. split_and!; try done.
Qed.

(** The loop of [main] over the flags. *)
Fixpoint set_options (fs : list Z) (o : options) : option options :=
  match fs with
  | [] => Some o
  | c :: fs => match option_char c o with Some o => set_options fs o | None => None end
  end.

Lemma option_loop_ok : ∀ fuel st cs args o,
  pending st cs → args_in st args → (length (cs ++ fst (flags args)) < fuel)%nat →
  ∃ r st', option_loop fuel o st = Ok (r, st') ∧ r = set_options (cs ++ fst (flags args)) o ∧
    (is_Some r → a_mem st' = a_mem st ∧ args_in st' (snd (flags args))).
Proof.
  induction fuel as [|fuel IH]; intros st cs args o Hp Ha Hf; [lia|]. cbn [option_loop].
  pose proof (argnext_ok st cs args Hp Ha) as Hn. destruct (flags args) as [f rest]. simpl fst in *. simpl snd in *.
  destruct (cs ++ f) as [|c l].
  - destruct Hn as (st' & R & Hm & _ & Ha'). rewrite (bind_Ok _ _ _ _ _ R). simpl. eauto 10.
  - destruct Hn as (st1 & cs1 & args1 & R & Hm & Hp1 & Ha1 & Hc & -> & ->). rewrite (bind_Ok _ _ _ _ _ R).
    rewrite bool_decide_eq_true_2 by lia. cbn [set_options]. destruct (option_char c o) as [o'|].
    + destruct (IH st1 cs1 args1 o' Hp1 Ha1 ltac:(simpl in Hf; lia)) as (r & st2 & R2 & Hr & H2).
      exists r, st2. split; [done|]. split; [done|]. intros Hs. destruct (H2 Hs) as [Hm2 Ha2]. by rewrite Hm2, Hm.
    + exists None, st1. split; [done|]. split; [done|]. by intros [? ?].
Qed.

(** [argnextvalue]: the rest of the current argument, else the next argument, else
    NULL. *)
Theorem argnextvalue_correct st empty cs args :
  pending st cs → args_in st args → 0 < empty → a_mem st !! empty = Some 0 →
  ∃ p st', argnextvalue empty st = Ok (p, st') ∧ a_mem st' = a_mem st ∧
    match cs, args with
    | _ :: _, _ => cstr (a_mem st) p cs ∧ pending st' [] ∧ args_in st' args
    | [], x :: rest => cstr (a_mem st) p x ∧ pending st' [] ∧ args_in st' rest
    | [], [] => p = 0 ∧ curarg (a_args st') = 0 ∧ args_in st' []
    end.
Proof.
  intros Hp Ha He Hz. pose proof Hp as [Hpos Hc]. unfold argnextvalue. run_step.
  rewrite bool_decide_eq_false_2 by lia. rewrite (bind_Ok _ _ _ _ _ (on_bytes_load _ _ _ (cstr_head _ _ _ Hc))).
  destruct cs as [|c cs]; simpl default.
  - rewrite (bool_decide_eq_false_2 (0 ≠ 0)) by auto. pose proof Ha as (p0 & ps & tl & Hv & Hn & Hf).
    destruct Hf as [|p x ps args [Hp0 Hx] Hf].
    + rewrite bool_decide_eq_false_2 by (rewrite Hn; simpl; lia).
      rewrite (bind_Ok _ _ _ _ _ (set_args_run _ _)). eexists _, _. split; [reflexivity|]. by split_and!.
    + rewrite bool_decide_eq_true_2 by (rewrite Hn; simpl; lia).
      assert (Rv : argv1 st = Ok (p, st)) by (unfold argv1; run_step; by rewrite Hv).
      destruct (shift_args_ok (with_args (set_argval p) st) p0 p ps tl args Hv Hn Hf) as (st2 & R2 & Hm2 & Hc2 & Ha2).
      assert (Hav : argval (a_args st2) = p).
      { unfold shift_args in R2. revert R2. run_step. case_bool_decide; [|done]. by intros [= <-]. }
      assert (R : (p ← argv1; set_args (set_argval p) ;; shift_args) st = Ok (tt, st2)).
      { by rewrite (bind_Ok _ _ _ _ _ Rv), (bind_Ok _ _ _ _ _ (set_args_run _ _)), R2. }
      rewrite (bind_Ok _ _ _ _ _ R). eexists _, st2. split; [reflexivity|]. rewrite Hav. split_and!; [done|done| |done].
      split; [by rewrite Hc2|]. rewrite Hc2, Hm2. exact Hc.
  - destruct (cstr_cons _ _ _ _ Hc) as (_ & Hr & _). rewrite bool_decide_eq_true_2 by lia.
    rewrite (bind_Ok _ _ _ _ _ (set_args_run _ _)). eexists _, _. split; [reflexivity|]. split_and!; [done|done| |done].
    split; [done|]. split; [constructor|]. by split.
Qed.

(** The options of the shell: the loop of [main] over [argnext] sets the options
    that the flags of the command line stand for, in their order, or asks for the
    usage message when one is unknown; the array [argv] is left with the name of the
    program and exactly the arguments behind the flags. *)
Theorem options_correct fuel st empty argv args o :
  a_args st = argstart empty (1 + Z.of_nat (length args)) (Some argv) → args_in st args →
  0 < empty → a_mem st !! empty = Some 0 → (length (fst (flags args)) < fuel)%nat →
  ∃ r st', option_loop fuel o st = Ok (r, st') ∧ r = set_options (fst (flags args)) o ∧
    (is_Some r → a_mem st' = a_mem st ∧ args_in st' (snd (flags args))).
Proof.
  intros Hst Ha He Hz Hf. destruct args as [|x args].
  - destruct fuel as [|fuel]; [simpl in Hf; lia|].
    exists (Some o), (with_args (set_argval 0) st). split; [|by split_and!].
    cbn [option_loop]. unfold argnext. rewrite (bind_Ok _ _ _ (-1) (with_args (set_argval 0) st)); [done|].
    rewrite (bind_Ok _ _ _ _ _ (set_args_run _ _)). run_step. unfold with_args. simpl. by rewrite Hst.
  - apply (option_loop_ok fuel st [] (x :: args) o); [|done|done].
    assert (Ec : curarg (a_args st) = empty).
    { rewrite Hst. unfold argstart. cbn [curarg length]. by rewrite bool_decide_eq_true_2 by lia. }
    split; rewrite Ec; [done|]. split; [constructor|]. by split.
Qed.

(** *** An example: [sh -x -id cmds] *)

Definition opt_mem : bytes :=
  list_to_map (zip (seqZ 100 20) [115; 104; 0; 45; 120; 0; 45; 105; 100; 0; 99; 109; 100; 115; 0; 0]).
Definition opt_argv : list Z := [100; 103; 106; 110; 0].
Definition opt_args : list (list Z) := [[45; 120]; [45; 105; 100]; [99; 109; 100; 115]].
Definition opt_start : astate := mk_astate opt_mem (argstart 115 4 (Some opt_argv)).

Lemma opt_args_in : args_in opt_start opt_args.
Proof.
  exists 100, [103; 106; 110], []. split; [reflexivity|]. split; [reflexivity|].
  assert (H : ∀ p x, bool_decide (0 < p ∧ Forall (λ c, 0 < c < 2 ^ 8) x) = true →
    stored (a_mem opt_start) p (x ++ [0]) → 0 < p ∧ cstr (a_mem opt_start) p x).
  { intros p x [H1 H2]%bool_decide_eq_true H3. by split; [|split]. }
  repeat constructor; (apply H; [vm_compute; reflexivity|]); repeat (split; [vm_compute; reflexivity|]); exact I.
Qed.

Lemma options_correct_witness :
  ∃ st', option_loop 5 (mk_options 0 63 0) opt_start = Ok (Some (mk_options 1 1 1), st') ∧
    args_in st' [[99; 109; 100; 115]].
Proof.
  destruct (options_correct 5 opt_start 115 opt_argv opt_args (mk_options 0 63 0)) as (r & st' & R & Hr & Hrest).
  - reflexivity.
  - exact opt_args_in.
  - lia.
  - vm_compute. reflexivity.
  - simpl. lia.
  - assert (E : set_options (fst (flags opt_args)) (mk_options 0 63 0) = Some (mk_options 1 1 1)) by (vm_compute; reflexivity).
    rewrite E in Hr. subst r. exists st'. split; [exact R|]. apply Hrest. by eexists.
Defined.

(** ** The line editor *)

(** The characters that [getchar] returns. *)
Definition stream (l : list (Z * Z)) : list Z :=
  (λ rb, if bool_decide (rb.1 < 0) then rb.1 else u8 rb.2) <$> filter (λ rb, rb.1 ≠ 0) l.

Inductive got := Line (l : list Z) | Failed | More.

Definition is_erase (c : Z) : bool := bool_decide (c = 8) || bool_decide (c = 127).
Definition is_return (c : Z) : bool := bool_decide (c = 10) || bool_decide (c = 13).

(** The editor: [line] is what has been typed, the rest of the result the echo. *)
Fixpoint edit (echoing : bool) (cs line : list Z) : got * list echo :=
  match cs with
  | [] => (More, [])
  | c :: cs =>
      let shown e r : got * list echo := (fst r, (if echoing then [e] else []) ++ snd r) in
      if bool_decide (c < 0) then (Failed, if bool_decide (c ≠ - EEOF) then [Read_error c] else [])
      else if is_erase c && bool_decide (line ≠ []) then shown (Putchar 8) (edit echoing cs (removelast line))
      else if bool_decide (32 ≤ c) && bool_decide (Z.of_nat (length line) < BUFLEN - 1) then
        shown (Putchar c) (edit echoing cs (line ++ [c]))
      else if is_return c then shown Newline (Line line, [])
      else edit echoing cs line
  end.

Section readline.
Context (buf junk : Z) (echoing : bool) (Hjunk : 0 ≤ junk < 256).

Lemma low_byte_ok b : low_byte junk b = u8 b.
Proof.
  unfold low_byte. rewrite Z.mod_small by done. rewrite Z.sub_diag, Z.add_0_l.
  apply i32_small. pose proof (u8_range b). lia.
Qed.

Lemma getchar_ok l : match stream l with
  | [] => getchar_loop junk l = Stop OutOfFuel
  | c :: cs => ∃ l', getchar_loop junk l = Ok (c, l') ∧ stream l' = cs ∧ (length l' < length l)%nat
  end.
Proof.
  unfold stream. induction l as [|[r b] l IH]; [done|]. cbn [getchar_loop].
  destruct (decide (r = 0)) as [->|Hr].
  - rewrite filter_cons_False by auto. rewrite bool_decide_eq_true_2 by done.
    destruct (fmap _ _) as [|c cs]; [done|]. destruct IH as (l' & R & Hs & Hl). exists l'. split_and!; [done|done|simpl; lia].
  - rewrite filter_cons_True by done. rewrite (bool_decide_eq_false_2 (r = 0)) by done. simpl. exists l.
    rewrite low_byte_ok. split_and!; [done|done|lia].
Qed.

(** The first characters of the buffer. *)
Definition typed (st : rstate) (line : list Z) : Prop :=
  stored (r_mem st) buf line ∧ Forall (λ c, 0 < c < 2 ^ 8) line ∧ Z.of_nat (length line) ≤ BUFLEN - 1 ∧
  valid (r_mem st) buf BUFLEN.

Definition edited (st : rstate) (r : got * list echo) (o : outcome (Z * rstate)) : Prop :=
  match r with
  | (Line l, out) => ∃ st', o = Ok (buf, st') ∧ cstr (r_mem st') buf l ∧ output st' = output st ++ out ∧
      ∀ a, ¬ (buf ≤ a < buf + BUFLEN) → r_mem st' !! a = r_mem st !! a
  | (Failed, out) => ∃ st', o = Ok (0, st') ∧ output st' = output st ++ out
  | (More, _) => o = Stop OutOfFuel
  end.

Lemma edited_step st st1 e r o :
  (∀ a, ¬ (buf ≤ a < buf + BUFLEN) → r_mem st1 !! a = r_mem st !! a) → output st1 = output st ++ e →
  edited st1 r o → edited st (fst r, e ++ snd r) o.
Proof.
  intros Hm Ho. destruct r as [[l| |] out]; simpl; [| |done].
  - intros (st' & -> & Hc & Hout & Hm'). exists st'. split_and!; [done|done| |].
    + by rewrite Hout, Ho, app_assoc.
    + intros a Ha. by rewrite Hm', Hm.
  - intros (st' & -> & Hout). exists st'. split; [done|]. by rewrite Hout, Ho, app_assoc.
Qed.

Lemma echo_if_run e st :
  echo_if echoing e st = Ok (tt, mk_rstate (r_mem st) (reads st) (output st ++ if echoing then [e] else [])).
Proof. unfold echo_if. destruct echoing; [done|]. rewrite app_nil_r. by destruct st. Qed.

Lemma mem_op_store st a v :
  is_Some (r_mem st !! a) →
  mem_op (store8 a v) st = Ok (tt, mk_rstate (<[a := u8 v]> (r_mem st)) (reads st) (output st)).
Proof. intros Ha. destruct (store8_ok (r_mem st) a v Ha) as (m' & R & -> & _). unfold mem_op. by rewrite R. Qed.

Lemma typed_removelast st line : typed st line → typed st (removelast line).
Proof.
  intros (H1 & H2 & H3 & H4). destruct (decide (line = [])) as [->|Hne]; [done|].
  rewrite (app_removelast_last 0 Hne) in H1, H2, H3. rewrite length_app in H3. simpl in H3.
  apply stored_app in H1 as [H1 _]. apply Forall_app in H2 as [H2 _]. split_and!; [done|done|lia|done].
Qed.

Lemma stored_insert m a v l p :
  stored m p l → a < p ∨ p + Z.of_nat (length l) ≤ a → stored (<[a := v]> m) p l.
Proof. intros Hs Ha. eapply stored_ext; [|exact Hs]. intros x Hx. apply lookup_insert_ne. lia. Qed.

Lemma readline_loop_ok : ∀ n st line i,
  (length (reads st) < n)%nat → typed st line → i = Z.of_nat (length line) →
  edited st (edit echoing (stream (reads st)) line) (readline_loop buf junk echoing n i st).
Proof.
  induction n as [|n IH]; intros st line i Hn Hty ->; [lia|]. cbn [readline_loop].
  pose proof (getchar_ok (reads st)) as Hg. destruct (stream (reads st)) as [|c cs] eqn:Es.
  { unfold getchar. cbn [edit edited]. unfold mbind, M_bind. by rewrite Hg. }
  destruct Hg as (l' & R & Es' & Hl). set (st1 := mk_rstate (r_mem st) l' (output st)).
  assert (Rg : getchar junk st = Ok (c, st1)) by (unfold getchar; by rewrite R). rewrite (bind_Ok _ _ _ _ _ Rg).
  assert (Hty1 : typed st1 line) by done. pose proof Hty1 as (H1 & H2 & H3 & H4).
  cbn [edit]. cbv zeta. destruct (bool_decide (c < 0)) eqn:Eneg.
  { destruct (bool_decide (c ≠ - EEOF)); eexists; (split; [reflexivity|]); [done|by rewrite app_nil_r]. }
  apply bool_decide_eq_false in Eneg. fold (is_erase c).
  assert (Eb : bool_decide (0 < Z.of_nat (length line)) = bool_decide (line ≠ [])).
  { apply bool_decide_ext. destruct line; simpl; [split; [lia|done]|split; [done|lia]]. }
  assert (Hc8 : 0 ≤ c < 2 ^ 8).
  { split; [lia|]. unfold stream in Es. pose proof (list_elem_of_here c cs) as Hin. rewrite <- Es in Hin.
    apply list_elem_of_fmap in Hin as ([r b] & Ec & _). simpl in Ec. clear -Ec Eneg. case_bool_decide; subst c; [lia|].
    apply u8_range. }
  rewrite Eb. destruct (is_erase c && bool_decide (line ≠ [])) eqn:Eer.
  { apply andb_true_iff in Eer as [_ Hne%bool_decide_eq_true]. rewrite (bind_Ok _ _ _ _ _ (echo_if_run _ _)).
    apply (edited_step st (mk_rstate (r_mem st) l' (output st ++ if echoing then [Putchar 8] else []))); [done|done|].
    rewrite <- Es'. apply (IH (mk_rstate (r_mem st) l' (output st ++ if echoing then [Putchar 8] else [])) (removelast line)); [simpl; lia|by apply typed_removelast|].
    rewrite (app_removelast_last 0 Hne) at 1. rewrite length_app. simpl. lia. }
  destruct (bool_decide (32 ≤ c) && bool_decide (Z.of_nat (length line) < BUFLEN - 1)) eqn:Ech.
  { apply andb_true_iff in Ech as [H32%bool_decide_eq_true Hlen%bool_decide_eq_true].
    rewrite (bind_Ok _ _ _ _ _ (echo_if_run _ _)).
    rewrite (bind_Ok _ _ _ _ _ (mem_op_store (mk_rstate (r_mem st1) (reads st1)
      (output st1 ++ if echoing then [Putchar (u8 c)] else [])) (buf + Z.of_nat (length line)) c ltac:(apply H4; lia))).
    cbn [r_mem reads output st1].
    rewrite u8_small by done.
    apply (edited_step st (mk_rstate (<[buf + Z.of_nat (length line) := c]> (r_mem st)) l'
      (output st ++ if echoing then [Putchar c] else []))); [|done|].
    { intros a Ha. simpl. apply lookup_insert_ne. lia. }
    rewrite <- Es'. apply (IH (mk_rstate (<[buf + Z.of_nat (length line) := c]> (r_mem st)) l'
      (output st ++ if echoing then [Putchar c] else [])) (line ++ [c])); [simpl; lia| |rewrite length_app; simpl; lia].
    split_and!; simpl.
    - apply stored_app. split; [apply stored_insert; [done|lia]|]. simpl. by rewrite lookup_insert_eq.
    - apply Forall_app. split; [done|]. constructor; [lia|done].
    - rewrite length_app. simpl. lia.
    - intros a Ha. destruct (decide (a = buf + Z.of_nat (length line))) as [->|]; [rewrite lookup_insert_eq; by eexists|].
      rewrite lookup_insert_ne by done. by apply H4. }
  fold (is_return c). destruct (is_return c).
  { rewrite (bind_Ok _ _ _ _ _ (echo_if_run _ _)).
    rewrite (bind_Ok _ _ _ _ _ (mem_op_store (mk_rstate (r_mem st1) (reads st1)
      (output st1 ++ if echoing then [Newline] else [])) (buf + Z.of_nat (length line)) 0 ltac:(apply H4; lia))).
    eexists. split; [reflexivity|]. cbn [r_mem reads output st1 fst snd]. rewrite app_nil_r. split_and!; [|done|].
    - split; [done|]. apply stored_app. split; [apply stored_insert; [done|lia]|]. simpl. by rewrite lookup_insert_eq.
    - intros a Ha. apply lookup_insert_ne. lia. }
  rewrite <- Es'. assert (edited st1 (edit echoing (stream l') line) (readline_loop buf junk echoing n (Z.of_nat (length line)) st1)) as H
    by (apply (IH st1 line); [simpl; lia|done|done]). exact H.
Qed.

Lemma readline_ok n (prompt : bool) st :
  (length (reads st) < n)%nat → valid (r_mem st) buf BUFLEN →
  let '(r, out) := edit echoing (stream (reads st)) [] in
  edited st (r, (if prompt then [Prompt] else []) ++ out) (readline buf junk echoing n prompt st).
Proof.
  intros Hn Hv. unfold readline. set (st1 := mk_rstate (r_mem st) (reads st) (output st ++ if prompt then [Prompt] else [])).
  assert (R : (if prompt return M rstate unit then show Prompt else mret tt) st = Ok (tt, st1)).
  { unfold st1. destruct prompt; [done|]. rewrite app_nil_r. by destruct st. }
  rewrite (bind_Ok _ _ _ _ _ R). assert (Hty : typed st1 []) by (by split_and!).
  pose proof (readline_loop_ok n st1 [] 0 Hn Hty eq_refl) as H. change (reads st1) with (reads st) in H.
  destruct (edit echoing (stream (reads st)) []) as [r out].
  by apply (edited_step st st1 (if prompt then [Prompt] else []) (r, out)).
Qed.
End readline.

(** What the editor accepts fits into the buffer. *)
Lemma edit_length echoing cs : ∀ line l out,
  Z.of_nat (length line) ≤ BUFLEN - 1 → edit echoing cs line = (Line l, out) → Z.of_nat (length l) ≤ BUFLEN - 1.
Proof.
  induction cs as [|c cs IH]; intros line l out Hl; cbn [edit]; [done|]. cbv zeta.
  destruct (bool_decide (c < 0)); [done|]. destruct (_ && _) eqn:E1.
  { destruct (edit echoing cs (removelast line)) as [r o] eqn:E. intros [= -> _]. eapply IH; [|exact E].
    apply andb_true_iff in E1 as [_ Hne%bool_decide_eq_true].
    rewrite (app_removelast_last 0 Hne), length_app in Hl. simpl in Hl. lia. }
  destruct (bool_decide (32 ≤ c) && _) eqn:E2.
  { destruct (edit echoing cs (line ++ [c])) as [r o] eqn:E. intros [= -> _]. eapply IH; [|exact E].
    apply andb_true_iff in E2 as [_ Hlt%bool_decide_eq_true]. rewrite length_app. simpl. lia. }
  destruct (is_return c); [by intros [= <- <-]|]. by apply IH.
Qed.

(** [readline] is the line editor: when the uninitialised bytes of its character
    are zero, it returns the line that the editor makes of the characters typed
    (erasing with backspace and delete, at most 1023 characters, ended by a return),
    terminated in its buffer, with the echo of the editor; it fails exactly when the
    editor meets a read error, and writes nothing outside the buffer. *)
Theorem readline_edits buf junk echoing n (prompt : bool) st :
  0 ≤ junk < 256 → (length (reads st) < n)%nat → valid (r_mem st) buf BUFLEN →
  let '(r, out) := edit echoing (stream (reads st)) [] in
  let out' := output st ++ (if prompt then [Prompt] else []) ++ out in
  match r with
  | Line l => ∃ st', readline buf junk echoing n prompt st = Ok (buf, st') ∧ cstr (r_mem st') buf l ∧
      Z.of_nat (length l) < BUFLEN ∧ output st' = out' ∧
      ∀ a, ¬ (buf ≤ a < buf + BUFLEN) → r_mem st' !! a = r_mem st !! a
  | Failed => ∃ st', readline buf junk echoing n prompt st = Ok (0, st') ∧ output st' = out'
  | More => readline buf junk echoing n prompt st = Stop OutOfFuel
  end.
Proof.
  intros Hj Hn Hv. pose proof (readline_ok buf junk echoing Hj n prompt st Hn Hv) as H.
  destruct (edit echoing (stream (reads st)) []) as [[l| |] out] eqn:E; cbv zeta; [|exact H|exact H].
  destruct H as (st' & R & Hc & Ho & Hm). apply edit_length in E; [|simpl; unfold BUFLEN; lia].
  exists st'. split_and!; [done|done|lia|done|done].
Qed.

Definition typed_reads : list (Z * Z) := (λ b, (1, b)) <$> [108; 120; 8; 115; 10].
Definition typing : rstate := mk_rstate (list_to_map ((λ a, (a, 0)) <$> seqZ 100 1024)) ((0, 0) :: typed_reads) [].

Lemma typing_valid : valid (r_mem typing) 100 BUFLEN.
Proof.
  assert (H : ∀ i, i ∈ seqZ 100 1024 → is_Some (r_mem typing !! i)).
  { apply Forall_forall, (bool_decide_unpack _). vm_compute. exact I. }
  intros i Hi. apply H, elem_of_seqZ. unfold BUFLEN in Hi. lia.
Qed.

Lemma typing_edit : edit true (stream (reads typing)) [] =
  (Line [108; 115], [Putchar 108; Putchar 120; Putchar 8; Putchar 115; Newline]).
Proof. vm_compute. reflexivity. Qed.

Lemma readline_edits_witness :
  ∃ st', readline 100 0 true 10 false typing = Ok (100, st') ∧ cstr (r_mem st') 100 [108; 115].
Proof.
  pose proof (readline_edits 100 0 true 10 false typing) as H. rewrite typing_edit in H. cbv zeta in H.
  destruct H as (st' & R & Hc & _).
  - lia.
  - simpl. lia.
  - exact typing_valid.
  - exists st'. split; [exact R|exact Hc].
Defined.

(** [getchar] reads one byte into an [int] that is not initialised: when the other
    bytes are not zero, no character ends the line. *)
Theorem junk_never_ends buf junk echoing n st :
  256 ≤ junk < 2 ^ 31 → valid (r_mem st) buf BUFLEN → Forall (λ rb, rb.1 = 1) (reads st) →
  (length (reads st) < n)%nat → Z.of_nat (length (reads st)) < BUFLEN →
  readline buf junk echoing n false st = Stop OutOfFuel.
Proof.
  intros Hj Hv Hr Hn Hl. unfold readline. change ((mret tt : M rstate unit) st) with (Ok (tt, st)).
  rewrite (bind_Ok (mret tt) _ st tt st eq_refl).
  assert (Hlow : ∀ b, 256 ≤ low_byte junk b).
  { intros b. unfold low_byte. pose proof (u8_range b). pose proof (Z.div_mod junk 256 ltac:(lia)).
    pose proof (Z.mod_pos_bound junk 256 ltac:(lia)). assert (1 ≤ junk / 256) by (apply Z.div_le_lower_bound; lia).
    assert (junk / 256 < 2 ^ 23) by (apply Z.div_lt_upper_bound; lia). rewrite i32_small by lia. lia. }
  assert (H : ∀ m st0 i, (length (reads st0) < m)%nat → valid (r_mem st0) buf BUFLEN → Forall (λ rb, rb.1 = 1) (reads st0) →
    0 ≤ i → i + Z.of_nat (length (reads st0)) < BUFLEN → readline_loop buf junk echoing m i st0 = Stop OutOfFuel).
  { induction m as [|m IH]; intros st0 i Hm Hv0 Hr0 Hi Hb; [done|]. cbn [readline_loop].
    destruct st0 as [mem0 [|[r b] rs] out0]; [done|]. apply Forall_cons in Hr0 as [Hr1 Hr0]. simpl in Hr1, Hm, Hb. subst r.
    rewrite (bind_Ok _ _ _ (low_byte junk b) (mk_rstate mem0 rs out0)) by done. pose proof (Hlow b) as Hc.
    rewrite !bool_decide_eq_false_2 by lia. cbn [orb andb].
    rewrite !bool_decide_eq_true_2 by lia. cbn [andb]. rewrite (bind_Ok _ _ _ _ _ (echo_if_run echoing _ _)).
    rewrite (bind_Ok _ _ _ _ _ (mem_op_store (mk_rstate mem0 rs _) (buf + i) _ ltac:(apply Hv0; simpl; lia))).
    apply IH; [simpl; lia| |done|lia|simpl; lia]. intros a Ha. simpl.
    destruct (decide (a = buf + i)) as [->|]; [rewrite lookup_insert_eq; by eexists|]. rewrite lookup_insert_ne by done.
    by apply Hv0. }
  apply H; [done|done|done|lia|lia].
Qed.
