(* ===== verification/FsInit.v ===== *)
(** * The file systems at boot: fs/file_system.c, fs/super.c, fs/rootfs, fs/ramfs,
    fs/ttyfs and fs/pipefs

    [filesystem_init] registers the file systems of the table in order; each makes its
    superblock and its entries.  The state adds to that of Vfs the list of the
    registered file systems, the latest first, the superblocks with the lists they are
    on, the files of the ram file system and the global variables.  The images of the
    programs, which the linker places, are given by [binary], from a name to the
    addresses of its [_start] and [_end].  What only prints is left out, and so are the
    locks and the lists of a mount, which nothing reads. *)

From S2P Require Import Prelude Layout Vfs.

Local Open Scope Z_scope.

Definition EBUSY : Z := 16.
Definition S_IFCHR : Z := 0x2000.
Definition ramfs_file_fop : Z := 3.
Definition ttyfs_file_fop : Z := 4.
Definition ROOTFS_MAGIC : Z := 2.
Definition TTYFS_MAGIC : Z := 3.
Definition PIPEFS_MAGIC : Z := 4.

(** The four [file_system_type]s, by the addresses of the variables. *)
Inductive file_system_type := root_fs | ramfs_fs | tty_fs | pipe_fs.

#[global] Instance file_system_type_eq_dec : EqDecision file_system_type.
Proof. solve_decision. Defined.

Inductive super_operations := no_super_op | root_super_op | ttyfs_super_op | pipefs_super_op.

Record super_block := Super { s_magic : Z; s_blocksize : Z; s_op : super_operations }.

(** A struct [ram_file]. *)
Record ram_file := Ram { ram_start : Z; ram_size : Z }.

Record fsys := mk_fsys {
  files_of : vfs;
  file_system : list file_system_type;
  fs_supers : file_system_type → list Z;
  super_info : gmap Z super_block;
  ram_files : gmap Z ram_file;
  root_vfsmnt : Z;
  root_dentry : Z;
  pipe_mnt : Z }.

Definition set_vfs (v : vfs) (s : fsys) : fsys :=
  mk_fsys v (file_system s) (fs_supers s) (super_info s) (ram_files s) (root_vfsmnt s) (root_dentry s) (pipe_mnt s).
Definition set_registered (l : list file_system_type) (s : fsys) : fsys :=
  mk_fsys (files_of s) l (fs_supers s) (super_info s) (ram_files s) (root_vfsmnt s) (root_dentry s) (pipe_mnt s).
Definition set_fs_supers (t : file_system_type) (l : list Z) (s : fsys) : fsys :=
  mk_fsys (files_of s) (file_system s) (λ u, if bool_decide (u = t) then l else fs_supers s u) (super_info s)
    (ram_files s) (root_vfsmnt s) (root_dentry s) (pipe_mnt s).
Definition set_super (sb : Z) (k : super_block) (s : fsys) : fsys :=
  mk_fsys (files_of s) (file_system s) (fs_supers s) (<[sb := k]> (super_info s)) (ram_files s) (root_vfsmnt s)
    (root_dentry s) (pipe_mnt s).
Definition set_ram (a : Z) (f : ram_file) (s : fsys) : fsys :=
  mk_fsys (files_of s) (file_system s) (fs_supers s) (super_info s) (<[a := f]> (ram_files s)) (root_vfsmnt s)
    (root_dentry s) (pipe_mnt s).
Definition set_root_vfsmnt (v : Z) (s : fsys) : fsys :=
  mk_fsys (files_of s) (file_system s) (fs_supers s) (super_info s) (ram_files s) v (root_dentry s) (pipe_mnt s).
Definition set_root_dentry (v : Z) (s : fsys) : fsys :=
  mk_fsys (files_of s) (file_system s) (fs_supers s) (super_info s) (ram_files s) (root_vfsmnt s) v (pipe_mnt s).
Definition set_pipe_mnt (v : Z) (s : fsys) : fsys :=
  mk_fsys (files_of s) (file_system s) (fs_supers s) (super_info s) (ram_files s) (root_vfsmnt s) (root_dentry s) v.

Definition on_vfs {A} (m : M vfs A) : M fsys A := λ s,
  match m (files_of s) with Ok (a, v) => Ok (a, set_vfs v s) | Stop w => Stop w end.

Definition set_supers (m : gmap Z Z) (s : vfs) : vfs :=
  Vfs (dentries s) (dentry_hashtable s) (inodes s) m (mounts s) (vfsmnt_hashtable s) (last_ino s)
    (fs_root s) (fs_mnt_root s) (fs_pwd s) (fs_mnt_pwd s) (avail s).
Definition set_mounts (m : gmap Z vfsmount) (s : vfs) : vfs :=
  Vfs (dentries s) (dentry_hashtable s) (inodes s) (supers s) m (vfsmnt_hashtable s) (last_ino s)
    (fs_root s) (fs_mnt_root s) (fs_pwd s) (fs_mnt_pwd s) (avail s).

(** A [qstr] made from a string constant: the rest of the array is 0. *)
Definition qstr_of (c : list Z) : qstr := Qstr (c ++ replicate (36 - length c) 0) (Z.of_nat (length c)).

(** The strings of the source. *)
Definition str_slash : list Z := [47].
Definition str_dev : list Z := [100; 101; 118].
Definition str_tty : list Z := [116; 116; 121].
Definition str_pipefs : list Z := [112; 105; 112; 101; 102; 115].
Definition str_rootfs : list Z := [114; 111; 111; 116; 102; 115].
Definition str_ramfs : list Z := [114; 97; 109; 102; 115].
Definition str_ttyfs : list Z := [116; 116; 121; 102; 115].

(** The names given to [CREATE]: hello, forktree, sh, echo, num, cat, shell_sh,
    lorem_sh and script_sh. *)
Definition str_sh : list Z := [115; 104].
Definition boot_names : list (list Z) :=
  [[104; 101; 108; 108; 111];
   [102; 111; 114; 107; 116; 114; 101; 101];
   str_sh;
   [101; 99; 104; 111];
   [110; 117; 109];
   [99; 97; 116];
   [115; 104; 101; 108; 108; 95; 115; 104];
   [108; 111; 114; 101; 109; 95; 115; 104];
   [115; 99; 114; 105; 112; 116; 95; 115; 104]].

(** ** fs/super.c and [find_super_block] of fs/file_system.c *)

Fixpoint sb_find (v : vfs) (dev : Z) (l : list Z) : outcome Z :=
  match l with
  | [] => Ok 0
  | sb :: l => d ← opt (supers v !! sb); if bool_decide (d = dev) then Ok sb else sb_find v dev l
  end.

Definition find_super_block (fs : file_system_type) (dev : Z) : M fsys Z :=
  s ← get; lift (sb_find (files_of s) dev (fs_supers s fs)).

Definition alloc_sb : M fsys Z :=
  sb ← on_vfs kmalloc;
  (if bool_decide (sb = 0) then mret tt
   else
     on_vfs (modify (λ v, set_supers (<[sb := 0]> (supers v)) v)) ;;
     modify (set_super sb (Super 0 0 no_super_op))) ;;
  mret sb.

Definition new_sb (fs : file_system_type) (dev : Z) : M fsys Z :=
  sb ← find_super_block fs dev;
  if bool_decide (sb ≠ 0) then mret sb else alloc_sb.

(** The three [get_super]s: they write to the new superblock without a test. *)
Definition get_super (op : super_operations) (magic : Z) (fs : file_system_type) (dev : Z) : M fsys Z :=
  s ← find_super_block fs dev;
  if bool_decide (s ≠ 0) then mret s
  else
    s ← new_sb fs dev;
    x ← get;
    of_option (super_info x !! s) ;;
    modify (set_super s (Super magic PAGE_SIZE op)) ;;
    mret s.

Definition rootfs_get_super : file_system_type → Z → M fsys Z := get_super root_super_op ROOTFS_MAGIC.
Definition ttyfs_get_super : file_system_type → Z → M fsys Z := get_super ttyfs_super_op TTYFS_MAGIC.
Definition pipefs_get_super : file_system_type → Z → M fsys Z := get_super pipefs_super_op PIPEFS_MAGIC.

(** ** [create_node] of fs/libfs.c, [d_alloc_root] of fs/dcache.c, [alloc_vfsmnt] of
    fs/vfsmount.c *)

Definition with_iops (op : inode_operations) (k : inode) : inode :=
  Inode (i_num k) (i_dev k) (i_mode k) (i_nlink k) (i_count k) op (i_fop k) (i_sb k) (i_inode k).
Definition with_fop (fop : Z) (k : inode) : inode :=
  Inode (i_num k) (i_dev k) (i_mode k) (i_nlink k) (i_count k) (i_op k) fop (i_sb k) (i_inode k).
Definition with_private (a : Z) (k : inode) : inode :=
  Inode (i_num k) (i_dev k) (i_mode k) (i_nlink k) (i_count k) (i_op k) (i_fop k) (i_sb k) a.

(** A NULL operation is [None]. *)
Definition create_node (parent : Z) (q : qstr) (mode : Z) (fop : option Z) (iop : option inode_operations) : M vfs Z :=
  if bool_decide (parent = 0) then mret 0
  else
    p ← load_dentry parent;
    inode ← simple_get_inode (d_sb p) mode;
    assert (bool_decide (inode ≠ 0)) ;;
    match iop with Some op => edit_inode inode (with_iops op) | None => mret tt end ;;
    match fop with Some f => edit_inode inode (with_fop f) | None => mret tt end ;;
    d ← d_alloc parent q;
    assert (bool_decide (d ≠ 0)) ;;
    edit_dentry d (with_dinode inode) ;;
    dentry_insert parent d ;;
    mret inode.

Definition d_alloc_root (root_inode : Z) : M fsys Z :=
  if bool_decide (root_inode = 0) then mret 0
  else
    res ← on_vfs (d_alloc 0 (qstr_of str_slash));
    (if bool_decide (res = 0) then mret tt
     else
       s ← get;
       i ← of_option (inodes (files_of s) !! root_inode);
       on_vfs (edit_dentry res (λ k, Dentry res root_inode (i_sb i) (d_name k) (d_count k) (d_mounted k))) ;;
       modify (set_root_dentry res)) ;;
    mret res.

Definition alloc_vfsmnt : M vfs Z :=
  mnt ← kmalloc;
  assert (bool_decide (mnt ≠ 0)) ;;
  modify (λ v, set_mounts (<[mnt := Vfsmount 0 0 0 0]> (mounts v)) v) ;;
  mret mnt.

Definition edit_mount (mnt : Z) (g : vfsmount → vfsmount) : M vfs unit :=
  v ← get;
  m ← of_option (mounts v !! mnt);
  put (set_mounts (<[mnt := g m]> (mounts v)) v).

(** ** The file systems *)

(** The [printk] reads [i_mode] before the test of the inode. *)
Definition root_read_super (sb mnt : Z) : M fsys Z :=
  inode ← on_vfs (simple_get_inode sb S_IFDIR);
  s ← get;
  of_option (inodes (files_of s) !! inode) ;;
  assert (bool_decide (inode ≠ 0)) ;;
  root ← d_alloc_root inode;
  assert (bool_decide (root ≠ 0)) ;;
  on_vfs (edit_mount mnt (λ _, Vfsmount mnt root root sb)) ;;
  mret 0.

Definition pipefs_read_super (sb mnt : Z) : M fsys Z :=
  inode ← on_vfs (simple_get_inode sb S_IFDIR);
  assert (bool_decide (inode ≠ 0)) ;;
  s ← get;
  m ← of_option (mounts (files_of s) !! root_vfsmnt s);
  root ← on_vfs (d_alloc (mnt_mountpoint m) (qstr_of str_pipefs));
  assert (bool_decide (root ≠ 0)) ;;
  on_vfs (edit_mount mnt (λ _, Vfsmount (root_vfsmnt s) root (mnt_mountpoint m) sb)) ;;
  mret 0.

(** [sb->s_op->read_super]: a NULL operation is a jump to address 0. *)
Definition read_super (sb mnt : Z) : M fsys Z :=
  s ← get;
  k ← of_option (super_info s !! sb);
  match s_op k with
  | root_super_op => root_read_super sb mnt
  | ttyfs_super_op => mret 0
  | pipefs_super_op => pipefs_read_super sb mnt
  | no_super_op => fault
  end.

Definition add_super (fs : file_system_type) (sb : Z) : M fsys unit :=
  modify (λ s, set_fs_supers fs (sb :: fs_supers s fs) s).

Definition rootfs_init : M fsys Z :=
  mnt ← on_vfs alloc_vfsmnt;
  assert (bool_decide (mnt ≠ 0)) ;;
  modify (set_root_vfsmnt mnt) ;;
  sb ← rootfs_get_super root_fs 0;
  assert (bool_decide (sb ≠ 0)) ;;
  add_super root_fs sb ;;
  res ← read_super sb mnt;
  assert (bool_decide (res = 0)) ;;
  s ← get;
  on_vfs (create_node (root_dentry s) (qstr_of str_dev) S_IFDIR None None) ;;
  mret 0.

Definition _create_file (inode start end_ : Z) : M fsys unit :=
  ram ← on_vfs kmalloc;
  assert (bool_decide (ram ≠ 0)) ;;
  on_vfs (edit_inode inode (with_private ram)) ;;
  modify (set_ram ram (Ram start (i32 (end_ - start)))).

Section init.
Context (binary : list Z → Z * Z).

Definition CREATE (name : list Z) (parent : Z) : M fsys unit :=
  inode ← on_vfs (create_node parent (qstr_of name) S_IFREG (Some ramfs_file_fop) (Some ramfs_dir_iops));
  _create_file inode (binary name).1 (binary name).2.

Fixpoint create_files (names : list (list Z)) (parent : Z) : M fsys unit :=
  match names with [] => mret tt | n :: names => CREATE n parent ;; create_files names parent end.

Definition create_file (parent : Z) : M fsys unit := create_files boot_names parent.

Definition ramfs_init : M fsys Z := s ← get; create_file (root_dentry s) ;; mret 0.

Definition ttyfs_find_dev (root : Z) : M fsys Z := s ← get; lift (dentry_lookup (files_of s) root (qstr_of str_dev)).

Definition ttyfs_init : M fsys Z :=
  sb ← ttyfs_get_super tty_fs 0;
  assert (bool_decide (sb ≠ 0)) ;;
  add_super tty_fs sb ;;
  s ← get;
  parent ← ttyfs_find_dev (root_dentry s);
  assert (bool_decide (parent ≠ 0)) ;;
  on_vfs (create_node parent (qstr_of str_tty) S_IFCHR (Some ttyfs_file_fop) (Some ttyfs_iops)) ;;
  mret 0.

Definition pipefs_init : M fsys Z :=
  mnt ← on_vfs alloc_vfsmnt;
  assert (bool_decide (mnt ≠ 0)) ;;
  modify (set_pipe_mnt mnt) ;;
  sb ← pipefs_get_super pipe_fs 0;
  add_super pipe_fs sb ;;
  read_super sb mnt ;;
  mret 0.

(** ** The [fs_struct] of a new task *)

(** [alloc_files_struct] and [task_alloc]: the directories a task starts with. *)
Definition task_fs (s : fsys) : vfs :=
  let v := files_of s in
  Vfs (dentries v) (dentry_hashtable v) (inodes v) (supers v) (mounts v) (vfsmnt_hashtable v) (last_ino v)
    (root_dentry s) (root_vfsmnt s) (root_dentry s) (root_vfsmnt s) (avail v).

(** ** fs/file_system.c *)

Definition fs_name (fs : file_system_type) : list Z :=
  match fs with root_fs => str_rootfs | ramfs_fs => str_ramfs | tty_fs => str_ttyfs | pipe_fs => str_pipefs end.

Definition fs_init (fs : file_system_type) : M fsys Z :=
  match fs with root_fs => rootfs_init | ramfs_fs => ramfs_init | tty_fs => ttyfs_init | pipe_fs => pipefs_init end.

Definition find_filesystem (s : fsys) (name : list Z) : option file_system_type :=
  head (filter (λ fs, fs_name fs = name) (file_system s)).

(** [list_empty(&fs->next)]: the file system is not on the list. *)
Definition register_filesystem (fs : file_system_type) : M fsys Z :=
  s ← get;
  if bool_decide (fs ∈ file_system s) then mret (- EBUSY)
  else
    match find_filesystem s (fs_name fs) with
    | Some _ => mret (- EBUSY)
    | None =>
        modify (set_fs_supers fs []) ;;
        modify (λ s, set_registered (fs :: file_system s) s) ;;
        fs_init fs
    end.

Definition filesystem : list file_system_type := [root_fs; ramfs_fs; tty_fs; pipe_fs].

Fixpoint register_all (l : list file_system_type) : M fsys unit :=
  match l with [] => mret tt | fs :: l => register_filesystem fs ;; register_all l end.

Definition filesystem_init : M fsys unit := register_all filesystem.
End init.
