(* ===== verification/FsInitProofs.v ===== *)
(** * Correctness of the file systems at boot

    Whatever addresses the allocator gives out, after [filesystem_init] every program of
    the image is found under its name in the root directory, with the bytes the linker
    placed, and the terminal is found as /dev/tty. *)

From S2P Require Import Prelude Layout Vfs VfsProofs FsInit.

Local Open Scope Z_scope.

(** ** Buckets *)

Lemma bucket_of p q : bucket p q = 32 * (Z.lxor p (_hash (take (Z.to_nat (len q)) (name q))) mod 32).
Proof.
  unfold bucket, hash, u32, MAX_DENTRY_HASH. set (x := Z.lxor _ _).
  rewrite Z.shiftl_mul_pow2 by lia. rewrite <- Znumtheory.Zmod_div_mod by (lia || by exists (2 ^ 22)).
  replace (x * 2 ^ 5) with (32 * x) by lia. change 1024 with (32 * 32). apply Z.mul_mod_distr_l; lia.
Qed.

Lemma lxor_mod_32 a b : Z.lxor a b mod 32 = Z.lxor (a mod 32) (b mod 32).
Proof.
  change 32 with (2 ^ 5). rewrite <- !Z.land_ones by lia. apply Z.bits_inj'. intros n Hn.
  rewrite !Z.lxor_spec, !Z.land_spec, Z.lxor_spec. by destruct (Z.testbit (Z.ones 5) n), (Z.testbit a n), (Z.testbit b n).
Qed.

(** In one directory the bucket depends on the sum of the characters. *)
Lemma buckets_differ p c c' :
  _hash c mod 32 ≠ _hash c' mod 32 → bucket p (canon c) ≠ bucket p (qstr_of c').
Proof.
  intros Hne E. rewrite !bucket_of in E. apply Hne. cbn [canon qstr_of len name] in E.
  rewrite !Nat2Z.id, !take_app_length in E. apply (Z.mul_reg_l _ _ 32) in E; [|lia].
  rewrite !lxor_mod_32 in E. apply (f_equal (Z.lxor (p mod 32))) in E.
  by rewrite <- !Z.lxor_assoc, !Z.lxor_nilpotent, !Z.lxor_0_l in E.
Qed.

Lemma qstr_of_holds c : (length c < 36)%nat → holds (qstr_of c) c.
Proof.
  intros Hc. split; [|split; [done|]].
  - cbn [qstr_of name]. rewrite length_app, length_replicate. lia.
  - exists (replicate (35 - length c) 0). cbn [qstr_of name]. by replace (36 - length c)%nat with (S (35 - length c)) by lia.
Qed.

(** ** Entries *)

(** An entry of a directory: its dentry, its inode and its contents. *)
Record ent := mk_ent {
  e_parent : Z; e_name : list Z; e_dentry : Z; e_inode : Z; e_ino : inode; e_ram : option ram_file }.

Record node (s : fsys) (e : ent) : Prop := {
  nd_lookup : dentry_lookup (files_of s) (e_parent e) (canon (e_name e)) = Ok (e_dentry e);
  nd_named : name_ok (e_name e);
  nd_nonzero : e_dentry e ≠ 0;
  nd_is : ∃ k, dentries (files_of s) !! e_dentry e = Some k ∧ d_parent k = e_parent e ∧ d_inode k = e_inode e ∧
    is_Some (supers (files_of s) !! d_sb k);
  nd_inode : inodes (files_of s) !! e_inode e = Some (e_ino e);
  nd_ram : ∀ f, e_ram e = Some f → ram_files s !! i_inode (e_ino e) = Some f }.

(** The allocator will give out new addresses. *)
Definition pool (s : fsys) : Prop :=
  NoDup (avail (files_of s)) ∧
  ∀ a, a ∈ avail (files_of s) → a ≠ 0 ∧ dentries (files_of s) !! a = None ∧ inodes (files_of s) !! a = None ∧
    ram_files s !! a = None ∧ super_info s !! a = None ∧ supers (files_of s) !! a = None ∧ mounts (files_of s) !! a = None.

(** The name of [e] is not shadowed by a new entry [c] of [p]. *)
Definition apart (e : ent) (p : Z) (c : list Z) : Prop :=
  ¬ e_name e `prefix_of` c ∨ bucket (e_parent e) (canon (e_name e)) ≠ bucket p (qstr_of c).

Lemma lookup_other_bucket s s2 d parent kd c' x :
  keeps d s s2 → dentries s !! d = None → dentries s2 !! d = Some kd →
  (∀ p, bucket p (canon c') ≠ bucket parent (d_name kd) → dentry_lookup s p (canon c') = Ok x →
     dentry_lookup (inserted s2 d parent kd) p (canon c') = Ok x).
Proof.
  intros Hkeep Hnew Hkd p Hb Hlk. unfold dentry_lookup in *. cbn [inserted set_dhash dentry_hashtable].
  rewrite (k_table _ _ _ Hkeep), lookup_insert_ne by congruence.
  by apply (chain_find_old s s2 d parent kd Hkeep Hnew).
Qed.

(** Nothing but what one directory entry adds. *)
Record same_globals (s s' : fsys) : Prop := {
  sg_registered : file_system s' = file_system s;
  sg_supers : fs_supers s' = fs_supers s ∧ super_info s' = super_info s;
  sg_root : root_vfsmnt s' = root_vfsmnt s ∧ root_dentry s' = root_dentry s ∧ pipe_mnt s' = pipe_mnt s;
  sg_mounts : mounts (files_of s') = mounts (files_of s) ∧ vfsmnt_hashtable (files_of s') = vfsmnt_hashtable (files_of s) ∧
    supers (files_of s') = supers (files_of s);
  sg_dentries : ∀ x k, dentries (files_of s) !! x = Some k → ∃ n, dentries (files_of s') !! x = Some (with_dcount n k) }.

Definition opt_apply {A} (f : A → inode → inode) (o : option A) (k : inode) : inode :=
  match o with Some a => f a k | None => k end.

Definition node_inode (sb dev mode n : Z) (fop : option Z) (iop : option inode_operations) : inode :=
  opt_apply with_fop fop (opt_apply with_iops iop (made_inode simple_dir_iops sb dev mode n)).

Lemma edit_opt {A} (f : A → inode → inode) (o : option A) i k v :
  inodes v !! i = Some k →
  match o with Some a => edit_inode i (f a) | None => mret tt end v =
    Ok (tt, set_inodes (<[i := opt_apply f o k]> (inodes v)) (last_ino v) v).
Proof.
  intros Hk. destruct o as [a|]; [by apply edit_inode_run|]. cbn [opt_apply]. rewrite insert_id by done. by destruct v.
Qed.

Lemma create_node_run v parent kp q mode fop iop dev i d l :
  parent ≠ 0 → dentries v !! parent = Some kp → supers v !! d_sb kp = Some dev → avail v = i :: d :: l →
  i ≠ 0 → d ≠ 0 → dentries v !! d = None →
  ∃ s2 kd, create_node parent q mode fop iop v = Ok (i, inserted s2 d parent kd) ∧ keeps d v s2 ∧
    kd = Dentry parent i (d_sb kp) q 1 0 ∧ dentries s2 !! d = Some kd ∧
    inodes s2 = <[i := node_inode (d_sb kp) dev mode (u32 (last_ino v + 1)) fop iop]> (inodes v) ∧
    supers s2 = supers v ∧ avail s2 = l ∧ (∀ x, x ≠ d → dentries v !! x = None → dentries s2 !! x = None).
Proof.
  intros Hp Hkp Hsb Hav Hi Hd Hnew. assert (Hdp : d ≠ parent) by congruence.
  unfold create_node. rewrite bool_decide_eq_false_2 by done.
  rewrite (bind_Ok (load_dentry parent) _ v kp v) by (unfold load_dentry; run_step; by rewrite Hkp).
  rewrite (bind_Ok _ _ _ _ _ (get_inode_run simple_dir_iops v (d_sb kp) dev mode i (d :: l) Hsb Hav Hi)).
  set (v1 := set_inodes _ _ _). rewrite (bool_decide_eq_true_2 (i ≠ 0)) by done. run_step.
  rewrite (bind_Ok _ _ _ _ _ (edit_opt with_iops iop i _ v1 (lookup_insert_eq _ _ _))). set (v2 := set_inodes _ _ v1).
  rewrite (bind_Ok _ _ _ _ _ (edit_opt with_fop fop i _ v2 (lookup_insert_eq _ _ _))). set (v3 := set_inodes _ _ v2).
  assert (Hav3 : avail v3 = d :: l) by done.
  rewrite (bind_Ok _ _ _ _ _ (d_alloc_run v3 parent kp q d l Hav3 Hd Hp Hdp Hkp)). set (v4 := set_dentries _ _).
  rewrite (bool_decide_eq_true_2 (d ≠ 0)) by done. run_step.
  assert (Hkd : dentries v4 !! d = Some (Dentry parent 0 (d_sb kp) q 1 0)) by apply lookup_insert_eq.
  rewrite (bind_Ok _ _ _ _ _ (edit_dentry_run v4 d _ _ Hkd)). set (v5 := set_dentries _ v4).
  set (kd := Dentry parent i (d_sb kp) q 1 0).
  assert (Hkd5 : dentries v5 !! d = Some kd) by apply lookup_insert_eq.
  rewrite (bind_Ok (dentry_insert parent d) _ v5 tt (inserted v5 d parent kd)).
  2:{ unfold dentry_insert. run_step. by rewrite (bind_Ok _ _ _ _ _ (of_option_Some _ _ _ Hkd5)). }
  exists v5, kd. split; [done|]. split_and!; try done.
  - split; try done. intros x k Hx Hxk. cbn [v5 v4 set_dentries dentries]. rewrite !lookup_insert_ne by done.
    destruct (decide (x = parent)) as [->|Hxp].
    + rewrite lookup_insert_eq. exists (i32 (d_count kp + 1)). congruence.
    + rewrite lookup_insert_ne by done. exists (d_count k). rewrite with_dcount_same. exact Hxk.
  - cbn [v5 v4 v3 v2 v1 set_dentries set_inodes set_avail inodes]. rewrite !insert_insert_eq. done.
  - intros x Hx Hn. cbn [v5 v4 set_dentries dentries]. rewrite !lookup_insert_ne by done.
    rewrite lookup_insert_ne by congruence. exact Hn.
Qed.

(** One more entry. *)
Lemma create_node_ok s parent kp c mode fop iop dev i d l :
  pool s → parent ≠ 0 → dentries (files_of s) !! parent = Some kp → supers (files_of s) !! d_sb kp = Some dev →
  avail (files_of s) = i :: d :: l → name_ok c →
  ∃ s', on_vfs (create_node parent (qstr_of c) mode fop iop) s = Ok (i, s') ∧
    node s' (mk_ent parent c d i (node_inode (d_sb kp) dev mode (u32 (last_ino (files_of s) + 1)) fop iop) None) ∧
    (∀ e, node s e → apart e parent c → node s' e) ∧ pool s' ∧ avail (files_of s') = l ∧ same_globals s s' ∧
    ram_files s' = ram_files s ∧ inodes (files_of s) !! i = None ∧
    inodes (files_of s') = <[i := node_inode (d_sb kp) dev mode (u32 (last_ino (files_of s) + 1)) fop iop]> (inodes (files_of s)).
Proof.
  intros [Hnd Hfr] Hp Hkp Hsb Hav Hc. set (v := files_of s) in *.
  rewrite Hav in Hnd, Hfr. apply NoDup_cons in Hnd as [Hi Hnd]. apply NoDup_cons in Hnd as [Hd Hnd].
  apply not_elem_of_cons in Hi as [Hid Hi].
  destruct (Hfr i ltac:(set_solver)) as (Hi0 & _ & Hii & _). destruct (Hfr d ltac:(set_solver)) as (Hd0 & Hdd & _).
  destruct (create_node_run v parent kp (qstr_of c) mode fop iop dev i d l Hp Hkp Hsb Hav Hi0 Hd0 Hdd)
    as (s2 & kd & Hrun & Hkeep & -> & Hkd & Hino & Hsup & Hal & Hfresh).
  set (kd := Dentry parent i (d_sb kp) (qstr_of c) 1 0) in *. set (ino := node_inode _ _ _ _ _ _) in *.
  pose proof (qstr_of_holds c (proj1 Hc)) as Hh.
  set (w := inserted s2 d parent kd). assert (Ew : dentries w = dentries s2) by done.
  exists (set_vfs w s). split; [unfold on_vfs; fold v; by rewrite Hrun|].
  assert (Hold : ∀ x k, dentries v !! x = Some k → ∃ n, dentries s2 !! x = Some (with_dcount n k)).
  { intros x k Hx. apply (k_entries _ _ _ Hkeep); [|done]. intros ->. congruence. }
  split_and!; try done.
  - split; cbn [e_parent e_name e_dentry e_inode e_ino e_ram set_vfs files_of].
    + apply (dentry_lookup_new s2 d parent kd c Hkd Hh (proj2 Hc)).
    + done.
    + done.
    + exists kd. split; [done|]. split; [done|]. split; [done|]. cbn [kd d_sb]. change (supers w) with (supers s2). rewrite Hsup. by eexists.
    + change (inodes w) with (inodes s2). rewrite Hino. apply lookup_insert_eq.
    + done.
  - intros e [E1 E2 E3 (k & E4 & E5 & E6 & E7) E8 E9] Hap. split; cbn [set_vfs files_of]; try done.
    + destruct Hap as [Hap|Hap].
      * apply (dentry_lookup_old v s2 d parent kd c Hkeep Hdd Hkd Hh); [apply E2|apply E2|done|done].
      * by apply (lookup_other_bucket v).
    + destruct (Hold _ _ E4) as [n E4']. exists (with_dcount n k). change (supers w) with (supers s2). rewrite Hsup. by split_and!.
    + change (inodes w) with (inodes s2). rewrite Hino, lookup_insert_ne; [done|]. intros E. subst i. fold v in E8. congruence.
  - split; cbn [set_vfs files_of]; change (avail w) with (avail s2); rewrite Hal; [done|].
    intros x Hx. destruct (Hfr x ltac:(set_solver)) as (F1 & F2 & F3 & F4 & F5 & F6 & F7).
    change (dentries w) with (dentries s2). change (inodes w) with (inodes s2). change (supers w) with (supers s2).
    change (mounts w) with (mounts s2). rewrite Hsup, (k_mounts _ _ _ Hkeep). split_and!; try done.
    + apply Hfresh; [intros ->; done|done].
    + rewrite Hino, lookup_insert_ne by (intros ->; done). done.
  - split; cbn [set_vfs files_of]; try done. split_and!; [apply Hkeep|apply Hkeep|exact Hsup].
Qed.

(** ** The root directory *)

Lemma chain_find_mono v w q chain x :
  (∀ y k, dentries v !! y = Some k → ∃ n, dentries w !! y = Some (with_dcount n k)) →
  chain_find v q chain = Ok x → chain_find w q chain = Ok x.
Proof.
  intros Hd. induction chain as [|y chain IH]; [done|]. cbn [chain_find].
  destruct (dentries v !! y) as [k|] eqn:Hy; [|done]. destruct (Hd y k Hy) as [n ->]. simpl.
  destruct (buf_strncmp _ _ _); [|done]. simpl. case_bool_decide; [done|]. apply IH.
Qed.

Lemma dentry_lookup_mono v w p q x :
  dentry_hashtable w = dentry_hashtable v →
  (∀ y k, dentries v !! y = Some k → ∃ n, dentries w !! y = Some (with_dcount n k)) →
  dentry_lookup v p q = Ok x → dentry_lookup w p q = Ok x.
Proof. intros Ht Hd. unfold dentry_lookup. rewrite Ht. by apply chain_find_mono. Qed.

(** Entries stay when the tables only grow elsewhere. *)
Lemma node_mono s s' e :
  dentry_hashtable (files_of s') = dentry_hashtable (files_of s) →
  (∀ y k, dentries (files_of s) !! y = Some k → ∃ n, dentries (files_of s') !! y = Some (with_dcount n k)) →
  (∀ i k, inodes (files_of s) !! i = Some k → inodes (files_of s') !! i = Some k) →
  (∀ b x, supers (files_of s) !! b = Some x → supers (files_of s') !! b = Some x) →
  (∀ r f, ram_files s !! r = Some f → ram_files s' !! r = Some f) → node s e → node s' e.
Proof.
  intros Ht Hd Hi Hs Hr [E1 E2 E3 (k & E4 & E5 & E6 & x & E7) E8 E9]. split; [|done|done| |by apply Hi|auto].
  - by eapply dentry_lookup_mono.
  - destruct (Hd _ _ E4) as [n E4']. exists (with_dcount n k). split_and!; [done|done|done|]. exists x. by apply Hs.
Qed.

(** The root directory is there, with the entries [E]. *)
Record mounted (s : fsys) (E : list ent) : Prop := {
  mt_pool : pool s;
  mt_root : root_dentry s ≠ 0 ∧ ∃ k dev, dentries (files_of s) !! root_dentry s = Some k ∧ supers (files_of s) !! d_sb k = Some dev;
  mt_mnt : ∃ m, mounts (files_of s) !! root_vfsmnt s = Some m ∧ mnt_mountpoint m = root_dentry s;
  mt_mhash : vfsmnt_hashtable (files_of s) = ∅;
  mt_entries : Forall (node s) E }.

Lemma mounted_globals s s' E E' :
  mounted s E → pool s' → same_globals s s' → Forall (node s') E' → mounted s' E'.
Proof.
  intros [M1 (M2 & k & dev & M3 & M4) (m & M5 & M6) M7 M8] Hp [G1 G2 (G3 & G4 & G5) (G6 & G7 & G8) G9] HE.
  split; rewrite ?G3, ?G4, ?G6, ?G7, ?G8; try done; [|by exists m].
  split; [done|]. destruct (G9 _ _ M3) as [n Hn]. by exists (with_dcount n k), dev.
Qed.

Section files.
Context (binary : list Z → Z * Z).

(** What [CREATE] makes of the name [c]. *)
Definition is_file (c : list Z) (e : ent) : Prop :=
  e_name e = c ∧ i_mode (e_ino e) = S_IFREG ∧ i_fop (e_ino e) = ramfs_file_fop ∧
  e_ram e = Some (Ram (binary c).1 (i32 ((binary c).2 - (binary c).1))).

Lemma CREATE_ok s E c i d r l :
  mounted s E → avail (files_of s) = i :: d :: r :: l → name_ok c → Forall (λ e, apart e (root_dentry s) c) E →
  ∃ s' e, CREATE binary c (root_dentry s) s = Ok (tt, s') ∧ mounted s' (e :: E) ∧ is_file c e ∧
    e_parent e = root_dentry s ∧ avail (files_of s') = l ∧ same_globals s s'.
Proof.
  intros M Hav Hc Hap. destruct (mt_root _ _ M) as (Hr0 & kp & dev & Hkp & Hsb).
  destruct (create_node_ok s (root_dentry s) kp c S_IFREG (Some ramfs_file_fop) (Some ramfs_dir_iops) dev i d (r :: l)
    (mt_pool _ _ M) Hr0 Hkp Hsb Hav Hc) as (s1 & Hrun & Hnew & Hold & Hp1 & Hav1 & Hg & Hram & Hin & Hino).
  set (ino := node_inode _ _ _ _ _ _) in *. unfold CREATE. rewrite (bind_Ok _ _ _ _ _ Hrun). unfold _create_file.
  destruct Hp1 as [Hnd Hfr]. rewrite Hav1 in Hnd, Hfr. apply NoDup_cons in Hnd as [Hrl Hnd].
  destruct (Hfr r ltac:(set_solver)) as (Hr & _ & _ & Hrr & _).
  rewrite (bind_Ok (on_vfs kmalloc) _ s1 r (set_vfs (set_avail l (files_of s1)) s1))
    by (unfold on_vfs; by rewrite (vfs_kmalloc_run _ _ _ Hav1)).
  rewrite (bool_decide_eq_true_2 (r ≠ 0)) by done. run_step.
  assert (Hi : inodes (files_of s1) !! i = Some ino) by (rewrite Hino; apply lookup_insert_eq).
  set (v2 := set_avail l (files_of s1)). set (ino' := with_private r ino).
  rewrite (bind_Ok (on_vfs (edit_inode i (with_private r))) _ (set_vfs v2 s1) tt
    (set_vfs (set_inodes (<[i := ino']> (inodes v2)) (last_ino v2) v2) s1))
    by (unfold on_vfs; cbn [set_vfs files_of]; by rewrite (edit_inode_run v2 i _ ino Hi)).
  set (f := Ram _ _).
  set (s' := set_ram r f (set_vfs (set_inodes (<[i := ino']> (inodes v2)) (last_ino v2) v2) s1)).
  set (e := mk_ent (root_dentry s) c d i ino' (Some f)).
  assert (Hs1 : ∀ x k, x ≠ i → inodes (files_of s1) !! x = Some k → inodes (files_of s') !! x = Some k).
  { intros x k Hx Hk. cbn. rewrite lookup_insert_ne by done. exact Hk. }
  assert (Hlk : ∀ p q x, dentry_lookup (files_of s1) p q = Ok x → dentry_lookup (files_of s') p q = Ok x).
  { intros p q x. apply dentry_lookup_mono; [done|]. intros y k Hy. exists (d_count k). by rewrite with_dcount_same. }
  assert (Hg' : same_globals s s') by (destruct Hg; by split).
  assert (Hp' : pool s').
  { split; [exact Hnd|]. intros x Hx. change (x ∈ l) in Hx. destruct (Hfr x ltac:(set_solver)) as (F1 & F2 & F3 & F4 & F5 & F6 & F7).
    split_and!; try done; cbn.
    - rewrite lookup_insert_ne; [done|]. intros ->. congruence.
    - rewrite lookup_insert_ne; [done|]. by intros ->. }
  exists s', e. split; [reflexivity|]. split; [|by split_and!].
  apply (mounted_globals s s' E); [done|done|done|]. constructor.
  - destruct Hnew as [N1 N2 N3 N4 N5 N6]. split; try done.
    + by apply Hlk.
    + exact (lookup_insert_eq (inodes v2) i ino').
    + intros f' [= <-]. exact (lookup_insert_eq (ram_files s1) r f).
  - apply Forall_forall. intros e' He'. rewrite Forall_forall in Hap. pose proof (mt_entries _ _ M) as HE. rewrite Forall_forall in HE.
    pose proof (Hold e' (HE e' He') (Hap e' He')) as [N1 N2 N3 N4 N5 N6]. split; try done.
    + by apply Hlk.
    + apply Hs1; [|done]. intros Ei. pose proof (nd_inode _ _ (HE e' He')). congruence.
    + intros f' Hf'. cbn. rewrite lookup_insert_ne; [by apply N6|]. intros E'. specialize (N6 f' Hf'). congruence.
Qed.

(** The new names do not shadow each other. *)
Fixpoint compat (old new : list (list Z)) : Prop :=
  match new with
  | [] => True
  | c :: new => Forall (λ c', ¬ c' `prefix_of` c ∨ _hash c' mod 32 ≠ _hash c mod 32) old ∧ compat (c :: old) new
  end.

Lemma create_files_ok names : ∀ s E,
  mounted s E → Forall (λ e, e_parent e = root_dentry s) E → compat (e_name <$> E) names → Forall name_ok names →
  (3 * length names ≤ length (avail (files_of s)))%nat →
  ∃ s' F, create_files binary names (root_dentry s) s = Ok (tt, s') ∧ mounted s' (F ++ E) ∧
    e_name <$> F = reverse names ∧ Forall (λ e, e_parent e = root_dentry s) F ∧
    (∀ c, c ∈ names → ∃ e, e ∈ F ∧ is_file c e) ∧
    (length (avail (files_of s')) + 3 * length names = length (avail (files_of s)))%nat ∧ same_globals s s'.
Proof.
  induction names as [|c names IH]; intros s E M HE Hc Hn Hl.
  { exists s, []. split; [done|]. split; [done|]. split; [done|]. split; [constructor|].
    split; [intros c ?%elem_of_nil; done|]. split; [simpl; lia|].
    split; try done. intros x k Hx. exists (d_count k). by rewrite with_dcount_same. }
  destruct (avail (files_of s)) as [|i [|d [|r l]]] eqn:Hav; [simpl in Hl; lia..|].
  destruct Hc as [Hc Hcs]. apply Forall_cons in Hn as [Hn Hns]. cbn [create_files].
  destruct (CREATE_ok s E c i d r l M Hav Hn) as (s1 & e & Hrun & M1 & Hf & Hpar & Hav1 & G1).
  { apply Forall_forall. intros e He. rewrite Forall_forall in HE.
    destruct (proj1 (Forall_forall _ _) Hc (e_name e)) as [Hp|Hp]; [by apply list_elem_of_fmap; exists e|by left|right].
    rewrite (HE e He). by apply buckets_differ. }
  rewrite (bind_Ok _ _ _ _ _ Hrun). pose proof (sg_root _ _ G1) as (_ & Er & _).
  destruct (IH s1 (e :: E)) as (s' & F & Hrun' & M' & HF & HFp & Hfiles & Hlen & G').
  - done.
  - rewrite Er. by constructor.
  - rewrite fmap_cons. destruct Hf as [-> _]. done.
  - done.
  - rewrite Hav1. simpl in Hl. lia.
  - rewrite Er in *. exists s', (F ++ [e]). split; [exact Hrun'|]. rewrite <- app_assoc. split; [exact M'|].
    destruct Hf as [Hname Hf]. split_and!.
    + rewrite fmap_app, HF, reverse_cons. simpl. by rewrite Hname.
    + apply Forall_app. split; [done|]. by repeat constructor.
    + intros c' [->|Hc']%elem_of_cons; [exists e; split; [set_solver|by split]|].
      destruct (Hfiles c' Hc') as (e' & He' & ?). exists e'. split; [set_solver|done].
    + rewrite Hav1 in Hlen. simpl. lia.
    + destruct G1, G'. split; try congruence; [intuition congruence..|].
      intros x k Hx. destruct (sg_dentries0 x k Hx) as [n Hn1]. destruct (sg_dentries1 _ _ Hn1) as [n' Hn2].
      exists n'. exact Hn2.
Qed.
End files.

(** ** Superblocks and mounts *)

Definition with_sb (op : super_operations) (magic sb : Z) (l : list Z) (s : fsys) : fsys :=
  set_super sb (Super magic PAGE_SIZE op) (set_super sb (Super 0 0 no_super_op)
    (set_vfs (set_supers (<[sb := 0]> (supers (files_of s))) (set_avail l (files_of s))) s)).

Lemma get_super_run op magic fs s sb l :
  fs_supers s fs = [] → avail (files_of s) = sb :: l → sb ≠ 0 →
  get_super op magic fs 0 s = Ok (sb, with_sb op magic sb l s).
Proof.
  intros Hs Hav Hsb. unfold get_super.
  assert (Hf : find_super_block fs 0 s = Ok (0, s)) by (unfold find_super_block; run_step; by rewrite Hs).
  rewrite (bind_Ok _ _ _ _ _ Hf). rewrite (bool_decide_eq_false_2 (0 ≠ 0)) by (intros E; by apply E).
  assert (Ha : new_sb fs 0 s = Ok (sb, set_super sb (Super 0 0 no_super_op)
    (set_vfs (set_supers (<[sb := 0]> (supers (files_of s))) (set_avail l (files_of s))) s))).
  { unfold new_sb. rewrite (bind_Ok _ _ _ _ _ Hf). rewrite (bool_decide_eq_false_2 (0 ≠ 0)) by (intros E; by apply E).
    unfold alloc_sb. rewrite (bind_Ok (on_vfs kmalloc) _ s sb (set_vfs (set_avail l (files_of s)) s))
      by (unfold on_vfs; by rewrite (vfs_kmalloc_run _ _ _ Hav)).
    rewrite bool_decide_eq_false_2 by done. reflexivity. }
  rewrite (bind_Ok _ _ _ _ _ Ha). run_step.
  erewrite bind_Ok by (apply of_option_Some; apply lookup_insert_eq). reflexivity.
Qed.

Lemma alloc_vfsmnt_run v mnt l :
  avail v = mnt :: l → mnt ≠ 0 →
  alloc_vfsmnt v = Ok (mnt, set_mounts (<[mnt := Vfsmount 0 0 0 0]> (mounts v)) (set_avail l v)).
Proof.
  intros Hav Hm. unfold alloc_vfsmnt. rewrite (bind_Ok _ _ _ _ _ (vfs_kmalloc_run _ _ _ Hav)).
  by rewrite (bool_decide_eq_true_2 (mnt ≠ 0)) by done.
Qed.

Lemma edit_mount_run v mnt g m :
  mounts v !! mnt = Some m → edit_mount mnt g v = Ok (tt, set_mounts (<[mnt := g m]> (mounts v)) v).
Proof. intros Hm. unfold edit_mount. run_step. by rewrite (bind_Ok _ _ _ _ _ (of_option_Some _ _ _ Hm)). Qed.

Lemma on_vfs_run {A} (m : M vfs A) s a v : m (files_of s) = Ok (a, v) → on_vfs m s = Ok (a, set_vfs v s).
Proof. intros E. unfold on_vfs. by rewrite E. Qed.

(** ** The state at boot *)

Record at_boot (s : fsys) : Prop := {
  ab_files : dentries (files_of s) = ∅ ∧ dentry_hashtable (files_of s) = ∅ ∧ inodes (files_of s) = ∅ ∧
    supers (files_of s) = ∅ ∧ mounts (files_of s) = ∅ ∧ vfsmnt_hashtable (files_of s) = ∅;
  ab_none : file_system s = [] ∧ super_info s = ∅ ∧ ram_files s = ∅;
  ab_pool : NoDup (avail (files_of s)) ∧ 0 ∉ avail (files_of s) ∧ (40 ≤ length (avail (files_of s)))%nat }.

(** The root directory [root] with its superblock and its inode. *)
Definition root_made (s : fsys) (mnt sb i d : Z) (l : list Z) : fsys :=
  let v := files_of s in
  let n := u32 (last_ino v + 1) in
  mk_fsys
    (Vfs (<[d := Dentry d i sb (qstr_of str_slash) 1 0]> (dentries v)) (dentry_hashtable v)
       (<[i := made_inode simple_dir_iops sb 0 S_IFDIR n]> (inodes v)) (<[sb := 0]> (supers v))
       (<[mnt := Vfsmount mnt d d sb]> (mounts v)) (vfsmnt_hashtable v) n (fs_root v) (fs_mnt_root v) (fs_pwd v)
       (fs_mnt_pwd v) l)
    (file_system s) (λ u, if bool_decide (u = root_fs) then sb :: fs_supers s root_fs else fs_supers s u)
    (<[sb := Super ROOTFS_MAGIC PAGE_SIZE root_super_op]> (super_info s)) (ram_files s) mnt d (pipe_mnt s).

(** Two states with the same fields. *)
Lemma vfs_ext (v w : vfs) :
  dentries v = dentries w → dentry_hashtable v = dentry_hashtable w → inodes v = inodes w → supers v = supers w →
  mounts v = mounts w → vfsmnt_hashtable v = vfsmnt_hashtable w → last_ino v = last_ino w → fs_root v = fs_root w →
  fs_mnt_root v = fs_mnt_root w → fs_pwd v = fs_pwd w → fs_mnt_pwd v = fs_mnt_pwd w → avail v = avail w → v = w.
Proof. destruct v, w. simpl. congruence. Qed.

Lemma fsys_ext (s t : fsys) :
  files_of s = files_of t → file_system s = file_system t → fs_supers s = fs_supers t → super_info s = super_info t →
  ram_files s = ram_files t → root_vfsmnt s = root_vfsmnt t → root_dentry s = root_dentry t → pipe_mnt s = pipe_mnt t → s = t.
Proof. destruct s, t. simpl. congruence. Qed.

Lemma rootfs_init_run s mnt sb i d l :
  fs_supers s root_fs = [] → avail (files_of s) = mnt :: sb :: i :: d :: l →
  mnt ≠ 0 → sb ≠ 0 → i ≠ 0 → d ≠ 0 →
  rootfs_init s =
    (on_vfs (create_node d (qstr_of str_dev) S_IFDIR None None) ;; mret 0) (root_made s mnt sb i d l).
Proof.
  intros Hsup Hav Hm Hsb Hi Hd. unfold rootfs_init.
  rewrite (bind_Ok _ _ _ _ _ (on_vfs_run _ _ _ _ (alloc_vfsmnt_run _ _ _ Hav Hm))).
  rewrite (bool_decide_eq_true_2 (mnt ≠ 0)) by done. do 2 run_step. set (s1 := set_root_vfsmnt mnt _).
  assert (Hs1 : fs_supers s1 root_fs = []) by exact Hsup.
  rewrite (bind_Ok _ _ _ _ _ (get_super_run root_super_op ROOTFS_MAGIC root_fs s1 sb (i :: d :: l) Hs1 eq_refl Hsb)).
  rewrite (bool_decide_eq_true_2 (sb ≠ 0)) by done. do 2 run_step.
  match goal with |- (read_super sb mnt ≫= _) ?x = _ => set (s2 := x) end.
  unfold read_super. rewrite bind_assoc. run_step. rewrite bind_assoc.
  erewrite bind_Ok by (apply of_option_Some; apply lookup_insert_eq). cbn [s_op]. unfold root_read_super. rewrite bind_assoc.
  assert (Hsb2 : supers (files_of s2) !! sb = Some 0) by apply lookup_insert_eq.
  rewrite (bind_Ok _ _ _ _ _ (on_vfs_run _ s2 _ _ (get_inode_run simple_dir_iops (files_of s2) sb 0 S_IFDIR i (d :: l) Hsb2 eq_refl Hi))).
  set (s3 := set_vfs _ s2). rewrite bind_assoc. run_step. rewrite bind_assoc.
  erewrite bind_Ok by (apply of_option_Some; exact (lookup_insert_eq (inodes (files_of s2)) i _)).
  rewrite (bool_decide_eq_true_2 (i ≠ 0)) by done. rewrite bind_assoc. run_step. rewrite bind_assoc.
  assert (Hroot : d_alloc_root i s3 = Ok (d, set_root_dentry d (set_vfs (set_dentries
    (<[d := Dentry d i sb (qstr_of str_slash) 1 0]> (dentries (files_of s3))) (set_avail l (files_of s3))) s3))).
  { unfold d_alloc_root. rewrite bool_decide_eq_false_2 by done.
    assert (Hda : d_alloc 0 (qstr_of str_slash) (files_of s3) = Ok (d, set_dentries
      (<[d := Dentry 0 0 0 (qstr_of str_slash) 1 0]> (dentries (files_of s3))) (set_avail l (files_of s3)))).
    { unfold d_alloc. rewrite (bind_Ok _ _ _ _ _ (vfs_kmalloc_run (files_of s3) d l eq_refl)).
      by rewrite bool_decide_eq_false_2 by done. }
    rewrite (bind_Ok _ _ _ _ _ (on_vfs_run _ s3 _ _ Hda)). rewrite bool_decide_eq_false_2 by done. rewrite bind_assoc. run_step.
    rewrite bind_assoc. erewrite bind_Ok by (apply of_option_Some; apply lookup_insert_eq). rewrite bind_assoc.
    match goal with |- (on_vfs (edit_dentry d ?g) ≫= _) ?x = _ =>
      rewrite (bind_Ok _ _ _ _ _ (on_vfs_run _ x _ _ (edit_dentry_run (files_of x) d g _ (lookup_insert_eq _ _ _)))) end.
    run_step. unfold set_root_dentry, set_vfs, set_dentries. simpl. by rewrite insert_insert_eq. }
  rewrite (bind_Ok _ _ _ _ _ Hroot). rewrite (bool_decide_eq_true_2 (d ≠ 0)) by done. rewrite bind_assoc. run_step.
  rewrite bind_assoc.
  match goal with |- (on_vfs (edit_mount mnt ?g) ≫= _) ?x = _ => set (g0 := g); set (s4 := x) end.
  assert (Hm4 : mounts (files_of s4) !! mnt = Some (Vfsmount 0 0 0 0)) by exact (lookup_insert_eq (mounts (files_of s)) mnt _).
  rewrite (bind_Ok _ _ _ _ _ (on_vfs_run _ s4 _ _ (edit_mount_run (files_of s4) mnt g0 _ Hm4))).
  do 3 run_step. match goal with |- (on_vfs _ ≫= _) ?x = _ => assert (x = root_made s mnt sb i d l) as -> end; [|done].
  apply fsys_ext; [apply vfs_ext|..]; try reflexivity; exact (insert_insert_eq _ _ _ _).
Qed.

Lemma pool_drop s a l :
  pool s → avail (files_of s) = a :: l →
  a ≠ 0 ∧ a ∉ l ∧ NoDup l ∧ dentries (files_of s) !! a = None ∧ inodes (files_of s) !! a = None ∧
  supers (files_of s) !! a = None ∧ mounts (files_of s) !! a = None.
Proof.
  intros [Hnd Hfr] E. rewrite E in Hnd, Hfr. apply NoDup_cons in Hnd as [Ha Hnd].
  destruct (Hfr a ltac:(set_solver)) as (? & ? & ? & ? & ? & ? & ?). by split_and!.
Qed.

Lemma lookup_insert_not {A} (m : gmap Z A) k v x : x ≠ k → m !! x = None → <[k := v]> m !! x = None.
Proof. intros Hx Hm. by rewrite lookup_insert_ne. Qed.

(** The root directory with nothing in it. *)
Lemma root_made_mounted s mnt sb i d l :
  pool s → vfsmnt_hashtable (files_of s) = ∅ → avail (files_of s) = mnt :: sb :: i :: d :: l →
  mounted (root_made s mnt sb i d l) [].
Proof.
  intros [Hnd Hfr] Hh Hav. rewrite Hav in Hnd, Hfr.
  apply NoDup_cons in Hnd as [H1 Hnd]. apply NoDup_cons in Hnd as [H2 Hnd]. apply NoDup_cons in Hnd as [H3 Hnd].
  apply NoDup_cons in Hnd as [H4 Hnd]. split; [|split|..]; try done.
  - split; [exact Hnd|]. intros a Ha. change (a ∈ l) in Ha. destruct (Hfr a ltac:(set_solver)) as (F1 & F2 & F3 & F4 & F5 & F6 & F7).
    split_and!; try done; cbn [root_made files_of dentries inodes supers mounts super_info]; (apply lookup_insert_not; [|done]).
    all: intros ->; set_solver.
  - apply Hfr. set_solver.
  - exists (Dentry d i sb (qstr_of str_slash) 1 0), 0. split; exact (lookup_insert_eq _ _ _).
  - exists (Vfsmount mnt d d sb). split; [exact (lookup_insert_eq _ _ _)|done].
Qed.

Lemma rootfs_init_ok s :
  pool s → vfsmnt_hashtable (files_of s) = ∅ → fs_supers s root_fs = [] → (6 ≤ length (avail (files_of s)))%nat →
  ∃ s' e, rootfs_init s = Ok (0, s') ∧ mounted s' [e] ∧ e_name e = str_dev ∧ e_parent e = root_dentry s' ∧
    e_inode e ≠ 0 ∧ i_mode (e_ino e) = S_IFDIR ∧ (length (avail (files_of s')) + 6 = length (avail (files_of s)))%nat ∧
    file_system s' = file_system s ∧ (∀ t, t ≠ root_fs → fs_supers s' t = fs_supers s t).
Proof.
  intros Hp Hh Hs Hl. destruct (avail (files_of s)) as [|mnt [|sb [|i [|d [|di [|dd l]]]]]] eqn:Hav; simpl in Hl; [lia..|].
  assert (Hz : mnt ≠ 0 ∧ sb ≠ 0 ∧ i ≠ 0 ∧ d ≠ 0 ∧ di ≠ 0).
  { destruct Hp as [_ Hfr]. rewrite Hav in Hfr. split_and!; apply Hfr; set_solver. }
  destruct Hz as (Hm0 & Hsb0 & Hi0 & Hd0 & Hdi0).
  rewrite (rootfs_init_run s mnt sb i d (di :: dd :: l) Hs Hav Hm0 Hsb0 Hi0 Hd0).
  pose proof (root_made_mounted s mnt sb i d (di :: dd :: l) Hp Hh Hav) as M. set (s1 := root_made _ _ _ _ _ _) in *.
  destruct (mt_root _ _ M) as (Hr0 & kp & dev & Hkp & Hsb).
  destruct (create_node_ok s1 (root_dentry s1) kp str_dev S_IFDIR None None dev di dd l (mt_pool _ _ M) Hr0 Hkp Hsb eq_refl)
    as (s' & Hrun & Hnew & _ & Hp' & Hav' & Hg & _).
  { split; [simpl; lia|]. repeat constructor; lia. }
  rewrite (bind_Ok _ _ _ _ _ Hrun). eexists s', _. split; [done|].
  pose proof (sg_root _ _ Hg) as (_ & Er & _).
  split; [apply (mounted_globals s1 s' []); [done|done|done|exact (Forall_cons_2 _ _ _ Hnew (Forall_nil_2 _))]|].
  split; [done|]. split; [by rewrite Er|]. split; [done|]. split; [done|]. split; [rewrite Hav'; simpl; lia|].
  split; [by rewrite (sg_registered _ _ Hg)|].
  intros t Ht. rewrite (proj1 (sg_supers _ _ Hg)). cbn [s1 root_made fs_supers]. by rewrite bool_decide_eq_false_2.
Qed.

(** ** The other file systems *)

(** Nothing of the root directory changes when the tables grow elsewhere. *)
Lemma mounted_grow s s' E :
  mounted s E → pool s' → dentry_hashtable (files_of s') = dentry_hashtable (files_of s) →
  vfsmnt_hashtable (files_of s') = vfsmnt_hashtable (files_of s) →
  root_dentry s' = root_dentry s → root_vfsmnt s' = root_vfsmnt s → ram_files s' = ram_files s →
  mounts (files_of s') !! root_vfsmnt s = mounts (files_of s) !! root_vfsmnt s →
  (∀ y k, dentries (files_of s) !! y = Some k → ∃ n, dentries (files_of s') !! y = Some (with_dcount n k)) →
  (∀ i k, inodes (files_of s) !! i = Some k → inodes (files_of s') !! i = Some k) →
  (∀ b x, supers (files_of s) !! b = Some x → supers (files_of s') !! b = Some x) →
  mounted s' E.
Proof.
  intros [M1 (M2 & k & dev & M3 & M4) (m & M5 & M6) M7 M8] Hp Ht Hm Hrd Hrv Hram Hmn Hd Hi Hs.
  split; rewrite ?Hrd, ?Hrv; try done.
  - split; [done|]. destruct (Hd _ _ M3) as [n Hn]. exists (with_dcount n k), dev. split; [done|]. by apply Hs.
  - exists m. by rewrite Hmn.
  - congruence.
  - eapply Forall_impl; [exact M8|]. intros e. apply node_mono; try done. by rewrite Hram.
Qed.

Lemma same_dentries (v w : vfs) :
  dentries w = dentries v → ∀ y k, dentries v !! y = Some k → ∃ n, dentries w !! y = Some (with_dcount n k).
Proof. intros -> y k Hy. exists (d_count k). by rewrite with_dcount_same. Qed.

Lemma lookup_insert_grow {A} (m : gmap Z A) k v : m !! k = None → ∀ x y, m !! x = Some y → <[k := v]> m !! x = Some y.
Proof. intros Hk x y Hx. rewrite lookup_insert_ne; [done|]. intros ->. congruence. Qed.

(** A superblock of another file system. *)
Definition with_new_sb (op : super_operations) (magic : Z) (fs : file_system_type) (sb : Z) (l : list Z) (s : fsys) : fsys :=
  let s1 := with_sb op magic sb l s in set_fs_supers fs (sb :: fs_supers s1 fs) s1.

Lemma new_sb_mounted op magic fs sb l s E :
  mounted s E → avail (files_of s) = sb :: l → mounted (with_new_sb op magic fs sb l s) E.
Proof.
  intros M Hav. pose proof (mt_pool _ _ M) as Hp. destruct (pool_drop s sb l Hp Hav) as (_ & Hsl & Hnd & _ & _ & Hsb & _).
  apply (mounted_grow s); try done; [|by apply same_dentries|exact (lookup_insert_grow _ _ _ Hsb)].
  destruct Hp as [_ Hfr]. rewrite Hav in Hfr. split; [done|]. intros a Ha. change (a ∈ l) in Ha.
  destruct (Hfr a ltac:(set_solver)) as (F1 & F2 & F3 & F4 & F5 & F6 & F7). assert (a ≠ sb) by (intros ->; done).
  split_and!; try done; cbn [with_new_sb with_sb set_fs_supers set_super set_vfs set_supers super_info supers files_of];
    repeat (apply lookup_insert_not; [done|]); done.
Qed.

Lemma ttyfs_init_ok s E dev :
  mounted s E → fs_supers s tty_fs = [] → dev ∈ E → e_name dev = str_dev → e_parent dev = root_dentry s →
  Forall (λ e, ¬ e_name e `prefix_of` str_tty) E → (3 ≤ length (avail (files_of s)))%nat →
  ∃ s' e, ttyfs_init s = Ok (0, s') ∧ mounted s' (e :: E) ∧ e_name e = str_tty ∧ e_parent e = e_dentry dev ∧
    i_mode (e_ino e) = S_IFCHR ∧ i_op (e_ino e) = ttyfs_iops ∧ i_fop (e_ino e) = ttyfs_file_fop ∧
    root_dentry s' = root_dentry s ∧ root_vfsmnt s' = root_vfsmnt s ∧
    (length (avail (files_of s')) + 3 = length (avail (files_of s)))%nat ∧
    file_system s' = file_system s ∧ (∀ t, t ≠ tty_fs → fs_supers s' t = fs_supers s t).
Proof.
  intros M Hs Hdev Hname Hpar HE Hl. destruct (avail (files_of s)) as [|sb [|i [|d l]]] eqn:Hav; simpl in Hl; [lia..|].
  destruct (pool_drop s sb _ (mt_pool _ _ M) Hav) as (Hsb0 & _). unfold ttyfs_init, ttyfs_get_super.
  rewrite (bind_Ok _ _ _ _ _ (get_super_run ttyfs_super_op TTYFS_MAGIC tty_fs s sb (i :: d :: l) Hs Hav Hsb0)).
  rewrite (bool_decide_eq_true_2 (sb ≠ 0)) by done. do 3 run_step.
  pose proof (new_sb_mounted ttyfs_super_op TTYFS_MAGIC tty_fs sb (i :: d :: l) s E M Hav) as M1.
  change (set_fs_supers tty_fs _ _) with (with_new_sb ttyfs_super_op TTYFS_MAGIC tty_fs sb (i :: d :: l) s).
  set (s1 := with_new_sb _ _ _ _ _ _) in *.
  assert (Hnd : node s1 dev) by (apply (proj1 (Forall_forall _ _) (mt_entries _ _ M1)); done).
  assert (Hfind : ttyfs_find_dev (root_dentry s1) s1 = Ok (e_dentry dev, s1)).
  { unfold ttyfs_find_dev. run_step. apply lift_Ok. rewrite (dentry_lookup_holds _ _ _ str_dev) by (apply qstr_of_holds; simpl; lia).
    pose proof (nd_lookup _ _ Hnd) as Hlk. by rewrite Hname, Hpar in Hlk. }
  rewrite (bind_Ok _ _ _ _ _ Hfind). rewrite (bool_decide_eq_true_2 (e_dentry dev ≠ 0)) by apply Hnd. run_step.
  destruct (nd_is _ _ Hnd) as (kp & Hkp & _ & _ & dv & Hdv).
  destruct (create_node_ok s1 (e_dentry dev) kp str_tty S_IFCHR (Some ttyfs_file_fop) (Some ttyfs_iops) dv i d l
    (mt_pool _ _ M1) (nd_nonzero _ _ Hnd) Hkp Hdv eq_refl) as (s' & Hrun & Hnew & Hold & Hp' & Hav' & Hg & _).
  { split; [simpl; lia|]. repeat constructor; lia. }
  rewrite (bind_Ok _ _ _ _ _ Hrun). eexists s', _. split; [done|]. split.
  { apply (mounted_globals s1 s' E); [done|done|done|]. apply Forall_cons_2; [exact Hnew|].
    apply Forall_forall. intros e He. apply Hold; [by apply (proj1 (Forall_forall _ _) (mt_entries _ _ M1))|].
    left. by apply (proj1 (Forall_forall _ _) HE). }
  destruct Hg as [G1 [G2 _] (G3 & G4 & _) _ _]. split_and!; try done; [rewrite Hav'; simpl; lia|].
  intros t Ht. rewrite G2. cbn [s1 with_new_sb set_fs_supers fs_supers]. by rewrite bool_decide_eq_false_2.
Qed.

(** [pipefs_read_super] makes an inode and a dentry that is in no directory. *)
Lemma pipefs_read_super_ok s E sb mnt i d l m dev :
  mounted s E → supers (files_of s) !! sb = Some dev → avail (files_of s) = i :: d :: l →
  mounts (files_of s) !! mnt = Some m → mnt ≠ root_vfsmnt s →
  ∃ s', pipefs_read_super sb mnt s = Ok (0, s') ∧ mounted s' E ∧ root_dentry s' = root_dentry s ∧ root_vfsmnt s' = root_vfsmnt s ∧ pipe_mnt s' = pipe_mnt s ∧
    mounts (files_of s') !! mnt = Some (Vfsmount (root_vfsmnt s) d (root_dentry s) sb) ∧
    file_system s' = file_system s ∧ fs_supers s' = fs_supers s ∧ avail (files_of s') = l.
Proof.
  intros M Hsb Hav Hm Hne. pose proof (mt_pool _ _ M) as Hp. destruct (pool_drop s i _ Hp Hav) as (Hi & _ & Hnd & _ & Hii & _).
  apply NoDup_cons in Hnd as [Hdl Hnd]. destruct Hp as [Hnd' Hfr]. rewrite Hav in Hnd', Hfr.
  apply NoDup_cons in Hnd' as [Hid _]. destruct (Hfr d ltac:(set_solver)) as (Hd & Hdd & _).
  destruct (mt_root _ _ M) as (Hr0 & kp & dv & Hkp & _). destruct (mt_mnt _ _ M) as (rm & Hrm & Hrp).
  unfold pipefs_read_super.
  rewrite (bind_Ok _ _ _ _ _ (on_vfs_run _ s _ _ (get_inode_run simple_dir_iops (files_of s) sb dev S_IFDIR i (d :: l) Hsb Hav Hi))).
  set (s1 := set_vfs _ s). rewrite (bool_decide_eq_true_2 (i ≠ 0)) by done. do 2 run_step.
  assert (Hrm1 : mounts (files_of s1) !! root_vfsmnt s1 = Some rm) by exact Hrm.
  rewrite (bind_Ok _ _ _ _ _ (of_option_Some _ _ _ Hrm1)). rewrite Hrp.
  assert (Hdr : d ≠ root_dentry s) by congruence.
  rewrite (bind_Ok _ _ _ _ _ (on_vfs_run _ s1 _ _
    (d_alloc_run (files_of s1) (root_dentry s) kp (qstr_of str_pipefs) d l eq_refl Hd Hr0 Hdr Hkp))).
  set (s2 := set_vfs _ s1). rewrite (bool_decide_eq_true_2 (d ≠ 0)) by done. run_step.
  assert (Hm2 : mounts (files_of s2) !! mnt = Some m) by exact Hm.
  rewrite (bind_Ok _ _ _ _ _ (on_vfs_run _ s2 _ _ (edit_mount_run (files_of s2) mnt _ m Hm2))).
  eexists. split; [reflexivity|]. split; [|split_and!; try done; exact (lookup_insert_eq _ _ _)].
  apply (mounted_grow s); try done.
  - split; [exact Hnd|]. intros a Ha. change (a ∈ l) in Ha. destruct (Hfr a ltac:(set_solver)) as (F1 & F2 & F3 & F4 & F5 & F6 & F7).
    assert (a ≠ i ∧ a ≠ d) as [] by (split; intros ->; set_solver).
    split_and!; try done; cbn [s2 s1 set_vfs set_mounts set_dentries set_inodes set_avail files_of dentries inodes mounts];
      repeat (apply lookup_insert_not; [first [done|congruence]|]); done.
  - exact (lookup_insert_ne _ _ _ _ Hne).
  - intros y k Hy. cbn [s2 s1 set_vfs set_mounts set_dentries set_inodes set_avail files_of dentries].
    rewrite lookup_insert_ne by congruence. destruct (decide (y = root_dentry s)) as [->|Hyr].
    + rewrite lookup_insert_eq. exists (i32 (d_count kp + 1)). congruence.
    + rewrite lookup_insert_ne by done. by apply (same_dentries (files_of s)).
  - exact (lookup_insert_grow _ _ _ Hii).
Qed.

Lemma vfsmnt_mounted mnt l s E :
  mounted s E → avail (files_of s) = mnt :: l →
  mounted (set_pipe_mnt mnt (set_vfs (set_mounts (<[mnt := Vfsmount 0 0 0 0]> (mounts (files_of s))) (set_avail l (files_of s))) s)) E.
Proof.
  intros M Hav. pose proof (mt_pool _ _ M) as Hp. destruct (pool_drop s mnt l Hp Hav) as (_ & Hsl & Hnd & _ & _ & _ & Hm).
  destruct (mt_mnt _ _ M) as (m & Hm' & _).
  apply (mounted_grow s); try done; [|apply lookup_insert_ne; congruence|by apply same_dentries].
  destruct Hp as [_ Hfr]. rewrite Hav in Hfr. split; [done|]. intros a Ha. change (a ∈ l) in Ha.
  destruct (Hfr a ltac:(set_solver)) as (F1 & F2 & F3 & F4 & F5 & F6 & F7). assert (a ≠ mnt) by (intros ->; done).
  split_and!; try done. by apply lookup_insert_not.
Qed.

Lemma pipefs_init_ok s E :
  mounted s E → fs_supers s pipe_fs = [] → (4 ≤ length (avail (files_of s)))%nat →
  ∃ s' d sb, pipefs_init s = Ok (0, s') ∧ mounted s' E ∧ root_dentry s' = root_dentry s ∧ root_vfsmnt s' = root_vfsmnt s ∧
    mounts (files_of s') !! pipe_mnt s' = Some (Vfsmount (root_vfsmnt s) d (root_dentry s) sb) ∧
    file_system s' = file_system s ∧ (∀ t, t ≠ pipe_fs → fs_supers s' t = fs_supers s t).
Proof.
  intros M Hs Hl. destruct (avail (files_of s)) as [|mnt [|sb [|i [|d l]]]] eqn:Hav; simpl in Hl; [lia..|].
  destruct (pool_drop s mnt _ (mt_pool _ _ M) Hav) as (Hm0 & _ & _ & _ & _ & _ & Hmn).
  unfold pipefs_init, pipefs_get_super.
  rewrite (bind_Ok _ _ _ _ _ (on_vfs_run _ s _ _ (alloc_vfsmnt_run _ _ _ Hav Hm0))).
  rewrite (bool_decide_eq_true_2 (mnt ≠ 0)) by done. do 2 run_step.
  pose proof (vfsmnt_mounted mnt (sb :: i :: d :: l) s E M Hav) as M1. set (s1 := set_pipe_mnt mnt _) in *.
  assert (Hs1 : fs_supers s1 pipe_fs = []) by exact Hs.
  destruct (pool_drop s1 sb _ (mt_pool _ _ M1) eq_refl) as (Hsb0 & _).
  rewrite (bind_Ok _ _ _ _ _ (get_super_run pipefs_super_op PIPEFS_MAGIC pipe_fs s1 sb (i :: d :: l) Hs1 eq_refl Hsb0)). run_step.
  pose proof (new_sb_mounted pipefs_super_op PIPEFS_MAGIC pipe_fs sb (i :: d :: l) s1 E M1 eq_refl) as M2.
  change (set_fs_supers pipe_fs _ _) with (with_new_sb pipefs_super_op PIPEFS_MAGIC pipe_fs sb (i :: d :: l) s1).
  set (s2 := with_new_sb _ _ _ _ _ _) in *. unfold read_super. rewrite bind_assoc. run_step. rewrite bind_assoc.
  erewrite bind_Ok by (apply of_option_Some; exact (lookup_insert_eq _ _ _)). cbn [s_op].
  destruct (mt_mnt _ _ M) as (rm & Hrm & _). assert (Hne : mnt ≠ root_vfsmnt s2) by (change (root_vfsmnt s2) with (root_vfsmnt s); congruence).
  destruct (pipefs_read_super_ok s2 E sb mnt i d l (Vfsmount 0 0 0 0) 0 M2) as (s' & Hrun & M' & Hr & Hv & Hpm & Hmt & Hf & Hfs & _);
    [exact (lookup_insert_eq _ _ _)|done|exact (lookup_insert_eq _ _ _)|done|].
  rewrite (bind_Ok _ _ _ _ _ Hrun). exists s', d, sb. split; [done|]. split; [done|]. split; [done|]. split; [done|]. split; [by rewrite Hpm|].
  split; [done|]. intros t Ht. rewrite Hfs. cbn [s2 with_new_sb set_fs_supers fs_supers]. by rewrite bool_decide_eq_false_2.
Qed.

(** ** Looking the entries up by their paths *)

Lemma do_lookup_node s e m :
  vfsmnt_hashtable (files_of s) = ∅ → node s e →
  do_lookup (task_fs s) (e_parent e) m (canon (e_name e)) = Ok (Some (e_dentry e, m)).
Proof.
  intros Hh Hn. unfold do_lookup.
  rewrite (dentry_lookup_mono (files_of s) (task_fs s) _ _ _ eq_refl (same_dentries _ (task_fs s) eq_refl) (nd_lookup _ _ Hn)). cbn [mbind outcome_bind]. rewrite bool_decide_eq_false_2 by apply Hn.
  cbn [follow_mount]. rewrite bool_decide_eq_false_2 by apply Hn.
  unfold lookup_vfsmnt. cbn [task_fs vfsmnt_hashtable]. by rewrite Hh, lookup_empty.
Qed.

Definition is_name (c : list Z) : Prop := name_ok c ∧ c ≠ [dot] ∧ c ≠ [dot; dot].

Lemma walk_last_node s e res m :
  vfsmnt_hashtable (files_of s) = ∅ → node s e → is_name (e_name e) →
  walk_last (task_fs s) false (e_name e) res (e_parent e) m = Ok (0, (e_dentry e, m), None).
Proof.
  intros Hh Hn (_ & H1 & H2). unfold walk_last. rewrite !bool_decide_eq_false_2 by done.
  rewrite (do_lookup_node s e m Hh Hn). cbn [mbind outcome_bind]. cbn [task_fs dentries].
  by destruct (nd_is _ _ Hn) as (k & -> & _).
Qed.

(** What a lookup finds. *)
Definition found (s : fsys) (path : list Z) (P : inode → Prop) : Prop :=
  ∀ buf nd, length buf = 36%nat → ∃ nd' k ino, path_lookup (task_fs s) path buf 0 nd = Ok (0, nd') ∧
    dentries (files_of s) !! nd_dentry nd' = Some k ∧ inodes (files_of s) !! d_inode k = Some ino ∧ P ino.

Lemma walk_found s path e m (P : inode → Prop) :
  Forall name_ok (components path) → walk_path (task_fs s) path 0 = Ok (0, (e_dentry e, m), None) → node s e → P (e_ino e) →
  found s path P.
Proof.
  intros Hc Hw Hn HP buf nd Hb.
  assert (Hlen : Forall (λ c, length c < 36)%nat (components path)) by (eapply Forall_impl; [done|]; by intros ? []).
  pose proof (path_lookup_agrees (task_fs s) path buf 0 nd Hb Hlen) as Ha. rewrite Hw in Ha.
  destruct (path_lookup _ _ _ _ _) as [[res nd']|]; [|done]. destruct Ha as (-> & Hd & _). specialize (Hd ltac:(lia)). injection Hd as Hd _.
  destruct (nd_is _ _ Hn) as (k & Hk & _ & Hi & _). exists nd', k, (e_ino e). rewrite Hd, Hi. split_and!; try done. apply Hn.
Qed.

Lemma root_entry_found s E e path P :
  mounted s E → node s e → e_parent e = root_dentry s → is_name (e_name e) → head path = Some slash →
  components path = [e_name e] → P (e_ino e) → found s path P.
Proof.
  intros M Hn Hp Hc Hh Hcs HP. destruct (mt_root _ _ M) as (_ & k & _ & Hk & _).
  apply (walk_found s path e (root_vfsmnt s)); [rewrite Hcs; constructor; [apply Hc|constructor]| |done|done].
  unfold walk_path. rewrite bool_decide_eq_true_2 by done. rewrite Hcs. cbn [task_fs fs_root fs_mnt_root dentries]. rewrite Hk.
  cbn [mbind outcome_bind opt walk]. rewrite <- Hp. apply walk_last_node; [apply M|done|done].
Qed.

Lemma sub_entry_found s E d e path P :
  mounted s E → node s d → node s e → e_parent d = root_dentry s → e_parent e = e_dentry d → e_inode d ≠ 0 →
  is_name (e_name d) → is_name (e_name e) → head path = Some slash →
  components path = [e_name d; e_name e] → P (e_ino e) → found s path P.
Proof.
  intros M Hd Hn Hpd Hp Hi Hcd Hc Hh Hcs HP. destruct (mt_root _ _ M) as (_ & k & _ & Hk & _).
  apply (walk_found s path e (root_vfsmnt s)); [rewrite Hcs; constructor; [apply Hcd|constructor; [apply Hc|constructor]]| |done|done].
  unfold walk_path. rewrite bool_decide_eq_true_2 by done. rewrite Hcs. cbn [task_fs fs_root fs_mnt_root dentries]. rewrite Hk.
  cbn [mbind outcome_bind opt]. rewrite walk_cons. destruct Hcd as (_ & H1 & H2). rewrite !bool_decide_eq_false_2 by done.
  rewrite <- Hpd, (do_lookup_node s d _ (mt_mhash _ _ M) Hd). cbn [mbind outcome_bind].
  destruct (nd_is _ _ Hd) as (kd & Hkd & _ & Ei & _). change (dentries (task_fs s)) with (dentries (files_of s)). rewrite Hkd. cbn [opt mbind outcome_bind].
  rewrite bool_decide_eq_false_2 by congruence. cbn [walk]. rewrite <- Hp. apply walk_last_node; [apply M|done|done].
Qed.

(** ** Registration *)

Definition registered (fs : file_system_type) (s : fsys) : fsys :=
  set_registered (fs :: file_system s) (set_fs_supers fs [] s).

Lemma registered_mounted fs s E : mounted s E → mounted (registered fs s) E.
Proof. intros M. apply (mounted_grow s); try done; [apply M|by apply same_dentries]. Qed.

Section boot.
Context (binary : list Z → Z * Z).

Lemma register_run s fs :
  fs ∉ file_system s → register_filesystem binary fs s = fs_init binary fs (registered fs s).
Proof.
  intros Hf. unfold register_filesystem. run_step. rewrite bool_decide_eq_false_2 by done.
  assert (Hno : filter (λ g, fs_name g = fs_name fs) (file_system s) = []).
  { apply elem_of_nil_inv. intros g [E Hg]%list_elem_of_filter. apply Hf. by destruct fs, g. }
  unfold find_filesystem. by rewrite Hno.
Qed.
End boot.

Section boot_correct.
Context (binary : list Z → Z * Z).

Lemma boot_compat : compat [str_dev] boot_names.
Proof.
  cbn [compat boot_names].
  repeat (split; [repeat (apply Forall_cons_2; [first [left; apply (bool_decide_unpack _); vm_compute; exact I | right; vm_compute; discriminate]|]); constructor|]).
  exact I.
Qed.

Lemma boot_names_ok : Forall is_name boot_names.
Proof. repeat constructor; simpl; try lia; discriminate. Qed.

Lemma boot_paths : Forall (λ c, components (slash :: c) = [c]) boot_names.
Proof. repeat constructor. Qed.

Lemma boot_not_tty : Forall (λ c, ¬ c `prefix_of` str_tty) (reverse boot_names ++ [str_dev]).
Proof. apply (bool_decide_unpack _). vm_compute. exact I. Qed.

Lemma at_boot_pool s : at_boot s → pool s.
Proof.
  intros [(F1 & F2 & F3 & F4 & F5 & F6) (G1 & G2 & G3) (P1 & P2 & P3)]. split; [done|]. intros a Ha.
  rewrite F1, F3, F4, F5, G2, G3, !lookup_empty. split_and!; try done. intros ->. done.
Qed.

Lemma pool_registered fs s : pool s → pool (registered fs s).
Proof. intros [H1 H2]. by split. Qed.


(** ** The four file systems, in order *)

Definition is_dev (s : fsys) (dev : ent) : Prop := e_name dev = str_dev ∧ e_parent dev = root_dentry s ∧ e_inode dev ≠ 0.

Definition is_tty (dev tty : ent) : Prop :=
  e_name tty = str_tty ∧ e_parent tty = e_dentry dev ∧ i_mode (e_ino tty) = S_IFCHR ∧
  i_op (e_ino tty) = ttyfs_iops ∧ i_fop (e_ino tty) = ttyfs_file_fop.

Ltac not_registered := apply (bool_decide_unpack _); vm_compute; exact I.

Lemma root_registered s :
  at_boot s →
  ∃ s' dev, register_filesystem binary root_fs s = Ok (0, s') ∧ mounted s' [dev] ∧ is_dev s' dev ∧
    (34 ≤ length (avail (files_of s')))%nat ∧ file_system s' = [root_fs].
Proof.
  intros B. pose proof (at_boot_pool s B) as Hp. destruct B as [(_ & _ & _ & _ & _ & Hmh) (Hfs & _ & _) (_ & _ & Hlen)].
  rewrite register_run by (rewrite Hfs; not_registered).
  destruct (rootfs_init_ok (registered root_fs s)) as (s1 & dev & R & M & D1 & D2 & D3 & _ & L & F & _);
    [by apply pool_registered|done|done|cbn; lia|].
  change (avail (files_of (registered root_fs s))) with (avail (files_of s)) in L.
  exists s1, dev. split_and!; try done; [lia|]. rewrite F. cbn. by rewrite Hfs.
Qed.

Lemma ramfs_registered s dev :
  mounted s [dev] → is_dev s dev → (34 ≤ length (avail (files_of s)))%nat → file_system s = [root_fs] →
  ∃ s' F, register_filesystem binary ramfs_fs s = Ok (0, s') ∧ mounted s' (F ++ [dev]) ∧
    root_dentry s' = root_dentry s ∧ e_name <$> F = reverse boot_names ∧ Forall (λ e, e_parent e = root_dentry s) F ∧
    (∀ c, c ∈ boot_names → ∃ e, e ∈ F ∧ is_file binary c e) ∧ (7 ≤ length (avail (files_of s')))%nat ∧
    file_system s' = [ramfs_fs; root_fs].
Proof.
  intros M1 (D1 & D2 & D3) L1 F1. rewrite register_run by (rewrite F1; not_registered).
  cbn [fs_init]. unfold ramfs_init, create_file. run_step.
  destruct (create_files_ok binary boot_names (registered ramfs_fs s) [dev]) as (s2 & F & R & M & N & P & Q & L & G);
    [by apply registered_mounted|by apply Forall_singleton|cbn [fmap list_fmap]; rewrite D1; apply boot_compat| |
     change (3 * 9 ≤ length (avail (files_of s)))%nat; lia|].
  { eapply Forall_impl; [apply boot_names_ok|]. by intros c []. }
  rewrite (bind_Ok _ _ _ _ _ R). exists s2, F. destruct G as [G1 _ (_ & G2 & _) _ _].
  split_and!; try done; [|by rewrite G1; cbn; rewrite F1].
  change (length (avail (files_of s2)) + 27 = length (avail (files_of s)))%nat in L. lia.
Qed.

Lemma ttyfs_registered s F dev :
  mounted s (F ++ [dev]) → is_dev s dev → e_name <$> F = reverse boot_names → (7 ≤ length (avail (files_of s)))%nat →
  file_system s = [ramfs_fs; root_fs] →
  ∃ s' tty, register_filesystem binary tty_fs s = Ok (0, s') ∧ mounted s' (tty :: F ++ [dev]) ∧
    root_dentry s' = root_dentry s ∧ is_tty dev tty ∧ (4 ≤ length (avail (files_of s')))%nat ∧
    file_system s' = [tty_fs; ramfs_fs; root_fs].
Proof.
  intros M2 (D1 & D2 & D3) N2 L2 F2. rewrite register_run by (rewrite F2; not_registered). cbn [fs_init].
  destruct (ttyfs_init_ok (registered tty_fs s) (F ++ [dev]) dev) as (s3 & tty & R & M & T1 & T2 & T3 & T4 & T5 & T6 & _ & L & G & _);
    [by apply registered_mounted|done|set_solver|done|done| |cbn; lia|].
  { pose proof boot_not_tty as Hn. rewrite <- N2, <- D1 in Hn. change [e_name dev] with (e_name <$> [dev]) in Hn.
    rewrite <- fmap_app in Hn. exact (proj1 (Forall_fmap e_name (λ c, ¬ c `prefix_of` str_tty) (F ++ [dev])) Hn). }
  exists s3, tty. split_and!; try done; [|by rewrite G; cbn; rewrite F2].
  change (avail (files_of (registered tty_fs s))) with (avail (files_of s)) in L. lia.
Qed.

Lemma filesystem_init_run s :
  at_boot s →
  ∃ s' F dev tty d sb, filesystem_init binary s = Ok (tt, s') ∧ mounted s' (tty :: F ++ [dev]) ∧ is_dev s' dev ∧ is_tty dev tty ∧
    (∀ c, c ∈ boot_names → ∃ e, e ∈ F ∧ is_file binary c e ∧ e_parent e = root_dentry s') ∧
    file_system s' = [pipe_fs; tty_fs; ramfs_fs; root_fs] ∧
    mounts (files_of s') !! pipe_mnt s' = Some (Vfsmount (root_vfsmnt s') d (root_dentry s') sb).
Proof.
  intros B. unfold filesystem_init, filesystem, register_all.
  destruct (root_registered s B) as (s1 & dev & R1 & M1 & D1 & L1 & F1). rewrite (bind_Ok _ _ _ _ _ R1).
  destruct (ramfs_registered s1 dev M1 D1 L1 F1) as (s2 & F & R2 & M2 & Er2 & N2 & P2 & Q2 & L2 & F2). rewrite (bind_Ok _ _ _ _ _ R2).
  assert (D2 : is_dev s2 dev) by (unfold is_dev; by rewrite Er2).
  destruct (ttyfs_registered s2 F dev M2 D2 N2 L2 F2) as (s3 & tty & R3 & M3 & Er3 & T3 & L3 & F3). rewrite (bind_Ok _ _ _ _ _ R3).
  pose proof (registered_mounted pipe_fs s3 _ M3) as M3'.
  destruct (pipefs_init_ok (registered pipe_fs s3) _ M3' eq_refl L3) as (s' & d & sb & R & M & Er & Ev & Hm & Hf & _).
  assert (R4 : register_filesystem binary pipe_fs s3 = Ok (0, s')) by (rewrite register_run by (rewrite F3; not_registered); exact R).
  rewrite (bind_Ok _ _ _ _ _ R4). exists s', F, dev, tty, d, sb.
  assert (Er' : root_dentry s' = root_dentry s1) by (rewrite Er, <- Er2, <- Er3; done).
  split_and!; try done; [unfold is_dev; by rewrite Er'| | |].
  - intros c Hc. destruct (Q2 c Hc) as (e & He & Hfe). exists e. rewrite Er'.
    split_and!; try done; try apply Hfe. by apply (proj1 (Forall_forall _ _) P2).
  - rewrite Hf. cbn. by rewrite F3.
  - rewrite Hm, Er, Ev. done.
Qed.

(** C16: Booting the file systems, whatever addresses the allocator gives out:
    [filesystem_init] returns with the four registered, and a new task, which starts in
    the root directory, finds every program of the image under its name, as a regular
    file of the ram file system with the bytes between the symbols of the linker, and
    the terminal as /dev/tty; the pipes are mounted beside the root. *)
Theorem filesystem_init_correct s :
  at_boot s →
  ∃ s' d sb, filesystem_init binary s = Ok (tt, s') ∧ file_system s' = [pipe_fs; tty_fs; ramfs_fs; root_fs] ∧
    (∀ c, c ∈ boot_names → found s' (slash :: c) (λ i, i_mode i = S_IFREG ∧ i_fop i = ramfs_file_fop ∧
       ram_files s' !! i_inode i = Some (Ram (binary c).1 (i32 ((binary c).2 - (binary c).1))))) ∧
    found s' (slash :: str_dev ++ slash :: str_tty) (λ i, i_mode i = S_IFCHR ∧ i_op i = ttyfs_iops ∧ i_fop i = ttyfs_file_fop) ∧
    mounts (files_of s') !! pipe_mnt s' = Some (Vfsmount (root_vfsmnt s') d (root_dentry s') sb).
Proof.
  intros B. destruct (filesystem_init_run s B) as (s' & F & dev & tty & d & sb & R & M & (D1 & D2 & D3) & T & HF & Hfs & Hm).
  exists s', d, sb. pose proof (proj1 (Forall_forall _ _) (mt_entries _ _ M)) as Hn.
  split; [done|]. split; [done|]. split; [|split; [|done]].
  - intros c Hc. destruct (HF c Hc) as (e & He & (E1 & E2 & E3 & E4) & Hp). assert (Hne : node s' e) by (apply Hn; set_solver).
    apply (root_entry_found s' _ e _ _ M Hne Hp); rewrite ?E1; try done.
    + by apply (proj1 (Forall_forall _ _) boot_names_ok).
    + by apply (proj1 (Forall_forall _ _) boot_paths).
    + split_and!; try done. by apply (nd_ram _ _ Hne).
  - destruct T as (T1 & T2 & T3).
    apply (sub_entry_found s' _ dev tty _ _ M); [apply Hn; set_solver|apply Hn; set_solver|done|done|done|..].
    + rewrite D1. repeat constructor; simpl; try lia; discriminate.
    + rewrite T1. repeat constructor; simpl; try lia; discriminate.
    + done.
    + by rewrite D1, T1.
    + done.
Qed.
End boot_correct.

(** Forty addresses and programs of a page each. *)
Definition boot_demo : fsys :=
  mk_fsys (Vfs ∅ ∅ ∅ ∅ ∅ ∅ 0 0 0 0 0 (seqZ 0xC0100001 40)) [] (λ _, []) ∅ ∅ 0 0 0.

Lemma filesystem_init_correct_witness :
  ∃ s' d sb, filesystem_init (λ _, (0x1000, 0x2000)) boot_demo = Ok (tt, s') ∧
    found s' (slash :: str_sh) (λ i, ram_files s' !! i_inode i = Some (Ram 0x1000 0x1000)) ∧
    mounts (files_of s') !! pipe_mnt s' = Some (Vfsmount (root_vfsmnt s') d (root_dentry s') sb).
Proof.
  destruct (filesystem_init_correct (λ _, (0x1000, 0x2000)) boot_demo) as (s' & d & sb & R & _ & HF & _ & Hm).
  - split; [by split_and!|by split_and!|]. split; [apply NoDup_seqZ|]. split; [|vm_compute; lia].
    intros H. apply elem_of_seqZ in H. lia.
  - exists s', d, sb. split; [exact R|]. split; [|exact Hm]. intros buf nd Hb.
    destruct (HF str_sh) with (buf := buf) (nd := nd) as (nd' & k & ino & P1 & P2 & P3 & P4);
      [apply (bool_decide_unpack _); vm_compute; exact I|exact Hb|].
    exists nd', k, ino. split; [exact P1|]. split; [exact P2|]. split; [exact P3|]. apply P4.
Defined.
