(* ===== verification/Ide.v ===== *)
(** * The disk driver: kernel/block/ide.c

    The drives are behind the ports of the processor: [ide_ports] is what the
    instructions [inb], [outb], [insl] and [outsl] do to them, and a drive that behaves
    as one is described in IdeProofs.  A transfer answers the bytes it stored, in order,
    from the address it was given on.  A loop that waits for the drive has the bound
    [patience].  What only prints is left out, and so is [open_cnt], which nothing uses. *)

From S2P Require Import Prelude Layout.

Local Open Scope Z_scope.

Definition IDE_BSY : Z := 0x80.
Definition IDE_DRDY : Z := 0x40.
Definition IDE_DF : Z := 0x20.
Definition IDE_ERR : Z := 0x01.
Definition SECTSIZE : Z := 512.
Definition P_PRIMARY : Z := 1.
Definition P_EXTENDED : Z := 2.

(** include/drivers/hd.h *)
Definition MAX_DRIVES : Z := 2.
Definition NR_PART_DRIVE : Z := 4.
Definition NR_PRIM_DRIVE : Z := NR_PART_DRIVE + 1.
Definition NR_LOG_PART : Z := 16.
Definition NR_LOG_DRIVE : Z := NR_LOG_PART * NR_PART_DRIVE.
Definition MAX_PRIM : Z := MAX_DRIVES * NR_PRIM_DRIVE - 1.
Definition MINOR_hd1a : Z := 0x10.
Definition EXT_PART : Z := 5.

Definition MAJOR (x : Z) : Z := Z.land (Z.shiftr x 8) 0xFF.
Definition MINOR (x : Z) : Z := Z.land x 0xFF.
(** Of an unsigned number: [dev - MINOR_hd1a] wraps around. *)
Definition DRV_OF_DEV (dev : Z) : Z :=
  if bool_decide (dev ≤ MAX_PRIM) then dev / NR_PRIM_DRIVE else u32 (dev - MINOR_hd1a) / NR_LOG_DRIVE.

(** Little-endian numbers in memory. *)
Definition le (l : list Z) : Z := foldr (λ b n, b + 256 * n) 0 l.
Definition le_at (l : list Z) (off n : nat) : Z := le (take n (drop off l)).

Record hd_struct := Hd { hd_head : Z; hd_sect : Z; hd_cyl : Z; hd_wpcom : Z; hd_lzone : Z; hd_ctl : Z }.

Record partable := Partable {
  boot_ind : Z; p_head : Z; p_sector : Z; p_cyl : Z; p_sys_ind : Z; end_head : Z; end_sector : Z; end_cyl : Z;
  p_start : Z; p_nr : Z }.

Record part_info := Part { start_sect : Z; nr_sects : Z; sys_ind : Z }.

Record hd_info := Hd_info { primary : list part_info; logical : list part_info }.

Class ide_ports (D : Type) := {
  port_inb : Z → D → Z * D;
  port_outb : Z → Z → D → D;
  port_insl : Z → Z → D → list Z * D;
  port_outsl : Z → list Z → D → D }.

Section driver.
Context {D : Type} `{!ide_ports D} (patience : nat).

(** include/asm/x86.h; the second argument of [insl] counts words of four bytes. *)
Definition inb (port : Z) : M D Z := λ d, Ok (port_inb port d).
Definition outb (port data : Z) : M D unit := λ d, Ok (tt, port_outb port (u8 data) d).
Definition insl (port cnt : Z) : M D (list Z) := λ d, Ok (port_insl port cnt d).
Definition outsl (port : Z) (data : list Z) : M D unit := λ d, Ok (tt, port_outsl port data d).

Fixpoint wait_loop (fuel : nat) : M D Z :=
  match fuel with
  | O => stop_with OutOfFuel
  | S fuel =>
      r ← inb 0x1F7;
      if bool_decide (Z.land r (Z.lor IDE_BSY IDE_DRDY) ≠ IDE_DRDY) then wait_loop fuel else mret r
  end.

Definition ide_wait_ready (check_error : bool) : M D Z :=
  r ← wait_loop patience;
  if check_error && bool_decide (Z.land r (Z.lor IDE_DF IDE_ERR) ≠ 0) then mret (-1) else mret 0.

(** The loop of [ide_probe_disk1]: the value of [x] at its end. *)
Fixpoint probe_loop (fuel : nat) (x : Z) : M D Z :=
  match fuel with
  | O => mret x
  | S fuel =>
      r ← inb 0x1F7;
      if bool_decide (Z.land r (Z.lor IDE_BSY (Z.lor IDE_DF IDE_ERR)) ≠ 0) then probe_loop fuel (x + 1) else mret x
  end.

Definition ide_probe_disk1 : M D bool :=
  ide_wait_ready false ;;
  outb 0x1F6 (Z.lor 0xE0 (Z.shiftl 1 4)) ;;
  x ← probe_loop 1000 0;
  outb 0x1F6 (Z.lor 0xE0 (Z.shiftl 0 4)) ;;
  mret (bool_decide (x < 1000)).

(** The sectors of [ide_read]: what was stored and the result. *)
Fixpoint read_sectors (nsecs : nat) : M D (list Z * Z) :=
  match nsecs with
  | O => mret ([], 0)
  | S nsecs =>
      r ← ide_wait_ready true;
      if bool_decide (r < 0) then mret ([], r)
      else
        data ← insl 0x1F0 (SECTSIZE / 4);
        x ← read_sectors nsecs;
        mret (data ++ x.1, x.2)
  end.

Definition ide_command (secno drive nsecs cmd : Z) : M D unit :=
  outb 0x1F2 nsecs ;;
  outb 0x1F3 (Z.land secno 0xFF) ;;
  outb 0x1F4 (Z.land (Z.shiftr secno 8) 0xFF) ;;
  outb 0x1F5 (Z.land (Z.shiftr secno 16) 0xFF) ;;
  outb 0x1F6 (Z.lor (Z.lor 0xE0 (Z.shiftl (Z.land drive 1) 4)) (Z.land (Z.shiftr secno 24) 0x0F)) ;;
  outb 0x1F7 cmd.

Definition ide_read (secno drive nsecs : Z) : M D (list Z * Z) :=
  assert (bool_decide (nsecs ≤ 256)) ;;
  ide_wait_ready false ;;
  ide_command secno drive nsecs 0x20 ;;
  read_sectors (Z.to_nat nsecs).

Fixpoint write_sectors (nsecs : nat) (src : list Z) : M D Z :=
  match nsecs with
  | O => mret 0
  | S nsecs =>
      r ← ide_wait_ready true;
      if bool_decide (r < 0) then mret r
      else
        outsl 0x1F0 (take (Z.to_nat SECTSIZE) src) ;;
        write_sectors nsecs (drop (Z.to_nat SECTSIZE) src)
  end.

Definition ide_write (diskno secno : Z) (src : list Z) (nsecs : Z) : M D Z :=
  assert (bool_decide (nsecs ≤ 256)) ;;
  ide_wait_ready false ;;
  ide_command secno diskno nsecs 0x30 ;;
  write_sectors (Z.to_nat nsecs) src.
End driver.

(** ** The partitions

    [hw] is the drives, the rest the variables of the file. *)
Record drives (D : Type) := mk_drives {
  hw : D; diskno : Z; hd_structs : list hd_struct; hd_infos : list hd_info; NR_HD : Z }.
Arguments mk_drives {D}.
Arguments hw {D}.
Arguments diskno {D}.
Arguments hd_structs {D}.
Arguments hd_infos {D}.
Arguments NR_HD {D}.

Section partitions.
Context {D : Type} `{!ide_ports D} (patience : nat).

Definition set_hw (d : D) (s : drives D) : drives D := mk_drives d (diskno s) (hd_structs s) (hd_infos s) (NR_HD s).
Definition set_infos (l : list hd_info) (s : drives D) : drives D :=
  mk_drives (hw s) (diskno s) (hd_structs s) l (NR_HD s).

Definition on_hw {A} (m : M D A) : M (drives D) A := λ s,
  match m (hw s) with Ok (a, d) => Ok (a, set_hw d s) | Stop w => Stop w end.

Definition ide_set_disk (d : Z) : M (drives D) unit :=
  if bool_decide (d ≠ 0 ∧ d ≠ 1) then panic
  else modify (λ s, mk_drives (hw s) d (hd_structs s) (hd_infos s) (NR_HD s)).

Definition edit_info (drive : Z) (g : hd_info → hd_info) : M (drives D) unit :=
  s ← get;
  h ← of_option (hd_infos s !! Z.to_nat drive);
  put (set_infos (<[Z.to_nat drive := g h]> (hd_infos s)) s).

Definition set_primary (i : Z) (p : part_info) (h : hd_info) : hd_info :=
  Hd_info (<[Z.to_nat i := p]> (primary h)) (logical h).
Definition set_logical (i : Z) (p : part_info) (h : hd_info) : hd_info :=
  Hd_info (primary h) (<[Z.to_nat i := p]> (logical h)).

(** The entry [j] of the partition table of a sector. *)
Definition part_entry (dst : list Z) (j : nat) : partable :=
  let p := (0x1BE + 16 * j)%nat in
  let b i := i8 (le_at dst (p + i) 1) in
  Partable (b 0%nat) (b 1%nat) (b 2%nat) (b 3%nat) (b 4%nat) (b 5%nat) (b 6%nat) (b 7%nat)
    (i32 (le_at dst (p + 8) 4)) (i32 (le_at dst (p + 12) 4)).

Definition get_part_table (drive secno : Z) : M (drives D) (list partable) :=
  r ← on_hw (ide_read patience (u32 secno) (u32 drive) 1);
  let '(dst, retval) := (r : list Z * Z) in
  if bool_decide (retval < 0) then panic else mret (part_entry dst <$> seq 0 4).

Definition load_primary (drive i : Z) : M (drives D) part_info :=
  s ← get;
  h ← of_option (hd_infos s !! Z.to_nat drive);
  of_option (primary h !! Z.to_nat i).

Definition load_logical (drive i : Z) : M (drives D) part_info :=
  s ← get;
  h ← of_option (hd_infos s !! Z.to_nat drive);
  of_option (logical h !! Z.to_nat i).

(** The loop over the logical partitions; [s] is the sector of the next table. *)
Fixpoint extended_loop (n : nat) (drive ext_start_sect s dev_nr : Z) : M (drives D) unit :=
  match n with
  | O => mret tt
  | S n =>
      part_tbl ← get_part_table drive s;
      p0 ← of_option (part_tbl !! 0%nat);
      p1 ← of_option (part_tbl !! 1%nat);
      old ← load_logical drive dev_nr;
      edit_info drive (set_logical dev_nr (Part (i32 (s + p_start p0)) (p_nr p0) (sys_ind old))) ;;
      if bool_decide (p_sys_ind p1 = 0) then mret tt
      else extended_loop n drive ext_start_sect (i32 (ext_start_sect + p_start p1)) (dev_nr + 1)
  end.

Definition partition_extended (device : Z) : M (drives D) unit :=
  let drive := DRV_OF_DEV device in
  let j := device mod NR_PRIM_DRIVE in
  p ← load_primary drive j;
  extended_loop (Z.to_nat NR_LOG_PART) drive (start_sect p) (start_sect p) ((j - 1) * NR_LOG_PART).

(** The entries of the first table: how many are in use. *)
Fixpoint primary_loop (part_tbl : list partable) (device drive dev_nr : Z) : M (drives D) Z :=
  match part_tbl with
  | [] => mret 0
  | p :: part_tbl =>
      if bool_decide (p_sys_ind p = 0) then primary_loop part_tbl device drive (dev_nr + 1)
      else
        old ← load_primary drive dev_nr;
        edit_info drive (set_primary dev_nr (Part (p_start p) (p_nr p) (sys_ind old))) ;;
        (if bool_decide (p_sys_ind p = EXT_PART) then
           edit_info drive (set_primary dev_nr (Part (p_start p) (p_nr p) EXT_PART)) ;;
           partition_extended (device + dev_nr)
         else mret tt) ;;
        n ← primary_loop part_tbl device drive (dev_nr + 1);
        mret (n + 1)
  end.

Definition partition (device style : Z) : M (drives D) unit :=
  let drive := DRV_OF_DEV device in
  if bool_decide (style = P_PRIMARY) then
    part_tbl ← get_part_table drive 0;
    nr_prim_parts ← primary_loop part_tbl device drive 1;
    assert (bool_decide (nr_prim_parts ≠ 0))
  else if bool_decide (style = P_EXTENDED) then partition_extended device
  else assert false.

(** ** [sys_setup]: [mem] is the bytes of the kernel's memory *)

Definition bios_table (mem : Z → Z) : Z :=
  let bios := le ((λ i, mem (KERNEL_BASE_ADDR + 0x104 + i)) <$> seqZ 0 4) in
  Z.shiftl (Z.land (Z.shiftr bios 16) 0xFFFF) 4 + Z.land bios 0xFFFF + KERNEL_BASE_ADDR.

Definition bios_drive (mem : Z → Z) (drive : Z) : hd_struct :=
  let a := bios_table mem + 16 * drive in
  Hd (mem (a + 2)) (mem (a + 14)) (mem a) (mem (a + 5)) (mem (a + 12)) (mem (a + 8)).

Definition whole_drive (h : hd_struct) (k : hd_info) : hd_info :=
  match primary k with
  | p :: _ => set_primary 0 (Part 0 (i32 (i32 (hd_head h * hd_sect h) * hd_cyl h)) (sys_ind p)) k
  | [] => k
  end.

Definition sys_setup (mem : Z → Z) : M (drives D) unit :=
  modify (λ s, mk_drives (hw s) (diskno s) [bios_drive mem 0; bios_drive mem 1] (hd_infos s) (NR_HD s)) ;;
  r ← on_hw (ide_read patience 0 0 1);
  (if bool_decide ((r : list Z * Z).2 < 0) then panic else mret tt) ;;
  let nr := if bool_decide (hd_cyl (bios_drive mem 1) ≠ 0) then 2 else 1 in
  modify (λ s, mk_drives (hw s) (diskno s) (hd_structs s) (hd_infos s) nr) ;;
  edit_info 0 (whole_drive (bios_drive mem 0)) ;;
  edit_info 1 (whole_drive (bios_drive mem 1)) ;;
  partition 0 P_PRIMARY ;;
  if bool_decide (1 < nr) then partition (NR_PART_DRIVE + 1) P_PRIMARY else mret tt.
End partitions.
