(* ===== verification/IdeProofs.v ===== *)
(** * Correctness of the disk driver

    [ata] is what the driver may expect of the drives, as the ATA standard has it for
    transfers by the processor: a drive takes registers, commands and data only while it
    is ready, which it is from the moment its status says so until the next command or
    the next sector of a transfer; what a busy drive does with them is not said.  A
    sector it cannot read or write is reported with an error bit when its turn comes,
    and ends the command.  The status shows the drive busy for a while only.  The
    theorems hold of every such drive; [demo_drive] is one. *)

From S2P Require Import Prelude Ide.

Local Open Scope Z_scope.

Inductive ata_phase := idle | reading (drive lba : Z) (n : nat) | writing (drive lba : Z) (n : nat).

(** What the registers name. *)
Definition reg_lba (r : Z → Z) : Z := r 0x1F3 + 2 ^ 8 * r 0x1F4 + 2 ^ 16 * r 0x1F5 + 2 ^ 24 * (r 0x1F6 mod 16).
Definition reg_drive (r : Z → Z) : Z := r 0x1F6 / 16 mod 2.
Definition reg_count (r : Z → Z) : nat := if bool_decide (r 0x1F2 = 0) then 256 else Z.to_nat (r 0x1F2).
(** Bit 6 of the drive register chooses addresses by number. *)
Definition reg_by_number (r : Z → Z) : Prop := Z.testbit (r 0x1F6) 6 = true.

Definition one_less (p : Z → nat → ata_phase) (lba : Z) (n : nat) : ata_phase :=
  match n with O => idle | S _ => p (lba + 1) n end.

(** [ready] is BSY clear and DRDY set, and in a transfer DRQ set, for good. *)
Class ata (D : Type) `{!ide_ports D} (patience : nat) := {
  sectors : D → Z → Z → list Z;
  defective : D → Z → Z → bool;
  regs : D → Z → Z;
  phase : D → ata_phase;
  ready : D → bool;
  busy : D → nat;
  ata_sector d v n : length (sectors d v n) = 512%nat;
  ata_patience d : (busy d < patience)%nat;
  ata_status d : let '(r, d') := port_inb 0x1F7 d in
    (∀ v n, sectors d' v n = sectors d v n) ∧ (∀ v n, defective d' v n = defective d v n) ∧ (∀ p, regs d' p = regs d p) ∧
    if bool_decide (Z.land r 0xC0 = 0x40) then
      ready d' = true ∧
      match phase d with
      | idle => phase d' = idle
      | reading v n _ | writing v n _ =>
          if defective d v n then Z.land r 0x21 ≠ 0 ∧ phase d' = idle else Z.land r 0x21 = 0 ∧ phase d' = phase d
      end
    else phase d' = phase d ∧ (busy d' < busy d)%nat;
  ata_register d p x : ready d = true → phase d = idle → 0x1F2 ≤ p ≤ 0x1F6 →
    let d' := port_outb p x d in
    (∀ v n, sectors d' v n = sectors d v n) ∧ (∀ v n, defective d' v n = defective d v n) ∧
    (∀ q, regs d' q = if bool_decide (q = p) then x else regs d q) ∧ phase d' = idle ∧ ready d' = true;
  ata_read d : ready d = true → phase d = idle → reg_by_number (regs d) →
    let d' := port_outb 0x1F7 0x20 d in
    (∀ v n, sectors d' v n = sectors d v n) ∧ (∀ v n, defective d' v n = defective d v n) ∧
    phase d' = reading (reg_drive (regs d)) (reg_lba (regs d)) (reg_count (regs d));
  ata_write d : ready d = true → phase d = idle → reg_by_number (regs d) →
    let d' := port_outb 0x1F7 0x30 d in
    (∀ v n, sectors d' v n = sectors d v n) ∧ (∀ v n, defective d' v n = defective d v n) ∧
    phase d' = writing (reg_drive (regs d)) (reg_lba (regs d)) (reg_count (regs d));
  ata_input d v n k : ready d = true → phase d = reading v n (S k) → defective d v n = false →
    let '(data, d') := port_insl 0x1F0 128 d in
    data = sectors d v n ∧ (∀ w m, sectors d' w m = sectors d w m) ∧ (∀ w m, defective d' w m = defective d w m) ∧
    phase d' = one_less (reading v) n k;
  ata_output d v n k data : ready d = true → phase d = writing v n (S k) → defective d v n = false → length data = 512%nat →
    let d' := port_outsl 0x1F0 data d in
    (∀ w m, sectors d' w m = if bool_decide (w = v ∧ m = n) then data else sectors d w m) ∧
    (∀ w m, defective d' w m = defective d w m) ∧ phase d' = one_less (writing v) n k }.

(** ** Numbers of sectors and their registers *)

Lemma land_ff x : Z.land x 0xFF = x mod 2 ^ 8.
Proof. change 0xFF with (Z.ones 8). by rewrite Z.land_ones by lia. Qed.

Lemma land_0f x : Z.land x 0x0F = x mod 2 ^ 4.
Proof. change 0x0F with (Z.ones 4). by rewrite Z.land_ones by lia. Qed.

Lemma land_1 x : Z.land x 1 = x mod 2.
Proof. change 1 with (Z.ones 1) at 1. by rewrite Z.land_ones by lia. Qed.

Definition drive_reg (drive secno : Z) : Z :=
  Z.lor (Z.lor 0xE0 (Z.shiftl (Z.land drive 1) 4)) (Z.land (Z.shiftr secno 24) 0x0F).

Lemma drive_reg_ok drive secno :
  0 ≤ drive_reg drive secno < 256 ∧ drive_reg drive secno mod 16 = Z.shiftr secno 24 mod 16 ∧
  drive_reg drive secno / 16 mod 2 = drive mod 2 ∧ Z.testbit (drive_reg drive secno) 6 = true.
Proof.
  unfold drive_reg. rewrite land_1, land_0f.
  assert (Hd : drive mod 2 = 0 ∨ drive mod 2 = 1) by (pose proof (Z.mod_pos_bound drive 2); lia).
  pose proof (Z.mod_pos_bound (Z.shiftr secno 24) 16) as Hb. change (2 ^ 4) with 16.
  remember (Z.shiftr secno 24 mod 16) as h. remember (drive mod 2) as w. clear Heqh Heqw.
  assert (Hh : h ∈ seqZ 0 16) by (apply elem_of_seqZ; lia). clear Hb.
  cbn in Hh. repeat (apply elem_of_cons in Hh as [->|Hh]; [destruct Hd as [-> | ->]; vm_compute; intuition congruence|]).
  by apply elem_of_nil in Hh.
Qed.

Lemma lba_split secno :
  0 ≤ secno < 2 ^ 28 →
  Z.land secno 0xFF + 2 ^ 8 * Z.land (Z.shiftr secno 8) 0xFF + 2 ^ 16 * Z.land (Z.shiftr secno 16) 0xFF +
    2 ^ 24 * (Z.shiftr secno 24 mod 16) = secno.
Proof.
  intros Hs. rewrite !land_ff, !Z.shiftr_div_pow2 by lia.
  Z.to_euclidean_division_equations. lia.
Qed.

Section transfers.
Context {D : Type} `{!ide_ports D} {patience : nat} `{!ata D patience}.

(** The same sectors with the same defects. *)
Record same_media (d d' : D) : Prop := {
  sm_sectors : ∀ v n, sectors d' v n = sectors d v n;
  sm_defects : ∀ v n, defective d' v n = defective d v n }.

#[export] Instance same_media_refl : Reflexive same_media.
Proof. intros d. by split. Qed.

#[export] Instance same_media_trans : Transitive same_media.
Proof. intros d1 d2 d3 [A1 A2] [B1 B2]. split; intros; congruence. Qed.

(** The sector whose turn it is. *)
Definition at_sector (p : ata_phase) : option (Z * Z) :=
  match p with idle => None | reading v n _ | writing v n _ => Some (v, n) end.

(** What the driver finds when it has waited: an error, for a defect only. *)
Definition will_fail (d : D) : bool := match at_sector (phase d) with None => false | Some (v, n) => defective d v n end.

Record waited (d d' : D) : Prop := {
  wt_media : same_media d d';
  wt_regs : ∀ p, regs d' p = regs d p;
  wt_ready : ready d' = true;
  wt_phase : phase d' = if will_fail d then idle else phase d }.

Lemma wait_loop_ok fuel : ∀ d, (busy d < fuel)%nat →
  ∃ r d', wait_loop fuel d = Ok (r, d') ∧ (phase d ≠ idle → will_fail d = bool_decide (Z.land r 0x21 ≠ 0)) ∧ waited d d'.
Proof.
  induction fuel as [|fuel IH]; intros d Hb; [lia|]. cbn [wait_loop].
  pose proof (ata_status d) as Hs. destruct (port_inb 0x1F7 d) as [r d1] eqn:E. destruct Hs as (S1 & S2 & S3 & S4).
  rewrite (bind_Ok (inb 0x1F7) _ d r d1) by (unfold inb; by rewrite E).
  change (Z.lor IDE_BSY IDE_DRDY) with 0xC0. change IDE_DRDY with 0x40.
  destruct (bool_decide_reflect (Z.land r 0xC0 = 0x40)) as [Hr|Hr].
  - rewrite bool_decide_eq_false_2 by (intros Hn; by apply Hn). destruct S4 as [Hrd S4]. exists r, d1. split; [done|].
    unfold will_fail, at_sector. destruct (phase d) as [|v n k|v n k] eqn:Ep.
    1: { split; [done|]. split; [by split|done|done|]. unfold will_fail. by rewrite Ep. }
    all: destruct (defective d v n) eqn:Ed; destruct S4 as [Hz Hp].
    all: split; [intros _; by rewrite ?bool_decide_eq_true_2, ?bool_decide_eq_false_2 by (try intros Hn; by try apply Hn)|].
    all: split; [by split|done|done|]; unfold will_fail; rewrite Ep; cbn [at_sector]; by rewrite Ed.
  - rewrite bool_decide_eq_true_2 by done. destruct S4 as [Hp Hlt].
    destruct (IH d1 ltac:(lia)) as (r' & d' & Hrun & Hz & [L1 L2 L3 L4]).
    assert (Ew : will_fail d1 = will_fail d) by (unfold will_fail; rewrite Hp; destruct (at_sector _) as [[v n]|]; [apply S2|done]).
    rewrite Hp in Hz, L4. rewrite Ew in Hz, L4. exists r', d'. split; [done|]. split; [done|].
    split; [etrans; [by split|exact L1]|intros; congruence|done|done].
Qed.

Lemma wait_ok check d :
  ∃ r d', ide_wait_ready patience check d = Ok (r, d') ∧
    (phase d ≠ idle → check = true → r = if will_fail d then -1 else 0) ∧ waited d d'.
Proof.
  destruct (wait_loop_ok patience d (ata_patience d)) as (r & d' & Hrun & Hz & L).
  eexists _, d'. split; [|split; [|exact L]].
  { unfold ide_wait_ready. rewrite (bind_Ok _ _ _ _ _ Hrun). change (Z.lor IDE_DF IDE_ERR) with 0x21.
    instantiate (1 := if check && bool_decide (Z.land r 0x21 ≠ 0) then -1 else 0). by destruct (_ && _). }
  intros Hp ->. by rewrite (Hz Hp).
Qed.

Lemma waited_idle d d' : waited d d' → phase d = idle → phase d' = idle.
Proof. intros [_ _ _ E] Hi. rewrite E, Hi. by destruct (will_fail d). Qed.

Lemma outb_ok p x d :
  ready d = true → phase d = idle → 0x1F2 ≤ p ≤ 0x1F6 →
  ∃ d', outb p x d = Ok (tt, d') ∧ same_media d d' ∧
    (∀ q, regs d' q = if bool_decide (q = p) then u8 x else regs d q) ∧ phase d' = idle ∧ ready d' = true.
Proof.
  intros Hr Hi Hp. exists (port_outb p (u8 x) d). split; [done|].
  destruct (ata_register d p (u8 x) Hr Hi Hp) as (A1 & A2 & A3). by split.
Qed.

Lemma u8_byte x : 0 ≤ x < 256 → u8 x = x.
Proof. intros Hx. unfold u8. by apply Z.mod_small. Qed.

Lemma land_ff_byte x : 0 ≤ Z.land x 0xFF < 256.
Proof. rewrite land_ff. by apply Z.mod_pos_bound. Qed.

(** The registers before a command. *)
Lemma registers_ok secno drive nsecs cmd d :
  0 ≤ secno < 2 ^ 28 → 1 ≤ nsecs ≤ 256 → ready d = true → phase d = idle →
  ∃ d1, ide_command secno drive nsecs cmd d = outb 0x1F7 cmd d1 ∧ same_media d d1 ∧ phase d1 = idle ∧ ready d1 = true ∧
    reg_by_number (regs d1) ∧ reg_drive (regs d1) = drive mod 2 ∧ reg_lba (regs d1) = secno ∧ reg_count (regs d1) = Z.to_nat nsecs.
Proof.
  intros Hs Hn Hr Hi. unfold ide_command.
  destruct (outb_ok 0x1F2 nsecs d Hr Hi ltac:(lia)) as (d1 & R1 & S1 & G1 & P1 & Y1). rewrite (bind_Ok _ _ _ _ _ R1).
  destruct (outb_ok 0x1F3 (Z.land secno 0xFF) d1 Y1 P1 ltac:(lia)) as (d2 & R2 & S2 & G2 & P2 & Y2). rewrite (bind_Ok _ _ _ _ _ R2).
  destruct (outb_ok 0x1F4 (Z.land (Z.shiftr secno 8) 0xFF) d2 Y2 P2 ltac:(lia)) as (d3 & R3 & S3 & G3 & P3 & Y3). rewrite (bind_Ok _ _ _ _ _ R3).
  destruct (outb_ok 0x1F5 (Z.land (Z.shiftr secno 16) 0xFF) d3 Y3 P3 ltac:(lia)) as (d4 & R4 & S4 & G4 & P4 & Y4). rewrite (bind_Ok _ _ _ _ _ R4).
  destruct (outb_ok 0x1F6 (drive_reg drive secno) d4 Y4 P4 ltac:(lia)) as (d5 & R5 & S5 & G5 & P5 & Y5).
  change (Z.lor (Z.lor 0xE0 _) _) with (drive_reg drive secno). rewrite (bind_Ok _ _ _ _ _ R5).
  destruct (drive_reg_ok drive secno) as (B1 & B2 & B3 & B4).
  assert (E2 : regs d5 0x1F2 = u8 nsecs) by (rewrite G5, G4, G3, G2, G1; done).
  assert (E3 : regs d5 0x1F3 = Z.land secno 0xFF) by (rewrite G5, G4, G3, G2; cbn; apply u8_byte, land_ff_byte).
  assert (E4 : regs d5 0x1F4 = Z.land (Z.shiftr secno 8) 0xFF) by (rewrite G5, G4, G3; cbn; apply u8_byte, land_ff_byte).
  assert (E5 : regs d5 0x1F5 = Z.land (Z.shiftr secno 16) 0xFF) by (rewrite G5, G4; cbn; apply u8_byte, land_ff_byte).
  assert (E6 : regs d5 0x1F6 = drive_reg drive secno) by (rewrite G5; cbn; by apply u8_byte).
  exists d5. split; [done|]. split; [by do 4 (etrans; [eassumption|])|]. split; [done|]. split; [done|].
  unfold reg_by_number, reg_drive, reg_lba, reg_count. rewrite E2, E3, E4, E5, E6, B2.
  split_and!; [done|done|by apply lba_split|].
  destruct (decide (nsecs = 256)) as [->|]; [done|]. rewrite u8_byte by lia. rewrite bool_decide_eq_false_2 by lia. done.
Qed.

(** The sectors [n], [n + 1], ... of a drive, one after the other. *)
Fixpoint run_of (d : D) (v n : Z) (k : nat) : list Z :=
  match k with O => [] | S k => sectors d v n ++ run_of d v (n + 1) k end.

Lemma run_of_same d d' v k : (∀ w m, sectors d' w m = sectors d w m) → ∀ n, run_of d' v n k = run_of d v n k.
Proof. intros E. induction k as [|k IH]; intros n; [done|]. cbn [run_of]. by rewrite E, IH. Qed.

(** What a read of [k] sectors gives: their bytes and 0, or the bytes before the first
    defect and -1. *)
Fixpoint read_result (d : D) (v n : Z) (k : nat) : list Z * Z :=
  match k with
  | O => ([], 0)
  | S k => if defective d v n then ([], -1)
           else let x := read_result d v (n + 1) k in (sectors d v n ++ x.1, x.2)
  end.

Lemma read_result_same d d' v k : same_media d d' → ∀ n, read_result d' v n k = read_result d v n k.
Proof. intros [E1 E2]. induction k as [|k IH]; intros n; [done|]. cbn [read_result]. by rewrite E1, E2, IH. Qed.

Definition intact (d : D) (v n : Z) (k : nat) : Prop := ∀ m, n ≤ m < n + Z.of_nat k → defective d v m = false.

Lemma read_result_intact d v k : ∀ n, intact d v n k → read_result d v n k = (run_of d v n k, 0).
Proof.
  induction k as [|k IH]; intros n Hi; [done|]. cbn [read_result run_of]. rewrite (Hi n) by lia.
  rewrite IH; [done|]. intros m Hm. apply Hi. lia.
Qed.

Lemma read_result_defect d v k : ∀ n, ¬ intact d v n k → (read_result d v n k).2 = -1 ∧ (length (read_result d v n k).1 ≤ 512 * k)%nat.
Proof.
  induction k as [|k IH]; intros n Hi; [destruct Hi; intros m Hm; lia|]. cbn [read_result].
  destruct (defective d v n) eqn:E; [cbn; split; [done|lia]|]. destruct (IH (n + 1)) as [-> Hl].
  { intros Hn. apply Hi. intros m Hm. destruct (decide (m = n)) as [->|]; [done|]. apply Hn. lia. }
  cbn [fst snd]. rewrite length_app, ata_sector. split; [done|lia].
Qed.

Lemma intact_dec d v k n : intact d v n k ∨ ¬ intact d v n k.
Proof.
  revert n. induction k as [|k IH]; intros n; [left; intros m Hm; lia|].
  destruct (defective d v n) eqn:E; [right; intros Hi; rewrite Hi in E by lia; done|].
  destruct (IH (n + 1)) as [H|H]; [left|right].
  - intros m Hm. destruct (decide (m = n)) as [->|]; [done|]. apply H. lia.
  - intros Hi. apply H. intros m Hm. apply Hi. lia.
Qed.

Lemma intact_same d d' v n k : same_media d d' → intact d v n k → intact d' v n k.
Proof. intros [_ E] H m Hm. rewrite E. by apply H. Qed.

Definition read_phase (v n : Z) (k : nat) : ata_phase := match k with O => idle | S _ => reading v n k end.
Definition write_phase (v n : Z) (k : nat) : ata_phase := match k with O => idle | S _ => writing v n k end.

Lemma read_sectors_ok k : ∀ d v n,
  phase d = read_phase v n k →
  ∃ d', read_sectors patience k d = Ok (read_result d v n k, d') ∧ same_media d d' ∧ phase d' = idle.
Proof.
  induction k as [|k IH]; intros d v n Hp; [by exists d|]. cbn [read_sectors].
  destruct (wait_ok true d) as (r & d1 & R1 & Hr & [L1 _ L3 L4]). rewrite (bind_Ok _ _ _ _ _ R1).
  rewrite Hr by (by rewrite ?Hp). cbn [read_result].
  assert (Ew : will_fail d = defective d v n) by (unfold will_fail; by rewrite Hp). rewrite Ew in *.
  destruct (defective d v n) eqn:Ed; [by exists d1|]. rewrite bool_decide_eq_false_2 by lia.
  pose proof (ata_input d1 v n k L3) as Hin. rewrite L4, (sm_defects _ _ L1) in Hin. specialize (Hin Hp Ed).
  destruct (port_insl 0x1F0 128 d1) as [data d2] eqn:E. destruct Hin as (-> & S2 & D2 & P2).
  rewrite (bind_Ok (insl 0x1F0 (SECTSIZE / 4)) _ d1 (sectors d1 v n) d2) by (unfold insl; change (SECTSIZE / 4) with 128; by rewrite E).
  assert (M2 : same_media d d2) by (etrans; [exact L1|by split]).
  destruct (IH d2 v (n + 1)) as (d' & R & S' & P').
  { rewrite P2. by destruct k. }
  rewrite (bind_Ok _ _ _ _ _ R). exists d'. split; [|split; [by etrans|done]].
  rewrite (read_result_same d d2) by done. by rewrite (sm_sectors _ _ L1).
Qed.

(** The driver reads what is on the disk: on every drive that follows the protocol,
    however long it stays busy, [ide_read] of up to 256 sectors below 2^28 returns 0
    with their bytes in order, or -1 with those before the first sector the drive cannot
    read, and changes nothing. *)
Lemma ide_read_run secno drive nsecs d :
  0 ≤ secno < 2 ^ 28 → 1 ≤ nsecs ≤ 256 → phase d = idle →
  ∃ d', ide_read patience secno drive nsecs d = Ok (read_result d (drive mod 2) secno (Z.to_nat nsecs), d') ∧
    same_media d d' ∧ phase d' = idle.
Proof.
  intros Hs Hn Hi. unfold ide_read. rewrite (bool_decide_eq_true_2 (nsecs ≤ 256)) by lia. run_step.
  destruct (wait_ok false d) as (r & d1 & R1 & _ & W1). rewrite (bind_Ok _ _ _ _ _ R1). pose proof (waited_idle _ _ W1 Hi) as Hi1.
  destruct (registers_ok secno drive nsecs 0x20 d1 Hs Hn) as (d2 & R2 & S2 & P2 & Y2 & G1 & G2 & G3 & G4); [by apply W1|done|].
  destruct (ata_read d2 Y2 P2 G1) as (S3 & D3 & P3). set (d3 := port_outb 0x1F7 0x20 d2) in *.
  rewrite (bind_Ok _ _ d1 tt d3) by (rewrite R2; done).
  assert (M3 : same_media d d3) by (etrans; [apply W1|]; etrans; [exact S2|by split]).
  destruct (read_sectors_ok (Z.to_nat nsecs) d3 (drive mod 2) secno) as (d' & R & S' & P').
  { rewrite P3, G2, G3, G4. destruct (Z.to_nat nsecs) eqn:E; [lia|done]. }
  exists d'. rewrite R. split; [by rewrite (read_result_same d d3)|]. split; [by etrans|done].
Qed.

(** ** Writing *)

(** The sectors from [n] on hold the bytes of [src]. *)
Definition stored (d d' : D) (v n : Z) (k : nat) (src : list Z) : Prop :=
  run_of d' v n k = src ∧ ∀ w m, ¬ (w = v ∧ n ≤ m < n + Z.of_nat k) → sectors d' w m = sectors d w m.

Lemma run_of_agrees d d' v k : ∀ n, (∀ m, n ≤ m < n + Z.of_nat k → sectors d' v m = sectors d v m) → run_of d' v n k = run_of d v n k.
Proof.
  induction k as [|k IH]; intros n E; [done|]. cbn [run_of]. rewrite E by lia. f_equal. apply IH. intros m Hm. apply E. lia.
Qed.

Lemma write_sectors_ok k : ∀ d v n src,
  phase d = write_phase v n k → intact d v n k → length src = (512 * k)%nat →
  ∃ d', write_sectors patience k src d = Ok (0, d') ∧ stored d d' v n k src ∧ (∀ w m, defective d' w m = defective d w m) ∧ phase d' = idle.
Proof.
  induction k as [|k IH]; intros d v n src Hp Hi Hl.
  { exists d. split; [done|]. split; [|done]. split; [|done]. symmetry. by apply nil_length_inv. }
  cbn [write_sectors].
  destruct (wait_ok true d) as (r & d1 & R1 & Hr & [[L1 L2] _ L3 L4]). rewrite (bind_Ok _ _ _ _ _ R1).
  assert (Ew : will_fail d = false) by (unfold will_fail; rewrite Hp; apply (Hi n); lia).
  rewrite Hr by (by rewrite ?Hp). rewrite Ew in *. rewrite bool_decide_eq_false_2 by lia.
  change (Z.to_nat SECTSIZE) with 512%nat.
  destruct (ata_output d1 v n k (take 512 src) L3) as (S2 & D2 & P2); [by rewrite L4|rewrite L2; apply Hi; lia|rewrite length_take; lia|].
  set (d2 := port_outsl 0x1F0 (take 512 src) d1) in *. rewrite (bind_Ok (outsl 0x1F0 (take 512 src)) _ d1 tt d2) by done.
  destruct (IH d2 v (n + 1) (drop 512 src)) as (d' & R & [Hr' Ho] & D' & P').
  { rewrite P2. by destruct k. }
  { intros m Hm. rewrite D2, L2. apply Hi. lia. }
  { rewrite length_drop. lia. }
  exists d'. split; [done|]. split; [|split; [intros; congruence|done]]. split.
  - cbn [run_of]. rewrite Hr', Ho, S2 by lia. rewrite bool_decide_eq_true_2 by done. apply take_drop.
  - intros w m Hm. rewrite Ho, S2, L1 by lia. by rewrite bool_decide_eq_false_2 by lia.
Qed.

Lemma ide_write_run diskno secno src nsecs d :
  0 ≤ secno < 2 ^ 28 → 1 ≤ nsecs ≤ 256 → length src = (512 * Z.to_nat nsecs)%nat → phase d = idle →
  intact d (diskno mod 2) secno (Z.to_nat nsecs) →
  ∃ d', ide_write patience diskno secno src nsecs d = Ok (0, d') ∧
    stored d d' (diskno mod 2) secno (Z.to_nat nsecs) src ∧ (∀ w m, defective d' w m = defective d w m) ∧ phase d' = idle.
Proof.
  intros Hs Hn Hl Hi Hok. unfold ide_write. rewrite (bool_decide_eq_true_2 (nsecs ≤ 256)) by lia. run_step.
  destruct (wait_ok false d) as (r & d1 & R1 & _ & W1). rewrite (bind_Ok _ _ _ _ _ R1). pose proof (waited_idle _ _ W1 Hi) as Hi1.
  destruct (registers_ok secno diskno nsecs 0x30 d1 Hs Hn) as (d2 & R2 & S2 & P2 & Y2 & G1 & G2 & G3 & G4); [by apply W1|done|].
  destruct (ata_write d2 Y2 P2 G1) as (S3 & D3 & P3). set (d3 := port_outb 0x1F7 0x30 d2) in *.
  rewrite (bind_Ok _ _ d1 tt d3) by (rewrite R2; done).
  assert (M3 : same_media d d3) by (etrans; [apply W1|]; etrans; [exact S2|by split]).
  destruct (write_sectors_ok (Z.to_nat nsecs) d3 (diskno mod 2) secno src) as (d' & R & [Hr Ho] & D' & P').
  { rewrite P3, G2, G3, G4. destruct (Z.to_nat nsecs) eqn:E; [lia|done]. }
  { by apply (intact_same d). }
  { done. }
  destruct M3 as [M3 M4]. exists d'. split; [done|]. split; [|split; [intros; congruence|done]].
  split; [done|]. intros w m Hm. rewrite Ho by done. apply M3.
Qed.

(** What is written to the disk is read back: on every drive that follows the
    protocol, however long it stays busy, [ide_write] of up to 256 sectors without a
    defect returns 0, [ide_read] of the same sectors of the same drive then answers the
    same bytes in the same order, and no other sector has changed. *)
Theorem ide_write_read diskno secno src nsecs d :
  0 ≤ secno < 2 ^ 28 → 1 ≤ nsecs ≤ 256 → length src = (512 * Z.to_nat nsecs)%nat → phase d = idle →
  intact d (diskno mod 2) secno (Z.to_nat nsecs) →
  ∃ d' d'', ide_write patience diskno secno src nsecs d = Ok (0, d') ∧
    ide_read patience secno diskno nsecs d' = Ok ((src, 0), d'') ∧
    (∀ v n, ¬ (v = diskno mod 2 ∧ secno ≤ n < secno + nsecs) → sectors d'' v n = sectors d v n) ∧ phase d'' = idle.
Proof.
  intros Hs Hn Hl Hi Hok. destruct (ide_write_run diskno secno src nsecs d Hs Hn Hl Hi Hok) as (d1 & R1 & [Hr Ho] & D1 & P1).
  destruct (ide_read_run secno diskno nsecs d1 Hs Hn P1) as (d2 & R2 & [S2 _] & P2).
  rewrite read_result_intact, Hr in R2 by (intros m Hm; rewrite D1; by apply Hok).
  exists d1, d2. split_and!; try done. intros v n Hv. rewrite S2. apply Ho. lia.
Qed.
End transfers.

(** ** A drive *)

(** It is busy for two polls after each command and each sector; what is written to
    the busy drive is lost, and what is read from it is nothing. *)
Record demo_drive := Demo {
  dm_store : Z → Z → list Z; dm_bad : Z → Z → bool; dm_regs : Z → Z; dm_phase : ata_phase; dm_busy : nat }.

Definition dm_sector (d : demo_drive) (v n : Z) : list Z := resize 512 0 (dm_store d v n).
Definition dm_ready (d : demo_drive) : bool := bool_decide ((dm_busy d `min` 2)%nat = 0%nat).
Definition dm_go (d : demo_drive) (p : ata_phase) (b : nat) : demo_drive := Demo (dm_store d) (dm_bad d) (dm_regs d) p b.
Definition dm_fails (d : demo_drive) : bool :=
  match dm_phase d with idle => false | reading v n _ | writing v n _ => dm_bad d v n end.

#[export] Instance demo_ports : ide_ports demo_drive := {|
  port_inb p d :=
    match (dm_busy d `min` 2)%nat with
    | O => if dm_fails d then (0x41, dm_go d idle 0) else (0x40, d)
    | S b => (0x80, dm_go d (dm_phase d) b)
    end;
  port_outb p x d :=
    if negb (dm_ready d) then d
    else if bool_decide (p = 0x1F7) then
      let go q := dm_go d (q (reg_drive (dm_regs d)) (reg_lba (dm_regs d)) (reg_count (dm_regs d))) 2 in
      if bool_decide (x = 0x20) then go reading else if bool_decide (x = 0x30) then go writing else d
    else Demo (dm_store d) (dm_bad d) (λ q, if bool_decide (q = p) then x else dm_regs d q) (dm_phase d) (dm_busy d);
  port_insl p n d :=
    match dm_phase d with
    | reading v m (S k) => if dm_ready d then (dm_sector d v m, dm_go d (one_less (reading v) m k) 2) else ([], d)
    | _ => ([], d)
    end;
  port_outsl p data d :=
    match dm_phase d with
    | writing v m (S k) =>
        if dm_ready d then
          Demo (λ w n, if bool_decide (w = v ∧ n = m) then data else dm_store d w n) (dm_bad d) (dm_regs d)
            (one_less (writing v) m k) 2
        else d
    | _ => d
    end |}.

#[export] Instance demo_ata : ata demo_drive 3.
Proof.
  refine {| sectors := dm_sector; defective := dm_bad; regs := dm_regs; phase := dm_phase; ready := dm_ready;
            busy := λ d, (dm_busy d `min` 2)%nat |}.
  - intros d v n. apply length_resize.
  - intros d. lia.
  - intros d. cbn. destruct (dm_busy d `min` 2)%nat as [|b] eqn:E.
    + unfold dm_fails. destruct (dm_phase d) as [|v n k|v n k] eqn:Ep; [|destruct (dm_bad d v n) eqn:Eb..];
        cbn; split_and!; try done; unfold dm_ready; by rewrite E.
    + split_and!; try done. rewrite bool_decide_eq_false_2 by done. cbn [dm_go dm_busy dm_phase]. split; [done|lia].
  - intros d p x Hr Hi Hp. cbn. rewrite Hr. cbn [negb]. rewrite bool_decide_eq_false_2 by lia. done.
  - intros d Hr Hi Hb. cbn. by rewrite Hr.
  - intros d Hr Hi Hb. cbn. by rewrite Hr.
  - intros d v n k Hr Hp Hb. cbn. by rewrite Hp, Hr.
  - intros d v n k data Hr Hp Hb Hl. cbn. rewrite Hp, Hr. split; [|done]. intros w m. unfold dm_sector. cbn. case_bool_decide; [|done].
    by rewrite resize_all_alt.
Defined.

Definition demo_disk : demo_drive := Demo (λ _ _, []) (λ _ _, false) (λ _, 0) idle 1.

Lemma ide_write_read_witness :
  ∃ d' d'', ide_write 3 1 0x1234567 (replicate 1024 7) 2 demo_disk = Ok (0, d') ∧
    ide_read 3 0x1234567 1 2 d' = Ok ((replicate 1024 7, 0), d'').
Proof.
  destruct (ide_write_read 1 0x1234567 (replicate 1024 7) 2 demo_disk) as (d' & d'' & R1 & R2 & _); [lia|lia|reflexivity|reflexivity|done|].
  exists d', d''. split; [exact R1|exact R2].
Defined.
