(* ===== verification/PartitionProofs.v ===== *)
(** * The partition table: [partition] finds what is on the disk

    [holds_table] is the layout of a table of partitions, as it is written, and
    [chain] the tables of an extended partition, each the first entry of one and the link
    to the next.  The theorem joins the scan of kernel/block/ide.c with the driver it
    reads through. *)

From S2P Require Import Prelude Ide IdeProofs.

Local Open Scope Z_scope.

Section partition_proofs.
Context {D : Type} `{!ide_ports D} {patience : nat} `{!ata D patience}.

(** The same drives, idle, perhaps with other partitions in the tables. *)
Record scanned (s s' : drives D) : Prop := {
  sc_media : same_media (hw s) (hw s');
  sc_idle : phase (hw s') = idle }.

Lemma get_part_table_ok s v sec :
  phase (hw s) = idle → 0 ≤ v < 2 → 0 ≤ sec < 2 ^ 28 → defective (hw s) v sec = false →
  ∃ s', get_part_table patience v sec s = Ok (part_entry (sectors (hw s) v sec) <$> seq 0 4, s') ∧ scanned s s' ∧ hd_infos s' = hd_infos s.
Proof.
  intros Hi Hv Hs Hdf. destruct (ide_read_run sec v 1 (hw s) Hs ltac:(lia) Hi) as (d & R & S & P).
  rewrite (Z.mod_small v 2) in R by lia. rewrite read_result_intact in R by (intros m Hm; by replace m with sec by lia).
  assert (E1 : u32 sec = sec) by (apply Z.mod_small; lia). assert (E2 : u32 v = v) by (apply Z.mod_small; lia).
  exists (set_hw d s). split; [|done]. unfold get_part_table. rewrite E1, E2.
  rewrite (bind_Ok (on_hw _) _ s _ (set_hw d s) ltac:(unfold on_hw; rewrite R; reflexivity)).
  change (Z.to_nat 1) with 1%nat. cbn [run_of]. by rewrite app_nil_r.
Qed.

Lemma edit_info_run (s : drives D) v g h :
  hd_infos s !! Z.to_nat v = Some h → edit_info v g s = Ok (tt, set_infos (<[Z.to_nat v := g h]> (hd_infos s)) s).
Proof. intros Hh. unfold edit_info. run_step. by rewrite (bind_Ok _ _ _ _ _ (of_option_Some _ _ _ Hh)). Qed.

Lemma load_logical_run (s : drives D) v i h p :
  hd_infos s !! Z.to_nat v = Some h → logical h !! Z.to_nat i = Some p → load_logical v i s = Ok (p, s).
Proof. intros Hh Hp. unfold load_logical. run_step. rewrite (bind_Ok _ _ _ _ _ (of_option_Some _ _ _ Hh)). by apply of_option_Some. Qed.

Lemma load_primary_run (s : drives D) v i h p :
  hd_infos s !! Z.to_nat v = Some h → primary h !! Z.to_nat i = Some p → load_primary v i s = Ok (p, s).
Proof. intros Hh Hp. unfold load_primary. run_step. rewrite (bind_Ok _ _ _ _ _ (of_option_Some _ _ _ Hh)). by apply of_option_Some. Qed.

(** The logical partitions as the scan sees them. *)
Fixpoint logicals (d : D) (v ext s : Z) (n : nat) : list (Z * Z) :=
  match n with
  | O => []
  | S n =>
      let p0 := part_entry (sectors d v s) 0 in
      let p1 := part_entry (sectors d v s) 1 in
      (i32 (s + p_start p0), p_nr p0) ::
        if bool_decide (p_sys_ind p1 = 0) then [] else logicals d v ext (i32 (ext + p_start p1)) n
  end.

(** The tables of the chain are on the disk and can be read. *)
Fixpoint chain_ok (d : D) (v ext s : Z) (n : nat) : Prop :=
  match n with
  | O => True
  | S n =>
      (0 ≤ s < 2 ^ 28 ∧ defective d v s = false) ∧
      let p1 := part_entry (sectors d v s) 1 in
      (p_sys_ind p1 ≠ 0 → chain_ok d v ext (i32 (ext + p_start p1)) n)
  end.

Lemma logicals_same d d' v ext n : same_media d d' → ∀ s,
  logicals d' v ext s n = logicals d v ext s n ∧ (chain_ok d v ext s n → chain_ok d' v ext s n).
Proof.
  intros [E E']. induction n as [|n IH]; intros s; [done|]. cbn [logicals chain_ok]. rewrite !E, !E'.
  destruct (IH (i32 (ext + p_start (part_entry (sectors d v s) 1)))) as [-> H]. split; [done|]. intros [H1 H2]. split; [done|]. auto.
Qed.

(** The entries of [logical] from [base] on. *)
Definition logicals_at (h : hd_info) (base : Z) (l : list (Z * Z)) : Prop :=
  ∀ i x, l !! i = Some x → ∃ q, logical h !! Z.to_nat (base + Z.of_nat i) = Some q ∧ (start_sect q, nr_sects q) = x.

Definition same_outside (h h' : hd_info) (base n : Z) : Prop :=
  primary h' = primary h ∧ length (logical h') = length (logical h) ∧
  ∀ j, ¬ (base ≤ Z.of_nat j < base + n) → logical h' !! j = logical h !! j.

Lemma extended_loop_ok v ext n : ∀ st h s base,
  phase (hw st) = idle → 0 ≤ v < 2 → hd_infos st !! Z.to_nat v = Some h → chain_ok (hw st) v ext s n →
  0 ≤ base → base + Z.of_nat n ≤ Z.of_nat (length (logical h)) →
  ∃ st' h', extended_loop patience n v ext s base st = Ok (tt, st') ∧ scanned st st' ∧
    hd_infos st' = <[Z.to_nat v := h']> (hd_infos st) ∧ same_outside h h' base (Z.of_nat n) ∧
    logicals_at h' base (logicals (hw st) v ext s n).
Proof.
  induction n as [|n IH]; intros st h s base Hi Hv Hh Hc Hb Hl.
  { exists st, h. split; [done|]. split; [done|]. split; [by rewrite list_insert_id|]. split; [done|]. intros i x Hx. by destruct i. }
  destruct Hc as [[Hs Hdf] Hc]. cbn [extended_loop logicals].
  destruct (get_part_table_ok st v s Hi Hv Hs Hdf) as (st1 & R1 & [S1 P1] & I1). rewrite (bind_Ok _ _ _ _ _ R1).
  set (p0 := part_entry (sectors (hw st) v s) 0) in *. set (p1 := part_entry (sectors (hw st) v s) 1) in *.
  rewrite (bind_Ok (of_option _) _ st1 p0 st1 (of_option_Some _ _ _ eq_refl)).
  rewrite (bind_Ok (of_option _) _ st1 p1 st1 (of_option_Some _ _ _ eq_refl)).
  destruct (lookup_lt_is_Some_2 (logical h) (Z.to_nat base)) as [old Hold]; [lia|].
  rewrite <- I1 in Hh. rewrite (bind_Ok _ _ _ _ _ (load_logical_run _ _ _ _ _ Hh Hold)).
  set (q := Part (i32 (s + p_start p0)) (p_nr p0) (sys_ind old)).
  rewrite (bind_Ok _ _ _ _ _ (edit_info_run st1 v _ h Hh)). set (h1 := set_logical base q h). set (st2 := set_infos _ st1).
  assert (Hh2 : hd_infos st2 !! Z.to_nat v = Some h1) by (apply list_lookup_insert_eq; by eapply lookup_lt_Some).
  assert (Hq : logical h1 !! Z.to_nat base = Some q) by (apply list_lookup_insert_eq; lia).
  assert (Hout : same_outside h h1 base 1).
  { split; [done|]. split; [apply length_insert|]. intros j Hj. apply list_lookup_insert_ne. lia. }
  destruct (bool_decide_reflect (p_sys_ind p1 = 0)) as [E|E].
  - exists st2, h1. split; [done|]. split; [done|]. split; [cbn [st2 set_infos hd_infos]; by rewrite I1|]. split.
    + destruct Hout as (O1 & O2 & O3). split; [done|]. split; [done|]. intros j Hj. apply O3. lia.
    + intros i x Hx. destruct i as [|i]; [|by destruct i]. injection Hx as <-. exists q. rewrite Z.add_0_r. done.
  - destruct (logicals_same (hw st) (hw st2) v ext n S1 (i32 (ext + p_start p1))) as [El Ec].
    destruct (IH st2 h1 (i32 (ext + p_start p1)) (base + 1)) as (st' & h' & R & [S' P'] & I' & (O1 & O2 & O3) & L'); try done.
    + apply Ec. by apply Hc.
    + lia.
    + destruct Hout as (_ & -> & _). lia.
    + exists st', h'. split; [done|]. split; [split; [by etrans|done]|].
      split; [rewrite I'; cbn [st2 set_infos hd_infos]; by rewrite list_insert_insert_eq, I1|]. split.
      * destruct Hout as (A1 & A2 & A3). split; [congruence|]. split; [congruence|]. intros j Hj. rewrite O3, A3 by lia. done.
      * intros [|i] x Hx.
        -- injection Hx as <-. exists q. split; [|done]. rewrite O3 by lia. by rewrite Z.add_0_r.
        -- rewrite El in L'. destruct (L' i x Hx) as (q' & Hq' & Ex). exists q'. split; [|done]. rewrite <- Hq'. f_equal. lia.
Qed.

(** ** The first table *)

(** What the entry [p] of the first table says of the partition [nr], which is the
    entry [nr] of [primary]; an extended one has sixteen places of [logical]. *)
Definition recorded (d : D) (v : Z) (h : hd_info) (nr : Z) (p : partable) : Prop :=
  p_sys_ind p ≠ 0 → ∃ q, primary h !! Z.to_nat nr = Some q ∧ start_sect q = p_start p ∧ nr_sects q = p_nr p ∧
    (p_sys_ind p = EXT_PART →
       sys_ind q = EXT_PART ∧ logicals_at h (16 * (nr - 1)) (logicals d v (p_start p) (p_start p) 16)).

(** The entries before [nr] stay. *)
Definition same_below (h h' : hd_info) (nr : Z) : Prop :=
  length (primary h') = length (primary h) ∧ length (logical h') = length (logical h) ∧
  (∀ j, Z.of_nat j < nr → primary h' !! j = primary h !! j) ∧
  (∀ j, Z.of_nat j < 16 * (nr - 1) → logical h' !! j = logical h !! j).

Lemma same_below_trans h1 h2 h3 n m : same_below h1 h2 n → same_below h2 h3 m → n ≤ m → same_below h1 h3 n.
Proof.
  intros (A1 & A2 & A3 & A4) (B1 & B2 & B3 & B4) Hn. split; [congruence|]. split; [congruence|].
  split; intros j Hj; [rewrite B3, A3 by lia|rewrite B4, A4 by lia]; done.
Qed.

Lemma recorded_below d v h h' nr p : same_below h h' (nr + 1) → 1 ≤ nr → recorded d v h nr p → recorded d v h' nr p.
Proof.
  intros (_ & _ & B3 & B4) Hn Hr Hp. destruct (Hr Hp) as (q & Q1 & Q2 & Q3 & Q4). exists q. rewrite B3 by lia. split_and!; try done.
  intros E. destruct (Q4 E) as [Q5 Q6]. split; [done|]. intros i x Hx. destruct (Q6 i x Hx) as (q' & Hq' & Ex). exists q'. split; [|done].
  assert (Hi : (i < 16)%nat).
  { apply lookup_lt_Some in Hx. eapply Nat.lt_le_trans; [exact Hx|]. generalize (p_start p) at 2 as s. generalize 16%nat as n.
    induction n as [|n IH]; intros s; [done|]. cbn [logicals length]. apply le_n_S. case_bool_decide; [apply Nat.le_0_l|apply IH]. }
  rewrite <- Hq'. apply B4. lia.
Qed.

Lemma recorded_same d d' v h nr p : same_media d d' → recorded d' v h nr p → recorded d v h nr p.
Proof.
  intros E Hr Hp. destruct (Hr Hp) as (q & Q1 & Q2 & Q3 & Q4). exists q. split; [exact Q1|]. split; [exact Q2|]. split; [exact Q3|].
  intros Ex. destruct (Q4 Ex) as [Q5 Q6]. split; [exact Q5|]. rewrite (proj1 (logicals_same d d' v _ _ E _)) in Q6. exact Q6.
Qed.

(** One entry: its place in [primary], and its logical partitions. *)
Lemma primary_entry_ok st h v nr p old :
  phase (hw st) = idle → 0 ≤ v < 2 → hd_infos st !! Z.to_nat v = Some h → length (primary h) = 5%nat → length (logical h) = 64%nat →
  1 ≤ nr ≤ 4 → (p_sys_ind p = EXT_PART → chain_ok (hw st) v (p_start p) (p_start p) 16) → primary h !! Z.to_nat nr = Some old →
  ∃ st' h', (edit_info v (set_primary nr (Part (p_start p) (p_nr p) (sys_ind old))) ;;
      if bool_decide (p_sys_ind p = EXT_PART) then
        edit_info v (set_primary nr (Part (p_start p) (p_nr p) EXT_PART)) ;; partition_extended patience (5 * v + nr)
      else mret tt) st = Ok (tt, st') ∧ scanned st st' ∧ hd_infos st' = <[Z.to_nat v := h']> (hd_infos st) ∧
    recorded (hw st) v h' nr p ∧ same_below h h' nr.
Proof.
  intros Hi Hv Hh Hp5 Hl64 Hnr Hc Hold. rewrite (bind_Ok _ _ _ _ _ (edit_info_run st v _ h Hh)).
  set (h1 := set_primary nr _ h). set (st1 := set_infos _ st).
  assert (Hh1 : hd_infos st1 !! Z.to_nat v = Some h1) by (apply list_lookup_insert_eq; by eapply lookup_lt_Some).
  assert (B1 : same_below h h1 nr).
  { split; [apply length_insert|]. split; [done|]. split; [|done]. intros j Hj. apply list_lookup_insert_ne. lia. }
  destruct (bool_decide_reflect (p_sys_ind p = EXT_PART)) as [E|E].
  2:{ exists st1, h1. split; [done|]. split; [done|]. split; [done|]. split; [|done]. intros _. eexists.
      split; [apply list_lookup_insert_eq; lia|]. split_and!; done. }
  rewrite (bind_Ok _ _ _ _ _ (edit_info_run st1 v _ h1 Hh1)). set (q := Part (p_start p) (p_nr p) EXT_PART).
  set (h2 := set_primary nr q h1). set (st2 := set_infos _ st1).
  assert (Hh2 : hd_infos st2 !! Z.to_nat v = Some h2) by (apply list_lookup_insert_eq; by eapply lookup_lt_Some).
  assert (Hq : primary h2 !! Z.to_nat nr = Some q) by (apply list_lookup_insert_eq; cbn [h1 set_primary primary]; rewrite length_insert; lia).
  unfold partition_extended. assert (Ed : DRV_OF_DEV (5 * v + nr) = v).
  { unfold DRV_OF_DEV, MAX_PRIM, MAX_DRIVES, NR_PRIM_DRIVE, NR_PART_DRIVE. rewrite bool_decide_eq_true_2 by lia.
    Z.to_euclidean_division_equations. lia. }
  assert (Ej : (5 * v + nr) mod NR_PRIM_DRIVE = nr).
  { unfold NR_PRIM_DRIVE, NR_PART_DRIVE. Z.to_euclidean_division_equations. lia. }
  cbv zeta. rewrite Ed, Ej. rewrite (bind_Ok _ _ _ _ _ (load_primary_run _ _ _ _ _ Hh2 Hq)). cbn [q start_sect].
  unfold NR_LOG_PART. change (Z.to_nat 16) with 16%nat.
  destruct (extended_loop_ok v (p_start p) 16 st2 h2 (p_start p) ((nr - 1) * 16)) as (st' & h' & R & [S P] & I & (O1 & O2 & O3) & L); try done.
  - by apply Hc.
  - lia.
  - cbn [h2 h1 set_primary logical]. rewrite Hl64. lia.
  - exists st', h'. split; [done|]. split; [by split|].
    split; [rewrite I; cbn [st2 st1 set_infos hd_infos]; by rewrite !list_insert_insert_eq|]. split.
    + intros _. exists q. rewrite O1. split_and!; try done. intros _. split; [done|]. replace (16 * (nr - 1)) with ((nr - 1) * 16) by lia. exact L.
    + split; [rewrite O1; cbn [h2 h1 set_primary primary]; by rewrite !length_insert|]. split; [by rewrite O2|]. split; intros j Hj.
      * rewrite O1. cbn [h2 h1 set_primary primary]. rewrite !list_lookup_insert_ne by lia. done.
      * rewrite O3 by lia. done.
Qed.

Lemma primary_loop_ok v tbl : ∀ st h nr,
  phase (hw st) = idle → 0 ≤ v < 2 → hd_infos st !! Z.to_nat v = Some h → length (primary h) = 5%nat → length (logical h) = 64%nat →
  1 ≤ nr → nr + Z.of_nat (length tbl) ≤ 5 →
  Forall (λ p, p_sys_ind p = EXT_PART → chain_ok (hw st) v (p_start p) (p_start p) 16) tbl →
  ∃ st' h', primary_loop patience tbl (5 * v) v nr st = Ok (Z.of_nat (length (filter (λ p, p_sys_ind p ≠ 0) tbl)), st') ∧
    scanned st st' ∧ hd_infos st' = <[Z.to_nat v := h']> (hd_infos st) ∧ same_below h h' nr ∧
    ∀ i p, tbl !! i = Some p → recorded (hw st) v h' (nr + Z.of_nat i) p.
Proof.
  induction tbl as [|p tbl IH]; intros st h nr Hi Hv Hh H5 H64 Hnr Hl Hc.
  { exists st, h. split; [done|]. split; [done|]. split; [by rewrite list_insert_id|]. split; [by split_and!|]. intros i p Hp. by destruct i. }
  apply Forall_cons in Hc as [Hc Hcs]. cbn [primary_loop length] in *.
  destruct (bool_decide_reflect (p_sys_ind p = 0)) as [E|E].
  - destruct (IH st h (nr + 1) Hi Hv Hh H5 H64) as (st' & h' & R & Sc & I & B & Hr); [lia|lia|done|].
    rewrite filter_cons_False by (intros Hn; by apply Hn). exists st', h'. split; [done|]. split; [done|]. split; [done|].
    split; [apply (same_below_trans h h h' nr (nr + 1)); [by split_and!|done|lia]|].
    intros [|i] x Hx; [injection Hx as <-; intros Hn; by destruct Hn|]. replace (nr + Z.of_nat (S i)) with (nr + 1 + Z.of_nat i) by lia. by apply Hr.
  - destruct (lookup_lt_is_Some_2 (primary h) (Z.to_nat nr)) as [old Hold]; [lia|].
    rewrite (bind_Ok _ _ _ _ _ (load_primary_run _ _ _ _ _ Hh Hold)).
    destruct (primary_entry_ok st h v nr p old Hi Hv Hh H5 H64) as (st1 & h1 & R1 & [S1 P1] & I1 & Hr1 & B1); [lia|done|done|].
    rewrite <- bind_assoc. rewrite (bind_Ok _ _ _ _ _ R1).
    destruct (IH st1 h1 (nr + 1)) as (st' & h' & R & [S' P'] & I & B & Hr); try done.
    + rewrite I1. apply list_lookup_insert_eq. by eapply lookup_lt_Some.
    + by destruct B1 as [-> _].
    + by destruct B1 as (_ & -> & _).
    + lia.
    + lia.
    + eapply Forall_impl; [exact Hcs|]. intros x Hx Ex. by apply (logicals_same (hw st)), Hx.
    + rewrite (bind_Ok _ _ _ _ _ R). rewrite filter_cons_True by done. exists st', h'. split; [unfold mret, M_ret; do 2 f_equal; simpl; lia|].
      split; [split; [by etrans|done]|]. split; [by rewrite I, I1, list_insert_insert_eq|].
      split; [apply (same_below_trans h h1 h' nr (nr + 1)); [done|done|lia]|].
      intros [|i] x Hx; [injection Hx as <-; rewrite Z.add_0_r; by apply (recorded_below _ _ h1)|].
      replace (nr + Z.of_nat (S i)) with (nr + 1 + Z.of_nat i) by lia. apply (recorded_same _ (hw st1)); [exact S1|by apply Hr].
Qed.

Lemma partition_run s h v :
  phase (hw s) = idle → 0 ≤ v < 2 → hd_infos s !! Z.to_nat v = Some h → length (primary h) = 5%nat → length (logical h) = 64%nat →
  defective (hw s) v 0 = false →
  let tbl := part_entry (sectors (hw s) v 0) <$> seq 0 4 in
  Forall (λ p, p_sys_ind p = EXT_PART → chain_ok (hw s) v (p_start p) (p_start p) 16) tbl →
  Exists (λ p, p_sys_ind p ≠ 0) tbl →
  ∃ s' h', partition patience (NR_PRIM_DRIVE * v) P_PRIMARY s = Ok (tt, s') ∧ scanned s s' ∧
    hd_infos s' = <[Z.to_nat v := h']> (hd_infos s) ∧
    ∀ i p, tbl !! i = Some p → recorded (hw s) v h' (1 + Z.of_nat i) p.
Proof.
  intros Hi Hv Hh H5 H64 Hdf tbl Hc Hex. change (NR_PRIM_DRIVE * v) with (5 * v).
  assert (Ed : DRV_OF_DEV (5 * v) = v).
  { unfold DRV_OF_DEV, MAX_PRIM, MAX_DRIVES, NR_PRIM_DRIVE, NR_PART_DRIVE. rewrite bool_decide_eq_true_2 by lia.
    Z.to_euclidean_division_equations. lia. }
  unfold partition. rewrite bool_decide_eq_true_2 by done. cbv zeta. rewrite Ed.
  destruct (get_part_table_ok s v 0 Hi Hv ltac:(lia) Hdf) as (s1 & R1 & [S1 P1] & I1). rewrite (bind_Ok _ _ _ _ _ R1). fold tbl.
  destruct (primary_loop_ok v tbl s1 h 1) as (s' & h' & R & [Sc P] & I & _ & Hr); try done.
  - by rewrite I1.
  - eapply Forall_impl; [exact Hc|]. intros x Hx Ex. by apply (logicals_same (hw s)), Hx.
  - rewrite (bind_Ok _ _ _ _ _ R). rewrite (bool_decide_eq_true_2 (Z.of_nat _ ≠ 0)).
    2:{ apply Exists_exists in Hex as (p & Hp & Hu). intros E. assert (Hin : p ∈ filter (λ p, p_sys_ind p ≠ 0) tbl) by by apply list_elem_of_filter.
        destruct (filter _ tbl); [by apply elem_of_nil in Hin|simpl in E; lia]. }
    exists s', h'. split; [done|]. split; [split; [by etrans|done]|]. split; [by rewrite I, I1|].
    intros i p Hp. apply (recorded_same _ (hw s1)); [exact S1|by apply Hr].
Qed.
(** ** The layout of a table *)

(** An entry: four bytes nobody reads, the type, three more, and the start and the size
    in sectors, low byte first. *)
Record pentry := Pentry { e_front : list Z; e_type : Z; e_back : list Z; e_start : Z; e_size : Z }.

Definition le4 (x : Z) : list Z := [x mod 2 ^ 8; x / 2 ^ 8 mod 2 ^ 8; x / 2 ^ 16 mod 2 ^ 8; x / 2 ^ 24].

Definition encode (e : pentry) : list Z := e_front e ++ [e_type e] ++ e_back e ++ le4 (e_start e) ++ le4 (e_size e).

Definition pentry_ok (e : pentry) : Prop :=
  length (e_front e) = 4%nat ∧ length (e_back e) = 3%nat ∧ 0 ≤ e_type e < 2 ^ 8 ∧ 0 ≤ e_start e < 2 ^ 31 ∧ 0 ≤ e_size e < 2 ^ 31.

(** The table is behind the 446 bytes of a boot loader. *)
Definition holds_table (sector : list Z) (es : list pentry) : Prop :=
  length es = 4%nat ∧ Forall pentry_ok es ∧
  ∃ code rest, length code = 446%nat ∧ sector = code ++ concat (encode <$> es) ++ rest.

(** At most [n] logical partitions of the extended one at [ext], as start and size; the
    table of the first is at [s]. *)
Inductive chain (d : D) (v ext : Z) : Z → nat → list (Z * Z) → Prop :=
| chain_full s : chain d v ext s 0 []
| chain_last s n e0 e1 es :
    0 ≤ s < 2 ^ 28 → defective d v s = false → holds_table (sectors d v s) (e0 :: e1 :: es) → s + e_start e0 < 2 ^ 31 →
    e_type e1 = 0 → chain d v ext s (S n) [(s + e_start e0, e_size e0)]
| chain_next s n e0 e1 es l :
    0 ≤ s < 2 ^ 28 → defective d v s = false → holds_table (sectors d v s) (e0 :: e1 :: es) → s + e_start e0 < 2 ^ 31 →
    e_type e1 ≠ 0 → ext + e_start e1 < 2 ^ 31 → chain d v ext (ext + e_start e1) n l →
    chain d v ext s (S n) ((s + e_start e0, e_size e0) :: l).

Lemma le_le4 x : 0 ≤ x < 2 ^ 31 → i32 (le (le4 x)) = x.
Proof.
  intros Hx. assert (E : le (le4 x) = x) by (unfold le, le4; cbn [foldr]; Z.to_euclidean_division_equations; lia).
  rewrite E. unfold i32. rewrite Z.mod_small; lia.
Qed.

Lemma encode_length e : pentry_ok e → length (encode e) = 16%nat.
Proof. intros (H1 & H2 & _). unfold encode. rewrite !length_app, H1, H2. done. Qed.

Lemma concat_length es : Forall pentry_ok es → length (concat (encode <$> es)) = (16 * length es)%nat.
Proof. induction 1 as [|e es He Hes IH]; [done|]. cbn [fmap list_fmap concat length]. rewrite length_app, encode_length by done. lia. Qed.

(** The bytes of the entry [i]. *)
Lemma table_bytes sector es i e :
  holds_table sector es → es !! i = Some e → ∃ front rest, length front = (446 + 16 * i)%nat ∧ sector = front ++ encode e ++ rest.
Proof.
  intros (_ & Hok & code & rest & Hc & ->) Hi. apply list_elem_of_split_length in Hi as (l1 & l2 & -> & ->).
  apply Forall_app in Hok as [Hok _]. rewrite fmap_app, concat_app. cbn [fmap list_fmap concat].
  exists (code ++ concat (encode <$> l1)), (concat (encode <$> l2) ++ rest).
  rewrite length_app, Hc, concat_length by done. split; [done|]. by rewrite !app_assoc.
Qed.

Lemma le_at_in (front mid rest l : list Z) off n k :
  length front = off → length mid = k → length l = n → le_at (front ++ mid ++ l ++ rest) (off + k) n = le l.
Proof.
  intros <- <- <-. unfold le_at. rewrite app_assoc, <- length_app, drop_app_length, take_app_length. done.
Qed.

(** What the scan makes of an entry. *)
Lemma part_entry_ok sector es i e :
  holds_table sector es → es !! i = Some e →
  let p := part_entry sector i in
  (p_sys_ind p = 0 ↔ e_type e = 0) ∧ (p_sys_ind p = EXT_PART ↔ e_type e = 5) ∧ p_start p = e_start e ∧ p_nr p = e_size e.
Proof.
  intros Ht Hi p. pose proof Ht as (_ & Hok & _). destruct (proj1 (Forall_lookup _ _) Hok i e Hi) as (H1 & H2 & H3 & H4 & H5).
  destruct (table_bytes sector es i e Ht Hi) as (front & rest & Hf & Es).
  assert (Et : p_sys_ind p = i8 (e_type e)).
  { subst p. cbn [part_entry p_sys_ind]. f_equal. rewrite Es. unfold encode. rewrite <- !app_assoc.
    rewrite (le_at_in front (e_front e) _ [e_type e]) by done. cbn. lia. }
  assert (E8 : p_start p = e_start e).
  { subst p. cbn [part_entry p_start]. etrans; [|by apply (le_le4 (e_start e))]. f_equal. rewrite Es. unfold encode.
    rewrite <- !app_assoc. rewrite (app_assoc [e_type e]), (app_assoc (e_front e)).
    rewrite (le_at_in front (e_front e ++ [e_type e] ++ e_back e) _ (le4 (e_start e))); [done|done| |done]. rewrite !length_app, H1, H2. done. }
  assert (E12 : p_nr p = e_size e).
  { subst p. cbn [part_entry p_nr]. etrans; [|by apply (le_le4 (e_size e))]. f_equal. rewrite Es. unfold encode.
    rewrite <- !app_assoc. rewrite (app_assoc (e_back e)), (app_assoc [e_type e]), (app_assoc (e_front e)).
    rewrite (le_at_in front (e_front e ++ [e_type e] ++ e_back e ++ le4 (e_start e)) _ (le4 (e_size e))); [done|done| |done].
    rewrite !length_app, H1, H2. done. }
  rewrite Et. split_and!; try done; unfold i8, EXT_PART; Z.to_euclidean_division_equations; lia.
Qed.

Lemma chain_logicals d v ext s n l : 0 ≤ ext → chain d v ext s n l → chain_ok d v ext s n ∧ logicals d v ext s n = l.
Proof.
  intros Hext. induction 1 as [s|s n e0 e1 es Hs Hd Ht Hb Hz|s n e0 e1 es l Hs Hd Ht Hb Hz He Hc [IH1 IH2]]; [done|..].
  all: destruct (part_entry_ok _ _ 0 e0 Ht eq_refl) as (_ & _ & A3 & A4).
  all: destruct (part_entry_ok _ _ 1 e1 Ht eq_refl) as (B1 & _ & B3 & _).
  all: pose proof Ht as (_ & Hok & _); apply Forall_cons in Hok as [(_ & _ & _ & H0 & _) Hok];
    apply Forall_cons in Hok as [(_ & _ & _ & H1 & _) _].
  all: assert (Ei : ∀ x, 0 ≤ x < 2 ^ 31 → i32 x = x) by (intros x Hx; unfold i32; rewrite Z.mod_small; lia).
  all: cbn [chain_ok logicals]; cbv zeta; rewrite A3, A4, B3, (Ei (s + e_start e0)) by lia.
  - rewrite bool_decide_eq_true_2 by by apply B1. split; [|done]. split; [done|]. intros Hn. by destruct Hn; apply B1.
  - rewrite bool_decide_eq_false_2 by (intros Hn; by apply Hz, B1). rewrite (Ei (ext + e_start e1)), IH2 by lia. done.
Qed.

(** C39: The scan of a drive finds its partitions.  For every drive that follows the ATA
    protocol, when its first sector holds a table of which an entry is in use and the drive can
    read that sector and the tables of its extended partitions: [partition] returns,
    and every entry in use stands in [primary] with its start and its size; an extended
    one is marked as such and has its chain of logical partitions, up to sixteen, with
    their starts and sizes in the places of [logical] that are its own. *)
Theorem partition_finds_all s h v es :
  phase (hw s) = idle → 0 ≤ v < 2 → hd_infos s !! Z.to_nat v = Some h → length (primary h) = 5%nat → length (logical h) = 64%nat →
  defective (hw s) v 0 = false → holds_table (sectors (hw s) v 0) es →
  (∀ e, e ∈ es → e_type e = 5 → ∃ l, chain (hw s) v (e_start e) (e_start e) 16 l) →
  (∃ e, e ∈ es ∧ e_type e ≠ 0) →
  ∃ s' h', partition patience (NR_PRIM_DRIVE * v) P_PRIMARY s = Ok (tt, s') ∧ scanned s s' ∧
    hd_infos s' = <[Z.to_nat v := h']> (hd_infos s) ∧
    ∀ i e, es !! i = Some e → e_type e ≠ 0 →
      ∃ q, primary h' !! S i = Some q ∧ start_sect q = e_start e ∧ nr_sects q = e_size e ∧
        (e_type e = 5 → sys_ind q = 5 ∧ ∀ l, chain (hw s) v (e_start e) (e_start e) 16 l →
           ∀ j x, l !! j = Some x → ∃ q', logical h' !! (16 * i + j)%nat = Some q' ∧ (start_sect q', nr_sects q') = x).
Proof.
  intros Hi Hv Hh H5 H64 Hdf Ht Hch (e & He & Hne).
  assert (Hlk : ∀ i p, (part_entry (sectors (hw s) v 0) <$> seq 0 4) !! i = Some p → ∃ e, es !! i = Some e ∧ p = part_entry (sectors (hw s) v 0) i).
  { intros i p Hp. apply list_lookup_fmap_Some in Hp as (j & -> & Hj). apply lookup_seq in Hj as [-> Hj].
    destruct (lookup_lt_is_Some_2 es i) as [e' He']; [rewrite (proj1 Ht); lia|]. by exists e'. }
  assert (Hok : ∀ i e, es !! i = Some e → 0 ≤ e_start e).
  { intros i e' He'. destruct Ht as (_ & Hok & _). destruct (proj1 (Forall_lookup _ _) Hok i e' He'). lia. }
  assert (Htbl : ∀ i e, es !! i = Some e → (part_entry (sectors (hw s) v 0) <$> seq 0 4) !! i = Some (part_entry (sectors (hw s) v 0) i)).
  { intros i e' He'. rewrite list_lookup_fmap, lookup_seq_lt; [done|]. apply lookup_lt_Some in He'. rewrite (proj1 Ht) in He'. done. }
  destruct (partition_run s h v Hi Hv Hh H5 H64 Hdf) as (s' & h' & R & Sc & I & Hr).
  - apply Forall_lookup. intros i p Hp Ex. destruct (Hlk i p Hp) as (e' & He' & ->).
    destruct (part_entry_ok _ _ i e' Ht He') as (_ & A2 & A3 & _). rewrite A3.
    destruct (Hch e') as [l Hl]; [by eapply list_elem_of_lookup_2|by apply A2|].
    by apply (chain_logicals _ _ _ _ _ l (Hok i e' He')).
  - apply list_elem_of_lookup_1 in He as [i He]. apply Exists_exists. exists (part_entry (sectors (hw s) v 0) i).
    split; [by eapply list_elem_of_lookup_2, Htbl|]. intros Ez. by apply Hne, (part_entry_ok _ _ i e Ht He).
  - exists s', h'. split; [done|]. split; [done|]. split; [done|]. intros i e' He' Hne'.
    destruct (part_entry_ok _ _ i e' Ht He') as (A1 & A2 & A3 & A4).
    destruct (Hr i _ (Htbl i e' He')) as (q & Q1 & Q2 & Q3 & Q4); [by intros ?%A1|]. exists q.
    split; [rewrite <- Q1; f_equal; lia|]. split; [congruence|]. split; [congruence|]. intros E5.
    destruct (Q4 (proj2 A2 E5)) as [Q5 Q6]. split; [done|]. intros l Hl j x Hx. rewrite A3 in Q6.
    rewrite (proj2 (chain_logicals _ _ _ _ _ _ (Hok i e' He') Hl)) in Q6. destruct (Q6 j x Hx) as (q' & Hq' & Ex).
    exists q'. split; [|done]. rewrite <- Hq'. f_equal. lia.
Qed.

(** A drive that cannot read its first sector stops the scan. *)
Theorem partition_panics s v :
  phase (hw s) = idle → 0 ≤ v < 2 → defective (hw s) v 0 = true →
  partition patience (NR_PRIM_DRIVE * v) P_PRIMARY s = Stop Panicked.
Proof.
  intros Hi Hv Hd. destruct (ide_read_run 0 v 1 (hw s) ltac:(lia) ltac:(lia) Hi) as (d & R & _ & _).
  rewrite (Z.mod_small v 2) in R by lia. change (Z.to_nat 1) with 1%nat in R. cbn [read_result] in R. rewrite Hd in R.
  assert (Ed : DRV_OF_DEV (NR_PRIM_DRIVE * v) = v).
  { unfold DRV_OF_DEV, MAX_PRIM, MAX_DRIVES, NR_PRIM_DRIVE, NR_PART_DRIVE. rewrite bool_decide_eq_true_2 by lia.
    Z.to_euclidean_division_equations. lia. }
  unfold partition. rewrite bool_decide_eq_true_2 by done. cbv zeta. rewrite Ed. apply bind_Stop.
  unfold get_part_table. assert (E2 : u32 v = v) by (apply Z.mod_small; lia). rewrite E2. change (u32 0) with 0.
  by rewrite (bind_Ok (on_hw _) _ s _ (set_hw d s) ltac:(unfold on_hw; rewrite R; reflexivity)).
Qed.
End partition_proofs.

(** ** A disk with a partition and an extended one that holds two *)

Definition demo_entry (ty start nr : Z) : pentry := Pentry [0; 1; 2; 3] ty [4; 5; 6] start nr.
Definition no_entry : pentry := Pentry [0; 0; 0; 0] 0 [0; 0; 0] 0 0.
Definition table_sector (es : list pentry) : list Z := replicate 446 7 ++ concat (encode <$> es) ++ [0x55; 0xAA].

Definition demo_table (n : Z) : list pentry :=
  if bool_decide (n = 0) then [demo_entry 0x83 63 900; demo_entry 5 1000 2000; no_entry; no_entry]
  else if bool_decide (n = 1000) then [demo_entry 0x83 1 400; demo_entry 5 500 600; no_entry; no_entry]
  else [demo_entry 0x83 1 599; no_entry; no_entry; no_entry].

(** The other sectors cannot be read. *)
Definition demo_parted : drives demo_drive :=
  mk_drives (Demo (λ _ n, table_sector (demo_table n)) (λ _ n, bool_decide (n ∉ [0; 1000; 1500])) (λ _, 0) idle 2) 1 []
    [Hd_info (replicate 5 (Part 0 0 0)) (replicate 64 (Part 0 0 0)); Hd_info (replicate 5 (Part 0 0 0)) (replicate 64 (Part 0 0 0))] 1.

Lemma demo_holds v n : holds_table (sectors (hw demo_parted) v n) (demo_table n).
Proof.
  assert (Hok : length (demo_table n) = 4%nat ∧ Forall pentry_ok (demo_table n)).
  { unfold demo_table. repeat case_bool_decide; (split; [done|]); repeat (apply Forall_cons_2; [unfold pentry_ok; cbn; lia|]); constructor. }
  destruct Hok as [Hl Hok]. split; [done|]. split; [done|]. exists (replicate 446 7), [0x55; 0xAA]. split; [done|].
  change (sectors (hw demo_parted) v n) with (resize 512 0 (table_sector (demo_table n))). apply resize_all_alt.
  unfold table_sector. rewrite !length_app, concat_length, Hl by done. done.
Qed.

Lemma demo_chain : chain (hw demo_parted) 0 1000 1000 16 [(1001, 400); (1501, 599)].
Proof.
  eapply (chain_next _ _ _ 1000 15 (demo_entry 0x83 1 400) (demo_entry 5 500 600)); [lia|reflexivity|apply (demo_holds 0 1000)|cbn; lia|done|cbn; lia|].
  eapply (chain_last _ _ _ 1500 14 (demo_entry 0x83 1 599) no_entry); [lia|reflexivity|apply (demo_holds 0 1500)|cbn; lia|done].
Qed.

Lemma partition_finds_all_witness :
  ∃ s' h' q q1, partition 3 0 P_PRIMARY demo_parted = Ok (tt, s') ∧ hd_infos s' !! 0%nat = Some h' ∧
    primary h' !! 2%nat = Some q ∧ start_sect q = 1000 ∧ sys_ind q = 5 ∧
    logical h' !! 17%nat = Some q1 ∧ (start_sect q1, nr_sects q1) = (1501, 599).
Proof.
  destruct (partition_finds_all demo_parted (Hd_info (replicate 5 (Part 0 0 0)) (replicate 64 (Part 0 0 0))) 0 (demo_table 0))
    as (s' & h' & R & _ & I & Hr).
  - reflexivity.
  - lia.
  - reflexivity.
  - reflexivity.
  - reflexivity.
  - reflexivity.
  - apply demo_holds.
  - intros e He Hty. cbn in He. repeat (apply elem_of_cons in He as [->|He]; [try discriminate Hty; eexists; exact demo_chain|]).
    by apply elem_of_nil in He.
  - exists (demo_entry 0x83 63 900). split; [apply elem_of_cons; by left|discriminate].
  - destruct (Hr 1%nat _ eq_refl) as (q & Q1 & Q2 & _ & Q4); [discriminate|]. destruct (Q4 eq_refl) as [Q5 Q6].
    destruct (Q6 _ demo_chain 1%nat _ eq_refl) as (q' & Hq' & Ex). exists s', h', q, q'. split; [exact R|]. split; [by rewrite I|].
    split; [exact Q1|]. split; [exact Q2|]. split; [exact Q5|]. split; [exact Hq'|exact Ex].
Defined.
