(* ===== verification/DiskFs.v ===== *)
(** * The buffer cache and the Minix file system: fs/buffer.c, kernel/block/rw_block.c,
    fs/minix1fs

    A block of a device is two sectors of the disk; a buffer holds one, and is found by
    device and number in one of 1024 chains.  A chain is the list of its buffers; the
    operations on chains are those of HList.  The bytes [minix_file_read] stores are
    answered in order.  The locks are left out: the kernel runs on one processor. *)

From S2P Require Import Prelude Ide.

Local Open Scope Z_scope.

Definition HASH_SIZE : Z := 1024.
Definition BLOCK_SIZE : Z := 1024.
Definition NR_BLK_DEV : Z := 7.
Definition ERROR : Z := 99.
Definition MINIX1_INODES_PER_BLOCK : Z := 32.

Record buffer_head := Buffer {
  b_data : list Z; b_blocknr : Z; b_dev : Z; b_uptodate : Z; b_dirt : Z; b_count : Z }.

Record bcache (D : Type) := mk_bcache {
  drv : drives D;
  buffers : gmap Z buffer_head;
  buffer_hash : gmap Z (list Z);
  buffer_count : Z;
  bavail : list Z }.
Arguments mk_bcache {D}.
Arguments drv {D}.
Arguments buffers {D}.
Arguments buffer_hash {D}.
Arguments buffer_count {D}.
Arguments bavail {D}.

(** Of an unsigned device and block. *)
Definition _HASHFN (dev block : Z) : Z := Z.lxor dev block mod HASH_SIZE.

Section disk.
Context {D : Type} `{!ide_ports D} (patience : nat).

Definition set_drv (d : drives D) (s : bcache D) : bcache D :=
  mk_bcache d (buffers s) (buffer_hash s) (buffer_count s) (bavail s).
Definition set_buffers (m : gmap Z buffer_head) (s : bcache D) : bcache D :=
  mk_bcache (drv s) m (buffer_hash s) (buffer_count s) (bavail s).
Definition set_hash (m : gmap Z (list Z)) (n : Z) (s : bcache D) : bcache D :=
  mk_bcache (drv s) (buffers s) m n (bavail s).
Definition set_bavail (l : list Z) (s : bcache D) : bcache D :=
  mk_bcache (drv s) (buffers s) (buffer_hash s) (buffer_count s) l.

Definition on_drv {A} (m : M (drives D) A) : M (bcache D) A := λ s,
  match m (drv s) with Ok (a, d) => Ok (a, set_drv d s) | Stop w => Stop w end.

Definition disk_kmalloc : M (bcache D) Z := λ s,
  match bavail s with [] => Ok (0, s) | a :: l => Ok (a, set_bavail l s) end.

Definition load_buffer (b : Z) : M (bcache D) buffer_head := s ← get; of_option (buffers s !! b).

Definition edit_buffer (b : Z) (g : buffer_head → buffer_head) : M (bcache D) unit :=
  k ← load_buffer b; modify (λ s, set_buffers (<[b := g k]> (buffers s)) s).

Definition hash_chain (s : bcache D) (dev block : Z) : list Z := default [] (buffer_hash s !! _HASHFN dev block).

(** ** fs/buffer.c *)

Definition buffer_init : M (bcache D) unit := modify (set_hash ∅ 0).

Fixpoint find_in_chain (m : gmap Z buffer_head) (dev block : Z) (chain : list Z) : option Z :=
  match chain with
  | [] => Some 0
  | tmp :: chain =>
      k ← m !! tmp;
      if bool_decide (b_dev k = dev ∧ b_blocknr k = block) then Some tmp else find_in_chain m dev block chain
  end.

Definition get_buffer_hash (dev block : Z) : M (bcache D) Z :=
  s ← get; of_option (find_in_chain (buffers s) dev block (hash_chain s dev block)).

Definition insert_into_hash (buf : Z) : M (bcache D) unit :=
  k ← load_buffer buf;
  modify (λ s, set_hash (<[_HASHFN (b_dev k) (b_blocknr k) := buf :: hash_chain s (b_dev k) (b_blocknr k)]> (buffer_hash s))
    (i32 (buffer_count s + 1)) s).

(** The first buffer of the chain with the same device and number leaves it. *)
Definition remove_from_hash (buf : Z) : M (bcache D) unit :=
  k ← load_buffer buf;
  s ← get;
  let chain := hash_chain s (b_dev k) (b_blocknr k) in
  node ← of_option (find_in_chain (buffers s) (b_dev k) (b_blocknr k) chain);
  put (set_hash (<[_HASHFN (b_dev k) (b_blocknr k) := filter (λ x, x ≠ node) chain]> (buffer_hash s))
    (i32 (buffer_count s - 1)) s).

Definition buffer_alloc (dev block : Z) : M (bcache D) Z :=
  buf ← disk_kmalloc;
  if bool_decide (buf = 0) then mret 0
  else
    modify (λ s, set_buffers (<[buf := Buffer (replicate 1024 0) block dev 0 0 0]> (buffers s)) s) ;;
    mret buf.

Definition with_count (n : Z) (k : buffer_head) : buffer_head :=
  Buffer (b_data k) (b_blocknr k) (b_dev k) (b_uptodate k) (b_dirt k) n.
Definition with_uptodate (n : Z) (k : buffer_head) : buffer_head :=
  Buffer (b_data k) (b_blocknr k) (b_dev k) n (b_dirt k) (b_count k).
(** Bytes stored from the start of [b_data] on. *)
Definition with_data (l : list Z) (k : buffer_head) : buffer_head :=
  Buffer (l ++ drop (length l) (b_data k)) (b_blocknr k) (b_dev k) (b_uptodate k) (b_dirt k) (b_count k).

Definition buffer_get (dev block : Z) : M (bcache D) Z :=
  tmp ← get_buffer_hash dev block;
  if bool_decide (tmp ≠ 0) then mret tmp
  else
    tmp ← buffer_alloc dev block;
    if bool_decide (tmp = 0) then mret 0
    else
      edit_buffer tmp (with_count 1) ;;
      insert_into_hash tmp ;;
      mret tmp.

(** [kfree] takes the buffer away; the chain keeps it. *)
Definition buffer_free (buf : Z) : M (bcache D) unit :=
  k ← load_buffer buf;
  let n := u8 (b_count k - 1) in
  edit_buffer buf (with_count n) ;;
  if bool_decide (n = 0) then
    modify (λ s, set_hash (buffer_hash s) (i32 (buffer_count s - 1)) (set_buffers (delete buf (buffers s)) s))
  else mret tt.

(** ** kernel/block/rw_block.c *)

Definition block_read (buf : Z) : M (bcache D) Z :=
  assert (bool_decide (buf ≠ 0)) ;;
  k ← load_buffer buf;
  let major := MAJOR (b_dev k) in
  let minor := MINOR (b_dev k) in
  let drive := DRV_OF_DEV minor in
  let logidx := u32 (minor - MINOR_hd1a) mod NR_LOG_DRIVE in
  (if bool_decide (NR_BLK_DEV ≤ major) then panic else mret tt) ;;
  (if bool_decide (major ≠ 3) then panic else mret tt) ;;
  let blocknr := b_blocknr k in
  p ← on_drv (if bool_decide (minor < MAX_PRIM) then load_primary drive (minor mod NR_PRIM_DRIVE)
              else load_logical drive logidx);
  r ← on_drv (on_hw (ide_read patience (u32 (start_sect p + u32 (blocknr * 2))) drive 2));
  edit_buffer buf (with_data (r : list Z * Z).1) ;;
  (if bool_decide (r.2 = 0) then edit_buffer buf (with_uptodate 1) else mret tt) ;;
  mret r.2.

Definition buffer_read (dev block : Z) : M (bcache D) Z :=
  buf ← buffer_get dev block;
  if bool_decide (buf = 0) then mret 0
  else
    k ← load_buffer buf;
    if bool_decide (b_uptodate k ≠ 0) then mret buf
    else
      block_read buf ;;
      k ← load_buffer buf;
      if bool_decide (b_uptodate k ≠ 0) then mret buf else mret 0.

(** ** fs/minix1fs *)

Record minix1_inode := Minix1 {
  m_mode : Z; m_uid : Z; m_size : Z; m_time : Z; m_gid : Z; m_nlinks : Z; i_zone : list Z }.

Record minix_superblock := Minix_sb {
  s_ninodes : Z; s_nzones : Z; s_imap_blocks : Z; s_zmap_blocks : Z; s_firstdatazone : Z; s_log_zone_size : Z;
  s_max_size : Z; s_magic : Z; s_state : Z; s_zones : Z }.

(** The layouts on the disk. *)
Definition read_sb (l : list Z) : minix_superblock :=
  Minix_sb (le_at l 0 2) (le_at l 2 2) (le_at l 4 2) (le_at l 6 2) (le_at l 8 2) (le_at l 10 2) (le_at l 12 4)
    (le_at l 16 2) (le_at l 18 2) (le_at l 20 4).

Definition read_minode (l : list Z) : minix1_inode :=
  Minix1 (le_at l 0 2) (le_at l 2 2) (le_at l 4 4) (le_at l 8 4) (le_at l 12 1) (le_at l 13 1)
    ((λ i, le_at l (14 + 2 * i) 2) <$> seq 0 9).

(** The superblock it stores, when it is one. *)
Definition read_minix_super (s_dev : Z) : M (bcache D) (Z * option minix_superblock) :=
  buf ← buffer_read s_dev 1;
  assert (bool_decide (buf ≠ 0)) ;;
  k ← load_buffer buf;
  let msb := read_sb (b_data k) in
  if bool_decide (s_magic msb ≠ 0x138F) then mret (-1, None) else mret (0, Some msb).

(** The inode it stores. *)
Definition read_minix_inode (msb : minix_superblock) (i_dev i_num : Z) : M (bcache D) minix1_inode :=
  let block := i32 (2 + s_imap_blocks msb + s_zmap_blocks msb + Z.quot i_num MINIX1_INODES_PER_BLOCK) in
  buf ← buffer_read i_dev (u32 block);
  (if bool_decide (buf = 0) then panic else mret tt) ;;
  k ← load_buffer buf;
  let j := Z.rem i_num MINIX1_INODES_PER_BLOCK in
  if bool_decide (j < 0) then fault else mret (read_minode (drop (Z.to_nat (32 * j)) (b_data k))).

Definition _bmap (m : minix1_inode) (block : Z) : M (bcache D) Z :=
  if bool_decide (block < 0) then panic
  else if bool_decide (7 ≤ block) then panic
  else of_option (i_zone m !! Z.to_nat block).

(** The loop of [minix_file_read]: the bytes stored, the position and what is left.
    It stops at the seventh block at the latest. *)
Fixpoint minix_read_loop (fuel : nat) (m : minix1_inode) (i_dev f_pos left_ : Z) : M (bcache D) (list Z * Z * Z) :=
  match fuel with
  | O => stop_with OutOfFuel
  | S fuel =>
      if bool_decide (left_ = 0) then mret ([], f_pos, left_)
      else
        nr ← _bmap m (f_pos / BLOCK_SIZE);
        bh ← (if bool_decide (nr ≠ 0) then
                bh ← buffer_read i_dev nr;
                mret (if bool_decide (bh = 0) then None else Some bh)
              else mret (Some 0));
        match (bh : option Z) with
        | None => mret ([], f_pos, left_)
        | Some bh =>
            let nr := f_pos mod BLOCK_SIZE in
            let chars := Z.min (BLOCK_SIZE - nr) left_ in
            data ← (if bool_decide (bh ≠ 0) then
                      k ← load_buffer bh; mret (take (Z.to_nat chars) (drop (Z.to_nat nr) (b_data k)))
                    else mret (replicate (Z.to_nat chars) 0));
            x ← minix_read_loop fuel m i_dev (u32 (f_pos + chars)) (left_ - chars);
            mret (data ++ (x : list Z * Z * Z).1.1, x.1.2, x.2)
        end
  end.

Definition minix_file_read (m : minix1_inode) (i_dev f_pos count : Z) : M (bcache D) (list Z * Z * Z) :=
  if bool_decide (count ≤ 0) then mret ([], f_pos, 0)
  else
    x ← minix_read_loop 9 m i_dev f_pos count;
    let '(data, pos, left_) := (x : list Z * Z * Z) in
    mret (data, pos, if bool_decide (count - left_ ≠ 0) then count - left_ else - ERROR).
End disk.
