(* ===== verification/DiskFsProofs.v ===== *)
(** * Correctness of the buffer cache and of reading a Minix file

    [coherent] is the invariant of the cache: a block has at most one buffer, found in
    the chain of its number, and a valid buffer holds what is on the disk.  A block the
    drive cannot read leaves its buffer invalid. *)

From S2P Require Import Prelude Ide IdeProofs DiskFs.

Local Open Scope Z_scope.

Section disk_proofs.
Context {D : Type} `{!ide_ports D} {patience : nat} `{!ata D patience}.

(** Where the blocks of the device [dev] are: the drive and the first sector. *)
Record on_device (s : drives D) (dev v start : Z) : Prop := {
  od_major : MAJOR dev = 3;
  od_drive : v = DRV_OF_DEV (MINOR dev) ∧ 0 ≤ v < 2;
  od_start : ∃ h p, hd_infos s !! Z.to_nat v = Some h ∧ start_sect p = start ∧
    (if bool_decide (MINOR dev < MAX_PRIM) then primary h !! Z.to_nat (MINOR dev mod NR_PRIM_DRIVE)
     else logical h !! Z.to_nat (u32 (MINOR dev - MINOR_hd1a) mod NR_LOG_DRIVE)) = Some p }.

Definition block_at (d : D) (v start block : Z) : list Z := run_of d v (start + 2 * block) 2.

Lemma block_at_length d v start block : length (block_at d v start block) = 1024%nat.
Proof. unfold block_at. cbn [run_of]. by rewrite !length_app, !(ata_sector (patience := patience)). Qed.

(** Two states with the same disk and the same partitions. *)
Record same_disk (s s' : drives D) : Prop := {
  sd_media : same_media (hw s) (hw s');
  sd_infos : hd_infos s' = hd_infos s }.

#[local] Instance same_disk_refl : Reflexive same_disk.
Proof. intros s. by split. Qed.

#[local] Instance same_disk_trans : Transitive same_disk.
Proof. intros s1 s2 s3 [A1 A2] [B1 B2]. split; [by etrans|congruence]. Qed.

Lemma on_device_same s s' dev v start : same_disk s s' → on_device s dev v start → on_device s' dev v start.
Proof. intros [_ E] [H1 H2 H3]. split; [done|done|]. by rewrite E. Qed.

Lemma block_at_same s s' v start block : same_disk s s' → block_at (hw s') v start block = block_at (hw s) v start block.
Proof. intros [[E _] _]. unfold block_at. by apply run_of_same. Qed.

(** The drive can read the block. *)
Definition block_intact (d : D) (v start block : Z) : Prop := intact d v (start + 2 * block) 2.

Lemma block_intact_same s s' v start block :
  same_disk s s' → block_intact (hw s') v start block → block_intact (hw s) v start block.
Proof. intros [[_ E] _] H m Hm. rewrite <- E. by apply H. Qed.

Definition valid (s : drives D) (k : buffer_head) : Prop :=
  ∀ v start, on_device s (b_dev k) v start → b_data k = block_at (hw s) v start (b_blocknr k).

(** [b] is in the chain of its block. *)
Definition hashed (s : bcache D) (b : Z) (k : buffer_head) : Prop :=
  buffers s !! b = Some k ∧ b ∈ hash_chain s (b_dev k) (b_blocknr k).

Record coherent (s : bcache D) : Prop := {
  co_idle : phase (hw (drv s)) = idle;
  co_chains : ∀ h b, b ∈ default [] (buffer_hash s !! h) → b ≠ 0 ∧ ∃ k, buffers s !! b = Some k ∧ _HASHFN (b_dev k) (b_blocknr k) = h;
  co_one : ∀ b b' k k', hashed s b k → hashed s b' k' → b_dev k = b_dev k' → b_blocknr k = b_blocknr k' → b = b';
  co_valid : ∀ b k, buffers s !! b = Some k → length (b_data k) = 1024%nat ∧ (b_uptodate k ≠ 0 → valid (drv s) k);
  co_pool : NoDup (bavail s) ∧ ∀ a, a ∈ bavail s → a ≠ 0 ∧ buffers s !! a = None }.

(** ** Finding a buffer *)

Lemma find_in_chain_ok (m : gmap Z buffer_head) dev block chain :
  (∀ b, b ∈ chain → b ≠ 0 ∧ is_Some (m !! b)) →
  (∃ b k, find_in_chain m dev block chain = Some b ∧ b ≠ 0 ∧ b ∈ chain ∧ m !! b = Some k ∧ b_dev k = dev ∧ b_blocknr k = block) ∨
  (find_in_chain m dev block chain = Some 0 ∧ ∀ b k, b ∈ chain → m !! b = Some k → ¬ (b_dev k = dev ∧ b_blocknr k = block)).
Proof.
  induction chain as [|x chain IH]; intros Hc; [right; split; [done|intros b k ?%elem_of_nil; done]|].
  destruct (Hc x ltac:(set_solver)) as [Hx [k Hk]]. cbn [find_in_chain]. rewrite Hk. cbn [mbind option_bind].
  destruct (bool_decide_reflect (b_dev k = dev ∧ b_blocknr k = block)) as [[E1 E2]|Hne].
  - left. exists x, k. split_and!; try done. set_solver.
  - destruct IH as [(b & kb & F1 & F2 & F3 & F4)|[F1 F2]]; [intros b Hb; apply Hc; set_solver| |].
    + left. exists b, kb. split_and!; try apply F4; try done. set_solver.
    + right. split; [done|]. intros b kb [->|Hb]%elem_of_cons; [congruence|by apply F2].
Qed.

Lemma get_buffer_hash_ok s dev block :
  coherent s →
  (∃ b k, get_buffer_hash dev block s = Ok (b, s) ∧ b ≠ 0 ∧ hashed s b k ∧ b_dev k = dev ∧ b_blocknr k = block) ∨
  (get_buffer_hash dev block s = Ok (0, s) ∧ ∀ b k, hashed s b k → ¬ (b_dev k = dev ∧ b_blocknr k = block)).
Proof.
  intros C. destruct (find_in_chain_ok (buffers s) dev block (hash_chain s dev block)) as [(b & k & F & Hb & Hin & Hk & E1 & E2)|[F Hno]].
  { intros b Hb. destruct (co_chains _ C _ b Hb) as (H0 & k & Hk & _). eauto. }
  - left. subst dev block. exists b, k. split; [|by split_and!].
    unfold get_buffer_hash. run_step. by apply of_option_Some.
  - right. split; [unfold get_buffer_hash; run_step; by apply of_option_Some|].
    intros b k [Hk Hin] [<- <-]. by apply (Hno b k).
Qed.

(** ** A buffer for a block *)

(** What an operation keeps of the buffers there are. *)
Definition keeps_buffers (s s' : bcache D) : Prop :=
  ∀ b k, hashed s b k → ∃ k', hashed s' b k' ∧ b_dev k' = b_dev k ∧ b_blocknr k' = b_blocknr k ∧
    (b_uptodate k ≠ 0 → k' = k).

Lemma default_insert (m : gmap Z (list Z)) h x y l :
  x ∈ default [] (<[h := y :: default [] (m !! h)]> m !! l) ↔ (x = y ∧ l = h) ∨ x ∈ default [] (m !! l).
Proof.
  destruct (decide (l = h)) as [->|Hne].
  - rewrite lookup_insert_eq. cbn. rewrite elem_of_cons. naive_solver.
  - rewrite lookup_insert_ne by done. naive_solver.
Qed.

(** The state with a new buffer [a] for the block. *)
Definition added (s : bcache D) (a dev block : Z) (l : list Z) : bcache D :=
  mk_bcache (drv s) (<[a := Buffer (replicate 1024 0) block dev 0 0 1]> (buffers s))
    (<[_HASHFN dev block := a :: hash_chain s dev block]> (buffer_hash s)) (i32 (buffer_count s + 1)) l.

Lemma buffer_get_new s dev block a l :
  get_buffer_hash dev block s = Ok (0, s) → bavail s = a :: l → a ≠ 0 →
  buffer_get dev block s = Ok (a, added s a dev block l).
Proof.
  intros Hf Hav Ha. unfold buffer_get. rewrite (bind_Ok _ _ _ _ _ Hf). rewrite (bool_decide_eq_false_2 (0 ≠ 0)) by (intros E; by apply E).
  unfold buffer_alloc. rewrite bind_assoc.
  rewrite (bind_Ok disk_kmalloc _ s a (set_bavail l s)) by (unfold disk_kmalloc; by rewrite Hav).
  rewrite bool_decide_eq_false_2 by done. rewrite bind_assoc. run_step. run_step. rewrite bool_decide_eq_false_2 by done.
  unfold edit_buffer, load_buffer. rewrite !bind_assoc. run_step.
  erewrite bind_Ok by (apply of_option_Some; apply lookup_insert_eq). run_step.
  unfold insert_into_hash, load_buffer. rewrite !bind_assoc. run_step.
  erewrite bind_Ok by (apply of_option_Some; apply lookup_insert_eq). run_step.
  unfold mret, M_ret, added, set_hash, set_buffers, set_bavail, with_count, hash_chain. simpl. by rewrite insert_insert_eq.
Qed.

Lemma hashed_added s a dev block l b k :
  buffers s !! a = None → coherent s →
  hashed (added s a dev block l) b k ↔ (b = a ∧ k = Buffer (replicate 1024 0) block dev 0 0 1) ∨ hashed s b k.
Proof.
  intros Ha C. unfold hashed, hash_chain, added. cbn [buffers buffer_hash]. unfold hash_chain. rewrite default_insert.
  destruct (decide (b = a)) as [->|Hne].
  - rewrite lookup_insert_eq. split.
    + intros [[= <-] _]. by left.
    + intros [[_ ->]|[E _]]; [|congruence]. split; [done|]. by left.
  - rewrite lookup_insert_ne by done. naive_solver.
Qed.

Lemma added_coherent s a dev block l :
  coherent s → (∀ b k, hashed s b k → ¬ (b_dev k = dev ∧ b_blocknr k = block)) → bavail s = a :: l →
  coherent (added s a dev block l).
Proof.
  intros C Hno Hav. pose proof (co_pool _ C) as [Hnd Hfr]. rewrite Hav in Hnd, Hfr. apply NoDup_cons in Hnd as [Hal Hnd].
  destruct (Hfr a ltac:(set_solver)) as [Ha0 Ha]. split.
  - apply C.
  - intros h b. unfold added. cbn [buffers buffer_hash]. unfold hash_chain. rewrite default_insert. intros [[-> ->]|Hb].
    + split; [done|]. eexists. split; [apply lookup_insert_eq|done].
    + destruct (co_chains _ C h b Hb) as (H0 & k & Hk & Hh). split; [done|]. exists k. split; [|done].
      rewrite lookup_insert_ne; [done|]. congruence.
  - intros b b' k k'. rewrite !hashed_added by done. intros [[-> ->]|H1] [[-> ->]|H2] E1 E2; try done.
    + destruct (Hno b' k' H2). by split.
    + destruct (Hno b k H1). by split.
    + by apply (co_one _ C b b' k k').
  - intros b k. unfold added. cbn [buffers drv]. destruct (decide (b = a)) as [->|Hne].
    + rewrite lookup_insert_eq. intros [= <-]. by split.
    + rewrite lookup_insert_ne by done. apply C.
  - split; [done|]. intros x Hx. change (x ∈ l) in Hx. destruct (Hfr x ltac:(set_solver)) as [Hx0 Hx1]. split; [done|].
    unfold added. cbn [buffers]. rewrite lookup_insert_ne; [done|]. by intros ->.
Qed.

Lemma buffer_get_ok s dev block :
  coherent s → bavail s ≠ [] →
  ∃ b s' k, buffer_get dev block s = Ok (b, s') ∧ b ≠ 0 ∧ coherent s' ∧ hashed s' b k ∧ b_dev k = dev ∧ b_blocknr k = block ∧
    drv s' = drv s ∧ keeps_buffers s s' ∧ (length (bavail s) ≤ S (length (bavail s')))%nat.
Proof.
  intros C Hav. destruct (get_buffer_hash_ok s dev block C) as [(b & k & R & Hb & Hk & E1 & E2)|[R Hno]].
  - exists b, s, k. split; [unfold buffer_get; rewrite (bind_Ok _ _ _ _ _ R); by rewrite bool_decide_eq_true_2|].
    split_and!; try done; try apply Hk; [|lia]. intros b' k' H'. by exists k'.
  - destruct (bavail s) as [|a l] eqn:E; [done|]. pose proof (co_pool _ C) as [_ Hfr]. rewrite E in Hfr.
    destruct (Hfr a ltac:(set_solver)) as [Ha0 Ha]. exists a, (added s a dev block l), (Buffer (replicate 1024 0) block dev 0 0 1).
    split; [by apply buffer_get_new|]. split; [done|]. split; [by apply added_coherent|].
    split; [apply hashed_added; [done|done|by left]|]. split_and!; try done.
    intros b' k' H'. exists k'. split_and!; try done. apply hashed_added; [done|done|by right].
Qed.

(** ** Reading a block from the disk *)

Lemma edit_buffer_run (s : bcache D) b g k :
  buffers s !! b = Some k → edit_buffer b g s = Ok (tt, set_buffers (<[b := g k]> (buffers s)) s).
Proof.
  intros Hk. unfold edit_buffer, load_buffer. rewrite !bind_assoc. run_step. by rewrite (bind_Ok _ _ _ _ _ (of_option_Some _ _ _ Hk)).
Qed.

Lemma load_buffer_run (s : bcache D) b k : buffers s !! b = Some k → load_buffer b s = Ok (k, s).
Proof. intros Hk. unfold load_buffer. run_step. by apply of_option_Some. Qed.

Lemma on_drv_run {A} (m : M (drives D) A) (s : bcache D) a d : m (drv s) = Ok (a, d) → on_drv m s = Ok (a, set_drv d s).
Proof. intros E. unfold on_drv. by rewrite E. Qed.

Lemma on_hw_run {A} (m : M D A) (s : drives D) a d : m (hw s) = Ok (a, d) → on_hw m s = Ok (a, set_hw d s).
Proof. intros E. unfold on_hw. by rewrite E. Qed.

Lemma set_drv_same (s : bcache D) : set_drv (drv s) s = s.
Proof. by destruct s. Qed.

Lemma load_part_run s dev v start :
  on_device s dev v start →
  ∃ p, (if bool_decide (MINOR dev < MAX_PRIM) then load_primary (DRV_OF_DEV (MINOR dev)) (MINOR dev mod NR_PRIM_DRIVE)
        else load_logical (DRV_OF_DEV (MINOR dev)) (u32 (MINOR dev - MINOR_hd1a) mod NR_LOG_DRIVE)) s = Ok (p, s) ∧
    start_sect p = start.
Proof.
  intros [_ [-> _] (h & p & Hh & Hs & Hp)]. exists p. split; [|done]. unfold load_primary, load_logical.
  case_bool_decide; run_step; rewrite (bind_Ok _ _ _ _ _ (of_option_Some _ _ _ Hh)); by apply of_option_Some.
Qed.

(** The buffer [k] after [ide_read] has given [x]. *)
Definition filled (x : list Z * Z) (k : buffer_head) : buffer_head :=
  Buffer (x.1 ++ drop (length x.1) (b_data k)) (b_blocknr k) (b_dev k) (if bool_decide (x.2 = 0) then 1 else b_uptodate k)
    (b_dirt k) (b_count k).

Definition block_result (d : D) (v start block : Z) : list Z * Z := read_result d v (start + 2 * block) 2.

Lemma block_read_run s b k v start :
  phase (hw (drv s)) = idle → b ≠ 0 → buffers s !! b = Some k →
  on_device (drv s) (b_dev k) v start → 0 ≤ start → 0 ≤ b_blocknr k → start + 2 * b_blocknr k + 1 < 2 ^ 28 →
  let x := block_result (hw (drv s)) v start (b_blocknr k) in
  ∃ d, block_read patience b s = Ok (x.2, set_buffers (<[b := filled x k]> (buffers s)) (set_drv (set_hw d (drv s)) s)) ∧
    same_media (hw (drv s)) d ∧ phase d = idle.
Proof.
  intros Hi Hb Hk Hd Hs0 Hb0 Hlt x. unfold block_read. rewrite (bool_decide_eq_true_2 (b ≠ 0)) by done. run_step.
  rewrite (bind_Ok _ _ _ _ _ (load_buffer_run _ _ _ Hk)). cbv zeta.
  destruct (load_part_run _ _ _ _ Hd) as (p & Hp & Hst). destruct Hd as [Hmaj [Hv Hv2] _].
  rewrite Hmaj. rewrite (bool_decide_eq_false_2 (NR_BLK_DEV ≤ 3)) by (unfold NR_BLK_DEV; lia).
  rewrite (bool_decide_eq_false_2 (3 ≠ 3)) by (intros E; by apply E). do 2 run_step.
  rewrite (bind_Ok _ _ _ _ _ (on_drv_run _ _ _ _ Hp)). rewrite set_drv_same.
  assert (Hsec : u32 (start_sect p + u32 (b_blocknr k * 2)) = start + 2 * b_blocknr k).
  { unfold u32. rewrite Hst, (Z.mod_small (b_blocknr k * 2)) by lia. rewrite Z.mod_small by lia. lia. }
  rewrite Hsec. destruct (ide_read_run (start + 2 * b_blocknr k) (DRV_OF_DEV (MINOR (b_dev k))) 2 (hw (drv s)) ltac:(lia) ltac:(lia) Hi)
    as (d & R & S & P). rewrite <- Hv in R. rewrite (Z.mod_small v 2) in R by lia. change (read_result _ v _ _) with x in R.
  rewrite <- Hv. rewrite (bind_Ok _ _ _ _ _ (on_drv_run _ s _ _ (on_hw_run _ (drv s) _ _ R))).
  set (s1 := set_drv _ s). assert (Hk1 : buffers s1 !! b = Some k) by exact Hk.
  rewrite (bind_Ok _ _ _ _ _ (edit_buffer_run s1 b _ k Hk1)).
  exists d. split; [|by split]. unfold filled. destruct (bool_decide_reflect (x.2 = 0)) as [E|E].
  - erewrite bind_Ok by (apply edit_buffer_run; apply lookup_insert_eq).
    unfold mret, M_ret, set_buffers. cbn [buffers drv buffer_hash buffer_count bavail s1 set_drv]. by rewrite insert_insert_eq.
  - by run_step.
Qed.

Lemma valid_same s s' k : same_disk s s' → valid s k → valid s' k.
Proof.
  intros E V v start Hd. rewrite (block_at_same s s') by done. apply V. apply (on_device_same s'); [|done].
  destruct E as [[E1 E2] E3]. split; [split; intros; congruence|done].
Qed.

Lemma on_device_fun s dev v start v' start' :
  on_device s dev v start → on_device s dev v' start' → v' = v ∧ start' = start.
Proof.
  intros [_ [-> _] (h & p & Hh & <- & Hp)] [_ [-> _] (h' & p' & Hh' & <- & Hp')]. split; [done|].
  rewrite Hh in Hh'. injection Hh' as <-. rewrite Hp in Hp'. by injection Hp' as <-.
Qed.

(** What the buffer is then: the block, or as little valid as it was. *)
Lemma filled_ok d v start k :
  length (b_data k) = 1024%nat → b_uptodate k = 0 →
  let k' := filled (block_result d v start (b_blocknr k)) k in
  length (b_data k') = 1024%nat ∧
  ((block_intact d v start (b_blocknr k) ∧ b_uptodate k' ≠ 0 ∧ b_data k' = block_at d v start (b_blocknr k)) ∨
   (¬ block_intact d v start (b_blocknr k) ∧ b_uptodate k' = 0)).
Proof.
  intros Hl Hu k'. subst k'. unfold filled, block_result, block_intact.
  destruct (intact_dec d v 2 (start + 2 * b_blocknr k)) as [Hin|Hin].
  - rewrite read_result_intact by done. fold (block_at d v start (b_blocknr k)). cbn [b_data b_uptodate fst snd].
    rewrite block_at_length, drop_ge, app_nil_r by lia. split; [apply block_at_length|]. left. by rewrite bool_decide_eq_true_2.
  - destruct (read_result_defect d v 2 _ Hin) as [E Hle]. cbn [b_data b_uptodate]. rewrite E. rewrite length_app, length_drop, Hl.
    split; [lia|]. right. split; [done|]. by rewrite bool_decide_eq_false_2.
Qed.

(** A buffer after its block has been asked for. *)
Lemma filled_coherent s b k v start d :
  coherent s → hashed s b k → b_uptodate k = 0 → on_device (drv s) (b_dev k) v start →
  same_media (hw (drv s)) d → phase d = idle →
  let k' := filled (block_result (hw (drv s)) v start (b_blocknr k)) k in
  let s' := set_buffers (<[b := k']> (buffers s)) (set_drv (set_hw d (drv s)) s) in
  coherent s' ∧ hashed s' b k' ∧ (∀ x y, hashed s' x y → ∃ y0, hashed s x y0 ∧ b_dev y0 = b_dev y ∧ b_blocknr y0 = b_blocknr y) ∧
  same_disk (drv s) (drv s').
Proof.
  intros C [Hk Hin] Hu0 Hd Hs Hi k' s'. assert (SD : same_disk (drv s) (drv s')) by by split.
  destruct (filled_ok (hw (drv s)) v start k (proj1 (co_valid _ C b k Hk)) Hu0) as [Hl' Hf]. fold k' in Hl', Hf.
  assert (Hold : ∀ x y, hashed s' x y → ∃ y0, hashed s x y0 ∧ b_dev y0 = b_dev y ∧ b_blocknr y0 = b_blocknr y).
  { intros x y [Hx Hxin]. cbn [s' set_buffers buffers] in Hx. destruct (decide (x = b)) as [->|Hne].
    - rewrite lookup_insert_eq in Hx. injection Hx as <-. by exists k.
    - rewrite lookup_insert_ne in Hx by done. by exists y. }
  split; [|split; [|by split]]; [|split; [apply lookup_insert_eq|exact Hin]]. split.
  - done.
  - intros h x Hx. destruct (co_chains _ C h x Hx) as (H0 & y & Hy & Hh). split; [done|]. cbn [s' set_buffers buffers].
    destruct (decide (x = b)) as [->|Hne].
    + rewrite lookup_insert_eq. exists k'. split; [done|]. change (_HASHFN (b_dev k) (b_blocknr k) = h). congruence.
    + rewrite lookup_insert_ne by done. by exists y.
  - intros x x' y y' H1 H2 E1 E2. destruct (Hold x y H1) as (y0 & A1 & A2 & A3). destruct (Hold x' y' H2) as (y0' & B1 & B2 & B3).
    apply (co_one _ C x x' y0 y0'); congruence.
  - intros x y Hx. cbn [s' set_buffers buffers] in Hx. destruct (decide (x = b)) as [->|Hne].
    + rewrite lookup_insert_eq in Hx. injection Hx as <-. split; [exact Hl'|]. intros Hu.
      destruct Hf as [(_ & _ & Hdat)|[_ ?]]; [|congruence].
      apply (valid_same (drv s)); [done|]. intros v' start' Hd'. destruct (on_device_fun _ _ _ _ _ _ Hd Hd') as [-> ->]. exact Hdat.
    + rewrite lookup_insert_ne in Hx by done. destruct (co_valid _ C x y Hx) as [V1 V2]. split; [done|].
      intros Hu. apply (valid_same (drv s)); [done|by apply V2].
  - destruct (co_pool _ C) as [Hnd Hfr]. split; [exact Hnd|]. intros a Ha. destruct (Hfr a Ha) as [Ha0 Han]. split; [done|].
    cbn [s' set_buffers buffers]. rewrite lookup_insert_ne; [done|]. congruence.
Qed.

(** ** Reading through the cache *)

(** A block that is in the cache is not read again. *)
Theorem buffer_read_cached s b k :
  coherent s → hashed s b k → b_uptodate k ≠ 0 → buffer_read patience (b_dev k) (b_blocknr k) s = Ok (b, s).
Proof.
  intros C H Hu. destruct (get_buffer_hash_ok s (b_dev k) (b_blocknr k) C) as [(b' & k' & R & Hb & Hk' & E1 & E2)|[_ Hno]];
    [|by destruct (Hno b k H)].
  assert (b' = b) as -> by (apply (co_one _ C b' b k' k); done). assert (k' = k) as -> by (destruct H, Hk'; congruence).
  unfold buffer_read. rewrite (bind_Ok (buffer_get (b_dev k) (b_blocknr k)) _ s b s).
  2:{ unfold buffer_get. rewrite (bind_Ok _ _ _ _ _ R). by rewrite bool_decide_eq_true_2. }
  rewrite bool_decide_eq_false_2 by done. rewrite (bind_Ok _ _ _ _ _ (load_buffer_run _ _ _ (proj1 H))).
  by rewrite bool_decide_eq_true_2.
Qed.

Lemma buffer_read_ok s dev block v start :
  coherent s → bavail s ≠ [] → on_device (drv s) dev v start → 0 ≤ start → 0 ≤ block → start + 2 * block + 1 < 2 ^ 28 →
  ∃ b s', buffer_read patience dev block s = Ok (b, s') ∧ coherent s' ∧ same_disk (drv s) (drv s') ∧
    (length (bavail s) ≤ S (length (bavail s')))%nat ∧
    (if bool_decide (b = 0) then ¬ block_intact (hw (drv s)) v start block
     else ∃ k, hashed s' b k ∧ b_uptodate k ≠ 0 ∧ b_data k = block_at (hw (drv s)) v start block).
Proof.
  intros C Hav Hd H0 H1 H2.
  destruct (buffer_get_ok s dev block C Hav) as (b & s1 & k & R & Hb & C1 & Hk & E1 & E2 & Ed & _ & Hl). subst dev block.
  unfold buffer_read. rewrite (bind_Ok _ _ _ _ _ R). rewrite bool_decide_eq_false_2 by done.
  rewrite (bind_Ok _ _ _ _ _ (load_buffer_run _ _ _ (proj1 Hk))).
  destruct (co_valid _ C1 b k (proj1 Hk)) as [Hlen Hv]. rewrite Ed in Hv.
  destruct (bool_decide_reflect (b_uptodate k ≠ 0)) as [Hu|Hu].
  { exists b, s1. split; [done|]. split; [done|]. split; [by rewrite Ed|]. split; [done|].
    rewrite bool_decide_eq_false_2 by done. exists k. split; [done|]. split; [done|]. by apply Hv. }
  assert (Hu0 : b_uptodate k = 0) by lia. rewrite <- Ed in Hd |- *. clear Hv.
  destruct (block_read_run s1 b k v start (co_idle _ C1) Hb (proj1 Hk) Hd H0 H1 H2) as (d & R2 & S2 & P2).
  rewrite (bind_Ok _ _ _ _ _ R2). destruct (filled_coherent s1 b k v start d C1 Hk Hu0 Hd S2 P2) as (C2 & Hk2 & _ & SD).
  rewrite (bind_Ok _ _ _ _ _ (load_buffer_run _ _ _ (proj1 Hk2))).
  destruct (filled_ok (hw (drv s1)) v start k Hlen Hu0) as [_ [(_ & Hu' & Hdat)|[Hn Hu']]].
  - rewrite bool_decide_eq_true_2 by done. eexists b, _. split; [done|]. split; [done|]. split; [done|]. split; [done|].
    rewrite bool_decide_eq_false_2 by done. eexists. split; [exact Hk2|by split].
  - rewrite bool_decide_eq_false_2 by (intros Hc; by apply Hc). eexists 0, _. split; [done|]. split; [done|]. split; [done|].
    split; [done|]. by rewrite bool_decide_eq_true_2.
Qed.

(** ** Reading a file *)

(** The byte [p] of a file: a zone that is not there reads as 0. *)
Definition file_byte (d : D) (v start : Z) (m : minix1_inode) (p : Z) : Z :=
  let z := i_zone m !!! Z.to_nat (p / 1024) in
  if bool_decide (z = 0) then 0 else block_at d v start z !!! Z.to_nat (p mod 1024).

Lemma file_byte_same s s' v start m p : same_disk s s' → file_byte (hw s') v start m p = file_byte (hw s) v start m p.
Proof. intros E. unfold file_byte. by rewrite (block_at_same s s'). Qed.

Lemma in_block pos i : 0 ≤ pos → 0 ≤ i < 1024 - pos mod 1024 → (pos + i) / 1024 = pos / 1024 ∧ (pos + i) mod 1024 = pos mod 1024 + i.
Proof. intros Hp Hi. Z.to_euclidean_division_equations. lia. Qed.

Lemma zone_bytes d v start m pos chars z :
  0 ≤ pos → 0 ≤ chars ≤ 1024 - pos mod 1024 → i_zone m !! Z.to_nat (pos / 1024) = Some z →
  (if bool_decide (z = 0) then replicate (Z.to_nat chars) 0
   else take (Z.to_nat chars) (drop (Z.to_nat (pos mod 1024)) (block_at d v start z))) = file_byte d v start m <$> seqZ pos chars.
Proof.
  intros Hp Hc Hz. pose proof (Z.mod_pos_bound pos 1024 ltac:(lia)) as Hm. apply list_eq_same_length with (n := Z.to_nat chars).
  - by rewrite length_fmap, length_seqZ.
  - case_bool_decide; [apply length_replicate|]. rewrite length_take, length_drop, block_at_length. lia.
  - intros i x y Hi. rewrite list_lookup_fmap, lookup_seqZ_lt by lia. cbn [fmap option_fmap option_map].
    intros Hx [= <-]. destruct (in_block pos (Z.of_nat i) Hp ltac:(lia)) as [E1 E2]. unfold file_byte.
    rewrite E1, E2, (list_lookup_total_correct _ _ _ Hz). case_bool_decide.
    + apply lookup_replicate in Hx as [-> _]. done.
    + rewrite lookup_take_lt, lookup_drop in Hx by lia. symmetry. apply list_lookup_total_correct.
      rewrite <- Hx. f_equal. lia.
Qed.

(** The blocks that [left_] bytes from [pos] on touch. *)
Definition touched (pos left_ : Z) : Z := if bool_decide (left_ = 0) then 0 else (pos + left_ - 1) / 1024 - pos / 1024 + 1.

Lemma touched_next pos left_ :
  0 ≤ pos → 0 < left_ → let c := Z.min (1024 - pos mod 1024) left_ in
  touched pos left_ = touched (pos + c) (left_ - c) + 1.
Proof.
  intros Hp Hl c. unfold touched. rewrite (bool_decide_eq_false_2 (left_ = 0)) by lia.
  subst c. case_bool_decide as Hc; Z.to_euclidean_division_equations; lia.
Qed.

Record readable (s : bcache D) (dev v start : Z) (m : minix1_inode) (n : Z) : Prop := {
  rd_coherent : coherent s;
  rd_device : on_device (drv s) dev v start ∧ 0 ≤ start;
  rd_zones : length (i_zone m) = 9%nat ∧ Forall (λ z, 0 ≤ z ∧ start + 2 * z + 1 < 2 ^ 28) (i_zone m);
  rd_room : n ≤ Z.of_nat (length (bavail s)) }.

(** The byte can be read: its zone is not there, or the drive can read its block. *)
Definition byte_intact (d : D) (v start : Z) (m : minix1_inode) (p : Z) : Prop :=
  let z := i_zone m !!! Z.to_nat (p / 1024) in z = 0 ∨ block_intact d v start z.

Lemma read_zone_ok s dev v start m n z :
  readable s dev v start m (n + 1) → 0 ≤ n → z ∈ i_zone m →
  ∃ x s', (if bool_decide (z ≠ 0) then
              bh ← buffer_read patience dev z; mret (if bool_decide (bh = 0) then None else Some bh)
            else mret (Some 0)) s = Ok (x, s') ∧ readable s' dev v start m n ∧ same_disk (drv s) (drv s') ∧
    match x with
    | None => z ≠ 0 ∧ ¬ block_intact (hw (drv s)) v start z
    | Some bh => if bool_decide (bh ≠ 0) then z ≠ 0 ∧ ∃ k, buffers s' !! bh = Some k ∧ b_data k = block_at (hw (drv s)) v start z
                 else z = 0
    end.
Proof.
  intros [C [Hd H0] [Hl Hz] Hr] Hn Hin. destruct (proj1 (Forall_forall _ _) Hz z Hin) as [Hz0 Hz1].
  case_bool_decide as E.
  - destruct (buffer_read_ok s dev z v start C) as (b & s' & R & C' & SD & Hla & Hb); try done.
    { intros Hav. rewrite Hav in Hr. simpl in Hr. lia. }
    eexists _, s'. rewrite (bind_Ok _ _ _ _ _ R). split; [done|].
    split; [split; [done|by split; [apply (on_device_same (drv s))|]|by split|lia]|]. split; [done|].
    destruct (bool_decide_reflect (b = 0)) as [->|Hb0]; [by split|]. rewrite bool_decide_eq_true_2 by done.
    split; [done|]. destruct Hb as (k & Hk & _ & Hdat). exists k. split; [apply Hk|done].
  - exists (Some 0), s. rewrite (bool_decide_eq_false_2 (0 ≠ 0)) by (intros Hc; by apply Hc). split; [done|].
    split; [split; [done|by split|by split|lia]|]. split; [done|]. cbv iota. lia.
Qed.

(** What a read of [left_] bytes from [pos] on may give: the first [got] of them, and all
    of them unless the drive cannot read the byte behind. *)
Record read_upto (d : D) (v start : Z) (m : minix1_inode) (pos left_ got : Z) : Prop := {
  ru_bounds : 0 ≤ got ≤ left_;
  ru_short : got < left_ → ¬ byte_intact d v start m (pos + got) }.

Lemma minix_read_loop_ok m dev v start fuel : ∀ s pos left_,
  readable s dev v start m (touched pos left_) → 0 ≤ pos → 0 ≤ left_ → pos + left_ ≤ 7 * 1024 → touched pos left_ < Z.of_nat fuel →
  ∃ got s', minix_read_loop patience fuel m dev pos left_ s =
      Ok ((file_byte (hw (drv s)) v start m <$> seqZ pos got, pos + got, left_ - got), s') ∧
    read_upto (hw (drv s)) v start m pos left_ got ∧ coherent s' ∧ same_disk (drv s) (drv s').
Proof.
  induction fuel as [|fuel IH]; intros s pos left_ Hrd Hp Hl Hle Hf.
  { unfold touched in Hf. case_bool_decide; Z.to_euclidean_division_equations; lia. }
  cbn [minix_read_loop]. destruct (bool_decide_reflect (left_ = 0)) as [->|Hne].
  { exists 0, s. rewrite seqZ_nil by lia. rewrite Z.add_0_r. split; [done|]. split; [split; lia|]. split; [apply Hrd|done]. }
  set (c := Z.min (1024 - pos mod 1024) left_). pose proof (Z.mod_pos_bound pos 1024 ltac:(lia)) as Hm.
  pose proof (touched_next pos left_ Hp ltac:(lia)) as Ht. cbv zeta in Ht. fold c in Ht.
  assert (Hc : 0 < c ≤ left_ ∧ c ≤ 1024 - pos mod 1024) by (subst c; lia).
  assert (Hblk : 0 ≤ pos / 1024 < 7) by (Z.to_euclidean_division_equations; lia).
  assert (Hnext : 0 ≤ touched (pos + c) (left_ - c)).
  { unfold touched. case_bool_decide; [lia|]. Z.to_euclidean_division_equations. lia. }
  destruct (lookup_lt_is_Some_2 (i_zone m) (Z.to_nat (pos / 1024))) as [z Hz]; [destruct (rd_zones _ _ _ _ _ _ Hrd) as [-> _]; lia|].
  rewrite (bind_Ok (_bmap m (pos / BLOCK_SIZE)) _ s z s).
  2:{ unfold _bmap, BLOCK_SIZE. rewrite !bool_decide_eq_false_2 by lia. by apply of_option_Some. }
  rewrite Ht in Hrd. destruct (read_zone_ok s dev v start m _ z Hrd Hnext) as ([bh|] & s1 & R1 & Hrd1 & SD1 & Hbh); [by eapply list_elem_of_lookup_2| |].
  2:{ rewrite (bind_Ok _ _ _ _ _ R1). exists 0, s1. rewrite seqZ_nil, Z.add_0_r, Z.sub_0_r by lia. split; [done|].
      split; [|by split; [apply Hrd1|]]. split; [lia|]. intros _. unfold byte_intact. rewrite Z.add_0_r, (list_lookup_total_correct _ _ _ Hz).
      by intros [? | ?]; destruct Hbh. }
  rewrite (bind_Ok _ _ _ _ _ R1). cbv zeta. unfold BLOCK_SIZE. fold c.
  assert (Hdata : (if bool_decide (bh ≠ 0) then
      k ← load_buffer bh; mret (take (Z.to_nat c) (drop (Z.to_nat (pos mod 1024)) (b_data k)))
    else mret (replicate (Z.to_nat c) 0)) s1 = Ok (file_byte (hw (drv s)) v start m <$> seqZ pos c, s1)).
  { rewrite <- (zone_bytes (hw (drv s)) v start m pos c z Hp) by (lia || done). case_bool_decide.
    - destruct Hbh as (Hz0 & k & Hk & <-). rewrite (bind_Ok _ _ _ _ _ (load_buffer_run _ _ _ Hk)). by rewrite bool_decide_eq_false_2.
    - by rewrite bool_decide_eq_true_2. }
  rewrite (bind_Ok _ _ _ _ _ Hdata). assert (Hu : u32 (pos + c) = pos + c) by (unfold u32; apply Z.mod_small; lia). rewrite Hu.
  destruct (IH s1 (pos + c) (left_ - c) Hrd1) as (got & s' & R & [G1 G2] & C' & SD'); [lia..|].
  rewrite (bind_Ok _ _ _ _ _ R). cbn [fst snd]. exists (c + got), s'. split; [|split; [|split; [done|by etrans]]].
  - unfold mret, M_ret. replace (pos + c + got) with (pos + (c + got)) by lia. replace (left_ - c - got) with (left_ - (c + got)) by lia.
    do 4 f_equal. rewrite seqZ_app by lia. rewrite fmap_app. f_equal.
    apply list_fmap_ext. intros i x _. by apply (file_byte_same (drv s)).
  - split; [lia|]. intros Hlt Hb. apply G2; [lia|]. rewrite <- Z.add_assoc. destruct Hb as [Hb|Hb]; [by left|right].
    destruct SD1 as [[_ E] _]. intros x Hx. rewrite E. by apply Hb.
Qed.

(** C17: Reading a Minix file, from the file system through the cache and the block
    layer to the ports of the drive.  For every drive that follows the ATA protocol,
    however long it stays busy, in a coherent cache with a free buffer for every block
    of the range, and for a range inside the first seven zones: [minix_file_read] stores
    the first [got] bytes of the range as the zones on the disk have them, with zeros
    for the zones that are not there, moves the position behind them, and returns
    [got], or -ERROR when it is 0.  [got] is the whole count unless the drive cannot read the block
    of the first byte that is missing.  The cache stays coherent and the disk as it was. *)
Theorem minix_file_read_correct s dev v start m pos count :
  readable s dev v start m (touched pos count) → 0 ≤ pos → 0 < count → pos + count ≤ 7 * 1024 →
  ∃ got s', minix_file_read patience m dev pos count s =
      Ok ((file_byte (hw (drv s)) v start m <$> seqZ pos got, pos + got, if bool_decide (got = 0) then - ERROR else got), s') ∧
    read_upto (hw (drv s)) v start m pos count got ∧ coherent s' ∧ same_disk (drv s) (drv s').
Proof.
  intros Hrd Hp Hc Hle. destruct (minix_read_loop_ok m dev v start 9 s pos count Hrd Hp ltac:(lia) Hle) as (got & s' & R & U & C & SD).
  { unfold touched. rewrite bool_decide_eq_false_2 by lia. Z.to_euclidean_division_equations. lia. }
  exists got, s'. split; [|done]. unfold minix_file_read. rewrite bool_decide_eq_false_2 by lia.
  rewrite (bind_Ok _ _ _ _ _ R). unfold mret, M_ret. replace (count - (count - got)) with got by lia.
  destruct (bool_decide_reflect (got = 0)) as [->|]; [done|]. by rewrite bool_decide_eq_true_2.
Qed.

(** ** The superblock and the inodes *)

(** [read_minix_super] answers the superblock of block 1, or -1 when the magic number is
    not the one of version 1 with long names. *)
Theorem read_minix_super_ok s dev v start :
  coherent s → bavail s ≠ [] → on_device (drv s) dev v start → 0 ≤ start → start + 3 < 2 ^ 28 →
  block_intact (hw (drv s)) v start 1 →
  let msb := read_sb (block_at (hw (drv s)) v start 1) in
  ∃ s', read_minix_super patience dev s = Ok (if bool_decide (s_magic msb = 0x138F) then (0, Some msb) else (-1, None), s') ∧
    coherent s' ∧ same_disk (drv s) (drv s').
Proof.
  intros C Hav Hd H0 H1 Hin msb.
  destruct (buffer_read_ok s dev 1 v start C Hav Hd H0 ltac:(lia) ltac:(lia)) as (b & s' & R & C' & SD & _ & Hb).
  destruct (bool_decide_reflect (b = 0)) as [->|Hb0]; [done|]. destruct Hb as (k & Hk & _ & Hdat).
  exists s'. split; [|done]. unfold read_minix_super. rewrite (bind_Ok _ _ _ _ _ R). rewrite (bool_decide_eq_true_2 (b ≠ 0)) by done. run_step.
  rewrite (bind_Ok _ _ _ _ _ (load_buffer_run _ _ _ (proj1 Hk))). cbv zeta. rewrite Hdat. fold msb.
  destruct (bool_decide_reflect (s_magic msb = 0x138F)) as [E|E].
  - by rewrite bool_decide_eq_false_2 by (intros Hn; by apply Hn).
  - by rewrite bool_decide_eq_true_2.
Qed.

(** [read_minix_inode] takes the entry [i_num] of the table of inodes, counted from 0. *)
Theorem read_minix_inode_ok s msb dev v start num :
  coherent s → bavail s ≠ [] → on_device (drv s) dev v start → 0 ≤ start → 0 ≤ num < 2 ^ 16 →
  0 ≤ s_imap_blocks msb < 2 ^ 16 → 0 ≤ s_zmap_blocks msb < 2 ^ 16 →
  let block := 2 + s_imap_blocks msb + s_zmap_blocks msb + num / 32 in
  start + 2 * block + 1 < 2 ^ 28 → block_intact (hw (drv s)) v start block →
  ∃ s', read_minix_inode patience msb dev num s =
      Ok (read_minode (drop (Z.to_nat (32 * (num mod 32))) (block_at (hw (drv s)) v start block)), s') ∧
    coherent s' ∧ same_disk (drv s) (drv s').
Proof.
  intros C Hav Hd H0 Hn Hi Hz block Hb Hin. assert (Hq : 0 ≤ num / 32 < 2 ^ 11) by (Z.to_euclidean_division_equations; lia).
  destruct (buffer_read_ok s dev block v start C Hav Hd H0 ltac:(lia) Hb) as (b & s' & R & C' & SD & _ & Hb1).
  destruct (bool_decide_reflect (b = 0)) as [->|Hb0]; [done|]. destruct Hb1 as (k & Hk & _ & Hdat).
  exists s'. split; [|done]. unfold read_minix_inode, MINIX1_INODES_PER_BLOCK. rewrite Z.quot_div_nonneg, Z.rem_mod_nonneg by lia.
  fold block. assert (E : u32 (i32 block) = block).
  { unfold i32, u32. rewrite (Z.mod_small (block + 2 ^ 31)) by lia. rewrite Z.mod_small by lia. lia. }
  cbv zeta. rewrite E. rewrite (bind_Ok _ _ _ _ _ R). rewrite (bool_decide_eq_false_2 (b = 0)) by done. run_step.
  rewrite (bind_Ok _ _ _ _ _ (load_buffer_run _ _ _ (proj1 Hk))). rewrite Hdat.
  rewrite bool_decide_eq_false_2 by (pose proof (Z.mod_pos_bound num 32); lia). done.
Qed.

(** ** What does not work *)

(** The last primary partition of the second drive, minor number 9, is looked for among
    the logical ones: [block_read] tests [minor < MAX_PRIM]. *)
Theorem last_primary_misread s v start :
  on_device s 0x309 v start →
  v = 1 ∧ ∃ h p, hd_infos s !! 1%nat = Some h ∧ logical h !! 57%nat = Some p ∧ start_sect p = start.
Proof. intros [_ [-> _] (h & p & Hh & Hs & Hp)]. split; [done|]. by exists h, p. Qed.

Lemma find_dangling (m : gmap Z buffer_head) dev block b chain :
  b ∈ chain → m !! b = None → (∀ x k, x ∈ chain → m !! x = Some k → ¬ (b_dev k = dev ∧ b_blocknr k = block)) →
  find_in_chain m dev block chain = None.
Proof.
  induction chain as [|x chain IH]; intros Hin Hb Hno; [by apply elem_of_nil in Hin|]. cbn [find_in_chain].
  destruct (m !! x) as [k|] eqn:Hx; [|done]. cbn [mbind option_bind].
  rewrite bool_decide_eq_false_2 by (apply (Hno x); [set_solver|done]).
  apply IH; [|done|intros y ky Hy; apply Hno; set_solver]. apply elem_of_cons in Hin as [->|Hin]; [congruence|done].
Qed.

(** [buffer_free] frees a buffer that is still in its chain: the next time its block is
    asked for, the code reads the freed memory. *)
Theorem buffer_free_dangles s b k :
  coherent s → hashed s b k → b_count k = 1 →
  ∃ s', buffer_free b s = Ok (tt, s') ∧ buffer_read patience (b_dev k) (b_blocknr k) s' = Stop Faulted.
Proof.
  intros C [Hk Hin] Hc. unfold buffer_free. rewrite (bind_Ok _ _ _ _ _ (load_buffer_run _ _ _ Hk)). rewrite Hc. cbv zeta.
  change (u8 (1 - 1)) with 0. rewrite (bind_Ok _ _ _ _ _ (edit_buffer_run _ _ _ _ Hk)). rewrite bool_decide_eq_true_2 by done.
  eexists. split; [reflexivity|]. set (s' := set_hash _ _ _). unfold buffer_read, buffer_get. rewrite bind_assoc.
  apply bind_Stop. unfold get_buffer_hash. run_step.
  assert (Hf : find_in_chain (buffers s') (b_dev k) (b_blocknr k) (hash_chain s' (b_dev k) (b_blocknr k)) = None).
  { apply (find_dangling _ _ _ b); [exact Hin|apply lookup_delete_eq|]. intros x y Hx Hy [E1 E2].
    cbn [s' set_hash set_buffers buffers] in Hy. apply lookup_delete_Some in Hy as [Hne Hy]. rewrite lookup_insert_ne in Hy by done.
    apply Hne. apply (co_one _ C b x k y); [done| |done|done]. split; [done|]. by rewrite E1, E2. }
  by rewrite Hf.
Qed.
End disk_proofs.

(** ** A disk *)

(** Every sector is filled with its number; the sector 78, in the block 7 of
    the first partition, which starts at 63, cannot be read. *)
Definition demo_sectors : demo_drive := Demo (λ _ n, replicate 512 n) (λ _ n, bool_decide (n = 78)) (λ _, 0) idle 1.
Definition demo_part (start : Z) : part_info := Part start 100000 0.
Definition demo_cache : bcache demo_drive :=
  mk_bcache (mk_drives demo_sectors 1 [] [Hd_info [demo_part 0; demo_part 63] []] 1) ∅ ∅ 0 [4096; 8192; 12288].
Definition demo_minode : minix1_inode := Minix1 0 0 2000 0 0 1 [5; 0; 7; 0; 0; 0; 0; 0; 0].

Lemma demo_readable : readable demo_cache 0x301 0 63 demo_minode 3.
Proof.
  split.
  - split; [done| | | |].
    + intros h b Hb. unfold demo_cache in Hb. cbn in Hb. rewrite lookup_empty in Hb. by apply elem_of_nil in Hb.
    + intros b b' k k' [Hk _]. unfold demo_cache in Hk. cbn in Hk. by rewrite lookup_empty in Hk.
    + intros b k Hk. unfold demo_cache in Hk. cbn in Hk. by rewrite lookup_empty in Hk.
    + split; [apply (bool_decide_unpack _); vm_compute; exact I|]. intros a Ha.
      split; [|apply lookup_empty]. intros ->. revert Ha. apply (bool_decide_unpack _). vm_compute. exact I.
  - split; [|lia]. split; [done|done|]. eexists _, (demo_part 63). split; [reflexivity|]. split; [reflexivity|]. vm_compute. reflexivity.
  - split; [done|]. repeat constructor; lia.
  - done.
Qed.

(** The end of the second zone, which is not there, and the start of the third, which
    cannot be read. *)
Lemma minix_file_read_correct_witness :
  ∃ got s', minix_file_read 3 demo_minode 0x301 1000 1100 demo_cache =
    Ok ((file_byte demo_sectors 0 63 demo_minode <$> seqZ 1000 got, 1000 + got, if bool_decide (got = 0) then - ERROR else got), s') ∧
    read_upto demo_sectors 0 63 demo_minode 1000 1100 got.
Proof.
  destruct (minix_file_read_correct demo_cache 0x301 0 63 demo_minode 1000 1100 demo_readable) as (got & s' & R & U & _); [lia|lia|lia|].
  exists got, s'. split; [exact R|exact U].
Defined.

(** What it stores: 24 bytes of the sector 74 and 1024 zeros. *)
Example demo_short_read :
  match minix_file_read 3 demo_minode 0x301 1000 1100 demo_cache with
  | Ok (data, pos, r, _) => data = replicate 24 74 ++ replicate 1024 0 ∧ pos = 2048 ∧ r = 1048
  | Stop _ => False
  end.
Proof. vm_compute. auto. Qed.
