(* ===== verification/Desc.v ===== *)
(** * The descriptor tables: include/sys/system.h, [gdt] of kernel/init/main.c and
    kernel/trap/trap.c

    [tables] holds the tables the processor reads: the segments, the gates, the task
    states of the processors, of which the fields the kernel sets, and the register that
    says which one is in use.  The addresses of the entry points of trapentry.S are given
    by [trap_handlers]; [cid] is the number of the processor and [pts] the address of its
    task state.  Theorem [interrupts_enter_kernel] reads the tables as the processor does. *)

From S2P Require Import Prelude Layout Boot.

Local Open Scope Z_scope.

Record seg_descriptor := Seg {
  lim_15_0 : Z; base_15_0 : Z; base_23_16 : Z; seg_type : Z; seg_s : Z; seg_dpl : Z; seg_p : Z;
  lim_19_16 : Z; seg_avl : Z; seg_rsv1 : Z; seg_db : Z; seg_g : Z; base_31_24 : Z }.

Record gate_descriptor := Gate {
  gd_off_15_0 : Z; gd_sel : Z; gd_args : Z; gd_rsv1 : Z; gd_type : Z; gd_s : Z; gd_dpl : Z; gd_p : Z; gd_off_31_16 : Z }.

Record taskstate := Taskstate { ts_esp0 : Z; ts_ss0 : Z; ts_iomb : Z }.

Definition _KERNEL_CS_ : Z := 0x08.
Definition _KERNEL_DS_ : Z := 0x10.
Definition _USER_CS_ : Z := 0x18.
Definition _USER_DS_ : Z := 0x20.
Definition _TSS0_ : Z := 0x28.
Definition STA_X : Z := 0x8.
Definition STA_W : Z := 0x2.
Definition STA_R : Z := 0x2.
Definition STS_T32A : Z := 0x9.
Definition STS_IG32 : Z := 0xE.
Definition STS_TG32 : Z := 0xF.
Definition CPUNUMS : nat := 256.
Definition T_SYSCALL : nat := 128.
Definition SIZEOF_TASKSTATE : Z := 104.

Definition set_seg (type base limt dpl : Z) : seg_descriptor :=
  Seg (Z.land limt 0xFFFF) (Z.land base 0xFFFF) (Z.land (Z.shiftr base 16) 0xFF) type 1 dpl 1
    (Z.land (Z.shiftr limt 16) 0xF) 0 0 1 1 (Z.land (Z.shiftr base 24) 0xFF).

Definition set_seg_null : seg_descriptor := Seg 0 0 0 0 0 0 0 0 0 0 0 0 0.

Definition setgate (istrap : bool) (sel off dpl : Z) : gate_descriptor :=
  Gate (Z.land (u32 off) 0xFFFF) sel 0 0 (if istrap then STS_TG32 else STS_IG32) 0 dpl 1 (Z.shiftr (u32 off) 16).

Definition empty_gate : gate_descriptor := Gate 0 0 0 0 0 0 0 0 0.

(** The segments at the start; an entry that is not named is 0. *)
Definition gdt_init : list seg_descriptor :=
  [set_seg_null;
   set_seg (Z.lor STA_X STA_R) 0 0xFFFFFFFF 0;
   set_seg STA_W 0 0xFFFFFFFF 0;
   set_seg (Z.lor STA_X STA_R) 0 0xFFFFFFFF 3;
   set_seg STA_W 0 0xFFFFFFFF 3] ++ replicate CPUNUMS set_seg_null.

Record tables := mk_tables {
  gdt : list seg_descriptor;
  idt : list gate_descriptor;
  cpu_ts : list taskstate;
  tr : Z }.

(** The tables of the kernel image. *)
Definition tables_init : tables :=
  mk_tables gdt_init (replicate 256 empty_gate) (replicate CPUNUMS (Taskstate 0 0 0)) 0.

Definition put_gate (i : nat) (gate : gate_descriptor) : M tables unit :=
  t ← get;
  of_option (idt t !! i) ;;
  put (mk_tables (gdt t) (<[i := gate]> (idt t)) (cpu_ts t) (tr t)).

Definition put_seg (i : nat) (d : seg_descriptor) : M tables unit :=
  t ← get;
  of_option (gdt t !! i) ;;
  put (mk_tables (<[i := d]> (gdt t)) (idt t) (cpu_ts t) (tr t)).

Definition with_s (x : Z) (d : seg_descriptor) : seg_descriptor :=
  Seg (lim_15_0 d) (base_15_0 d) (base_23_16 d) (seg_type d) x (seg_dpl d) (seg_p d) (lim_19_16 d) (seg_avl d)
    (seg_rsv1 d) (seg_db d) (seg_g d) (base_31_24 d).

Section trap_init.
Context (trap_handlers : nat → Z) (cid : nat) (pts : Z).

Definition trap_init_percpu : M tables unit :=
  t ← get;
  ts ← of_option (cpu_ts t !! cid);
  put (mk_tables (gdt t) (idt t)
    (<[cid := Taskstate (u32 (KERNEL_STACK_TOP - (KERNEL_STKSIZE + PAGE_SIZE) * Z.of_nat cid)) _KERNEL_DS_ (ts_iomb ts)]> (cpu_ts t))
    (tr t)) ;;
  let i := (Z.to_nat (Z.shiftr _TSS0_ 3) + cid)%nat in
  put_seg i (set_seg STS_T32A pts SIZEOF_TASKSTATE 0) ;;
  put_seg i (with_s 0 (set_seg STS_T32A pts SIZEOF_TASKSTATE 0)) ;;
  modify (λ t, mk_tables (gdt t) (idt t) (cpu_ts t) (u16 (_TSS0_ + Z.of_nat cid * 8))).

(** The loop of [trap_init] from [i] on. *)
Fixpoint set_gates (n i : nat) : M tables unit :=
  match n with
  | O => mret tt
  | S n => put_gate i (setgate false _KERNEL_CS_ (trap_handlers i) 0) ;; set_gates n (S i)
  end.

Definition trap_init : M tables unit :=
  set_gates 255 0 ;;
  put_gate T_SYSCALL (setgate false _KERNEL_CS_ (trap_handlers T_SYSCALL) 3) ;;
  trap_init_percpu.
End trap_init.

(** ** The tables as the processor reads them *)

Definition seg_base (d : seg_descriptor) : Z := base_15_0 d + 2 ^ 16 * base_23_16 d + 2 ^ 24 * base_31_24 d.
(** The last offset of the segment. *)
Definition seg_limit (d : seg_descriptor) : Z :=
  let l := lim_15_0 d + 2 ^ 16 * lim_19_16 d in if bool_decide (seg_g d = 1) then l * 4096 + 4095 else l.
Definition gate_offset (g : gate_descriptor) : Z := gd_off_15_0 g + 2 ^ 16 * gd_off_31_16 g.
Definition gdt_at (t : tables) (sel : Z) : option seg_descriptor := gdt t !! Z.to_nat (Z.shiftr sel 3).

Lemma set_seg_base type base limt dpl : 0 ≤ base < 2 ^ 32 → seg_base (set_seg type base limt dpl) = base.
Proof.
  intros Hb. unfold seg_base, set_seg. cbn [base_15_0 base_23_16 base_31_24].
  change 0xFFFF with (Z.ones 16). change 0xFF with (Z.ones 8). rewrite !Z.land_ones, !Z.shiftr_div_pow2 by lia.
  Z.to_euclidean_division_equations. lia.
Qed.

Lemma setgate_offset istrap sel off dpl : 0 ≤ off < 2 ^ 32 → gate_offset (setgate istrap sel off dpl) = off.
Proof.
  intros Hb. unfold gate_offset, setgate, u32. cbn [gd_off_15_0 gd_off_31_16]. rewrite (Z.mod_small off) by done.
  change 0xFFFF with (Z.ones 16). rewrite !Z.land_ones, !Z.shiftr_div_pow2 by lia. Z.to_euclidean_division_equations. lia.
Qed.

Section trap_init_proofs.
Context (trap_handlers : nat → Z) (cid : nat) (pts : Z).

Lemma put_gate_run t i gate :
  (i < length (idt t))%nat → put_gate i gate t = Ok (tt, mk_tables (gdt t) (<[i := gate]> (idt t)) (cpu_ts t) (tr t)).
Proof.
  intros Hi. destruct (lookup_lt_is_Some_2 _ _ Hi) as [x Hx]. unfold put_gate. run_step.
  by rewrite (bind_Ok _ _ _ _ _ (of_option_Some _ _ _ Hx)).
Qed.

Lemma put_seg_run t i d :
  (i < length (gdt t))%nat → put_seg i d t = Ok (tt, mk_tables (<[i := d]> (gdt t)) (idt t) (cpu_ts t) (tr t)).
Proof.
  intros Hi. destruct (lookup_lt_is_Some_2 _ _ Hi) as [x Hx]. unfold put_seg. run_step.
  by rewrite (bind_Ok _ _ _ _ _ (of_option_Some _ _ _ Hx)).
Qed.

Lemma set_gates_run n : ∀ i t,
  (i + n ≤ length (idt t))%nat →
  ∃ l, set_gates trap_handlers n i t = Ok (tt, mk_tables (gdt t) l (cpu_ts t) (tr t)) ∧ length l = length (idt t) ∧
    ∀ j, l !! j = if bool_decide (i ≤ j < i + n)%nat then Some (setgate false _KERNEL_CS_ (trap_handlers j) 0) else idt t !! j.
Proof.
  induction n as [|n IH]; intros i t Hl.
  { exists (idt t). split; [by destruct t|]. split; [done|]. intros j. by rewrite bool_decide_eq_false_2 by lia. }
  cbn [set_gates]. rewrite (bind_Ok _ _ _ _ _ (put_gate_run t i _ ltac:(lia))). set (t1 := mk_tables _ _ _ _).
  destruct (IH (S i) t1) as (l & R & Hlen & Hj).
  { cbn [t1 idt]. rewrite length_insert. lia. }
  exists l. split; [exact R|]. split; [rewrite Hlen; apply length_insert|]. intros j. rewrite Hj. cbn [t1 idt].
  destruct (decide (j = i)) as [->|Hne].
  - rewrite (bool_decide_eq_false_2 (S i ≤ i < _)%nat), (bool_decide_eq_true_2 (i ≤ i < _)%nat) by lia. apply list_lookup_insert_eq. lia.
  - rewrite list_lookup_insert_ne by done. by rewrite (bool_decide_ext _ (i ≤ j < i + S n)%nat) by lia.
Qed.

(** The gates, in full. *)
Definition gate_at (j : nat) : option gate_descriptor :=
  if bool_decide (j = T_SYSCALL) then Some (setgate false _KERNEL_CS_ (trap_handlers j) 3)
  else if bool_decide (j < 255)%nat then Some (setgate false _KERNEL_CS_ (trap_handlers j) 0)
  else if bool_decide (j < 256)%nat then Some empty_gate else None.

Lemma gate_open j g : gate_at j = Some g → gd_dpl g = 3 → j = T_SYSCALL.
Proof.
  unfold gate_at. repeat case_bool_decide; intros H3; try done; injection H3 as <-; discriminate.
Qed.

Lemma trap_init_run :
  (cid < 256)%nat →
  ∃ t, trap_init trap_handlers cid pts tables_init = Ok (tt, t) ∧ (∀ j, idt t !! j = gate_at j) ∧
    gdt t = <[(5 + cid)%nat := with_s 0 (set_seg STS_T32A pts SIZEOF_TASKSTATE 0)]> gdt_init ∧
    cpu_ts t !! cid = Some (Taskstate (u32 (KERNEL_STACK_TOP - (KERNEL_STKSIZE + PAGE_SIZE) * Z.of_nat cid)) _KERNEL_DS_ 0) ∧
    tr t = u16 (_TSS0_ + Z.of_nat cid * 8).
Proof.
  intros Hc. unfold trap_init. destruct (set_gates_run 255 0 tables_init) as (l & R & Hlen & Hj).
  { cbn [tables_init idt]. rewrite length_replicate. lia. }
  change (length (idt tables_init)) with 256%nat in Hlen. rewrite (bind_Ok _ _ _ _ _ R). set (t1 := mk_tables _ _ _ _).
  rewrite (bind_Ok _ _ _ _ _ (put_gate_run t1 T_SYSCALL _ ltac:(cbn [t1 idt]; rewrite Hlen; unfold T_SYSCALL; lia))). set (t2 := mk_tables _ _ _ _).
  assert (Hts : cpu_ts t2 !! cid = Some (Taskstate 0 0 0)) by (by apply lookup_replicate_2).
  assert (Hg : (5 + cid < length (gdt t2))%nat) by (change (length (gdt t2)) with 261%nat; lia).
  unfold trap_init_percpu. run_step. rewrite (bind_Ok _ _ _ _ _ (of_option_Some _ _ _ Hts)). cbv zeta. run_step.
  change (Z.to_nat (Z.shiftr _TSS0_ 3) + cid)%nat with (5 + cid)%nat.
  set (t3 := mk_tables (gdt t2) _ _ _). rewrite (bind_Ok _ _ _ _ _ (put_seg_run t3 (5 + cid) _ Hg)). set (t4 := mk_tables _ _ _ _).
  rewrite (bind_Ok _ _ _ _ _ (put_seg_run t4 (5 + cid) _ ltac:(cbn [t4 t3 gdt]; by rewrite length_insert))).
  eexists. split; [reflexivity|]. cbn [idt gdt cpu_ts tr t4 t3 t2 t1]. split_and!; [|by rewrite list_insert_insert_eq| |done].
  - intros j. unfold gate_at. destruct (decide (j = T_SYSCALL)) as [->|Hne].
    + rewrite bool_decide_eq_true_2 by done. apply list_lookup_insert_eq. rewrite Hlen. unfold T_SYSCALL. lia.
    + rewrite (bool_decide_eq_false_2 (j = T_SYSCALL)), list_lookup_insert_ne by done. rewrite Hj.
      rewrite (bool_decide_ext (0 ≤ j < 0 + 255)%nat (j < 255)%nat) by lia. case_bool_decide; [done|].
      change (idt tables_init) with (replicate 256 empty_gate). case_bool_decide; [by apply lookup_replicate_2|]. apply lookup_ge_None_2. rewrite length_replicate. lia.
  - apply list_lookup_insert_eq. change (cid < 256)%nat. lia.
Qed.
End trap_init_proofs.

(** The four segments cover all addresses, and two of them are for user programs. *)
Definition flat_selectors : list Z := [_KERNEL_CS_; _KERNEL_DS_; _USER_CS_; _USER_DS_].

Definition flat_ok (sel : Z) (d : seg_descriptor) : Prop :=
  seg_base d = 0 ∧ seg_limit d = 0xFFFFFFFF ∧ (seg_dpl d = 3 ↔ sel ∈ [_USER_CS_; _USER_DS_]).

Lemma flat_init : Forall (λ sel, ∃ d, gdt_init !! Z.to_nat (Z.shiftr sel 3) = Some d ∧ flat_ok sel d) flat_selectors.
Proof.
  repeat (apply Forall_cons_2; [eexists; split; [reflexivity|]; split; [reflexivity|]; split; [reflexivity|]|]); [..|constructor].
  - split; [discriminate|intros H; revert H; apply (bool_decide_unpack _); vm_compute; exact I].
  - split; [discriminate|intros H; revert H; apply (bool_decide_unpack _); vm_compute; exact I].
  - split; [intros _; apply (bool_decide_unpack _); vm_compute; exact I|reflexivity].
  - split; [intros _; apply (bool_decide_unpack _); vm_compute; exact I|reflexivity].
Qed.

(** The entry of a task state is not one of them. *)
Lemma flat_kept sel cid x :
  sel ∈ flat_selectors → ∃ d, <[(5 + cid)%nat := x]> gdt_init !! Z.to_nat (Z.shiftr sel 3) = Some d ∧ flat_ok sel d.
Proof.
  intros Hsel. destruct (proj1 (Forall_forall _ _) flat_init sel Hsel) as (d & Hd & Hok). exists d. split; [|exact Hok].
  assert (Hlt : Forall (λ sel, (Z.to_nat (Z.shiftr sel 3) < 5)%nat) flat_selectors) by (apply (bool_decide_unpack _); vm_compute; exact I).
  rewrite Forall_forall in Hlt. rewrite list_lookup_insert_ne; [exact Hd|]. specialize (Hlt sel Hsel). lia.
Qed.

(** C21: The tables after [trap_init] let a user program into the kernel through one door
    only.  Every vector below 255 leads to its entry point of trapentry.S, in the kernel
    code segment and with interrupts off; a program may ask for the system call and for
    no other; the kernel segments are closed to it; and the task register names the task
    state of the processor, whose stack is the one the boot code maps for it. *)
Theorem interrupts_enter_kernel trap_handlers cid pts :
  (∀ i, 0 ≤ trap_handlers i < 2 ^ 32) → (cid < 256)%nat → 0 ≤ pts < 2 ^ 32 →
  ∃ t, trap_init trap_handlers cid pts tables_init = Ok (tt, t) ∧
    (∀ i, (i < 255)%nat → ∃ g, idt t !! i = Some g ∧ gate_offset g = trap_handlers i ∧ gd_p g = 1 ∧ gd_type g = STS_IG32 ∧
       gd_sel g = _KERNEL_CS_ ∧ (gd_dpl g = 3 ↔ i = T_SYSCALL)) ∧
    (∀ i g, idt t !! i = Some g → gd_p g = 1 → gd_dpl g = 3 → i = T_SYSCALL) ∧
    (∀ sel, sel ∈ flat_selectors → ∃ d, gdt_at t sel = Some d ∧ flat_ok sel d) ∧
    (∃ d ts, gdt_at t (tr t) = Some d ∧ seg_base d = pts ∧ seg_type d = STS_T32A ∧ seg_s d = 0 ∧ seg_dpl d = 0 ∧
       cpu_ts t !! cid = Some ts ∧ ts_ss0 ts = _KERNEL_DS_ ∧
       ts_esp0 ts = u32 (KERNEL_STACK_TOP - KERNEL_STKSIZE - (KERNEL_STKSIZE + PAGE_SIZE) * Z.of_nat cid) + KERNEL_STKSIZE).
Proof.
  intros Hh Hc Hp. destruct (trap_init_run trap_handlers cid pts Hc) as (t & R & Hi & Hg & Ht & Htr). exists t.
  split; [exact R|]. split; [|split; [|split]].
  - intros i Hlt. rewrite Hi. unfold gate_at. rewrite (bool_decide_eq_true_2 (i < 255)%nat) by done.
    destruct (bool_decide_reflect (i = T_SYSCALL)) as [E|E]; eexists; (split; [reflexivity|]);
      (split; [apply setgate_offset, Hh|]); (split; [reflexivity|]); (split; [reflexivity|]); (split; [reflexivity|]);
      cbn [gd_dpl setgate]; split; [intros _; exact E|reflexivity|discriminate|intros H; destruct (E H)].
  - intros i g Hig _ H3. rewrite Hi in Hig. by apply (gate_open trap_handlers i g).
  - intros sel Hsel. apply (flat_kept sel cid (with_s 0 (set_seg STS_T32A pts SIZEOF_TASKSTATE 0))) in Hsel. unfold gdt_at. rewrite Hg. exact Hsel.
  - assert (Es : Z.to_nat (Z.shiftr (tr t) 3) = (5 + cid)%nat).
    { rewrite Htr. unfold u16, _TSS0_. rewrite Z.mod_small by lia. rewrite Z.shiftr_div_pow2 by lia. Z.to_euclidean_division_equations. lia. }
    eexists _, _. split; [unfold gdt_at; rewrite Hg, Es; apply list_lookup_insert_eq; change (5 + cid < 261)%nat; lia|].
    split; [by apply (set_seg_base STS_T32A)|]. split; [done|]. split; [done|]. split; [done|]. split; [exact Ht|]. split; [done|].
    cbn [ts_esp0]. unfold KERNEL_STACK_TOP, KERNEL_STKSIZE, PAGE_SIZE, u32. rewrite !Z.mod_small by lia. lia.
Qed.

Lemma interrupts_enter_kernel_witness :
  ∃ t g, trap_init (λ i, 0xC0100000 + 10 * Z.of_nat (i `min` 255)) 2 0xC0200000 tables_init = Ok (tt, t) ∧
    idt t !! 14%nat = Some g ∧ gate_offset g = 0xC010008C.
Proof.
  destruct (interrupts_enter_kernel (λ i, 0xC0100000 + 10 * Z.of_nat (i `min` 255)) 2 0xC0200000) as (t & R & Hi & _); [lia|lia|lia|].
  destruct (Hi 14%nat ltac:(lia)) as (g & Hg & Ho & _). exists t, g. split; [exact R|]. split; [exact Hg|]. rewrite Ho. reflexivity.
Defined.

(** The loop of [trap_init] ends before the last vector, which has no gate. *)
Theorem last_vector_missing trap_handlers cid pts :
  (cid < 256)%nat → ∃ t, trap_init trap_handlers cid pts tables_init = Ok (tt, t) ∧ idt t !! 255%nat = Some empty_gate.
Proof.
  intros Hc. destruct (trap_init_run trap_handlers cid pts Hc) as (t & R & Hi & _). exists t. split; [exact R|]. by rewrite Hi.
Qed.

(** The task state has the limit of a segment counted in pages, 0x68FFF, and its map of
    ports starts at 0: the processor reads the map of the ports a program may use from
    the memory of the kernel behind it. *)
Theorem task_state_limit pts : seg_limit (with_s 0 (set_seg STS_T32A pts SIZEOF_TASKSTATE 0)) = 0x68FFF.
Proof. reflexivity. Qed.
